(* ===== verification/_CoqProject ===== *)
-Q . S2P
Prelude.v
TcpFifo.v
TcpBase.v
TcpTypes.v
TcpOps.v
TcpProcess.v
TcpApi.v
TcpDemo.v
TcpState.v
TcpFrame.v
TcpReceive.v
TcpDelivery.v
TcpSend.v
TcpEndToEnd.v
TcpEvents.v
TcpTerm.v
TcpCases.v
Glib.v
GlibThm.v
TcpLists.v
Bitset.v
IdsHeap.v
TimerHeap.v
TimerHeapThm.v
TimerHeapApi.v
Base58.v
FlexBuffer.v
Crypto.v
CryptoThm.v
Pipeline.v
RcMem.v
Rings.v
LinkedList.v
LinkedListThm.v
Hashtable.v
HashtableThm.v
HashtableApi.v
Mux.v
MuxRun.v
MuxFraming.v
MuxInv.v
MuxSafe.v
MuxCases.v
Reliable.v
ReliableCalls.v
ReliableThm.v
Ice.v
IceThm.v
Session.v
SessionSdp.v
SessionInv.v
SessionCalls.v
SessionThm.v
SessionSdpThm.v
SessionClose.v
SessionApi.v
CStr.v
Candidate.v
CandidateThm.v
Tables.v
Forwarding.v
ForwardingRun.v
ForwardingThm.v
Cp.v
Node.v
Persist.v
PersistThm.v
Carrier.v
CarrierCalls.v
CarrierStart.v
CarrierDemo.v
CarrierThm.v
CarrierInvite.v
CarrierFiles.v
CarrierFilesThm.v
CarrierRun.v
CarrierRunThm.v
DhtAdaptor.v
DhtThm.v
