(* ===== verification/Prelude.v ===== *)
(** * A verification library for the IOEX carrier SDK

    The carrier SDK under src/src connects two nodes through a distributed hash
    table (DHT), where they are friends and send each other messages and invitations,
    and opens sessions between them: streams of bytes over a transport that
    may be unreliable, optionally encrypted, optionally carrying many channels.
    This library models the parts of it that hold the logic of a node and of a stream,
    and the data structures under them, and proves what makes them correct.

    ** The parts and how they interact

    A stream is a chain of handlers. The application writes at the root of the
    chain; each handler adds its header or transforms the packet and gives it to
    the next one below; what arrives travels the other way.

<<
      application              session.c                     Session*
        root handler           session.c                     Pipeline, Session
        port forwarding        portforwarding.c, fdset.c     Forwarding, ForwardingRun,
                                                             ForwardingThm
        multiplexer            multiplex_handler.c           Mux, MuxRun, MuxFraming,
                                                             MuxInv, MuxSafe, MuxCases
        reliability            reliable_handler.c            Reliable, ReliableCalls,
                                                             ReliableThm
                               pseudotcp.c                   Tcp*
                               glist.c, gqueue.c             Glib, GlibThm, TcpLists
        encryption             crypto_handler.c, crypto.c    Crypto, CryptoThm
        transport              ice.c                         Ice, IceThm, Candidate,
                                                             CandidateThm
>>

    The handlers pass flex buffers (FlexBuffer), blocks with room in front of the
    payload. The multiplexer names its channels with an identifier heap (IdsHeap,
    over Bitset) and keeps them, reference counted (RcMem), in a linked hash table
    (Hashtable, HashtableThm, HashtableApi, over Rings). Sessions name their streams
    with an identifier heap and keep them, reference counted, in a linked list
    (LinkedList, LinkedListThm, over Rings); two sessions agree on keys and options
    with the descriptions they exchange through the carrier.

    The carrier that brings the invitations to a session is the node:

<<
      application, sessions  IOEX_carrier.h, session.c
        calls and reports    IOEX_carrier.c                Carrier, CarrierCalls, CarrierStart,
                                                           CarrierThm, CarrierInvite
        files                IOEX_carrier.c                CarrierFiles, CarrierFilesThm
        loop, relay account  IOEX_carrier.c                CarrierRun, CarrierRunThm
        tables               friends.h, tcallbacks.h,      Node, Tables
                             thistory.h
        packets              IOEXcp.c, IOEXcp.fbs          Cp
        data file            IOEX_carrier.c                Persist, PersistThm
        DHT                  dht.c over toxcore            DhtAdaptor, DhtThm
>>

    A call of the application becomes a packet that the DHT takes to a friend, whose DHT
    reports it to the friend's node. The tables of friends, of callbacks that wait for a
    response and of invitations that wait for an answer are hash tables; labels of
    friends and the data of the DHT are kept in a file.

    The timer heap (TimerHeap, TimerHeapThm, TimerHeapApi) drives the keep-alive
    and retransmission timers. Addresses and keys are written in base 58 (Base58).

    ** The files

    - Prelude: machine integers, outcomes of C code, and lemmas on lists, options
      and bytes that the other files share.
    - TcpFifo, TcpBase, TcpTypes, TcpOps, TcpProcess, TcpApi: the pseudo TCP
      socket of src/src/session/pseudotcp/pseudotcp.c. TcpFifo is the ring buffer
      [PseudoTcpFifo]; TcpBase the constants, the 24 byte header and the
      wrap-around comparisons; TcpTypes the struct of the socket; TcpOps the
      static functions; TcpProcess the segment handler [process], cut at the
      comments of the source; TcpApi the functions of pseudotcp.h.
    - TcpDemo: a network and a clock with which two sockets run, for the witnesses.
    - TcpState, TcpFrame, TcpReceive, TcpDelivery, TcpSend, TcpEndToEnd, TcpEvents,
      TcpTerm, TcpCases: the theorems about the socket.
    - Glib, GlibThm, TcpLists: the lists and queues of glist.c and gqueue.c that the
      socket is built on, on a store of elements, and the calls that it makes on them.
    - Bitset, IdsHeap, TimerHeap*, Base58, RcMem, LinkedList*, Hashtable*: the
      files of src/src/common with those names; Rings is what the two linked
      structures share.
    - FlexBuffer, Pipeline, Crypto*, Mux*: flex_buffer.h, stream_handler.h with the
      part of session.c that builds a stream, crypto_handler.c with
      src/src/common/crypto.c, and multiplex_handler.c with channels.h.
    - Reliable: reliable_handler.c with the timers of the transport's worker; its
      functions and those of the socket call each other. ReliableCalls is the induction
      over their calls, ReliableThm the theorems.
    - Forwarding: portforwarding.c, portforwardings.h, services.h, fdset.c and the sockets
      of socket.c, as an environment of Mux. ForwardingRun is a system and a run.
    - Ice, IceThm: the handler of a stream in ice.c, its packets, keep-alive,
      notifications and life. Candidate, CandidateThm: the candidates that
      ice_session_encode_local_sdp prints and ice_session_apply_remote_sdp reads.
    - Session, SessionSdp: session.c, and from ice.c the creation of a stream and the
      session descriptions. Session holds the data, the functions that add, remove
      and find streams and the calls on a stream; SessionSdp descriptions, request,
      reply, start and close. SessionInv is the invariant of the streams,
      SessionCalls the table of the calls on a stream, SessionThm adding and
      removing, SessionSdpThm the loops over the streams and the descriptions,
      SessionClose the end, SessionApi the properties and a run.
    - CStr, Tables, Node: C strings; the key functions of friends.h, tcallbacks.h and
      thistory.h with the tables as instances of the hash table; and the structs about
      users with the table of friends as the map that Tables justifies.
    - Cp: IOEXcp.c. Persist, PersistThm: the saving and loading of IOEX_carrier.c.
    - Carrier, CarrierCalls, CarrierStart: the rest of IOEX_carrier.c: the state of a
      node and the reports of the DHT; the calls of the application; the start.
      CarrierDemo is an environment for runs, CarrierThm the invariant and the calls
      that fail, CarrierInvite messages and invitations between two nodes.
      CarrierFiles is the sending and receiving of files, CarrierRun the loop of
      IOEX_run, the nospam value and the account on a relay server.
    - DhtAdaptor, DhtThm: dht.c with dht_callbacks.h, as the instances of the interfaces
      that the files of the carrier have to their DHT.

    A definition has the name of the function, struct or constant it translates;
    where a function is cut, the pieces carry its name and a suffix.

    ** Conventions

    Outcomes. An operation returns an [outcome]: [Ok] with its result,
    [AssertFail] with the line of the assertion that fails (assertions are
    compiled in, as in the default build), [Undef] where the language leaves the
    behaviour undefined (an access outside an object, an over-wide shift, a freed
    address), and [NoFuel] where a bound of the model on a loop is used up.

    Fuel. A loop that is not structural takes a bound. For the send loop
    ([attempt_send]), the heap's sifting and its polling, the bit set's searches and
    the base conversions, theorems say that the bound given by the caller's
    definition is enough. The framing loop of the multiplexer takes one round per
    byte of its input at most, and every frame it hands on uses up at least one
    byte; the loops over the channel table take one round per entry. A list of GLib has
    no more elements than its store, which is the bound of the loops over it. The worker
    of the forwardings is given a round for each answer of select, and its turn over the
    channels ends by [turn_over_channels_ends]. The results of
    MuxSafe and MuxFraming that say that a call returns include that the bound is
    not met. [mss_zero_never_ends] is about a loop for which no bound would do.

    Memory. Objects reached through pointers live in stores ([gmap] from addresses),
    so that aliasing is visible: the segment shared by the two queues of the socket,
    the entries the caller owns in the timer heap, the nodes of the rings, the elements
    of GLib, the channels held by the table and by the application. Adding a pointer to a store
    takes an address that is not in it; results of allocation are arguments where
    the source handles their failure.

    Callbacks and the outside. The packet writes, callbacks and clock readings of
    the pseudo TCP socket are recorded as events and answered by an [Env]. The
    multiplexer, the encryption and the sessions have an environment with a state of
    its own (the classes [Mux.Env], [CryptoEnv] and [Session.Layers]), about which the
    theorems assume nothing beyond what they name. None of them calls back before
    the call returns; what the transport reports of a stream is a step of its own; the
    polling of the timer heap does admit callbacks that schedule and cancel. The reliable
    handler runs the callbacks of its socket when the socket's function has returned, in
    the order in which they were told, which is what the socket does where it calls them
    last; the stream is directly above it. PJNATH is a class of Ice, the system's sockets
    a class of Forwarding, where the other threads do nothing during a turn of the worker.

    The environment of a node is the classes [Carrier.Dht] (the DHT, the allocator, the
    clock and random numbers), [CarrierStart.DhtStart], [CarrierRun.DhtRun] (what it
    reports while it works), of which DhtAdaptor makes instances out of toxcore,
    [CarrierFiles.FileSystem] and [Persist.System] (files). The functions of the
    application are recorded as they are called, and do not call back.

    Strings. Arrays of characters of fixed size are the strings in them; a copy that does
    not fit is [Undef]. The table of friends is a map by number; Tables shows this of the
    hash table for numbers below 2^16 (the DHT numbers friends from 0), and that it fails
    for larger ones.

    Files. A disk is what the files hold; a world remembers every disk that a crash
    could have left, with a write leaving any part of its data. A rename is one step, and
    what was written before a successful [fsync] is there after it.

    Locks. Each operation holds its lock from its first access to its last, so the
    operations are sequential and the lock calls are left out; where a lock call's
    result decides the path, it is an argument.

    Integers. A [w]-bit integer is a [Z] with the truncation of its type written
    out. [size_t] and [ssize_t] have 64 bits, [int] has 32. Signed overflow is
    [Undef] or excluded, but for the keep-alive interval of the multiplexer, where it
    is taken to wrap.

    Libraries. The functions of libsodium are the class [Nacl]; [NaclLaws] states
    what its documentation promises (opening inverts sealing, the lengths), and a
    toy instance shows that the promises can hold. The queues of GLib that
    pseudotcp.c uses are lists in its model; TcpLists proves that they may be.

    ** What the theorems show

    Pseudo TCP. [end_to_end_delivery]: what one socket's application reads is a
    prefix of what the other's wrote, over a network that loses, duplicates and
    reorders; it combines [packets_carry_written] (the sender) and
    [in_order_delivery] (the receiver), each by induction on interleavings of
    operations. [lists_refine] is about the elements of its queues;
    [set_state_assertion_holds] and [closed_is_final] are about the state machine; [attempt_send_terminates] about the sending loop;
    [fifo_refines_queue] about the ring buffer; [sequence_order], [rto_bounded],
    [connect_options_roundtrip] and [resize_receive_buffer_window] about bounds,
    timers, options and buffer sizes. [duplicate_before_fin_loses_data],
    [shutdown_aborts_when_flush_fails] and [mss_zero_never_ends] are runs where the
    socket does not do what it means to.

    Multiplexer. [mux_safe]: in every sequence of packets and calls that keeps to
    its conditions no assertion fails, nothing undefined is reached, and table,
    reference counts and identifiers stay in agreement. [stream_framing] and
    [packet_round_trip] are about the header and the cutting of a byte stream into
    packets; [close_channels_empties] about the end; MuxCases holds the error
    results, and the packets that end the process.

    Reliability. [handlers_deliver] is end to end through two handlers;
    [write_takes_all] and [write_waits_for_worker] are about a write, [stop_hides_error]
    and [late_clock_lost] about what the application hears and when the timer fires.

    Port forwarding. [connection_data_crosses]: the bytes of a connection come out of the
    socket behind the channel; [turn_over_channels_ends], whatever the channels do in it;
    [forwarding_round_trip]: closing takes away what opening has added.

    Transport. [ice_data_crosses] is about the packets of two sides, [silent_peer_found]
    about the keep-alive, [notifications_in_order] about the states that are told,
    [candidates_round_trip] about the addresses in a description. IceThm and CandidateThm
    hold runs in which the handler dangles, leaks or writes past an array.

    Encryption. [crypto_handlers_transparent], [crypto_rx_total] and
    [encrypt_failure_positive]. Pipeline. [pipeline_order] gives the handlers of a
    stream for each combination of its options.

    Sessions. [session_safe]: in every sequence of additions, removals, calls and
    reports the streams, their counts, identifiers and pipelines stay in agreement,
    and every call returns. [session_add_stream] and [stream_calls] are what the
    calls do on every branch, [session_close_clean] the end.
    [description_round_trip]: one side reads what the other wrote.
    [session_start_all_or_none] and [session_key_ignores_description] are about the
    start, the latter about the key it uses.

    The node. [node_in_order]: from the start on, in every sequence of reports, events
    and calls the tables stay in order and references are given back.
    [failed_call_changes_nothing]: a call returns 0 or -1, and with -1 nothing but the
    error has changed, with the one exception that the theorem names.
    [invitation_round_trip] and [message_delivered] are about two nodes: what one sends
    the other is shown, an answer reaches the callback that waits for it, once.
    [save_survives_crash] and [saved_data_round_trip]: at whatever moment a save is
    interrupted the next start finds the old data or the new; and what was saved.
    [run_in_order] is about the loop: its reports are any list of what a DHT can report,
    and its fuel is the number of iterations, which the environment ends.
    [file_copied]: two nodes copy a file chunk by chunk; [friend_removes_files]: what a
    friend can do without consent. [turn_server_account] is about the relay's account.
    [cp_fields] and [cp_round_trip] are about packets, [node_table_refines] about the
    three tables. [node_on_toxcore]: over toxcore the adaptor keeps the promises on which
    the theorems about a node rely.

    Data structures. [hashtable_refines] and [linked_list_refines] against maps and
    lists; [rc_lifetime] for reference counts; [bitset_refines_set],
    [bitset_searches] and [ids_heap_alloc_fresh], [ids_heap_free_spec]; the
    scheduling, cancelling and polling of the timer heap against the sorted list of
    due entries; [base58_roundtrip] with the functional behaviour of both
    directions.

    ** Not modelled

    - Of the reliable handler: start, which only passes on. Callbacks that a socket's
      function makes before its end are run at its end.
    - Of session.c: the registration with the carrier. Of ice.c: the set-up of PJLIB, of
      the transport and of a worker with its loop, which only call PJLIB, and the parts of
      a description other than streams and candidates. The negotiation is PJNATH's.
    - Of the port forwarding: UDP, which the source leaves to do, and joining the thread.
    - Of IOEX_carrier.c: logging, the release of memory, and IOEX_kill, whose flag is
      the answer of the environment at the head of the loop. Of dht.c: dht_kill and the
      log messages of toxcore.
    - toxcore, PJNATH, libsodium and the system are not in the repository: they are
      classes. So are the runtime of FlatBuffers and the code it generates for IOEXcp.c, of
      which [FlatLaws] states that reading inverts building.
    - udp_eventfd.c, which is not built here, time and logging, the functions of GLib that
      nothing calls, the vendored ifaddrs.c, the applications and the tests. *)

From Stdlib Require Import ZArith Lia.
From stdpp Require Import prelude gmap list.

#[global] Open Scope Z_scope.

(** ** Machine integers

    A C integer is a [Z]; every operation of the source that can wrap is
    written with the truncation of its type. *)

Definition u8 (x : Z) : Z := x mod 2 ^ 8.
Definition u16 (x : Z) : Z := x mod 2 ^ 16.
Definition u32 (x : Z) : Z := x mod 2 ^ 32.
Definition u64 (x : Z) : Z := x mod 2 ^ 64.

(** Conversion to [int32_t] (two's complement). *)
Definition s32 (x : Z) : Z := (x + 2 ^ 31) mod 2 ^ 32 - 2 ^ 31.

Definition is_u8 (x : Z) : Prop := 0 <= x < 2 ^ 8.
Definition is_u32 (x : Z) : Prop := 0 <= x < 2 ^ 32.

Notation bytes := (list Z).

(** [x] as a C truth value. *)
Definition nonzero (x : Z) : bool := negb (x =? 0).

Lemma nonzero_true x : x <> 0 -> nonzero x = true.
Proof. intros. unfold nonzero. by rewrite (proj2 (Z.eqb_neq x 0)). Qed.

#[global] Arguments u8 : simpl never.
#[global] Arguments u16 : simpl never.
#[global] Arguments u32 : simpl never.
#[global] Arguments u64 : simpl never.
#[global] Arguments s32 : simpl never.

Lemma u32_small x : 0 <= x < 2 ^ 32 -> u32 x = x.
Proof. apply Z.mod_small. Qed.

Lemma u64_small x : 0 <= x < 2 ^ 64 -> u64 x = x.
Proof. apply Z.mod_small. Qed.

Lemma u16_small x : 0 <= x < 2 ^ 16 -> u16 x = x.
Proof. apply Z.mod_small. Qed.

Lemma u8_small x : 0 <= x < 2 ^ 8 -> u8 x = x.
Proof. apply Z.mod_small. Qed.

Lemma s32_small x : - 2 ^ 31 <= x < 2 ^ 31 -> s32 x = x.
Proof. intros. unfold s32. rewrite Z.mod_small; lia. Qed.

Lemma u32_range x : 0 <= u32 x < 2 ^ 32.
Proof. apply Z.mod_pos_bound. lia. Qed.

Lemma u64_range x : 0 <= u64 x < 2 ^ 64.
Proof. apply Z.mod_pos_bound. lia. Qed.

Lemma u8_range x : 0 <= u8 x < 2 ^ 8.
Proof. apply Z.mod_pos_bound. lia. Qed.

Lemma u32_add_l a b : u32 (u32 a + b) = u32 (a + b).
Proof. apply Z.add_mod_idemp_l. lia. Qed.

Lemma u32_add_r a b : u32 (a + u32 b) = u32 (a + b).
Proof. apply Z.add_mod_idemp_r. lia. Qed.

Lemma u32_sub_l a b : u32 (u32 a - b) = u32 (a - b).
Proof. apply Zminus_mod_idemp_l. Qed.

Lemma u32_sub_r a b : u32 (a - u32 b) = u32 (a - b).
Proof. apply Zminus_mod_idemp_r. Qed.

Lemma u32_u32 a : u32 (u32 a) = u32 a.
Proof. apply Z.mod_mod. lia. Qed.

Create HintDb cint.
#[export] Hint Rewrite u32_add_l u32_add_r u32_sub_l u32_sub_r u32_u32 : cint.
#[export] Hint Resolve u32_range u64_range u8_range : cint.

(** ** Outcomes of C code

    [AssertFail n] is the [assert] of source line [n] aborting the process,
    [Undef] an operation whose behaviour C leaves undefined (an access outside
    an object, a division by zero), [NoFuel] a loop that did not finish within
    the fuel its model was given. *)

Inductive outcome (A : Type) : Type :=
| Ok (a : A)
| AssertFail (line : Z)
| Undef
| NoFuel.
Arguments Ok {A} _.
Arguments AssertFail {A} _.
Arguments Undef {A}.
Arguments NoFuel {A}.

#[global] Instance outcome_ret : MRet outcome := fun A a => Ok a.
#[global] Instance outcome_bind : MBind outcome := fun A B f m =>
  match m with
  | Ok a => f a
  | AssertFail n => AssertFail n
  | Undef => Undef
  | NoFuel => NoFuel
  end.

(** [assert (b)] at source line [n]. *)
Definition c_assert (n : Z) (b : bool) : outcome unit :=
  if b then Ok tt else AssertFail n.

Definition is_ok {A} (m : outcome A) : Prop := exists a, m = Ok a.

Lemma bind_ok {A B} (m : outcome A) (f : A -> outcome B) b :
  (m ≫= f) = Ok b -> exists a, m = Ok a /\ f a = Ok b.
Proof. destruct m; simpl; try discriminate. eauto. Qed.

Lemma bind_ok_intro {A B} (m : outcome A) (f : A -> outcome B) a b :
  m = Ok a -> f a = Ok b -> (m ≫= f) = Ok b.
Proof. intros -> H. exact H. Qed.

Lemma c_assert_ok n b : c_assert n b = Ok tt <-> b = true.
Proof. destruct b; split; done. Qed.

(** Reduces binds on known outcomes and nothing else. *)
Ltac bind_simpl := cbn [mbind outcome_bind].

(** Decomposes every [m ≫= f = Ok _] of the context. *)
Ltac inv_bind :=
  repeat match goal with
  | H : (_ ≫= _) = Ok _ |- _ =>
      let a := fresh "r" in let H1 := fresh "Hr" in
      apply bind_ok in H as (a & H1 & H)
  | H : c_assert _ _ = Ok ?u |- _ => destruct u; apply c_assert_ok in H
  | H : Ok _ = Ok _ |- _ => injection H as H
  | H : mret _ = Ok _ |- _ => injection H as H
  | H : @Undef _ = Ok _ |- _ => discriminate H
  | H : @NoFuel _ = Ok _ |- _ => discriminate H
  | H : AssertFail _ = Ok _ |- _ => discriminate H
  end.

(** Case analysis on the boolean tests of the goal and of the context. *)
Ltac zify_tests :=
  repeat match goal with
  | H : (_ <? _) = true |- _ => apply Z.ltb_lt in H
  | H : (_ <? _) = false |- _ => apply Z.ltb_ge in H
  | H : (_ <=? _) = true |- _ => apply Z.leb_le in H
  | H : (_ <=? _) = false |- _ => apply Z.leb_gt in H
  | H : (_ =? _) = true |- _ => apply Z.eqb_eq in H
  | H : (_ =? _) = false |- _ => apply Z.eqb_neq in H
  | H : negb _ = true |- _ => apply negb_true_iff in H
  | H : negb _ = false |- _ => apply negb_false_iff in H
  | H : _ && _ = true |- _ => apply andb_true_iff in H as [? ?]
  | H : _ || _ = false |- _ => apply orb_false_iff in H as [? ?]
  end.

Ltac case_if :=
  match goal with
  | |- context [if ?b then _ else _] => let E := fresh "E" in destruct b eqn:E
  | H : context [if ?b then _ else _] |- _ => let E := fresh "E" in destruct b eqn:E
  end.

(** Decides every comparison of the goal, innermost first, pruning impossible
    cases. *)
Ltac no_if t :=
  lazymatch t with context [if _ then _ else _] => fail | _ => idtac end.

Ltac case_cmp :=
  repeat (match goal with
  | |- context [?a <=? ?b] => no_if a; no_if b; destruct (Z.leb_spec a b)
  | |- context [?a <? ?b] => no_if a; no_if b; destruct (Z.ltb_spec a b)
  | |- context [?a =? ?b] => no_if a; no_if b; destruct (Z.eqb_spec a b)
  end; try lia; simpl; try reflexivity).

(** ** Association lists *)

Lemma in_fst {A B} (m : list (A * B)) i p : (i, p) ∈ m -> i ∈ m.*1.
Proof. intros H. by apply (list_elem_of_fmap_2 fst) in H. Qed.

Lemma in_snd {A B} (m : list (A * B)) i p : (i, p) ∈ m -> p ∈ m.*2.
Proof. intros H. by apply (list_elem_of_fmap_2 snd) in H. Qed.

(** ** Memory blocks

    A block is the list of its bytes. [mem_read b p n] is the source operand of
    a [memcpy] of [n] bytes at offset [p], [mem_write b p src] its
    destination; both are undefined outside the block. *)

Definition zlen {A} (l : list A) : Z := Z.of_nat (length l).

Definition ztake {A} (n : Z) (l : list A) : list A := take (Z.to_nat n) l.
Definition zdrop {A} (n : Z) (l : list A) : list A := drop (Z.to_nat n) l.

Definition mem_read (b : bytes) (p n : Z) : outcome bytes :=
  if (0 <=? p) && (0 <=? n) && (p + n <=? zlen b)
  then Ok (ztake n (zdrop p b)) else Undef.

Definition mem_write (b : bytes) (p : Z) (src : bytes) : outcome bytes :=
  if (0 <=? p) && (p + zlen src <=? zlen b)
  then Ok (ztake p b ++ src ++ zdrop (p + zlen src) b) else Undef.

(** [malloc (size)]: the content is indeterminate, given by [junk]. *)
Definition malloc (junk : Z) (size : Z) : bytes := replicate (Z.to_nat size) junk.

#[global] Arguments zlen : simpl never.
#[global] Arguments ztake : simpl never.
#[global] Arguments zdrop : simpl never.
#[global] Arguments malloc : simpl never.
#[global] Arguments mem_read : simpl never.
#[global] Arguments mem_write : simpl never.

Lemma zlen_nonneg {A} (l : list A) : 0 <= zlen l.
Proof. unfold zlen. lia. Qed.

Lemma zlen_nil {A} : zlen (@nil A) = 0.
Proof. reflexivity. Qed.

Lemma zlen_cons {A} (x : A) l : zlen (x :: l) = 1 + zlen l.
Proof. unfold zlen. cbn [length]. lia. Qed.

Lemma zlen_app {A} (l1 l2 : list A) : zlen (l1 ++ l2) = zlen l1 + zlen l2.
Proof. unfold zlen. rewrite length_app. lia. Qed.

Lemma zlen_ztake {A} n (l : list A) : zlen (ztake n l) = Z.max 0 (Z.min n (zlen l)).
Proof. unfold zlen, ztake. rewrite length_take. lia. Qed.

Lemma zlen_zdrop {A} n (l : list A) : zlen (zdrop n l) = Z.max 0 (zlen l - Z.max 0 n).
Proof. unfold zlen, zdrop. rewrite length_drop. lia. Qed.

Lemma zlen_malloc j n : zlen (malloc j n) = Z.max 0 n.
Proof. unfold zlen, malloc. rewrite length_replicate. lia. Qed.

Lemma zlen_replicate {A} n (x : A) : zlen (replicate n x) = Z.of_nat n.
Proof. unfold zlen. by rewrite length_replicate. Qed.

Create HintDb zlen.
#[export] Hint Rewrite @zlen_nil @zlen_cons @zlen_app @zlen_ztake @zlen_zdrop
  @zlen_malloc @zlen_replicate : zlen.

(** Length arithmetic: normalises [zlen] and calls [lia]. *)
Ltac zlen_lia :=
  autorewrite with zlen in *;
  repeat match goal with
  | |- context [zlen ?l] =>
      lazymatch goal with
      | _ : 0 <= zlen l |- _ => fail
      | _ => pose proof (zlen_nonneg l)
      end
  | _ : context [zlen ?l] |- _ =>
      lazymatch goal with
      | _ : 0 <= zlen l |- _ => fail
      | _ => pose proof (zlen_nonneg l)
      end
  end; lia.

Lemma zlen_ztake_le {A} n (l : list A) : 0 <= n <= zlen l -> zlen (ztake n l) = n.
Proof. intros. rewrite zlen_ztake. lia. Qed.

Lemma zlen_zdrop_le {A} n (l : list A) : 0 <= n <= zlen l -> zlen (zdrop n l) = zlen l - n.
Proof. intros. rewrite zlen_zdrop. lia. Qed.

Lemma ztake_0 {A} (l : list A) : ztake 0 l = [].
Proof. reflexivity. Qed.

Lemma zdrop_0 {A} (l : list A) : zdrop 0 l = l.
Proof. reflexivity. Qed.

Lemma ztake_all {A} n (l : list A) : zlen l <= n -> ztake n l = l.
Proof. unfold zlen, ztake. intros. apply take_ge. lia. Qed.

Lemma zdrop_all {A} n (l : list A) : zlen l <= n -> zdrop n l = [].
Proof. unfold zlen, zdrop. intros. apply drop_ge. lia. Qed.

Lemma ztake_app_len {A} n (l k : list A) : zlen l = n -> ztake n (l ++ k) = l.
Proof. unfold zlen, ztake. intros <-. by rewrite Nat2Z.id, take_app_length. Qed.

Lemma zdrop_app_len {A} n (l k : list A) : zlen l = n -> zdrop n (l ++ k) = k.
Proof. unfold zlen, zdrop. intros <-. by rewrite Nat2Z.id, drop_app_length. Qed.

Lemma ztake_zdrop {A} n (l : list A) : ztake n l ++ zdrop n l = l.
Proof. apply take_drop. Qed.

Lemma zdrop_zdrop {A} n m (l : list A) :
  0 <= n -> 0 <= m -> zdrop n (zdrop m l) = zdrop (m + n) l.
Proof. unfold zdrop. intros. rewrite drop_drop. f_equal. lia. Qed.

Lemma mem_read_ok b p n :
  0 <= p -> 0 <= n -> p + n <= zlen b -> mem_read b p n = Ok (ztake n (zdrop p b)).
Proof.
  intros. unfold mem_read. by rewrite !(proj2 (Z.leb_le _ _)) by lia.
Qed.

Lemma mem_write_ok b p src :
  0 <= p -> p + zlen src <= zlen b ->
  mem_write b p src = Ok (ztake p b ++ src ++ zdrop (p + zlen src) b).
Proof.
  intros. unfold mem_write. by rewrite !(proj2 (Z.leb_le _ _)) by lia.
Qed.

(** Reading a list at a [Z] index. *)
Definition znth {A} (l : list A) (i : Z) : option A :=
  if i <? 0 then None else l !! Z.to_nat i.

Lemma znth_ztake {A} (l : list A) n i :
  znth (ztake n l) i = if i <? n then znth l i else None.
Proof.
  unfold znth, ztake. destruct (i <? 0) eqn:E; zify_tests; [by destruct (_ <? _)|].
  destruct (i <? n) eqn:E2; zify_tests.
  - apply lookup_take_lt. lia.
  - apply lookup_take_ge. lia.
Qed.

Lemma znth_zdrop {A} (l : list A) n i :
  0 <= n -> 0 <= i -> znth (zdrop n l) i = znth l (n + i).
Proof.
  intros. unfold znth, zdrop.
  destruct (i <? 0) eqn:E; destruct (n + i <? 0) eqn:E2; zify_tests; try lia.
  rewrite lookup_drop. f_equal. lia.
Qed.

Lemma znth_app {A} (l1 l2 : list A) i :
  znth (l1 ++ l2) i = if i <? zlen l1 then znth l1 i else znth l2 (i - zlen l1).
Proof.
  unfold znth, zlen. destruct (i <? 0) eqn:E; zify_tests.
  - destruct (_ <? _); [done|]. by replace (_ <? 0) with true by (symmetry; apply Z.ltb_lt; lia).
  - destruct (i <? _) eqn:E2; zify_tests.
    + apply lookup_app_l. lia.
    + replace (i - _ <? 0) with false by (symmetry; apply Z.ltb_ge; lia).
      rewrite lookup_app_r by lia. f_equal. lia.
Qed.

Lemma znth_is_Some {A} (l : list A) i : is_Some (znth l i) <-> 0 <= i < zlen l.
Proof.
  unfold znth, zlen. destruct (i <? 0) eqn:E; zify_tests.
  - split; [by intros [? ?]|lia].
  - rewrite lookup_lt_is_Some. lia.
Qed.

Lemma znth_None {A} (l : list A) i : znth l i = None <-> i < 0 \/ zlen l <= i.
Proof.
  destruct (znth l i) eqn:E.
  - pose proof (proj1 (znth_is_Some l i) ltac:(eauto)). split; [done|lia].
  - split; [|done]. intros _.
    destruct (decide (0 <= i < zlen l)) as [H|H]; [|lia].
    apply znth_is_Some in H as [? H]. congruence.
Qed.

(** Two lists are equal when they agree at every index of the first. *)
Lemma list_eq_znth {A} (l1 l2 : list A) :
  zlen l1 = zlen l2 ->
  (forall i, 0 <= i < zlen l1 -> znth l1 i = znth l2 i) -> l1 = l2.
Proof.
  intros Hlen H. apply list_eq. intros i.
  destruct (decide (Z.of_nat i < zlen l1)) as [Hi|Hi].
  - specialize (H (Z.of_nat i) ltac:(lia)). unfold znth in H.
    replace (_ <? 0) with false in H by (symmetry; apply Z.ltb_ge; lia).
    by rewrite Nat2Z.id in H.
  - rewrite !lookup_ge_None_2; unfold zlen in *; auto; lia.
Qed.

(** Filtering one element out of a list. *)
Lemma filter_notin (l : list Z) e : e ∉ l -> filter (.≠ e) l = l.
Proof.
  induction l as [|x l IH]; [done|]. intros [Hx Hl]%not_elem_of_cons.
  rewrite filter_cons_True by (intros E; by apply Hx). by rewrite IH.
Qed.

Lemma filter_split (l : list Z) la e lb : NoDup l -> l = la ++ e :: lb -> filter (.≠ e) l = la ++ lb.
Proof.
  intros Hnd ->. rewrite filter_app, filter_cons_False by (intros H; done).
  apply NoDup_app in Hnd as (_ & Ha & Hb). apply NoDup_cons in Hb as [Hb _].
  f_equal; apply filter_notin; [|done]. intros Hx. apply (Ha e Hx). left.
Qed.
