(* ===== verification/TcpFifo.v ===== *)
(** * The byte ring of the pseudo TCP socket

    [PseudoTcpFifo] of src/src/session/pseudotcp/pseudotcp.c: a circular buffer
    with a read position and a data length. [ring] lists the cells of the block
    in logical order, starting at the read position; [contents] is its prefix
    of buffered bytes. The theorems show that the operations on the block
    refine the operations of a byte queue on [contents], and say what
    [write_offset] leaves in the cells past the queue. *)

From Stdlib Require Import ZArith Lia.
From stdpp Require Import prelude list.
From S2P Require Import Prelude.

Record PseudoTcpFifo := mkFifo {
  buffer : bytes;
  buffer_length : Z;
  data_length : Z;
  read_position : Z;
}.

Module Fifo.

(** [b] with the two counters the queue operations change. *)
Definition set_counters (b : PseudoTcpFifo) (len pos : Z) : PseudoTcpFifo :=
  mkFifo (buffer b) (buffer_length b) len pos.

Definition pseudo_tcp_fifo_init (junk : Z) (b : PseudoTcpFifo) (size : Z) : PseudoTcpFifo :=
  mkFifo (malloc junk size) size (data_length b) (read_position b).

Definition pseudo_tcp_fifo_clear (b : PseudoTcpFifo) : PseudoTcpFifo :=
  mkFifo [] 0 (data_length b) (read_position b).

Definition pseudo_tcp_fifo_get_buffered (b : PseudoTcpFifo) : Z := data_length b.

Definition pseudo_tcp_fifo_set_capacity (junk : Z) (b : PseudoTcpFifo) (size : Z)
  : outcome (bool * PseudoTcpFifo) :=
  if size <? data_length b then Ok (false, b)
  else if negb (size =? data_length b) then
    let buf := malloc junk size in
    let copy := data_length b in
    let tail_copy := Z.min copy (u64 (buffer_length b - read_position b)) in
    src1 ← mem_read (buffer b) (read_position b) tail_copy;
    buf ← mem_write buf 0 src1;
    src2 ← mem_read (buffer b) 0 (copy - tail_copy);
    buf ← mem_write buf tail_copy src2;
    Ok (true, mkFifo buf size (data_length b) 0)
  else Ok (true, b).

Definition pseudo_tcp_fifo_consume_read_data (b : PseudoTcpFifo) (size : Z)
  : outcome PseudoTcpFifo :=
  _ ← c_assert 320 (size <=? data_length b);
  if buffer_length b =? 0 then Undef
  else Ok (set_counters b (data_length b - size)
             (u64 (read_position b + size) mod buffer_length b)).

Definition pseudo_tcp_fifo_consume_write_buffer (b : PseudoTcpFifo) (size : Z)
  : outcome PseudoTcpFifo :=
  _ ← c_assert 329 (size <=? u64 (buffer_length b - data_length b));
  Ok (set_counters b (data_length b + size) (read_position b)).

Definition pseudo_tcp_fifo_get_write_remaining (b : PseudoTcpFifo) : Z :=
  u64 (buffer_length b - data_length b).

(** The returned count and the bytes stored into the caller's buffer. *)
Definition pseudo_tcp_fifo_read_offset (b : PseudoTcpFifo) (nbytes offset : Z)
  : outcome (Z * bytes) :=
  if buffer_length b =? 0 then Undef else
  let available := u64 (data_length b - offset) in
  let rpos := u64 (read_position b + offset) mod buffer_length b in
  let copy := Z.min nbytes available in
  let tail_copy := Z.min copy (u64 (buffer_length b - rpos)) in
  if data_length b <=? offset then Ok (0, [])
  else
    out1 ← mem_read (buffer b) rpos tail_copy;
    out2 ← mem_read (buffer b) 0 (copy - tail_copy);
    Ok (copy, out1 ++ out2).

(** [src] is the caller's block, [nbytes] the count it passes. *)
Definition pseudo_tcp_fifo_write_offset (b : PseudoTcpFifo) (src : bytes) (nbytes offset : Z)
  : outcome (Z * PseudoTcpFifo) :=
  if buffer_length b =? 0 then Undef else
  let available := u64 (buffer_length b - data_length b - offset) in
  let wpos := u64 (read_position b + data_length b + offset) mod buffer_length b in
  let copy := Z.min nbytes available in
  let tail_copy := Z.min copy (u64 (buffer_length b - wpos)) in
  if buffer_length b <=? u64 (data_length b + offset) then Ok (0, b)
  else
    src1 ← mem_read src 0 tail_copy;
    buf ← mem_write (buffer b) wpos src1;
    src2 ← mem_read src tail_copy (copy - tail_copy);
    buf ← mem_write buf 0 src2;
    Ok (copy, mkFifo buf (buffer_length b) (data_length b) (read_position b)).

Definition pseudo_tcp_fifo_read (b : PseudoTcpFifo) (nbytes : Z)
  : outcome (Z * bytes * PseudoTcpFifo) :=
  '(copy, out) ← pseudo_tcp_fifo_read_offset b nbytes 0;
  Ok (copy, out,
      set_counters b (data_length b - copy)
        (u64 (read_position b + copy) mod buffer_length b)).

Definition pseudo_tcp_fifo_write (b : PseudoTcpFifo) (src : bytes) (nbytes : Z)
  : outcome (Z * PseudoTcpFifo) :=
  '(copy, b') ← pseudo_tcp_fifo_write_offset b src nbytes 0;
  Ok (copy, set_counters b' (data_length b' + copy) (read_position b')).

(** ** The invariant and the logical views *)

Definition fifo_wf (b : PseudoTcpFifo) : Prop :=
  zlen (buffer b) = buffer_length b /\
  0 < buffer_length b < 2 ^ 32 /\
  0 <= data_length b <= buffer_length b /\
  0 <= read_position b < buffer_length b.

Definition ring (b : PseudoTcpFifo) : bytes :=
  zdrop (read_position b) (buffer b) ++ ztake (read_position b) (buffer b).

Definition contents (b : PseudoTcpFifo) : bytes := ztake (data_length b) (ring b).

(** ** Lemmas on the ring *)

Lemma zlen_ring b : fifo_wf b -> zlen (ring b) = buffer_length b.
Proof. intros (Hl & ? & ? & ?). unfold ring. zlen_lia. Qed.

Lemma zlen_contents b : fifo_wf b -> zlen (contents b) = data_length b.
Proof.
  intros Hwf. pose proof (zlen_ring b Hwf). destruct Hwf as (? & ? & ? & ?).
  unfold contents. zlen_lia.
Qed.

Lemma mod_wrap a n : 0 < n -> 0 <= a < 2 * n -> a mod n = if a <? n then a else a - n.
Proof.
  intros. destruct (a <? n) eqn:E; zify_tests.
  - apply Z.mod_small. lia.
  - symmetry. apply Z.mod_unique with 1; lia.
Qed.

Lemma znth_ring b i :
  fifo_wf b -> 0 <= i < buffer_length b ->
  znth (ring b) i = znth (buffer b) ((read_position b + i) mod buffer_length b).
Proof.
  intros (Hl & Hn & ? & ?) Hi. unfold ring.
  rewrite znth_app, mod_wrap by lia.
  rewrite zlen_zdrop_le, Hl by lia.
  destruct (i <? _) eqn:E1, (_ <? buffer_length b) eqn:E2; zify_tests; try lia.
  - rewrite znth_zdrop by lia. done.
  - rewrite znth_ztake. rewrite (proj2 (Z.ltb_lt _ _)) by lia. f_equal. lia.
Qed.

(** The two pieces a wrapped access touches are one slice of the ring. *)
Lemma ring_slice b o n p t :
  fifo_wf b -> 0 <= o -> 0 <= n -> o + n <= buffer_length b -> o < buffer_length b ->
  p = (read_position b + o) mod buffer_length b ->
  t = Z.min n (buffer_length b - p) ->
  ztake n (zdrop o (ring b)) = ztake t (zdrop p (buffer b)) ++ ztake (n - t) (zdrop 0 (buffer b)).
Proof.
  intros Hwf Ho Hn Hb Ho' Hp Ht. pose proof (zlen_ring b Hwf) as Hr.
  pose proof Hwf as (Hl & HL & ? & ?).
  rewrite mod_wrap in Hp by lia.
  assert (0 <= p < buffer_length b) by (case_if; zify_tests; lia).
  assert (zlen (ztake t (zdrop p (buffer b))) = t) as Hz
    by (apply zlen_ztake_le; rewrite zlen_zdrop_le; lia).
  assert (zlen (ztake n (zdrop o (ring b))) = n) as Hz1.
  { apply zlen_ztake_le. rewrite zlen_zdrop_le; lia. }
  apply list_eq_znth.
  { rewrite zlen_app, Hz, Hz1, zdrop_0, zlen_ztake_le; lia. }
  rewrite Hz1. intros i Hi.
  rewrite znth_ztake, (proj2 (Z.ltb_lt _ _)) by lia.
  rewrite znth_zdrop, (znth_ring b (o + i) Hwf) by lia.
  rewrite znth_app, Hz, zdrop_0, !znth_ztake, mod_wrap by lia.
  destruct (i <? t) eqn:E1; zify_tests.
  - rewrite znth_zdrop by lia. f_equal. repeat case_if; zify_tests; lia.
  - rewrite (proj2 (Z.ltb_lt (i - t) _)) by lia. f_equal. repeat case_if; zify_tests; lia.
Qed.

Lemma znth_mem_write (b : bytes) p (src : bytes) i :
  0 <= p -> p + zlen src <= zlen b -> 0 <= i ->
  znth (ztake p b ++ src ++ zdrop (p + zlen src) b) i =
  if (p <=? i) && (i <? p + zlen src) then znth src (i - p) else znth b i.
Proof.
  intros. rewrite znth_app.
  pose proof (zlen_nonneg src).
  rewrite (zlen_ztake_le p b) by lia.
  destruct (i <? p) eqn:E; zify_tests.
  - rewrite (proj2 (Z.leb_gt _ _)) by lia. simpl.
    by rewrite znth_ztake, (proj2 (Z.ltb_lt _ _)) by lia.
  - rewrite (proj2 (Z.leb_le p i)) by lia. simpl. rewrite znth_app.
    destruct (i - p <? zlen src) eqn:E2; zify_tests.
    + by rewrite (proj2 (Z.ltb_lt _ _)) by lia.
    + rewrite (proj2 (Z.ltb_ge _ _)) by lia.
      rewrite znth_zdrop by lia. f_equal. lia.
Qed.

Lemma zlen_mem_write (b : bytes) p (src : bytes) :
  0 <= p -> p + zlen src <= zlen b ->
  zlen (ztake p b ++ src ++ zdrop (p + zlen src) b) = zlen b.
Proof.
  intros. pose proof (zlen_nonneg src).
  rewrite !zlen_app, zlen_ztake_le, zlen_zdrop_le; lia.
Qed.

(** [splice b p src] is the block after a [memcpy] of [src] to offset [p]. *)
Definition splice (b : bytes) (p : Z) (src : bytes) : bytes :=
  ztake p b ++ src ++ zdrop (p + zlen src) b.

(** The two pieces of a wrapped write are one splice of the ring. *)
Lemma ring_splice b w p t (src1 src2 : bytes) :
  fifo_wf b -> 0 <= w < buffer_length b ->
  w + zlen src1 + zlen src2 <= buffer_length b ->
  p = (read_position b + w) mod buffer_length b ->
  t = Z.min (zlen src1 + zlen src2) (buffer_length b - p) -> zlen src1 = t ->
  let b' := mkFifo (splice (splice (buffer b) p src1) 0 src2)
              (buffer_length b) (data_length b) (read_position b) in
  fifo_wf b' /\ ring b' = splice (ring b) w (src1 ++ src2).
Proof.
  intros Hwf Hw Hn Hp Ht Hs b'. pose proof Hwf as (Hl & HL & HD & HR).
  pose proof (zlen_ring b Hwf) as Hr.
  pose proof (zlen_nonneg src1). pose proof (zlen_nonneg src2).
  rewrite mod_wrap in Hp by lia.
  assert (0 <= p < buffer_length b) by (case_if; zify_tests; lia).
  assert (zlen (splice (buffer b) p src1) = buffer_length b) as Hz1
    by (rewrite <- Hl; apply zlen_mem_write; lia).
  assert (zlen (splice (splice (buffer b) p src1) 0 src2) = buffer_length b) as Hz2
    by (rewrite <- Hz1; apply zlen_mem_write; lia).
  assert (fifo_wf b') as Hwf' by (repeat split; simpl; lia).
  split; [done|].
  assert (zlen (splice (ring b) w (src1 ++ src2)) = buffer_length b) as Hz3.
  { rewrite <- Hr. apply zlen_mem_write; rewrite ?zlen_app; lia. }
  apply list_eq_znth; [by rewrite zlen_ring, Hz3|].
  rewrite (zlen_ring b' Hwf'). simpl. intros i Hi.
  rewrite (znth_ring b' i Hwf') by done. simpl. rewrite mod_wrap by lia.
  unfold splice at 1 3. rewrite !znth_mem_write
    by (rewrite ?zlen_app; repeat case_if; zify_tests; lia).
  unfold splice. rewrite znth_mem_write by (repeat case_if; zify_tests; lia).
  rewrite znth_ring, mod_wrap, zlen_app, znth_app by (done || lia).
  destruct (read_position b + w <? buffer_length b) eqn:E; zify_tests;
    case_cmp; f_equal; lia.
Qed.

(** ** The operations refine a byte queue *)

Lemma read_offset_spec b nbytes offset :
  fifo_wf b -> 0 <= nbytes < 2 ^ 64 -> 0 <= offset < 2 ^ 32 ->
  let copy := Z.max 0 (Z.min nbytes (data_length b - offset)) in
  pseudo_tcp_fifo_read_offset b nbytes offset =
    Ok (copy, ztake copy (zdrop offset (contents b))).
Proof.
  intros Hwf Hn Ho copy. pose proof Hwf as (Hl & HL & HD & HR).
  unfold pseudo_tcp_fifo_read_offset.
  rewrite (proj2 (Z.eqb_neq _ _)) by lia.
  destruct (data_length b <=? offset) eqn:E; zify_tests.
  { subst copy. by replace (Z.max _ _) with 0 by lia. }
  replace (u64 (data_length b - offset)) with (data_length b - offset)
    by (symmetry; apply u64_small; lia).
  rewrite (u64_small (read_position b + offset)) by lia.
  set (p := (read_position b + offset) mod buffer_length b).
  assert (0 <= p < buffer_length b) by (apply Z.mod_pos_bound; lia).
  rewrite (u64_small (buffer_length b - p)) by lia.
  rewrite !mem_read_ok by lia. simpl.
  replace (Z.min nbytes _) with copy by lia.
  rewrite <- (ring_slice b offset copy p) by (done || lia).
  unfold contents, ztake, zdrop. rewrite skipn_firstn_comm, take_take.
  do 3 f_equal. lia.
Qed.

Lemma write_offset_spec b src nbytes offset :
  fifo_wf b -> 0 <= nbytes <= zlen src -> 0 <= offset < 2 ^ 32 ->
  let copy := Z.max 0 (Z.min nbytes (buffer_length b - data_length b - offset)) in
  exists b',
    pseudo_tcp_fifo_write_offset b src nbytes offset = Ok (copy, b') /\
    fifo_wf b' /\ buffer_length b' = buffer_length b /\
    data_length b' = data_length b /\ read_position b' = read_position b /\
    ring b' = splice (ring b) (data_length b + offset) (ztake copy src).
Proof.
  intros Hwf Hn Ho copy. pose proof Hwf as (Hl & HL & HD & HR).
  unfold pseudo_tcp_fifo_write_offset. set (w := data_length b + offset).
  rewrite (proj2 (Z.eqb_neq _ _)) by lia.
  rewrite (u64_small w) by lia.
  destruct (buffer_length b <=? w) eqn:E; zify_tests.
  { exists b. replace copy with 0 by lia. split; [done|]. do 4 (split; [done|]).
    unfold splice. rewrite ztake_0, zlen_nil, Z.add_0_r. simpl. by rewrite ztake_zdrop. }
  rewrite (u64_small (buffer_length b - data_length b - offset)) by lia.
  rewrite (u64_small (_ + _ + offset)) by lia.
  replace (read_position b + data_length b + offset) with (read_position b + w) by lia.
  set (p := (read_position b + w) mod buffer_length b).
  assert (0 <= p < buffer_length b) by (apply Z.mod_pos_bound; lia).
  rewrite (u64_small (buffer_length b - p)) by lia.
  replace (Z.min nbytes _) with copy by lia.
  set (t := Z.min copy (buffer_length b - p)).
  rewrite (mem_read_ok src 0 t), zdrop_0 by lia. simpl.
  assert (zlen (ztake t src) = t) as Ht by (apply zlen_ztake_le; lia).
  assert (zlen (ztake (copy - t) (zdrop t src)) = copy - t) as Ht2
    by (apply zlen_ztake_le; rewrite zlen_zdrop_le; lia).
  rewrite mem_write_ok by lia. simpl.
  rewrite (mem_read_ok src t (copy - t)) by lia. simpl.
  rewrite mem_write_ok by (rewrite ?zlen_mem_write; lia). simpl.
  eexists. split; [reflexivity|].
  destruct (ring_splice b w p t (ztake t src) (ztake (copy - t) (zdrop t src)))
    as [Hwf' Hring]; try done; try lia.
  do 4 (split; [done|]). etrans; [exact Hring|]. f_equal.
  unfold ztake, zdrop. rewrite take_take_drop. f_equal. lia.
Qed.

(** Moving the read position by [n] rotates the ring. *)
Lemma ring_rotate b n len :
  fifo_wf b -> 0 <= n <= buffer_length b ->
  ring (set_counters b len ((read_position b + n) mod buffer_length b)) =
    zdrop n (ring b) ++ ztake n (ring b).
Proof.
  intros Hwf Hn. pose proof Hwf as (Hl & HL & HD & HR).
  pose proof (zlen_ring b Hwf) as Hr.
  set (b' := set_counters b 0 ((read_position b + n) mod buffer_length b)).
  change (ring b' = zdrop n (ring b) ++ ztake n (ring b)).
  assert (0 <= (read_position b + n) mod buffer_length b < buffer_length b)
    by (apply Z.mod_pos_bound; lia).
  assert (fifo_wf b') as Hwf' by (repeat split; simpl; lia).
  pose proof (zlen_ring b' Hwf') as Hr'. simpl in Hr'.
  apply list_eq_znth; [rewrite zlen_app, zlen_ztake_le, zlen_zdrop_le; lia|].
  rewrite Hr'. intros i Hi. rewrite (znth_ring b' i Hwf') by done. simpl.
  rewrite znth_app, zlen_zdrop_le, znth_ztake by lia.
  rewrite Z.add_mod_idemp_l by lia.
  destruct (Z.ltb_spec i (zlen (ring b) - n)).
  - rewrite znth_zdrop, znth_ring by (done || lia). f_equal. f_equal. lia.
  - rewrite (proj2 (Z.ltb_lt _ _)), znth_ring by (done || lia). f_equal.
    rewrite Hr. replace (read_position b + n + i)
      with (read_position b + (i - (buffer_length b - n)) + 1 * buffer_length b) by lia.
    apply Z_mod_plus_full.
Qed.

(** Dropping [n] buffered bytes and rotating past them keeps the invariant. *)
Lemma advance_spec b n :
  fifo_wf b -> 0 <= n <= data_length b ->
  let b' := set_counters b (data_length b - n) ((read_position b + n) mod buffer_length b) in
  fifo_wf b' /\ contents b' = zdrop n (contents b).
Proof.
  intros Hwf Hn b'. pose proof Hwf as (Hl & HL & HD & HR).
  assert (0 <= (read_position b + n) mod buffer_length b < buffer_length b)
    by (apply Z.mod_pos_bound; lia).
  split; [repeat split; simpl; lia|].
  unfold contents, b'. rewrite ring_rotate by (done || lia). simpl.
  pose proof (zlen_ring b Hwf).
  unfold ztake, zdrop, zlen in *. rewrite take_app_le by (rewrite length_drop; lia).
  rewrite skipn_firstn_comm. f_equal. lia.
Qed.

Lemma consume_read_data_spec b n :
  fifo_wf b -> 0 <= n <= data_length b ->
  exists b', pseudo_tcp_fifo_consume_read_data b n = Ok b' /\
    fifo_wf b' /\ buffer_length b' = buffer_length b /\
    data_length b' = data_length b - n /\ contents b' = zdrop n (contents b).
Proof.
  intros Hwf Hn. pose proof Hwf as (Hl & HL & HD & HR).
  destruct (advance_spec b n) as [Hwf' Hc]; [done..|].
  eexists. unfold pseudo_tcp_fifo_consume_read_data.
  rewrite (proj2 (Z.leb_le _ _)), (proj2 (Z.eqb_neq _ _)), u64_small by lia. simpl. eauto.
Qed.

Lemma consume_write_buffer_spec b n :
  fifo_wf b -> 0 <= n <= buffer_length b - data_length b ->
  exists b', pseudo_tcp_fifo_consume_write_buffer b n = Ok b' /\
    fifo_wf b' /\ buffer_length b' = buffer_length b /\
    data_length b' = data_length b + n /\ ring b' = ring b.
Proof.
  intros (Hl & HL & HD & HR) Hn. unfold pseudo_tcp_fifo_consume_write_buffer.
  rewrite u64_small, (proj2 (Z.leb_le _ _)) by lia. simpl.
  eexists. split; [done|]. repeat split; simpl; lia.
Qed.

(** Refinement of [read]: the caller gets the front of the queue. *)
Lemma read_spec b n :
  fifo_wf b -> 0 <= n < 2 ^ 64 ->
  let copy := Z.min n (data_length b) in
  exists b', pseudo_tcp_fifo_read b n = Ok (copy, ztake copy (contents b), b') /\
    fifo_wf b' /\ buffer_length b' = buffer_length b /\
    data_length b' = data_length b - copy /\ contents b' = zdrop copy (contents b).
Proof.
  intros Hwf Hn copy. pose proof Hwf as (Hl & HL & HD & HR).
  unfold pseudo_tcp_fifo_read.
  rewrite read_offset_spec by (done || lia). rewrite zdrop_0. simpl.
  replace (Z.max _ _) with copy by lia. rewrite u64_small by lia.
  destruct (advance_spec b copy) as [Hwf' Hc]; [done|lia|].
  eexists. split; [reflexivity|]. split; [exact Hwf'|]. split; [done|]. split; [done|]. exact Hc.
Qed.

(** The cells below the write position are untouched by a splice there. *)
Lemma ztake_splice (l : bytes) p src n :
  0 <= n <= p -> p <= zlen l -> ztake n (splice l p src) = ztake n l.
Proof.
  intros. unfold splice, ztake, zlen in *. rewrite take_app_le by (rewrite length_take; lia).
  rewrite take_take. f_equal. lia.
Qed.

Lemma ztake_splice_end (l : bytes) p src :
  0 <= p <= zlen l -> ztake (p + zlen src) (splice l p src) = ztake p l ++ src.
Proof.
  intros. unfold splice, ztake, zlen in *. rewrite app_assoc, take_app_length'; [done|].
  rewrite length_app, length_take. lia.
Qed.

(** Refinement of [write]: the accepted prefix is appended to the queue. *)
Lemma write_spec b src n :
  fifo_wf b -> 0 <= n <= zlen src ->
  let copy := Z.min n (buffer_length b - data_length b) in
  exists b', pseudo_tcp_fifo_write b src n = Ok (copy, b') /\
    fifo_wf b' /\ buffer_length b' = buffer_length b /\
    data_length b' = data_length b + copy /\
    contents b' = contents b ++ ztake copy src.
Proof.
  intros Hwf Hn copy. pose proof Hwf as (Hl & HL & HD & HR).
  destruct (write_offset_spec b src n 0) as (b' & Hb & Hwf' & HbL & Hbd & Hbr & Hring); [done..|].
  unfold pseudo_tcp_fifo_write. rewrite Hb. simpl.
  rewrite !Z.sub_0_r, Z.add_0_r in *.
  replace (Z.max _ _) with copy in * by lia.
  eexists. split; [done|]. destruct Hwf' as (? & ? & ? & ?).
  split; [repeat split; simpl; lia|]. repeat split; simpl; try lia.
  unfold contents. simpl. change (ring (set_counters b' _ _)) with (ring b').
  rewrite Hring, Hbd. assert (zlen (ztake copy src) = copy) as Hc by (apply zlen_ztake_le; lia).
  rewrite <- Hc at 1. apply ztake_splice_end. rewrite zlen_ring; done.
Qed.

(** Resizing to any capacity that can hold the data keeps the queue. *)
Lemma set_capacity_spec junk b size :
  fifo_wf b -> data_length b <= size < 2 ^ 32 -> 0 < size ->
  exists b', pseudo_tcp_fifo_set_capacity junk b size = Ok (true, b') /\
    fifo_wf b' /\ contents b' = contents b /\ data_length b' = data_length b /\
    (size <> data_length b -> buffer_length b' = size).
Proof.
  intros Hwf Hs Hp. pose proof Hwf as (Hl & HL & HD & HR).
  unfold pseudo_tcp_fifo_set_capacity.
  rewrite (proj2 (Z.ltb_ge _ _)) by lia.
  destruct (Z.eqb_spec size (data_length b)); simpl; [by exists b|].
  rewrite u64_small by lia.
  set (t := Z.min (data_length b) (buffer_length b - read_position b)).
  rewrite !mem_read_ok by lia. simpl.
  assert (zlen (ztake t (zdrop (read_position b) (buffer b))) = t) as Hz1
    by (apply zlen_ztake_le; rewrite zlen_zdrop_le; lia).
  assert (zlen (ztake (data_length b - t) (zdrop 0 (buffer b))) = data_length b - t) as Hz2
    by (apply zlen_ztake_le; rewrite zdrop_0; lia).
  pose proof (zlen_malloc junk size) as Hm. set (m := malloc junk size) in *.
  rewrite mem_write_ok by lia. bind_simpl.
  assert (zlen (splice m 0 (ztake t (zdrop (read_position b) (buffer b)))) = zlen m) as Hz3
    by (apply zlen_mem_write; lia).
  unfold splice in Hz3. rewrite mem_write_ok by lia. bind_simpl. eexists. split; [reflexivity|].
  split; [repeat split; cbn [buffer buffer_length data_length read_position]; try lia;
          rewrite zlen_mem_write; lia|split; [|done]].
  unfold contents at 1, ring at 1. cbn [buffer data_length read_position].
  rewrite zdrop_0, ztake_0, app_nil_r.
  change (ztake (data_length b) (splice (splice m 0
    (ztake t (zdrop (read_position b) (buffer b)))) t
    (ztake (data_length b - t) (zdrop 0 (buffer b)))) = contents b).
  replace (data_length b) with
    (t + zlen (ztake (data_length b - t) (zdrop 0 (buffer b)))) at 1 by lia.
  rewrite ztake_splice_end
    by (unfold splice; lia).
  replace t with (0 + zlen (ztake t (zdrop (read_position b) (buffer b)))) at 1 by lia.
  rewrite ztake_splice_end by lia.
  rewrite ztake_0. cbn [app]. unfold contents.
  rewrite <- (zdrop_0 (ring b)). symmetry. apply ring_slice; [done|lia..| |].
  - rewrite Z.add_0_r. symmetry. apply Z.mod_small. lia.
  - lia.
Qed.

(** ** Refinement

    The contract of the ring buffer: a queue of bytes with a capacity. *)

Inductive FifoOp :=
| FWrite (src : bytes)
| FRead (n : Z)
| FPeek (n offset : Z)
| FDrop (n : Z)
| FResize (size : Z).

Inductive FifoRes :=
| RCount (n : Z)
| RBytes (out : bytes)
| RBool (b : bool).

(** One operation of the code. *)
Definition fifo_step (junk : Z) (b : PseudoTcpFifo) (o : FifoOp)
  : outcome (FifoRes * PseudoTcpFifo) :=
  match o with
  | FWrite src => '(n, b) ← pseudo_tcp_fifo_write b src (zlen src); Ok (RCount n, b)
  | FRead n => '(_, out, b) ← pseudo_tcp_fifo_read b n; Ok (RBytes out, b)
  | FPeek n offset => '(_, out) ← pseudo_tcp_fifo_read_offset b n offset; Ok (RBytes out, b)
  | FDrop n => b ← pseudo_tcp_fifo_consume_read_data b n; Ok (RCount n, b)
  | FResize size => '(r, b) ← pseudo_tcp_fifo_set_capacity junk b size; Ok (RBool r, b)
  end.

(** The same operation on the capacity and the queue. *)
Definition queue_step (cq : Z * bytes) (o : FifoOp) : FifoRes * (Z * bytes) :=
  let '(cap, q) := cq in
  match o with
  | FWrite src =>
      let n := Z.min (zlen src) (cap - zlen q) in (RCount n, (cap, q ++ ztake n src))
  | FRead n => (RBytes (ztake n q), (cap, zdrop n q))
  | FPeek n offset => (RBytes (ztake n (zdrop offset q)), (cap, q))
  | FDrop n => (RCount n, (cap, zdrop n q))
  | FResize size =>
      if size <? zlen q then (RBool false, (cap, q))
      else (RBool true, (if size =? zlen q then cap else size, q))
  end.

(** What the caller must respect: machine-width sizes, a capacity that is not
    zero, and dropping no more than there is. *)
Definition op_ok (cq : Z * bytes) (o : FifoOp) : Prop :=
  match o with
  | FWrite _ => True
  | FRead n => 0 <= n < 2 ^ 64
  | FPeek n offset => 0 <= n < 2 ^ 64 /\ 0 <= offset < 2 ^ 32
  | FDrop n => 0 <= n <= zlen cq.2
  | FResize size => 0 < size < 2 ^ 32
  end.

Definition abs (b : PseudoTcpFifo) : Z * bytes := (buffer_length b, contents b).

Lemma ztake_min {A} n (l : list A) : ztake (Z.min n (zlen l)) l = ztake n l.
Proof. unfold ztake, zlen. destruct (decide (Z.of_nat (length l) <= n)).
  - rewrite !take_ge; [done|lia|lia].
  - f_equal. lia.
Qed.

Lemma zdrop_min {A} n (l : list A) : zdrop (Z.min n (zlen l)) l = zdrop n l.
Proof. unfold zdrop, zlen. destruct (decide (Z.of_nat (length l) <= n)).
  - rewrite !drop_ge; [done|lia|lia].
  - f_equal. lia.
Qed.

Lemma fifo_step_refines junk b o :
  fifo_wf b -> op_ok (abs b) o ->
  exists r b', fifo_step junk b o = Ok (r, b') /\ fifo_wf b' /\
    queue_step (abs b) o = (r, abs b').
Proof.
  intros Hwf Ho. pose proof (zlen_contents b Hwf) as Hz. unfold abs.
  destruct o as [src|n|n offset|n|size]; simpl in Ho |- *; rewrite ?Hz in *.
  - pose proof (zlen_nonneg src).
    destruct (write_spec b src (zlen src)) as (b' & -> & Hwf' & HL & _ & Hc); [done|lia|].
    simpl. do 2 eexists. split; [reflexivity|]. split; [done|]. by rewrite HL, Hc.
  - destruct (read_spec b n) as (b' & -> & Hwf' & HL & _ & Hc); [done..|].
    simpl. do 2 eexists. split; [reflexivity|]. split; [done|].
    rewrite HL, Hc. rewrite <- Hz. by rewrite ztake_min, zdrop_min.
  - rewrite read_offset_spec by (done || lia). simpl. do 2 eexists.
    split; [reflexivity|]. split; [done|]. do 2 f_equal. rewrite <- (ztake_min n).
    rewrite zlen_zdrop, Hz. f_equal. lia.
  - destruct (consume_read_data_spec b n) as (b' & -> & Hwf' & HL & _ & Hc); [done|lia|].
    simpl. do 2 eexists. split; [reflexivity|]. split; [done|]. by rewrite HL, Hc.
  - destruct (Z.ltb_spec size (data_length b)) as [H|H].
    + unfold pseudo_tcp_fifo_set_capacity. rewrite (proj2 (Z.ltb_lt _ _)) by lia. simpl.
      by do 2 eexists.
    + destruct (set_capacity_spec junk b size) as (b' & E & Hwf' & Hc & _ & HL); [done|lia|lia|].
      rewrite E. simpl. do 2 eexists. split; [reflexivity|]. split; [done|]. rewrite Hc.
      destruct (Z.eqb_spec size (data_length b)) as [He|He]; [|by rewrite HL].
      revert E. unfold pseudo_tcp_fifo_set_capacity.
      rewrite (proj2 (Z.ltb_ge _ _)), (proj2 (Z.eqb_eq _ _)) by lia. simpl. by intros [= <-].
Qed.

Fixpoint fifo_run (junk : Z) (b : PseudoTcpFifo) (ops : list FifoOp)
  : outcome (list FifoRes * PseudoTcpFifo) :=
  match ops with
  | [] => Ok ([], b)
  | o :: ops => '(r, b) ← fifo_step junk b o; '(rs, b) ← fifo_run junk b ops; Ok (r :: rs, b)
  end.

Fixpoint queue_run (cq : Z * bytes) (ops : list FifoOp) : list FifoRes * (Z * bytes) :=
  match ops with
  | [] => ([], cq)
  | o :: ops =>
      let '(r, cq) := queue_step cq o in
      let '(rs, cq) := queue_run cq ops in (r :: rs, cq)
  end.

Fixpoint ops_ok (cq : Z * bytes) (ops : list FifoOp) : Prop :=
  match ops with
  | [] => True
  | o :: ops => op_ok cq o /\ ops_ok (queue_step cq o).2 ops
  end.

(** C35. The ring buffer implements a bounded byte queue. For every sequence of
    operations whose sizes are in range, the code runs without a failed
    assertion or an access outside the buffer, returns the results that the
    queue of the same capacity gives, and ends in a well-formed buffer whose
    content is the queue. *)
Theorem fifo_refines_queue (junk : Z) (b : PseudoTcpFifo) (ops : list FifoOp) :
  fifo_wf b -> ops_ok (abs b) ops ->
  exists b', fifo_run junk b ops = Ok ((queue_run (abs b) ops).1, b') /\ fifo_wf b' /\
    abs b' = (queue_run (abs b) ops).2.
Proof.
  revert b. induction ops as [|o ops IH]; cbn [fifo_run queue_run ops_ok];
    intros b Hwf Hok; [by exists b|]. destruct Hok as [Ho Hok].
  destruct (fifo_step_refines junk b o Hwf Ho) as (r & b1 & -> & Hwf1 & E). bind_simpl.
  rewrite E in Hok |- *. simpl in Hok.
  destruct (IH b1 Hwf1 Hok) as (b2 & -> & Hwf2 & E2). bind_simpl.
  destruct (queue_run (abs b1) ops) as [rs cq]. by exists b2.
Qed.

Definition demo_fifo : PseudoTcpFifo := mkFifo [1; 2; 3; 4] 4 3 2.

Lemma fifo_refines_queue_witness : exists b',
  fifo_run 205 demo_fifo [FWrite [7; 8]; FRead 2; FResize 6; FWrite [9; 9; 9; 9; 9]]
  = Ok ([RCount 1; RBytes [3; 4]; RBool true; RCount 4], b') /\ contents b' = [1; 7; 9; 9; 9; 9].
Proof.
  destruct (fifo_refines_queue 205 demo_fifo
    [FWrite [7; 8]; FRead 2; FResize 6; FWrite [9; 9; 9; 9; 9]]) as (b' & E & _ & H).
  - repeat split; vm_compute; congruence.
  - repeat split; vm_compute; congruence.
  - exists b'. split; [exact E|]. apply (f_equal snd) in H. exact H.
Defined.

End Fifo.
