(* ===== verification/TcpBase.v ===== *)
(** * Constants, sequence arithmetic and wire format of the pseudo TCP socket

    The part of src/src/session/pseudotcp/pseudotcp.c that does not touch the
    socket: the enumerations, the wrap-around comparisons on sequence numbers
    and clocks, the 24-byte header that [packet] builds and [parse] takes apart,
    and the table of valid state transitions. *)

From Stdlib Require Import ZArith Lia.
From stdpp Require Import prelude list.
From S2P Require Import Prelude.

Definition PACKET_MAXIMUMS : list Z :=
  [65535; 32000; 17914; 8166; 4352; 2002; 1492; 1006; 508; 296; 0].

Definition DEF_MTU : Z := 1400.
Definition MAX_PACKET : Z := 65532.
Definition MIN_PACKET : Z := 296.
Definition HEADER_SIZE : Z := 24.
(** [HEADER_SIZE + UDP_HEADER_SIZE + IP_HEADER_SIZE + JINGLE_HEADER_SIZE] *)
Definition PACKET_OVERHEAD : Z := 24 + 8 + 20 + 64.
Definition MIN_RTO : Z := 1000.
Definition DEF_RTO : Z := 1000.
Definition MAX_RTO : Z := 60000.
Definition DEFAULT_ACK_DELAY : Z := 100.
Definition DEFAULT_RCV_BUF_SIZE : Z := 60 * 1024.
Definition DEFAULT_SND_BUF_SIZE : Z := 90 * 1024.
Definition DEFAULT_TIMEOUT : Z := 4000.
Definition CLOSED_TIMEOUT : Z := 60 * 1000.
Definition TIME_WAIT_TIMEOUT : Z := 1.

Definition TCP_OPT_EOL : Z := 0.
Definition TCP_OPT_NOOP : Z := 1.
Definition TCP_OPT_MSS : Z := 2.
Definition TCP_OPT_WND_SCALE : Z := 3.
Definition TCP_OPT_FIN_ACK : Z := 254.

Definition FLAG_NONE : Z := 0.
Definition FLAG_FIN : Z := 1.
Definition FLAG_CTL : Z := 2.
Definition FLAG_RST : Z := 4.
Definition CTL_CONNECT : Z := 0.

(** Linux error numbers. *)
Definition EINVAL : Z := 22.
Definition EPIPE : Z := 32.
Definition EWOULDBLOCK : Z := 11.
Definition EMSGSIZE : Z := 90.
Definition ECONNABORTED : Z := 103.
Definition ECONNRESET : Z := 104.
Definition ENOTCONN : Z := 107.
Definition ETIMEDOUT : Z := 110.

Inductive PseudoTcpState :=
| TCP_LISTEN | TCP_SYN_SENT | TCP_SYN_RECEIVED | TCP_ESTABLISHED | TCP_CLOSED
| TCP_FIN_WAIT_1 | TCP_FIN_WAIT_2 | TCP_CLOSING | TCP_TIME_WAIT
| TCP_CLOSE_WAIT | TCP_LAST_ACK.

Inductive PseudoTcpWriteResult := WR_SUCCESS | WR_TOO_LARGE | WR_FAIL.
Inductive PseudoTcpShutdown :=
| PSEUDO_TCP_SHUTDOWN_RD | PSEUDO_TCP_SHUTDOWN_WR | PSEUDO_TCP_SHUTDOWN_RDWR.
Inductive Shutdown := SD_NONE | SD_GRACEFUL | SD_FORCEFUL.
Inductive SendFlags :=
| sfNone | sfDelayedAck | sfImmediateAck | sfFin | sfRst | sfDuplicateAck.
Inductive ClosedownSource := CLOSEDOWN_LOCAL | CLOSEDOWN_REMOTE.

#[global] Instance PseudoTcpState_eq_dec : EqDecision PseudoTcpState.
Proof. solve_decision. Defined.
#[global] Instance PseudoTcpWriteResult_eq_dec : EqDecision PseudoTcpWriteResult.
Proof. solve_decision. Defined.
#[global] Instance Shutdown_eq_dec : EqDecision Shutdown.
Proof. solve_decision. Defined.
#[global] Instance SendFlags_eq_dec : EqDecision SendFlags.
Proof. solve_decision. Defined.
#[global] Instance PseudoTcpShutdown_eq_dec : EqDecision PseudoTcpShutdown.
Proof. solve_decision. Defined.

Notation "x ==b y" := (bool_decide (x = y)) (at level 70) : Z_scope.

(** The numeric value of the enumeration constant. *)
Definition state_num (st : PseudoTcpState) : Z :=
  match st with
  | TCP_LISTEN => 0 | TCP_SYN_SENT => 1 | TCP_SYN_RECEIVED => 2
  | TCP_ESTABLISHED => 3 | TCP_CLOSED => 4 | TCP_FIN_WAIT_1 => 5
  | TCP_FIN_WAIT_2 => 6 | TCP_CLOSING => 7 | TCP_TIME_WAIT => 8
  | TCP_CLOSE_WAIT => 9 | TCP_LAST_ACK => 10
  end.

Record Segment := mkSegment {
  seg_conv : Z; seg_seq : Z; seg_ack : Z; seg_flags : Z; seg_wnd : Z;
  seg_data : bytes; seg_len : Z; seg_tsval : Z; seg_tsecr : Z;
}.

Record SSegment := mkSSegment { ss_seq : Z; ss_len : Z; ss_xmit : Z; ss_flags : Z }.

Record RSegment := mkRSegment { rs_seq : Z; rs_len : Z }.

Module Seq.

(** ** Clock and sequence arithmetic *)

Definition bound (lower middle upper : Z) : Z := Z.min (Z.max lower middle) upper.

Definition time_is_between (later middle earlier : Z) : bool :=
  if earlier <=? later then (earlier <=? middle) && (middle <=? later)
  else negb ((later <? middle) && (middle <? earlier)).

(** The casts to [long] hold on a 64-bit [long]; the result is truncated to
    [gint32]. *)
Definition time_diff (later earlier : Z) : Z :=
  let LAST := 0xFFFFFFFF in
  let HALF := 0x80000000 in
  if time_is_between (u32 (earlier + HALF)) later earlier then
    if earlier <=? later then s32 (u32 (later - earlier))
    else s32 (u32 (later + (LAST - earlier) + 1))
  else
    if later <=? earlier then s32 (- u32 (earlier - later))
    else s32 (- u32 (earlier + (LAST - later) + 1)).

Definition LARGER (a b : Z) : bool := u32 (a - b - 1) <? 0x7FFFFFFF.
Definition LARGER_OR_EQUAL (a b : Z) : bool := u32 (a - b) <? 0x7FFFFFFF.
Definition SMALLER (a b : Z) : bool := LARGER b a.
Definition SMALLER_OR_EQUAL (a b : Z) : bool := LARGER_OR_EQUAL b a.

(** [u32] of a value in the window one period around the canonical one. *)
Lemma u32_wrap x : - 2 ^ 32 <= x < 2 ^ 33 ->
  u32 x = if x <? 0 then x + 2 ^ 32 else if x <? 2 ^ 32 then x else x - 2 ^ 32.
Proof.
  intros. unfold u32. case_cmp.
  - symmetry. apply Z.mod_unique with (-1); lia.
  - apply Z.mod_small; lia.
  - symmetry. apply Z.mod_unique with 1; lia.
Qed.

(** The comparison macros decide the order of unbounded sequence numbers that
    are less than half the space apart. *)
Lemma LARGER_spec x y : -2 ^ 31 < x - y < 2 ^ 31 ->
  LARGER (u32 x) (u32 y) = (y <? x).
Proof.
  intros H. unfold LARGER.
  replace (u32 x - u32 y - 1) with (u32 x - (u32 y + 1)) by lia.
  rewrite u32_sub_l.
  replace (x - (u32 y + 1)) with (x - 1 - u32 y) by lia.
  rewrite u32_sub_r, u32_wrap by lia. case_cmp.
Qed.

Lemma LARGER_OR_EQUAL_spec x y : -2 ^ 31 < x - y < 2 ^ 31 - 1 ->
  LARGER_OR_EQUAL (u32 x) (u32 y) = (y <=? x).
Proof.
  intros H. unfold LARGER_OR_EQUAL. unfold u32 at 1 2 3. rewrite <- Zminus_mod.
  fold (u32 (x - y)). rewrite u32_wrap by lia. case_cmp.
Qed.

Lemma SMALLER_spec x y : -2 ^ 31 < y - x < 2 ^ 31 -> SMALLER (u32 x) (u32 y) = (x <? y).
Proof. apply LARGER_spec. Qed.

Lemma SMALLER_OR_EQUAL_spec x y : -2 ^ 31 < y - x < 2 ^ 31 - 1 ->
  SMALLER_OR_EQUAL (u32 x) (u32 y) = (x <=? y).
Proof. apply LARGER_OR_EQUAL_spec. Qed.

(** [time_diff] recovers the signed distance of two unbounded clock values that
    are less than half the clock space apart. *)
Lemma time_diff_spec x y : -2 ^ 31 < x - y < 2 ^ 31 -> time_diff (u32 x) (u32 y) = x - y.
Proof.
  intros H.
  pose proof (u32_range x) as Hx. pose proof (u32_range y) as Hy.
  assert (exists k, u32 x - u32 y = x - y + k * 2 ^ 32 /\ -1 <= k <= 1) as (k & Hk & ?).
  { exists (y / 2 ^ 32 - x / 2 ^ 32). unfold u32 in *.
    pose proof (Z.div_mod x (2 ^ 32) ltac:(lia)). pose proof (Z.div_mod y (2 ^ 32) ltac:(lia)).
    lia. }
  revert Hk Hx Hy. generalize (u32 x) (u32 y). intros a b Hk Ha Hb.
  unfold time_diff, time_is_between. rewrite (u32_wrap (b + _)) by lia.
  assert (k = -1 \/ k = 0 \/ k = 1) as [-> | [-> | ->]] by lia; case_cmp;
    rewrite u32_small by lia; rewrite s32_small; lia.
Qed.

(** The wrap-around comparisons are right: for unbounded sequence numbers
    (or clock values) less than 2^31 - 1 apart, of which the code only has the
    low 32 bits, the four macros decide the true order and [time_diff] gives
    the true signed distance. *)
Theorem sequence_order (x y : Z) : - (2 ^ 31 - 1) < x - y < 2 ^ 31 - 1 ->
  LARGER (u32 x) (u32 y) = (y <? x) /\ LARGER_OR_EQUAL (u32 x) (u32 y) = (y <=? x) /\
  SMALLER (u32 x) (u32 y) = (x <? y) /\ SMALLER_OR_EQUAL (u32 x) (u32 y) = (x <=? y) /\
  time_diff (u32 x) (u32 y) = x - y.
Proof.
  intros H. rewrite LARGER_spec, LARGER_OR_EQUAL_spec, SMALLER_spec, SMALLER_OR_EQUAL_spec,
    time_diff_spec by lia. done.
Qed.

Lemma sequence_order_witness :
  LARGER 5 (2 ^ 32 - 3) = true /\ time_diff 5 (2 ^ 32 - 3) = 8.
Proof.
  destruct (sequence_order (2 ^ 32 + 5) (2 ^ 32 - 3) ltac:(lia)) as (H1 & _ & _ & _ & H2).
  split; [exact H1|exact H2].
Defined.

(** The macros disagree at the edge of the window: 2^31 - 1 ahead is larger
    by [LARGER] but not larger or equal by [LARGER_OR_EQUAL], so that the order
    the acknowledgement tests rely on breaks exactly there. *)
Theorem larger_not_larger_or_equal (y : Z) :
  LARGER (u32 (y + (2 ^ 31 - 1))) (u32 y) = true /\
  LARGER_OR_EQUAL (u32 (y + (2 ^ 31 - 1))) (u32 y) = false.
Proof.
  split; [rewrite LARGER_spec by lia; lia|].
  unfold LARGER_OR_EQUAL. rewrite u32_sub_l, u32_sub_r.
  by replace (y + (2 ^ 31 - 1) - y) with (2 ^ 31 - 1) by lia.
Qed.

End Seq.

Module Wire.

(** ** Network byte order *)

(** The four bytes [htonl (x)] stores, and the value [ntohl] reads back. *)
Definition be32 (x : Z) : bytes :=
  [Z.land (Z.shiftr x 24) 0xFF; Z.land (Z.shiftr x 16) 0xFF;
   Z.land (Z.shiftr x 8) 0xFF; Z.land x 0xFF].

Definition rd32 (b0 b1 b2 b3 : Z) : Z :=
  Z.lor (Z.shiftl b0 24) (Z.lor (Z.shiftl b1 16) (Z.lor (Z.shiftl b2 8) b3)).

Definition be16 (x : Z) : bytes := [Z.land (Z.shiftr x 8) 0xFF; Z.land x 0xFF].

Definition rd16 (b0 b1 : Z) : Z := Z.lor (Z.shiftl b0 8) b1.

(** The header [packet] stores in the first 24 bytes of its buffer. *)
Definition packet_header (conv seq rcv_nxt flags wnd now ts_recent : Z) : bytes :=
  be32 conv ++ be32 seq ++ be32 rcv_nxt ++ [0; u8 flags] ++ be16 wnd ++
  be32 now ++ be32 ts_recent.

(** The segment [parse] hands to [process]; [None] when the header buffer has
    not 24 bytes. *)
Definition parse_header (h : bytes) (data : bytes) : option Segment :=
  match h with
  | [c0; c1; c2; c3; s0; s1; s2; s3; a0; a1; a2; a3; _; fl; w0; w1;
     t0; t1; t2; t3; r0; r1; r2; r3] =>
      Some (mkSegment (rd32 c0 c1 c2 c3) (rd32 s0 s1 s2 s3) (rd32 a0 a1 a2 a3)
              fl (rd16 w0 w1) data (u32 (zlen data))
              (rd32 t0 t1 t2 t3) (rd32 r0 r1 r2 r3))
  | _ => None
  end.

Lemma testbit_land_ff x i : 0 <= i ->
  Z.testbit (Z.land x 0xFF) i = Z.testbit x i && (i <? 8).
Proof.
  intros. change 0xFF with (Z.ones 8). rewrite Z.land_spec.
  f_equal. apply Z.testbit_ones_nonneg; lia.
Qed.

Lemma testbit_shiftl x n i : 0 <= n -> 0 <= i ->
  Z.testbit (Z.shiftl x n) i = Z.testbit x (i - n).
Proof. intros. by apply Z.shiftl_spec. Qed.

Lemma testbit_high_false x n i : 0 <= x < 2 ^ n -> 0 <= n <= i -> Z.testbit x i = false.
Proof.
  intros Hx Hi. rewrite <- (Z.mod_small x (2 ^ n)) by done.
  apply Z.mod_pow2_bits_high. lia.
Qed.

Lemma rd32_be32 x : 0 <= x < 2 ^ 32 ->
  rd32 (Z.land (Z.shiftr x 24) 0xFF) (Z.land (Z.shiftr x 16) 0xFF)
       (Z.land (Z.shiftr x 8) 0xFF) (Z.land x 0xFF) = x.
Proof.
  intros Hx. unfold rd32. apply Z.bits_inj'. intros i Hi.
  rewrite !Z.lor_spec, !testbit_shiftl by lia.
  destruct (Z.ltb_spec i 32) as [Hlt|Hge].
  2:{ rewrite (testbit_high_false x 32 i) by lia.
      rewrite !testbit_land_ff by lia. rewrite !(proj2 (Z.ltb_ge _ _)) by lia.
      by rewrite !andb_false_r. }
  assert (forall n, 0 <= n -> Z.testbit (Z.land (Z.shiftr x n) 0xFF) (i - n) =
    (n <=? i) && (i <? n + 8) && Z.testbit x i) as Hn.
  { intros n Hn. destruct (Z.leb_spec n i).
    - rewrite testbit_land_ff, Z.shiftr_spec by lia.
      replace (i - n + n) with i by lia. rewrite andb_comm. f_equal.
      simpl. case_cmp.
    - simpl. apply Z.testbit_neg_r. lia. }
  rewrite !Hn, testbit_land_ff by lia. case_cmp; destruct (Z.testbit x i); reflexivity.
Qed.

Lemma rd16_be16 x : 0 <= x < 2 ^ 16 ->
  rd16 (Z.land (Z.shiftr x 8) 0xFF) (Z.land x 0xFF) = x.
Proof.
  intros Hx. rewrite <- (rd32_be32 x) at 3 by lia. unfold rd32, rd16.
  rewrite !(Z.shiftr_div_pow2 x) by lia.
  rewrite (Z.div_small x (2 ^ 24)), (Z.div_small x (2 ^ 16)) by lia. reflexivity.
Qed.

(** Parsing the header that [packet] builds gives its fields back. *)
Lemma parse_packet_header conv seq ack flags wnd now ts data :
  is_u32 conv -> is_u32 seq -> is_u32 ack -> is_u8 flags -> 0 <= wnd < 2 ^ 16 ->
  is_u32 now -> is_u32 ts -> zlen data < 2 ^ 32 ->
  parse_header (packet_header conv seq ack flags wnd now ts) data =
    Some (mkSegment conv seq ack flags wnd data (zlen data) now ts).
Proof.
  unfold is_u32, is_u8. intros. unfold parse_header, packet_header, be32, be16.
  cbn [app]. rewrite !rd32_be32, rd16_be16, u8_small, u32_small
    by (pose proof (zlen_nonneg data); lia). reflexivity.
Qed.

Lemma zlen_packet_header conv seq ack flags wnd now ts :
  zlen (packet_header conv seq ack flags wnd now ts) = HEADER_SIZE.
Proof. reflexivity. Qed.

End Wire.

Module State.

(** ** The connection state machine *)

Definition pseudo_tcp_state_has_sent_fin (st : PseudoTcpState) : bool :=
  match st with
  | TCP_LISTEN | TCP_SYN_SENT | TCP_SYN_RECEIVED | TCP_ESTABLISHED
  | TCP_CLOSE_WAIT => false
  | TCP_CLOSED | TCP_FIN_WAIT_1 | TCP_FIN_WAIT_2 | TCP_CLOSING
  | TCP_TIME_WAIT | TCP_LAST_ACK => true
  end.

Definition pseudo_tcp_state_has_received_fin (st : PseudoTcpState) : bool :=
  match st with
  | TCP_LISTEN | TCP_SYN_SENT | TCP_SYN_RECEIVED | TCP_ESTABLISHED
  | TCP_FIN_WAIT_1 | TCP_FIN_WAIT_2 => false
  | TCP_CLOSED | TCP_CLOSING | TCP_TIME_WAIT | TCP_CLOSE_WAIT
  | TCP_LAST_ACK => true
  end.

Definition pseudo_tcp_state_has_received_fin_ack (st : PseudoTcpState) : bool :=
  match st with
  | TCP_LISTEN | TCP_SYN_SENT | TCP_SYN_RECEIVED | TCP_ESTABLISHED
  | TCP_FIN_WAIT_1 | TCP_FIN_WAIT_2 | TCP_CLOSING | TCP_CLOSE_WAIT
  | TCP_LAST_ACK => false
  | TCP_CLOSED | TCP_TIME_WAIT => true
  end.

(** The disjunction of [TRANSITION (OLD, NEW)] that [set_state] asserts. *)
Definition valid_transition (old_state new_state : PseudoTcpState) : bool :=
  match old_state, new_state with
  | TCP_CLOSED, TCP_SYN_SENT | TCP_SYN_SENT, TCP_CLOSED
  | TCP_CLOSED, TCP_LISTEN | TCP_LISTEN, TCP_CLOSED
  | TCP_LISTEN, TCP_SYN_SENT | TCP_LISTEN, TCP_SYN_RECEIVED
  | TCP_SYN_SENT, TCP_SYN_RECEIVED | TCP_SYN_RECEIVED, TCP_ESTABLISHED
  | TCP_SYN_SENT, TCP_ESTABLISHED | TCP_SYN_RECEIVED, TCP_FIN_WAIT_1
  | TCP_ESTABLISHED, TCP_FIN_WAIT_1 | TCP_ESTABLISHED, TCP_CLOSE_WAIT
  | TCP_FIN_WAIT_1, TCP_FIN_WAIT_2 | TCP_FIN_WAIT_1, TCP_CLOSING
  | TCP_CLOSE_WAIT, TCP_LAST_ACK | TCP_FIN_WAIT_2, TCP_TIME_WAIT
  | TCP_CLOSING, TCP_TIME_WAIT | TCP_LAST_ACK, TCP_CLOSED
  | TCP_TIME_WAIT, TCP_CLOSED
  | TCP_SYN_RECEIVED, TCP_LISTEN | TCP_FIN_WAIT_1, TCP_TIME_WAIT => true
  | _, _ => false
  end.

End State.
