(* ===== verification/TcpTypes.v ===== *)
(** * The pseudo TCP socket: its state

    [struct _PseudoTcpSocketPrivate] of src/src/session/pseudotcp/pseudotcp.c as
    the record [Sock], field by field, with one setter per field. The queues
    [slist] and [unsent_slist] hold pointers to shared [SSegment]s: they are
    lists of addresses into the store [heap]. The last fields record the
    interaction with the outside: the callbacks made and packets written so far
    ([events], oldest last), and how many packet writes and clock reads the
    environment has answered. *)

From Stdlib Require Import ZArith Lia.
From stdpp Require Import prelude gmap list.
From S2P Require Import Prelude TcpFifo TcpBase.

(** Which callbacks of [PseudoTcpCallbacks] are not NULL ([WritePacket] always
    is: [packet] calls it unconditionally). *)
Record PseudoTcpCallbacks := mkCallbacks {
  has_opened : bool; has_readable : bool; has_writable : bool; has_closed : bool;
}.

(** What the socket did to the outside. *)
Inductive Event :=
| EvPacket (p : bytes)
| EvOpened
| EvReadable
| EvWritable
| EvClosed (err : Z).

(** The answers of the environment: the result of the n-th packet write, the
    n-th reading of the monotonic clock (microseconds), and the content of
    fresh memory. *)
Record Env := mkEnv {
  WritePacket : nat -> bytes -> PseudoTcpWriteResult;
  g_get_monotonic_time : nat -> Z;
  junk : Z;
}.

Record Sock := mkSock {
  callbacks : PseudoTcpCallbacks;
  shutdown : Shutdown;
  shutdown_reads : bool;
  error : Z;
  state : PseudoTcpState;
  conv : Z;
  bReadEnable : bool;
  bWriteEnable : bool;
  bOutgoing : bool;
  last_traffic : Z;
  rlist : list RSegment;
  rbuf_len : Z;
  rcv_nxt : Z;
  rcv_wnd : Z;
  lastrecv : Z;
  rwnd_scale : Z;
  rbuf : PseudoTcpFifo;
  rcv_fin : Z;
  slist : list nat;
  unsent_slist : list nat;
  sbuf_len : Z;
  snd_nxt : Z;
  snd_wnd : Z;
  lastsend : Z;
  snd_una : Z;
  swnd_scale : Z;
  sbuf : PseudoTcpFifo;
  mss : Z;
  msslevel : Z;
  largest : Z;
  mtu_advise : Z;
  rto_base : Z;
  ts_recent : Z;
  ts_lastack : Z;
  rx_rttvar : Z;
  rx_srtt : Z;
  rx_rto : Z;
  ssthresh : Z;
  cwnd : Z;
  dup_acks : Z;
  recover : Z;
  fast_recovery : bool;
  t_ack : Z;
  last_acked_ts : Z;
  use_nagling : bool;
  ack_delay : Z;
  support_wnd_scale : bool;
  current_time : Z;
  support_fin_ack : bool;
  heap : gmap nat SSegment;
  next_seg : nat;
  events : list Event;
  npkts : nat;
  nclk : nat;
}.

(** Eta expansion, from which [setter] derives the functional updates. *)
Definition eta (s : Sock) : Sock :=
  mkSock (callbacks s) (shutdown s) (shutdown_reads s) (error s) (state s)
    (conv s) (bReadEnable s) (bWriteEnable s) (bOutgoing s) (last_traffic s)
    (rlist s) (rbuf_len s) (rcv_nxt s) (rcv_wnd s) (lastrecv s)
    (rwnd_scale s) (rbuf s) (rcv_fin s) (slist s) (unsent_slist s)
    (sbuf_len s) (snd_nxt s) (snd_wnd s) (lastsend s) (snd_una s)
    (swnd_scale s) (sbuf s) (mss s) (msslevel s) (largest s)
    (mtu_advise s) (rto_base s) (ts_recent s) (ts_lastack s) (rx_rttvar s)
    (rx_srtt s) (rx_rto s) (ssthresh s) (cwnd s) (dup_acks s)
    (recover s) (fast_recovery s) (t_ack s) (last_acked_ts s) (use_nagling s)
    (ack_delay s) (support_wnd_scale s) (current_time s) (support_fin_ack s) (heap s)
    (next_seg s) (events s) (npkts s) (nclk s).

Ltac setter proj v s :=
  let b := eval cbv beta delta [eta] in (eta s) in
  match b with
  | context C [proj s] => let r := context C [v] in exact r
  end.

Definition put_callbacks (v : PseudoTcpCallbacks) (s : Sock) : Sock := ltac:(setter callbacks v s).
Definition put_shutdown (v : Shutdown) (s : Sock) : Sock := ltac:(setter shutdown v s).
Definition put_shutdown_reads (v : bool) (s : Sock) : Sock := ltac:(setter shutdown_reads v s).
Definition put_error (v : Z) (s : Sock) : Sock := ltac:(setter error v s).
Definition put_state (v : PseudoTcpState) (s : Sock) : Sock := ltac:(setter state v s).
Definition put_conv (v : Z) (s : Sock) : Sock := ltac:(setter conv v s).
Definition put_bReadEnable (v : bool) (s : Sock) : Sock := ltac:(setter bReadEnable v s).
Definition put_bWriteEnable (v : bool) (s : Sock) : Sock := ltac:(setter bWriteEnable v s).
Definition put_bOutgoing (v : bool) (s : Sock) : Sock := ltac:(setter bOutgoing v s).
Definition put_last_traffic (v : Z) (s : Sock) : Sock := ltac:(setter last_traffic v s).
Definition put_rlist (v : list RSegment) (s : Sock) : Sock := ltac:(setter rlist v s).
Definition put_rbuf_len (v : Z) (s : Sock) : Sock := ltac:(setter rbuf_len v s).
Definition put_rcv_nxt (v : Z) (s : Sock) : Sock := ltac:(setter rcv_nxt v s).
Definition put_rcv_wnd (v : Z) (s : Sock) : Sock := ltac:(setter rcv_wnd v s).
Definition put_lastrecv (v : Z) (s : Sock) : Sock := ltac:(setter lastrecv v s).
Definition put_rwnd_scale (v : Z) (s : Sock) : Sock := ltac:(setter rwnd_scale v s).
Definition put_rbuf (v : PseudoTcpFifo) (s : Sock) : Sock := ltac:(setter rbuf v s).
Definition put_rcv_fin (v : Z) (s : Sock) : Sock := ltac:(setter rcv_fin v s).
Definition put_slist (v : list nat) (s : Sock) : Sock := ltac:(setter slist v s).
Definition put_unsent_slist (v : list nat) (s : Sock) : Sock := ltac:(setter unsent_slist v s).
Definition put_sbuf_len (v : Z) (s : Sock) : Sock := ltac:(setter sbuf_len v s).
Definition put_snd_nxt (v : Z) (s : Sock) : Sock := ltac:(setter snd_nxt v s).
Definition put_snd_wnd (v : Z) (s : Sock) : Sock := ltac:(setter snd_wnd v s).
Definition put_lastsend (v : Z) (s : Sock) : Sock := ltac:(setter lastsend v s).
Definition put_snd_una (v : Z) (s : Sock) : Sock := ltac:(setter snd_una v s).
Definition put_swnd_scale (v : Z) (s : Sock) : Sock := ltac:(setter swnd_scale v s).
Definition put_sbuf (v : PseudoTcpFifo) (s : Sock) : Sock := ltac:(setter sbuf v s).
Definition put_mss (v : Z) (s : Sock) : Sock := ltac:(setter mss v s).
Definition put_msslevel (v : Z) (s : Sock) : Sock := ltac:(setter msslevel v s).
Definition put_largest (v : Z) (s : Sock) : Sock := ltac:(setter largest v s).
Definition put_mtu_advise (v : Z) (s : Sock) : Sock := ltac:(setter mtu_advise v s).
Definition put_rto_base (v : Z) (s : Sock) : Sock := ltac:(setter rto_base v s).
Definition put_ts_recent (v : Z) (s : Sock) : Sock := ltac:(setter ts_recent v s).
Definition put_ts_lastack (v : Z) (s : Sock) : Sock := ltac:(setter ts_lastack v s).
Definition put_rx_rttvar (v : Z) (s : Sock) : Sock := ltac:(setter rx_rttvar v s).
Definition put_rx_srtt (v : Z) (s : Sock) : Sock := ltac:(setter rx_srtt v s).
Definition put_rx_rto (v : Z) (s : Sock) : Sock := ltac:(setter rx_rto v s).
Definition put_ssthresh (v : Z) (s : Sock) : Sock := ltac:(setter ssthresh v s).
Definition put_cwnd (v : Z) (s : Sock) : Sock := ltac:(setter cwnd v s).
Definition put_dup_acks (v : Z) (s : Sock) : Sock := ltac:(setter dup_acks v s).
Definition put_recover (v : Z) (s : Sock) : Sock := ltac:(setter recover v s).
Definition put_fast_recovery (v : bool) (s : Sock) : Sock := ltac:(setter fast_recovery v s).
Definition put_t_ack (v : Z) (s : Sock) : Sock := ltac:(setter t_ack v s).
Definition put_last_acked_ts (v : Z) (s : Sock) : Sock := ltac:(setter last_acked_ts v s).
Definition put_use_nagling (v : bool) (s : Sock) : Sock := ltac:(setter use_nagling v s).
Definition put_ack_delay (v : Z) (s : Sock) : Sock := ltac:(setter ack_delay v s).
Definition put_support_wnd_scale (v : bool) (s : Sock) : Sock := ltac:(setter support_wnd_scale v s).
Definition put_current_time (v : Z) (s : Sock) : Sock := ltac:(setter current_time v s).
Definition put_support_fin_ack (v : bool) (s : Sock) : Sock := ltac:(setter support_fin_ack v s).
Definition put_heap (v : gmap nat SSegment) (s : Sock) : Sock := ltac:(setter heap v s).
Definition put_next_seg (v : nat) (s : Sock) : Sock := ltac:(setter next_seg v s).
Definition put_events (v : list Event) (s : Sock) : Sock := ltac:(setter events v s).
Definition put_npkts (v : nat) (s : Sock) : Sock := ltac:(setter npkts v s).
Definition put_nclk (v : nat) (s : Sock) : Sock := ltac:(setter nclk v s).

(** Records an event. *)
Definition emit (e : Event) (s : Sock) : Sock := put_events (e :: events s) s.

(** Reads and writes of a segment through its address. *)
Definition seg_get (s : Sock) (id : nat) : outcome SSegment :=
  match heap s !! id with Some g => Ok g | None => Undef end.
Definition seg_put (id : nat) (g : SSegment) (s : Sock) : Sock :=
  put_heap (<[id := g]> (heap s)) s.

(** [g_slice_new0 (SSegment)] followed by the stores to its fields. *)
Definition seg_new (g : SSegment) (s : Sock) : nat * Sock :=
  (next_seg s, put_next_seg (S (next_seg s)) (seg_put (next_seg s) g s)).

(** [g_queue_insert_after (q, g_queue_find (q, a), x)]. *)
Fixpoint insert_after_in (q : list nat) (a x : nat) : list nat :=
  match q with
  | [] => []
  | y :: q' => if decide (y = a) then y :: x :: q' else y :: insert_after_in q' a x
  end.
Definition queue_insert_after (q : list nat) (a x : nat) : list nat :=
  if decide (a ∈ q) then insert_after_in q a x else x :: q.
