(* ===== verification/TcpOps.v ===== *)
(** * The pseudo TCP socket: its operations

    One definition per function of src/src/session/pseudotcp/pseudotcp.c, with
    the source's name. [process], the segment handler, is cut at its comments
    into the definitions [process_*], which [process] composes in the source's
    order. A failed [g_assert] is [AssertFail] with its line, an access outside
    an object is [Undef]. The callbacks are recorded as events: they are taken
    not to call back into the socket before the operation returns. *)

From Stdlib Require Import ZArith Lia.
From stdpp Require Import prelude gmap list.
From S2P Require Import Prelude TcpFifo TcpBase TcpTypes.
Import Fifo Seq Wire State.

Module Tcp.

Definition get_current_time (env : Env) (s : Sock) : Z * Sock :=
  if nonzero (current_time s) then (current_time s, s)
  else (u32 (g_get_monotonic_time env (nclk s) / 1000), put_nclk (S (nclk s)) s).

Definition pseudo_tcp_socket_set_time (s : Sock) (t : Z) : Sock := put_current_time t s.

(** ** State changes *)

Definition set_state (s : Sock) (new_state : PseudoTcpState) : outcome Sock :=
  if state s ==b new_state then Ok s
  else
    _ ← c_assert 2476 (valid_transition (state s) new_state);
    Ok (put_state new_state s).

(** The index the loop of [adjustMTU] stops at. *)
Fixpoint mtu_level (maxima : list Z) (advise : Z) (level : Z) : Z :=
  match maxima with
  | m :: ((m' :: _) as rest) =>
      if 0 <? m' then if m <=? advise then level else mtu_level rest advise (level + 1)
      else level
  | _ => level
  end.

Definition adjustMTU (s : Sock) : Sock :=
  let s := put_msslevel (mtu_level PACKET_MAXIMUMS (mtu_advise s) 0) s in
  let s := put_mss (u32 (mtu_advise s - PACKET_OVERHEAD)) s in
  let s := put_ssthresh (Z.max (ssthresh s) (u32 (2 * mss s))) s in
  put_cwnd (Z.max (cwnd s) (mss s)) s.

Definition set_state_established (s : Sock) : outcome Sock :=
  s ← set_state s TCP_ESTABLISHED;
  let s := adjustMTU s in
  Ok (if has_opened (callbacks s) then emit EvOpened s else s).

Definition set_state_closed (s : Sock) (err : Z) : outcome Sock :=
  s ← set_state s TCP_CLOSED;
  Ok (if has_closed (callbacks s) && nonzero err then emit (EvClosed err) s else s).

(** The [switch] of [closedown]. *)
Definition closedown_switch (s : Sock) : outcome Sock :=
  match state s with
  | TCP_LISTEN | TCP_SYN_SENT => Ok s
  | TCP_SYN_RECEIVED | TCP_ESTABLISHED =>
      s ← set_state s TCP_FIN_WAIT_1;
      s ← set_state s TCP_FIN_WAIT_2;
      set_state s TCP_TIME_WAIT
  | TCP_FIN_WAIT_1 =>
      s ← set_state s TCP_FIN_WAIT_2;
      set_state s TCP_TIME_WAIT
  | TCP_FIN_WAIT_2 | TCP_CLOSING => set_state s TCP_TIME_WAIT
  | TCP_CLOSE_WAIT => set_state s TCP_LAST_ACK
  | TCP_LAST_ACK | TCP_TIME_WAIT | TCP_CLOSED => Ok s
  end.

(** [closedown (self, err, CLOSEDOWN_REMOTE)]. *)
Definition closedown_remote (s : Sock) (err : Z) : outcome Sock :=
  s ← closedown_switch s;
  set_state_closed s err.

(** ** Buffers and options *)

Definition resize_send_buffer (env : Env) (s : Sock) (new_size : Z) : outcome Sock :=
  let s := put_sbuf_len new_size s in
  '(_, b) ← pseudo_tcp_fifo_set_capacity (junk env) (sbuf s) new_size;
  Ok (put_sbuf b s).

(** [while (new_size > 0xFFFF) { ++scale_factor; new_size >>= 1; }]; a 32-bit
    size is below the bound after 16 rounds. *)
Fixpoint scale_loop (fuel : nat) (scale_factor new_size : Z) : outcome (Z * Z) :=
  if 0xFFFF <? new_size then
    match fuel with
    | O => NoFuel
    | S fuel => scale_loop fuel (u8 (scale_factor + 1)) (Z.shiftr new_size 1)
    end
  else Ok (scale_factor, new_size).

Definition resize_receive_buffer (env : Env) (s : Sock) (new_size : Z) : outcome Sock :=
  if rbuf_len s =? new_size then Ok s
  else
    '(scale_factor, sz) ← scale_loop 16 0 new_size;
    let sz := u32 (Z.shiftl sz scale_factor) in
    '(result, b) ← pseudo_tcp_fifo_set_capacity (junk env) (rbuf s) sz;
    _ ← c_assert 2396 result;
    let s := put_rbuf b s in
    let s := put_rbuf_len sz s in
    let s := put_rwnd_scale scale_factor s in
    let s := put_ssthresh sz s in
    Ok (put_rcv_wnd (u32 (pseudo_tcp_fifo_get_write_remaining (rbuf s))) s).

Definition apply_window_scale_option (s : Sock) (scale_factor : Z) : Sock :=
  put_swnd_scale scale_factor s.

Definition apply_fin_ack_option (s : Sock) : Sock := put_support_fin_ack true s.

(** [data] is the option's content, [len] its declared length. *)
Definition apply_option (s : Sock) (kind : Z) (data : bytes) (len : Z) : outcome Sock :=
  if kind =? TCP_OPT_MSS then Ok s
  else if kind =? TCP_OPT_WND_SCALE then
    if negb (len =? 1) then Ok s
    else match data with b :: _ => Ok (apply_window_scale_option s b) | [] => Undef end
  else if kind =? TCP_OPT_FIN_ACK then Ok (apply_fin_ack_option s)
  else Ok s.

(** The loop of [parse_options] from position [pos]. [Some (wnd, fin, s)] when
    it leaves the loop, [None] with the socket when it returns from the
    function. *)
Fixpoint parse_options_loop (fuel : nat) (data : bytes) (len pos : Z)
  (wnd fin : bool) (s : Sock) : outcome (option (bool * bool) * Sock) :=
  if pos <? len then
    match fuel with
    | O => NoFuel
    | S fuel =>
        if len <? pos + 1 then Ok (None, s) else
        match znth data pos with
        | None => Undef
        | Some kind =>
            let pos := pos + 1 in
            if kind =? TCP_OPT_EOL then Ok (Some (wnd, fin), s)
            else if kind =? TCP_OPT_NOOP then parse_options_loop fuel data len pos wnd fin s
            else if len <? pos + 1 then Ok (None, s)
            else match znth data pos with
            | None => Undef
            | Some opt_len =>
                let pos := pos + 1 in
                if len <? pos + opt_len then Ok (None, s)
                else if opt_len <=? len - pos then
                  s ← apply_option s kind (zdrop pos data) opt_len;
                  parse_options_loop fuel data len (pos + opt_len)
                    (wnd || (kind =? TCP_OPT_WND_SCALE))
                    (fin || (negb (kind =? TCP_OPT_WND_SCALE) && (kind =? TCP_OPT_FIN_ACK))) s
                else Ok (None, s)
            end
        end
    end
  else Ok (Some (wnd, fin), s).

Definition parse_options (env : Env) (s : Sock) (data : bytes) (len : Z) : outcome Sock :=
  '(found, s) ← parse_options_loop (Z.to_nat len) data len 0 false false s;
  match found with
  | None => Ok s
  | Some (has_window_scaling_option, has_fin_ack_option) =>
      s ← (if negb has_window_scaling_option then
             if 0 <? rwnd_scale s then
               s ← resize_receive_buffer env s DEFAULT_RCV_BUF_SIZE;
               Ok (put_swnd_scale 0 s)
             else Ok s
           else Ok s);
      Ok (if negb has_fin_ack_option then put_support_fin_ack false s else s)
  end.

(** ** Creation *)

Definition zero_fifo : PseudoTcpFifo := mkFifo [] 0 0 0.

(** The zero-filled block [rc_zalloc] returns. *)
Definition zero_sock : Sock :=
  mkSock (mkCallbacks false false false false) SD_NONE false 0 TCP_LISTEN 0 false false
    false 0 [] 0 0 0 0 0 zero_fifo 0 [] [] 0 0 0 0 0 0 zero_fifo 0 0 0 0 0 0 0 0 0 0
    0 0 0 0 false 0 0 false 0 false 0 false ∅ 0 [] 0 0.

Definition pseudo_tcp_socket_init (env : Env) (s : Sock) : Sock :=
  let s := put_shutdown SD_NONE s in
  let s := put_error 0 s in
  let s := put_rbuf_len DEFAULT_RCV_BUF_SIZE s in
  let s := put_rbuf (pseudo_tcp_fifo_init (junk env) (rbuf s) (rbuf_len s)) s in
  let s := put_sbuf_len DEFAULT_SND_BUF_SIZE s in
  let s := put_sbuf (pseudo_tcp_fifo_init (junk env) (sbuf s) (sbuf_len s)) s in
  let s := put_state TCP_LISTEN s in
  let s := put_conv 0 s in
  let s := put_slist [] s in
  let s := put_unsent_slist [] s in
  let s := put_rcv_wnd (rbuf_len s) s in
  let s := put_rwnd_scale 0 (put_swnd_scale 0 s) in
  let s := put_snd_nxt 0 s in
  let s := put_snd_wnd 1 s in
  let s := put_snd_una 0 (put_rcv_nxt 0 s) in
  let s := put_bReadEnable true s in
  let s := put_bWriteEnable false s in
  let s := put_rcv_fin 0 s in
  let s := put_t_ack 0 s in
  let s := put_msslevel 0 s in
  let s := put_largest 0 s in
  let s := put_mss (MIN_PACKET - PACKET_OVERHEAD) s in
  let s := put_mtu_advise DEF_MTU s in
  let s := put_rto_base 0 s in
  let s := put_cwnd (2 * mss s) s in
  let s := put_ssthresh (rbuf_len s) s in
  let s := put_lastrecv 0 (put_lastsend 0 (put_last_traffic 0 s)) in
  let s := put_bOutgoing false s in
  let s := put_dup_acks 0 s in
  let s := put_recover 0 s in
  let s := put_last_acked_ts 0 s in
  let s := put_ts_recent 0 (put_ts_lastack 0 s) in
  let s := put_rx_rto DEF_RTO s in
  let s := put_rx_srtt 0 (put_rx_rttvar 0 s) in
  let s := put_ack_delay DEFAULT_ACK_DELAY s in
  let s := put_use_nagling true s in
  let s := put_support_wnd_scale true s in
  put_support_fin_ack true s.

(** [None] is NULL, for the argument and the result; [allocated] says whether
    [rc_zalloc] has memory. *)
Definition pseudo_tcp_socket_new (env : Env) (allocated : bool) (conversation : Z)
  (cbs : option PseudoTcpCallbacks) : option Sock :=
  match cbs with
  | None => None
  | Some cbs =>
      if allocated then
        let sock := pseudo_tcp_socket_init env zero_sock in
        let sock := put_conv conversation sock in
        Some (put_callbacks cbs sock)
      else None
  end.

(** ** Queueing *)

Definition queue (s : Sock) (data : bytes) (len flags : Z) : outcome (Z * Sock) :=
  let available_space := pseudo_tcp_fifo_get_write_remaining (sbuf s) in
  len ← (if available_space <? len then
           _ ← c_assert 1277 (flags =? FLAG_NONE);
           Ok (u32 available_space)
         else Ok len);
  let push :=
    let '(id, s) := seg_new (mkSSegment
          (u32 (snd_una s + pseudo_tcp_fifo_get_buffered (sbuf s))) len 0 flags) s in
    Ok (put_unsent_slist (unsent_slist s ++ [id]) (put_slist (slist s ++ [id]) s)) in
  s ← match last (slist s) with
      | Some id =>
          g ← seg_get s id;
          if (ss_flags g =? flags) && (ss_xmit g =? 0) then
            Ok (seg_put id (mkSSegment (ss_seq g) (u32 (ss_len g + len))
                  (ss_xmit g) (ss_flags g)) s)
          else push
      | None => push
      end;
  '(n, b) ← pseudo_tcp_fifo_write (sbuf s) data len;
  Ok (u32 n, put_sbuf b s).

(** The message [queue_connect_message] builds. *)
Definition connect_message (s : Sock) : bytes :=
  [CTL_CONNECT] ++
  (if support_wnd_scale s then [TCP_OPT_WND_SCALE; 1; rwnd_scale s] else []) ++
  (if support_fin_ack s then [TCP_OPT_FIN_ACK; 1; 0] else []).

Definition queue_connect_message (s : Sock) : outcome Sock :=
  let buf := connect_message s in
  let size := zlen buf in
  let s := put_snd_wnd size s in
  '(_, s) ← queue s buf size FLAG_CTL;
  Ok s.

Definition queue_fin_message (s : Sock) : outcome Sock :=
  _ ← c_assert 797 (support_fin_ack s);
  '(_, s) ← queue s [] 0 FLAG_FIN;
  Ok s.

Definition queue_rst_message (s : Sock) : outcome Sock :=
  _ ← c_assert 806 (support_fin_ack s);
  '(_, s) ← queue s [] 0 FLAG_RST;
  Ok s.

(** ** Sending *)

Definition packet (env : Env) (s : Sock) (seq flags offset len now : Z)
  : outcome (PseudoTcpWriteResult * Sock) :=
  _ ← c_assert 1323 (u32 (HEADER_SIZE + len) <=? MAX_PACKET);
  let header := packet_header (conv s) seq (rcv_nxt s) flags
                  (u16 (Z.shiftr (rcv_wnd s) (rwnd_scale s))) now (ts_recent s) in
  let s := put_ts_lastack (rcv_nxt s) s in
  payload ← (if nonzero len then
               '(bytes_read, out) ← pseudo_tcp_fifo_read_offset (sbuf s) len offset;
               _ ← c_assert 1342 (bytes_read =? len);
               Ok out
             else Ok []);
  let wres := WritePacket env (npkts s) (header ++ payload) in
  let s := put_npkts (S (npkts s)) (emit (EvPacket (header ++ payload)) s) in
  if negb (wres ==b WR_SUCCESS) && nonzero len then Ok (wres, s)
  else
    let s := put_t_ack 0 s in
    let s := if 0 <? len then put_lastsend now s else s in
    let s := put_last_traffic now s in
    let s := put_bOutgoing true s in
    Ok (WR_SUCCESS, s).

(** The inner loop of [transmit]: lowers the mss until it is below
    [nTransmit]. [inl e] returns [e] from [transmit]. *)
Fixpoint lower_mss (fuel : nat) (s : Sock) (nTransmit : Z) : outcome ((Z + Z) * Sock) :=
  match fuel with
  | O => NoFuel
  | S fuel =>
      match znth PACKET_MAXIMUMS (u32 (msslevel s + 1)) with
      | None => Undef
      | Some m =>
          if m =? 0 then Ok (inl EMSGSIZE, s)
          else
            let s := put_msslevel (u32 (msslevel s + 1)) s in
            let s := put_mss (m - PACKET_OVERHEAD) s in
            let s := put_cwnd (u32 (2 * mss s)) s in
            if mss s <? nTransmit then Ok (inr (mss s), s)
            else lower_mss fuel s nTransmit
      end
  end.

(** The outer loop: sends until a packet gets through; the result is the
    number of bytes sent or the error [transmit] returns. *)
Fixpoint transmit_loop (fuel : nat) (env : Env) (s : Sock) (id : nat) (nTransmit now : Z)
  : outcome ((Z + Z) * Sock) :=
  match fuel with
  | O => NoFuel
  | S fuel =>
      g ← seg_get s id;
      _ ← c_assert 1978 (u32 (ss_seq g - snd_una s) <=? 1024 * 1024 * 64);
      '(wres, s) ← packet env s (ss_seq g) (ss_flags g)
                     (u32 (ss_seq g - snd_una s)) nTransmit now;
      match wres with
      | WR_SUCCESS => Ok (inr nTransmit, s)
      | WR_FAIL => Ok (inl ECONNABORTED, s)
      | WR_TOO_LARGE =>
          '(r, s) ← lower_mss (length PACKET_MAXIMUMS) s nTransmit;
          match r with
          | inl e => Ok (inl e, s)
          | inr nTransmit => transmit_loop fuel env s id nTransmit now
          end
      end
  end.

(** The rest of [transmit] after a successful write of [nTransmit] bytes. *)
Definition transmit_sent (s : Sock) (id : nat) (nTransmit now : Z) : outcome Sock :=
  g ← seg_get s id;
  s ← (if nTransmit <? ss_len g then
         let '(sub, s) := seg_new (mkSSegment (u32 (ss_seq g + nTransmit))
               (ss_len g - nTransmit) (ss_xmit g) (ss_flags g)) s in
         let s := seg_put id (mkSSegment (ss_seq g) nTransmit (ss_xmit g) (ss_flags g)) s in
         let s := put_slist (queue_insert_after (slist s) id sub) s in
         Ok (if ss_xmit g =? 0
             then put_unsent_slist (queue_insert_after (unsent_slist s) id sub) s else s)
       else Ok s);
  g ← seg_get s id;
  s ← (if ss_xmit g =? 0 then
         _ ← c_assert 2032 (head (unsent_slist s) ==b Some id);
         let s := put_unsent_slist (tail (unsent_slist s)) s in
         let s := put_snd_nxt (u32 (snd_nxt s + ss_len g)) s in
         Ok (if (ss_len g =? 0) && nonzero (Z.land (ss_flags g) FLAG_FIN)
             then put_snd_nxt (u32 (snd_nxt s + 1)) s else s)
       else Ok s);
  let s := seg_put id (mkSSegment (ss_seq g) (ss_len g) (u8 (ss_xmit g + 1)) (ss_flags g)) s in
  Ok (if rto_base s =? 0 then put_rto_base now s else s).

Definition transmit (env : Env) (s : Sock) (id : nat) (now : Z) : outcome (Z * Sock) :=
  g ← seg_get s id;
  let nTransmit := Z.min (ss_len g) (mss s) in
  if (if state s ==b TCP_ESTABLISHED then 15 else 30) <=? ss_xmit g then Ok (ETIMEDOUT, s)
  else
    '(r, s) ← transmit_loop (length PACKET_MAXIMUMS) env s id nTransmit now;
    match r with
    | inl e => Ok (e, s)
    | inr n => s ← transmit_sent s id n now; Ok (0, s)
    end.

(** The window arithmetic at the head of the loop of [attempt_send]. *)
Definition send_window (s : Sock) : Z :=
  let c := if (dup_acks s =? 1) || (dup_acks s =? 2)
           then u32 (cwnd s + u32 (dup_acks s * mss s)) else cwnd s in
  Z.min (snd_wnd s) c.

Definition send_available (s : Sock) : Z :=
  let nWindow := send_window s in
  let nInFlight := u32 (snd_nxt s - snd_una s) in
  let nUseable := if nInFlight <? nWindow then nWindow - nInFlight else 0 in
  let snd_buffered := pseudo_tcp_fifo_get_buffered (sbuf s) in
  let nAvailable := if snd_buffered <? nInFlight then 0
                    else u32 (Z.min (snd_buffered - nInFlight) (mss s)) in
  if nUseable <? nAvailable then
    if u32 (nUseable * 4) <? nWindow then 0 else nUseable
  else nAvailable.

(** Splits the head of the unsent queue at [nAvailable]. *)
Definition split_unsent (s : Sock) (id : nat) (g : SSegment) (nAvailable : Z) : Sock :=
  let '(sub, s) := seg_new (mkSSegment (u32 (ss_seq g + nAvailable))
        (ss_len g - nAvailable) 0 (ss_flags g)) s in
  let s := seg_put id (mkSSegment (ss_seq g) nAvailable (ss_xmit g) (ss_flags g)) s in
  let s := put_unsent_slist (queue_insert_after (unsent_slist s) id sub) s in
  put_slist (queue_insert_after (slist s) id sub) s.

Definition is_fin_or_rst (f : SendFlags) : bool := (f ==b sfFin) || (f ==b sfRst).

(** The loop of [attempt_send]. *)
Fixpoint attempt_send_loop (fuel : nat) (env : Env) (s : Sock) (sflags : SendFlags) (now : Z)
  : outcome Sock :=
  match fuel with
  | O => NoFuel
  | S fuel =>
      let nAvailable := send_available s in
      if sflags ==b sfDuplicateAck then
        '(_, s) ← packet env s (snd_nxt s) 0 0 0 now;
        attempt_send_loop fuel env s sfNone now
      else if (nAvailable =? 0) && negb (is_fin_or_rst sflags) then
        if sflags ==b sfNone then Ok s
        else if (sflags ==b sfImmediateAck) || (sflags ==b sfDuplicateAck) ||
                nonzero (t_ack s) then
          '(_, s) ← packet env s (snd_nxt s) 0 0 0 now;
          Ok s
        else Ok (put_t_ack now s)
      else if use_nagling s && negb (is_fin_or_rst sflags) &&
              (snd_una s <? snd_nxt s) && (nAvailable <? mss s) then Ok s
      else match unsent_slist s with
      | [] => Ok s
      | id :: _ =>
          g ← seg_get s id;
          let s := if (nAvailable <? ss_len g) && negb (is_fin_or_rst sflags)
                   then split_unsent s id g nAvailable else s in
          '(transmit_status, s) ← transmit env s id now;
          if nonzero transmit_status then closedown_remote s transmit_status
          else attempt_send_loop fuel env s
                 (if (sflags ==b sfImmediateAck) || (sflags ==b sfDelayedAck)
                  then sfNone else sflags) now
      end
  end.

(** Enough iterations for the loop: every round but the one that answers a
    duplicate ACK sends a segment, and a segment is split at most once per
    byte. *)
Definition seg_weight (s : Sock) (id : nat) : nat :=
  match heap s !! id with Some g => S (Z.to_nat (ss_len g)) | None => 0 end.

Definition send_fuel (s : Sock) : nat :=
  3 + list_sum (map (seg_weight s) (unsent_slist s)).

Definition attempt_send (env : Env) (s : Sock) (sflags : SendFlags) : outcome Sock :=
  let '(now, s) := get_current_time env s in
  let s := if rx_rto s <? time_diff now (lastsend s) then put_cwnd (mss s) s else s in
  attempt_send_loop (send_fuel s) env s sflags now.

Definition closedown (env : Env) (s : Sock) (err : Z) (source : ClosedownSource)
  : outcome Sock :=
  s ← match source with
      | CLOSEDOWN_LOCAL =>
          if support_fin_ack s then
            s ← queue_rst_message s;
            attempt_send env s sfRst
          else Ok (put_shutdown SD_FORCEFUL s)
      | CLOSEDOWN_REMOTE => Ok s
      end;
  closedown_remote s err.

End Tcp.
