(* ===== verification/TcpProcess.v ===== *)
(** * The pseudo TCP socket: the segment handler and the public operations

    [process] of src/src/session/pseudotcp/pseudotcp.c, cut at its comments, and
    the functions of the public interface that use it. In the pieces of
    [process] the result [None] stands for a [return FALSE]. *)

From Stdlib Require Import ZArith Lia.
From stdpp Require Import prelude gmap list.
From S2P Require Import Prelude TcpFifo TcpBase TcpTypes TcpOps.
Import Fifo Seq Wire State Tcp.

Module TcpIn.

Definition has_flag (seg : Segment) (f : Z) : bool := nonzero (Z.land (seg_flags seg) f).

(** ** Control segments *)

Definition process_control (env : Env) (s : Sock) (seg : Segment)
  : outcome (option bool * Sock) :=
  if has_flag seg FLAG_CTL then
    if seg_len seg =? 0 then Ok (None, s)
    else match seg_data seg with
    | [] => Undef
    | code :: options =>
        if code =? CTL_CONNECT then
          s ← parse_options env s options (seg_len seg - 1);
          s ← match state s with
              | TCP_LISTEN =>
                  s ← set_state s TCP_SYN_RECEIVED;
                  queue_connect_message s
              | TCP_SYN_SENT => set_state_established s
              | _ => Ok s
              end;
          Ok (Some true, s)
        else Ok (None, s)
    end
  else Ok (Some false, s).

Definition process_timestamp (s : Sock) (seg : Segment) : Sock :=
  if SMALLER_OR_EQUAL (seg_seq seg) (ts_lastack s) &&
     SMALLER (ts_lastack s) (u32 (seg_seq seg + seg_len seg))
  then put_ts_recent (seg_tsval seg) s else s.

(** ** Acknowledgements *)

(** Round-trip time; [false] is [return FALSE]. *)
Definition process_rtt (s : Sock) (seg : Segment) (now : Z) : bool * Sock :=
  if nonzero (seg_tsecr seg) then
    let rtt := time_diff now (seg_tsecr seg) in
    if 0 <=? rtt then
      let s :=
        if rx_srtt s =? 0 then put_rx_rttvar (rtt / 2) (put_rx_srtt rtt s)
        else
          let s := put_rx_rttvar
                     (u32 ((u32 (3 * rx_rttvar s) + Z.abs (rtt - rx_srtt s)) / 4)) s in
          put_rx_srtt (u32 ((u32 (7 * rx_srtt s) + rtt) / 8)) s in
      let s := put_rx_rto (bound MIN_RTO
                 (u32 (rx_srtt s + Z.max 1 (u32 (4 * rx_rttvar s)))) MAX_RTO) s in
      (true, put_last_acked_ts (seg_tsecr seg) s)
    else (false, s)
  else (true, s).

(** [seg->wnd << priv->swnd_scale] on a 32-bit int. *)
Definition scaled_window (wnd scale : Z) : outcome Z :=
  if scale <? 32 then Ok (u32 (Z.shiftl wnd scale)) else Undef.

(** The loop that frees acknowledged segments. *)
Fixpoint free_acked (fuel : nat) (s : Sock) (nFree : Z) : outcome Sock :=
  if 0 <? nFree then
    match fuel with
    | O => NoFuel
    | S fuel =>
        match slist s with
        | [] => AssertFail 1614
        | id :: rest =>
            data ← seg_get s id;
            if nFree <? ss_len data then
              Ok (seg_put id (mkSSegment (u32 (ss_seq data + nFree)) (ss_len data - nFree)
                    (ss_xmit data) (ss_flags data)) s)
            else
              let s := if largest s <? ss_len data then put_largest (ss_len data) s else s in
              let s := put_heap (delete id (heap s)) s in
              free_acked fuel (put_slist rest s) (nFree - ss_len data)
        end
    end
  else Ok s.

(** [transmit (self, g_queue_peek_head (&priv->slist), now)]. *)
Definition retransmit_head (env : Env) (s : Sock) (now : Z) : outcome (Z * Sock) :=
  match slist s with
  | [] => Undef
  | id :: _ => transmit env s id now
  end.

(** Congestion control after a new acknowledgement; [None] is [return FALSE]. *)
Definition process_ack_congestion (env : Env) (s : Sock) (nAcked now : Z)
  : outcome (option unit * Sock) :=
  if 3 <=? dup_acks s then
    if LARGER_OR_EQUAL (snd_una s) (recover s) then
      let nInFlight := u32 (snd_nxt s - snd_una s) in
      let s := put_cwnd (Z.min (ssthresh s) (u32 (Z.max nInFlight (mss s) + mss s))) s in
      let s := put_fast_recovery false s in
      Ok (Some tt, put_dup_acks 0 s)
    else
      '(transmit_status, s) ← retransmit_head env s now;
      if nonzero transmit_status then
        s ← closedown env s transmit_status CLOSEDOWN_LOCAL;
        Ok (None, s)
      else
        Ok (Some tt, put_cwnd (u32 (cwnd s + ((if mss s <? nAcked then mss s else 0) -
                                             Z.min nAcked (cwnd s)))) s)
  else
    let s := put_dup_acks 0 s in
    if cwnd s <? ssthresh s then Ok (Some tt, put_cwnd (u32 (cwnd s + mss s)) s)
    else if cwnd s =? 0 then Undef
    else Ok (Some tt, put_cwnd (u32 (cwnd s + Z.max 1 (u32 (mss s * mss s) / cwnd s))) s).

(** A valuable acknowledgement; the result says whether it covers our FIN. *)
Definition process_valuable_ack (env : Env) (s : Sock) (seg : Segment) (now : Z)
  : outcome (option bool * Sock) :=
  let '(valid, s) := process_rtt s seg now in
  if negb valid then Ok (None, s)
  else
    w ← scaled_window (seg_wnd seg) (swnd_scale s);
    let s := put_snd_wnd w s in
    let nAcked := u32 (seg_ack seg - snd_una s) in
    let s := put_snd_una (seg_ack seg) s in
    let s := put_rto_base (if snd_una s =? snd_nxt s then 0 else now) s in
    let is_fin_ack := (nAcked =? data_length (sbuf s) + 1) &&
                      pseudo_tcp_state_has_sent_fin (state s) in
    let nAcked := if is_fin_ack then nAcked - 1 else nAcked in
    b ← pseudo_tcp_fifo_consume_read_data (sbuf s) nAcked;
    let s := put_sbuf b s in
    s ← free_acked (S (length (slist s))) s nAcked;
    '(r, s) ← process_ack_congestion env s nAcked now;
    match r with
    | None => Ok (None, s)
    | Some _ => Ok (Some is_fin_ack, s)
    end.

Definition process_duplicate_ack (env : Env) (s : Sock) (seg : Segment) (now : Z)
  : outcome (option unit * Sock) :=
  w ← scaled_window (seg_wnd seg) (swnd_scale s);
  let s := put_snd_wnd w s in
  if 0 <? seg_len seg then Ok (Some tt, s)
  else if negb (snd_una s =? snd_nxt s) then
    let s := put_dup_acks (u8 (dup_acks s + 1)) s in
    if dup_acks s =? 3 then
      if LARGER_OR_EQUAL (snd_una s) (recover s) || (seg_tsecr seg =? last_acked_ts s) then
        '(transmit_status, s) ← retransmit_head env s now;
        if nonzero transmit_status then
          s ← closedown env s transmit_status CLOSEDOWN_LOCAL;
          Ok (None, s)
        else
          let s := put_recover (snd_nxt s) s in
          let nInFlight := u32 (snd_nxt s - snd_una s) in
          let s := put_ssthresh (Z.max (nInFlight / 2) (u32 (2 * mss s))) s in
          let s := put_cwnd (u32 (ssthresh s + u32 (3 * mss s))) s in
          Ok (Some tt, put_fast_recovery true s)
      else Ok (Some tt, s)
    else if 3 <? dup_acks s then
      Ok (Some tt, if fast_recovery s then put_cwnd (u32 (cwnd s + mss s)) s else s)
    else Ok (Some tt, s)
  else Ok (Some tt, put_dup_acks 0 s).

Definition process_ack (env : Env) (s : Sock) (seg : Segment) (now : Z)
  : outcome (option bool * Sock) :=
  let is_valuable_ack := LARGER (seg_ack seg) (snd_una s) &&
                         SMALLER_OR_EQUAL (seg_ack seg) (snd_nxt s) in
  let is_duplicate_ack := seg_ack seg =? snd_una s in
  if is_valuable_ack then process_valuable_ack env s seg now
  else if is_duplicate_ack then
    '(r, s) ← process_duplicate_ack env s seg now;
    match r with
    | None => Ok (None, s)
    | Some _ => Ok (Some false, s)
    end
  else Ok (Some false, s).

(** ** Connection closure *)

(** The [switch] on the state; the transitions of RFC 793, figure 6. *)
Definition process_fin_switch (s : Sock) (is_fin_ack received_fin : bool) : outcome Sock :=
  match state s with
  | TCP_ESTABLISHED => if received_fin then set_state s TCP_CLOSE_WAIT else Ok s
  | TCP_CLOSING => if is_fin_ack then set_state s TCP_TIME_WAIT else Ok s
  | TCP_LAST_ACK => if is_fin_ack then set_state_closed s 0 else Ok s
  | TCP_FIN_WAIT_1 =>
      if is_fin_ack && received_fin then set_state s TCP_TIME_WAIT
      else if is_fin_ack then set_state s TCP_FIN_WAIT_2
      else if received_fin then set_state s TCP_CLOSING
      else Ok s
  | TCP_FIN_WAIT_2 => if received_fin then set_state s TCP_TIME_WAIT else Ok s
  | TCP_LISTEN | TCP_SYN_SENT | TCP_SYN_RECEIVED | TCP_TIME_WAIT
  | TCP_CLOSED | TCP_CLOSE_WAIT => Ok s
  end.

(** The result is [received_fin]. *)
Definition process_fin (s : Sock) (seg : Segment) (is_fin_ack : bool)
  : outcome (option bool * Sock) :=
  if support_fin_ack s then
    let s := if has_flag seg FLAG_FIN then put_rcv_fin (seg_seq seg) s else s in
    if has_flag seg FLAG_FIN && nonzero (seg_len seg) then Ok (None, s)
    else
      let received_fin := nonzero (rcv_nxt s) &&
                          (u32 (rcv_nxt s + seg_len seg) =? rcv_fin s) in
      s ← process_fin_switch s is_fin_ack received_fin;
      Ok (Some received_fin, s)
  else Ok (Some false, s).

Definition process_writable (s : Sock) : Sock :=
  let kIdealRefillSize := u32 (sbuf_len s + rbuf_len s) / 2 in
  let snd_buffered := pseudo_tcp_fifo_get_buffered (sbuf s) in
  if bWriteEnable s && (snd_buffered <? kIdealRefillSize) then
    let s := put_bWriteEnable false s in
    if has_writable (callbacks s) then emit EvWritable s else s
  else s.

(** ** Data *)

(** Which acknowledgement the segment asks for. *)
Definition ack_flags (s : Sock) (seg : Segment) (received_fin : bool) : SendFlags :=
  if negb (seg_seq seg =? rcv_nxt s) then sfDuplicateAck
  else if nonzero (seg_len seg) then
    if ack_delay s =? 0 then sfImmediateAck else sfDelayedAck
  else if received_fin then sfImmediateAck
  else sfNone.

Definition with_data (seg : Segment) (seq : Z) (data : bytes) (len : Z) : Segment :=
  mkSegment (seg_conv seg) seq (seg_ack seg) (seg_flags seg) (seg_wnd seg) data len
    (seg_tsval seg) (seg_tsecr seg).

(** Cuts the part of the segment that was received before. *)
Definition trim_old (s : Sock) (seg : Segment) : Segment :=
  if SMALLER (seg_seq seg) (rcv_nxt s) then
    let nAdjust := u32 (rcv_nxt s - seg_seq seg) in
    if nAdjust <? seg_len seg then
      with_data seg (u32 (seg_seq seg + nAdjust)) (zdrop nAdjust (seg_data seg))
        (seg_len seg - nAdjust)
    else with_data seg (seg_seq seg) (seg_data seg) 0
  else seg.

(** Cuts the part that does not fit the receive buffer. *)
Definition trim_space (s : Sock) (seg : Segment) : Segment :=
  let available_space := pseudo_tcp_fifo_get_write_remaining (rbuf s) in
  let past := u32 (u32 (seg_seq seg + seg_len seg) - rcv_nxt s) in
  if available_space <? past then
    let nAdjust := u32 (past - available_space) in
    if nAdjust <? seg_len seg then
      with_data seg (seg_seq seg) (seg_data seg) (seg_len seg - nAdjust)
    else with_data seg (seg_seq seg) (seg_data seg) 0
  else seg.

(** Takes over the saved segments that [rcv_nxt] has reached; the flag says
    whether one of them added data. *)
Fixpoint recover_rlist (l : list RSegment) (s : Sock) (recovered : bool)
  : outcome (bool * Sock) :=
  match l with
  | data :: l' =>
      if SMALLER_OR_EQUAL (rs_seq data) (rcv_nxt s) then
        '(recovered, s) ← (if LARGER (u32 (rs_seq data + rs_len data)) (rcv_nxt s) then
            let nAdjust := u32 (u32 (rs_seq data + rs_len data) - rcv_nxt s) in
            b ← pseudo_tcp_fifo_consume_write_buffer (rbuf s) nAdjust;
            let s := put_rbuf b s in
            let s := put_rcv_nxt (u32 (rcv_nxt s + nAdjust)) s in
            Ok (true, put_rcv_wnd (u32 (rcv_wnd s - nAdjust)) s)
          else Ok (recovered, s));
        recover_rlist l' (put_rlist l' s) recovered
      else Ok (recovered, s)
  | [] => Ok (recovered, s)
  end.

(** Sorted insertion of an out-of-order segment. *)
Fixpoint rlist_insert (l : list RSegment) (r : RSegment) : list RSegment :=
  match l with
  | x :: l' => if SMALLER (rs_seq x) (rs_seq r) then x :: rlist_insert l' r else r :: l
  | [] => [r]
  end.

(** Stores the trimmed segment: [bNewData] and the updated flags. *)
Definition process_data (s : Sock) (seg : Segment) (sflags : SendFlags)
  : outcome (bool * SendFlags * Sock) :=
  let bIgnoreData := has_flag seg FLAG_CTL ||
                     (negb (support_fin_ack s) && negb (shutdown s ==b SD_NONE)) in
  if 0 <? seg_len seg then
    if bIgnoreData then
      Ok (false, sflags,
          if seg_seq seg =? rcv_nxt s then put_rcv_nxt (u32 (rcv_nxt s + seg_len seg)) s else s)
    else
      let nOffset := u32 (seg_seq seg - rcv_nxt s) in
      '(res, b) ← pseudo_tcp_fifo_write_offset (rbuf s) (seg_data seg) (seg_len seg) nOffset;
      let s := put_rbuf b s in
      _ ← c_assert 1896 (res =? seg_len seg);
      if seg_seq seg =? rcv_nxt s then
        b ← pseudo_tcp_fifo_consume_write_buffer (rbuf s) (seg_len seg);
        let s := put_rbuf b s in
        let s := put_rcv_nxt (u32 (rcv_nxt s + seg_len seg)) s in
        let s := put_rcv_wnd (u32 (rcv_wnd s - seg_len seg)) s in
        '(recovered, s) ← recover_rlist (rlist s) s false;
        Ok (true, if (recovered : bool) then sfImmediateAck else sflags, s)
      else
        Ok (false, sflags,
            put_rlist (rlist_insert (rlist s) (mkRSegment (seg_seq seg) (seg_len seg))) s)
  else Ok (false, sflags, s).

(** Trimming and storing. *)
Definition process_receive (s : Sock) (seg : Segment) (sflags : SendFlags)
  : outcome (bool * SendFlags * Sock) :=
  let seg := trim_old s seg in
  let seg := trim_space s seg in
  process_data s seg sflags.

(** ** The handler *)

Definition process (env : Env) (s : Sock) (seg : Segment) : outcome (bool * Sock) :=
  if negb (seg_conv seg =? conv s) then Ok (false, s)
  else
    let '(now, s) := get_current_time env s in
    let s := put_last_traffic now (put_lastrecv now s) in
    let s := put_bOutgoing false s in
    if (state s ==b TCP_CLOSED) ||
       (pseudo_tcp_state_has_received_fin_ack (state s) && (0 <? seg_len seg)) then
      s ← (if negb (has_flag seg FLAG_RST) then closedown env s 0 CLOSEDOWN_LOCAL else Ok s);
      Ok (false, s)
    else if has_flag seg FLAG_RST then
      s ← closedown env s ECONNRESET CLOSEDOWN_REMOTE;
      Ok (false, s)
    else
      '(r, s) ← process_control env s seg;
      match r with
      | None => Ok (false, s)
      | Some bConnect =>
          let s := process_timestamp s seg in
          '(r, s) ← process_ack env s seg now;
          match r with
          | None => Ok (false, s)
          | Some is_fin_ack =>
              s ← (if (state s ==b TCP_SYN_RECEIVED) && negb bConnect
                   then set_state_established s else Ok s);
              '(r, s) ← process_fin s seg is_fin_ack;
              match r with
              | None => Ok (false, s)
              | Some received_fin =>
                  let s := process_writable s in
                  let sflags := ack_flags s seg received_fin in
                  '(bNewData, sflags, s) ← process_receive s seg sflags;
                  let s := if received_fin : bool then put_rcv_nxt (u32 (rcv_nxt s + 1)) s else s in
                  s ← attempt_send env s sflags;
                  Ok (true, if bNewData && bReadEnable s && has_readable (callbacks s)
                            then emit EvReadable s else s)
              end
          end
      end.

(** [parse] on the 24 header bytes and the rest. *)
Definition parse (env : Env) (s : Sock) (header data : bytes) : outcome (bool * Sock) :=
  match parse_header header data with
  | None => Ok (false, s)
  | Some seg => process env s seg
  end.

Definition pseudo_tcp_socket_notify_packet (env : Env) (s : Sock) (buffer : bytes) (len : Z)
  : outcome (bool * Sock) :=
  if MAX_PACKET <? len then Ok (false, put_error EMSGSIZE s)
  else if len <? HEADER_SIZE then Ok (false, put_error EINVAL s)
  else
    h ← mem_read buffer 0 HEADER_SIZE;
    d ← mem_read buffer HEADER_SIZE (len - HEADER_SIZE);
    parse env s h d.

End TcpIn.
