(* ===== verification/TcpApi.v ===== *)
(** * The pseudo TCP socket: the public operations

    The functions of src/src/session/pseudotcp/pseudotcp.h that a stream handler
    calls, other than [pseudo_tcp_socket_notify_packet]. *)

From Stdlib Require Import ZArith Lia.
From stdpp Require Import prelude gmap list.
From S2P Require Import Prelude TcpFifo TcpBase TcpTypes TcpOps TcpProcess.
Import Fifo Seq Wire State Tcp TcpIn.

Module TcpApi.

Definition pseudo_tcp_socket_connect (env : Env) (s : Sock) : outcome (bool * Sock) :=
  if negb (state s ==b TCP_LISTEN) then Ok (false, put_error EINVAL s)
  else
    s ← set_state s TCP_SYN_SENT;
    s ← queue_connect_message s;
    s ← attempt_send env s sfNone;
    Ok (true, s).

Definition pseudo_tcp_socket_notify_mtu (s : Sock) (mtu : Z) : Sock :=
  let s := put_mtu_advise mtu s in
  if state s ==b TCP_ESTABLISHED then adjustMTU s else s.

(** ** The clock *)

(** Retransmission on timeout; [None] is the early [return]. *)
Definition clock_retransmit (env : Env) (s : Sock) (now : Z) : outcome (option unit * Sock) :=
  if nonzero (rto_base s) && (time_diff (u32 (rto_base s + rx_rto s)) now <=? 0) then
    match slist s with
    | [] => AssertFail 873
    | id :: _ =>
        '(transmit_status, s) ← transmit env s id now;
        if nonzero transmit_status then
          s ← closedown env s transmit_status CLOSEDOWN_LOCAL;
          Ok (None, s)
        else
          let nInFlight := u32 (snd_nxt s - snd_una s) in
          let s := put_ssthresh (Z.max (nInFlight / 2) (u32 (2 * mss s))) s in
          let s := put_cwnd (mss s) s in
          let rto_limit := if state_num (state s) <? state_num TCP_ESTABLISHED
                           then DEF_RTO else MAX_RTO in
          let s := put_rx_rto (Z.min rto_limit (u32 (rx_rto s * 2))) s in
          let s := put_rto_base now s in
          let s := put_recover (snd_nxt s) s in
          Ok (Some tt, if 3 <=? dup_acks s
                       then put_fast_recovery false (put_dup_acks 0 s) else s)
    end
  else Ok (Some tt, s).

(** Probe of a closed window. *)
Definition clock_probe (env : Env) (s : Sock) (now : Z) : outcome (option unit * Sock) :=
  if (snd_wnd s =? 0) && (time_diff (u32 (lastsend s + rx_rto s)) now <=? 0) then
    if 15000 <=? time_diff now (lastrecv s) then
      s ← closedown env s ECONNABORTED CLOSEDOWN_LOCAL;
      Ok (None, s)
    else
      '(_, s) ← packet env s (u32 (snd_nxt s - 1)) 0 0 0 now;
      let s := put_lastsend now s in
      Ok (Some tt, put_rx_rto (Z.min MAX_RTO (u32 (rx_rto s * 2))) s)
  else Ok (Some tt, s).

Definition clock_delayed_ack (env : Env) (s : Sock) (now : Z) : outcome Sock :=
  if nonzero (t_ack s) && (time_diff (u32 (t_ack s + ack_delay s)) now <=? 0) then
    '(_, s) ← packet env s (snd_nxt s) 0 0 0 now;
    Ok s
  else Ok s.

Definition pseudo_tcp_socket_notify_clock (env : Env) (s : Sock) : outcome Sock :=
  let '(now, s) := get_current_time env s in
  if state s ==b TCP_CLOSED then Ok s
  else
    s ← (if support_fin_ack s && (state s ==b TCP_TIME_WAIT)
         then set_state_closed s 0 else Ok s);
    s ← (if support_fin_ack s && (state s ==b TCP_LAST_ACK) then
           s ← queue_fin_message s;
           attempt_send env s sfFin
         else Ok s);
    '(r, s) ← clock_retransmit env s now;
    match r with
    | None => Ok s
    | Some _ =>
        '(r, s) ← clock_probe env s now;
        match r with
        | None => Ok s
        | Some _ => clock_delayed_ack env s now
        end
    end.

(** The result and the new value of [*timeout]. *)
Definition pseudo_tcp_socket_get_next_clock (env : Env) (s : Sock) (timeout : Z)
  : outcome (bool * Z * Sock) :=
  let '(now, s) := get_current_time env s in
  let snd_buffered := pseudo_tcp_fifo_get_buffered (sbuf s) in
  if (shutdown s ==b SD_FORCEFUL) ||
     ((shutdown s ==b SD_GRACEFUL) &&
      (negb (state s ==b TCP_ESTABLISHED) || ((snd_buffered =? 0) && (t_ack s =? 0)))) then
    s ← closedown env s 0 CLOSEDOWN_REMOTE;
    Ok (false, timeout, s)
  else
    let closed_timeout := if support_fin_ack s && (state s ==b TCP_TIME_WAIT)
                          then TIME_WAIT_TIMEOUT else CLOSED_TIMEOUT in
    if support_fin_ack s && (state s ==b TCP_CLOSED) then Ok (false, timeout, s)
    else
      let t := if (timeout =? 0) || (timeout <? now) then u32 (now + closed_timeout)
               else timeout in
      if support_fin_ack s && (state s ==b TCP_TIME_WAIT) then
        Ok (true, Z.min t (u32 (now + TIME_WAIT_TIMEOUT)), s)
      else if (state s ==b TCP_CLOSED) && negb (support_fin_ack s) then
        Ok (true, Z.min t (u32 (now + CLOSED_TIMEOUT)), s)
      else
        let t := Z.min t (u32 (now + DEFAULT_TIMEOUT)) in
        let t := if nonzero (t_ack s) then Z.min t (u32 (t_ack s + ack_delay s)) else t in
        let t := if nonzero (rto_base s) then Z.min t (u32 (rto_base s + rx_rto s)) else t in
        let t := if snd_wnd s =? 0 then Z.min t (u32 (lastsend s + rx_rto s)) else t in
        Ok (true, t, s).

(** ** Data transfer *)

Definition pseudo_tcp_socket_is_closed (s : Sock) : bool := state s ==b TCP_CLOSED.

Definition pseudo_tcp_socket_is_closed_remotely (s : Sock) : bool :=
  pseudo_tcp_state_has_received_fin (state s).

(** The return value, the bytes stored in the caller's buffer, the socket. *)
Definition pseudo_tcp_socket_recv (env : Env) (s : Sock) (len : Z)
  : outcome (Z * bytes * Sock) :=
  if support_fin_ack s && shutdown_reads s then Ok (0, [], s)
  else if negb (support_fin_ack s) && pseudo_tcp_socket_is_closed s then Ok (0, [], s)
  else if negb (support_fin_ack s) && negb (state s ==b TCP_ESTABLISHED) then
    Ok (-1, [], put_error ENOTCONN s)
  else if len =? 0 then Ok (0, [], s)
  else
    '(bytesread, out, b) ← pseudo_tcp_fifo_read (rbuf s) len;
    let s := put_rbuf b s in
    if (bytesread =? 0) && negb (pseudo_tcp_state_has_received_fin (state s) ||
                                 pseudo_tcp_state_has_received_fin_ack (state s)) then
      Ok (-1, [], put_error EWOULDBLOCK (put_bReadEnable true s))
    else
      let available_space := pseudo_tcp_fifo_get_write_remaining (rbuf s) in
      s ← (if Z.min (rbuf_len s / 2) (mss s) <=? u64 (available_space - rcv_wnd s) then
             let bWasClosed := rcv_wnd s =? 0 in
             let s := put_rcv_wnd (u32 available_space) s in
             if bWasClosed then attempt_send env s sfImmediateAck else Ok s
           else Ok s);
      Ok (s32 bytesread, out, s).

Definition pseudo_tcp_socket_send (env : Env) (s : Sock) (buffer : bytes) (len : Z)
  : outcome (Z * Sock) :=
  if negb (state s ==b TCP_ESTABLISHED) then
    Ok (-1, put_error (if pseudo_tcp_state_has_sent_fin (state s) then EPIPE else ENOTCONN) s)
  else
    let available_space := pseudo_tcp_fifo_get_write_remaining (sbuf s) in
    if available_space =? 0 then
      Ok (-1, put_error EWOULDBLOCK (put_bWriteEnable true s))
    else
      '(n, s) ← queue s buffer len FLAG_NONE;
      let written := s32 n in
      s ← attempt_send env s sfNone;
      Ok (written, if (0 <? written) && (u32 written <? len)
                   then put_bWriteEnable true s else s).

Definition pseudo_tcp_socket_get_available_bytes (s : Sock) : Z :=
  s32 (pseudo_tcp_fifo_get_buffered (rbuf s)).

Definition pseudo_tcp_socket_get_available_send_space (s : Sock) : Z * Sock :=
  let ret := if negb (pseudo_tcp_state_has_sent_fin (state s))
             then pseudo_tcp_fifo_get_write_remaining (sbuf s) else 0 in
  (ret, if ret =? 0 then put_bWriteEnable true s else s).

Definition pseudo_tcp_socket_can_send (s : Sock) : bool * Sock :=
  let '(n, s) := pseudo_tcp_socket_get_available_send_space s in (0 <? n, s).

Definition pseudo_tcp_socket_get_error (s : Sock) : Z := error s.

(** ** Closing *)

Definition pseudo_tcp_socket_shutdown (env : Env) (s : Sock) (how : PseudoTcpShutdown)
  : outcome Sock :=
  if negb (support_fin_ack s) then
    Ok (if shutdown s ==b SD_NONE then put_shutdown SD_GRACEFUL s else s)
  else
    let s := match how with
             | PSEUDO_TCP_SHUTDOWN_RD | PSEUDO_TCP_SHUTDOWN_RDWR => put_shutdown_reads true s
             | PSEUDO_TCP_SHUTDOWN_WR => s
             end in
    if how ==b PSEUDO_TCP_SHUTDOWN_RD then Ok s
    else
      match state s with
      | TCP_LISTEN | TCP_SYN_SENT => set_state_closed s 0
      | TCP_SYN_RECEIVED | TCP_ESTABLISHED =>
          if 0 <? pseudo_tcp_socket_get_available_bytes s then
            closedown env s ECONNABORTED CLOSEDOWN_LOCAL
          else
            s ← queue_fin_message s;
            s ← attempt_send env s sfFin;
            set_state s TCP_FIN_WAIT_1
      | TCP_CLOSE_WAIT =>
          s ← queue_fin_message s;
          s ← attempt_send env s sfFin;
          set_state s TCP_LAST_ACK
      | TCP_CLOSING | TCP_CLOSED | TCP_FIN_WAIT_1 | TCP_FIN_WAIT_2
      | TCP_TIME_WAIT | TCP_LAST_ACK => Ok s
      end.

Definition pseudo_tcp_socket_close (env : Env) (s : Sock) (force : bool) : outcome Sock :=
  if force && negb (state s ==b TCP_CLOSED) then
    closedown env s ECONNABORTED CLOSEDOWN_LOCAL
  else pseudo_tcp_socket_shutdown env s PSEUDO_TCP_SHUTDOWN_RDWR.

(** Frees the queues and the buffers. *)
Definition pseudo_tcp_socket_finalize (s : Sock) : Sock :=
  let s := put_heap ∅ (put_slist [] s) in
  let s := put_unsent_slist [] s in
  let s := put_rlist [] s in
  let s := put_rbuf (pseudo_tcp_fifo_clear (rbuf s)) s in
  put_sbuf (pseudo_tcp_fifo_clear (sbuf s)) s.

(** ** Properties *)

(** A property identifier with its value. *)
Inductive PropValue :=
| PROP_CONVERSATION (v : Z)
| PROP_CALLBACKS (v : PseudoTcpCallbacks)
| PROP_STATE (v : PseudoTcpState)
| PROP_ACK_DELAY (v : Z)
| PROP_NO_DELAY (v : bool)
| PROP_RCV_BUF (v : Z)
| PROP_SND_BUF (v : Z)
| PROP_SUPPORT_FIN_ACK (v : bool).

Definition pseudo_tcp_socket_set_property (env : Env) (s : Sock) (p : PropValue)
  : outcome Sock :=
  match p with
  | PROP_CONVERSATION v => Ok (put_conv v s)
  | PROP_CALLBACKS v => Ok (put_callbacks v s)
  | PROP_ACK_DELAY v => Ok (put_ack_delay v s)
  | PROP_NO_DELAY v => Ok (put_use_nagling (negb v) s)
  | PROP_RCV_BUF v =>
      if state s ==b TCP_LISTEN then resize_receive_buffer env s v else Ok s
  | PROP_SND_BUF v =>
      if state s ==b TCP_LISTEN then resize_send_buffer env s v else Ok s
  | PROP_SUPPORT_FIN_ACK v => Ok (put_support_fin_ack v s)
  | PROP_STATE _ => Ok s
  end.

Inductive PropId :=
| ID_CONVERSATION | ID_CALLBACKS | ID_STATE | ID_ACK_DELAY | ID_NO_DELAY
| ID_RCV_BUF | ID_SND_BUF | ID_SUPPORT_FIN_ACK.

Definition pseudo_tcp_socket_get_property (s : Sock) (p : PropId) : PropValue :=
  match p with
  | ID_CONVERSATION => PROP_CONVERSATION (conv s)
  | ID_CALLBACKS => PROP_CALLBACKS (callbacks s)
  | ID_STATE => PROP_STATE (state s)
  | ID_ACK_DELAY => PROP_ACK_DELAY (ack_delay s)
  | ID_NO_DELAY => PROP_NO_DELAY (use_nagling s)
  | ID_RCV_BUF => PROP_RCV_BUF (rbuf_len s)
  | ID_SND_BUF => PROP_SND_BUF (sbuf_len s)
  | ID_SUPPORT_FIN_ACK => PROP_SUPPORT_FIN_ACK (support_fin_ack s)
  end.

End TcpApi.
