(* ===== verification/TcpDemo.v ===== *)
(** * Concrete connections

    A network that delivers every packet, a clock that advances a millisecond
    per reading, and two sockets that run the handshake and exchange data
    through the operations of the model. The theorems of the following files
    are applied to them. *)

From Stdlib Require Import ZArith Lia.
From stdpp Require Import prelude gmap list.
From S2P Require Import Prelude TcpFifo TcpBase TcpTypes TcpOps TcpProcess TcpApi.
Import Fifo Seq Wire State Tcp TcpIn TcpApi.

Module Demo.

Definition env0 : Env :=
  mkEnv (fun _ _ => WR_SUCCESS) (fun n => 1000000 + 1000 * Z.of_nat n) 205.

Definition cbs : PseudoTcpCallbacks := mkCallbacks true true true true.

(** A new socket of conversation 1 with buffers of 128 bytes. *)
Definition small_sock : Sock :=
  let s := default zero_sock (pseudo_tcp_socket_new env0 true 1 (Some cbs)) in
  let s := match pseudo_tcp_socket_set_property env0 s (PROP_RCV_BUF 128) with
           | Ok s => s | _ => s end in
  match pseudo_tcp_socket_set_property env0 s (PROP_SND_BUF 128) with Ok s => s | _ => s end.

Definition returns {A} (m : outcome A) : bool := match m with Ok _ => true | _ => false end.

Definition run_or (s : Sock) (m : outcome (bool * Sock)) : Sock :=
  match m with Ok (_, s') => s' | _ => s end.

(** The packet written last. *)
Definition last_packet (s : Sock) : bytes :=
  match events s with EvPacket p :: _ => p | _ => [] end.

(** The packets written, oldest first. *)
Definition packets (s : Sock) : list bytes :=
  rev (omap (fun e => match e with EvPacket p => Some p | _ => None end) (events s)).

Definition deliver (s : Sock) (p : bytes) : Sock :=
  run_or s (pseudo_tcp_socket_notify_packet env0 s p (zlen p)).

(** The active side after [pseudo_tcp_socket_connect], the passive side after
    the connect message, and both after the handshake. *)
Definition syn_sent : Sock := run_or small_sock (pseudo_tcp_socket_connect env0 small_sock).
Definition syn_received : Sock := deliver small_sock (last_packet syn_sent).
Definition connected : Sock := deliver syn_sent (last_packet syn_received).

(** The active side with the bytes 1, 2, 3 sent. *)
Definition sent3 : Sock :=
  match pseudo_tcp_socket_send env0 connected [1; 2; 3] 3 with
  | Ok (_, s) => s | _ => connected end.

Definition accepted : Sock := deliver syn_received (last_packet sent3).

(** A packet of conversation 1 with the given sequence number and payload. *)
Definition data_packet (seq : Z) (payload : bytes) : bytes :=
  packet_header 1 seq 7 0 128 1100 1002 ++ payload.

End Demo.
