(* ===== verification/TcpState.v ===== *)
(** * The connection state machine of the pseudo TCP socket

    [set_state] asserts that every change of state is one of RFC 793's. The
    theorems show that this assertion (line 2476) fails in no operation of the
    socket but the graceful shutdown, whatever the socket, the segment and the
    answers of the network, and that the state only moves along valid
    transitions. [pseudo_tcp_socket_shutdown] is the exception: when the flush
    of unsent data fails, the socket is closed before the transition to
    FIN-WAIT-1 or LAST-ACK is attempted, and the assertion aborts. *)

From Stdlib Require Import ZArith Lia.
From stdpp Require Import prelude gmap list.
From S2P Require Import Prelude TcpFifo TcpBase TcpTypes TcpOps TcpProcess TcpApi TcpDemo.
Import Fifo Seq Wire State Tcp TcpIn TcpApi Demo.

Module StateThm.

(** ** Outcomes that do not abort in [set_state] *)

Definition safe {A} (m : outcome A) : Prop := m <> AssertFail 2476.

Lemma safe_bind {A B} (m : outcome A) (f : A -> outcome B) :
  safe m -> (forall a, m = Ok a -> safe (f a)) -> safe (m ≫= f).
Proof. unfold safe. destruct m; simpl; try done; [auto|congruence]. Qed.

Lemma safe_ok {A} (a : A) : safe (Ok a).
Proof. done. Qed.

Lemma safe_assert n b : n <> 2476 -> safe (c_assert n b).
Proof. unfold safe. destruct b; simpl; congruence. Qed.

Create HintDb safe.
#[export] Hint Resolve safe_ok : safe.
#[export] Hint Extern 1 (safe (c_assert _ _)) => apply safe_assert; lia : safe.
#[export] Hint Extern 1 (safe (AssertFail _)) => unfold safe; congruence : safe.
#[export] Hint Extern 1 (safe Undef) => unfold safe; congruence : safe.
#[export] Hint Extern 1 (safe NoFuel) => unfold safe; congruence : safe.

(** Walks through binds, tests and matches; leaves the leaves to [safe]. *)
Ltac safe_step :=
  match goal with
  | |- safe (let x := ?v in @?f x) =>
      let y := fresh x in set (y := v); change (safe (f y)); cbv beta
  | |- safe (_ ≫= _) => apply safe_bind; [|intros ? ?]
  | |- safe (let '(_, _) := ?x in _) => destruct x
  | |- safe (if ?b then _ else _) => destruct b eqn:?
  | |- safe (match ?x with _ => _ end) => destruct x eqn:?
  | |- _ => solve [auto with safe]
  end.
Ltac safe_walk := repeat (safe_step; cbv beta).

Lemma safe_fifo_consume_read b n : safe (pseudo_tcp_fifo_consume_read_data b n).
Proof. unfold pseudo_tcp_fifo_consume_read_data. safe_walk. Qed.
Lemma safe_fifo_consume_write b n : safe (pseudo_tcp_fifo_consume_write_buffer b n).
Proof. unfold pseudo_tcp_fifo_consume_write_buffer. safe_walk. Qed.
Lemma safe_mem_read b p n : safe (mem_read b p n).
Proof. unfold mem_read. safe_walk. Qed.
Lemma safe_mem_write b p src : safe (mem_write b p src).
Proof. unfold mem_write. safe_walk. Qed.
#[export] Hint Resolve safe_fifo_consume_read safe_fifo_consume_write
  safe_mem_read safe_mem_write : safe.
Lemma safe_fifo_set_capacity j b n : safe (pseudo_tcp_fifo_set_capacity j b n).
Proof. unfold pseudo_tcp_fifo_set_capacity. safe_walk. Qed.
Lemma safe_fifo_read_offset b n o : safe (pseudo_tcp_fifo_read_offset b n o).
Proof. unfold pseudo_tcp_fifo_read_offset. safe_walk. Qed.
Lemma safe_fifo_write_offset b src n o : safe (pseudo_tcp_fifo_write_offset b src n o).
Proof. unfold pseudo_tcp_fifo_write_offset. safe_walk. Qed.
#[export] Hint Resolve safe_fifo_set_capacity safe_fifo_read_offset
  safe_fifo_write_offset : safe.
Lemma safe_fifo_read b n : safe (pseudo_tcp_fifo_read b n).
Proof. unfold pseudo_tcp_fifo_read. safe_walk. Qed.
Lemma safe_fifo_write b src n : safe (pseudo_tcp_fifo_write b src n).
Proof. unfold pseudo_tcp_fifo_write. safe_walk. Qed.
Lemma safe_seg_get s id : safe (seg_get s id).
Proof. unfold seg_get. safe_walk. Qed.
#[export] Hint Resolve safe_fifo_read safe_fifo_write safe_seg_get : safe.

Lemma safe_queue s d l f : safe (queue s d l f).
Proof. unfold queue. safe_walk. Qed.
#[export] Hint Resolve safe_queue : safe.
Lemma safe_queue_connect s : safe (queue_connect_message s).
Proof. unfold queue_connect_message. safe_walk. Qed.
Lemma safe_queue_fin s : safe (queue_fin_message s).
Proof. unfold queue_fin_message. safe_walk. Qed.
Lemma safe_queue_rst s : safe (queue_rst_message s).
Proof. unfold queue_rst_message. safe_walk. Qed.
Lemma safe_packet env s q f o l n : safe (packet env s q f o l n).
Proof. unfold packet. safe_walk. Qed.
#[export] Hint Resolve safe_queue_connect safe_queue_fin safe_queue_rst safe_packet : safe.

Lemma safe_lower_mss fuel : forall s n, safe (lower_mss fuel s n).
Proof. induction fuel; cbn [lower_mss]; intros; safe_walk. Qed.
#[export] Hint Resolve safe_lower_mss : safe.
Lemma safe_transmit_loop fuel env : forall s id n now, safe (transmit_loop fuel env s id n now).
Proof. induction fuel; cbn [transmit_loop]; intros; safe_walk. Qed.
#[export] Hint Resolve safe_transmit_loop : safe.
Lemma safe_transmit_sent s id n now : safe (transmit_sent s id n now).
Proof. unfold transmit_sent. safe_walk. Qed.
#[export] Hint Resolve safe_transmit_sent : safe.
Lemma safe_transmit env s id now : safe (transmit env s id now).
Proof. unfold transmit. safe_walk. Qed.
#[export] Hint Resolve safe_transmit : safe.

(** ** The transitions *)

Lemma set_state_ok s st : state s = st \/ valid_transition (state s) st = true ->
  exists s', set_state s st = Ok s' /\ state s' = st /\ s' = put_state st s.
Proof.
  intros H. unfold set_state. case_bool_decide as E.
  - subst. exists s. split; [done|]. split; [done|]. by destruct s.
  - destruct H as [H|H]; [done|]. rewrite H. simpl. eauto.
Qed.

(** The buffers, queues and sequence numbers, which closing leaves alone. *)
Definition same_data (s s' : Sock) : Prop :=
  rbuf s' = rbuf s /\ rcv_nxt s' = rcv_nxt s /\ rlist s' = rlist s /\
  sbuf s' = sbuf s /\ snd_una s' = snd_una s /\ snd_nxt s' = snd_nxt s /\
  slist s' = slist s /\ unsent_slist s' = unsent_slist s /\ heap s' = heap s /\
  rcv_fin s' = rcv_fin s /\ support_fin_ack s' = support_fin_ack s.

(** Closing down from any state succeeds and ends in CLOSED. *)
Lemma closedown_remote_ok s err : exists s',
  closedown_remote s err = Ok s' /\ state s' = TCP_CLOSED /\ same_data s s'.
Proof.
  unfold closedown_remote, closedown_switch, set_state_closed, set_state.
  destruct (state s) eqn:E; rewrite ?E; simpl; rewrite ?E; simpl;
    eexists; (split; [reflexivity|]); by destruct (has_closed _ && nonzero err).
Qed.

Lemma safe_closedown_remote s err : safe (closedown_remote s err).
Proof. destruct (closedown_remote_ok s err) as (s' & -> & _). done. Qed.
#[export] Hint Resolve safe_closedown_remote : safe.

Lemma safe_attempt_send_loop fuel env : forall s f now, safe (attempt_send_loop fuel env s f now).
Proof. induction fuel; cbn [attempt_send_loop]; intros; safe_walk. Qed.
#[export] Hint Resolve safe_attempt_send_loop : safe.
Lemma safe_attempt_send env s f : safe (attempt_send env s f).
Proof. unfold attempt_send. safe_walk. Qed.
#[export] Hint Resolve safe_attempt_send : safe.
Lemma safe_closedown env s err src : safe (closedown env s err src).
Proof. unfold closedown. safe_walk. Qed.
#[export] Hint Resolve safe_closedown : safe.

Lemma safe_apply_option s k d l : safe (apply_option s k d l).
Proof. unfold apply_option. safe_walk. Qed.
#[export] Hint Resolve safe_apply_option : safe.
Lemma safe_parse_options_loop fuel d l : forall p w f s, safe (parse_options_loop fuel d l p w f s).
Proof. induction fuel; cbn [parse_options_loop]; intros; safe_walk. Qed.
Lemma safe_scale_loop fuel : forall f n, safe (scale_loop fuel f n).
Proof. induction fuel; cbn [scale_loop]; intros; safe_walk. Qed.
#[export] Hint Resolve safe_parse_options_loop safe_scale_loop : safe.
Lemma safe_resize_receive_buffer env s n : safe (resize_receive_buffer env s n).
Proof. unfold resize_receive_buffer. safe_walk. Qed.
#[export] Hint Resolve safe_resize_receive_buffer : safe.
Lemma safe_parse_options env s d l : safe (parse_options env s d l).
Proof. unfold parse_options. safe_walk. Qed.
#[export] Hint Resolve safe_parse_options : safe.

(** A transition that is valid from the current state is safe. *)
Lemma safe_set_state s st :
  state s = st \/ valid_transition (state s) st = true -> safe (set_state s st).
Proof. intros H. destruct (set_state_ok s st H) as (s' & -> & _). done. Qed.

Lemma safe_set_state_established s :
  state s = TCP_SYN_SENT \/ state s = TCP_SYN_RECEIVED -> safe (set_state_established s).
Proof.
  intros H. unfold set_state_established. apply safe_bind; [|intros; safe_walk].
  apply safe_set_state. right. by destruct H as [-> | ->].
Qed.

Lemma safe_set_state_closed s err :
  valid_transition (state s) TCP_CLOSED = true -> safe (set_state_closed s err).
Proof.
  intros H. unfold set_state_closed. apply safe_bind; [|intros; safe_walk].
  apply safe_set_state. auto.
Qed.

Lemma safe_process_control env s seg : safe (process_control env s seg).
Proof.
  unfold process_control. safe_walk.
  - apply safe_set_state. right. by rewrite Heqp.
  - apply safe_set_state_established. auto.
Qed.

Lemma safe_free_acked fuel : forall s n, safe (free_acked fuel s n).
Proof. induction fuel; cbn [free_acked]; intros; safe_walk. Qed.
Lemma safe_scaled_window w k : safe (scaled_window w k).
Proof. unfold scaled_window. safe_walk. Qed.
Lemma safe_retransmit_head env s now : safe (retransmit_head env s now).
Proof. unfold retransmit_head. safe_walk. Qed.
#[export] Hint Resolve safe_process_control safe_free_acked safe_scaled_window
  safe_retransmit_head : safe.
Lemma safe_process_ack_congestion env s n now : safe (process_ack_congestion env s n now).
Proof. unfold process_ack_congestion. safe_walk. Qed.
#[export] Hint Resolve safe_process_ack_congestion : safe.
Lemma safe_process_ack env s seg now : safe (process_ack env s seg now).
Proof. unfold process_ack, process_valuable_ack, process_duplicate_ack. safe_walk. Qed.
#[export] Hint Resolve safe_process_ack : safe.

(** The transitions on FIN and on the ACK of a FIN are all valid. *)
Lemma safe_process_fin_switch s a f : safe (process_fin_switch s a f).
Proof.
  unfold process_fin_switch.
  destruct (state s) eqn:E, a, f; simpl; try done;
    (apply safe_set_state || apply safe_set_state_closed); rewrite E; auto.
Qed.
#[export] Hint Resolve safe_process_fin_switch : safe.
Lemma safe_process_fin s seg a : safe (process_fin s seg a).
Proof. unfold process_fin. safe_walk. Qed.
Lemma safe_recover_rlist l : forall s r, safe (recover_rlist l s r).
Proof. induction l; cbn [recover_rlist]; intros; safe_walk. Qed.
#[export] Hint Resolve safe_process_fin safe_recover_rlist : safe.
Lemma safe_process_receive s seg f : safe (process_receive s seg f).
Proof. unfold process_receive, process_data. safe_walk. Qed.
#[export] Hint Resolve safe_process_receive : safe.

Lemma safe_process env s seg : safe (process env s seg).
Proof.
  unfold process. safe_walk. apply safe_set_state_established. right.
  match goal with E : _ && _ = true |- _ =>
    apply andb_true_iff in E as [E _]; by apply bool_decide_eq_true in E end.
Qed.
#[export] Hint Resolve safe_process : safe.

(** ** Operations of the public interface *)

Inductive Op :=
| OpConnect
| OpNotifyMtu (mtu : Z)
| OpNotifyClock
| OpNotifyPacket (p : bytes) (len : Z)
| OpGetNextClock (timeout : Z)
| OpRecv (len : Z)
| OpSend (data : bytes) (len : Z)
| OpShutdown (how : PseudoTcpShutdown)
| OpClose (force : bool).

Definition run_op (env : Env) (o : Op) (s : Sock) : outcome Sock :=
  match o with
  | OpConnect => '(_, s) ← pseudo_tcp_socket_connect env s; Ok s
  | OpNotifyMtu mtu => Ok (pseudo_tcp_socket_notify_mtu s mtu)
  | OpNotifyClock => pseudo_tcp_socket_notify_clock env s
  | OpNotifyPacket p len => '(_, s) ← pseudo_tcp_socket_notify_packet env s p len; Ok s
  | OpGetNextClock t => '(_, _, s) ← pseudo_tcp_socket_get_next_clock env s t; Ok s
  | OpRecv len => '(_, _, s) ← pseudo_tcp_socket_recv env s len; Ok s
  | OpSend data len => '(_, s) ← pseudo_tcp_socket_send env s data len; Ok s
  | OpShutdown how => pseudo_tcp_socket_shutdown env s how
  | OpClose force => pseudo_tcp_socket_close env s force
  end.

(** The operations that start a graceful shutdown. *)
Definition graceful (o : Op) : bool :=
  match o with OpShutdown _ | OpClose false => true | _ => false end.

Lemma safe_connect env s : safe (pseudo_tcp_socket_connect env s).
Proof.
  unfold pseudo_tcp_socket_connect. safe_walk. apply safe_set_state. right.
  apply negb_false_iff, bool_decide_eq_true in Heqb. by rewrite Heqb.
Qed.

Lemma safe_notify_clock env s : safe (pseudo_tcp_socket_notify_clock env s).
Proof.
  unfold pseudo_tcp_socket_notify_clock, clock_retransmit, clock_probe, clock_delayed_ack.
  safe_walk. apply safe_set_state_closed.
  apply andb_true_iff in Heqb0 as [_ E]. apply bool_decide_eq_true in E. by rewrite E.
Qed.

Lemma safe_notify_packet env s p len : safe (pseudo_tcp_socket_notify_packet env s p len).
Proof. unfold pseudo_tcp_socket_notify_packet, parse. safe_walk. Qed.

Lemma safe_get_next_clock env s t : safe (pseudo_tcp_socket_get_next_clock env s t).
Proof. unfold pseudo_tcp_socket_get_next_clock. safe_walk. Qed.

Lemma safe_recv env s n : safe (pseudo_tcp_socket_recv env s n).
Proof. unfold pseudo_tcp_socket_recv. safe_walk. Qed.

Lemma safe_send env s d n : safe (pseudo_tcp_socket_send env s d n).
Proof. unfold pseudo_tcp_socket_send. safe_walk. Qed.
#[export] Hint Resolve safe_connect safe_notify_clock safe_notify_packet
  safe_get_next_clock safe_recv safe_send : safe.

(** C3. The assertion of [set_state] that a transition is one of RFC 793's
    fails in no public operation other than a graceful shutdown: whatever the
    socket, the packet and the behaviour of the network, connecting, receiving
    a packet or a clock tick, sending, reading and a forced close never abort
    there. *)
Theorem set_state_assertion_holds (env : Env) (o : Op) (s : Sock) :
  graceful o = false -> run_op env o s <> AssertFail 2476.
Proof.
  intros Hg. change (safe (run_op env o s)).
  destruct o as [| | | | | | | |[]]; try discriminate Hg; cbn [run_op]; safe_walk.
  unfold pseudo_tcp_socket_close. simpl. destruct (negb _) eqn:E; [auto with safe|].
  apply negb_false_iff, bool_decide_eq_true in E.
  unfold pseudo_tcp_socket_shutdown. simpl.
  destruct (negb _); [done|]. simpl. by rewrite E.
Qed.

Lemma set_state_assertion_holds_witness :
  graceful (OpClose true) = false /\ run_op env0 (OpClose true) sent3 <> AssertFail 2476.
Proof.
  split; [reflexivity|].
  exact (set_state_assertion_holds env0 (OpClose true) sent3 eq_refl).
Defined.

End StateThm.
