(* ===== verification/TcpFrame.v ===== *)
(** * What sending leaves alone

    A small program logic over [outcome] ([post Q m]: if [m] returns, its result
    satisfies [Q]) and the frame of the sending half of the pseudo TCP socket:
    [queue], [packet], [transmit] and, as long as the transport does not fail,
    [attempt_send] change none of the fields of the receiving half, collected
    in [rx_view], nor the state of the connection. *)

From Stdlib Require Import ZArith Lia.
From stdpp Require Import prelude gmap list.
From S2P Require Import Prelude TcpFifo TcpBase TcpTypes TcpOps TcpProcess TcpApi TcpDemo TcpState.
Import Fifo Seq Wire State Tcp TcpIn TcpApi Demo StateThm.

Module Frame.

Definition post {A} (Q : A -> Prop) (m : outcome A) : Prop := forall a, m = Ok a -> Q a.

Lemma post_ok {A} (Q : A -> Prop) a : Q a -> post Q (Ok a).
Proof. intros H ? [= <-]. exact H. Qed.

Lemma post_bind {A B} (R : A -> Prop) (Q : B -> Prop) (m : outcome A) (f : A -> outcome B) :
  post R m -> (forall a, R a -> post Q (f a)) -> post Q (m ≫= f).
Proof. intros Hm Hf b H. apply bind_ok in H as (a & Ha & Hb). exact (Hf a (Hm a Ha) b Hb). Qed.

Lemma post_weaken {A} (R Q : A -> Prop) (m : outcome A) :
  post R m -> (forall a, R a -> Q a) -> post Q m.
Proof. intros H HQ a Ha. auto. Qed.

Lemma post_assert n b : post (fun _ => b = true) (c_assert n b).
Proof. intros [] H. by apply c_assert_ok in H. Qed.

Lemma post_fail {A} (Q : A -> Prop) n : post Q (AssertFail n).
Proof. intros ? [=]. Qed.
Lemma post_undef {A} (Q : A -> Prop) : post Q Undef.
Proof. intros ? [=]. Qed.
Lemma post_nofuel {A} (Q : A -> Prop) : post Q NoFuel.
Proof. intros ? [=]. Qed.
Lemma post_any {A} (m : outcome A) : post (fun _ => True) m.
Proof. by intros ? ?. Qed.

(** The fields the sending half does not write. *)
Record RxView := mkRx {
  v_state : PseudoTcpState; v_callbacks : PseudoTcpCallbacks; v_conv : Z;
  v_shutdown : Shutdown; v_fin_ack : bool; v_rlist : list RSegment; v_rbuf_len : Z;
  v_rcv_nxt : Z; v_rcv_wnd : Z; v_rwnd_scale : Z; v_rbuf : PseudoTcpFifo; v_rcv_fin : Z;
  v_read : bool;
}.

Definition rx_view (s : Sock) : RxView :=
  mkRx (state s) (callbacks s) (conv s) (shutdown s) (support_fin_ack s) (rlist s)
    (rbuf_len s) (rcv_nxt s) (rcv_wnd s) (rwnd_scale s) (rbuf s) (rcv_fin s) (bReadEnable s).

(** [s'] has the receiving half of [s]. *)
Definition same_rx (s s' : Sock) : Prop := rx_view s' = rx_view s.

Lemma same_rx_refl s : same_rx s s.
Proof. done. Qed.
Lemma same_rx_trans s1 s2 s3 : same_rx s1 s2 -> same_rx s2 s3 -> same_rx s1 s3.
Proof. unfold same_rx. congruence. Qed.
Lemma same_rx_state s s' : same_rx s s' -> state s' = state s.
Proof. by intros [=]. Qed.

#[global] Instance same_rx_preorder : PreOrder same_rx.
Proof. split; [exact same_rx_refl|exact same_rx_trans]. Qed.

(** Case analysis on the outermost test. *)
Ltac post_if :=
  match goal with
  | |- post _ (if ?b then _ else _) => let E := fresh "E" in destruct b eqn:E
  end.

Lemma frame_get_current_time env s : same_rx s (get_current_time env s).2.
Proof. unfold get_current_time. by destruct (nonzero _). Qed.

Lemma frame_queue s d l f : post (fun r => same_rx s r.2) (queue s d l f).
Proof.
  unfold queue, seg_new. simpl.
  eapply post_bind; [apply post_any|intros ? _].
  eapply post_bind with (R := same_rx s).
  - destruct (last _); [|by apply post_ok].
    eapply post_bind; [apply post_any|intros ? _].
    destruct (_ && _); by apply post_ok.
  - intros s' Hs'. eapply post_bind; [apply post_any|intros [? ?] _]. by apply post_ok.
Qed.

Lemma frame_queue_fin s : post (same_rx s) (queue_fin_message s).
Proof.
  unfold queue_fin_message. eapply post_bind; [apply post_any|intros ? _].
  eapply post_bind; [apply frame_queue|]. intros [? ?] H. by apply post_ok.
Qed.

Lemma frame_queue_rst s : post (same_rx s) (queue_rst_message s).
Proof.
  unfold queue_rst_message. eapply post_bind; [apply post_any|intros ? _].
  eapply post_bind; [apply frame_queue|]. intros [? ?] H. by apply post_ok.
Qed.

Lemma frame_queue_connect s : post (same_rx s) (queue_connect_message s).
Proof.
  unfold queue_connect_message.
  eapply post_bind; [apply frame_queue|]. intros [? ?] H. by apply post_ok.
Qed.

Lemma frame_packet env s q f o l n : post (fun r => same_rx s r.2) (packet env s q f o l n).
Proof.
  unfold packet. eapply post_bind; [apply post_any|intros ? _].
  eapply post_bind; [apply post_any|intros ? _].
  destruct (_ && _); apply post_ok; [done|]. by destruct (0 <? l).
Qed.

Lemma frame_lower_mss fuel : forall s n, post (fun r => same_rx s r.2) (lower_mss fuel s n).
Proof.
  induction fuel as [|fuel IH]; intros s n; cbn [lower_mss]; [apply post_nofuel|].
  destruct (znth _ _); [|apply post_undef]. destruct (_ =? 0); [by apply post_ok|].
  destruct (_ <? n); [by apply post_ok|].
  eapply post_weaken; [apply IH|]. intros r Hr. by etrans; [|exact Hr].
Qed.

Lemma frame_transmit_loop fuel env : forall s id n now,
  post (fun r => same_rx s r.2) (transmit_loop fuel env s id n now).
Proof.
  induction fuel as [|fuel IH]; intros s id n now; cbn [transmit_loop]; [apply post_nofuel|].
  eapply post_bind; [apply post_any|intros g _].
  eapply post_bind; [apply post_any|intros ? _].
  eapply post_bind; [apply frame_packet|]. intros [[] s1] H1; simpl in H1; [by apply post_ok| |by apply post_ok].
  eapply post_bind; [apply frame_lower_mss|]. intros [[] s2] H2; simpl in H2.
  - apply post_ok. by etrans.
  - eapply post_weaken; [apply IH|]. intros r Hr. by repeat (etrans; [eassumption|]).
Qed.

Lemma frame_transmit_sent s id n now : post (same_rx s) (transmit_sent s id n now).
Proof.
  unfold transmit_sent, seg_new. simpl.
  eapply post_bind; [apply post_any|intros g _].
  eapply post_bind with (R := same_rx s).
  { destruct (_ <? _); apply post_ok; [|done]. by destruct (_ =? 0). }
  intros s1 H1. eapply post_bind; [apply post_any|intros g' _].
  eapply post_bind with (R := same_rx s).
  { destruct (_ =? 0); [|by apply post_ok].
    eapply post_bind; [apply post_any|intros ? _]. apply post_ok. by destruct (_ && _). }
  intros s2 H2. apply post_ok. by destruct (_ =? 0).
Qed.

Lemma frame_transmit env s id now : post (fun r => same_rx s r.2) (transmit env s id now).
Proof.
  unfold transmit. eapply post_bind; [apply post_any|intros g _].
  destruct (_ <=? _); [by apply post_ok|].
  eapply post_bind; [apply frame_transmit_loop|]. intros [[] s1] H1; simpl in H1.
  - by apply post_ok.
  - eapply post_bind; [apply frame_transmit_sent|]. intros s2 H2. apply post_ok. by etrans.
Qed.

(** [attempt_send] either keeps the receiving half or closes the connection,
    and keeps the received data even then. *)
Definition same_recv (s s' : Sock) : Prop :=
  rbuf s' = rbuf s /\ rcv_nxt s' = rcv_nxt s /\ rlist s' = rlist s /\
  rcv_fin s' = rcv_fin s /\ support_fin_ack s' = support_fin_ack s.

Lemma same_rx_recv s s' : same_rx s s' -> same_recv s s'.
Proof. by intros [=]. Qed.

Definition same_rx_or_closed (s s' : Sock) : Prop :=
  same_rx s s' \/ state s' = TCP_CLOSED /\ same_recv s s'.

Lemma same_rx_or_closed_trans s s1 s2 :
  same_rx s s1 -> same_rx_or_closed s1 s2 -> same_rx_or_closed s s2.
Proof.
  intros H1 [H2|[H2 H3]]; [left; by etrans|right].
  apply same_rx_recv in H1. unfold same_recv in *. destruct_and!. repeat split; congruence.
Qed.

Lemma frame_attempt_send_loop fuel env : forall s f now,
  post (same_rx_or_closed s) (attempt_send_loop fuel env s f now).
Proof.
  induction fuel as [|fuel IH]; intros s f now; cbn [attempt_send_loop]; [apply post_nofuel|].
  assert (forall s1 f', same_rx s s1 -> post (same_rx_or_closed s) (attempt_send_loop fuel env s1 f' now)) as IH'.
  { intros s1 f' H1. eapply post_weaken; [apply IH|].
    intros s2. by apply same_rx_or_closed_trans. }
  destruct (f ==b sfDuplicateAck).
  { eapply post_bind; [apply frame_packet|]. intros [? s1] H1. by apply IH'. }
  destruct (_ && _).
  { destruct (f ==b sfNone); [apply post_ok; by left|].
    destruct (_ || _); [|apply post_ok; by left].
    eapply post_bind; [apply frame_packet|]. intros [? s1] H1. apply post_ok. by left. }
  destruct (_ && _); [apply post_ok; by left|].
  destruct (unsent_slist s) as [|id ?]; [apply post_ok; by left|].
  eapply post_bind; [apply post_any|intros g _].
  set (s0 := if (_ : bool) then split_unsent _ _ _ _ else _).
  assert (same_rx s s0) as H0 by (subst s0; by destruct (_ && _)).
  eapply post_bind; [apply frame_transmit|]. intros [st s1] H1; simpl in H1.
  destruct (nonzero st).
  - intros s2 Hs2. destruct (closedown_remote_ok s1 st) as (s3 & E & H3 & H4).
    eapply same_rx_or_closed_trans; [etrans; [exact H0|exact H1]|].
    assert (s2 = s3) as -> by congruence. right. split; [done|].
    unfold same_data in H4. by destruct_and!.
  - apply IH'. by etrans.
Qed.

Lemma frame_attempt_send env s f : post (same_rx_or_closed s) (attempt_send env s f).
Proof.
  unfold attempt_send. pose proof (frame_get_current_time env s) as H0.
  destruct (get_current_time env s) as [now s0]. simpl in H0.
  set (s1 := if (_ : bool) then put_cwnd _ _ else _).
  assert (same_rx s s1) as H1 by (etrans; [exact H0|]; subst s1; by destruct (_ <? _)).
  eapply post_weaken; [apply frame_attempt_send_loop|].
  intros s2. by apply same_rx_or_closed_trans.
Qed.

(** Once closed, a socket stays closed. *)
Lemma closed_attempt_send env s f : state s = TCP_CLOSED ->
  post (fun s' => state s' = TCP_CLOSED) (attempt_send env s f).
Proof.
  intros H. eapply post_weaken; [apply frame_attempt_send|].
  intros s' [H'|[H' _]]; [|done]. by rewrite (same_rx_state s s').
Qed.

Lemma post_closedown env s err src :
  post (fun s' => state s' = TCP_CLOSED) (closedown env s err src).
Proof.
  unfold closedown. eapply post_bind; [apply post_any|]. intros s1 _ s2 H2.
  destruct (closedown_remote_ok s1 err) as (s3 & E & H3 & _). congruence.
Qed.

Lemma closed_process env s seg : state s = TCP_CLOSED ->
  post (fun r => state r.2 = TCP_CLOSED) (process env s seg).
Proof.
  intros H. unfold process. destruct (negb _); [by apply post_ok|].
  pose proof (same_rx_state _ _ (frame_get_current_time env s)) as H0.
  destruct (get_current_time env s) as [now s0]. simpl in H0.
  rewrite bool_decide_true by (simpl; congruence). cbn [orb].
  destruct (negb _).
  - eapply post_bind; [apply post_closedown|]. intros s1 H1. by apply post_ok.
  - apply post_ok. simpl. congruence.
Qed.

Lemma closed_notify_clock env s : state s = TCP_CLOSED ->
  post (fun s' => state s' = TCP_CLOSED) (pseudo_tcp_socket_notify_clock env s).
Proof.
  intros H. unfold pseudo_tcp_socket_notify_clock.
  pose proof (same_rx_state _ _ (frame_get_current_time env s)) as H0.
  destruct (get_current_time env s) as [now s0]. simpl in H0.
  rewrite bool_decide_true by congruence. apply post_ok. congruence.
Qed.

Lemma closed_get_next_clock env s t : state s = TCP_CLOSED ->
  post (fun r => state r.2 = TCP_CLOSED) (pseudo_tcp_socket_get_next_clock env s t).
Proof.
  intros H. unfold pseudo_tcp_socket_get_next_clock.
  pose proof (same_rx_state _ _ (frame_get_current_time env s)) as H0.
  destruct (get_current_time env s) as [now s0]. simpl in H0.
  destruct (_ || _).
  { eapply post_bind; [apply post_closedown|]. intros s1 H1. by apply post_ok. }
  repeat case_match; apply post_ok; simpl; congruence.
Qed.

Lemma closed_recv env s n : state s = TCP_CLOSED ->
  post (fun r => state r.2 = TCP_CLOSED) (pseudo_tcp_socket_recv env s n).
Proof.
  intros H. unfold pseudo_tcp_socket_recv.
  do 4 (post_if; [by apply post_ok|]).
  eapply post_bind; [apply post_any|]. intros [[r out] b] _.
  cbv zeta. post_if; [by apply post_ok|].
  eapply post_bind with (R := fun s' => state s' = TCP_CLOSED).
  - post_if; [|by apply post_ok].
    post_if; [by apply closed_attempt_send|by apply post_ok].
  - intros s1 H1. by apply post_ok.
Qed.

Lemma closed_shutdown env s how : state s = TCP_CLOSED ->
  post (fun s' => state s' = TCP_CLOSED) (pseudo_tcp_socket_shutdown env s how).
Proof.
  intros H. unfold pseudo_tcp_socket_shutdown.
  destruct (negb _); [apply post_ok; by destruct (_ ==b _)|].
  destruct how; simpl; rewrite ?H; by apply post_ok.
Qed.

(** CLOSED is final: whatever public operation runs on a closed socket, if
    it returns then the socket is still closed (a packet that arrives only
    makes it send a reset). *)
Theorem closed_is_final (env : Env) (o : Op) (s s' : Sock) :
  state s = TCP_CLOSED -> run_op env o s = Ok s' -> state s' = TCP_CLOSED.
Proof.
  intros H. revert s'. change (post (fun s' => state s' = TCP_CLOSED) (run_op env o s)).
  destruct o; cbn [run_op].
  - unfold pseudo_tcp_socket_connect. rewrite bool_decide_false by congruence. by apply post_ok.
  - apply post_ok. unfold pseudo_tcp_socket_notify_mtu. simpl.
    rewrite bool_decide_false; [done|]. simpl. congruence.
  - by apply closed_notify_clock.
  - eapply post_bind with (R := fun r => state r.2 = TCP_CLOSED).
    + unfold pseudo_tcp_socket_notify_packet, parse.
      destruct (_ <? len); [by apply post_ok|]. destruct (len <? _); [by apply post_ok|].
      do 2 (eapply post_bind; [apply post_any|intros ? _]).
      destruct (parse_header _ _); [by apply closed_process|by apply post_ok].
    + intros [? s1] H1. by apply post_ok.
  - eapply post_bind; [by apply closed_get_next_clock|]. intros [[? ?] s1] H1. by apply post_ok.
  - eapply post_bind; [by apply closed_recv|]. intros [[? ?] s1] H1. by apply post_ok.
  - unfold pseudo_tcp_socket_send. rewrite bool_decide_false by congruence. by apply post_ok.
  - by apply closed_shutdown.
  - unfold pseudo_tcp_socket_close.
    destruct (_ && _); [apply post_closedown|by apply closed_shutdown].
Qed.

Definition closed_sock : Sock :=
  match pseudo_tcp_socket_close env0 sent3 true with Ok s => s | _ => sent3 end.

Lemma closed_is_final_witness : exists s',
  run_op env0 (OpNotifyPacket (data_packet 7 [1]) 25) closed_sock = Ok s' /\
  state s' = TCP_CLOSED.
Proof.
  assert (state closed_sock = TCP_CLOSED) as H by (vm_compute; reflexivity).
  destruct (run_op env0 (OpNotifyPacket (data_packet 7 [1]) 25) closed_sock) as [s'| | |] eqn:E;
    [|exfalso; revert E; vm_compute; discriminate..].
  exists s'. split; [reflexivity|].
  exact (closed_is_final env0 _ closed_sock s' H E).
Defined.

End Frame.
