(* ===== verification/TcpReceive.v ===== *)
(** * Reassembly: the receiving half of the pseudo TCP socket

    The bytes the peer sends are an unbounded stream [S : Z -> Z]; a data
    segment carries a slice of it at an unbounded position of which the wire
    has only the low 32 bits. The invariant [RecvInv S base N s] says that the
    receive buffer holds exactly the bytes [base .. N) of the stream, that
    [rcv_nxt] is [N], and that every saved out-of-order segment of [rlist]
    describes cells that already hold the right bytes. The theorems show that
    [process_receive] (trimming, storing and recovering a segment) never
    aborts, preserves the invariant for segments that arrive in any order,
    duplicated, overlapping or cut, and makes the progress it can; and that
    reading hands out the next bytes of the stream. *)

From Stdlib Require Import ZArith Lia.
From stdpp Require Import prelude gmap list sorting.
From S2P Require Import Prelude TcpFifo TcpBase TcpTypes TcpOps TcpProcess TcpApi TcpState TcpFrame.
Import Fifo Seq Wire State Tcp TcpIn TcpApi StateThm Frame.

Module Receive.

(** The unbounded position at or above [base] with the low bits of [x]. *)
Definition abs_pos (base x : Z) : Z := base + u32 (x - base).

Lemma abs_pos_u32 base q : base <= q < base + 2 ^ 32 -> abs_pos base (u32 q) = q.
Proof. intros. unfold abs_pos. rewrite u32_sub_l, u32_small; lia. Qed.

Lemma u32_abs_pos base x : is_u32 x -> u32 (abs_pos base x) = x.
Proof.
  intros. unfold abs_pos. rewrite u32_add_r.
  replace (base + (x - base)) with x by lia. by apply u32_small.
Qed.

Lemma abs_pos_range base x : base <= abs_pos base x < base + 2 ^ 32.
Proof. unfold abs_pos. pose proof (u32_range (x - base)). lia. Qed.

Lemma SMALLER_abs base x y :
  is_u32 x -> is_u32 y -> abs_pos base x < base + 2 ^ 30 -> abs_pos base y < base + 2 ^ 30 ->
  SMALLER x y = (abs_pos base x <? abs_pos base y).
Proof.
  intros Hx Hy ? ?. pose proof (abs_pos_range base x). pose proof (abs_pos_range base y).
  rewrite <- (u32_abs_pos base x Hx) at 1. rewrite <- (u32_abs_pos base y Hy) at 1.
  apply SMALLER_spec. lia.
Qed.

(** The received data and whether the peer's FIN is handled. *)
Definition RecvView (s : Sock) := (rbuf s, rcv_nxt s, rlist s, support_fin_ack s).

Section Stream.

Context (S : Z -> Z).

(** Cells [lo .. hi) of the ring, counted from [base], hold the stream. *)
Definition holds (base : Z) (cells : bytes) (lo hi : Z) : Prop :=
  forall i, lo <= i < hi -> znth cells (i - base) = Some (S i).

Definition rseg_ok (base : Z) (b : PseudoTcpFifo) (r : RSegment) : Prop :=
  is_u32 (rs_seq r) /\ 0 < rs_len r /\
  abs_pos base (rs_seq r) + rs_len r <= base + buffer_length b /\
  holds base (ring b) (abs_pos base (rs_seq r)) (abs_pos base (rs_seq r) + rs_len r).

Definition rseg_le (base : Z) (r1 r2 : RSegment) : Prop :=
  abs_pos base (rs_seq r1) <= abs_pos base (rs_seq r2).

(** The buffer, [rcv_nxt] and the data; shared by the loop and the invariant. *)
Record BufInv (base N : Z) (s : Sock) : Prop := {
  bi_wf : fifo_wf (rbuf s);
  bi_small : buffer_length (rbuf s) <= 2 ^ 30;
  bi_nxt : rcv_nxt s = u32 N;
  bi_len : data_length (rbuf s) = N - base;
  bi_data : holds base (ring (rbuf s)) base N;
}.

Record RecvInv (base N : Z) (s : Sock) : Prop := {
  ri_buf : BufInv base N s;
  ri_rlist : Forall (rseg_ok base (rbuf s)) (rlist s);
  ri_sorted : StronglySorted (rseg_le base) (rlist s);
  ri_future : Forall (fun r => N < abs_pos base (rs_seq r)) (rlist s);
}.

(** A data segment that carries the stream from position [Q] on. *)
Record SegAt (Q : Z) (seg : Segment) : Prop := {
  sa_seq : seg_seq seg = u32 Q;
  sa_len : 0 <= seg_len seg <= zlen (seg_data seg);
  sa_small : seg_len seg < 2 ^ 16;
  sa_data : forall i, 0 <= i < seg_len seg -> znth (seg_data seg) i = Some (S (Q + i));
}.

(** ** Trimming *)

Lemma trim_old_spec base N s seg Q :
  BufInv base N s -> SegAt Q seg -> - 2 ^ 30 < Q - N < 2 ^ 30 ->
  exists Q', SegAt Q' (trim_old s seg) /\ - 2 ^ 30 < Q' - N < 2 ^ 30 /\
    (0 < seg_len (trim_old s seg) -> Q' = Z.max Q N /\
       Q' + seg_len (trim_old s seg) = Q + seg_len seg) /\
    (seg_len (trim_old s seg) = 0 -> seg_len seg = 0 \/ Q + seg_len seg <= N) /\
    has_flag (trim_old s seg) FLAG_CTL = has_flag seg FLAG_CTL.
Proof.
  intros HB HS HQ. pose proof HS as [Hs Hl Hsm Hd]. unfold trim_old.
  rewrite Hs, (bi_nxt _ _ _ HB), SMALLER_spec by lia.
  destruct (Z.ltb_spec Q N) as [H|H].
  2:{ exists Q. repeat split; try done; lia. }
  replace (u32 (u32 N - u32 Q)) with (N - Q)
    by (rewrite u32_sub_l, u32_sub_r, u32_small; lia).
  destruct (Z.ltb_spec (N - Q) (seg_len seg)) as [H2|H2].
  - exists N. split; [|simpl; repeat split; try done; lia].
    split; simpl.
    + rewrite u32_add_l. f_equal. lia.
    + rewrite zlen_zdrop. lia.
    + lia.
    + intros i Hi. rewrite znth_zdrop by lia. rewrite Hd by lia. do 2 f_equal. lia.
  - exists Q. split; [|simpl; repeat split; try done; lia].
    split; simpl; [done|lia|lia|intros; lia].
Qed.

Lemma trim_space_spec base N s seg Q :
  BufInv base N s -> SegAt Q seg -> - 2 ^ 30 < Q - N < 2 ^ 30 ->
  (0 < seg_len seg -> N <= Q) ->
  let seg' := trim_space s seg in
  let fin := base + buffer_length (rbuf s) in
  SegAt Q seg' /\ has_flag seg' FLAG_CTL = has_flag seg FLAG_CTL /\
  (0 < seg_len seg' -> N <= Q /\ Q + seg_len seg' = Z.min (Q + seg_len seg) fin) /\
  (seg_len seg' = 0 -> seg_len seg = 0 \/ fin <= Q).
Proof.
  intros [Hwf Hsm Hn Hl Hd] HS HQ HN seg' fin. pose proof HS as [Hs Hsl Hss Hsd].
  destruct Hwf as (? & ? & ? & ?). subst seg' fin. unfold trim_space.
  unfold pseudo_tcp_fifo_get_write_remaining. rewrite Hs, Hn, u64_small by lia.
  replace (u32 (u32 (u32 Q + seg_len seg) - u32 N)) with (u32 (Q + seg_len seg - N))
    by (by rewrite u32_add_l, u32_sub_l, u32_sub_r).
  destruct (Z.ltb_spec (buffer_length (rbuf s) - data_length (rbuf s))
              (u32 (Q + seg_len seg - N))) as [E|E].
  2:{ split; [done|]. split; [done|]. destruct (decide (seg_len seg = 0)) as [Hz|Hz]; [lia|].
      rewrite u32_small in E by lia. lia. }
  destruct (decide (seg_len seg = 0)) as [Hz|Hz].
  - rewrite (proj2 (Z.ltb_ge _ (seg_len seg))).
    2:{ rewrite Hz. apply u32_range. }
    split; [split; simpl; [done|lia|lia|intros; lia]|]. simpl. split; [done|]. lia.
  - rewrite (u32_small (_ - N)) in * by lia. rewrite (u32_small (_ - _)) by lia.
    destruct (Z.ltb_spec (Q + seg_len seg - N - (buffer_length (rbuf s) - data_length (rbuf s)))
                (seg_len seg)) as [H3|H3].
    + split; [split; simpl; [done|lia|lia|intros; apply Hsd; lia]|]. simpl. split; [done|]. lia.
    + split; [split; simpl; [done|lia|lia|intros; lia]|]. simpl. split; [done|]. lia.
Qed.

(** ** Cells after a write *)

Lemma holds_splice base cells w src lo hi :
  0 <= w -> w + zlen src <= zlen cells -> base <= lo ->
  holds base cells lo hi ->
  (forall i, 0 <= i < zlen src -> znth src i = Some (S (base + w + i))) ->
  holds base (splice cells w src) lo hi.
Proof.
  intros Hw Hl Hb H Hsrc i Hi. unfold splice. rewrite znth_mem_write by lia.
  destruct (Z.leb_spec w (i - base)); simpl; [|by apply H].
  destruct (Z.ltb_spec (i - base) (w + zlen src)); [|by apply H].
  rewrite Hsrc by lia. do 2 f_equal. lia.
Qed.

Lemma holds_splice_new base cells w src :
  0 <= w -> w + zlen src <= zlen cells ->
  (forall i, 0 <= i < zlen src -> znth src i = Some (S (base + w + i))) ->
  holds base (splice cells w src) (base + w) (base + w + zlen src).
Proof.
  intros Hw Hl Hsrc i Hi. unfold splice. rewrite znth_mem_write by lia.
  rewrite (proj2 (Z.leb_le _ _)), (proj2 (Z.ltb_lt _ _)) by lia. simpl.
  rewrite Hsrc by lia. do 2 f_equal. lia.
Qed.

Lemma holds_app base cells lo mid hi :
  holds base cells lo mid -> holds base cells mid hi -> holds base cells lo hi.
Proof. intros H1 H2 i Hi. destruct (decide (i < mid)); [apply H1|apply H2]; lia. Qed.

Lemma holds_sub base cells lo hi lo' hi' :
  holds base cells lo hi -> lo <= lo' -> hi' <= hi -> holds base cells lo' hi'.
Proof. intros H ? ? i Hi. apply H. lia. Qed.

(** ** The saved segments *)

Lemma rseg_ok_same base b b' r :
  ring b' = ring b -> buffer_length b' = buffer_length b -> rseg_ok base b r -> rseg_ok base b' r.
Proof. unfold rseg_ok. by intros -> ->. Qed.

(** [rlist_insert] keeps the list sorted by stream position. *)
Lemma rlist_insert_spec base (P : RSegment -> Prop) l r :
  Forall (fun x => abs_pos base (rs_seq x) < base + 2 ^ 30 /\ is_u32 (rs_seq x)) (r :: l) ->
  StronglySorted (rseg_le base) l -> Forall P l -> P r ->
  StronglySorted (rseg_le base) (rlist_insert l r) /\ Forall P (rlist_insert l r).
Proof.
  intros Hb Hs HP Hr. apply Forall_cons in Hb as [[Hr1 Hr2] Hl].
  pose proof (abs_pos_range base (rs_seq r)).
  induction l as [|x l IH]; simpl; [split; repeat constructor; done|].
  apply Forall_cons in Hl as [[Hx1 Hx2] Hl']. apply StronglySorted_inv in Hs as [Hs' Hx].
  apply Forall_cons in HP as [HPx HPl].
  pose proof (abs_pos_range base (rs_seq x)).
  rewrite (SMALLER_abs base) by (done || lia).
  destruct (Z.ltb_spec (abs_pos base (rs_seq x)) (abs_pos base (rs_seq r))) as [Hlt|Hge].
  - destruct (IH Hl' Hs' HPl) as [IH1 IH2].
    split; [|by constructor]. constructor; [done|].
    clear -Hx Hlt. induction l as [|y l IH]; simpl.
    + repeat constructor. unfold rseg_le. lia.
    + apply Forall_cons in Hx as [Hy Hl]. destruct (SMALLER _ _).
      * constructor; [done|]. by apply IH.
      * repeat constructor; [unfold rseg_le; lia|done|done].
  - split; [|by repeat constructor].
    constructor; [by constructor|]. constructor; [done|].
    eapply Forall_impl; [exact Hx|]. unfold rseg_le. intros y. simpl. lia.
Qed.

(** The recovery loop takes over every saved segment that touches [N]. *)
Lemma recover_rlist_spec base : forall l N s rec,
  BufInv base N s -> rlist s = l -> base <= N ->
  Forall (rseg_ok base (rbuf s)) l -> StronglySorted (rseg_le base) l ->
  exists N' rec' s', recover_rlist l s rec = Ok (rec', s') /\
    N <= N' <= base + buffer_length (rbuf s) /\
    RecvInv base N' s' /\ buffer_length (rbuf s') = buffer_length (rbuf s).
Proof.
  induction l as [|r l IH]; intros N s rec HB Hl Hbase Hok Hsort; cbn [recover_rlist].
  { pose proof HB as [(? & ? & ? & ?) ? ? ? ?].
    exists N, rec, s. split; [done|]. split; [lia|]. split; [|done].
    split; rewrite ?Hl; [done|constructor..]. }
  pose proof HB as [Hwf Hsm Hn Hlen Hd]. pose proof Hwf as (HL1 & HL2 & HL3 & HL4).
  apply Forall_cons in Hok as [Hr Hok']. pose proof Hr as (Hr1 & Hr2 & Hr3 & Hr4).
  apply StronglySorted_inv in Hsort as [Hsort' Hhd].
  set (Q := abs_pos base (rs_seq r)) in *.
  pose proof (abs_pos_range base (rs_seq r)) as HQr.
  assert (rs_seq r = u32 Q) as HQ by (symmetry; by apply u32_abs_pos).
  rewrite HQ, Hn, SMALLER_OR_EQUAL_spec by lia.
  destruct (Z.leb_spec Q N) as [H|H].
  2:{ exists N, rec, s. split; [done|]. split; [lia|]. split; [|done].
      split; rewrite ?Hl; [done| |constructor; done|].
      - constructor; done.
      - constructor; [done|]. eapply Forall_impl; [exact Hhd|].
        unfold rseg_le. intros y Hy. simpl in *. fold Q in Hy. lia. }
  rewrite u32_add_l, LARGER_spec by lia.
  destruct (Z.ltb_spec N (Q + rs_len r)) as [H2|H2]; cbn [mbind outcome_bind].
  - replace (u32 (u32 (Q + rs_len r) - u32 N)) with (Q + rs_len r - N)
      by (rewrite u32_sub_l, u32_sub_r, u32_small; lia).
    destruct (consume_write_buffer_spec (rbuf s) (Q + rs_len r - N))
      as (b' & -> & Hwf' & HbL & Hbd & Hring); [done|lia|]. bind_simpl.
    match goal with |- context [recover_rlist l ?x true] => set (s1 := x) end.
    assert (BufInv base (Q + rs_len r) s1) as HB1.
    { split; simpl; [done|lia| |lia|].
      - rewrite Hn, u32_add_l. f_equal. lia.
      - rewrite Hring. eapply holds_app; [exact Hd|]. eapply holds_sub; [exact Hr4|lia|lia]. }
    destruct (IH (Q + rs_len r) s1 true HB1) as (N' & rec' & s' & E & HN' & HI & HbL');
      [done|lia| |done|].
    { eapply Forall_impl; [exact Hok'|]. intros x Hx. by eapply rseg_ok_same; [| |exact Hx]. }
    exists N', rec', s'. split; [exact E|]. simpl in HN', HbL'. rewrite HbL in *.
    split; [lia|]. done.
  - set (s1 := put_rlist l s).
    destruct (IH N s1 rec) as (N' & rec' & s' & E & HN' & HI & HbL');
      [by split|done|lia|done|done|].
    exists N', rec', s'. done.
Qed.

(** Storing a trimmed segment. *)
Lemma process_data_spec base N s seg Q f :
  RecvInv base N s -> base <= N -> SegAt Q seg -> has_flag seg FLAG_CTL = false ->
  (support_fin_ack s = true \/ shutdown s = SD_NONE) ->
  (0 < seg_len seg -> N <= Q /\ Q + seg_len seg <= base + buffer_length (rbuf s)) ->
  exists N' bNew f' s', process_data s seg f = Ok (bNew, f', s') /\
    RecvInv base N' s' /\ N <= N' /\ (bNew = true <-> N < N') /\
    (0 < seg_len seg -> Q = N -> Q + seg_len seg <= N').
Proof.
  intros HR Hbase HS Hctl Hfin HQ. pose proof HR as [HB Hok Hsort Hfut].
  pose proof HB as [Hwf Hsm Hn Hlen Hd]. pose proof Hwf as (HL1 & HL2 & HL3 & HL4).
  pose proof HS as [Hs Hsl Hss Hsd]. pose proof (zlen_ring _ Hwf) as Hring0.
  unfold process_data. rewrite Hctl.
  replace (negb (support_fin_ack s) && _) with false
    by (destruct Hfin as [-> | ->]; [done|]; simpl; by rewrite andb_false_r).
  cbn [orb].
  destruct (Z.ltb_spec 0 (seg_len seg)) as [Hpos|Hpos].
  2:{ exists N, false, f, s. split; [done|]. split; [done|]. split; [lia|]. split; [|lia].
      split; [done|lia]. }
  destruct (HQ Hpos) as [HQ1 HQ2]. rewrite Hs, Hn.
  replace (u32 (u32 Q - u32 N)) with (Q - N) by (rewrite u32_sub_l, u32_sub_r, u32_small; lia).
  destruct (write_offset_spec (rbuf s) (seg_data seg) (seg_len seg) (Q - N))
    as (b & -> & Hwfb & HbL & Hbd & Hbr & Hring); [done|lia|lia|].
  replace (Z.max 0 _) with (seg_len seg) in * by lia.
  bind_simpl. rewrite Z.eqb_refl. cbn [c_assert]. bind_simpl.
  assert (zlen (ztake (seg_len seg) (seg_data seg)) = seg_len seg) as Hzs
    by (apply zlen_ztake_le; lia).
  assert (forall i, 0 <= i < zlen (ztake (seg_len seg) (seg_data seg)) ->
    znth (ztake (seg_len seg) (seg_data seg)) i = Some (S (base + (Q - base) + i))) as Hsrc.
  { rewrite Hzs. intros i Hi. rewrite znth_ztake, (proj2 (Z.ltb_lt _ _)), Hsd by lia.
    do 2 f_equal. lia. }
  replace (data_length (rbuf s) + (Q - N)) with (Q - base) in Hring by lia.
  assert (forall lo hi, base <= lo -> holds base (ring (rbuf s)) lo hi ->
    holds base (ring b) lo hi) as Hkeep.
  { intros lo hi Hlo H. rewrite Hring. apply holds_splice; try done; lia. }
  assert (holds base (ring b) Q (Q + seg_len seg)) as Hnew.
  { rewrite Hring. pose proof (holds_splice_new base (ring (rbuf s)) (Q - base)
      (ztake (seg_len seg) (seg_data seg)) ltac:(lia) ltac:(lia) Hsrc) as H. rewrite Hzs in H.
    by replace (base + (Q - base)) with Q in H by lia. }
  assert (Forall (rseg_ok base b) (rlist s)) as Hok'.
  { eapply Forall_impl; [exact Hok|]. intros r (H1 & H2 & H3 & H4).
    do 2 (split; [done|]). split; [by rewrite HbL|]. apply Hkeep; [apply abs_pos_range|done]. }
  change (rcv_nxt (put_rbuf b s)) with (rcv_nxt s). rewrite Hn.
  assert ((u32 Q =? u32 N) = (Q =? N)) as ->.
  { destruct (Z.eqb_spec Q N) as [->|Hne]; [apply Z.eqb_refl|].
    apply Z.eqb_neq. intros E. apply Hne.
    rewrite <- (abs_pos_u32 base Q), <- (abs_pos_u32 base N) by lia. by rewrite E. }
  destruct (Z.eqb_spec Q N) as [->|Hne].
  - change (rbuf (put_rbuf b s)) with b.
    destruct (consume_write_buffer_spec b (seg_len seg))
      as (b2 & -> & Hwf2 & HbL2 & Hbd2 & Hring2); [done|lia|]. bind_simpl.
    match goal with |- context [recover_rlist _ ?x false] => set (s1 := x) end.
    change (rlist s1) with (rlist s).
    destruct (recover_rlist_spec base (rlist s) (N + seg_len seg) s1 false)
      as (N' & rec & s' & -> & HN' & HI & _); [|done|lia| |done|].
    + split; simpl; [done|lia|by rewrite Hn, u32_add_l|lia|].
      rewrite Hring2. eapply holds_app; [apply Hkeep; [lia|exact Hd]|exact Hnew].
    + eapply Forall_impl; [exact Hok'|]. intros r Hr. by eapply rseg_ok_same; [| |exact Hr].
    + bind_simpl. do 4 eexists. split; [reflexivity|]. split; [exact HI|].
      split; [lia|]. split; [split; [lia|done]|lia].
  - exists N, false, f. eexists. split; [reflexivity|]. split; [|split; [lia|split; [split; [done|lia]|lia]]].
    assert (abs_pos base (u32 Q) = Q) as HQa by (apply abs_pos_u32; lia).
    set (r := mkRSegment (u32 Q) (seg_len seg)).
    assert (rseg_ok base b r) as Hr.
    { unfold rseg_ok. simpl. rewrite HQa. split; [apply u32_range|]. split; [lia|]. split; [lia|done]. }
    destruct (rlist_insert_spec base
      (fun x => rseg_ok base b x /\ N < abs_pos base (rs_seq x)) (rlist s) r)
      as [Hs1 Hs2]; [|done| | |].
    + constructor.
      * simpl. rewrite HQa. split; [lia|apply u32_range].
      * eapply Forall_impl; [exact Hok'|]. intros x (? & ? & ? & ?). split; [lia|done].
    + apply Forall_and. done.
    + split; [done|]. simpl. lia.
    + apply Forall_and in Hs2 as [Hs2 Hs3]. split; simpl; try done.
      split; simpl; [done|lia|done|lia|]. apply Hkeep; [lia|done].
Qed.

Lemma process_receive_data base N s seg Q f :
  RecvInv base N s -> base <= N -> SegAt Q seg -> - 2 ^ 30 < Q - N < 2 ^ 30 ->
  has_flag seg FLAG_CTL = false ->
  (support_fin_ack s = true \/ shutdown s = SD_NONE) ->
  exists N' bNew f' s', process_receive s seg f = Ok (bNew, f', s') /\
    RecvInv base N' s' /\ N <= N' /\ (bNew = true <-> N < N') /\
    (Q <= N -> Z.min (Q + seg_len seg) (base + buffer_length (rbuf s)) <= N').
Proof.
  intros HR Hbase HS HQ Hctl Hfin. pose proof (ri_buf _ _ _ HR) as HB.
  unfold process_receive.
  destruct (trim_old_spec base N s seg Q HB HS HQ) as (Q1 & HS1 & HQ1 & Hp1 & Hz1 & Hc1).
  set (seg1 := trim_old s seg) in *.
  destruct (trim_space_spec base N s seg1 Q1 HB HS1 HQ1) as (HS2 & Hc2 & Hp2 & Hz2); [lia|].
  set (seg2 := trim_space s seg1) in *.
  pose proof (sa_len _ _ HS1). pose proof (sa_len _ _ HS2). pose proof (sa_len _ _ HS).
  pose proof HB as [(? & ? & ? & ?) ? ? ? ?].
  destruct (process_data_spec base N s seg2 Q1 f) as (N' & bNew & f' & s' & E & HI & HN & Hb & Hp);
    [done|done|done|congruence|done|lia|].
  exists N', bNew, f', s'. do 4 (split; [done|]). intros HQN.
  destruct (decide (seg_len seg2 = 0)) as [Hz|Hz]; [|lia].
  destruct (Hz2 Hz) as [Hz'|Hz']; [destruct (Hz1 Hz'); lia|].
  destruct (decide (seg_len seg1 = 0)) as [Hz3|Hz3]; [destruct (Hz1 Hz3); lia|lia].
Qed.

(** An empty segment stores nothing. *)
Lemma process_receive_empty s seg f :
  seg_len seg = 0 -> process_receive s seg f = Ok (false, f, s).
Proof.
  intros H. unfold process_receive.
  assert (seg_len (trim_old s seg) = 0) as H1.
  { unfold trim_old. destruct (SMALLER _ _); [|done].
    rewrite (proj2 (Z.ltb_ge _ _)); [done|]. rewrite H. apply u32_range. }
  assert (seg_len (trim_space s (trim_old s seg)) = 0) as H2.
  { unfold trim_space. destruct (_ <? _); [|done].
    rewrite (proj2 (Z.ltb_ge _ _)); [done|]. rewrite H1. apply u32_range. }
  unfold process_data. by rewrite H2.
Qed.

(** A segment without data, or with data of the stream near [N]. *)
Definition carries (N Q : Z) (seg : Segment) : Prop :=
  seg_len seg = 0 \/ (SegAt Q seg /\ - 2 ^ 30 < Q - N < 2 ^ 30).

Lemma process_receive_spec base N s seg Q f :
  RecvInv base N s -> base <= N -> carries N Q seg ->
  has_flag seg FLAG_CTL = false ->
  (support_fin_ack s = true \/ shutdown s = SD_NONE) ->
  exists N' bNew f' s', process_receive s seg f = Ok (bNew, f', s') /\
    RecvInv base N' s' /\ N <= N' /\ (bNew = true <-> N < N') /\
    (Q <= N -> Z.min (Q + seg_len seg) (base + buffer_length (rbuf s)) <= N').
Proof.
  intros HR Hb [Hz|[HS HQ]] Hc Hf; [|by apply process_receive_data].
  exists N, false, f, s. rewrite process_receive_empty by done.
  split; [done|]. split; [done|]. split; [lia|]. split; [split; [done|lia]|lia].
Qed.

(** The invariant speaks of the received data only. *)
Lemma RecvInv_view base N s s' : RecvView s' = RecvView s -> RecvInv base N s -> RecvInv base N s'.
Proof.
  intros [= H1 H2 H3 _] [[? ? ? ? ?] ? ? ?].
  split; [split|..]; rewrite ?H1, ?H2, ?H3; done.
Qed.

Lemma RecvInv_same base N s s' : same_recv s s' -> RecvInv base N s -> RecvInv base N s'.
Proof.
  intros (H1 & H2 & H3 & _ & H4). apply RecvInv_view. unfold RecvView. congruence.
Qed.

(** The bytes [lo .. lo + n) of the stream. *)
Definition stream_slice (lo n : Z) : bytes := S <$> seqZ lo n.

Lemma zlen_slice lo n : 0 <= n -> zlen (stream_slice lo n) = n.
Proof. intros. unfold stream_slice, zlen. rewrite length_fmap, length_seqZ. lia. Qed.

Lemma stream_slice_app lo m n : 0 <= m -> 0 <= n ->
  stream_slice lo m ++ stream_slice (lo + m) n = stream_slice lo (m + n).
Proof. intros. unfold stream_slice. rewrite <- fmap_app, <- seqZ_app by lia. done. Qed.

Lemma holds_slice base cells lo n :
  base <= lo -> 0 <= n -> lo - base + n <= zlen cells ->
  holds base cells lo (lo + n) -> ztake n (zdrop (lo - base) cells) = stream_slice lo n.
Proof.
  intros Hb Hn Hl H. apply list_eq_znth.
  - rewrite zlen_ztake_le by (rewrite zlen_zdrop_le; lia).
    unfold stream_slice, zlen. rewrite length_fmap, length_seqZ. lia.
  - rewrite zlen_ztake_le by (rewrite zlen_zdrop_le; lia). intros i Hi.
    rewrite znth_ztake, (proj2 (Z.ltb_lt _ _)), znth_zdrop by lia.
    replace (lo - base + i) with (lo + i - base) by lia. rewrite H by lia.
    unfold znth, stream_slice. rewrite (proj2 (Z.ltb_ge _ _)) by lia.
    rewrite list_lookup_fmap, lookup_seqZ_lt by lia. simpl. do 2 f_equal. lia.
Qed.

(** Reading moves [base] and keeps the rest of the stream in place. *)
Lemma fifo_read_spec base N s n :
  RecvInv base N s -> base <= N -> 0 <= n < 2 ^ 64 ->
  let k := Z.min n (N - base) in
  exists b, pseudo_tcp_fifo_read (rbuf s) n = Ok (k, stream_slice base k, b) /\
    RecvInv (base + k) N (put_rbuf b s).
Proof.
  intros [HB Hok Hsort Hfut] Hbase Hn k. pose proof HB as [Hwf Hsm Hnx Hlen Hd].
  pose proof Hwf as (HL1 & HL2 & HL3 & HL4). pose proof (zlen_ring _ Hwf) as Hzr.
  unfold pseudo_tcp_fifo_read. rewrite read_offset_spec by (done || lia).
  rewrite zdrop_0, Z.sub_0_r. bind_simpl.
  replace (Z.max _ _) with k by lia. rewrite u64_small by lia.
  destruct (advance_spec (rbuf s) k) as [Hwf' _]; [done|lia|].
  eexists. split.
  { do 3 f_equal. rewrite <- (holds_slice base (ring (rbuf s))).
    - rewrite Z.sub_diag, zdrop_0. unfold contents, ztake. rewrite take_take. f_equal. lia.
    - lia.
    - lia.
    - lia.
    - eapply holds_sub; [exact Hd|lia|lia]. }
  set (b' := set_counters _ _ _) in *.
  assert (ring b' = zdrop k (ring (rbuf s)) ++ ztake k (ring (rbuf s))) as Hr
    by (apply ring_rotate; [done|lia]).
  assert (forall lo hi, base + k <= lo -> hi <= base + buffer_length (rbuf s) ->
    holds base (ring (rbuf s)) lo hi -> holds (base + k) (ring b') lo hi) as Hkeep.
  { intros lo hi Hlo Hhi H i Hi. rewrite Hr, znth_app, zlen_zdrop_le, (proj2 (Z.ltb_lt _ _)) by lia.
    rewrite znth_zdrop by lia. replace (k + (i - (base + k))) with (i - base) by lia.
    apply H. lia. }
  assert (forall r, rseg_ok base (rbuf s) r -> N < abs_pos base (rs_seq r) ->
    abs_pos (base + k) (rs_seq r) = abs_pos base (rs_seq r)) as Habs.
  { intros r (H1 & ? & ? & ?) ?. rewrite <- (u32_abs_pos base (rs_seq r) H1) at 1.
    apply abs_pos_u32. pose proof (abs_pos_range base (rs_seq r)). lia. }
  assert (Forall (fun r => rseg_ok base (rbuf s) r /\ N < abs_pos base (rs_seq r)) (rlist s)) as Hall
    by (by apply Forall_and).
  split; simpl.
  - split; simpl; [done|done|done|lia|]. apply Hkeep; [lia|lia|].
    eapply holds_sub; [exact Hd|lia|lia].
  - eapply Forall_impl; [exact Hall|]. intros r [Hr1 Hr2]. pose proof Hr1 as (? & ? & ? & ?).
    unfold rseg_ok. rewrite Habs by done. simpl.
    do 2 (split; [done|]). split; [lia|]. apply Hkeep; [lia|lia|done].
  - clear -Hsort Hall Habs. induction Hsort as [|r l Hs IH Hhd]; [constructor|].
    apply Forall_cons in Hall as [[H1 H2] Hl]. constructor; [by apply IH|].
    eapply Forall_impl; [apply Forall_and; split; [exact Hhd|exact Hl]|].
    intros x [Hx [Hx1 Hx2]]. unfold rseg_le in *. rewrite !Habs by done. done.
  - eapply Forall_impl; [exact Hall|]. intros r [Hr1 Hr2]. by rewrite Habs.
Qed.

End Stream.
End Receive.
