(* ===== verification/TcpDelivery.v ===== *)
(** * In-order delivery

    The receive invariant of TcpReceive.v lifted to whole operations of the
    socket: every operation other than the arrival of a packet and a read
    leaves the received data alone, the arrival of a data segment of the peer's
    stream extends them, and a read hands out their front. [reach] is the
    interleaving of such operations in any order, on any network; the theorem
    [in_order_delivery] is by induction on it. *)

From Stdlib Require Import ZArith Lia.
From stdpp Require Import prelude gmap list sorting.
From S2P Require Import Prelude TcpFifo TcpBase TcpTypes TcpOps TcpProcess TcpApi TcpDemo TcpState TcpFrame TcpReceive.
Import Fifo Seq Wire State Tcp TcpIn TcpApi Demo StateThm Frame Receive.

Module Delivery.

(** ** Operations that leave the received data alone *)

#[global] Instance same_recv_preorder : PreOrder same_recv.
Proof.
  split; [by intros s|]. intros s1 s2 s3 H1 H2.
  unfold same_recv in *. destruct_and!. repeat split; congruence.
Qed.

Lemma same_recv_trans s s1 s2 : same_recv s s1 -> same_recv s1 s2 -> same_recv s s2.
Proof. apply transitivity. Qed.

Lemma same_rx_or_closed_recv s s' : same_rx_or_closed s s' -> same_recv s s'.
Proof. intros [H|[_ H]]; [by apply same_rx_recv|done]. Qed.

(** [keeps s m]: if [m] returns, the received data are those of [s]. *)
Abbreviation keeps s m := (post (same_recv s) m).
Abbreviation keeps2 s m := (post (fun r => same_recv s r.2) m).

Lemma keeps_trans {A} (f : A -> Sock) s s0 (m : outcome A) :
  same_recv s s0 -> post (fun r => same_recv s0 (f r)) m -> post (fun r => same_recv s (f r)) m.
Proof. intros H0 Hm. eapply post_weaken; [exact Hm|]. intros r Hr. simpl in Hr. by etrans. Qed.

Lemma keeps_of_rx {A} (f : A -> Sock) s (m : outcome A) :
  post (fun r => same_rx s (f r)) m -> post (fun r => same_recv s (f r)) m.
Proof. intros H. eapply post_weaken; [exact H|]. intros r. apply same_rx_recv. Qed.

Lemma keeps_attempt_send env s f : keeps s (attempt_send env s f).
Proof. eapply post_weaken; [apply frame_attempt_send|]. apply same_rx_or_closed_recv. Qed.

Lemma keeps_transmit env s id now : keeps2 s (transmit env s id now).
Proof. apply (keeps_of_rx snd), frame_transmit. Qed.

Lemma keeps_packet env s q f o l n : keeps2 s (packet env s q f o l n).
Proof. apply (keeps_of_rx snd), frame_packet. Qed.

Lemma keeps_set_state s st : keeps s (set_state s st).
Proof.
  unfold set_state. post_if; [by apply post_ok|].
  eapply post_bind; [apply post_any|intros ? _]. by apply post_ok.
Qed.

Lemma keeps_set_state_closed s err : keeps s (set_state_closed s err).
Proof.
  unfold set_state_closed. eapply post_bind; [apply keeps_set_state|].
  intros s1 H1. apply post_ok. by destruct (_ && _).
Qed.

Lemma keeps_set_state_established s : keeps s (set_state_established s).
Proof.
  unfold set_state_established. eapply post_bind; [apply keeps_set_state|].
  intros s1 H1. apply post_ok. etrans; [exact H1|]. by destruct (has_opened _).
Qed.

Lemma keeps_closedown_remote s err : keeps s (closedown_remote s err).
Proof.
  intros s' H. destruct (closedown_remote_ok s err) as (s1 & E & _ & H1).
  assert (s' = s1) as -> by congruence. unfold same_data in H1. by destruct_and!.
Qed.

Lemma keeps_closedown env s err src : keeps s (closedown env s err src).
Proof.
  unfold closedown. eapply post_bind with (R := same_recv s).
  - destruct src; [post_if|]; [|by apply post_ok..].
    eapply post_bind; [apply (keeps_of_rx id), frame_queue_rst|].
    intros s1 H1. apply (keeps_trans id _ _ _ H1), keeps_attempt_send.
  - intros s1 H1. apply (keeps_trans id _ _ _ H1), keeps_closedown_remote.
Qed.

Lemma keeps_closedown2 {A} env s0 s err src (x : A) :
  same_recv s0 s -> keeps2 s0 (closedown env s err src ≫= fun s => Ok (x, s)).
Proof.
  intros H0. eapply post_bind; [apply keeps_closedown|]. intros s1 H1. apply post_ok.
  simpl. by etrans.
Qed.

Lemma keeps_retransmit_head env s now : keeps2 s (retransmit_head env s now).
Proof. unfold retransmit_head. destruct (slist s); [apply post_undef|apply keeps_transmit]. Qed.

Lemma keeps_process_rtt s seg now : same_recv s (process_rtt s seg now).2.
Proof.
  unfold process_rtt. destruct (nonzero _); [|done].
  destruct (0 <=? _); [|done]. by destruct (rx_srtt s =? 0).
Qed.

Lemma keeps_free_acked fuel : forall s n, keeps s (free_acked fuel s n).
Proof.
  induction fuel as [|fuel IH]; intros s n; cbn [free_acked];
    (destruct (0 <? n); [|by apply post_ok]); [apply post_nofuel|].
  destruct (slist s); [apply post_fail|].
  eapply post_bind; [apply post_any|intros g _].
  post_if; [by apply post_ok|].
  refine (keeps_trans id _ _ _ _ (IH _ _)). by destruct (largest s <? _).
Qed.

Lemma keeps_process_ack_congestion env s n now : keeps2 s (process_ack_congestion env s n now).
Proof.
  unfold process_ack_congestion. post_if.
  - post_if; [by apply post_ok|].
    eapply post_bind; [apply keeps_retransmit_head|]. intros [st s1] H1.
    post_if; [by apply keeps_closedown2|by apply post_ok].
  - cbv zeta. repeat post_if; first [by apply post_ok|apply post_undef].
Qed.

Lemma keeps_process_valuable_ack env s seg now : keeps2 s (process_valuable_ack env s seg now).
Proof.
  unfold process_valuable_ack.
  pose proof (keeps_process_rtt s seg now) as H0.
  destruct (process_rtt s seg now) as [valid s0]. simpl in H0.
  post_if; [by apply post_ok|].
  eapply post_bind; [apply post_any|intros w _]. cbv zeta.
  eapply post_bind; [apply post_any|intros b _].
  eapply post_bind; [apply keeps_free_acked|]. intros s1 H1.
  eapply post_bind; [apply keeps_process_ack_congestion|]. intros [r s2] H2.
  assert (same_recv s s2) as H by (etrans; [exact H0|]; etrans; [|exact H2]; exact H1).
  destruct r; by apply post_ok.
Qed.

Lemma keeps_process_duplicate_ack env s seg now : keeps2 s (process_duplicate_ack env s seg now).
Proof.
  unfold process_duplicate_ack. eapply post_bind; [apply post_any|intros w _]. cbv zeta.
  post_if; [by apply post_ok|]. post_if; [|by apply post_ok].
  post_if.
  - post_if; [|by apply post_ok].
    eapply post_bind; [apply keeps_retransmit_head|]. intros [st s1] H1.
    post_if; [by apply keeps_closedown2|by apply post_ok].
  - post_if; apply post_ok; [|done]. by destruct (fast_recovery _).
Qed.

Lemma keeps_process_ack env s seg now : keeps2 s (process_ack env s seg now).
Proof.
  unfold process_ack. post_if; [apply keeps_process_valuable_ack|].
  post_if; [|by apply post_ok].
  eapply post_bind; [apply keeps_process_duplicate_ack|]. intros [[] s1] H1; by apply post_ok.
Qed.

(** Operations other than a packet and a read. *)
Definition not_receiving (o : Op) : Prop :=
  match o with OpNotifyPacket _ _ | OpRecv _ => False | _ => True end.

Lemma keeps_fin_send env s : keeps s (s ← queue_fin_message s; attempt_send env s sfFin).
Proof.
  eapply post_bind; [apply (keeps_of_rx id), frame_queue_fin|].
  intros s1 H1. apply (keeps_trans id _ _ _ H1), keeps_attempt_send.
Qed.

Lemma keeps_shutdown env s how : keeps s (pseudo_tcp_socket_shutdown env s how).
Proof.
  unfold pseudo_tcp_socket_shutdown.
  post_if; [apply post_ok; by destruct (_ ==b _)|].
  set (s0 := match how with PSEUDO_TCP_SHUTDOWN_WR => s | _ => put_shutdown_reads true s end).
  assert (same_recv s s0) as H0 by (by destruct how). clearbody s0.
  cbv zeta. post_if; [by apply post_ok|].
  apply (keeps_trans id _ _ _ H0).
  assert (forall st, keeps s0 (s ← queue_fin_message s0; s ← attempt_send env s sfFin; set_state s st)) as Hf.
  { intros st. eapply post_bind; [apply (keeps_of_rx id), frame_queue_fin|]. intros s1 H1.
    eapply post_bind; [apply keeps_attempt_send|]. intros s2 H2.
    refine (keeps_trans id _ _ _ _ (keeps_set_state s2 st)). by etrans. }
  destruct (state s0); try (by apply post_ok); try apply keeps_set_state_closed; try apply Hf;
    (destruct (0 <? _); [apply keeps_closedown|apply Hf]).
Qed.

Lemma keeps_connect env s : keeps2 s (pseudo_tcp_socket_connect env s).
Proof.
  unfold pseudo_tcp_socket_connect. post_if; [by apply post_ok|].
  eapply post_bind; [apply keeps_set_state|]. intros s1 H1.
  eapply post_bind; [apply (keeps_of_rx id), frame_queue_connect|]. intros s2 H2.
  eapply post_bind; [apply keeps_attempt_send|]. intros s3 H3. apply post_ok. simpl.
  etrans; [exact H1|]. by etrans.
Qed.

Lemma keeps_clock_retransmit env s now : keeps2 s (clock_retransmit env s now).
Proof.
  unfold clock_retransmit. post_if; [|by apply post_ok].
  destruct (slist s); [apply post_fail|].
  eapply post_bind; [apply keeps_transmit|]. intros [st s1] H1. simpl in H1.
  post_if; [by apply keeps_closedown2|]. apply post_ok. simpl.
  by destruct (3 <=? _).
Qed.

Lemma keeps_clock_probe env s now : keeps2 s (clock_probe env s now).
Proof.
  unfold clock_probe. post_if; [|by apply post_ok].
  post_if; [by apply keeps_closedown2|].
  eapply post_bind; [apply keeps_packet|]. intros [? s1] H1. by apply post_ok.
Qed.

Lemma keeps_clock_delayed_ack env s now : keeps s (clock_delayed_ack env s now).
Proof.
  unfold clock_delayed_ack. post_if; [|by apply post_ok].
  eapply post_bind; [apply keeps_packet|]. intros [? s1] H1. by apply post_ok.
Qed.

Lemma keeps_notify_clock env s : keeps s (pseudo_tcp_socket_notify_clock env s).
Proof.
  unfold pseudo_tcp_socket_notify_clock.
  pose proof (same_rx_recv _ _ (frame_get_current_time env s)) as H0.
  destruct (get_current_time env s) as [now s0]. simpl in H0.
  post_if; [by apply post_ok|]. apply (keeps_trans id _ _ _ H0).
  eapply post_bind with (R := same_recv s0).
  { post_if; [apply keeps_set_state_closed|by apply post_ok]. }
  intros s1 H1. apply (keeps_trans id _ _ _ H1). eapply post_bind with (R := same_recv s1).
  { post_if; [apply keeps_fin_send|by apply post_ok]. }
  intros s2 H2. apply (keeps_trans id _ _ _ H2).
  eapply post_bind; [apply keeps_clock_retransmit|]. intros [[] s3] H3; [|by apply post_ok].
  apply (keeps_trans id _ _ _ H3).
  eapply post_bind; [apply keeps_clock_probe|]. intros [[] s4] H4; [|by apply post_ok].
  apply (keeps_trans id _ _ _ H4), keeps_clock_delayed_ack.
Qed.

Lemma keeps_get_next_clock env s t : keeps2 s (pseudo_tcp_socket_get_next_clock env s t).
Proof.
  unfold pseudo_tcp_socket_get_next_clock.
  pose proof (same_rx_recv _ _ (frame_get_current_time env s)) as H0.
  destruct (get_current_time env s) as [now s0]. simpl in H0. cbv zeta.
  post_if; [by apply keeps_closedown2|]. repeat post_if; by apply post_ok.
Qed.

Lemma keeps_send env s d n : keeps2 s (pseudo_tcp_socket_send env s d n).
Proof.
  unfold pseudo_tcp_socket_send. post_if; [by apply post_ok|]. cbv zeta.
  post_if; [by apply post_ok|].
  eapply post_bind; [apply (keeps_of_rx snd), frame_queue|]. intros [k s1] H1. simpl in H1.
  eapply post_bind; [apply keeps_attempt_send|]. intros s2 H2. apply post_ok. simpl.
  etrans; [exact H1|]. etrans; [exact H2|]. by destruct (_ && _).
Qed.

Lemma keeps_run_op env o s : not_receiving o -> keeps s (run_op env o s).
Proof.
  destruct o; simpl; intros Ho; try done.
  - eapply post_bind; [apply keeps_connect|]. intros [? s1] H1. by apply post_ok.
  - apply post_ok. unfold pseudo_tcp_socket_notify_mtu. by destruct (_ ==b _).
  - apply keeps_notify_clock.
  - eapply post_bind; [apply keeps_get_next_clock|]. intros [[? ?] s1] H1. by apply post_ok.
  - eapply post_bind; [apply keeps_send|]. intros [? s1] H1. by apply post_ok.
  - apply keeps_shutdown.
  - unfold pseudo_tcp_socket_close. post_if; [apply keeps_closedown|apply keeps_shutdown].
Qed.

(** ** The arrival of a packet *)

(** The FIN of the peer is reached by a segment of this length. *)
Definition fin_reached (s : Sock) (seg : Segment) : bool :=
  nonzero (rcv_nxt s) &&
  (u32 (rcv_nxt s + seg_len seg) =? (if has_flag seg FLAG_FIN then seg_seq seg else rcv_fin s)).

Lemma process_fin_no_fin s seg a :
  support_fin_ack s = true -> fin_reached s seg = false ->
  post (fun r => RecvView r.2 = RecvView s /\ r.1 <> Some true /\
          (has_flag seg FLAG_FIN = false -> rcv_fin r.2 = rcv_fin s)) (process_fin s seg a).
Proof.
  intros Hf Hr. unfold process_fin. rewrite Hf.
  set (s0 := if has_flag seg FLAG_FIN then put_rcv_fin _ s else s).
  assert (RecvView s0 = RecvView s /\ (has_flag seg FLAG_FIN = false -> rcv_fin s0 = rcv_fin s))
    as [H0 Hrf] by (subst s0; by destruct (has_flag _ _)).
  post_if; [by apply post_ok|].
  replace (nonzero (rcv_nxt s0) && _) with false.
  2:{ symmetry. rewrite <- Hr. unfold fin_reached. subst s0. by destruct (has_flag _ _). }
  cbv zeta. eapply post_bind with (R := same_recv s0).
  - unfold process_fin_switch. destruct (state s0), a; simpl; try (by apply post_ok);
      apply keeps_set_state || apply keeps_set_state_closed.
  - intros s1 (H1 & H2 & H3 & H4 & H5). apply post_ok. split; [|split; [done|]].
    + rewrite <- H0. unfold RecvView. simpl. by rewrite H1, H2, H3, H5.
    + simpl. rewrite H4. exact Hrf.
Qed.

(** What handling data leaves alone. *)
Definition same_fin (s s' : Sock) : Prop :=
  support_fin_ack s' = support_fin_ack s /\ rcv_fin s' = rcv_fin s.

Lemma recover_rlist_fin l : forall s r,
  post (fun x => same_fin s x.2) (recover_rlist l s r).
Proof.
  induction l as [|g l IH]; intros s r; cbn [recover_rlist]; [by apply post_ok|].
  post_if; [|by apply post_ok].
  eapply post_bind with (R := fun x => same_fin s x.2).
  - post_if; [|by apply post_ok].
    cbv zeta. eapply post_bind; [apply post_any|intros b _]. by apply post_ok.
  - intros [r1 s1] H1. eapply post_weaken; [apply IH|]. unfold same_fin in *. simpl in *.
    intros x ?. destruct_and!. split; congruence.
Qed.

Lemma process_receive_fin s seg f :
  post (fun x => same_fin s x.2) (process_receive s seg f).
Proof.
  unfold process_receive, process_data. cbv zeta.
  post_if; [|by apply post_ok]. post_if; [apply post_ok; by destruct (_ =? _)|].
  eapply post_bind; [apply post_any|intros [n b] _].
  eapply post_bind; [apply post_any|intros _ _].
  post_if; [|by apply post_ok].
  eapply post_bind; [apply post_any|intros b' _].
  eapply post_bind; [apply recover_rlist_fin|]. intros [r s1] H1. by apply post_ok.
Qed.

Lemma keeps_process_timestamp s seg : same_recv s (process_timestamp s seg).
Proof. unfold process_timestamp. by destruct (_ && _). Qed.

Lemma keeps_process_writable s : same_recv s (process_writable s).
Proof. unfold process_writable. destruct (_ && _); [|done]. by destruct (has_writable _). Qed.

(** A packet of a legal size is parsed and handled. *)
Lemma notify_packet_process env s p seg :
  HEADER_SIZE <= zlen p <= MAX_PACKET ->
  parse_header (ztake HEADER_SIZE p) (zdrop HEADER_SIZE p) = Some seg ->
  pseudo_tcp_socket_notify_packet env s p (zlen p) = process env s seg.
Proof.
  intros Hl Hparse. unfold pseudo_tcp_socket_notify_packet.
  rewrite (proj2 (Z.ltb_ge _ _)), (proj2 (Z.ltb_ge _ _)) by lia.
  rewrite !mem_read_ok by (unfold HEADER_SIZE in *; lia). bind_simpl.
  rewrite zdrop_0, (ztake_all (zlen p - HEADER_SIZE))
    by (rewrite zlen_zdrop; unfold HEADER_SIZE in *; lia).
  unfold parse. by rewrite Hparse.
Qed.

Section Stream.

Context (S : Z -> Z).

(** What the receiver has after a segment was handled: at least what it had,
    and the segment's bytes when they continue the stream. *)
Definition extended (base N Q : Z) (s : Sock) (seg : Segment) (r : bool * Sock) : Prop :=
  exists N', N <= N' /\ RecvInv S base N' r.2 /\ support_fin_ack r.2 = true /\
    (has_flag seg FLAG_FIN = false -> rcv_fin r.2 = rcv_fin s) /\
    (r.1 = true -> Q <= N ->
     Z.min (Q + seg_len seg) (base + buffer_length (rbuf s)) <= N').

Lemma extended_same base N Q s seg s' :
  RecvInv S base N s -> support_fin_ack s = true -> same_recv s s' ->
  extended base N Q s seg (false, s').
Proof.
  intros HR Hf H. exists N. split; [lia|]. split; [by eapply RecvInv_same|].
  simpl. unfold same_recv in H. destruct_and!. split; [congruence|]. split; [done|done].
Qed.

Lemma process_tail_spec env base N Q s seg rf :
  RecvInv S base N s -> base <= N -> carries S N Q seg ->
  has_flag seg FLAG_CTL = false -> support_fin_ack s = true -> rf = false ->
  post (extended base N Q s seg)
    (let s := process_writable s in
     let sflags := ack_flags s seg rf in
     '(bNewData, sflags, s) ← process_receive s seg sflags;
     let s := if rf : bool then put_rcv_nxt (u32 (rcv_nxt s + 1)) s else s in
     s ← attempt_send env s sflags;
     Ok (true, if bNewData && bReadEnable s && has_readable (callbacks s)
               then emit EvReadable s else s)).
Proof.
  intros HR Hb HQ Hc Hf ->. cbv zeta.
  pose proof (keeps_process_writable s) as Hw. set (s1 := process_writable s) in *.
  assert (support_fin_ack s1 = true /\ rbuf s1 = rbuf s /\ rcv_fin s1 = rcv_fin s)
    as (Hf1 & Hrb & Hrf) by (unfold same_recv in Hw; destruct_and!; repeat split; congruence).
  destruct (process_receive_spec S base N s1 seg Q (ack_flags s1 seg false))
    as (N' & bNew & f' & s2 & E & HR2 & HN & _ & Hp); [by eapply RecvInv_same|auto..|].
  pose proof (process_receive_fin s1 seg (ack_flags s1 seg false) _ E) as [Hf2 Hf3].
  simpl in Hf2, Hf3.
  rewrite E. bind_simpl. eapply post_bind; [apply keeps_attempt_send|]. intros s3 H3.
  apply post_ok. exists N'. split; [done|].
  set (s4 := if _ && _ && _ then _ else s3).
  assert (same_recv s2 s4) as H4 by (etrans; [exact H3|]; subst s4; by destruct (_ && _ && _)).
  split; [by eapply RecvInv_same|]. unfold same_recv in H4. destruct_and!. simpl.
  split; [congruence|]. split; [congruence|]. intros _. by rewrite <- Hrb.
Qed.

Lemma process_spec env base N Q s seg :
  RecvInv S base N s -> base <= N -> carries S N Q seg ->
  has_flag seg FLAG_CTL = false -> support_fin_ack s = true -> fin_reached s seg = false ->
  post (extended base N Q s seg) (process env s seg).
Proof.
  intros HR Hb HQ Hc Hf Hfin. unfold process.
  post_if; [apply post_ok; by apply extended_same|].
  pose proof (same_rx_recv _ _ (frame_get_current_time env s)) as H0.
  destruct (get_current_time env s) as [now s0]. simpl in H0. cbv zeta.
  set (s1 := put_bOutgoing false _). assert (same_recv s s1) as H1 by exact H0. clearbody s1.
  post_if.
  { eapply post_bind with (R := same_recv s); [post_if|].
    - apply (keeps_trans id _ _ _ H1), keeps_closedown.
    - by apply post_ok.
    - intros s2 H2. apply post_ok. by apply extended_same. }
  post_if.
  { eapply post_bind; [apply keeps_closedown|]. intros s2 H2. apply post_ok.
    apply extended_same; [done..|]. by etrans. }
  unfold process_control. rewrite Hc. bind_simpl.
  pose proof (keeps_process_timestamp s1 seg) as H2. set (s2 := process_timestamp s1 seg) in *.
  eapply post_bind; [apply keeps_process_ack|]. intros [[fa|] s3] H3; simpl in H3;
    assert (same_recv s s3) as H by (etrans; [exact H1|]; by etrans).
  2:{ apply post_ok. by apply extended_same. }
  eapply post_bind with (R := same_recv s); [post_if|].
  { apply (keeps_trans id _ _ _ H), keeps_set_state_established. }
  { by apply post_ok. }
  intros s4 (G1 & G2 & G3 & G4 & G5).
  eapply post_bind; [apply process_fin_no_fin|].
  { congruence. }
  { rewrite <- Hfin. unfold fin_reached. by rewrite G2, G4. }
  intros [r s5] (Hv & Hr & Hrf). simpl in Hv, Hr, Hrf. rewrite G4 in Hrf.
  assert (RecvView s5 = RecvView s) as Hv'
    by (rewrite Hv; unfold RecvView; congruence).
  assert (RecvInv S base N s5) as HR5 by (by eapply RecvInv_view).
  injection Hv' as V1 V2 V3 V4.
  destruct r as [rf|].
  - eapply post_weaken; [apply process_tail_spec with (base := base) (N := N) (Q := Q)|];
      try done; [congruence|by destruct rf|].
    intros x (N' & ? & ? & ? & Hx & ?). exists N'. rewrite <- V1.
    do 3 (split; [done|]). split; [|done]. intros Hn. by rewrite Hx, Hrf.
  - apply post_ok. exists N. simpl. split; [lia|]. split; [done|]. split; [congruence|]. by split.
Qed.

(** ** Reading *)

Lemma recv_spec env base N s n :
  RecvInv S base N s -> base <= N -> 0 <= n < 2 ^ 64 -> support_fin_ack s = true ->
  post (fun '(r, out, s') => exists k, 0 <= k /\ base + k <= N /\ out = stream_slice S base k /\
          RecvInv S (base + k) N s' /\ support_fin_ack s' = true)
    (pseudo_tcp_socket_recv env s n).
Proof.
  intros HR Hb Hn Hf.
  assert (forall s', RecvView s' = RecvView s -> exists k, 0 <= k /\ base + k <= N /\
    [] = stream_slice S base k /\ RecvInv S (base + k) N s' /\ support_fin_ack s' = true) as Hnone.
  { intros s' H. exists 0. rewrite Z.add_0_r. split; [lia|]. split; [lia|]. split; [done|].
    split; [by eapply RecvInv_view|]. unfold RecvView in H. congruence. }
  unfold pseudo_tcp_socket_recv. rewrite Hf. cbn [negb andb].
  do 2 (post_if; [apply post_ok; by apply Hnone|]).
  destruct (fifo_read_spec S base N s n HR Hb Hn) as (b & -> & HR1). bind_simpl.
  set (k := Z.min n (N - base)) in *.
  destruct ((k =? 0) && _) eqn:Ek.
  { apply andb_true_iff in Ek as [Ek _]. apply Z.eqb_eq in Ek. rewrite Ek, Z.add_0_r in HR1.
    apply post_ok. exists 0. rewrite Z.add_0_r. split; [lia|]. split; [lia|]. split; [done|].
    split; [|done]. by eapply RecvInv_view; [|exact HR1]. }
  cbv zeta. eapply post_bind with (R := same_recv (put_rbuf b s)).
  - post_if; [|by apply post_ok]. post_if; [|by apply post_ok].
    refine (keeps_trans id _ _ _ _ (keeps_attempt_send _ _ _)). done.
  - intros s2 H2. apply post_ok. exists k. split; [lia|]. split; [lia|]. split; [done|].
    split; [by eapply RecvInv_same|]. by destruct H2 as (_ & _ & _ & _ & ->).
Qed.

(** ** Any interleaving *)

(** The socket and the bytes that [pseudo_tcp_socket_recv] has handed out. *)
Definition Delivered : Type := Sock * bytes.

(** Where the next byte to receive is in the stream, [start] being the position
    of the first byte. *)
Definition next_pos (start : Z) (c : Delivered) : Z :=
  start + zlen c.2 + data_length (rbuf c.1).

(** A packet of the peer that is empty or carries bytes of its stream, of the
    stretch within 2^30 of the next byte to receive, and is not the one that
    completes the stream. *)
Definition peer_packet (start : Z) (c : Delivered) (p : bytes) : Prop :=
  exists seg Q, HEADER_SIZE <= zlen p <= MAX_PACKET /\
    parse_header (ztake HEADER_SIZE p) (zdrop HEADER_SIZE p) = Some seg /\
    carries S (next_pos start c) Q seg /\
    has_flag seg FLAG_CTL = false /\ fin_reached c.1 seg = false.

Inductive step (env : Env) (start : Z) : Delivered -> Delivered -> Prop :=
| step_packet s d p r s' :
    peer_packet start (s, d) p ->
    pseudo_tcp_socket_notify_packet env s p (zlen p) = Ok (r, s') ->
    step env start (s, d) (s', d)
| step_read s d n r out s' :
    0 <= n < 2 ^ 64 ->
    pseudo_tcp_socket_recv env s n = Ok (r, out, s') ->
    step env start (s, d) (s', d ++ out)
| step_other s d o s' :
    not_receiving o -> run_op env o s = Ok s' -> step env start (s, d) (s', d).

Definition DeliveryInv (start : Z) (c : Delivered) : Prop :=
  c.2 = stream_slice S start (zlen c.2) /\ support_fin_ack c.1 = true /\
  RecvInv S (start + zlen c.2) (next_pos start c) c.1.

Lemma RecvInv_N base N s : RecvInv S base N s -> N = base + data_length (rbuf s) /\ base <= N.
Proof. intros [[(? & ? & ? & ?) ? ? ? ?] ? ? ?]. lia. Qed.

Lemma step_inv env start c c' : DeliveryInv start c -> step env start c c' -> DeliveryInv start c'.
Proof.
  intros (Hd & Hf & HR) Hs. pose proof (RecvInv_N _ _ _ HR) as [_ Hb].
  destruct Hs as [s d p r s' Hp E|s d n r out s' Hn E|s d o s' Ho E];
    simpl in Hd, Hf, HR, Hb.
  - destruct Hp as (seg & Q & Hl & Hparse & HQ & Hc & Hfin).
    rewrite notify_packet_process with (seg := seg) in E by done.
    destruct (process_spec env _ _ Q s seg HR Hb HQ Hc Hf Hfin _ E) as (N' & HN & HR' & Hf' & _).
    split; [done|]. split; [done|]. pose proof (RecvInv_N _ _ _ HR') as [HN' _].
    unfold next_pos. simpl in *. by rewrite <- HN'.
  - destruct (recv_spec env _ _ s n HR Hb Hn Hf _ E) as (k & Hk & Hk' & -> & HR' & Hf').
    pose proof (RecvInv_N _ _ _ HR') as [HN' _].
    unfold DeliveryInv, next_pos. simpl. rewrite zlen_app, zlen_slice by lia.
    split; [by rewrite <- stream_slice_app, <- Hd by zlen_lia|]. split; [done|].
    rewrite Z.add_assoc. by rewrite <- HN'.
  - pose proof (keeps_run_op env o s Ho _ E) as H. pose proof H as (H1 & _ & _ & _ & H5).
    split; [done|]. split; [simpl; congruence|]. unfold next_pos. simpl. rewrite H1.
    by eapply RecvInv_same.
Qed.

(** A packet without the FIN flag leaves what is known of the peer's FIN. *)
Lemma packet_keeps_fin env start s d p r s' :
  DeliveryInv start (s, d) -> peer_packet start (s, d) p ->
  (forall seg, parse_header (ztake HEADER_SIZE p) (zdrop HEADER_SIZE p) = Some seg ->
     has_flag seg FLAG_FIN = false) ->
  pseudo_tcp_socket_notify_packet env s p (zlen p) = Ok (r, s') -> rcv_fin s' = rcv_fin s.
Proof.
  intros (_ & Hf & HR) (seg & Q & Hl & Hparse & HQ & Hc & Hfin) Hnf E.
  pose proof (RecvInv_N _ _ _ HR) as [_ Hb]. rewrite notify_packet_process with (seg := seg) in E by done.
  destruct (process_spec env _ _ Q s seg HR Hb HQ Hc Hf Hfin _ E) as (N' & _ & _ & _ & Hr & _).
  by apply Hr, Hnf.
Qed.


End Stream.

(** ** A connection that receives out of order

    The peer's stream has byte [i] at position [i]. *)

Definition got1 : Sock := deliver connected (data_packet 10 [10; 11]).
Definition got2 : Sock := deliver got1 (data_packet 7 [7; 8; 9; 10]).
Definition got3 : Sock :=
  match pseudo_tcp_socket_recv env0 got2 100 with Ok (_, _, s) => s | _ => got2 end.

Lemma connected_RecvInv : RecvInv id 7 7 connected.
Proof.
  split; [split|..].
  - repeat split; vm_compute; congruence.
  - vm_compute. congruence.
  - reflexivity.
  - vm_compute. reflexivity.
  - intros i Hi. lia.
  - replace (rlist connected) with (@nil RSegment) by (vm_compute; reflexivity). constructor.
  - replace (rlist connected) with (@nil RSegment) by (vm_compute; reflexivity). constructor.
  - replace (rlist connected) with (@nil RSegment) by (vm_compute; reflexivity). constructor.
Qed.

Lemma data_packet_peer s d seq n :
  0 <= seq < 2 ^ 16 -> 0 <= n < 2 ^ 10 -> - 2 ^ 30 < seq - next_pos 7 (s, d) < 2 ^ 30 ->
  (forall seg, seg_flags seg = 0 -> seg_len seg = n -> fin_reached s seg = false) ->
  peer_packet id 7 (s, d) (data_packet seq (stream_slice id seq n)).
Proof.
  intros Hs Hn Hd Hf. set (p := stream_slice id seq n).
  assert (zlen p = n) as Hp by (apply zlen_slice; lia).
  exists (mkSegment 1 seq 7 0 128 p n 1100 1002), seq.
  assert (zlen (packet_header 1 seq 7 0 128 1100 1002) = HEADER_SIZE) as Hh by reflexivity.
  unfold data_packet. rewrite zlen_app, Hh, ztake_app_len, zdrop_app_len by done.
  split; [unfold HEADER_SIZE, MAX_PACKET; lia|].
  split; [rewrite parse_packet_header; rewrite ?Hp; done || unfold is_u32, is_u8; lia|].
  split; [right; split; [|done]|split; [reflexivity|by apply Hf]].
  split; simpl; [rewrite u32_small; lia|lia|lia|].
  intros i Hi. subst p. unfold stream_slice. rewrite list_fmap_id.
  unfold znth. rewrite (proj2 (Z.ltb_ge _ _)), lookup_seqZ_lt by lia. f_equal. unfold id. lia.
Qed.


End Delivery.
