(* ===== verification/TcpSend.v ===== *)
(** * The sending half: packets carry the bytes that were written

    The bytes a socket has to send are an unbounded stream [S : Z -> Z]. The
    invariant [SInv lo X s] says that the send buffer holds exactly the bytes
    of the stream from the oldest unacknowledged one to position [X], the end
    of what was written, and that every data packet written so far carries a
    slice of the stream at the position its sequence number says. Every
    operation preserves it, whatever the peer acknowledges and the network
    answers: segmentation, retransmission and a falling packet size never make
    a packet carry the wrong bytes. *)

From Stdlib Require Import ZArith Lia.
From stdpp Require Import prelude gmap list.
From S2P Require Import Prelude TcpFifo TcpBase TcpTypes TcpOps TcpProcess TcpApi TcpDemo TcpState TcpFrame TcpReceive.
Import Fifo Seq Wire State Tcp TcpIn TcpApi Demo StateThm Frame Receive.

Module Send.

(** Reading back what [be32] stores gives the low 32 bits. *)
Lemma be32_u32 x : be32 (u32 x) = be32 x.
Proof.
  unfold be32, u32. assert (forall n, 0 <= n <= 24 ->
    Z.land (Z.shiftr (x mod 2 ^ 32) n) 255 = Z.land (Z.shiftr x n) 255) as H.
  { intros n Hn. apply Z.bits_inj'. intros i Hi. rewrite !testbit_land_ff by lia.
    destruct (Z.ltb_spec i 8); [|by rewrite !andb_false_r]. rewrite !andb_true_r.
    rewrite !Z.shiftr_spec, Z.mod_pow2_bits_low by lia. done. }
  pose proof (H 0 ltac:(lia)) as H0. rewrite !Z.shiftr_0_r in H0.
  by rewrite H0, !H by lia.
Qed.

Lemma u16_low x : be16 (u16 x) = be16 x.
Proof.
  unfold be16, u16. assert (forall n, 0 <= n <= 8 ->
    Z.land (Z.shiftr (x mod 2 ^ 16) n) 255 = Z.land (Z.shiftr x n) 255) as H.
  { intros n Hn. apply Z.bits_inj'. intros i Hi. rewrite !testbit_land_ff by lia.
    destruct (Z.ltb_spec i 8); [|by rewrite !andb_false_r]. rewrite !andb_true_r.
    rewrite !Z.shiftr_spec, Z.mod_pow2_bits_low by lia. done. }
  pose proof (H 0 ltac:(lia)) as H0. rewrite !Z.shiftr_0_r in H0.
  by rewrite H0, !H by lia.
Qed.

Lemma u8_u8 x : u8 (u8 x) = u8 x.
Proof. unfold u8. rewrite Z.mod_mod; lia. Qed.

(** Parsing what [packet] wrote, without assumptions on the fields. *)
Lemma parse_packet_header_any c seq ack flags wnd now ts data :
  zlen data < 2 ^ 32 ->
  parse_header (packet_header c seq ack flags wnd now ts) data =
    Some (mkSegment (u32 c) (u32 seq) (u32 ack) (u8 flags) (u16 wnd) data (zlen data)
            (u32 now) (u32 ts)).
Proof.
  intros Hd. rewrite <- (parse_packet_header (u32 c) (u32 seq) (u32 ack) (u8 flags) (u16 wnd)
    (u32 now) (u32 ts) data); try apply u32_range; try done.
  - unfold packet_header. by rewrite !be32_u32, u16_low, u8_u8.
  - unfold is_u8, u8. apply Z.mod_pos_bound. lia.
  - unfold u16. apply Z.mod_pos_bound. lia.
Qed.

(** A read that returns the count it was asked for was in range. *)
Lemma read_offset_exact b n o c out :
  fifo_wf b -> 0 <= o < 2 ^ 32 -> pseudo_tcp_fifo_read_offset b n o = Ok (c, out) ->
  c = n -> n <> 0 -> 0 < n <= data_length b - o.
Proof.
  intros (Hl & HL & HD & HR) Ho E -> Hn. revert E. unfold pseudo_tcp_fifo_read_offset.
  rewrite (proj2 (Z.eqb_neq _ _)) by lia.
  destruct (Z.leb_spec (data_length b) o); [congruence|].
  rewrite (u64_small (data_length b - o)) by lia. intros E.
  apply bind_ok in E as (o1 & E1 & E). apply bind_ok in E as (o2 & E2 & E).
  injection E as E _. split; [|lia].
  destruct (decide (0 < n)); [done|exfalso].
  revert E1. unfold mem_read.
  replace (0 <=? Z.min _ _) with false by (symmetry; apply Z.leb_gt; lia).
  by rewrite andb_false_r.
Qed.

Section Stream.

Context (S : Z -> Z) (lo : Z).

(** A packet that is not a control message and has a payload carries the
    stream, between [lo] and [X]. *)
Definition pkt_ok (X : Z) (p : bytes) : Prop :=
  forall seg, parse_header (ztake HEADER_SIZE p) (zdrop HEADER_SIZE p) = Some seg ->
    has_flag seg FLAG_CTL = false -> HEADER_SIZE <= zlen p <= MAX_PACKET /\
    (seg_len seg = 0 \/
     exists Q, SegAt S Q seg /\ lo <= Q /\ Q + seg_len seg <= X).

Definition ev_ok (X : Z) (e : Event) : Prop :=
  match e with EvPacket p => pkt_ok X p | _ => True end.

Record SBuf (U X : Z) (b : PseudoTcpFifo) (una : Z) : Prop := {
  sb_lo : lo <= U;
  sb_una : u32 una = u32 U;
  sb_wf : fifo_wf b;
  sb_small : buffer_length b <= 2 ^ 30;
  sb_len : U + data_length b = X;
  sb_data : contents b = stream_slice S U (data_length b);
}.

Definition SInv (X : Z) (s : Sock) : Prop :=
  (exists U, SBuf U X (sbuf s) (snd_una s)) /\ Forall (ev_ok X) (events s).

Lemma pkt_ok_mono X X' p : X <= X' -> pkt_ok X p -> pkt_ok X' p.
Proof.
  intros HX H seg Hs Hc. destruct (H seg Hs Hc) as [H1 [H2|(Q & ? & ? & ?)]]; split; auto.
  right. exists Q. split; [done|lia].
Qed.

Lemma ev_ok_mono X X' l : X <= X' -> Forall (ev_ok X) l -> Forall (ev_ok X') l.
Proof.
  intros HX H. eapply Forall_impl; [exact H|]. intros [] He; try done. by eapply pkt_ok_mono.
Qed.

(** The invariant reads three fields. *)
Lemma SInv_view X s s' :
  sbuf s' = sbuf s -> snd_una s' = snd_una s -> events s' = events s -> SInv X s -> SInv X s'.
Proof.
  unfold SInv. by intros -> -> ->.
Qed.

Lemma SInv_emit X e s : ev_ok X e -> SInv X s -> SInv X (emit e s).
Proof. intros He [Hb Hl]. split; [exact Hb|]. by constructor. Qed.

(** Slices of the stream, cell by cell. *)
Lemma znth_slice a n i : 0 <= i < n -> znth (stream_slice S a n) i = Some (S (a + i)).
Proof.
  intros Hi. unfold znth, stream_slice. rewrite (proj2 (Z.ltb_ge _ _)) by lia.
  rewrite list_lookup_fmap, lookup_seqZ_lt by lia. simpl. do 2 f_equal. lia.
Qed.

Lemma slice_slice a n k m : 0 <= k -> 0 <= m -> k + m <= n ->
  ztake m (zdrop k (stream_slice S a n)) = stream_slice S (a + k) m.
Proof.
  intros. apply list_eq_znth.
  - rewrite zlen_slice by lia. rewrite zlen_ztake_le; [done|].
    rewrite zlen_zdrop_le; rewrite zlen_slice; lia.
  - rewrite zlen_ztake_le by (rewrite zlen_zdrop_le; rewrite zlen_slice; lia).
    intros i Hi. rewrite znth_ztake, (proj2 (Z.ltb_lt _ _)), znth_zdrop, !znth_slice by lia.
    do 2 f_equal. lia.
Qed.

Lemma zdrop_slice a n k : 0 <= k <= n ->
  zdrop k (stream_slice S a n) = stream_slice S (a + k) (n - k).
Proof.
  intros. rewrite <- (slice_slice a n k (n - k)) by lia.
  symmetry. apply ztake_all. rewrite zlen_zdrop_le; rewrite zlen_slice; lia.
Qed.

(** ** Packets *)

Lemma send_packet env X s seq flags len now :
  SInv X s ->
  post (fun r => SInv X r.2) (packet env s seq flags (u32 (seq - snd_una s)) len now).
Proof.
  intros HI. unfold packet. eapply post_bind; [apply post_assert|]. intros [] Hmax.
  apply Z.leb_le in Hmax. unfold HEADER_SIZE in Hmax at 1. unfold MAX_PACKET in Hmax.
  pose proof HI as [(U & [Hlo Hu Hwf Hsm Hl Hd]) _].
  set (header := packet_header _ _ _ _ _ _ _).
  assert (zlen header = HEADER_SIZE) as Hh by reflexivity.
  eapply post_bind with (R := fun p => zlen p = len /\ 0 <= len <= 65508 /\
    (0 < len -> exists Q, u32 Q = u32 seq /\ lo <= Q /\ Q + len <= X /\ p = stream_slice S Q len)).
  { unfold nonzero. destruct (Z.eqb_spec len 0) as [->|Hne]; simpl.
    { apply post_ok. split; [done|]. split; lia. }
    pose proof Hwf as (? & ? & ? & ?). pose proof (u32_range (seq - snd_una s)) as Ho.
    eapply post_bind with (R := fun r => r.1 = len -> 0 < len /\
      u32 (seq - snd_una s) + len <= data_length (sbuf s) /\
      r.2 = stream_slice S (U + u32 (seq - snd_una s)) len).
    { intros [c out] E Hc. simpl in Hc.
      change (sbuf (put_ts_lastack (rcv_nxt s) s)) with (sbuf s) in E.
      destruct (read_offset_exact _ _ _ _ _ Hwf Ho E Hc Hne) as [Hn1 Hn2].
      rewrite read_offset_spec in E by (done || lia).
      replace (Z.max _ _) with len in E by lia. injection E as _ <-.
      split; [lia|]. split; [lia|]. simpl. rewrite Hd, slice_slice by lia. done. }
    intros [c out] HR. simpl in HR. bind_simpl.
    eapply post_bind; [apply post_assert|]. intros [] Hc. apply Z.eqb_eq in Hc.
    destruct (HR Hc) as (HR1 & HR2 & ->). rewrite u32_small in Hmax by lia.
    apply post_ok. split; [apply zlen_slice; lia|]. split; [lia|].
    intros _. exists (U + u32 (seq - snd_una s)). split; [|split; [lia|split; [lia|done]]].
    rewrite u32_add_r. rewrite <- u32_add_l, <- Hu, u32_add_l. f_equal. lia. }
  intros p (Hp & Hpl & Hps).
  assert (pkt_ok X (header ++ p)) as Hok.
  { intros seg Hseg _. rewrite zlen_app, Hh, Hp. split; [unfold HEADER_SIZE, MAX_PACKET in *; lia|].
    rewrite ztake_app_len, zdrop_app_len in Hseg by done.
    unfold header in Hseg. rewrite parse_packet_header_any in Hseg by lia.
    injection Hseg as <-. simpl. destruct (decide (len = 0)) as [->|Hne]; [by left|right].
    destruct Hps as (Q & HQ & Hlo' & HX & ->); [lia|]. exists Q. rewrite Hp. split; [|lia].
    split; simpl; [done|lia|lia|]. intros i Hi. by apply znth_slice. }
  cbv zeta. set (s1 := put_npkts _ _).
  assert (SInv X s1) as H1.
  { apply SInv_view with (s := emit (EvPacket (header ++ p)) s); try done. by apply SInv_emit. }
  destruct (_ && _); apply post_ok; [exact H1|]. by destruct (0 <? len).
Qed.

(** An empty packet: acknowledgements and probes. *)
Lemma send_ack env X s seq now :
  SInv X s -> post (fun r => SInv X r.2) (packet env s seq 0 0 0 now).
Proof.
  intros HI. pose proof (send_packet env X s seq 0 0 now HI) as H.
  unfold packet in *. exact H.
Qed.

(** ** Transmission *)

Lemma send_lower_mss fuel X : forall s n,
  SInv X s -> post (fun r => SInv X r.2) (lower_mss fuel s n).
Proof.
  induction fuel as [|fuel IH]; intros s n HI; cbn [lower_mss]; [apply post_nofuel|].
  destruct (znth _ _); [|apply post_undef]. destruct (_ =? 0); [by apply post_ok|].
  destruct (_ <? n); [by apply post_ok|]. by apply IH.
Qed.

Lemma send_transmit_loop fuel env X : forall s id n now,
  SInv X s -> post (fun r => SInv X r.2) (transmit_loop fuel env s id n now).
Proof.
  induction fuel as [|fuel IH]; intros s id n now HI; cbn [transmit_loop]; [apply post_nofuel|].
  eapply post_bind; [apply post_any|intros g _].
  eapply post_bind; [apply post_any|intros ? _].
  eapply post_bind; [by apply send_packet|].
  intros [[] s1] H1; simpl in H1; [by apply post_ok| |by apply post_ok].
  eapply post_bind; [by apply send_lower_mss|]. intros [[] s2] H2; simpl in H2; [by apply post_ok|].
  by apply IH.
Qed.

Lemma send_transmit_sent X s id n now : SInv X s -> post (SInv X) (transmit_sent s id n now).
Proof.
  intros HI. unfold transmit_sent, seg_new. simpl.
  eapply post_bind; [apply post_any|intros g _].
  eapply post_bind with (R := SInv X).
  { destruct (_ <? _); apply post_ok; [|done]. by destruct (_ =? 0). }
  intros s1 H1. eapply post_bind; [apply post_any|intros g' _].
  eapply post_bind with (R := SInv X).
  { destruct (_ =? 0); [|by apply post_ok].
    eapply post_bind; [apply post_any|intros ? _]. apply post_ok. by destruct (_ && _). }
  intros s2 H2. apply post_ok. by destruct (_ =? 0).
Qed.

Lemma send_transmit env X s id now :
  SInv X s -> post (fun r => SInv X r.2) (transmit env s id now).
Proof.
  intros HI. unfold transmit. eapply post_bind; [apply post_any|intros g _].
  destruct (_ <=? _); [by apply post_ok|].
  eapply post_bind; [by apply send_transmit_loop|]. intros [[] s1] H1; simpl in H1.
  - by apply post_ok.
  - eapply post_bind; [by apply send_transmit_sent|]. intros s2 H2. by apply post_ok.
Qed.

(** ** Changes of state *)

Lemma send_set_state X s st : SInv X s -> post (SInv X) (set_state s st).
Proof.
  intros HI. unfold set_state. post_if; [by apply post_ok|].
  eapply post_bind; [apply post_any|intros ? _]. by apply post_ok.
Qed.

Lemma send_set_state_closed X s err : SInv X s -> post (SInv X) (set_state_closed s err).
Proof.
  intros HI. unfold set_state_closed. eapply post_bind; [by apply send_set_state|].
  intros s1 H1. apply post_ok. destruct (_ && _); [|done]. by apply SInv_emit.
Qed.

Lemma send_set_state_established X s : SInv X s -> post (SInv X) (set_state_established s).
Proof.
  intros HI. unfold set_state_established. eapply post_bind; [by apply send_set_state|].
  intros s1 H1. apply post_ok. destruct (has_opened _); [|done]. by apply SInv_emit.
Qed.

Lemma send_closedown_remote X s err : SInv X s -> post (SInv X) (closedown_remote s err).
Proof.
  intros HI. unfold closedown_remote. eapply post_bind with (R := SInv X).
  - unfold closedown_switch. destruct (state s); try (by apply post_ok);
      repeat (eapply post_bind; [by apply send_set_state|intros ? ?]); by apply send_set_state.
  - intros s1 H1. by apply send_set_state_closed.
Qed.

Lemma send_attempt_send_loop fuel env X : forall s f now,
  SInv X s -> post (SInv X) (attempt_send_loop fuel env s f now).
Proof.
  induction fuel as [|fuel IH]; intros s f now HI; cbn [attempt_send_loop]; [apply post_nofuel|].
  destruct (f ==b sfDuplicateAck).
  { eapply post_bind; [by apply send_ack|]. intros [? s1] H1. by apply IH. }
  destruct (_ && _).
  { destruct (f ==b sfNone); [by apply post_ok|].
    destruct (_ || _); [|by apply post_ok].
    eapply post_bind; [by apply send_ack|]. intros [? s1] H1. by apply post_ok. }
  destruct (_ && _); [by apply post_ok|].
  destruct (unsent_slist s) as [|id ?]; [by apply post_ok|].
  eapply post_bind; [apply post_any|intros g _].
  eapply post_bind; [apply send_transmit; by destruct (_ && _)|]. intros [st s1] H1; simpl in H1.
  destruct (nonzero st); [by apply send_closedown_remote|by apply IH].
Qed.

Lemma send_attempt_send env X s f : SInv X s -> post (SInv X) (attempt_send env s f).
Proof.
  intros HI. unfold attempt_send, get_current_time.
  destruct (nonzero _); apply send_attempt_send_loop; by destruct (_ <? _).
Qed.

(** ** Queueing *)

(** [queue] appends what the buffer has room for. *)
Lemma send_queue X s d len flags :
  SInv X s -> 0 <= len <= zlen d -> len < 2 ^ 32 ->
  post (fun r => 0 <= r.1 <= len /\
          (ztake r.1 d = stream_slice S X r.1 -> SInv (X + r.1) r.2)) (queue s d len flags).
Proof.
  intros HI Hl Hl32. unfold queue, seg_new. cbv zeta. simpl snd. simpl fst.
  pose proof HI as [(U & [Hlo Hu Hwf Hsm HX Hd]) He]. pose proof Hwf as (? & ? & ? & ?).
  unfold pseudo_tcp_fifo_get_write_remaining. rewrite u64_small by lia.
  set (n := Z.min len (buffer_length (sbuf s) - data_length (sbuf s))).
  eapply post_bind with (R := fun k => k = n).
  { post_if.
    - apply Z.ltb_lt in E. eapply post_bind; [apply post_any|intros ? _].
      apply post_ok. rewrite u32_small; lia.
    - apply Z.ltb_ge in E. apply post_ok. lia. }
  intros ? ->.
  eapply post_bind with (R := fun s' => sbuf s' = sbuf s /\ snd_una s' = snd_una s /\ events s' = events s).
  { destruct (last _); [|by apply post_ok].
    eapply post_bind; [apply post_any|intros g _]. by destruct (_ && _); apply post_ok. }
  intros s1 (G1 & G2 & G3). rewrite G1.
  destruct (write_spec (sbuf s) d n) as (b & -> & Hwf' & HL & Hbd & Hc); [done|lia|].
  replace (Z.min n _) with n in * by lia. bind_simpl. apply post_ok. simpl.
  rewrite u32_small by lia. split; [lia|]. intros Hs. split; simpl; [exists U|].
  - rewrite G2. split; [done|done|done|lia|lia|].
    rewrite Hbd, Hc, Hd, Hs. replace X with (U + data_length (sbuf s)) by lia.
    apply stream_slice_app; lia.
  - rewrite G3. eapply ev_ok_mono; [|exact He]. lia.
Qed.

(** Queueing an empty control segment. *)
Lemma send_queue_empty X s flags :
  SInv X s -> post (fun r => SInv X r.2) (queue s [] 0 flags).
Proof.
  intros HI. eapply post_weaken; [apply (send_queue X); [done|done|lia]|].
  intros [n s1] [Hn H]. simpl in *. assert (n = 0) as -> by lia.
  rewrite Z.add_0_r in H. by apply H.
Qed.

Lemma send_queue_fin X s : SInv X s -> post (SInv X) (queue_fin_message s).
Proof.
  intros HI. unfold queue_fin_message. eapply post_bind; [apply post_any|intros ? _].
  eapply post_bind; [by apply send_queue_empty|]. intros [? s1] H1. by apply post_ok.
Qed.

Lemma send_queue_rst X s : SInv X s -> post (SInv X) (queue_rst_message s).
Proof.
  intros HI. unfold queue_rst_message. eapply post_bind; [apply post_any|intros ? _].
  eapply post_bind; [by apply send_queue_empty|]. intros [? s1] H1. by apply post_ok.
Qed.

Lemma send_closedown env X s err src : SInv X s -> post (SInv X) (closedown env s err src).
Proof.
  intros HI. unfold closedown. eapply post_bind with (R := SInv X).
  - destruct src; [post_if|]; [|by apply post_ok..].
    eapply post_bind; [by apply send_queue_rst|]. intros s1 H1. by apply send_attempt_send.
  - intros s1 H1. by apply send_closedown_remote.
Qed.

Lemma send_closedown2 {A} env X s err src (x : A) :
  SInv X s -> post (fun r => SInv X r.2) (closedown env s err src ≫= fun s => Ok (x, s)).
Proof.
  intros HI. eapply post_bind; [by apply send_closedown|]. intros s1 H1. by apply post_ok.
Qed.

(** ** Segments from the peer *)

(** The invariant together with a connection that has not sent its FIN. *)
Definition open_inv (X : Z) (s : Sock) : Prop :=
  SInv X s /\ state s <> TCP_LISTEN /\ pseudo_tcp_state_has_sent_fin (state s) = false.

Lemma send_apply_option X s k d l :
  open_inv X s -> post (open_inv X) (apply_option s k d l).
Proof.
  intros HI. unfold apply_option. post_if; [by apply post_ok|]. post_if.
  - post_if; [by apply post_ok|]. destruct d; [apply post_undef|by apply post_ok].
  - post_if; by apply post_ok.
Qed.

Lemma send_parse_options_loop fuel X d l : forall pos w f s,
  open_inv X s -> post (fun r => open_inv X r.2) (parse_options_loop fuel d l pos w f s).
Proof.
  induction fuel as [|fuel IH]; intros pos w f s HI; cbn [parse_options_loop];
    (post_if; [|by apply post_ok]); [apply post_nofuel|].
  post_if; [by apply post_ok|]. destruct (znth _ _); [|apply post_undef]. cbv zeta.
  post_if; [by apply post_ok|]. post_if; [by apply IH|]. post_if; [by apply post_ok|].
  destruct (znth _ _); [|apply post_undef]. post_if; [by apply post_ok|].
  post_if; [|by apply post_ok].
  eapply post_bind; [by apply send_apply_option|]. intros s1 H1. by apply IH.
Qed.

Lemma send_resize_receive env X s n :
  open_inv X s -> post (open_inv X) (resize_receive_buffer env s n).
Proof.
  intros HI. unfold resize_receive_buffer. post_if; [by apply post_ok|].
  eapply post_bind; [apply post_any|intros [? ?] _].
  eapply post_bind; [apply post_any|intros [? ?] _].
  eapply post_bind; [apply post_any|intros ? _]. by apply post_ok.
Qed.

Lemma send_parse_options env X s d l :
  open_inv X s -> post (open_inv X) (parse_options env s d l).
Proof.
  intros HI. unfold parse_options. eapply post_bind; [by apply send_parse_options_loop|].
  intros [[[w f]|] s1] H1; [|by apply post_ok].
  eapply post_bind with (R := open_inv X).
  - post_if; [|by apply post_ok]. post_if; [|by apply post_ok].
    eapply post_bind; [by apply send_resize_receive|]. intros s2 H2. by apply post_ok.
  - intros s2 H2. apply post_ok. by destruct (negb f).
Qed.

Lemma established_ok s :
  post (fun s' => state s' = TCP_ESTABLISHED) (set_state_established s).
Proof.
  unfold set_state_established. eapply post_bind with (R := fun s' => state s' = TCP_ESTABLISHED).
  - unfold set_state. case_bool_decide; [by apply post_ok|].
    eapply post_bind; [apply post_any|intros ? _]. by apply post_ok.
  - intros s1 H1. apply post_ok. by destruct (has_opened _).
Qed.

Lemma post_and {A} (P Q : A -> Prop) m : post P m -> post Q m -> post (fun a => P a /\ Q a) m.
Proof. intros HP HQ a Ha. auto. Qed.

Lemma send_process_control env X s seg :
  open_inv X s -> post (fun r => open_inv X r.2) (process_control env s seg).
Proof.
  intros HI. unfold process_control. post_if; [|by apply post_ok].
  post_if; [by apply post_ok|]. destruct (seg_data seg); [apply post_undef|].
  post_if; [|by apply post_ok].
  eapply post_bind; [by apply send_parse_options|]. intros s1 Ho.
  pose proof Ho as (H1 & H2 & _). eapply post_bind with (R := open_inv X).
  - destruct (state s1) eqn:Es; try (apply post_ok; exact Ho); [done|].
    eapply post_weaken; [apply post_and; [by apply send_set_state_established|apply established_ok]|].
    intros s2 [? E2]. split; [done|]. by rewrite E2.
  - intros s2 H. by apply post_ok.
Qed.

Lemma send_process_timestamp X s seg : open_inv X s -> open_inv X (process_timestamp s seg).
Proof. intros H. unfold process_timestamp. destruct (_ && _); exact H. Qed.

Lemma send_retransmit_head env X s now :
  SInv X s -> post (fun r => SInv X r.2) (retransmit_head env s now).
Proof. intros. unfold retransmit_head. destruct (slist s); [apply post_undef|by apply send_transmit]. Qed.

Lemma send_free_acked fuel X : forall s n, SInv X s -> post (SInv X) (free_acked fuel s n).
Proof.
  induction fuel as [|fuel IH]; intros s n HI; cbn [free_acked];
    (destruct (0 <? n); [|by apply post_ok]); [apply post_nofuel|].
  destruct (slist s); [apply post_fail|].
  eapply post_bind; [apply post_any|intros g _].
  post_if; [by apply post_ok|]. apply IH. by destruct (largest s <? _).
Qed.

Lemma send_process_ack_congestion env X s n now :
  SInv X s -> post (fun r => SInv X r.2) (process_ack_congestion env s n now).
Proof.
  intros HI. unfold process_ack_congestion. post_if.
  - post_if; [by apply post_ok|].
    eapply post_bind; [by apply send_retransmit_head|]. intros [st s1] H1.
    post_if; [by apply send_closedown2|by apply post_ok].
  - cbv zeta. repeat post_if; first [by apply post_ok|apply post_undef].
Qed.

(** An acknowledgement frees exactly the bytes it covers. *)
Lemma send_process_valuable_ack env X s seg now :
  open_inv X s -> post (fun r => SInv X r.2) (process_valuable_ack env s seg now).
Proof.
  intros (HI & _ & Hf). unfold process_valuable_ack.
  assert (SInv X (process_rtt s seg now).2 /\
    state (process_rtt s seg now).2 = state s /\ snd_una (process_rtt s seg now).2 = snd_una s)
    as (H0 & Hst & _).
  { unfold process_rtt. destruct (nonzero _); [|done].
    destruct (0 <=? _); [|done]. by destruct (rx_srtt s =? 0). }
  destruct (process_rtt s seg now) as [valid s0]. simpl in H0, Hst.
  post_if; [by apply post_ok|].
  eapply post_bind; [apply post_any|intros w _]. cbv zeta.
  match goal with |- context [pseudo_tcp_state_has_sent_fin ?st] => change st with (state s0) end.
  rewrite Hst, Hf, andb_false_r.
  change (snd_una (put_snd_wnd w s0)) with (snd_una s0).
  destruct H0 as [(U & [Hlo Hu Hwf Hsm HX Hd]) He].
  set (n := u32 (seg_ack seg - snd_una s0)). pose proof (u32_range (seg_ack seg - snd_una s0)) as Hn.
  fold n in Hn.
  eapply post_bind with (R := fun b => SBuf (U + n) X b (seg_ack seg)).
  { intros b Eb.
    change (pseudo_tcp_fifo_consume_read_data (sbuf s0) n = Ok b) in Eb. assert (n <= data_length (sbuf s0)) as Hle.
    { clear -Eb. unfold pseudo_tcp_fifo_consume_read_data in Eb. apply bind_ok in Eb as (? & Ea & _).
      destruct (Z.leb_spec n (data_length (sbuf s0))); done. }
    destruct (consume_read_data_spec (sbuf s0) n) as (b' & E' & Hwf' & HL & Hbd & Hc); [done|lia|].
    assert (b = b') as -> by congruence.
    split; [lia| |done|lia|lia|].
    - subst n. rewrite u32_add_r. rewrite <- u32_add_l, <- Hu, u32_add_l. f_equal. lia.
    - rewrite Hc, Hd, Hbd. destruct Hwf as (? & ? & ? & ?). apply zdrop_slice. lia. }
  intros b Hb.
  eapply post_bind; [apply (send_free_acked _ X); split; [by exists (U + n)|done]|]. intros s1 H1.
  eapply post_bind; [by apply send_process_ack_congestion|]. intros [r s2] H2.
  destruct r; by apply post_ok.
Qed.

Lemma send_process_duplicate_ack env X s seg now :
  SInv X s -> post (fun r => SInv X r.2) (process_duplicate_ack env s seg now).
Proof.
  intros HI. unfold process_duplicate_ack. eapply post_bind; [apply post_any|intros w _]. cbv zeta.
  post_if; [by apply post_ok|]. post_if; [|by apply post_ok].
  post_if.
  - post_if; [|by apply post_ok].
    eapply post_bind; [by apply send_retransmit_head|]. intros [st s1] H1.
    post_if; [by apply send_closedown2|by apply post_ok].
  - post_if; apply post_ok; [|done]. by destruct (fast_recovery _).
Qed.

Lemma send_process_ack env X s seg now :
  open_inv X s -> post (fun r => SInv X r.2) (process_ack env s seg now).
Proof.
  intros HI. unfold process_ack. post_if; [by apply send_process_valuable_ack|].
  destruct HI as [HI _]. post_if; [|by apply post_ok].
  eapply post_bind; [by apply send_process_duplicate_ack|]. intros [[] s1] H1; by apply post_ok.
Qed.

Lemma send_process_fin X s seg a :
  SInv X s -> post (fun r => SInv X r.2) (process_fin s seg a).
Proof.
  intros HI. unfold process_fin. post_if; [|by apply post_ok]. cbv zeta.
  set (s0 := if has_flag seg FLAG_FIN then _ else s).
  assert (SInv X s0) as H0 by (subst s0; by destruct (has_flag _ _)). clearbody s0.
  post_if; [by apply post_ok|]. eapply post_bind with (R := SInv X).
  - unfold process_fin_switch. destruct (state s0); repeat post_if;
      first [by apply post_ok|by apply send_set_state|by apply send_set_state_closed].
  - intros s1 H1. by apply post_ok.
Qed.

Lemma send_recover_rlist X l : forall s r,
  SInv X s -> post (fun x => SInv X x.2) (recover_rlist l s r).
Proof.
  induction l as [|g l IH]; intros s r HI; cbn [recover_rlist]; [by apply post_ok|].
  post_if; [|by apply post_ok]. eapply post_bind with (R := fun x => SInv X x.2).
  - post_if; [|by apply post_ok]. cbv zeta.
    eapply post_bind; [apply post_any|intros b _]. by apply post_ok.
  - intros [r1 s1] H1. by apply IH.
Qed.

Lemma send_process_receive X s seg f :
  SInv X s -> post (fun x => SInv X x.2) (process_receive s seg f).
Proof.
  intros HI. unfold process_receive, process_data. cbv zeta.
  post_if; [|by apply post_ok]. post_if; [apply post_ok; by destruct (_ =? _)|].
  eapply post_bind; [apply post_any|intros [n b] _].
  eapply post_bind; [apply post_any|intros ? _]. post_if; [|by apply post_ok].
  eapply post_bind; [apply post_any|intros b' _].
  eapply post_bind; [by apply send_recover_rlist|]. intros [r s1] H1. by apply post_ok.
Qed.

Lemma send_process_writable X s : SInv X s -> SInv X (process_writable s).
Proof.
  intros HI. unfold process_writable. destruct (_ && _); [|done].
  destruct (has_writable _); [|done]. by apply SInv_emit.
Qed.

(** The socket may handle a packet: it is closed, or past LISTEN and its FIN
    not yet sent. *)
Definition may_process (s : Sock) : Prop :=
  state s = TCP_CLOSED \/
  (state s <> TCP_LISTEN /\ pseudo_tcp_state_has_sent_fin (state s) = false).

Lemma send_process env X s seg :
  SInv X s -> may_process s -> post (fun r => SInv X r.2) (process env s seg).
Proof.
  intros HI Hs. unfold process. post_if; [by apply post_ok|].
  assert (SInv X (get_current_time env s).2 /\ state (get_current_time env s).2 = state s)
    as [H0 Hst] by (unfold get_current_time; by destruct (nonzero _)).
  destruct (get_current_time env s) as [now s0]. simpl in H0, Hst. cbv zeta.
  set (s1 := put_bOutgoing false _).
  assert (SInv X s1 /\ state s1 = state s) as [H1 Hst1] by done. clearbody s1.
  destruct (_ || _) eqn:Ec.
  { eapply post_bind with (R := SInv X); [post_if; [by apply send_closedown|by apply post_ok]|].
    intros s2 H2. by apply post_ok. }
  post_if.
  { eapply post_bind; [by apply send_closedown|]. intros s2 H2. by apply post_ok. }
  assert (open_inv X s1) as Ho.
  { split; [done|]. rewrite Hst1. destruct Hs as [Hs|Hs]; [|done].
    rewrite bool_decide_true in Ec by congruence. done. }
  eapply post_bind; [by apply send_process_control|]. intros [[bc|] s2] H2; simpl in H2;
    [|apply post_ok; apply H2].
  assert (open_inv X (process_timestamp s2 seg)) as H2' by (by apply send_process_timestamp).
  eapply post_bind; [by apply send_process_ack|]. intros [[fa|] s3] H3; simpl in H3; [|by apply post_ok].
  eapply post_bind with (R := SInv X).
  { post_if; [by apply send_set_state_established|by apply post_ok]. }
  intros s4 H4. eapply post_bind; [by apply send_process_fin|].
  intros [[rf|] s5] H5; simpl in H5; [|by apply post_ok].
  eapply post_bind; [apply (send_process_receive X); by apply send_process_writable|].
  intros [[bn f] s6] H6. simpl in H6.
  eapply post_bind; [apply (send_attempt_send _ X); by destruct rf|]. intros s7 H7.
  apply post_ok. simpl. destruct (_ && _ && _); [|done]. by apply SInv_emit.
Qed.

(** ** The public operations *)

Lemma send_clock_retransmit env X s now :
  SInv X s -> post (fun r => SInv X r.2) (clock_retransmit env s now).
Proof.
  intros HI. unfold clock_retransmit. post_if; [|by apply post_ok].
  destruct (slist s); [apply post_fail|].
  eapply post_bind; [by apply send_transmit|]. intros [st s1] H1. simpl in H1.
  post_if; [by apply send_closedown2|]. apply post_ok. simpl. by destruct (3 <=? _).
Qed.

Lemma send_clock_probe env X s now :
  SInv X s -> post (fun r => SInv X r.2) (clock_probe env s now).
Proof.
  intros HI. unfold clock_probe. post_if; [|by apply post_ok].
  post_if; [by apply send_closedown2|].
  eapply post_bind; [by apply send_ack|]. intros [? s1] H1. by apply post_ok.
Qed.

Lemma send_clock_delayed_ack env X s now :
  SInv X s -> post (SInv X) (clock_delayed_ack env s now).
Proof.
  intros HI. unfold clock_delayed_ack. post_if; [|by apply post_ok].
  eapply post_bind; [by apply send_ack|]. intros [? s1] H1. by apply post_ok.
Qed.

Lemma send_get_current_time env X s : SInv X s -> SInv X (get_current_time env s).2.
Proof. unfold get_current_time. by destruct (nonzero _). Qed.

Lemma send_notify_clock env X s : SInv X s -> post (SInv X) (pseudo_tcp_socket_notify_clock env s).
Proof.
  intros HI. unfold pseudo_tcp_socket_notify_clock. apply (send_get_current_time env) in HI.
  destruct (get_current_time env s) as [now s0]. simpl in HI.
  post_if; [by apply post_ok|]. eapply post_bind with (R := SInv X).
  { post_if; [by apply send_set_state_closed|by apply post_ok]. }
  intros s1 H1. eapply post_bind with (R := SInv X).
  { post_if; [|by apply post_ok].
    eapply post_bind; [by apply send_queue_fin|]. intros s2 H2. by apply send_attempt_send. }
  intros s2 H2. eapply post_bind; [by apply send_clock_retransmit|].
  intros [[] s3] H3; [|by apply post_ok].
  eapply post_bind; [by apply send_clock_probe|]. intros [[] s4] H4; [|by apply post_ok].
  by apply send_clock_delayed_ack.
Qed.

Lemma send_get_next_clock env X s t :
  SInv X s -> post (fun r => SInv X r.2) (pseudo_tcp_socket_get_next_clock env s t).
Proof.
  intros HI. unfold pseudo_tcp_socket_get_next_clock. apply (send_get_current_time env) in HI.
  destruct (get_current_time env s) as [now s0]. simpl in HI. cbv zeta.
  post_if; [by apply send_closedown2|]. repeat post_if; by apply post_ok.
Qed.

Lemma send_recv env X s n :
  SInv X s -> post (fun r => SInv X r.2) (pseudo_tcp_socket_recv env s n).
Proof.
  intros HI. unfold pseudo_tcp_socket_recv. do 4 (post_if; [by apply post_ok|]).
  eapply post_bind; [apply post_any|]. intros [[r out] b] _. cbv zeta.
  post_if; [by apply post_ok|]. eapply post_bind with (R := SInv X).
  - post_if; [|by apply post_ok]. post_if; [by apply send_attempt_send|by apply post_ok].
  - intros s1 H1. by apply post_ok.
Qed.

Lemma send_shutdown env X s how :
  SInv X s -> post (SInv X) (pseudo_tcp_socket_shutdown env s how).
Proof.
  intros HI. unfold pseudo_tcp_socket_shutdown.
  post_if; [apply post_ok; by destruct (_ ==b _)|].
  set (s0 := match how with PSEUDO_TCP_SHUTDOWN_WR => s | _ => put_shutdown_reads true s end).
  assert (SInv X s0) as H0 by (by destruct how). clearbody s0.
  cbv zeta. post_if; [by apply post_ok|].
  assert (forall st, post (SInv X)
    (s ← queue_fin_message s0; s ← attempt_send env s sfFin; set_state s st)) as Hf.
  { intros st. eapply post_bind; [by apply send_queue_fin|]. intros s1 H1.
    eapply post_bind; [by apply send_attempt_send|]. intros s2 H2. by apply send_set_state. }
  destruct (state s0); try (by apply post_ok); try (by apply send_set_state_closed); try apply Hf;
    (destruct (0 <? _); [by apply send_closedown|apply Hf]).
Qed.

Lemma send_notify_packet env X s p len :
  SInv X s -> may_process s ->
  post (fun r => SInv X r.2) (pseudo_tcp_socket_notify_packet env s p len).
Proof.
  intros HI Hs. unfold pseudo_tcp_socket_notify_packet, parse.
  do 2 (post_if; [by apply post_ok|]). do 2 (eapply post_bind; [apply post_any|intros ? _]).
  destruct (parse_header _ _); [by apply send_process|by apply post_ok].
Qed.

(** The operations that do not write data. *)
Definition not_writing (s : Sock) (o : Op) : Prop :=
  match o with
  | OpSend _ _ => False
  | OpConnect => state s <> TCP_LISTEN
  | OpNotifyPacket _ _ => may_process s
  | _ => True
  end.

Lemma send_run_op env X s o : not_writing s o -> SInv X s -> post (SInv X) (run_op env o s).
Proof.
  intros Ho HI. destruct o; simpl in *; try done.
  - unfold pseudo_tcp_socket_connect. rewrite bool_decide_false by done. by apply post_ok.
  - apply post_ok. unfold pseudo_tcp_socket_notify_mtu. by destruct (_ ==b _).
  - by apply send_notify_clock.
  - eapply post_bind; [by apply send_notify_packet|]. intros [? s1] H1. by apply post_ok.
  - eapply post_bind; [by apply send_get_next_clock|]. intros [[? ?] s1] H1. by apply post_ok.
  - eapply post_bind; [by apply send_recv|]. intros [[? ?] s1] H1. by apply post_ok.
  - by apply send_shutdown.
  - unfold pseudo_tcp_socket_close. post_if; [by apply send_closedown|by apply send_shutdown].
Qed.

(** Writing appends the accepted bytes to the stream. *)
Lemma send_send env X s d len :
  SInv X s -> 0 <= len <= zlen d -> len < 2 ^ 31 ->
  post (fun r => r.1 <= len /\ (ztake r.1 d = stream_slice S X (Z.max 0 r.1) ->
          SInv (X + Z.max 0 r.1) r.2)) (pseudo_tcp_socket_send env s d len).
Proof.
  intros HI Hl Hl31. unfold pseudo_tcp_socket_send.
  assert (forall s', SInv X s' -> SInv (X + Z.max 0 (-1)) s') as H0 by (by rewrite Z.add_0_r).
  post_if; [apply post_ok; simpl; split; [lia|intros _; by apply H0]|]. cbv zeta.
  post_if; [apply post_ok; simpl; split; [lia|intros _; by apply H0]|].
  eapply post_bind; [apply (send_queue X); [done|done|lia]|]. intros [n s1] [Hn HS]. simpl in Hn, HS.
  rewrite (s32_small n) by lia.
  destruct (decide (ztake n d = stream_slice S X n)) as [He|He].
  - eapply post_bind; [apply (send_attempt_send env (X + n)); by apply HS|]. intros s2 H2.
    apply post_ok. simpl. split; [lia|]. intros _. replace (Z.max 0 n) with n by lia.
    by destruct (_ && _).
  - eapply post_bind; [apply post_any|intros s2 _]. apply post_ok. simpl. split; [lia|].
    replace (Z.max 0 n) with n by lia. done.
Qed.

End Stream.

(** ** What was written and what goes over the network *)

(** The socket and the bytes its application has written. *)
Definition Written : Type := Sock * bytes.

Inductive wstep (env : Env) : Written -> Written -> Prop :=
| wstep_send s w d len n s' :
    0 <= len <= zlen d -> len < 2 ^ 31 ->
    pseudo_tcp_socket_send env s d len = Ok (n, s') ->
    wstep env (s, w) (s', w ++ ztake n d)
| wstep_other s w o s' :
    not_writing s o -> run_op env o s = Ok s' -> wstep env (s, w) (s', w).

(** The stream has [w] from position [lo] on. *)
Definition agrees (S : Z -> Z) (lo : Z) (w : bytes) : Prop := stream_slice S lo (zlen w) = w.

Lemma agrees_app S lo w d :
  agrees S lo (w ++ d) -> agrees S lo w /\ stream_slice S (lo + zlen w) (zlen d) = d.
Proof.
  unfold agrees. rewrite zlen_app. pose proof (zlen_nonneg w). pose proof (zlen_nonneg d).
  rewrite <- stream_slice_app by lia. intros E. apply app_inj_1 in E; [done|].
  apply Nat2Z.inj. change (zlen (stream_slice S lo (zlen w)) = zlen w). by apply zlen_slice.
Qed.

Lemma wstep_inv env lo S c c' :
  wstep env c c' -> agrees S lo c'.2 ->
  agrees S lo c.2 /\ (SInv S lo (lo + zlen c.2) c.1 -> SInv S lo (lo + zlen c'.2) c'.1).
Proof.
  intros H Ha. destruct H as [s w d len n s' Hl Hl31 E|s w o s' Ho E]; simpl in *.
  - apply agrees_app in Ha as [Ha Hd]. split; [done|]. intros HI.
    destruct (send_send S lo env _ s d len HI Hl Hl31 _ E) as [Hn H]. simpl in *.
    assert (zlen (ztake n d) = Z.max 0 n) as Hz by (rewrite zlen_ztake; lia).
    rewrite zlen_app, Hz, Z.add_assoc. apply H. by rewrite <- Hz.
  - split; [done|]. intros HI. exact (send_run_op S lo env _ s o Ho HI _ E).
Qed.

Lemma wsteps_inv env lo S s0 s w :
  SInv S lo lo s0 -> rtc (wstep env) (s0, []) (s, w) -> agrees S lo w ->
  SInv S lo (lo + zlen w) s.
Proof.
  intros H0 Hs. cut (forall c, rtc (wstep env) (s0, []) c ->
    agrees S lo c.2 -> SInv S lo (lo + zlen c.2) c.1); [intros H; apply (H (s, w) Hs)|].
  apply (rtc_ind_r (fun c => agrees S lo c.2 -> SInv S lo (lo + zlen c.2) c.1)).
  - intros _. simpl. by rewrite zlen_nil, Z.add_0_r.
  - intros c1 c2 _ Hst IH Ha. destruct (wstep_inv env lo S c1 c2 Hst Ha) as [Ha1 H]. auto.
Qed.

(** A socket with nothing to send and no data packet written yet, whose next
    byte has sequence number [lo]. *)
Definition quiet (e : Event) : Prop :=
  match e with
  | EvPacket p => forall seg,
      parse_header (ztake HEADER_SIZE p) (zdrop HEADER_SIZE p) = Some seg ->
      has_flag seg FLAG_CTL = false -> HEADER_SIZE <= zlen p <= MAX_PACKET /\ seg_len seg = 0
  | _ => True
  end.

Record idle_writer (lo : Z) (s : Sock) : Prop := {
  iw_wf : fifo_wf (sbuf s);
  iw_small : buffer_length (sbuf s) <= 2 ^ 30;
  iw_empty : data_length (sbuf s) = 0;
  iw_una : u32 (snd_una s) = u32 lo;
  iw_events : Forall quiet (events s);
}.

Lemma idle_writer_SInv S lo s : idle_writer lo s -> SInv S lo lo s.
Proof.
  intros [H1 H2 H3 H4 H5]. split.
  - exists lo. split; try done; [lia..|]. rewrite H3. unfold contents. by rewrite H3, ztake_0.
  - eapply Forall_impl; [exact H5|]. intros [p| | | |] Hq; try done.
    intros seg Hs Hc. destruct (Hq seg Hs Hc). auto.
Qed.

(** The stream that continues with [z] after [w]. *)
Definition stream_of (lo : Z) (w : bytes) (z : Z) (i : Z) : Z := default z (znth w (i - lo)).

Lemma stream_of_agrees lo w z : agrees (stream_of lo w z) lo w.
Proof.
  unfold agrees. apply list_eq_znth; [by rewrite zlen_slice by apply zlen_nonneg|].
  rewrite zlen_slice by apply zlen_nonneg. intros i Hi. rewrite znth_slice by done.
  unfold stream_of. replace (lo + i - lo) with i by lia.
  destruct (znth w i) eqn:E; [done|]. exfalso. unfold znth, zlen in *.
  rewrite (proj2 (Z.ltb_ge _ _)) in E by lia. apply lookup_ge_None_1 in E. lia.
Qed.

(** Data packets carry what the application wrote. Whatever sequence of
    operations a connected socket runs, whatever the peer sends and the network
    and the clock answer, every data packet it has handed to the network
    (first transmission, retransmission, or a piece split after the packet
    size fell) has as payload the written bytes at the offset its sequence
    number names. *)
Theorem packets_carry_written (env : Env) (lo : Z) (s0 s : Sock) (w p : bytes) (seg : Segment) :
  idle_writer lo s0 -> rtc (wstep env) (s0, []) (s, w) ->
  EvPacket p ∈ events s ->
  parse_header (ztake HEADER_SIZE p) (zdrop HEADER_SIZE p) = Some seg ->
  has_flag seg FLAG_CTL = false -> seg_len seg <> 0 ->
  exists k, 0 <= k /\ k + seg_len seg <= zlen w /\ seg_seq seg = u32 (lo + k) /\
    ztake (seg_len seg) (seg_data seg) = ztake (seg_len seg) (zdrop k w).
Proof.
  intros H0 Hs Hp Hparse Hc Hl. set (S := stream_of lo w 0).
  pose proof (stream_of_agrees lo w 0) as Ha. fold S in Ha.
  destruct (wsteps_inv env lo S s0 s w (idle_writer_SInv S lo s0 H0) Hs Ha) as [_ He].
  pose proof (proj1 (Forall_forall _ _) He _ Hp) as Hok. simpl in Hok.
  destruct (Hok seg Hparse Hc) as [_ [?|(Q & [HS1 HS2 HS3 HS4] & HQ1 & HQ2)]]; [done|].
  exists (Q - lo). split; [lia|]. split; [lia|]. split; [by replace (lo + (Q - lo)) with Q by lia|].
  rewrite <- Ha, slice_slice by lia. replace (lo + (Q - lo)) with Q by lia.
  apply list_eq_znth; rewrite zlen_ztake_le by lia; [by rewrite zlen_slice by lia|].
  intros i Hi. rewrite znth_ztake, (proj2 (Z.ltb_lt _ _)), HS4, znth_slice by lia. done.
Qed.

Lemma connected_idle : idle_writer 7 connected.
Proof.
  split; [repeat split; vm_compute; congruence|vm_compute; congruence|reflexivity|reflexivity|].
  replace (events connected) with [EvOpened; EvPacket (last_packet syn_sent)]
    by (vm_compute; reflexivity).
  constructor; [done|]. constructor; [|done]. intros seg Hs Hc. exfalso. revert Hs Hc.
  vm_compute. by intros [= <-].
Qed.

Lemma packets_carry_written_witness :
  exists seg, EvPacket (last_packet sent3) ∈ events sent3 /\ seg_len seg = 3 /\
  exists k, 0 <= k /\ k + seg_len seg <= zlen [1; 2; 3] /\ seg_seq seg = u32 (7 + k) /\
    ztake (seg_len seg) (seg_data seg) = ztake (seg_len seg) (zdrop k [1; 2; 3]).
Proof.
  assert (rtc (wstep env0) (connected, []) (sent3, [] ++ ztake 3 [1; 2; 3])) as Hs.
  { apply rtc_once, wstep_send with (len := 3); [by vm_compute|lia|by vm_compute]. }
  assert (EvPacket (last_packet sent3) ∈ events sent3) as Hp.
  { replace (events sent3) with (EvPacket (last_packet sent3) :: events connected)
      by (vm_compute; reflexivity). constructor. }
  exists (mkSegment 1 7 7 0 128 [1; 2; 3] 3 1003 1001).
  split; [exact Hp|]. split; [reflexivity|].
  exact (packets_carry_written env0 7 connected sent3 [1; 2; 3] (last_packet sent3)
    (mkSegment 1 7 7 0 128 [1; 2; 3] 3 1003 1001) connected_idle Hs Hp eq_refl eq_refl
    ltac:(discriminate)).
Defined.

End Send.
