(* ===== verification/TcpEndToEnd.v ===== *)
(** * Two sockets and an unreliable network

    The sender's theorem of TcpSend.v and the receiver's of TcpDelivery.v
    combined: one socket writes, the other reads, and between them is a network
    that may lose, duplicate and reorder the packets the first has handed to
    it. Both sockets run any other operations at any time, and the writing one
    receives any packets at all. *)

From Stdlib Require Import ZArith Lia.
From stdpp Require Import prelude gmap list sorting.
From S2P Require Import Prelude TcpFifo TcpBase TcpTypes TcpOps TcpProcess TcpApi TcpDemo TcpState TcpFrame TcpReceive TcpDelivery TcpSend.
Import Fifo Seq Wire State Tcp TcpIn TcpApi Demo StateThm Frame Receive Delivery Send.

Module EndToEnd.

(** The writing socket, what was written to it, the reading socket, what was
    read from it. *)
Record Link := mkLink { l_src : Sock; l_written : bytes; l_dst : Sock; l_read : bytes }.

(** A packet in the network that is neither the connect message nor a FIN. *)
Definition in_transit (src : Sock) (p : bytes) : Prop :=
  EvPacket p ∈ events src /\
  exists seg, parse_header (ztake HEADER_SIZE p) (zdrop HEADER_SIZE p) = Some seg /\
    has_flag seg FLAG_CTL = false /\ has_flag seg FLAG_FIN = false.

Inductive lstep (envA envB : Env) : Link -> Link -> Prop :=
| lstep_src a w b d a' w' :
    wstep envA (a, w) (a', w') ->
    lstep envA envB (mkLink a w b d) (mkLink a' w' b d)
| lstep_deliver a w b d p r b' :
    in_transit a p ->
    pseudo_tcp_socket_notify_packet envB b p (zlen p) = Ok (r, b') ->
    lstep envA envB (mkLink a w b d) (mkLink a w b' d)
| lstep_read a w b d n r out b' :
    0 <= n < 2 ^ 64 ->
    pseudo_tcp_socket_recv envB b n = Ok (r, out, b') ->
    lstep envA envB (mkLink a w b d) (mkLink a w b' (d ++ out))
| lstep_dst a w b d o b' :
    not_receiving o -> run_op envB o b = Ok b' ->
    lstep envA envB (mkLink a w b d) (mkLink a w b' d).

(** A socket that has received nothing since sequence number [lo] and knows of
    no FIN. *)
Record idle_reader (lo : Z) (s : Sock) : Prop := {
  ir_wf : fifo_wf (rbuf s);
  ir_small : buffer_length (rbuf s) <= 2 ^ 30;
  ir_empty : data_length (rbuf s) = 0;
  ir_nxt : rcv_nxt s = u32 lo;
  ir_rlist : rlist s = [];
  ir_fin_ack : support_fin_ack s = true;
  ir_no_fin : rcv_fin s = 0;
}.

Lemma idle_reader_RecvInv S lo s : idle_reader lo s -> RecvInv S lo lo s.
Proof.
  intros [H1 H2 H3 H4 H5 _ _]. split; rewrite ?H5; [|constructor..].
  split; [done|done|done|lia|]. intros i Hi. lia.
Qed.

Lemma reader_keeps_fin env n s : post (fun r => rcv_fin r.2 = rcv_fin s) (pseudo_tcp_socket_recv env s n).
Proof.
  unfold pseudo_tcp_socket_recv. do 4 (post_if; [by apply post_ok|]).
  eapply post_bind; [apply post_any|]. intros [[r out] b] _. cbv zeta.
  post_if; [by apply post_ok|].
  eapply post_bind with (R := fun s' => rcv_fin s' = rcv_fin s).
  - post_if; [|by apply post_ok]. post_if; [|by apply post_ok].
    eapply post_weaken; [apply keeps_attempt_send|]. by intros s' (_ & _ & _ & -> & _).
  - intros s1 H1. by apply post_ok.
Qed.

(** What holds of every stream that agrees with the bytes written so far. *)
Definition LInv (lo : Z) (l : Link) : Prop :=
  rcv_fin (l_dst l) = 0 /\
  forall S, agrees S lo (l_written l) ->
    SInv S lo (lo + zlen (l_written l)) (l_src l) /\
    DeliveryInv S lo (l_dst l, l_read l).

(** Nothing is received beyond what was written: two streams that agree with
    the written bytes and differ after them would give different buffers. *)
Lemma LInv_bound lo l : LInv lo l ->
  next_pos lo (l_dst l, l_read l) <= lo + zlen (l_written l).
Proof.
  intros [_ H]. destruct l as [a w b d]. simpl in *.
  destruct (decide (next_pos lo (b, d) <= lo + zlen w)) as [|Hgt]; [done|exfalso].
  destruct (H _ (stream_of_agrees lo w 0)) as [_ (Hd0 & _ & HR0)].
  destruct (H _ (stream_of_agrees lo w 1)) as [_ (Hd1 & _ & HR1)].
  assert (forall z, stream_of lo w z (lo + zlen w) = z) as Hz.
  { intros z. unfold stream_of. replace (lo + zlen w - lo) with (zlen w) by lia.
    unfold znth, zlen. rewrite (proj2 (Z.ltb_ge _ _)), lookup_ge_None_2 by lia. done. }
  simpl in *. pose proof (zlen_nonneg w). destruct (decide (zlen w < zlen d)) as [Hl|Hl].
  - assert (stream_slice (stream_of lo w 0) lo (zlen d) = stream_slice (stream_of lo w 1) lo (zlen d))
      as E by congruence.
    apply (f_equal (fun l => znth l (zlen w))) in E.
    rewrite !znth_slice, !Hz in E by lia. congruence.
  - pose proof (bi_data _ _ _ _ (ri_buf _ _ _ _ HR0) (lo + zlen w) ltac:(lia)) as E0.
    pose proof (bi_data _ _ _ _ (ri_buf _ _ _ _ HR1) (lo + zlen w) ltac:(lia)) as E1.
    rewrite Hz in E0, E1. congruence.
Qed.

(** A packet that carries the written bytes, and is neither the connect message nor a
    FIN, is a packet of the peer for the receiver's theorem, as long as the connection
    has carried less than 2^30 bytes. *)
Lemma written_packet_peer S lo b (d w p : bytes) :
  rcv_fin b = 0 -> DeliveryInv S lo (b, d) -> next_pos lo (b, d) <= lo + zlen w ->
  0 < lo -> lo + zlen w < 2 ^ 30 -> pkt_ok S lo (lo + zlen w) p ->
  (exists seg, parse_header (ztake HEADER_SIZE p) (zdrop HEADER_SIZE p) = Some seg /\
    has_flag seg FLAG_CTL = false /\ has_flag seg FLAG_FIN = false) ->
  peer_packet S lo (b, d) p.
Proof.
  intros Hfin (_ & _ & HR) HN Hlo Hsm Hok (seg & Hs & Hc & Hf).
  pose proof (RecvInv_N _ _ _ _ HR) as [HN1 HN2]. pose proof (zlen_nonneg d).
  destruct (Hok seg Hs Hc) as [Hlen Hq]. simpl in *.
  assert (0 <= seg_len seg < 2 ^ 16) as Hsl.
  { destruct Hq as [->|(Q & [? ? ? ?] & _)]; lia. }
  assert (exists Q, carries S (next_pos lo (b, d)) Q seg) as [Q HQ].
  { destruct Hq as [Hq|(Q & HS & H1 & H2)]; [by exists 0; left|].
    exists Q. right. split; [done|]. lia. }
  exists seg, Q. split; [done|]. split; [done|]. split; [done|]. split; [done|].
  unfold fin_reached. rewrite Hf. simpl. rewrite Hfin.
  apply andb_false_iff. right. apply Z.eqb_neq.
  rewrite (bi_nxt _ _ _ _ (ri_buf _ _ _ _ HR)). rewrite u32_add_l, u32_small by lia. lia.
Qed.

(** A packet in transit is such a packet. *)
Lemma in_transit_peer lo l p S :
  LInv lo l -> 0 < lo -> lo + zlen (l_written l) < 2 ^ 30 -> agrees S lo (l_written l) ->
  in_transit (l_src l) p ->
  peer_packet S lo (l_dst l, l_read l) p /\
  (forall seg, parse_header (ztake HEADER_SIZE p) (zdrop HEADER_SIZE p) = Some seg ->
     has_flag seg FLAG_FIN = false).
Proof.
  intros HL Hlo Hsm Ha [Hp Hseg]. pose proof (LInv_bound lo l HL) as HN. destruct HL as [Hfin HL].
  destruct (HL S Ha) as [[_ He] HD]. pose proof (proj1 (Forall_forall _ _) He _ Hp) as Hok. simpl in Hok.
  split; [by eapply written_packet_peer|]. destruct Hseg as (seg & Hs & _ & Hf). intros seg' Hs'. rewrite Hs in Hs'. by injection Hs' as <-.
Qed.

Lemma lstep_written envA envB l l' : lstep envA envB l l' ->
  exists d, l_written l' = l_written l ++ d.
Proof.
  intros [a w b d a' w' Hw| | |]; [|by exists []; rewrite app_nil_r..].
  inversion Hw; subst; simpl; [by eexists|exists []; by rewrite app_nil_r].
Qed.

Lemma lstep_inv envA envB lo l l' :
  LInv lo l -> 0 < lo -> lo + zlen (l_written l') < 2 ^ 30 -> lstep envA envB l l' -> LInv lo l'.
Proof.
  intros HL Hlo Hsm Hst. pose proof HL as [Hfin H].
  destruct Hst as [a w b d a' w' Hw|a w b d p r b' Hp E|a w b d n r out b' Hn E|a w b d o b' Ho E];
    simpl in *.
  - split; [done|]. simpl. intros S Ha.
    destruct (wstep_inv envA lo S (a, w) (a', w') Hw Ha) as [Ha0 HS]. simpl in *.
    destruct (H S Ha0) as [H1 H2]. auto.
  - split; simpl.
    + destruct (in_transit_peer lo (mkLink a w b d) p _ HL Hlo Hsm (stream_of_agrees lo w 0) Hp)
        as [Hpp Hnf]. simpl in *.
      destruct (H _ (stream_of_agrees lo w 0)) as [_ HD].
      rewrite <- Hfin. by eapply packet_keeps_fin.
    + intros S Ha. destruct (H S Ha) as [H1 H2]. split; [done|].
      destruct (in_transit_peer lo (mkLink a w b d) p S HL Hlo Hsm Ha Hp) as [Hpp _].
      eapply step_inv; [exact H2|]. by eapply step_packet.
  - split; simpl; [pose proof (reader_keeps_fin envB n b _ E); simpl in *; congruence|].
    intros S Ha. destruct (H S Ha) as [H1 H2]. split; [done|].
    eapply step_inv; [exact H2|]. by eapply step_read.
  - split; simpl.
    + destruct (keeps_run_op envB o b Ho _ E) as (_ & _ & _ & -> & _). done.
    + intros S Ha. destruct (H S Ha) as [H1 H2]. split; [done|].
      eapply step_inv; [exact H2|]. by eapply step_other.
Qed.

(** What has been read is a prefix of what has been written. *)
Lemma LInv_prefix lo a w b d : LInv lo (mkLink a w b d) -> d `prefix_of` w.
Proof.
  intros HL.
  pose proof (LInv_bound lo _ HL) as HN. simpl in HN. destruct HL as [_ HL]. simpl in HL.
  pose proof (stream_of_agrees lo w 0) as Hag.
  destruct (HL _ Hag) as [_ (Hd & _ & HR)]. simpl in *.
  pose proof (RecvInv_N _ _ _ _ HR) as [_ HN2]. pose proof (zlen_nonneg d).
  set (S := stream_of lo w 0) in *. exists (stream_slice S (lo + zlen d) (zlen w - zlen d)).
  transitivity (stream_slice S lo (zlen w)); [by symmetry|].
  replace (zlen w) with (zlen d + (zlen w - zlen d)) at 1 by lia.
  rewrite <- stream_slice_app by lia. by rewrite <- Hd.
Qed.


(** ** The two sockets of the demonstration *)

Definition received3 : Sock := deliver syn_received (last_packet sent3).
Definition read2 : Sock :=
  match pseudo_tcp_socket_recv env0 received3 2 with Ok (_, _, s) => s | _ => received3 end.

Lemma syn_received_idle : idle_reader 7 syn_received.
Proof.
  split; [repeat split; vm_compute; congruence|vm_compute; congruence|vm_compute; reflexivity..].
Qed.


End EndToEnd.
