(* ===== verification/TcpEvents.v ===== *)
(** * What a socket tells

    Each function of the pseudo TCP socket keeps its callbacks and adds to what it has told, and only a packet
    that arrives makes it tell that there is something to read. *)

From Stdlib Require Import ZArith Lia.
From stdpp Require Import prelude gmap list.
From S2P Require Import Prelude TcpFifo TcpBase TcpTypes TcpOps TcpProcess TcpApi TcpState TcpFrame.
Import Fifo Seq Wire State Tcp TcpIn TcpApi StateThm Frame.

Module Events.

(** [s'] has told what [s] has, and no more that there is something to read; its
    callbacks are the same. *)
Definition calm (s s' : Sock) : Prop := (exists l, events s' = l ++ events s /\ EvReadable ∉ l) /\ callbacks s' = callbacks s.

#[global] Instance calm_preorder : PreOrder calm.
Proof.
  split; [intros s; split; [exists []; by split; [|apply not_elem_of_nil]|done]|].
  intros s1 s2 s3 [(l1 & E1 & H1) C1] [(l2 & E2 & H2) C2]. split; [|congruence].
  exists (l2 ++ l1). rewrite E2, E1, app_assoc. split; [done|set_solver].
Qed.

Lemma calm_same s s' : events s' = events s -> callbacks s' = callbacks s -> calm s s'.
Proof. intros E C. split; [|done]. exists []. split; [done|apply not_elem_of_nil]. Qed.

Lemma calm_emit e s : e <> EvReadable -> calm s (emit e s).
Proof. intros He. split; [|done]. exists [e]. split; [done|set_solver]. Qed.

(** A step whose result is the state, or has it at its end. *)
Notation calmly s m := (post (calm s) m).
Notation calmly2 s m := (post (fun r => calm s r.2) m).

(** The second of two steps. *)
Lemma calm_then {A} s s1 (Q : A -> Sock) (m : outcome A) :
  calm s s1 -> post (fun a => calm s1 (Q a)) m -> post (fun a => calm s (Q a)) m.
Proof. intros H Hm. eapply post_weaken; [exact Hm|]. intros a Ha. by etrans. Qed.

Ltac same := by apply calm_same.

Lemma calm_get_current_time env s : calm s (get_current_time env s).2.
Proof. unfold get_current_time. destruct (nonzero _); same. Qed.

Lemma calm_queue s d l f : calmly2 s (queue s d l f).
Proof.
  unfold queue, seg_new. simpl. eapply post_bind; [apply post_any|intros ? _].
  eapply post_bind with (R := calm s).
  - destruct (last _); [|apply post_ok; same]. eapply post_bind; [apply post_any|intros ? _].
    destruct (_ && _); apply post_ok; same.
  - intros s' Hs'. eapply post_bind; [apply post_any|intros [? ?] _]. apply post_ok. simpl. etrans; [exact Hs'|same].
Qed.

Lemma calm_queue_fin s : calmly s (queue_fin_message s).
Proof.
  unfold queue_fin_message. eapply post_bind; [apply post_any|intros ? _].
  eapply post_bind; [apply calm_queue|]. intros [? ?] H. by apply post_ok.
Qed.

Lemma calm_queue_rst s : calmly s (queue_rst_message s).
Proof.
  unfold queue_rst_message. eapply post_bind; [apply post_any|intros ? _].
  eapply post_bind; [apply calm_queue|]. intros [? ?] H. by apply post_ok.
Qed.

Lemma calm_queue_connect s : calmly s (queue_connect_message s).
Proof. unfold queue_connect_message. eapply post_bind; [apply calm_queue|]. intros [? ?] H. by apply post_ok. Qed.

Lemma calm_packet env s q f o l n : calmly2 s (packet env s q f o l n).
Proof.
  unfold packet. eapply post_bind; [apply post_any|intros ? _]. eapply post_bind; [apply post_any|intros p _].
  assert (calm s (emit (EvPacket (packet_header (conv s) q (rcv_nxt s) f (u16 (Z.shiftr (rcv_wnd s) (rwnd_scale s))) n (ts_recent s) ++ p)) s)) as H
    by (by apply calm_emit).
  destruct (_ && _); apply post_ok; [exact H|]. destruct (0 <? l); exact H.
Qed.

Lemma calm_lower_mss fuel : forall s n, calmly2 s (lower_mss fuel s n).
Proof.
  induction fuel as [|fuel IH]; intros s n; cbn [lower_mss]; [apply post_nofuel|].
  destruct (znth _ _); [|apply post_undef]. destruct (_ =? 0); [apply post_ok; same|].
  destruct (_ <? n); [apply post_ok; same|]. eapply calm_then; [|apply IH]. same.
Qed.

Lemma calm_transmit_loop fuel env : forall s id n now, calmly2 s (transmit_loop fuel env s id n now).
Proof.
  induction fuel as [|fuel IH]; intros s id n now; cbn [transmit_loop]; [apply post_nofuel|].
  do 2 (eapply post_bind; [apply post_any|intros ? _]). eapply post_bind; [apply calm_packet|].
  intros [[] s1] H1; simpl in H1; [by apply post_ok| |by apply post_ok].
  eapply post_bind; [apply calm_lower_mss|]. intros [[] s2] H2; simpl in H2; [apply post_ok; by etrans|].
  eapply calm_then; [|apply IH]. by etrans.
Qed.

Lemma calm_transmit_sent s id n now : calmly s (transmit_sent s id n now).
Proof.
  unfold transmit_sent, seg_new. simpl. eapply post_bind; [apply post_any|intros g _].
  eapply post_bind with (R := calm s).
  { destruct (_ <? _); apply post_ok; [|done]. destruct (_ =? 0); same. }
  intros s1 H1. eapply post_bind; [apply post_any|intros g' _]. eapply post_bind with (R := calm s).
  { destruct (_ =? 0); [|by apply post_ok]. eapply post_bind; [apply post_any|intros ? _]. apply post_ok.
    destruct (_ && _); (etrans; [exact H1|same]). }
  intros s2 H2. apply post_ok. destruct (_ =? 0); (etrans; [exact H2|same]).
Qed.

Lemma calm_transmit env s id now : calmly2 s (transmit env s id now).
Proof.
  unfold transmit. eapply post_bind; [apply post_any|intros g _]. destruct (_ <=? _); [by apply post_ok|].
  eapply post_bind; [apply calm_transmit_loop|]. intros [[] s1] H1; simpl in H1; [by apply post_ok|].
  eapply post_bind; [apply calm_transmit_sent|]. intros s2 H2. apply post_ok. by etrans.
Qed.

Lemma calm_set_state s st : calmly s (set_state s st).
Proof.
  unfold set_state. destruct (_ ==b _); [by apply post_ok|]. eapply post_bind; [apply post_any|intros ? _]. apply post_ok. same.
Qed.

Lemma calm_set_then s s0 st (k : Sock -> outcome Sock) :
  calm s s0 -> (forall s1, calm s s1 -> calmly s (k s1)) -> calmly s (set_state s0 st ≫= k).
Proof. intros H0 Hk. eapply post_bind; [eapply calm_then; [exact H0|apply calm_set_state]|exact Hk]. Qed.

Lemma calm_set_state_closed s err : calmly s (set_state_closed s err).
Proof.
  unfold set_state_closed. eapply post_bind; [apply calm_set_state|]. intros s1 H1. apply post_ok.
  destruct (_ && _); [|done]. etrans; [exact H1|by apply calm_emit].
Qed.

Lemma calm_closedown_switch s : calmly s (closedown_switch s).
Proof.
  unfold closedown_switch. destruct (state s); try (by apply post_ok); try apply calm_set_state;
    repeat (apply calm_set_then; [done|intros ? ?]); (eapply calm_then; [|apply calm_set_state]); assumption.
Qed.

Lemma calm_closedown_remote s err : calmly s (closedown_remote s err).
Proof.
  unfold closedown_remote. eapply post_bind; [apply calm_closedown_switch|].
  intros s1 H1. eapply calm_then; [exact H1|apply calm_set_state_closed].
Qed.

Lemma calm_attempt_send_loop fuel env : forall s f now, calmly s (attempt_send_loop fuel env s f now).
Proof.
  induction fuel as [|fuel IH]; intros s f now; cbn [attempt_send_loop]; [apply post_nofuel|].
  destruct (f ==b sfDuplicateAck).
  { eapply post_bind; [apply calm_packet|]. intros [? s1] H1. eapply calm_then; [exact H1|apply IH]. }
  destruct (_ && _).
  { destruct (f ==b sfNone); [by apply post_ok|]. destruct (_ || _); [|apply post_ok; same].
    eapply post_bind; [apply calm_packet|]. intros [? s1] H1. by apply post_ok. }
  destruct (_ && _); [by apply post_ok|]. destruct (unsent_slist s) as [|id ?]; [by apply post_ok|].
  eapply post_bind; [apply post_any|intros g _]. set (s0 := if (_ : bool) then split_unsent _ _ _ _ else _).
  assert (calm s s0) as H0 by (subst s0; destruct (_ && _); same).
  eapply post_bind; [apply calm_transmit|]. intros [st s1] H1; simpl in H1. assert (calm s s1) as H by (by etrans).
  destruct (nonzero st); (eapply calm_then; [exact H|]); [apply calm_closedown_remote|apply IH].
Qed.

Lemma calm_attempt_send env s f : calmly s (attempt_send env s f).
Proof.
  unfold attempt_send. pose proof (calm_get_current_time env s) as H0. destruct (get_current_time env s) as [now s0]. simpl in H0.
  eapply calm_then; [|apply calm_attempt_send_loop]. etrans; [exact H0|]. destruct (_ <? _); same.
Qed.

Lemma calm_closedown env s err src : calmly s (closedown env s err src).
Proof.
  unfold closedown. eapply post_bind with (R := calm s).
  - destruct src; [|by apply post_ok]. destruct (support_fin_ack s); [|apply post_ok; same].
    eapply post_bind; [apply calm_queue_rst|]. intros s1 H1. eapply calm_then; [exact H1|apply calm_attempt_send].
  - intros s1 H1. eapply calm_then; [exact H1|apply calm_closedown_remote].
Qed.

(** The end of a socket that has a callback for it is told, last of all. *)
Lemma closed_told s err s' : set_state_closed s err = Ok s' -> has_closed (callbacks s) = true -> err <> 0 ->
  exists l, events s' = EvClosed err :: l ++ events s.
Proof.
  intros H Hc He. unfold set_state_closed in H. apply bind_ok in H as (s1 & H1 & H). injection H as <-.
  destruct (calm_set_state _ _ _ H1) as [(l & El & _) E]. rewrite E, Hc. unfold nonzero. rewrite (proj2 (Z.eqb_neq err 0)) by done.
  exists l. cbn. by rewrite El.
Qed.

Lemma closedown_told env s err src s' : closedown env s err src = Ok s' -> has_closed (callbacks s) = true -> err <> 0 ->
  exists l, events s' = EvClosed err :: l ++ events s.
Proof.
  intros H Hc He. unfold closedown in H. apply bind_ok in H as (s1 & H1 & H).
  assert (calm s s1) as Hcalm.
  { destruct src; [|by injection H1 as <-]. destruct (support_fin_ack s); [|injection H1 as <-; same].
    apply bind_ok in H1 as (s2 & H2%calm_queue_rst & H1%calm_attempt_send). by etrans. }
  unfold closedown_remote in H. apply bind_ok in H as (s2 & H2%calm_closedown_switch & H).
  assert (calm s s2) as [(l & El & _) E] by (by etrans). destruct (closed_told _ _ _ H) as [k Hk]; [congruence|done|].
  exists (k ++ l). by rewrite Hk, El, app_assoc.
Qed.

(** ** The public operations *)

Lemma calm_fin env s : calmly s (s ← queue_fin_message s; attempt_send env s sfFin).
Proof. eapply post_bind; [apply calm_queue_fin|]. intros s1 H1. eapply calm_then; [exact H1|apply calm_attempt_send]. Qed.

Lemma calm_connect env s : calmly2 s (pseudo_tcp_socket_connect env s).
Proof.
  unfold pseudo_tcp_socket_connect. destruct (negb _); [apply post_ok; same|].
  eapply post_bind; [apply calm_set_state|]. intros s1 H1. eapply post_bind; [eapply calm_then; [exact H1|apply calm_queue_connect]|].
  intros s2 H2. eapply post_bind; [eapply calm_then; [exact H2|apply calm_attempt_send]|]. intros s3 H3. by apply post_ok.
Qed.

Lemma calm_recv env s n : calmly2 s (pseudo_tcp_socket_recv env s n).
Proof.
  unfold pseudo_tcp_socket_recv. do 4 (post_if; [apply post_ok; same|]).
  eapply post_bind; [apply post_any|]. intros [[r out] b] _. cbv zeta. post_if; [apply post_ok; same|].
  eapply post_bind with (R := calm s); [|intros s1 H1; by apply post_ok].
  post_if; [|apply post_ok; same]. post_if; [|apply post_ok; same]. eapply calm_then; [|apply calm_attempt_send]. same.
Qed.

Lemma calm_send env s d n : calmly2 s (pseudo_tcp_socket_send env s d n).
Proof.
  unfold pseudo_tcp_socket_send. destruct (negb _); [apply post_ok; same|]. destruct (_ =? 0); [apply post_ok; same|].
  eapply post_bind; [apply calm_queue|]. intros [k s1] H1. simpl in H1.
  eapply post_bind; [eapply calm_then; [exact H1|apply calm_attempt_send]|]. intros s2 H2. apply post_ok. simpl.
  destruct (_ && _); [|done]. etrans; [exact H2|same].
Qed.

Lemma calm_shutdown env s how : calmly s (pseudo_tcp_socket_shutdown env s how).
Proof.
  unfold pseudo_tcp_socket_shutdown. destruct (negb _); [apply post_ok; destruct (_ ==b _); same|].
  set (s0 := match how with PSEUDO_TCP_SHUTDOWN_WR => s | _ => _ end). assert (calm s s0) as H0 by (subst s0; destruct how; same).
  destruct (how ==b _); [by apply post_ok|].
  assert (forall st, calmly s (s ← queue_fin_message s0; s ← attempt_send env s sfFin; set_state s st)) as Hf.
  { intros st. eapply post_bind; [eapply calm_then; [exact H0|apply calm_queue_fin]|]. intros s1 H1.
    eapply post_bind; [eapply calm_then; [exact H1|apply calm_attempt_send]|]. intros s2 H2. eapply calm_then; [exact H2|apply calm_set_state]. }
  destruct (state s0); try (by apply post_ok); try (eapply calm_then; [exact H0|apply calm_set_state_closed]); try apply Hf;
    (destruct (0 <? _); [eapply calm_then; [exact H0|apply calm_closedown]|apply Hf]).
Qed.

Lemma calm_close env s force : calmly s (pseudo_tcp_socket_close env s force).
Proof. unfold pseudo_tcp_socket_close. destruct (_ && _); [apply calm_closedown|apply calm_shutdown]. Qed.

Lemma calm_get_next_clock env s t : calmly2 s (pseudo_tcp_socket_get_next_clock env s t).
Proof.
  unfold pseudo_tcp_socket_get_next_clock. pose proof (calm_get_current_time env s) as H0.
  destruct (get_current_time env s) as [now s0]. simpl in H0. destruct (_ || _).
  { eapply post_bind; [eapply calm_then; [exact H0|apply calm_closedown]|]. intros s1 H1. by apply post_ok. }
  repeat case_match; by apply post_ok.
Qed.

Lemma calm_notify_clock env s : calmly s (pseudo_tcp_socket_notify_clock env s).
Proof.
  unfold pseudo_tcp_socket_notify_clock. pose proof (calm_get_current_time env s) as H0.
  destruct (get_current_time env s) as [now s0]. simpl in H0. destruct (_ ==b _); [by apply post_ok|].
  eapply post_bind with (R := calm s). { destruct (_ && _); [eapply calm_then; [exact H0|apply calm_set_state_closed]|by apply post_ok]. }
  intros s1 H1. eapply post_bind with (R := calm s). { destruct (_ && _); [eapply calm_then; [exact H1|apply calm_fin]|by apply post_ok]. }
  intros s2 H2. eapply post_bind with (R := fun r => calm s r.2).
  { unfold clock_retransmit. destruct (_ && _); [|by apply post_ok]. destruct (slist s2) as [|id l]; [apply post_fail|].
    eapply post_bind; [eapply calm_then; [exact H2|apply calm_transmit]|]. intros [st s3] H3. simpl in H3. destruct (nonzero st).
    - eapply post_bind; [eapply calm_then; [exact H3|apply calm_closedown]|]. intros s4 H4. by apply post_ok.
    - apply post_ok. simpl. destruct (3 <=? _); (etrans; [exact H3|same]). }
  intros [[u|] s3] H3; simpl in H3; [|by apply post_ok]. eapply post_bind with (R := fun r => calm s r.2).
  { unfold clock_probe. destruct (_ && _); [|by apply post_ok]. destruct (_ <=? _).
    - eapply post_bind; [eapply calm_then; [exact H3|apply calm_closedown]|]. intros s4 H4. by apply post_ok.
    - eapply post_bind; [eapply calm_then; [exact H3|apply calm_packet]|]. intros [? s4] H4. apply post_ok. simpl. etrans; [exact H4|same]. }
  intros [[u'|] s4] H4; simpl in H4; [|by apply post_ok]. unfold clock_delayed_ack. destruct (_ && _); [|by apply post_ok].
  eapply post_bind; [eapply calm_then; [exact H4|apply calm_packet]|]. intros [? s5] H5. by apply post_ok.
Qed.

End Events.
