(* ===== verification/TcpTerm.v ===== *)
(** * Termination of the sending loops

    [attempt_send] sends until the window or the queue is exhausted, [transmit]
    retries with smaller packets. The theorems show that both loops end: the
    number of rounds the model allows is enough, because every round either
    returns or removes part of the unsent queue. They need a maximum segment
    size of at least one byte; with a size of zero, which
    [pseudo_tcp_socket_notify_mtu] accepts, the loop of a shutdown never ends. *)

From Stdlib Require Import ZArith Lia.
From stdpp Require Import prelude gmap list.
From S2P Require Import Prelude TcpFifo TcpBase TcpTypes TcpOps TcpProcess TcpApi TcpDemo TcpState TcpFrame.
Import Fifo Seq Wire State Tcp TcpIn TcpApi Demo StateThm Frame.

Module Term.

(** [ends Q m]: [m] does not run out of rounds and its result satisfies [Q]. *)
Definition ends {A} (Q : A -> Prop) (m : outcome A) : Prop := m <> NoFuel /\ post Q m.

Lemma ends_ok {A} (Q : A -> Prop) a : Q a -> ends Q (Ok a).
Proof. intros. split; [done|by apply post_ok]. Qed.

Lemma ends_bind {A B} (R : A -> Prop) (Q : B -> Prop) (m : outcome A) (f : A -> outcome B) :
  ends R m -> (forall a, R a -> ends Q (f a)) -> ends Q (m ≫= f).
Proof.
  intros [Hm Hp] Hf. split.
  - destruct m as [a| | |]; simpl; try done. apply (Hf a). by apply Hp.
  - eapply post_bind; [exact Hp|]. intros a Ha. apply (Hf a Ha).
Qed.

Lemma ends_weaken {A} (R Q : A -> Prop) (m : outcome A) :
  ends R m -> (forall a, R a -> Q a) -> ends Q m.
Proof. intros [? H] HQ. split; [done|by eapply post_weaken]. Qed.

Lemma ends_assert n b : ends (fun _ => b = true) (c_assert n b).
Proof. split; [by destruct b|apply post_assert]. Qed.

Lemma ends_fail {A} (Q : A -> Prop) n : ends Q (AssertFail n).
Proof. split; [done|apply post_fail]. Qed.
Lemma ends_undef {A} (Q : A -> Prop) : ends Q Undef.
Proof. split; [done|apply post_undef]. Qed.

Lemma ends_seg_get s id : ends (fun g => heap s !! id = Some g) (seg_get s id).
Proof. unfold seg_get. destruct (heap s !! id); [by apply ends_ok|apply ends_undef]. Qed.

(** ** The queue *)

(** An unsent segment: stored, never transmitted. *)
Definition unsent_ok (h : gmap nat SSegment) (fresh id : nat) : Prop :=
  (id < fresh)%nat /\ exists g, h !! id = Some g /\ 0 <= ss_len g /\ ss_xmit g = 0.

Record QueueWf (s : Sock) : Prop := {
  qw_nodup : NoDup (unsent_slist s);
  qw_ok : Forall (unsent_ok (heap s) (next_seg s)) (unsent_slist s);
  qw_mss : 1 <= mss s;
  qw_level : 0 <= msslevel s <= 9;
}.

Definition weight (h : gmap nat SSegment) (id : nat) : nat :=
  match h !! id with Some g => S (Z.to_nat (ss_len g)) | None => 0 end.

Definition total (h : gmap nat SSegment) (l : list nat) : nat := list_sum (map (weight h) l).

Lemma total_cons h id l : total h (id :: l) = (weight h id + total h l)%nat.
Proof. reflexivity. Qed.

Lemma send_fuel_total s : send_fuel s = (3 + total (heap s) (unsent_slist s))%nat.
Proof. reflexivity. Qed.

Lemma total_insert_ne h id g l : id ∉ l -> total (<[id := g]> h) l = total h l.
Proof.
  induction l as [|x l IH]; intros Hn; [done|]. apply not_elem_of_cons in Hn as [Hx Hl].
  rewrite !total_cons, IH by done. unfold weight. by rewrite lookup_insert_ne by done.
Qed.

Lemma unsent_ok_insert h fresh id g l :
  id ∉ l -> Forall (unsent_ok h fresh) l -> Forall (unsent_ok (<[id := g]> h) fresh) l.
Proof.
  intros Hn H. apply Forall_forall. intros x Hx. pose proof (proj1 (Forall_forall _ _) H x Hx) as (H1 & g' & H2 & H3).
  split; [done|]. exists g'. rewrite lookup_insert_ne; [done|]. intros ->. done.
Qed.

Lemma unsent_ok_fresh h n m l : (n <= m)%nat -> Forall (unsent_ok h n) l -> Forall (unsent_ok h m) l.
Proof. intros Hn H. eapply Forall_impl; [exact H|]. intros x (? & ?). split; [lia|done]. Qed.

Lemma unsent_not_fresh h n l : Forall (unsent_ok h n) l -> n ∉ l.
Proof. intros H Hn. pose proof (proj1 (Forall_forall _ _) H n Hn) as [? _]. lia. Qed.

Lemma queue_insert_after_head id x l : queue_insert_after (id :: l) id x = id :: x :: l.
Proof.
  unfold queue_insert_after. rewrite decide_True by constructor. simpl.
  by rewrite decide_True.
Qed.

(** ** Packet sizes *)

(** Everything about the queue that writing a packet leaves alone. *)
Definition same_queue (s s' : Sock) : Prop :=
  heap s' = heap s /\ next_seg s' = next_seg s /\ unsent_slist s' = unsent_slist s.

Lemma same_queue_trans s1 s2 s3 : same_queue s1 s2 -> same_queue s2 s3 -> same_queue s1 s3.
Proof. unfold same_queue. intros. destruct_and!. repeat split; congruence. Qed.

Lemma ends_packet env s q f o l n :
  ends (fun r => same_queue s r.2 /\ mss r.2 = mss s /\ msslevel r.2 = msslevel s)
    (packet env s q f o l n).
Proof.
  unfold packet. eapply ends_bind; [apply ends_assert|intros ? _].
  eapply ends_bind with (R := fun _ => True).
  { destruct (nonzero l); [|by apply ends_ok].
    assert (forall b k o', pseudo_tcp_fifo_read_offset b k o' <> NoFuel) as Hr.
    { intros. unfold pseudo_tcp_fifo_read_offset, mem_read. repeat (case_match; simpl); congruence. }
    eapply ends_bind with (R := fun _ => True); [split; [apply Hr|apply post_any]|].
    intros [? ?] _. eapply ends_bind; [apply ends_assert|]. intros ? _. by apply ends_ok. }
  intros p _. destruct (_ && _); apply ends_ok; [done|]. by destruct (0 <? l).
Qed.

(** The loop over the packet sizes: ends below the table's length, with a size
    of at least 180 bytes on a higher level. *)
Lemma maximums_entry l : 0 <= l <= 9 -> exists m,
  znth PACKET_MAXIMUMS (u32 (l + 1)) = Some m /\ (m = 0 <-> l = 9) /\ (m <> 0 -> 296 <= m).
Proof.
  intros H. pose (ok := fun l => match znth PACKET_MAXIMUMS (u32 (l + 1)) with
    | Some m => eqb (m =? 0) (l =? 9) && ((m =? 0) || (296 <=? m)) | None => false end).
  assert (forallb ok (seqZ 0 10) = true) as Hb by (vm_compute; reflexivity).
  assert (Forall (fun l => ok l = true) (seqZ 0 10)) as Hall
    by (apply Forall_forall; intros x Hx; apply (proj1 (forallb_forall _ _) Hb);
        by apply list_elem_of_In).
  pose proof (proj1 (Forall_forall _ _) Hall l ltac:(apply elem_of_seqZ; lia)) as Hl.
  unfold ok in Hl. destruct (znth _ _) as [m|]; [|done]. exists m. split; [done|].
  apply andb_true_iff in Hl as [H1 H2]. apply eqb_prop in H1.
  destruct (Z.eqb_spec m 0), (Z.eqb_spec l 9); try done; simpl in H2; lia.
Qed.

Lemma ends_lower_mss fuel : forall s n,
  0 <= msslevel s <= 9 -> (Z.to_nat (9 - msslevel s) < fuel)%nat ->
  ends (fun r => same_queue s r.2 /\
          match r.1 with
          | inl e => nonzero e = true
          | inr k => k = mss r.2 /\ k < n /\ 180 <= k /\ msslevel s < msslevel r.2 <= 9
          end) (lower_mss fuel s n).
Proof.
  induction fuel as [|fuel IH]; intros s n Hl Hf; [lia|]. cbn [lower_mss].
  destruct (maximums_entry (msslevel s) Hl) as (m & -> & Hm0 & Hm).
  destruct (Z.eqb_spec m 0) as [H0|H0]; [by apply ends_ok|].
  assert (u32 (msslevel s + 1) = msslevel s + 1) as Hu by (apply u32_small; lia). cbv zeta.
  set (s1 := put_cwnd _ _).
  assert (same_queue s s1 /\ msslevel s1 = msslevel s + 1 /\ mss s1 = m - PACKET_OVERHEAD)
    as (Hq & Hl1 & Hm1) by (subst s1; simpl; by rewrite Hu).
  clearbody s1. unfold PACKET_OVERHEAD in Hm1. destruct (Z.ltb_spec (mss s1) n) as [Hn|Hn].
  - apply ends_ok. simpl. split; [done|]. lia.
  - eapply ends_weaken; [apply IH; lia|]. intros [[e|k] s2] [Hq2 H2]; simpl in *.
    + split; [by eapply same_queue_trans|done].
    + split; [by eapply same_queue_trans|]. lia.
Qed.

(** The retry loop: the number of bytes sent is positive when there was
    something to send, and small pieces only come from the last packet size. *)
Lemma ends_transmit_loop fuel env : forall s id n now,
  0 <= msslevel s <= 9 -> 1 <= mss s -> (Z.to_nat (9 - msslevel s) < fuel)%nat ->
  ends (fun r => same_queue s r.2 /\
          match r.1 with
          | inl e => nonzero e = true
          | inr k => (k = n \/ 180 <= k < n) /\ 1 <= mss r.2 /\ 0 <= msslevel r.2 <= 9
          end) (transmit_loop fuel env s id n now).
Proof.
  induction fuel as [|fuel IH]; intros s id n now Hl Hmss Hf; [lia|]. cbn [transmit_loop].
  eapply ends_bind; [apply ends_seg_get|intros g Hg].
  eapply ends_bind; [apply ends_assert|intros ? _].
  eapply ends_bind; [apply ends_packet|]. intros [wres s1] (Hq & Hm1 & Hl1).
  cbn [fst snd] in Hq, Hm1, Hl1. change (length PACKET_MAXIMUMS) with 11%nat.
  destruct wres; [apply ends_ok; simpl; split; [exact Hq|lia]| |
                  apply ends_ok; split; [exact Hq|reflexivity]].
  eapply ends_bind; [apply ends_lower_mss; lia|]. intros [r s2] [Hq2 Hr].
  cbn [fst snd] in Hq2, Hr.
  assert (same_queue s s2) as Hq' by (by eapply same_queue_trans).
  destruct r as [e|k]; [apply ends_ok; split; [exact Hq'|exact Hr]|].
  eapply ends_weaken; [apply IH; lia|]. intros [r s3] (Hq3 & Hr3).
  cbn [fst snd] in *.
  split; [by eapply same_queue_trans|]. destruct r; [done|]. lia.
Qed.

(** ** One transmission *)

(** What remains of the queue after the head was sent. *)
Definition shrunk (s s' : Sock) (id : nat) (rest : list nat) (lost : nat) : Prop :=
  QueueWf s' /\
  (total (heap s') (unsent_slist s') + lost <= total (heap s) (id :: rest))%nat.

Lemma total_head h id g l : h !! id = Some g ->
  total h (id :: l) = (S (Z.to_nat (ss_len g)) + total h l)%nat.
Proof. intros H. rewrite total_cons. unfold weight. by rewrite H. Qed.

(** The fields of the queue and of the packet size. *)
Definition fields (s : Sock) (h : gmap nat SSegment) (k : nat) (l : list nat) (m v : Z) : Prop :=
  heap s = h /\ next_seg s = k /\ unsent_slist s = l /\ mss s = m /\ msslevel s = v.

Lemma fields_wf s h k l m v : fields s h k l m v -> 1 <= m -> 0 <= v <= 9 -> NoDup l ->
  Forall (unsent_ok h k) l -> QueueWf s.
Proof. intros (<- & <- & <- & <- & <-) ? ? ? ?. by split. Qed.

(** Popping the head, [n] bytes long, and counting the transmission. *)
Lemma ends_transmit_pop s id rest g h k m v now :
  fields s h k (id :: rest) m v -> h !! id = Some g -> ss_xmit g = 0 ->
  ends (fun s' => exists g', fields s' (<[id := g']> h) k rest m v)
    (g ← seg_get s id;
     s ← (if ss_xmit g =? 0 then
         _ ← c_assert 2032 (head (unsent_slist s) ==b Some id);
         let s := put_unsent_slist (tail (unsent_slist s)) s in
         let s := put_snd_nxt (u32 (snd_nxt s + ss_len g)) s in
         Ok (if (ss_len g =? 0) && nonzero (Z.land (ss_flags g) FLAG_FIN)
             then put_snd_nxt (u32 (snd_nxt s + 1)) s else s)
       else Ok s);
     let s := seg_put id (mkSSegment (ss_seq g) (ss_len g) (u8 (ss_xmit g + 1)) (ss_flags g)) s in
     Ok (if rto_base s =? 0 then put_rto_base now s else s)).
Proof.
  intros (Hh & Hk & Hu & Hm & Hv) Hg Hx. unfold seg_get. rewrite Hh, Hg. bind_simpl.
  rewrite Hx, Hu. cbn [Z.eqb head tail].
  eapply ends_bind with (R := fun s' => fields s' h k rest m v).
  { eapply ends_bind; [apply ends_assert|intros ? _]. apply ends_ok. by destruct (_ && _). }
  intros s1 (H1 & H2 & H3 & H4 & H5). apply ends_ok. eexists. cbv zeta.
  destruct (_ =? 0); (split; [|done]); by rewrite <- H1.
Qed.

(** The bookkeeping after [n] bytes of the head were sent. *)
Lemma ends_transmit_sent s id rest g n now :
  QueueWf s -> unsent_slist s = id :: rest -> heap s !! id = Some g ->
  0 <= n <= ss_len g ->
  ends (fun s' => shrunk s s' id rest
          (if decide (n < ss_len g) then Z.to_nat n else Z.to_nat (ss_len g) + 1))
    (transmit_sent s id n now).
Proof.
  intros [Hnd Hok Hm Hl] Hu Hg Hn. rewrite Hu in Hnd, Hok.
  apply NoDup_cons in Hnd as [Hid Hnd]. apply Forall_cons in Hok as [Hok1 Hok].
  destruct Hok1 as (Hfr & g' & Hg' & _ & Hx). rewrite Hg in Hg'. injection Hg' as <-.
  pose proof (unsent_not_fresh _ _ _ Hok) as Hnf.
  assert (seg_get s id = Ok g) as Eg by (unfold seg_get; by rewrite Hg).
  unfold transmit_sent, seg_new. rewrite Eg. bind_simpl. rewrite Hx. cbn [Z.eqb].
  destruct (Z.ltb_spec n (ss_len g)) as [Hlt|Hge].
  - set (sub := mkSSegment (u32 (ss_seq g + n)) (ss_len g - n) 0 (ss_flags g)).
    set (g1 := mkSSegment (ss_seq g) n 0 (ss_flags g)).
    eapply ends_bind with (R := fun s1 => fields s1 (<[id := g1]> (<[next_seg s := sub]> (heap s)))
      (S (next_seg s)) (id :: next_seg s :: rest) (mss s) (msslevel s)).
    { apply ends_ok. split; [reflexivity|]. split; [reflexivity|]. split; [|by split].
      rewrite <- (queue_insert_after_head id (next_seg s) rest), <- Hu. reflexivity. }
    intros s1 H1. assert (next_seg s <> id) by lia.
    eapply ends_weaken.
    { eapply (ends_transmit_pop s1 id _ g1 _ _ _ _ now H1); [apply lookup_insert_eq|done]. }
    intros s2 (g2 & H2). rewrite decide_True by done. pose proof H2 as (E1 & _ & E2 & _).
    split.
    + apply (fields_wf _ _ _ _ _ _ H2); [done|done|by constructor|]. constructor.
      * split; [lia|]. exists sub. rewrite !lookup_insert_ne, lookup_insert_eq by done.
        simpl. split; [done|]. split; [lia|done].
      * do 3 (apply unsent_ok_insert; [done|]). eapply unsent_ok_fresh; [|exact Hok]. lia.
    + rewrite E1, E2, (total_head (heap s) id g) by done.
      rewrite (total_head _ (next_seg s) sub)
        by (by rewrite !lookup_insert_ne, lookup_insert_eq by done).
      rewrite !total_insert_ne by done. simpl. lia.
  - assert (fields s (heap s) (next_seg s) (id :: rest) (mss s) (msslevel s)) as H1 by done.
    bind_simpl. eapply ends_weaken; [eapply (ends_transmit_pop s id _ g _ _ _ _ now H1); done|].
    intros s2 (g2 & H2). rewrite decide_False by lia. pose proof H2 as (E1 & _ & E2 & _).
    split.
    + apply (fields_wf _ _ _ _ _ _ H2); [done..|]. by apply unsent_ok_insert.
    + rewrite E1, E2, (total_head (heap s) id g), total_insert_ne by done. lia.
Qed.

(** Sending the head of the queue: an error, or a shorter queue. *)
Lemma ends_transmit env s id rest g now :
  QueueWf s -> unsent_slist s = id :: rest -> heap s !! id = Some g ->
  ends (fun r => nonzero r.1 = true \/
          shrunk s r.2 id rest 1 /\
          (1 <= ss_len g <= mss s -> shrunk s r.2 id rest 2))
    (transmit env s id now).
Proof.
  intros HW Hu Hg. pose proof HW as [Hnd Hok Hm Hl]. unfold transmit.
  assert (0 <= ss_len g) as Hlen.
  { rewrite Hu in Hok. apply Forall_cons in Hok as [(_ & g' & Hg' & ? & _) _]. congruence. }
  unfold seg_get. rewrite Hg. bind_simpl. destruct (_ <=? ss_xmit g); [apply ends_ok; by left|].
  change (length PACKET_MAXIMUMS) with 11%nat.
  eapply ends_bind; [apply ends_transmit_loop; lia|].
  intros [[e|k] s1] ((Hq1 & Hq2 & Hq3) & Hr); cbn [fst snd] in *.
  { apply ends_ok. by left. }
  destruct Hr as (Hk & Hm1 & Hl1).
  assert (QueueWf s1) as HW1 by (split; rewrite ?Hq1, ?Hq2, ?Hq3; done).
  eapply ends_bind; [apply (ends_transmit_sent s1 id rest g k now HW1); [congruence|congruence|lia]|].
  intros s2 [HW2 Ht]. rewrite Hq1 in Ht. apply ends_ok. right. cbn [fst snd].
  split; [|intros Hle]; (split; [done|]); revert Ht; destruct (decide (k < ss_len g)); lia.
Qed.

(** ** The loop of [attempt_send] *)

Lemma send_available_range s : 0 <= mss s -> 0 <= send_available s <= mss s.
Proof.
  intros Hm. unfold send_available.
  set (nInFlight := u32 _). set (nWindow := send_window s).
  set (nUseable := if nInFlight <? nWindow then nWindow - nInFlight else 0).
  assert (0 <= nUseable) by (subst nUseable; destruct (Z.ltb_spec nInFlight nWindow); lia).
  set (a := if _ <? nInFlight then 0 else _).
  assert (0 <= a <= mss s) as Ha.
  { subst a. destruct (Z.ltb_spec (pseudo_tcp_fifo_get_buffered (sbuf s)) nInFlight); [lia|].
    set (x := Z.min _ _). assert (0 <= x <= mss s) by lia.
    pose proof (u32_range x). unfold u32 in *. split; [lia|].
    pose proof (Z.mod_le x (2 ^ 32)). lia. }
  clearbody a nUseable nWindow.
  destruct (Z.ltb_spec nUseable a); [|lia]. destruct (u32 (nUseable * 4) <? nWindow); lia.
Qed.

Lemma split_unsent_wf s id rest g n :
  QueueWf s -> unsent_slist s = id :: rest -> heap s !! id = Some g -> 0 <= n < ss_len g ->
  QueueWf (split_unsent s id g n) /\
  unsent_slist (split_unsent s id g n) = id :: next_seg s :: rest /\
  heap (split_unsent s id g n) !! id = Some (mkSSegment (ss_seq g) n (ss_xmit g) (ss_flags g)) /\
  mss (split_unsent s id g n) = mss s /\
  (total (heap (split_unsent s id g n)) (id :: next_seg s :: rest) <=
   S (total (heap s) (id :: rest)))%nat.
Proof.
  intros [Hnd Hok Hm Hl] Hu Hg Hn. rewrite Hu in Hnd, Hok.
  apply NoDup_cons in Hnd as [Hid Hnd]. apply Forall_cons in Hok as [Hok1 Hok].
  destruct Hok1 as (Hfr & g' & Hg' & _ & Hx). rewrite Hg in Hg'. injection Hg' as <-.
  pose proof (unsent_not_fresh _ _ _ Hok) as Hnf. assert (next_seg s <> id) by lia.
  set (sub := mkSSegment (u32 (ss_seq g + n)) (ss_len g - n) 0 (ss_flags g)).
  set (g1 := mkSSegment (ss_seq g) n (ss_xmit g) (ss_flags g)).
  assert (fields (split_unsent s id g n) (<[id := g1]> (<[next_seg s := sub]> (heap s)))
    (S (next_seg s)) (id :: next_seg s :: rest) (mss s) (msslevel s)) as HF.
  { split; [reflexivity|]. split; [reflexivity|]. split; [|by split].
    rewrite <- (queue_insert_after_head id (next_seg s) rest), <- Hu. reflexivity. }
  pose proof HF as (E1 & _ & E2 & E3 & _). rewrite E1, E2, E3, lookup_insert_eq.
  split; [|split; [done|split; [done|split; [done|]]]].
  - apply (fields_wf _ _ _ _ _ _ HF); [done|done| |].
    + constructor; [|by constructor]. apply not_elem_of_cons. done.
    + constructor; [|constructor].
      * split; [lia|]. exists g1. rewrite lookup_insert_eq. simpl. split; [done|]. split; [lia|done].
      * split; [lia|]. exists sub. rewrite lookup_insert_ne, lookup_insert_eq by done. simpl.
        split; [done|]. split; [lia|done].
      * do 2 (apply unsent_ok_insert; [done|]). eapply unsent_ok_fresh; [|exact Hok]. lia.
  - rewrite (total_head _ id g1) by apply lookup_insert_eq.
    rewrite (total_head _ (next_seg s) sub)
      by (by rewrite lookup_insert_ne, lookup_insert_eq by done).
    rewrite (total_head (heap s) id g), !total_insert_ne by done. simpl. lia.
Qed.

(** A queue that writing a packet left alone. *)
Lemma QueueWf_same s s' :
  same_queue s s' -> mss s' = mss s -> msslevel s' = msslevel s -> QueueWf s -> QueueWf s'.
Proof. intros (H1 & H2 & H3) ? ? [? ? ? ?]. split; rewrite ?H1, ?H2, ?H3; congruence || lia. Qed.

(** Rounds the loop still needs. *)
Definition rounds (s : Sock) (f : SendFlags) : nat :=
  (total (heap s) (unsent_slist s) + if f ==b sfDuplicateAck then 2 else 1)%nat.

Lemma attempt_send_loop_ends fuel env : forall s f now,
  QueueWf s -> (rounds s f <= fuel)%nat -> attempt_send_loop fuel env s f now <> NoFuel.
Proof.
  induction fuel as [|fuel IH]; intros s f now HW Hf.
  { unfold rounds in Hf. destruct (f ==b sfDuplicateAck); lia. }
  cbn [attempt_send_loop]. unfold rounds in Hf.
  destruct (f ==b sfDuplicateAck) eqn:Ed.
  { destruct (ends_packet env s (snd_nxt s) 0 0 0 now) as [Hne Hp].
    destruct (packet env s (snd_nxt s) 0 0 0 now) as [[w s1]| | |] eqn:E; try done.
    bind_simpl. destruct (Hp _ eq_refl) as (Hq & Hm & Hl). cbn [snd] in *.
    apply IH; [by eapply QueueWf_same|]. destruct Hq as (H1 & H2 & H3).
    unfold rounds. rewrite H1, H3. simpl. lia. }
  destruct (_ && _) eqn:Ez.
  { destruct (f ==b sfNone); [done|]. destruct (_ || _); [|done].
    destruct (ends_packet env s (snd_nxt s) 0 0 0 now) as [Hne _].
    by destruct (packet env s (snd_nxt s) 0 0 0 now) as [[? ?]| | |]. }
  destruct (_ && _ && _ && _); [done|].
  destruct (unsent_slist s) as [|id rest] eqn:Eu; [done|].
  unfold seg_get. destruct (heap s !! id) as [g|] eqn:Eg; [|done]. bind_simpl.
  pose proof (send_available_range s ltac:(destruct HW; lia)) as Hav.
  assert (forall s0 rest0 g0, QueueWf s0 -> unsent_slist s0 = id :: rest0 ->
    heap s0 !! id = Some g0 -> (forall s1, shrunk s0 s1 id rest0 1 ->
      (1 <= ss_len g0 <= mss s0 -> shrunk s0 s1 id rest0 2) ->
      (total (heap s1) (unsent_slist s1) < total (heap s) (id :: rest))%nat) ->
    ('(transmit_status, s) ← transmit env s0 id now;
     if nonzero transmit_status then closedown_remote s transmit_status
     else attempt_send_loop fuel env s
            (if (f ==b sfImmediateAck) || (f ==b sfDelayedAck) then sfNone else f) now) <> NoFuel) as Hgo.
  { intros s0 rest0 g0 HW0 Hu0 Hg0 Hdec.
    destruct (ends_transmit env s0 id rest0 g0 now HW0 Hu0 Hg0) as [Hne Hp].
    destruct (transmit env s0 id now) as [[st s1]| | |] eqn:E; try done. bind_simpl.
    destruct (Hp _ eq_refl) as [Hst|[Hs1 Hs2]]; cbn [fst snd] in *.
    - rewrite Hst. destruct (closedown_remote_ok s1 st) as (s2 & -> & _). done.
    - destruct (nonzero st); [destruct (closedown_remote_ok s1 st) as (s2 & -> & _); done|].
      apply IH; [apply Hs1|]. pose proof (Hdec s1 Hs1 Hs2). unfold rounds.
      destruct ((f ==b sfImmediateAck) || (f ==b sfDelayedAck)); simpl; [lia|]. rewrite Ed. lia. }
  destruct ((send_available s <? ss_len g) && negb (is_fin_or_rst f)) eqn:Es.
  - apply andb_true_iff in Es as [Es1 Es2]. apply Z.ltb_lt in Es1. rewrite Es2, andb_true_r in Ez.
    apply Z.eqb_neq in Ez.
    destruct (split_unsent_wf s id rest g (send_available s) HW Eu Eg ltac:(lia))
      as (HW0 & Hu0 & Hg0 & Hm0 & Ht0).
    apply (Hgo _ (next_seg s :: rest) _ HW0 Hu0 Hg0).
    intros s1 _ H2. destruct H2 as [_ H2]; [cbn [ss_len]; rewrite Hm0; lia|]. lia.
  - apply (Hgo s rest g HW Eu Eg). intros s1 [_ H1] _. lia.
Qed.

(** C38. [attempt_send] terminates: with a well-formed queue of unsent segments
    and a maximum segment size of at least one byte, the rounds the model
    allows suffice, whatever the network answers and however small it forces
    the packets to be. *)
Theorem attempt_send_terminates (env : Env) (s : Sock) (f : SendFlags) :
  QueueWf s -> attempt_send env s f <> NoFuel.
Proof.
  intros HW. unfold attempt_send, get_current_time.
  assert (forall s0, same_queue s s0 -> mss s0 = mss s -> msslevel s0 = msslevel s ->
    forall now, attempt_send_loop (send_fuel s0) env s0 f now <> NoFuel) as H.
  { intros s0 Hq Hm Hl now. apply attempt_send_loop_ends; [by eapply QueueWf_same|].
    rewrite send_fuel_total. unfold rounds. destruct (f ==b sfDuplicateAck); lia. }
  destruct (nonzero _); apply H; destruct (_ <? _); done.
Qed.

Definition queued5 : Sock :=
  match pseudo_tcp_socket_send env0 sent3 [4; 5] 2 with Ok (_, s) => s | _ => sent3 end.

Lemma attempt_send_terminates_witness :
  unsent_slist queued5 <> [] /\ attempt_send env0 queued5 sfFin <> NoFuel.
Proof.
  split; [vm_compute; discriminate|].
  refine (attempt_send_terminates env0 queued5 sfFin _).
  assert (unsent_slist queued5 = [2%nat]) as Hu by (vm_compute; reflexivity).
  split; rewrite ?Hu.
  - repeat constructor. apply not_elem_of_nil.
  - constructor; [|constructor]. split; [vm_compute; lia|].
    exists (mkSSegment 10 2 0 0). split; [vm_compute; reflexivity|]. split; vm_compute; congruence.
  - vm_compute. congruence.
  - split; vm_compute; congruence.
Defined.

(** ** A maximum segment size of zero *)

(** The head of the queue has data, and no byte of it can be sent. *)
Definition stuck (s : Sock) : Prop :=
  mss s = 0 /\ exists id rest g,
    unsent_slist s = id :: rest /\ heap s !! id = Some g /\ (id < next_seg s)%nat /\
    0 < ss_len g /\ ss_xmit g = 0 /\ u32 (ss_seq g - snd_una s) <= 1024 * 1024 * 64.

Lemma packet_empty env s q f o now : exists s1,
  packet env s q f o 0 now = Ok (WR_SUCCESS, s1) /\ same_queue s s1 /\
  mss s1 = mss s /\ snd_una s1 = snd_una s.
Proof.
  unfold packet. eexists. split.
  - cbn [c_assert Z.add u32]. bind_simpl. cbn [nonzero Z.eqb negb]. bind_simpl. cbv zeta.
    rewrite andb_false_r. reflexivity.
  - done.
Qed.

(** The bookkeeping of a first transmission succeeds. *)
Lemma transmit_pop_ok s id rest g h k m v now :
  fields s h k (id :: rest) m v -> h !! id = Some g -> ss_xmit g = 0 ->
  exists s' g',
    (g ← seg_get s id;
     s ← (if ss_xmit g =? 0 then
         _ ← c_assert 2032 (head (unsent_slist s) ==b Some id);
         let s := put_unsent_slist (tail (unsent_slist s)) s in
         let s := put_snd_nxt (u32 (snd_nxt s + ss_len g)) s in
         Ok (if (ss_len g =? 0) && nonzero (Z.land (ss_flags g) FLAG_FIN)
             then put_snd_nxt (u32 (snd_nxt s + 1)) s else s)
       else Ok s);
     let s := seg_put id (mkSSegment (ss_seq g) (ss_len g) (u8 (ss_xmit g + 1)) (ss_flags g)) s in
     Ok (if rto_base s =? 0 then put_rto_base now s else s)) = Ok s' /\
    fields s' (<[id := g']> h) k rest m v /\ snd_una s' = snd_una s.
Proof.
  intros (Hh & Hk & Hu & Hm & Hv) Hg Hx. unfold seg_get. rewrite Hh, Hg. bind_simpl.
  rewrite Hx, Hu. cbn [Z.eqb head tail]. rewrite bool_decide_true by done. cbn [c_assert].
  bind_simpl. do 2 eexists. split; [reflexivity|]. cbv zeta.
  set (s1 := if (_ : bool) then put_snd_nxt _ (put_snd_nxt _ _) else _).
  assert (fields s1 h k rest m v /\ snd_una s1 = snd_una s) as [(H1 & H2 & H3 & H4 & H5) H6]
    by (subst s1; by destruct (_ && _)).
  clearbody s1. rewrite <- H1. destruct (_ =? 0); (split; [split; [reflexivity|done]|done]).
Qed.

(** Sending zero bytes puts the whole segment back at the head. *)
Lemma stuck_transmit env s id rest now :
  stuck s -> unsent_slist s = id :: rest ->
  exists s', transmit env s id now = Ok (0, s') /\ stuck s'.
Proof.
  intros (Hm & id' & rest' & g & Hu' & Hg & Hfr & Hl & Hx & Hseq) Hu.
  rewrite Hu in Hu'. injection Hu' as <- <-.
  unfold transmit, seg_get. rewrite Hg. bind_simpl. rewrite Hm, Hx, Z.min_r by lia.
  replace (_ <=? 0) with false by (by destruct (state s ==b TCP_ESTABLISHED)).
  change (length PACKET_MAXIMUMS) with 11%nat. cbn [transmit_loop]. unfold seg_get. rewrite Hg.
  bind_simpl. rewrite (proj2 (Z.leb_le _ _) Hseq). cbn [c_assert]. bind_simpl.
  destruct (packet_empty env s (ss_seq g) (ss_flags g) (u32 (ss_seq g - snd_una s)) now)
    as (s1 & -> & (H1 & H2 & H3) & H4 & H5). bind_simpl.
  assert (seg_get s1 id = Ok g) as Eg by (unfold seg_get; by rewrite H1, Hg).
  unfold transmit_sent, seg_new. rewrite Eg. bind_simpl. rewrite Hx. cbn [Z.eqb].
  rewrite (proj2 (Z.ltb_lt _ _)) by lia.
  set (sub := mkSSegment (u32 (ss_seq g + 0)) (ss_len g - 0) 0 (ss_flags g)).
  set (g1 := mkSSegment (ss_seq g) 0 0 (ss_flags g)). cbv beta iota.
  set (s2 := put_unsent_slist (queue_insert_after _ id _) _).
  assert (fields s2 (<[id := g1]> (<[next_seg s := sub]> (heap s))) (S (next_seg s))
    (id :: next_seg s :: rest) 0 (msslevel s1) /\ snd_una s2 = snd_una s) as [F F6].
  { split; [|exact H5]. split; [|split; [|split; [|split]]].
    - rewrite <- H1, <- H2. reflexivity.
    - rewrite <- H2. reflexivity.
    - rewrite <- (queue_insert_after_head id (next_seg s) rest), <- Hu, <- H3, <- H2. reflexivity.
    - rewrite <- Hm, <- H4. reflexivity.
    - reflexivity. }
  clearbody s2. bind_simpl.
  destruct (transmit_pop_ok s2 id (next_seg s :: rest) g1 _ _ _ _ now F (lookup_insert_eq _ _ _) eq_refl)
    as (s5 & g2 & E5 & (K1 & K2 & K3 & K4 & _) & K5).
  exists s5. split; [eapply bind_ok_intro; [exact E5|reflexivity]|]. split; [done|]. exists (next_seg s), rest, sub.
  rewrite K1, K2, K3, K5, F6. rewrite !lookup_insert_ne, lookup_insert_eq by lia. simpl.
  split; [done|]. split; [done|]. split; [lia|]. split; [lia|]. split; [done|].
  rewrite u32_sub_l. by rewrite Z.add_0_r.
Qed.

(** With a maximum segment size of zero the loop of [attempt_send] never
    ends once a FIN has to be flushed: no number of rounds is enough. The size
    is zero when [pseudo_tcp_socket_notify_mtu] is called with the 116 bytes of
    the packet overhead, which nothing rejects. *)
Theorem mss_zero_never_ends (env : Env) (s : Sock) (now : Z) (fuel : nat) :
  stuck s -> attempt_send_loop fuel env s sfFin now = NoFuel.
Proof.
  revert s. induction fuel as [|fuel IH]; intros s Hs; [done|]. cbn [attempt_send_loop].
  pose proof Hs as (_ & id & rest & g & Hu & Hg & _).
  rewrite (bool_decide_false (sfFin = sfDuplicateAck)) by done.
  replace (negb (is_fin_or_rst sfFin)) with false by reflexivity.
  cbv zeta. rewrite !andb_false_r. cbn [andb]. rewrite Hu. unfold seg_get. rewrite Hg. bind_simpl.
  rewrite andb_false_r. destruct (stuck_transmit env s id rest now Hs Hu) as (s1 & -> & Hs1). bind_simpl.
  cbn [nonzero Z.eqb negb]. by apply IH.
Qed.

(** A connected socket whose packet size was set to 116 with two bytes queued. *)
Definition tiny_mtu : Sock :=
  let s := pseudo_tcp_socket_notify_mtu connected 116 in
  match pseudo_tcp_socket_send env0 s [4; 5] 2 with Ok (_, s) => s | _ => s end.

Lemma mss_zero_never_ends_witness :
  attempt_send_loop 1000 env0 tiny_mtu sfFin 2000 = NoFuel.
Proof.
  refine (mss_zero_never_ends env0 tiny_mtu 2000 1000 _).
  split; [vm_compute; reflexivity|].
  exists 1%nat, [], (mkSSegment 7 2 0 0). split; [vm_compute; reflexivity|].
  split; [vm_compute; reflexivity|]. split; [vm_compute; lia|].
  split; [reflexivity|]. split; [reflexivity|]. vm_compute. congruence.
Defined.

End Term.
