(* ===== verification/TcpCases.v ===== *)
(** * Options, buffer sizes, timers, and behaviour at the edges

    Properties of single operations of the pseudo TCP socket: the options of
    the connect message are parsed without reading outside them and mean what
    the sender meant; the advertised window fits its 16 bits; the
    retransmission timeout stays between one second and one minute. The last
    part shows runs in which the socket does not do what its comments say. *)

From Stdlib Require Import ZArith Lia.
From stdpp Require Import prelude gmap list.
From S2P Require Import Prelude TcpFifo TcpBase TcpTypes TcpOps TcpProcess TcpApi TcpDemo TcpState TcpFrame.
Import Fifo Seq Wire State Tcp TcpIn TcpApi Demo StateThm Frame.

Module Cases.

(** ** The receive buffer and its window *)

(** The scaling loop: the largest power of two that brings the size below
    2^16, within 16 rounds for a 32-bit size. *)
Lemma scale_loop_spec fuel : forall f n,
  0 <= n < 2 ^ (16 + Z.of_nat fuel) -> 0 <= f -> f + Z.of_nat fuel <= 16 ->
  exists k, scale_loop fuel f n = Ok (f + k, n / 2 ^ k) /\ 0 <= k <= Z.of_nat fuel /\
    n / 2 ^ k <= 0xFFFF /\ (0 < k -> 2 ^ 15 <= n / 2 ^ k).
Proof.
  induction fuel as [|fuel IH]; intros f n Hn Hf Hs; cbn [scale_loop];
    destruct (Z.ltb_spec 65535 n) as [H|H].
  - simpl in Hn. lia.
  - exists 0. rewrite Z.div_1_r, Z.add_0_r. split; [done|]. lia.
  - rewrite Z.shiftr_div_pow2 by lia. change (2 ^ 1) with 2.
    assert (u8 (f + 1) = f + 1) as -> by (unfold u8; apply Z.mod_small; lia).
    destruct (IH (f + 1) (n / 2)) as (k & -> & Hk & Hle & Hge).
    { replace (16 + Z.of_nat (S fuel)) with (1 + (16 + Z.of_nat fuel)) in Hn by lia.
      rewrite Z.pow_add_r in Hn by lia. split; [apply Z.div_pos; lia|].
      apply Z.div_lt_upper_bound; lia. }
    { lia. }
    { lia. }
    exists (k + 1). rewrite Z.div_div, <- Z.pow_succ_r in * by lia.
    replace (Z.succ k) with (k + 1) in * by lia. split; [f_equal; f_equal; lia|].
    split; [lia|]. split; [done|]. intros _.
    destruct (decide (k = 0)) as [->|Hk0]; [|apply Hge; lia]. simpl.
    apply Z.div_le_lower_bound; lia.
  - exists 0. rewrite Z.div_1_r, Z.add_0_r. split; [done|]. lia.
Qed.

(** Resizing the receive buffer to any 32-bit size that holds the data
    succeeds; the new size is the requested one rounded down to a multiple of
    a scale of at most 2^16; the data are kept; and the window that [packet] advertises, the free space shifted by the
    scale, fits the 16 bits of the header. *)
Theorem resize_receive_buffer_window (env : Env) (s : Sock) (n : Z) :
  fifo_wf (rbuf s) -> 0 < n < 2 ^ 32 -> n <> rbuf_len s ->
  2 * data_length (rbuf s) <= n ->
  exists s', resize_receive_buffer env s n = Ok s' /\ fifo_wf (rbuf s') /\
    contents (rbuf s') = contents (rbuf s) /\
    rbuf_len s' <= n < rbuf_len s' + 2 ^ rwnd_scale s' /\ 2 ^ rwnd_scale s' <= 2 ^ 16 /\
    0 <= Z.shiftr (rcv_wnd s') (rwnd_scale s') <= 0xFFFF.
Proof.
  intros Hwf Hn Hne Hd. pose proof Hwf as (? & ? & ? & ?). unfold resize_receive_buffer.
  rewrite (proj2 (Z.eqb_neq _ _)) by congruence.
  destruct (scale_loop_spec 16 0 n) as (k & -> & Hk & Hle & Hge); [simpl; lia|lia|lia|].
  bind_simpl. rewrite Z.add_0_l. set (q := n / 2 ^ k) in *.
  pose proof (Z.div_mod n (2 ^ k) ltac:(lia)) as Hdm. fold q in Hdm.
  pose proof (Z.mod_pos_bound n (2 ^ k) ltac:(lia)) as Hmod.
  assert (0 <= q) by (apply Z.div_pos; lia).
  assert (Z.shiftl q k = 2 ^ k * q) as Hsh by (rewrite Z.shiftl_mul_pow2 by lia; lia).
  assert (2 ^ k <= 2 ^ 16) as Hk16 by (apply Z.pow_le_mono_r; lia).
  assert (0 < 2 ^ k) by lia.
  assert (u32 (Z.shiftl q k) = 2 ^ k * q) as -> by (rewrite Hsh; apply u32_small; nia).
  assert (data_length (rbuf s) < 2 ^ k * q /\ 0 < 2 ^ k * q) as [Hdl Hpos].
  { destruct (decide (k = 0)) as [->|Hk0]; [change (2 ^ 0) with 1 in *; nia|].
    specialize (Hge ltac:(lia)). assert (2 ^ k * 2 ^ 15 <= 2 ^ k * q) by nia. nia. }
  destruct (set_capacity_spec (junk env) (rbuf s) (2 ^ k * q))
    as (b & -> & Hwf' & Hc & Hbd & Hbl); [done|nia|lia|].
  bind_simpl. cbn [c_assert]. bind_simpl. eexists. split; [reflexivity|]. simpl.
  specialize (Hbl ltac:(lia)). unfold pseudo_tcp_fifo_get_write_remaining.
  pose proof Hwf' as (? & ? & ? & ?). rewrite Hbl in *.
  rewrite (u64_small (_ - _)), u32_small by lia.
  split; [done|]. split; [done|]. split; [nia|]. split; [done|].
  rewrite Z.shiftr_div_pow2 by lia. split; [apply Z.div_pos; lia|].
  etrans; [|exact Hle]. apply Z.div_le_upper_bound; [lia|]. lia.
Qed.

Lemma resize_receive_buffer_window_witness : exists s',
  resize_receive_buffer env0 connected 100001 = Ok s' /\
  0 <= Z.shiftr (rcv_wnd s') (rwnd_scale s') <= 0xFFFF.
Proof.
  destruct (resize_receive_buffer_window env0 connected 100001) as (s' & E & _ & _ & _ & _ & H).
  - repeat split; vm_compute; congruence.
  - lia.
  - vm_compute. discriminate.
  - vm_compute. discriminate.
  - exists s'. split; [exact E|exact H].
Defined.

(** ** The options of the connect message *)

(** The fields the options may change. *)
Definition same_but_options (s s' : Sock) : Prop :=
  rbuf s' = rbuf s /\ rbuf_len s' = rbuf_len s /\ rwnd_scale s' = rwnd_scale s /\
  state s' = state s.

Lemma apply_option_ok s kind data n :
  (n <= zlen data) -> exists s', apply_option s kind data n = Ok s' /\ same_but_options s s'.
Proof.
  intros Hn. unfold apply_option. destruct (_ =? TCP_OPT_MSS); [by eexists|].
  destruct (_ =? TCP_OPT_WND_SCALE).
  - destruct (Z.eqb_spec n 1) as [->|]; simpl; [|by eexists].
    destruct data; [rewrite zlen_nil in Hn; lia|by eexists].
  - destruct (_ =? TCP_OPT_FIN_ACK); by eexists.
Qed.

Lemma znth_lt {A} (l : list A) i : 0 <= i < zlen l -> exists x, znth l i = Some x.
Proof.
  intros Hi. unfold znth, zlen in *. rewrite (proj2 (Z.ltb_ge _ _)) by lia.
  apply lookup_lt_is_Some_2. lia.
Qed.

Lemma znth_elem {A} (l : list A) i x : znth l i = Some x -> x ∈ l.
Proof. unfold znth. destruct (_ <? 0); [done|]. apply list_elem_of_lookup_2. Qed.

(** The loop stays inside the options and takes at most one round per byte. *)
Lemma parse_options_loop_ok data len : 0 <= len <= zlen data -> Forall (fun x => 0 <= x) data ->
  forall fuel pos w f s, 0 <= pos -> len - pos <= Z.of_nat fuel ->
  exists r s', parse_options_loop fuel data len pos w f s = Ok (r, s') /\ same_but_options s s'.
Proof.
  intros Hlen Hpos. induction fuel as [|fuel IH]; intros pos w f s Hp Hf; cbn [parse_options_loop];
    (destruct (Z.ltb_spec pos len) as [Hlt|]; [|by do 2 eexists]); [lia|].
  destruct (Z.ltb_spec len (pos + 1)); [by do 2 eexists|].
  destruct (znth_lt data pos) as [kind ->]; [lia|]. cbv zeta.
  destruct (kind =? TCP_OPT_EOL); [by do 2 eexists|].
  destruct (kind =? TCP_OPT_NOOP); [apply IH; lia|].
  destruct (Z.ltb_spec len (pos + 1 + 1)); [by do 2 eexists|].
  destruct (znth_lt data (pos + 1)) as [olen Ho]; [lia|]. rewrite Ho.
  pose proof (proj1 (Forall_forall _ _) Hpos olen (znth_elem _ _ _ Ho)) as Hol. simpl in Hol.
  destruct (Z.ltb_spec len (pos + 1 + 1 + olen)); [by do 2 eexists|].
  destruct (Z.leb_spec olen (len - (pos + 1 + 1))); [|by do 2 eexists].
  destruct (apply_option_ok s kind (zdrop (pos + 1 + 1) data) olen) as (s1 & -> & (E1 & E2 & E3 & E4));
    [rewrite zlen_zdrop; lia|]. bind_simpl.
  edestruct (IH (pos + 1 + 1 + olen)) as (r & s2 & -> & (F1 & F2 & F3 & F4)); [lia|lia|].
  do 2 eexists. split; [reflexivity|]. repeat split; congruence.
Qed.

Lemma resize_default_ok env s :
  fifo_wf (rbuf s) -> 2 * data_length (rbuf s) <= DEFAULT_RCV_BUF_SIZE ->
  exists s', resize_receive_buffer env s DEFAULT_RCV_BUF_SIZE = Ok s'.
Proof.
  intros Hwf Hd. pose proof Hwf as (? & ? & ? & ?). unfold resize_receive_buffer.
  destruct (_ =? _); [by eexists|]. change (scale_loop 16 0 DEFAULT_RCV_BUF_SIZE) with
    (Ok (0, DEFAULT_RCV_BUF_SIZE)). bind_simpl.
  change (u32 (Z.shiftl DEFAULT_RCV_BUF_SIZE 0)) with DEFAULT_RCV_BUF_SIZE.
  unfold DEFAULT_RCV_BUF_SIZE in *.
  destruct (set_capacity_spec (junk env) (rbuf s) (60 * 1024)) as (b & -> & _); [done|lia|lia|].
  bind_simpl. by eexists.
Qed.

(** Parsing the options of a connect message is total: whatever bytes the
    peer sends, the loop reads only inside them, ends, and the function
    returns, provided the data already received fit half the default buffer
    to which it may fall back. *)
Theorem parse_options_total (env : Env) (s : Sock) (data : bytes) (len : Z) :
  0 <= len <= zlen data -> Forall (fun x => 0 <= x) data ->
  fifo_wf (rbuf s) -> 2 * data_length (rbuf s) <= DEFAULT_RCV_BUF_SIZE ->
  exists s', parse_options env s data len = Ok s'.
Proof.
  intros Hlen Hb Hwf Hd. unfold parse_options.
  destruct (parse_options_loop_ok data len Hlen Hb (Z.to_nat len) 0 false false s)
    as (r & s1 & -> & (E1 & E2 & E3 & E4)); [lia|lia|]. bind_simpl.
  destruct r as [[w f]|]; [|by eexists].
  destruct w; simpl; [by eexists|]. destruct (0 <? rwnd_scale s1); [|by eexists].
  destruct (resize_default_ok env s1) as [s2 ->]; [by rewrite E1..|]. by eexists.
Qed.

Lemma parse_options_total_witness : exists s',
  parse_options env0 connected [3; 200; 7; 254] 4 = Ok s'.
Proof.
  refine (parse_options_total env0 connected [3; 200; 7; 254] 4 _ _ _ _).
  - vm_compute. split; congruence.
  - repeat (constructor; [lia|]). constructor.
  - repeat split; vm_compute; congruence.
  - vm_compute. congruence.
Defined.

(** The options a socket sends in its connect message mean the same to the
    peer: after parsing them the peer scales the sender's windows by the
    sender's scale when it was announced, and uses FINs exactly when the sender
    supports them. *)
Theorem connect_options_roundtrip (env : Env) (s peer : Sock) :
  rwnd_scale peer = 0 \/ support_wnd_scale s = true ->
  exists opts peer', connect_message s = CTL_CONNECT :: opts /\
    parse_options env peer opts (zlen opts) = Ok peer' /\
    swnd_scale peer' = (if support_wnd_scale s then rwnd_scale s else swnd_scale peer) /\
    support_fin_ack peer' = support_fin_ack s /\ rbuf peer' = rbuf peer.
Proof.
  intros Hs. unfold connect_message.
  destruct (support_wnd_scale s), (support_fin_ack s); cbn [app]; do 2 eexists;
    (split; [reflexivity|]).
  - split; [reflexivity|]. done.
  - split; [reflexivity|]. done.
  - destruct Hs as [Hs|]; [|done]. split.
    { unfold parse_options.
    change (parse_options_loop _ _ _ 0 false false peer)
      with (Ok (Some (false, true), put_support_fin_ack true peer)).
    bind_simpl. cbn [negb]. rewrite (proj2 (Z.ltb_ge _ _)) by (simpl; lia). reflexivity. }
    by split.
  - destruct Hs as [Hs|]; [|done]. split.
    { unfold parse_options.
    change (parse_options_loop _ _ _ 0 false false peer) with (Ok (Some (false, false), peer)).
    bind_simpl. cbn [negb]. rewrite (proj2 (Z.ltb_ge _ _)) by (simpl; lia). reflexivity. }
    by split.
Qed.

Lemma connect_options_roundtrip_witness :
  exists opts peer', connect_message small_sock = CTL_CONNECT :: opts /\
    parse_options env0 small_sock opts (zlen opts) = Ok peer' /\
    support_fin_ack peer' = true.
Proof.
  destruct (connect_options_roundtrip env0 small_sock small_sock) as (o & p & H1 & H2 & _ & H3 & _).
  - right. vm_compute. reflexivity.
  - exists o, p. split; [exact H1|]. split; [exact H2|exact H3].
Defined.

(** ** The retransmission timeout *)

Definition rto_ok (s : Sock) : Prop := MIN_RTO <= rx_rto s <= MAX_RTO.

Lemma rto_keeps_rtt s seg now : rto_ok s -> rto_ok (process_rtt s seg now).2.
Proof.
  intros H. unfold process_rtt. destruct (nonzero _); [|done]. destruct (0 <=? _); [|done].
  unfold rto_ok, bound, MIN_RTO, MAX_RTO. destruct (rx_srtt s =? 0); simpl; lia.
Qed.

(** Backing off doubles the timeout and stays in range; while connecting it
    does not grow. *)
Lemma rto_backoff limit r :
  limit = DEF_RTO \/ limit = MAX_RTO -> MIN_RTO <= r <= MAX_RTO ->
  MIN_RTO <= Z.min limit (u32 (r * 2)) <= MAX_RTO.
Proof.
  unfold MIN_RTO, MAX_RTO, DEF_RTO. intros Hl Hr. rewrite u32_small by lia. lia.
Qed.

(** Walks through an operation: a bind whose first part yields a socket keeps
    the range of the timeout by a lemma of [rto] or by walking in turn. *)
Create HintDb rto discriminated.
#[export] Hint Constants Opaque : rto.

Ltac rto_leaf :=
  first [ assumption
        | match goal with |- rto_ok ?s => match s with context [if ?b then _ else _] =>
            destruct b end end; rto_leaf
        | match goal with |- rto_ok ?s => match s with context [match ?x with _ => _ end] =>
            destruct x end end; rto_leaf ].

#[export] Hint Extern 1 (rto_ok _) => rto_leaf : rto.

Ltac rto_step :=
  match goal with
  | |- post _ (Ok _) => apply post_ok; simpl snd; rto_leaf
  | |- post _ (AssertFail _) => apply post_fail
  | |- post _ Undef => apply post_undef
  | |- post _ NoFuel => apply post_nofuel
  | |- post _ (?m ≫= _) =>
      first [ eapply post_bind; [solve [eauto 2 with rto]|]
            | lazymatch type of m with
              | outcome Sock => eapply post_bind with (R := rto_ok)
              | outcome (_ * Sock) => eapply post_bind with (R := fun r => rto_ok r.2)
              | _ => eapply post_bind; [apply post_any|]
              end ]
  | |- forall _, _ => let a := fresh "a" in let H := fresh "Ha" in intros a H; simpl in H
  | |- post _ (let '(_, _) := ?x in _) => destruct x; simpl in *
  | |- post _ (if ?b then _ else _) => destruct b
  | |- post _ (match ?x with _ => _ end) => destruct x
  | |- _ => solve [eauto 2 with rto]
  end.
Ltac rto_walk := cbv zeta; repeat (rto_step; cbv beta zeta).

Section Rto.
Context (env : Env).

Lemma rto_packet s q f o l n : rto_ok s -> post (fun r => rto_ok r.2) (packet env s q f o l n).
Proof. intros. unfold packet. rto_walk. Qed.
#[local] Hint Resolve rto_packet : rto.
Lemma rto_lower_mss fuel : forall s n, rto_ok s -> post (fun r => rto_ok r.2) (lower_mss fuel s n).
Proof. induction fuel; cbn [lower_mss]; intros; rto_walk. Qed.
#[local] Hint Resolve rto_lower_mss : rto.
Lemma rto_transmit_loop fuel : forall s id n now,
  rto_ok s -> post (fun r => rto_ok r.2) (transmit_loop fuel env s id n now).
Proof.
  induction fuel; cbn [transmit_loop]; [|generalize (length PACKET_MAXIMUMS)]; intros; rto_walk.
Qed.
Lemma rto_transmit_sent s id n now : rto_ok s -> post rto_ok (transmit_sent s id n now).
Proof. intros. unfold transmit_sent, seg_new. rto_walk. Qed.
#[local] Hint Resolve rto_transmit_loop rto_transmit_sent : rto.
Lemma rto_transmit s id now : rto_ok s -> post (fun r => rto_ok r.2) (transmit env s id now).
Proof. intros. unfold transmit. rto_walk. Qed.
#[local] Hint Resolve rto_transmit : rto.
Lemma rto_set_state s st : rto_ok s -> post rto_ok (set_state s st).
Proof. intros. unfold set_state. rto_walk. Qed.
#[local] Hint Resolve rto_set_state : rto.
Lemma rto_set_state_closed s e : rto_ok s -> post rto_ok (set_state_closed s e).
Proof. intros. unfold set_state_closed. rto_walk. Qed.
Lemma rto_set_state_established s : rto_ok s -> post rto_ok (set_state_established s).
Proof. intros. unfold set_state_established. rto_walk. Qed.
#[local] Hint Resolve rto_set_state_closed rto_set_state_established : rto.
Lemma rto_closedown_remote s e : rto_ok s -> post rto_ok (closedown_remote s e).
Proof. intros. unfold closedown_remote, closedown_switch. rto_walk. Qed.
#[local] Hint Resolve rto_closedown_remote : rto.

Lemma rto_attempt_send_loop fuel : forall s f now,
  rto_ok s -> post rto_ok (attempt_send_loop fuel env s f now).
Proof. induction fuel; cbn [attempt_send_loop]; intros; rto_walk. Qed.
#[local] Hint Resolve rto_attempt_send_loop : rto.
Lemma rto_get_current_time s : rto_ok s -> rto_ok (get_current_time env s).2.
Proof. unfold get_current_time. by destruct (nonzero _). Qed.
Lemma rto_attempt_send s f : rto_ok s -> post rto_ok (attempt_send env s f).
Proof.
  intros H. apply rto_get_current_time in H. unfold attempt_send.
  destruct (get_current_time env s). simpl in H. rto_walk.
Qed.
Lemma rto_queue s d l f : rto_ok s -> post (fun r => rto_ok r.2) (queue s d l f).
Proof. intros. unfold queue, seg_new. rto_walk. Qed.
#[local] Hint Resolve rto_attempt_send rto_queue : rto.
Lemma rto_queue_connect s : rto_ok s -> post rto_ok (queue_connect_message s).
Proof. intros. unfold queue_connect_message. rto_walk. Qed.
Lemma rto_queue_fin s : rto_ok s -> post rto_ok (queue_fin_message s).
Proof. intros. unfold queue_fin_message. rto_walk. Qed.
Lemma rto_queue_rst s : rto_ok s -> post rto_ok (queue_rst_message s).
Proof. intros. unfold queue_rst_message. rto_walk. Qed.
#[local] Hint Resolve rto_queue_connect rto_queue_fin rto_queue_rst : rto.
Lemma rto_closedown s e src : rto_ok s -> post rto_ok (closedown env s e src).
Proof. intros. unfold closedown. rto_walk. Qed.
#[local] Hint Resolve rto_closedown : rto.

Lemma rto_apply_option s k d l : rto_ok s -> post rto_ok (apply_option s k d l).
Proof. intros. unfold apply_option. rto_walk. Qed.
#[local] Hint Resolve rto_apply_option : rto.
Lemma rto_parse_options_loop fuel d l : forall p w f s,
  rto_ok s -> post (fun r => rto_ok r.2) (parse_options_loop fuel d l p w f s).
Proof. induction fuel; cbn [parse_options_loop]; intros; rto_walk. Qed.
Lemma rto_resize s n : rto_ok s -> post rto_ok (resize_receive_buffer env s n).
Proof. intros. unfold resize_receive_buffer. rto_walk. Qed.
#[local] Hint Resolve rto_parse_options_loop rto_resize : rto.
Lemma rto_parse_options s d l : rto_ok s -> post rto_ok (parse_options env s d l).
Proof. intros. unfold parse_options. rto_walk. Qed.
#[local] Hint Resolve rto_parse_options : rto.
Lemma rto_process_control s seg : rto_ok s -> post (fun r => rto_ok r.2) (process_control env s seg).
Proof. intros. unfold process_control. rto_walk. Qed.
Lemma rto_free_acked fuel : forall s n, rto_ok s -> post rto_ok (free_acked fuel s n).
Proof. induction fuel; cbn [free_acked]; intros; rto_walk. Qed.
#[local] Hint Resolve rto_process_control rto_free_acked : rto.
Lemma rto_retransmit_head s now : rto_ok s -> post (fun r => rto_ok r.2) (retransmit_head env s now).
Proof. intros. unfold retransmit_head. rto_walk. Qed.
#[local] Hint Resolve rto_retransmit_head : rto.
Lemma rto_ack_congestion s n now :
  rto_ok s -> post (fun r => rto_ok r.2) (process_ack_congestion env s n now).
Proof. intros. unfold process_ack_congestion. rto_walk. Qed.
#[local] Hint Resolve rto_ack_congestion : rto.
Lemma rto_valuable_ack s seg now :
  rto_ok s -> post (fun r => rto_ok r.2) (process_valuable_ack env s seg now).
Proof.
  intros H. unfold process_valuable_ack. apply (rto_keeps_rtt s seg now) in H.
  destruct (process_rtt s seg now). simpl in H. rto_walk.
Qed.
Lemma rto_duplicate_ack s seg now :
  rto_ok s -> post (fun r => rto_ok r.2) (process_duplicate_ack env s seg now).
Proof. intros. unfold process_duplicate_ack. rto_walk. Qed.
#[local] Hint Resolve rto_valuable_ack rto_duplicate_ack : rto.
Lemma rto_process_ack s seg now : rto_ok s -> post (fun r => rto_ok r.2) (process_ack env s seg now).
Proof. intros. unfold process_ack. rto_walk. Qed.
Lemma rto_process_fin s seg a : rto_ok s -> post (fun r => rto_ok r.2) (process_fin s seg a).
Proof. intros. unfold process_fin, process_fin_switch. rto_walk. Qed.
Lemma rto_recover_rlist l : forall s r, rto_ok s -> post (fun x => rto_ok x.2) (recover_rlist l s r).
Proof. induction l; cbn [recover_rlist]; intros; rto_walk. Qed.
#[local] Hint Resolve rto_process_ack rto_process_fin rto_recover_rlist : rto.
Lemma rto_process_receive s seg f : rto_ok s -> post (fun x => rto_ok x.2) (process_receive s seg f).
Proof. intros. unfold process_receive, process_data. rto_walk. Qed.
#[local] Hint Resolve rto_process_receive : rto.
Lemma rto_process s seg : rto_ok s -> post (fun r => rto_ok r.2) (process env s seg).
Proof.
  intros H. pose proof (rto_get_current_time s H) as H0. unfold process.
  destruct (get_current_time env s). simpl in H0. unfold process_timestamp, process_writable.
  rto_walk.
Qed.
#[local] Hint Resolve rto_process : rto.

Lemma rto_clock_retransmit s now :
  rto_ok s -> post (fun r => rto_ok r.2) (clock_retransmit env s now).
Proof.
  intros H. unfold clock_retransmit. post_if; [|by apply post_ok].
  destruct (slist s); [apply post_fail|].
  eapply post_bind; [by apply rto_transmit|]. intros [st s1] H1. simpl in H1.
  post_if; [rto_walk|]. apply post_ok. cbv zeta. simpl snd.
  match goal with |- rto_ok (if _ then put_fast_recovery _ (put_dup_acks _ ?x) else _) =>
    cut (rto_ok x); [generalize x; intros s2 H2; destruct (3 <=? _); exact H2|] end.
  set (limit := if state_num (state s1) <? state_num TCP_ESTABLISHED then DEF_RTO else MAX_RTO).
  assert (limit = DEF_RTO \/ limit = MAX_RTO) as Hlim
    by (subst limit; destruct (state_num (state s1) <? _); auto).
  pose proof (rto_backoff limit (rx_rto s1) Hlim H1) as Hb. exact Hb.
Qed.

Lemma rto_clock_probe s now : rto_ok s -> post (fun r => rto_ok r.2) (clock_probe env s now).
Proof.
  intros H. unfold clock_probe. post_if; [|by apply post_ok]. post_if; [rto_walk|].
  eapply post_bind; [by apply rto_packet|]. intros [? s1] H1. apply post_ok.
  pose proof (rto_backoff MAX_RTO (rx_rto s1) (or_intror eq_refl) H1) as Hb. exact Hb.
Qed.
#[local] Hint Resolve rto_clock_retransmit rto_clock_probe : rto.

Lemma rto_run_op o s : rto_ok s -> post rto_ok (run_op env o s).
Proof.
  intros H. pose proof (rto_get_current_time s H) as H0.
  destruct o; cbn [run_op].
  - unfold pseudo_tcp_socket_connect. rto_walk.
  - unfold pseudo_tcp_socket_notify_mtu. rto_walk.
  - unfold pseudo_tcp_socket_notify_clock, clock_delayed_ack.
    destruct (get_current_time env s). simpl in H0. rto_walk.
  - unfold pseudo_tcp_socket_notify_packet, parse. rto_walk.
  - unfold pseudo_tcp_socket_get_next_clock.
    destruct (get_current_time env s). simpl in H0. rto_walk.
  - unfold pseudo_tcp_socket_recv. rto_walk.
  - unfold pseudo_tcp_socket_send. rto_walk.
  - unfold pseudo_tcp_socket_shutdown. rto_walk.
  - unfold pseudo_tcp_socket_close, pseudo_tcp_socket_shutdown. rto_walk.
Qed.

End Rto.

(** One operation of the public interface. *)
Definition op_step (env : Env) (s s' : Sock) : Prop := exists o, run_op env o s = Ok s'.

(** C40. The retransmission timeout of a socket stays between MIN_RTO (one
    second) and MAX_RTO (one minute), from its creation through any sequence of
    operations, whatever round-trip times are measured and however often the
    timer backs off. *)
Theorem rto_bounded (env : Env) (conversation : Z) (cbs : PseudoTcpCallbacks) (s0 s : Sock) :
  pseudo_tcp_socket_new env true conversation (Some cbs) = Some s0 ->
  rtc (op_step env) s0 s -> MIN_RTO <= rx_rto s <= MAX_RTO.
Proof.
  intros [= <-] Hs. change (rto_ok s).
  refine (rtc_ind_r rto_ok _ _ _ s Hs); [split; vm_compute; congruence|].
  intros s1 s2 _ [o E] H1. exact (rto_run_op env o s1 H1 _ E).
Qed.

Definition fresh : Sock := put_callbacks cbs (put_conv 1 (pseudo_tcp_socket_init env0 zero_sock)).

Lemma rto_bounded_witness : exists s,
  run_op env0 OpConnect fresh = Ok s /\ MIN_RTO <= rx_rto s <= MAX_RTO.
Proof.
  assert (returns (run_op env0 OpConnect fresh) = true) as E by (vm_compute; reflexivity).
  destruct (run_op env0 OpConnect fresh) as [s| | |] eqn:E1; [|discriminate E..].
  exists s. split; [reflexivity|].
  exact (rto_bounded env0 1 cbs fresh s eq_refl (rtc_once _ _ (ex_intro _ OpConnect E1))).
Defined.

(** ** Runs at the edges *)

(** A network that refuses every packet after the first two. *)
Definition env_fail : Env :=
  mkEnv (fun n _ => if Nat.leb n 1 then WR_SUCCESS else WR_FAIL)
    (fun n => 1000000 + 1000 * Z.of_nat n) 205.

(** Two more bytes written behind unacknowledged data: Nagle's algorithm holds
    them back. *)
Definition held : Sock :=
  match pseudo_tcp_socket_send env_fail sent3 [4; 5] 2 with Ok (_, s) => s | _ => sent3 end.

(** A graceful shutdown can abort the process: when data are held back and
    the network fails while they are flushed, the socket is already CLOSED when
    [pseudo_tcp_socket_shutdown] moves it to FIN-WAIT-1, and the assertion of
    [set_state] fails. *)
Theorem shutdown_aborts_when_flush_fails :
  state held = TCP_ESTABLISHED /\
  pseudo_tcp_socket_shutdown env_fail held PSEUDO_TCP_SHUTDOWN_WR = AssertFail 2476.
Proof. split; vm_compute; reflexivity. Qed.

Definition fin_packet (seq : Z) : bytes := packet_header 1 seq 7 FLAG_FIN 128 1100 1002.

(** The peer sends 1 2 3, then 4 5 6 and a FIN. The second segment is lost at
    first; a duplicate of the first arrives after the FIN. *)
Definition lossy_run : Sock :=
  let s := deliver connected (data_packet 7 [1; 2; 3]) in
  let s := deliver s (fin_packet 13) in
  let s := deliver s (data_packet 7 [1; 2; 3]) in
  deliver s (data_packet 10 [4; 5; 6]).

(** Received data can be lost: [process] takes the FIN for reached when
    [rcv_nxt] plus the length of any segment equals its sequence number, also
    for an old duplicate that adds nothing. In this run, which only loses,
    repeats and reorders packets of a correct peer, the stream 1 2 3 4 5 6 is
    handed to the application without its fourth byte. *)
Theorem duplicate_before_fin_loses_data :
  exists s, pseudo_tcp_socket_recv env0 lossy_run 100 = Ok (5, [1; 2; 3; 5; 6], s) /\
    state lossy_run = TCP_CLOSE_WAIT.
Proof.
  exists (match pseudo_tcp_socket_recv env0 lossy_run 100 with Ok (_, _, s) => s | _ => lossy_run end).
  split; vm_compute; reflexivity.
Qed.

(** The value 0 of [rcv_fin], documented as no FIN received, is also a
    sequence number: a plain data segment that ends where the sequence numbers
    wrap to 0 is taken for the FIN, and closes the receiving side. *)
Theorem wrap_taken_for_fin (s : Sock) (seg : Segment) :
  state s = TCP_ESTABLISHED -> support_fin_ack s = true -> rcv_fin s = 0 ->
  has_flag seg FLAG_FIN = false -> rcv_nxt s <> 0 -> u32 (rcv_nxt s + seg_len seg) = 0 ->
  process_fin s seg false = Ok (Some true, put_state TCP_CLOSE_WAIT s).
Proof.
  intros Hst Hf H0 Hnf Hn Hw. unfold process_fin. rewrite Hf, Hnf. cbn [andb].
  rewrite Hw, H0. unfold nonzero. rewrite (proj2 (Z.eqb_neq _ _)) by done. cbn [negb andb Z.eqb].
  unfold process_fin_switch. rewrite Hst. unfold set_state. rewrite Hst. reflexivity.
Qed.

Lemma wrap_taken_for_fin_witness :
  let s := put_rcv_nxt (2 ^ 32 - 3) connected in
  let seg := mkSegment 1 (2 ^ 32 - 3) 7 0 128 [1; 2; 3] 3 1100 1002 in
  process_fin s seg false = Ok (Some true, put_state TCP_CLOSE_WAIT s).
Proof.
  exact (wrap_taken_for_fin (put_rcv_nxt (2 ^ 32 - 3) connected)
    (mkSegment 1 (2 ^ 32 - 3) 7 0 128 [1; 2; 3] 3 1100 1002)
    ltac:(vm_compute; reflexivity) ltac:(vm_compute; reflexivity) ltac:(vm_compute; reflexivity)
    ltac:(vm_compute; reflexivity) ltac:(vm_compute; discriminate) ltac:(vm_compute; reflexivity)).
Defined.

(** The window scale of the peer is not checked: a connect message that
    announces a scale of 32 or more makes the next acknowledgement shift a
    32-bit integer by more than its width, which the language leaves undefined. *)
Theorem peer_scale_undefined (env : Env) (s : Sock) (seg : Segment) (now scale : Z) :
  32 <= scale -> seg_ack seg = snd_una s ->
  process_ack env (apply_window_scale_option s scale) seg now = Undef.
Proof.
  intros Hs Ha. unfold process_ack. cbn [snd_una apply_window_scale_option put_swnd_scale].
  rewrite Ha. replace (LARGER (snd_una s) (snd_una s)) with false.
  2:{ symmetry. unfold LARGER. by replace (snd_una s - snd_una s - 1) with (-1) by lia. }
  cbn [andb]. rewrite Z.eqb_refl. unfold process_duplicate_ack.
  change (swnd_scale (apply_window_scale_option s scale)) with scale. unfold scaled_window.
  rewrite (proj2 (Z.ltb_ge scale 32)) by lia. reflexivity.
Qed.

Lemma peer_scale_undefined_witness :
  process_ack env0 (apply_window_scale_option connected 40)
    (mkSegment 1 7 7 0 128 [] 0 1100 1002) 2000 = Undef.
Proof.
  exact (peer_scale_undefined env0 connected (mkSegment 1 7 7 0 128 [] 0 1100 1002) 2000 40
    ltac:(lia) eq_refl).
Defined.

(** The property of Nagle's algorithm is stored negated and read back
    without the negation: what [pseudo_tcp_socket_get_property] returns for
    PROP_NO_DELAY is the opposite of what was set. *)
Theorem no_delay_reads_back_negated (env : Env) (s s' : Sock) (v : bool) :
  pseudo_tcp_socket_set_property env s (PROP_NO_DELAY v) = Ok s' ->
  pseudo_tcp_socket_get_property s' ID_NO_DELAY = PROP_NO_DELAY (negb v).
Proof. by intros [= <-]. Qed.

Lemma no_delay_reads_back_negated_witness :
  pseudo_tcp_socket_get_property (put_use_nagling false small_sock) ID_NO_DELAY = PROP_NO_DELAY false.
Proof.
  exact (no_delay_reads_back_negated env0 small_sock (put_use_nagling false small_sock) true eq_refl).
Defined.

End Cases.
