(* ===== verification/Glib.v ===== *)
(** * The lists and queues of GLib

    src/src/session/pseudotcp/glist.c and gqueue.c, copies of the files of GLib: the
    functions that the pseudo TCP socket reaches, on a store of list elements. The socket
    keeps its segments in two queues and a list (TcpTypes), which TcpOps and TcpProcess
    take for lists; GlibThm shows that they may. *)

From Stdlib Require Import ZArith Lia.
From stdpp Require Import prelude gmap list.
From S2P Require Import Prelude.

Module Glib.

Section Lists.
Context {D : Type} `{EqDecision D}.

(** The address 0 is [NULL]. *)
Record GList := mkGList { data : D; next : Z; prev : Z }.
Record GQueue := mkGQueue { head : Z; tail : Z; length : Z }.
Notation store := (gmap Z GList).

(** ** Access *)

Definition load (a : Z) (m : store) : outcome GList := match m !! a with Some n => Ok n | None => Undef end.
Definition set_next (a v : Z) (m : store) : outcome store := n ← load a m; Ok (<[a := mkGList (data n) v (prev n)]> m).
Definition set_prev (a v : Z) (m : store) : outcome store := n ← load a m; Ok (<[a := mkGList (data n) (next n) v]> m).

(** [malloc] and the writes of the fields, for the address that it has answered: nothing
    tests it for [NULL]. A link that is not written at once is given here as 0. *)
Definition g_list_alloc (a : Z) (d : D) (nx pv : Z) (m : store) : outcome store :=
  if a =? 0 then Undef else Ok (<[a := mkGList d nx pv]> m).

Definition g_list_free_1 (a : Z) (m : store) : outcome store :=
  if a =? 0 then Ok m else _ ← load a m; Ok (delete a m).

(** ** Lists *)

(** The loops follow the links; a store has no more elements than its size. *)
Definition fuel_of (m : store) : nat := S (size m).

Fixpoint g_slice_free_chain (fuel : nat) (a : Z) (m : store) : outcome store :=
  match fuel with
  | O => NoFuel
  | S fuel =>
      if a =? 0 then Ok m
      else n ← load a m; m ← g_list_free_1 a m; g_slice_free_chain fuel (next n) m
  end.
Definition g_list_free (list : Z) (m : store) : outcome store := g_slice_free_chain (fuel_of m) list m.

Fixpoint last_loop (fuel : nat) (list : Z) (m : store) : outcome Z :=
  match fuel with
  | O => NoFuel
  | S fuel => n ← load list m; if next n =? 0 then Ok list else last_loop fuel (next n) m
  end.
Definition g_list_last (list : Z) (m : store) : outcome Z :=
  if list =? 0 then Ok 0 else last_loop (fuel_of m) list m.

Definition g_list_append (a list : Z) (d : D) (m : store) : outcome (Z * store) :=
  m ← g_list_alloc a d 0 0 m;
  if negb (list =? 0) then
    last ← g_list_last list m;
    m ← set_next last a m;
    m ← set_prev a last m;
    Ok (list, m)
  else m ← set_prev a 0 m; Ok (a, m).

Definition g_list_prepend (a list : Z) (d : D) (m : store) : outcome (Z * store) :=
  m ← g_list_alloc a d list 0 m;
  if negb (list =? 0) then
    n ← load list m;
    m ← set_prev a (prev n) m;
    m ← (if negb (prev n =? 0) then set_next (prev n) a m else Ok m);
    m ← set_prev list a m;
    Ok (a, m)
  else m ← set_prev a 0 m; Ok (a, m).

(** The warnings are left out: they change nothing here. *)
Definition g_list_insert_before (a list sibling : Z) (d : D) (m : store) : outcome (Z * store) :=
  if list =? 0 then m ← g_list_alloc a d 0 0 m; Ok (a, m)
  else if negb (sibling =? 0) then
    m ← g_list_alloc a d 0 0 m;
    s ← load sibling m;
    m ← set_prev a (prev s) m;
    m ← set_next a sibling m;
    m ← set_prev sibling a m;
    node ← load a m;
    if negb (prev node =? 0) then m ← set_next (prev node) a m; Ok (list, m)
    else Ok (a, m)
  else
    last ← last_loop (fuel_of m) list m;
    m ← g_list_alloc a d 0 0 m;
    m ← set_next last a m;
    m ← set_prev a last m;
    m ← set_next a 0 m;
    Ok (list, m).

Definition _g_list_remove_link (list link : Z) (m : store) : outcome (Z * store) :=
  if link =? 0 then Ok (list, m)
  else
    l ← load link m;
    m ← (if negb (prev l =? 0) then
           p ← load (prev l) m; if next p =? link then set_next (prev l) (next l) m else Ok m
         else Ok m);
    m ← (if negb (next l =? 0) then
           n ← load (next l) m; if prev n =? link then set_prev (next l) (prev l) m else Ok m
         else Ok m);
    list ← (if link =? list then n ← load list m; Ok (next n) else Ok list);
    m ← set_next link 0 m;
    m ← set_prev link 0 m;
    Ok (list, m).

Definition g_list_remove_link := _g_list_remove_link.

Definition g_list_delete_link (list link : Z) (m : store) : outcome (Z * store) :=
  '(list, m) ← _g_list_remove_link list link m;
  m ← g_list_free_1 link m;
  Ok (list, m).

Fixpoint find_loop (fuel : nat) (list : Z) (d : D) (m : store) : outcome Z :=
  match fuel with
  | O => NoFuel
  | S fuel =>
      if list =? 0 then Ok 0
      else n ← load list m; if bool_decide (data n = d) then Ok list else find_loop fuel (next n) d m
  end.
Definition g_list_find (list : Z) (d : D) (m : store) : outcome Z := find_loop (fuel_of m) list d m.

Definition g_list_next (list : Z) (m : store) : outcome Z :=
  if list =? 0 then Ok 0 else n ← load list m; Ok (next n).

(** ** Queues

    A queue is a struct in the object that uses it. *)

Definition g_queue_init : GQueue := mkGQueue 0 0 0.

Definition g_queue_clear (q : GQueue) (m : store) : outcome (GQueue * store) :=
  m ← g_list_free (head q) m; Ok (g_queue_init, m).

Definition g_queue_is_empty (q : GQueue) : bool := head q =? 0.
Definition g_queue_get_length (q : GQueue) : Z := length q.
Definition g_queue_peek_head_link (q : GQueue) : Z := head q.
Definition g_queue_peek_tail_link (q : GQueue) : Z := tail q.

Definition g_queue_find (q : GQueue) (d : D) (m : store) : outcome Z := g_list_find (head q) d m.

Definition g_queue_push_head (a : Z) (q : GQueue) (d : D) (m : store) : outcome (GQueue * store) :=
  '(h, m) ← g_list_prepend a (head q) d m;
  Ok (mkGQueue h (if tail q =? 0 then h else tail q) (u32 (length q + 1)), m).

Definition g_queue_push_tail (a : Z) (q : GQueue) (d : D) (m : store) : outcome (GQueue * store) :=
  '(t, m) ← g_list_append a (tail q) d m;
  n ← load t m;
  Ok (if negb (next n =? 0) then mkGQueue (head q) (next n) (u32 (length q + 1))
      else mkGQueue t t (u32 (length q + 1)), m).

Definition g_queue_pop_head (q : GQueue) (m : store) : outcome (option D * GQueue * store) :=
  if negb (head q =? 0) then
    let node := head q in
    n ← load node m;
    m ← (if negb (next n =? 0) then set_prev (next n) 0 m else Ok m);
    m ← g_list_free_1 node m;
    Ok (Some (data n), mkGQueue (next n) (if next n =? 0 then 0 else tail q) (u32 (length q - 1)), m)
  else Ok (None, q, m).

Definition g_queue_pop_tail (q : GQueue) (m : store) : outcome (option D * GQueue * store) :=
  if negb (tail q =? 0) then
    let node := tail q in
    n ← load node m;
    m ← (if negb (prev n =? 0) then set_next (prev n) 0 m else Ok m);
    m ← g_list_free_1 node m;
    Ok (Some (data n), mkGQueue (if prev n =? 0 then 0 else head q) (prev n) (u32 (length q - 1)), m)
  else Ok (None, q, m).

Definition g_queue_peek_head (q : GQueue) (m : store) : outcome (option D) :=
  if negb (head q =? 0) then n ← load (head q) m; Ok (Some (data n)) else Ok None.

Definition g_queue_peek_tail (q : GQueue) (m : store) : outcome (option D) :=
  if negb (tail q =? 0) then n ← load (tail q) m; Ok (Some (data n)) else Ok None.

Definition g_queue_insert_before (a : Z) (q : GQueue) (sibling : Z) (d : D) (m : store) : outcome (GQueue * store) :=
  if sibling =? 0 then g_queue_push_tail a q d m
  else
    '(h, m) ← g_list_insert_before a (head q) sibling d m;
    Ok (mkGQueue h (tail q) (u32 (length q + 1)), m).

Definition g_queue_insert_after (a : Z) (q : GQueue) (sibling : Z) (d : D) (m : store) : outcome (GQueue * store) :=
  if sibling =? 0 then g_queue_push_head a q d m
  else n ← load sibling m; g_queue_insert_before a q (next n) d m.

Definition g_queue_unlink (q : GQueue) (link : Z) (m : store) : outcome (GQueue * store) :=
  if link =? 0 then Ok (q, m)
  else
    t ← (if link =? tail q then n ← load (tail q) m; Ok (prev n) else Ok (tail q));
    '(h, m) ← g_list_remove_link (head q) link m;
    Ok (mkGQueue h t (u32 (length q - 1)), m).

Definition g_queue_delete_link (q : GQueue) (link : Z) (m : store) : outcome (GQueue * store) :=
  if link =? 0 then Ok (q, m)
  else
    '(q, m) ← g_queue_unlink q link m;
    m ← g_list_free link m;
    Ok (q, m).

Definition g_queue_remove (q : GQueue) (d : D) (m : store) : outcome (bool * GQueue * store) :=
  link ← g_list_find (head q) d m;
  if negb (link =? 0) then '(q, m) ← g_queue_delete_link q link m; Ok (true, q, m) else Ok (false, q, m).

End Lists.

Arguments GList D : clear implicits.

End Glib.
