(* ===== verification/GlibThm.v ===== *)
(** * The lists and queues of GLib, theorems

    The elements of a queue that are linked in the store are the list that the model of
    the pseudo TCP socket takes the queue for. *)

From Stdlib Require Import ZArith Lia.
From stdpp Require Import prelude gmap list.
From S2P Require Import Prelude Glib.

Module GlibThm.
Import Glib.

(** ** Segments of a list *)

Section Segments.
Context {D : Type} `{EqDecision D}.
Implicit Types (m : gmap Z (GList D)) (l : list (Z * D)).

Definition addrs l : list Z := l.*1.
Definition first l (after : Z) : Z := match l with [] => after | (a, _) :: _ => a end.
Fixpoint final (before : Z) l : Z := match l with [] => before | (a, _) :: l => final a l end.

(** Between the elements [before] and [after]. *)
Fixpoint seg m (before : Z) l (after : Z) : Prop :=
  match l with
  | [] => True
  | (a, d) :: l => m !! a = Some (mkGList d (first l after) before) /\ seg m a l after
  end.

Lemma first_app l1 l2 c : first (l1 ++ l2) c = first l1 (first l2 c).
Proof. by destruct l1 as [|[]]. Qed.

Lemma final_app l1 : forall b l2, final b (l1 ++ l2) = final (final b l1) l2.
Proof. induction l1 as [|[a d] l1 IH]; intros b l2; [done|]. apply IH. Qed.

Lemma segment_app m l1 : forall b l2 c, seg m b (l1 ++ l2) c <-> seg m b l1 (first l2 c) /\ seg m (final b l1) l2 c.
Proof.
  induction l1 as [|[a d] l1 IH]; intros b l2 c; cbn [app seg final]; [tauto|]. rewrite IH, first_app. tauto.
Qed.

Lemma segment_ext m m' l : forall b c, (forall x, x ∈ addrs l -> m' !! x = m !! x) -> seg m b l c -> seg m' b l c.
Proof.
  induction l as [|[a d] l IH]; intros b c Hx; cbn; [done|]. intros [Ha Hl]. split; [rewrite Hx by (cbn; set_solver); done|].
  apply IH; [|done]. intros x Hin. apply Hx. cbn. set_solver.
Qed.

Lemma addrs_app l1 l2 : addrs (l1 ++ l2) = addrs l1 ++ addrs l2.
Proof. apply fmap_app. Qed.

Lemma first_in l : first l 0 = 0 \/ first l 0 ∈ addrs l.
Proof. destruct l as [|[a d] l]; [by left|right; cbn; set_solver]. Qed.

Lemma final_in l : forall b, final b l = b /\ l = [] \/ final b l ∈ addrs l.
Proof.
  induction l as [|[a d] l IH]; intros b; [by left|]. right. cbn [final]. destruct (IH a) as [[-> _]|H]; cbn; set_solver.
Qed.

Lemma seg_in m x l : forall b c, seg m b l c -> x ∈ addrs l -> is_Some (m !! x).
Proof.
  induction l as [|[a d] l IH]; intros b c; cbn; [by intros _ Hx%elem_of_nil|]. intros [Ha Hl] Hx.
  apply elem_of_cons in Hx as [->|Hx]; [by eauto|by apply (IH _ _ Hl)].
Qed.

Lemma seg_size m b l c : seg m b l c -> NoDup (addrs l) -> (List.length l <= size m)%nat.
Proof.
  intros Hs Hn. assert (List.length l = size (list_to_set (addrs l) : gset Z)) as ->.
  2:{ rewrite <- (size_dom m). apply subseteq_size. intros x Hx. apply elem_of_list_to_set in Hx. apply elem_of_dom.
    by apply (seg_in _ _ _ _ _ Hs). }
  rewrite size_list_to_set by done. unfold addrs. by rewrite length_fmap.
Qed.

(** ** A list and its store *)

(** All of a list, from one [NULL] to the other. *)
Record chain m l : Prop := {
  chain_seg : seg m 0 l 0;
  chain_nodup : NoDup (addrs l);
  chain_null : m !! 0 = None;
}.

Lemma chain_in m l x : chain m l -> x ∈ addrs l -> is_Some (m !! x) /\ x <> 0.
Proof. intros [Hs _ Hz] Hx. apply (seg_in _ _ _ _ _ Hs) in Hx as [n Hx]. split; [by eauto|]. intros ->. congruence. Qed.

(** The list has been changed, and nothing else of the store; the elements that are not in
    it any more are free. *)
Definition moved m m' l l' : Prop :=
  chain m' l' /\ forall x, x ∉ addrs l' -> m' !! x = if decide (x ∈ addrs l) then None else m !! x.

(** The two neighbours of a place in a list, after it has been linked anew. *)
Definition linked m (p v q w c : Z) : option (GList D) :=
  (fun n => mkGList (data n) (if decide (c = p) then v else next n) (if decide (c = q) then w else prev n)) <$> m !! c.

Lemma seg_last m m' l : forall b c v, seg m b l c -> NoDup (addrs l) ->
  (forall x, x ∈ addrs l -> m' !! x = if decide (x = final b l) then (fun n => mkGList (data n) v (prev n)) <$> m !! x else m !! x) ->
  seg m' b l v.
Proof.
  induction l as [|[a d] l IH]; intros b c v; cbn [seg]; [done|]. intros [Ha Hl] Hn Hx. cbn in Hn. apply NoDup_cons in Hn as [Hal Hn].
  split.
  - rewrite Hx by (cbn; set_solver). cbn [final]. destruct (final_in l a) as [[E ->]|Hin].
    + cbn. rewrite decide_True by done. by rewrite Ha.
    + rewrite decide_False by (intros E; rewrite <- E in Hin; done). rewrite Ha. destruct l as [|[]]; [by apply elem_of_nil in Hin|done].
  - apply (IH a c); [done|done|]. intros x Hin. rewrite Hx by (cbn; set_solver). done.
Qed.

Lemma seg_first m m' l b c w : seg m b l c -> NoDup (addrs l) ->
  (forall x, x ∈ addrs l -> m' !! x = if decide (x = first l c) then (fun n => mkGList (data n) (next n) w) <$> m !! x else m !! x) ->
  seg m' w l c.
Proof.
  destruct l as [|[a d] l]; cbn [seg]; [done|]. intros [Ha Hl] Hn Hx. cbn in Hn. apply NoDup_cons in Hn as [Hal Hn]. split.
  - rewrite Hx by (cbn; set_solver). cbn. rewrite decide_True by done. by rewrite Ha.
  - apply (segment_ext m); [|done]. intros x Hin. rewrite Hx by (cbn; set_solver). cbn. by rewrite decide_False by (intros ->; done).
Qed.

(** Two parts of a list whose ends have been linked anew. *)
Lemma seg_relinked m m' l1 l2 x y v w : seg m 0 l1 x -> seg m y l2 0 -> NoDup (addrs (l1 ++ l2)) -> m !! 0 = None ->
  (forall c, c ∈ addrs (l1 ++ l2) -> m' !! c = linked m (final 0 l1) v (first l2 0) w c) ->
  seg m' 0 l1 v /\ seg m' w l2 0.
Proof.
  intros H1 H2 Hn Hz Hm. rewrite addrs_app in Hn, Hm. apply NoDup_app in Hn as (Hn1 & Hn12 & Hn2).
  assert (forall x, x ∈ addrs l1 \/ x ∈ addrs l2 -> x <> 0) as Hnz by (intros z [Hx|Hx] ->; eapply seg_in in Hx as [? Hx]; eauto; congruence).
  split.
  - apply (seg_last m _ _ _ _ _ H1 Hn1). rename x into x0. intros x Hx. rewrite Hm by set_solver. unfold linked.
    assert (x <> first l2 0) as Hf. { intros ->. destruct (first_in l2) as [E|E]; [apply (Hnz (first l2 0)); auto|by apply (Hn12 _ Hx)]. }
    destruct (m !! x) as [[]|]; cbn; rewrite ?(decide_False _ _ Hf); by destruct (decide _).
  - apply (seg_first m _ _ _ _ _ H2 Hn2). rename x into x0. intros x Hx. rewrite Hm by set_solver. unfold linked.
    assert (x <> final 0 l1) as Hf. { intros ->. destruct (final_in l1 0) as [[E _]|E]; [apply (Hnz (final 0 l1)); auto|by apply (Hn12 _ E)]. }
    destruct (m !! x) as [[]|]; cbn; rewrite ?(decide_False _ _ Hf); by destruct (decide _).
Qed.

(** A new element [a] between two parts. *)
Lemma link_moved m m' l1 l2 a d : chain m (l1 ++ l2) -> m !! a = None -> a <> 0 ->
  (forall c, m' !! c = if decide (c = a) then Some (mkGList d (first l2 0) (final 0 l1)) else linked m (final 0 l1) a (first l2 0) a c) ->
  moved m m' (l1 ++ l2) (l1 ++ (a, d) :: l2).
Proof.
  intros Hc Ha Ha0 Hm. pose proof Hc as [_ Hn Hz]. pose proof (fun x => chain_in _ _ x Hc) as Hin.
  assert (a ∉ addrs (l1 ++ l2)) as Hal. { intros E. destruct (Hin a E) as [[n ?] _]. congruence. }
  pose proof (chain_seg _ _ Hc) as Hs. apply segment_app in Hs as [H1 H2].
  destruct (seg_relinked m m' l1 l2 _ _ a a H1 H2 Hn Hz) as [S1 S2].
  { intros c Hx. rewrite Hm, decide_False by (intros ->; done). done. }
  assert (Permutation (addrs (l1 ++ (a, d) :: l2)) (a :: addrs (l1 ++ l2))) as HP.
  { rewrite !addrs_app. cbn. symmetry. apply Permutation_middle. }
  split.
  - split; [|by rewrite HP; apply NoDup_cons|].
    + apply segment_app. cbn [first seg]. split; [done|]. split; [rewrite Hm; by rewrite decide_True|done].
    + rewrite Hm, decide_False by done. unfold linked. by rewrite Hz.
  - intros x Hx. rewrite HP in Hx. apply not_elem_of_cons in Hx as [Hxa Hx]. rewrite Hm, !decide_False by done. unfold linked.
    destruct (m !! x) as [[]|] eqn:E; [|done]. cbn. assert (x <> 0) as Hx0 by congruence. rewrite addrs_app in Hx.
    rewrite !decide_False; [done| |].
    + intros ->. destruct (first_in l2); [done|set_solver].
    + intros ->. destruct (final_in l1 0) as [[? _]|?]; [done|set_solver].
Qed.

(** An element is taken out from between two parts. *)
Lemma unlink_moved m m' l1 l2 a d : chain m (l1 ++ (a, d) :: l2) ->
  (forall c, m' !! c = if decide (c = a) then None else linked m (final 0 l1) (first l2 0) (first l2 0) (final 0 l1) c) ->
  moved m m' (l1 ++ (a, d) :: l2) (l1 ++ l2).
Proof.
  intros Hc Hm. pose proof Hc as [Hs Hn Hz]. apply segment_app in Hs as [H1 [Ha H2]]. pose proof (fun x => chain_in _ _ x Hc) as Hin.
  assert (Permutation (addrs (l1 ++ (a, d) :: l2)) (a :: addrs (l1 ++ l2))) as HP.
  { rewrite !addrs_app. cbn. symmetry. apply Permutation_middle. }
  rewrite HP in Hn. apply NoDup_cons in Hn as [Hal Hn].
  destruct (seg_relinked m m' l1 l2 _ _ (first l2 0) (final 0 l1) H1 H2 Hn Hz) as [S1 S2].
  { intros c Hx. rewrite Hm, decide_False by (intros ->; done). done. }
  split.
  - split; [by apply segment_app|done|]. rewrite Hm. destruct (decide _); [done|]. unfold linked. by rewrite Hz.
  - intros x Hx. rewrite Hm. destruct (decide (x = a)) as [->|Hxa]; [by rewrite decide_True by (rewrite HP; left)|].
    rewrite (decide_False (P := x ∈ addrs (l1 ++ (a, d) :: l2))) by (rewrite HP, elem_of_cons; tauto). unfold linked.
    destruct (m !! x) as [[]|] eqn:E; [|done]. cbn. assert (x <> 0) as Hx0 by congruence. rewrite addrs_app in Hx.
    rewrite !decide_False; [done| |].
    + intros ->. destruct (first_in l2); [done|set_solver].
    + intros ->. destruct (final_in l1 0) as [[? _]|?]; [done|set_solver].
Qed.

(** ** Queues *)

Definition queue m (q : GQueue) l : Prop := chain m l /\ q = mkGQueue (first l 0) (final 0 l) (u32 (zlen l)).

Lemma seg_nth m b l1 a d l2 c : seg m b (l1 ++ (a, d) :: l2) c -> m !! a = Some (mkGList d (first l2 c) (final b l1)).
Proof. intros H. apply segment_app in H as [_ [H _]]. exact H. Qed.

Lemma nth_of m l1 a d l2 : chain m (l1 ++ (a, d) :: l2) -> m !! a = Some (mkGList d (first l2 0) (final 0 l1)) /\ (a =? 0) = false.
Proof.
  intros Hc. split; [apply (seg_nth _ _ _ _ _ _ _ (chain_seg _ _ Hc))|]. apply Z.eqb_neq. apply (chain_in _ _ a Hc). rewrite addrs_app. cbn. set_solver.
Qed.

Lemma set_next_ok m a n v : m !! a = Some n -> set_next a v m = Ok (<[a := mkGList (data n) v (prev n)]> m).
Proof. unfold set_next, load. by intros ->. Qed.

Lemma set_prev_ok m a n v : m !! a = Some n -> set_prev a v m = Ok (<[a := mkGList (data n) (next n) v]> m).
Proof. unfold set_prev, load. by intros ->. Qed.

Lemma load_ok m a n : m !! a = Some n -> load a m = Ok n.
Proof. unfold load. by intros ->. Qed.

Lemma alloc_ok m a d nx pv : a <> 0 -> g_list_alloc a d nx pv m = Ok (<[a := mkGList d nx pv]> m).
Proof. intros Ha. unfold g_list_alloc. by rewrite (proj2 (Z.eqb_neq _ _)). Qed.

End Segments.

Ltac at_c :=
  let c := fresh "c" in intros c; unfold linked; repeat (rewrite lookup_insert || rewrite lookup_delete); destruct (_ !! c) as [[]|] eqn:?; cbn [fmap option_fmap option_map];
  repeat case_decide; subst; simplify_eq/=; try congruence; try done.

(** What is known of a link, after writes to others; and one access. *)
Ltac lk := rewrite ?lookup_insert_ne by congruence; first [apply lookup_insert_eq | eassumption].
Ltac step :=
  first [erewrite load_ok by lk | erewrite set_next_ok by lk | erewrite set_prev_ok by lk | rewrite alloc_ok by done];
  bind_simpl; cbn [data next prev].

Section Chains.
Context {D : Type} `{EqDecision D}.
Implicit Types (m : gmap Z (GList D)) (l : list (Z * D)).

Lemma g_list_append_tail m l a d : chain m l -> m !! a = None -> a <> 0 ->
  exists m', g_list_append a (final 0 l) d m = Ok (if final 0 l =? 0 then a else final 0 l, m') /\ moved m m' l (l ++ [(a, d)]).
Proof.
  intros Hc Ha Ha0. pose proof (chain_null _ _ Hc) as Hz. unfold g_list_append. step. induction l as [|[t e] l _] using rev_ind.
  - cbn [final]. cbn [negb Z.eqb]. step. eexists. split; [done|].
    apply (link_moved m _ [] [] a d); [done|done|done|]. at_c.
  - rewrite final_app. cbn [final]. destruct (nth_of _ _ _ _ _ Hc) as [Ht Ht0]. cbn [first] in Ht. rewrite Ht0. cbn [negb].
    unfold g_list_last. rewrite Ht0. unfold fuel_of. cbn [last_loop]. step. cbn [Z.eqb]. bind_simpl. step. step.
    eexists. split; [done|]. rewrite <- (app_nil_r (l ++ [(t, e)])) at 1. apply link_moved; [by rewrite app_nil_r|done|done|].
    rewrite final_app. cbn [final first]. at_c.
Qed.

Lemma g_list_prepend_head m l a d : chain m l -> m !! a = None -> a <> 0 ->
  exists m', g_list_prepend a (first l 0) d m = Ok (a, m') /\ moved m m' l ((a, d) :: l).
Proof.
  intros Hc Ha Ha0. pose proof (chain_null _ _ Hc) as Hz. unfold g_list_prepend. step. destruct l as [|[t e] l].
  - cbn [first negb Z.eqb]. step. eexists. split; [done|]. apply (link_moved m _ [] [] a d); [done|done|done|]. at_c.
  - cbn [first]. destruct (nth_of _ [] _ _ _ Hc) as [Ht Ht0]. cbn [final] in Ht. rewrite Ht0. cbn [negb]. step. step. cbn [negb Z.eqb]. bind_simpl. step.
    eexists. split; [done|]. apply (link_moved m _ [] ((t, e) :: l)); [done|done|done|]. cbn [final first]. at_c.
Qed.

(** What an operation on a queue leaves. *)
Definition served m l l' (r : outcome (@GQueue * gmap Z (GList D))) : Prop :=
  exists q' m', r = Ok (q', m') /\ queue m' q' l' /\ moved m m' l l'.

Lemma u32_zlen_app l1 l2 : u32 (u32 (zlen (l1 ++ l2)) + 1) = u32 (zlen l1 + 1 + zlen l2).
Proof. rewrite u32_add_l, zlen_app. f_equal. lia. Qed.

Lemma push_tail_spec m q l a d : queue m q l -> m !! a = None -> a <> 0 -> served m l (l ++ [(a, d)]) (g_queue_push_tail a q d m).
Proof.
  intros [Hc ->] Ha Ha0. unfold g_queue_push_tail. cbn [tail head length].
  destruct (g_list_append_tail m l a d Hc Ha Ha0) as (m' & -> & Hm). bind_simpl. pose proof Hm as [Hc' _].
  pose proof (u32_zlen_app l []) as Hl. rewrite app_nil_r in Hl. rewrite Hl.
  induction l as [|[t e] l _] using rev_ind.
  - cbn [final]. destruct (nth_of m' [] a d [] Hc') as [Hn Hn0]. cbn [Z.eqb]. step. cbn. eexists _, _. split; [done|]. split; [|done]. by split.
  - destruct (nth_of _ _ _ _ _ Hc) as [_ Ht0]. rewrite final_app in *. cbn [final] in *. rewrite Ht0.
    rewrite <- app_assoc in Hc'. cbn [app] in Hc'. destruct (nth_of _ _ _ _ _ Hc') as [Hn _]. cbn [first] in Hn. step.
    rewrite (proj2 (Z.eqb_neq a 0)) by done. cbn [negb]. eexists _, _. split; [done|]. split; [|done].
    rewrite <- app_assoc. split; [done|]. cbn [app]. rewrite final_app. f_equal; [by rewrite !first_app|]. f_equal. rewrite !zlen_app, !zlen_cons, !zlen_nil. lia.
Qed.

Lemma push_head_spec m q l a d : queue m q l -> m !! a = None -> a <> 0 -> served m l ((a, d) :: l) (g_queue_push_head a q d m).
Proof.
  intros [Hc ->] Ha Ha0. unfold g_queue_push_head. cbn [tail head length].
  destruct (g_list_prepend_head m l a d Hc Ha Ha0) as (m' & -> & Hm). bind_simpl. pose proof Hm as [Hc' _].
  eexists _, _. split; [done|]. split; [|done]. split; [done|]. cbn [first final]. f_equal.
  - destruct l as [|[t e] l] using rev_ind; [done|]. destruct (nth_of _ _ _ _ _ Hc) as [_ Ht0]. rewrite !final_app. cbn [final]. by rewrite Ht0.
  - rewrite u32_add_l, zlen_cons. f_equal. lia.
Qed.

Lemma free_1_ok m a n : m !! a = Some n -> m !! 0 = None -> g_list_free_1 a m = Ok (delete a m).
Proof. intros Ha Hz. unfold g_list_free_1. rewrite (proj2 (Z.eqb_neq a 0)) by congruence. by rewrite (load_ok _ _ _ Ha). Qed.

Lemma u32_pred l : u32 (u32 (zlen l + 1) - 1) = u32 (zlen l).
Proof. unfold u32. rewrite Zminus_mod_idemp_l. f_equal. lia. Qed.

Lemma pop_head_spec m q l : queue m q l ->
  match l with
  | [] => g_queue_pop_head q m = Ok (None, q, m)
  | (a, d) :: l' => exists q' m', g_queue_pop_head q m = Ok (Some d, q', m') /\ queue m' q' l' /\ moved m m' l l'
  end.
Proof.
  intros [Hc ->]. pose proof (chain_null _ _ Hc) as Hz. unfold g_queue_pop_head. destruct l as [|[a d] l]; [done|]. cbn [head first].
  destruct (nth_of _ [] _ _ _ Hc) as [Ha Ha0]. cbn [final] in Ha. rewrite Ha0. cbn [negb]. step.
  rewrite zlen_cons. cbn [length tail]. replace (1 + zlen l) with (zlen l + 1) by lia. rewrite u32_pred.
  destruct l as [|[b e] l].
  - cbn [first Z.eqb negb]. bind_simpl. erewrite free_1_ok by done. bind_simpl. eexists _, _. split; [done|].
    assert (moved m (delete a m) [(a, d)] []) as Hm by (apply (unlink_moved m _ [] [] a d Hc); at_c). split; [|done]. split; [apply Hm|done].
  - cbn [first]. destruct (nth_of _ [(a, d)] _ _ _ Hc) as [Hb Hb0]. rewrite Hb0. cbn [negb]. step.
    assert (a <> b) as Hab. { intros ->. pose proof (chain_nodup _ _ Hc) as Hn. apply NoDup_cons in Hn as [Hn _]. apply Hn. left. }
    erewrite free_1_ok; [|lk|by rewrite lookup_insert_ne by congruence]. bind_simpl. eexists _, _. split; [done|].
    match goal with |- queue ?x _ _ /\ _ => assert (moved m x ((a, d) :: (b, e) :: l) ((b, e) :: l)) as Hm end.
    { apply (unlink_moved m _ [] ((b, e) :: l) a d Hc). cbn [first final]. at_c. }
    split; [|done]. split; [apply Hm|done].
Qed.

(** ** Insertion *)

Lemma first_nonzero m l a d l2 : chain m (l ++ (a, d) :: l2) -> (first (l ++ (a, d) :: l2) 0 =? 0) = false.
Proof.
  intros Hc. apply Z.eqb_neq. destruct (first_in (l ++ (a, d) :: l2)) as [E|E]; [|apply (chain_in _ _ _ Hc E)].
  destruct l as [|[b e] l]; [destruct (nth_of _ [] _ _ _ Hc) as [_ H]|destruct (nth_of _ [] _ _ _ Hc) as [_ H]]; cbn in E; zify_tests; lia.
Qed.

Lemma g_list_insert_before_spec m l1 b e l2 a d : chain m (l1 ++ (b, e) :: l2) -> m !! a = None -> a <> 0 ->
  exists m', g_list_insert_before a (first (l1 ++ (b, e) :: l2) 0) b d m = Ok (first (l1 ++ (a, d) :: (b, e) :: l2) 0, m') /\
  moved m m' (l1 ++ (b, e) :: l2) (l1 ++ (a, d) :: (b, e) :: l2).
Proof.
  intros Hc Ha Ha0. pose proof (chain_null _ _ Hc) as Hz. unfold g_list_insert_before. rewrite (first_nonzero _ _ _ _ _ Hc).
  destruct (nth_of _ _ _ _ _ Hc) as [Hb Hb0]. rewrite Hb0. cbn [negb]. step. step. step. step. step. step.
  induction l1 as [|[t f] l1 _] using rev_ind.
  - cbn [final negb Z.eqb app first]. eexists. split; [done|]. apply (link_moved m _ [] ((b, e) :: l2) a d Hc); [done|done|]. cbn [final first]. at_c.
  - rewrite <- app_assoc in Hc. cbn [app] in Hc. destruct (nth_of _ _ _ _ _ Hc) as [Ht Ht0]. rewrite final_app in *. cbn [final first] in *. rewrite Ht0. cbn [negb].
    assert (t <> b) as Htb. { intros ->. pose proof (chain_nodup _ _ Hc) as Hn. rewrite addrs_app in Hn. cbn in Hn. apply NoDup_app in Hn as (_ & _ & Hn). apply NoDup_cons in Hn as [Hn _]. apply Hn. left. }
    step. eexists. split; [by rewrite !first_app|].
    apply link_moved; [by rewrite <- app_assoc|done|done|]. rewrite final_app. cbn [final first]. at_c.
Qed.

Lemma last_loop_spec m l : forall b fuel a d, seg m b (l ++ [(a, d)]) 0 -> m !! 0 = None -> (List.length l < fuel)%nat ->
  last_loop fuel (first (l ++ [(a, d)]) 0) m = Ok a.
Proof.
  induction l as [|[x e] l IH]; intros b fuel a d Hs Hz Hf; (destruct fuel as [|fuel]; [cbn in Hf; lia|]); destruct Hs as [Hx Hs];
    cbn [app first last_loop]; step; [done|].
  rewrite (proj2 (Z.eqb_neq _ _)).
  - apply (IH x); [done|done|cbn in Hf; lia].
  - intros E. assert (is_Some (m !! first (l ++ [(a, d)]) 0)) as [n Hn]; [|rewrite E in Hn; congruence].
    apply (seg_in _ _ _ _ _ Hs). destruct l as [|[]]; cbn; set_solver.
Qed.

Lemma g_list_insert_before_end m l a d : chain m l -> m !! a = None -> a <> 0 ->
  exists m', g_list_insert_before a (first l 0) 0 d m = Ok (first (l ++ [(a, d)]) 0, m') /\ moved m m' l (l ++ [(a, d)]).
Proof.
  intros Hc Ha Ha0. pose proof (chain_null _ _ Hc) as Hz. unfold g_list_insert_before. induction l as [|[t e] l _] using rev_ind.
  - cbn [first Z.eqb]. step. eexists. split; [done|]. apply (link_moved m _ [] []); [done|done|done|]. cbn [final first]. at_c.
  - rewrite (first_nonzero _ _ _ _ _ Hc). cbn [negb Z.eqb]. rewrite (last_loop_spec m l 0 _ t e (chain_seg _ _ Hc) Hz).
    2:{ pose proof (seg_size _ _ _ _ (chain_seg _ _ Hc) (chain_nodup _ _ Hc)) as Hl. rewrite length_app in Hl. cbn in Hl. unfold fuel_of. lia. }
    bind_simpl. destruct (nth_of _ _ _ _ _ Hc) as [Ht Ht0]. cbn [first] in Ht. step. step. step. step.
    eexists. split; [by rewrite !first_app|]. rewrite <- (app_nil_r (l ++ [(t, e)])) at 1.
    apply link_moved; [by rewrite app_nil_r|done|done|]. rewrite final_app. cbn [final first]. at_c.
Qed.

Lemma insert_before_spec m q l1 b e l2 a d : queue m q (l1 ++ (b, e) :: l2) -> m !! a = None -> a <> 0 ->
  served m (l1 ++ (b, e) :: l2) (l1 ++ (a, d) :: (b, e) :: l2) (g_queue_insert_before a q b d m).
Proof.
  intros [Hc ->] Ha Ha0. unfold g_queue_insert_before. destruct (nth_of _ _ _ _ _ Hc) as [_ Hb0]. rewrite Hb0. cbn [head tail length].
  destruct (g_list_insert_before_spec m l1 b e l2 a d Hc Ha Ha0) as (m' & -> & Hm). bind_simpl. eexists _, _. split; [done|]. split; [|done].
  split; [apply Hm|]. f_equal; [by rewrite !final_app|]. rewrite u32_add_l. f_equal. zlen_lia.
Qed.

Lemma insert_after_spec m q l1 b e l2 a d : queue m q (l1 ++ (b, e) :: l2) -> m !! a = None -> a <> 0 ->
  served m (l1 ++ (b, e) :: l2) (l1 ++ (b, e) :: (a, d) :: l2) (g_queue_insert_after a q b d m).
Proof.
  intros Hq Ha Ha0. pose proof Hq as [Hc _]. unfold g_queue_insert_after. destruct (nth_of _ _ _ _ _ Hc) as [Hb ->]. step.
  destruct l2 as [|[c f] l2].
  - unfold g_queue_insert_before. cbn [first Z.eqb]. change (l1 ++ [(b, e); (a, d)]) with (l1 ++ [(b, e)] ++ [(a, d)]). rewrite app_assoc. by apply push_tail_spec.
  - cbn [first]. rewrite !(cons_middle (b, e) l1), !app_assoc in *. by apply insert_before_spec.
Qed.

(** ** Search *)

Lemma glib_find_loop m d l : forall b fuel, seg m b l 0 -> m !! 0 = None -> (List.length l < fuel)%nat ->
  find_loop fuel (first l 0) d m = Ok (match list_find (fun x => x.2 = d) l with Some (_, x) => x.1 | None => 0 end).
Proof.
  induction l as [|[a e] l IH]; intros b fuel Hs Hz Hf; (destruct fuel as [|fuel]; [cbn in Hf; lia|]); [done|]. destruct Hs as [Ha Hs].
  cbn [first find_loop]. rewrite (proj2 (Z.eqb_neq a 0)) by congruence. step. cbn [list_find snd].
  destruct (decide (e = d)) as [->|Hn]; [by rewrite bool_decide_eq_true_2|]. rewrite bool_decide_eq_false_2 by done.
  rewrite (IH a) by (try done; cbn in Hf; lia). by destruct (list_find _ l) as [[]|].
Qed.

Lemma find_spec m q l d : queue m q l ->
  g_queue_find q d m = Ok (match list_find (fun x => x.2 = d) l with Some (_, x) => x.1 | None => 0 end).
Proof.
  intros [Hc ->]. apply (glib_find_loop m d l 0); [apply Hc|apply Hc|]. pose proof (seg_size _ _ _ _ (chain_seg _ _ Hc) (chain_nodup _ _ Hc)). unfold fuel_of. lia.
Qed.

(** A sibling that is found, or the head. *)
Lemma insert_after_found m q l x a d : queue m q l -> m !! a = None -> a <> 0 ->
  exists b l', g_queue_find q x m = Ok b /\ served m l l' (g_queue_insert_after a q b d m) /\ Permutation l' ((a, d) :: l) /\
  ((x ∉ l.*2 /\ l' = (a, d) :: l) \/ exists l1 l2, l = l1 ++ (b, x) :: l2 /\ x ∉ l1.*2 /\ l' = l1 ++ (b, x) :: (a, d) :: l2).
Proof.
  intros Hq Ha Ha0. rewrite (find_spec _ _ _ _ Hq). destruct (list_find (fun y => y.2 = x) l) as [[i [b y]]|] eqn:E.
  - apply list_find_Some in E as (Hi & Hy & Hb). cbn in Hy. subst y. pose proof (take_drop_middle _ _ _ Hi) as El.
    exists b, (take i l ++ (b, x) :: (a, d) :: drop (S i) l). split; [done|]. split; [|split].
    + rewrite <- El at 1. apply insert_after_spec; [by rewrite El|done|done].
    + rewrite <- El at 3. rewrite !(cons_middle (b, x) (take i l)), !app_assoc. symmetry. apply Permutation_middle.
    + right. exists (take i l), (drop (S i) l). split; [done|]. split; [|done]. intros Hin. apply list_elem_of_fmap in Hin as ([c z] & -> & Hin).
      apply list_elem_of_lookup in Hin as [j Hj]. apply lookup_take_Some in Hj as [Hj Hlt]. by apply (Hb j (c, z)).
  - apply list_find_None in E. exists 0, ((a, d) :: l). split; [done|]. split; [by apply push_head_spec|]. split; [done|]. left. split; [|done].
    intros Hin. apply list_elem_of_fmap in Hin as ([c z] & -> & Hin). rewrite Forall_forall in E. by apply (E _ Hin).
Qed.

(** ** Release *)

Lemma free_chain_spec l : forall m b fuel, seg m b l 0 -> NoDup (addrs l) -> m !! 0 = None -> (List.length l < fuel)%nat ->
  exists m', g_slice_free_chain fuel (first l 0) m = Ok m' /\ forall x, m' !! x = if decide (x ∈ addrs l) then None else m !! x.
Proof.
  induction l as [|[a d] l IH]; intros m b fuel Hs Hn Hz Hf; (destruct fuel as [|fuel]; [cbn in Hf; lia|]).
  - exists m. split; [done|]. intros x. rewrite decide_False; [done|]. apply not_elem_of_nil.
  - destruct Hs as [Ha Hs]. cbn in Hn. apply NoDup_cons in Hn as [Hal Hn]. cbn [first g_slice_free_chain].
    rewrite (proj2 (Z.eqb_neq a 0)) by congruence. step. rewrite (free_1_ok _ _ _ Ha Hz). bind_simpl.
    destruct (IH (delete a m) a fuel) as (m' & E & Hm).
    + apply (segment_ext m); [|done]. intros x Hx. apply lookup_delete_ne. intros ->. done.
    + done.
    + rewrite lookup_delete. by case_decide.
    + cbn in Hf. lia.
    + exists m'. split; [done|]. intros x. rewrite Hm, lookup_delete. cbn. destruct (decide (x ∈ addrs l)) as [Hx|Hx].
      * rewrite decide_True; [done|]. by right.
      * destruct (decide (a = x)) as [->|Hax]; [rewrite decide_True; [done|left]|]. rewrite decide_False; [done|]. set_solver.
Qed.

Lemma free_spec m l : chain m l -> exists m', g_list_free (first l 0) m = Ok m' /\ moved m m' l [].
Proof.
  intros [Hs Hn Hz]. destruct (free_chain_spec l m 0 (fuel_of m) Hs Hn Hz) as (m' & E & Hm).
  { pose proof (seg_size _ _ _ _ Hs Hn). unfold fuel_of. lia. }
  exists m'. split; [done|]. split; [|done]. split; [done|constructor|]. rewrite Hm. by destruct (decide _).
Qed.

Lemma clear_spec m q l : queue m q l -> served m l [] (g_queue_clear q m).
Proof.
  intros [Hc ->]. unfold g_queue_clear. cbn [head]. destruct (free_spec m l Hc) as (m' & -> & Hm). bind_simpl.
  eexists _, _. split; [done|]. split; [|done]. split; [apply Hm|done].
Qed.

(** ** Removal *)

Lemma neighbours_differ m l1 a d l2 : chain m (l1 ++ (a, d) :: l2) ->
  final 0 l1 <> a /\ first l2 0 <> a /\ (final 0 l1 <> first l2 0 \/ l1 = [] /\ l2 = []).
Proof.
  intros Hc. pose proof (chain_nodup _ _ Hc) as Hn. pose proof (fun x => chain_in _ _ x Hc) as Hin. rewrite addrs_app in *. cbn in *.
  apply NoDup_app in Hn as (_ & Hd & Hn). apply NoDup_cons in Hn as [Ha _].
  destruct (final_in l1 0) as [[E1 ->]|H1], (first_in l2) as [E2|H2].
  - rewrite E1, E2. split; [|split; [|right; split; [done|]]].
    + intros <-. by destruct (Hin 0) as [_ H]; [set_solver|].
    + intros <-. by destruct (Hin 0) as [_ H]; [set_solver|].
    + destruct l2 as [|[b e] l2]; [done|]. cbn in E2. subst b. by destruct (Hin 0) as [_ H]; [cbn; set_solver|].
  - rewrite E1. assert (a <> 0 /\ first l2 0 <> 0) as [? ?] by (split; apply Hin; set_solver). split; [done|]. split; [|by left]. intros E. congruence || (rewrite E in H2; done).
  - rewrite E2. assert (a <> 0 /\ final 0 l1 <> 0) as [? ?] by (split; apply Hin; set_solver). split; [|split; [done|by left]]. intros E. rewrite E in H1. apply (Hd _ H1). left.
  - split; [|split; [|left]].
    + intros E. rewrite E in H1. apply (Hd _ H1). left.
    + intros E. by rewrite E in H2.
    + intros E. rewrite <- E in H2. apply (Hd _ H1). by right.
Qed.

Lemma next_known m l1 a d l2 : chain m (l1 ++ (a, d) :: l2) ->
  l2 = [] \/ exists b e l3, l2 = (b, e) :: l3 /\ m !! b = Some (mkGList e (first l3 0) a) /\ (b =? 0) = false.
Proof.
  intros Hc. destruct l2 as [|[b e] l3]; [by left|]. right. exists b, e, l3. split; [done|]. rewrite (cons_middle (a, d) l1), app_assoc in Hc.
  destruct (nth_of _ _ _ _ _ Hc) as [H ?]. by rewrite final_app in H.
Qed.

Lemma prev_known m l1 a d l2 : chain m (l1 ++ (a, d) :: l2) ->
  l1 = [] \/ exists b e l0, l1 = l0 ++ [(b, e)] /\ m !! b = Some (mkGList e a (final 0 l0)) /\ (b =? 0) = false.
Proof.
  intros Hc. induction l1 as [|[b e] l0 _] using rev_ind; [by left|]. right. exists b, e, l0. split; [done|]. rewrite <- app_assoc in Hc.
  by destruct (nth_of _ _ _ _ _ Hc) as [H ?].
Qed.

(** The link is left by itself. *)
Lemma remove_link_spec m l1 a d l2 : chain m (l1 ++ (a, d) :: l2) ->
  exists m', _g_list_remove_link (first (l1 ++ (a, d) :: l2) 0) a m = Ok (first (l1 ++ l2) 0, m') /\
  forall c, m' !! c = if decide (c = a) then Some (mkGList d 0 0) else linked m (final 0 l1) (first l2 0) (first l2 0) (final 0 l1) c.
Proof.
  intros Hc. pose proof (chain_null _ _ Hc) as Hz. destruct (nth_of _ _ _ _ _ Hc) as [Ha Ha0]. destruct (neighbours_differ _ _ _ _ _ Hc) as (N1 & N2 & N3).
  assert (l1 = [] \/ (a =? first l1 0) = false) as Hh.
  { destruct l1 as [|[b e] l1]; [by left|]. right. apply Z.eqb_neq. cbn. intros <-. pose proof (chain_nodup _ _ Hc) as Hn. cbn in Hn.
    apply NoDup_cons in Hn as [Hn _]. apply Hn. rewrite fmap_app. cbn. set_solver. }
  unfold _g_list_remove_link. rewrite Ha0. step.
  rewrite first_app in *. cbn [first] in *.
  destruct (next_known _ _ _ _ _ Hc) as [->|(nb & f & l3 & -> & Hr & Hr0)]; cbn [first] in *;
    destruct (prev_known _ _ _ _ _ Hc) as [->|(t & e & l0 & -> & Hl & Hl0)]; rewrite ?final_app, ?first_app in *; cbn [final first app] in *; rewrite ?Hl0, ?Hr0; cbn [negb Z.eqb]; bind_simpl;
    try (destruct Hh as [Hh|Hh]; [by destruct l0|]).
  - rewrite Z.eqb_refl. step. step. step. eexists. split; [done|]. at_c.
  - step. rewrite Z.eqb_refl. step. rewrite Hh. bind_simpl. step. step. eexists. split; [done|]. at_c.
  - step. rewrite !Z.eqb_refl. step. step. step. step. eexists. split; [done|]. at_c.
  - destruct N3 as [N3|[_ ?]]; [|done]. step. rewrite Z.eqb_refl. step. step. rewrite Z.eqb_refl. step. rewrite Hh. bind_simpl. step. step.
    eexists. split; [done|]. at_c.
Qed.

(** Once the link is freed, the list is without it. *)
Lemma freed_moved m m1 l1 a d l2 : chain m (l1 ++ (a, d) :: l2) ->
  (forall c, m1 !! c = if decide (c = a) then Some (mkGList d 0 0) else linked m (final 0 l1) (first l2 0) (first l2 0) (final 0 l1) c) ->
  m1 !! a = Some (mkGList d 0 0) /\ m1 !! 0 = None /\ moved m (delete a m1) (l1 ++ (a, d) :: l2) (l1 ++ l2).
Proof.
  intros Hc Hm. split; [rewrite Hm; by rewrite decide_True|]. split.
  - destruct (nth_of _ _ _ _ _ Hc) as [_ Ha0]. zify_tests. rewrite Hm, decide_False by lia. unfold linked. by rewrite (chain_null _ _ Hc).
  - apply (unlink_moved m _ l1 l2 a d Hc). intros c. rewrite lookup_delete, Hm. repeat case_decide; subst; try done.
Qed.

Lemma g_list_delete_link_spec m l1 a d l2 : chain m (l1 ++ (a, d) :: l2) ->
  exists m', g_list_delete_link (first (l1 ++ (a, d) :: l2) 0) a m = Ok (first (l1 ++ l2) 0, m') /\ moved m m' (l1 ++ (a, d) :: l2) (l1 ++ l2).
Proof.
  intros Hc. unfold g_list_delete_link. destruct (remove_link_spec m l1 a d l2 Hc) as (m1 & -> & Hm). bind_simpl.
  destruct (freed_moved _ _ _ _ _ _ Hc Hm) as (H1 & H2 & H3). rewrite (free_1_ok _ _ _ H1 H2). bind_simpl. by eexists.
Qed.

Lemma delete_link_spec m q l1 a d l2 : queue m q (l1 ++ (a, d) :: l2) ->
  served m (l1 ++ (a, d) :: l2) (l1 ++ l2) (g_queue_delete_link q a m).
Proof.
  intros [Hc ->]. unfold g_queue_delete_link, g_queue_unlink, g_list_remove_link. destruct (nth_of _ _ _ _ _ Hc) as [Ha Ha0]. rewrite Ha0. cbn [head tail length].
  assert ((if a =? final 0 (l1 ++ (a, d) :: l2) then n ← load (final 0 (l1 ++ (a, d) :: l2)) m; Ok (prev n) else Ok (final 0 (l1 ++ (a, d) :: l2))) = Ok (final 0 (l1 ++ l2))) as ->.
  { rewrite !final_app. cbn [final]. destruct l2 as [|[b e] l2]; [cbn [final]; rewrite Z.eqb_refl; by step|].
    rewrite (proj2 (Z.eqb_neq _ _)); [done|]. intros E. pose proof (chain_nodup _ _ Hc) as Hn. rewrite addrs_app in Hn. apply NoDup_app in Hn as (_ & _ & Hn). apply NoDup_cons in Hn as [Hn _].
    apply Hn. cbn [final] in E. destruct (final_in l2 b) as [[E2 ->]|Hin]; [rewrite E, E2; left|rewrite E; by right]. }
  bind_simpl. destruct (remove_link_spec m l1 a d l2 Hc) as (m1 & -> & Hm). bind_simpl.
  destruct (freed_moved _ _ _ _ _ _ Hc Hm) as (H1 & H2 & H3).
  assert (g_list_free a m1 = Ok (delete a m1)) as ->.
  { unfold g_list_free, fuel_of. cbn [g_slice_free_chain]. rewrite Ha0. step. rewrite (free_1_ok _ _ _ H1 H2). bind_simpl.
    assert (size m1 <> 0%nat) as Hs. { intros E. apply map_size_empty_inv in E. by rewrite E in H1. }
    destruct (size m1); [done|]. done. }
  bind_simpl. eexists _, _. split; [done|]. split; [|done]. split; [apply H3|]. f_equal.
  rewrite !zlen_app, zlen_cons. replace (zlen l1 + (1 + zlen l2)) with (zlen (l1 ++ l2) + 1) by (rewrite zlen_app; lia). rewrite u32_pred. by rewrite zlen_app.
Qed.

(** The first entry with a value is removed, if there is one. *)
Lemma queue_remove_spec m q l x : queue m q l ->
  match list_find (fun y => y.2 = x) l with
  | None => g_queue_remove q x m = Ok (false, q, m)
  | Some (i, _) => exists q' m', g_queue_remove q x m = Ok (true, q', m') /\ queue m' q' (delete i l) /\ moved m m' l (delete i l)
  end.
Proof.
  intros Hq. pose proof (find_spec m q l x Hq) as Hf. unfold g_queue_find in Hf. unfold g_queue_remove. rewrite Hf. bind_simpl.
  destruct (list_find _ l) as [[i [a y]]|] eqn:E; [|done]. apply list_find_Some in E as (Hi & Hy & _). cbn [fst snd] in *. subst y.
  pose proof (take_drop_middle _ _ _ Hi) as El. rewrite <- El in Hq. destruct (nth_of _ _ _ _ _ (proj1 Hq)) as [_ ->]. cbn [negb].
  destruct (delete_link_spec _ _ _ _ _ _ Hq) as (q' & m' & -> & H1 & H2). bind_simpl. eexists _, _. split; [done|].
  rewrite El in H2. by rewrite delete_take_drop.
Qed.

Lemma pop_tail_spec m q l a d : queue m q (l ++ [(a, d)]) ->
  exists q' m', g_queue_pop_tail q m = Ok (Some d, q', m') /\ queue m' q' l /\ moved m m' (l ++ [(a, d)]) l.
Proof.
  intros [Hc ->]. pose proof (chain_null _ _ Hc) as Hz. unfold g_queue_pop_tail. destruct (nth_of _ _ _ _ _ Hc) as [Ha Ha0]. cbn [first] in Ha.
  cbn [tail head length]. rewrite final_app. cbn [final]. rewrite Ha0. cbn [negb]. step.
  rewrite zlen_app. change (zlen [(a, d)]) with 1. rewrite u32_pred. destruct (neighbours_differ _ _ _ _ _ Hc) as (N1 & _ & _).
  destruct (prev_known _ _ _ _ _ Hc) as [->|(t & e & l0 & -> & Ht & Ht0)].
  - cbn [final Z.eqb negb]. bind_simpl. erewrite free_1_ok by done. bind_simpl. eexists _, _. split; [done|].
    assert (moved m (delete a m) [(a, d)] []) as Hm by (apply (unlink_moved m _ [] [] a d Hc); at_c). split; [|done]. split; [apply Hm|done].
  - rewrite final_app in *. cbn [final] in *. rewrite Ht0. cbn [negb]. step. erewrite free_1_ok; [|lk|by rewrite lookup_insert_ne by congruence].
    bind_simpl. eexists _, _. split; [done|].
    match goal with |- queue ?x _ _ /\ _ => assert (moved m x ((l0 ++ [(t, e)]) ++ [(a, d)]) (l0 ++ [(t, e)])) as Hm end.
    { rewrite <- (app_nil_r (l0 ++ [(t, e)])) at 2. apply (unlink_moved m _ (l0 ++ [(t, e)]) [] a d Hc). rewrite final_app. cbn [final first]. at_c. }
    split; [|done]. split; [apply Hm|]. rewrite !first_app, final_app. done.
Qed.

(** ** Several lists in a store *)

(** They share nothing, and there is nothing else. *)
Record owned m (L : list (list (Z * D))) : Prop := {
  owned_chains : Forall (chain m) L;
  owned_apart : NoDup (concat (addrs <$> L));
  owned_all : forall x, is_Some (m !! x) -> x ∈ concat (addrs <$> L);
}.

Lemma elem_of_addrs x (K : list (list (Z * D))) : x ∈ concat (addrs <$> K) <-> exists k, k ∈ K /\ x ∈ addrs k.
Proof.
  induction K as [|k K IH]; cbn; [set_solver|]. rewrite elem_of_app, IH. setoid_rewrite elem_of_cons. split.
  - intros [H|(k' & H1 & H2)]; eauto.
  - intros (k' & [->|H1] & H2); eauto.
Qed.

Lemma owned_chain m L i l : owned m L -> L !! i = Some l -> chain m l.
Proof. intros [Hc _ _] Hl. rewrite Forall_forall in Hc. apply Hc. by apply list_elem_of_lookup_2 in Hl. Qed.

Lemma moved_owned m m' L i l l' : owned m L -> L !! i = Some l -> moved m m' l l' ->
  (forall x, x ∈ addrs l' -> x ∈ addrs l \/ m !! x = None) -> owned m' (<[i := l']> L).
Proof.
  intros [Hc Ha Hall] Hl [Hc' Hm] Hx. pose proof (take_drop_middle _ _ _ Hl) as EL.
  assert (i < List.length L)%nat as Hi by by apply lookup_lt_Some in Hl.
  rewrite insert_take_drop by done. rewrite <- EL in Hc, Ha, Hall. set (L1 := take i L) in *. set (L2 := drop (S i) L) in *. clearbody L1 L2. clear EL Hl Hi.
  rewrite fmap_app, fmap_cons, concat_app in Ha, Hall. cbn in Ha, Hall. apply NoDup_app in Ha as (N1 & N12 & N2). apply NoDup_app in N2 as (Nl & Nl2 & N2).
  apply Forall_app in Hc as [C1 C2]. apply Forall_cons in C2 as [Cl C2].
  assert (forall k, k ∈ L1 \/ k ∈ L2 -> chain m k /\ forall x, x ∈ addrs k -> x ∉ addrs l /\ x ∉ addrs l') as Hk.
  { intros k Hk. assert (chain m k) as Ck by (rewrite Forall_forall in C1, C2; destruct Hk; eauto). split; [done|]. intros x Hin.
    assert (x ∉ addrs l) as Hxl.
    { destruct Hk as [Hk|Hk]; intros Hxl.
      - apply (N12 x); [|by apply elem_of_app; left]. apply elem_of_addrs. eauto.
      - apply (Nl2 x Hxl). apply elem_of_addrs. eauto. }
    split; [done|]. intros Hxl'. destruct (Hx _ Hxl') as [?|Hn]; [done|]. destruct (chain_in _ _ _ Ck Hin) as [[? ?] _]. congruence. }
  assert (forall k, k ∈ L1 \/ k ∈ L2 -> chain m' k) as Ck'.
  { intros k Hin. destruct (Hk k Hin) as [[Hs Hn Hz] Hd]. split; [|done|apply Hc'].
    apply (segment_ext m); [|done]. intros x Hxk. destruct (Hd x Hxk) as [? ?]. rewrite Hm by done. by rewrite decide_False. }
  assert (forall x, x ∈ addrs l' -> x ∉ concat (addrs <$> L1) /\ x ∉ concat (addrs <$> L2)) as Hd.
  { assert (forall K, (forall k, k ∈ K -> k ∈ L1 \/ k ∈ L2) -> forall x, x ∈ addrs l' -> x ∉ concat (addrs <$> K)) as Hd.
    { intros K HK x Hin Hc. apply elem_of_addrs in Hc as (k & Hk' & Hxk). by apply (Hk k (HK k Hk')) in Hxk as [_ Hxk]. }
    intros x Hin. split; (apply Hd; [auto|done]). }
  split.
  - apply Forall_app. split; [apply Forall_forall; auto|]. apply Forall_cons. split; [done|]. apply Forall_forall. auto.
  - rewrite fmap_app, fmap_cons, concat_app. cbn. apply NoDup_app. split; [done|]. split.
    + intros x H1 H2. apply elem_of_app in H2 as [H2|H2]; [by apply (proj1 (Hd x H2))|]. apply (N12 x H1). apply elem_of_app. by right.
    + apply NoDup_app. split; [apply Hc'|]. split; [|done]. intros x Hin. apply Hd, Hin.
  - intros x [n Hn]. rewrite fmap_app, fmap_cons, concat_app. cbn. destruct (decide (x ∈ addrs l')) as [Hin|Hin]; [rewrite !elem_of_app; tauto|].
    rewrite Hm in Hn by done. destruct (decide (x ∈ addrs l)) as [|Hxl]; [done|]. specialize (Hall x ltac:(by eexists)). rewrite !elem_of_app in *. tauto.
Qed.

End Chains.

End GlibThm.
