(* ===== verification/TcpLists.v ===== *)
(** * The lists of the pseudo TCP socket

    src/src/session/pseudotcp/pseudotcp.c keeps the segments to send in the queues [slist]
    and [unsent_slist], and the segments that came out of order in the list [rlist], all
    three made of elements of GLib (Glib). The record of the socket (TcpTypes) has lists in
    their place. Here are the calls that the socket makes, on the elements and on the lists,
    and the theorem that they do the same. *)

From Stdlib Require Import ZArith Lia.
From stdpp Require Import prelude gmap list.
From S2P Require Import Prelude TcpFifo TcpBase TcpTypes TcpProcess Glib GlibThm.

Module TcpLists.
Import Glib GlibThm.

(** The pointers that the elements hold: to a segment of the store of the socket, or to a
    segment that came out of order, which is not changed while it is in the list. *)
Notation pointer := (nat + RSegment)%type.

#[export] Instance rsegment_eq_dec : EqDecision RSegment.
Proof. solve_decision. Defined.

(** ** The calls *)

Inductive queue_name := Slist | Unsent.

#[export] Instance queue_name_eq_dec : EqDecision queue_name.
Proof. solve_decision. Defined.

Inductive call :=
| PushTail (w : queue_name) (id : nat)             (* queue *)
| PopHead (w : queue_name)                         (* process, transmit, clear *)
| PeekHead (w : queue_name)
| PeekTail (w : queue_name)
| IsEmpty (w : queue_name)                         (* a length that is compared with 0 *)
| InsertAfterFound (w : queue_name) (x id : nat)   (* transmit, attempt_send *)
| InsertAfterHead (w : queue_name) (id : nat)      (* attempt_send *)
| Clear (w : queue_name)
| Save (r : RSegment)                              (* process: a segment out of order *)
| PeekSaved
| DropSaved
| FreeSaved.

Inductive answer := Done | Pointer (p : option pointer) | Flag (b : bool).

(** ** On the elements *)

Record lists := mkLists { slist : @GQueue; unsent_slist : @GQueue; rlist : Z; store : gmap Z (GList pointer) }.

Definition queue_of (w : queue_name) (s : lists) : @GQueue := match w with Slist => slist s | Unsent => unsent_slist s end.
Definition with_queue (w : queue_name) (q : @GQueue) (m : gmap Z (GList pointer)) (s : lists) : lists :=
  match w with Slist => mkLists q (unsent_slist s) (rlist s) m | Unsent => mkLists (slist s) q (rlist s) m end.

Definition lists_init : lists := mkLists g_queue_init g_queue_init 0 ∅.

(** The place of a segment in the list: before the first that does not come before it. *)
Definition before (p : pointer) (r : RSegment) : bool :=
  match p with inr x => Seq.SMALLER (rs_seq x) (rs_seq r) | inl _ => false end.
Fixpoint seek (fuel : nat) (iter : Z) (r : RSegment) (m : gmap Z (GList pointer)) : outcome Z :=
  match fuel with
  | O => NoFuel
  | S fuel =>
      if iter =? 0 then Ok 0
      else n ← load iter m; if before (data n) r then i ← g_list_next iter m; seek fuel i r m else Ok iter
  end.

Section Calls.
(** What [malloc] answers. *)
Variable malloc : gmap Z (GList pointer) -> Z.

Definition on_queue (w : queue_name) (s : lists) (r : outcome (@GQueue * gmap Z (GList pointer))) : outcome (answer * lists) :=
  '(q, m) ← r; Ok (Done, with_queue w q m s).

Definition do_call (c : call) (s : lists) : outcome (answer * lists) :=
  let m := store s in
  let a := malloc m in
  match c with
  | PushTail w id => on_queue w s (g_queue_push_tail a (queue_of w s) (inl id) m)
  | PopHead w => '(p, q, m) ← g_queue_pop_head (queue_of w s) m; Ok (Pointer p, with_queue w q m s)
  | PeekHead w => p ← g_queue_peek_head (queue_of w s) m; Ok (Pointer p, s)
  | PeekTail w => p ← g_queue_peek_tail (queue_of w s) m; Ok (Pointer p, s)
  | IsEmpty w => Ok (Flag (g_queue_get_length (queue_of w s) =? 0), s)
  | InsertAfterFound w x id =>
      l ← g_queue_find (queue_of w s) (inl x) m;
      on_queue w s (g_queue_insert_after a (queue_of w s) l (inl id) m)
  | InsertAfterHead w id => on_queue w s (g_queue_insert_after a (queue_of w s) (g_queue_peek_head_link (queue_of w s)) (inl id) m)
  | Clear w => on_queue w s (g_queue_clear (queue_of w s) m)
  | Save r =>
      iter ← seek (fuel_of m) (rlist s) r m;
      '(l, m) ← g_list_insert_before a (rlist s) iter (inr r) m;
      Ok (Done, mkLists (slist s) (unsent_slist s) l m)
  | PeekSaved => if rlist s =? 0 then Ok (Pointer None, s) else n ← load (rlist s) m; Ok (Pointer (Some (data n)), s)
  | DropSaved =>
      '(l, m) ← g_list_delete_link (rlist s) (rlist s) m;
      Ok (Done, mkLists (slist s) (unsent_slist s) l m)
  | FreeSaved => m ← g_list_free (rlist s) m; Ok (Done, mkLists (slist s) (unsent_slist s) 0 m)
  end.

Fixpoint do_calls (l : list call) (s : lists) : outcome (list answer * lists) :=
  match l with
  | [] => Ok ([], s)
  | c :: l => '(r, s) ← do_call c s; '(rs, s) ← do_calls l s; Ok (r :: rs, s)
  end.

End Calls.

(** ** On the lists, with the functions of the socket's model *)

Record model := mkModel { m_slist : list nat; m_unsent : list nat; m_rlist : list RSegment }.

Definition ids_of (w : queue_name) (s : model) : list nat := match w with Slist => m_slist s | Unsent => m_unsent s end.
Definition with_ids (w : queue_name) (l : list nat) (s : model) : model :=
  match w with Slist => mkModel l (m_unsent s) (m_rlist s) | Unsent => mkModel (m_slist s) l (m_rlist s) end.
Definition with_saved (l : list RSegment) (s : model) : model := mkModel (m_slist s) (m_unsent s) l.

Definition of_id (i : option nat) : answer := Pointer (inl <$> i).

Definition model_call (c : call) (s : model) : answer * model :=
  match c with
  | PushTail w id => (Done, with_ids w (ids_of w s ++ [id]) s)
  | PopHead w => (of_id (list.head (ids_of w s)), with_ids w (list.tail (ids_of w s)) s)
  | PeekHead w => (of_id (list.head (ids_of w s)), s)
  | PeekTail w => (of_id (list.last (ids_of w s)), s)
  | IsEmpty w => (Flag (zlen (ids_of w s) =? 0), s)
  | InsertAfterFound w x id => (Done, with_ids w (queue_insert_after (ids_of w s) x id) s)
  | InsertAfterHead w id =>
      (Done, with_ids w (match ids_of w s with [] => [id] | x :: _ => queue_insert_after (ids_of w s) x id end) s)
  | Clear w => (Done, with_ids w [] s)
  | Save r => (Done, with_saved (TcpIn.rlist_insert (m_rlist s) r) s)
  | PeekSaved => (Pointer (inr <$> list.head (m_rlist s)), s)
  | DropSaved => (Done, with_saved (list.tail (m_rlist s)) s)
  | FreeSaved => (Done, with_saved [] s)
  end.

Fixpoint model_calls (l : list call) (s : model) : list answer * model :=
  match l with
  | [] => ([], s)
  | c :: l => let '(r, s) := model_call c s in let '(rs, s) := model_calls l s in (r :: rs, s)
  end.

(** ** They agree *)

Definition agree (s : lists) (x : model) : Prop :=
  exists ls lu lr, owned (store s) [ls; lu; lr] /\
    queue (store s) (slist s) ls /\ queue (store s) (unsent_slist s) lu /\ rlist s = first lr 0 /\
    ls.*2 = inl <$> m_slist x /\ lu.*2 = inl <$> m_unsent x /\ lr.*2 = inr <$> m_rlist x.

(** Only elements that have just been made are new in a list. *)
Definition fresh_only (m : gmap Z (GList pointer)) (l l' : list (Z * pointer)) : Prop := forall y, y ∈ addrs l' -> y ∈ addrs l \/ m !! y = None.

Lemma agree_empty : agree lists_init (mkModel [] [] []).
Proof.
  exists [], [], []. assert (chain (∅ : gmap Z (GList pointer)) []) as Hc by (split; [done|constructor|done]). split; [|done].
  split; [by repeat constructor|constructor|]. intros x [n Hn]. done.
Qed.

Lemma queue_part w s x : agree s x -> exists l, queue (store s) (queue_of w s) l /\ l.*2 = inl <$> ids_of w x /\
  forall q' m' l' ids, queue m' q' l' -> moved (store s) m' l l' -> fresh_only (store s) l l' -> l'.*2 = inl <$> ids ->
    agree (with_queue w q' m' s) (with_ids w ids x).
Proof.
  intros (ls & lu & lr & Ho & [Hs Es] & [Hu Eu] & Er & Ds & Du & Dr). destruct w; [exists ls|exists lu]; (split; [done|]; split; [done|]);
    intros q' m' l' ids Hq Hm Hf Hi.
  - pose proof (moved_owned _ _ _ 0 _ _ Ho eq_refl Hm Hf) as Ho'. exists l', lu, lr. split; [exact Ho'|].
    split; [exact Hq|]. split; [|done]. split; [|done]. by apply (owned_chain _ _ 1%nat _ Ho').
  - pose proof (moved_owned _ _ _ 1 _ _ Ho eq_refl Hm Hf) as Ho'. exists ls, l', lr. split; [exact Ho'|].
    split; [|done]. split; [|done]. by apply (owned_chain _ _ 0%nat _ Ho').
Qed.

Lemma saved_part s x : agree s x -> exists l, chain (store s) l /\ rlist s = first l 0 /\ l.*2 = inr <$> m_rlist x /\
  forall m' l' r, moved (store s) m' l l' -> fresh_only (store s) l l' -> l'.*2 = inr <$> r ->
    agree (mkLists (slist s) (unsent_slist s) (first l' 0) m') (with_saved r x).
Proof.
  intros (ls & lu & lr & Ho & [Hs Es] & [Hu Eu] & Er & Ds & Du & Dr). exists lr. split; [by apply (owned_chain _ _ 2%nat _ Ho)|]. do 2 (split; [done|]).
  intros m' l' r Hm Hf Hi. pose proof (moved_owned _ _ _ 2 _ _ Ho eq_refl Hm Hf) as Ho'. exists ls, lu, l'. split; [exact Ho'|].
  split; [split; [by apply (owned_chain _ _ 0%nat _ Ho')|done]|]. split; [split; [by apply (owned_chain _ _ 1%nat _ Ho')|done]|]. done.
Qed.

(** ** One call *)

Section Agree.
Variable malloc : gmap Z (GList pointer) -> Z.
Hypothesis malloc_fresh : forall m, malloc m <> 0 /\ m !! malloc m = None.

Lemma fresh_add m l l' d : Permutation l' ((malloc m, d) :: l) -> fresh_only m l l'.
Proof.
  intros HP y Hy. unfold addrs in Hy. rewrite HP in Hy. cbn in Hy. apply elem_of_cons in Hy as [->|Hy]; [right; apply malloc_fresh|by left].
Qed.

Lemma fresh_sub m l l' : (forall y, y ∈ l' -> y ∈ l) -> fresh_only m l l'.
Proof. intros Hs y Hy. left. unfold addrs in *. apply list_elem_of_fmap in Hy as (z & -> & Hz). apply list_elem_of_fmap_2. auto. Qed.

(** A call on a queue of which something is left. *)
Lemma on_queue_ok w s x l l' ids r : queue (store s) (queue_of w s) l ->
  (forall q' m' l' ids, queue m' q' l' -> moved (store s) m' l l' -> fresh_only (store s) l l' -> l'.*2 = inl <$> ids -> agree (with_queue w q' m' s) (with_ids w ids x)) ->
  served (store s) l l' r -> fresh_only (store s) l l' -> l'.*2 = inl <$> ids ->
  exists s', on_queue w s r = Ok (Done, s') /\ agree s' (with_ids w ids x).
Proof. intros Hq Hpart (q' & m' & -> & Hq' & Hm) Hf Hi. unfold on_queue. bind_simpl. eexists. split; [done|]. by apply (Hpart _ _ l'). Qed.

Lemma queue_insert_after_out ids x id : x ∉ ids -> queue_insert_after ids x id = id :: ids.
Proof. intros H. unfold queue_insert_after. by rewrite decide_False. Qed.

Lemma queue_insert_after_in i1 x i2 id : x ∉ i1 -> queue_insert_after (i1 ++ x :: i2) x id = i1 ++ x :: id :: i2.
Proof.
  intros H. unfold queue_insert_after. rewrite decide_True by set_solver. induction i1 as [|y i1 IH]; cbn; [by rewrite decide_True|].
  rewrite decide_False by set_solver. f_equal. apply IH. set_solver.
Qed.

Lemma data_split {A B} (f : A -> B) (l1 l2 : list (Z * B)) ids : (l1 ++ l2).*2 = f <$> ids ->
  exists i1 i2, ids = i1 ++ i2 /\ l1.*2 = f <$> i1 /\ l2.*2 = f <$> i2.
Proof. rewrite fmap_app. intros E. symmetry in E. apply fmap_app_inv in E as (i1 & i2 & -> & -> & ->). eauto. Qed.

(** The links after a search are the list that the model has. *)
Lemma after_found ids x id a (l l' : list (Z * pointer)) b : l.*2 = inl <$> ids ->
  (inl x ∉ l.*2 /\ l' = (a, inl id) :: l) \/ (exists l1 l2, l = l1 ++ (b, inl x) :: l2 /\ inl x ∉ l1.*2 /\ l' = l1 ++ (b, inl x) :: (a, inl id) :: l2) ->
  l'.*2 = inl <$> queue_insert_after ids x id.
Proof.
  intros Hd [(Hx & ->)|(l1 & l2 & -> & Hx & ->)].
  - rewrite queue_insert_after_out; [by cbn; rewrite Hd|]. rewrite Hd in Hx. intros Hin. apply Hx. by apply list_elem_of_fmap_2.
  - apply data_split in Hd as (i1 & i2 & -> & H1 & H2). destruct i2 as [|y i2]; [done|]. cbn in H2. injection H2 as <- H2.
    rewrite queue_insert_after_in.
    + rewrite !fmap_app. cbn. by rewrite H1, H2.
    + rewrite H1 in Hx. intros Hin. apply Hx. by apply list_elem_of_fmap_2.
Qed.

Lemma seek_spec m r l : forall b fuel rs, seg m b l 0 -> m !! 0 = None -> l.*2 = inr <$> rs -> (List.length l < fuel)%nat ->
  exists l1 l2 r1 r2, l = l1 ++ l2 /\ seek fuel (first l 0) r m = Ok (first l2 0) /\ rs = r1 ++ r2 /\
    l1.*2 = inr <$> r1 /\ l2.*2 = inr <$> r2 /\ TcpIn.rlist_insert rs r = r1 ++ r :: r2.
Proof.
  induction l as [|[a d] l IH]; intros b fuel rs Hs Hz Hd Hf; (destruct fuel as [|fuel]; [cbn in Hf; lia|]); (destruct rs as [|r1 rs]; [done||by exists [], [], [], []|]); [done|].
  cbn in Hd. injection Hd as -> Hd. destruct Hs as [Ha Hs]. cbn [first seek]. rewrite (proj2 (Z.eqb_neq a 0)) by congruence. step. cbn [before].
  destruct (Seq.SMALLER (rs_seq r1) (rs_seq r)) eqn:E.
  - unfold g_list_next. rewrite (proj2 (Z.eqb_neq a 0)) by congruence. step.
    destruct (IH a fuel rs Hs Hz Hd ltac:(cbn in Hf; lia)) as (l1 & l2 & r2 & r3 & -> & -> & -> & H1 & H2 & H3).
    exists ((a, inr r1) :: l1), l2, (r1 :: r2), r3. cbn [app fmap list_fmap snd TcpIn.rlist_insert]. rewrite E, H1, H2, H3. done.
  - exists [], ((a, inr r1) :: l), [], (r1 :: rs). cbn [app fmap list_fmap snd TcpIn.rlist_insert first]. rewrite E, Hd. done.
Qed.

Definition is_queue_call (c : call) : bool := match c with Save _ | PeekSaved | DropSaved | FreeSaved => false | _ => true end.

Lemma saved_call_agrees c s x : agree s x -> is_queue_call c = false ->
  exists s', do_call malloc c s = Ok (fst (model_call c x), s') /\ agree s' (snd (model_call c x)).
Proof.
  intros Ha Hc. destruct (malloc_fresh (store s)) as [Hm0 Hm]. destruct (saved_part s x Ha) as (l & Hl & Er & Hd & Hpart). pose proof (chain_null _ _ Hl) as Hz.
  destruct c; try done; cbn [do_call model_call fst snd]; rewrite Er.
  - destruct (seek_spec (store s) r l 0 (fuel_of (store s)) _ (chain_seg _ _ Hl) Hz Hd) as (l1 & l2 & r1 & r2 & -> & E & Ers & H1 & H2 & H3).
    { pose proof (seg_size _ _ _ _ (chain_seg _ _ Hl) (chain_nodup _ _ Hl)). unfold fuel_of. lia. }
    rewrite E. bind_simpl. rewrite H3.
    assert (exists m', g_list_insert_before (malloc (store s)) (first (l1 ++ l2) 0) (first l2 0) (inr r) (store s) = Ok (first (l1 ++ (malloc (store s), inr r) :: l2) 0, m') /\
      moved (store s) m' (l1 ++ l2) (l1 ++ (malloc (store s), inr r) :: l2)) as (m' & -> & Hmv).
    { destruct l2 as [|[b e] l2]; [cbn [first]; rewrite app_nil_r in *; by apply g_list_insert_before_end|by apply g_list_insert_before_spec]. }
    bind_simpl. eexists. split; [done|]. apply Hpart; [done| |by rewrite !fmap_app; cbn; rewrite H1, H2].
    apply (fresh_add _ _ _ (inr r)). symmetry. apply Permutation_middle.
  - destruct l as [|[a d] l].
    + destruct (m_rlist x); [|done]. cbn [first Z.eqb]. eauto.
    + destruct (m_rlist x) as [|r1 rs]; [done|]. cbn in Hd. injection Hd as -> Hd. destruct (nth_of _ [] _ _ _ Hl) as [Hn Hn0]. cbn [first]. rewrite Hn0. step. eauto.
  - destruct l as [|[a d] l].
    + cbn [first]. unfold g_list_delete_link, _g_list_remove_link, g_list_free_1. cbn [Z.eqb]. bind_simpl. destruct (m_rlist x); [|done].
      eexists. split; [done|]. apply (Hpart _ []); [|by intros y Hy%elem_of_nil|done]. split; [done|]. intros y _. by rewrite decide_False by apply not_elem_of_nil.
    + destruct (m_rlist x) as [|r1 rs]; [done|]. cbn in Hd. injection Hd as -> Hd. destruct (g_list_delete_link_spec _ [] a _ l Hl) as (m' & E & Hmv). cbn [app first] in *. rewrite E. bind_simpl.
      eexists. split; [done|]. apply (Hpart _ l); [done| |done]. apply fresh_sub. intros y Hy. by right.
  - destruct (free_spec _ _ Hl) as (m' & -> & Hmv). bind_simpl. eexists. split; [done|]. apply (Hpart _ []); [done|by intros y Hy%elem_of_nil|done].
Qed.

Lemma length_ids (l : list (Z * pointer)) (ids : list nat) : l.*2 = inl <$> ids -> zlen l = zlen ids.
Proof. intros E. apply (f_equal List.length) in E. rewrite !length_fmap in E. unfold zlen. by rewrite E. Qed.

(** An addition to a queue. *)
Lemma add_agrees w s x l l' d ids r : agree s x -> queue (store s) (queue_of w s) l ->
  (forall q' m' l' ids, queue m' q' l' -> moved (store s) m' l l' -> fresh_only (store s) l l' -> l'.*2 = inl <$> ids -> agree (with_queue w q' m' s) (with_ids w ids x)) ->
  served (store s) l l' r -> Permutation l' ((malloc (store s), d) :: l) -> l'.*2 = inl <$> ids ->
  exists s', on_queue w s r = Ok (Done, s') /\ agree s' (with_ids w ids x).
Proof. intros Ha Hq Hpart Hr HP Hd. apply (on_queue_ok w s x l l'); [done|done|done|by apply (fresh_add _ _ _ d)|done]. Qed.

Lemma queue_call_agrees c s x : agree s x -> (forall w, zlen (ids_of w x) < 2 ^ 32) -> is_queue_call c = true ->
  exists s', do_call malloc c s = Ok (fst (model_call c x), s') /\ agree s' (snd (model_call c x)).
Proof.
  intros Ha Hlen Hc. destruct (malloc_fresh (store s)) as [Hm0 Hm].
  destruct c as [w id|w|w|w|w|w y id|w id|w| | | |]; try done; cbn [do_call model_call fst snd];
    destruct (queue_part w s x Ha) as (l & Hq & Hd & Hpart); pose proof (chain_null _ _ (proj1 Hq)) as Hz.
  - apply (add_agrees w s x l _ (inl id) _ _ Ha Hq Hpart (push_tail_spec _ _ _ _ _ Hq Hm Hm0)); [symmetry; apply Permutation_cons_append|by rewrite !fmap_app, Hd].
  - pose proof (pop_head_spec _ _ _ Hq) as Hp. destruct l as [|[a d] l].
    + rewrite Hp. bind_simpl. destruct (ids_of w x) eqn:Ei; [|done]. eexists. split; [done|]. apply (Hpart _ _ []); [done| |by intros z Hin%elem_of_nil|done].
      split; [apply Hq|]. intros z _. by rewrite decide_False by apply not_elem_of_nil.
    + destruct Hp as (q' & m' & -> & Hq' & Hmv). bind_simpl. destruct (ids_of w x) as [|i ids] eqn:Ei; [done|]. cbn in Hd. injection Hd as -> Hd.
      eexists. split; [done|]. apply (Hpart _ _ l); [done|done|apply fresh_sub; by right|done].
  - destruct Hq as [Hl Hq]. rewrite Hq. unfold g_queue_peek_head. cbn [head]. destruct l as [|[a d] l], (ids_of w x) as [|i ids]; try done; [by eauto|].
    cbn in Hd. injection Hd as -> Hd. destruct (nth_of _ [] _ _ _ Hl) as [Hn Hn0]. cbn [first]. rewrite Hn0. cbn [negb]. step. eauto.
  - destruct Hq as [Hl Hq]. rewrite Hq. unfold g_queue_peek_tail. cbn [tail]. destruct l as [|[a d] l _] using rev_ind.
    + destruct (ids_of w x); [|done]. cbn. eauto.
    + apply data_split in Hd as (i1 & i2 & -> & _ & H2). destruct i2 as [|i i2]; [done|]. cbn in H2. injection H2 as -> H2. destruct i2; [|done].
      destruct (nth_of _ _ _ _ _ Hl) as [Hn Hn0]. rewrite final_app. cbn [final]. rewrite Hn0. cbn [negb]. step. rewrite last_snoc. eauto.
  - destruct Hq as [Hl Hq]. rewrite Hq. unfold g_queue_get_length. cbn [length]. rewrite (length_ids _ _ Hd).
    rewrite u32_small by (pose proof (zlen_nonneg (ids_of w x)); specialize (Hlen w); lia). eauto.
  - destruct (insert_after_found _ _ _ (inl y) _ (inl id) Hq Hm Hm0) as (b & l' & -> & Hs & HP & Hcase). bind_simpl.
    apply (add_agrees w s x l l' (inl id) _ _ Ha Hq Hpart Hs HP). by apply (after_found _ _ _ (malloc (store s)) l l' b).
  - unfold g_queue_peek_head_link. assert (head (queue_of w s) = first l 0) as -> by by rewrite (proj2 Hq). destruct l as [|[a d] l].
    + destruct (ids_of w x) eqn:Ei; [|done]. cbn [first]. unfold g_queue_insert_after. cbn [Z.eqb].
      by apply (add_agrees w s x [] _ (inl id) _ _ Ha Hq Hpart (push_head_spec _ _ _ _ _ Hq Hm Hm0)).
    + destruct (ids_of w x) as [|i ids] eqn:Ei; [done|]. pose proof Hd as Hd0. cbn in Hd. injection Hd as -> Hd. cbn [first].
      apply (add_agrees w s x _ _ (inl id) _ _ Ha Hq Hpart (insert_after_spec _ _ [] _ _ _ _ _ Hq Hm Hm0)); [apply Permutation_swap|].
      apply (after_found _ i _ (malloc (store s)) ((a, inl i) :: l) _ a); [done|]. right. exists [], l. split; [done|]. split; [apply not_elem_of_nil|done].
  - apply (on_queue_ok w s x l []); [done|done|by apply clear_spec|by intros z Hin%elem_of_nil|done].
Qed.

Lemma call_agrees c s x : agree s x -> (forall w, zlen (ids_of w x) < 2 ^ 32) ->
  exists s', do_call malloc c s = Ok (fst (model_call c x), s') /\ agree s' (snd (model_call c x)).
Proof. intros Ha Hlen. destruct (is_queue_call c) eqn:E; [by apply queue_call_agrees|by apply saved_call_agrees]. Qed.

Lemma queue_insert_after_length ids x id : zlen (queue_insert_after ids x id) = zlen ids + 1.
Proof.
  destruct (decide (x ∈ ids)) as [Hx|Hx].
  - apply list_elem_of_split_l in Hx as (i1 & i2 & -> & Hx). rewrite queue_insert_after_in by done. zlen_lia.
  - rewrite queue_insert_after_out by done. zlen_lia.
Qed.

Lemma ids_with_ids w w' ids x : ids_of w (with_ids w' ids x) = if decide (w = w') then ids else ids_of w x.
Proof. destruct w, w'; done. Qed.

Lemma model_call_length c x w : zlen (ids_of w (snd (model_call c x))) <= zlen (ids_of w x) + 1.
Proof.
  assert (forall r, ids_of w (with_saved r x) = ids_of w x) as Hs by by destruct w.
  destruct c; cbn [model_call snd]; rewrite ?Hs, ?ids_with_ids; try lia; (case_decide; [subst|lia]).
  - zlen_lia.
  - destruct (ids_of _ x); cbn [list.tail]; zlen_lia.
  - rewrite queue_insert_after_length. lia.
  - destruct (ids_of _ x); [done|]. rewrite queue_insert_after_length. lia.
  - zlen_lia.
Qed.

Lemma agree_size s x : agree s x -> size (store s) = (List.length (m_slist x) + List.length (m_unsent x) + List.length (m_rlist x))%nat.
Proof.
  intros (ls & lu & lr & [Hc Hn Hall] & _ & _ & _ & Ds & Du & Dr).
  rewrite <- (length_fmap (B := pointer) inl (m_slist x)), <- (length_fmap (B := pointer) inl (m_unsent x)), <- (length_fmap (B := pointer) inr (m_rlist x)), <- Ds, <- Du, <- Dr.
  rewrite <- (size_dom (D := gset Z)). assert (dom (store s) = list_to_set (concat (addrs <$> [ls; lu; lr])) :> gset Z) as ->.
  - apply set_eq. intros y. rewrite elem_of_dom, elem_of_list_to_set. split; [apply Hall|]. intros Hy. apply elem_of_addrs in Hy as (k & Hk & Hy).
    rewrite Forall_forall in Hc. by apply (chain_in _ _ _ (Hc k Hk) Hy).
  - rewrite size_list_to_set by done. cbn. unfold addrs. rewrite !length_app, !length_fmap. cbn. lia.
Qed.

Lemma calls_agree l : forall s x, agree s x -> (forall w, zlen (ids_of w x) + zlen l < 2 ^ 32) ->
  exists s', do_calls malloc l s = Ok (fst (model_calls l x), s') /\ agree s' (snd (model_calls l x)).
Proof.
  induction l as [|c l IH]; intros s x Ha Hl; [by eexists|]. cbn [do_calls model_calls].
  assert (forall w, zlen (ids_of w x) + 1 + zlen l < 2 ^ 32) as Hl' by (intros w; specialize (Hl w); rewrite zlen_cons in Hl; lia).
  destruct (call_agrees c s x Ha) as (s1 & -> & H1); [intros w; specialize (Hl' w); pose proof (zlen_nonneg l); lia|]. bind_simpl.
  pose proof (model_call_length c x) as Hlen. destruct (model_call c x) as [r x1]. cbn [fst snd] in *.
  destruct (IH s1 x1 H1) as (s2 & -> & H2); [intros w; specialize (Hl' w); specialize (Hlen w); lia|]. bind_simpl.
  destruct (model_calls l x1) as [rs x2]. by eexists.
Qed.

(** C34. The model of the pseudo TCP socket may take the queues and the list of segments for
    lists. From the start on, whatever calls the socket makes on them, the functions of GLib
    follow no pointer to a free element and leave no loop open, they answer what the
    functions on lists answer, and the elements are the entries of the lists: when the
    lists are empty, no element is left. Allocation does not fail, and there are fewer
    calls than a length can count. *)
Theorem lists_refine (l : list call) : zlen l < 2 ^ 32 ->
  let '(answers, x) := model_calls l (mkModel [] [] []) in
  exists s, do_calls malloc l lists_init = Ok (answers, s) /\ agree s x /\
    size (store s) = (List.length (m_slist x) + List.length (m_unsent x) + List.length (m_rlist x))%nat.
Proof.
  intros Hl. destruct (calls_agree l _ _ agree_empty) as (s & E & Ha); [intros []; exact Hl|].
  destruct (model_calls l (mkModel [] [] [])) as [rs x]. exists s. split; [exact E|]. split; [exact Ha|]. by apply agree_size.
Qed.

End Agree.

(** An allocator, and a run: segments are queued, one is split, some come out of order. *)
Definition above (m : gmap Z (GList pointer)) : Z := 8 + map_fold (fun k _ acc => Z.max k acc) 0 m.

Lemma above_bound (m : gmap Z (GList pointer)) : 0 <= map_fold (fun k (_ : GList pointer) acc => Z.max k acc) 0 m /\
  forall k, is_Some (m !! k) -> k <= map_fold (fun k (_ : GList pointer) acc => Z.max k acc) 0 m.
Proof.
  apply (map_fold_weak_ind (fun r m => 0 <= r /\ forall k, is_Some (m !! k) -> k <= r)).
  - split; [done|]. by intros k [? ?].
  - intros i n m' r Hi [H0 H]. split; [lia|]. intros k [n' Hk]. rewrite lookup_insert in Hk. case_decide; [lia|].
    specialize (H k ltac:(eauto)). lia.
Qed.

Lemma above_fresh m : above m <> 0 /\ m !! above m = None.
Proof.
  unfold above. destruct (above_bound m) as [H0 H]. split; [lia|]. destruct (m !! _) eqn:E; [|done]. specialize (H _ (mk_is_Some _ _ E)). lia.
Qed.

Definition busy : list call :=
  [PushTail Slist 1; PushTail Unsent 1; PushTail Slist 2; PushTail Unsent 2; InsertAfterFound Slist 1 3; InsertAfterHead Unsent 3;
   PopHead Unsent; Save (mkRSegment 50 10); Save (mkRSegment 20 10); Save (mkRSegment 30 5); PeekSaved; DropSaved;
   PeekTail Slist; PopHead Slist; PeekHead Slist].
Definition done_with : list call := [PopHead Slist; PopHead Slist; PopHead Slist; IsEmpty Slist; Clear Unsent; FreeSaved].

Lemma lists_refine_witness : exists s, do_calls above (busy ++ done_with) lists_init =
  Ok ([Done; Done; Done; Done; Done; Done; of_id (Some 1%nat); Done; Done; Done; Pointer (Some (inr (mkRSegment 20 10))); Done;
       of_id (Some 2%nat); of_id (Some 1%nat); of_id (Some 3%nat);
       of_id (Some 3%nat); of_id (Some 2%nat); of_id None; Flag true; Done; Done], s) /\ size (store s) = 0%nat.
Proof.
  destruct (lists_refine above above_fresh (busy ++ done_with)) as (s & E & _ & Hs); [by vm_compute|]. exists s. split; [exact E|exact Hs].
Defined.

End TcpLists.
