(* ===== verification/Bitset.v ===== *)
(** * Bit sets

    src/src/common/bitset.h and bitset.c: a set of small integers in an array of
    64-bit words, with searches for the next and previous set or clear bit.
    A shift by the width of the type or more, which the language leaves
    undefined, is [Undef]. *)

From Stdlib Require Import ZArith Lia.
From stdpp Require Import prelude list.
From S2P Require Import Prelude.

Module Bitset.

Record bitset := mkBitset { size : Z; bits : list Z }.

(** [(size + 63) >> 6], the number of words. *)
Definition nwords (n : Z) : Z := Z.shiftr (n + 63) 6.

Definition word_mask : Z := 0xffffffffffffffff.

(** ** Operations *)

Definition bitset_reset (set : bitset) : bitset :=
  mkBitset (size set) (replicate (Z.to_nat (nwords (size set))) 0).

Definition bitset_init (n : Z) : bitset := bitset_reset (mkBitset n []).

Definition bitset_size (set : bitset) : Z := size set.

Definition rd (set : bitset) (index : Z) : outcome Z :=
  match znth (bits set) index with Some w => Ok w | None => Undef end.

Definition wr (set : bitset) (index w : Z) : outcome bitset :=
  match znth (bits set) index with
  | Some _ => Ok (mkBitset (size set) (<[Z.to_nat index := w]> (bits set)))
  | None => Undef
  end.

(** [uint64_t << n] and [uint64_t >> n]. *)
Definition shl64 (x n : Z) : outcome Z := if n <? 64 then Ok (u64 (Z.shiftl x n)) else Undef.
Definition shr64 (x n : Z) : outcome Z := if n <? 64 then Ok (Z.shiftr x n) else Undef.

(** [1 << n] on an [int]: undefined from 31 on. *)
Definition shl_int (n : Z) : outcome Z := if n <? 31 then Ok (Z.shiftl 1 n) else Undef.

Definition lnot64 (x : Z) : Z := Z.lxor x word_mask.

Definition bitset_set (set : bitset) (bit : Z) : outcome (Z * bitset) :=
  if (bit <? 0) || (size set <=? bit) then Ok (-1, set)
  else
    let index := Z.shiftr bit 6 in
    let offset := bit mod 64 in
    w ← rd set index;
    m ← shl64 1 offset;
    s ← wr set index (Z.lor w m);
    Ok (0, s).

Definition bitset_clear (set : bitset) (bit : Z) : outcome (Z * bitset) :=
  if (bit <? 0) || (size set <=? bit) then Ok (-1, set)
  else
    let index := Z.shiftr bit 6 in
    let offset := bit mod 64 in
    w ← rd set index;
    m ← shl64 1 offset;
    s ← wr set index (Z.land w (lnot64 m));
    Ok (0, s).

Definition bitset_isset (set : bitset) (bit : Z) : outcome Z :=
  if (bit <? 0) || (size set <=? bit) then Ok (-1)
  else
    let index := Z.shiftr bit 6 in
    let offset := bit mod 64 in
    w ← rd set index;
    m ← shl_int offset;
    Ok (if Z.land w m =? 0 then 0 else 1).

Definition bitset_isset2 (bs : list Z) (bit : Z) : outcome Z :=
  if bit <? 0 then Ok (-1)
  else
    let index := Z.shiftr bit 6 in
    let offset := bit mod 64 in
    match znth bs index with
    | None => Undef
    | Some w => m ← shl_int offset; Ok (if Z.land w m =? 0 then 0 else 1)
    end.

(** The bytes of the words, least significant first, and the sign [memcmp]
    returns for the first [n] of them. *)
Definition word_bytes (w : Z) : list Z :=
  (fun k => Z.shiftr w (8 * k) mod 256) <$> seqZ 0 8.

Fixpoint memcmp (n : nat) (a b : list Z) : outcome Z :=
  match n with
  | O => Ok 0
  | S n =>
      match a, b with
      | x :: a, y :: b => if x =? y then memcmp n a b else Ok (if x <? y then -1 else 1)
      | _, _ => Undef
      end
  end.

Definition bitset_compare (set1 set2 : bitset) (len : Z) : outcome Z :=
  _ ← c_assert 139 ((len <=? size set1) && (len <=? size set2));
  memcmp (Z.to_nat (nwords len)) (bits set1 ≫= word_bytes) (bits set2 ≫= word_bytes).

Definition bitset_compare2 (set : bitset) (bs : list Z) (len : Z) : outcome Z :=
  _ ← c_assert 147 (len <=? size set);
  let len := if len =? 0 then size set else len in
  memcmp (Z.to_nat (nwords len)) (bits set ≫= word_bytes) (bs ≫= word_bytes).

(** [__builtin_ctzll] and [__builtin_clzll] of a word that is not zero. *)
Definition ctzll (w : Z) : Z :=
  default 0 (snd <$> list_find (fun j => Z.testbit w j = true) (seqZ 0 64)).
Definition clzll (w : Z) : Z := 63 - Z.log2 w.

(** The loops: upwards until [limit], downwards until word 0. [f] is the
    identity or the complement. [inl] is a position, [inr] the index after the
    last word. *)
Fixpoint scan_up (fuel : nat) (f : Z -> Z) (set : bitset) (limit index word : Z)
  : outcome (Z + Z) :=
  if negb (word =? 0) then Ok (inl (index * 64 + ctzll word))
  else
    let index := index + 1 in
    if index =? limit then Ok (inr index)
    else match fuel with
    | O => NoFuel
    | S fuel => w ← rd set index; scan_up fuel f set limit index (f w)
    end.

Fixpoint scan_down (fuel : nat) (f : Z -> Z) (set : bitset) (index word : Z) : outcome Z :=
  if negb (word =? 0) then Ok ((index + 1) * 64 - 1 - clzll word)
  else if index =? 0 then Ok (-1)
  else match fuel with
  | O => NoFuel
  | S fuel => w ← rd set (index - 1); scan_down fuel f set (index - 1) (f w)
  end.

Definition from_ok (set : bitset) (from : Z) : bool := (0 <=? from) && (from <? size set).

Definition bitset_prev_set_bit (set : bitset) (from : Z) : outcome Z :=
  _ ← c_assert 35 (from_ok set from);
  let index := Z.shiftr from 6 in
  w ← rd set index;
  m ← shr64 word_mask (Z.rem (- (from + 1)) 64 + 64);
  scan_down (Z.to_nat index) id set index (Z.land w m).

Definition bitset_next_set_bit (set : bitset) (from : Z) : outcome Z :=
  _ ← c_assert 59 (from_ok set from);
  let index := Z.shiftr from 6 in
  w ← rd set index;
  m ← shl64 word_mask from;
  r ← scan_up (Z.to_nat (nwords (size set))) id set (nwords (size set)) index (Z.land w m);
  match r with inl pos => Ok pos | inr _ => Ok (-1) end.

Definition bitset_prev_clear_bit (set : bitset) (from : Z) : outcome Z :=
  _ ← c_assert 83 (from_ok set from);
  let index := Z.shiftr from 6 in
  w ← rd set index;
  m ← shr64 word_mask (Z.rem (- (from + 1)) 64 + 64);
  scan_down (Z.to_nat index) lnot64 set index (Z.land (lnot64 w) m).

Definition bitset_next_clear_bit (set : bitset) (from : Z) : outcome Z :=
  _ ← c_assert 107 (from_ok set from);
  let index := Z.shiftr from 6 in
  w ← rd set index;
  m ← shl64 word_mask (from mod 64);
  r ← scan_up (Z.to_nat (nwords (size set))) lnot64 set (nwords (size set)) index (Z.land (lnot64 w) m);
  match r with
  | inl pos => Ok (if pos =? size set then -1 else pos)
  | inr index => let pos := index * 64 in Ok (if pos =? size set then -1 else pos)
  end.

(** ** The set a bit set stands for *)

Definition member (set : bitset) (i : Z) : bool :=
  match znth (bits set) (i / 64) with Some w => Z.testbit w (i mod 64) | None => false end.

Record bitset_wf (set : bitset) : Prop := {
  bw_size : 0 <= size set;
  bw_len : zlen (bits set) = nwords (size set);
  bw_word : Forall (fun w => 0 <= w < 2 ^ 64) (bits set);
  bw_high : forall i, size set <= i -> member set i = false;
}.

Lemma nwords_spec n : 0 <= n -> nwords n = (n + 63) / 64.
Proof. intros. unfold nwords. by rewrite Z.shiftr_div_pow2 by lia. Qed.

Lemma index_lt n i : 0 <= i < n -> 0 <= i / 64 < nwords n.
Proof.
  intros Hi. rewrite nwords_spec by lia. split; [apply Z.div_pos; lia|].
  apply Z.div_lt_upper_bound; [lia|]. pose proof (Z.div_mod (n + 63) 64 ltac:(lia)).
  pose proof (Z.mod_pos_bound (n + 63) 64 ltac:(lia)). lia.
Qed.

Lemma rd_ok set i : bitset_wf set -> 0 <= i < nwords (size set) ->
  exists w, rd set i = Ok w /\ znth (bits set) i = Some w /\ 0 <= w < 2 ^ 64.
Proof.
  intros [? Hl Hw _] Hi. unfold rd.
  destruct (znth (bits set) i) as [w|] eqn:E.
  - exists w. split; [done|]. split; [done|]. unfold znth in E. destruct (i <? 0); [done|].
    exact (proj1 (Forall_lookup _ _) Hw _ _ E).
  - exfalso. unfold znth, zlen in *. rewrite (proj2 (Z.ltb_ge _ _)) in E by lia.
    apply lookup_ge_None_1 in E. lia.
Qed.

Lemma testbit_pow2 n j : 0 <= n -> Z.testbit (2 ^ n) j = (j =? n).
Proof.
  intros. destruct (Z.eqb_spec j n) as [->|Hne]; [by apply Z.pow2_bits_true|].
  by apply Z.pow2_bits_false.
Qed.

Lemma shl64_one n : 0 <= n < 64 -> shl64 1 n = Ok (2 ^ n).
Proof.
  intros Hn. unfold shl64. rewrite (proj2 (Z.ltb_lt _ _)) by lia. f_equal.
  rewrite Z.shiftl_1_l. apply u64_small. split; [lia|]. apply Z.pow_lt_mono_r; lia.
Qed.

Lemma testbit_lnot64 w j : 0 <= j < 64 -> Z.testbit (lnot64 w) j = negb (Z.testbit w j).
Proof.
  intros Hj. unfold lnot64, word_mask. rewrite Z.lxor_spec.
  change 0xffffffffffffffff with (Z.ones 64). rewrite Z.ones_spec_low by lia.
  apply xorb_true_r.
Qed.

Lemma bits_lt w n : 0 <= n -> 0 <= w -> (forall j, n <= j -> Z.testbit w j = false) -> w < 2 ^ n.
Proof.
  intros Hn Hw H. destruct (decide (w = 0)) as [->|Hne]; [lia|].
  apply Z.log2_lt_pow2; [lia|]. destruct (decide (Z.log2 w < n)) as [|Hge]; [done|exfalso].
  pose proof (Z.bit_log2 w ltac:(lia)) as Hb. by rewrite H in Hb by lia.
Qed.

Lemma testbit_ge w n j : 0 <= w < 2 ^ n -> 0 <= n <= j -> Z.testbit w j = false.
Proof.
  intros Hw Hj. rewrite <- (Z.mod_small w (2 ^ n)) by done. apply Z.mod_pow2_bits_high. lia.
Qed.

Lemma word_lnot w : 0 <= w < 2 ^ 64 -> 0 <= lnot64 w < 2 ^ 64.
Proof.
  intros Hw. assert (0 <= lnot64 w) by (apply Z.lxor_nonneg; unfold word_mask; lia).
  split; [done|]. apply bits_lt; [lia|done|]. intros j Hj. unfold lnot64.
  rewrite Z.lxor_spec, (testbit_ge w 64) by lia. unfold word_mask.
  change 0xffffffffffffffff with (Z.ones 64). by rewrite Z.ones_spec_high by lia.
Qed.

(** ** Reading and writing one bit *)

(** The set after the word of [bit] was replaced. *)
Lemma member_update set bit w' i : bitset_wf set -> 0 <= bit < size set -> 0 <= i ->
  member (mkBitset (size set) (<[Z.to_nat (bit / 64) := w']> (bits set))) i =
  if i / 64 =? bit / 64 then Z.testbit w' (i mod 64) else member set i.
Proof.
  intros Hwf Hb Hi. pose proof (index_lt _ _ Hb) as Hx. unfold member. cbn [bits].
  assert (0 <= i / 64) by (apply Z.div_pos; lia).
  unfold znth. rewrite (proj2 (Z.ltb_ge _ _)) by lia.
  destruct (Z.eqb_spec (i / 64) (bit / 64)) as [->|Hne].
  - rewrite list_lookup_insert_eq; [done|]. pose proof (bw_len _ Hwf). unfold zlen in *. lia.
  - rewrite list_lookup_insert_ne by lia. done.
Qed.

Lemma same_bit i b : 0 <= i -> 0 <= b -> i / 64 = b / 64 -> (i mod 64 =? b mod 64) = (i =? b).
Proof.
  intros. pose proof (Z.div_mod i 64 ltac:(lia)). pose proof (Z.div_mod b 64 ltac:(lia)).
  destruct (Z.eqb_spec i b), (Z.eqb_spec (i mod 64) (b mod 64)); congruence || lia.
Qed.

(** Writing a word that keeps the other bits of the set. *)
Lemma write_bit_spec set bit w w' (v : bool) :
  bitset_wf set -> 0 <= bit < size set -> znth (bits set) (bit / 64) = Some w ->
  0 <= w' < 2 ^ 64 ->
  (forall j, 0 <= j < 64 -> Z.testbit w' j = if j =? bit mod 64 then v else Z.testbit w j) ->
  let set' := mkBitset (size set) (<[Z.to_nat (bit / 64) := w']> (bits set)) in
  bitset_wf set' /\ size set' = size set /\
  forall i, 0 <= i -> member set' i = if i =? bit then v else member set i.
Proof.
  intros Hwf Hb Hw Hw' Hbits set'.
  assert (forall i, 0 <= i -> member set' i = if i =? bit then v else member set i) as Hm.
  { intros i Hi. unfold set'. rewrite member_update by done.
    destruct (Z.eqb_spec (i / 64) (bit / 64)) as [He|He].
    - rewrite Hbits by (apply Z.mod_pos_bound; lia). rewrite same_bit by lia.
      destruct (i =? bit); [done|]. unfold member. by rewrite He, Hw.
    - destruct (Z.eqb_spec i bit); [congruence|done]. }
  pose proof Hwf as [H1 H2 H3 H4]. split; [|done]. split; simpl; [done| | |].
  - unfold zlen. rewrite length_insert. exact H2.
  - by apply Forall_insert.
  - intros i Hi. change (size set') with (size set) in Hi. rewrite Hm by lia.
    destruct (Z.eqb_spec i bit); [lia|]. by apply H4.
Qed.

Lemma bitset_set_spec set bit : bitset_wf set -> 0 <= bit < size set ->
  exists set', bitset_set set bit = Ok (0, set') /\ bitset_wf set' /\ size set' = size set /\
    forall i, 0 <= i -> member set' i = (i =? bit) || member set i.
Proof.
  intros Hwf Hb. unfold bitset_set.
  rewrite (proj2 (Z.ltb_ge _ _)), (proj2 (Z.leb_gt _ _)) by lia. cbn [orb].
  rewrite Z.shiftr_div_pow2 by lia. change (2 ^ 6) with 64.
  destruct (rd_ok set (bit / 64) Hwf (index_lt _ _ Hb)) as (w & -> & Hw & Hr). bind_simpl.
  pose proof (Z.mod_pos_bound bit 64 ltac:(lia)) as Hmod.
  rewrite shl64_one by done. bind_simpl. unfold wr. rewrite Hw. bind_simpl.
  destruct (write_bit_spec set bit w (Z.lor w (2 ^ (bit mod 64))) true) as (H1 & H2 & H3); try done.
  - assert (0 <= Z.lor w (2 ^ (bit mod 64))) by (apply Z.lor_nonneg; lia).
    split; [done|]. apply bits_lt; [lia|done|]. intros j Hj.
    rewrite Z.lor_spec, (testbit_ge w 64), testbit_pow2 by lia.
    destruct (Z.eqb_spec j (bit mod 64)); [lia|done].
  - intros j Hj. rewrite Z.lor_spec, testbit_pow2 by lia.
    destruct (j =? bit mod 64); [apply orb_true_r|apply orb_false_r].
  - eexists. split; [reflexivity|]. split; [done|]. split; [done|].
    intros i Hi. rewrite H3 by done. by destruct (i =? bit).
Qed.

Lemma bitset_clear_spec set bit : bitset_wf set -> 0 <= bit < size set ->
  exists set', bitset_clear set bit = Ok (0, set') /\ bitset_wf set' /\ size set' = size set /\
    forall i, 0 <= i -> member set' i = negb (i =? bit) && member set i.
Proof.
  intros Hwf Hb. unfold bitset_clear.
  rewrite (proj2 (Z.ltb_ge _ _)), (proj2 (Z.leb_gt _ _)) by lia. cbn [orb].
  rewrite Z.shiftr_div_pow2 by lia. change (2 ^ 6) with 64.
  destruct (rd_ok set (bit / 64) Hwf (index_lt _ _ Hb)) as (w & -> & Hw & Hr). bind_simpl.
  pose proof (Z.mod_pos_bound bit 64 ltac:(lia)) as Hmod.
  rewrite shl64_one by done. bind_simpl. unfold wr. rewrite Hw. bind_simpl.
  set (w' := Z.land w (lnot64 (2 ^ (bit mod 64)))).
  destruct (write_bit_spec set bit w w' false) as (H1 & H2 & H3); try done.
  - assert (0 <= w') by (apply Z.land_nonneg; lia).
    split; [done|]. apply bits_lt; [lia|done|]. intros j Hj.
    unfold w'. by rewrite Z.land_spec, (testbit_ge w 64) by lia.
  - intros j Hj. unfold w'. rewrite Z.land_spec, testbit_lnot64, testbit_pow2 by lia.
    destruct (j =? bit mod 64); [apply andb_false_r|apply andb_true_r].
  - eexists. split; [reflexivity|]. split; [done|]. split; [done|].
    intros i Hi. rewrite H3 by done. by destruct (i =? bit).
Qed.

Lemma bitset_isset_spec set bit : bitset_wf set -> 0 <= bit < size set -> bit mod 64 < 31 ->
  bitset_isset set bit = Ok (if member set bit then 1 else 0).
Proof.
  intros Hwf Hb Hoff. unfold bitset_isset.
  rewrite (proj2 (Z.ltb_ge _ _)), (proj2 (Z.leb_gt _ _)) by lia. cbn [orb].
  rewrite Z.shiftr_div_pow2 by lia. change (2 ^ 6) with 64.
  destruct (rd_ok set (bit / 64) Hwf (index_lt _ _ Hb)) as (w & -> & Hw & Hr). bind_simpl.
  pose proof (Z.mod_pos_bound bit 64 ltac:(lia)) as Hmod.
  unfold shl_int. rewrite (proj2 (Z.ltb_lt _ _)) by lia. bind_simpl. f_equal.
  unfold member. rewrite Hw, Z.shiftl_1_l.
  destruct (Z.eqb_spec (Z.land w (2 ^ (bit mod 64))) 0) as [E|E].
  - apply (f_equal (fun x => Z.testbit x (bit mod 64))) in E.
    rewrite Z.land_spec, testbit_pow2, Z.eqb_refl, andb_true_r, Z.bits_0 in E by lia. by rewrite E.
  - destruct (Z.testbit w (bit mod 64)) eqn:Et; [done|]. exfalso. apply E.
    apply Z.bits_inj'. intros j Hj. rewrite Z.land_spec, testbit_pow2, Z.bits_0 by lia.
    destruct (Z.eqb_spec j (bit mod 64)) as [->|]; [by rewrite Et|apply andb_false_r].
Qed.

(** ** Searching *)

Lemma ctzll_spec w : 0 < w < 2 ^ 64 ->
  0 <= ctzll w < 64 /\ Z.testbit w (ctzll w) = true /\
  forall j, 0 <= j < ctzll w -> Z.testbit w j = false.
Proof.
  intros Hw. unfold ctzll.
  destruct (list_find (fun j => Z.testbit w j = true) (seqZ 0 64)) as [[i x]|] eqn:E; simpl.
  - apply list_find_Some in E as (Hi & Hx & Hlt). apply lookup_seqZ in Hi as [-> Hi].
    split; [lia|]. split; [done|]. intros j Hj.
    specialize (Hlt (Z.to_nat j) j). destruct (Z.testbit w j) eqn:Et; [|done].
    exfalso. apply Hlt; [|lia|done]. apply lookup_seqZ. lia.
  - exfalso. apply list_find_None in E. apply Forall_forall with (x := Z.log2 w) in E.
    + apply E. apply Z.bit_log2. lia.
    + apply elem_of_seqZ. pose proof (Z.log2_nonneg w).
      pose proof (proj1 (Z.log2_lt_pow2 w 64 ltac:(lia)) ltac:(lia)). lia.
Qed.

Lemma clzll_spec w : 0 < w < 2 ^ 64 ->
  0 <= 63 - clzll w < 64 /\ Z.testbit w (63 - clzll w) = true /\
  forall j, 63 - clzll w < j -> Z.testbit w j = false.
Proof.
  intros Hw. unfold clzll. replace (63 - (63 - Z.log2 w)) with (Z.log2 w) by lia.
  pose proof (Z.log2_nonneg w). pose proof (proj1 (Z.log2_lt_pow2 w 64 ltac:(lia)) ltac:(lia)).
  split; [lia|]. split; [apply Z.bit_log2; lia|]. intros j Hj. apply Z.bits_above_log2; lia.
Qed.

(** The bits the search looks at: of the words, or of their complements. *)
Definition bitf (f : Z -> Z) (set : bitset) (i : Z) : bool :=
  match znth (bits set) (i / 64) with Some w => Z.testbit (f w) (i mod 64) | None => false end.

Lemma bitf_word f set k w j : znth (bits set) k = Some w -> 0 <= j < 64 ->
  bitf f set (k * 64 + j) = Z.testbit (f w) j.
Proof.
  intros Hw Hj. unfold bitf. rewrite Z.div_add_l by lia. rewrite Z.div_small by lia.
  rewrite Z.add_0_r, Hw. f_equal. rewrite Z.add_comm, Z.mod_add by lia. by apply Z.mod_small.
Qed.

(** The least position from [lo] on, below [hi]. *)
Definition first_from (B : Z -> bool) (lo hi pos : Z) : Prop :=
  lo <= pos < hi /\ B pos = true /\ forall i, lo <= i < pos -> B i = false.

Definition none_in (B : Z -> bool) (lo hi : Z) : Prop := forall i, lo <= i < hi -> B i = false.

(** The greatest position up to [from]. *)
Definition last_upto (B : Z -> bool) (from pos : Z) : Prop :=
  0 <= pos <= from /\ B pos = true /\ forall i, pos < i <= from -> B i = false.

Section Scan.
Context (f : Z -> Z) (f_word : forall w, 0 <= w < 2 ^ 64 -> 0 <= f w < 2 ^ 64).
Context (set : bitset) (Hwf : bitset_wf set).
Let limit := nwords (size set).

(** [word] is word [index] with the bits below [lo] masked off. *)
Definition masked_low (lo index word : Z) : Prop :=
  forall j, 0 <= j < 64 ->
    Z.testbit word j = (lo <=? index * 64 + j) && bitf f set (index * 64 + j).

Lemma word_found lo index word :
  0 < word < 2 ^ 64 -> index < limit -> masked_low lo index word ->
  none_in (bitf f set) lo (index * 64) ->
  first_from (bitf f set) lo (limit * 64) (index * 64 + ctzll word).
Proof.
  intros Hw Hi Hm Hn. destruct (ctzll_spec word Hw) as (Hc & Ht & Hl).
  rewrite Hm in Ht by lia. apply andb_true_iff in Ht as [Ht1 Ht2]. apply Z.leb_le in Ht1.
  split; [lia|]. split; [done|]. intros i Hi'.
  destruct (decide (i < index * 64)); [apply Hn; lia|].
  specialize (Hl (i - index * 64) ltac:(lia)). rewrite Hm in Hl by lia.
  replace (index * 64 + (i - index * 64)) with i in Hl by lia.
  by rewrite (proj2 (Z.leb_le _ _)) in Hl by lia.
Qed.

Lemma word_empty lo index :
  masked_low lo index 0 -> none_in (bitf f set) lo (index * 64) ->
  none_in (bitf f set) lo ((index + 1) * 64).
Proof.
  intros Hm Hn i Hi. destruct (decide (i < index * 64)); [apply Hn; lia|].
  pose proof (Hm (i - index * 64) ltac:(lia)) as Hb. rewrite Z.bits_0 in Hb.
  replace (index * 64 + (i - index * 64)) with i in Hb by lia.
  by rewrite (proj2 (Z.leb_le _ _)) in Hb by lia.
Qed.

Lemma scan_up_spec fuel : forall lo index word,
  0 <= index < limit -> limit - index <= Z.of_nat fuel + 1 ->
  0 <= word < 2 ^ 64 -> masked_low lo index word -> none_in (bitf f set) lo (index * 64) ->
  lo < (index + 1) * 64 ->
  (exists pos, scan_up fuel f set limit index word = Ok (inl pos) /\
     first_from (bitf f set) lo (limit * 64) pos) \/
  (scan_up fuel f set limit index word = Ok (inr limit) /\ none_in (bitf f set) lo (limit * 64)).
Proof.
  induction fuel as [|fuel IH]; intros lo index word Hi Hf Hw Hm Hn Hlo; cbn [scan_up];
    (destruct (Z.eqb_spec word 0) as [->|Hne]; cbn [negb];
       [|left; eexists; split; [reflexivity|apply word_found; done || lia]]);
    pose proof (word_empty lo index Hm Hn) as Hn'; cbv zeta;
    (destruct (Z.eqb_spec (index + 1) limit) as [E|E]; [right; rewrite <- E; done|]); [lia|].
  destruct (rd_ok set (index + 1) Hwf ltac:(lia)) as (w & -> & Hz & Hr). bind_simpl.
  apply IH; [lia|lia|by apply f_word| |done|lia].
  intros j Hj. rewrite (bitf_word f set _ w) by done.
  by rewrite (proj2 (Z.leb_le _ _)) by lia.
Qed.

(** [word] is word [index] with the bits above [from] masked off. *)
Definition masked_high (from index word : Z) : Prop :=
  forall j, 0 <= j < 64 ->
    Z.testbit word j = (index * 64 + j <=? from) && bitf f set (index * 64 + j).

Lemma scan_down_spec fuel : forall from index word,
  0 <= index < limit -> index <= Z.of_nat fuel ->
  0 <= word < 2 ^ 64 -> masked_high from index word ->
  (forall i, (index + 1) * 64 <= i <= from -> bitf f set i = false) -> index * 64 <= from ->
  (exists pos, scan_down fuel f set index word = Ok pos /\ last_upto (bitf f set) from pos) \/
  (scan_down fuel f set index word = Ok (-1) /\ none_in (bitf f set) 0 (from + 1)).
Proof.
  induction fuel as [|fuel IH]; intros from index word Hi Hf Hw Hm Hn Hlo; cbn [scan_down].
  all: destruct (Z.eqb_spec word 0) as [->|Hne]; cbn [negb].
  2,4: left; eexists; (split; [reflexivity|]);
    destruct (clzll_spec word ltac:(lia)) as (Hc & Ht & Hl);
    replace ((index + 1) * 64 - 1 - clzll word) with (index * 64 + (63 - clzll word)) by lia;
    rewrite Hm in Ht by lia; apply andb_true_iff in Ht as [Ht1 Ht2]; apply Z.leb_le in Ht1;
    (split; [lia|]); (split; [done|]); intros i Hi';
    (destruct (decide ((index + 1) * 64 <= i)); [apply Hn; lia|]);
    specialize (Hl (i - index * 64) ltac:(lia)); rewrite Hm in Hl by lia;
    replace (index * 64 + (i - index * 64)) with i in Hl by lia;
    by rewrite (proj2 (Z.leb_le _ _)) in Hl by lia.
  all: assert (forall i, index * 64 <= i <= from -> bitf f set i = false) as Hn'
    by (intros i Hi'; destruct (decide ((index + 1) * 64 <= i)); [apply Hn; lia|];
        pose proof (Hm (i - index * 64) ltac:(lia)) as Hb; rewrite Z.bits_0 in Hb;
        replace (index * 64 + (i - index * 64)) with i in Hb by lia;
        by rewrite (proj2 (Z.leb_le _ _)) in Hb by lia).
  all: destruct (Z.eqb_spec index 0) as [E|E]; [right; split; [done|]; intros i Hi'; apply Hn'; lia|].
  { lia. }
  destruct (rd_ok set (index - 1) Hwf ltac:(lia)) as (w & -> & Hz & Hr). bind_simpl.
  apply IH; [lia|lia|by apply f_word| |intros i Hi'; apply Hn'; lia|lia].
  intros j Hj. rewrite (bitf_word f set _ w) by done. by rewrite (proj2 (Z.leb_le _ _)) by lia.
Qed.

End Scan.

Lemma bitf_id set i : bitf id set i = member set i.
Proof. reflexivity. Qed.

Lemma bitf_lnot set i : bitset_wf set -> 0 <= i < nwords (size set) * 64 ->
  bitf lnot64 set i = negb (member set i).
Proof.
  intros Hwf Hi. unfold bitf, member.
  assert (0 <= i / 64 < nwords (size set)) as Hk.
  { split; [apply Z.div_pos; lia|]. apply Z.div_lt_upper_bound; lia. }
  destruct (rd_ok set (i / 64) Hwf Hk) as (w & _ & -> & _).
  apply testbit_lnot64. apply Z.mod_pos_bound. lia.
Qed.

(** The masks of the first word. *)
Lemma mask_low_spec n : 0 <= n < 64 -> exists m, shl64 word_mask n = Ok m /\
  (0 <= m < 2 ^ 64) /\ forall j, 0 <= j < 64 -> Z.testbit m j = (n <=? j).
Proof.
  intros Hn. unfold shl64. rewrite (proj2 (Z.ltb_lt _ _)) by lia. eexists. split; [done|].
  unfold u64. split; [apply Z.mod_pos_bound; lia|]. intros j Hj.
  rewrite Z.mod_pow2_bits_low, Z.shiftl_spec by lia. unfold word_mask.
  change 0xffffffffffffffff with (Z.ones 64).
  destruct (Z.leb_spec n j); [by rewrite Z.ones_spec_low by lia|]. apply Z.testbit_neg_r. lia.
Qed.

Lemma mask_high_spec from : 0 <= from -> (from + 1) mod 64 <> 0 ->
  exists m, shr64 word_mask (Z.rem (- (from + 1)) 64 + 64) = Ok m /\
  (0 <= m < 2 ^ 64) /\ forall j, 0 <= j < 64 -> Z.testbit m j = (j <=? from mod 64).
Proof.
  intros Hf Hne. rewrite Z.rem_opp_l by lia. rewrite Z.rem_mod_nonneg by lia.
  pose proof (Z.mod_pos_bound (from + 1) 64 ltac:(lia)) as Hb.
  unfold shr64. rewrite (proj2 (Z.ltb_lt _ _)) by lia. eexists. split; [done|].
  assert (from mod 64 = (from + 1) mod 64 - 1) as Hm.
  { pose proof (Z.div_mod (from + 1) 64 ltac:(lia)) as Hd.
    symmetry. apply Z.mod_unique with ((from + 1) / 64); lia. }
  set (k := - ((from + 1) mod 64) + 64).
  assert (forall j, 0 <= j -> Z.testbit (Z.shiftr word_mask k) j = (j <=? from mod 64)) as Ht.
  { intros j Hj. rewrite Z.shiftr_spec by lia. unfold word_mask.
    change 0xffffffffffffffff with (Z.ones 64).
    destruct (Z.leb_spec j (from mod 64)); [apply Z.ones_spec_low|apply Z.ones_spec_high]; lia. }
  assert (0 <= Z.shiftr word_mask k) by (apply Z.shiftr_nonneg; unfold word_mask; lia).
  split; [|intros j Hj; apply Ht; lia]. split; [done|]. apply bits_lt; [lia|done|].
  intros j Hj. rewrite Ht by lia. apply Z.leb_gt. pose proof (Z.mod_pos_bound from 64). lia.
Qed.

(** The first word of the search, masked. *)
Lemma masked_low_first f set from w m :
  znth (bits set) (from / 64) = Some w -> 0 <= from ->
  (forall j, 0 <= j < 64 -> Z.testbit m j = (from mod 64 <=? j)) ->
  masked_low f set from (from / 64) (Z.land (f w) m).
Proof.
  intros Hw Hf Hm j Hj. rewrite Z.land_spec, Hm, (bitf_word f set _ w) by done.
  rewrite andb_comm. f_equal. pose proof (Z.div_mod from 64 ltac:(lia)).
  destruct (Z.leb_spec (from mod 64) j), (Z.leb_spec from (from / 64 * 64 + j)); lia || done.
Qed.

Lemma masked_high_first f set from w m :
  znth (bits set) (from / 64) = Some w -> 0 <= from ->
  (forall j, 0 <= j < 64 -> Z.testbit m j = (j <=? from mod 64)) ->
  masked_high f set from (from / 64) (Z.land (f w) m).
Proof.
  intros Hw Hf Hm j Hj. rewrite Z.land_spec, Hm, (bitf_word f set _ w) by done.
  rewrite andb_comm. f_equal. pose proof (Z.div_mod from 64 ltac:(lia)).
  destruct (Z.leb_spec j (from mod 64)), (Z.leb_spec (from / 64 * 64 + j) from); lia || done.
Qed.

Lemma land_word w m : 0 <= w < 2 ^ 64 -> 0 <= m -> 0 <= Z.land w m < 2 ^ 64.
Proof.
  intros Hw Hm. assert (0 <= Z.land w m) by (apply Z.land_nonneg; lia).
  split; [done|]. apply bits_lt; [lia|done|]. intros j Hj.
  by rewrite Z.land_spec, (testbit_ge w 64) by lia.
Qed.

(** The word boundary below [from]. *)
Lemma word_of from : 0 <= from -> from / 64 * 64 <= from < (from / 64 + 1) * 64.
Proof.
  intros. pose proof (Z.div_mod from 64 ltac:(lia)). pose proof (Z.mod_pos_bound from 64). lia.
Qed.

Lemma from_ok_spec set from : 0 <= from < size set -> from_ok set from = true.
Proof.
  intros. unfold from_ok. by rewrite (proj2 (Z.leb_le _ _)), (proj2 (Z.ltb_lt _ _)) by lia.
Qed.

Lemma nwords_cover n : 0 <= n -> n <= nwords n * 64 < n + 64.
Proof.
  intros. rewrite nwords_spec by lia. pose proof (Z.div_mod (n + 63) 64 ltac:(lia)).
  pose proof (Z.mod_pos_bound (n + 63) 64 ltac:(lia)). lia.
Qed.

Lemma bitset_next_clear_bit_spec set from : bitset_wf set -> 0 <= from < size set ->
  (exists pos, bitset_next_clear_bit set from = Ok pos /\
     first_from (fun i => negb (member set i)) from (size set) pos) \/
  (bitset_next_clear_bit set from = Ok (-1) /\ forall i, from <= i < size set -> member set i = true).
Proof.
  intros Hwf Hf. unfold bitset_next_clear_bit. rewrite from_ok_spec by done.
  cbn [c_assert]. bind_simpl. rewrite Z.shiftr_div_pow2 by lia. change (2 ^ 6) with 64.
  destruct (rd_ok set (from / 64) Hwf (index_lt _ _ Hf)) as (w & -> & Hz & Hr). bind_simpl.
  destruct (mask_low_spec (from mod 64) ltac:(apply Z.mod_pos_bound; lia)) as (m & -> & Hm1 & Hm2).
  bind_simpl. pose proof (index_lt _ _ Hf) as Hix. pose proof (word_of from ltac:(lia)) as Hwo.
  pose proof (nwords_cover (size set) ltac:(lia)) as Hcov.
  destruct (scan_up_spec lnot64 word_lnot set Hwf (Z.to_nat (nwords (size set))) from (from / 64)
    (Z.land (lnot64 w) m)) as [(pos & -> & (Hp1 & Hp2 & Hp3))|[-> Hnone]];
    [done|lia|apply land_word; [by apply word_lnot|lia]|apply masked_low_first; [done|lia|exact Hm2]|
     intros i Hi; lia|lia|..]; bind_simpl.
  - rewrite bitf_lnot in Hp2 by (done || lia).
    assert (forall i, from <= i < pos -> member set i = true) as Hall.
    { intros i Hi. specialize (Hp3 i Hi). rewrite bitf_lnot in Hp3 by (done || lia).
      by apply negb_false_iff. }
    assert (pos <= size set) as Hle.
    { destruct (decide (pos <= size set)); [done|exfalso].
      specialize (Hall (size set) ltac:(lia)). by rewrite (bw_high _ Hwf) in Hall by lia. }
    destruct (Z.eqb_spec pos (size set)) as [->|Hne]; [by right|left].
    exists pos. split; [done|]. split; [lia|]. split; [done|].
    intros i Hi. by rewrite Hall.
  - assert (size set = nwords (size set) * 64) as Heq.
    { destruct (decide (nwords (size set) * 64 <= size set)); [lia|exfalso].
      specialize (Hnone (size set) ltac:(lia)). rewrite bitf_lnot in Hnone by (done || lia).
      by rewrite (bw_high _ Hwf) in Hnone by lia. }
    right. rewrite <- Heq, Z.eqb_refl. split; [done|]. intros i Hi.
    specialize (Hnone i ltac:(lia)). rewrite bitf_lnot in Hnone by (done || lia).
    by apply negb_false_iff.
Qed.

Lemma none_above set : bitset_wf set -> forall i, bitf id set i = true -> i < size set.
Proof.
  intros Hwf i Hi. destruct (decide (i < size set)); [done|exfalso].
  rewrite bitf_id, (bw_high _ Hwf) in Hi by lia. done.
Qed.

Lemma bitset_next_set_bit_spec set from : bitset_wf set -> 0 <= from < size set -> from < 64 ->
  (exists pos, bitset_next_set_bit set from = Ok pos /\
     first_from (member set) from (size set) pos) \/
  (bitset_next_set_bit set from = Ok (-1) /\ none_in (member set) from (size set)).
Proof.
  intros Hwf Hf H64. unfold bitset_next_set_bit. rewrite from_ok_spec by done.
  cbn [c_assert]. bind_simpl. rewrite Z.shiftr_div_pow2 by lia. change (2 ^ 6) with 64.
  destruct (rd_ok set (from / 64) Hwf (index_lt _ _ Hf)) as (w & -> & Hz & Hr). bind_simpl.
  destruct (mask_low_spec from ltac:(lia)) as (m & -> & Hm1 & Hm2).
  bind_simpl. pose proof (index_lt _ _ Hf) as Hix. pose proof (word_of from ltac:(lia)) as Hwo.
  pose proof (nwords_cover (size set) ltac:(lia)) as Hcov.
  destruct (scan_up_spec id (fun _ H => H) set Hwf (Z.to_nat (nwords (size set))) from (from / 64)
    (Z.land w m)) as [(pos & -> & (Hp1 & Hp2 & Hp3))|[-> Hnone]];
    [done|lia|apply land_word; [done|lia]
    |apply (masked_low_first id); [done|lia|rewrite Z.mod_small by lia; exact Hm2]|
     intros i Hi; lia|lia|..]; bind_simpl.
  - left. exists pos. split; [done|]. pose proof (none_above _ Hwf _ Hp2). split; [lia|done].
  - right. split; [done|]. intros i Hi. apply (Hnone i). lia.
Qed.

Section Prev.
Context (f : Z -> Z) (f_word : forall w, 0 <= w < 2 ^ 64 -> 0 <= f w < 2 ^ 64).

(** Both searches downwards, on the words or on their complements. *)
Lemma prev_spec set from w : bitset_wf set -> 0 <= from < size set -> (from + 1) mod 64 <> 0 ->
  znth (bits set) (from / 64) = Some w -> 0 <= w < 2 ^ 64 ->
  exists m, shr64 word_mask (Z.rem (- (from + 1)) 64 + 64) = Ok m /\
  ((exists pos, scan_down (Z.to_nat (from / 64)) f set (from / 64) (Z.land (f w) m) = Ok pos /\
      last_upto (bitf f set) from pos) \/
   (scan_down (Z.to_nat (from / 64)) f set (from / 64) (Z.land (f w) m) = Ok (-1) /\
      none_in (bitf f set) 0 (from + 1))).
Proof.
  intros Hwf Hf Hne Hz Hr. pose proof (index_lt _ _ Hf) as Hix.
  pose proof (word_of from ltac:(lia)) as Hwo.
  destruct (mask_high_spec from ltac:(lia) Hne) as (m & E & Hm1 & Hm2).
  exists m. split; [done|].
  apply scan_down_spec; [done|done|done|lia|apply land_word; [by apply f_word|lia]| |intros i Hi; lia|lia].
  apply masked_high_first; [done|lia|exact Hm2].
Qed.
End Prev.

Lemma bitset_prev_set_bit_spec set from :
  bitset_wf set -> 0 <= from < size set -> (from + 1) mod 64 <> 0 ->
  (exists pos, bitset_prev_set_bit set from = Ok pos /\ last_upto (member set) from pos) \/
  (bitset_prev_set_bit set from = Ok (-1) /\ none_in (member set) 0 (from + 1)).
Proof.
  intros Hwf Hf Hne. unfold bitset_prev_set_bit. rewrite from_ok_spec by done.
  cbn [c_assert]. bind_simpl. rewrite Z.shiftr_div_pow2 by lia. change (2 ^ 6) with 64.
  destruct (rd_ok set (from / 64) Hwf (index_lt _ _ Hf)) as (w & -> & Hz & Hr). bind_simpl.
  destruct (prev_spec id (fun _ H => H) set from w Hwf Hf Hne Hz Hr) as (m & -> & H).
  bind_simpl. exact H.
Qed.

Lemma bitset_prev_clear_bit_spec set from :
  bitset_wf set -> 0 <= from < size set -> (from + 1) mod 64 <> 0 ->
  let clear := fun i => negb (member set i) in
  (exists pos, bitset_prev_clear_bit set from = Ok pos /\ last_upto clear from pos) \/
  (bitset_prev_clear_bit set from = Ok (-1) /\ none_in clear 0 (from + 1)).
Proof.
  intros Hwf Hf Hne clear. unfold bitset_prev_clear_bit. rewrite from_ok_spec by done.
  cbn [c_assert]. bind_simpl. rewrite Z.shiftr_div_pow2 by lia. change (2 ^ 6) with 64.
  destruct (rd_ok set (from / 64) Hwf (index_lt _ _ Hf)) as (w & -> & Hz & Hr). bind_simpl.
  pose proof (nwords_cover (size set) ltac:(lia)) as Hcov.
  assert (forall i, 0 <= i <= from -> bitf lnot64 set i = clear i) as Hcl
    by (intros i Hi; apply bitf_lnot; [done|lia]).
  destruct (prev_spec lnot64 word_lnot set from w Hwf Hf Hne Hz Hr) as
    (m & -> & H); bind_simpl; destruct H as [(pos & -> & Hp1 & Hp2 & Hp3)|[-> Hn]].
  - left. exists pos. split; [done|]. rewrite Hcl in Hp2 by lia. split; [done|]. split; [done|].
    intros i Hi. rewrite <- Hcl by lia. by apply Hp3.
  - right. split; [done|]. intros i Hi. rewrite <- Hcl by lia. apply Hn. lia.
Qed.

(** ** The claims *)

Lemma bitset_init_spec n : 0 <= n -> bitset_wf (bitset_init n) /\ forall i, member (bitset_init n) i = false.
Proof.
  intros Hn. assert (forall i, member (bitset_init n) i = false) as Hm.
  { intros i. unfold member, bitset_init, bitset_reset, znth. cbn [bits size].
    destruct (_ <? 0); [done|]. destruct (_ !! _) as [w|] eqn:E; [|done].
    apply lookup_replicate in E as [-> _]. apply Z.bits_0. }
  split; [|done]. split; cbn; [done| | |intros; apply Hm].
  - unfold zlen. rewrite length_replicate. rewrite nwords_spec by lia.
    apply Z2Nat.id. apply Z.div_pos; lia.
  - apply Forall_replicate. lia.
Qed.

(** A bit set of [n] bits refines a set of numbers below [n]: initialised it
    is empty, [bitset_set] adds one number and [bitset_clear] takes one out,
    each returning 0, and outside the range both return -1 and change nothing. *)
Theorem bitset_refines_set n set bit :
  0 <= n -> bitset_wf set -> size set = n ->
  (bitset_wf (bitset_init n) /\ size (bitset_init n) = n /\
   forall i, member (bitset_init n) i = false) /\
  (if (0 <=? bit) && (bit <? n) then
     (exists s, bitset_set set bit = Ok (0, s) /\ bitset_wf s /\ size s = n /\
        forall i, 0 <= i -> member s i = (i =? bit) || member set i) /\
     (exists s, bitset_clear set bit = Ok (0, s) /\ bitset_wf s /\ size s = n /\
        forall i, 0 <= i -> member s i = negb (i =? bit) && member set i)
   else bitset_set set bit = Ok (-1, set) /\ bitset_clear set bit = Ok (-1, set)).
Proof.
  intros Hn Hwf <-. destruct (bitset_init_spec (size set) Hn) as [H1 H2]. split; [done|].
  destruct (Z.leb_spec 0 bit), (Z.ltb_spec bit (size set)); cbn [andb].
  - split; [apply bitset_set_spec|apply bitset_clear_spec]; done.
  - unfold bitset_set, bitset_clear. rewrite (proj2 (Z.leb_le _ _)) by lia. by rewrite orb_true_r.
  - unfold bitset_set, bitset_clear. by rewrite (proj2 (Z.ltb_lt _ _)) by lia.
  - unfold bitset_set, bitset_clear. by rewrite (proj2 (Z.ltb_lt _ _)) by lia.
Qed.

Lemma bitset_refines_set_witness :
  exists s, bitset_set (bitset_init 100) 70 = Ok (0, s) /\ member s 70 = true.
Proof.
  destruct (bitset_refines_set 100 (bitset_init 100) 70) as (_ & (s & E & _ & _ & Hm) & _);
    [lia|apply bitset_init_spec; lia|reflexivity|].
  exists s. split; [exact E|]. rewrite Hm by lia. reflexivity.
Defined.

(** The four searches return the nearest position: [bitset_next_clear_bit]
    everywhere, [bitset_next_set_bit] when it starts in the first word, and the
    two searches downwards when they do not start at the last bit of a word;
    they return -1 exactly when there is none. *)
Theorem bitset_searches set from :
  bitset_wf set -> 0 <= from < size set ->
  let clear := fun i => negb (member set i) in
  ((exists pos, bitset_next_clear_bit set from = Ok pos /\ first_from clear from (size set) pos) \/
   (bitset_next_clear_bit set from = Ok (-1) /\ none_in clear from (size set))) /\
  (from < 64 ->
   (exists pos, bitset_next_set_bit set from = Ok pos /\
      first_from (member set) from (size set) pos) \/
   (bitset_next_set_bit set from = Ok (-1) /\ none_in (member set) from (size set))) /\
  ((from + 1) mod 64 <> 0 ->
   ((exists pos, bitset_prev_set_bit set from = Ok pos /\ last_upto (member set) from pos) \/
    (bitset_prev_set_bit set from = Ok (-1) /\ none_in (member set) 0 (from + 1))) /\
   ((exists pos, bitset_prev_clear_bit set from = Ok pos /\ last_upto clear from pos) \/
    (bitset_prev_clear_bit set from = Ok (-1) /\ none_in clear 0 (from + 1)))).
Proof.
  intros Hwf Hf clear. split; [|split].
  - destruct (bitset_next_clear_bit_spec set from Hwf Hf) as [H|[E H]]; [by left|right].
    split; [done|]. intros i Hi. unfold clear. by rewrite H.
  - intros. by apply bitset_next_set_bit_spec.
  - intros. split; [by apply bitset_prev_set_bit_spec|by apply bitset_prev_clear_bit_spec].
Qed.

Lemma bitset_searches_witness :
  bitset_next_clear_bit (bitset_init 100) 65 = Ok 65.
Proof.
  destruct (bitset_searches (bitset_init 100) 65) as [[(pos & E & H)|[E H]] _];
    [apply bitset_init_spec; lia|vm_compute; split; congruence| |].
  - vm_compute in E. injection E as <-. reflexivity.
  - vm_compute in E. discriminate E.
Defined.

(** Outside those ranges the searches shift a word by 64 bits or more, and
    [bitset_isset] shifts an [int] into its sign bit or past it: both are
    undefined. So [bitset_next_set_bit] is undefined from position 64 on, the
    searches downwards at every last bit of a word, and [bitset_isset] for the
    upper 33 bits of every word. *)
Theorem bitset_overwide_shifts set i : bitset_wf set -> 0 <= i < size set ->
  (64 <= i -> bitset_next_set_bit set i = Undef) /\
  ((i + 1) mod 64 = 0 ->
     bitset_prev_set_bit set i = Undef /\ bitset_prev_clear_bit set i = Undef) /\
  (31 <= i mod 64 -> bitset_isset set i = Undef).
Proof.
  intros Hwf Hi.
  destruct (rd_ok set (i / 64) Hwf (index_lt _ _ Hi)) as (w & Ew & _).
  unfold bitset_next_set_bit, bitset_prev_set_bit, bitset_prev_clear_bit, bitset_isset, shl64, shr64, shl_int.
  rewrite from_ok_spec by done. cbn [c_assert]. bind_simpl.
  rewrite Z.shiftr_div_pow2 by lia. change (2 ^ 6) with 64.
  rewrite Ew. bind_simpl. split; [|split].
  - intros H. by rewrite (proj2 (Z.ltb_ge _ _)) by lia.
  - intros H. rewrite Z.rem_opp_l, Z.rem_mod_nonneg, H by lia. done.
  - intros H. rewrite (proj2 (Z.ltb_ge i 0)), (proj2 (Z.leb_gt (size set) i)) by lia.
    cbn [orb]. by rewrite (proj2 (Z.ltb_ge _ _)) by lia.
Qed.

Lemma bitset_overwide_shifts_witness :
  bitset_isset (bitset_init 128) 31 = Undef /\ bitset_next_set_bit (bitset_init 128) 64 = Undef.
Proof.
  split; [apply bitset_overwide_shifts|apply (bitset_overwide_shifts _ 64)];
    (apply bitset_init_spec; lia) || (vm_compute; split; congruence) || (vm_compute; congruence).
Defined.

(** [bitset_compare] hands [memcmp] the number of words where it takes a
    number of bytes: two sets that differ in a number both have room for compare
    equal, here 8 in a set of 64. *)
Theorem bitset_compare_misses :
  exists s, bitset_set (bitset_init 64) 8 = Ok (0, s) /\ member s 8 = true /\
    bitset_compare (bitset_init 64) s 64 = Ok 0.
Proof. eexists. split; [vm_compute; reflexivity|]. split; vm_compute; reflexivity. Qed.

End Bitset.
