(* ===== verification/IdsHeap.v ===== *)
(** * Identifier allocation

    src/src/common/ids_heap.c over the bit set: identifiers 1 to [max_index],
    handed out in rotation. The result of the mutex calls is an argument; under
    the lock the operations are sequential. *)

From Stdlib Require Import ZArith Lia.
From stdpp Require Import prelude gmap sets list.
From S2P Require Import Prelude Bitset.

Module IdsHeap.
Import Bitset.

Record IdsHeap := mkIdsHeap { latest_index : Z; max_index : Z; bitset_ids : bitset }.

Definition ENOMEM : Z := 12.
Definition EDEADLK : Z := 35.

(** ** Operations *)

Definition ids_heap_init (init_rc : Z) (h : IdsHeap) (max : Z) : Z * IdsHeap :=
  if negb (init_rc =? 0) then (- ENOMEM, h)
  else (0, mkIdsHeap (-1) max (bitset_init max)).

(** C's [%] on [int]. *)
Definition c_rem (a b : Z) : outcome Z := if b =? 0 then Undef else Ok (Z.rem a b).

Definition ids_heap_alloc (lock_rc : Z) (h : IdsHeap) : outcome (Z * IdsHeap) :=
  if negb (lock_rc =? 0) then Ok (- EDEADLK, h)
  else
    from ← c_rem (latest_index h + 1) (max_index h);
    pos ← bitset_next_clear_bit (bitset_ids h) from;
    pos ← (if (pos =? -1) && negb (from =? 0)
           then bitset_next_clear_bit (bitset_ids h) 0 else Ok pos);
    if negb (pos =? -1) then
      r ← bitset_set (bitset_ids h) pos;
      Ok (pos + 1, mkIdsHeap pos (max_index h) (snd r))
    else Ok (pos, h).

Definition ids_heap_free (lock_rc : Z) (h : IdsHeap) (id : Z) : outcome (Z * IdsHeap) :=
  _ ← c_assert 87 (0 <? id);
  _ ← c_assert 88 (id <=? max_index h);
  let id := id - 1 in
  if negb (lock_rc =? 0) then Ok (- EDEADLK, h)
  else
    i ← bitset_isset (bitset_ids h) id;
    if negb (i =? 0) then
      r ← bitset_clear (bitset_ids h) id;
      Ok (0, mkIdsHeap (latest_index h) (max_index h) (snd r))
    else Ok (0, h).

(** ** Specification: the set of identifiers handed out *)

Record heap_wf (h : IdsHeap) : Prop := {
  hw_bits : bitset_wf (bitset_ids h);
  hw_size : size (bitset_ids h) = max_index h;
  hw_max : 0 < max_index h;
  hw_latest : -1 <= latest_index h < max_index h;
}.

Definition refines (h : IdsHeap) (S : gset Z) : Prop :=
  heap_wf h /\
  forall id, id ∈ S <-> 1 <= id <= max_index h /\ member (bitset_ids h) (id - 1) = true.

(** The position that follows the latest one, in rotation. *)
Definition start (h : IdsHeap) : Z := (latest_index h + 1) mod max_index h.

(** [id] is free and the first free identifier from [start] on, in rotation. *)
Definition next_free (h : IdsHeap) (S : gset Z) (id : Z) : Prop :=
  (1 <= id <= max_index h) /\ (id ∉ S) /\
  (forall j, start h < j <= max_index h -> (j < id \/ id <= start h) -> j ∈ S) /\
  (id <= start h -> forall j, 1 <= j < id -> j ∈ S).

Lemma start_range h : heap_wf h -> 0 <= start h < size (bitset_ids h).
Proof. intros [? -> ? ?]. apply Z.mod_pos_bound. lia. Qed.

Lemma start_rem h : heap_wf h -> c_rem (latest_index h + 1) (max_index h) = Ok (start h).
Proof.
  intros []. unfold c_rem, start. rewrite (proj2 (Z.eqb_neq _ _)) by lia.
  by rewrite Z.rem_mod_nonneg by lia.
Qed.

Lemma in_refines h S i : refines h S -> 0 <= i < max_index h ->
  member (bitset_ids h) i = true <-> i + 1 ∈ S.
Proof.
  intros [_ H] Hi. rewrite H. replace (i + 1 - 1) with i by lia.
  split; [intros; split; [lia|done]|by intros []].
Qed.

Lemma notin_refines h S i : refines h S -> 0 <= i < max_index h ->
  negb (member (bitset_ids h) i) = true -> i + 1 ∉ S.
Proof. intros HR Hi Hn Hin. apply (in_refines h S i HR Hi) in Hin. by rewrite Hin in Hn. Qed.

(** Taking the free position [pos]. *)
Lemma take_refines h S pos : refines h S -> 0 <= pos < max_index h ->
  exists s, bitset_set (bitset_ids h) pos = Ok (0, s) /\
    refines (mkIdsHeap pos (max_index h) s) ({[pos + 1]} ∪ S).
Proof.
  intros [[Hb Hs Hm Hl] HR] Hp.
  destruct (bitset_set_spec (bitset_ids h) pos Hb ltac:(lia)) as (s & E & Hw & Hsz & Hmem).
  exists s. split; [done|]. split; [split; cbn; [done|lia|lia|lia]|].
  intros id. cbn [max_index bitset_ids]. rewrite elem_of_union, elem_of_singleton, HR. split.
  - intros [->|[H1 H2]]; (split; [lia|]); rewrite Hmem by lia; apply orb_true_iff.
    + left. apply Z.eqb_eq. lia.
    + by right.
  - intros [H1 H2]. rewrite Hmem in H2 by lia. apply orb_true_iff in H2 as [H2|H2].
    + left. apply Z.eqb_eq in H2. lia.
    + by right.
Qed.

(** The search of [ids_heap_alloc]. *)
Lemma alloc_search h S : refines h S ->
  (exists pos, 0 <= pos < max_index h /\ next_free h S (pos + 1) /\
     ids_heap_alloc 0 h = (r ← bitset_set (bitset_ids h) pos;
                           Ok (pos + 1, mkIdsHeap pos (max_index h) (snd r)))) \/
  (ids_heap_alloc 0 h = Ok (-1, h) /\ forall id, 1 <= id <= max_index h -> id ∈ S).
Proof.
  intros HR. pose proof HR as [Hw _]. pose proof (start_range h Hw) as Hst.
  pose proof (hw_size _ Hw) as Hsz. pose proof (hw_max _ Hw) as Hmax.
  assert (forall i, 0 <= i < max_index h -> negb (member (bitset_ids h) i) = false -> i + 1 ∈ S) as Hin
    by (intros i Hi Hn; apply (in_refines h S i HR Hi); by apply negb_false_iff).
  unfold ids_heap_alloc. cbn [Z.eqb negb]. rewrite start_rem by done. bind_simpl.
  destruct (bitset_next_clear_bit_spec _ _ (hw_bits _ Hw) Hst) as [(pos & -> & Hp1 & Hp2 & Hp3)|[-> Hall]];
    bind_simpl.
  - rewrite (proj2 (Z.eqb_neq pos (-1))) by lia. cbn [andb negb]. bind_simpl.
    left. exists pos. split; [lia|]. split; [|by rewrite (proj2 (Z.eqb_neq pos (-1))) by lia].
    split; [lia|]. split; [apply (notin_refines h); [done|lia|done]|].
    split; [|lia]. intros j Hj [Hlt|]; [|lia].
    replace j with (j - 1 + 1) by lia. apply Hin; [lia|]. apply Hp3. lia.
  - rewrite Z.eqb_refl. cbn [andb].
    assert (forall j, start h < j <= max_index h -> j ∈ S) as Hhigh.
    { intros j Hj. replace j with (j - 1 + 1) by lia. apply Hin; [lia|]. rewrite Hall by lia. done. }
    destruct (Z.eqb_spec (start h) 0) as [E0|E0]; cbn [negb].
    { right. bind_simpl. split; [done|]. intros id Hid. apply Hhigh. lia. }
    destruct (bitset_next_clear_bit_spec _ 0 (hw_bits _ Hw) ltac:(lia)) as [(pos & -> & Hp1 & Hp2 & Hp3)|[-> Hall2]];
      bind_simpl.
    + left. exists pos. split; [lia|]. split; [|by rewrite (proj2 (Z.eqb_neq pos (-1))) by lia].
      split; [lia|]. split; [apply (notin_refines h); [done|lia|done]|].
      split; [intros; by apply Hhigh|]. intros _ j Hj.
      replace j with (j - 1 + 1) by lia. apply Hin; [lia|]. apply Hp3. lia.
    + right. split; [done|]. intros id Hid. replace id with (id - 1 + 1) by lia.
      apply Hin; [lia|]. rewrite Hall2 by lia. done.
Qed.

Lemma alloc_refines h S : refines h S ->
  (exists id h', ids_heap_alloc 0 h = Ok (id, h') /\ next_free h S id /\
     refines h' ({[id]} ∪ S) /\ max_index h' = max_index h /\ latest_index h' = id - 1) \/
  (ids_heap_alloc 0 h = Ok (-1, h) /\ forall id, 1 <= id <= max_index h -> id ∈ S).
Proof.
  intros HR. destruct (alloc_search h S HR) as [(pos & Hp & Hn & E)|H]; [left|by right].
  destruct (take_refines h S pos HR Hp) as (s & Es & HR').
  eexists _, _. rewrite E, Es. bind_simpl. split; [reflexivity|].
  split; [done|]. split; [exact HR'|]. cbn. split; [done|lia].
Qed.

(** ** The claims *)

(** C39. Allocation refines a set of identifiers: [ids_heap_alloc] hands out an
    identifier from 1 to [max_index] that is not in use, the first free one after
    the latest in rotation, and adds it to the set; when all are in use it
    returns -1 and changes nothing. *)
Theorem ids_heap_alloc_fresh h S : refines h S ->
  (exists id h', ids_heap_alloc 0 h = Ok (id, h') /\ next_free h S id /\
     refines h' ({[id]} ∪ S) /\ max_index h' = max_index h /\ latest_index h' = id - 1) \/
  (ids_heap_alloc 0 h = Ok (-1, h) /\ forall id, 1 <= id <= max_index h -> id ∈ S).
Proof. apply alloc_refines. Qed.

Lemma init_refines h max : 0 < max -> refines (snd (ids_heap_init 0 h max)) ∅.
Proof.
  intros Hm. destruct (bitset_init_spec max ltac:(lia)) as [H1 H2].
  split; [split; cbn; [done|done|done|lia]|].
  intros id. cbn [ids_heap_init Z.eqb negb snd bitset_ids]. rewrite H2. set_solver.
Qed.

Lemma ids_heap_alloc_fresh_witness :
  exists h', ids_heap_alloc 0 (snd (ids_heap_init 0 (mkIdsHeap 0 0 (bitset_init 0)) 3)) = Ok (1, h') /\
    refines h' ({[1]} ∪ ∅).
Proof.
  destruct (ids_heap_alloc_fresh (snd (ids_heap_init 0 (mkIdsHeap 0 0 (bitset_init 0)) 3)) ∅)
    as [(id & h' & E & _ & HR & _)|[E _]].
  - apply init_refines. lia.
  - exists h'. assert (id = 1) as -> by (vm_compute in E; congruence). split; [exact E|exact HR].
  - vm_compute in E. discriminate E.
Defined.

Lemma free_cases h S id : refines h S -> 1 <= id <= max_index h ->
  if (id - 1) mod 64 <? 31 then
    exists h', ids_heap_free 0 h id = Ok (0, h') /\ refines h' (S ∖ {[id]}) /\
      max_index h' = max_index h /\ latest_index h' = latest_index h
  else ids_heap_free 0 h id = Undef.
Proof.
  intros HR Hid. pose proof HR as [[Hb Hs Hm Hl] H].
  unfold ids_heap_free. rewrite (proj2 (Z.ltb_lt 0 id)), (proj2 (Z.leb_le id (max_index h))) by lia.
  cbn [c_assert Z.eqb negb]. bind_simpl. destruct (Z.ltb_spec ((id - 1) mod 64) 31) as [Ho|Ho].
  - rewrite bitset_isset_spec by (done || lia). bind_simpl.
    destruct (member (bitset_ids h) (id - 1)) eqn:Em; cbn [Z.eqb negb].
    + destruct (bitset_clear_spec (bitset_ids h) (id - 1) Hb ltac:(lia)) as (s & -> & Hw & Hz & Hmem).
      bind_simpl. eexists. split; [reflexivity|]. split; [|done].
      split; [split; cbn; [done|lia|lia|lia]|]. intros j. cbn [snd max_index bitset_ids].
      rewrite elem_of_difference, elem_of_singleton, H. split.
      * intros [[H1 H2] H3]. split; [done|]. rewrite Hmem by lia.
        by rewrite (proj2 (Z.eqb_neq _ _)) by lia.
      * intros [H1 H2]. rewrite Hmem in H2 by lia. apply andb_true_iff in H2 as [H2 H3].
        apply negb_true_iff, Z.eqb_neq in H2. split; [done|]. lia.
    + exists h. split; [done|]. split; [|done]. split; [split; done|].
      intros j. rewrite elem_of_difference, elem_of_singleton, H.
      split; [by intros [? _]|]. intros [H1 H2]. split; [done|]. intros ->. congruence.
  - destruct (rd_ok _ _ Hb (index_lt (size (bitset_ids h)) (id - 1) ltac:(lia))) as (w & Ew & _).
    unfold bitset_isset. rewrite (proj2 (Z.ltb_ge (id - 1) 0)), (proj2 (Z.leb_gt (size (bitset_ids h)) (id - 1))) by lia.
    cbn [orb]. rewrite Z.shiftr_div_pow2 by lia. change (2 ^ 6) with 64. rewrite Ew. bind_simpl.
    unfold shl_int. by rewrite (proj2 (Z.ltb_ge _ _)) by lia.
Qed.

Lemma ids_heap_free_refines h S id : refines h S -> 1 <= id <= max_index h -> ((id - 1) mod 64 <? 31) = true ->
  exists h', ids_heap_free 0 h id = Ok (0, h') /\ refines h' (S ∖ {[id]}) /\
    max_index h' = max_index h /\ latest_index h' = latest_index h.
Proof. intros HR Hid Hg. pose proof (free_cases h S id HR Hid) as H. by rewrite Hg in H. Qed.

(** [ids_heap_free] takes the identifier out of the set, when the bit it
    tests is one of the lower 31 of its word; for the others the test itself is
    undefined, whether or not the identifier is in use. *)
Theorem ids_heap_free_spec h S id : refines h S -> 1 <= id <= max_index h ->
  if (id - 1) mod 64 <? 31 then
    exists h', ids_heap_free 0 h id = Ok (0, h') /\ refines h' (S ∖ {[id]}) /\
      max_index h' = max_index h /\ latest_index h' = latest_index h
  else ids_heap_free 0 h id = Undef.
Proof. apply free_cases. Qed.

Lemma ids_heap_free_spec_witness :
  let h := snd (ids_heap_init 0 (mkIdsHeap 0 0 (bitset_init 0)) 128) in
  ids_heap_free 0 h 32 = Undef /\ exists h', ids_heap_free 0 h 2 = Ok (0, h').
Proof.
  split.
  - apply (ids_heap_free_spec _ ∅ 32); [apply init_refines; lia|vm_compute; split; congruence].
  - destruct (ids_heap_free_spec (snd (ids_heap_init 0 (mkIdsHeap 0 0 (bitset_init 0)) 128)) ∅ 2)
      as (h' & E & _); [apply init_refines; lia|vm_compute; split; congruence|].
    exists h'. exact E.
Defined.

(** Every allocation until the heap is full, from a heap that was just set up. *)
Fixpoint alloc_n (n : nat) (h : IdsHeap) : outcome (list Z * IdsHeap) :=
  match n with
  | O => Ok ([], h)
  | S n =>
      r ← ids_heap_alloc 0 h;
      q ← alloc_n n (snd r);
      Ok (fst r :: fst q, snd q)
  end.

Lemma alloc_n_rotation n h S k :
  refines h S -> (forall id, id ∈ S <-> 1 <= id <= k) ->
  latest_index h = k - 1 -> 0 <= k -> k + Z.of_nat n <= max_index h ->
  exists h', alloc_n n h = Ok (seqZ (k + 1) (Z.of_nat n), h') /\ max_index h' = max_index h /\
    exists S', refines h' S' /\ forall id, id ∈ S' <-> 1 <= id <= k + Z.of_nat n.
Proof.
  revert h S k. induction n as [|n IH]; intros h S k HR HS Hl Hk Hn; cbn [alloc_n].
  { exists h. split; [done|]. split; [done|]. exists S. split; [done|]. intros id. rewrite HS. lia. }
  destruct (alloc_refines h S HR) as [(id & h1 & -> & Hf & HR1 & Hm1 & Hl1)|[_ Hall]];
    [|exfalso; specialize (Hall (k + 1) ltac:(lia)); apply HS in Hall; lia].
  destruct Hf as (Hid & Hnot & Hhigh & Hlow). rewrite HS in Hnot.
  assert (start h = k) as Hst by (unfold start; rewrite Hl, Z.mod_small; lia).
  assert (id = k + 1) as ->.
  { destruct (decide (id = k + 1)) as [|Hne]; [done|exfalso].
    specialize (Hhigh (k + 1) ltac:(lia) ltac:(lia)). apply HS in Hhigh. lia. }
  bind_simpl. cbn [fst snd].
  destruct (IH h1 ({[k + 1]} ∪ S) (k + 1)) as (h' & -> & Hm' & S' & HR' & HS'); [done| |lia|lia|lia|].
  { intros id. rewrite elem_of_union, elem_of_singleton, HS. lia. }
  bind_simpl. cbn [fst snd]. exists h'. split.
  - f_equal. f_equal. rewrite (seqZ_cons (k + 1)) by lia. f_equal. f_equal; lia.
  - split; [congruence|]. exists S'. split; [done|]. intros id. rewrite HS'. lia.
Qed.

(** From a heap just set up, [max] allocations return 1 to [max] in order,
    and the next one returns -1. *)
Theorem ids_heap_exhaustion h0 max : 0 < max ->
  exists h, alloc_n (Z.to_nat max) (snd (ids_heap_init 0 h0 max)) = Ok (seqZ 1 max, h) /\
    ids_heap_alloc 0 h = Ok (-1, h).
Proof.
  intros Hm.
  destruct (alloc_n_rotation (Z.to_nat max) (snd (ids_heap_init 0 h0 max)) ∅ 0)
    as (h & E & Hmax & S & HR & HS); [by apply init_refines|set_solver by lia|done|lia|cbn; lia|].
  exists h. rewrite Z2Nat.id in E by lia. split; [exact E|].
  destruct (alloc_refines h S HR) as [(id & h1 & _ & (Hid & Hnot & _) & _)|[E' _]]; [|done].
  exfalso. apply Hnot, HS. cbn in Hmax. lia.
Qed.

Lemma ids_heap_exhaustion_witness :
  exists h, alloc_n 5 (snd (ids_heap_init 0 (mkIdsHeap 0 0 (bitset_init 0)) 5)) = Ok ([1; 2; 3; 4; 5], h) /\
    ids_heap_alloc 0 h = Ok (-1, h).
Proof. exact (ids_heap_exhaustion (mkIdsHeap 0 0 (bitset_init 0)) 5 eq_refl). Defined.

End IdsHeap.
