(* ===== verification/TimerHeap.v ===== *)
(** * Timer heap: data and operations

    src/src/common/timerheap.c. The heap array holds pointers to entries the
    caller owns, so the entries live in a store beside the heap; the proofs are
    in TimerHeapThm.v. A slot is a [size_t] and is a [nat]; a [timer_id_t] and the
    seconds and milliseconds of a time value are signed integers of 32 and 64
    bits. Locks have no effect on the state and are left out; the current time
    is an argument. *)

From Stdlib Require Import ZArith Lia.
From stdpp Require Import prelude gmap list.
From S2P Require Import Prelude.

Module TimerHeap.

(** ** Data *)

Record time_val := mkTime { sec : Z; msec : Z }.

Record timer_entry := mkEntry {
  user_data : Z;
  id : Z;
  cb : option Z;
  _timer_id : Z;
  _timer_value : time_val;
}.

(** [NULL], and the contents of memory that was not written, are the pointer 0. *)
Record timer_heap := mkHeap {
  max_size : nat;
  cur_size : nat;
  max_entries_per_poll : Z;
  heap : list Z;
  timer_ids : list Z;
  timer_ids_freelist : Z;
}.

(** The heap, the entries by their addresses, and the callbacks made so far. *)
Record world := mkWorld { ht : timer_heap; mem : gmap Z timer_entry; log : list (Z * Z) }.

Definition INT32_MAX : Z := 2147483647.
Definition EINVAL : Z := 22.
Definition F_DONT_CALL : Z := 1.
Definition F_DONT_ASSERT : Z := 2.
Definition F_SET_ID : Z := 4.
Definition DEFAULT_MAX_TIMED_OUT_PER_POLL : Z := 64.

Definition HEAP_PARENT (x : nat) : nat := if (x =? 0)%nat then 0%nat else ((x - 1) / 2)%nat.
Definition HEAP_LEFT (x : nat) : nat := (x + x + 1)%nat.

(** ** Time values *)

Definition TIME_VAL_MSEC (t : time_val) : Z := sec t * 1000 + msec t.
Definition TIME_VAL_EQ (a b : time_val) : bool := (sec a =? sec b) && (msec a =? msec b).
Definition TIME_VAL_GT (a b : time_val) : bool :=
  (sec b <? sec a) || ((sec a =? sec b) && (msec b <? msec a)).
Definition TIME_VAL_GTE (a b : time_val) : bool := TIME_VAL_GT a b || TIME_VAL_EQ a b.
Definition TIME_VAL_LT (a b : time_val) : bool := negb (TIME_VAL_GTE a b).
Definition TIME_VAL_LTE (a b : time_val) : bool := negb (TIME_VAL_GT a b).

(** The result of [long] arithmetic, undefined on overflow. *)
Definition long (x : Z) : outcome Z :=
  if (- 2 ^ 63 <=? x) && (x <? 2 ^ 63) then Ok x else Undef.

(** The [do ... while] loop of [time_val_normalize]. *)
Fixpoint borrow (fuel : nat) (s m : Z) : outcome (Z * Z) :=
  s ← long (s - 1);
  m ← long (m + 1000);
  if m <=? -1000
  then match fuel with O => NoFuel | S fuel => borrow fuel s m end
  else Ok (s, m).

Definition time_val_normalize (t : time_val) : outcome time_val :=
  r ← (if 1000 <=? msec t then
         s ← long (sec t + Z.quot (msec t) 1000); Ok (s, Z.rem (msec t) 1000)
       else if msec t <=? -1000 then
         borrow (Z.to_nat (- msec t / 1000)) (sec t) (msec t)
       else Ok (sec t, msec t));
  let '(s, m) := r in
  if (1 <=? s) && (m <? 0) then Ok (mkTime (s - 1) (m + 1000))
  else if (s <? 0) && (0 <? m) then Ok (mkTime (s + 1) (m - 1000))
  else Ok (mkTime s m).

Definition TIME_VAL_ADD (a b : time_val) : outcome time_val :=
  s ← long (sec a + sec b);
  m ← long (msec a + msec b);
  time_val_normalize (mkTime s m).

Definition TIME_VAL_SUB (a b : time_val) : outcome time_val :=
  s ← long (sec a - sec b);
  m ← long (msec a - msec b);
  time_val_normalize (mkTime s m).

(** ** Access *)

Definition set_arrays (h : timer_heap) (hp ids : list Z) : timer_heap :=
  mkHeap (max_size h) (cur_size h) (max_entries_per_poll h) hp ids (timer_ids_freelist h).
Definition set_freelist (h : timer_heap) (ids : list Z) (f : Z) : timer_heap :=
  mkHeap (max_size h) (cur_size h) (max_entries_per_poll h) (heap h) ids f.
Definition set_size (h : timer_heap) (n : nat) : timer_heap :=
  mkHeap (max_size h) n (max_entries_per_poll h) (heap h) (timer_ids h) (timer_ids_freelist h).

Definition get_slot (h : timer_heap) (slot : nat) : outcome Z :=
  match heap h !! slot with Some p => Ok p | None => Undef end.

Definition get_id (h : timer_heap) (i : Z) : outcome Z :=
  match znth (timer_ids h) i with Some v => Ok v | None => Undef end.

(** [p->...]. *)
Definition load (m : gmap Z timer_entry) (p : Z) : outcome timer_entry :=
  match m !! p with Some e => Ok e | None => Undef end.

Definition set_timer_id (e : timer_entry) (t : Z) : timer_entry :=
  mkEntry (user_data e) (id e) (cb e) t (_timer_value e).
Definition set_id (e : timer_entry) (i : Z) : timer_entry :=
  mkEntry (user_data e) i (cb e) (_timer_id e) (_timer_value e).
Definition set_value (e : timer_entry) (t : Z) (v : time_val) : timer_entry :=
  mkEntry (user_data e) (id e) (cb e) t v.

(** ** Internal operations *)

Definition copy_node (m : gmap Z timer_entry) (h : timer_heap) (slot : nat) (moved_node : Z)
  : outcome timer_heap :=
  if (slot <? length (heap h))%nat then
    e ← load m moved_node;
    _ ← get_id h (_timer_id e);
    Ok (set_arrays h (<[slot := moved_node]> (heap h))
          (<[Z.to_nat (_timer_id e) := s32 (Z.of_nat slot)]> (timer_ids h)))
  else Undef.

Definition pop_freelist (h : timer_heap) : outcome (Z * timer_heap) :=
  let new_id := timer_ids_freelist h in
  v ← get_id h (timer_ids_freelist h);
  Ok (new_id, set_freelist h (timer_ids h) (- v)).

Definition push_freelist (h : timer_heap) (old_id : Z) : outcome timer_heap :=
  _ ← get_id h old_id;
  Ok (set_freelist h (<[Z.to_nat old_id := - timer_ids_freelist h]> (timer_ids h)) old_id).

(** The value of the entry at a slot. *)
Definition slot_value (m : gmap Z timer_entry) (h : timer_heap) (slot : nat) : outcome time_val :=
  p ← get_slot h slot;
  e ← load m p;
  Ok (_timer_value e).

Definition smaller_child (m : gmap Z timer_entry) (h : timer_heap) (child : nat) : outcome nat :=
  if (child + 1 <? cur_size h)%nat then
    a ← slot_value m h (child + 1);
    b ← slot_value m h child;
    Ok (if TIME_VAL_LT a b then (child + 1)%nat else child)
  else Ok child.

Fixpoint reheap_down (fuel : nat) (m : gmap Z timer_entry) (h : timer_heap) (moved_node : Z)
    (slot child : nat) : outcome timer_heap :=
  if (child <? cur_size h)%nat then
    child ← smaller_child m h child;
    v ← slot_value m h child;
    mv ← load m moved_node;
    if TIME_VAL_LT v (_timer_value mv) then
      p ← get_slot h child;
      h ← copy_node m h slot p;
      match fuel with
      | O => NoFuel
      | S fuel => reheap_down fuel m h moved_node child (HEAP_LEFT child)
      end
    else copy_node m h slot moved_node
  else copy_node m h slot moved_node.

Fixpoint reheap_up (fuel : nat) (m : gmap Z timer_entry) (h : timer_heap) (moved_node : Z)
    (slot parent : nat) : outcome timer_heap :=
  if (0 <? slot)%nat then
    mv ← load m moved_node;
    v ← slot_value m h parent;
    if TIME_VAL_LT (_timer_value mv) v then
      p ← get_slot h parent;
      h ← copy_node m h slot p;
      match fuel with
      | O => NoFuel
      | S fuel => reheap_up fuel m h moved_node parent (HEAP_PARENT parent)
      end
    else copy_node m h slot moved_node
  else copy_node m h slot moved_node.

Definition remove_node (w : world) (slot : nat) : outcome (Z * world) :=
  let h := ht w in
  removed_node ← get_slot h slot;
  e ← load (mem w) removed_node;
  h ← push_freelist h (_timer_id e);
  let h := set_size h (cur_size h - 1) in
  let m := <[removed_node := set_timer_id e (-1)]> (mem w) in
  h ← (if (slot <? cur_size h)%nat then
         moved_node ← get_slot h (cur_size h);
         h ← copy_node m h slot moved_node;
         let parent := HEAP_PARENT slot in
         mv ← load m moved_node;
         v ← slot_value m h parent;
         if TIME_VAL_GTE (_timer_value mv) v
         then reheap_down (cur_size h) m h moved_node slot (HEAP_LEFT slot)
         else reheap_up slot m h moved_node slot parent
       else Ok h);
  Ok (removed_node, mkWorld h m (log w)).

(** The new end of the free list. *)
Definition free_ids (from n : nat) : list Z :=
  (fun i => - s32 (Z.of_nat (i + 1))) <$> seq from n.

(** [heap_ok] and [ids_ok] are whether the two [realloc] calls succeed; a heap
    pointer that became [NULL] has no slot. *)
Definition grow_heap (heap_ok ids_ok : bool) (h : timer_heap) : outcome timer_heap :=
  let new_size := (max_size h * 2)%nat in
  let new_heap := if heap_ok then heap h ++ replicate (new_size - max_size h) 0 else [] in
  if ids_ok then
    Ok (mkHeap new_size (cur_size h) (max_entries_per_poll h) new_heap
          (timer_ids h ++ free_ids (max_size h) (new_size - max_size h)) (timer_ids_freelist h))
  else if (max_size h <? new_size)%nat then Undef
  else Ok (mkHeap new_size (cur_size h) (max_entries_per_poll h) new_heap [] (timer_ids_freelist h)).

Definition insert_node (heap_ok ids_ok : bool) (m : gmap Z timer_entry) (h : timer_heap) (new_node : Z)
  : outcome timer_heap :=
  h ← (if (max_size h <=? cur_size h + 2)%nat then grow_heap heap_ok ids_ok h else Ok h);
  h ← reheap_up (cur_size h) m h new_node (cur_size h) (HEAP_PARENT (cur_size h));
  Ok (set_size h (cur_size h + 1)).

Definition schedule_entry (heap_ok ids_ok : bool) (w : world) (entry : Z) (future_time : time_val)
  : outcome (Z * world) :=
  let h := ht w in
  if (cur_size h <? max_size h)%nat then
    e ← load (mem w) entry;
    r ← pop_freelist h;
    let '(new_id, h) := r in
    let m := <[entry := set_value e new_id future_time]> (mem w) in
    h ← insert_node heap_ok ids_ok m h entry;
    Ok (0, mkWorld h m (log w))
  else Ok (-1, w).

(** [entry->_timer_id = -1; return 0]. *)
Definition forget (w : world) (entry : Z) (e : timer_entry) : Z * world :=
  (0, mkWorld (ht w) (<[entry := set_timer_id e (-1)]> (mem w)) (log w)).

Definition flag (flags f : Z) : bool := negb (Z.land flags f =? 0).

(** [call entry w] is the close hook of the heap, for the callers that ask for it. *)
Definition cancel (call : Z -> world -> outcome world) (w : world) (entry : Z) (flags : Z)
  : outcome (Z * world) :=
  e ← load (mem w) entry;
  if (_timer_id e <? 0) || (Z.of_nat (max_size (ht w)) <? _timer_id e) then Ok (forget w entry e)
  else
    timer_node_slot ← get_id (ht w) (_timer_id e);
    if timer_node_slot <? 0 then Ok (forget w entry e)
    else
      p ← get_slot (ht w) (Z.to_nat timer_node_slot);
      if negb (entry =? p) then
        _ ← (if negb (flag flags F_DONT_ASSERT) then c_assert 471 (entry =? p) else Ok tt);
        Ok (forget w entry e)
      else
        r ← remove_node w (Z.to_nat timer_node_slot);
        w ← (if negb (flag flags F_DONT_CALL) then call entry (snd r) else Ok (snd r));
        Ok (1, w).

(** ** Interface *)

Definition timer_heap_create (alloc_ht alloc_heap alloc_ids : bool) (size : nat) : option timer_heap :=
  let size := (size + 2)%nat in
  if negb alloc_ht then None
  else if negb alloc_heap then None
  else if negb alloc_ids then None
  else Some (mkHeap size 0 DEFAULT_MAX_TIMED_OUT_PER_POLL (replicate size 0) (free_ids 0 size) 1).

Definition timer_heap_set_max_timed_out_per_poll (h : timer_heap) (count : Z) : Z * timer_heap :=
  (max_entries_per_poll h,
   mkHeap (max_size h) (cur_size h) count (heap h) (timer_ids h) (timer_ids_freelist h)).

Definition timer_entry_init (w : world) (entry i ud : Z) (callback : option Z) : outcome world :=
  _ ← c_assert 580 (match callback with Some _ => true | None => false end);
  e ← load (mem w) entry;
  Ok (mkWorld (ht w) (<[entry := mkEntry ud i callback (-1) (_timer_value e)]> (mem w)) (log w)).

Definition timer_entry_running (e : timer_entry) : bool := 1 <=? _timer_id e.

Definition schedule (heap_ok ids_ok : bool) (now : time_val) (w : world) (entry : Z) (delay : time_val)
    (set_id_ : bool) (id_val : Z) : outcome (Z * world) :=
  e ← load (mem w) entry;
  match cb e with
  | None => Ok (EINVAL, w)
  | Some _ =>
      if 1 <=? _timer_id e then Ok (EINVAL, w)
      else
        expires ← TIME_VAL_ADD now delay;
        r ← schedule_entry heap_ok ids_ok w entry expires;
        let '(status, w) := r in
        if (status =? 0) && set_id_ then
          e ← load (mem w) entry;
          Ok (status, mkWorld (ht w) (<[entry := set_id e id_val]> (mem w)) (log w))
        else Ok (status, w)
  end.

Definition timer_heap_schedule (heap_ok ids_ok : bool) (now : time_val) (w : world) (entry : Z)
    (delay : time_val) : outcome (Z * world) :=
  schedule heap_ok ids_ok now w entry delay false 1.

Definition cancel_timer (call : Z -> world -> outcome world) (w : world) (entry flags id_val : Z)
  : outcome (Z * world) :=
  r ← cancel call w entry (Z.lor flags F_DONT_CALL);
  let '(count, w) := r in
  if flag flags F_SET_ID then
    e ← load (mem w) entry;
    Ok (count, mkWorld (ht w) (<[entry := set_id e id_val]> (mem w)) (log w))
  else Ok (count, w).

Definition timer_heap_cancel (call : Z -> world -> outcome world) (w : world) (entry : Z)
  : outcome (Z * world) := cancel_timer call w entry 0 0.

Definition timer_heap_cancel_if_active (call : Z -> world -> outcome world) (w : world)
    (entry id_val : Z) : outcome (Z * world) :=
  cancel_timer call w entry (Z.lor F_SET_ID F_DONT_ASSERT) id_val.

(** [call c node w] runs the callback [c] of an entry. *)
Definition fire (call : Z -> Z -> world -> outcome world) (w : world) (node : Z) : outcome world :=
  e ← load (mem w) node;
  match cb e with
  | Some c => call c node (mkWorld (ht w) (mem w) (log w ++ [(c, node)]))
  | None => Ok w
  end.

(** The loop of [timer_heap_poll]; [fuel] is what is left of
    [max_entries_per_poll] when the loop starts. *)
Fixpoint poll_loop (fuel : nat) (call : Z -> Z -> world -> outcome world) (now : time_val)
    (count : Z) (w : world) : outcome (Z * world) :=
  due ← (if (0 <? cur_size (ht w))%nat then
           v ← slot_value (mem w) (ht w) 0; Ok (TIME_VAL_LTE v now)
         else Ok false);
  if due && (count <? max_entries_per_poll (ht w)) then
    r ← remove_node w 0;
    let '(node, w) := r in
    w ← fire call w node;
    match fuel with
    | O => NoFuel
    | S fuel => poll_loop fuel call now (count + 1) w
    end
  else Ok (count, w).

Definition never : time_val := mkTime INT32_MAX INT32_MAX.

(** [want] is whether [next_delay] is given; the delay is the second result. *)
Definition timer_heap_poll (fuel : nat) (call : Z -> Z -> world -> outcome world) (now : time_val)
    (want : bool) (w : world) : outcome (Z * option time_val * world) :=
  if (cur_size (ht w) =? 0)%nat && want then Ok (0, Some never, w)
  else
    r ← poll_loop fuel call now 0 w;
    let '(count, w) := r in
    if (0 <? cur_size (ht w))%nat && want then
      v ← slot_value (mem w) (ht w) 0;
      d ← TIME_VAL_SUB v now;
      let d := if (sec d <? 0) || (msec d <? 0) then mkTime 0 0 else d in
      Ok (count, Some d, w)
    else if want then Ok (count, Some never, w)
    else Ok (count, None, w).

Definition timer_heap_count (h : timer_heap) : nat := cur_size h.

Definition timer_heap_earlist_time (w : world) : outcome (Z * time_val) :=
  _ ← c_assert 718 (negb (cur_size (ht w) =? 0)%nat);
  if (cur_size (ht w) =? 0)%nat then Ok (-1, never)
  else v ← slot_value (mem w) (ht w) 0; Ok (0, v).

End TimerHeap.
