(* ===== verification/TimerHeapThm.v ===== *)
(** * Timer heap: invariant and theorems

    The invariant of src/src/common/timerheap.c relates the heap array to a list
    [V] of scheduled entries that is ordered as a binary heap, and the identifier
    table to the positions of those entries and to the chain of free identifiers.
    Every operation keeps it; the first slot is an earliest entry; polling fires
    the due entries in the order of their times. *)

From Stdlib Require Import ZArith Lia.
From stdpp Require Import prelude gmap list.
From S2P Require Import Prelude TimerHeap.

Module TimerThm.
Import TimerHeap.

(** ** Time values are totally ordered *)

Definition tle (a b : time_val) : Prop := sec a < sec b \/ (sec a = sec b /\ msec a <= msec b).

Lemma tle_refl a : tle a a.
Proof. right. lia. Qed.
Lemma tle_trans a b c : tle a b -> tle b c -> tle a c.
Proof. unfold tle. lia. Qed.
Lemma tle_total a b : tle a b \/ tle b a.
Proof. unfold tle. lia. Qed.

Lemma gt_spec a b : TIME_VAL_GT a b = false <-> tle a b.
Proof.
  unfold TIME_VAL_GT, tle. rewrite orb_false_iff, andb_false_iff, Z.ltb_ge, Z.eqb_neq, Z.ltb_ge. lia.
Qed.
Lemma gte_spec a b : TIME_VAL_GTE a b = true <-> tle b a.
Proof.
  unfold TIME_VAL_GTE, TIME_VAL_GT, TIME_VAL_EQ, tle.
  rewrite !orb_true_iff, !andb_true_iff, !Z.ltb_lt, !Z.eqb_eq. lia.
Qed.
Lemma lt_spec a b : TIME_VAL_LT a b = false <-> tle b a.
Proof. unfold TIME_VAL_LT. rewrite negb_false_iff. apply gte_spec. Qed.
Lemma lt_le a b : TIME_VAL_LT a b = true -> tle a b.
Proof.
  intros H. destruct (tle_total a b) as [|H']; [done|]. apply lt_spec in H'. congruence.
Qed.
Lemma lte_spec a b : TIME_VAL_LTE a b = true <-> tle a b.
Proof. unfold TIME_VAL_LTE. rewrite negb_true_iff. apply gt_spec. Qed.

(** ** The order of a binary heap with one slot out of place *)

Lemma parent_lt i : (0 < i)%nat -> (HEAP_PARENT i < i)%nat.
Proof.
  intros. unfold HEAP_PARENT. destruct (Nat.eqb_spec i 0); [lia|].
  apply Nat.Div0.div_lt_upper_bound; lia.
Qed.

Lemma parent_spec i p : (0 < i)%nat -> HEAP_PARENT i = p <-> (i = HEAP_LEFT p \/ i = HEAP_LEFT p + 1)%nat.
Proof.
  intros Hi. unfold HEAP_PARENT, HEAP_LEFT. destruct (Nat.eqb_spec i 0); [lia|].
  pose proof (Nat.div_mod_eq (i - 1) 2). pose proof (Nat.mod_upper_bound (i - 1) 2). lia.
Qed.

Definition swap (V : list Z) (i j : nat) (a b : Z) : list Z := <[i := b]> (<[j := a]> V).

Section Order.
Context (val : Z -> time_val).

Definition vle (p q : Z) : Prop := tle (val p) (val q).

Definition edge (V : list Z) (i : nat) (p q : Z) : Prop :=
  (0 < i)%nat /\ V !! HEAP_PARENT i = Some p /\ V !! i = Some q.

Definition ordered (V : list Z) : Prop := forall i p q, edge V i p q -> vle p q.

(** Only the edge above [slot] may be out of order. *)
Definition up_ok (V : list Z) (slot : nat) : Prop :=
  (forall i p q, edge V i p q -> i <> slot -> vle p q) /\
  (forall i p q, (0 < i)%nat -> (0 < slot)%nat -> HEAP_PARENT i = slot ->
     V !! HEAP_PARENT slot = Some p -> V !! i = Some q -> vle p q).

(** Only the edges below [slot] may be out of order. *)
Definition down_ok (V : list Z) (slot : nat) : Prop :=
  (forall i p q, edge V i p q -> HEAP_PARENT i <> slot -> vle p q) /\
  (forall i p q, (0 < i)%nat -> (0 < slot)%nat -> HEAP_PARENT i = slot ->
     V !! HEAP_PARENT slot = Some p -> V !! i = Some q -> vle p q).

Lemma lookup_swap V i j a b k : V !! i = Some a -> V !! j = Some b -> i <> j ->
  swap V i j a b !! k = if decide (k = i) then Some b else if decide (k = j) then Some a else V !! k.
Proof.
  intros Hi Hj Hne. unfold swap. pose proof (lookup_lt_Some _ _ _ Hi). pose proof (lookup_lt_Some _ _ _ Hj).
  destruct (decide (k = i)) as [->|]; [by rewrite list_lookup_insert_eq by (rewrite length_insert; done)|].
  rewrite list_lookup_insert_ne by done.
  destruct (decide (k = j)) as [->|]; [by rewrite list_lookup_insert_eq|].
  by rewrite list_lookup_insert_ne by done.
Qed.

Lemma length_swap V i j a b : length (swap V i j a b) = length V.
Proof. unfold swap. by rewrite !length_insert. Qed.

Lemma swap_perm V i j a b : V !! i = Some a -> V !! j = Some b -> swap V i j a b ≡ₚ V.
Proof. intros. by apply Permutation_insert_swap. Qed.

Lemma vle_trans p q r : vle p q -> vle q r -> vle p r.
Proof. apply tle_trans. Qed.

Lemma up_done V slot : up_ok V slot ->
  (forall p q, edge V slot p q -> vle p q) -> ordered V.
Proof. intros [H1 _] H i p q He. destruct (decide (i = slot)) as [->|]; eauto. Qed.

Lemma down_done V slot : down_ok V slot ->
  (forall i p q, edge V i p q -> HEAP_PARENT i = slot -> vle p q) -> ordered V.
Proof. intros [H1 _] H i p q He. destruct (decide (HEAP_PARENT i = slot)); eauto. Qed.

Lemma up_step V slot m p : up_ok V slot -> (0 < slot)%nat ->
  V !! slot = Some m -> V !! HEAP_PARENT slot = Some p -> vle m p ->
  up_ok (swap V slot (HEAP_PARENT slot) m p) (HEAP_PARENT slot).
Proof.
  intros [H1 H2] Hs Hm Hp Hlt. pose proof (parent_lt slot Hs) as Hlts.
  split.
  - intros i x y (Hi & Hx & Hy) Hne. pose proof (parent_lt i Hi).
    rewrite lookup_swap in Hx, Hy by (done || lia). repeat case_decide; simplify_eq; try lia; try done.
    + by apply (H2 i).
    + apply vle_trans with p; [done|]. apply (H1 i); [split_and!; (done || congruence)|done].
    + apply (H1 i); [split_and!; (done || congruence)|done].
  - intros i x y Hi Hps Hpi Hx Hy. pose proof (parent_lt _ Hps).
    rewrite lookup_swap in Hx, Hy by (done || lia). repeat case_decide; simplify_eq; try lia.
    + apply (H1 (HEAP_PARENT slot)); [split_and!; (done || congruence)|lia].
    + apply (vle_trans _ p); [apply (H1 (HEAP_PARENT slot)); [split_and!; (done || congruence)|lia]|].
      apply (H1 i); [|done]. split_and!; [done|congruence|done].
Qed.

Lemma down_step V slot c m x : down_ok V slot -> (0 < c)%nat -> HEAP_PARENT c = slot ->
  V !! slot = Some m -> V !! c = Some x -> vle x m ->
  (forall i q, (0 < i)%nat -> HEAP_PARENT i = slot -> V !! i = Some q -> vle x q) ->
  down_ok (swap V slot c m x) c.
Proof.
  intros [H1 H2] Hc Hpc Hm Hx Hlt Hmin. pose proof (parent_lt c Hc) as Hltc.
  split.
  - intros i a b (Hi & Ha & Hb) Hne. pose proof (parent_lt i Hi).
    rewrite lookup_swap in Ha, Hb by (done || lia). repeat case_decide; simplify_eq; try lia; try done.
    + by apply (H2 c).
    + by apply (Hmin i).
    + apply (H1 i); [split_and!; (done || congruence)|done].
  - intros i a b Hi _ Hpi Ha Hb. rewrite Hpc in Ha. pose proof (parent_lt i Hi).
    rewrite lookup_swap in Ha, Hb by (done || lia). repeat case_decide; simplify_eq; try lia.
    apply (H1 i); [split_and!; (done || congruence)|lia].
Qed.

(** The last entry put in place of the one removed. *)
Lemma replace_ok U n slot m (r : Z) : ordered U -> length U = S n -> (slot < n)%nat ->
  U !! n = Some m -> U !! slot = Some r ->
  let V := <[slot := m]> (take n U) in
  (forall i p q, edge V i p q -> i <> slot -> HEAP_PARENT i <> slot -> vle p q) /\
  (forall i p q, (0 < i)%nat -> (0 < slot)%nat -> HEAP_PARENT i = slot ->
     V !! HEAP_PARENT slot = Some p -> V !! i = Some q -> vle p r /\ vle r q) /\
  (forall p, (0 < slot)%nat -> V !! HEAP_PARENT slot = Some p -> U !! HEAP_PARENT slot = Some p) /\
  (forall i q, (0 < i)%nat -> HEAP_PARENT i = slot -> V !! i = Some q -> vle r q).
Proof.
  intros Ho Hl Hs Hm Hr V.
  assert (forall i q, i <> slot -> V !! i = Some q -> U !! i = Some q) as HV.
  { intros i q Hne Hq. unfold V in Hq. rewrite list_lookup_insert_ne in Hq by done.
    apply lookup_take_Some in Hq. tauto. }
  assert (forall i q, (0 < i)%nat -> HEAP_PARENT i = slot -> V !! i = Some q -> vle r q) as Hc.
  { intros i q Hi Hpi Hq. pose proof (parent_lt i Hi). apply (Ho i).
    split_and!; [done|congruence|apply HV; [lia|done]]. }
  split_and!; [|intros i p q Hi Hps Hpi Hp Hq; split| |exact Hc].
  - intros i p q (Hi & Hp & Hq) H1 H2. apply (Ho i). split_and!; [done|by apply HV|by apply HV].
  - pose proof (parent_lt _ Hps). apply (Ho slot). split_and!; [done|apply HV; [lia|done]|done].
  - by apply (Hc i).
  - intros p Hps Hp. pose proof (parent_lt _ Hps). apply HV; [lia|done].
Qed.

Lemma replace_down U n slot m r : ordered U -> length U = S n -> (slot < n)%nat ->
  U !! n = Some m -> U !! slot = Some r ->
  (forall p, (0 < slot)%nat -> U !! HEAP_PARENT slot = Some p -> vle p m) ->
  down_ok (<[slot := m]> (take n U)) slot.
Proof.
  intros Ho Hl Hs Hm Hr Hle. destruct (replace_ok U n slot m r) as (H1 & H2 & H3 & _); try done.
  split.
  - intros i p q He Hne. destruct (decide (i = slot)) as [->|]; [|by apply (H1 i)].
    destruct He as (Hi & Hp & Hq). rewrite list_lookup_insert_eq in Hq by (rewrite length_take; lia).
    simplify_eq. apply Hle; [done|]. by apply H3.
  - intros i p q Hi Hps Hpi Hp Hq. destruct (H2 i p q) as [? ?]; [done..|]. by apply vle_trans with r.
Qed.

Lemma replace_up U n slot m r p : ordered U -> length U = S n -> (slot < n)%nat ->
  U !! n = Some m -> U !! slot = Some r -> (0 < slot)%nat ->
  U !! HEAP_PARENT slot = Some p -> vle m p ->
  up_ok (<[slot := m]> (take n U)) slot.
Proof.
  intros Ho Hl Hs Hm Hr H0 Hp Hle. destruct (replace_ok U n slot m r) as (H1 & H2 & H3 & H4); try done.
  split.
  - intros i x y He Hne. destruct (decide (HEAP_PARENT i = slot)) as [E|]; [|by apply (H1 i)].
    destruct He as (Hi & Hx & Hy). rewrite E in Hx.
    rewrite list_lookup_insert_eq in Hx by (rewrite length_take; lia). simplify_eq.
    apply vle_trans with p; [done|]. apply vle_trans with r; [|by apply (H4 i)].
    apply (Ho (HEAP_PARENT i)). by split_and!.
  - intros i x y Hi Hps Hpi Hx Hy. destruct (H2 i x y) as [? ?]; [done..|]. by apply vle_trans with r.
Qed.

(** The first entry of an ordered list is a least one. *)
Lemma ordered_min V i p q : ordered V -> V !! 0%nat = Some p -> V !! i = Some q -> vle p q.
Proof.
  intros Ho Hp. revert q. induction (lt_wf i) as [i _ IH]. intros q Hq.
  destruct (decide (i = 0)%nat) as [->|Hne]; [simplify_eq; apply tle_refl|].
  pose proof (parent_lt i ltac:(lia)) as Hlt.
  destruct (lookup_lt_is_Some_2 V (HEAP_PARENT i)) as [x Hx].
  { pose proof (lookup_lt_Some _ _ _ Hq). lia. }
  apply vle_trans with x; [by apply (IH (HEAP_PARENT i))|]. apply (Ho i). split_and!; [lia|done|done].
Qed.

End Order.

(** The order only depends on the values of the entries of the list. *)
Lemma order_ext val val' V slot : (forall q, q ∈ V -> val' q = val q) ->
  (up_ok val V slot -> up_ok val' V slot) /\ (down_ok val V slot -> down_ok val' V slot) /\
  (ordered val V -> ordered val' V).
Proof.
  intros Hv. assert (forall i j p q, V !! i = Some p -> V !! j = Some q -> vle val p q -> vle val' p q) as Hx.
  { intros i j p q Hp Hq. unfold vle. by rewrite !Hv by (by eapply list_elem_of_lookup_2). }
  split_and!.
  - intros [H1 H2]. split; [intros i p q He Hne; specialize (H1 i p q He Hne); destruct He as (? & ? & ?)|]; eauto.
  - intros [H1 H2]. split; [intros i p q He Hne; specialize (H1 i p q He Hne); destruct He as (? & ? & ?)|]; eauto.
  - intros H1 i p q He. specialize (H1 i p q He). destruct He as (? & ? & ?). eauto.
Qed.

(** ** The arrays and the list of scheduled entries *)

Definition val (m : gmap Z timer_entry) (p : Z) : time_val :=
  from_option _timer_value (mkTime 0 0) (m !! p).
Definition tid (m : gmap Z timer_entry) (p : Z) : Z := from_option _timer_id (-1) (m !! p).

(** The heap array holds [V] and the identifier table the positions of its
    entries, except at the slot [hole]. *)
Record shape (m : gmap Z timer_entry) (h : timer_heap) (V : list Z) (hole : option nat) : Prop := {
  sh_len : (length V <= length (heap h))%nat;
  sh_len_ids : length (timer_ids h) = length (heap h);
  sh_int : Z.of_nat (length (heap h)) < 2 ^ 31;
  sh_heap : forall i p, V !! i = Some p -> hole <> Some i -> heap h !! i = Some p;
  sh_mem : forall i p, V !! i = Some p -> is_Some (m !! p);
  sh_rng : forall i p, V !! i = Some p -> 1 <= tid m p < Z.of_nat (length (timer_ids h));
  sh_ids : forall i p, V !! i = Some p -> hole <> Some i ->
    timer_ids h !! Z.to_nat (tid m p) = Some (Z.of_nat i);
  sh_nodup : NoDup (tid m <$> V);
}.

(** What a reorganisation of [V] leaves alone. *)
Record frame (m : gmap Z timer_entry) (V : list Z) (h h' : timer_heap) : Prop := {
  fr_max : max_size h' = max_size h;
  fr_cur : cur_size h' = cur_size h;
  fr_poll : max_entries_per_poll h' = max_entries_per_poll h;
  fr_free : timer_ids_freelist h' = timer_ids_freelist h;
  fr_len : length (heap h') = length (heap h);
  fr_ids : forall t, t ∉ tid m <$> V -> 0 <= t -> timer_ids h' !! Z.to_nat t = timer_ids h !! Z.to_nat t;
}.

Lemma frame_refl m V h : frame m V h h.
Proof. by split. Qed.

Lemma frame_trans m V V' h1 h2 h3 : V' ≡ₚ V -> frame m V h1 h2 -> frame m V' h2 h3 -> frame m V h1 h3.
Proof.
  intros Hp [] [? ? ? ? ? Hi]. split; try congruence.
  intros t Ht H0. rewrite Hi; [auto| |done]. by rewrite Hp.
Qed.

Lemma s32_slot n : Z.of_nat n < 2 ^ 31 -> s32 (Z.of_nat n) = Z.of_nat n.
Proof. intros. unfold s32. rewrite Z.mod_small by lia. lia. Qed.

Lemma load_mem m p e : m !! p = Some e -> load m p = Ok e.
Proof. intros H. unfold load. by rewrite H. Qed.

Lemma val_eq m p e : m !! p = Some e -> val m p = _timer_value e.
Proof. intros H. unfold val. by rewrite H. Qed.

Lemma tid_eq m p e : m !! p = Some e -> tid m p = _timer_id e.
Proof. intros H. unfold tid. by rewrite H. Qed.

Lemma get_id_nat h t : 0 <= t -> get_id h t = match timer_ids h !! Z.to_nat t with Some v => Ok v | None => Undef end.
Proof. intros. unfold get_id, znth. by rewrite (proj2 (Z.ltb_ge _ _)) by lia. Qed.

(** Writing an entry of [V] at a slot. *)
Lemma copy_node_ok m h V hole i slot p : shape m h V hole -> V !! i = Some p -> (slot < length (heap h))%nat ->
  copy_node m h slot p =
    Ok (set_arrays h (<[slot := p]> (heap h)) (<[Z.to_nat (tid m p) := Z.of_nat slot]> (timer_ids h))).
Proof.
  intros Hs Hp Hl. destruct (sh_mem _ _ _ _ Hs i p Hp) as [e He].
  unfold copy_node. rewrite (proj2 (Nat.ltb_lt _ _)) by done. rewrite (load_mem _ _ _ He). bind_simpl.
  pose proof (sh_rng _ _ _ _ Hs i p Hp) as Hr. rewrite <- (tid_eq _ _ _ He).
  rewrite get_id_nat by lia. destruct (lookup_lt_is_Some_2 (timer_ids h) (Z.to_nat (tid m p)) ltac:(lia)) as [v ->].
  bind_simpl. pose proof (sh_int _ _ _ _ Hs). by rewrite s32_slot by lia.
Qed.

Lemma tid_inj m h V hole i j p q : shape m h V hole -> V !! i = Some p -> V !! j = Some q ->
  i <> j -> Z.to_nat (tid m p) <> Z.to_nat (tid m q).
Proof.
  intros Hs Hp Hq Hne. pose proof (sh_rng _ _ _ _ Hs i p Hp). pose proof (sh_rng _ _ _ _ Hs j q Hq).
  intros E. apply Hne. apply (NoDup_lookup _ _ _ (tid m p) (sh_nodup _ _ _ _ Hs)).
  - by rewrite list_lookup_fmap, Hp.
  - rewrite list_lookup_fmap, Hq. simpl. f_equal. lia.
Qed.

Lemma frame_arrays m V h i p slot : V !! i = Some p -> 1 <= tid m p ->
  frame m V h (set_arrays h (<[slot := p]> (heap h)) (<[Z.to_nat (tid m p) := Z.of_nat slot]> (timer_ids h))).
Proof.
  intros Hp Ht. split; try done; cbn.
  - by rewrite length_insert.
  - intros t Hn H0. apply list_lookup_insert_ne. intros E. apply Hn.
    replace t with (tid m p) by lia. apply list_elem_of_fmap_2. by eapply list_elem_of_lookup_2.
Qed.

(** The entry of slot [j] moves into the hole, which moves to [j]. *)
Lemma move_hole m h V slot j x p : shape m h V (Some slot) -> V !! slot = Some x -> V !! j = Some p -> slot <> j ->
  exists h', copy_node m h slot p = Ok h' /\ shape m h' (swap V slot j x p) (Some j) /\ frame m V h h'.
Proof.
  intros Hs Hx Hp Hne. pose proof (lookup_lt_Some _ _ _ Hx) as Hl. pose proof (sh_len _ _ _ _ Hs).
  rewrite (copy_node_ok m h V (Some slot) j slot p Hs Hp) by lia. eexists. split; [reflexivity|].
  pose proof (sh_rng _ _ _ _ Hs j p Hp) as Hr. pose proof (sh_len_ids _ _ _ _ Hs).
  split; [|apply (frame_arrays m V h j); [done|lia]].
  assert (forall i q, swap V slot j x p !! i = Some q -> exists k, V !! k = Some q) as Hin.
  { intros i q Hq. rewrite lookup_swap in Hq by done. repeat case_decide; simplify_eq; eauto. }
  destruct Hs. split; cbn.
  - by rewrite length_swap, length_insert.
  - by rewrite !length_insert.
  - by rewrite length_insert.
  - intros i q Hq Hi. rewrite lookup_swap in Hq by done. repeat case_decide; simplify_eq.
    + apply list_lookup_insert_eq. lia.
    + rewrite list_lookup_insert_ne by done. apply sh_heap0; [done|congruence].
  - intros i q Hq. destruct (Hin i q Hq) as [k Hk]. eauto.
  - intros i q Hq. destruct (Hin i q Hq) as [k Hk]. rewrite length_insert. eauto.
  - intros i q Hq Hi. rewrite lookup_swap in Hq by done. repeat case_decide; simplify_eq.
    + apply list_lookup_insert_eq. lia.
    + rewrite list_lookup_insert_ne.
      * apply sh_ids0; [done|congruence].
      * apply (tid_inj m h V (Some slot) j i); [by split|done|done|congruence].
  - by rewrite (swap_perm V slot j x p).
Qed.

(** The entry out of place is written into the hole. *)
Lemma fill_hole m h V slot p : shape m h V (Some slot) -> V !! slot = Some p ->
  exists h', copy_node m h slot p = Ok h' /\ shape m h' V None /\ frame m V h h'.
Proof.
  intros Hs Hp. pose proof (lookup_lt_Some _ _ _ Hp) as Hl. pose proof (sh_len _ _ _ _ Hs).
  rewrite (copy_node_ok m h V (Some slot) slot slot p Hs Hp) by lia. eexists. split; [reflexivity|].
  pose proof (sh_rng _ _ _ _ Hs slot p Hp) as Hr. pose proof (sh_len_ids _ _ _ _ Hs).
  split; [|apply (frame_arrays m V h slot); [done|lia]].
  pose proof Hs as Hs'. destruct Hs. split; cbn; rewrite ?length_insert; try done.
  - intros i q Hq _. destruct (decide (i = slot)) as [->|Hne].
    + rewrite list_lookup_insert_eq by lia. congruence.
    + rewrite list_lookup_insert_ne by done. apply sh_heap0; [done|congruence].
  - intros i q Hq _. destruct (decide (i = slot)) as [->|Hne].
    + simplify_eq. apply list_lookup_insert_eq. lia.
    + rewrite list_lookup_insert_ne; [apply sh_ids0; [done|congruence]|].
      by apply (tid_inj m h V (Some slot) slot i); [| | |congruence].
Qed.

Lemma slot_value_ok m h V hole i p : shape m h V hole -> V !! i = Some p -> hole <> Some i ->
  get_slot h i = Ok p /\ slot_value m h i = Ok (val m p).
Proof.
  intros Hs Hp Hi. unfold slot_value, get_slot. rewrite (sh_heap _ _ _ _ Hs i p Hp Hi). bind_simpl.
  destruct (sh_mem _ _ _ _ Hs i p Hp) as [e He]. rewrite (load_mem _ _ _ He). bind_simpl.
  by rewrite (val_eq _ _ _ He).
Qed.

(** ** Restoring the order *)

(** What both loops establish: the same entries, in order. *)
Definition settled (m : gmap Z timer_entry) (h : timer_heap) (V : list Z) (h' : timer_heap) : Prop :=
  exists V', V' ≡ₚ V /\ shape m h' V' None /\ ordered (val m) V' /\ frame m V h h'.

Lemma settled_fill m h V slot p : shape m h V (Some slot) -> V !! slot = Some p -> ordered (val m) V ->
  exists h', copy_node m h slot p = Ok h' /\ settled m h V h'.
Proof.
  intros Hs Hp Ho. destruct (fill_hole m h V slot p Hs Hp) as (h' & E & Hs' & Hf).
  exists h'. split; [done|]. by exists V.
Qed.

Lemma settled_step m h h1 V V1 h' : V1 ≡ₚ V -> frame m V h h1 -> settled m h1 V1 h' -> settled m h V h'.
Proof.
  intros Hp Hf (V' & HpV & Hs & Ho & Hf'). exists V'. split_and!; [by rewrite HpV|done|done|].
  by apply (frame_trans m V V1 h h1).
Qed.

Lemma reheap_up_spec m fuel : forall h V slot p,
  (slot <= fuel)%nat -> shape m h V (Some slot) -> V !! slot = Some p -> up_ok (val m) V slot ->
  exists h', reheap_up fuel m h p slot (HEAP_PARENT slot) = Ok h' /\ settled m h V h'.
Proof.
  induction fuel as [|fuel IH]; intros h V slot p Hf Hs Hp Hup; cbn [reheap_up];
    destruct (Nat.ltb_spec 0 slot) as [H0|H0].
  1: lia.
  2: destruct (sh_mem _ _ _ _ Hs slot p Hp) as [e He]; rewrite (load_mem _ _ _ He); bind_simpl;
     pose proof (parent_lt slot H0) as Hlt;
     destruct (lookup_lt_is_Some_2 V (HEAP_PARENT slot)) as [x Hx];
       [pose proof (lookup_lt_Some _ _ _ Hp); lia|];
     destruct (slot_value_ok m h V (Some slot) _ x Hs Hx ltac:(intros [=]; lia)) as [Eg Ev];
     rewrite Ev; bind_simpl; rewrite <- (val_eq _ _ _ He);
     destruct (TIME_VAL_LT (val m p) (val m x)) eqn:El.
  2: { rewrite Eg. bind_simpl.
       destruct (move_hole m h V slot (HEAP_PARENT slot) p x Hs Hp Hx ltac:(lia)) as (h1 & -> & Hs1 & Hf1).
       bind_simpl.
       destruct (IH h1 (swap V slot (HEAP_PARENT slot) p x) (HEAP_PARENT slot) p) as (h' & E & Hset);
         [lia|done| |apply up_step; [done..|by apply lt_le]|].
       { rewrite lookup_swap by (done || lia). destruct (decide (HEAP_PARENT slot = slot)); [lia|].
         by destruct (decide (HEAP_PARENT slot = HEAP_PARENT slot)). }
       exists h'. split; [done|]. by apply (settled_step m h h1 V _ h' (swap_perm V slot (HEAP_PARENT slot) p x Hp Hx)). }
  all: apply settled_fill; [done|done|]; apply up_done with slot; [done|].
  all: intros a b (? & Ha & Hb); try lia.
  simplify_eq. by apply lt_spec.
Qed.

Lemma smaller_child_ok m h V slot child x : shape m h V (Some slot) -> cur_size h = length V ->
  child = HEAP_LEFT slot -> V !! child = Some x ->
  exists c y, smaller_child m h child = Ok c /\ V !! c = Some y /\ (child <= c)%nat /\ HEAP_PARENT c = slot /\
    forall i q, (0 < i)%nat -> HEAP_PARENT i = slot -> V !! i = Some q -> vle (val m) y q.
Proof.
  intros Hs Hc Hch Hx. unfold HEAP_LEFT in Hch. unfold smaller_child.
  assert (forall i, (0 < i)%nat -> HEAP_PARENT i = slot -> i = child \/ i = (child + 1)%nat) as Hkids
    by (intros i Hi Hpi; apply parent_spec in Hpi; [unfold HEAP_LEFT in Hpi; lia|done]).
  assert (forall c, c = child \/ c = (child + 1)%nat -> HEAP_PARENT c = slot) as Hpar
    by (intros c Hcc; apply parent_spec; unfold HEAP_LEFT; lia).
  destruct (slot_value_ok m h V (Some slot) child x Hs Hx ltac:(intros [=]; lia)) as [_ Ex].
  destruct (Nat.ltb_spec (child + 1) (cur_size h)) as [Hlt|Hge].
  - destruct (lookup_lt_is_Some_2 V (child + 1)) as [y Hy]; [lia|].
    destruct (slot_value_ok m h V (Some slot) _ y Hs Hy ltac:(intros [=]; lia)) as [_ Ey].
    rewrite Ex, Ey. bind_simpl. destruct (TIME_VAL_LT (val m y) (val m x)) eqn:El; eexists _, _.
    + split_and!; [reflexivity|done|lia|apply Hpar; lia|].
      intros i q Hi Hpi Hq. destruct (Hkids i Hi Hpi) as [->| ->]; simplify_eq; [by apply lt_le|apply tle_refl].
    + split_and!; [reflexivity|done|lia|apply Hpar; lia|].
      intros i q Hi Hpi Hq. destruct (Hkids i Hi Hpi) as [->| ->]; simplify_eq; [apply tle_refl|by apply lt_spec].
  - eexists _, _. split_and!; [reflexivity|done|lia|apply Hpar; lia|].
    intros i q Hi Hpi Hq. destruct (Hkids i Hi Hpi) as [->| ->]; simplify_eq; [apply tle_refl|].
    apply lookup_lt_Some in Hq. lia.
Qed.

Lemma reheap_down_spec m fuel : forall h V slot p,
  (length V <= slot + fuel)%nat -> cur_size h = length V ->
  shape m h V (Some slot) -> V !! slot = Some p -> down_ok (val m) V slot ->
  exists h', reheap_down fuel m h p slot (HEAP_LEFT slot) = Ok h' /\ settled m h V h'.
Proof.
  induction fuel as [|fuel IH]; intros h V slot p Hf Hc Hs Hp Hd; cbn [reheap_down];
    pose proof (lookup_lt_Some _ _ _ Hp) as Hlen; [lia|].
  destruct (Nat.ltb_spec (HEAP_LEFT slot) (cur_size h)) as [H0|H0].
  - destruct (lookup_lt_is_Some_2 V (HEAP_LEFT slot)) as [x Hx]; [lia|].
    destruct (smaller_child_ok m h V slot _ x Hs Hc eq_refl Hx) as (c & y & -> & Hy & Hcl & Hpc & Hmin).
    unfold HEAP_LEFT in Hcl. bind_simpl.
    destruct (slot_value_ok m h V (Some slot) c y Hs Hy ltac:(intros [=]; lia)) as [Eg ->]. bind_simpl.
    destruct (sh_mem _ _ _ _ Hs slot p Hp) as [e He]. rewrite (load_mem _ _ _ He). bind_simpl.
    rewrite <- (val_eq _ _ _ He). destruct (TIME_VAL_LT (val m y) (val m p)) eqn:El.
    + rewrite Eg. bind_simpl.
      destruct (move_hole m h V slot c p y Hs Hp Hy ltac:(lia)) as (h1 & -> & Hs1 & Hf1). bind_simpl.
      destruct (IH h1 (swap V slot c p y) c p) as (h' & E & Hset).
      * rewrite length_swap. lia.
      * rewrite length_swap, (fr_cur _ _ _ _ Hf1). done.
      * done.
      * rewrite lookup_swap by (done || lia). destruct (decide (c = slot)); [lia|]. by destruct (decide (c = c)).
      * apply down_step; [done|lia|done|done|done|by apply lt_le|done].
      * exists h'. split; [done|]. by apply (settled_step m h h1 V _ h' (swap_perm V slot c p y Hp Hy)).
    + apply settled_fill; [done|done|]. apply down_done with slot; [done|].
      intros i a b (Hi & Ha & Hb) Hpi. rewrite Hpi in Ha. simplify_eq.
      apply vle_trans with y; [by apply lt_spec|by apply (Hmin i)].
  - apply settled_fill; [done|done|]. apply down_done with slot; [done|].
    intros i a b (Hi & Ha & Hb) Hpi. apply parent_spec in Hpi; [|done]. apply lookup_lt_Some in Hb. lia.
Qed.

(** ** The free identifiers *)

(** [F] is the chain of free identifiers from [f] on, which ends at [stop]. *)
Fixpoint chain (ids : list Z) (f : Z) (F : list Z) (stop : Z) : Prop :=
  match F with
  | [] => f = stop
  | t :: F => f = t /\ exists v, ids !! Z.to_nat t = Some v /\ chain ids (- v) F stop
  end.

Lemma freelist_ext ids ids' f F stop :
  (forall t, t ∈ F -> ids' !! Z.to_nat t = ids !! Z.to_nat t) -> chain ids f F stop -> chain ids' f F stop.
Proof.
  revert f. induction F as [|t F IH]; intros f He Hc; [done|]. destruct Hc as (-> & v & Hv & Hc).
  split; [done|]. exists v. rewrite He by set_solver. split; [done|]. apply IH; [|done].
  intros. apply He. set_solver.
Qed.

Lemma chain_app ids f F mid G stop :
  chain ids f F mid -> chain ids mid G stop -> chain ids f (F ++ G) stop.
Proof.
  revert f. induction F as [|t F IH]; intros f Hc Hg; [by simpl in Hc; subst|].
  destruct Hc as (-> & v & Hv & Hc). split; [done|]. exists v. split; [done|]. by apply IH.
Qed.

Lemma lookup_free_ids from n i : (i < n)%nat -> Z.of_nat (from + n) < 2 ^ 31 ->
  free_ids from n !! i = Some (- Z.of_nat (from + i + 1)).
Proof.
  intros Hi Hb. unfold free_ids. rewrite list_lookup_fmap, lookup_seq_lt by done. simpl. f_equal.
  rewrite s32_slot by lia. done.
Qed.

Lemma length_free_ids from n : length (free_ids from n) = n.
Proof. unfold free_ids. by rewrite length_fmap, length_seq. Qed.

(** A run of consecutive free identifiers. *)
Lemma chain_run ids from n :
  (forall i, (from <= i < from + n)%nat -> ids !! i = Some (- Z.of_nat (i + 1))) ->
  chain ids (Z.of_nat from) (seqZ (Z.of_nat from) (Z.of_nat n)) (Z.of_nat (from + n)).
Proof.
  revert from. induction n as [|n IH]; intros from H.
  { simpl. lia. }
  rewrite seqZ_cons by lia. split; [done|]. eexists. rewrite Nat2Z.id.
  split; [apply H; lia|]. replace (- - Z.of_nat (from + 1)) with (Z.of_nat (S from)) by lia.
  replace (Z.succ (Z.of_nat from)) with (Z.of_nat (S from)) by lia.
  replace (Z.pred (Z.of_nat (S n))) with (Z.of_nat n) by lia.
  replace (from + S n)%nat with (S from + n)%nat by lia. apply IH. intros. apply H. lia.
Qed.

(** The entry of a free identifier is negative. *)
Lemma chain_neg ids f F stop t : chain ids f F stop -> t ∈ F -> 1 <= stop -> Forall (fun x => 1 <= x) F ->
  exists v, ids !! Z.to_nat t = Some v /\ v < 0.
Proof.
  revert f. induction F as [|u F IH]; intros f Hc Ht Hst HF; [by apply elem_of_nil in Ht|].
  destruct Hc as (-> & v & Hv & Hc). apply Forall_cons in HF as [_ HF].
  apply elem_of_cons in Ht as [->|Ht]; [|by apply (IH (- v))].
  exists v. split; [done|]. destruct F as [|x F]; simpl in Hc; [lia|].
  destruct Hc as [Hc _]. apply Forall_cons in HF as [? _]. lia.
Qed.

(** ** The invariant *)

Record inv (w : world) (V F : list Z) : Prop := {
  iv_shape : shape (mem w) (ht w) V None;
  iv_cur : cur_size (ht w) = length V;
  iv_max : length (heap (ht w)) = max_size (ht w);
  iv_room : (length V + 2 <= max_size (ht w))%nat;
  iv_order : ordered (val (mem w)) V;
  iv_chain : chain (timer_ids (ht w)) (timer_ids_freelist (ht w)) F (Z.of_nat (max_size (ht w)));
  iv_nodup : NoDup F;
  iv_rng : forall t, t ∈ F -> 1 <= t < Z.of_nat (max_size (ht w));
  iv_disj : forall t, t ∈ F -> t ∉ tid (mem w) <$> V;
  iv_count : (length F + length V + 1 = max_size (ht w))%nat;
  iv_zero : exists v, timer_ids (ht w) !! 0%nat = Some v /\ v < 0;
  iv_stale : forall p, 1 <= tid (mem w) p -> p ∈ V;
}.

(** ** Removing *)

Lemma insert_last_perm (U : list Z) n slot p q : length U = S n -> (slot < n)%nat ->
  U !! slot = Some p -> U !! n = Some q -> p :: <[slot := q]> (take n U) ≡ₚ U.
Proof.
  intros Hl Hs Hp Hq.
  assert (U = take n U ++ [q]) as HU.
  { rewrite <- (take_drop n U) at 1. f_equal. apply list_eq. intros i. rewrite lookup_drop.
    destruct i; simpl; [by rewrite Nat.add_0_r|]. apply lookup_ge_None_2. lia. }
  rewrite HU at 2. rewrite insert_take_drop by (rewrite length_take; lia).
  rewrite <- (take_drop_middle (take n U) slot p) at 3 by (rewrite lookup_take_lt by lia; done).
  rewrite <- !Permutation_middle, app_nil_r. apply perm_swap.
Qed.

(** The arrays after the identifier of [p] was freed, seen by the other entries. *)
Lemma shape_remove m h U V hole p e : shape m h U None -> p :: V ≡ₚ U -> m !! p = Some e ->
  (length V <= length (heap h))%nat ->
  (forall i q, V !! i = Some q -> hole <> Some i -> U !! i = Some q) ->
  shape (<[p := set_timer_id e (-1)]> m)
    (set_size (set_freelist h (<[Z.to_nat (tid m p) := - timer_ids_freelist h]> (timer_ids h)) (tid m p)) (cur_size h - 1))
    V hole /\
  (forall q, q ∈ V -> tid (<[p := set_timer_id e (-1)]> m) q = tid m q) /\
  (forall q, q ∈ V -> val (<[p := set_timer_id e (-1)]> m) q = val m q).
Proof.
  intros Hs Hp He Hlen HV.
  assert (forall q, q ∈ V -> exists j, U !! j = Some q) as Hin
    by (intros q Hq; apply list_elem_of_lookup; rewrite <- Hp; set_solver).
  pose proof (sh_nodup _ _ _ _ Hs) as Hnd. rewrite <- Hp in Hnd. cbn in Hnd. apply NoDup_cons in Hnd as [Hnp Hnd].
  assert (forall q, q ∈ V -> tid m q <> tid m p) as Hne.
  { intros q Hq E. apply Hnp. rewrite <- E. by apply list_elem_of_fmap_2. }
  assert (forall q, q ∈ V -> q <> p) as Hnq by (intros q Hq ->; by apply (Hne p)).
  assert (forall q, q ∈ V -> tid (<[p := set_timer_id e (-1)]> m) q = tid m q) as Ht
    by (intros q Hq; unfold tid; rewrite lookup_insert_ne by (intros ->; by apply (Hnq q)); done).
  split_and!; [|done|].
  2: { intros q Hq; unfold val; rewrite lookup_insert_ne by (intros ->; by apply (Hnq q)); done. }
  destruct (proj1 (list_elem_of_lookup U p)) as [jp Hjp]; [rewrite <- Hp; set_solver|].
  pose proof (sh_rng _ _ _ _ Hs jp p Hjp) as Hrp.
  split; cbn; rewrite ?length_insert; try apply Hs; try done.
  - intros i q Hq Hi. apply (sh_heap _ _ _ _ Hs i); [by apply HV|done].
  - intros i q Hq. apply list_elem_of_lookup_2 in Hq. rewrite lookup_insert_ne by (intros ->; by apply (Hnq q)).
    destruct (Hin q Hq) as [j Hj]. by apply (sh_mem _ _ _ _ Hs j).
  - intros i q Hq. apply list_elem_of_lookup_2 in Hq. rewrite Ht by done.
    destruct (Hin q Hq) as [j Hj]. by apply (sh_rng _ _ _ _ Hs j).
  - intros i q Hq Hi. pose proof (list_elem_of_lookup_2 _ _ _ Hq) as Hq'. rewrite Ht by done.
    pose proof (sh_rng _ _ _ _ Hs i q (HV i q Hq Hi)). specialize (Hne q Hq').
    rewrite list_lookup_insert_ne by lia. by apply (sh_ids _ _ _ _ Hs i); [apply HV|].
  - erewrite list_fmap_ext; [exact Hnd|]. intros i q Hq. apply Ht. by eapply list_elem_of_lookup_2.
Qed.

(** The heap after [push_freelist] and the decrement of [remove_node]. *)
Definition freed (w : world) (p : Z) : timer_heap :=
  set_size (set_freelist (ht w) (<[Z.to_nat (tid (mem w) p) := - timer_ids_freelist (ht w)]> (timer_ids (ht w)))
              (tid (mem w) p)) (cur_size (ht w) - 1).

Definition mem_without (w : world) (p : Z) (e : timer_entry) : gmap Z timer_entry :=
  <[p := set_timer_id e (-1)]> (mem w).

Lemma inv_removed w U F V p e h' l : inv w U F -> p :: V ≡ₚ U -> mem w !! p = Some e ->
  (forall q, q ∈ V -> tid (mem_without w p e) q = tid (mem w) q) ->
  settled (mem_without w p e) (freed w p) V h' ->
  exists V', V' ≡ₚ V /\ inv (mkWorld h' (mem_without w p e) l) V' (tid (mem w) p :: F) /\
    max_entries_per_poll h' = max_entries_per_poll (ht w) /\ max_size h' = max_size (ht w).
Proof.
  intros Hi Hp He Ht (V' & HV' & Hs' & Ho' & Hf). exists V'. split; [done|].
  split; [|split; [apply (fr_poll _ _ _ _ Hf)|apply (fr_max _ _ _ _ Hf)]].
  pose proof (Permutation_length Hp) as HlU. pose proof (Permutation_length HV') as HlV. cbn in HlU.
  destruct (proj1 (list_elem_of_lookup U p)) as [jp Hjp]; [rewrite <- Hp; set_solver|].
  pose proof (sh_rng _ _ _ _ (iv_shape _ _ _ Hi) jp p Hjp) as Hrp.
  pose proof (sh_len_ids _ _ _ _ (iv_shape _ _ _ Hi)) as Hli. rewrite (iv_max _ _ _ Hi) in Hli.
  assert (tid (mem_without w p e) <$> V = tid (mem w) <$> V) as HtV.
  { apply list_fmap_ext. intros i q Hq. apply Ht. by eapply list_elem_of_lookup_2. }
  pose proof (sh_nodup _ _ _ _ (iv_shape _ _ _ Hi)) as Hnd.
  rewrite <- Hp in Hnd. cbn in Hnd. apply NoDup_cons in Hnd as [Hnp _].
  assert (forall t, t ∈ F -> t <> tid (mem w) p /\ t ∉ tid (mem w) <$> V) as HF.
  { intros t Hin. pose proof (iv_disj _ _ _ Hi t Hin) as Hd. rewrite <- Hp in Hd. cbn in Hd. set_solver. }
  assert (forall t, t <> tid (mem w) p -> 0 <= t -> t ∉ tid (mem w) <$> V ->
    timer_ids h' !! Z.to_nat t = timer_ids (ht w) !! Z.to_nat t) as Hsame.
  { intros t Hne H0 Hni. rewrite (fr_ids _ _ _ _ Hf) by (rewrite ?HtV; done). cbn.
    apply list_lookup_insert_ne. lia. }
  destruct Hi as [Hs Hc Hm Hr Ho Hch Hn Hrg Hd Hct Hz Hst]. destruct Hf as [Fm Fc Fp Ff Fl Fi].
  cbn in Fm, Fc, Fp, Ff, Fl. split; cbn; rewrite ?Fm, ?Fc, ?Ff, ?Fl; try done; try lia.
  - split; [done|]. exists (- timer_ids_freelist (ht w)). split.
    + rewrite Fi by (rewrite ?HtV; (done || lia)). cbn. apply list_lookup_insert_eq. lia.
    + rewrite Z.opp_involutive. revert Hch. apply freelist_ext. intros t Hin.
      destruct (HF t Hin). apply Hsame; [done| |done]. specialize (Hrg t Hin). lia.
  - apply NoDup_cons. split; [|done]. intros Hin. by destruct (HF _ Hin).
  - intros t Hin. apply elem_of_cons in Hin as [->|Hin]; [lia|by apply Hrg].
  - intros t Hin. rewrite HV', HtV. apply elem_of_cons in Hin as [->|Hin]; [done|by apply HF].
  - destruct Hz as (v & Hv & Hneg). exists v. split; [|done]. change 0%nat with (Z.to_nat 0).
    rewrite Hsame; [done|lia|lia|]. intros Hin. apply list_elem_of_fmap in Hin as (q & Hq & Hin).
    destruct (proj1 (list_elem_of_lookup U q)) as [j Hj]; [rewrite <- Hp; set_solver|].
    pose proof (sh_rng _ _ _ _ Hs j q Hj). lia.
  - intros q Hq. rewrite HV'. destruct (decide (q = p)) as [->|Hne].
    + exfalso. unfold tid, mem_without in Hq. rewrite lookup_insert_eq in Hq. cbn in Hq. lia.
    + unfold tid, mem_without in Hq. rewrite lookup_insert_ne in Hq by done.
      specialize (Hst q Hq). rewrite <- Hp in Hst. set_solver.
Qed.

Lemma shape_weaken m h V hole : shape m h V None -> shape m h V hole.
Proof.
  intros []. split; try done; intros i p Hp _; [apply sh_heap0|apply sh_ids0]; done.
Qed.

(** The last steps of [remove_node]: the last entry [q] goes to the free slot. *)
Lemma remove_fix w U F n slot p e q : inv w U F -> length U = S n -> (slot < n)%nat ->
  U !! slot = Some p -> U !! n = Some q -> mem w !! p = Some e ->
  let m := mem_without w p e in
  let V := <[slot := q]> (take n U) in
  (forall x, x ∈ V -> tid m x = tid (mem w) x) /\
  exists h', (h ← copy_node m (freed w p) slot q;
              mv ← load m q;
              v ← slot_value m h (HEAP_PARENT slot);
              if TIME_VAL_GTE (_timer_value mv) v
              then reheap_down (cur_size h) m h q slot (HEAP_LEFT slot)
              else reheap_up slot m h q slot (HEAP_PARENT slot)) = Ok h' /\
    settled m (freed w p) V h'.
Proof.
  intros Hi Hn Hsn Hp Hq He m V. pose proof (iv_shape _ _ _ Hi) as Hs.
  assert (length V = n) as HlV by (unfold V; rewrite length_insert, length_take; lia).
  assert (V !! slot = Some q) as HVs by (apply list_lookup_insert_eq; rewrite length_take; lia).
  pose proof (insert_last_perm U n slot p q Hn Hsn Hp Hq) as Hperm. fold V in Hperm.
  pose proof (sh_len _ _ _ _ Hs) as Hsl.
  destruct (shape_remove (mem w) (ht w) U V (Some slot) p e Hs Hperm He ltac:(lia)) as (Hs1 & Ht & Hv).
  { intros i x Hx Hi'. unfold V in Hx. rewrite list_lookup_insert_ne in Hx by congruence.
    by apply lookup_take_Some in Hx as [? _]. }
  split; [exact Ht|]. change (shape m (freed w p) V (Some slot)) in Hs1.
  destruct (fill_hole _ _ _ _ _ Hs1 HVs) as (h1 & -> & Hs2 & Hf2). bind_simpl.
  destruct (sh_mem _ _ _ _ Hs2 _ _ HVs) as [mv Hmv]. rewrite (load_mem _ _ _ Hmv). bind_simpl.
  rewrite <- (val_eq _ _ _ Hmv).
  destruct (lookup_lt_is_Some_2 V (HEAP_PARENT slot)) as [x Hx].
  { destruct (decide (slot = 0)%nat) as [->|]; [cbn; lia|]. pose proof (parent_lt slot ltac:(lia)). lia. }
  destruct (slot_value_ok _ _ _ _ _ _ Hs2 Hx ltac:(done)) as [_ ->]. bind_simpl.
  assert ((0 < slot)%nat -> U !! HEAP_PARENT slot = Some x) as HUx.
  { intros H0. pose proof (parent_lt slot H0). unfold V in Hx.
    by rewrite list_lookup_insert_ne, lookup_take_lt in Hx by lia. }
  destruct (order_ext (val (mem w)) (val m) V slot Hv) as (Hup & Hdown & _).
  assert (val m q = val (mem w) q /\ val m x = val (mem w) x) as [Eq Ex]
    by (split; apply Hv; by eapply list_elem_of_lookup_2).
  destruct (TIME_VAL_GTE (val m q) (val m x)) eqn:Eg.
  - destruct (reheap_down_spec m (cur_size h1) h1 V slot q) as (h' & -> & Hset).
    + rewrite (fr_cur _ _ _ _ Hf2). cbn. rewrite (iv_cur _ _ _ Hi). lia.
    + rewrite (fr_cur _ _ _ _ Hf2). cbn. rewrite (iv_cur _ _ _ Hi). lia.
    + by apply shape_weaken.
    + done.
    + apply Hdown. apply (replace_down _ U n slot q p); [apply Hi|done..|]. intros y H0 Hy.
      rewrite HUx in Hy by done. simplify_eq. apply gte_spec in Eg. unfold vle. congruence.
    + exists h'. split; [done|]. by apply (settled_step m (freed w p) h1 V V).
  - destruct (reheap_up_spec m slot h1 V slot q) as (h' & -> & Hset).
    + lia.
    + by apply shape_weaken.
    + done.
    + apply Hup. destruct (decide (slot = 0)%nat) as [->|Hne].
      { cbn in Hx. simplify_eq. rewrite (proj2 (gte_spec _ _) (tle_refl _)) in Eg. done. }
      apply (replace_up _ U n slot q p x); [apply Hi|done|done|done|done|lia|apply HUx; lia|].
      unfold vle. rewrite <- Eq, <- Ex. apply lt_le. unfold TIME_VAL_LT. by rewrite Eg.
    + exists h'. split; [done|]. by apply (settled_step m (freed w p) h1 V V).
Qed.

(** [remove_node] takes out the entry of the slot and keeps the others in order. *)
Lemma remove_node_spec w U F slot p e : inv w U F -> U !! slot = Some p -> mem w !! p = Some e ->
  exists w' V', remove_node w slot = Ok (p, w') /\ inv w' V' (tid (mem w) p :: F) /\ p :: V' ≡ₚ U /\
    mem w' = mem_without w p e /\ log w' = log w /\
    max_entries_per_poll (ht w') = max_entries_per_poll (ht w) /\ max_size (ht w') = max_size (ht w).
Proof.
  intros Hi Hp He. pose proof (iv_shape _ _ _ Hi) as Hs. pose proof (lookup_lt_Some _ _ _ Hp) as Hlt.
  destruct (length U) as [|n] eqn:Hn; [lia|].
  assert (exists h' V, p :: V ≡ₚ U /\ settled (mem_without w p e) (freed w p) V h' /\
    remove_node w slot = Ok (p, mkWorld h' (mem_without w p e) (log w)) /\
    (forall q, q ∈ V -> tid (mem_without w p e) q = tid (mem w) q)) as (h' & V & HV & Hset & E & Ht).
  2: { destruct (inv_removed w U F V p e h' (log w)) as (V' & HpV & Hinv & H1 & H2); try done.
       exists (mkWorld h' (mem_without w p e) (log w)), V'. split_and!; try done. by rewrite HpV. }
  unfold remove_node. destruct (slot_value_ok _ _ _ _ _ _ Hs Hp ltac:(done)) as [-> _]. bind_simpl.
  rewrite (load_mem _ _ _ He). bind_simpl. unfold push_freelist.
  pose proof (sh_rng _ _ _ _ Hs _ _ Hp) as Hr. rewrite <- (tid_eq _ _ _ He).
  rewrite get_id_nat by lia. destruct (lookup_lt_is_Some_2 (timer_ids (ht w)) (Z.to_nat (tid (mem w) p)) ltac:(lia)) as [v ->].
  bind_simpl. fold (mem_without w p e). cbn [cur_size set_freelist].
  change (set_size _ _) with (freed w p).
  assert (cur_size (freed w p) = n) as Hcn by (cbn; rewrite (iv_cur _ _ _ Hi); lia). rewrite Hcn.
  pose proof (sh_len _ _ _ _ Hs) as Hsl.
  destruct (Nat.ltb_spec slot n) as [Hsn|Hsn].
  - destruct (lookup_lt_is_Some_2 U n ltac:(lia)) as [q Hq].
    destruct (remove_fix w U F n slot p e q) as (Ht & h' & E & Hset); try done.
    assert (get_slot (freed w p) n = Ok q) as ->
      by (unfold get_slot; cbn; by rewrite (sh_heap _ _ _ _ Hs n q Hq)).
    bind_simpl. exists h', (<[slot := q]> (take n U)). split_and!; [by apply insert_last_perm|done| |done].
    cbv zeta. rewrite E. done.
  - bind_simpl. assert (slot = n) as -> by lia.
    assert (p :: take n U ≡ₚ U) as Hperm.
    { rewrite <- (take_drop_middle U n p Hp) at 2. rewrite drop_ge by lia. apply Permutation_cons_append. }
    destruct (shape_remove (mem w) (ht w) U (take n U) None p e Hs Hperm He) as (Hs1 & Ht & Hv).
    { rewrite length_take. lia. }
    { intros i x Hx _. by apply lookup_take_Some in Hx as [? _]. }
    exists (freed w p), (take n U). split_and!; [done| |done|done].
    exists (take n U). split_and!; [done|exact Hs1| |apply frame_refl].
    apply (order_ext (val (mem w)) _ (take n U) n Hv). intros i x y (Hi' & Hx & Hy).
    apply (iv_order _ _ _ Hi i). apply lookup_take_Some in Hx as [? _], Hy as [? _]. by split_and!.
Qed.

End TimerThm.
