(* ===== verification/TimerHeapApi.v ===== *)
(** * Timer heap: scheduling, cancelling, polling

    The theorems about the interface of src/src/common/timerheap.c, from the
    invariant of TimerHeapThm.v. *)

From Stdlib Require Import ZArith Lia.
From stdpp Require Import prelude gmap list sorting.
From S2P Require Import Prelude TimerHeap TimerHeapThm.

Module TimerApi.
Import TimerHeap TimerThm.

(** ** Scheduling *)

(** The heap with room for the last entry of [V], which is not in the array yet. *)
Record ready (m : gmap Z timer_entry) (h : timer_heap) (V F : list Z) : Prop := {
  rd_shape : shape m h V (Some (length V - 1)%nat);
  rd_cur : (cur_size h + 1 = length V)%nat;
  rd_max : length (heap h) = max_size h;
  rd_chain : chain (timer_ids h) (timer_ids_freelist h) F (Z.of_nat (max_size h));
  rd_nodup : NoDup F;
  rd_rng : forall t, t ∈ F -> 1 <= t < Z.of_nat (max_size h);
  rd_disj : forall t, t ∈ F -> t ∉ tid m <$> V;
  rd_count : (length F + length V + 1 = max_size h)%nat;
  rd_zero : exists v, timer_ids h !! 0%nat = Some v /\ v < 0;
}.

Lemma ready_grow m h V F : ready m h V F -> (cur_size h + 2 <= max_size h)%nat ->
  Z.of_nat (max_size h * 2) < 2 ^ 31 ->
  exists h' F', (if (max_size h <=? cur_size h + 2)%nat then grow_heap true true h else Ok h) = Ok h' /\
    ready m h' V F' /\ (length V + 2 <= max_size h')%nat /\ cur_size h' = cur_size h /\
    max_entries_per_poll h' = max_entries_per_poll h.
Proof.
  intros Hr Hroom Hb. pose proof (rd_cur _ _ _ _ Hr) as Hc.
  destruct (Nat.leb_spec (max_size h) (cur_size h + 2)) as [Hg|Hg].
  2: { exists h, F. split_and!; (done || lia). }
  eexists _, (F ++ seqZ (Z.of_nat (max_size h)) (Z.of_nat (max_size h))).
  split; [reflexivity|]. cbn [max_size cur_size max_entries_per_poll].
  split; [|split_and!; lia || done].
  replace (max_size h * 2 - max_size h)%nat with (max_size h) by lia.
  destruct Hr as [Hs _ Hm Hch Hn Hrg Hd Hct Hz]. pose proof (sh_len_ids _ _ _ _ Hs) as Hli.
  split; cbn [heap timer_ids timer_ids_freelist max_size cur_size].
  - destruct Hs. split; cbn [heap timer_ids]; rewrite ?length_app, ?length_replicate, ?length_free_ids; try lia; try done.
    + intros i p Hp Hi. apply lookup_app_l_Some. eauto.
    + intros i p Hp. specialize (sh_rng0 i p Hp). lia.
    + intros i p Hp Hi. apply lookup_app_l_Some. eauto.
  - lia.
  - rewrite length_app, length_replicate. lia.
  - apply chain_app with (Z.of_nat (max_size h)).
    + revert Hch. apply freelist_ext. intros t Ht. apply lookup_app_l. specialize (Hrg t Ht). lia.
    + replace (max_size h * 2)%nat with (max_size h + max_size h)%nat by lia. apply chain_run.
      intros i Hi. rewrite lookup_app_r by lia. rewrite lookup_free_ids by lia. f_equal. lia.
  - apply NoDup_app. split_and!; [done| |apply NoDup_seqZ].
    intros t Ht Hin. apply elem_of_seqZ in Hin. specialize (Hrg t Ht). lia.
  - intros t [Ht|Ht]%elem_of_app; [specialize (Hrg t Ht)|apply elem_of_seqZ in Ht]; lia.
  - intros t [Ht|Ht]%elem_of_app; [by apply Hd|]. apply elem_of_seqZ in Ht.
    intros Hin. apply list_elem_of_fmap in Hin as (q & -> & Hq). apply list_elem_of_lookup in Hq as [i Hq].
    pose proof (sh_rng _ _ _ _ Hs i q Hq). lia.
  - rewrite length_app, length_seqZ. lia.
  - destruct Hz as (v & Hv & Hneg). exists v. split; [|done]. by apply lookup_app_l_Some.
Qed.

(** Taking the first free identifier for [entry]. *)
Lemma pop_ready w V F entry e ft : inv w V F -> mem w !! entry = Some e -> tid (mem w) entry < 1 ->
  exists t F' h, F = t :: F' /\ pop_freelist (ht w) = Ok (t, h) /\
    ready (<[entry := set_value e t ft]> (mem w)) h (V ++ [entry]) F' /\
    ordered (val (<[entry := set_value e t ft]> (mem w))) V /\ (entry ∉ V) /\
    (forall q, 1 <= tid (<[entry := set_value e t ft]> (mem w)) q -> q ∈ V ++ [entry]) /\
    cur_size h = cur_size (ht w) /\ max_size h = max_size (ht w) /\
    max_entries_per_poll h = max_entries_per_poll (ht w).
Proof.
  intros Hi He Hlt. pose proof (iv_shape _ _ _ Hi) as Hs.
  assert (entry ∉ V) as Hnin.
  { intros Hin. apply list_elem_of_lookup in Hin as [i Hin]. pose proof (sh_rng _ _ _ _ Hs i _ Hin). lia. }
  destruct Hi as [_ Hc Hm Hr Ho Hch Hn Hrg Hd Hct Hz Hst].
  destruct F as [|t F]; [cbn in Hct; lia|]. destruct Hch as (Hf & v & Hv & Hch).
  pose proof (Hrg t ltac:(set_solver)) as Ht.
  exists t, F, (set_freelist (ht w) (timer_ids (ht w)) (- v)). split; [done|]. split.
  { unfold pop_freelist. rewrite Hf, get_id_nat by lia. rewrite Hv. done. }
  set (m := <[entry := set_value e t ft]> (mem w)).
  assert (forall q, q <> entry -> m !! q = mem w !! q) as Hmq by (intros q Hq; by apply lookup_insert_ne).
  assert (m !! entry = Some (set_value e t ft)) as Hme by apply lookup_insert_eq.
  assert (forall i q, V !! i = Some q -> q <> entry) as HV
    by (intros i q Hq ->; apply Hnin; by eapply list_elem_of_lookup_2).
  assert (tid m <$> V = tid (mem w) <$> V) as HtV
    by (apply list_fmap_ext; intros i q Hq; unfold tid; by rewrite Hmq by eauto).
  split_and!; [|apply (order_ext (val (mem w)) (val m) V 0)|done| |done|done|done].
  - assert (tid m entry = t) as Hte by (by rewrite (tid_eq _ _ _ Hme)).
    pose proof (sh_len_ids _ _ _ _ Hs) as Hli.
    split; cbn; rewrite ?length_app; cbn; try done; try lia.
    + replace (length V + 1 - 1)%nat with (length V) by lia.
      destruct Hs. split; cbn; rewrite ?length_app; cbn; try done; try lia.
      * intros i q [Hq|[Hi Hq]]%lookup_app_Some Hne; [eauto|].
        apply list_lookup_singleton_Some in Hq as [? _]. exfalso. apply Hne. f_equal. lia.
      * intros i q [Hq|[Hi Hq]]%lookup_app_Some; [rewrite Hmq by eauto; eauto|].
        apply list_lookup_singleton_Some in Hq as [_ <-]. eauto.
      * intros i q [Hq|[Hi Hq]]%lookup_app_Some; [unfold tid; rewrite Hmq by eauto; by apply (sh_rng0 i)|].
        apply list_lookup_singleton_Some in Hq as [_ <-]. lia.
      * intros i q [Hq|[Hi Hq]]%lookup_app_Some Hne; [unfold tid; rewrite Hmq by eauto; by apply sh_ids0|].
        apply list_lookup_singleton_Some in Hq as [? _]. exfalso. apply Hne. f_equal. lia.
      * rewrite fmap_app, HtV. cbn. rewrite Hte. apply NoDup_app. split_and!; [done| |apply NoDup_singleton].
        intros x Hx Hin. apply list_elem_of_singleton in Hin as ->. apply (Hd t); [set_solver|done].
    + by apply NoDup_cons in Hn as [_ ?].
    + intros u Hu. apply Hrg. set_solver.
    + intros u Hu. rewrite fmap_app, HtV. cbn. rewrite Hte. apply NoDup_cons in Hn as [Hn _].
      specialize (Hd u ltac:(set_solver)). set_solver.
    + cbn in Hct. lia.
  - intros q Hq. apply list_elem_of_lookup in Hq as [i Hq]. unfold val. by rewrite Hmq by eauto.
  - exact Ho.
  - intros q Hq. apply elem_of_app. destruct (decide (q = entry)) as [->|Hne]; [right; set_solver|left].
    apply Hst. unfold tid in *. by rewrite Hmq in Hq by done.
Qed.

(** The entry sifted up from the last slot. *)
Lemma ready_insert m h V entry F l : ready m h (V ++ [entry]) F -> ordered (val m) V ->
  (length V + 3 <= max_size h)%nat ->
  (forall q, 1 <= tid m q -> q ∈ V ++ [entry]) ->
  exists h' V', reheap_up (cur_size h) m h entry (cur_size h) (HEAP_PARENT (cur_size h)) = Ok h' /\
    inv (mkWorld (set_size h' (cur_size h' + 1)) m l) V' F /\ V' ≡ₚ entry :: V /\
    max_entries_per_poll h' = max_entries_per_poll h.
Proof.
  intros Hr Ho Hroom Hst. pose proof (rd_cur _ _ _ _ Hr) as Hc. rewrite length_app in Hc. cbn in Hc.
  pose proof (rd_shape _ _ _ _ Hr) as Hs. rewrite length_app in Hs. cbn in Hs.
  replace (length V + 1 - 1)%nat with (length V) in Hs by lia.
  assert (cur_size h = length V) as Ec by lia. rewrite Ec.
  destruct (reheap_up_spec m (length V) h (V ++ [entry]) (length V) entry) as (h' & -> & V' & HV' & Hs' & Ho' & Hf).
  - lia.
  - done.
  - by rewrite lookup_app_r, Nat.sub_diag.
  - split.
    + intros i p q (Hi & Hp & Hq) Hne. pose proof (parent_lt i Hi).
      pose proof (lookup_lt_Some _ _ _ Hq) as Hlt. rewrite length_app in Hlt. cbn in Hlt.
      rewrite lookup_app_l in Hp, Hq by lia. apply (Ho i). by split_and!.
    + intros i p q Hi _ Hpi _ Hq. pose proof (parent_lt i Hi). apply lookup_lt_Some in Hq.
      rewrite length_app in Hq. cbn in Hq. lia.
  - exists h', V'. split; [done|]. pose proof (Permutation_length HV') as Hl. rewrite length_app in Hl. cbn in Hl.
    destruct Hf as [Fm Fc Fp Ff Fl Fi]. destruct Hr as [_ _ Rm Rch Rn Rr Rd Rct Rz].
    rewrite length_app in Rct. cbn in Rct.
    split; [|split; [by rewrite HV', Permutation_app_comm|done]].
    split; cbn; rewrite ?Fm, ?Fc, ?Ff, ?Fl; try done; try lia.
    + destruct Hs'. split; done.
    + revert Rch. apply freelist_ext. intros t Ht. apply Fi; [by apply Rd|]. specialize (Rr t Ht). lia.
    + intros t Ht. rewrite HV'. by apply Rd.
    + destruct Rz as (v & Hv & Hneg). exists v. split; [|done]. change 0%nat with (Z.to_nat 0).
      rewrite Fi; [done| |lia]. intros Hin. apply list_elem_of_fmap in Hin as (q & Hq & Hin).
      apply list_elem_of_lookup in Hin as [i Hin]. pose proof (sh_rng _ _ _ _ Hs i q Hin). lia.
    + intros q Hq. rewrite HV'. by apply Hst.
Qed.

Lemma schedule_entry_spec w V F entry e ft : inv w V F -> mem w !! entry = Some e ->
  tid (mem w) entry < 1 -> Z.of_nat (max_size (ht w) * 2) < 2 ^ 31 ->
  exists t w' V' F', schedule_entry true true w entry ft = Ok (0, w') /\ inv w' V' F' /\
    V' ≡ₚ entry :: V /\ mem w' = <[entry := set_value e t ft]> (mem w) /\ 1 <= t /\ log w' = log w /\
    max_entries_per_poll (ht w') = max_entries_per_poll (ht w).
Proof.
  intros Hi He Hlt Hb. pose proof (iv_room _ _ _ Hi) as Hroom. pose proof (iv_cur _ _ _ Hi) as Hcur.
  destruct (pop_ready w V F entry e ft Hi He Hlt) as (t & F1 & h1 & HF & Ep & Hr & Ho & Hn & Hst & Hc & Hm & Hp).
  assert (1 <= t) as Ht by (apply (iv_rng _ _ _ Hi); rewrite HF; set_solver).
  destruct (ready_grow _ h1 _ F1 Hr) as (h2 & F2 & Eg & Hr2 & Hroom2 & Hc2 & Hp2); [lia|by rewrite Hm|].
  rewrite length_app in Hroom2. cbn in Hroom2.
  destruct (ready_insert _ h2 V entry F2 (log w) Hr2 Ho ltac:(lia) Hst) as (h3 & V' & Eu & Hinv & HV' & Hp3).
  unfold schedule_entry. rewrite (proj2 (Nat.ltb_lt _ _)) by lia. rewrite (load_mem _ _ _ He). bind_simpl.
  rewrite Ep. bind_simpl. unfold insert_node. rewrite Eg. bind_simpl. rewrite Eu. bind_simpl.
  eexists t, _, V', F2. split; [reflexivity|]. split_and!; try done. cbn. congruence.
Qed.

(** ** Cancelling *)

(** The invariant does not depend on entries that are not scheduled. *)
Lemma inv_mem w V F m l : inv w V F -> (forall p, p ∈ V -> m !! p = mem w !! p) ->
  (forall p, p ∉ V -> tid m p < 1) -> inv (mkWorld (ht w) m l) V F.
Proof.
  intros Hi Hsame Hother.
  assert (forall p, p ∈ V -> tid m p = tid (mem w) p) as Ht by (intros p Hp; unfold tid; by rewrite Hsame).
  assert (tid m <$> V = tid (mem w) <$> V) as HtV
    by (apply list_fmap_ext; intros i q Hq; apply Ht; by eapply list_elem_of_lookup_2).
  destruct Hi as [Hs Hc Hm Hr Ho Hch Hn Hrg Hd Hct Hz Hst]. split; cbn; rewrite ?HtV; try done.
  - destruct Hs. split; rewrite ?HtV; try done; intros i p Hp; pose proof (list_elem_of_lookup_2 _ _ _ Hp).
    + rewrite Hsame by done. eauto.
    + rewrite Ht by done. eauto.
    + rewrite Ht by done. eauto.
  - eapply (order_ext (val (mem w)) (val m) V 0); [|done]. intros q Hq. unfold val. by rewrite Hsame.
  - intros p Hp. destruct (decide (p ∈ V)); [done|]. specialize (Hother p ltac:(done)). lia.
Qed.

Lemma inv_forget w V F entry e : inv w V F -> mem w !! entry = Some e -> entry ∉ V ->
  inv (snd (forget w entry e)) V F.
Proof.
  intros Hi He Hn. apply inv_mem; [done| |].
  - intros p Hp. apply lookup_insert_ne. by intros ->.
  - intros p Hp. destruct (decide (p = entry)) as [->|Hne].
    + unfold tid. rewrite lookup_insert_eq. cbn. lia.
    + unfold tid. rewrite lookup_insert_ne by done. destruct (decide (1 <= tid (mem w) p)) as [H|H]; [|unfold tid in H; lia].
      by apply (iv_stale _ _ _ Hi) in H.
Qed.

Lemma cancel_scheduled call w V F entry e flags : inv w V F -> mem w !! entry = Some e -> entry ∈ V ->
  flag flags F_DONT_CALL = true ->
  exists w' V', cancel call w entry flags = Ok (1, w') /\ inv w' V' (tid (mem w) entry :: F) /\
    entry :: V' ≡ₚ V /\ mem w' = mem_without w entry e /\ log w' = log w /\
    max_entries_per_poll (ht w') = max_entries_per_poll (ht w).
Proof.
  intros Hi He Hin Hfl. apply list_elem_of_lookup in Hin as [slot Hin]. pose proof (iv_shape _ _ _ Hi) as Hs.
  pose proof (sh_rng _ _ _ _ Hs _ _ Hin) as Hr. pose proof (sh_ids _ _ _ _ Hs _ _ Hin ltac:(done)) as Hid.
  pose proof (sh_len_ids _ _ _ _ Hs) as Hli. rewrite (iv_max _ _ _ Hi) in Hli.
  unfold cancel. rewrite (load_mem _ _ _ He). bind_simpl. rewrite <- (tid_eq _ _ _ He).
  rewrite (proj2 (Z.ltb_ge _ _)), (proj2 (Z.ltb_ge _ _)) by lia. cbn [orb].
  rewrite get_id_nat, Hid by lia. bind_simpl. rewrite (proj2 (Z.ltb_ge _ _)) by lia. rewrite Nat2Z.id.
  destruct (slot_value_ok _ _ _ _ _ _ Hs Hin ltac:(done)) as [-> _]. bind_simpl.
  rewrite Z.eqb_refl. cbn [negb]. destruct (remove_node_spec w V F slot entry e) as (w' & V' & -> & H1 & H2 & H3 & H4 & H5 & _); try done.
  bind_simpl. rewrite Hfl. cbn [negb]. bind_simpl. by exists w', V'.
Qed.

Lemma cancel_idle call w V F entry e flags : inv w V F -> mem w !! entry = Some e -> entry ∉ V ->
  cancel call w entry flags = Ok (forget w entry e).
Proof.
  intros Hi He Hn. assert (tid (mem w) entry < 1) as Hlt.
  { destruct (decide (1 <= tid (mem w) entry)) as [H|H]; [|lia]. by apply (iv_stale _ _ _ Hi) in H. }
  unfold cancel. rewrite (load_mem _ _ _ He). bind_simpl. rewrite <- (tid_eq _ _ _ He).
  destruct (Z.ltb_spec (tid (mem w) entry) 0); [done|]. cbn [orb].
  rewrite (proj2 (Z.ltb_ge _ _)) by lia. replace (tid (mem w) entry) with 0 by lia.
  destruct (iv_zero _ _ _ Hi) as (v & Hv & Hneg). rewrite get_id_nat by lia. change (Z.to_nat 0) with 0%nat. rewrite Hv. bind_simpl.
  by rewrite (proj2 (Z.ltb_lt _ _)) by lia.
Qed.

(** ** Polling *)

(** The entry of slot 0 is a least one. *)
Lemma head_value w V F : inv w V F -> V <> [] ->
  exists p e, V !! 0%nat = Some p /\ mem w !! p = Some e /\ slot_value (mem w) (ht w) 0 = Ok (val (mem w) p) /\
    forall q, q ∈ V -> tle (val (mem w) p) (val (mem w) q).
Proof.
  intros Hi Hne. destruct (lookup_lt_is_Some_2 V 0) as [p Hp]; [destruct V; [done|cbn; lia]|].
  destruct (sh_mem _ _ _ _ (iv_shape _ _ _ Hi) _ _ Hp) as [e He].
  exists p, e. split_and!; [done|done| |].
  - by apply (slot_value_ok _ _ _ _ _ _ (iv_shape _ _ _ Hi) Hp).
  - intros q Hq. apply list_elem_of_lookup in Hq as [i Hq].
    by apply (ordered_min _ V i p q (iv_order _ _ _ Hi)).
Qed.

Lemma cur_nonempty w V F : inv w V F -> (0 <? cur_size (ht w))%nat = bool_decide (V <> []).
Proof.
  intros Hi. rewrite (iv_cur _ _ _ Hi). destruct V; [done|]. by rewrite bool_decide_eq_true_2.
Qed.

(** A callback that keeps the invariant and the limit on a poll. *)
Definition well_behaved (call : Z -> Z -> world -> outcome world) : Prop :=
  forall c p w V F, inv w V F -> exists w' V' F', call c p w = Ok w' /\ inv w' V' F' /\
    max_entries_per_poll (ht w') = max_entries_per_poll (ht w).

Lemma inv_log w V F l : inv w V F -> inv (mkWorld (ht w) (mem w) l) V F.
Proof.
  intros Hi. apply inv_mem; [done|done|]. intros p Hp.
  destruct (decide (1 <= tid (mem w) p)) as [H|H]; [|lia]. by apply (iv_stale _ _ _ Hi) in H.
Qed.

Lemma remove_head w V F p e : inv w V F -> V !! 0%nat = Some p -> mem w !! p = Some e ->
  exists w1 V1, remove_node w 0 = Ok (p, w1) /\ inv w1 V1 (tid (mem w) p :: F) /\ p :: V1 ≡ₚ V /\
    load (mem w1) p = Ok (set_timer_id e (-1)) /\ log w1 = log w /\
    max_entries_per_poll (ht w1) = max_entries_per_poll (ht w) /\
    (forall q, q ∈ V1 -> mem w1 !! q = mem w !! q).
Proof.
  intros Hi Hp He.
  destruct (remove_node_spec w V F 0 p e Hi Hp He) as (w1 & V1 & E & Hi1 & HV & Hm & Hl & Hpoll & _).
  exists w1, V1. split_and!; try done; rewrite Hm; unfold mem_without.
  - apply load_mem, lookup_insert_eq.
  - intros q Hq. apply lookup_insert_ne. intros <-.
    pose proof (sh_nodup _ _ _ _ (iv_shape _ _ _ Hi)) as Hnd. rewrite <- HV in Hnd. cbn in Hnd.
    apply NoDup_cons in Hnd as [Hnp _]. apply Hnp. by apply list_elem_of_fmap_2.
Qed.

Lemma poll_loop_safe call now fuel : forall w V F count, well_behaved call -> inv w V F ->
  max_entries_per_poll (ht w) - count <= Z.of_nat fuel -> 0 <= count ->
  exists n w' V' F', poll_loop fuel call now count w = Ok (n, w') /\ inv w' V' F' /\
    count <= n <= Z.max count (max_entries_per_poll (ht w)).
Proof.
  induction fuel as [|fuel IH]; intros w V F count Hcall Hi Hf H0; cbn [poll_loop];
    rewrite (cur_nonempty w V F Hi).
  all: destruct (decide (V = [])) as [HV|HV];
    [rewrite (bool_decide_eq_false_2 (V <> [])) by (intros Hc; by apply Hc); bind_simpl; exists count, w, V, F;
     split_and!; (done || lia)|rewrite bool_decide_eq_true_2 by done].
  all: destruct (head_value w V F Hi HV) as (p & e & Hp & He & -> & _); bind_simpl.
  all: destruct (TIME_VAL_LTE (val (mem w) p) now); cbn [andb];
    [|exists count, w, V, F; split_and!; (done || lia)].
  all: destruct (Z.ltb_spec count (max_entries_per_poll (ht w))) as [Hlt|Hge];
    [|exists count, w, V, F; split_and!; (done || lia)].
  { lia. }
  destruct (remove_head w V F p e Hi Hp He) as (w1 & V1 & -> & Hi1 & _ & Hld & _ & Hpoll & _). bind_simpl.
  unfold fire. rewrite Hld. bind_simpl. cbn [cb set_timer_id]. destruct (cb e) as [c|].
  - destruct (Hcall c p _ V1 _ (inv_log w1 V1 _ (log w1 ++ [(c, p)]) Hi1)) as (w2 & V2 & F2 & -> & Hi2 & Hpoll2).
    cbn in Hpoll2. bind_simpl.
    destruct (IH w2 V2 F2 (count + 1)) as (n & w' & V' & F' & -> & Hi' & Hn); try done; try lia.
    exists n, w', V', F'. split_and!; (done || lia).
  - bind_simpl. destruct (IH w1 V1 (tid (mem w) p :: F) (count + 1)) as (n & w' & V' & F' & -> & Hi' & Hn); try done; try lia.
    exists n, w', V', F'. split_and!; (done || lia).
Qed.

(** A callback that does nothing to the heap. *)
Definition inert (c p : Z) (w : world) : outcome world := Ok w.

(** The callbacks of entries, as [fire] logs them. *)
Definition calls (m : gmap Z timer_entry) (ps : list Z) : list (Z * Z) :=
  ps ≫= (fun p => match m !! p ≫= cb with Some c => [(c, p)] | None => [] end).

Definition due (m : gmap Z timer_entry) (now : time_val) (p : Z) : Prop := tle (val m p) now.

Lemma calls_ext m m' ps : (forall q, q ∈ ps -> m !! q = m' !! q) -> calls m ps = calls m' ps.
Proof.
  induction ps as [|p ps IH]; intros H; [done|]. unfold calls in *. cbn. rewrite H by set_solver.
  f_equal. apply IH. intros. apply H. set_solver.
Qed.

Lemma Sorted_ext_in (f g : Z -> time_val) ps (D : list Z) : (forall q, q ∈ D -> f q = g q) ->
  (forall q, q ∈ ps -> q ∈ D) ->
  Sorted (fun p q => tle (f p) (f q)) ps -> Sorted (fun p q => tle (g p) (g q)) ps.
Proof.
  intros Hfg. induction ps as [|p ps IH]; intros Hin Hs; [constructor|].
  apply Sorted_inv in Hs as [Hs Hh]. constructor; [apply IH; [set_solver|done]|].
  destruct ps as [|q ps]; constructor. inversion Hh as [|? ? Hle]; subst. by rewrite <- !Hfg by set_solver.
Qed.

(** What a poll of inert callbacks did: [fired] are the entries it fired, [V'] those left. *)
Definition polled (now : time_val) (w : world) (V : list Z) (count : Z) (w' : world) (V' fired : list Z) : Prop :=
  V ≡ₚ fired ++ V' /\
  Sorted (fun p q => tle (val (mem w) p) (val (mem w) q)) fired /\
  Forall (due (mem w) now) fired /\ log w' = log w ++ calls (mem w) fired /\
  (forall q, q ∈ V' -> mem w' !! q = mem w !! q) /\
  (count + zlen fired < max_entries_per_poll (ht w) -> Forall (fun q => ~ due (mem w) now q) V').

Lemma polled_stop now w V count :
  (count < max_entries_per_poll (ht w) -> Forall (fun q => ~ due (mem w) now q) V) ->
  polled now w V count w V [].
Proof.
  intros H. unfold polled. rewrite app_nil_r, Z.add_0_r. split_and!; try done; constructor.
Qed.

Lemma poll_loop_order now fuel : forall w V F count, inv w V F ->
  max_entries_per_poll (ht w) - count <= Z.of_nat fuel -> 0 <= count ->
  exists w' V' F' fired, poll_loop fuel inert now count w = Ok (count + zlen fired, w') /\
    inv w' V' F' /\ polled now w V count w' V' fired.
Proof.
  induction fuel as [|fuel IH]; intros w V F count Hi Hf H0; cbn [poll_loop];
    rewrite (cur_nonempty w V F Hi).
  all: destruct (decide (V = [])) as [HV|HV];
    [rewrite (bool_decide_eq_false_2 (V <> [])) by (intros Hc; by apply Hc); bind_simpl; exists w, V, F, [];
     rewrite Z.add_0_r; split_and!; [done|done|apply polled_stop; by rewrite HV]|rewrite bool_decide_eq_true_2 by done].
  all: destruct (head_value w V F Hi HV) as (p & e & Hp & He & -> & Hmin); bind_simpl.
  all: destruct (TIME_VAL_LTE (val (mem w) p) now) eqn:Edue; cbn [andb];
    [|exists w, V, F, []; rewrite Z.add_0_r; split_and!; [done|done|apply polled_stop]; intros _;
      apply Forall_forall; intros q Hq Hd; unfold due in Hd;
      rewrite (proj2 (lte_spec _ _)) in Edue; [done|by eapply tle_trans; [apply Hmin|]]].
  all: destruct (Z.ltb_spec count (max_entries_per_poll (ht w))) as [Hlt|Hge];
    [|exists w, V, F, []; rewrite Z.add_0_r; split_and!; [done|done|apply polled_stop; lia]].
  { lia. }
  destruct (remove_head w V F p e Hi Hp He) as (w1 & V1 & -> & Hi1 & HV1 & Hld & Hl1 & Hpoll & Hsame). bind_simpl.
  assert (fire inert w1 p = Ok (mkWorld (ht w1) (mem w1) (log w ++ calls (mem w) [p]))) as ->.
  { unfold fire, calls. rewrite Hld. bind_simpl. cbn. rewrite He. cbn.
    destruct (cb e); cbn; [by rewrite Hl1|]. rewrite app_nil_r, <- Hl1. by destruct w1. }
  bind_simpl. set (w2 := mkWorld _ _ _).
  destruct (IH w2 V1 (tid (mem w) p :: F) (count + 1)) as (w' & V' & F' & fired & -> & Hi' & (HVf & Hsort & Hdue & Hlog & Hmem & Hrest));
    [by apply inv_log|cbn; lia|lia|].
  assert (forall q, q ∈ fired \/ q ∈ V' -> q ∈ V1) as Hsub by (intros q Hq; rewrite HVf, elem_of_app; done).
  assert (forall q, q ∈ V1 -> val (mem w2) q = val (mem w) q) as Hval by (intros q Hq; unfold val; by rewrite Hsame).
  unfold w2 in *. cbn [mem log ht] in *. exists w', V', F', (p :: fired). unfold polled. rewrite zlen_cons. split_and!.
  - by rewrite Z.add_assoc.
  - done.
  - rewrite <- HV1, HVf. done.
  - apply Sorted_cons; [|destruct fired as [|q fired]; constructor].
    + apply (Sorted_ext_in _ _ fired V1 Hval); [auto|done].
    + apply Hmin. rewrite <- HV1, HVf. set_solver.
  - apply Forall_cons. split; [by apply lte_spec|]. apply Forall_forall. intros q Hq.
    unfold due. rewrite <- Hval by auto. by apply (proj1 (Forall_forall _ _) Hdue).
  - rewrite Hlog, <- app_assoc. f_equal. rewrite (calls_ext (mem w1) (mem w) fired) by auto.
    unfold calls. cbn. by rewrite app_nil_r.
  - intros q Hq. rewrite Hmem by done. auto.
  - intros Hlt'. apply Forall_forall. intros q Hq. unfold due. rewrite <- Hval by auto.
    revert q Hq. apply Forall_forall. apply Hrest. lia.
Qed.

(** ** Time arithmetic *)

Lemma long_ok x : - 2 ^ 63 <= x < 2 ^ 63 -> long x = Ok x.
Proof. intros. unfold long. by rewrite (proj2 (Z.leb_le _ _)), (proj2 (Z.ltb_lt _ _)) by lia. Qed.

Lemma borrow_spec fuel : forall s m, m <= -1000 -> - m <= 1000 * Z.of_nat fuel + 1999 ->
  - 2 ^ 63 <= m -> - 2 ^ 63 - m / 1000 <= s < 2 ^ 63 ->
  exists s' m', borrow fuel s m = Ok (s', m') /\ s' * 1000 + m' = s * 1000 + m /\ -1000 < m' <= 0.
Proof.
  induction fuel as [|fuel IH]; intros s m Hm Hf Hlo Hs; cbn [borrow];
    pose proof (Z.div_mod m 1000 ltac:(lia)); pose proof (Z.mod_pos_bound m 1000 ltac:(lia));
    rewrite !long_ok by lia; bind_simpl; destruct (Z.leb_spec (m + 1000) (-1000)) as [Hle|Hgt]; try lia.
  - eexists _, _. split; [reflexivity|]. lia.
  - destruct (IH (s - 1) (m + 1000)) as (s' & m' & -> & He & Hr); try lia.
    + replace ((m + 1000) / 1000) with (m / 1000 + 1); [lia|].
      rewrite <- (Z.mul_1_l 1000) at 2. by rewrite Z.div_add by lia.
    + exists s', m'. split; [done|]. lia.
  - eexists _, _. split; [reflexivity|]. lia.
Qed.

(** Both parts have the same sign and the milliseconds are below 1000. *)
Definition canonical (t : time_val) : Prop :=
  -1000 < msec t < 1000 /\ (1 <= sec t -> 0 <= msec t) /\ (sec t < 0 -> msec t <= 0).

Lemma normalize_spec t : - 2 ^ 62 <= sec t <= 2 ^ 62 -> - 2 ^ 62 <= msec t <= 2 ^ 62 ->
  exists t', time_val_normalize t = Ok t' /\ TIME_VAL_MSEC t' = TIME_VAL_MSEC t /\ canonical t'.
Proof.
  intros Hs Hm. unfold time_val_normalize.
  assert (exists s m, (if 1000 <=? msec t then
         s ← long (sec t + Z.quot (msec t) 1000); Ok (s, Z.rem (msec t) 1000)
       else if msec t <=? -1000 then borrow (Z.to_nat (- msec t / 1000)) (sec t) (msec t)
       else Ok (sec t, msec t)) = Ok (s, m) /\ s * 1000 + m = TIME_VAL_MSEC t /\ -1000 < m < 1000)
    as (s & m & -> & He & Hr).
  { unfold TIME_VAL_MSEC. destruct (Z.leb_spec 1000 (msec t)); [|destruct (Z.leb_spec (msec t) (-1000))].
    - pose proof (Z.quot_rem' (msec t) 1000). pose proof (Z.rem_bound_pos (msec t) 1000 ltac:(lia) ltac:(lia)).
      rewrite long_ok by lia. bind_simpl. eexists _, _. split; [reflexivity|]. lia.
    - pose proof (Z.div_mod (- msec t) 1000 ltac:(lia)). pose proof (Z.mod_pos_bound (- msec t) 1000 ltac:(lia)).
      pose proof (Z.div_mod (msec t) 1000 ltac:(lia)). pose proof (Z.mod_pos_bound (msec t) 1000 ltac:(lia)).
      destruct (borrow_spec (Z.to_nat (- msec t / 1000)) (sec t) (msec t)) as (s & m & -> & ? & ?); try lia.
      exists s, m. split; [done|]. lia.
    - eexists _, _. split; [reflexivity|]. lia. }
  bind_simpl. unfold TIME_VAL_MSEC, canonical in *.
  destruct (Z.leb_spec 1 s), (Z.ltb_spec m 0), (Z.ltb_spec s 0), (Z.ltb_spec 0 m); cbn [andb];
    eexists; (split; [reflexivity|]); cbn; lia.
Qed.

Definition small (t : time_val) : Prop := - 2 ^ 61 <= sec t <= 2 ^ 61 /\ - 2 ^ 61 <= msec t <= 2 ^ 61.

(** ** The claims *)

(** Adding and subtracting time values is exact: within a quarter of the
    range of [long] the result counts the sum or the difference of the
    milliseconds, and is in normal form. *)
Theorem time_val_arithmetic a b : small a -> small b ->
  (exists t, TIME_VAL_ADD a b = Ok t /\ TIME_VAL_MSEC t = TIME_VAL_MSEC a + TIME_VAL_MSEC b /\ canonical t) /\
  (exists t, TIME_VAL_SUB a b = Ok t /\ TIME_VAL_MSEC t = TIME_VAL_MSEC a - TIME_VAL_MSEC b /\ canonical t).
Proof.
  intros [? ?] [? ?]. unfold TIME_VAL_ADD, TIME_VAL_SUB. rewrite !long_ok by lia. bind_simpl.
  split.
  - destruct (normalize_spec (mkTime (sec a + sec b) (msec a + msec b))) as (t & -> & He & Hc); cbn; try lia.
    exists t. split; [done|]. split; [|done]. rewrite He. unfold TIME_VAL_MSEC. cbn. lia.
  - destruct (normalize_spec (mkTime (sec a - sec b) (msec a - msec b))) as (t & -> & He & Hc); cbn; try lia.
    exists t. split; [done|]. split; [|done]. rewrite He. unfold TIME_VAL_MSEC. cbn. lia.
Qed.

Lemma time_val_arithmetic_witness :
  exists t, TIME_VAL_SUB (mkTime 5 100) (mkTime 3 900) = Ok t /\ TIME_VAL_MSEC t = 1200.
Proof.
  destruct (time_val_arithmetic (mkTime 5 100) (mkTime 3 900)) as [_ (t & E & H & _)];
    [unfold small; cbn; lia|unfold small; cbn; lia|]. exists t. split; [exact E|]. rewrite H. reflexivity.
Defined.

(** The entries of an empty heap. *)
Lemma create_inv size h m l : timer_heap_create true true true size = Some h ->
  Z.of_nat (size + 2) < 2 ^ 31 -> (forall p, tid m p < 1) ->
  inv (mkWorld h m l) [] (seqZ 1 (Z.of_nat size + 1)).
Proof.
  intros [= <-] Hb Hm. split; cbn [ht mem timer_ids heap max_size cur_size timer_ids_freelist]; try done; try lia.
  - split; cbn [heap timer_ids]; rewrite ?length_replicate, ?length_free_ids; try done; cbn; try lia. constructor.
  - by rewrite length_replicate.
  - cbn. lia.
  - intros i p q (_ & Hp & _). by rewrite lookup_nil in Hp.
  - replace (size + 2)%nat with (1 + (size + 1))%nat at 2 by lia.
    replace (Z.of_nat size + 1) with (Z.of_nat (size + 1)) by lia. apply (chain_run _ 1).
    intros i Hi. rewrite lookup_free_ids by lia. f_equal.
  - apply NoDup_seqZ.
  - intros t Ht. apply elem_of_seqZ in Ht. lia.
  - intros t _ Hin. cbn in Hin. by apply elem_of_nil in Hin.
  - rewrite length_seqZ. cbn. lia.
  - exists (-1). rewrite lookup_free_ids by lia. split; [done|lia].
  - intros p Hp. specialize (Hm p). lia.
Qed.

Lemma running_tid m p e : m !! p = Some e -> timer_entry_running e = (1 <=? tid m p).
Proof. intros H. by rewrite (tid_eq _ _ _ H). Qed.

Lemma schedule_ok w V F entry e now delay expires :
  inv w V F -> mem w !! entry = Some e -> cb e <> None -> timer_entry_running e = false ->
  TIME_VAL_ADD now delay = Ok expires -> Z.of_nat (max_size (ht w) * 2) < 2 ^ 31 ->
  exists w' V' F' e', timer_heap_schedule true true now w entry delay = Ok (0, w') /\
    inv w' V' F' /\ V' ≡ₚ entry :: V /\
    mem w' !! entry = Some e' /\ _timer_value e' = expires /\ timer_entry_running e' = true /\
    (forall q, q <> entry -> mem w' !! q = mem w !! q).
Proof.
  intros Hi He Hcb Hrun Hadd Hb. pose proof Hrun as Hrun'. rewrite (running_tid _ _ _ He) in Hrun'.
  apply Z.leb_gt in Hrun'. unfold timer_entry_running in Hrun.
  destruct (schedule_entry_spec w V F entry e expires Hi He Hrun' Hb)
    as (t & w' & V' & F' & E & Hi' & HV' & Hm & Ht & _).
  exists w', V', F', (set_value e t expires).
  unfold timer_heap_schedule, schedule. rewrite (load_mem _ _ _ He). bind_simpl.
  destruct (cb e); [|done]. rewrite Hrun, Hadd. bind_simpl. rewrite E. bind_simpl.
  rewrite andb_false_r, Hm, lookup_insert_eq. split_and!; try done.
  - unfold timer_entry_running. by apply Z.leb_le.
  - intros q Hq. by apply lookup_insert_ne.
Qed.

(** Scheduling: an entry that is not running, with a callback, is added to
    the scheduled entries with the time [now + delay]; every other entry keeps
    its content, the heap invariant is kept (the tables double when they are
    full), and the entry is running. *)
Theorem timer_heap_schedule_spec w V F entry e now delay expires :
  inv w V F -> mem w !! entry = Some e -> cb e <> None -> timer_entry_running e = false ->
  TIME_VAL_ADD now delay = Ok expires -> Z.of_nat (max_size (ht w) * 2) < 2 ^ 31 ->
  exists w' V' F' e', timer_heap_schedule true true now w entry delay = Ok (0, w') /\
    inv w' V' F' /\ V' ≡ₚ entry :: V /\
    mem w' !! entry = Some e' /\ _timer_value e' = expires /\ timer_entry_running e' = true /\
    (forall q, q <> entry -> mem w' !! q = mem w !! q).
Proof. apply schedule_ok. Qed.

(** An entry that is not scheduled and two that can be. *)
Definition idle (c : option Z) : timer_entry := mkEntry 0 0 c (-1) (mkTime 0 0).
Definition store0 : gmap Z timer_entry := <[10 := idle (Some 1)]> (<[20 := idle (Some 2)]> ∅).
Definition heap0 : timer_heap := default (mkHeap 0 0 0 [] [] 0) (timer_heap_create true true true 1).
Definition world0 : world := mkWorld heap0 store0 [].
(** Entry 10 at 9 s, then entry 20 at 5 s; the tables grow on the way. *)
Definition after {A} (r : outcome (A * world)) (w : world) : world := match r with Ok (_, w) => w | _ => w end.
Definition world1 : world := after (timer_heap_schedule true true (mkTime 4 0) world0 10 (mkTime 5 0)) world0.
Definition world2 : world := after (timer_heap_schedule true true (mkTime 4 0) world1 20 (mkTime 1 0)) world1.

Lemma inv0 : inv world0 [] (seqZ 1 2).
Proof.
  apply (create_inv 1); [reflexivity|vm_compute; reflexivity|]. intros p. unfold tid, store0.
  destruct (decide (p = 10)) as [->|]; [rewrite lookup_insert_eq; cbn; lia|].
  rewrite lookup_insert_ne by done.
  destruct (decide (p = 20)) as [->|]; [rewrite lookup_insert_eq; cbn; lia|].
  rewrite lookup_insert_ne by done. rewrite lookup_empty. cbn. lia.
Qed.

Lemma schedule_inv w V F entry e now delay expires :
  inv w V F -> mem w !! entry = Some e -> cb e <> None -> timer_entry_running e = false ->
  TIME_VAL_ADD now delay = Ok expires -> Z.of_nat (max_size (ht w) * 2) < 2 ^ 31 ->
  exists V' F', inv (after (timer_heap_schedule true true now w entry delay) w) V' F' /\ V' ≡ₚ entry :: V.
Proof.
  intros. destruct (schedule_ok w V F entry e now delay expires) as (w' & V' & F' & e' & -> & Hi' & HV' & _); try done.
  by exists V', F'.
Qed.

Lemma inv2 : exists V F, inv world2 V F /\ V ≡ₚ [20; 10].
Proof.
  destruct (schedule_inv world0 [] (seqZ 1 2) 10 (idle (Some 1)) (mkTime 4 0) (mkTime 5 0) (mkTime 9 0) inv0)
    as (V1 & F1 & Hi1 & HV1); [vm_compute; reflexivity|discriminate|vm_compute; reflexivity|vm_compute; reflexivity|vm_compute; reflexivity|].
  destruct (schedule_inv world1 V1 F1 20 (idle (Some 2)) (mkTime 4 0) (mkTime 1 0) (mkTime 5 0) Hi1)
    as (V2 & F2 & Hi2 & HV2); [vm_compute; reflexivity|discriminate|vm_compute; reflexivity|vm_compute; reflexivity|vm_compute; reflexivity|].
  exists V2, F2. split; [done|]. by rewrite HV2, HV1.
Qed.

Lemma timer_heap_schedule_spec_witness :
  exists w' V' F', timer_heap_schedule true true (mkTime 4 0) world0 10 (mkTime 5 0) = Ok (0, w') /\
    inv w' V' F' /\ V' ≡ₚ [10].
Proof.
  destruct (timer_heap_schedule_spec world0 [] (seqZ 1 2) 10 (idle (Some 1)) (mkTime 4 0) (mkTime 5 0) (mkTime 9 0))
    as (w' & V' & F' & e' & E & Hi & HV & _);
    [exact inv0|vm_compute; reflexivity|discriminate|vm_compute; reflexivity|vm_compute; reflexivity|vm_compute; reflexivity|].
  exists w', V', F'. split; [exact E|]. split; [exact Hi|exact HV].
Defined.

(** Cancelling: a scheduled entry is taken out, the call returns 1, and no
    callback is made; for an entry that is not scheduled it returns 0 and the
    heap stays as it was. In both cases the entry is not running afterwards and
    the others are as they were. *)
Theorem timer_heap_cancel_spec call w V F entry e : inv w V F -> mem w !! entry = Some e ->
  exists n w' V' F', timer_heap_cancel call w entry = Ok (n, w') /\ inv w' V' F' /\ log w' = log w /\
    (entry ∈ V -> n = 1 /\ entry :: V' ≡ₚ V) /\ (entry ∉ V -> n = 0 /\ V' = V /\ ht w' = ht w) /\
    mem w' = <[entry := set_timer_id e (-1)]> (mem w).
Proof.
  intros Hi He. unfold timer_heap_cancel, cancel_timer. change (flag 0 F_SET_ID) with false.
  destruct (decide (entry ∈ V)) as [Hin|Hin].
  - destruct (cancel_scheduled call w V F entry e (Z.lor 0 F_DONT_CALL)) as (w' & V' & -> & Hi' & HV & Hm & Hl & _); try done.
    bind_simpl. exists 1, w', V', (tid (mem w) entry :: F). split_and!; done.
  - rewrite (cancel_idle call w V F entry e) by done. bind_simpl.
    exists 0, (snd (forget w entry e)), V, F. split_and!; try done. by apply inv_forget.
Qed.

Lemma timer_heap_cancel_spec_witness :
  exists w', timer_heap_cancel (fun _ w => Ok w) world2 10 = Ok (1, w') /\ log w' = [].
Proof.
  destruct inv2 as (V & F & Hi & HV).
  destruct (timer_heap_cancel_spec (fun _ w => Ok w) world2 V F 10 (mkEntry 0 0 (Some 1) 1 (mkTime 9 0)) Hi)
    as (n & w' & V' & F' & E & _ & Hl & Hin & _); [vm_compute; reflexivity|].
  destruct (Hin ltac:(rewrite HV; set_solver)) as [-> _]. exists w'. split; [exact E|exact Hl].
Defined.

(** C36. Polling with callbacks that leave the heap alone fires due entries only,
    in the order of their times, calls the callback of each of them once and in
    that order, fires no more than [max_entries_per_poll], and when it stops below
    that limit no due entry is left. *)
Theorem timer_heap_poll_order w V F now : inv w V F -> 0 <= max_entries_per_poll (ht w) ->
  exists w' V' F' fired,
    timer_heap_poll (Z.to_nat (max_entries_per_poll (ht w))) inert now false w = Ok (zlen fired, None, w') /\
    inv w' V' F' /\ polled now w V 0 w' V' fired /\ zlen fired <= max_entries_per_poll (ht w).
Proof.
  intros Hi H0. unfold timer_heap_poll. rewrite andb_false_r.
  destruct (poll_loop_order now (Z.to_nat (max_entries_per_poll (ht w))) w V F 0 Hi ltac:(lia) ltac:(lia))
    as (w' & V' & F' & fired & E & Hi' & Hp).
  destruct (poll_loop_safe inert now (Z.to_nat (max_entries_per_poll (ht w))) w V F 0) as (n & w'' & _ & _ & E' & _ & Hn);
    [intros c p x Vx Fx Hx; by exists x, Vx, Fx|done|lia|lia|].
  rewrite E in E'. simplify_eq. rewrite E. bind_simpl. rewrite andb_false_r. cbn [Z.add].
  exists w'', V', F', fired. split_and!; try done. lia.
Qed.

Lemma timer_heap_poll_order_witness :
  exists w' V' fired, timer_heap_poll 64 inert (mkTime 10 0) false world2 = Ok (2, None, w') /\
    polled (mkTime 10 0) world2 fired 0 w' V' fired /\ log w' = [(2, 20); (1, 10)].
Proof.
  destruct inv2 as (V & F & Hi & HV).
  destruct (timer_heap_poll_order world2 V F (mkTime 10 0) Hi) as (w' & V' & F' & fired & E & _ & Hp & _);
    [vm_compute; discriminate|].
  assert (match timer_heap_poll (Z.to_nat (max_entries_per_poll (ht world2))) inert (mkTime 10 0) false world2 with
          | Ok (n, _, w) => n = 2 /\ log w = [(2, 20); (1, 10)] | _ => False end) as Hz by (vm_compute; done).
  rewrite E in Hz. destruct Hz as [Hz Hlog].
  assert (V' = []) as ->.
  { destruct Hp as (HVf & _). rewrite HV in HVf. apply Permutation_length in HVf.
    rewrite length_app in HVf. unfold zlen in Hz. cbn in HVf. apply nil_length_inv. lia. }
  exists w', [], fired. rewrite Hz in E. split; [exact E|]. split.
  - destruct Hp as (HVf & Hp). rewrite app_nil_r in HVf. split; [by rewrite app_nil_r|exact Hp].
  - exact Hlog.
Defined.

(** Polling ends, whatever the callbacks do to the heap as long as they keep
    its invariant: at most [max_entries_per_poll] entries are fired, and the
    invariant holds afterwards. *)
Theorem timer_heap_poll_safe call w V F now : well_behaved call -> inv w V F -> 0 <= max_entries_per_poll (ht w) ->
  exists n w' V' F',
    timer_heap_poll (Z.to_nat (max_entries_per_poll (ht w))) call now false w = Ok (n, None, w') /\
    inv w' V' F' /\ 0 <= n <= max_entries_per_poll (ht w).
Proof.
  intros Hc Hi H0. unfold timer_heap_poll. rewrite andb_false_r.
  destruct (poll_loop_safe call now (Z.to_nat (max_entries_per_poll (ht w))) w V F 0) as (n & w' & V' & F' & -> & Hi' & Hn);
    [done|done|lia|lia|].
  bind_simpl. rewrite andb_false_r. exists n, w', V', F'. split_and!; (done || lia).
Qed.

(** A callback that cancels entry 10, when there is one. *)
Definition canceller (c p : Z) (w : world) : outcome world :=
  match mem w !! 10 with
  | Some e => r ← timer_heap_cancel (fun _ w => Ok w) w 10; Ok (snd r)
  | None => Ok w
  end.

Lemma canceller_well_behaved : well_behaved canceller.
Proof.
  intros c p w V F Hi. unfold canceller. destruct (mem w !! 10) as [e|] eqn:He; [|by exists w, V, F].
  unfold timer_heap_cancel, cancel_timer. change (flag 0 F_SET_ID) with false.
  destruct (decide (10 ∈ V)) as [Hin|Hin].
  - destruct (cancel_scheduled (fun _ w => Ok w) w V F 10 e (Z.lor 0 F_DONT_CALL)) as (w' & V' & -> & Hi' & _ & _ & _ & Hp); try done.
    bind_simpl. by exists w', V', (tid (mem w) 10 :: F).
  - rewrite (cancel_idle _ w V F 10 e) by done. bind_simpl.
    exists (snd (forget w 10 e)), V, F. split_and!; try done. by apply inv_forget.
Qed.

Lemma timer_heap_poll_safe_witness :
  exists n w', timer_heap_poll 64 canceller (mkTime 10 0) false world2 = Ok (n, None, w') /\ 0 <= n <= 64.
Proof.
  destruct inv2 as (V & F & Hi & HV).
  destruct (timer_heap_poll_safe canceller world2 V F (mkTime 10 0) canceller_well_behaved Hi)
    as (n & w' & _ & _ & E & _ & Hn); [vm_compute; discriminate|].
  exists n, w'. split; [exact E|exact Hn].
Defined.

(** The delay [timer_heap_poll] computes from the earliest time. *)
Lemma next_delay_exact v now : small v -> small now ->
  exists d, (d ← TIME_VAL_SUB v now; Ok (if (sec d <? 0) || (msec d <? 0) then mkTime 0 0 else d)) = Ok d /\
    TIME_VAL_MSEC d = Z.max 0 (TIME_VAL_MSEC v - TIME_VAL_MSEC now).
Proof.
  intros [? ?] [? ?]. unfold TIME_VAL_SUB. rewrite !long_ok by lia. bind_simpl.
  destruct (normalize_spec (mkTime (sec v - sec now) (msec v - msec now))) as (t & -> & He & (Hc1 & Hc2 & Hc3)); cbn; try lia.
  bind_simpl. eexists. split; [reflexivity|]. unfold TIME_VAL_MSEC in *. cbn in He.
  destruct (Z.ltb_spec (sec t) 0), (Z.ltb_spec (msec t) 0); cbn; lia.
Qed.

(** The delay a poll reports is the time to the earliest entry that is left,
    in milliseconds and 0 when that time has passed; when no entry is left it is
    [INT32_MAX] seconds. *)
Theorem timer_heap_poll_delay w V F now : inv w V F -> 0 <= max_entries_per_poll (ht w) ->
  small now -> Forall (fun p => small (val (mem w) p)) V ->
  exists n d w' V' F',
    timer_heap_poll (Z.to_nat (max_entries_per_poll (ht w))) inert now true w = Ok (n, Some d, w') /\
    inv w' V' F' /\
    (V' = [] -> d = never) /\
    (V' <> [] -> exists p, p ∈ V' /\ (forall q, q ∈ V' -> tle (val (mem w') p) (val (mem w') q)) /\
       TIME_VAL_MSEC d = Z.max 0 (TIME_VAL_MSEC (val (mem w') p) - TIME_VAL_MSEC now)).
Proof.
  intros Hi H0 Hnow Hsm. unfold timer_heap_poll. pose proof (iv_cur _ _ _ Hi) as Hc.
  destruct (Nat.eqb_spec (cur_size (ht w)) 0) as [E|E]; cbn [andb].
  { exists 0, never, w, V, F. split_and!; try done. intros Hne. destruct V; [done|]. cbn in Hc. lia. }
  destruct (poll_loop_order now (Z.to_nat (max_entries_per_poll (ht w))) w V F 0 Hi ltac:(lia) ltac:(lia))
    as (w' & V' & F' & fired & -> & Hi' & HV & _ & _ & _ & Hm & _). bind_simpl.
  rewrite (cur_nonempty w' V' F' Hi'). destruct (decide (V' = [])) as [HV'|HV'].
  - rewrite bool_decide_eq_false_2 by (intros Hn; by apply Hn). cbn [andb].
    eexists _, _, w', V', F'. split_and!; try done.
  - rewrite bool_decide_eq_true_2 by done. cbn [andb].
    destruct (head_value w' V' F' Hi' HV') as (p & e & Hp & _ & -> & Hmin). bind_simpl.
    pose proof (list_elem_of_lookup_2 _ _ _ Hp) as Hin.
    assert (small (val (mem w') p)) as Hsp.
    { unfold val. rewrite (Hm p Hin). apply (proj1 (Forall_forall _ _) Hsm p). rewrite HV. set_solver. }
    destruct (next_delay_exact _ _ Hsp Hnow) as (d & E' & Hd).
    apply bind_ok in E' as (d0 & -> & E'). injection E' as E'. bind_simpl. cbv zeta. rewrite E'.
    eexists _, d, w', V', F'. split_and!; try done. intros _. by exists p.
Qed.

Lemma timer_heap_poll_delay_witness :
  exists n d w', timer_heap_poll 64 inert (mkTime 6 0) true world2 = Ok (n, Some d, w').
Proof.
  destruct inv2 as (V & F & Hi & HV).
  destruct (timer_heap_poll_delay world2 V F (mkTime 6 0) Hi) as (n & d & w' & _ & _ & E & _);
    [vm_compute; discriminate|unfold small; cbn; lia| |exists n, d, w'; exact E].
  rewrite HV. apply Forall_cons. split; [|apply Forall_singleton].
  - change (val (mem world2) 20) with (mkTime 5 0). unfold small. cbn. lia.
  - change (val (mem world2) 10) with (mkTime 9 0). unfold small. cbn. lia.
Defined.

(** The first slot is an earliest entry: [timer_heap_earlist_time] returns
    the least of the scheduled times, and aborts on an empty heap. *)
Theorem timer_heap_earliest w V F : inv w V F ->
  match V with
  | [] => timer_heap_earlist_time w = AssertFail 718
  | _ => exists p, p ∈ V /\ timer_heap_earlist_time w = Ok (0, val (mem w) p) /\
      forall q, q ∈ V -> tle (val (mem w) p) (val (mem w) q)
  end.
Proof.
  intros Hi. unfold timer_heap_earlist_time. pose proof (iv_cur _ _ _ Hi) as Hc. destruct V as [|x V].
  - rewrite Hc. done.
  - rewrite Hc. cbn [length Nat.eqb negb c_assert]. bind_simpl.
    destruct (head_value w (x :: V) F Hi) as (p & e & Hp & _ & -> & Hmin); [done|]. bind_simpl.
    exists p. split_and!; try done. by eapply list_elem_of_lookup_2.
Qed.

Lemma timer_heap_earliest_witness : timer_heap_earlist_time world2 = Ok (0, mkTime 5 0).
Proof.
  destruct inv2 as (V & F & Hi & HV). pose proof (timer_heap_earliest world2 V F Hi) as H.
  destruct V as [|x V]; [apply Permutation_nil_l in HV; discriminate HV|].
  destruct H as (p & Hp & E & Hmin). rewrite HV in Hp.
  assert (p = 20) as ->; [|exact E].
  apply elem_of_cons in Hp as [->|Hp]; [reflexivity|]. apply list_elem_of_singleton in Hp as ->.
  specialize (Hmin 20 ltac:(rewrite HV; set_solver)). vm_compute in Hmin. destruct Hmin as [H|[H _]]; discriminate H.
Defined.

End TimerApi.
