(* ===== verification/Base58.v ===== *)
(** * Base 58

    src/src/common/base58.c: the text form of addresses and identifiers. The
    encoder converts base 256 to base 58 in place with the shortcut over the
    leading zeros of its buffer, the decoder multiplies an array of 32-bit words.
    Both are shown to compute the number the bytes stand for, and decoding
    inverts encoding. *)

From Stdlib Require Import ZArith Lia.
From stdpp Require Import prelude list.
From S2P Require Import Prelude.

Module Base58.

(** "123456789ABCDEFGHJKLMNPQRSTUVWXYZabcdefghijkmnopqrstuvwxyz" *)
Definition b58digits_ordered : list Z :=
  [49;50;51;52;53;54;55;56;57;
   65;66;67;68;69;70;71;72;74;75;76;77;78;80;81;82;83;84;85;86;87;88;89;90;
   97;98;99;100;101;102;103;104;105;106;107;109;110;111;112;113;114;115;116;117;118;119;120;121;122].

Definition b58digits_map : list Z :=
  [-1;-1;-1;-1;-1;-1;-1;-1; -1;-1;-1;-1;-1;-1;-1;-1;
   -1;-1;-1;-1;-1;-1;-1;-1; -1;-1;-1;-1;-1;-1;-1;-1;
   -1;-1;-1;-1;-1;-1;-1;-1; -1;-1;-1;-1;-1;-1;-1;-1;
   -1; 0; 1; 2; 3; 4; 5; 6;  7; 8;-1;-1;-1;-1;-1;-1;
   -1; 9;10;11;12;13;14;15; 16;-1;17;18;19;20;21;-1;
   22;23;24;25;26;27;28;29; 30;31;32;-1;-1;-1;-1;-1;
   -1;33;34;35;36;37;38;39; 40;41;42;43;-1;44;45;46;
   47;48;49;50;51;52;53;54; 55;56;57;-1;-1;-1;-1;-1].

(** The number of leading elements equal to [x]. *)
Fixpoint leading (x : Z) (l : bytes) : nat :=
  match l with
  | y :: l => if y =? x then S (leading x l) else O
  | [] => O
  end.

(** ** Encoder *)

(** The loop over the buffer, from position [j] down. *)
Fixpoint encode_inner (fuel : nat) (buf : list Z) (j high carry : Z) : outcome (list Z * Z) :=
  if (high <? j) || negb (carry =? 0) then
    match znth buf j with
    | None => Undef
    | Some d =>
        let carry := carry + 256 * d in
        let buf := <[Z.to_nat j := carry mod 58]> buf in
        match fuel with
        | O => NoFuel
        | S fuel => encode_inner fuel buf (j - 1) high (carry / 58)
        end
    end
  else Ok (buf, j).

(** The loop over the bytes. *)
Fixpoint encode_bytes (bin : bytes) (size : Z) (buf : list Z) (high : Z) : outcome (list Z) :=
  match bin with
  | [] => Ok buf
  | b :: bin =>
      r ← encode_inner (Z.to_nat size) buf (size - 1) high b;
      encode_bytes bin size (fst r) (snd r)
  end.

(** The bytes written to [text], or [None] when the function returns [NULL], and
    [*textlen] afterwards. *)
Definition base58_encode (data : bytes) (textlen : Z) : outcome (option bytes * Z) :=
  let zcount := leading 0 data in
  let size := (zlen data - Z.of_nat zcount) * 138 / 100 + 1 in
  buf ← encode_bytes (drop zcount data) size (replicate (Z.to_nat size) 0) (size - 1);
  let j := leading 0 buf in
  let needed := Z.of_nat zcount + size - Z.of_nat j in
  if textlen <=? needed then Ok (None, needed + 1)
  else
    match mapM (znth b58digits_ordered) (drop j buf) with
    | None => Undef
    | Some digits => Ok (Some (replicate zcount 49 ++ digits ++ [0]), needed + 1)
    end.

(** ** Decoder *)

(** One digit: [outi = outi * 58 + c], from the last word to the first. *)
Definition decode_step (outi : list Z) (c : Z) : list Z * Z :=
  foldr (fun w '(acc, c) =>
    let t := w * 58 + c in
    (Z.land t 0xffffffff :: acc, Z.shiftr (Z.land t 0x3f00000000) 32)) ([], c) outi.

(** [None] is [return -1]. *)
Fixpoint decode_digits (text : bytes) (zeromask : Z) (outi : list Z) : outcome (option (list Z)) :=
  match text with
  | [] => Ok (Some outi)
  | ch :: text =>
      if negb (Z.land ch 0x80 =? 0) then Ok None
      else match znth b58digits_map ch with
      | None => Undef
      | Some v =>
          if v =? -1 then Ok None
          else
            let '(outi, c) := decode_step outi v in
            if negb (c =? 0) then Ok None
            else match outi with
            | [] => Undef
            | w :: _ =>
                if negb (Z.land w zeromask =? 0) then Ok None
                else decode_digits text zeromask outi
            end
      end
  end.

Definition word_bytes (w : Z) : bytes :=
  [Z.land (Z.shiftr w 24) 0xff; Z.land (Z.shiftr w 16) 0xff;
   Z.land (Z.shiftr w 8) 0xff; Z.land w 0xff].

(** The bytes written to [data]. *)
Definition decode_output (left : Z) (outi : list Z) : outcome bytes :=
  if left =? 0 then Ok (outi ≫= word_bytes)
  else match outi with
  | [] => Undef
  | w :: rest =>
      let first :=
        (if left =? 3 then [Z.shiftr (Z.land w 0xff0000) 16] else []) ++
        (if 2 <=? left then [Z.shiftr (Z.land w 0xff00) 8] else []) ++ [Z.land w 0xff] in
      Ok (first ++ (rest ≫= word_bytes))
  end.

Definition outisz (datalen : Z) : Z := (datalen + 3) / 4.
Definition bytesleft (datalen : Z) : Z := datalen mod 4.
Definition zeromask (datalen : Z) : Z :=
  if bytesleft datalen =? 0 then 0 else u32 (Z.shiftl 0xffffffff (bytesleft datalen * 8)).

(** [text] is the memory at the pointer; the result is the return value and,
    unless it is -1, the bytes written to [data]. *)
Definition base58_decode (text : bytes) (textlen datalen : Z) : outcome (Z * option bytes) :=
  len ← (if textlen =? 0 then
           match list_find (fun c => c = 0) text with Some (i, _) => Ok (Z.of_nat i) | None => Undef end
         else if textlen <=? zlen text then Ok textlen else Undef);
  let text := ztake len text in
  let zerocount := leading 49 text in
  r ← decode_digits (drop zerocount text) (zeromask datalen) (replicate (Z.to_nat (outisz datalen)) 0);
  match r with
  | None => Ok (-1, None)
  | Some outi =>
      data ← decode_output (bytesleft datalen) outi;
      Ok (datalen - Z.of_nat (leading 0 data) + Z.of_nat zerocount, Some data)
  end.

(** ** Numbers in a base, most significant digit first *)

Definition bval (B : Z) (l : list Z) : Z := foldl (fun a d => a * B + d) 0 l.

Definition digits_ok (B : Z) (l : list Z) : Prop := Forall (fun d => 0 <= d < B) l.

Lemma bval_acc B l a : foldl (fun a d => a * B + d) a l = a * B ^ zlen l + bval B l.
Proof.
  unfold bval. revert a. induction l as [|d l IH]; intros a; cbn [foldl].
  { rewrite zlen_nil, Z.pow_0_r. lia. }
  rewrite IH, (IH (0 * B + d)), zlen_cons, Z.pow_add_r, Z.pow_1_r by (pose proof (zlen_nonneg l); lia). lia.
Qed.

Lemma bval_app B l k : bval B (l ++ k) = bval B l * B ^ zlen k + bval B k.
Proof. unfold bval at 1. rewrite foldl_app. apply bval_acc. Qed.

Lemma bval_cons B d l : bval B (d :: l) = d * B ^ zlen l + bval B l.
Proof. unfold bval at 1. cbn [foldl]. rewrite bval_acc. lia. Qed.

Lemma bval_snoc B l d : bval B (l ++ [d]) = bval B l * B + d.
Proof. rewrite bval_app. change (zlen [d]) with 1. rewrite Z.pow_1_r. reflexivity. Qed.

Lemma bval_range B l : 1 < B -> digits_ok B l -> 0 <= bval B l < B ^ zlen l.
Proof.
  intros HB. induction l as [|d l IH]; intros Hd; [change (0 <= 0 < 1); lia|].
  apply Forall_cons in Hd as [Hd Hl]. specialize (IH Hl). rewrite bval_cons, zlen_cons.
  rewrite Z.pow_add_r, Z.pow_1_r by (pose proof (zlen_nonneg l); lia). nia.
Qed.

Lemma bval_zeros B n : bval B (replicate n 0) = 0.
Proof. induction n as [|n IH]; [done|]. cbn [replicate]. rewrite bval_cons, IH. lia. Qed.

(** Digits of a given number are unique. *)
Lemma bval_inj B l k : 1 < B -> digits_ok B l -> digits_ok B k -> length l = length k ->
  bval B l = bval B k -> l = k.
Proof.
  intros HB. revert k. induction l as [|d l IH]; intros [|e k] Hl Hk Hlen He; try done.
  apply Forall_cons in Hl as [Hd Hl]. apply Forall_cons in Hk as [Hek Hk]. cbn in Hlen.
  rewrite !bval_cons in He. assert (zlen l = zlen k) as Hz by (unfold zlen; lia). rewrite Hz in He.
  pose proof (bval_range B l HB Hl) as R1. pose proof (bval_range B k HB Hk) as R2. rewrite Hz in R1.
  assert (d = e) as -> by nia. f_equal. apply IH; [done|done|lia|lia].
Qed.

Lemma leading_spec x l : exists k, l = replicate (leading x l) x ++ k /\ hd_error k <> Some x /\ drop (leading x l) l = k.
Proof.
  induction l as [|y l (k & IH & Hh & Hd)]; [by exists []|]. cbn [leading].
  destruct (Z.eqb_spec y x) as [->|Hne].
  - exists k. cbn. split_and!; [by rewrite <- IH|done|done].
  - exists (y :: l). split_and!; [done| |done]. cbn. congruence.
Qed.

(** ** The encoder computes the number *)

Definition zeros (l : list Z) : Prop := l = replicate (length l) 0.

Lemma insert_middle (P S : list Z) d x : <[Z.to_nat (zlen P)  := x]> (P ++ d :: S) = P ++ x :: S.
Proof. unfold zlen. rewrite Nat2Z.id. rewrite insert_app_r_alt, Nat.sub_diag by lia. done. Qed.

Lemma znth_middle (P S : list Z) (d : Z) : znth (P ++ d :: S) (zlen P) = Some d.
Proof. rewrite znth_app. by rewrite (proj2 (Z.ltb_ge _ _)), Z.sub_diag by lia. Qed.

Lemma encode_inner_spec fuel : forall P S high carry T,
  (length P <= fuel)%nat -> digits_ok 58 (P ++ S) -> 0 <= carry < 256 -> -1 <= high ->
  zeros (ztake (high + 1) P) ->
  T = (bval 58 P * 256 + carry) * 58 ^ zlen S + bval 58 S -> T < 58 ^ (zlen P + zlen S) ->
  exists P' S', encode_inner fuel (P ++ S) (zlen P - 1) high carry = Ok (P' ++ S', zlen P' - 1) /\
    zeros P' /\ digits_ok 58 (P' ++ S') /\ length (P' ++ S') = length (P ++ S) /\ bval 58 (P' ++ S') = T.
Proof.
  induction fuel as [|fuel IH]; intros P S high carry T Hf Hd Hc Hh Hz HT HT'; cbn [encode_inner].
  all: destruct ((high <? zlen P - 1) || negb (carry =? 0)) eqn:E.
  2,4: apply orb_false_iff in E as [E1 E2]; apply negb_false_iff, Z.eqb_eq in E2; apply Z.ltb_ge in E1;
    rewrite ztake_all in Hz by lia; exists P, S; (split_and!; try done);
    rewrite HT, bval_app, Hz, bval_zeros, E2; lia.
  all: pose proof (zlen_nonneg S) as HS.
  all: assert (exists P0 d, P = P0 ++ [d]) as (P0 & d & ->).
  1,3: destruct (exists_last (l := P)) as (P0 & d & ->); [|eauto]; intros ->; change (zlen (@nil Z)) with 0 in *;
    rewrite (proj2 (Z.ltb_ge _ _)) in E by lia; cbn [orb] in E; apply negb_true_iff, Z.eqb_neq in E;
    rewrite Z.add_0_l in HT';
    apply Forall_app in Hd as [_ Hd]; pose proof (bval_range 58 S ltac:(lia) Hd);
    change (bval 58 []) with 0 in HT; pose proof (Z.pow_pos_nonneg 58 (zlen S)); nia.
  { rewrite length_app in Hf. cbn in Hf. lia. }
  rewrite <- app_assoc in *. cbn [app] in *. rewrite zlen_app in *. change (zlen [d]) with 1 in *.
  replace (zlen P0 + 1 - 1) with (zlen P0) in * by lia.
  rewrite znth_middle. cbv zeta. rewrite insert_middle.
  pose proof Hd as Hd'. apply Forall_app in Hd' as [Hd0 Hd1]. apply Forall_cons in Hd1 as [Hdd HdS].
  pose proof (Z.div_mod (carry + 256 * d) 58 ltac:(lia)) as Hdm.
  pose proof (Z.mod_pos_bound (carry + 256 * d) 58 ltac:(lia)) as Hmb.
  destruct (IH P0 ((carry + 256 * d) mod 58 :: S) high ((carry + 256 * d) / 58) T) as (P' & S' & E' & H1 & H2 & H3 & H4).
  - rewrite length_app in Hf. cbn in Hf. lia.
  - apply Forall_app. split; [done|]. apply Forall_cons. done.
  - split; [apply Z.div_pos; lia|]. apply Z.div_lt_upper_bound; lia.
  - done.
  - unfold zeros, ztake in *.
    rewrite take_app in Hz. unfold zeros in Hz. rewrite length_app, replicate_add in Hz.
    apply app_inj_1 in Hz as [Hz _]; [done|]. by rewrite length_replicate.
  - rewrite HT, bval_snoc, bval_cons, zlen_cons, Z.pow_add_r, Z.pow_1_r by lia. nia.
  - rewrite zlen_cons. rewrite Z.add_assoc. done.
  - exists P', S'. split_and!; try done. rewrite H3, !length_app. done.
Qed.

Lemma encode_bytes_spec bin : forall size P S,
  zeros P -> digits_ok 58 (P ++ S) -> Z.of_nat (length (P ++ S)) = size -> digits_ok 256 bin ->
  bval 58 (P ++ S) * 256 ^ zlen bin + bval 256 bin < 58 ^ size ->
  exists buf, encode_bytes bin size (P ++ S) (zlen P - 1) = Ok buf /\
    digits_ok 58 buf /\ Z.of_nat (length buf) = size /\
    bval 58 buf = bval 58 (P ++ S) * 256 ^ zlen bin + bval 256 bin.
Proof.
  induction bin as [|b bin IH]; intros size P S Hz Hd Hl Hb HT; cbn [encode_bytes].
  { exists (P ++ S). split_and!; try done. change (zlen (@nil Z)) with 0. change (bval 256 []) with 0.
    rewrite Z.pow_0_r. lia. }
  apply Forall_cons in Hb as [Hb Hbin]. pose proof (zlen_nonneg bin). pose proof (zlen_nonneg P).
  rewrite bval_cons, zlen_cons, Z.pow_add_r, Z.pow_1_r in * by lia.
  pose proof (bval_range 58 (P ++ S) ltac:(lia) Hd) as HR. pose proof (bval_range 256 bin ltac:(lia) Hbin) as HRb.
  assert (0 < 256 ^ zlen bin) as Hpos by (apply Z.pow_pos_nonneg; lia).
  destruct (encode_inner_spec (Z.to_nat size) (P ++ S) [] (zlen P - 1) b (bval 58 (P ++ S) * 256 + b))
    as (P' & S' & E & Hz' & Hd' & Hl' & Hv'); rewrite ?app_nil_r; try done; try lia.
  - rewrite Z.sub_add. by rewrite ztake_app_len.
  - change (zlen (@nil Z)) with 0. change (bval 58 []) with 0. rewrite Z.pow_0_r. lia.
  - change (zlen (@nil Z)) with 0. rewrite Z.add_0_r. unfold zlen at 1. rewrite Hl. nia.
  - rewrite app_nil_r in E. unfold zlen at 1 in E. rewrite Hl in E. rewrite E. bind_simpl. cbn [fst snd].
    rewrite app_nil_r in Hl'. destruct (IH size P' S') as (buf & -> & ? & ? & Hv); try done; try lia.
    exists buf. split_and!; try done. rewrite Hv, Hv'. nia.
Qed.

(** The buffer is large enough: 58 ^ 1.38 is above 256. *)
Lemma size_enough n : 0 <= n -> 256 ^ n <= 58 ^ (n * 138 / 100 + 1).
Proof.
  intros Hn. pose proof (Z.div_mod (n * 138) 100 ltac:(lia)). pose proof (Z.mod_pos_bound (n * 138) 100 ltac:(lia)).
  assert (0 <= n * 138 / 100) by (apply Z.div_pos; lia).
  assert ((256 ^ n) ^ 100 <= (58 ^ (n * 138 / 100 + 1)) ^ 100) as Hp.
  { rewrite <- !Z.pow_mul_r by lia. transitivity (58 ^ (138 * n)).
    - rewrite (Z.mul_comm n 100), (Z.pow_mul_r 256), (Z.pow_mul_r 58) by lia.
      apply Z.pow_le_mono_l. split; [lia|]. vm_compute. discriminate.
    - apply Z.pow_le_mono_r; lia. }
  destruct (Z.le_gt_cases (256 ^ n) (58 ^ (n * 138 / 100 + 1))) as [|Hgt]; [done|exfalso].
  pose proof (Z.pow_lt_mono_l (58 ^ (n * 138 / 100 + 1)) (256 ^ n) 100 ltac:(lia)) as Hlt.
  specialize (Hlt ltac:(split; [apply Z.pow_nonneg; lia|done])). lia.
Qed.

Lemma bval_lead B n l : bval B (replicate n 0 ++ l) = bval B l.
Proof. rewrite bval_app, bval_zeros. lia. Qed.

(** The digits of the encoder for [data]: no leading zero, and the same number. *)
Lemma encode_buffer data : digits_ok 256 data ->
  let size := (zlen data - Z.of_nat (leading 0 data)) * 138 / 100 + 1 in
  exists buf, encode_bytes (drop (leading 0 data) data) size (replicate (Z.to_nat size) 0) (size - 1) = Ok buf /\
    digits_ok 58 (drop (leading 0 buf) buf) /\ hd_error (drop (leading 0 buf) buf) <> Some 0 /\
    bval 58 (drop (leading 0 buf) buf) = bval 256 data /\
    zlen (drop (leading 0 buf) buf) = size - Z.of_nat (leading 0 buf).
Proof.
  intros Hd size. destruct (leading_spec 0 data) as (bin & HD & _ & ->).
  assert (digits_ok 256 bin) as Hb by (rewrite HD in Hd; apply Forall_app in Hd; tauto).
  assert (zlen data - Z.of_nat (leading 0 data) = zlen bin) as Hl
    by (rewrite HD at 1; rewrite zlen_app, zlen_replicate; lia).
  assert (0 < size) as Hs by (unfold size; rewrite Hl; pose proof (zlen_nonneg bin);
    assert (0 <= zlen bin * 138 / 100) by (apply Z.div_pos; lia); lia).
  assert (bval 256 bin < 58 ^ size) as Hfit.
  { unfold size. rewrite Hl. pose proof (size_enough (zlen bin) (zlen_nonneg bin)).
    pose proof (bval_range 256 bin ltac:(lia) Hb). lia. }
  destruct (encode_bytes_spec bin size (replicate (Z.to_nat size) 0) []) as (buf & E & Hdb & Hlb & Hvb);
    rewrite ?app_nil_r, ?length_replicate, ?bval_zeros, ?zlen_replicate in *; try done; try lia.
  - unfold zeros. by rewrite length_replicate.
  - apply Forall_replicate. lia.
  - rewrite Z2Nat.id in E by lia. exists buf. split; [done|].
    destruct (leading_spec 0 buf) as (D & HB & Hh & ->).
    split_and!; [|done| |].
    + rewrite HB in Hdb. apply Forall_app in Hdb. tauto.
    + rewrite HB, bval_lead in Hvb. rewrite Hvb. rewrite HD at 1. rewrite bval_lead. lia.
    + rewrite <- Hlb. change (Z.of_nat (length buf)) with (zlen buf). rewrite HB at 1.
      rewrite zlen_app, zlen_replicate. lia.
Qed.

(** ** The decoder computes the number *)

Lemma low_word t : 0 <= t -> Z.land t 0xffffffff = t mod 2 ^ 32.
Proof. intros. change 0xffffffff with (Z.ones 32). by rewrite Z.land_ones by lia. Qed.

Lemma high_word t : 0 <= t < 64 * 2 ^ 32 -> Z.shiftr (Z.land t 0x3f00000000) 32 = t / 2 ^ 32.
Proof.
  intros Ht. rewrite Z.shiftr_land. change (Z.shiftr 0x3f00000000 32) with (Z.ones 6).
  rewrite Z.land_ones, Z.shiftr_div_pow2 by lia. apply Z.mod_small.
  split; [apply Z.div_pos; lia|apply Z.div_lt_upper_bound; lia].
Qed.

Lemma decode_step_spec outi c : digits_ok (2 ^ 32) outi -> 0 <= c < 58 ->
  exists o' c', decode_step outi c = (o', c') /\ length o' = length outi /\ digits_ok (2 ^ 32) o' /\ 0 <= c' < 58 /\
    bval (2 ^ 32) outi * 58 + c = c' * (2 ^ 32) ^ zlen outi + bval (2 ^ 32) o'.
Proof.
  intros Ho Hc. unfold decode_step. induction outi as [|w outi IH]; cbn [foldr].
  { exists [], c. split_and!; try done; try lia. change (zlen (@nil Z)) with 0. rewrite Z.pow_0_r.
    change (bval (2 ^ 32) []) with 0. lia. }
  apply Forall_cons in Ho as [Hw Ho]. destruct (IH Ho) as (o' & c' & -> & Hl & Hd & Hc' & Hv).
  assert (0 <= w * 58 + c' < 64 * 2 ^ 32) as Ht by lia. rewrite low_word, high_word by lia.
  pose proof (Z.div_mod (w * 58 + c') (2 ^ 32) ltac:(lia)) as Hdm.
  pose proof (Z.mod_pos_bound (w * 58 + c') (2 ^ 32) ltac:(lia)) as Hm.
  eexists _, _. split; [reflexivity|]. split_and!.
  - cbn. by rewrite Hl.
  - apply Forall_cons. done.
  - apply Z.div_pos; lia.
  - apply Z.div_lt_upper_bound; lia.
  - rewrite !bval_cons, zlen_cons, Z.pow_add_r, Z.pow_1_r by (pose proof (zlen_nonneg outi); lia).
    assert (zlen o' = zlen outi) as -> by (unfold zlen; lia). nia.
Qed.

Lemma pow_words n : 0 <= n -> (2 ^ 32) ^ n = 256 ^ (4 * n).
Proof. intros. rewrite (Z.pow_mul_r 256) by lia. done. Qed.

(** A check of every number below [n]. *)
Lemma range_check (f : Z -> bool) n : forallb f (seqZ 0 n) = true -> forall x, 0 <= x < n -> f x = true.
Proof.
  intros H x Hx. apply (proj1 (forallb_forall _ _) H). apply elem_of_list_In || apply list_elem_of_In.
  apply elem_of_seqZ. lia.
Qed.

Lemma mask_test w k : 1 <= k <= 3 -> 0 <= w < 2 ^ 32 ->
  Z.land w (u32 (Z.shiftl 0xffffffff (k * 8))) = 0 <-> w < 256 ^ k.
Proof.
  intros Hk Hw. unfold u32.
  assert (forall j, 0 <= j -> Z.testbit (Z.shiftl 0xffffffff (k * 8) mod 2 ^ 32) j = (k * 8 <=? j) && (j <? 32)) as Hb.
  { intros j Hj. destruct (Z.ltb_spec j 32).
    - rewrite Z.mod_pow2_bits_low, Z.shiftl_spec by lia. change 0xffffffff with (Z.ones 32).
      destruct (Z.leb_spec (k * 8) j); [by rewrite Z.ones_spec_low by lia|by rewrite Z.testbit_neg_r by lia].
    - rewrite Z.mod_pow2_bits_high by lia. by rewrite andb_false_r. }
  assert (256 ^ k = 2 ^ (k * 8)) as -> by (rewrite Z.mul_comm; by rewrite Z.pow_mul_r by lia).
  split.
  - intros H. destruct (decide (w = 0)) as [->|Hne]; [lia|].
    apply Z.log2_lt_pow2; [lia|]. destruct (Z.le_gt_cases (k * 8) (Z.log2 w)) as [Hle|]; [exfalso|done].
    apply (f_equal (fun x => Z.testbit x (Z.log2 w))) in H.
    pose proof (Z.log2_nonneg w). pose proof (proj1 (Z.log2_lt_pow2 w 32 ltac:(lia)) ltac:(lia)).
    rewrite Z.land_spec, Hb, Z.bit_log2, Z.bits_0 in H by lia.
    by rewrite (proj2 (Z.leb_le _ _)), (proj2 (Z.ltb_lt _ _)) in H by lia.
  - intros Hlt. apply Z.bits_inj'. intros j Hj. rewrite Z.land_spec, Hb, Z.bits_0 by done.
    destruct (Z.leb_spec (k * 8) j); [|by rewrite andb_false_r].
    rewrite <- (Z.mod_small w (2 ^ (k * 8))) by lia. by rewrite Z.mod_pow2_bits_high by lia.
Qed.

(** The words, and the bytes in use of the first one. *)
Lemma datalen_split datalen : 0 < datalen -> 0 <= bytesleft datalen < 4 /\ 1 <= outisz datalen /\
  datalen = (if bytesleft datalen =? 0 then 4 * outisz datalen else 4 * (outisz datalen - 1) + bytesleft datalen).
Proof.
  intros Hdl. unfold outisz, bytesleft. pose proof (Z.div_mod datalen 4 ltac:(lia)). pose proof (Z.mod_pos_bound datalen 4 ltac:(lia)).
  pose proof (Z.div_mod (datalen + 3) 4 ltac:(lia)). pose proof (Z.mod_pos_bound (datalen + 3) 4 ltac:(lia)).
  destruct (Z.eqb_spec (datalen mod 4) 0); lia.
Qed.

Lemma fits_test datalen w rest : 0 < datalen -> digits_ok (2 ^ 32) (w :: rest) -> zlen (w :: rest) = outisz datalen ->
  Z.land w (zeromask datalen) = 0 <-> bval (2 ^ 32) (w :: rest) < 256 ^ datalen.
Proof.
  intros Hdl Hd Hl. destruct (datalen_split datalen Hdl) as (Hb & Ho & Hdat). unfold zeromask.
  pose proof (bval_range (2 ^ 32) (w :: rest) ltac:(lia) Hd) as HR. rewrite Hl in HR.
  revert Ho Hb Hl HR Hdat. generalize (outisz datalen) (bytesleft datalen).
  intros n k Ho Hb Hl HR. destruct (Z.eqb_spec k 0) as [E|E]; intros ->.
  - rewrite Z.land_0_r. rewrite <- pow_words by lia. split; [lia|done].
  - apply Forall_cons in Hd as [Hw Hr]. rewrite mask_test by lia.
    rewrite zlen_cons in Hl. assert (zlen rest = n - 1) as Hlr by lia.
    pose proof (bval_range (2 ^ 32) rest ltac:(lia) Hr) as HRr.
    rewrite bval_cons, Z.pow_add_r by lia. rewrite Hlr, pow_words in * by lia.
    assert (0 < 256 ^ k) by (apply Z.pow_pos_nonneg; lia).
    split; intros ?; nia.
Qed.

(** The digit of a character. *)
Definition digit_of (ch : Z) : option Z :=
  if 128 <=? ch then None else
  match znth b58digits_map ch with Some v => if v =? -1 then None else Some v | None => None end.

Lemma high_bit ch : 0 <= ch < 256 -> negb (Z.land ch 0x80 =? 0) = (128 <=? ch).
Proof.
  intros H. apply eqb_prop.
  apply (range_check (fun c => eqb (negb (Z.land c 0x80 =? 0)) (128 <=? c)) 256); [|lia].
  vm_compute. reflexivity.
Qed.

Lemma digit_of_spec ch v : digit_of ch = Some v -> 0 <= v < 58.
Proof.
  unfold digit_of. destruct (128 <=? ch); [done|]. destruct (znth b58digits_map ch) as [u|] eqn:E; [|done].
  destruct (Z.eqb_spec u (-1)); [done|]. intros [= <-].
  assert (Forall (fun x => -1 <= x < 58) b58digits_map) as HF by (vm_compute; repeat constructor; discriminate || done).
  unfold znth in E. destruct (ch <? 0); [done|]. pose proof (proj1 (Forall_lookup _ _) HF _ _ E) as H. cbn in H. lia.
Qed.

(** The characters are digits of a number that fits, or the result is an error. *)
Lemma decode_digits_spec datalen text : 0 < datalen -> Forall (fun c => 0 <= c < 256) text ->
  forall outi, digits_ok (2 ^ 32) outi -> zlen outi = outisz datalen -> bval (2 ^ 32) outi < 256 ^ datalen ->
  match mapM digit_of text with
  | None => decode_digits text (zeromask datalen) outi = Ok None
  | Some ds =>
      let N := bval (2 ^ 32) outi * 58 ^ zlen ds + bval 58 ds in
      if N <? 256 ^ datalen then
        exists o', decode_digits text (zeromask datalen) outi = Ok (Some o') /\ digits_ok (2 ^ 32) o' /\
          zlen o' = outisz datalen /\ bval (2 ^ 32) o' = N
      else decode_digits text (zeromask datalen) outi = Ok None
  end.
Proof.
  intros Hdl. induction text as [|ch text IH]; intros Hch outi Ho Hl Hv.
  { cbn. change (zlen (@nil Z)) with 0. rewrite Z.pow_0_r, Z.mul_1_r, Z.add_0_r.
    rewrite (proj2 (Z.ltb_lt _ _)) by lia. by exists outi. }
  apply Forall_cons in Hch as [Hch Htext]. cbn [mapM decode_digits]. rewrite high_bit by done.
  assert (digit_of ch = if 128 <=? ch then None else
    match znth b58digits_map ch with Some v => if v =? -1 then None else Some v | None => None end) as Hdg by done.
  destruct (Z.leb_spec 128 ch) as [H128|H128]; [by rewrite Hdg|].
  destruct (znth b58digits_map ch) as [v|] eqn:Ev.
  2: { exfalso. apply znth_None in Ev. change (zlen b58digits_map) with 128 in Ev. lia. }
  destruct (Z.eqb_spec v (-1)) as [|Hne]; [by rewrite Hdg|]. rewrite Hdg. cbn [mbind option_bind].
  pose proof (digit_of_spec ch v Hdg) as Hvr.
  destruct (decode_step_spec outi v Ho Hvr) as (o' & c' & -> & Hlo & Hdo & Hc' & Hval).
  assert (zlen o' = outisz datalen) as Hlo' by (unfold zlen in *; lia). rewrite Hl in Hval.
  destruct (datalen_split datalen Hdl) as (Hb & Hout & _).
  assert (forall ds, Forall (fun d => 0 <= d < 58) ds -> 256 ^ datalen <= bval (2 ^ 32) outi * 58 + v ->
    (bval (2 ^ 32) outi * 58 ^ zlen (v :: ds) + bval 58 (v :: ds) <? 256 ^ datalen) = false) as Hbig.
  { intros ds Hds Hge. apply Z.ltb_ge. rewrite bval_cons, zlen_cons, Z.pow_add_r, Z.pow_1_r by (pose proof (zlen_nonneg ds); lia).
    pose proof (bval_range 58 ds ltac:(lia) Hds). pose proof (Z.pow_pos_nonneg 58 (zlen ds) ltac:(lia) (zlen_nonneg ds)). nia. }
  assert (forall ds, mapM digit_of text = Some ds -> Forall (fun d => 0 <= d < 58) ds) as Hds.
  { intros ds Hm. apply mapM_Some_1 in Hm. clear -Hm. induction Hm; constructor; [by eapply digit_of_spec|done]. }
  destruct o' as [|w rest]; [change (zlen (@nil Z)) with 0 in Hlo'; lia|].
  pose proof (bval_range (2 ^ 32) (w :: rest) ltac:(lia) Hdo) as HR. rewrite Hlo' in HR.
  assert (256 ^ datalen <= (2 ^ 32) ^ outisz datalen) as Hcap.
  { rewrite pow_words by lia. apply Z.pow_le_mono_r; [lia|]. unfold outisz.
    pose proof (Z.div_mod (datalen + 3) 4 ltac:(lia)). pose proof (Z.mod_pos_bound (datalen + 3) 4 ltac:(lia)). lia. }
  destruct (Z.eqb_spec c' 0) as [->|Hc0]; cbn [negb].
  2: { destruct (mapM digit_of text) as [ds|] eqn:Em; cbn [mbind option_bind mret option_ret]; [|done]. rewrite Hbig; [done|auto|nia]. }
  pose proof (fits_test datalen w rest Hdl Hdo Hlo') as Hfit.
  destruct (Z.eqb_spec (Z.land w (zeromask datalen)) 0) as [Ez|Ez]; cbn [negb].
  2: { destruct (mapM digit_of text) as [ds|] eqn:Em; cbn [mbind option_bind mret option_ret]; [|done]. rewrite Hbig; [done|auto|].
       destruct (Z.le_gt_cases (256 ^ datalen) (bval (2 ^ 32) (w :: rest))) as [|Hlt]; [lia|]. by apply Hfit in Hlt. }
  apply Hfit in Ez. specialize (IH Htext (w :: rest) Hdo Hlo' Ez).
  destruct (mapM digit_of text) as [ds|] eqn:Em; cbn [mbind option_bind mret option_ret]; [|done]. cbv zeta in *.
  assert (bval (2 ^ 32) outi * 58 ^ zlen (v :: ds) + bval 58 (v :: ds) =
    bval (2 ^ 32) (w :: rest) * 58 ^ zlen ds + bval 58 ds) as ->; [|exact IH].
  rewrite (bval_cons 58), zlen_cons, Z.pow_add_r, Z.pow_1_r by (pose proof (zlen_nonneg ds); lia). nia.
Qed.

(** ** The bytes written *)

Lemma byte_of w k : 0 <= w -> 0 <= k -> Z.land (Z.shiftr w k) 0xff = w / 2 ^ k mod 256.
Proof. intros. change 0xff with (Z.ones 8). rewrite Z.land_ones, Z.shiftr_div_pow2 by lia. done. Qed.

Lemma low_byte w : Z.land w 0xff = w mod 256.
Proof. change 0xff with (Z.ones 8). by rewrite Z.land_ones by lia. Qed.

Lemma masked_byte w k : 0 <= w -> 0 <= k -> Z.shiftr (Z.land w (Z.shiftl 0xff k)) k = w / 2 ^ k mod 256.
Proof.
  intros. rewrite Z.shiftr_land, Z.shiftr_shiftl_l, Z.sub_diag, Z.shiftl_0_r by lia. by apply byte_of.
Qed.

Lemma div_step w a b : 0 < a -> 0 < b -> w / a = w / (a * b) * b + w / a mod b.
Proof. intros. rewrite <- Z.div_div by lia. pose proof (Z.div_mod (w / a) b ltac:(lia)). lia. Qed.

Lemma word_bytes_spec w : 0 <= w < 2 ^ 32 -> bval 256 (word_bytes w) = w /\ digits_ok 256 (word_bytes w).
Proof.
  intros Hw. unfold word_bytes. rewrite !byte_of, low_byte by lia.
  split; [|repeat (apply Forall_cons_2; [apply Z.mod_pos_bound; lia|]); apply Forall_nil_2].
  unfold bval. cbn [foldl].
  pose proof (div_step w 1 256 ltac:(lia) ltac:(lia)) as E0. pose proof (div_step w 256 256 ltac:(lia) ltac:(lia)) as E1.
  pose proof (div_step w 65536 256 ltac:(lia) ltac:(lia)) as E2. rewrite Z.div_1_r in E0.
  change (1 * 256) with 256 in E0. change (256 * 256) with 65536 in E1. change (65536 * 256) with 16777216 in E2.
  change (2 ^ 24) with 16777216. change (2 ^ 16) with 65536. change (2 ^ 8) with 256.
  rewrite (Z.mod_small (w / 16777216)); [lia|]. split; [apply Z.div_pos; lia|apply Z.div_lt_upper_bound; lia].
Qed.

Lemma words_bytes_spec outi : digits_ok (2 ^ 32) outi ->
  bval 256 (outi ≫= word_bytes) = bval (2 ^ 32) outi /\ digits_ok 256 (outi ≫= word_bytes) /\
  zlen (outi ≫= word_bytes) = 4 * zlen outi.
Proof.
  induction outi as [|w outi IH]; intros Ho; [split_and!; [done|apply Forall_nil_2|done]|]. apply Forall_cons in Ho as [Hw Ho].
  destruct (IH Ho) as (H1 & H2 & H3). destruct (word_bytes_spec w Hw) as [W1 W2].
  change ((w :: outi) ≫= word_bytes) with (word_bytes w ++ (outi ≫= word_bytes)).
  rewrite bval_app, bval_cons, zlen_app, zlen_cons, H1, H3, W1. change (zlen (word_bytes w)) with 4.
  split_and!; [|by apply Forall_app|lia]. rewrite <- pow_words by apply zlen_nonneg. done.
Qed.

Definition first_bytes (left w : Z) : bytes :=
  (if left =? 3 then [Z.shiftr (Z.land w 0xff0000) 16] else []) ++
  (if 2 <=? left then [Z.shiftr (Z.land w 0xff00) 8] else []) ++ [Z.land w 0xff].

Lemma first_bytes_spec k w : 1 <= k <= 3 -> 0 <= w < 256 ^ k ->
  bval 256 (first_bytes k w) = w /\ digits_ok 256 (first_bytes k w) /\ zlen (first_bytes k w) = k.
Proof.
  intros Hk Hw. unfold first_bytes.
  change 0xff0000 with (Z.shiftl 0xff 16). change 0xff00 with (Z.shiftl 0xff 8).
  rewrite !masked_byte, low_byte by lia.
  change (2 ^ 16) with 65536. change (2 ^ 8) with 256.
  pose proof (div_step w 1 256 ltac:(lia) ltac:(lia)) as E0. pose proof (div_step w 256 256 ltac:(lia) ltac:(lia)) as E1.
  rewrite Z.div_1_r in E0.
  change (1 * 256) with 256 in E0. change (256 * 256) with 65536 in E1.
  pose proof (Z.mod_pos_bound w 256 ltac:(lia)). pose proof (Z.mod_pos_bound (w / 256) 256 ltac:(lia)).
  pose proof (Z.mod_pos_bound (w / 65536) 256 ltac:(lia)).
  assert (k = 1 \/ k = 2 \/ k = 3) as [->|[->| ->]] by lia; cbn [Z.eqb Z.leb Z.compare Pos.eqb Pos.compare Pos.compare_cont app];
    (split_and!; [unfold bval; cbn [foldl]|repeat (apply Forall_cons_2; [lia|]); apply Forall_nil_2|done]).
  - change (256 ^ 1) with 256 in Hw. rewrite Z.mod_small by lia. lia.
  - change (256 ^ 2) with 65536 in Hw. rewrite (Z.mod_small (w / 256)); [lia|].
    split; [apply Z.div_pos; lia|apply Z.div_lt_upper_bound; lia].
  - change (256 ^ 3) with 16777216 in Hw. rewrite (Z.mod_small (w / 65536)); [lia|].
    split; [apply Z.div_pos; lia|apply Z.div_lt_upper_bound; lia].
Qed.

Lemma decode_output_spec datalen outi : 0 < datalen -> digits_ok (2 ^ 32) outi -> zlen outi = outisz datalen ->
  bval (2 ^ 32) outi < 256 ^ datalen ->
  exists data, decode_output (bytesleft datalen) outi = Ok data /\ digits_ok 256 data /\ zlen data = datalen /\
    bval 256 data = bval (2 ^ 32) outi.
Proof.
  intros Hdl Ho Hl Hv. destruct (datalen_split datalen Hdl) as (Hb & Hout & Hdat). unfold decode_output.
  destruct (Z.eqb_spec (bytesleft datalen) 0) as [E|E].
  { destruct (words_bytes_spec outi Ho) as (H1 & H2 & H3). eexists. split; [reflexivity|]. split_and!; try done. lia. }
  destruct outi as [|w rest]; [change (zlen (@nil Z)) with 0 in Hl; lia|].
  apply Forall_cons in Ho as [Hw Hr]. destruct (words_bytes_spec rest Hr) as (H1 & H2 & H3).
  rewrite zlen_cons in Hl. pose proof (bval_range (2 ^ 32) rest ltac:(lia) Hr) as HR.
  rewrite bval_cons in Hv. rewrite pow_words in * by apply zlen_nonneg.
  assert (256 ^ datalen = 256 ^ (4 * zlen rest) * 256 ^ bytesleft datalen) as Hpw
    by (rewrite <- Z.pow_add_r by lia; f_equal; lia).
  destruct (first_bytes_spec (bytesleft datalen) w ltac:(lia)) as (F1 & F2 & F3); [nia|].
  fold (first_bytes (bytesleft datalen) w). eexists. split; [reflexivity|]. split_and!.
  - by apply Forall_app.
  - rewrite zlen_app, F3, H3. lia.
  - rewrite bval_app, bval_cons, F1, H1, H3, pow_words by apply zlen_nonneg. done.
Qed.

(** ** The functions *)

(** The character of a digit. *)
Definition char_of (d : Z) : Z := default 0 (znth b58digits_ordered d).

Definition digit_check (d : Z) : bool :=
  match znth b58digits_ordered d with
  | Some c => match digit_of c with Some d' => d' =? d | None => false end &&
      (0 <? c) && (c <? 128) && Bool.eqb (c =? 49) (d =? 0)
  | None => false
  end.

Lemma digit_check_ok : forallb digit_check (seqZ 0 58) = true.
Proof. vm_compute. reflexivity. Qed.

Lemma digit_char d : 0 <= d < 58 ->
  znth b58digits_ordered d = Some (char_of d) /\ digit_of (char_of d) = Some d /\
  0 < char_of d < 128 /\ (char_of d = 49 <-> d = 0).
Proof.
  intros Hd.
  pose proof (range_check digit_check 58 digit_check_ok d Hd) as H.
  unfold digit_check, char_of in *. destruct (znth b58digits_ordered d) as [c|]; [|done]. change (default 0 (Some c)) with c.
  apply andb_true_iff in H as [[[H1 H2]%andb_true_iff H3]%andb_true_iff H4]. apply eqb_prop in H4.
  destruct (digit_of c) as [d'|]; [|done]. zify_tests. subst d'. split_and!; [done|done|lia|lia|].
  split; intros E; apply Z.eqb_eq; [rewrite <- H4|rewrite H4]; by apply Z.eqb_eq.
Qed.

Lemma digit_chars D : digits_ok 58 D ->
  mapM (znth b58digits_ordered) D = Some (char_of <$> D) /\ mapM digit_of (char_of <$> D) = Some D /\
  Forall (fun c => 0 < c < 128) (char_of <$> D).
Proof.
  induction D as [|d D IH]; intros Hd; [split_and!; [done|done|apply Forall_nil_2]|].
  apply Forall_cons in Hd as [Hd HD]. destruct (IH HD) as (H1 & H2 & H3).
  destruct (digit_char d Hd) as (C1 & C2 & C3 & _). cbn [mapM fmap list_fmap].
  rewrite C1, C2. cbn [mbind option_bind]. rewrite H1. change (list_fmap Z Z char_of D) with (char_of <$> D).
  rewrite H2. split_and!; [done|done|by apply Forall_cons_2].
Qed.

Lemma encode_ok data textlen : digits_ok 256 data ->
  exists D, digits_ok 58 D /\ hd_error D <> Some 0 /\ bval 58 D = bval 256 data /\
    let needed := Z.of_nat (leading 0 data) + zlen D in
    base58_encode data textlen =
      Ok (if textlen <=? needed then None
          else Some (replicate (leading 0 data) 49 ++ (char_of <$> D) ++ [0]), needed + 1).
Proof.
  intros Hd. destruct (encode_buffer data Hd) as (buf & E & HD & Hh & Hv & Hl).
  exists (drop (leading 0 buf) buf). split_and!; try done. cbv zeta. unfold base58_encode. rewrite E. bind_simpl.
  rewrite Hl. rewrite Z.add_sub_assoc.
  destruct (digit_chars _ HD) as (-> & _). by destruct (_ <=? _).
Qed.

(** [base58_encode] writes one '1' for each leading zero byte, then the
    base-58 digits of the number the bytes stand for, without leading zero, then
    a NUL, and sets [*textlen] to the length; the internal buffer never
    overflows. When the text does not fit it returns [NULL] and [*textlen] is
    the length needed. *)
Theorem base58_encode_spec data textlen : digits_ok 256 data ->
  exists D, digits_ok 58 D /\ hd_error D <> Some 0 /\ bval 58 D = bval 256 data /\
    let needed := Z.of_nat (leading 0 data) + zlen D in
    base58_encode data textlen =
      Ok (if textlen <=? needed then None
          else Some (replicate (leading 0 data) 49 ++ (char_of <$> D) ++ [0]), needed + 1).
Proof. apply encode_ok. Qed.

Lemma base58_encode_spec_witness :
  exists D, bval 58 D = 65281 /\
    base58_encode [0; 255; 1] 10 = Ok (if 10 <=? 1 + zlen D then None else Some (49 :: (char_of <$> D) ++ [0]), 1 + zlen D + 1).
Proof.
  destruct (base58_encode_spec [0; 255; 1] 10) as (D & _ & _ & Hv & E);
    [repeat (apply Forall_cons_2; [lia|]); apply Forall_nil_2|]. exists D. split; [exact Hv|exact E].
Defined.

Lemma decode_ok text datalen : 0 < datalen -> text <> [] -> Forall (fun c => 0 <= c < 256) text ->
  let z := leading 49 text in
  match mapM digit_of (drop z text) with
  | Some ds =>
      if bval 58 ds <? 256 ^ datalen then
        exists data, zlen data = datalen /\ digits_ok 256 data /\ bval 256 data = bval 58 ds /\
          forall rest, base58_decode (text ++ rest) (zlen text) datalen =
            Ok (datalen - Z.of_nat (leading 0 data) + Z.of_nat z, Some data)
      else forall rest, base58_decode (text ++ rest) (zlen text) datalen = Ok (-1, None)
  | None => forall rest, base58_decode (text ++ rest) (zlen text) datalen = Ok (-1, None)
  end.
Proof.
  intros Hdl Hne Hch z.
  assert (0 < zlen text) as Hz by (destruct text; [done|rewrite zlen_cons; pose proof (zlen_nonneg text); lia]).
  assert (forall rest, base58_decode (text ++ rest) (zlen text) datalen =
    (r ← decode_digits (drop z text) (zeromask datalen) (replicate (Z.to_nat (outisz datalen)) 0);
     match r with
     | None => Ok (-1, None)
     | Some outi => data ← decode_output (bytesleft datalen) outi;
         Ok (datalen - Z.of_nat (leading 0 data) + Z.of_nat z, Some data)
     end)) as Hrun.
  { intros rest. unfold base58_decode. rewrite (proj2 (Z.eqb_neq (zlen text) 0)) by lia.
    rewrite (proj2 (Z.leb_le _ _)) by zlen_lia. bind_simpl. by rewrite ztake_app_len. }
  destruct (datalen_split datalen Hdl) as (_ & Ho & _).
  pose proof (decode_digits_spec datalen (drop z text) Hdl ltac:(by apply Forall_drop)
    (replicate (Z.to_nat (outisz datalen)) 0)) as Hspec.
  rewrite bval_zeros, zlen_replicate in Hspec.
  specialize (Hspec ltac:(apply Forall_replicate; lia) ltac:(lia) ltac:(apply Z.pow_pos_nonneg; lia)).
  destruct (mapM digit_of (drop z text)) as [ds|]; [|intros rest; rewrite Hrun, Hspec; done].
  cbv zeta in Hspec. rewrite Z.mul_0_l, Z.add_0_l in Hspec.
  destruct (Z.ltb_spec (bval 58 ds) (256 ^ datalen)) as [Hlt|Hge]; [|intros rest; rewrite Hrun, Hspec; done].
  destruct Hspec as (o' & E & Hd & Hl & Hv).
  destruct (decode_output_spec datalen o' Hdl Hd Hl ltac:(lia)) as (data & Eo & D1 & D2 & D3).
  exists data. split_and!; [done|done|congruence|]. intros rest. rewrite Hrun, E. bind_simpl. rewrite Eo. done.
Qed.

(** [base58_decode] of a text that is not empty: when every character after
    the leading '1's is a base-58 digit and the number fits in [datalen] bytes, the
    bytes written are that number, big-endian over the whole buffer, and the
    result is their count without leading zeros plus the number of leading '1's;
    otherwise the result is -1. *)
Theorem base58_decode_spec text datalen : 0 < datalen -> text <> [] -> Forall (fun c => 0 <= c < 256) text ->
  let z := leading 49 text in
  match mapM digit_of (drop z text) with
  | Some ds =>
      if bval 58 ds <? 256 ^ datalen then
        exists data, zlen data = datalen /\ digits_ok 256 data /\ bval 256 data = bval 58 ds /\
          forall rest, base58_decode (text ++ rest) (zlen text) datalen =
            Ok (datalen - Z.of_nat (leading 0 data) + Z.of_nat z, Some data)
      else forall rest, base58_decode (text ++ rest) (zlen text) datalen = Ok (-1, None)
  | None => forall rest, base58_decode (text ++ rest) (zlen text) datalen = Ok (-1, None)
  end.
Proof. apply decode_ok. Qed.

(** The text "1l" has the character 'l', which is no digit. *)
Lemma base58_decode_spec_witness : base58_decode [49; 108] 2 4 = Ok (-1, None).
Proof.
  exact (base58_decode_spec [49; 108] 4 ltac:(lia) ltac:(discriminate)
    ltac:(repeat (apply Forall_cons_2; [lia|]); apply Forall_nil_2) []).
Defined.

Lemma leading_app x n l : hd_error l <> Some x -> leading x (replicate n x ++ l) = n.
Proof.
  intros Hh. induction n as [|n IH]; cbn.
  - destruct l as [|y l]; [done|]. cbn. destruct (Z.eqb_spec y x) as [->|]; [done|done].
  - by rewrite Z.eqb_refl, IH.
Qed.

(** Only the empty text of digits without leading zero is the number 0. *)
Lemma bval_nonzero B l : 1 < B -> digits_ok B l -> hd_error l <> Some 0 -> bval B l = 0 -> l = [].
Proof.
  intros HB. destruct l as [|d l]; intros Hd Hh Hv; [done|exfalso]. apply Forall_cons in Hd as [Hd Hl].
  rewrite bval_cons in Hv. pose proof (bval_range B l HB Hl).
  pose proof (Z.pow_pos_nonneg B (zlen l) ltac:(lia) (zlen_nonneg l)).
  cbn in Hh. assert (d <> 0) by congruence. nia.
Qed.

(** The text without its NUL. *)
Lemma encoded_text data D : digits_ok 256 data -> digits_ok 58 D -> hd_error D <> Some 0 -> bval 58 D = bval 256 data ->
  data <> [] ->
  let T := replicate (leading 0 data) 49 ++ (char_of <$> D) in
  T <> [] /\ leading 49 T = leading 0 data /\ drop (leading 49 T) T = char_of <$> D /\
  zlen T = Z.of_nat (leading 0 data) + zlen D /\ Forall (fun c => 0 <= c < 256) T.
Proof.
  intros Hd HD Hh Hv Hne T. destruct (digit_chars D HD) as (_ & HmD & HcD).
  assert (hd_error (char_of <$> D) <> Some 49) as Hh49.
  { destruct D as [|d D]; [done|]. apply Forall_cons in HD as [Hd0 _]. cbn in *. intros [= E].
    apply (digit_char d Hd0) in E. congruence. }
  assert (leading 49 T = leading 0 data) as HlT by (by apply leading_app).
  split_and!; [|done| | |].
  - intros HT. apply app_eq_nil in HT as [HT1 HT2]. apply fmap_nil_inv in HT2. subst D.
    change (bval 58 []) with 0 in Hv. apply (f_equal length) in HT1. rewrite length_replicate in HT1. cbn in HT1.
    destruct (leading_spec 0 data) as (k & HDk & Hk & _). rewrite HT1 in HDk. cbn in HDk. subst k.
    by apply Hne, (bval_nonzero 256).
  - rewrite HlT. unfold T. apply drop_app_length'. by rewrite length_replicate.
  - unfold T. rewrite zlen_app, zlen_replicate. unfold zlen. by rewrite length_fmap.
  - unfold T. apply Forall_app. split; [apply Forall_replicate; lia|].
    eapply Forall_impl; [exact HcD|]. cbn. lia.
Qed.

(** A buffer of this size is always enough. *)
Lemma encode_fits data textlen : digits_ok 256 data -> zlen data * 138 / 100 + 1 < textlen ->
  exists text n, base58_encode data textlen = Ok (Some text, n).
Proof.
  intros Hd Ht. destruct (encode_buffer data Hd) as (buf & E & HD & _). unfold base58_encode. rewrite E. bind_simpl.
  destruct (leading_spec 0 data) as (k & Hk & _). assert (zlen data = Z.of_nat (leading 0 data) + zlen k) as Hz
    by (rewrite Hk at 1; rewrite zlen_app, zlen_replicate; done).
  pose proof (zlen_nonneg k). set (z := Z.of_nat (leading 0 data)) in *.
  assert (z + (zlen data - z) * 138 / 100 <= zlen data * 138 / 100) as Hle.
  { rewrite <- Z.div_add_l by lia. apply Z.div_le_mono; lia. }
  rewrite (proj2 (Z.leb_gt _ _)) by lia. destruct (digit_chars _ HD) as (-> & _). by do 2 eexists.
Qed.

(** The string that encodes some bytes: its text has no NUL and is decoded to the
    bytes whatever follows it. *)
Lemma encoded_string data textlen text n : digits_ok 256 data -> data <> [] ->
  base58_encode data textlen = Ok (Some text, n) ->
  exists T, text = T ++ [0] /\ zlen T = n - 1 /\ T <> [] /\ Forall (fun c => 0 < c < 256) T /\
    forall rest, base58_decode (T ++ rest) (zlen T) (zlen data) = Ok (zlen data, Some data).
Proof.
  intros Hd Hne. destruct (encode_ok data textlen Hd) as (D & HD & Hh & Hv & E). cbv zeta in E.
  rewrite E. clear E. destruct (_ <=? _); intros [= <- <-].
  assert (0 < zlen data) as Hz by (destruct data; [done|rewrite zlen_cons; pose proof (zlen_nonneg data); lia]).
  destruct (encoded_text data D Hd HD Hh Hv Hne) as (HTne & HlT & HdT & HzT & HcT).
  destruct (digit_chars D HD) as (_ & HmD & HcD).
  exists (replicate (leading 0 data) 49 ++ (char_of <$> D)). split; [by rewrite <- app_assoc|]. split; [lia|]. split; [done|]. split.
  - apply Forall_app. split; [apply Forall_replicate; lia|]. eapply Forall_impl; [exact HcD|]. cbn. lia.
  - revert HTne HlT HdT HcT. generalize (replicate (leading 0 data) 49 ++ (char_of <$> D)).
    intros T HTne HlT HdT HcT rest. pose proof (decode_ok T (zlen data) Hz HTne HcT) as Hdec. cbv zeta in Hdec. rewrite HdT, HmD in Hdec.
    pose proof (bval_range 256 data ltac:(lia) Hd). rewrite (proj2 (Z.ltb_lt _ _)) in Hdec by lia.
    destruct Hdec as (data' & Hl' & Hd' & Hv' & Hrun).
    assert (data' = data) as -> by (apply (bval_inj 256); [lia|done|done|unfold zlen in Hl'; lia|congruence]).
    rewrite Hrun, HlT. do 2 f_equal. lia.
Qed.

Lemma roundtrip_ok data textlen text n : digits_ok 256 data ->
  base58_encode data textlen = Ok (Some text, n) ->
  base58_decode text (n - 1) (zlen data) = Ok (zlen data, Some data).
Proof.
  intros Hd E. destruct (decide (data = [])) as [->|Hne].
  - destruct (encode_ok [] textlen Hd) as (D & HD & Hh & Hv & E'). cbv zeta in E'. rewrite E in E'.
    destruct (_ <=? _) in E'; [done|]. injection E' as -> ->. rewrite (bval_nonzero 58 D) by (done || lia). reflexivity.
  - destruct (encoded_string data textlen text n Hd Hne E) as (T & -> & <- & _ & _ & Hrun). apply Hrun.
Qed.

(** C37. Round trip: what [base58_encode] writes for some bytes,
    [base58_decode] turns back into those bytes, given a buffer of their number. *)
Theorem base58_roundtrip data textlen text n : digits_ok 256 data ->
  base58_encode data textlen = Ok (Some text, n) ->
  base58_decode text (n - 1) (zlen data) = Ok (zlen data, Some data).
Proof. apply roundtrip_ok. Qed.

Lemma base58_roundtrip_witness :
  match base58_encode [0; 255; 1] 10 with
  | Ok (Some text, n) => base58_decode text (n - 1) 3 = Ok (3, Some [0; 255; 1])
  | _ => False
  end.
Proof.
  refine (base58_roundtrip [0; 255; 1] 10 _ _ _ _);
    [repeat (apply Forall_cons_2; [lia|]); apply Forall_nil_2|vm_compute; reflexivity].
Defined.

End Base58.
