(* ===== verification/FlexBuffer.v ===== *)
(** * Flex buffers

    src/src/session/flex_buffer.h: a block with the payload at an offset, so
    that handlers of the stream pipeline add and take headers without copying.
    Sizes are [size_t]; the payload is the bytes from the offset on. *)

From Stdlib Require Import ZArith Lia.
From stdpp Require Import prelude list.
From S2P Require Import Prelude.

Module FlexBuffer.

Record FlexBuffer := mkFlex { capacity : Z; offset : Z; size : Z; buffer : bytes }.

Definition FLEX_PADDING_LEN : Z := 128.
Definition IOEX_MAX_USER_DATA_LEN : Z := 2048.
Definition FLEX_BUFFER_MAX_LEN : Z := FLEX_PADDING_LEN * 2 + IOEX_MAX_USER_DATA_LEN.

(** ** Operations *)

(** [flex_buffer (capacity, offset)]; the block holds [junk]. *)
Definition flex_buffer (junk : Z) (cap off : Z) : FlexBuffer :=
  mkFlex cap off 0 (malloc junk cap).

Definition flex_buffer_from (junk : Z) (off : Z) (src : bytes) (len : Z) : outcome FlexBuffer :=
  let cap := u64 (len + off) in
  data ← mem_read src 0 len;
  b ← mem_write (malloc junk cap) off data;
  Ok (mkFlex cap off len b).

Definition flex_buffer_init (block : bytes) (cap off : Z) : FlexBuffer := mkFlex cap off 0 block.

Definition flex_buffer_reset (buf : FlexBuffer) (off : Z) : FlexBuffer :=
  mkFlex (capacity buf) off 0 (buffer buf).

Definition flex_buffer_offset (buf : FlexBuffer) : Z := offset buf.

Definition flex_buffer_available (buf : FlexBuffer) : Z :=
  u64 (capacity buf - offset buf - size buf).

Definition flex_buffer_size (buf : FlexBuffer) : Z := size buf.

Definition flex_buffer_set_size (buf : FlexBuffer) (n : Z) : FlexBuffer :=
  mkFlex (capacity buf) (offset buf) n (buffer buf).

(** The bytes a caller reads and writes through [flex_buffer_ptr] and
    [flex_buffer_mutable_ptr], at distance [i] from the payload. *)
Definition flex_buffer_ptr (buf : FlexBuffer) (i n : Z) : outcome bytes :=
  mem_read (buffer buf) (offset buf + i) n.

Definition flex_buffer_mutable_ptr (buf : FlexBuffer) (i : Z) (src : bytes) : outcome FlexBuffer :=
  b ← mem_write (buffer buf) (offset buf + i) src;
  Ok (mkFlex (capacity buf) (offset buf) (size buf) b).

Definition flex_buffer_forward_offset (buf : FlexBuffer) (n : Z) : outcome FlexBuffer :=
  _ ← c_assert 168 (u64 (offset buf + n) <=? capacity buf);
  let n := if u64 (offset buf + n) <=? capacity buf then n
           else u64 (capacity buf - offset buf - 1) in
  Ok (mkFlex (capacity buf) (u64 (offset buf + n)) (u64 (size buf - n)) (buffer buf)).

Definition flex_buffer_backward_offset (buf : FlexBuffer) (n : Z) : outcome FlexBuffer :=
  _ ← c_assert 182 (n <=? offset buf);
  let n := if n <=? offset buf then n else offset buf in
  Ok (mkFlex (capacity buf) (u64 (offset buf - n)) (u64 (size buf + n)) (buffer buf)).

Definition flex_buffer_copy (dest src : FlexBuffer) : outcome FlexBuffer :=
  let len := u64 (capacity dest - offset dest) in
  let len := if size src <? len then size src else len in
  data ← mem_read (buffer src) 0 len;
  b ← mem_write (buffer dest) 0 data;
  Ok (mkFlex (capacity dest) (offset dest) len b).

(** [memcpy] of [len] bytes from the payload of [src] to the end of the payload
    of [dest]. *)
Definition append_bytes (dest src : FlexBuffer) (len : Z) : outcome FlexBuffer :=
  data ← mem_read (buffer src) (offset src) len;
  b ← mem_write (buffer dest) (u64 (offset dest + size dest)) data;
  Ok (mkFlex (capacity dest) (offset dest) (u64 (size dest + len)) b).

Definition flex_buffer_append (dest src : FlexBuffer) : outcome FlexBuffer :=
  let available := u64 (capacity dest - offset dest - size dest) in
  let len := if size src <? available then size src else available in
  append_bytes dest src len.

Definition flex_buffer_append2 (dest src : FlexBuffer) (len : Z) : outcome FlexBuffer :=
  let available := u64 (capacity dest - offset dest - size dest) in
  let len := if len <? available then len else available in
  append_bytes dest src len.

(** ** The payload *)

Definition payload (b : FlexBuffer) : bytes := ztake (size b) (zdrop (offset b) (buffer b)).

Record flex_wf (b : FlexBuffer) : Prop := {
  fw_off : 0 <= offset b;
  fw_size : 0 <= size b;
  fw_room : offset b + size b <= capacity b;
  fw_cap : zlen (buffer b) = capacity b;
  fw_bound : capacity b < 2 ^ 63;
}.

Lemma zlen_payload b : flex_wf b -> zlen (payload b) = size b.
Proof. intros []. unfold payload. rewrite zlen_ztake_le; [done|]. rewrite zlen_zdrop_le by lia. lia. Qed.

Lemma zdrop_ztake {A} n m (l : list A) : 0 <= n -> zdrop n (ztake m l) = ztake (m - n) (zdrop n l).
Proof.
  intros. unfold zdrop, ztake. rewrite skipn_firstn_comm. f_equal. lia.
Qed.

Lemma available_spec b : flex_wf b -> flex_buffer_available b = capacity b - offset b - size b.
Proof. intros []. unfold flex_buffer_available. apply u64_small. lia. Qed.

Lemma flex_buffer_wf junk cap off : 0 <= off <= cap -> cap < 2 ^ 63 ->
  flex_wf (flex_buffer junk cap off) /\ payload (flex_buffer junk cap off) = [].
Proof. intros. split; [|done]. split; cbn; try lia. rewrite zlen_malloc. lia. Qed.

(** Reading at the write position. *)
Lemma write_payload (blk : bytes) p src : 0 <= p -> p + zlen src <= zlen blk ->
  exists b, mem_write blk p src = Ok b /\ zlen b = zlen blk /\ ztake p b = ztake p blk /\
    ztake (zlen src) (zdrop p b) = src /\ zdrop (p + zlen src) b = zdrop (p + zlen src) blk.
Proof.
  intros Hp Hl. rewrite mem_write_ok by done. eexists. split; [reflexivity|].
  assert (zlen (ztake p blk) = p) as E by (apply zlen_ztake_le; pose proof (zlen_nonneg src); lia).
  split_and!.
  - zlen_lia.
  - by rewrite ztake_app_len.
  - rewrite zdrop_app_len by done. by rewrite ztake_app_len.
  - rewrite <- zdrop_zdrop by (try apply zlen_nonneg; lia). rewrite zdrop_app_len by done.
    by rewrite zdrop_app_len.
Qed.

Lemma flex_buffer_from_spec junk off src : 0 <= off -> off + zlen src < 2 ^ 63 ->
  exists b, flex_buffer_from junk off src (zlen src) = Ok b /\ flex_wf b /\ payload b = src /\
    offset b = off /\ capacity b = off + zlen src.
Proof.
  intros Ho Hl. pose proof (zlen_nonneg src). unfold flex_buffer_from. rewrite u64_small by lia.
  rewrite mem_read_ok by lia. bind_simpl. rewrite zdrop_0, ztake_all by lia.
  destruct (write_payload (malloc junk (zlen src + off)) off src) as (b & -> & Hb & _ & Hr & _);
    rewrite ?zlen_malloc; [lia|lia|]. bind_simpl. rewrite zlen_malloc in Hb.
  eexists. split; [reflexivity|]. split; [split; cbn; lia|]. split_and!; [exact Hr|done|cbn; lia].
Qed.

(** Taking a header off. *)
Lemma forward_spec b n : flex_wf b -> 0 <= n <= size b ->
  exists b', flex_buffer_forward_offset b n = Ok b' /\ flex_wf b' /\ payload b' = zdrop n (payload b) /\
    offset b' = offset b + n /\ size b' = size b - n /\ capacity b' = capacity b /\ buffer b' = buffer b.
Proof.
  intros [] Hn. unfold flex_buffer_forward_offset. rewrite !(u64_small (offset b + n)) by lia.
  rewrite (proj2 (Z.leb_le _ _)) by lia. cbn [c_assert]. bind_simpl.
  rewrite (u64_small (offset b + n)), (u64_small (size b - n)) by lia.
  eexists. split; [reflexivity|]. split; [split; cbn; lia|]. split_and!; try done.
  unfold payload. cbn. rewrite zdrop_ztake, zdrop_zdrop by lia. done.
Qed.

(** Making room for a header. *)
Lemma backward_spec b n : flex_wf b -> 0 <= n <= offset b ->
  exists b', flex_buffer_backward_offset b n = Ok b' /\ flex_wf b' /\ zdrop n (payload b') = payload b /\
    offset b' = offset b - n /\ size b' = size b + n /\ capacity b' = capacity b /\ buffer b' = buffer b.
Proof.
  intros [] Hn. unfold flex_buffer_backward_offset. rewrite (proj2 (Z.leb_le _ _)) by lia.
  cbn [c_assert]. bind_simpl. rewrite !u64_small by lia.
  eexists. split; [reflexivity|]. split; [split; cbn; lia|]. split_and!; try done.
  unfold payload. cbn. rewrite zdrop_ztake, zdrop_zdrop by lia. f_equal; [lia|f_equal; lia].
Qed.

(** Writing through the pointer at the front of the payload. *)
Lemma write_front_spec b src : flex_wf b -> zlen src <= size b ->
  exists b', flex_buffer_mutable_ptr b 0 src = Ok b' /\ flex_wf b' /\
    payload b' = src ++ zdrop (zlen src) (payload b) /\
    offset b' = offset b /\ size b' = size b /\ capacity b' = capacity b.
Proof.
  intros Hw Hl. pose proof Hw as []. pose proof (zlen_nonneg src). unfold flex_buffer_mutable_ptr. rewrite Z.add_0_r.
  destruct (write_payload (buffer b) (offset b) src) as (blk & -> & Hb & _ & Hr & Hd); [lia|lia|]. bind_simpl.
  eexists. split; [reflexivity|]. split; [split; cbn; lia|]. split_and!; try done.
  unfold payload. cbn. rewrite zdrop_ztake, zdrop_zdrop, <- Hd, <- zdrop_zdrop by lia.
  rewrite <- (ztake_zdrop (zlen src) (zdrop (offset b) blk)) at 1. rewrite Hr.
  unfold ztake. rewrite take_app. f_equal; [apply take_ge; unfold zlen in *; lia|]. f_equal. unfold zlen. lia.
Qed.

(** Reading and writing through the pointer, within the payload. *)
Lemma ptr_spec b i n : flex_wf b -> 0 <= i -> 0 <= n -> i + n <= size b ->
  flex_buffer_ptr b i n = Ok (ztake n (zdrop i (payload b))).
Proof.
  intros [] Hi Hn Hs. unfold flex_buffer_ptr. rewrite mem_read_ok by lia. f_equal. unfold payload.
  rewrite zdrop_ztake, zdrop_zdrop by lia. unfold ztake. rewrite take_take. f_equal. lia.
Qed.

Lemma ztake_ztake {A} n m (l : list A) : n <= m -> ztake n (ztake m l) = ztake n l.
Proof. intros. unfold ztake. rewrite take_take. f_equal. lia. Qed.

Lemma write_at_spec b i src : flex_wf b -> 0 <= i -> i + zlen src <= size b ->
  exists b', flex_buffer_mutable_ptr b i src = Ok b' /\ flex_wf b' /\
    payload b' = ztake i (payload b) ++ src ++ zdrop (i + zlen src) (payload b) /\
    offset b' = offset b /\ size b' = size b /\ capacity b' = capacity b.
Proof.
  intros Hw Hi Hl. pose proof Hw as []. pose proof (zlen_nonneg src). unfold flex_buffer_mutable_ptr.
  destruct (write_payload (buffer b) (offset b + i) src) as (blk & -> & Hb & Ht & Hr & Hd); [lia|lia|]. bind_simpl.
  eexists. split; [reflexivity|]. split; [split; cbn; lia|]. split_and!; try done.
  assert (zdrop (offset b) blk = ztake i (zdrop (offset b) (buffer b)) ++ src ++ zdrop (offset b + i + zlen src) (buffer b)) as E.
  { rewrite <- (ztake_zdrop i (zdrop (offset b) blk)). rewrite zdrop_zdrop by lia. f_equal.
    - apply (f_equal (zdrop (offset b))) in Ht. rewrite !zdrop_ztake in Ht by lia.
      by replace (offset b + i - offset b) with i in Ht by lia.
    - rewrite <- (ztake_zdrop (zlen src) (zdrop (offset b + i) blk)), Hr. f_equal. rewrite zdrop_zdrop by lia. exact Hd. }
  unfold payload. cbn. rewrite E, ztake_ztake by lia. rewrite (zdrop_ztake (i + zlen src)), zdrop_zdrop by lia.
  assert (zlen (ztake i (zdrop (offset b) (buffer b))) = i) as E1 by (apply zlen_ztake_le; rewrite zlen_zdrop_le by lia; lia).
  unfold ztake at 1. rewrite take_app, take_ge by (unfold zlen in *; lia). f_equal.
  rewrite take_app, take_ge by (unfold zlen in *; lia). f_equal. unfold ztake. f_equal; [unfold zlen, ztake in *; lia|f_equal; lia].
Qed.

Lemma append_bytes_spec d s len : flex_wf d -> flex_wf s -> 0 <= len <= size s ->
  len <= capacity d - offset d - size d ->
  exists d', append_bytes d s len = Ok d' /\ flex_wf d' /\ payload d' = payload d ++ ztake len (payload s) /\
    offset d' = offset d /\ size d' = size d + len /\ capacity d' = capacity d.
Proof.
  intros [] [] Hl Hr. unfold append_bytes. rewrite mem_read_ok by lia. bind_simpl.
  set (data := ztake len (zdrop (offset s) (buffer s))).
  assert (zlen data = len) as Hd by (apply zlen_ztake_le; rewrite zlen_zdrop_le by lia; lia).
  rewrite !u64_small by lia.
  destruct (write_payload (buffer d) (offset d + size d) data) as (blk & -> & Hb & Ht & Hdat & _); [lia|lia|].
  bind_simpl. eexists. split; [reflexivity|]. split; [split; cbn; lia|]. split_and!; try done.
  unfold payload. cbn. assert (ztake len (ztake (size s) (zdrop (offset s) (buffer s))) = data) as ->
    by (unfold data, ztake; rewrite take_take; f_equal; lia).
  rewrite <- Hdat, Hd. rewrite <- (ztake_zdrop (size d) (zdrop (offset d) blk)) at 1.
  rewrite zdrop_zdrop by lia.
  replace (ztake (size d) (zdrop (offset d) blk)) with (ztake (size d) (zdrop (offset d) (buffer d))).
  - unfold ztake at 1. rewrite take_app, take_ge.
    + f_equal. unfold ztake. f_equal. assert (zlen (ztake (size d) (zdrop (offset d) (buffer d))) = size d) as Hz
        by (apply zlen_ztake_le; rewrite zlen_zdrop_le by lia; lia). unfold zlen, ztake in Hz. lia.
    + assert (zlen (ztake (size d) (zdrop (offset d) (buffer d))) = size d) as Hz
        by (apply zlen_ztake_le; rewrite zlen_zdrop_le by lia; lia). unfold zlen, ztake in Hz. unfold ztake. lia.
  - apply (f_equal (zdrop (offset d))) in Ht. rewrite !zdrop_ztake in Ht by lia.
    by replace (offset d + size d - offset d) with (size d) in Ht by lia.
Qed.

Lemma append_spec d s : flex_wf d -> flex_wf s ->
  let n := Z.min (size s) (capacity d - offset d - size d) in
  exists d', flex_buffer_append d s = Ok d' /\ flex_wf d' /\ payload d' = payload d ++ ztake n (payload s) /\
    offset d' = offset d /\ size d' = size d + n /\ capacity d' = capacity d.
Proof.
  intros Hd Hs n. pose proof Hd as []. pose proof Hs as []. unfold flex_buffer_append. rewrite u64_small by lia.
  replace (if size s <? _ then _ else _) with n by (unfold n; case_cmp).
  apply append_bytes_spec; try done; lia.
Qed.

Lemma append2_spec d s len : flex_wf d -> flex_wf s -> 0 <= len <= size s ->
  len <= capacity d - offset d - size d ->
  exists d', flex_buffer_append2 d s len = Ok d' /\ flex_wf d' /\ payload d' = payload d ++ ztake len (payload s) /\
    offset d' = offset d /\ size d' = size d + len /\ capacity d' = capacity d.
Proof.
  intros Hd Hs Hl Hr. pose proof Hd as []. pose proof Hs as []. unfold flex_buffer_append2. rewrite u64_small by lia.
  replace (if len <? _ then _ else _) with len by case_cmp. by apply append_bytes_spec.
Qed.

Lemma reset_spec b off : flex_wf b -> 0 <= off <= capacity b ->
  flex_wf (flex_buffer_reset b off) /\ payload (flex_buffer_reset b off) = [].
Proof. intros [] Ho. split; [split; cbn; lia|done]. Qed.

End FlexBuffer.
