(* ===== verification/Crypto.v ===== *)
(** * Encryption of packets

    src/src/common/crypto.c and src/src/session/crypto_handler.c. The functions of
    libsodium are parameters, the class [Nacl], with their documented behaviour as
    the class [NaclLaws]; the handlers above and below in the stream's pipeline are
    functions on a state of their own, the class [CryptoEnv]. *)

From Stdlib Require Import ZArith Lia.
From stdpp Require Import prelude list.
From S2P Require Import Prelude Base58 FlexBuffer.

Module Crypto.

Notation FlexBuffer := FlexBuffer.FlexBuffer.
Notation payload := FlexBuffer.payload.
Notation flex_wf := FlexBuffer.flex_wf.

Definition SHA256_BYTES : Z := 32.
Definition NONCE_BYTES : Z := 24.
Definition SYMMETRIC_KEY_BYTES : Z := 32.
Definition MAC_BYTES : Z := 16.
Definition ZERO_BYTES : Z := 32.
Definition crypto_box_BOXZEROBYTES : Z := 16.

Definition zeros (n : Z) : bytes := replicate (Z.to_nat n) 0.

(** libsodium: a message, a nonce and a key. [None] is a result other than 0. *)
Class Nacl := {
  crypto_box_afternm : bytes -> bytes -> bytes -> option bytes;
  crypto_box_open_afternm : bytes -> bytes -> bytes -> option bytes;
  crypto_hash_sha256 : bytes -> bytes;
  crypto_auth_hmacsha256 : bytes -> bytes -> bytes;
}.

(** What NaCl documents: a message that starts with 32 zeroes is boxed to as many
    bytes, of which the first 16 are zeroes, and opens to itself; what opens starts
    with 32 zeroes; a digest has 32 bytes. *)
Class NaclLaws `{Nacl} := {
  box_opens m n k : zlen n = NONCE_BYTES -> zlen k = SYMMETRIC_KEY_BYTES -> 32 <= zlen m -> ztake 32 m = zeros 32 ->
    exists c, crypto_box_afternm m n k = Some c /\ zlen c = zlen m /\ ztake 16 c = zeros 16 /\
      crypto_box_open_afternm c n k = Some m;
  open_shape c n k m : crypto_box_open_afternm c n k = Some m -> zlen m = zlen c /\ ztake 32 m = zeros 32;
  hash_shape d : zlen (crypto_hash_sha256 d) = 32 /\ Forall (fun b => 0 <= b < 256) (crypto_hash_sha256 d);
  hmac_shape k d : zlen (crypto_auth_hmacsha256 k d) = 32 /\ Forall (fun b => 0 <= b < 256) (crypto_auth_hmacsha256 k d);
}.

Section Crypto.
Context `{NC : Nacl}.

(** ** Boxes

    [nonnull] is whether no pointer that is passed is [NULL]; the length is that of
    the bytes. The results are the return value and the output. *)

Definition crypto_encrypt (nonnull : bool) (key nonce plain : bytes) : Z * option bytes :=
  let length := zlen plain in
  if (length =? 0) || negb nonnull then (-1, None)
  else
    match crypto_box_afternm (zeros ZERO_BYTES ++ plain) nonce key with
    | None => (-1, None)
    | Some encrypted => (length + MAC_BYTES, Some (ztake (length + MAC_BYTES) (zdrop crypto_box_BOXZEROBYTES encrypted)))
    end.

Definition crypto_decrypt (nonnull : bool) (key nonce encrypted : bytes) : Z * option bytes :=
  let length := zlen encrypted in
  if (length <=? MAC_BYTES) || negb nonnull then (-1, None)
  else
    match crypto_box_open_afternm (zeros crypto_box_BOXZEROBYTES ++ encrypted) nonce key with
    | None => (-1, None)
    | Some plain => (length - MAC_BYTES, Some (ztake (length - MAC_BYTES) (zdrop ZERO_BYTES plain)))
    end.

(** [memset] of the first [n] bytes of the caller's buffer. *)
Definition memset0 (b : bytes) (n : Z) : outcome bytes := mem_write b 0 (zeros n).

(** In place: the results are the return value, the input buffer as the call leaves
    it, and the output. *)
Definition crypto_encrypt2 (nonnull : bool) (key nonce plain : bytes) : outcome (Z * bytes * option bytes) :=
  let length := zlen plain in
  if (length =? 0) || negb nonnull then Ok (-1, plain, None)
  else
    plain ← memset0 plain ZERO_BYTES;
    match crypto_box_afternm plain nonce key with
    | None => Ok (-1, plain, None)
    | Some encrypted => Ok (length, plain, Some encrypted)
    end.

Definition crypto_decrypt2 (nonnull : bool) (key nonce encrypted : bytes) : outcome (Z * bytes * option bytes) :=
  let length := zlen encrypted in
  if (length <=? ZERO_BYTES) || negb nonnull then Ok (-1, encrypted, None)
  else
    encrypted ← memset0 encrypted crypto_box_BOXZEROBYTES;
    match crypto_box_open_afternm encrypted nonce key with
    | None => Ok (-1, encrypted, None)
    | Some plain => Ok (length, encrypted, Some plain)
    end.

(** ** Digests *)

(** [sprintf (.., "%02x", b)] *)
Definition hex_digit (d : Z) : Z := if d <? 10 then 48 + d else 87 + d.
Definition hex (b : Z) : bytes := [hex_digit (b / 16); hex_digit (b mod 16)].

Definition sha256a (nonnull : bool) (data : bytes) (digestlen : Z) : option bytes :=
  if negb nonnull || (zlen data <=? 0) || (digestlen =? 0) || (digestlen <=? SHA256_BYTES * 2) then None
  else Some (concat (hex <$> crypto_hash_sha256 data) ++ [0]).

Definition sha256 (nonnull : bool) (data : bytes) (digestlen : Z) : Z * option bytes :=
  if negb nonnull || (zlen data <=? 0) || (digestlen =? 0) || (digestlen <? SHA256_BYTES) then (-1, None)
  else (SHA256_BYTES, Some (crypto_hash_sha256 data)).

Definition hmac_sha256 (nonnull : bool) (key msg : bytes) (digestlen : Z) : Z * option bytes :=
  if negb nonnull || (zlen key <=? 0) || (zlen msg <=? 0) || (digestlen =? 0) || (digestlen <? SHA256_BYTES) then (-1, None)
  else (SHA256_BYTES, Some (crypto_auth_hmacsha256 key msg)).

Definition hmac_sha256a (nonnull : bool) (key msg : bytes) (digestlen : Z) : option bytes :=
  if negb nonnull || (zlen key <=? 0) || (zlen msg <=? 0) || (digestlen =? 0) || (digestlen <=? SHA256_BYTES * 2) then None
  else
    match snd (hmac_sha256 true key msg SHA256_BYTES) with
    | Some result => Some (concat (hex <$> result) ++ [0])
    | None => None
    end.

(** ** Nonces as text *)

Definition crypto_nonce_to_str (nonnull : bool) (nonce : bytes) (len : Z) : outcome (option bytes) :=
  if negb nonnull || (len =? 0) then Ok None
  else r ← Base58.base58_encode (ztake NONCE_BYTES nonce) len; Ok (fst r).

(** The nonce that is returned, and the memory of the nonce, which is written even
    when the text has the wrong length. *)
Definition crypto_nonce_from_str (nonnull : bool) (nonce buf : bytes) (len : Z) : outcome (option bytes * bytes) :=
  if negb nonnull || (len =? 0) then Ok (None, nonce)
  else
    r ← Base58.base58_decode buf len NONCE_BYTES;
    let '(rc, data) := r in
    let nonce := default nonce data in
    Ok (if rc =? NONCE_BYTES then Some nonce else None, nonce).

(** ** The handler *)

Class CryptoEnv (E : Type) := {
  next_write : bytes -> E -> Z * E;
  prev_on_data : bytes -> E -> E;
}.

(** The session's key and nonce. *)
Record CryptoHandler := mkCrypto { key : bytes; nonce : bytes }.

Definition IOEXERR_ENCRYPT : Z := 0x15.

(** [IOEX_GENERAL_ERROR (code)] where the function returns a [ssize_t]: the macro's
    operand [0x80000000] makes it an [unsigned int], whose value 64 bits hold. *)
Definition general_error (code : Z) : Z :=
  Z.lor 0x80000000 (Z.lor (Z.shiftl 1 24) (Z.lor (Z.shiftr (Z.land code 0x80000000) 8) (Z.land code 0x7FFFFFFF))).

Context {E : Type} {CE : CryptoEnv E}.

(** The result, the buffer as the call leaves it, and the state below. *)
Definition crypto_handler_write (h : CryptoHandler) (buf : FlexBuffer) (e : E) : outcome (Z * FlexBuffer * E) :=
  let size := FlexBuffer.flex_buffer_size in
  _ ← c_assert 50 (ZERO_BYTES <=? FlexBuffer.flex_buffer_offset buf);
  let cipher_buf := FlexBuffer.flex_buffer 0 (u64 (size buf + FlexBuffer.FLEX_PADDING_LEN)) (FlexBuffer.FLEX_PADDING_LEN - ZERO_BYTES) in
  buf ← FlexBuffer.flex_buffer_backward_offset buf ZERO_BYTES;
  plain ← FlexBuffer.flex_buffer_ptr buf 0 (size buf);
  r ← crypto_encrypt2 true (key h) (nonce h) plain;
  let '(cipher_len, plain, cipher) := r in
  buf ← FlexBuffer.flex_buffer_mutable_ptr buf 0 plain;
  buf ← FlexBuffer.flex_buffer_forward_offset buf ZERO_BYTES;
  match cipher with
  | Some cipher =>
      cipher_buf ← FlexBuffer.flex_buffer_mutable_ptr cipher_buf 0 cipher;
      if cipher_len <=? 0 then Ok (general_error IOEXERR_ENCRYPT, buf, e)
      else
        let cipher_buf := FlexBuffer.flex_buffer_set_size cipher_buf cipher_len in
        cipher_buf ← FlexBuffer.flex_buffer_forward_offset cipher_buf (ZERO_BYTES - MAC_BYTES);
        data ← FlexBuffer.flex_buffer_ptr cipher_buf 0 (size cipher_buf);
        let '(written, e) := next_write data e in
        Ok (if u64 written =? size cipher_buf then size buf else written, buf, e)
  | None => Ok (general_error IOEXERR_ENCRYPT, buf, e)
  end.

Definition crypto_handler_on_rx_data (h : CryptoHandler) (buf : FlexBuffer) (e : E) : outcome (FlexBuffer * E) :=
  let size := FlexBuffer.flex_buffer_size in
  _ ← c_assert 93 (ZERO_BYTES - MAC_BYTES <=? FlexBuffer.flex_buffer_offset buf);
  let plain_buf := FlexBuffer.flex_buffer 0 (u64 (size buf + FlexBuffer.FLEX_PADDING_LEN))
                     (FlexBuffer.FLEX_PADDING_LEN - (ZERO_BYTES - MAC_BYTES)) in
  buf ← FlexBuffer.flex_buffer_backward_offset buf (ZERO_BYTES - MAC_BYTES);
  encrypted ← FlexBuffer.flex_buffer_ptr buf 0 (size buf);
  r ← crypto_decrypt2 true (key h) (nonce h) encrypted;
  let '(plain_len, encrypted, plain) := r in
  buf ← FlexBuffer.flex_buffer_mutable_ptr buf 0 encrypted;
  buf ← FlexBuffer.flex_buffer_forward_offset buf (ZERO_BYTES - MAC_BYTES);
  match plain with
  | Some plain =>
      plain_buf ← FlexBuffer.flex_buffer_mutable_ptr plain_buf 0 plain;
      if plain_len <=? 0 then Ok (buf, e)
      else
        let plain_buf := FlexBuffer.flex_buffer_set_size plain_buf plain_len in
        plain_buf ← FlexBuffer.flex_buffer_forward_offset plain_buf ZERO_BYTES;
        data ← FlexBuffer.flex_buffer_ptr plain_buf 0 (size plain_buf);
        Ok (buf, prev_on_data data e)
  | None => Ok (buf, e)
  end.

End Crypto.

End Crypto.
