(* ===== verification/CryptoThm.v ===== *)
(** * Encryption of packets: theorems

    Boxes open to what was put in, the handler hands up what its peer was given, and
    a nonce survives its textual form. *)

From Stdlib Require Import ZArith Lia.
From stdpp Require Import prelude list.
From S2P Require Import Prelude Base58 FlexBuffer Crypto.

Module CryptoThm.
Import Crypto.

Notation fsize := FlexBuffer.size.
Notation foff := FlexBuffer.offset.

Lemma zlen_zeros n : 0 <= n -> zlen (zeros n) = n.
Proof. intros. unfold zeros. rewrite zlen_replicate. lia. Qed.

Lemma memset0_spec b n : 0 <= n <= zlen b -> memset0 b n = Ok (zeros n ++ zdrop n b).
Proof. intros Hn. unfold memset0. rewrite mem_write_ok; rewrite ?zlen_zeros by lia; [|lia|lia]. by rewrite ztake_0. Qed.

Section Boxes.
Context `{NL : NaclLaws}.

(** Keys and nonces have their sizes. *)
Definition keys_ok (k n : bytes) : Prop := zlen k = SYMMETRIC_KEY_BYTES /\ zlen n = NONCE_BYTES.

Lemma zeros_front n m (b : bytes) : 0 <= n <= m -> ztake n (zeros m ++ b) = zeros n.
Proof.
  intros Hn. unfold ztake. rewrite take_app_le by (unfold zeros; rewrite length_replicate; lia).
  unfold zeros. rewrite take_replicate. f_equal. lia.
Qed.

(** What is behind the first [n] zeroes. *)
Lemma behind_zeros n (b : bytes) : 0 <= n -> zdrop n (zeros n ++ b) = b.
Proof. intros. apply zdrop_app_len, zlen_zeros. lia. Qed.

Lemma split_zeros n (b : bytes) : ztake n b = zeros n -> b = zeros n ++ zdrop n b.
Proof. intros <-. by rewrite ztake_zdrop. Qed.

Lemma box_ok k n (m : bytes) : keys_ok k n -> exists c, crypto_box_afternm (zeros ZERO_BYTES ++ m) n k = Some c /\
  zlen c = 32 + zlen m /\ c = zeros 16 ++ zdrop 16 c /\ crypto_box_open_afternm c n k = Some (zeros ZERO_BYTES ++ m).
Proof.
  intros [Hk Hn]. unfold ZERO_BYTES. pose proof (zlen_nonneg m).
  destruct (box_opens (zeros 32 ++ m) n k Hn Hk) as (c & Hc & Hl & Hz & Ho); [rewrite zlen_app, zlen_zeros; lia|by apply zeros_front|].
  exists c. split; [done|]. rewrite Hl, zlen_app, zlen_zeros by lia. split; [done|]. split; [by apply split_zeros|done].
Qed.

(** What [crypto_encrypt] makes of a message that is not empty, [crypto_decrypt]
    with the same key and nonce turns back into that message, whose length is 16
    bytes less; empty messages are refused. *)
Theorem crypto_round_trip k n plain : keys_ok k n ->
  match crypto_encrypt true k n plain with
  | (len, Some c) => plain <> [] /\ len = zlen plain + MAC_BYTES /\ zlen c = len /\ crypto_decrypt true k n c = (zlen plain, Some plain)
  | (len, None) => plain = [] /\ len = -1
  end.
Proof.
  intros Hk. unfold crypto_encrypt, crypto_decrypt. cbn [negb orb]. rewrite !orb_false_r.
  destruct (Z.eqb_spec (zlen plain) 0) as [Hz|Hz].
  { split; [|done]. destruct plain; [done|]. rewrite zlen_cons in Hz. pose proof (zlen_nonneg plain). lia. }
  pose proof (zlen_nonneg plain). destruct (box_ok k n plain Hk) as (c & -> & Hl & Hc & Ho).
  unfold MAC_BYTES, crypto_box_BOXZEROBYTES, ZERO_BYTES in *.
  assert (zlen (zdrop 16 c) = zlen plain + 16) as Hd by (rewrite zlen_zdrop_le; lia).
  rewrite ztake_all by lia. split; [intros ->; done|]. split; [done|]. split; [done|]. rewrite Hd.
  rewrite (proj2 (Z.leb_gt _ _)) by lia. rewrite <- Hc, Ho. rewrite behind_zeros by lia.
  rewrite Z.add_simpl_r, ztake_all by lia. done.
Qed.

(** ** Buffers of the handlers *)

(** Bytes are put into a new buffer and taken out behind the first [n]. *)
Lemma fill_spec cap off data n : 0 <= off -> off + zlen data <= cap -> cap < 2 ^ 63 -> 0 <= n <= zlen data ->
  exists b1 b2, FlexBuffer.flex_buffer_mutable_ptr (FlexBuffer.flex_buffer 0 cap off) 0 data = Ok b1 /\
    FlexBuffer.flex_buffer_forward_offset (FlexBuffer.flex_buffer_set_size b1 (zlen data)) n = Ok b2 /\
    fsize b2 = zlen data - n /\ FlexBuffer.flex_buffer_ptr b2 0 (fsize b2) = Ok (zdrop n data).
Proof.
  intros Ho Hc Hb Hn. pose proof (zlen_nonneg data). unfold FlexBuffer.flex_buffer_mutable_ptr. cbn [FlexBuffer.flex_buffer FlexBuffer.buffer FlexBuffer.offset].
  rewrite Z.add_0_r. destruct (FlexBuffer.write_payload (malloc 0 cap) off data) as (blk & -> & Hz & _ & Hr & _); [lia|rewrite zlen_malloc; lia|].
  rewrite zlen_malloc in Hz. bind_simpl. exists (FlexBuffer.mkFlex cap off 0 blk). set (b := FlexBuffer.flex_buffer_set_size _ _).
  assert (flex_wf b) as Hw by (split; cbn; lia). assert (payload b = data) as Hp by done.
  destruct (FlexBuffer.forward_spec b n Hw ltac:(cbn; lia)) as (b2 & E2 & Hw2 & Hp2 & _ & Hs2 & _ & _).
  exists b2. split; [reflexivity|]. split; [exact E2|]. split; [by rewrite Hs2|].
  rewrite FlexBuffer.ptr_spec by (done || apply Hw2 || lia). rewrite zdrop_0, ztake_all by (by rewrite FlexBuffer.zlen_payload). by rewrite Hp2, Hp.
Qed.

(** The room in front of the payload is used in place: the payload stays. *)
Lemma pad_spec buf n : flex_wf buf -> 0 <= n <= foff buf ->
  exists b1, FlexBuffer.flex_buffer_backward_offset buf n = Ok b1 /\ fsize b1 = fsize buf + n /\
    FlexBuffer.flex_buffer_ptr b1 0 (fsize b1) = Ok (payload b1) /\ zlen (payload b1) = fsize b1 /\ zdrop n (payload b1) = payload buf /\
    forall d, zlen d = fsize b1 -> zdrop n d = payload buf -> exists b2 b3,
      FlexBuffer.flex_buffer_mutable_ptr b1 0 d = Ok b2 /\ FlexBuffer.flex_buffer_forward_offset b2 n = Ok b3 /\
      flex_wf b3 /\ payload b3 = payload buf /\ foff b3 = foff buf /\ fsize b3 = fsize buf.
Proof.
  intros Hw Hn. pose proof Hw as [].
  destruct (FlexBuffer.backward_spec buf n Hw Hn) as (b1 & -> & Hw1 & Hp1 & Ho1 & Hs1 & _ & _). exists b1. split; [done|]. split; [done|].
  pose proof (FlexBuffer.zlen_payload b1 Hw1) as Hz1.
  split; [rewrite FlexBuffer.ptr_spec by (done || apply Hw1 || lia); by rewrite zdrop_0, ztake_all by lia|]. split; [done|]. split; [done|].
  intros d Hd Hdn. destruct (FlexBuffer.write_front_spec b1 d Hw1 ltac:(lia)) as (b2 & -> & Hw2 & Hp2 & Ho2 & Hs2 & _).
  rewrite zdrop_all, app_nil_r in Hp2 by lia.
  destruct (FlexBuffer.forward_spec b2 n Hw2 ltac:(lia)) as (b3 & E3 & Hw3 & Hp3 & Ho3 & Hs3 & _ & _).
  exists b2, b3. split_and!; try done; [congruence|lia|lia].
Qed.

(** ** The handlers *)

Context {E : Type} {CE : CryptoEnv E}.

(** What the handler above gets for a packet, if anything. *)
Definition handed_up (h : CryptoHandler) (rbuf : FlexBuffer) (e : E) (r : option bytes) : Prop :=
  exists rbuf', crypto_handler_on_rx_data h rbuf e = Ok (rbuf', match r with Some d => prev_on_data d e | None => e end).

Lemma rx_spec h rbuf e : flex_wf rbuf -> 16 <= foff rbuf -> fsize rbuf < 2 ^ 62 ->
  handed_up h rbuf e (if fsize rbuf <=? 16 then None
                      else zdrop 32 <$> crypto_box_open_afternm (zeros 16 ++ payload rbuf) (nonce h) (key h)).
Proof.
  intros Hw Ho Hs. unfold handed_up, crypto_handler_on_rx_data, FlexBuffer.flex_buffer_offset, FlexBuffer.flex_buffer_size, ZERO_BYTES, MAC_BYTES.
  change (32 - 16) with 16. rewrite (proj2 (Z.leb_le _ _)) by lia. cbn [c_assert]. bind_simpl.
  destruct (pad_spec rbuf 16 Hw ltac:(lia)) as (b1 & -> & Hs1 & Hptr & Hz1 & Hd1 & Hback). bind_simpl. rewrite Hptr. bind_simpl.
  unfold crypto_decrypt2, ZERO_BYTES, crypto_box_BOXZEROBYTES. cbn [negb]. rewrite orb_false_r, Hz1, Hs1. pose proof Hw as [].
  destruct (Z.leb_spec (fsize rbuf + 16) 32) as [Hle|Hgt].
  { bind_simpl. destruct (Hback (payload b1) Hz1 Hd1) as (b2 & b3 & -> & Hfw & _). bind_simpl. rewrite Hfw. bind_simpl.
    rewrite (proj2 (Z.leb_le _ _)) by lia. by exists b3. }
  rewrite (proj2 (Z.leb_gt _ _)) by lia. rewrite memset0_spec by lia. bind_simpl. rewrite Hd1.
  assert (zlen (zeros 16 ++ payload rbuf) = fsize rbuf + 16) as Hzc by (rewrite zlen_app, zlen_zeros, FlexBuffer.zlen_payload by (done || lia); lia).
  destruct (Hback (zeros 16 ++ payload rbuf)) as (b2 & b3 & E2 & E3 & _); [lia|apply behind_zeros; lia|].
  destruct (crypto_box_open_afternm (zeros 16 ++ payload rbuf) (nonce h) (key h)) as [m|] eqn:Eo; bind_simpl; rewrite E2; bind_simpl; rewrite E3; bind_simpl;
    [|by exists b3].
  destruct (open_shape _ _ _ _ Eo) as [Hlm _]. rewrite Hzc in Hlm.
  unfold FlexBuffer.FLEX_PADDING_LEN. rewrite u64_small by lia.
  destruct (fill_spec (fsize rbuf + 128) (128 - 16) m 32) as (b4 & b5 & E4 & E5 & Hs5 & E6); [lia|lia|lia|lia|].
  rewrite E4. bind_simpl. rewrite (proj2 (Z.leb_gt _ _)) by lia. rewrite <- Hlm, E5. bind_simpl. rewrite E6. bind_simpl. by exists b3.
Qed.

Lemma handler_write_spec h buf e : keys_ok (key h) (nonce h) -> flex_wf buf -> 32 <= foff buf -> fsize buf < 2 ^ 62 ->
  exists c buf', crypto_box_afternm (zeros ZERO_BYTES ++ payload buf) (nonce h) (key h) = Some (zeros 16 ++ c) /\ zlen c = fsize buf + 16 /\
    crypto_box_open_afternm (zeros 16 ++ c) (nonce h) (key h) = Some (zeros ZERO_BYTES ++ payload buf) /\
    crypto_handler_write h buf e =
      (let '(written, e') := next_write c e in Ok (if u64 written =? fsize buf + 16 then fsize buf else written, buf', e')) /\
    flex_wf buf' /\ payload buf' = payload buf /\ foff buf' = foff buf /\ fsize buf' = fsize buf.
Proof.
  intros Hk Hw Ho Hs. pose proof Hw as []. pose proof (FlexBuffer.zlen_payload buf Hw) as Hz.
  destruct (box_ok _ _ (payload buf) Hk) as (c & Hbox & Hlc & Hc & Hopen). rewrite Hc in Hbox, Hopen.
  assert (zlen (zdrop 16 c) = fsize buf + 16) as Hz16 by (rewrite zlen_zdrop_le; lia).
  exists (zdrop 16 c).
  unfold crypto_handler_write, FlexBuffer.flex_buffer_offset, FlexBuffer.flex_buffer_size, ZERO_BYTES, MAC_BYTES in *.
  rewrite (proj2 (Z.leb_le _ _)) by lia. cbn [c_assert]. bind_simpl.
  destruct (pad_spec buf 32 Hw ltac:(lia)) as (b1 & -> & Hs1 & Hptr & Hz1 & Hd1 & Hback). bind_simpl. rewrite Hptr. bind_simpl.
  unfold crypto_encrypt2, ZERO_BYTES. cbn [negb]. rewrite orb_false_r, Hz1, (proj2 (Z.eqb_neq _ _)) by lia.
  rewrite memset0_spec by lia. bind_simpl. rewrite Hd1, Hbox. bind_simpl.
  destruct (Hback (zeros 32 ++ payload buf)) as (b2 & b3 & -> & E3 & Hw3 & Hp3 & Ho3 & Hs3);
    [rewrite zlen_app, zlen_zeros; lia|apply behind_zeros; lia|]. bind_simpl. rewrite E3. bind_simpl.
  exists b3. split; [done|]. split; [done|]. split; [done|]. split; [|done].
  unfold FlexBuffer.FLEX_PADDING_LEN. rewrite u64_small by lia.
  assert (zlen (zeros 16 ++ zdrop 16 c) = fsize buf + 32) as Hzz by (rewrite <- Hc; lia).
  destruct (fill_spec (fsize buf + 128) (128 - 32) (zeros 16 ++ zdrop 16 c) 16) as (b4 & b5 & E4 & E5 & Hs5 & E6); [lia|lia|lia|lia|].
  rewrite E4. bind_simpl. rewrite (proj2 (Z.leb_gt _ _)) by lia. rewrite Hs1, <- Hzz. change (32 - 16) with 16. rewrite E5. bind_simpl. rewrite E6. bind_simpl.
  rewrite behind_zeros, Hs5, Hzz by lia. replace (fsize buf + 32 - 16) with (fsize buf + 16) by lia.
  destruct (next_write (zdrop 16 c) e) as [written e']. by rewrite Hs3.
Qed.

(** C13. The encryption of a stream is transparent: for a packet with room for the
    padding, [crypto_handler_write] hands exactly one packet down, 16 bytes longer,
    leaves the caller's payload as it was, and reports the payload's size when all
    of it was written; and [crypto_handler_on_rx_data] with the same key and nonce
    hands up exactly the payload for it, whatever the buffer it arrives in. A packet
    without payload is the exception: it is sent, and the receiver drops it. *)
Theorem crypto_handlers_transparent h buf e : keys_ok (key h) (nonce h) -> flex_wf buf -> 32 <= foff buf -> fsize buf < 2 ^ 61 ->
  exists c buf', zlen c = fsize buf + 16 /\
    crypto_handler_write h buf e =
      (let '(written, e') := next_write c e in Ok (if u64 written =? zlen c then fsize buf else written, buf', e')) /\
    payload buf' = payload buf /\ fsize buf' = fsize buf /\
    forall rbuf e', flex_wf rbuf -> 16 <= foff rbuf -> payload rbuf = c ->
      handed_up h rbuf e' (if fsize buf =? 0 then None else Some (payload buf)).
Proof.
  intros Hk Hw Ho Hs. destruct (handler_write_spec h buf e Hk Hw Ho ltac:(lia)) as (c & buf' & _ & Hc & Hopen & Hwr & _ & Hp & _ & Hs').
  exists c, buf'. split; [done|]. rewrite Hc. split; [done|]. split; [done|]. split; [done|].
  intros rbuf e' Hrw Hro Hrp. pose proof (FlexBuffer.zlen_payload rbuf Hrw) as Hrz. rewrite Hrp, Hc in Hrz.
  pose proof (rx_spec h rbuf e' Hrw Hro ltac:(lia)) as Hrx. rewrite Hrp, <- Hrz in Hrx. pose proof Hw as [].
  destruct (Z.eqb_spec (fsize buf) 0) as [Hz|Hz]; [by rewrite (proj2 (Z.leb_le _ _)) in Hrx by lia|].
  rewrite (proj2 (Z.leb_gt _ _)) in Hrx by lia. rewrite Hopen in Hrx. cbn in Hrx. unfold ZERO_BYTES in Hrx. by rewrite behind_zeros in Hrx by lia.
Qed.

(** Nothing that arrives makes the decryption fail: for any bytes, in a buffer
    with room for the padding, [crypto_handler_on_rx_data] returns, and either drops
    the packet or hands up a message 16 bytes shorter. *)
Theorem crypto_rx_total h rbuf e : flex_wf rbuf -> 16 <= foff rbuf -> fsize rbuf < 2 ^ 62 ->
  exists r, handed_up h rbuf e r /\ match r with Some d => zlen d = fsize rbuf - 16 | None => True end.
Proof.
  intros Hw Ho Hs. eexists. split; [by apply rx_spec|]. destruct (Z.leb_spec (fsize rbuf) 16); [done|].
  destruct (crypto_box_open_afternm _ _ _) as [m|] eqn:Eo; [|done]. cbn. destruct (open_shape _ _ _ _ Eo) as [Hl _].
  rewrite zlen_app, zlen_zeros, FlexBuffer.zlen_payload in Hl by (done || lia). rewrite zlen_zdrop_le; lia.
Qed.

(** When a message cannot be encrypted, [crypto_handler_write] sends nothing and
    returns the error code, which is a positive number: the macro of the code is an
    [unsigned int], and the handlers above, which test for a negative result, take
    it for success. *)
Theorem encrypt_failure_positive h buf e : flex_wf buf -> 32 <= foff buf -> fsize buf < 2 ^ 62 ->
  crypto_box_afternm (zeros ZERO_BYTES ++ payload buf) (nonce h) (key h) = None ->
  exists buf', crypto_handler_write h buf e = Ok (2164260885, buf', e).
Proof.
  intros Hw Ho Hs Hbox. pose proof Hw as []. pose proof (FlexBuffer.zlen_payload buf Hw) as Hz.
  unfold crypto_handler_write, FlexBuffer.flex_buffer_offset, FlexBuffer.flex_buffer_size, ZERO_BYTES in *.
  rewrite (proj2 (Z.leb_le _ _)) by lia. cbn [c_assert]. bind_simpl.
  destruct (pad_spec buf 32 Hw ltac:(lia)) as (b1 & -> & Hs1 & Hptr & Hz1 & Hd1 & Hback). bind_simpl. rewrite Hptr. bind_simpl.
  unfold crypto_encrypt2, ZERO_BYTES. cbn [negb]. rewrite orb_false_r, Hz1, (proj2 (Z.eqb_neq _ _)) by lia.
  rewrite memset0_spec by lia. bind_simpl. rewrite Hd1, Hbox. bind_simpl.
  destruct (Hback (zeros 32 ++ payload buf)) as (b2 & b3 & -> & E3 & _);
    [rewrite zlen_app, zlen_zeros; lia|apply behind_zeros; lia|]. bind_simpl. rewrite E3. bind_simpl. by exists b3.
Qed.

End Boxes.

(** ** Nonces as text *)

(** A nonce's textual form, which the session description carries, is read back as
    the nonce; a buffer of 35 bytes is always enough. *)
Theorem nonce_round_trip nonce old len : zlen nonce = NONCE_BYTES -> Forall (fun b => 0 <= b < 256) nonce -> 35 <= len ->
  exists text n, crypto_nonce_to_str true nonce len = Ok (Some text) /\ n <> 0 /\
    crypto_nonce_from_str true old text n = Ok (Some nonce, nonce).
Proof.
  intros Hz Hb Hl. unfold crypto_nonce_to_str, crypto_nonce_from_str. cbn [negb orb]. rewrite (proj2 (Z.eqb_neq len 0)) by lia.
  rewrite ztake_all by lia.
  destruct (Base58.encode_fits nonce len Hb) as (text & n & E); [rewrite Hz; unfold NONCE_BYTES; change (24 * 138 / 100) with 33; lia|].
  rewrite E. bind_simpl. exists text, (n - 1). split; [done|].
  pose proof (Base58.roundtrip_ok nonce len text n Hb E) as Hd.
  assert (n - 1 <> 0) as Hn.
  { intros Hn. destruct (Base58.encode_ok nonce len Hb) as (D & _ & _ & Hv & E'). cbv zeta in E'.
    rewrite E in E'. injection E' as _ ->. assert (Base58.leading 0 nonce = O /\ zlen D = 0) as [H1 H2] by (pose proof (zlen_nonneg D); lia).
    destruct D; [|rewrite zlen_cons in H2; pose proof (zlen_nonneg D); lia].
    destruct (Base58.leading_spec 0 nonce) as (k & Hk & Hhd & _). rewrite H1 in Hk. cbn in Hk. subst k.
    rewrite (Base58.bval_nonzero 256 nonce) in Hz by (done || lia). discriminate Hz. }
  split; [done|]. rewrite (proj2 (Z.eqb_neq _ _)) by done. rewrite Hz in Hd. rewrite Hd. bind_simpl. by rewrite Z.eqb_refl.
Qed.

(** ** At a concrete cipher *)

(** A cipher that satisfies the laws: the tag is the sum of the nonce, the key and
    the message, and the bytes are shifted by the first byte of the key. *)
Definition sum (b : bytes) : Z := foldr Z.add 0 b mod 256.
Definition shift (k : Z) (b : bytes) : bytes := (fun x => (x + k) mod 256) <$> b.
Definition tag (m n k : bytes) : bytes := replicate 16 (sum (n ++ k ++ m)).

Definition toy_box (m n k : bytes) : option bytes := Some (zeros 16 ++ tag (zdrop 32 m) n k ++ zdrop 32 m).
Definition toy_open (c n k : bytes) : option bytes :=
  let m := zdrop 32 c in
  if (32 <=? zlen c) && bool_decide (ztake 32 c = zeros 16 ++ tag m n k) then Some (zeros 32 ++ m) else None.

#[export] Instance toy : Nacl := {
  crypto_box_afternm := toy_box;
  crypto_box_open_afternm := toy_open;
  crypto_hash_sha256 d := replicate 32 (sum d);
  crypto_auth_hmacsha256 k d := replicate 32 (sum (k ++ d));
}.

Lemma digest_shape d : zlen (replicate 32 (sum d)) = 32 /\ Forall (fun b => 0 <= b < 256) (replicate 32 (sum d)).
Proof. split; [done|]. apply Forall_replicate. unfold sum. apply Z.mod_pos_bound. lia. Qed.

#[export] Instance toy_laws : NaclLaws.
Proof.
  split.
  - intros m n k _ _ Hl Hz. remember (tag (zdrop 32 m) n k) as t eqn:Et. exists (zeros 16 ++ t ++ zdrop 32 m). split; [by rewrite Et|].
    assert (zlen (zeros 16 ++ t) = 32) as Hzt by (by rewrite Et). change crypto_box_open_afternm with toy_open. rewrite app_assoc.
    split; [rewrite zlen_app, Hzt, zlen_zdrop_le; lia|]. split; [rewrite <- app_assoc; by apply zeros_front|].
    unfold toy_open. cbv zeta. rewrite (zdrop_app_len 32 (zeros 16 ++ t) (zdrop 32 m) Hzt), (ztake_app_len 32 (zeros 16 ++ t) _ Hzt), <- Et.
    rewrite bool_decide_eq_true_2 by done. rewrite (proj2 (Z.leb_le _ _)); [|rewrite zlen_app, Hzt; pose proof (zlen_nonneg (zdrop 32 m)); lia].
    cbn [andb]. by rewrite <- split_zeros.
  - intros c n k m. change crypto_box_open_afternm with toy_open. unfold toy_open. destruct (Z.leb_spec 32 (zlen c)); [|done]. cbn [andb]. case_bool_decide; [|done].
    intros Hm. assert (m = zeros 32 ++ zdrop 32 c) as -> by congruence. split; [rewrite zlen_app, zlen_zeros, zlen_zdrop_le by lia; lia|by apply zeros_front].
  - intros d. apply digest_shape.
  - intros k d. apply digest_shape.
Qed.

(** Below the handler: what was written; above: what was handed up. *)
Record ends := mkEnds { wire : list bytes; up : list bytes }.

#[export] Instance ends_env : CryptoEnv ends := {
  next_write d e := (zlen d, mkEnds (wire e ++ [d]) (up e));
  prev_on_data d e := mkEnds (wire e) (up e ++ [d]);
}.

Definition keys : CryptoHandler := mkCrypto (replicate 32 1) (replicate 24 2).
Definition buffer (off : nat) (d : bytes) : FlexBuffer := FlexBuffer.mkFlex (Z.of_nat off + zlen d) (Z.of_nat off) (zlen d) (replicate off 9 ++ d).
Definition no_ends : ends := mkEnds [] [].

Lemma buffer_ok off d : Z.of_nat off + zlen d < 2 ^ 60 -> flex_wf (buffer off d) /\ payload (buffer off d) = d.
Proof.
  intros H. pose proof (zlen_nonneg d). split; [split; cbn [FlexBuffer.offset FlexBuffer.size FlexBuffer.capacity FlexBuffer.buffer buffer]; try lia|].
  - rewrite zlen_app, zlen_replicate. lia.
  - unfold FlexBuffer.payload. cbn [FlexBuffer.offset FlexBuffer.size FlexBuffer.buffer buffer].
    rewrite zdrop_app_len by apply zlen_replicate. by apply ztake_all.
Qed.

Lemma crypto_round_trip_witness :
  match crypto_encrypt true (key keys) (nonce keys) [1; 2; 3] with
  | (len, Some c) => [1; 2; 3] <> [] /\ len = 3 + MAC_BYTES /\ zlen c = len /\ crypto_decrypt true (key keys) (nonce keys) c = (3, Some [1; 2; 3])
  | (len, None) => [1; 2; 3] = [] /\ len = -1
  end.
Proof. apply (crypto_round_trip (key keys) (nonce keys) [1; 2; 3]). by split. Defined.

Lemma crypto_handlers_transparent_witness :
  exists c buf', crypto_handler_write keys (buffer 128 [7; 8]) no_ends = Ok (2, buf', mkEnds [c] []) /\ zlen c = 18 /\
    handed_up keys (buffer 16 c) no_ends (Some [7; 8]).
Proof.
  destruct (buffer_ok 128 [7; 8]) as [Hw Hp]; [by vm_compute|].
  destruct (crypto_handlers_transparent keys (buffer 128 [7; 8]) no_ends) as (c & buf' & Hc & Hwr & _ & _ & Hup);
    [by split|exact Hw|by vm_compute|by vm_compute|].
  change (fsize (buffer 128 [7; 8])) with 2 in *. exists c, buf'. cbn in Hwr. rewrite Hc in Hwr. split; [exact Hwr|]. split; [exact Hc|].
  destruct (buffer_ok 16 c) as [Hrw Hrp]; [rewrite Hc; by vm_compute|]. rewrite <- Hp. apply (Hup (buffer 16 c) no_ends Hrw); [by vm_compute|exact Hrp].
Defined.

Lemma crypto_rx_total_witness : exists r, handed_up keys (buffer 16 [1; 2; 3]) no_ends r /\ match r with Some d => zlen d = -13 | None => True end.
Proof. apply (crypto_rx_total keys (buffer 16 [1; 2; 3]) no_ends); [apply buffer_ok; by vm_compute|by vm_compute|by vm_compute]. Defined.

(** A cipher that refuses messages, as libsodium does ones that are too long. *)
Definition refusing : Nacl := {|
  crypto_box_afternm m n k := None; crypto_box_open_afternm := toy_open;
  crypto_hash_sha256 d := replicate 32 (sum d); crypto_auth_hmacsha256 k d := replicate 32 (sum (k ++ d)) |}.

Lemma encrypt_failure_positive_witness :
  exists buf', crypto_handler_write (NC := refusing) keys (buffer 128 [7; 8]) no_ends = Ok (2164260885, buf', no_ends).
Proof. apply (encrypt_failure_positive (H := refusing)); [apply buffer_ok; by vm_compute|by vm_compute|by vm_compute|reflexivity]. Defined.

Lemma nonce_round_trip_witness : exists text n, crypto_nonce_to_str true (replicate 24 200) 48 = Ok (Some text) /\ n <> 0 /\
  crypto_nonce_from_str true [] text n = Ok (Some (replicate 24 200), replicate 24 200).
Proof. apply (nonce_round_trip (replicate 24 200) [] 48); [reflexivity|by apply Forall_replicate|lia]. Defined.

End CryptoThm.
