(* ===== verification/Pipeline.v ===== *)
(** * The handlers of a stream

    src/src/session/stream_handler.h and the part of src/src/session/session.c that
    builds a stream: handlers in a doubly linked chain, from the application's end
    down to the transport. *)

From Stdlib Require Import ZArith Lia.
From stdpp Require Import prelude gmap list.
From S2P Require Import Prelude.

Module Pipeline.

(** The links of a [StreamHandler]; its functions are constants of its kind. *)
Record StreamHandler := mkHandler { prev : Z; next : Z }.

Definition set_prev (a : Z) (h : StreamHandler) : StreamHandler := mkHandler a (next h).
Definition set_next (a : Z) (h : StreamHandler) : StreamHandler := mkHandler (prev h) a.

Notation store := (gmap Z StreamHandler).

Definition handler_at (p : Z) (st : store) : outcome StreamHandler :=
  match st !! p with Some h => Ok h | None => Undef end.

Definition update (p : Z) (f : StreamHandler -> StreamHandler) (st : store) : outcome store :=
  h ← handler_at p st; Ok (<[p := f h]> st).

Definition handler_connect (handler nxt : Z) (st : store) : outcome store :=
  h ← handler_at handler st;
  st ← update nxt (set_next (next h)) st;
  st ← update nxt (set_prev handler) st;
  h ← handler_at handler st;
  st ← (if nonzero (next h) then update (next h) (set_prev nxt) st else Ok st);
  update handler (set_next nxt) st.

Definition handler_disconnect (handler : Z) (st : store) : outcome (Z * store) :=
  h ← handler_at handler st;
  let nxt := next h in
  st ← (if nonzero (prev h) then update (prev h) (set_next (next h)) st else Ok st);
  h ← handler_at handler st;
  st ← (if nonzero (next h) then update (next h) (set_prev (prev h)) st else Ok st);
  st ← update handler (set_next 0) st;
  st ← update handler (set_prev 0) st;
  Ok (nxt, st).

(** ** Building the pipeline of a stream *)

Definition IOEX_STREAM_COMPRESS : Z := 0x01.
Definition IOEX_STREAM_PLAIN : Z := 0x02.
Definition IOEX_STREAM_RELIABLE : Z := 0x04.
Definition IOEX_STREAM_MULTIPLEXING : Z := 0x08.
Definition IOEX_STREAM_PORT_FORWARDING : Z := 0x10.

Record flags := mkFlags { compress : bool; unencrypt : bool; reliable : bool; multiplexing : bool; portforwarding : bool }.

Definition stream_flags (options : Z) : flags :=
  let has o := nonzero (Z.land options o) in
  mkFlags (has IOEX_STREAM_COMPRESS) (has IOEX_STREAM_PLAIN) (has IOEX_STREAM_RELIABLE)
    (has IOEX_STREAM_MULTIPLEXING || has IOEX_STREAM_PORT_FORWARDING) (has IOEX_STREAM_PORT_FORWARDING).

(** The results of the three [.._handler_create] calls, and where they put the
    handlers. *)
Record created := mkCreated { mux_rc : Z; mux : Z; reliable_rc : Z; rel : Z; crypto_rc : Z; crypto : Z }.

(** The connection of one layer below [above]: the result is negative when its
    creation failed, otherwise the new [prev] of the code. *)
Definition add_layer (wanted : bool) (rc handler above : Z) (st : store) : outcome (Z * Z * store) :=
  if negb wanted then Ok (0, above, st)
  else if rc <? 0 then Ok (rc, above, st)
  else st ← handler_connect above handler st; Ok (0, handler, st).

(** From [IOEX_session_add_stream]: the result, whether the session's encryption gets
    enabled, and the handlers. *)
Definition build_pipeline (f : flags) (c : created) (root : Z) (enabled : bool) (st : store) : outcome (Z * bool * store) :=
  r ← add_layer (multiplexing f) (mux_rc c) (mux c) root st;
  let '(rc, above, st) := r in
  if rc <? 0 then Ok (rc, enabled, st)
  else
    r ← add_layer (reliable f) (reliable_rc c) (rel c) above st;
    let '(rc, above, st) := r in
    if rc <? 0 then Ok (rc, enabled, st)
    else
      let enabled := enabled || negb (unencrypt f) in
      r ← add_layer (negb (unencrypt f)) (crypto_rc c) (crypto c) above st;
      let '(rc, above, st) := r in
      Ok (rc, enabled, st).

(** ** Chains *)

(** The handlers [l], linked both ways; [p] is what is above the first and [q] what is
    below the last. *)
Fixpoint seg (st : store) (p : Z) (l : list Z) (q : Z) : Prop :=
  match l with
  | [] => True
  | x :: l' => x <> 0 /\ st !! x = Some (mkHandler p (default q (hd_error l'))) /\ seg st x l' q
  end.

(** A whole pipeline, from its root. *)
Definition chain (st : store) (l : list Z) : Prop := NoDup l /\ seg st 0 l 0.

Lemma links_ext st st' l q : forall p, (forall x, x ∈ l -> st' !! x = st !! x) -> seg st p l q -> seg st' p l q.
Proof.
  induction l as [|x l IH]; intros p Heq; [done|]. intros (H0 & Hx & Hl). split; [done|].
  split; [rewrite Heq; [done|set_solver]|]. apply IH; [|done]. intros y Hy. apply Heq. set_solver.
Qed.

Lemma links_app st l1 l2 q : forall p, seg st p (l1 ++ l2) q <-> seg st p l1 (default q (hd_error l2)) /\ seg st (default p (last l1)) l2 q.
Proof.
  induction l1 as [|x l1 IH]; intros p; [cbn; tauto|]. cbn [app seg]. rewrite IH.
  replace (last (x :: l1)) with (Some (default x (last l1))) by (rewrite last_cons; by destruct (last l1)). cbn [default from_option].
  destruct l1 as [|y l1]; cbn; tauto.
Qed.

Lemma chain_handler st l1 x l2 : chain st (l1 ++ x :: l2) ->
  x <> 0 /\ st !! x = Some (mkHandler (default 0 (last l1)) (default 0 (hd_error l2))).
Proof. intros [_ Hs]. by apply links_app in Hs as [_ (H0 & Hx & _)]. Qed.

(** Two pipelines with a handler in common have the same root. *)
Lemma chain_root st p q x : forall l1 l2 l1' l2' hs hs', chain st (p :: hs) -> chain st (q :: hs') ->
  p :: hs = l1 ++ x :: l2 -> q :: hs' = l1' ++ x :: l2' -> p = q.
Proof.
  intros l1. revert x. induction l1 as [|y l1 IH] using rev_ind; intros x l2 l1' l2' hs hs' Hc Hc' E1 E2;
    pose proof Hc as Hp; pose proof Hc' as Hq; rewrite E1 in Hp; rewrite E2 in Hq;
    apply chain_handler in Hp as [Hx0 Hp]; apply chain_handler in Hq as [_ Hq]; rewrite Hp in Hq; injection Hq as Hprev _.
  - injection E1 as -> ->. destruct l1' as [|y l1' _] using rev_ind; [by injection E2|].
    rewrite last_snoc in Hprev. cbn in Hprev. rewrite <- app_assoc in E2. cbn in E2. rewrite E2 in Hc'.
    apply chain_handler in Hc' as [Hy _]. by subst y.
  - rewrite last_snoc in Hprev. cbn in Hprev. rewrite <- app_assoc in E1. cbn in E1.
    destruct l1' as [|y' l1' _] using rev_ind.
    { cbn in Hprev. rewrite E1 in Hc. apply chain_handler in Hc as [Hy _]. by subst y. }
    rewrite last_snoc in Hprev. cbn in Hprev. subst y'. rewrite <- app_assoc in E2. cbn in E2. by eapply (IH y).
Qed.

Lemma chain_disjoint st p q hs hs' : chain st (p :: hs) -> chain st (q :: hs') -> p <> q ->
  forall x, x ∈ p :: hs -> x ∉ q :: hs'.
Proof.
  intros H1 H2 Hne x (l1 & l2 & E1)%list_elem_of_split (l1' & l2' & E2)%list_elem_of_split. apply Hne. by eapply chain_root.
Qed.

(** A pipeline in a store that has the same links for its handlers. *)
Lemma chain_ext st st' l : chain st l -> (forall x, x ∈ l -> st' !! x = st !! x) -> chain st' l.
Proof. intros [Hnd Hs] Hx. split; [done|]. by apply (links_ext st). Qed.

Lemma chain_some st l x : chain st l -> x ∈ l -> x <> 0 /\ is_Some (st !! x).
Proof. intros Hc (l1 & l2 & ->)%list_elem_of_split. apply chain_handler in Hc as [H0 ->]. by split. Qed.

(** A handler has one pipeline below it. *)
Lemma chain_tail st p : forall hs hs', chain st (p :: hs) -> chain st (p :: hs') -> hs = hs'.
Proof.
  assert (forall hs hs' q x, seg st q (x :: hs) 0 -> seg st q (x :: hs') 0 -> hs = hs') as Hseg.
  { induction hs as [|y hs IH]; intros hs' q x (_ & Hx & Hs) (_ & Hx' & Hs'); rewrite Hx in Hx'; injection Hx' as Hy.
    - destruct hs' as [|y hs']; [done|]. destruct Hs' as (Hy0 & _). cbn in Hy. by subst y.
    - destruct hs' as [|y' hs']; [destruct Hs as (Hy0 & _); cbn in Hy; by subst y|]. cbn in Hy. subst y'.
      f_equal. by apply (IH hs' x y). }
  intros hs hs' [_ H1] [_ H2]. by apply (Hseg hs hs' 0 p).
Qed.

Lemma handler_at_ok st p h : st !! p = Some h -> handler_at p st = Ok h.
Proof. unfold handler_at. by intros ->. Qed.

Lemma update_ok st p h f : st !! p = Some h -> update p f st = Ok (<[p := f h]> st).
Proof. intros H. unfold update. by rewrite (handler_at_ok _ _ _ H). Qed.

(** The tests for [NULL] at the ends of the chain. *)
Definition link_prev (y a : Z) (st : store) : outcome store := if nonzero y then update y (set_prev a) st else Ok st.
Definition link_next (y a : Z) (st : store) : outcome store := if nonzero y then update y (set_next a) st else Ok st.

Lemma link_prev_seg st p a l : seg st p l 0 -> NoDup l -> exists st', link_prev (default 0 (hd_error l)) a st = Ok st' /\
  seg st' a l 0 /\ forall z, z ∉ l -> st' !! z = st !! z.
Proof.
  intros Hs Hnd. unfold link_prev. destruct l as [|y l]; [by exists st|]. destruct Hs as (H0 & Hy & Hl). apply NoDup_cons in Hnd as [Hyl _].
  change (default 0 (hd_error (y :: l))) with y. rewrite (nonzero_true y H0). rewrite (update_ok _ _ _ _ Hy). eexists. split; [reflexivity|].
  split; [|intros z Hz; rewrite lookup_insert_ne by set_solver; done].
  split; [done|]. split; [by rewrite lookup_insert_eq|]. apply (links_ext st); [|done]. intros x Hx. rewrite lookup_insert_ne by set_solver. done.
Qed.

Lemma link_next_seg st l q a : seg st 0 l q -> NoDup l -> exists st', link_next (default 0 (last l)) a st = Ok st' /\
  seg st' 0 l a /\ forall z, z ∉ l -> st' !! z = st !! z.
Proof.
  intros Hs Hnd. unfold link_next. destruct l as [|y l1 _] using rev_ind; [by exists st|]. rewrite last_snoc. apply links_app in Hs as [Hs1 (H0 & Hy & _)]. apply NoDup_app in Hnd as (Hnd & Hdis & _).
  change (default 0 (Some y)) with y. rewrite (nonzero_true y H0), (update_ok _ _ _ _ Hy). eexists. split; [reflexivity|].
  split; [|intros z Hz; rewrite lookup_insert_ne by set_solver; done].
  apply links_app. split; [apply (links_ext st); [intros x Hx; rewrite lookup_insert_ne by set_solver; done|done]|].
  split; [done|]. split; [by rewrite lookup_insert_eq|done].
Qed.

Lemma connect_spec st l1 x l2 n : chain st (l1 ++ x :: l2) -> n ∉ l1 ++ x :: l2 -> n <> 0 -> is_Some (st !! n) ->
  exists st', handler_connect x n st = Ok st' /\ chain st' (l1 ++ x :: n :: l2) /\
    forall z, z ∉ l1 ++ x :: n :: l2 -> st' !! z = st !! z.
Proof.
  intros [Hnd Hs] Hn Hn0 [h Hh]. apply links_app in Hs as [Hs1 (Hx0 & Hx & Hs2)]. cbn [hd_error default from_option] in Hs1.
  pose proof (proj1 (NoDup_app _ _) Hnd) as (Hnd1 & Hdis & [Hxl Hnd2]%NoDup_cons).
  unfold handler_connect. rewrite (handler_at_ok _ _ _ Hx). bind_simpl. cbn [next].
  rewrite (update_ok _ _ _ _ Hh). bind_simpl. rewrite (update_ok _ _ _ _ (lookup_insert_eq _ _ _)), insert_insert_eq. bind_simpl.
  set (b := default 0 (hd_error l2)). set (st1 := <[n := set_prev x (set_next b h)]> st).
  assert (x <> n) as Hxn by set_solver.
  rewrite (handler_at_ok st1 x (mkHandler (default 0 (last l1)) b)) by (by unfold st1; rewrite lookup_insert_ne). bind_simpl. cbn [next].
  destruct (link_prev_seg st1 x n l2) as (st2 & E2 & Hs2' & F2); [|done|].
  { apply (links_ext st); [|done]. intros z Hz. unfold st1. rewrite lookup_insert_ne by set_solver. done. }
  unfold link_prev in E2. fold b in E2. rewrite E2. bind_simpl.
  assert (st2 !! x = Some (mkHandler (default 0 (last l1)) b)) as Hx2 by (rewrite F2 by done; by unfold st1; rewrite lookup_insert_ne).
  rewrite (update_ok _ _ _ _ Hx2). eexists. split; [reflexivity|]. split; [split|].
  - rewrite NoDup_app, !NoDup_cons in *. set_solver.
  - apply links_app. split; [|split; [done|]; split; [by rewrite lookup_insert_eq|]; split; [done|]; split].
    + apply (links_ext st); [|done]. intros z Hz. rewrite lookup_insert_ne by set_solver. rewrite F2 by set_solver. unfold st1. rewrite lookup_insert_ne by set_solver. done.
    + rewrite lookup_insert_ne by done. rewrite F2 by set_solver. unfold st1. by rewrite lookup_insert_eq.
    + apply (links_ext st2); [|done]. intros z Hz. rewrite lookup_insert_ne by set_solver. done.
  - intros z Hz. rewrite lookup_insert_ne by set_solver. rewrite F2 by set_solver. unfold st1. rewrite lookup_insert_ne by set_solver. done.
Qed.

(** [handler_disconnect] takes a handler out of its pipeline: its neighbours are
    linked to each other, it has no links any more, and the handler that was below
    it is returned. *)
Theorem disconnect_takes_out st l1 x l2 : chain st (l1 ++ x :: l2) ->
  exists st', handler_disconnect x st = Ok (default 0 (hd_error l2), st') /\ chain st' (l1 ++ l2) /\ st' !! x = Some (mkHandler 0 0).
Proof.
  intros [Hnd Hs]. apply links_app in Hs as [Hs1 (Hx0 & Hx & Hs2)]. cbn [hd_error default from_option] in Hs1.
  pose proof (proj1 (NoDup_app _ _) Hnd) as (Hnd1 & Hdis & [Hxl Hnd2]%NoDup_cons).
  unfold handler_disconnect. rewrite (handler_at_ok _ _ _ Hx). bind_simpl. cbn [prev next].
  destruct (link_next_seg st l1 x (default 0 (hd_error l2)) Hs1 Hnd1) as (st1 & E1 & Hs1' & F1).
  unfold link_next in E1. rewrite E1. bind_simpl.
  assert (st1 !! x = Some (mkHandler (default 0 (last l1)) (default 0 (hd_error l2)))) as Hx1 by (rewrite F1 by set_solver; done).
  rewrite (handler_at_ok _ _ _ Hx1). bind_simpl. cbn [prev next].
  destruct (link_prev_seg st1 x (default 0 (last l1)) l2) as (st2 & E2 & Hs2' & F2); [|done|].
  { apply (links_ext st); [|done]. intros z Hz. apply F1. set_solver. }
  unfold link_prev in E2. rewrite E2. bind_simpl.
  assert (st2 !! x = Some (mkHandler (default 0 (last l1)) (default 0 (hd_error l2)))) as Hx2 by (rewrite F2 by done; done).
  rewrite (update_ok _ _ _ _ Hx2). bind_simpl. rewrite (update_ok _ _ _ _ (lookup_insert_eq _ _ _)), insert_insert_eq. bind_simpl.
  eexists. split; [reflexivity|]. split; [split|by rewrite lookup_insert_eq].
  - apply NoDup_app. set_solver.
  - apply links_app. split.
    + apply (links_ext st1); [|done]. intros z Hz. rewrite lookup_insert_ne by set_solver. rewrite F2 by set_solver. done.
    + apply (links_ext st2); [|done]. intros z Hz. rewrite lookup_insert_ne by set_solver. done.
Qed.

(** ** The pipeline that is built *)

(** The layers the options ask for, from the application down. *)
Definition layers (f : flags) (c : created) : list Z :=
  (if multiplexing f then [mux c] else []) ++ (if reliable f then [rel c] else []) ++ (if negb (unencrypt f) then [crypto c] else []).

Lemma layer_spec wanted n l1 x l2 st rc : chain st (l1 ++ x :: l2) -> 0 <= rc ->
  (wanted = true -> n ∉ l1 ++ x :: l2 /\ n <> 0 /\ is_Some (st !! n)) ->
  exists above st' l1', add_layer wanted rc n x st = Ok (0, above, st') /\ l1' ++ [above] = l1 ++ [x] ++ (if wanted then [n] else []) /\
    chain st' (l1' ++ above :: l2) /\ forall z, z ∉ l1 ++ x :: n :: l2 -> st' !! z = st !! z.
Proof.
  intros Hc Hrc Hn. unfold add_layer. destruct wanted; cbn [negb].
  - destruct (Hn eq_refl) as (H1 & H2 & H3). rewrite (proj2 (Z.ltb_ge _ _)) by lia.
    destruct (connect_spec st l1 x l2 n Hc H1 H2 H3) as (st' & -> & Hc' & F). bind_simpl.
    exists n, st', (l1 ++ [x]). split; [done|]. rewrite <- !app_assoc. done.
  - exists x, st, l1. split; [done|]. by rewrite app_nil_r.
Qed.

(** The pipeline of a stream: over the transport's handler, which is there when the
    stream is created, [IOEX_session_add_stream] puts the layers that the options ask
    for, in one order: the root, the multiplexer (also for port forwarding), the
    reliable layer, the encryption (unless the stream is plain), the transport. Every
    handler is linked to its neighbours in both directions, so that what is written
    goes down through each layer once and what arrives comes up through each once;
    and the session's encryption is enabled when the layer is there. *)
Theorem pipeline_order options c root ice enabled st : chain st [root; ice] ->
  0 <= mux_rc c -> 0 <= reliable_rc c -> 0 <= crypto_rc c ->
  NoDup [root; ice; mux c; rel c; crypto c] -> Forall (fun p => p <> 0 /\ is_Some (st !! p)) [mux c; rel c; crypto c] ->
  let f := stream_flags options in
  exists st', build_pipeline f c root enabled st = Ok (0, enabled || negb (unencrypt f), st') /\ chain st' ([root] ++ layers f c ++ [ice]).
Proof.
  intros Hc R1 R2 R3 Hnd Hex f. rewrite !Forall_cons in Hex. destruct Hex as ((M0 & M1) & (L0 & L1) & (C0 & C1) & _).
  rewrite !NoDup_cons in Hnd. destruct Hnd as (N1 & N2 & N3 & N4 & _). unfold build_pipeline, layers.
  destruct (layer_spec (multiplexing f) (mux c) [] root [ice] st (mux_rc c)) as (a1 & st1 & l1 & -> & E1 & Hc1 & F1);
    [done|done|intros _; split; [set_solver|done]|].
  bind_simpl. rewrite Z.ltb_irrefl. cbn iota.
  assert (forall z, z ∈ l1 ++ [a1; ice] -> z ∈ [root; mux c; ice]) as I1.
  { change (l1 ++ [a1; ice]) with (l1 ++ [a1] ++ [ice]). rewrite app_assoc, E1. destruct (multiplexing f); set_solver. }
  destruct (layer_spec (reliable f) (rel c) l1 a1 [ice] st1 (reliable_rc c)) as (a2 & st2 & l2 & -> & E2 & Hc2 & F2); [done|done| |].
  { intros _. split; [intros Hin%I1; set_solver|]. split; [done|]. rewrite F1 by set_solver. done. }
  bind_simpl. rewrite Z.ltb_irrefl. cbn iota.
  assert (forall z, z ∈ l2 ++ [a2; ice] -> z ∈ [root; mux c; rel c; ice]) as I2.
  { change (l2 ++ [a2; ice]) with (l2 ++ [a2] ++ [ice]). rewrite app_assoc, E2. intros z Hz.
    assert (z ∈ l1 ++ [a1; ice] \/ z = rel c) as [Hin%I1| ->] by (destruct (reliable f); set_solver); set_solver. }
  destruct (layer_spec (negb (unencrypt f)) (crypto c) l2 a2 [ice] st2 (crypto_rc c)) as (a3 & st3 & l3 & -> & E3 & Hc3 & _); [done|done| |].
  { intros _. split; [intros Hin%I2; set_solver|]. split; [done|]. rewrite F2, F1; [done|set_solver|].
    intros Hin. assert (crypto c ∈ [root; mux c; ice] \/ crypto c = rel c) as [Hin'|Heq]; [|set_solver|set_solver].
    assert (crypto c ∈ l1 ++ [a1; ice] \/ crypto c = rel c) as [?%I1|?] by set_solver; auto. }
  bind_simpl. exists st3. split; [done|].
  assert ([root] ++ layers f c = l3 ++ [a3]) as Hl.
  { rewrite E3, app_assoc, E2, (app_assoc l1), E1. unfold layers. by rewrite <- !app_assoc. }
  unfold layers in Hl. rewrite app_assoc, Hl, <- app_assoc. exact Hc3.
Qed.

(** ** A stream *)

(** The root 1 over the transport 2, and three handlers that are not connected. *)
Definition new_stream : store :=
  <[5 := mkHandler 0 0]> (<[4 := mkHandler 0 0]> (<[3 := mkHandler 0 0]> (<[1 := mkHandler 0 2]> {[2 := mkHandler 1 0]}))).

Definition handlers : created := mkCreated 0 3 0 4 0 5.

Lemma new_stream_chain : chain new_stream [1; 2].
Proof. split; [by apply (bool_decide_unpack _)|]. repeat split; try done; vm_compute; reflexivity. Qed.

Lemma pipeline_order_witness :
  exists st', build_pipeline (stream_flags (Z.lor IOEX_STREAM_RELIABLE IOEX_STREAM_PORT_FORWARDING)) handlers 1 false new_stream = Ok (0, true, st') /\
    chain st' [1; 3; 4; 5; 2].
Proof.
  apply (pipeline_order (Z.lor IOEX_STREAM_RELIABLE IOEX_STREAM_PORT_FORWARDING) handlers 1 2 false new_stream); try (cbn; lia).
  - apply new_stream_chain.
  - by apply (bool_decide_unpack _).
  - rewrite !Forall_cons. repeat split; try done; vm_compute; eauto.
Defined.

Lemma disconnect_takes_out_witness :
  exists st', handler_disconnect 1 new_stream = Ok (2, st') /\ chain st' [2] /\ st' !! 1 = Some (mkHandler 0 0).
Proof. apply (disconnect_takes_out new_stream [] 1 [2]). apply new_stream_chain. Defined.

End Pipeline.
