(* ===== verification/RcMem.v ===== *)
(** * Reference-counted memory

    src/src/common/rc_mem.c: every object of the carrier and session layers is
    allocated with a count of references and freed, after its destructor ran,
    when the last reference is dropped. A pointer is an address; an address of
    an object that was freed is not in the heap any more, and using it is
    [Undef]. The objects of a component live in the component's own state,
    which the functions reach through the class [World]. *)

From Stdlib Require Import ZArith Lia.
From stdpp Require Import prelude gmap list.
From S2P Require Import Prelude.

Module RcMem.

(** [struct rc_mem], which precedes the object in its block. *)
Record rc_mem := mkRc { nrefs : Z; destructor : option Z; magic : Z }.

Definition mem_magic : Z := 0xa9b8ada8.
Definition sizeof_rc_mem : Z := 24.

(** The allocated objects and the first address above all blocks ever
    allocated: a block is never placed over an older one. *)
Record heap := mkHeap { objs : gmap Z rc_mem; brk : Z }.

(** What a component's state [S] gives to reference counting: its heap, the
    destructors ([call_destructor d p] runs destructor [d] on the object at
    [p]), and the memory of the objects ([zero p] clears a new object's memory,
    [release p] gives the memory of a freed object back). *)
Class World (S : Type) := {
  heap_of : S -> heap;
  set_heap : heap -> S -> S;
  call_destructor : Z -> Z -> S -> outcome S;
  zero : Z -> S -> S;
  release : Z -> S -> S;
}.

Section Operations.
Context {S : Type} {W : World S}.

Definition obj (p : Z) (s : S) : outcome rc_mem :=
  match objs (heap_of s) !! p with Some m => Ok m | None => Undef end.

Definition set_obj (p : Z) (m : rc_mem) (s : S) : S :=
  set_heap (mkHeap (<[p := m]> (objs (heap_of s))) (brk (heap_of s))) s.

(** [ok] is whether [malloc] succeeds. *)
Definition rc_alloc (ok : bool) (size : Z) (d : option Z) (s : S) : Z * S :=
  if negb ok then (0, s)
  else
    let p := brk (heap_of s) + sizeof_rc_mem in
    (p, set_heap (mkHeap (<[p := mkRc 1 d mem_magic]> (objs (heap_of s))) (p + size)) s).

Definition rc_zalloc (ok : bool) (size : Z) (d : option Z) (s : S) : Z * S :=
  let '(p, s) := rc_alloc ok size d s in
  if p =? 0 then (0, s) else (p, zero p s).

(** [dest] is what [realloc] returns for the object, 0 when it fails; [move]
    takes the object's memory to the new address. *)
Definition rc_realloc (dest : Z) (move : Z -> Z -> S -> S) (data size : Z) (s : S) : outcome (Z * S) :=
  if data =? 0 then Ok (0, s)
  else
    m ← obj data s;
    _ ← c_assert 87 (magic m =? mem_magic);
    if dest =? 0 then Ok (0, s)
    else
      let h := heap_of s in
      Ok (dest, move data dest
        (set_heap (mkHeap (<[dest := m]> (delete data (objs h))) (Z.max (brk h) (dest + size))) s)).

Definition ref (data : Z) (s : S) : outcome (Z * S) :=
  if data =? 0 then Ok (0, s)
  else
    m ← obj data s;
    _ ← c_assert 106 (magic m =? mem_magic);
    Ok (data, set_obj data (mkRc (u32 (nrefs m + 1)) (destructor m) (magic m)) s).

Definition free (data : Z) (s : S) : S :=
  release data (set_heap (mkHeap (delete data (objs (heap_of s))) (brk (heap_of s))) s).

Definition deref (data : Z) (s : S) : outcome S :=
  if data =? 0 then Ok s
  else
    m ← obj data s;
    _ ← c_assert 127 (magic m =? mem_magic);
    let n := u32 (nrefs m - 1) in
    let s := set_obj data (mkRc n (destructor m) (magic m)) s in
    if 0 <? n then Ok s
    else
      s ← match destructor m with
          | Some d => call_destructor d data s
          | None => Ok s
          end;
      m ← obj data s;
      if 0 <? nrefs m then Ok s else Ok (free data s).

Definition nrefs_of (data : Z) (s : S) : outcome Z :=
  if data =? 0 then Ok 0
  else
    m ← obj data s;
    _ ← c_assert 160 (magic m =? mem_magic);
    Ok (nrefs m).

End Operations.

(** ** Laws

    The part of a state that is not the heap is unchanged by the heap's
    accessors, and a destructor leaves the heap as it is. *)

Class WorldLaws (S : Type) `{World S} := {
  heap_set : forall h s, heap_of (set_heap h s) = h;
  set_set : forall h k s, set_heap h (set_heap k s) = set_heap h s;
  heap_release : forall p s, heap_of (release p s) = heap_of s;
  heap_destructor : forall d p s s', call_destructor d p s = Ok s' -> heap_of s' = heap_of s;
}.

Section Laws.
Context {S : Type} {W : World S} {WL : WorldLaws S}.

(** [p] is the address of an object with [n] references. *)
Definition live (s : S) (p n : Z) (d : option Z) : Prop :=
  p <> 0 /\ 0 < n < 2 ^ 32 /\ objs (heap_of s) !! p = Some (mkRc n d mem_magic).

Lemma live_obj s p n d : live s p n d -> obj p s = Ok (mkRc n d mem_magic).
Proof. intros (_ & _ & E). unfold obj. by rewrite E. Qed.

Lemma ref_ok s p n d : live s p n d -> n + 1 < 2 ^ 32 ->
  ref p s = Ok (p, set_obj p (mkRc (n + 1) d mem_magic) s).
Proof.
  intros Hl Hn. pose proof Hl as (H0 & Hr & _). unfold ref.
  rewrite (proj2 (Z.eqb_neq _ _)) by done. rewrite (live_obj _ _ _ _ Hl). bind_simpl. cbn [magic nrefs destructor].
  rewrite Z.eqb_refl, u32_small by lia. done.
Qed.

Lemma deref_keeps s p n d : live s p n d -> 1 < n ->
  deref p s = Ok (set_obj p (mkRc (n - 1) d mem_magic) s).
Proof.
  intros Hl Hn. pose proof Hl as (H0 & Hr & _). unfold deref.
  rewrite (proj2 (Z.eqb_neq _ _)) by done. rewrite (live_obj _ _ _ _ Hl). bind_simpl. cbn [magic nrefs destructor].
  rewrite Z.eqb_refl, u32_small by lia. cbn [c_assert]. bind_simpl. by rewrite (proj2 (Z.ltb_lt _ _)) by lia.
Qed.

(** The last reference: the destructor runs on the object, whose count is 0,
    and the block is freed. *)
Lemma deref_last s p d : live s p 1 d ->
  let s0 := set_obj p (mkRc 0 d mem_magic) s in
  deref p s = (s' ← match d with Some d => call_destructor d p s0 | None => Ok s0 end; Ok (free p s')).
Proof.
  intros Hl s0. pose proof Hl as (H0 & Hr & _). unfold deref.
  rewrite (proj2 (Z.eqb_neq _ _)) by done. rewrite (live_obj _ _ _ _ Hl). bind_simpl. cbn [magic nrefs destructor].
  rewrite Z.eqb_refl. cbn [c_assert]. bind_simpl. change (u32 (1 - 1)) with 0. cbn [Z.ltb Z.compare].
  fold s0. assert (obj p s0 = Ok (mkRc 0 d mem_magic)) as E0
    by (unfold obj, s0, set_obj; rewrite heap_set; cbn; by rewrite lookup_insert_eq).
  destruct d as [d|]; bind_simpl; [|by rewrite E0].
  destruct (call_destructor d p s0) as [s'| | |] eqn:Ed; bind_simpl; try done.
  unfold obj in *. by rewrite (heap_destructor _ _ _ _ Ed), E0.
Qed.

Lemma heap_free p s : objs (heap_of (free p s)) = delete p (objs (heap_of s)).
Proof. unfold free. by rewrite heap_release, heap_set. Qed.

Lemma live_set_obj s p n d n' : live s p n d -> 0 < n' < 2 ^ 32 ->
  live (set_obj p (mkRc n' d mem_magic) s) p n' d.
Proof. intros (H0 & _ & _) Hn. split; [done|]. split; [lia|]. unfold set_obj. rewrite heap_set. cbn. by rewrite lookup_insert_eq. Qed.

Lemma obj_after_set s p q m : p <> q -> objs (heap_of (set_obj p m s)) !! q = objs (heap_of s) !! q.
Proof. intros. unfold set_obj. rewrite heap_set. cbn. by rewrite lookup_insert_ne. Qed.

(** A change of one count keeps every object alive. *)
Lemma set_obj_keeps s p n d n' : live s p n d -> 0 < n' < 2 ^ 32 ->
  forall q k e, live s q k e -> exists k' e', live (set_obj p (mkRc n' d mem_magic) s) q k' e'.
Proof.
  intros Hp Hn' q k e (Hq & Hk & E). destruct (decide (p = q)) as [<-|Hne].
  - exists n', d. by apply (live_set_obj _ _ n).
  - exists k, e. split; [done|]. split; [done|]. by rewrite obj_after_set.
Qed.

(** What [deref] does to the objects. *)
Definition drop_one (m : rc_mem) : option rc_mem :=
  if nrefs m =? 1 then None else Some (mkRc (nrefs m - 1) (destructor m) (magic m)).

Definition drop_ref (p : Z) (o : gmap Z rc_mem) : gmap Z rc_mem := partial_alter (fun m => m ≫= drop_one) p o.

Lemma deref_cases s p k dt : live s p k dt ->
  let s0 := set_obj p (mkRc 0 dt mem_magic) s in
  (k = 1 -> exists s1, match dt with Some d => call_destructor d p s0 | None => Ok s0 end = Ok s1) ->
  exists s', deref p s = Ok s' /\ objs (heap_of s') = drop_ref p (objs (heap_of s)) /\
    brk (heap_of s') = brk (heap_of s) /\
    ((1 < k /\ s' = set_obj p (mkRc (k - 1) dt mem_magic) s) \/
     (k = 1 /\ exists s1, s' = free p s1 /\
        match dt with Some d => call_destructor d p s0 | None => Ok s0 end = Ok s1)).
Proof.
  intros Hl s0 Hd. pose proof Hl as (H0 & Hk & Ho).
  assert (forall x, drop_one (mkRc k dt mem_magic) = x ->
    drop_ref p (objs (heap_of s)) = partial_alter (fun _ => x) p (objs (heap_of s))) as Hpa.
  { intros x Hx. apply partial_alter_ext. intros o Eo. rewrite Ho in Eo. by subst o. }
  destruct (Z.eq_dec k 1) as [->|Hk1].
  - destruct (Hd eq_refl) as [s1 E1]. rewrite (deref_last _ _ _ Hl). fold s0. rewrite E1. bind_simpl.
    eexists. split; [reflexivity|].
    assert (heap_of s1 = heap_of s0) as Hh by (destruct dt; [by eapply heap_destructor|by injection E1 as <-]).
    assert (heap_of (free p s1) = mkHeap (delete p (objs (heap_of s))) (brk (heap_of s))) as ->.
    { unfold free. rewrite heap_release, heap_set, Hh. unfold s0, set_obj. rewrite heap_set. cbn. by rewrite delete_insert_eq. }
    cbn. rewrite (Hpa None) by done. split; [done|]. split; [done|]. right. eauto.
  - rewrite (deref_keeps _ _ _ _ Hl) by lia. eexists. split; [reflexivity|].
    unfold set_obj at 1 2. rewrite heap_set. cbn. split; [|split; [done|left; split; [lia|done]]].
    rewrite (Hpa (Some (mkRc (k - 1) dt mem_magic))); [done|].
    unfold drop_one. cbn. by rewrite (proj2 (Z.eqb_neq _ _)).
Qed.

Lemma drop_ref_ne p q o : p <> q -> drop_ref p o !! q = o !! q.
Proof. intros. unfold drop_ref. by rewrite lookup_partial_alter_ne. Qed.

(** ** Lifetime of an object

    Any sequence of [ref] and [deref] calls on one object. *)

Inductive use := Ref | Deref.

Fixpoint uses (p : Z) (us : list use) (s : S) : outcome S :=
  match us with
  | [] => Ok s
  | Ref :: us => r ← ref p s; uses p us (snd r)
  | Deref :: us => s ← deref p s; uses p us s
  end.

(** The number of references after [us], from [n]; [None] when the count was 0
    before the end or overflows. *)
Fixpoint count (n : Z) (us : list use) : option Z :=
  match us with
  | [] => Some n
  | Ref :: us => if (0 <? n) && (n + 1 <? 2 ^ 32) then count (n + 1) us else None
  | Deref :: us => if 0 <? n then count (n - 1) us else None
  end.

Lemma uses_count us : forall s p n k d, live s p n d -> count n us = Some k -> 0 < k ->
  exists s', uses p us s = Ok s' /\ live s' p k d.
Proof.
  induction us as [|[] us IH]; intros s p n k d Hl Hc Hk; cbn [uses count] in *.
  - injection Hc as ->. eauto.
  - case_if; [zify_tests|done]. rewrite (ref_ok _ _ _ _ Hl) by lia. bind_simpl.
    apply (IH _ _ (n + 1)); [|done|done]. apply (live_set_obj _ _ n); [done|lia].
  - case_if; [zify_tests|done]. destruct (Z.eq_dec n 1) as [->|Hn].
    + destruct us as [|[] us]; cbn in Hc; [injection Hc as <-; lia|done|done].
    + pose proof Hl as (? & ? & ?). rewrite (deref_keeps _ _ _ _ Hl) by lia. bind_simpl.
      apply (IH _ _ (n - 1)); [|done|done]. apply (live_set_obj _ _ n); [done|lia].
Qed.

Lemma uses_app p us1 us2 s : uses p (us1 ++ us2) s = (s ← uses p us1 s; uses p us2 s).
Proof.
  revert s. induction us1 as [|[] us IH]; intros s; cbn [uses app]; [done| |].
  - destruct (ref p s); cbn [mbind outcome_bind]; [apply IH|done|done|done].
  - destruct (deref p s); cbn [mbind outcome_bind]; [apply IH|done|done|done].
Qed.

(** The lifetime of an object: calls of [ref] and [deref] that keep the
    count above zero all succeed and leave the object alive with that count; the
    [deref] that takes the last reference runs the destructor, on an object
    whose count is zero, and frees the block, so that any later use of the
    pointer is outside every object. *)
Theorem rc_lifetime us s p d : live s p 1 d -> count 1 us = Some 1 ->
  exists s1, uses p us s = Ok s1 /\ live s1 p 1 d /\
    let s0 := set_obj p (mkRc 0 d mem_magic) s1 in
    forall s2, match d with Some d => call_destructor d p s0 | None => Ok s0 end = Ok s2 ->
      uses p (us ++ [Deref]) s = Ok (free p s2) /\
      objs (heap_of (free p s2)) !! p = None /\
      ref p (free p s2) = Undef /\ deref p (free p s2) = Undef.
Proof.
  intros Hl Hc. destruct (uses_count us s p 1 1 d Hl Hc ltac:(lia)) as (s1 & E1 & Hl1).
  exists s1. split; [done|]. split; [done|]. intros s0 s2 E2.
  assert (objs (heap_of (free p s2)) !! p = None) as Hn by (rewrite heap_free; apply lookup_delete_eq).
  split; [|split; [done|]].
  - rewrite uses_app, E1. bind_simpl. cbn [uses]. rewrite (deref_last _ _ _ Hl1).
    fold s0. rewrite E2. done.
  - destruct Hl as (H0 & _ & _). unfold ref, deref, obj. rewrite (proj2 (Z.eqb_neq p 0)) by done.
    by rewrite Hn.
Qed.

End Laws.

(** A heap alone, without destructors, is a state. *)
#[local] Instance heap_world : World heap := {
  heap_of h := h; set_heap h _ := h; call_destructor _ _ h := Ok h;
  zero _ h := h; release _ h := h }.

#[local] Instance heap_world_laws : WorldLaws heap.
Proof. split; try done. intros d p s s' E. by injection E as <-. Qed.

Lemma rc_lifetime_witness :
  let s := snd (rc_zalloc true 8 None (mkHeap ∅ 1000)) in
  uses 1024 [Ref; Ref; Deref; Ref; Deref; Deref; Deref] s = Ok (mkHeap ∅ 1032).
Proof.
  cbv zeta.
  destruct (rc_lifetime [Ref; Ref; Deref; Ref; Deref; Deref]
              (snd (rc_zalloc true 8 None (mkHeap ∅ 1000))) 1024 None) as (s1 & E1 & _ & H).
  - split; [done|]. split; [lia|]. vm_compute. reflexivity.
  - reflexivity.
  - destruct (H _ eq_refl) as (E & _). cbn [app] in E. rewrite E. vm_compute in E1. injection E1 as <-.
    vm_compute. reflexivity.
Defined.

End RcMem.
