(* ===== verification/Rings.v ===== *)
(** * Circular doubly linked lists

    The lists of src/src/common/linkedlist.c and the insertion order of
    src/src/common/linkedhashtable.c are rings of nodes that start and end at a
    head node. This file relates a store of nodes to the list of the nodes'
    addresses and says what linking and unlinking one node does; the node type
    is any type with two link fields, the class [Links]. *)

From Stdlib Require Import ZArith Lia.
From stdpp Require Import prelude gmap list.
From S2P Require Import Prelude.

Module Rings.

Class Links (N : Type) := {
  lnext : N -> Z;
  lprev : N -> Z;
  set_lnext : Z -> N -> N;
  set_lprev : Z -> N -> N;
}.

(** The rest of a node. *)
Definition erase {N} `{Links N} (n : N) : N := set_lnext 0 (set_lprev 0 n).

Class LinksLaws (N : Type) `{Links N} := {
  next_set_next : forall a n, lnext (set_lnext a n) = a;
  prev_set_next : forall a n, lprev (set_lnext a n) = lprev n;
  next_set_prev : forall a n, lnext (set_lprev a n) = lnext n;
  prev_set_prev : forall a n, lprev (set_lprev a n) = a;
  erase_set_next : forall a n, erase (set_lnext a n) = erase n;
  erase_set_prev : forall a n, erase (set_lprev a n) = erase n;
}.

(** ** Field access through a pointer *)

Section Access.
Context {N : Type} {L : Links N}.

Definition node (a : Z) (st : gmap Z N) : outcome N :=
  match st !! a with Some n => Ok n | None => Undef end.

(** [a->f = ...] for the field update [f]. *)
Definition upd (a : Z) (f : N -> N) (st : gmap Z N) : outcome (gmap Z N) :=
  match st !! a with Some n => Ok (<[a := f n]> st) | None => Undef end.

Definition nx (st : gmap Z N) (a : Z) : option Z := lnext <$> st !! a.
Definition pv (st : gmap Z N) (a : Z) : option Z := lprev <$> st !! a.

Lemma node_ok st a n : st !! a = Some n -> node a st = Ok n.
Proof. unfold node. by intros ->. Qed.

Lemma upd_ok st a n f : st !! a = Some n -> upd a f st = Ok (<[a := f n]> st).
Proof. unfold upd. by intros ->. Qed.

Lemma nx_node st a b : nx st a = Some b -> exists n, st !! a = Some n /\ lnext n = b.
Proof. unfold nx. destruct (st !! a); cbn; [intros E; injection E as <-; eauto|done]. Qed.

Lemma pv_node st a b : pv st a = Some b -> exists n, st !! a = Some n /\ lprev n = b.
Proof. unfold pv. destruct (st !! a); cbn; [intros E; injection E as <-; eauto|done]. Qed.

End Access.

(** ** The neighbours of a list *)

Definition pairs {A} (l : list A) : list (A * A) := zip l (tail l).

#[global] Arguments pairs : simpl never.

Lemma pairs_app {A} (l1 : list A) a l2 : pairs (l1 ++ a :: l2) = pairs (l1 ++ [a]) ++ pairs (a :: l2).
Proof.
  induction l1 as [|x l1 IH]; [done|]. unfold pairs in *. cbn [app tail zip].
  destruct l1 as [|y l1]; [done|]. cbn [app] in *. cbn [zip zip_with]. f_equal. exact IH.
Qed.

Lemma pairs_cons {A} (a b : A) l : pairs (a :: b :: l) = (a, b) :: pairs (b :: l).
Proof. done. Qed.

Lemma pairs_fst {A} (l : list A) y : (pairs (l ++ [y])).*1 = l.
Proof.
  induction l as [|x l IH]; [done|]. destruct l as [|z l]; [done|].
  cbn [app] in *. rewrite pairs_cons. cbn. f_equal. exact IH.
Qed.

Lemma pairs_snd {A} x (l : list A) : (pairs (x :: l)).*2 = l.
Proof.
  revert x. induction l as [|z l IH]; intros x; [done|]. rewrite pairs_cons. cbn. f_equal. apply IH.
Qed.

Lemma pairs_lookup {A} (l : list A) i a b : l !! i = Some a -> l !! S i = Some b -> (a, b) ∈ pairs l.
Proof.
  revert i. induction l as [|x l IH]; intros i Ha Hb; [done|].
  destruct l as [|y l]; [destruct i; done|]. rewrite pairs_cons. destruct i as [|i].
  - cbn in Ha, Hb. injection Ha as ->. injection Hb as ->. left.
  - right. by apply (IH i).
Qed.

(** ** Rings *)

Section Ring.
Context {N : Type} {L : Links N} {LL : LinksLaws N}.

(** [l] is the ring from the head [h] on, without the head. *)
Record ring (st : gmap Z N) (h : Z) (l : list Z) : Prop := {
  ring_nodup : NoDup (h :: l);
  ring_links : Forall (fun ab => nx st ab.1 = Some ab.2 /\ pv st ab.2 = Some ab.1) (pairs (h :: l ++ [h]));
}.

Lemma ring_firsts (h : Z) l : (pairs (h :: l ++ [h])).*1 = h :: l.
Proof. apply (pairs_fst (h :: l)). Qed.

Lemma ring_seconds_nodup (h : Z) l : NoDup (h :: l) -> NoDup ((pairs (h :: l ++ [h])).*2).
Proof. intros H. rewrite pairs_snd. by rewrite <- Permutation_cons_append. Qed.

(** Position [i] of the ring, whose positions 0 and [length l + 1] are the
    head. *)
Lemma ring_step st h l i a b : ring st h l ->
  (h :: l ++ [h]) !! i = Some a -> (h :: l ++ [h]) !! S i = Some b -> nx st a = Some b /\ pv st b = Some a.
Proof.
  intros [_ Hl] Ha Hb. rewrite Forall_forall in Hl. apply (Hl (a, b)), (pairs_lookup _ i); done.
Qed.

Lemma ring_neighbours st h l l1 e l2 : ring st h l -> h :: l ++ [h] = l1 ++ e :: l2 -> l2 <> [] ->
  exists b, head l2 = Some b /\ nx st e = Some b /\ pv st b = Some e.
Proof.
  intros Hr E Hne. destruct l2 as [|b l2]; [done|]. exists b. split; [done|].
  apply (ring_step _ _ _ (length l1) e b Hr); rewrite E.
  - by rewrite list_lookup_middle.
  - rewrite cons_middle, app_assoc, list_lookup_middle; [done|]. rewrite length_app. cbn. lia.
Qed.

Lemma ring_node st h l e : ring st h l -> e ∈ h :: l -> is_Some (st !! e).
Proof.
  intros Hr He. apply list_elem_of_split in He as (l1 & l2 & E).
  destruct (ring_neighbours st h l l1 e (l2 ++ [h]) Hr) as (b & _ & Hn & _).
  - change (h :: l ++ [h]) with ((h :: l) ++ [h]). rewrite E. by rewrite <- app_assoc.
  - by destruct l2.
  - apply nx_node in Hn as (n & -> & _). eauto.
Qed.

(** Two stores with the same links at the nodes of the ring. *)
Lemma ring_ext st st' h l : ring st h l ->
  (forall a, a ∈ h :: l -> nx st' a = nx st a /\ pv st' a = pv st a) -> ring st' h l.
Proof.
  intros [Hnd Hl] Hx. split; [done|]. rewrite Forall_forall in *. intros [a b] Hin.
  specialize (Hl _ Hin). cbn in *. destruct (Hx a) as [-> _].
  - rewrite <- (ring_firsts h l). apply (list_elem_of_fmap_2 fst _ (a, b)). done.
  - destruct (Hx b) as [_ ->]; [|done].
    apply (list_elem_of_fmap_2 snd) in Hin. rewrite pairs_snd in Hin. cbn in Hin. set_solver.
Qed.

(** The pairs of a list other than one that is singled out differ from it in
    both parts. *)
Lemma other_pairs (P1 P2 : list (Z * Z)) a b :
  NoDup ((P1 ++ (a, b) :: P2).*1) -> NoDup ((P1 ++ (a, b) :: P2).*2) ->
  forall c, c ∈ P1 ++ P2 -> c.1 <> a /\ c.2 <> b.
Proof.
  rewrite !fmap_app. cbn. intros H1 H2 c Hc.
  rewrite NoDup_app in H1, H2. destruct H1 as (_ & N1 & M1), H2 as (_ & N2 & M2).
  rewrite NoDup_cons in M1, M2. apply elem_of_app in Hc as [Hc|Hc].
  - split; intros <-; [apply (N1 c.1)|apply (N2 c.2)]; try (apply list_elem_of_fmap; eauto); left.
  - split; intros <-; [apply M1|apply M2]; apply list_elem_of_fmap; eauto.
Qed.

(** Linking [e] between [a] and [b]. *)
Lemma ring_insert st st' h l l' l1 a b l2 e :
  ring st h l -> h :: l ++ [h] = l1 ++ a :: b :: l2 -> h :: l' ++ [h] = l1 ++ a :: e :: b :: l2 ->
  e ∉ h :: l ->
  (forall c, c = e \/ c ∈ h :: l -> nx st' c = if decide (c = e) then Some b else if decide (c = a) then Some e else nx st c) ->
  (forall c, c = e \/ c ∈ h :: l -> pv st' c = if decide (c = e) then Some a else if decide (c = b) then Some e else pv st c) ->
  ring st' h l'.
Proof.
  intros [Hnd Hl] E E' He Hn Hp.
  assert (Permutation (h :: l') (e :: h :: l)) as HP.
  { apply (Permutation_app_inv_r [h]). cbn. rewrite E'.
    change (e :: h :: l ++ [h]) with (e :: (h :: l ++ [h])). rewrite E.
    rewrite (cons_middle a l1 (b :: l2)), (cons_middle a l1 (e :: b :: l2)), !app_assoc.
    symmetry. apply Permutation_middle. }
  split; [rewrite HP; by apply NoDup_cons|].
  pose proof (ring_firsts h l) as HF. pose proof (ring_seconds_nodup h l Hnd) as HS.
  rewrite E in Hl, HF, HS. rewrite E'. rewrite pairs_app, pairs_cons in Hl, HF, HS |- *. rewrite pairs_cons.
  assert (HF' : NoDup ((pairs (l1 ++ [a]) ++ (a, b) :: pairs (b :: l2)).*1)) by (by rewrite HF).
  pose proof (other_pairs _ _ _ _ HF' HS) as Hoth.
  assert (forall c, c ∈ pairs (h :: l ++ [h]) -> c.1 ∈ h :: l /\ c.2 ∈ h :: l) as Hmem.
  { intros c Hc. split.
    - rewrite <- (ring_firsts h l). by apply list_elem_of_fmap_2.
    - apply (list_elem_of_fmap_2 snd) in Hc. rewrite pairs_snd in Hc. set_solver. }
  assert (forall c, c ∈ pairs (l1 ++ [a]) ++ pairs (b :: l2) -> c.1 ∈ h :: l /\ c.2 ∈ h :: l) as Hne.
  { intros c Hc. apply Hmem. rewrite E, pairs_app, pairs_cons. set_solver. }
  assert (a ∈ h :: l /\ b ∈ h :: l) as [Ha Hb].
  { apply (Hmem (a, b)). rewrite E, pairs_app, pairs_cons. set_solver. }
  rewrite Forall_app, Forall_cons in Hl. destruct Hl as (F1 & [Hab1 Hab2] & F2).
  assert (Forall (fun ab => nx st' ab.1 = Some ab.2 /\ pv st' ab.2 = Some ab.1)
            (pairs (l1 ++ [a]) ++ pairs (b :: l2))) as HFA.
  { assert (Forall (fun ab => nx st ab.1 = Some ab.2 /\ pv st ab.2 = Some ab.1)
      (pairs (l1 ++ [a]) ++ pairs (b :: l2))) as F by (by apply Forall_app).
    rewrite Forall_forall in *. intros c Hc. destruct (Hne c Hc), (Hoth c Hc).
    assert (c.1 <> e /\ c.2 <> e) as [? ?] by (split; congruence).
    rewrite Hn, Hp, !decide_False by auto. by apply F. }
  apply Forall_app in HFA as [G1 G2]. apply Forall_app. split; [done|].
  assert (a <> e /\ b <> e) as [Hae Hbe] by (split; congruence).
  repeat apply Forall_cons_2; cbn [fst snd]; rewrite ?Hn, ?Hp by auto; try done.
  - rewrite decide_False, decide_True, decide_True by done. done.
  - rewrite decide_True, decide_False, decide_True by done. done.
Qed.

(** Unlinking [e] from between [a] and [b]. *)
Lemma ring_remove st st' h l l' l1 a b l2 e :
  ring st h l -> h :: l ++ [h] = l1 ++ a :: e :: b :: l2 -> h :: l' ++ [h] = l1 ++ a :: b :: l2 ->
  e <> h ->
  (forall c, c <> e -> nx st' c = if decide (c = a) then Some b else nx st c) ->
  (forall c, c <> e -> pv st' c = if decide (c = b) then Some a else pv st c) ->
  ring st' h l'.
Proof.
  intros [Hnd Hl] E E' He Hn Hp.
  assert (Permutation (e :: h :: l') (h :: l)) as HP.
  { apply (Permutation_app_inv_r [h]). cbn. rewrite E, E'.
    rewrite (cons_middle a l1 (b :: l2)), (cons_middle a l1 (e :: b :: l2)), !app_assoc.
    apply Permutation_middle. }
  assert (HndE := Hnd). rewrite <- HP in HndE. apply NoDup_cons in HndE as [Hel Hnd'].
  split; [done|].
  pose proof (ring_firsts h l') as HF. pose proof (ring_seconds_nodup h l' Hnd') as HS.
  rewrite E in Hl. rewrite pairs_app, !pairs_cons in Hl.
  rewrite E' in HF, HS |- *. rewrite pairs_app, pairs_cons in HF, HS |- *.
  assert (HF' : NoDup ((pairs (l1 ++ [a]) ++ (a, b) :: pairs (b :: l2)).*1)) by (by rewrite HF).
  pose proof (other_pairs _ _ _ _ HF' HS) as Hoth.
  assert (forall c, c ∈ pairs (l1 ++ [a]) ++ (a, b) :: pairs (b :: l2) -> c.1 <> e /\ c.2 <> e) as Hne.
  { intros c Hc. assert (c ∈ pairs (h :: l' ++ [h])) as Hc' by (by rewrite E', pairs_app, pairs_cons).
    split; intros <-; apply Hel.
    - rewrite <- (ring_firsts h l'). by apply list_elem_of_fmap_2.
    - apply (list_elem_of_fmap_2 snd) in Hc'. rewrite pairs_snd in Hc'. set_solver. }
  rewrite Forall_app, !Forall_cons in Hl. destruct Hl as (F1 & _ & _ & F2).
  assert (a <> e /\ b <> e) as [Hae Hbe] by (apply (Hne (a, b)); set_solver).
  apply Forall_app. split; [|apply Forall_cons; split].
  - rewrite Forall_forall in *. intros c Hc. destruct (Hne c ltac:(set_solver)), (Hoth c ltac:(set_solver)).
    rewrite Hn, Hp, !decide_False by done. by apply F1.
  - cbn. rewrite Hn, Hp, !decide_True by done. done.
  - rewrite Forall_forall in *. intros c Hc. destruct (Hne c ltac:(set_solver)), (Hoth c ltac:(set_solver)).
    rewrite Hn, Hp, !decide_False by done. by apply F2.
Qed.

Lemma ring_empty st h n : st !! h = Some n -> lnext n = h -> lprev n = h -> ring st h [].
Proof.
  intros E En Ep. split; [apply NoDup_singleton|].
  change (pairs (h :: [] ++ [h])) with [(h, h)]. apply Forall_singleton. cbn.
  unfold nx, pv. rewrite E. cbn. by rewrite En, Ep.
Qed.

(** ** Links after an update *)

Lemma nx_upd st a n c : nx (<[a := n]> st) c = if decide (c = a) then Some (lnext n) else nx st c.
Proof.
  unfold nx. destruct (decide (c = a)) as [->|]; [by rewrite lookup_insert_eq|].
  by rewrite lookup_insert_ne by done.
Qed.

Lemma pv_upd st a n c : pv (<[a := n]> st) c = if decide (c = a) then Some (lprev n) else pv st c.
Proof.
  unfold pv. destruct (decide (c = a)) as [->|]; [by rewrite lookup_insert_eq|].
  by rewrite lookup_insert_ne by done.
Qed.

(** ** Writing one link

    [same_rest]: two stores that differ in links only. *)

Definition same_rest (st st' : gmap Z N) : Prop := forall c, erase <$> st' !! c = erase <$> st !! c.

#[export] Instance same_rest_equiv : Equivalence same_rest.
Proof.
  split.
  - by intros st c.
  - intros st st' H c. by rewrite H.
  - intros s1 s2 s3 H12 H23 c. by rewrite H23.
Qed.

Lemma same_rest_is_Some st st' c : same_rest st st' -> is_Some (st !! c) -> is_Some (st' !! c).
Proof. intros H [n E]. specialize (H c). rewrite E in H. destruct (st' !! c); [eauto|done]. Qed.

Lemma same_rest_lookup st st' c n : same_rest st st' -> st !! c = Some n ->
  exists n', st' !! c = Some n' /\ erase n' = erase n.
Proof. intros H E. specialize (H c). rewrite E in H. destruct (st' !! c); [injection H as H; eauto|done]. Qed.

Lemma same_rest_update st a n n' : st !! a = Some n -> erase n' = erase n -> same_rest st (<[a := n']> st).
Proof.
  intros E H c. destruct (decide (c = a)) as [->|]; [rewrite lookup_insert_eq, E; cbn; congruence|].
  by rewrite lookup_insert_ne by done.
Qed.

Lemma upd_next st a b : is_Some (st !! a) ->
  exists st', upd a (set_lnext b) st = Ok st' /\ same_rest st st' /\
    (forall c, nx st' c = if decide (c = a) then Some b else nx st c) /\ (forall c, pv st' c = pv st c).
Proof.
  intros [n E]. rewrite (upd_ok _ _ _ _ E). eexists. split; [done|].
  split; [apply (same_rest_update _ _ n); [done|apply erase_set_next]|]. split; intros c.
  - by rewrite nx_upd, next_set_next.
  - rewrite pv_upd, prev_set_next. case_decide as Hc; [subst; unfold pv; by rewrite E|done].
Qed.

Lemma upd_prev st a b : is_Some (st !! a) ->
  exists st', upd a (set_lprev b) st = Ok st' /\ same_rest st st' /\
    (forall c, nx st' c = nx st c) /\ (forall c, pv st' c = if decide (c = a) then Some b else pv st c).
Proof.
  intros [n E]. rewrite (upd_ok _ _ _ _ E). eexists. split; [done|].
  split; [apply (same_rest_update _ _ n); [done|apply erase_set_prev]|]. split; intros c.
  - rewrite nx_upd, next_set_prev. case_decide as Hc; [subst; unfold nx; by rewrite E|done].
  - by rewrite pv_upd, prev_set_prev.
Qed.

(** ** Linking and unlinking

    With the ring as a list that splits. *)

(** Where a list splits: the ring around the cut. *)
Lemma ring_cut (h : Z) la lb : exists l1 a b l2,
  h :: la = l1 ++ [a] /\ lb ++ [h] = b :: l2 /\ (h :: la) !! length la = Some a.
Proof.
  destruct (exists_last (l := h :: la)) as (l1 & a & E); [done|].
  assert (exists b l2, lb ++ [h] = b :: l2) as (b & l2 & E2) by (destruct lb; eauto).
  exists l1, a, b, l2. split; [done|]. split; [done|]. rewrite E.
  assert (length la = length l1) as -> by (apply (f_equal length) in E; rewrite length_app in E; cbn in E; lia).
  by apply list_lookup_middle.
Qed.

Lemma ring_cut_eq (h : Z) la lb l1 a b l2 m : h :: la = l1 ++ [a] -> lb ++ [h] = b :: l2 ->
  h :: (la ++ m ++ lb) ++ [h] = l1 ++ a :: m ++ b :: l2.
Proof.
  intros E1 E2. rewrite <- E2. change (h :: (la ++ m ++ lb) ++ [h]) with ((h :: la ++ m ++ lb) ++ [h]).
  rewrite (app_comm_cons la), E1, <- !app_assoc. done.
Qed.

(** Linking [ent] after the first part of the ring. *)
Lemma ring_link st h la lb ent : ring st h (la ++ lb) -> ent ∉ h :: la ++ lb ->
  exists a b, (h :: la) !! length la = Some a /\ hd_error (lb ++ [h]) = Some b /\
    nx st a = Some b /\ pv st b = Some a /\ a <> ent /\ b <> ent /\
    forall st',
      (forall c, nx st' c = if decide (c = ent) then Some b else if decide (c = a) then Some ent else nx st c) ->
      (forall c, pv st' c = if decide (c = ent) then Some a else if decide (c = b) then Some ent else pv st c) ->
      ring st' h (la ++ ent :: lb).
Proof.
  intros Hr He. destruct (ring_cut h la lb) as (l1 & a & b & l2 & E1 & E2 & Ha).
  pose proof (ring_cut_eq h la lb l1 a b l2 [] E1 E2) as C0. cbn in C0.
  pose proof (ring_cut_eq h la lb l1 a b l2 [ent] E1 E2) as C1. cbn in C1.
  destruct (ring_neighbours st h _ l1 a (b :: l2) Hr C0 ltac:(done)) as (b' & Hb' & Hn & Hp).
  cbn in Hb'. injection Hb' as <-. exists a, b.
  assert (a ∈ h :: la) as Hain by (rewrite E1; set_solver).
  assert (b ∈ lb ++ [h]) as Hbin by (rewrite E2; set_solver).
  split_and!; try done.
  - by rewrite E2.
  - intros ->. apply He. set_solver.
  - intros ->. apply He. set_solver.
  - intros st' Hn' Hp'. by apply (ring_insert st st' h (la ++ lb) _ l1 a b l2 ent).
Qed.

(** Unlinking [e]. *)
Lemma ring_unlink st h la e lb : ring st h (la ++ e :: lb) ->
  exists a b, nx st e = Some b /\ pv st e = Some a /\ a <> e /\ b <> e /\
    a ∈ h :: la /\ b ∈ lb ++ [h] /\ nx st a = Some e /\ pv st b = Some e /\
    forall st',
      (forall c, c <> e -> nx st' c = if decide (c = a) then Some b else nx st c) ->
      (forall c, c <> e -> pv st' c = if decide (c = b) then Some a else pv st c) ->
      ring st' h (la ++ lb).
Proof.
  intros Hr. destruct (ring_cut h la lb) as (l1 & a & b & l2 & E1 & E2 & _).
  pose proof (ring_cut_eq h la lb l1 a b l2 [] E1 E2) as C0. cbn in C0.
  pose proof (ring_cut_eq h la lb l1 a b l2 [e] E1 E2) as C1. cbn in C1.
  destruct (ring_neighbours st h _ l1 a (e :: b :: l2) Hr C1 ltac:(done)) as (x & Hx & Hna & Hpe).
  cbn in Hx. injection Hx as <-.
  destruct (ring_neighbours st h _ (l1 ++ [a]) e (b :: l2) Hr) as (x & Hx & Hne & Hpb);
    [by rewrite C1, <- app_assoc|done|]. cbn in Hx. injection Hx as <-.
  assert (a ∈ h :: la) as Hain by (rewrite E1; set_solver).
  assert (b ∈ lb ++ [h]) as Hbin by (rewrite E2; set_solver).
  pose proof (ring_nodup _ _ _ Hr) as Hnd. apply NoDup_cons in Hnd as [Hh Hnd].
  apply NoDup_app in Hnd as (_ & Hla & Hlb). apply NoDup_cons in Hlb as [Hlb _].
  exists a, b. split_and!; try done.
  - intros ->. apply elem_of_cons in Hain as [->|Hain]; [set_solver|]. apply (Hla _ Hain). left.
  - intros ->. apply elem_of_app in Hbin as [Hbin|Hbin%list_elem_of_singleton]; [done|]. set_solver.
  - intros st' Hn' Hp'. apply (ring_remove st st' h (la ++ e :: lb) _ l1 a b l2 e); try done.
    intros ->. set_solver.
Qed.

(** [e'] in the place of [e]. *)
Lemma ring_replace st h la e lb e' : ring st h (la ++ e :: lb) -> e' ∉ h :: la ++ e :: lb ->
  exists a b, nx st e = Some b /\ pv st e = Some a /\ a <> e /\ b <> e /\ a <> e' /\ b <> e' /\
    is_Some (st !! a) /\ is_Some (st !! b) /\
    forall st',
      (forall c, c <> e -> nx st' c = if decide (c = e') then Some b else if decide (c = a) then Some e' else nx st c) ->
      (forall c, c <> e -> pv st' c = if decide (c = e') then Some a else if decide (c = b) then Some e' else pv st c) ->
      ring st' h (la ++ e' :: lb).
Proof.
  intros Hr He. destruct (ring_cut h la lb) as (l1 & a & b & l2 & E1 & E2 & _).
  destruct (ring_unlink st h la e lb Hr) as (a' & b' & Hne & Hpe & Hae & Hbe & _ & _ & Hna & Hpb & _).
  pose proof (ring_cut_eq h la lb l1 a b l2 [e] E1 E2) as C1. cbn in C1.
  pose proof (ring_cut_eq h la lb l1 a b l2 [e'] E1 E2) as C2. cbn in C2.
  pose proof (ring_cut_eq h la lb l1 a b l2 [] E1 E2) as C0. cbn in C0.
  destruct (ring_neighbours st h _ l1 a (e :: b :: l2) Hr C1 ltac:(done)) as (x & Hx & _ & Hpe').
  cbn in Hx. injection Hx as <-. assert (a' = a) as -> by congruence.
  destruct (ring_neighbours st h _ (l1 ++ [a]) e (b :: l2) Hr) as (x & Hx & Hne' & _);
    [by rewrite C1, <- app_assoc|done|]. cbn in Hx. injection Hx as <-. assert (b' = b) as -> by congruence.
  assert (a ∈ h :: la) as Hain by (rewrite E1; set_solver).
  assert (b ∈ lb ++ [h]) as Hbin by (rewrite E2; set_solver).
  assert (is_Some (st !! a)) as Hsa by (apply nx_node in Hna as (? & -> & _); eauto).
  assert (is_Some (st !! b)) as Hsb by (apply pv_node in Hpb as (? & -> & _); eauto).
  exists a, b. split_and!; try done.
  - intros ->. apply He. set_solver.
  - intros ->. apply He. set_solver.
  - intros st' Hn' Hp'.
    destruct (upd_next st a b Hsa) as (s1 & _ & R1 & N1 & P1).
    destruct (upd_prev s1 b a (same_rest_is_Some _ _ _ R1 Hsb)) as (s2 & _ & R2 & N2 & P2).
    assert (e <> h) as Heh by (pose proof (ring_nodup _ _ _ Hr) as Hnd; apply NoDup_cons in Hnd as [Hh _]; set_solver).
    assert (ring s2 h (la ++ lb)) as Hr2.
    { apply (ring_remove st s2 h (la ++ e :: lb) _ l1 a b l2 e); try done.
      - intros c _. by rewrite N2, N1.
      - intros c _. rewrite P2. by case_decide; [|rewrite P1]. }
    apply (ring_insert s2 st' h (la ++ lb) _ l1 a b l2 e'); try done.
    + intros Hin. apply He. set_solver.
    + intros c Hc. assert (c <> e) as Hce by (pose proof (ring_nodup _ _ _ Hr) as Hnd;
        destruct Hc as [->|Hc]; [intros ->; apply He; set_solver|];
        intros ->; rewrite NoDup_cons, NoDup_app, NoDup_cons in Hnd; set_solver).
      rewrite Hn' by done. repeat case_decide; try done. by rewrite N2, N1, decide_False.
    + intros c Hc. assert (c <> e) as Hce by (pose proof (ring_nodup _ _ _ Hr) as Hnd;
        destruct Hc as [->|Hc]; [intros ->; apply He; set_solver|];
        intros ->; rewrite NoDup_cons, NoDup_app, NoDup_cons in Hnd; set_solver).
      rewrite Hp' by done. repeat case_decide; try done. by rewrite P2, decide_False, P1.
Qed.

(** ** Walking along the links *)

Fixpoint walk_next (k : nat) (a : Z) (st : gmap Z N) : outcome Z :=
  match k with
  | O => Ok a
  | S k => n ← node a st; walk_next k (lnext n) st
  end.

Fixpoint walk_prev (k : nat) (a : Z) (st : gmap Z N) : outcome Z :=
  match k with
  | O => Ok a
  | S k => n ← node a st; walk_prev k (lprev n) st
  end.

Lemma walk_next_spec st h l k : ring st h l -> forall i a,
  (h :: l ++ [h]) !! i = Some a -> (i + k < length l + 2)%nat ->
  exists b, walk_next k a st = Ok b /\ (h :: l ++ [h]) !! (i + k)%nat = Some b.
Proof.
  intros Hr. induction k as [|k IH]; intros i a Ha Hk; cbn [walk_next].
  { exists a. rewrite Nat.add_0_r. done. }
  destruct (lookup_lt_is_Some_2 (h :: l ++ [h]) (S i)) as [b Hb]; [cbn; rewrite length_app; cbn; lia|].
  destruct (ring_step _ _ _ _ _ _ Hr Ha Hb) as [Hn _]. apply nx_node in Hn as (n & En & <-).
  rewrite (node_ok _ _ _ En). bind_simpl.
  destruct (IH (S i) _ Hb ltac:(lia)) as (c & Ec & Hc). exists c. split; [done|].
  by replace (i + S k)%nat with (S i + k)%nat by lia.
Qed.

Lemma walk_prev_spec st h l k : ring st h l -> forall i a,
  (h :: l ++ [h]) !! i = Some a -> (k <= i)%nat ->
  exists b, walk_prev k a st = Ok b /\ (h :: l ++ [h]) !! (i - k)%nat = Some b.
Proof.
  intros Hr. induction k as [|k IH]; intros i a Ha Hk; cbn [walk_prev].
  { exists a. rewrite Nat.sub_0_r. done. }
  destruct i as [|i]; [lia|].
  destruct (lookup_lt_is_Some_2 (h :: l ++ [h]) i) as [b Hb]; [apply lookup_lt_Some in Ha; lia|].
  destruct (ring_step _ _ _ _ _ _ Hr Hb Ha) as [_ Hp]. apply pv_node in Hp as (n & En & <-).
  rewrite (node_ok _ _ _ En). bind_simpl. apply IH; [done|lia].
Qed.

End Ring.

End Rings.
