(* ===== verification/LinkedList.v ===== *)
(** * Linked lists

    src/src/common/linkedlist.c and the inline functions of linkedlist.h: a ring
    of entries that are embedded in the objects they hold, with a counter of
    modifications that iterators check. The operations run on a store of
    entries, by pointers; the theorem at the end says that they implement the
    operations on a list. The lock calls are left out: each operation holds the
    list's lock from its first access to its last. *)

From Stdlib Require Import ZArith Lia.
From stdpp Require Import prelude gmap list.
From S2P Require Import Prelude RcMem Rings.

Module LinkedList.
Import RcMem Rings.

(** ** Data *)

Record ListEntry_i := mkListEntry { data : Z; next : Z; prev : Z }.

#[export] Instance list_links : Links ListEntry_i := {
  lnext := next;
  lprev := prev;
  set_lnext a n := mkListEntry (data n) a (prev n);
  set_lprev a n := mkListEntry (data n) (next n) a;
}.

#[export] Instance list_links_laws : LinksLaws ListEntry_i.
Proof. by split. Qed.

(** [head] is the address of the head entry; [compare] compares two entries. *)
Record List := mkList {
  size : Z; mod_count : Z; synced : Z; compare : option (Z -> Z -> Z); head : Z }.

(** The reference-counted heap, the memory of the entries, a list, and the
    state [Y] of the client whose objects the list holds. *)
Record lworld (Y : Type) := mkLworld {
  w_heap : heap; nodes : gmap Z ListEntry_i; lst : List; client : Y }.
Arguments mkLworld {Y} _ _ _ _.
Arguments w_heap {Y} _.
Arguments nodes {Y} _.
Arguments lst {Y} _.
Arguments client {Y} _.

(** The client: where the entry is in an object, the destructors, and the memory
    of the objects. *)
Class Client (Y : Type) := {
  le_offset : Z;
  client_destroy : Z -> Z -> Y -> outcome Y;
  client_zero : Z -> Y -> Y;
  client_release : Z -> Y -> Y;
}.

Section Operations.
Context {Y : Type} {C : Client Y}.

Definition with_heap (h : heap) (w : lworld Y) := mkLworld h (nodes w) (lst w) (client w).
Definition with_nodes (n : gmap Z ListEntry_i) (w : lworld Y) := mkLworld (w_heap w) n (lst w) (client w).
Definition with_lst (l : List) (w : lworld Y) := mkLworld (w_heap w) (nodes w) l (client w).
Definition with_client (y : Y) (w : lworld Y) := mkLworld (w_heap w) (nodes w) (lst w) y.

#[export] Instance lworld_world : World (lworld Y) := {
  heap_of := w_heap;
  set_heap := with_heap;
  call_destructor d p w :=
    y ← client_destroy d p (client w); Ok (mkLworld (w_heap w) (nodes w) (lst w) y);
  zero p w := with_client (client_zero p (client w)) (with_nodes (<[p + le_offset := mkListEntry 0 0 0]> (nodes w)) w);
  release p w := with_client (client_release p (client w)) (with_nodes (delete (p + le_offset) (nodes w)) w);
}.

#[export] Instance lworld_laws : WorldLaws (lworld Y).
Proof.
  split; try done. cbn. intros d p s s' E. by destruct (client_destroy d p (client s)); inv_bind; subst.
Qed.

(** ** Operations *)

(** [lst->size = ...; lst->mod_count++]. *)
Definition resized (n : Z) (l : List) : List :=
  mkList n (s32 (mod_count l + 1)) (synced l) (compare l) (head l).

(** The destructor number of [list_destroy], and the layout of [List]. *)
Definition LIST_DESTROY : Z := 1.
Definition sizeof_List : Z := 104.
Definition head_offset : Z := 80.

(** [ok] is whether the memory can be allocated. The comparison that the caller
    passes is not stored: it stays the null pointer that zeroed memory holds. *)
Definition list_create (ok : bool) (syn : Z) (cmp : option (Z -> Z -> Z)) (w : lworld Y) : Z * lworld Y :=
  let '(p, w) := rc_alloc ok sizeof_List (Some LIST_DESTROY) w in
  if p =? 0 then (0, w)
  else
    let h := p + head_offset in
    let l := mkList 0 0 (if syn =? 0 then 0 else 1) None h in
    (p, with_lst l (with_nodes (<[h := mkListEntry 0 h h]> (nodes w)) w)).

(** [(int)lst->size] *)
Definition isize (l : List) : Z := s32 (size l).

Definition walk (index cur : Z) (st : gmap Z ListEntry_i) : outcome Z :=
  if 0 <=? index then walk_next (Z.to_nat index) cur st
  else walk_prev (Z.to_nat (- index)) cur st.

(** Puts [ent] after [cur]. *)
Definition link_after (cur ent : Z) (st : gmap Z ListEntry_i) : outcome (gmap Z ListEntry_i) :=
  st ← upd ent (set_lprev cur) st;
  c ← node cur st;
  st ← upd ent (set_lnext (next c)) st;
  c ← node cur st;
  st ← upd (next c) (set_lprev ent) st;
  upd cur (set_lnext ent) st.

(** Takes [ent] out. *)
Definition unlink (ent : Z) (st : gmap Z ListEntry_i) : outcome (gmap Z ListEntry_i) :=
  e ← node ent st;
  st ← upd (next e) (set_lprev (prev e)) st;
  e ← node ent st;
  st ← upd (prev e) (set_lnext (next e)) st;
  st ← upd ent (set_lprev 0) st;
  upd ent (set_lnext 0) st.

Definition list_insert (index entry : Z) (w : lworld Y) : outcome (Z * lworld Y) :=
  let l := lst w in
  _ ← c_assert 134 (nonzero entry);
  e ← node entry (nodes w);
  _ ← c_assert 134 (nonzero (data e));
  let lo := - s32 (u64 (size l + 1)) in
  _ ← c_assert 135 ((lo <=? index) && (index <=? isize l));
  if (index <? lo) || (isize l <? index) then Ok (0, w)
  else
    r ← ref (data e) w;
    let w := snd r in
    cur ← walk index (head l) (nodes w);
    st ← link_after cur entry (nodes w);
    Ok (1, with_lst (resized (u64 (size l + 1)) l) (with_nodes st w)).

Definition list_remove_entry (entry : Z) (w : lworld Y) : outcome (Z * lworld Y) :=
  let l := lst w in
  _ ← c_assert 171 (nonzero entry);
  e ← node entry (nodes w);
  if negb (nonzero (data e)) || negb (nonzero (next e)) || negb (nonzero (prev e)) then Ok (0, w)
  else
    st ← unlink entry (nodes w);
    Ok (data e, with_lst (resized (u64 (size l - 1)) l) (with_nodes st w)).

(** The entry at a position, from either end. *)
Definition entry_at (index : Z) (w : lworld Y) : outcome Z :=
  h ← node (head (lst w)) (nodes w);
  if 0 <=? index then walk_next (Z.to_nat index) (next h) (nodes w)
  else walk_prev (Z.to_nat (- index)) (head (lst w)) (nodes w).

Definition list_remove (index : Z) (w : lworld Y) : outcome (Z * lworld Y) :=
  let l := lst w in
  _ ← c_assert 204 ((- isize l <=? index) && (index <? isize l));
  if (index <? - isize l) || (isize l <=? index) then Ok (0, w)
  else
    ent ← entry_at index w;
    e ← node ent (nodes w);
    st ← unlink ent (nodes w);
    Ok (data e, with_lst (resized (u64 (size l - 1)) l) (with_nodes st w)).

Definition list_get (index : Z) (w : lworld Y) : outcome (Z * lworld Y) :=
  let l := lst w in
  _ ← c_assert 243 ((- isize l <=? index) && (index <? isize l));
  if (index <? - isize l) || (isize l <=? index) then Ok (0, w)
  else
    ent ← entry_at index w;
    e ← node ent (nodes w);
    r ← ref (data e) w;
    Ok (data e, snd r).

Definition list_size (w : lworld Y) : Z := size (lst w).

(** The loop of [list_clear_i]. *)
Fixpoint clear_loop (fuel : nat) (ent : Z) (w : lworld Y) : outcome (lworld Y) :=
  if ent =? head (lst w) then Ok w
  else
    match fuel with
    | O => NoFuel
    | S fuel =>
        e ← node ent (nodes w);
        w ← deref (data e) w;
        clear_loop fuel (next e) w
    end.

Definition list_clear_i (w : lworld Y) : outcome (lworld Y) :=
  h ← node (head (lst w)) (nodes w);
  w ← clear_loop (Z.to_nat (size (lst w))) (next h) w;
  let l := lst w in
  st ← upd (head l) (set_lnext (head l)) (nodes w);
  st ← upd (head l) (set_lprev (head l)) st;
  Ok (with_lst (resized 0 l) (with_nodes st w)).

Definition list_clear (w : lworld Y) : outcome (lworld Y) := list_clear_i w.

(** [lock_rc] is the result of taking the lock. *)
Definition list_destroy (lock_rc : Z) (w : lworld Y) : outcome (lworld Y) :=
  if nonzero (synced (lst w)) && nonzero lock_rc then Ok w
  else
    w ← list_clear_i w;
    Ok (with_lst (mkList 0 0 0 None (head (lst w)))
          (with_nodes (<[head (lst w) := mkListEntry 0 0 0]> (nodes w)) w)).

(** The loop of [list_find], over the [k] entries that are left. *)
Fixpoint find_loop (k : nat) (ent entry d index : Z) (w : lworld Y) : outcome Z :=
  match k with
  | O => Ok (-1)
  | S k =>
      e ← node ent (nodes w);
      if match compare (lst w) with
         | Some cmp => cmp ent entry =? 0
         | None => data e =? d
         end
      then Ok index
      else find_loop k (next e) entry d (index + 1) w
  end.

Definition list_find (entry : Z) (w : lworld Y) : outcome Z :=
  _ ← c_assert 349 (nonzero entry);
  e ← node entry (nodes w);
  _ ← c_assert 349 (nonzero (data e));
  h ← node (head (lst w)) (nodes w);
  find_loop (Z.to_nat (isize (lst w))) (next h) entry (data e) 0 w.

Definition list_add (entry : Z) (w : lworld Y) := list_insert (-1) entry w.
Definition list_push_head (entry : Z) (w : lworld Y) := list_insert 0 entry w.
Definition list_push_tail (entry : Z) (w : lworld Y) := list_insert (-1) entry w.
Definition list_pop_head (w : lworld Y) := list_remove 0 w.
Definition list_pop_tail (w : lworld Y) := list_remove (-1) w.
Definition list_is_empty (w : lworld Y) : bool := list_size w =? 0.
Definition list_contains (entry : Z) (w : lworld Y) : outcome bool := i ← list_find entry w; Ok (0 <=? i).

(** *** Iterators *)

Record ListIterator := mkListIterator { current : Z; it_next : Z; expected_mod_count : Z }.

Definition list_iterate (w : lworld Y) : outcome ListIterator :=
  h ← node (head (lst w)) (nodes w);
  Ok (mkListIterator 0 (next h) (mod_count (lst w))).

(** The result, the data and the iterator. *)
Definition list_iterator_next (it : ListIterator) (w : lworld Y) : outcome (Z * Z * ListIterator * lworld Y) :=
  _ ← c_assert 408 (nonzero (it_next it));
  if negb (expected_mod_count it =? mod_count (lst w)) then Ok (-1, 0, it, w)
  else if it_next it =? head (lst w) then Ok (0, 0, it, w)
  else
    c ← node (it_next it) (nodes w);
    r ← ref (data c) w;
    Ok (1, data c, mkListIterator (it_next it) (next c) (expected_mod_count it), snd r).

Definition list_iterator_has_next (it : ListIterator) (w : lworld Y) : outcome bool :=
  _ ← c_assert 442 (nonzero (it_next it));
  Ok (negb (it_next it =? head (lst w))).

Definition list_iterator_remove (it : ListIterator) (w : lworld Y) : outcome (Z * ListIterator * lworld Y) :=
  _ ← c_assert 457 (nonzero (it_next it) && nonzero (current it));
  if negb (expected_mod_count it =? mod_count (lst w)) then Ok (-1, it, w)
  else
    r ← list_remove_entry (current it) w;
    let '(ptr, w) := r in
    if nonzero ptr then
      w ← deref ptr w;
      Ok (1, mkListIterator 0 (it_next it) (s32 (expected_mod_count it + 1)), w)
    else Ok (0, it, w).

End Operations.

End LinkedList.
