(* ===== verification/LinkedListThm.v ===== *)
(** * Linked lists: refinement

    The operations of LinkedList.v implement the operations on a list of
    entries. *)

From Stdlib Require Import ZArith Lia.
From stdpp Require Import prelude gmap list.
From S2P Require Import Prelude RcMem Rings LinkedList.

Module LinkedListThm.
Import RcMem Rings LinkedList.

Section Refinement.
Context {Y : Type} {C : Client Y}.

(** [e] is the entry of an object that is alive. *)
Definition entry_of (w : lworld Y) (e d : Z) : Prop :=
  e = d + le_offset /\ (exists n, nodes w !! e = Some n /\ data n = d) /\ exists k dt, live w d k dt.

(** The world holds the list of entries [l]. *)
Record rep (w : lworld Y) (l : list Z) : Prop := {
  rp_ring : ring (nodes w) (head (lst w)) l;
  rp_head : head (lst w) <> 0;
  rp_nonzero : 0 ∉ l;
  rp_size : size (lst w) = zlen l;
  rp_small : zlen l < 2 ^ 31 - 1;
  rp_data : forall e, e ∈ l -> entry_of w e (e - le_offset);
}.

Lemma isize_rep w l : rep w l -> isize (lst w) = zlen l.
Proof. intros []. pose proof (zlen_nonneg l). unfold isize. rewrite rp_size0. apply s32_small. lia. Qed.

(** ** Links *)

Lemma link_after_spec st h l l1 cur nxt l2 ent :
  ring st h l -> h :: l ++ [h] = l1 ++ cur :: nxt :: l2 -> ent ∉ h :: l -> is_Some (st !! ent) ->
  exists st', link_after cur ent st = Ok st' /\ same_rest st st' /\
    (forall c, nx st' c = if decide (c = ent) then Some nxt else if decide (c = cur) then Some ent else nx st c) /\
    (forall c, pv st' c = if decide (c = ent) then Some cur else if decide (c = nxt) then Some ent else pv st c).
Proof.
  intros Hr E Hent Hs.
  destruct (ring_neighbours st h l l1 cur (nxt :: l2) Hr E ltac:(done)) as (b & Hb & Hn & Hp).
  cbn in Hb. injection Hb as <-.
  assert (cur <> ent /\ nxt <> ent) as [Hc1 Hc2].
  { assert ((cur, nxt) ∈ pairs (h :: l ++ [h])) as Hc' by (rewrite E, pairs_app, pairs_cons; set_solver).
    split; intros ->; apply Hent.
    - rewrite <- (ring_firsts h l). by apply (list_elem_of_fmap_2 fst _ (ent, nxt)).
    - apply (list_elem_of_fmap_2 snd) in Hc'. rewrite pairs_snd in Hc'. cbn in Hc'. set_solver. }
  assert (is_Some (st !! cur)) as Hsc by (apply nx_node in Hn as (? & -> & _); eauto).
  assert (is_Some (st !! nxt)) as Hsn by (apply pv_node in Hp as (? & -> & _); eauto).
  unfold link_after.
  destruct (upd_prev st ent cur Hs) as (s1 & -> & R1 & N1 & P1). bind_simpl.
  assert (nx s1 cur = Some nxt) as (c1 & E1 & X1)%nx_node by (by rewrite N1).
  rewrite (node_ok _ _ _ E1). bind_simpl. cbn in X1. rewrite X1.
  destruct (upd_next s1 ent nxt (same_rest_is_Some _ _ _ R1 Hs)) as (s2 & -> & R2 & N2 & P2). bind_simpl.
  assert (nx s2 cur = Some nxt) as (c2 & E2 & X2)%nx_node by (by rewrite N2, decide_False, N1).
  rewrite (node_ok _ _ _ E2). bind_simpl. cbn in X2. rewrite X2.
  destruct (upd_prev s2 nxt ent) as (s3 & -> & R3 & N3 & P3);
    [by eapply same_rest_is_Some; [|eapply same_rest_is_Some]|]. bind_simpl.
  destruct (upd_next s3 cur ent) as (s4 & -> & R4 & N4 & P4);
    [by eapply same_rest_is_Some; [|eapply same_rest_is_Some; [|eapply same_rest_is_Some]]|].
  exists s4. split; [done|]. split; [by rewrite R1, R2, R3|]. split; intros c.
  - rewrite N4, N3, N2, N1. repeat case_decide; congruence.
  - rewrite P4, P3, P2, P1. repeat case_decide; congruence.
Qed.

Lemma unlink_spec st h l l1 a e b l2 :
  ring st h l -> h :: l ++ [h] = l1 ++ a :: e :: b :: l2 -> e <> h ->
  exists st', unlink e st = Ok st' /\ same_rest st st' /\
    (forall c, c <> e -> nx st' c = if decide (c = a) then Some b else nx st c) /\
    (forall c, c <> e -> pv st' c = if decide (c = b) then Some a else pv st c).
Proof.
  intros Hr E He.
  destruct (ring_neighbours st h l l1 a (e :: b :: l2) Hr E ltac:(done)) as (x & Hx & Hna & Hpe).
  cbn in Hx. injection Hx as <-.
  destruct (ring_neighbours st h l (l1 ++ [a]) e (b :: l2) Hr) as (x & Hx & Hne & Hpb);
    [by rewrite <- app_assoc|done|]. cbn in Hx. injection Hx as <-.
  assert (is_Some (st !! a)) as Hsa by (apply nx_node in Hna as (? & -> & _); eauto).
  assert (is_Some (st !! b)) as Hsb by (apply pv_node in Hpb as (? & -> & _); eauto).
  assert (is_Some (st !! e)) as Hse by (apply nx_node in Hne as (? & -> & _); eauto).
  assert (a <> e /\ b <> e) as [Hae Hbe].
  { assert (NoDup (h :: l)) as Hnd by apply Hr.
    pose proof (ring_firsts h l) as HF. rewrite E, pairs_app, !pairs_cons, fmap_app in HF. cbn in HF.
    pose proof (ring_seconds_nodup h l Hnd) as HS. rewrite E, pairs_app, !pairs_cons, fmap_app in HS. cbn in HS.
    rewrite <- HF in Hnd. apply NoDup_app in Hnd as (_ & _ & Hnd). apply NoDup_app in HS as (_ & _ & HS).
    apply NoDup_cons in Hnd as [Hnd _]. apply NoDup_cons in HS as [HS _]. set_solver. }
  unfold unlink.
  pose proof Hne as (n0 & E0 & X0)%nx_node. pose proof Hpe as (n0' & E0' & X0')%pv_node.
  assert (n0' = n0) as -> by congruence. rewrite (node_ok _ _ _ E0). bind_simpl. cbn in X0, X0'. rewrite X0, X0'.
  destruct (upd_prev st b a Hsb) as (s1 & -> & R1 & N1 & P1). bind_simpl.
  assert (nx s1 e = Some b) as (n1 & E1 & X1)%nx_node by (by rewrite N1).
  assert (pv s1 e = Some a) as (n1' & E1' & X1')%pv_node by (by rewrite P1, decide_False).
  assert (n1' = n1) as -> by congruence. rewrite (node_ok _ _ _ E1). bind_simpl. cbn in X1, X1'. rewrite X1, X1'.
  destruct (upd_next s1 a b (same_rest_is_Some _ _ _ R1 Hsa)) as (s2 & -> & R2 & N2 & P2). bind_simpl.
  destruct (upd_prev s2 e 0) as (s3 & -> & R3 & N3 & P3);
    [by eapply same_rest_is_Some; [|eapply same_rest_is_Some]|]. bind_simpl.
  destruct (upd_next s3 e 0) as (s4 & -> & R4 & N4 & P4);
    [by eapply same_rest_is_Some; [|eapply same_rest_is_Some; [|eapply same_rest_is_Some]]|].
  exists s4. split; [done|]. split; [by rewrite R1, R2, R3|]. split; intros c Hc.
  - rewrite N4, N3, N2, N1, decide_False by done. done.
  - rewrite P4, P3, P2, P1, decide_False by done. done.
Qed.

Lemma insert_ring st h la lb l1 a b l2 ent :
  ring st h (la ++ lb) -> h :: la = l1 ++ [a] -> lb ++ [h] = b :: l2 -> ent ∉ h :: la ++ lb -> is_Some (st !! ent) ->
  exists st', link_after a ent st = Ok st' /\ same_rest st st' /\ ring st' h (la ++ ent :: lb).
Proof.
  intros Hr E1 E2 He Hs.
  pose proof (ring_cut_eq h la lb l1 a b l2 [] E1 E2) as C0. cbn in C0.
  pose proof (ring_cut_eq h la lb l1 a b l2 [ent] E1 E2) as C1. cbn in C1.
  destruct (link_after_spec st h _ l1 a b l2 ent Hr C0 He Hs) as (st' & E & HR & Hn & Hp).
  exists st'. split; [done|]. split; [done|].
  by apply (ring_insert st st' h (la ++ lb) _ l1 a b l2 ent).
Qed.

Lemma remove_ring st h la e lb : ring st h (la ++ e :: lb) -> e <> h ->
  exists st', unlink e st = Ok st' /\ same_rest st st' /\ ring st' h (la ++ lb).
Proof.
  intros Hr He. destruct (ring_cut h la lb) as (l1 & a & b & l2 & E1 & E2 & _).
  pose proof (ring_cut_eq h la lb l1 a b l2 [] E1 E2) as C0. cbn in C0.
  pose proof (ring_cut_eq h la lb l1 a b l2 [e] E1 E2) as C1. cbn in C1.
  destruct (unlink_spec st h _ l1 a e b l2 Hr C1 He) as (st' & E & HR & Hn & Hp).
  exists st'. split; [done|]. split; [done|].
  by apply (ring_remove st st' h (la ++ e :: lb) _ l1 a b l2 e).
Qed.

(** ** Frames *)

Lemma entry_of_mono (w w' : lworld Y) e d : entry_of w e d ->
  same_rest (nodes w) (nodes w') -> (forall k dt, live w d k dt -> exists k' dt', live w' d k' dt') ->
  entry_of w' e d.
Proof.
  intros (He & (n & En & Hd) & k & dt & Hl) Hs Hh. split; [done|]. split; [|eauto].
  destruct (same_rest_lookup _ _ _ _ Hs En) as (n' & En' & Hr). exists n'. split; [done|].
  rewrite <- Hd. change (data (erase n') = data (erase n)). by rewrite Hr.
Qed.

Lemma entry_node (w : lworld Y) e d : entry_of w e d -> exists n, node e (nodes w) = Ok n /\ data n = d.
Proof. intros (_ & (n & E & Hd) & _). exists n. split; [by apply node_ok|done]. Qed.

(** Taking one more reference to [d]. *)
Lemma list_ref_frame (w : lworld Y) d k dt : live w d k dt -> k + 1 < 2 ^ 32 ->
  exists w', ref d w = Ok (d, w') /\ nodes w' = nodes w /\ lst w' = lst w /\ client w' = client w /\
    live w' d (k + 1) dt /\ w_heap w' = mkHeap (<[d := mkRc (k + 1) dt mem_magic]> (objs (w_heap w))) (brk (w_heap w)) /\
    (forall p k' dt', live w p k' dt' -> exists k'' dt'', live w' p k'' dt'').
Proof.
  intros Hl Hk. eexists. split; [by apply ref_ok|].
  assert (live (set_obj d (mkRc (k + 1) dt mem_magic) w) d (k + 1) dt) as Hl'
    by (apply (live_set_obj _ _ k); [done|destruct Hl; lia]).
  split_and!; try done. intros p k' dt' Hp. destruct (decide (p = d)) as [->|Hne]; [eauto|].
  exists k', dt'. destruct Hp as (Hp0 & Hp1 & Hp2). split; [done|]. split; [done|].
  by rewrite obj_after_set.
Qed.

(** The list, seen in another world: its entries, and objects for them. *)
Lemma list_rep_frame (w w' : lworld Y) l : rep w l -> lst w' = lst w ->
  (forall a, a ∈ head (lst w) :: l -> nodes w' !! a = nodes w !! a) ->
  (forall e, e ∈ l -> exists k dt, live w' (e - le_offset) k dt) -> rep w' l.
Proof.
  intros [Hring] El Hn Hl. split; rewrite ?El; try done.
  - apply (ring_ext (nodes w)); [done|]; intros a Ha; unfold nx, pv; by rewrite Hn.
  - intros e He. destruct (rp_data0 e He) as (H1 & (n & En & Hd) & _). split; [done|]. split; [|by apply Hl].
    exists n. rewrite Hn by (by right). done.
Qed.

(** ** Positions *)

(** The position of an index from either end, for insertion and for access. *)
Definition insert_pos (n i : Z) : Z := if 0 <=? i then i else n + 1 + i.
Definition access_pos (n i : Z) : Z := if 0 <=? i then i else n + i.

Lemma ring_last (h : Z) l : (h :: l ++ [h]) !! S (length l) = Some h.
Proof. by apply (list_lookup_middle (h :: l) []). Qed.

Lemma walk_insert st h l i : ring st h l -> - (zlen l + 1) <= i <= zlen l ->
  exists a, walk i h st = Ok a /\ (h :: l ++ [h]) !! Z.to_nat (insert_pos (zlen l) i) = Some a.
Proof.
  intros Hr Hi. unfold walk, insert_pos, zlen in *. destruct (Z.leb_spec 0 i).
  - apply (walk_next_spec st h l (Z.to_nat i) Hr 0 h); [done|lia].
  - destruct (walk_prev_spec st h l (Z.to_nat (- i)) Hr (S (length l)) h) as (a & Ea & Ha).
    + apply ring_last.
    + lia.
    + exists a. split; [done|]. rewrite <- Ha. f_equal. lia.
Qed.

Lemma ring_head_next (w : lworld Y) l : rep w l ->
  exists n b, node (head (lst w)) (nodes w) = Ok n /\ next n = b /\
    (head (lst w) :: l ++ [head (lst w)]) !! 1%nat = Some b.
Proof.
  intros []. assert (exists b, (head (lst w) :: l ++ [head (lst w)]) !! 1%nat = Some b) as [b Hb]
    by (apply lookup_lt_is_Some_2; cbn; rewrite length_app; cbn; lia).
  destruct (ring_step _ _ _ 0 _ _ rp_ring0 eq_refl Hb) as [(n & En & Hn)%nx_node _].
  exists n, b. split; [by apply node_ok|]. done.
Qed.

Lemma entry_at_spec (w : lworld Y) l i : rep w l -> - zlen l <= i < zlen l ->
  exists e, entry_at i w = Ok e /\ l !! Z.to_nat (access_pos (zlen l) i) = Some e.
Proof.
  intros HR Hi. pose proof HR as []. destruct (ring_head_next w l HR) as (n & b & Hn & Hb & Hl1).
  unfold entry_at. rewrite Hn. bind_simpl. rewrite Hb. unfold access_pos, zlen in *.
  assert (exists e, (if 0 <=? i then walk_next (Z.to_nat i) b (nodes w)
     else walk_prev (Z.to_nat (- i)) (head (lst w)) (nodes w)) = Ok e /\
     (head (lst w) :: l ++ [head (lst w)]) !! S (Z.to_nat (if 0 <=? i then i else Z.of_nat (length l) + i)) = Some e)
    as (e & He1 & He2).
  { destruct (Z.leb_spec 0 i).
    - apply (walk_next_spec _ _ l (Z.to_nat i) rp_ring0 1 b); [done|lia].
    - destruct (walk_prev_spec _ _ l (Z.to_nat (- i)) rp_ring0 (S (length l)) (head (lst w))) as (a & Ea & Ha).
      + apply ring_last.
      + lia.
      + exists a. split; [done|]. rewrite <- Ha. f_equal. lia. }
  exists e. split; [done|]. change ((l ++ [head (lst w)]) !! Z.to_nat (if 0 <=? i then i else Z.of_nat (length l) + i) = Some e) in He2.
  rewrite lookup_app_l in He2; [done|]. destruct (Z.leb_spec 0 i); lia.
Qed.

(** ** Operations *)

Lemma rep_intro (w w' : lworld Y) l l' :
  rep w l -> ring (nodes w') (head (lst w)) l' -> head (lst w') = head (lst w) -> size (lst w') = zlen l' ->
  zlen l' < 2 ^ 31 - 1 -> (forall e, e ∈ l' -> entry_of w' e (e - le_offset) /\ e <> 0) -> rep w' l'.
Proof.
  intros [] Hr Hh Hs Hz He. split; try done; try by rewrite Hh.
  - intros H0. by apply He in H0 as [_ H0].
  - intros e Hin. by apply He.
Qed.

Lemma entry_nonzero (w : lworld Y) l e : rep w l -> e ∈ l -> e <> 0.
Proof. intros [] He ->. done. Qed.

Lemma list_insert_spec (w : lworld Y) l i e d k dt :
  rep w l -> zlen l + 1 < 2 ^ 31 - 1 -> - (zlen l + 1) <= i <= zlen l ->
  e <> 0 -> e ∉ head (lst w) :: l -> entry_of w e d -> live w d k dt -> k + 1 < 2 ^ 32 ->
  let pos := Z.to_nat (insert_pos (zlen l) i) in
  exists w', list_insert i e w = Ok (1, w') /\ rep w' (take pos l ++ e :: drop pos l) /\
    live w' d (k + 1) dt /\ client w' = client w /\ mod_count (lst w') = s32 (mod_count (lst w) + 1) /\
    head (lst w') = head (lst w) /\
    w_heap w' = mkHeap (<[d := mkRc (k + 1) dt mem_magic]> (objs (w_heap w))) (brk (w_heap w)).
Proof.
  intros HR Hz Hi He Hnew Hent Hl Hk pos. pose proof HR as []. pose proof (zlen_nonneg l).
  destruct (entry_node w e d Hent) as (n & En & Hd). pose proof (isize_rep w l HR) as His.
  unfold list_insert. rewrite His, rp_size0, u64_small, s32_small by lia.
  assert (nonzero e = true) as -> by (by apply nonzero_true).
  cbn [c_assert]. bind_simpl. rewrite En. bind_simpl. rewrite Hd.
  assert (nonzero d = true) as -> by (destruct Hl; by apply nonzero_true).
  cbn [c_assert]. bind_simpl. rewrite !(proj2 (Z.leb_le _ _)) by lia. cbn [andb c_assert]. bind_simpl.
  rewrite !(proj2 (Z.ltb_ge _ _)) by lia. cbn [orb].
  destruct (list_ref_frame w d k dt Hl Hk) as (w1 & -> & Hn1 & Hl1 & Hc1 & Hlive & Hh1 & Hmono). bind_simpl. cbn [snd].
  rewrite Hn1. destruct (walk_insert _ _ l i rp_ring0 Hi) as (a & -> & Ha). bind_simpl.
  fold pos in Ha. destruct (ring_cut (head (lst w)) (take pos l) (drop pos l)) as (l1 & a' & b & l2 & C1 & C2 & Ha').
  assert (pos <= length l)%nat as Hpos
    by (unfold pos, insert_pos, zlen in *; destruct (Z.leb_spec 0 i); lia).
  assert (a' = a) as ->.
  { rewrite <- (take_drop pos l), <- app_assoc in Ha.
    change (((head (lst w) :: take pos l) ++ drop pos l ++ [head (lst w)]) !! pos = Some a) in Ha.
    rewrite length_take, Nat.min_l in Ha' by lia. rewrite lookup_app_l in Ha; [congruence|].
    cbn. rewrite length_take. lia. }
  assert (is_Some (nodes w !! e)) as Hsome by (destruct Hent as (_ & (? & -> & _) & _); eauto).
  assert (ring (nodes w) (head (lst w)) (take pos l ++ drop pos l)) as Hr' by (by rewrite take_drop).
  assert (e ∉ head (lst w) :: take pos l ++ drop pos l) as Hnew' by (by rewrite take_drop).
  destruct (insert_ring _ _ _ _ _ _ _ _ e Hr' C1 C2 Hnew' Hsome) as (st & -> & Hsr & Hring).
  bind_simpl. eexists. split; [reflexivity|]. split; [|split_and!; [exact Hlive|exact Hc1|reflexivity|reflexivity|exact Hh1]].
  apply (rep_intro w _ l); try done; cbn [lst with_lst resized size head].
  - unfold zlen. rewrite length_app, length_take. cbn. rewrite length_drop. unfold zlen in *. lia.
  - unfold zlen in *. rewrite length_app, length_take. cbn. rewrite length_drop. lia.
  - intros x Hx. rewrite elem_of_app, elem_of_cons in Hx.
    assert (x ∈ l \/ x = e) as [Hxl| ->] by (rewrite <- (take_drop pos l), elem_of_app; tauto).
    + split; [|by eapply entry_nonzero]. eapply entry_of_mono; [by apply rp_data0|done|exact (Hmono _)].
    + split; [|done]. destruct Hent as (-> & Hent). replace (d + le_offset - le_offset) with d by lia.
      eapply (entry_of_mono w); [by split|done|exact (Hmono _)].
Qed.

Lemma remove_spec (w : lworld Y) la e lb : rep w (la ++ e :: lb) ->
  exists st, unlink e (nodes w) = Ok st /\
    rep (with_lst (resized (u64 (size (lst w) - 1)) (lst w)) (with_nodes st w)) (la ++ lb).
Proof.
  intros HR. pose proof HR as [].
  assert (e <> head (lst w)) as Hne.
  { destruct rp_ring0 as [Hnd _]. apply NoDup_cons in Hnd as [Hnd _]. set_solver. }
  destruct (remove_ring _ _ _ _ _ rp_ring0 Hne) as (st & E & Hsr & Hring).
  exists st. split; [done|]. assert (zlen (la ++ lb) + 1 = zlen (la ++ e :: lb)) as Hz
    by (unfold zlen; rewrite !length_app; cbn; lia). pose proof (zlen_nonneg (la ++ lb)).
  apply (rep_intro w _ (la ++ e :: lb)); try done; cbn [lst with_lst resized size head].
  - rewrite u64_small; lia.
  - lia.
  - intros x Hx. assert (x ∈ la ++ e :: lb) as Hx' by set_solver. split; [|by eapply entry_nonzero].
    eapply entry_of_mono; [by apply rp_data0|done|eauto].
Qed.

Lemma access_pos_lt n i : - n <= i < n -> 0 <= access_pos n i < n.
Proof. unfold access_pos. destruct (Z.leb_spec 0 i); lia. Qed.

Lemma list_remove_spec (w : lworld Y) l i : rep w l -> - zlen l <= i < zlen l ->
  let pos := Z.to_nat (access_pos (zlen l) i) in
  exists e w', l !! pos = Some e /\ list_remove i w = Ok (e - le_offset, w') /\ rep w' (delete pos l) /\
    w_heap w' = w_heap w /\ client w' = client w /\ mod_count (lst w') = s32 (mod_count (lst w) + 1).
Proof.
  intros HR Hi pos. destruct (entry_at_spec w l i HR Hi) as (e & He & Hpos).
  unfold list_remove. rewrite (isize_rep w l HR).
  rewrite (proj2 (Z.leb_le (- zlen l) i)), (proj2 (Z.ltb_lt i (zlen l))) by lia. cbn [andb c_assert]. bind_simpl.
  rewrite (proj2 (Z.ltb_ge i (- zlen l))), (proj2 (Z.leb_gt (zlen l) i)) by lia. cbn [orb]. rewrite He. bind_simpl.
  destruct (entry_node w e (e - le_offset)) as (n & -> & Hd);
    [apply (rp_data _ _ HR); by eapply list_elem_of_lookup_2|]. bind_simpl.
  pose proof (take_drop_middle _ _ _ Hpos) as Hsplit. rewrite <- Hsplit in HR.
  destruct (remove_spec w _ _ _ HR) as (st & -> & HR'). bind_simpl. rewrite Hd.
  exists e. eexists. split; [done|]. split; [reflexivity|]. split; [|done].
  by rewrite delete_take_drop.
Qed.

Lemma ring_interior_links (w : lworld Y) la e lb : rep w (la ++ e :: lb) ->
  exists n, nodes w !! e = Some n /\ next n <> 0 /\ prev n <> 0.
Proof.
  intros HR. pose proof HR as []. set (h := head (lst w)) in *.
  destruct (ring_cut h la lb) as (l1 & a & b & l2 & E1 & E2 & _).
  pose proof (ring_cut_eq h la lb l1 a b l2 [e] E1 E2) as C1. cbn in C1.
  destruct (ring_neighbours _ h _ l1 a (e :: b :: l2) rp_ring0 C1 ltac:(done)) as (x & Hx & _ & Hpe).
  cbn in Hx. injection Hx as <-.
  destruct (ring_neighbours _ h _ (l1 ++ [a]) e (b :: l2) rp_ring0) as (x & Hx & Hne & _);
    [by rewrite C1, <- app_assoc|done|]. cbn in Hx. injection Hx as <-.
  apply nx_node in Hne as (n & En & Hnx). apply pv_node in Hpe as (n' & En' & Hpv).
  assert (n' = n) as -> by congruence. exists n. split; [done|]. cbn in *. subst a b.
  assert (prev n ∈ h :: la) as Ha by (rewrite E1; set_solver).
  assert (next n ∈ lb ++ [h]) as Hb by (rewrite E2; set_solver).
  rewrite not_elem_of_app, not_elem_of_cons in rp_nonzero0. destruct rp_nonzero0 as (Hla & _ & Hlb).
  split; intros Hz; [rewrite Hz, elem_of_app, list_elem_of_singleton in Hb|rewrite Hz, elem_of_cons in Ha]; naive_solver.
Qed.

Lemma list_remove_entry_spec (w : lworld Y) la e lb : rep w (la ++ e :: lb) ->
  exists w', list_remove_entry e w = Ok (e - le_offset, w') /\ rep w' (la ++ lb) /\
    w_heap w' = w_heap w /\ client w' = client w /\ mod_count (lst w') = s32 (mod_count (lst w) + 1) /\
    head (lst w') = head (lst w).
Proof.
  intros HR. assert (e ∈ la ++ e :: lb) as Hin by set_solver.
  unfold list_remove_entry. pose proof (entry_nonzero w _ e HR Hin) as He0.
  assert (nonzero e = true) as -> by (by apply nonzero_true).
  cbn [c_assert]. bind_simpl. destruct (ring_interior_links w la e lb HR) as (n & En & Hn & Hp).
  rewrite (node_ok _ _ _ En). bind_simpl.
  destruct (rp_data _ _ HR e Hin) as (_ & (n' & En' & Hd) & k & dt & Hl & _). assert (n' = n) as -> by congruence.
  rewrite Hd. unfold nonzero. rewrite !(proj2 (Z.eqb_neq _ _)) by done. cbn [negb orb].
  destruct (remove_spec w _ _ _ HR) as (st & -> & HR'). bind_simpl.
  eexists. split; [reflexivity|]. split; [exact HR'|done].
Qed.

Lemma list_get_spec (w : lworld Y) l i : rep w l -> - zlen l <= i < zlen l ->
  (forall e k dt, e ∈ l -> live w (e - le_offset) k dt -> k + 1 < 2 ^ 32) ->
  let pos := Z.to_nat (access_pos (zlen l) i) in
  exists e w' k dt, l !! pos = Some e /\ list_get i w = Ok (e - le_offset, w') /\ rep w' l /\
    live w (e - le_offset) k dt /\ live w' (e - le_offset) (k + 1) dt /\ client w' = client w.
Proof.
  intros HR Hi Hroom pos. destruct (entry_at_spec w l i HR Hi) as (e & He & Hpos).
  assert (e ∈ l) as Hin by (by eapply list_elem_of_lookup_2).
  unfold list_get. rewrite (isize_rep w l HR).
  rewrite (proj2 (Z.leb_le (- zlen l) i)), (proj2 (Z.ltb_lt i (zlen l))) by lia. cbn [andb c_assert]. bind_simpl.
  rewrite (proj2 (Z.ltb_ge i (- zlen l))), (proj2 (Z.leb_gt (zlen l) i)) by lia. cbn [orb]. rewrite He. bind_simpl.
  destruct (rp_data _ _ HR e Hin) as (_ & (n & En & Hd) & k & dt & Hl).
  rewrite (node_ok _ _ _ En). bind_simpl. rewrite Hd.
  destruct (list_ref_frame w _ k dt Hl (Hroom e k dt Hin Hl)) as (w1 & -> & Hn1 & Hl1 & Hc1 & Hlive & Hh1 & Hmono). bind_simpl. cbn [snd].
  exists e, w1, k, dt. split; [done|]. split; [done|]. split; [|done].
  destruct HR. split; rewrite ?Hn1, ?Hl1; try done.
  intros x Hx. eapply entry_of_mono; [by apply rp_data0|by rewrite Hn1|exact (Hmono _)].
Qed.

(** ** Finding an entry *)

Definition matches (w : lworld Y) (entry d e : Z) : bool :=
  match compare (lst w) with Some cmp => cmp e entry =? 0 | None => e - le_offset =? d end.

(** The position of the first match in [l], counted from [index], or -1. *)
Fixpoint first_match (w : lworld Y) (entry d : Z) (l : list Z) (index : Z) : Z :=
  match l with
  | [] => -1
  | e :: l => if matches w entry d e then index else first_match w entry d l (index + 1)
  end.

Lemma find_loop_spec (w : lworld Y) l entry d : rep w l -> forall l2 l1 ent index,
  l = l1 ++ l2 -> hd_error (l2 ++ [head (lst w)]) = Some ent ->
  find_loop (length l2) ent entry d index w = Ok (first_match w entry d l2 index).
Proof.
  intros HR. pose proof HR as []. induction l2 as [|e l2 IH]; intros l1 ent index El Hd; cbn [find_loop length first_match]; [done|].
  cbn in Hd. injection Hd as <-.
  destruct (rp_data0 e ltac:(subst l; set_solver)) as (_ & (n & En & Hdn) & _). rewrite (node_ok _ _ _ En). bind_simpl.
  unfold matches at 1. rewrite Hdn. destruct (match compare (lst w) with Some _ => _ | None => _ end); [done|].
  destruct (ring_neighbours _ _ _ (head (lst w) :: l1) e (l2 ++ [head (lst w)]) rp_ring0) as (b & Hb & Hn & _).
  - subst l. cbn. by rewrite <- app_assoc.
  - by destruct l2.
  - apply nx_node in Hn as (n' & En' & Hnx). assert (n' = n) as -> by congruence. cbn in Hnx. subst b.
    apply (IH (l1 ++ [e])); [by rewrite <- app_assoc|]. by destruct l2.
Qed.

Lemma list_find_spec (w : lworld Y) l entry d : rep w l -> entry <> 0 -> entry_of w entry d ->
  list_find entry w = Ok (first_match w entry d l 0).
Proof.
  intros HR He Hent. pose proof (isize_rep w l HR) as His. unfold list_find.
  assert (nonzero entry = true) as -> by (by apply nonzero_true).
  cbn [c_assert]. bind_simpl. destruct Hent as (_ & (n & En & Hd) & k & dt & Hl & _).
  rewrite (node_ok _ _ _ En). bind_simpl. rewrite Hd.
  assert (nonzero d = true) as -> by (by apply nonzero_true).
  cbn [c_assert]. bind_simpl. destruct (ring_head_next w l HR) as (nh & b & -> & Hb & Hl1). bind_simpl.
  rewrite Hb, His. unfold zlen. rewrite Nat2Z.id. apply (find_loop_spec w l entry d HR l []); [done|].
  change ((l ++ [head (lst w)]) !! 0%nat = Some b) in Hl1. by destruct l.
Qed.

(** ** Iteration

    The loop that clients write: each object is used while the iterator's
    reference to it is held. *)

Fixpoint visit (fuel : nat) (it : ListIterator) (w : lworld Y) : outcome (list Z * lworld Y) :=
  more ← list_iterator_has_next it w;
  if negb more then Ok ([], w)
  else
    match fuel with
    | O => NoFuel
    | S fuel =>
        r ← list_iterator_next it w;
        let '(rc, d, it, w) := r in
        w ← deref d w;
        q ← visit fuel it w;
        Ok (d :: fst q, snd q)
    end.

Lemma ref_deref_id (w : lworld Y) d k dt : live w d k dt -> k + 1 < 2 ^ 32 ->
  exists w1, ref d w = Ok (d, w1) /\ deref d w1 = Ok w.
Proof.
  intros Hl Hk. eexists. split; [by apply ref_ok|].
  rewrite (deref_keeps _ _ (k + 1) dt); [|apply (live_set_obj _ _ k); [done|destruct Hl; lia]|destruct Hl; lia].
  replace (k + 1 - 1) with k by lia. f_equal. unfold set_obj. destruct w as [[o b] nd ls cl]. cbn. unfold with_heap. cbn. f_equal. f_equal.
  rewrite insert_insert_eq. apply insert_id. by destruct Hl as (_ & _ & ?).
Qed.

(** The iterator has the entries [l2] of the list before it. *)
Definition stands (w : lworld Y) (l2 : list Z) (it : ListIterator) : Prop :=
  hd_error (l2 ++ [head (lst w)]) = Some (it_next it) /\ expected_mod_count it = mod_count (lst w).

Lemma list_iterate_spec (w : lworld Y) l : rep w l -> exists it, list_iterate w = Ok it /\ stands w l it.
Proof.
  intros HR. destruct (ring_head_next w l HR) as (nh & b & E & Hb & Hl1).
  unfold list_iterate. rewrite E. bind_simpl. eexists. split; [reflexivity|]. split; [|done]. cbn [it_next].
  change ((l ++ [head (lst w)]) !! 0%nat = Some b) in Hl1. rewrite Hb. by destruct l.
Qed.

Lemma list_has_next_spec (w : lworld Y) l l1 l2 it : rep w l -> l = l1 ++ l2 -> stands w l2 it ->
  list_iterator_has_next it w = Ok (match l2 with [] => false | _ => true end).
Proof.
  intros HR El [Hd _]. pose proof HR as []. unfold list_iterator_has_next. destruct l2 as [|e l2]; cbn in Hd; injection Hd as <-.
  - rewrite (nonzero_true _ rp_head0). cbn [c_assert]. bind_simpl. by rewrite Z.eqb_refl.
  - assert (e ∈ l) as Hin by (subst l; set_solver). rewrite (nonzero_true _ (entry_nonzero w l e HR Hin)). cbn [c_assert]. bind_simpl.
    rewrite (proj2 (Z.eqb_neq _ _)); [done|]. destruct rp_ring0 as [Hnd _]. apply NoDup_cons in Hnd as [Hnd _]. congruence.
Qed.

Lemma list_next_spec (w : lworld Y) l l1 e l2 it k dt : rep w l -> l = l1 ++ e :: l2 -> stands w (e :: l2) it ->
  live w (e - le_offset) k dt -> k + 1 < 2 ^ 32 ->
  exists it' w1, list_iterator_next it w = Ok (1, e - le_offset, it', w1) /\ ref (e - le_offset) w = Ok (e - le_offset, w1) /\
    stands w l2 it'.
Proof.
  intros HR El [Hd Hm] Hl Hk. pose proof HR as []. cbn in Hd. injection Hd as Hd.
  assert (e ∈ l) as Hin by (subst l; set_solver).
  assert (e <> head (lst w)) as Heh by (destruct rp_ring0 as [Hnd _]; apply NoDup_cons in Hnd as [Hnd _]; congruence).
  unfold list_iterator_next. rewrite <- Hd, (nonzero_true _ (entry_nonzero w l e HR Hin)). cbn [c_assert]. bind_simpl.
  rewrite Hm, Z.eqb_refl, (proj2 (Z.eqb_neq _ _)) by done. cbn [negb].
  destruct (rp_data0 e Hin) as (_ & (n & En & Hdn) & _). rewrite (node_ok _ _ _ En). bind_simpl. rewrite Hdn.
  destruct (ref_deref_id w _ k dt Hl Hk) as (w1 & -> & _). bind_simpl. cbn [snd].
  destruct (ring_neighbours _ _ _ (head (lst w) :: l1) e (l2 ++ [head (lst w)]) rp_ring0) as (b & Hb & Hn & _);
    [subst l; cbn; by rewrite <- app_assoc|by destruct l2|].
  apply nx_node in Hn as (n' & En' & Hnx). assert (n' = n) as -> by congruence. cbn in Hnx. subst b.
  do 2 eexists. split; [reflexivity|]. split; [done|]. split; [|done]. cbn [it_next]. rewrite <- Hb. by destruct l2.
Qed.

Lemma visit_spec (w : lworld Y) l : rep w l ->
  (forall e k dt, e ∈ l -> live w (e - le_offset) k dt -> k + 1 < 2 ^ 32) ->
  forall l2 l1 it, l = l1 ++ l2 -> stands w l2 it ->
  visit (length l2) it w = Ok ((fun e => e - le_offset) <$> l2, w).
Proof.
  intros HR Hroom. induction l2 as [|e l2 IH]; intros l1 it El Hst; cbn [visit length];
    rewrite (list_has_next_spec w l l1 _ it HR El Hst); bind_simpl; cbn [negb]; [done|].
  assert (e ∈ l) as Hin by (subst l; set_solver).
  destruct (rp_data _ _ HR e Hin) as (_ & _ & k & dt & Hl).
  destruct (list_next_spec w l l1 e l2 it k dt HR El Hst Hl (Hroom e k dt Hin Hl)) as (it' & w1 & -> & Er & Hst').
  bind_simpl. destruct (ref_deref_id w _ k dt Hl (Hroom e k dt Hin Hl)) as (w1' & Er' & Hdr).
  assert (w1' = w1) as -> by congruence. rewrite Hdr. bind_simpl.
  rewrite (IH (l1 ++ [e]) it'); [done|by rewrite <- app_assoc|done].
Qed.

Lemma iterate_spec (w : lworld Y) l : rep w l ->
  (forall e k dt, e ∈ l -> live w (e - le_offset) k dt -> k + 1 < 2 ^ 32) ->
  exists it, list_iterate w = Ok it /\ visit (length l) it w = Ok ((fun e => e - le_offset) <$> l, w).
Proof.
  intros HR Hroom. destruct (list_iterate_spec w l HR) as (it & E & Hst). exists it. split; [done|].
  by apply (visit_spec w l HR Hroom l []).
Qed.

(** ** Clearing *)

(** The objects after one reference to each object of the entries of [l] is
    dropped. *)
Definition drop_refs (l : list Z) (o : gmap Z rc_mem) : gmap Z rc_mem :=
  foldl (fun o e => drop_ref (e - le_offset) o) o l.

(** The destructors of the client return. *)
Definition destroy_total : Prop := forall d p y, exists y', client_destroy d p y = Ok y'.

Lemma list_deref_frame (w : lworld Y) d k dt : destroy_total -> live w d k dt ->
  exists w', deref d w = Ok w' /\ lst w' = lst w /\ objs (w_heap w') = drop_ref d (objs (w_heap w)) /\
    (forall a, a <> d + le_offset -> nodes w' !! a = nodes w !! a).
Proof.
  intros Ht Hl. destruct (deref_cases w d k dt Hl) as (w' & E & O & _ & Hw).
  { intros _. destruct dt as [dt|]; [|eauto]. cbn. destruct (Ht dt d (client w)) as [y' ->]. bind_simpl. eauto. }
  exists w'. split; [done|]. destruct Hw as [[_ ->]|(_ & w1 & -> & E1)]; [done|].
  assert (lst w1 = lst w /\ nodes w1 = nodes w) as [L1 N1].
  { destruct dt as [dt|]; [|by injection E1 as <-]. cbn in E1.
    destruct (client_destroy dt d (client w)); inv_bind; by subst. }
  split; [done|]. split; [done|]. intros a Ha. cbn. rewrite N1. by rewrite lookup_delete_ne.
Qed.

Lemma list_clear_loop_spec (Ht : destroy_total) l : forall w ent,
  hd_error (l ++ [head (lst w)]) = Some ent -> NoDup l -> head (lst w) ∉ l ->
  Forall (fun ab => nx (nodes w) ab.1 = Some ab.2) (pairs (l ++ [head (lst w)])) ->
  (forall e, e ∈ l -> entry_of w e (e - le_offset)) ->
  exists w', clear_loop (length l) ent w = Ok w' /\ lst w' = lst w /\
    objs (w_heap w') = drop_refs l (objs (w_heap w)) /\
    (forall a, a ∉ l -> nodes w' !! a = nodes w !! a).
Proof.
  induction l as [|e l IH]; intros w ent Hd Hnd Hh Hp He; cbn in Hd; injection Hd as <-; cbn [clear_loop length].
  { rewrite Z.eqb_refl. exists w. done. }
  apply NoDup_cons in Hnd as [Hel Hnd]. apply not_elem_of_cons in Hh as [Hhe Hh].
  rewrite (proj2 (Z.eqb_neq _ _)) by done.
  destruct (He e ltac:(set_solver)) as (_ & (n & En & Hdn) & k & dt & Hl). rewrite (node_ok _ _ _ En). bind_simpl. rewrite Hdn.
  destruct (list_deref_frame w _ k dt Ht Hl) as (w1 & -> & L1 & O1 & N1). bind_simpl.
  replace (e - le_offset + le_offset) with e in N1 by lia.
  assert (hd_error (l ++ [head (lst w1)]) = Some (next n)) as Hd1.
  { rewrite L1. destruct l as [|b l]; cbn in Hp |- *; rewrite pairs_cons in Hp; apply Forall_cons in Hp as [Hp _];
      cbn in Hp; unfold nx in Hp; rewrite En in Hp; cbn in Hp; congruence. }
  destruct (IH w1 (next n) Hd1 Hnd) as (w2 & -> & L2 & O2 & N2).
  - by rewrite L1.
  - assert (Forall (fun ab => nx (nodes w) ab.1 = Some ab.2) (pairs (l ++ [head (lst w)]))) as Hp1.
    { destruct l as [|b l]; [by constructor|]. cbn in Hp |- *. rewrite pairs_cons in Hp. by apply Forall_cons in Hp as [_ Hp]. }
    rewrite L1. rewrite Forall_forall in Hp1 |- *. intros [a b] Hab. specialize (Hp1 _ Hab). cbn in *.
    unfold nx. rewrite N1; [exact Hp1|]. intros ->. apply (list_elem_of_fmap_2 fst) in Hab. rewrite pairs_fst in Hab. done.
  - intros x Hx. destruct (He x ltac:(set_solver)) as (Hx1 & (nx' & Ex & Hdx) & kx & dtx & Hx0 & Hxk & Hxo).
    assert (x <> e) as Hxe by (intros ->; done). split; [done|]. split.
    + exists nx'. by rewrite N1.
    + exists kx, dtx. split; [done|]. split; [done|]. cbn. rewrite O1, drop_ref_ne by lia. exact Hxo.
  - exists w2. split; [done|]. split; [congruence|]. split.
    + rewrite O2, O1. done.
    + intros a Ha. apply not_elem_of_cons in Ha as [Hae Hal]. by rewrite N2, N1.
Qed.

Lemma list_clear_spec (w : lworld Y) l : destroy_total -> rep w l ->
  exists w', list_clear w = Ok w' /\ rep w' [] /\ objs (w_heap w') = drop_refs l (objs (w_heap w)).
Proof.
  intros Ht HR. pose proof HR as []. set (h := head (lst w)) in *.
  destruct (ring_head_next w l HR) as (nh & b & E & Hb & Hl1). fold h in E, Hl1.
  pose proof rp_ring0 as [Hnd Hlinks]. apply NoDup_cons in Hnd as [Hhl Hnd].
  unfold list_clear, list_clear_i. fold h. rewrite E. bind_simpl. rewrite rp_size0. unfold zlen. rewrite Nat2Z.id.
  destruct (list_clear_loop_spec Ht l w (next nh)) as (w1 & -> & L1 & O1 & N1); fold h.
  - change ((l ++ [h]) !! 0%nat = Some b) in Hl1. rewrite Hb. by destruct l.
  - done.
  - done.
  - assert (Forall (fun ab => nx (nodes w) ab.1 = Some ab.2) (pairs (h :: l ++ [h]))) as HA
      by (eapply Forall_impl; [exact Hlinks|]; by intros ? [? _]).
    destruct l as [|x l]; [by constructor|]. cbn in HA |- *. rewrite pairs_cons in HA. by apply Forall_cons in HA as [_ HA].
  - done.
  - bind_simpl. rewrite L1. fold h.
    assert (is_Some (nodes w1 !! h)) as [n1 Hn1].
    { rewrite N1 by done. apply (ring_node _ _ _ h rp_ring0). left. }
    rewrite (upd_ok _ _ _ _ Hn1). bind_simpl.
    rewrite (upd_ok _ _ _ _ (lookup_insert_eq (nodes w1) h _)). bind_simpl.
    eexists. split; [reflexivity|]. split; [|exact O1].
    apply (rep_intro w _ l); try done.
    + apply (ring_empty _ _ (set_lprev h (set_lnext h n1))); cbn; [|done|done].
      by rewrite lookup_insert_eq.
    + intros e He. by apply elem_of_nil in He.
Qed.

(** ** The list as an abstract type

    Every call of the interface against the operation on a list of entries. *)

Inductive op :=
| Insert (index entry : Z)
| RemoveEntry (entry : Z)
| Remove (index : Z)
| Get (index : Z)
| Size
| Find (entry : Z)
| Clear.

Definition exec (o : op) (w : lworld Y) : outcome (Z * lworld Y) :=
  match o with
  | Insert i e => list_insert i e w
  | RemoveEntry e => list_remove_entry e w
  | Remove i => list_remove i w
  | Get i => list_get i w
  | Size => Ok (list_size w, w)
  | Find e => r ← list_find e w; Ok (r, w)
  | Clear => w ← list_clear w; Ok (0, w)
  end.

(** The result and the new list. *)
Definition spec (w : lworld Y) (o : op) (l : list Z) : Z * list Z :=
  let at_pos i := Z.to_nat (access_pos (zlen l) i) in
  match o with
  | Insert i e => let p := Z.to_nat (insert_pos (zlen l) i) in (1, take p l ++ e :: drop p l)
  | RemoveEntry e => (e - le_offset, filter (.≠ e) l)
  | Remove i => (default 0 (l !! at_pos i) - le_offset, delete (at_pos i) l)
  | Get i => (default 0 (l !! at_pos i) - le_offset, l)
  | Size => (zlen l, l)
  | Find e => (first_match w e (e - le_offset) l 0, l)
  | Clear => (0, [])
  end.

(** What the caller has to provide: indices within the list, entries of live
    objects, and no entry twice. *)
Definition pre (w : lworld Y) (o : op) (l : list Z) : Prop :=
  match o with
  | Insert i e =>
      - (zlen l + 1) <= i <= zlen l /\ zlen l + 1 < 2 ^ 31 - 1 /\ e <> 0 /\ e ∉ head (lst w) :: l /\
      entry_of w e (e - le_offset) /\ (forall k dt, live w (e - le_offset) k dt -> k + 1 < 2 ^ 32)
  | RemoveEntry e => e ∈ l
  | Remove i => - zlen l <= i < zlen l
  | Get i => - zlen l <= i < zlen l /\ (forall e k dt, e ∈ l -> live w (e - le_offset) k dt -> k + 1 < 2 ^ 32)
  | Size => True
  | Find e => e <> 0 /\ entry_of w e (e - le_offset)
  | Clear => destroy_total
  end.

Lemma list_exec_refines o w l : rep w l -> pre w o l ->
  exists w', exec o w = Ok (fst (spec w o l), w') /\ rep w' (snd (spec w o l)).
Proof.
  intros HR Hp. destruct o; cbn [exec spec pre fst snd] in *.
  - destruct Hp as (Hi & Hz & He & Hnew & Hent & Hroom). pose proof Hent as (_ & _ & k & dt & Hl).
    destruct (list_insert_spec w l index entry _ k dt HR Hz Hi He Hnew Hent Hl (Hroom _ _ Hl)) as (w' & E & HR' & _). eauto.
  - apply list_elem_of_split in Hp as (la & lb & E). pose proof (rp_ring _ _ HR) as [Hnd _]. apply NoDup_cons in Hnd as [_ Hnd].
    rewrite (filter_split l la entry lb Hnd E). subst l.
    destruct (list_remove_entry_spec w la entry lb HR) as (w' & -> & HR' & _). eauto.
  - destruct (list_remove_spec w l index HR Hp) as (e & w' & -> & -> & HR' & _). eauto.
  - destruct Hp as [Hi Hroom]. destruct (list_get_spec w l index HR Hi Hroom) as (e & w' & k & dt & -> & -> & HR' & _). eauto.
  - exists w. unfold list_size. by rewrite (rp_size _ _ HR).
  - destruct Hp as [He Hent]. rewrite (list_find_spec w l entry _ HR He Hent). bind_simpl. eauto.
  - destruct (list_clear_spec w l Hp HR) as (w' & -> & HR' & _). bind_simpl. eauto.
Qed.

(** C14. The linked list refines a list of entries: from a state that holds the
    list [l], every operation with valid arguments returns, gives the result of
    the operation on [l] (insertion and access by an index from either end,
    removal of an entry, the position of the first match, the size) and leaves a
    state that holds the list the operation makes of [l]. *)
Theorem linked_list_refines o w l : rep w l -> pre w o l ->
  exists w', exec o w = Ok (fst (spec w o l), w') /\ rep w' (snd (spec w o l)).
Proof. apply list_exec_refines. Qed.

(** A new list is empty, and has no comparison of its own whatever the caller
    passed. *)
Lemma list_create_spec (w : lworld Y) syn cmp : 0 <= brk (w_heap w) ->
  let w' := snd (list_create true syn cmp w) in
  fst (list_create true syn cmp w) <> 0 /\ rep w' [] /\ compare (lst w') = None.
Proof.
  intros Hb. unfold list_create, rc_alloc. cbn [negb heap_of lworld_world].
  rewrite (proj2 (Z.eqb_neq _ 0)) by (unfold sizeof_rc_mem; lia). cbn.
  split; [unfold sizeof_rc_mem; lia|]. split; [|done].
  split; cbn; try done; [|unfold sizeof_rc_mem, head_offset; lia|by intros ?%elem_of_nil|by intros ? ?%elem_of_nil].
  eapply ring_empty; [apply lookup_insert_eq|done|done].
Qed.

End Refinement.

(** ** A run *)

Section Example.
#[local] Instance unit_client : Client unit := {
  le_offset := 8;
  client_destroy _ _ y := Ok y;
  client_zero _ y := y;
  client_release _ y := y;
}.

Definition empty_world : lworld unit :=
  mkLworld (mkHeap ∅ 1000) ∅ (mkList 0 0 0 None 0) tt.

(** A list, and an object at 1152 whose entry is ready to be inserted. *)
Definition one_object : lworld unit :=
  let w := snd (list_create true 1 None empty_world) in
  let w := snd (rc_zalloc true 32 None w) in
  with_nodes (<[1160 := mkListEntry 1152 0 0]> (nodes w)) w.

Lemma one_object_rep : rep one_object [].
Proof.
  split; cbn; try done; [|by intros ?%elem_of_nil|by intros ? ?%elem_of_nil].
  eapply ring_empty; [vm_compute; reflexivity|done|done].
Qed.

Lemma linked_list_refines_witness :
  exists w, exec (Insert (-1) 1160) one_object = Ok (1, w) /\ rep w [1160].
Proof.
  apply (linked_list_refines (Insert (-1) 1160) one_object []); [apply one_object_rep|].
  cbn [pre]. rewrite zlen_nil. split_and!; try lia.
  - vm_compute. intros H. apply list_elem_of_singleton in H. discriminate H.
  - split; [done|]. split; [eexists; split; vm_compute; reflexivity|].
    exists 1, None. split; [done|]. split; [lia|]. vm_compute. reflexivity.
  - intros k dt (_ & _ & E). vm_compute in E. injection E as <- _. lia.
Defined.

(** Three entries, removal from the middle, and the list seen from both ends. *)
Definition three : outcome (list Z) :=
  let add p e w :=
    let w := snd (rc_zalloc true 32 None w) in
    r ← list_add e (with_nodes (<[e := mkListEntry p 0 0]> (nodes w)) w); Ok (snd r) in
  w ← add 1152 1160 (snd (list_create true 1 None empty_world));
  w ← add 1208 1216 w;
  w ← add 1264 1272 w;
  r ← list_remove 1 w;
  w ← deref (fst r) (snd r);
  a ← list_get 0 w;
  b ← list_get (-1) (snd a);
  Ok [fst r; fst a; fst b; list_size (snd b)].

Example three_run : three = Ok [1208; 1152; 1264; 2].
Proof. vm_compute. reflexivity. Qed.

End Example.

End LinkedListThm.
