(* ===== verification/Hashtable.v ===== *)
(** * Linked hash tables

    src/src/common/linkedhashtable.c: buckets of singly linked entries, and one
    ring of all entries in insertion order, which iterators follow. The
    operations run on a store of entries, by pointers. A key is a value of a type
    [K] that the table's hash and comparison functions read; the lock calls are
    left out: each operation holds the table's lock from its first access to its
    last. *)

From Stdlib Require Import ZArith Lia.
From stdpp Require Import prelude gmap list.
From S2P Require Import Prelude RcMem Rings.

Module Hashtable.
Import RcMem Rings.

(** ** Data *)

(** [HashEntry_i], which overlays the client's [HashEntry]. *)
Record HashEntry_i (K : Type) := mkHashEntry {
  key : K; keylen : Z; data : Z; hash_code : Z; next : Z; lst_prev : Z; lst_next : Z }.
Arguments mkHashEntry {K} _ _ _ _ _ _ _.
Arguments key {K} _.
Arguments keylen {K} _.
Arguments data {K} _.
Arguments hash_code {K} _.
Arguments next {K} _.
Arguments lst_prev {K} _.
Arguments lst_next {K} _.

#[export] Instance hash_links K : Links (HashEntry_i K) := {
  lnext := lst_next;
  lprev := lst_prev;
  set_lnext a n := mkHashEntry (key n) (keylen n) (data n) (hash_code n) (next n) (lst_prev n) a;
  set_lprev a n := mkHashEntry (key n) (keylen n) (data n) (hash_code n) (next n) a (lst_next n);
}.

#[export] Instance hash_links_laws K : LinksLaws (HashEntry_i K).
Proof. by split. Qed.

Definition set_hash {K} (h : Z) (n : HashEntry_i K) :=
  mkHashEntry (key n) (keylen n) (data n) h (next n) (lst_prev n) (lst_next n).
Definition set_next {K} (a : Z) (n : HashEntry_i K) :=
  mkHashEntry (key n) (keylen n) (data n) (hash_code n) a (lst_prev n) (lst_next n).

(** [struct hashtable]; [lst_head] is the address of the head entry. *)
Record Hashtable (K : Type) := mkHashtable {
  capacity : Z; count : Z; mod_count : Z; synced : Z;
  hash_fn : K -> Z -> outcome Z;
  key_compare : K -> Z -> K -> Z -> outcome Z;
  lst_head : Z;
  buckets : list Z }.
Arguments mkHashtable {K} _ _ _ _ _ _ _ _.
Arguments capacity {K} _.
Arguments count {K} _.
Arguments mod_count {K} _.
Arguments synced {K} _.
Arguments hash_fn {K} _ _ _.
Arguments key_compare {K} _ _ _ _ _.
Arguments lst_head {K} _.
Arguments buckets {K} _.

(** The null key. *)
Class Key (K : Type) := { null_key : K; is_null : K -> bool }.

(** The reference-counted heap, the memory of the entries, a table, and the
    state [Y] of the client whose objects the table holds. *)
Record hworld (K Y : Type) := mkHworld {
  w_heap : heap; ents : gmap Z (HashEntry_i K); tab : Hashtable K; client : Y }.
Arguments mkHworld {K Y} _ _ _ _.
Arguments w_heap {K Y} _.
Arguments ents {K Y} _.
Arguments tab {K Y} _.
Arguments client {K Y} _.

(** The client: where the entry is in an object, the destructors, and the rest
    of an object's memory. *)
Class Client (Y : Type) := {
  he_offset : Z;
  client_destroy : Z -> Z -> Y -> outcome Y;
  client_zero : Z -> Y -> Y;
  client_release : Z -> Y -> Y;
}.

(** ** Keys that are byte strings *)

#[export] Instance bytes_key : Key (option bytes) :=
  { null_key := None; is_null k := match k with None => true | Some _ => false end }.

(** A [char] is signed. *)
Definition c_char (b : Z) : Z := if b <? 128 then b else b - 256.

Definition key_bytes (k : option bytes) (n : Z) : outcome bytes :=
  match k with Some b => mem_read b 0 n | None => Undef end.

Definition default_hash_code (k : option bytes) (n : Z) : outcome Z :=
  b ← key_bytes k n;
  Ok (foldl (fun h c => u32 (31 * h + c_char c)) 0 b).

(** The sign of [memcmp]: at the first difference, bytes as [unsigned char]. *)
Fixpoint memcmp (a b : bytes) : Z :=
  match a, b with
  | x :: a, y :: b => if x =? y then memcmp a b else if x <? y then -1 else 1
  | _, _ => 0
  end.

Definition default_key_compare (k1 : option bytes) (len1 : Z) (k2 : option bytes) (len2 : Z) : outcome Z :=
  if negb (len1 =? len2) then Ok (if len1 <? len2 then -1 else 1)
  else
    b1 ← key_bytes k1 len1;
    b2 ← key_bytes k2 len1;
    Ok (memcmp b1 b2).

(** ** Operations *)

Section Operations.
Context {K Y : Type} {KN : Key K} {C : Client Y}.
Implicit Types w : hworld K Y.

Definition with_heap (h : heap) w := mkHworld h (ents w) (tab w) (client w).
Definition with_ents (n : gmap Z (HashEntry_i K)) w := mkHworld (w_heap w) n (tab w) (client w).
Definition with_tab (t : Hashtable K) w := mkHworld (w_heap w) (ents w) t (client w).
Definition with_client (y : Y) w := mkHworld (w_heap w) (ents w) (tab w) y.

Definition zero_entry : HashEntry_i K := mkHashEntry null_key 0 0 0 0 0 0.

#[export] Instance hworld_world : World (hworld K Y) := {
  heap_of := w_heap;
  set_heap := with_heap;
  call_destructor d p w := y ← client_destroy d p (client w); Ok (with_client y w);
  zero p w := with_client (client_zero p (client w)) (with_ents (<[p + he_offset := zero_entry]> (ents w)) w);
  release p w := with_client (client_release p (client w)) (with_ents (delete (p + he_offset) (ents w)) w);
}.

#[export] Instance hworld_laws : WorldLaws (hworld K Y).
Proof.
  split; try done. cbn. intros d p s s' E. by destruct (client_destroy d p (client s)); inv_bind; subst.
Qed.

Definition with_count (c m : Z) (b : list Z) (t : Hashtable K) : Hashtable K :=
  mkHashtable (capacity t) c m (synced t) (hash_fn t) (key_compare t) (lst_head t) b.

(** The destructor number of [hashtable_destroy], and the layout of
    [struct hashtable] before the buckets. *)
Definition HASHTABLE_DESTROY : Z := 2.
Definition sizeof_Hashtable : Z := 152.
Definition lst_head_offset : Z := 96.

(** [ok] and [lock_rc] are the results of the allocation and of setting up the
    lock. *)
Definition hashtable_create (dflt_hash : K -> Z -> outcome Z) (dflt_cmp : K -> Z -> K -> Z -> outcome Z)
    (ok : bool) (lock_rc : Z) (cap syn : Z) (hash : option (K -> Z -> outcome Z))
    (cmp : option (K -> Z -> K -> Z -> outcome Z)) w : outcome (Z * hworld K Y) :=
  let cap := if cap =? 0 then 128 else cap in
  let '(p, w) := rc_alloc ok (sizeof_Hashtable + 8 * cap) (Some HASHTABLE_DESTROY) w in
  if p =? 0 then Ok (0, w)
  else if nonzero syn && nonzero lock_rc then w ← deref p w; Ok (0, w)
  else
    let h := p + lst_head_offset in
    let t := mkHashtable cap 0 0 syn (default dflt_hash hash) (default dflt_cmp cmp) h
               (replicate (Z.to_nat cap) 0) in
    Ok (p, with_tab t (with_ents (<[h := mkHashEntry null_key 0 0 0 0 h h]> (ents w)) w)).

(** The loop of [hashtable_clear_i]. *)
Fixpoint clear_loop (fuel : nat) (entry : Z) w : outcome (hworld K Y) :=
  if entry =? lst_head (tab w) then Ok w
  else
    match fuel with
    | O => NoFuel
    | S fuel =>
        e ← node entry (ents w);
        w ← deref (data e) w;
        clear_loop fuel (lst_next e) w
    end.

Definition hashtable_clear_i w : outcome (hworld K Y) :=
  if count (tab w) =? 0 then Ok w
  else
    h ← node (lst_head (tab w)) (ents w);
    w ← clear_loop (Z.to_nat (count (tab w))) (lst_next h) w;
    let t := tab w in
    st ← upd (lst_head t) (set_lnext (lst_head t)) (ents w);
    st ← upd (lst_head t) (set_lprev (lst_head t)) st;
    Ok (with_tab (with_count 0 (s32 (mod_count t + 1)) (replicate (Z.to_nat (capacity t)) 0) t) (with_ents st w)).

(** The table's memory is cleared, its buckets excepted. *)
Definition hashtable_destroy (lock_rc : Z) w : outcome (hworld K Y) :=
  if nonzero (synced (tab w)) && nonzero lock_rc then Ok w
  else
    w ← hashtable_clear_i w;
    let t := tab w in
    Ok (with_tab (mkHashtable 0 0 0 0 (fun _ _ => Undef) (fun _ _ _ _ => Undef) (lst_head t) (buckets t))
          (with_ents (<[lst_head t := zero_entry]> (ents w)) w)).

(** [hash_code % htab->capacity] *)
Definition bucket_index (t : Hashtable K) (h : Z) : outcome Z :=
  if capacity t =? 0 then Undef else Ok (s32 (h mod capacity t)).

Definition bucket (t : Hashtable K) (idx : Z) : outcome Z :=
  match znth (buckets t) idx with Some a => Ok a | None => Undef end.

Definition set_bucket (t : Hashtable K) (idx a : Z) : outcome (Hashtable K) :=
  match znth (buckets t) idx with
  | Some _ => Ok (with_count (count t) (mod_count t) (<[Z.to_nat idx := a]> (buckets t)) t)
  | None => Undef
  end.

Definition hashtable_add (ent : Z) w : outcome (hworld K Y) :=
  let t := tab w in
  e ← node ent (ents w);
  h ← hash_fn t (key e) (keylen e);
  idx ← bucket_index t h;
  st ← upd ent (set_hash h) (ents w);
  b ← bucket t idx;
  st ← upd ent (set_next b) st;
  hd ← node (lst_head t) st;
  st ← upd ent (set_lprev (lst_prev hd)) st;
  st ← upd ent (set_lnext (lst_head t)) st;
  hd ← node (lst_head t) st;
  st ← upd (lst_prev hd) (set_lnext ent) st;
  st ← upd (lst_head t) (set_lprev ent) st;
  t ← set_bucket t idx ent;
  Ok (with_tab (with_count (u64 (count t + 1)) (mod_count t) (buckets t) t) (with_ents st w)).

(** A [HashEntry_i **]: a bucket, or the [next] field of an entry. *)
Inductive slot := InBucket (idx : Z) | InEntry (e : Z).

Definition read_slot (s : slot) w : outcome Z :=
  match s with
  | InBucket idx => bucket (tab w) idx
  | InEntry e => n ← node e (ents w); Ok (next n)
  end.

Definition write_slot (s : slot) (a : Z) w : outcome (hworld K Y) :=
  match s with
  | InBucket idx => t ← set_bucket (tab w) idx a; Ok (with_tab t w)
  | InEntry e => st ← upd e (set_next a) (ents w); Ok (with_ents st w)
  end.

(** The loop of [hashtable_get_entry]. *)
Fixpoint get_entry_loop (fuel : nat) (s : slot) (h : Z) (k : K) (n : Z) w : outcome (option slot) :=
  a ← read_slot s w;
  if a =? 0 then Ok None
  else
    match fuel with
    | O => NoFuel
    | S fuel =>
        e ← node a (ents w);
        c ← (if hash_code e =? h then key_compare (tab w) (key e) (keylen e) k n else Ok 1);
        if c =? 0 then Ok (Some s) else get_entry_loop fuel (InEntry a) h k n w
    end.

Definition hashtable_get_entry (k : K) (n : Z) w : outcome (option slot) :=
  h ← hash_fn (tab w) k n;
  idx ← bucket_index (tab w) h;
  get_entry_loop (Z.to_nat (count (tab w))) (InBucket idx) h k n w.

(** [htab->mod_count++] *)
Definition touched (t : Hashtable K) : Hashtable K := with_count (count t) (s32 (mod_count t + 1)) (buckets t) t.

(** The new entry takes over the place of the old one, the bucket's slot
    excepted. *)
Definition takeover (e old : Z) (st : gmap Z (HashEntry_i K)) : outcome (gmap Z (HashEntry_i K)) :=
  o ← node old st;
  st ← upd e (set_next (next o)) st;
  o ← node old st;
  st ← upd e (set_lprev (lst_prev o)) st;
  o ← node old st;
  st ← upd e (set_lnext (lst_next o)) st;
  o ← node old st;
  st ← upd e (set_hash (hash_code o)) st;
  n ← node e st;
  st ← upd (lst_prev n) (set_lnext e) st;
  n ← node e st;
  upd (lst_next n) (set_lprev e) st.

Definition hashtable_put (entry : Z) w : outcome (Z * hworld K Y) :=
  _ ← c_assert 291 (nonzero entry);
  e ← node entry (ents w);
  _ ← c_assert 291 (negb (is_null (key e)) && nonzero (keylen e) && nonzero (data e));
  r ← ref (data e) w;
  let w := snd r in
  found ← hashtable_get_entry (key e) (keylen e) w;
  w ← match found with
      | Some s =>
          old ← read_slot s w;
          st ← takeover entry old (ents w);
          o ← node old st;
          w ← deref (data o) (with_ents st w);
          write_slot s entry w
      | None => hashtable_add entry w
      end;
  Ok (data e, with_tab (touched (tab w)) w).

Definition hashtable_get (k : K) (n : Z) w : outcome (Z * hworld K Y) :=
  _ ← c_assert 329 (negb (is_null k) && nonzero n);
  found ← hashtable_get_entry k n w;
  match found with
  | Some s => a ← read_slot s w; e ← node a (ents w); ref (data e) w
  | None => Ok (0, w)
  end.

Definition hashtable_exist (k : K) (n : Z) w : outcome bool :=
  _ ← c_assert 350 (negb (is_null k) && nonzero n);
  found ← hashtable_get_entry k n w;
  Ok (match found with Some _ => true | None => false end).

Definition hashtable_is_empty w : bool := count (tab w) =? 0.

Definition hashtable_remove (k : K) (n : Z) w : outcome (Z * hworld K Y) :=
  _ ← c_assert 380 (negb (is_null k) && nonzero n);
  found ← hashtable_get_entry k n w;
  match found with
  | Some s =>
      a ← read_slot s w;
      e ← node a (ents w);
      w ← write_slot s (next e) w;
      e ← node a (ents w);
      st ← upd (lst_prev e) (set_lnext (lst_next e)) (ents w);
      e ← node a st;
      st ← upd (lst_next e) (set_lprev (lst_prev e)) st;
      e ← node a st;
      let t := tab w in
      Ok (data e, with_tab (with_count (u64 (count t - 1)) (s32 (mod_count t + 1)) (buckets t) t) (with_ents st w))
  | None => Ok (0, w)
  end.

Definition hashtable_clear w : outcome (hworld K Y) := hashtable_clear_i w.

(** *** Iterators *)

Record HashtableIterator := mkIterator { current : Z; it_next : Z; expected_mod_count : Z }.

Definition hashtable_iterate w : outcome HashtableIterator :=
  h ← node (lst_head (tab w)) (ents w);
  Ok (mkIterator 0 (lst_next h) (mod_count (tab w))).

(** The result, the data and the iterator. *)
Definition hashtable_iterator_next (it : HashtableIterator) w
    : outcome (Z * Z * HashtableIterator * hworld K Y) :=
  _ ← c_assert 460 (nonzero (it_next it));
  if negb (expected_mod_count it =? mod_count (tab w)) then Ok (-1, 0, it, w)
  else if it_next it =? lst_head (tab w) then Ok (0, 0, it, w)
  else
    c ← node (it_next it) (ents w);
    r ← ref (data c) w;
    Ok (1, data c, mkIterator (it_next it) (lst_next c) (expected_mod_count it), snd r).

Definition hashtable_iterator_has_next (it : HashtableIterator) w : outcome bool :=
  _ ← c_assert 499 (nonzero (it_next it));
  Ok (negb (it_next it =? lst_head (tab w))).

Definition hashtable_iterator_remove (it : HashtableIterator) w
    : outcome (Z * HashtableIterator * hworld K Y) :=
  _ ← c_assert 514 (nonzero (it_next it) && nonzero (current it));
  if negb (expected_mod_count it =? mod_count (tab w)) then Ok (-1, it, w)
  else
    c ← node (current it) (ents w);
    r ← hashtable_remove (key c) (keylen c) w;
    let '(ptr, w) := r in
    if nonzero ptr then
      w ← deref ptr w;
      Ok (1, mkIterator 0 (it_next it) (s32 (expected_mod_count it + 1)), w)
    else Ok (0, it, w).

End Operations.

End Hashtable.
