(* ===== verification/HashtableThm.v ===== *)
(** * Linked hash tables: refinement

    The operations of Hashtable.v implement a map with the keys in insertion
    order. *)

From Stdlib Require Import ZArith Lia.
From stdpp Require Import prelude gmap list.
From S2P Require Import Prelude RcMem Rings Hashtable.

Module HashtableThm.
Import RcMem Rings Hashtable.

(** What the functions of a table compute on valid keys: a hash value, and an
    equivalence of keys that it respects. *)
Class KeySpec (K : Type) := {
  valid : K -> Z -> Prop;
  kh : K -> Z -> Z;
  ksame : K -> Z -> K -> Z -> bool;
}.

Class KeyLaws (K : Type) `{KeySpec K} := {
  kh_range : forall k n, 0 <= kh k n < 2 ^ 32;
  ksame_hash : forall k n k' n', ksame k n k' n' = true -> kh k n = kh k' n';
  ksame_refl : forall k n, ksame k n k n = true;
  ksame_sym : forall k n k' n', ksame k n k' n' = ksame k' n' k n;
  ksame_trans : forall k n k' n' k'' n'',
    ksame k n k' n' = true -> ksame k' n' k'' n'' = true -> ksame k n k'' n'' = true;
}.

Section Refinement.
Context {K Y : Type} {KN : Key K} {C : Client Y} {KS : KeySpec K} {KL : KeyLaws K}.
Implicit Types (w : hworld K Y) (st : gmap Z (HashEntry_i K)).

Record fns_ok (t : Hashtable K) : Prop := {
  fn_hash : forall k n, valid k n -> hash_fn t k n = Ok (kh k n);
  fn_cmp : forall k n k' n', valid k n -> valid k' n' -> kh k n = kh k' n' ->
    exists c, key_compare t k n k' n' = Ok c /\ (c =? 0) = ksame k n k' n';
}.

(** ** Parts of an entry *)

Definition info (n : HashEntry_i K) : K * Z * Z * Z := (key n, keylen n, data n, hash_code n).
Definition infos st (e : Z) := info <$> st !! e.
Definition nexts st (e : Z) := next <$> st !! e.

Lemma infos_node st e k n d h : infos st e = Some (k, n, d, h) ->
  exists x, st !! e = Some x /\ key x = k /\ keylen x = n /\ data x = d /\ hash_code x = h.
Proof. unfold infos. destruct (st !! e) as [x|]; cbn; [|done]. intros E. injection E as <- <- <- <-. eauto 10. Qed.

Lemma nexts_node st e a : nexts st e = Some a -> exists x, st !! e = Some x /\ next x = a.
Proof. unfold nexts. destruct (st !! e) as [x|]; cbn; [|done]. intros E. injection E as <-. eauto. Qed.

Lemma rest_infos st st' e : same_rest st st' -> infos st' e = infos st e.
Proof.
  intros H. specialize (H e). unfold infos. destruct (st !! e) as [x|] eqn:E, (st' !! e) as [y|]; cbn in *; try done.
  injection H. unfold info. intros. congruence.
Qed.

Lemma rest_nexts st st' e : same_rest st st' -> nexts st' e = nexts st e.
Proof.
  intros H. specialize (H e). unfold nexts. destruct (st !! e) as [x|] eqn:E, (st' !! e) as [y|]; cbn in *; try done.
  injection H. intros. congruence.
Qed.

(** ** Bucket chains *)

(** The entries from [p] on by [next], up to [q]. *)
Fixpoint seg st (p : Z) (B : list Z) (q : Z) : Prop :=
  match B with
  | [] => p = q
  | e :: B => p = e /\ e <> 0 /\ exists r, nexts st e = Some r /\ seg st r B q
  end.

Lemma seg_ext st st' B : (forall e, e ∈ B -> nexts st' e = nexts st e) ->
  forall p q, seg st p B q -> seg st' p B q.
Proof.
  induction B as [|e B IH]; intros He p q; cbn; [done|]. intros (-> & H0 & r & Hr & Hs).
  split; [done|]. split; [done|]. exists r. rewrite He by set_solver. split; [done|].
  apply IH; [|done]. intros x Hx. apply He. set_solver.
Qed.

Lemma seg_app st B1 B2 p q : seg st p (B1 ++ B2) q <-> exists r, seg st p B1 r /\ seg st r B2 q.
Proof.
  revert p. induction B1 as [|e B1 IH]; intros p; cbn.
  - split; [eauto|]. by intros (r & -> & H).
  - split.
    + intros (-> & H0 & r & Hr & (m & H1 & H2)%IH). exists m. split; [|done]. eauto.
    + intros (m & (-> & H0 & r & Hr & H1) & H2). split; [done|]. split; [done|]. exists r. split; [done|].
      apply IH. eauto.
Qed.

Lemma seg_nonzero st B p q : seg st p B q -> 0 ∉ B.
Proof.
  revert p. induction B as [|e B IH]; intros p; cbn; [by intros _ ?%elem_of_nil|].
  intros (-> & H0 & r & _ & Hs) [E|Hin]%elem_of_cons; [done|]. by apply (IH r).
Qed.

(** The slot that holds what follows [B1] in bucket [idx]. *)
Definition slot_of (idx : Z) (B1 : list Z) : slot :=
  match last B1 with Some x => InEntry x | None => InBucket idx end.

Lemma slot_of_snoc idx B x : slot_of idx (B ++ [x]) = InEntry x.
Proof. unfold slot_of. by rewrite last_snoc. Qed.

Lemma read_slot_spec w idx p B1 r : bucket (tab w) idx = Ok p -> seg (ents w) p B1 r ->
  read_slot (slot_of idx B1) w = Ok r.
Proof.
  intros Hb Hs. destruct B1 as [|x B1 _] using rev_ind.
  - cbn in *. by subst.
  - rewrite slot_of_snoc. apply seg_app in Hs as (m & _ & (-> & _ & r' & Hr & ->)). cbn.
    apply nexts_node in Hr as (n & En & <-). by rewrite (node_ok _ _ _ En).
Qed.

(** ** The representation *)

(** [e] is the entry of a live object, with a valid key and its hash code. *)
Definition entry_ok w (e : Z) : Prop :=
  e <> 0 /\ (exists k n, infos (ents w) e = Some (k, n, e - he_offset, kh k n) /\ valid k n) /\
  exists c dt, live w (e - he_offset) c dt.

(** Whether the key of the entry [e] is [k]. *)
Definition has_key st (k : K) (n : Z) (e : Z) : bool :=
  match st !! e with Some x => ksame (key x) (keylen x) k n | None => false end.

Record chains w (l : list Z) (Bs : list (list Z)) : Prop := {
  ch_len : length Bs = length (buckets (tab w));
  ch_seg : forall i p B, buckets (tab w) !! i = Some p -> Bs !! i = Some B -> seg (ents w) p B 0;
  ch_nodup : forall i B, Bs !! i = Some B -> NoDup B;
  ch_elem : forall i B, Bs !! i = Some B -> forall e,
    e ∈ B <-> e ∈ l /\ exists x, ents w !! e = Some x /\ hash_code x mod capacity (tab w) = Z.of_nat i;
}.

Record rep' w (l : list Z) (Bs : list (list Z)) : Prop := {
  rp_ring : ring (ents w) (lst_head (tab w)) l;
  rp_head : lst_head (tab w) <> 0;
  rp_count : count (tab w) = zlen l;
  rp_small : zlen l < 2 ^ 63;
  rp_cap : 0 < capacity (tab w) < 2 ^ 31;
  rp_buckets : zlen (buckets (tab w)) = capacity (tab w);
  rp_fns : fns_ok (tab w);
  rp_entry : forall e, e ∈ l -> entry_ok w e;
  rp_chains : chains w l Bs;
  rp_keys : forall e e' x, e ∈ l -> e' ∈ l -> ents w !! e = Some x ->
    has_key (ents w) (key x) (keylen x) e' = true -> e' = e;
}.

Definition rep w (l : list Z) : Prop := exists Bs, rep' w l Bs.

(** The entry of a key. *)
Definition lookup_key w (l : list Z) (k : K) (n : Z) : option Z :=
  match filter (fun e => has_key (ents w) k n e = true) l with e :: _ => Some e | [] => None end.

Lemma lookup_key_Some w l k n e : lookup_key w l k n = Some e -> e ∈ l /\ has_key (ents w) k n e = true.
Proof.
  unfold lookup_key. destruct (filter _ l) as [|x f] eqn:E; [done|]. intros H. injection H as ->.
  assert (e ∈ filter (fun e => has_key (ents w) k n e = true) l) as He by (rewrite E; left).
  apply list_elem_of_filter in He. tauto.
Qed.

Lemma lookup_key_None w l k n : lookup_key w l k n = None -> forall e, e ∈ l -> has_key (ents w) k n e = false.
Proof.
  unfold lookup_key. destruct (filter _ l) as [|x f] eqn:E; [|done]. intros _ e He.
  destruct (has_key (ents w) k n e) eqn:Ek; [|done]. exfalso.
  apply (not_elem_of_nil e). rewrite <- E. by apply list_elem_of_filter.
Qed.

Lemma has_key_same st k n k' n' e : ksame k n k' n' = true -> has_key st k n e = has_key st k' n' e.
Proof.
  intros H. unfold has_key. destruct (st !! e) as [x|]; [|done].
  destruct (ksame (key x) (keylen x) k n) eqn:E1, (ksame (key x) (keylen x) k' n') eqn:E2; try done; exfalso.
  - rewrite (ksame_trans _ _ _ _ _ _ E1 H) in E2. done.
  - rewrite ksame_sym in H. rewrite (ksame_trans _ _ _ _ _ _ E2 H) in E1. done.
Qed.

Lemma lookup_key_unique w l k n e : rep w l -> e ∈ l -> has_key (ents w) k n e = true -> lookup_key w l k n = Some e.
Proof.
  intros [Bs HR] He Hk. destruct (lookup_key w l k n) as [e'|] eqn:E.
  - apply lookup_key_Some in E as [He' Hk']. f_equal.
    unfold has_key in Hk. destruct (ents w !! e) as [x|] eqn:Ex; [|done].
    apply (rp_keys _ _ _ HR e e' x He He' Ex). rewrite (has_key_same _ _ _ k n) by done. done.
  - by rewrite (lookup_key_None _ _ _ _ E e He) in Hk.
Qed.

(** ** The search of a bucket *)

Lemma get_loop_spec w (h : Z) k n : fns_ok (tab w) -> valid k n -> h = kh k n -> forall B2 idx B1 p a fuel,
  bucket (tab w) idx = Ok p -> seg (ents w) p B1 a -> seg (ents w) a B2 0 -> (length B2 <= fuel)%nat ->
  (forall e, e ∈ B2 -> entry_ok w e) ->
  (exists B2a e B2b, B2 = B2a ++ e :: B2b /\ has_key (ents w) k n e = true /\
     get_entry_loop fuel (slot_of idx B1) h k n w = Ok (Some (slot_of idx (B1 ++ B2a)))) \/
  (get_entry_loop fuel (slot_of idx B1) h k n w = Ok None /\ forall e, e ∈ B2 -> has_key (ents w) k n e = false).
Proof.
  intros Hf Hv Hh. induction B2 as [|e B2 IH]; intros idx B1 p a fuel Hb Hs1 Hs2 Hfuel He.
  - right. cbn in Hs2. subst a. split; [|by intros ? ?%elem_of_nil].
    destruct fuel; cbn [get_entry_loop]; rewrite (read_slot_spec w idx p B1 0 Hb Hs1); bind_simpl; done.
  - pose proof Hs2 as Hs2'. cbn in Hs2. destruct Hs2 as (-> & H0 & r & Hr & Hs2). destruct fuel as [|fuel]; [cbn in Hfuel; lia|].
    cbn [get_entry_loop]. rewrite (read_slot_spec w idx p B1 e Hb Hs1). bind_simpl.
    rewrite (proj2 (Z.eqb_neq _ _)) by done.
    destruct (He e ltac:(set_solver)) as (_ & (k' & n' & Hi & Hv') & _).
    apply infos_node in Hi as (x & Ex & Hk1 & Hk2 & Hk3 & Hk4). rewrite (node_ok _ _ _ Ex). bind_simpl. rewrite Hk4, Hk1, Hk2.
    assert (exists c, (if kh k' n' =? h then key_compare (tab w) k' n' k n else Ok 1) = Ok c /\
      (c =? 0) = has_key (ents w) k n e) as (c & -> & Hc).
    { unfold has_key. rewrite Ex, Hk1, Hk2. destruct (Z.eqb_spec (kh k' n') h) as [Eh|Eh].
      - apply (fn_cmp _ Hf); [done|done|congruence].
      - exists 1. split; [done|]. destruct (ksame k' n' k n) eqn:Es; [|done]. apply ksame_hash in Es. congruence. }
    bind_simpl. rewrite Hc. destruct (has_key (ents w) k n e) eqn:Ek.
    + left. exists [], e, B2. by rewrite app_nil_r.
    + destruct (IH idx (B1 ++ [e]) p r fuel Hb) as [(B2a & e' & B2b & -> & Hk' & Hres)|[Hres Hno]].
      * apply seg_app. exists e. split; [done|]. cbn. eauto.
      * done.
      * cbn in Hfuel. lia.
      * intros x' Hx'. apply He. set_solver.
      * left. exists (e :: B2a), e', B2b. split; [done|]. split; [done|].
        rewrite slot_of_snoc in Hres. rewrite Hres, <- app_assoc. done.
      * right. rewrite slot_of_snoc in Hres. split; [done|].
        intros x' [->|Hx']%elem_of_cons; [done|]. by apply Hno.
Qed.

Lemma bucket_at w l Bs h : rep' w l Bs ->
  exists p B, let idx := h mod capacity (tab w) in
    bucket_index (tab w) h = Ok idx /\ bucket (tab w) idx = Ok p /\ 0 <= idx < capacity (tab w) /\
    buckets (tab w) !! Z.to_nat idx = Some p /\ Bs !! Z.to_nat idx = Some B /\ seg (ents w) p B 0.
Proof.
  intros []. pose proof (Z.mod_pos_bound h (capacity (tab w)) ltac:(lia)) as Hi.
  set (idx := h mod capacity (tab w)) in *. unfold zlen in rp_buckets0. destruct rp_chains0.
  destruct (lookup_lt_is_Some_2 (buckets (tab w)) (Z.to_nat idx)) as [p Hp]; [lia|].
  destruct (lookup_lt_is_Some_2 Bs (Z.to_nat idx)) as [B HB]; [lia|].
  exists p, B. cbv zeta. split_and!; try done; try lia.
  - unfold bucket_index. rewrite (proj2 (Z.eqb_neq _ _)) by lia. f_equal. fold idx. unfold s32.
    rewrite Z.mod_small; lia.
  - unfold bucket, znth. rewrite (proj2 (Z.ltb_ge _ _)) by lia. by rewrite Hp.
  - by apply (ch_seg0 (Z.to_nat idx)).
Qed.

Lemma entry_hash w e k n : entry_ok w e -> has_key (ents w) k n e = true ->
  exists x, ents w !! e = Some x /\ hash_code x = kh k n.
Proof.
  intros (_ & (k' & n' & Hi & _) & _) Hk. apply infos_node in Hi as (x & Ex & H1 & H2 & _ & H4).
  exists x. split; [done|]. unfold has_key in Hk. rewrite Ex, H1, H2 in Hk. rewrite H4. by apply ksame_hash.
Qed.

Lemma get_entry_spec w l Bs k n : rep' w l Bs -> valid k n ->
  exists p B, let idx := kh k n mod capacity (tab w) in
    0 <= idx < capacity (tab w) /\ bucket (tab w) idx = Ok p /\ buckets (tab w) !! Z.to_nat idx = Some p /\
    Bs !! Z.to_nat idx = Some B /\ seg (ents w) p B 0 /\
  ((exists B1 e B2, B = B1 ++ e :: B2 /\ lookup_key w l k n = Some e /\
      hashtable_get_entry k n w = Ok (Some (slot_of idx B1)) /\ read_slot (slot_of idx B1) w = Ok e) \/
   (hashtable_get_entry k n w = Ok None /\ lookup_key w l k n = None)).
Proof.
  intros HR Hv. destruct (bucket_at w l Bs (kh k n) HR) as (p & B & Hidx & Hb & Hi & Hp & HB & Hs).
  exists p, B. cbv zeta. split_and!; try done; try lia. set (idx := kh k n mod capacity (tab w)) in *.
  pose proof HR as []. pose proof rp_chains0 as [].
  assert (forall e, e ∈ B -> e ∈ l) as Hsub by (intros e He; by apply (ch_elem0 _ _ HB) in He as [? _]).
  unfold hashtable_get_entry. rewrite (fn_hash _ rp_fns0 k n Hv). bind_simpl. rewrite Hidx. bind_simpl.
  destruct (get_loop_spec w (kh k n) k n rp_fns0 Hv eq_refl B idx [] p p (Z.to_nat (count (tab w))))
    as [(B1 & e & B2 & -> & Hk & E)|[E Hno]]; try done.
  - rewrite rp_count0. unfold zlen. rewrite Nat2Z.id. apply submseteq_length, NoDup_submseteq; [by eapply ch_nodup0|done].
  - intros e He. by apply rp_entry0, Hsub.
  - left. exists B1, e, B2. cbn [app] in E. split; [done|]. split.
    + apply lookup_key_unique; [by exists Bs|apply Hsub; set_solver|done].
    + split; [done|]. apply seg_app in Hs as (r & H1 & H2). cbn in H2. destruct H2 as (-> & _).
      by apply (read_slot_spec w idx p).
  - right. split; [done|]. destruct (lookup_key w l k n) as [e|] eqn:El; [|done]. exfalso.
    apply lookup_key_Some in El as [He Hk]. destruct (entry_hash w e k n (rp_entry0 e He) Hk) as (x & Ex & Hx).
    rewrite Hno in Hk; [done|]. apply (ch_elem0 _ _ HB). split; [done|]. exists x. split; [done|]. rewrite Hx. fold idx. lia.
Qed.

(** ** Writing through a slot *)

Lemma set_bucket_ok (t : Hashtable K) idx p a : 0 <= idx -> buckets t !! Z.to_nat idx = Some p ->
  set_bucket t idx a = Ok (with_count (count t) (mod_count t) (<[Z.to_nat idx := a]> (buckets t)) t).
Proof. intros Hi Hp. unfold set_bucket, znth. rewrite (proj2 (Z.ltb_ge _ _)) by lia. by rewrite Hp. Qed.

(** What follows [B1] in bucket [idx] becomes the chain [B'] from [a]. *)
Lemma write_slot_spec w Bs idx p B1 r a B' :
  0 <= idx -> buckets (tab w) !! Z.to_nat idx = Some p -> length Bs = length (buckets (tab w)) ->
  seg (ents w) p B1 r -> NoDup B1 -> seg (ents w) a B' 0 -> (forall x, x ∈ B1 -> x ∉ B') ->
  (forall j q B, j <> Z.to_nat idx -> buckets (tab w) !! j = Some q -> Bs !! j = Some B ->
     seg (ents w) q B 0 /\ forall x, x ∈ B1 -> x ∉ B) ->
  exists st bs, write_slot (slot_of idx B1) a w =
      Ok (mkHworld (w_heap w) st (with_count (count (tab w)) (mod_count (tab w)) bs (tab w)) (client w)) /\
    length bs = length Bs /\
    (forall e, infos st e = infos (ents w) e) /\ (forall e, nx st e = nx (ents w) e) /\ (forall e, pv st e = pv (ents w) e) /\
    (forall j q B, bs !! j = Some q -> <[Z.to_nat idx := B1 ++ B']> Bs !! j = Some B -> seg st q B 0).
Proof.
  intros Hi Hp Hlen Hs1 Hnd Hs2 Hdis Hoth.
  assert (Z.to_nat idx < length Bs)%nat as Hlt by (rewrite Hlen; by eapply lookup_lt_Some).
  destruct B1 as [|x B1 _] using rev_ind.
  - cbn [slot_of last write_slot]. rewrite (set_bucket_ok _ _ p) by done. bind_simpl.
    eexists (ents w), _. split; [reflexivity|]. cbn [with_count buckets]. rewrite length_insert.
    split_and!; try done. intros j q B Hq HB. destruct (decide (j = Z.to_nat idx)) as [->|Hj].
    + rewrite list_lookup_insert_eq in Hq by lia. rewrite list_lookup_insert_eq in HB by done.
      injection Hq as <-. injection HB as <-. done.
    + rewrite list_lookup_insert_ne in Hq by done. rewrite list_lookup_insert_ne in HB by done. by apply (Hoth j).
  - rewrite slot_of_snoc. cbn [write_slot]. apply seg_app in Hs1 as (m & Hm & (-> & Hx0 & r' & Hr & ->)).
    apply nexts_node in Hr as (nd & End & Hnd'). rewrite (upd_ok _ _ _ _ End). bind_simpl.
    assert (forall e, e <> x -> nexts (<[x := set_next a nd]> (ents w)) e = nexts (ents w) e) as Hnx
      by (intros e He; unfold nexts; by rewrite lookup_insert_ne by done).
    exists (<[x := set_next a nd]> (ents w)), (buckets (tab w)).
    apply NoDup_app in Hnd as (_ & Hnd & _).
    split_and!; try done.
    + unfold with_ents. by destruct (tab w).
    + intros e. unfold infos. destruct (decide (e = x)) as [->|]; [by rewrite lookup_insert_eq, End|by rewrite lookup_insert_ne].
    + intros e. rewrite nx_upd. case_decide as He; [subst; unfold nx; by rewrite End|done].
    + intros e. rewrite pv_upd. case_decide as He; [subst; unfold pv; by rewrite End|done].
    + intros j q B Hq HB. destruct (decide (j = Z.to_nat idx)) as [->|Hj].
      * rewrite list_lookup_insert_eq in HB by done. injection HB as <-. rewrite Hp in Hq. injection Hq as <-.
        rewrite <- app_assoc. apply seg_app. exists x. split.
        { apply (seg_ext (ents w)); [|done]. intros e He. apply Hnx. intros ->. apply (Hnd x He). left. }
        cbn. split; [done|]. split; [done|]. exists a. split.
        { unfold nexts. by rewrite lookup_insert_eq. }
        apply (seg_ext (ents w)); [|done]. intros e He. apply Hnx. intros ->. apply (Hdis x); [set_solver|done].
      * rewrite list_lookup_insert_ne in HB by done. destruct (Hoth j q B Hj Hq HB) as [Hsq Hd].
        apply (seg_ext (ents w)); [|done]. intros e He. apply Hnx. intros ->. apply (Hd x); [set_solver|done].
Qed.

(** ** Removal *)

Lemma elem_filter_ne (l : list Z) e x : x ∈ filter (.≠ e) l <-> x ∈ l /\ x <> e.
Proof. rewrite list_elem_of_filter. tauto. Qed.

(** An entry is in one bucket. *)
Lemma one_bucket w l Bs i j B B' e : chains w l Bs -> Bs !! i = Some B -> Bs !! j = Some B' ->
  e ∈ B -> e ∈ B' -> i = j.
Proof.
  intros [] Hi Hj H1 H2. apply (ch_elem0 _ _ Hi) in H1 as (_ & x & Ex & Hx).
  apply (ch_elem0 _ _ Hj) in H2 as (_ & x' & Ex' & Hx'). assert (x' = x) as -> by congruence. lia.
Qed.

(** [has_key] and the entries depend on the infos only. *)
Lemma has_key_infos st st' k n e : infos st' e = infos st e -> has_key st' k n e = has_key st k n e.
Proof.
  unfold infos, has_key. destruct (st !! e) as [x|], (st' !! e) as [y|]; cbn; try done.
  intros E. injection E as -> -> _ _. done.
Qed.

Lemma infos_lookup st st' e x' : infos st' e = infos st e -> st' !! e = Some x' ->
  exists x, st !! e = Some x /\ info x = info x'.
Proof. unfold infos. intros E Ex. rewrite Ex in E. cbn in E. destruct (st !! e) as [x|]; [|done]. exists x. cbn in E. split; congruence. Qed.

Lemma entry_ok_frame w w' e : entry_ok w e -> infos (ents w') e = infos (ents w) e ->
  (exists c dt, live w' (e - he_offset) c dt) -> entry_ok w' e.
Proof. intros (H0 & (k & n & Hi & Hv) & _) Hf Hl. split; [done|]. split; [|done]. exists k, n. by rewrite Hf. Qed.

(** A representation from one with the same functions and the same infos at the
    entries kept. *)
Lemma rep_frame w w' l l' Bs' : (exists Bs, rep' w l Bs) ->
  ring (ents w') (lst_head (tab w)) l' -> lst_head (tab w') = lst_head (tab w) ->
  capacity (tab w') = capacity (tab w) -> hash_fn (tab w') = hash_fn (tab w) ->
  key_compare (tab w') = key_compare (tab w) -> zlen (buckets (tab w')) = capacity (tab w) ->
  count (tab w') = zlen l' -> zlen l' < 2 ^ 63 ->
  (forall e, e ∈ l' -> entry_ok w' e) -> chains w' l' Bs' ->
  (forall e e' x, e ∈ l' -> e' ∈ l' -> ents w' !! e = Some x -> has_key (ents w') (key x) (keylen x) e' = true -> e' = e) ->
  rep w' l'.
Proof.
  intros [Bs []] Hr Hh Hc Hf Hk Hb Hn Hs He Hch Hu. exists Bs'. split; try done; try by rewrite ?Hh, ?Hc.
  split; rewrite ?Hf, ?Hk; apply rp_fns0.
Qed.

(** Distinct keys, by the infos. *)
Lemma keys_frame w l Bs st' (l' : list Z) : rep' w l Bs -> (forall e, e ∈ l' -> e ∈ l /\ infos st' e = infos (ents w) e) ->
  forall e e' x, e ∈ l' -> e' ∈ l' -> st' !! e = Some x -> has_key st' (key x) (keylen x) e' = true -> e' = e.
Proof.
  intros HR Hf e e' x' He He' Ex Hk. destruct (Hf e He) as [Hl Hi], (Hf e' He') as [Hl' Hi'].
  destruct (infos_lookup _ _ _ _ Hi Ex) as (x & Ex0 & Hix). rewrite (has_key_infos (ents w)) in Hk by done.
  apply (rp_keys _ _ _ HR e e' x Hl Hl' Ex0). injection Hix as -> -> _ _. done.
Qed.

(** The hash code that [chains] reads. *)
Lemma hash_frame st st' e m i : infos st' e = infos st e ->
  (exists x, st' !! e = Some x /\ hash_code x mod m = i) <-> (exists x, st !! e = Some x /\ hash_code x mod m = i).
Proof.
  intros Hi. split; intros (x & Ex & Hx).
  - destruct (infos_lookup _ _ _ _ Hi Ex) as (y & Ey & Hy). exists y. split; [done|].
    injection Hy as _ _ _ ->. done.
  - destruct (infos_lookup _ _ _ _ (eq_sym Hi) Ex) as (y & Ey & Hy). exists y. split; [done|].
    injection Hy as _ _ _ ->. done.
Qed.

Lemma chains_remove w l Bs idx B1 e B2 st bs : chains w l Bs -> Bs !! idx = Some (B1 ++ e :: B2) ->
  e ∈ l -> length bs = length Bs -> (forall x, x <> e -> infos st x = infos (ents w) x) ->
  (forall j q B, bs !! j = Some q -> <[idx := B1 ++ B2]> Bs !! j = Some B -> seg st q B 0) ->
  forall h t cl, capacity t = capacity (tab w) -> buckets t = bs ->
    chains (mkHworld h st t cl) (filter (.≠ e) l) (<[idx := B1 ++ B2]> Bs).
Proof.
  intros Hch HB He Hlen Hi Hseg h t cl Hc Hb. pose proof Hch as []. pose proof (ch_nodup0 _ _ HB) as Hnd.
  pose proof (lookup_lt_Some _ _ _ HB) as Hlt.
  assert (forall i B, <[idx := B1 ++ B2]> Bs !! i = Some B -> exists B0, Bs !! i = Some B0 /\ B = filter (.≠ e) B0) as Hf.
  { intros i B Hi'. destruct (decide (i = idx)) as [->|Hne].
    - rewrite list_lookup_insert_eq in Hi' by done. injection Hi' as <-. exists (B1 ++ e :: B2). split; [done|].
      by rewrite (filter_split _ B1 e B2).
    - rewrite list_lookup_insert_ne in Hi' by done. exists B. split; [done|]. symmetry. apply filter_notin. intros Hin.
      apply Hne. apply (one_bucket w l Bs i idx B (B1 ++ e :: B2) e); try done. set_solver. }
  split; cbn [tab ents]; rewrite ?Hb, ?Hc; try done.
  - by rewrite length_insert.
  - intros i B (B0 & HB0 & ->)%Hf. apply NoDup_filter. by eapply ch_nodup0.
  - intros i B (B0 & HB0 & ->)%Hf x. rewrite !elem_filter_ne, (ch_elem0 _ _ HB0). split.
    + intros [[H1 H2] H3]. split; [done|]. by apply (hash_frame (ents w)); [apply Hi|].
    + intros [[H1 H2] H3]. split; [split; [done|]|done]. by apply (hash_frame (ents w) st) in H3; [|apply Hi].
Qed.

Lemma hashtable_remove_spec w l k n : rep w l -> valid k n -> is_null k = false -> n <> 0 ->
  match lookup_key w l k n with
  | Some e => exists w', hashtable_remove k n w = Ok (e - he_offset, w') /\ rep w' (filter (.≠ e) l) /\
      w_heap w' = w_heap w /\ client w' = client w /\ (forall x, infos (ents w') x = infos (ents w) x) /\
      mod_count (tab w') = s32 (mod_count (tab w) + 1) /\ lst_head (tab w') = lst_head (tab w)
  | None => hashtable_remove k n w = Ok (0, w)
  end.
Proof.
  intros [Bs HR] Hv Hk Hn. unfold hashtable_remove. rewrite Hk, (nonzero_true n) by done.
  cbn [negb andb c_assert]. bind_simpl.
  destruct (get_entry_spec w l Bs k n HR Hv) as (p & B & Hi & Hb & Hp & HB & Hs & [(B1 & e & B2 & -> & Hlk & Hget & Hrd)|[Hget Hlk]]);
    rewrite Hlk, Hget; bind_simpl; [|done].
  set (idx := kh k n mod capacity (tab w)) in *. rewrite Hrd. bind_simpl.
  apply lookup_key_Some in Hlk as [He _]. pose proof HR as [].
  pose proof Hs as Hs0. apply seg_app in Hs as (r & Hs1 & Hs2). cbn in Hs2. destruct Hs2 as (-> & He0 & q & Hq & Hs2).
  apply nexts_node in Hq as (x & Ex & Hx). rewrite (node_ok _ _ _ Ex). bind_simpl. rewrite Hx.
  pose proof (ch_nodup _ _ _ rp_chains0 _ _ HB) as HndB.
  assert (HndB' := HndB). apply NoDup_app in HndB' as (HndB1 & HB12 & HndB2).
  destruct (write_slot_spec w Bs idx p B1 e q B2) as (st1 & bs & -> & Hbs & I1 & N1 & P1 & S1); try done.
  - lia.
  - apply rp_chains0.
  - intros y Hy Hy2. apply (HB12 y Hy). by right.
  - intros j qj Bj Hj Hqj HBj. split; [by apply (ch_seg _ _ _ rp_chains0 j)|]. intros y Hy Hy2. apply Hj.
    apply (one_bucket w l Bs j (Z.to_nat idx) Bj (B1 ++ e :: B2) y); try done. set_solver.
  - bind_simpl. cbn [ents tab with_count]. apply list_elem_of_split in He as (la & lb & El).
    pose proof (ring_nodup _ _ _ rp_ring0) as Hnd. apply NoDup_cons in Hnd as [Hhd Hnd].
    rewrite (filter_split l la e lb Hnd El). rewrite El in rp_ring0.
    assert (ring st1 (lst_head (tab w)) (la ++ e :: lb)) as Hr1
      by (apply (ring_ext (ents w)); [done|]; intros a _; by rewrite N1, P1).
    destruct (ring_unlink st1 _ la e lb Hr1) as (a & b & Hne & Hpe & Hae & Hbe & Ha & Hb' & Hna & Hpb & Hring).
    apply nx_node in Hne as (y & Ey & Hny). apply pv_node in Hpe as (y' & Ey' & Hpy). assert (y' = y) as -> by congruence.
    rewrite (node_ok _ _ _ Ey). bind_simpl. cbn in Hny, Hpy. rewrite Hny, Hpy.
    destruct (upd_next st1 a b) as (st2 & -> & R2 & N2 & P2); [apply nx_node in Hna as (? & -> & _); eauto|]. bind_simpl.
    assert (nx st2 e = Some b) as (z & Ez & Hnz)%nx_node by (rewrite N2, decide_False by done; unfold nx; rewrite Ey; cbn; by rewrite Hny).
    assert (pv st2 e = Some a) as (z' & Ez' & Hpz)%pv_node by (rewrite P2; unfold pv; rewrite Ey; cbn; by rewrite Hpy).
    assert (z' = z) as -> by congruence. rewrite (node_ok _ _ _ Ez). bind_simpl. cbn in Hnz, Hpz. rewrite Hnz, Hpz.
    destruct (upd_prev st2 b a) as (st3 & -> & R3 & N3 & P3);
      [eapply same_rest_is_Some; [exact R2|]; apply pv_node in Hpb as (? & -> & _); eauto|]. bind_simpl.
    assert (same_rest st1 st3) as R by (by rewrite R2).
    destruct (rp_entry0 e ltac:(subst l; set_solver)) as (_ & (k' & n' & Hinf & _) & _).
    assert (infos st3 e = Some (k', n', e - he_offset, kh k' n')) as Hinf3 by (by rewrite (rest_infos _ _ _ R), I1).
    apply infos_node in Hinf3 as (x3 & Ex3 & _ & _ & Hd3 & _). rewrite (node_ok _ _ _ Ex3). bind_simpl. rewrite Hd3.
    assert (forall c, infos st3 c = infos (ents w) c) as I3 by (intros c; by rewrite (rest_infos _ _ _ R), I1).
    assert (forall c, c <> e -> nx st3 c = if decide (c = a) then Some b else nx st1 c) as N3' by (intros c _; by rewrite N3, N2).
    assert (zlen (la ++ lb) + 1 = zlen l) as Hz by (subst l; unfold zlen; rewrite !length_app; cbn; lia).
    pose proof (zlen_nonneg (la ++ lb)).
    eexists. split; [reflexivity|]. split; [|split_and!; try done].
    + eapply (rep_frame w _ l _ (<[Z.to_nat idx := B1 ++ B2]> Bs)); try done; [by exists Bs|..]; cbn.
      * apply Hring; [done|]. intros c _. by rewrite P3, P2.
      * unfold zlen. rewrite Hbs. rewrite (ch_len _ _ _ rp_chains0). exact rp_buckets0.
      * rewrite rp_count0, u64_small; lia.
      * lia.
      * intros c Hc. apply (entry_ok_frame w); [apply rp_entry0; subst l; set_solver|apply I3|].
        apply rp_entry0. subst l. set_solver.
      * rewrite <- (filter_split l la e lb Hnd El).
        apply (chains_remove w l Bs (Z.to_nat idx) B1 e B2 st3 bs); try done.
        { subst l. set_solver. }
        intros j qj Bj Hqj HBj. apply (seg_ext st1); [|by apply (S1 j)]. intros c _. by apply rest_nexts.
      * apply (keys_frame w l Bs); [done|]. intros c Hc. split; [subst l; set_solver|apply I3].
Qed.

(** ** References *)

Lemma ref_frame w d k dt : live w d k dt -> k + 1 < 2 ^ 32 ->
  exists w', ref d w = Ok (d, w') /\ w' = set_obj d (mkRc (k + 1) dt mem_magic) w /\
    ents w' = ents w /\ tab w' = tab w /\ client w' = client w /\ live w' d (k + 1) dt /\
    (forall p k' dt', live w p k' dt' -> exists k'' dt'', live w' p k'' dt'').
Proof.
  intros Hl Hk. eexists. split; [by apply ref_ok|]. split; [done|]. split_and!; try done.
  - apply (live_set_obj _ _ k); [done|destruct Hl; lia].
  - intros p k' dt'. apply (set_obj_keeps _ _ k); [done|destruct Hl; lia].
Qed.

(** The destructors the client needs for the object at [d]. *)
Definition destroy_ok (w : hworld K Y) (d : Z) (dt : option Z) (y : Y) : Prop :=
  match dt with Some f => client_destroy f d (client w) = Ok y | None => y = client w end.

Lemma deref_frame w d k dt y : live w d k dt -> (k = 1 -> destroy_ok w d dt y) ->
  exists w', deref d w = Ok w' /\ tab w' = tab w /\ objs (w_heap w') = drop_ref d (objs (w_heap w)) /\
    brk (w_heap w') = brk (w_heap w) /\
    client w' = (if k =? 1 then client_release d y else client w) /\
    ents w' = (if k =? 1 then delete (d + he_offset) (ents w) else ents w).
Proof.
  intros Hl Hy. destruct (deref_cases w d k dt Hl) as (w' & E & O & Hb & Hw).
  { intros ->. specialize (Hy eq_refl). destruct dt as [dt|]; [|eauto]. cbn in *. rewrite Hy. bind_simpl. eauto. }
  exists w'. split; [done|]. destruct Hw as [[Hk ->]|(-> & w1 & -> & E1)].
  - rewrite (proj2 (Z.eqb_neq k 1)) by lia. done.
  - rewrite Z.eqb_refl. specialize (Hy eq_refl).
    assert (w1 = with_client y (set_obj d (mkRc 0 dt mem_magic) w)) as ->.
    { destruct dt as [dt|]; cbn in *; [rewrite Hy in E1; bind_simpl; by injection E1 as <-|].
      injection E1 as <-. by rewrite Hy. }
    done.
Qed.

(** ** Insertion *)

Lemma rep_heap w w' l Bs : rep' w l Bs -> ents w' = ents w -> tab w' = tab w ->
  (forall p k dt, live w p k dt -> exists k' dt', live w' p k' dt') -> rep' w' l Bs.
Proof.
  intros [] He Ht Hl. split; rewrite ?He, ?Ht; try done.
  - intros e Hin. apply (entry_ok_frame w); [by apply rp_entry0|by rewrite He|].
    destruct (rp_entry0 e Hin) as (_ & _ & c & dt & Hlv). by apply Hl in Hlv.
  - destruct rp_chains0. split; by rewrite ?He, ?Ht.
Qed.

(** Memory of an entry that is not in the table does not matter. *)
Lemma rep_agree w w' l (e : Z) : rep w l -> tab w' = tab w -> e ∉ lst_head (tab w) :: l ->
  (forall a, a <> e -> ents w' !! a = ents w !! a) ->
  (forall z, z ∈ l -> exists c dt, live w' (z - he_offset) c dt) -> rep w' l.
Proof.
  intros [Bs []] Ht He Hf Hl. exists Bs.
  assert (forall z, z ∈ lst_head (tab w) :: l -> ents w' !! z = ents w !! z) as F by (intros z Hz; apply Hf; congruence).
  assert (forall z, z ∈ l -> ents w' !! z = ents w !! z) as Fl by (intros z Hz; apply F; by right).
  split; rewrite ?Ht; try done.
  - apply (ring_ext (ents w)); [done|]. intros a Ha. unfold nx, pv. by rewrite F.
  - intros z Hz. apply (entry_ok_frame w); [by apply rp_entry0|unfold infos; by rewrite Fl|by apply Hl].
  - destruct rp_chains0. split; rewrite ?Ht; try done.
    + intros i p B Hp HB. apply (seg_ext (ents w)); [|by apply (ch_seg0 i)]. intros z Hz.
      apply (ch_elem0 _ _ HB) in Hz as [Hz _]. unfold nexts. by rewrite Fl.
    + intros i B HB z. rewrite (ch_elem0 _ _ HB). split; intros [Hz H2]; (split; [done|]); by rewrite ?Fl in *.
  - intros z z' xz Hz Hz' Exz. rewrite Fl in Exz by done. unfold has_key. rewrite Fl by done. by apply rp_keys0.
Qed.

(** The node of the entry once its hash and bucket link are set. *)
Lemma upd_entry_frame st e x f : st !! e = Some x -> forall c, c <> e ->
  infos (<[e := f]> st) c = infos st c /\ nexts (<[e := f]> st) c = nexts st c /\
  nx (<[e := f]> st) c = nx st c /\ pv (<[e := f]> st) c = pv st c.
Proof. intros E c Hc. unfold infos, nexts, nx, pv. by rewrite lookup_insert_ne. Qed.

Lemma link_tail_spec st h l ent : ring st h l -> ent ∉ h :: l -> is_Some (st !! ent) ->
  exists st', (hd ← node h st;
     st ← upd ent (set_lprev (lst_prev hd)) st;
     st ← upd ent (set_lnext h) st;
     hd ← node h st;
     st ← upd (lst_prev hd) (set_lnext ent) st;
     upd h (set_lprev ent) st) = Ok st' /\ same_rest st st' /\ ring st' h (l ++ [ent]).
Proof.
  intros Hr He Hs. rewrite <- (app_nil_r l) in Hr, He.
  destruct (ring_link st h l [] ent Hr He) as (a & b & _ & Hb & Hn & Hp & Hae & Hbe & Hring).
  cbn in Hb. injection Hb as <-. pose proof Hp as (n0 & E0 & X0)%pv_node. rewrite (node_ok _ _ _ E0). bind_simpl.
  cbn in X0. rewrite X0. assert (is_Some (st !! a)) as Hsa by (apply nx_node in Hn as (? & -> & _); eauto).
  destruct (upd_prev st ent a Hs) as (s1 & -> & R1 & N1 & P1). bind_simpl.
  destruct (upd_next s1 ent h (same_rest_is_Some _ _ _ R1 Hs)) as (s2 & -> & R2 & N2 & P2). bind_simpl.
  assert (pv s2 h = Some a) as (n2 & E2 & X2)%pv_node by (by rewrite P2, P1, decide_False).
  rewrite (node_ok _ _ _ E2). bind_simpl. cbn in X2. rewrite X2.
  assert (same_rest st s2) as R12 by (by rewrite R1).
  destruct (upd_next s2 a ent (same_rest_is_Some _ _ _ R12 Hsa)) as (s3 & -> & R3 & N3 & P3). bind_simpl.
  destruct (upd_prev s3 h ent) as (s4 & -> & R4 & N4 & P4);
    [by eapply same_rest_is_Some; [exact R3|]; rewrite E2; eauto|].
  exists s4. split; [done|]. split; [by rewrite R12, R3|]. apply Hring; intros c.
  - rewrite N4, N3, N2, N1. repeat case_decide; congruence.
  - rewrite P4, P3, P2, P1. repeat case_decide; congruence.
Qed.

Lemma chains_add w l Bs idx B e st bs : chains w l Bs -> Bs !! idx = Some B -> e ∉ l ->
  length bs = length Bs -> (forall x, x <> e -> infos st x = infos (ents w) x) ->
  (exists x, st !! e = Some x /\ hash_code x mod capacity (tab w) = Z.of_nat idx) ->
  (forall j q B', bs !! j = Some q -> <[idx := e :: B]> Bs !! j = Some B' -> seg st q B' 0) ->
  forall h t cl, capacity t = capacity (tab w) -> buckets t = bs ->
    chains (mkHworld h st t cl) (l ++ [e]) (<[idx := e :: B]> Bs).
Proof.
  intros Hch HB He Hlen Hi (xe & Exe & Hxe) Hseg h t cl Hc Hb. pose proof Hch as [].
  pose proof (lookup_lt_Some _ _ _ HB) as Hlt.
  assert (forall i B', Bs !! i = Some B' -> e ∉ B') as Hnot.
  { intros i B' HB' Hin. apply (ch_elem0 _ _ HB') in Hin as [? _]. done. }
  assert (forall i B', Bs !! i = Some B' -> forall x, x ∈ B' <-> x ∈ l /\ exists y, st !! x = Some y /\
      hash_code y mod capacity (tab w) = Z.of_nat i) as Hel.
  { intros i B' HB' x. rewrite (ch_elem0 _ _ HB'). split; intros [H1 H2]; split; try done;
      apply (hash_frame (ents w) st x); try done; apply Hi; intros ->; done. }
  split; cbn [tab ents]; rewrite ?Hb, ?Hc; try done.
  - by rewrite length_insert.
  - intros i B'. destruct (decide (i = idx)) as [->|Hne].
    + rewrite list_lookup_insert_eq by done. intros E. injection E as <-. apply NoDup_cons. split; [by eapply Hnot|by eapply ch_nodup0].
    + rewrite list_lookup_insert_ne by done. apply ch_nodup0.
  - intros i B'. destruct (decide (i = idx)) as [->|Hne].
    + rewrite list_lookup_insert_eq by done. intros E x. injection E as <-. rewrite elem_of_cons, elem_of_app, list_elem_of_singleton, (Hel _ _ HB).
      split; [intros [->|[H1 H2]]; eauto|]. intros [[H1| ->] H2]; [right; done|by left].
    + rewrite list_lookup_insert_ne by done. intros HB' x. rewrite elem_of_app, list_elem_of_singleton, (Hel _ _ HB').
      split; [intros [H1 H2]; eauto|]. intros [[H1| ->] (y & Ey & Hy)]; [eauto|]. exfalso. apply Hne.
      assert (y = xe) as -> by congruence. lia.
Qed.

Lemma hashtable_add_spec w l Bs e x k n : rep' w l Bs -> zlen l + 1 < 2 ^ 63 -> e <> 0 ->
  e ∉ lst_head (tab w) :: l -> ents w !! e = Some x -> key x = k -> keylen x = n -> data x = e - he_offset ->
  valid k n -> (exists c dt, live w (e - he_offset) c dt) -> lookup_key w l k n = None ->
  exists w', hashtable_add e w = Ok w' /\ rep w' (l ++ [e]) /\ w_heap w' = w_heap w /\ client w' = client w /\
    (forall c, c <> e -> infos (ents w') c = infos (ents w) c) /\
    infos (ents w') e = Some (k, n, e - he_offset, kh k n) /\
    mod_count (tab w') = mod_count (tab w) /\ lst_head (tab w') = lst_head (tab w).
Proof.
  intros HR Hz He0 Hnew Ex Hk Hn Hd Hv Hl Hno. pose proof HR as []. pose proof (zlen_nonneg l).
  unfold hashtable_add. rewrite (node_ok _ _ _ Ex). bind_simpl. rewrite Hk, Hn, (fn_hash _ rp_fns0 k n Hv). bind_simpl.
  destruct (bucket_at w l Bs (kh k n) HR) as (p & B & Hidx & Hb & Hi & Hp & HB & Hs). rewrite Hidx. bind_simpl.
  set (idx := kh k n mod capacity (tab w)) in *. rewrite (upd_ok _ _ _ _ Ex). bind_simpl. rewrite Hb. bind_simpl.
  rewrite (upd_ok _ _ _ _ (lookup_insert_eq (ents w) e _)). bind_simpl. rewrite insert_insert_eq.
  set (x2 := set_next p (set_hash (kh k n) x)). set (st2 := <[e := x2]> (ents w)).
  pose proof (upd_entry_frame (ents w) e x x2 Ex) as F2. fold st2 in F2.
  assert (ring st2 (lst_head (tab w)) l) as Hr2.
  { apply (ring_ext (ents w)); [done|]. intros a Ha. assert (a <> e) as Hae by congruence. by destruct (F2 a Hae) as (_ & _ & ? & ?). }
  assert (st2 !! e = Some x2) as Est2 by apply lookup_insert_eq.
  destruct (link_tail_spec st2 _ l e Hr2 Hnew ltac:(rewrite Est2; eauto)) as (st' & Hlink & R & Hring).
  assert (exists t', set_bucket (tab w) idx e = Ok t' /\ t' = with_count (count (tab w)) (mod_count (tab w)) (<[Z.to_nat idx := e]> (buckets (tab w))) (tab w))
    as (t' & Ht' & Et') by (eexists; split; [by apply (set_bucket_ok _ _ p); [lia|]|done]).
  set (w' := with_tab (with_count (u64 (count t' + 1)) (mod_count t') (buckets t') t') (with_ents st' w)).
  exists w'. split.
  { clear -Hlink Ht'. inv_bind. rewrite Hr. bind_simpl. rewrite Hr0. bind_simpl. rewrite Hr1. bind_simpl.
    rewrite Hr2. bind_simpl. rewrite Hr3. bind_simpl. rewrite Hlink. bind_simpl. rewrite Ht'. done. }
  assert (forall c, c <> e -> infos st' c = infos (ents w) c) as I'.
  { intros c Hc. rewrite (rest_infos st2) by done. by apply F2. }
  assert (infos st' e = Some (k, n, e - he_offset, kh k n)) as Ie.
  { rewrite (rest_infos st2) by done. unfold infos. rewrite Est2. cbn. unfold info. cbn. by rewrite Hk, Hn, Hd. }
  assert (forall c, c ∈ l -> c <> e) as Hlne by (intros c Hc ->; apply Hnew; by right).
  assert (forall c, nexts st' c = if decide (c = e) then Some p else nexts (ents w) c) as X'.
  { intros c. rewrite (rest_nexts st2) by done. case_decide as Hc; [subst c; unfold nexts; by rewrite Est2|by apply F2]. }
  split; [|split_and!; try done; by subst t'].
  subst t'. eapply (rep_frame w _ l _ (<[Z.to_nat idx := e :: B]> Bs)); try done; [by exists Bs|..]; cbn.
  - unfold zlen. rewrite length_insert. exact rp_buckets0.
  - rewrite rp_count0, zlen_app, zlen_cons, zlen_nil, u64_small; lia.
  - rewrite zlen_app, zlen_cons, zlen_nil. lia.
  - intros c [Hc|Hc%list_elem_of_singleton]%elem_of_app.
    + apply (entry_ok_frame w); [by apply rp_entry0|by apply I', Hlne|]. by apply rp_entry0.
    + subst c. split; [done|]. split; [|done]. exists k, n. done.
  - apply (chains_add w l Bs (Z.to_nat idx) B e st' (<[Z.to_nat idx := e]> (buckets (tab w)))); try done.
    + intros Hin. by apply (Hlne e).
    + rewrite length_insert. symmetry. apply rp_chains0.
    + apply infos_node in Ie as (y & Ey & _ & _ & _ & Hy). exists y. split; [done|]. rewrite Hy. fold idx. lia.
    + pose proof (lookup_lt_Some _ _ _ Hp) as Hlt. pose proof (lookup_lt_Some _ _ _ HB) as HltB. intros j q B' Hq HB'.
      assert (forall i Bi, Bs !! i = Some Bi -> forall c, c ∈ Bi -> nexts st' c = nexts (ents w) c) as Hsame.
      { intros i Bi HBi c Hc. rewrite X', decide_False; [done|]. apply Hlne. by apply (ch_elem _ _ _ rp_chains0 _ _ HBi) in Hc as [? _]. }
      destruct (decide (j = Z.to_nat idx)) as [->|Hj].
      * rewrite list_lookup_insert_eq in Hq by done. rewrite list_lookup_insert_eq in HB' by done. injection Hq as <-. injection HB' as <-.
        cbn. split; [done|]. split; [done|]. exists p. rewrite X', decide_True by done. split; [done|].
        apply (seg_ext (ents w)); [|done]. exact (Hsame _ _ HB).
      * rewrite list_lookup_insert_ne in Hq by done. rewrite list_lookup_insert_ne in HB' by done.
        apply (seg_ext (ents w)); [by apply (Hsame j)|]. by apply (ch_seg _ _ _ rp_chains0 j).
  - pose proof (lookup_key_None _ _ _ _ Hno) as Hnone.
    apply infos_node in Ie as (ye & Eye & Hye1 & Hye2 & _ & _).
    intros c c' y [Hc|Hc%list_elem_of_singleton]%elem_of_app [Hc'|Hc'%list_elem_of_singleton]%elem_of_app Ey Hky; try congruence.
    + apply (keys_frame w l Bs st' l HR) with (x := y); try done. intros z Hz'. split; [done|by apply I', Hlne].
    + subst c'. exfalso. specialize (Hnone c Hc). rewrite <- (has_key_infos (ents w) st') in Hnone by (by apply I', Hlne).
      unfold has_key in Hnone, Hky. rewrite Ey in Hnone. rewrite Eye, Hye1, Hye2, ksame_sym in Hky. congruence.
    + subst c. exfalso. assert (y = ye) as -> by congruence. rewrite Hye1, Hye2 in Hky.
      rewrite (has_key_infos (ents w)) in Hky by (by apply I', Hlne). by rewrite Hnone in Hky.
Qed.

Lemma takeover_spec st h la old lb e x xo : ring st h (la ++ old :: lb) -> e ∉ h :: la ++ old :: lb ->
  st !! e = Some x -> st !! old = Some xo ->
  exists st', takeover e old st = Ok st' /\
    (forall c, c <> e -> infos st' c = infos st c /\ nexts st' c = nexts st c) /\
    infos st' e = Some (key x, keylen x, data x, hash_code xo) /\ nexts st' e = Some (next xo) /\
    forall st'', (forall c, c <> old -> nx st'' c = nx st' c /\ pv st'' c = pv st' c) -> ring st'' h (la ++ e :: lb).
Proof.
  intros Hr Hnew Ex Exo. destruct (ring_replace st h la old lb e Hr Hnew) as (a & b & Hno & Hpo & Hao & Hbo & Hae & Hbe & Hsa & Hsb & Hring).
  assert (old <> e) as Hoe by (intros ->; apply Hnew; set_solver).
  unfold nx in Hno. unfold pv in Hpo. rewrite Exo in Hno, Hpo. cbn in Hno, Hpo. injection Hno as Hno. injection Hpo as Hpo.
  unfold takeover.
  rewrite (node_ok _ _ _ Exo). bind_simpl. rewrite (upd_ok _ _ _ _ Ex). bind_simpl.
  assert (forall y, node old (<[e := y]> st) = Ok xo) as Hold by (intros y; apply node_ok; by rewrite lookup_insert_ne).
  assert (forall y f, upd e f (<[e := y]> st) = Ok (<[e := f y]> st)) as Hupd
    by (intros y f; rewrite (upd_ok _ _ _ _ (lookup_insert_eq st e y)); by rewrite insert_insert_eq).
  repeat (rewrite Hold; bind_simpl; rewrite Hupd; bind_simpl). rewrite Hno, Hpo.
  set (xn := set_hash _ _). set (s4 := <[e := xn]> st).
  assert (s4 !! e = Some xn) as E4 by apply lookup_insert_eq. rewrite (node_ok _ _ _ E4). bind_simpl. cbn [lst_prev xn set_hash].
  pose proof (upd_entry_frame st e x xn Ex) as F4. fold s4 in F4.
  assert (forall c, is_Some (st !! c) -> is_Some (s4 !! c)) as Hsome.
  { intros c [y Ey]. destruct (decide (c = e)) as [->|]; [eauto|]. unfold s4. rewrite lookup_insert_ne by done. eauto. }
  destruct (upd_next s4 a e (Hsome a Hsa)) as (s5 & E5 & R5 & N5 & P5). cbn in E5 |- *. rewrite E5. bind_simpl.
  assert (nx s5 e = Some b) as (x5 & Ex5 & Hx5)%nx_node by (rewrite N5, decide_False by done; unfold nx; by rewrite E4).
  rewrite (node_ok _ _ _ Ex5). bind_simpl. cbn in Hx5. rewrite Hx5.
  destruct (upd_prev s5 b e (same_rest_is_Some _ _ _ R5 (Hsome b Hsb))) as (s6 & E6 & R6 & N6 & P6). cbn in E6. rewrite E6.
  assert (same_rest s4 s6) as R by (by rewrite R5).
  exists s6. split; [done|]. split_and!.
  - intros c Hc. rewrite (rest_infos s4), (rest_nexts s4) by done. by destruct (F4 c Hc) as (? & ? & _).
  - rewrite (rest_infos s4) by done. unfold infos. by rewrite E4.
  - rewrite (rest_nexts s4) by done. unfold nexts. by rewrite E4.
  - intros st'' Hst. apply Hring; intros c Hc; destruct (Hst c Hc) as [Hx Hy]; [rewrite Hx, N6, N5|rewrite Hy, P6, P5];
      repeat case_decide; subst; try done; try (unfold nx, pv; by rewrite E4); by apply F4.
Qed.

Lemma chains_replace w l Bs idx B1 old B2 e st bs la lb : chains w l Bs -> Bs !! idx = Some (B1 ++ old :: B2) ->
  l = la ++ old :: lb -> NoDup l -> e ∉ l -> length bs = length Bs ->
  (forall x, x <> e -> x <> old -> infos st x = infos (ents w) x) ->
  (exists x, st !! e = Some x /\ hash_code x mod capacity (tab w) = Z.of_nat idx) ->
  (forall j q B', bs !! j = Some q -> <[idx := B1 ++ e :: B2]> Bs !! j = Some B' -> seg st q B' 0) ->
  forall h t cl, capacity t = capacity (tab w) -> buckets t = bs ->
    chains (mkHworld h st t cl) (la ++ e :: lb) (<[idx := B1 ++ e :: B2]> Bs).
Proof.
  intros Hch HB El Hnd He Hlen Hi (xe & Exe & Hxe) Hseg h t cl Hc Hb. pose proof Hch as [].
  pose proof (lookup_lt_Some _ _ _ HB) as Hlt. pose proof (ch_nodup0 _ _ HB) as HndB.
  assert (forall i B', Bs !! i = Some B' -> e ∉ B') as Hnot.
  { intros i B' HB' Hin. apply (ch_elem0 _ _ HB') in Hin as [? _]. done. }
  assert (forall x, x ∈ la ++ lb <-> x ∈ l /\ x <> old) as Hlab
    by (intros x; by rewrite <- elem_filter_ne, (filter_split l la old lb)).
  assert (forall x, x ∈ B1 ++ B2 <-> x ∈ B1 ++ old :: B2 /\ x <> old) as HB12
    by (intros x; by rewrite <- elem_filter_ne, (filter_split (B1 ++ old :: B2) B1 old B2)).
  assert (forall i B', Bs !! i = Some B' -> forall x, x ∈ B' /\ x <> old <-> x ∈ la ++ lb /\ exists y, st !! x = Some y /\
      hash_code y mod capacity (tab w) = Z.of_nat i) as Hel.
  { intros i B' HB' x. rewrite Hlab, (ch_elem0 _ _ HB').
    assert (x <> old -> x ∈ l -> infos st x = infos (ents w) x) as Hix by (intros; apply Hi; congruence).
    split.
    - intros [[H1 H2] H3]. split; [done|]. apply (hash_frame (ents w) st x); auto.
    - intros [[H1 H3] H2]. split; [split; [done|]|done]. apply (hash_frame (ents w) st x) in H2; auto. }
  split; cbn [tab ents]; rewrite ?Hb, ?Hc; try done.
  - by rewrite length_insert.
  - intros i B'. destruct (decide (i = idx)) as [->|Hne]; [rewrite list_lookup_insert_eq by done|rewrite list_lookup_insert_ne by done; apply ch_nodup0].
    intros E. injection E as <-. rewrite <- Permutation_middle. specialize (Hnot _ _ HB).
    rewrite NoDup_app, NoDup_cons in HndB. rewrite NoDup_cons, NoDup_app. set_solver.
  - intros i B' HB' x.
    assert (x ∈ la ++ e :: lb <-> x = e \/ x ∈ la ++ lb) as -> by set_solver.
    destruct (decide (i = idx)) as [->|Hne].
    + rewrite list_lookup_insert_eq in HB' by done. injection HB' as <-.
      assert (x ∈ B1 ++ e :: B2 <-> x = e \/ x ∈ B1 ++ B2) as -> by set_solver. rewrite HB12, (Hel _ _ HB).
      split; [intros [->|[H1 H2]]; eauto|]. intros [[->|H1] H2]; [by left|right; done].
    + rewrite list_lookup_insert_ne in HB' by done.
      assert (x ∈ B' -> x <> old) as Hxo by (intros Hx ->; apply Hne; apply (one_bucket w l Bs i idx B' (B1 ++ old :: B2) old); try done; set_solver).
      split.
      * intros Hx. destruct (proj1 (Hel _ _ HB' x) (conj Hx (Hxo Hx))) as [H1 H2]. eauto.
      * intros [[->|H1] H2]; [|by apply (Hel _ _ HB')]. exfalso. apply Hne. destruct H2 as (y & Ey & Hy).
        assert (y = xe) as -> by congruence. lia.
Qed.

(** The entry [e] as a caller prepares it: not in the table, with its key, for
    a live object that can take one more reference. *)
Record fresh w l (e : Z) (k : K) (n : Z) : Prop := {
  fr_new : e ∉ lst_head (tab w) :: l;
  fr_zero : e <> 0;
  fr_node : exists x, ents w !! e = Some x /\ key x = k /\ keylen x = n /\ data x = e - he_offset;
  fr_key : valid k n /\ is_null k = false /\ n <> 0;
  fr_live : exists c dt, live w (e - he_offset) c dt /\ c + 1 < 2 ^ 32;
  fr_room : zlen l + 1 < 2 ^ 63;
}.

Lemma fresh_node w l e k n : fresh w l e k n ->
  exists x, node e (ents w) = Ok x /\ ents w !! e = Some x /\ key x = k /\ keylen x = n /\ data x = e - he_offset.
Proof. intros []. destruct fr_node0 as (x & Ex & H). exists x. split; [by apply node_ok|done]. Qed.

Lemma lookup_key_frame w w' l k n : (forall e, e ∈ l -> infos (ents w') e = infos (ents w) e) ->
  lookup_key w' l k n = lookup_key w l k n.
Proof.
  intros H. unfold lookup_key. replace (filter (fun e => has_key (ents w') k n e = true) l)
    with (filter (fun e => has_key (ents w) k n e = true) l); [done|].
  induction l as [|e l IH]; [done|]. rewrite !filter_cons, IH by (intros; apply H; by right).
  by rewrite (has_key_infos (ents w) (ents w')) by (apply H; left).
Qed.

(** A new key goes to the end. *)
Lemma hashtable_put_new w l e k n : rep w l -> fresh w l e k n -> lookup_key w l k n = None ->
  exists w' c dt, hashtable_put e w = Ok (e - he_offset, w') /\ rep w' (l ++ [e]) /\
    live w (e - he_offset) c dt /\
    w_heap w' = w_heap (set_obj (e - he_offset) (mkRc (c + 1) dt mem_magic) w) /\
    client w' = client w /\ (forall x, x <> e -> infos (ents w') x = infos (ents w) x) /\
    infos (ents w') e = Some (k, n, e - he_offset, kh k n) /\
    mod_count (tab w') = s32 (mod_count (tab w) + 1) /\ lst_head (tab w') = lst_head (tab w).
Proof.
  intros [Bs HR] Hf Hno. destruct (fresh_node _ _ _ _ _ Hf) as (x & Hn & Ex & Hk & Hl & Hd). destruct Hf.
  destruct fr_key0 as (Hv & Hnull & Hn0). destruct fr_live0 as (c & dt & Hlv & Hc).
  unfold hashtable_put. rewrite (nonzero_true e) by done. cbn [c_assert]. bind_simpl. rewrite Hn. bind_simpl.
  rewrite Hk, Hl, Hd, Hnull, (nonzero_true n), (nonzero_true (e - he_offset)) by (done || apply Hlv). cbn [negb andb c_assert]. bind_simpl.
  destruct (ref_frame w _ c dt Hlv Hc) as (w1 & -> & Ew1 & He1 & Ht1 & Hc1 & Hlv1 & Hmono). bind_simpl. cbn [snd].
  assert (rep' w1 l Bs) as HR1 by (by apply (rep_heap w)).
  assert (lookup_key w1 l k n = None) as Hno1 by (rewrite (lookup_key_frame w); [done|by rewrite He1]).
  destruct (get_entry_spec w1 l Bs k n HR1 Hv) as (p & B & _ & _ & _ & _ & _ & [(B1 & e' & B2 & _ & Hlk & _)|[Hget _]]); [congruence|].
  rewrite Hget. bind_simpl.
  destruct (hashtable_add_spec w1 l Bs e x k n) as (w2 & -> & HR2 & Hh2 & Hcl2 & Hi2 & Hie2 & Hm2 & Hhd2); try done;
    rewrite ?He1, ?Ht1; try done; [eauto|].
  bind_simpl. eexists _, c, dt. split; [reflexivity|].
  split; [|rewrite <- Ew1; cbn; split_and!; [done|done|congruence|intros y Hy; by rewrite Hi2, He1|done|by rewrite Hm2, Ht1|by rewrite Hhd2, Ht1]].
  destruct HR2 as [Bs2 HR2]. exists Bs2. destruct HR2. split; try done; [by destruct rp_fns0|by destruct rp_chains0].
Qed.

(** A known key: the entry replaces the one that has it, in its place, and the
    reference to the old object is dropped. *)
Lemma hashtable_put_known w l e k n old c dt y : rep w l -> fresh w l e k n -> lookup_key w l k n = Some old ->
  live w (old - he_offset) c dt -> (c = 1 -> destroy_ok w (old - he_offset) dt y) ->
  exists w' la lb, hashtable_put e w = Ok (e - he_offset, w') /\ l = la ++ old :: lb /\ rep w' (la ++ e :: lb) /\
    mod_count (tab w') = s32 (mod_count (tab w) + 1) /\
    (forall z, z <> e -> z <> old -> infos (ents w') z = infos (ents w) z) /\
    infos (ents w') e = Some (k, n, e - he_offset, kh k n).
Proof.
  intros [Bs HR] Hf Hold Hlo Hdo. destruct (fresh_node _ _ _ _ _ Hf) as (x & Hn & Ex & Hk & Hl & Hd). destruct Hf.
  destruct fr_key0 as (Hv & Hnull & Hn0). destruct fr_live0 as (ce & dte & Hlv & Hc).
  unfold hashtable_put. rewrite (nonzero_true e) by done. cbn [c_assert]. bind_simpl. rewrite Hn. bind_simpl.
  rewrite Hk, Hl, Hd, Hnull, (nonzero_true n), (nonzero_true (e - he_offset)) by (done || apply Hlv). cbn [negb andb c_assert]. bind_simpl.
  destruct (ref_frame w _ ce dte Hlv Hc) as (w1 & -> & Ew1 & He1 & Ht1 & Hc1 & Hlv1 & Hmono). bind_simpl. cbn [snd].
  assert (rep' w1 l Bs) as HR1 by (by apply (rep_heap w)).
  assert (lookup_key w1 l k n = Some old) as Hold1 by (rewrite (lookup_key_frame w); [done|by rewrite He1]).
  destruct (get_entry_spec w1 l Bs k n HR1 Hv) as (p & B & Hi & Hb & Hp & HB & Hs & [(B1 & e' & B2 & -> & Hlk & Hget & Hrd)|[_ Hlk]]); [|congruence].
  rewrite Hold1 in Hlk. injection Hlk as <-. rewrite Hget. bind_simpl. rewrite Hrd. bind_simpl.
  set (idx := kh k n mod capacity (tab w1)) in *.
  apply lookup_key_Some in Hold1 as [Hin Hkey]. pose proof Hin as (la & lb & El)%list_elem_of_split.
  destruct (entry_hash w1 old k n (rp_entry _ _ _ HR1 old Hin) Hkey) as (xo & Exo & Hho).
  pose proof HR1 as []. assert (e ∉ l) as Hel by (intros ?; apply fr_new0; by right).
  assert (old <> e) as Hoe by congruence. rewrite <- Ht1 in fr_new0. rewrite El in rp_ring0, fr_new0. rewrite <- He1 in Ex.
  destruct (takeover_spec (ents w1) _ la old lb e x xo rp_ring0 fr_new0 Ex Exo) as (st6 & -> & F6 & I6 & X6 & Hring). bind_simpl.
  destruct (rp_entry0 old Hin) as (_ & (ko & no & Hinf & _) & _).
  assert (infos st6 old = Some (ko, no, old - he_offset, kh ko no)) as Hinf6 by (by rewrite (proj1 (F6 old Hoe))).
  apply infos_node in Hinf6 as (xo6 & Exo6 & _ & _ & Hdo6 & _). rewrite (node_ok _ _ _ Exo6). bind_simpl. rewrite Hdo6.
  assert (live (with_ents st6 w1) (old - he_offset) c dt) as Hlo6.
  { destruct Hlo as (? & ? & Hlo). split; [done|]. split; [done|]. rewrite <- Hlo.
    change (heap_of (with_ents st6 w1)) with (heap_of w1). rewrite Ew1. apply obj_after_set. lia. }
  destruct (deref_frame (with_ents st6 w1) _ c dt y Hlo6) as (w7 & -> & T7 & O7 & _ & _ & E7).
  { intros ->. specialize (Hdo eq_refl). unfold destroy_ok in *. cbn. by rewrite Hc1. }
  bind_simpl. cbn in T7, O7, E7. replace (old - he_offset + he_offset) with old in E7 by lia.
  assert (forall z, z <> old -> ents w7 !! z = st6 !! z) as F7 by (intros z Hz; rewrite E7; destruct (c =? 1); [by rewrite lookup_delete_ne|done]).
  pose proof Hs as (r & Hs1 & (-> & Ho0 & q & Hq & Hs2))%seg_app.
  pose proof (ch_nodup _ _ _ rp_chains0 _ _ HB) as HndB. assert (HndB' := HndB). apply NoDup_app in HndB' as (HndB1 & HB12 & HndB2).
  apply NoDup_cons in HndB2 as [HoB2 HndB2].
  assert (forall i Bi, Bs !! i = Some Bi -> forall z, z ∈ Bi -> z <> old -> nexts (ents w7) z = nexts (ents w1) z) as Hsame.
  { intros i Bi HBi z Hz Hzo. unfold nexts at 1. rewrite F7 by done. fold (nexts st6 z). apply F6. intros ->.
    apply Hel. by apply (ch_elem _ _ _ rp_chains0 _ _ HBi) in Hz as [? _]. }
  assert (forall j Bj, j <> Z.to_nat idx -> Bs !! j = Some Bj -> forall z, z ∈ B1 ++ old :: B2 -> z ∉ Bj) as Hdisj.
  { intros j Bj Hj HBj z Hz Hz2. apply Hj. by apply (one_bucket w1 l Bs j (Z.to_nat idx) Bj (B1 ++ old :: B2) z). }
  destruct (write_slot_spec w7 Bs idx p B1 old e (e :: B2)) as (st8 & bs & E8 & Hbs & I8 & N8 & P8 & S8); rewrite ?T7; try done; try lia.
  - apply rp_chains0.
  - apply (seg_ext (ents w1)); [|done]. intros z Hz. apply (Hsame _ _ HB); [set_solver|]. intros ->. apply (HB12 old Hz). left.
  - cbn. split; [done|]. split; [done|]. exists q. split.
    + unfold nexts. rewrite F7 by done. fold (nexts st6 e). rewrite X6. unfold nexts in Hq. rewrite Exo in Hq. done.
    + apply (seg_ext (ents w1)); [|done]. intros z Hz. apply (Hsame _ _ HB); [set_solver|congruence].
  - intros z Hz [->|Hz2]%elem_of_cons.
    + apply Hel. apply (ch_elem _ _ _ rp_chains0 _ _ HB). set_solver.
    + apply (HB12 z Hz). by right.
  - intros j qj Bj Hj Hqj HBj. split.
    + apply (seg_ext (ents w1)); [|by apply (ch_seg _ _ _ rp_chains0 j)]. intros z Hz. apply (Hsame _ _ HBj); [done|].
      intros ->. apply (Hdisj j Bj Hj HBj old); [set_solver|done].
    + intros z Hz. apply (Hdisj j Bj Hj HBj). set_solver.
  - rewrite E8. bind_simpl. rewrite T7.
    assert (forall z, z <> e -> z <> old -> infos st8 z = infos (ents w1) z) as I8'.
    { intros z Hz Hzo. rewrite I8. unfold infos at 1. rewrite F7 by done. by apply F6. }
    assert (infos st8 e = Some (k, n, e - he_offset, kh k n)) as I8e.
    { rewrite I8. unfold infos. rewrite F7 by done. fold (infos st6 e). rewrite I6. by rewrite Hk, Hl, Hd, Hho. }
    eexists _, la, lb. split; [reflexivity|]. split; [done|].
    split; [|split_and!; [by rewrite <- Ht1|intros z Hz Hzo; cbn; by rewrite I8', He1|exact I8e]].
    pose proof (ring_nodup _ _ _ rp_ring0) as Hnd. apply NoDup_cons in Hnd as [Hhd Hnd]. rewrite <- El in Hnd.
    assert (forall z, z ∈ la ++ e :: lb -> z = e \/ (z ∈ l /\ z <> old /\ z <> e)) as Hcase.
    { intros z Hz. destruct (decide (z = e)) as [->|Hze]; [by left|right].
      assert (z ∈ la ++ lb) as Hz' by set_solver. rewrite <- (filter_split l la old lb) in Hz' by done.
      apply elem_filter_ne in Hz'. tauto. }
    eapply (rep_frame w1 _ l _ (<[Z.to_nat idx := B1 ++ e :: B2]> Bs)); try done; [by exists Bs|..]; cbn.
    + apply Hring. intros z Hz. rewrite N8, P8. unfold nx, pv. by rewrite F7.
    + unfold zlen. rewrite Hbs, (ch_len _ _ _ rp_chains0). exact rp_buckets0.
    + rewrite rp_count0, El, !zlen_app, !zlen_cons. done.
    + rewrite El, zlen_app, zlen_cons in rp_small0. rewrite zlen_app, zlen_cons. done.
    + intros z [->|(Hz1 & Hz2 & Hz3)]%Hcase.
      * split; [done|]. split; [by exists k, n|]. exists (ce + 1), dte. destruct Hlv1 as (? & ? & Hlv1). split; [done|]. split; [done|].
        cbn. rewrite O7, drop_ref_ne by lia. done.
      * apply (entry_ok_frame w1); [by apply rp_entry0|by apply I8'|].
        destruct (rp_entry0 z Hz1) as (_ & _ & cz & dz & ? & ? & Hz). exists cz, dz. split; [done|]. split; [done|].
        cbn. rewrite O7, drop_ref_ne by lia. done.
    + apply (chains_replace w1 l Bs (Z.to_nat idx) B1 old B2 e st8 bs la lb); try done.
      apply infos_node in I8e as (y8 & Ey8 & _ & _ & _ & Hy8). exists y8. split; [done|]. rewrite Hy8. fold idx. lia.
    + assert (has_key (ents w1) k n old = true) as Hko by done.
      apply infos_node in I8e as (ye & Eye & Hye1 & Hye2 & _ & _).
      intros a a' ya Ha Ha' Eya Hka. apply Hcase in Ha as [->|(Ha1 & Ha2 & Ha3)]; apply Hcase in Ha' as [->|(Ha1' & Ha2' & Ha3')]; try done.
      * exfalso. assert (ya = ye) as -> by congruence. rewrite Hye1, Hye2 in Hka.
        rewrite (has_key_infos (ents w1)) in Hka by (by apply I8'). apply Ha2'.
        apply (rp_keys0 old a' xo); try done. unfold has_key in Hko. rewrite Exo in Hko.
        by rewrite (has_key_same _ _ _ k n).
      * exfalso. apply Ha2. unfold has_key in Hka. rewrite Eye, Hye1, Hye2, ksame_sym in Hka.
        destruct (infos_lookup _ _ _ _ (I8' a Ha3 Ha2) Eya) as (xa & Exa & Hxa). injection Hxa as Hxa1 Hxa2 _ _.
        apply (rp_keys0 old a xo); try done. unfold has_key in Hko |- *. rewrite Exo in Hko. rewrite Exa, Hxa1, Hxa2.
        rewrite ksame_sym in Hko. by eapply ksame_trans.
      * destruct (infos_lookup _ _ _ _ (I8' a Ha3 Ha2) Eya) as (xa & Exa & Hxa). injection Hxa as Hxa1 Hxa2 _ _.
        rewrite (has_key_infos (ents w1)) in Hka by (by apply I8'). apply (rp_keys0 a a' xa); try done. by rewrite Hxa1, Hxa2.
Qed.

End Refinement.

End HashtableThm.
