(* ===== verification/HashtableApi.v ===== *)
(** * Linked hash tables: the map they implement

    The operations of the table against an association list in insertion order,
    and iteration. *)

From Stdlib Require Import ZArith Lia.
From stdpp Require Import prelude gmap list.
From S2P Require Import Prelude RcMem Rings Hashtable HashtableThm.

Module HashtableApi.
Import RcMem Rings Hashtable HashtableThm.

Section Api.
Context {K Y : Type} {KN : Key K} {C : Client Y} {KS : KeySpec K} {KL : KeyLaws K}.
Implicit Types (w : hworld K Y) (st : gmap Z (HashEntry_i K)).

(** ** Lookup *)

Lemma hashtable_get_spec w l k n : rep w l -> valid k n -> is_null k = false -> n <> 0 ->
  (forall e c dt, e ∈ l -> live w (e - he_offset) c dt -> c + 1 < 2 ^ 32) ->
  match lookup_key w l k n with
  | Some e => exists w' c dt, hashtable_get k n w = Ok (e - he_offset, w') /\ rep w' l /\
      live w (e - he_offset) c dt /\ w' = set_obj (e - he_offset) (mkRc (c + 1) dt mem_magic) w
  | None => hashtable_get k n w = Ok (0, w)
  end.
Proof.
  intros [Bs HR] Hv Hk Hn Hroom. unfold hashtable_get. rewrite Hk, (nonzero_true n) by done. cbn [negb andb c_assert]. bind_simpl.
  destruct (get_entry_spec w l Bs k n HR Hv) as (p & B & _ & _ & _ & _ & _ & [(B1 & e & B2 & _ & Hlk & Hget & Hrd)|[Hget Hlk]]);
    rewrite Hlk, Hget; bind_simpl; [|done].
  rewrite Hrd. bind_simpl. apply lookup_key_Some in Hlk as [He _].
  destruct (rp_entry _ _ _ HR e He) as (_ & (k' & n' & Hi & _) & c & dt & Hl).
  apply infos_node in Hi as (x & Ex & _ & _ & Hd & _). rewrite (node_ok _ _ _ Ex). bind_simpl. rewrite Hd.
  destruct (ref_frame w _ c dt Hl (Hroom e c dt He Hl)) as (w' & -> & Ew & He' & Ht & _ & _ & Hmono).
  exists w', c, dt. split; [done|]. split; [|done]. exists Bs. by apply (rep_heap w).
Qed.

Lemma hashtable_exist_spec w l k n : rep w l -> valid k n -> is_null k = false -> n <> 0 ->
  hashtable_exist k n w = Ok (match lookup_key w l k n with Some _ => true | None => false end).
Proof.
  intros [Bs HR] Hv Hk Hn. unfold hashtable_exist. rewrite Hk, (nonzero_true n) by done. cbn [negb andb c_assert]. bind_simpl.
  destruct (get_entry_spec w l Bs k n HR Hv) as (p & B & _ & _ & _ & _ & _ & [(B1 & e & B2 & _ & Hlk & Hget & _)|[Hget Hlk]]);
    by rewrite Hlk, Hget.
Qed.

(** ** Positions of the ring *)

Lemma head_next w l : rep w l ->
  exists h, node (lst_head (tab w)) (ents w) = Ok h /\ hd_error (l ++ [lst_head (tab w)]) = Some (lst_next h).
Proof.
  intros [Bs []]. destruct (ring_neighbours _ _ _ [] (lst_head (tab w)) (l ++ [lst_head (tab w)]) rp_ring0) as (b & Hb & Hn & _);
    [done|by destruct l|]. apply nx_node in Hn as (n & En & Hnx). exists n. split; [by apply node_ok|].
  cbn in Hnx. rewrite Hnx. by destruct l.
Qed.

Lemma entry_next w l1 e l2 : rep w (l1 ++ e :: l2) ->
  exists x, node e (ents w) = Ok x /\ ents w !! e = Some x /\ data x = e - he_offset /\
    hd_error (l2 ++ [lst_head (tab w)]) = Some (lst_next x).
Proof.
  intros [Bs []]. destruct (rp_entry0 e ltac:(set_solver)) as (_ & (k & n & Hi & _) & _).
  apply infos_node in Hi as (x & Ex & _ & _ & Hd & _). exists x. split; [by apply node_ok|]. split; [done|]. split; [done|].
  destruct (ring_neighbours _ _ _ (lst_head (tab w) :: l1) e (l2 ++ [lst_head (tab w)]) rp_ring0) as (b & Hb & Hn & _);
    [cbn; by rewrite <- app_assoc|by destruct l2|].
  unfold nx in Hn. rewrite Ex in Hn. cbn in Hn. injection Hn as ->. by destruct l2.
Qed.

(** ** Clearing *)

Definition destroy_total : Prop := forall f p (y : Y), exists y', client_destroy f p y = Ok y'.

Definition drop_refs (l : list Z) (o : gmap Z rc_mem) : gmap Z rc_mem :=
  foldl (fun o e => drop_ref (e - he_offset) o) o l.

Lemma clear_loop_spec (Ht : destroy_total) l : forall w ent,
  hd_error (l ++ [lst_head (tab w)]) = Some ent -> NoDup l -> lst_head (tab w) ∉ l ->
  Forall (fun ab => nx (ents w) ab.1 = Some ab.2) (pairs (l ++ [lst_head (tab w)])) ->
  (forall e, e ∈ l -> entry_ok w e) ->
  exists w', clear_loop (length l) ent w = Ok w' /\ tab w' = tab w /\
    objs (w_heap w') = drop_refs l (objs (w_heap w)) /\
    (forall a, a ∉ l -> ents w' !! a = ents w !! a).
Proof.
  induction l as [|e l IH]; intros w ent Hd Hnd Hh Hp He; cbn in Hd; injection Hd as <-; cbn [clear_loop length].
  { rewrite Z.eqb_refl. exists w. done. }
  apply NoDup_cons in Hnd as [Hel Hnd]. apply not_elem_of_cons in Hh as [Hhe Hh].
  rewrite (proj2 (Z.eqb_neq _ _)) by done.
  destruct (He e ltac:(set_solver)) as (_ & (k' & n' & Hi & _) & c & dt & Hl).
  apply infos_node in Hi as (x & Ex & _ & _ & Hdx & _). rewrite (node_ok _ _ _ Ex). bind_simpl. rewrite Hdx.
  assert (exists y, destroy_ok w (e - he_offset) dt y) as [y Hy].
  { destruct dt as [f|]; [|by eexists]. destruct (Ht f (e - he_offset) (client w)) as [y Hy]. by exists y. }
  destruct (deref_frame w _ c dt y Hl (fun _ => Hy)) as (w1 & -> & T1 & O1 & _ & _ & E1). bind_simpl.
  replace (e - he_offset + he_offset) with e in E1 by lia.
  assert (forall a, a <> e -> ents w1 !! a = ents w !! a) as N1
    by (intros a Ha; rewrite E1; destruct (c =? 1); [by rewrite lookup_delete_ne|done]).
  assert (hd_error (l ++ [lst_head (tab w1)]) = Some (lst_next x)) as Hd1.
  { rewrite T1. destruct l as [|b l]; cbn in Hp |- *; rewrite pairs_cons in Hp; apply Forall_cons in Hp as [Hp _];
      cbn in Hp; unfold nx in Hp; rewrite Ex in Hp; cbn in Hp; congruence. }
  destruct (IH w1 (lst_next x) Hd1 Hnd) as (w2 & -> & T2 & O2 & N2).
  - by rewrite T1.
  - assert (Forall (fun ab => nx (ents w) ab.1 = Some ab.2) (pairs (l ++ [lst_head (tab w)]))) as Hp1.
    { destruct l as [|b l]; [by constructor|]. cbn in Hp |- *. rewrite pairs_cons in Hp. by apply Forall_cons in Hp as [_ Hp]. }
    rewrite T1. rewrite Forall_forall in Hp1 |- *. intros [a b] Hab. specialize (Hp1 _ Hab). cbn in *.
    unfold nx. rewrite N1; [exact Hp1|]. intros ->. apply (list_elem_of_fmap_2 fst) in Hab. rewrite pairs_fst in Hab. done.
  - intros z Hz. assert (z <> e) as Hze by congruence.
    apply (entry_ok_frame w); [apply He; by right|unfold infos; by rewrite N1|].
    destruct (He z ltac:(by right)) as (_ & _ & cz & dz & H1 & H2 & H3). exists cz, dz. split; [done|]. split; [done|].
    cbn. rewrite O1, drop_ref_ne by lia. exact H3.
  - exists w2. split; [done|]. split; [congruence|]. split; [by rewrite O2, O1|].
    intros a Ha. apply not_elem_of_cons in Ha as [Hae Hal]. by rewrite N2, N1.
Qed.

Lemma rep_empty w w' n : (exists l, rep w l) -> tab w' = with_count 0 n (replicate (Z.to_nat (capacity (tab w))) 0) (tab w) ->
  ring (ents w') (lst_head (tab w)) [] -> rep w' [].
Proof.
  intros [l [Bs HR]] Ht Hring. pose proof HR as [].
  eapply (rep_frame w _ l _ (replicate (Z.to_nat (capacity (tab w))) [])); rewrite ?Ht; try done; [by exists Bs|..]; cbn.
  - unfold zlen. rewrite length_replicate. lia.
  - intros e He. by apply elem_of_nil in He.
  - split; rewrite ?Ht; cbn.
    + by rewrite !length_replicate.
    + intros i p B Hp HB. apply lookup_replicate in Hp as [-> _]. apply lookup_replicate in HB as [-> _]. done.
    + intros i B HB. apply lookup_replicate in HB as [-> _]. apply NoDup_nil_2.
    + intros i B HB e. apply lookup_replicate in HB as [-> _]. set_solver.
  - intros e e' x He. by apply elem_of_nil in He.
Qed.

Lemma hashtable_clear_spec w l : destroy_total -> rep w l ->
  exists w', hashtable_clear w = Ok w' /\ rep w' [] /\ objs (w_heap w') = drop_refs l (objs (w_heap w)).
Proof.
  intros Ht HR. pose proof HR as [Bs HR']. pose proof HR' as []. unfold hashtable_clear, hashtable_clear_i. rewrite rp_count0.
  destruct (Z.eqb_spec (zlen l) 0) as [E|E].
  { assert (l = []) as -> by (destruct l; [done|]; rewrite zlen_cons in E; pose proof (zlen_nonneg l); lia). eauto. }
  destruct (head_next w l HR) as (hd & -> & Hnx). bind_simpl. set (h := lst_head (tab w)) in *.
  pose proof rp_ring0 as [Hnd Hlinks]. apply NoDup_cons in Hnd as [Hhl Hnd].
  unfold zlen. rewrite Nat2Z.id.
  destruct (clear_loop_spec Ht l w (lst_next hd)) as (w1 & -> & T1 & O1 & N1); try done; fold h; try done.
  - assert (Forall (fun ab => nx (ents w) ab.1 = Some ab.2) (pairs (h :: l ++ [h]))) as HA
      by (eapply Forall_impl; [exact Hlinks|]; by intros ? [? _]).
    destruct l as [|x l]; [by constructor|]. cbn in HA |- *. rewrite pairs_cons in HA. by apply Forall_cons in HA as [_ HA].
  - bind_simpl. rewrite T1. fold h.
    assert (is_Some (ents w1 !! h)) as [n1 Hn1] by (rewrite N1 by done; apply (ring_node _ _ _ h rp_ring0); left).
    rewrite (upd_ok _ _ _ _ Hn1). bind_simpl.
    rewrite (upd_ok _ _ _ _ (lookup_insert_eq (ents w1) h _)). bind_simpl.
    eexists. split; [reflexivity|]. split; [|exact O1]. eapply (rep_empty w); [by exists l|done|].
    apply (ring_empty _ _ (set_lprev h (set_lnext h n1))); cbn; [|done|done]. by rewrite lookup_insert_eq.
Qed.

(** ** Iterators *)

(** An iterator that stands before the entries [l2], with nothing changed since
    by others. *)
Definition stands w (it : HashtableIterator) (l2 : list Z) : Prop :=
  hd_error (l2 ++ [lst_head (tab w)]) = Some (it_next it) /\ expected_mod_count it = mod_count (tab w).

Lemma hashtable_iterate_spec w l : rep w l -> exists it, hashtable_iterate w = Ok it /\ stands w it l.
Proof.
  intros HR. destruct (head_next w l HR) as (h & E & Hn). unfold hashtable_iterate. rewrite E. bind_simpl.
  eexists. split; [reflexivity|]. by split.
Qed.

Lemma stands_nonzero w l1 l2 it : rep w (l1 ++ l2) -> stands w it l2 -> it_next it <> 0.
Proof.
  intros [Bs []] [Hh _]. destruct l2 as [|e l2]; cbn in Hh; injection Hh as <-; [done|].
  by destruct (rp_entry0 e ltac:(set_solver)).
Qed.

Lemma stands_head w l1 l2 it : rep w (l1 ++ l2) -> stands w it l2 ->
  (it_next it =? lst_head (tab w)) = match l2 with [] => true | _ => false end.
Proof.
  intros [Bs []] [Hh _]. destruct l2 as [|e l2]; cbn in Hh; injection Hh as <-; [apply Z.eqb_refl|].
  apply Z.eqb_neq. intros ->. pose proof (ring_nodup _ _ _ rp_ring0) as Hnd. apply NoDup_cons in Hnd as [Hnd _]. set_solver.
Qed.

Lemma has_next_spec w l1 l2 it : rep w (l1 ++ l2) -> stands w it l2 ->
  hashtable_iterator_has_next it w = Ok (match l2 with [] => false | _ => true end).
Proof.
  intros HR Hs. unfold hashtable_iterator_has_next. rewrite (nonzero_true _ (stands_nonzero _ _ _ _ HR Hs)). cbn [c_assert]. bind_simpl.
  rewrite (stands_head _ _ _ _ HR Hs). by destruct l2.
Qed.

Lemma iterator_next_spec w l1 e l2 it c dt : rep w (l1 ++ e :: l2) -> stands w it (e :: l2) ->
  live w (e - he_offset) c dt -> c + 1 < 2 ^ 32 ->
  exists it' w', hashtable_iterator_next it w = Ok (1, e - he_offset, it', w') /\
    w' = set_obj (e - he_offset) (mkRc (c + 1) dt mem_magic) w /\ rep w' (l1 ++ e :: l2) /\
    current it' = e /\ stands w' it' l2.
Proof.
  intros HR Hs Hl Hc. unfold hashtable_iterator_next. rewrite (nonzero_true _ (stands_nonzero _ _ _ _ HR Hs)). cbn [c_assert]. bind_simpl.
  rewrite (stands_head _ _ _ _ HR Hs). destruct Hs as [Hh Hm]. cbn in Hh. injection Hh as Hh. rewrite Hm, Z.eqb_refl, <- Hh. cbn [negb].
  destruct (entry_next w l1 e l2 HR) as (x & -> & _ & Hd & Hnx). bind_simpl. rewrite Hd.
  destruct (ref_frame w _ c dt Hl Hc) as (w' & -> & Ew & He' & Ht & _ & _ & Hmono). bind_simpl.
  eexists _, w'. split; [reflexivity|]. split; [done|]. destruct HR as [Bs HR]. split; [exists Bs; by apply (rep_heap w)|].
  split; [done|]. split; cbn; by rewrite Ht.
Qed.

(** Taking out the entry the iterator has just passed. *)
Lemma iterator_remove_spec w l1 e l2 it c dt y : rep w (l1 ++ e :: l2) -> stands w it l2 -> current it = e ->
  live w (e - he_offset) c dt -> (forall k n h, infos (ents w) e = Some (k, n, e - he_offset, h) -> is_null k = false /\ n <> 0) ->
  (c = 1 -> destroy_ok w (e - he_offset) dt y) ->
  exists it' w', hashtable_iterator_remove it w = Ok (1, it', w') /\ rep w' (l1 ++ l2) /\ stands w' it' l2 /\
    objs (w_heap w') = drop_ref (e - he_offset) (objs (w_heap w)) /\ brk (w_heap w') = brk (w_heap w) /\
    client w' = (if c =? 1 then client_release (e - he_offset) y else client w) /\
    (forall z, z <> e -> infos (ents w') z = infos (ents w) z) /\ lst_head (tab w') = lst_head (tab w).
Proof.
  intros HR Hs Hcur Hl Hkey Hy. pose proof HR as [Bs []].
  destruct (rp_entry0 e ltac:(set_solver)) as (He0 & (k & n & Hi & Hv) & _).
  assert (rep w (l1 ++ e :: l2)) as HRl by done.
  assert (it_next it <> 0) as Hnz.
  { destruct Hs as [Hh _]. destruct l2 as [|a l2]; cbn in Hh; injection Hh as <-; [done|].
    by destruct (rp_entry0 a ltac:(set_solver)). }
  unfold hashtable_iterator_remove. rewrite Hcur, (nonzero_true _ Hnz), (nonzero_true _ He0). cbn [c_assert andb]. bind_simpl.
  destruct Hs as [Hh Hm]. rewrite Hm, Z.eqb_refl. cbn [negb].
  destruct (Hkey k n _ Hi) as [Hnull Hn0].
  pose proof Hi as (x & Ex & Hk1 & Hk2 & _ & _)%infos_node. rewrite (node_ok _ _ _ Ex). bind_simpl. rewrite Hk1, Hk2.
  assert (lookup_key w (l1 ++ e :: l2) k n = Some e) as Hlk.
  { apply lookup_key_unique; [done|set_solver|]. unfold has_key. rewrite Ex, Hk1, Hk2. apply ksame_refl. }
  pose proof (hashtable_remove_spec w _ k n HR Hv Hnull Hn0) as Hrem. rewrite Hlk in Hrem.
  destruct Hrem as (w1 & -> & HR1 & Hh1 & Hc1 & I1 & M1 & L1). bind_simpl.
  pose proof (ring_nodup _ _ _ rp_ring0) as Hnd. apply NoDup_cons in Hnd as [_ Hnd].
  rewrite (filter_split _ l1 e l2 Hnd eq_refl) in HR1.
  rewrite (nonzero_true (e - he_offset)) by apply Hl.
  assert (live w1 (e - he_offset) c dt) as Hl1 by (destruct Hl as (? & ? & Hl); split; [done|]; split; [done|]; cbn; by rewrite Hh1).
  destruct (deref_frame w1 _ c dt y Hl1) as (w2 & -> & T2 & O2 & B2 & C2 & E2).
  { intros E. specialize (Hy E). unfold destroy_ok in *. by rewrite Hc1. }
  bind_simpl. replace (e - he_offset + he_offset) with e in E2 by lia.
  assert (forall z, z <> e -> ents w2 !! z = ents w1 !! z) as F2
    by (intros z Hz; rewrite E2; destruct (c =? 1); [by rewrite lookup_delete_ne|done]).
  eexists _, w2. split; [reflexivity|]. split_and!.
  - assert (forall z, z ∈ l1 ++ l2 -> z <> e) as Hne
      by (intros z Hz ->; rewrite NoDup_app, NoDup_cons in Hnd; set_solver).
    apply (rep_agree w1 w2 _ e HR1 T2); [|done|].
    + rewrite L1. pose proof (ring_nodup _ _ _ rp_ring0) as Hnd'. apply NoDup_cons in Hnd' as [Hnd' _].
      intros [Heq|Hin]%elem_of_cons; [apply Hnd'; rewrite <- Heq; set_solver|by apply (Hne e)].
    + intros z Hz. destruct HR1 as [Bs1 HR1]. destruct (rp_entry _ _ _ HR1 z Hz) as (_ & _ & cz & dz & Z1 & Z2 & Z3).
      exists cz, dz. split; [done|]. split; [done|]. cbn. rewrite O2, drop_ref_ne; [exact Z3|]. specialize (Hne z Hz). lia.
  - split; cbn; by rewrite T2, ?L1, ?M1.
  - by rewrite O2, Hh1.
  - by rewrite B2, Hh1.
  - by rewrite C2, Hc1.
  - intros z Hz. unfold infos at 1. rewrite F2 by done. apply I1.
  - by rewrite T2, L1.
Qed.

Lemma app_inj_middle {A} (l1 l2 k1 k2 : list A) x :
  l1 ++ x :: l2 = k1 ++ x :: k2 -> NoDup (k1 ++ x :: k2) -> k1 = l1 /\ k2 = l2.
Proof.
  revert k1. induction l1 as [|a l1 IH]; intros [|b k1] E Hnd; cbn in *; simplify_eq; try done.
  - apply NoDup_cons in Hnd as [Hnd _]. set_solver.
  - rewrite NoDup_cons in Hnd. set_solver.
  - apply NoDup_cons in Hnd as [_ Hnd]. by destruct (IH k1) as [-> ->].
Qed.

(** ** The map

    An association list of keys and objects, in insertion order. *)

Notation item := (K * Z * Z)%type.

Definition addr (i : item) : Z := snd i + he_offset.
Definition matches (k : K) (n : Z) (i : item) : bool := ksame (fst (fst i)) (snd (fst i)) k n.

Fixpoint alookup (k : K) (n : Z) (m : list item) : option item :=
  match m with
  | [] => None
  | i :: m => if matches k n i then Some i else alookup k n m
  end.

Fixpoint aput (k : K) (n d : Z) (m : list item) : list item :=
  match m with
  | [] => [(k, n, d)]
  | i :: m => if matches k n i then (k, n, d) :: m else i :: aput k n d m
  end.

Fixpoint aremove (k : K) (n : Z) (m : list item) : list item :=
  match m with
  | [] => []
  | i :: m => if matches k n i then m else i :: aremove k n m
  end.

(** The table holds the map [m]. *)
Definition holds w (m : list item) : Prop :=
  rep w (addr <$> m) /\ forall k n d, (k, n, d) ∈ m -> infos (ents w) (d + he_offset) = Some (k, n, d, kh k n).

Lemma has_key_item w m k n k' n' d : holds w m -> (k', n', d) ∈ m ->
  has_key (ents w) k n (d + he_offset) = matches k n (k', n', d).
Proof.
  intros [_ H] Hin. apply H, infos_node in Hin as (x & Ex & H1 & H2 & _). unfold has_key, matches. by rewrite Ex, H1, H2.
Qed.

Lemma lookup_alookup w m k n : holds w m -> lookup_key w (addr <$> m) k n = addr <$> alookup k n m.
Proof.
  intros [HR HI]. clear HR. unfold lookup_key. induction m as [|[[k' n'] d] m IH]; [done|]. cbn [fmap list_fmap alookup].
  specialize (HI k' n' d ltac:(left)) as Hi. apply infos_node in Hi as (x & Ex & H1 & H2 & _).
  assert (has_key (ents w) k n (addr (k', n', d)) = matches k n (k', n', d)) as Hm
    by (unfold has_key, addr; cbn [snd]; by rewrite Ex, H1, H2).
  destruct (matches k n (k', n', d)) eqn:E; [by rewrite filter_cons_True|].
  rewrite filter_cons_False by congruence. apply IH. intros k0 n0 d0 Hin. apply HI. by right.
Qed.

Lemma alookup_split k n m i : alookup k n m = Some i ->
  exists m1 m2, m = m1 ++ i :: m2 /\ matches k n i = true /\ (forall j, j ∈ m1 -> matches k n j = false) /\
    (forall d, aput k n d m = m1 ++ (k, n, d) :: m2) /\ aremove k n m = m1 ++ m2.
Proof.
  induction m as [|j m IH]; cbn [alookup aput aremove]; [done|]. destruct (matches k n j) eqn:E.
  - intros H. injection H as <-. exists [], m. split_and!; try done. intros ? H%elem_of_nil. done.
  - intros (m1 & m2 & -> & H1 & H2 & H3 & H4)%IH. exists (j :: m1), m2. split_and!; try done.
    + intros x [->|Hx]%elem_of_cons; [done|by apply H2].
    + intros d. cbn. by rewrite H3.
    + cbn. by rewrite H4.
Qed.

Lemma alookup_None k n m : alookup k n m = None -> (forall d, aput k n d m = m ++ [(k, n, d)]) /\ aremove k n m = m.
Proof.
  induction m as [|j m IH]; cbn [alookup aput aremove]; [done|]. destruct (matches k n j) eqn:E; [done|].
  intros [H1 H2]%IH. split; [intros d; cbn; by rewrite H1|by rewrite H2].
Qed.

Inductive op := Put (k : K) (n d : Z) | Get (k : K) (n : Z) | Exist (k : K) (n : Z) | Remove (k : K) (n : Z) | IsEmpty | Clear.

Definition exec (o : op) w : outcome (Z * hworld K Y) :=
  match o with
  | Put k n d => hashtable_put (d + he_offset) w
  | Get k n => hashtable_get k n w
  | Exist k n => b ← hashtable_exist k n w; Ok (Z.b2z b, w)
  | Remove k n => hashtable_remove k n w
  | IsEmpty => Ok (Z.b2z (hashtable_is_empty w), w)
  | Clear => w ← hashtable_clear w; Ok (0, w)
  end.

(** The result and the new map. *)
Definition spec (o : op) (m : list item) : Z * list item :=
  match o with
  | Put k n d => (d, aput k n d m)
  | Get k n => (default 0 (snd <$> alookup k n m), m)
  | Exist k n => (match alookup k n m with Some _ => 1 | None => 0 end, m)
  | Remove k n => (default 0 (snd <$> alookup k n m), aremove k n m)
  | IsEmpty => (match m with [] => 1 | _ => 0 end, m)
  | Clear => (0, [])
  end.

Definition pre w (o : op) (m : list item) : Prop :=
  match o with
  | Put k n d => fresh w (addr <$> m) (d + he_offset) k n /\ destroy_total
  | Get k n => valid k n /\ is_null k = false /\ n <> 0 /\
      (forall i c dt, i ∈ m -> live w (snd i) c dt -> c + 1 < 2 ^ 32)
  | Exist k n | Remove k n => valid k n /\ is_null k = false /\ n <> 0
  | IsEmpty => True
  | Clear => destroy_total
  end.

Lemma addr_data (i : item) : addr i - he_offset = snd i.
Proof. unfold addr. lia. Qed.

Lemma holds_frame w w' m m' : rep w' (addr <$> m') -> holds w m ->
  (forall i, i ∈ m' -> i ∈ m) -> (forall x, infos (ents w') x = infos (ents w) x) -> holds w' m'.
Proof. intros HR [_ HI] Hs Hi. split; [done|]. intros k n d Hin. rewrite Hi. by apply HI, Hs. Qed.

Lemma put_refines w m k n d : holds w m -> fresh w (addr <$> m) (d + he_offset) k n -> destroy_total ->
  exists w', hashtable_put (d + he_offset) w = Ok (d, w') /\ holds w' (aput k n d m).
Proof.
  intros Hh Hf Ht. pose proof Hh as [HR HI]. pose proof (lookup_alookup w m k n Hh) as Hlk.
  assert (forall i, i ∈ m -> addr i <> d + he_offset) as Hne.
  { intros i Hi E. apply (fr_new _ _ _ _ _ Hf). right. rewrite <- E. by apply list_elem_of_fmap_2. }
  assert (NoDup (addr <$> m)) as Hnd.
  { destruct HR as [Bs []]. pose proof (ring_nodup _ _ _ rp_ring0) as Hnd. by apply NoDup_cons in Hnd as [_ Hnd]. }
  destruct (alookup k n m) as [[[k' n'] d']|] eqn:Ea; cbn in Hlk.
  - apply alookup_split in Ea as (m1 & m2 & Em & Hk & Hno & Hput & _). rewrite Hput. clear Hput. subst m.
    assert (exists c dt, live w (d' + he_offset - he_offset) c dt) as (c & dt & Hl).
    { destruct HR as [Bs []]. apply rp_entry0. apply (list_elem_of_fmap_2 addr _ (k', n', d')). set_solver. }
    assert (exists y, destroy_ok w (d' + he_offset - he_offset) dt y) as [y Hy].
    { destruct dt as [f|]; [|by eexists]. destruct (Ht f (d' + he_offset - he_offset) (client w)) as [y Hy]. by exists y. }
    destruct (hashtable_put_known w _ _ k n _ c dt y HR Hf Hlk Hl (fun _ => Hy)) as (w' & la & lb & -> & Hl' & HR' & _ & Hi' & Hie').
    replace (d + he_offset - he_offset) with d in * by lia. exists w'. split; [done|].
    rewrite fmap_app, fmap_cons in Hl', Hnd. change (addr (k', n', d')) with (d' + he_offset) in Hl', Hnd.
    assert (la = addr <$> m1 /\ lb = addr <$> m2) as [-> ->].
    { rewrite Hl' in Hnd. pose proof (app_inj_middle _ _ _ _ _ Hl' Hnd). tauto. }
    split; [by rewrite fmap_app, fmap_cons|].
    intros k0 n0 d0 Hin. assert ((k0, n0, d0) ∈ m1 ++ m2 \/ (k0, n0, d0) = (k, n, d)) as [Hin'|E] by set_solver.
    + rewrite Hi'; [apply HI; set_solver|apply (Hne (k0, n0, d0)); set_solver|].
      rewrite NoDup_app, NoDup_cons in Hnd. intros E. change (addr (k', n', d')) with (d' + he_offset) in E.
      assert (d' + he_offset ∈ (addr <$> m1) ++ (addr <$> m2)) as Hd; [|set_solver].
      rewrite <- fmap_app, <- E. apply (list_elem_of_fmap_2 addr _ (k0, n0, d0)). done.
    + injection E as -> -> ->. done.
  - destruct (alookup_None k n m Ea) as [-> _].
    destruct (hashtable_put_new w _ _ k n HR Hf Hlk) as (w' & c & dt & -> & HR' & _ & _ & _ & Hi' & Hie' & _).
    replace (d + he_offset - he_offset) with d in * by lia. exists w'. split; [done|]. split; [by rewrite fmap_app|].
    intros k0 n0 d0 [Hin|Hin%list_elem_of_singleton]%elem_of_app.
    + rewrite Hi'; [by apply HI|]. by apply (Hne (k0, n0, d0)).
    + injection Hin as -> -> ->. done.
Qed.

Lemma remove_refines w m k n : holds w m -> valid k n -> is_null k = false -> n <> 0 ->
  exists w', hashtable_remove k n w = Ok (default 0 (snd <$> alookup k n m), w') /\ holds w' (aremove k n m).
Proof.
  intros Hh Hv Hk Hn. pose proof Hh as [HR HI]. pose proof (lookup_alookup w m k n Hh) as Hlk.
  pose proof (hashtable_remove_spec w _ k n HR Hv Hk Hn) as Hr. rewrite Hlk in Hr.
  destruct (alookup k n m) as [i|] eqn:Ea; cbn in Hr |- *.
  - apply alookup_split in Ea as (m1 & m2 & -> & _ & _ & _ & ->). destruct Hr as (w' & -> & HR' & _ & _ & Hi' & _).
    rewrite addr_data. exists w'. split; [done|]. apply (holds_frame w _ (m1 ++ i :: m2)); [|done|set_solver|done].
    rewrite fmap_app in HR' |- *. cbn in HR'. rewrite (filter_split _ (addr <$> m1) (addr i) (addr <$> m2)) in HR'; [done| |done].
    destruct HR as [Bs []]. pose proof (ring_nodup _ _ _ rp_ring0) as Hnd. apply NoDup_cons in Hnd as [_ Hnd].
    by rewrite fmap_app in Hnd.
  - destruct (alookup_None k n m Ea) as [_ ->]. eauto.
Qed.

Lemma exec_refines o w m : holds w m -> pre w o m ->
  exists w', exec o w = Ok (fst (spec o m), w') /\ holds w' (snd (spec o m)).
Proof.
  intros Hh Hp. pose proof Hh as [HR HI]. destruct o as [k n d|k n|k n|k n| |]; cbn [exec spec pre fst snd] in *.
  - destruct Hp as [Hf Ht]. by apply put_refines.
  - destruct Hp as (Hv & Hk & Hn & Hroom).
    pose proof (hashtable_get_spec w _ k n HR Hv Hk Hn) as Hg. rewrite (lookup_alookup w m k n Hh) in Hg.
    destruct (alookup k n m) as [i|]; cbn in Hg |- *.
    + destruct Hg as (w' & c & dt & -> & HR' & _ & ->).
      { intros e c dt (i' & -> & Hi')%list_elem_of_fmap Hl. rewrite addr_data in Hl. by eapply Hroom. }
      rewrite addr_data in HR' |- *. eexists. split; [reflexivity|]. by apply (holds_frame w _ m).
    + exists w. split; [|done]. apply Hg. intros e c dt (i' & -> & Hi')%list_elem_of_fmap Hl. rewrite addr_data in Hl. by eapply Hroom.
  - destruct Hp as (Hv & Hk & Hn). rewrite (hashtable_exist_spec w _ k n HR Hv Hk Hn), (lookup_alookup w m k n Hh). bind_simpl.
    exists w. split; [|done]. by destruct (alookup k n m).
  - destruct Hp as (Hv & Hk & Hn). by apply remove_refines.
  - exists w. split; [|done]. unfold hashtable_is_empty. destruct HR as [Bs []]. rewrite rp_count0.
    destruct m as [|i m]; [done|]. rewrite fmap_cons, zlen_cons, (proj2 (Z.eqb_neq _ _)); [done|].
    pose proof (zlen_nonneg (addr <$> m)). lia.
  - destruct (hashtable_clear_spec w _ Hp HR) as (w' & -> & HR' & _). bind_simpl. exists w'. split; [done|].
    split; [done|]. intros k n d H%elem_of_nil. done.
Qed.

(** C12. The linked hash table refines a map with its keys in insertion order:
    from a state that holds the map [m], every operation with valid arguments
    returns, gives the result of the operation on [m], and leaves a state that
    holds the map the operation makes of [m]; a new key is added at the end, and a
    known one keeps its place and has its object replaced. *)
Theorem hashtable_refines o w m : holds w m -> pre w o m ->
  exists w', exec o w = Ok (fst (spec o m), w') /\ holds w' (snd (spec o m)).
Proof. apply exec_refines. Qed.

(** ** A new table *)

Lemma hashtable_create_spec w dh dc cap syn hash cmp : 0 <= brk (w_heap w) ->
  0 <= cap < 2 ^ 31 ->
  fns_ok (mkHashtable 0 0 0 0 (default dh hash) (default dc cmp) 0 []) ->
  exists p w', hashtable_create dh dc true 0 cap syn hash cmp w = Ok (p, w') /\ p <> 0 /\ rep w' [] /\
    capacity (tab w') = (if cap =? 0 then 128 else cap) /\ client w' = client w /\
    brk (w_heap w') = p + sizeof_Hashtable + 8 * (if cap =? 0 then 128 else cap) /\
    objs (w_heap w') = <[p := mkRc 1 (Some HASHTABLE_DESTROY) mem_magic]> (objs (w_heap w)) /\
    lst_head (tab w') = p + lst_head_offset /\ p = brk (w_heap w) + sizeof_rc_mem /\
    ents w' = <[p + lst_head_offset := mkHashEntry null_key 0 0 0 0 (p + lst_head_offset) (p + lst_head_offset)]> (ents w).
Proof.
  intros Hb Hcap [Hf1 Hf2]. unfold hashtable_create, rc_alloc. set (c := if cap =? 0 then 128 else cap).
  assert (0 < c < 2 ^ 31) as Hc by (unfold c; destruct (Z.eqb_spec cap 0); lia).
  cbn [negb heap_of hworld_world]. set (p := brk (w_heap w) + sizeof_rc_mem).
  assert (p <> 0) as Hp by (unfold p, sizeof_rc_mem; lia). rewrite (proj2 (Z.eqb_neq p 0)) by done.
  rewrite andb_false_r. eexists p, _. split; [reflexivity|]. split; [done|].
  split; [|cbn; split_and!; try done; lia].
  exists (replicate (Z.to_nat c) []). split; cbn; try done.
  - eapply ring_empty; [apply lookup_insert_eq|done|done].
  - unfold p, sizeof_rc_mem, lst_head_offset. lia.
  - unfold zlen. rewrite length_replicate. lia.
  - by intros e He%elem_of_nil.
  - split; cbn.
    + by rewrite !length_replicate.
    + intros i q B Hq HB. apply lookup_replicate in Hq as [-> _]. apply lookup_replicate in HB as [-> _]. done.
    + intros i B HB. apply lookup_replicate in HB as [-> _]. apply NoDup_nil_2.
    + intros i B HB e. apply lookup_replicate in HB as [-> _]. set_solver.
  - by intros e e' x He%elem_of_nil.
Qed.

End Api.

(** ** Keys that are byte strings

    The functions a table has when its creator passes none. *)

Definition key_content (k : option bytes) (n : Z) : bytes :=
  match k with Some b => ztake n b | None => [] end.

#[export] Instance bytes_spec : KeySpec (option bytes) := {
  valid k n := exists b, k = Some b /\ 0 <= n <= zlen b;
  kh k n := foldl (fun h c => u32 (31 * h + c_char c)) 0 (key_content k n);
  ksame k n k' n' := bool_decide (n = n' /\ key_content k n = key_content k' n');
}.

Lemma hash_range b h : 0 <= h < 2 ^ 32 -> 0 <= foldl (fun h c => u32 (31 * h + c_char c)) h b < 2 ^ 32.
Proof. revert h. induction b as [|c b IH]; intros h Hh; cbn; [done|]. apply IH, u32_range. Qed.

#[export] Instance bytes_laws : KeyLaws (option bytes).
Proof.
  split; cbn.
  - intros k n. apply hash_range. lia.
  - intros k n k' n' [-> ->]%bool_decide_eq_true. done.
  - intros k n. by apply bool_decide_eq_true.
  - intros k n k' n'. apply bool_decide_ext. naive_solver.
  - intros k n k' n' k'' n'' [-> E]%bool_decide_eq_true [-> E']%bool_decide_eq_true. apply bool_decide_eq_true. by rewrite E.
Qed.

Lemma memcmp_zero a b : length a = length b -> (memcmp a b =? 0) = bool_decide (a = b).
Proof.
  revert b. induction a as [|x a IH]; intros [|y b] Hl; cbn in *; try done.
  destruct (Z.eqb_spec x y) as [->|Hxy].
  - rewrite IH by lia. apply bool_decide_ext. split; congruence.
  - rewrite bool_decide_eq_false_2 by congruence. by destruct (x <? y).
Qed.

Lemma default_fns_ok t : hash_fn t = default_hash_code -> key_compare t = default_key_compare -> fns_ok t.
Proof.
  intros Hh Hc. split; rewrite ?Hh, ?Hc.
  - intros k n (b & -> & Hn). unfold default_hash_code, key_bytes. rewrite mem_read_ok by lia. done.
  - intros k n k' n' (b & -> & Hn) (b' & -> & Hn') _. unfold default_key_compare. cbn [ksame bytes_spec key_content].
    destruct (Z.eqb_spec n n') as [<-|Hne]; cbn [negb].
    + unfold key_bytes. rewrite !mem_read_ok by lia. bind_simpl. rewrite !zdrop_0. eexists. split; [reflexivity|].
      rewrite memcmp_zero; [apply bool_decide_ext; naive_solver|].
      assert (zlen (ztake n b) = zlen (ztake n b')) as E by (by rewrite !zlen_ztake_le). unfold zlen in E. lia.
    + eexists. split; [reflexivity|]. rewrite bool_decide_eq_false_2 by (by intros [? _]). by destruct (n <? n').
Qed.

(** ** A run *)

Section Example.
#[local] Instance unit_client : Client unit := {
  he_offset := 8;
  client_destroy _ _ y := Ok y;
  client_zero _ y := y;
  client_release _ y := y;
}.

Notation world := (hworld (option bytes) unit).

Definition no_table : world :=
  mkHworld (mkHeap ∅ 1000) ∅ (mkHashtable 0 0 0 0 default_hash_code default_key_compare 0 []) tt.

Definition new_table : world :=
  match hashtable_create default_hash_code default_key_compare true 0 4 1 None None no_table with
  | Ok r => snd r
  | _ => no_table
  end.

(** An object with the key [k], ready to be put. *)
Definition prepare (k : bytes) (w : world) : Z * world :=
  let '(p, w) := rc_zalloc true 64 None w in
  (p, with_ents (<[p + 8 := mkHashEntry (Some k) (zlen k) p 0 0 0 0]> (ents w)) w).

Lemma new_table_holds : holds (snd (prepare [97] new_table)) [].
Proof.
  split; [|intros k n d H%elem_of_nil; done].
  destruct (hashtable_create_spec no_table default_hash_code default_key_compare 4 1 None None) as (p & w' & E & _ & [Bs HR] & _).
  - vm_compute. congruence.
  - lia.
  - by apply default_fns_ok.
  - assert (new_table = w') as <- by (unfold new_table; by rewrite E).
    apply (rep_empty new_table _ 0); [exists [], Bs; done|reflexivity|].
    eapply ring_empty; [vm_compute; reflexivity|done|done].
Qed.

Lemma hashtable_refines_witness :
  let p := fst (prepare [97] new_table) in
  exists w, exec (Put (Some [97]) 1 p) (snd (prepare [97] new_table)) = Ok (p, w) /\ holds w [(Some [97], 1, p)].
Proof.
  intros p. apply (hashtable_refines (Put (Some [97]) 1 p) (snd (prepare [97] new_table)) []); [apply new_table_holds|].
  split; [|intros f q y; by exists y]. split.
  - vm_compute. intros H. apply list_elem_of_singleton in H. discriminate H.
  - vm_compute. discriminate.
  - eexists. split; [vm_compute; reflexivity|]. split_and!; vm_compute; reflexivity.
  - split; [exists [97]; split; [done|]; vm_compute; split; discriminate|done].
  - exists 1, None. split; [|lia]. split; [vm_compute; discriminate|]. split; [lia|]. vm_compute. reflexivity.
  - vm_compute. reflexivity.
Defined.

(** Keys that collide in one bucket, a replaced value, and the order of an
    iteration: the replaced key keeps its place. *)
Definition collisions : outcome (list Z) :=
  let put k w := let '(p, w) := prepare k w in r ← hashtable_put (p + 8) w; Ok (snd r) in
  w ← put [97] new_table;
  w ← put [101] w;
  w ← put [105] w;
  w ← put [97] w;
  a ← hashtable_remove (Some [101]) 1 w;
  let w := snd a in
  it ← hashtable_iterate w;
  r1 ← hashtable_iterator_next it w;
  let '(c1, d1, it, w) := r1 in
  r2 ← hashtable_iterator_next it w;
  let '(c2, d2, it, w) := r2 in
  r3 ← hashtable_iterator_next it w;
  let '(c3, d3, it, w) := r3 in
  Ok [fst a; c1; d1; c2; d2; c3].

Example collisions_run : collisions = Ok [1320; 1; 1496; 1; 1408; 0].
Proof. vm_compute. reflexivity. Qed.

End Example.

End HashtableApi.
