(* ===== verification/Mux.v ===== *)
(** * Channel multiplexing

    src/src/session/multiplex_handler.c and channels.h: channels over one stream,
    with an eight byte header per packet, identifiers from an identifier heap,
    and the channel objects, reference counted, in a linked hash table. What is
    outside the file (the handlers below and above in the stream's pipeline, the
    application's callbacks, the clock, the allocator, timers and the port
    forwarding worker) is an environment with a state of its own, the class [Env];
    its functions see and change that state only, so a callback does not call back
    into the multiplexer. *)

From Stdlib Require Import ZArith Lia.
From stdpp Require Import prelude gmap list.
From S2P Require Import Prelude Bitset IdsHeap FlexBuffer RcMem Rings Hashtable.

Module Mux.
Import RcMem Rings Hashtable.

Notation FlexBuffer := FlexBuffer.FlexBuffer.
Notation IdsHeap := IdsHeap.IdsHeap.

(** ** Error codes (src/src/carrier/IOEX_carrier.h) *)

Definition IOEX_MK_ERROR (facility code : Z) : Z :=
  s32 (Z.lor 0x80000000 (Z.lor (Z.shiftl facility 24)
         (Z.lor (Z.shiftr (Z.land code 0x80000000) 8) (Z.land code 0x7FFFFFFF)))).

Lemma mk_error_negative f c : IOEX_MK_ERROR f c < 0.
Proof.
  unfold IOEX_MK_ERROR. generalize (Z.lor (Z.shiftl f 24) (Z.lor (Z.shiftr (Z.land c 0x80000000) 8) (Z.land c 0x7FFFFFFF))). intros z.
  assert (Z.testbit (Z.lor 0x80000000 z) 31 = true) as Hb by (by rewrite Z.lor_spec).
  apply Z.testbit_true in Hb; [|done]. revert Hb. generalize (Z.lor 0x80000000 z). intros x Hb. unfold s32.
  pose proof (Z.div_mod x (2 ^ 31) ltac:(lia)) as Hx. pose proof (Z.mod_pos_bound x (2 ^ 31) ltac:(lia)).
  pose proof (Z.div_mod (x / 2 ^ 31) 2 ltac:(lia)) as Hq. rewrite Hb in Hq.
  assert (x + 2 ^ 31 = x mod 2 ^ 31 + (x / 2 ^ 31 / 2 + 1) * 2 ^ 32) as -> by lia.
  rewrite Z.mod_add, Z.mod_small by lia. lia.
Qed.

Definition IOEX_GENERAL_ERROR (code : Z) : Z := IOEX_MK_ERROR 1 code.

Definition IOEXERR_INVALID_ARGS : Z := 0x01.
Definition IOEXERR_OUT_OF_MEMORY : Z := 0x02.
Definition IOEXERR_NOT_EXIST : Z := 0x0B.
Definition IOEXERR_WRONG_STATE : Z := 0x12.
Definition IOEXERR_LIMIT_EXCEEDED : Z := 0x19.

(** ** Data *)

Definition MAX_CHANNEL_ID : Z := 2048.
Definition KEEPALIVE_INTERVAL : Z := 30000.
Definition KEEPALIVE_TIMEOUT_INTERVAL : Z := 130000.
Definition PROTOCOL_HEAD_LEN : Z := 8.

Definition PacketType_ChannelOpen : Z := 1.
Definition PacketType_ChannelOpenConfirmation : Z := 2.
Definition PacketType_ChannelData : Z := 3.
Definition PacketType_ChannelKeepAlive : Z := 4.
Definition PacketType_ChannelPending : Z := 5.
Definition PacketType_ChannelResume : Z := 6.
Definition PacketType_ChannelClose : Z := 7.

Definition ChannelType_User : Z := 0.
Definition ChannelType_UDP_PortForwarding : Z := 1.
Definition ChannelType_TCP_PortForwarding : Z := 2.
Definition ChannelType_MAX : Z := 3.

Definition CloseReason_Normal : Z := 0.
Definition CloseReason_Timeout : Z := 1.
Definition CloseReason_Error : Z := 2.

Definition IOEXStreamState_closed : Z := 6.

Inductive ChannelStatus := Opening | Open | Pending | Closing.

#[export] Instance status_eq_dec : EqDecision ChannelStatus.
Proof. solve_decision. Defined.

(** [ch->callbacks] points into [handler->callbacks], at index [cbs]; [mux] is
    whether the back pointer is set; [sock] is the field of a [TcpChannel]. *)
Record Channel := mkChannel {
  mux : bool; cbs : Z; id : Z; remote_id : Z; type : Z; status : ChannelStatus;
  local_timestamp : Z * Z; remote_timestamp : Z * Z; last_activity : Z * Z;
  timeout : Z; sock : Z }.

Definition zero_channel : Channel := mkChannel false 0 0 0 0 Opening (0, 0) (0, 0) (0, 0) 0 0.

(** Layout of [Channel], for the address of its table entry, and sizes. *)
Definition he_channel : Z := 88.
Definition sizeof_Channel : Z := 144.
Definition sizeof_TcpChannel : Z := 152.
Definition sizeof_UdpChannel : Z := 280.

(** Callbacks work on the state of the environment; a missing one is [None].
    The channel is given by its identifier, as the application sees it. *)
Record ChannelCallbacks (E : Type) := mkCallbacks {
  channel_open : option (Z -> option bytes -> E -> bool * E);
  channel_opened : option (Z -> E -> E);
  channel_close : option (Z -> Z -> E -> E);
  channel_data : option (Z -> bytes -> E -> bool * E);
  channel_pending : option (Z -> E -> E);
  channel_resume : option (Z -> E -> E) }.
Arguments mkCallbacks {E} _ _ _ _ _ _.
Arguments channel_open {E} _.
Arguments channel_opened {E} _.
Arguments channel_close {E} _.
Arguments channel_data {E} _.
Arguments channel_pending {E} _.
Arguments channel_resume {E} _.

Definition no_callbacks {E} : ChannelCallbacks E := mkCallbacks None None None None None None.

(** The environment. *)
Class Env (E : Type) := {
  next_write : bytes -> E -> Z * E;          (* handler->base.next->write *)
  next_start : E -> Z * E;
  next_stop : Z -> E -> E;
  prev_on_data : bytes -> E -> E;            (* handler->base.prev->on_data *)
  prev_on_state_changed : Z -> E -> E;
  gettimeofday : E -> (Z * Z) * E;
  malloc_ok : E -> bool * E;
  create_timer : Z -> E -> Z * Z * E;        (* the result and the timer *)
  destroy_timer : Z -> E -> E;
  worker_start : E -> Z * E;
  worker_stop : E -> E;
  worker_open : bytes -> Z -> bytes -> bytes -> E -> Z * E;  (* service, protocol, host, port *)
  worker_close : Z -> E -> E;
  worker_deref : E -> E;
  next_deref : E -> E;
}.

(** [MultiplexHandler], but for its table, which is in the world below, with the
    memory of the channel objects. [reliable] and [portforwarding] are the
    stream's; [worker] is whether there is a port forwarding worker; [trace] is
    whether trace logging is on. The field [incomplete_buf], which only
    [multiplex_handler_notify_data] uses, is passed beside the handler. *)
Record MultiplexHandler (E : Type) := mkMux {
  chans : gmap Z Channel;
  channel_ids : IdsHeap;
  callbacks : list (ChannelCallbacks E);
  reliable : bool;
  portforwarding : bool;
  worker : bool;
  timer : Z;
  trace : bool;
  env : E }.
Arguments mkMux {E} _ _ _ _ _ _ _ _ _.
Arguments chans {E} _.
Arguments channel_ids {E} _.
Arguments callbacks {E} _.
Arguments reliable {E} _.
Arguments portforwarding {E} _.
Arguments worker {E} _.
Arguments timer {E} _.
Arguments trace {E} _.
Arguments env {E} _.

Definition set_chans {E} c (m : MultiplexHandler E) :=
  mkMux c (channel_ids m) (callbacks m) (reliable m) (portforwarding m) (worker m) (timer m) (trace m) (env m).
Definition set_ids {E} i (m : MultiplexHandler E) :=
  mkMux (chans m) i (callbacks m) (reliable m) (portforwarding m) (worker m) (timer m) (trace m) (env m).
Definition set_callbacks {E} c (m : MultiplexHandler E) :=
  mkMux (chans m) (channel_ids m) c (reliable m) (portforwarding m) (worker m) (timer m) (trace m) (env m).
Definition set_worker {E} k (m : MultiplexHandler E) :=
  mkMux (chans m) (channel_ids m) (callbacks m) (reliable m) (portforwarding m) k (timer m) (trace m) (env m).
Definition set_timer {E} t (m : MultiplexHandler E) :=
  mkMux (chans m) (channel_ids m) (callbacks m) (reliable m) (portforwarding m) (worker m) t (trace m) (env m).
Definition set_env {E} e (m : MultiplexHandler E) :=
  mkMux (chans m) (channel_ids m) (callbacks m) (reliable m) (portforwarding m) (worker m) (timer m) (trace m) e.

(** ** Channel objects in the table

    A channel's key is its identifier, cast to a pointer. *)

#[export] Instance channel_key : Key Z := { null_key := 0; is_null k := k =? 0 }.

(** [channel_destroy]. *)
Definition CHANNEL_DESTROY : Z := 3.

Definition channel_destroy {E} (p : Z) (m : MultiplexHandler E) : outcome (MultiplexHandler E) :=
  match chans m !! p with
  | None => Undef
  | Some ch =>
      if nonzero (id ch) && mux ch then
        r ← IdsHeap.ids_heap_free 0 (channel_ids m) (id ch);
        Ok (set_ids (snd r) m)
      else Ok m
  end.

#[export] Instance mux_client E : Client (MultiplexHandler E) := {
  he_offset := he_channel;
  client_destroy d p m := if d =? CHANNEL_DESTROY then channel_destroy p m else Ok m;
  client_zero p m := set_chans (<[p := zero_channel]> (chans m)) m;
  client_release p m := set_chans (delete p (chans m)) m;
}.

Definition channels_hash_code (key len : Z) : outcome Z := Ok (u32 key).

Definition channels_key_compare (key1 len1 key2 len2 : Z) : outcome Z :=
  Ok (if u32 key1 =? u32 key2 then 0 else 1).

Section Mux.
Context {E : Type} {EV : Env E}.

Notation W := (hworld Z (MultiplexHandler E)).
Implicit Types w : W.

Definition upd_client (f : MultiplexHandler E -> MultiplexHandler E) w : W := with_client (f (client w)) w.

(** A call to the environment. *)
Definition ask {A} (f : E -> A * E) w : A * W :=
  let '(a, e) := f (env (client w)) in (a, upd_client (set_env e) w).

Definition tell (f : E -> E) w : W := upd_client (set_env (f (env (client w)))) w.

Definition chan (p : Z) w : outcome Channel :=
  match chans (client w) !! p with Some ch => Ok ch | None => Undef end.

Definition set_chan (p : Z) (f : Channel -> Channel) w : outcome W :=
  match chans (client w) !! p with
  | Some ch => Ok (upd_client (set_chans (<[p := f ch]> (chans (client w)))) w)
  | None => Undef
  end.

Definition channels_create (ok : bool) (lock_rc capacity : Z) w : outcome (Z * W) :=
  hashtable_create channels_hash_code channels_key_compare ok lock_rc capacity 1
    (Some channels_hash_code) (Some channels_key_compare) w.

Definition channels_put (p : Z) w : outcome W :=
  ch ← chan p w;
  st ← upd (p + he_channel) (fun n =>
         mkHashEntry (id ch) 2 p (hash_code n) (next n) (lst_prev n) (lst_next n)) (ents w);
  r ← hashtable_put (p + he_channel) (with_ents st w);
  Ok (snd r).

Definition channels_get (channel_id : Z) w : outcome (Z * W) := hashtable_get channel_id 4 w.
Definition channels_exist (channel_id : Z) w : outcome bool := hashtable_exist channel_id 4 w.
Definition channels_is_empty w : bool := hashtable_is_empty w.

Definition channels_remove (channel_id : Z) w : outcome W :=
  r ← hashtable_remove channel_id 4 w;
  deref (fst r) (snd r).

Definition channels_clear w : outcome W := hashtable_clear w.
Definition channels_iterate w : outcome HashtableIterator := hashtable_iterate w.
Definition channels_iterator_next (it : HashtableIterator) w := hashtable_iterator_next it w.
Definition channels_iterator_has_next (it : HashtableIterator) w := hashtable_iterator_has_next it w.
Definition channels_iterator_remove (it : HashtableIterator) w := hashtable_iterator_remove it w.

(** ** Callbacks of the application

    The functions of [IOEXStreamCallbacks] behind [user_channel_callbacks]. *)

Definition user_channel_open (s : ChannelCallbacks E) (i : Z) (cookie : option bytes) (e : E) : bool * E :=
  match channel_open s with Some f => f i cookie e | None => (true, e) end.
Definition user_channel_opened (s : ChannelCallbacks E) (i : Z) (e : E) : E :=
  match channel_opened s with Some f => f i e | None => e end.
Definition user_channel_close (s : ChannelCallbacks E) (i reason : Z) (e : E) : E :=
  match channel_close s with Some f => f i reason e | None => e end.
Definition user_channel_data (s : ChannelCallbacks E) (i : Z) (buf : bytes) (e : E) : bool * E :=
  match channel_data s with Some f => f i buf e | None => (true, e) end.
Definition user_channel_pending (s : ChannelCallbacks E) (i : Z) (e : E) : E :=
  match channel_pending s with Some f => f i e | None => e end.
Definition user_channel_resume (s : ChannelCallbacks E) (i : Z) (e : E) : E :=
  match channel_resume s with Some f => f i e | None => e end.

Definition user_channel_callbacks (s : ChannelCallbacks E) : ChannelCallbacks E :=
  mkCallbacks (Some (user_channel_open s)) (Some (user_channel_opened s)) (Some (user_channel_close s))
    (Some (user_channel_data s)) (Some (user_channel_pending s)) (Some (user_channel_resume s)).

Definition multiplex_handler_set_channel_callbacks (ty : Z) (c : ChannelCallbacks E) w : outcome W :=
  _ ← c_assert 236 (ChannelType_User <=? ty);
  _ ← c_assert 237 (ty <? ChannelType_MAX);
  Ok (upd_client (fun m => set_callbacks (<[Z.to_nat ty := c]> (callbacks m)) m) w).

(** [ch->callbacks] *)
Definition callbacks_of (ch : Channel) w : outcome (ChannelCallbacks E) :=
  match callbacks (client w) !! Z.to_nat (cbs ch) with Some c => Ok c | None => Undef end.

Definition notify_channel_open (p : Z) (cookie : option bytes) w : outcome (bool * W) :=
  ch ← chan p w;
  c ← callbacks_of ch w;
  Ok (match channel_open c with Some f => ask (f (id ch) cookie) w | None => (true, w) end).

Definition notify_channel_opened (p : Z) w : outcome W :=
  ch ← chan p w;
  c ← callbacks_of ch w;
  Ok (match channel_opened c with Some f => tell (f (id ch)) w | None => w end).

Definition notify_channel_close (p reason : Z) w : outcome W :=
  ch ← chan p w;
  c ← callbacks_of ch w;
  Ok (match channel_close c with Some f => tell (f (id ch) reason) w | None => w end).

Definition notify_channel_data (p : Z) (buf : FlexBuffer) w : outcome (bool * W) :=
  ch ← chan p w;
  c ← callbacks_of ch w;
  match channel_data c with
  | Some f =>
      data ← FlexBuffer.flex_buffer_ptr buf 0 (FlexBuffer.flex_buffer_size buf);
      Ok (ask (f (id ch) data) w)
  | None => Ok (true, w)
  end.

Definition notify_channel_pending (p : Z) w : outcome W :=
  ch ← chan p w;
  c ← callbacks_of ch w;
  Ok (match channel_pending c with Some f => tell (f (id ch)) w | None => w end).

Definition notify_channel_resume (p : Z) w : outcome W :=
  ch ← chan p w;
  c ← callbacks_of ch w;
  Ok (match channel_resume c with Some f => tell (f (id ch)) w | None => w end).

(** ** Fields of a channel *)

Definition with_status (s : ChannelStatus) (c : Channel) :=
  mkChannel (mux c) (cbs c) (id c) (remote_id c) (type c) s (local_timestamp c) (remote_timestamp c) (last_activity c) (timeout c) (sock c).
Definition with_remote_id (i : Z) (c : Channel) :=
  mkChannel (mux c) (cbs c) (id c) i (type c) (status c) (local_timestamp c) (remote_timestamp c) (last_activity c) (timeout c) (sock c).
Definition with_remote_timestamp (t : Z * Z) (c : Channel) :=
  mkChannel (mux c) (cbs c) (id c) (remote_id c) (type c) (status c) (local_timestamp c) t (last_activity c) (timeout c) (sock c).
Definition with_local_timestamp (t : Z * Z) (c : Channel) :=
  mkChannel (mux c) (cbs c) (id c) (remote_id c) (type c) (status c) t (remote_timestamp c) (last_activity c) (timeout c) (sock c).
Definition with_last_activity (t : Z * Z) (c : Channel) :=
  mkChannel (mux c) (cbs c) (id c) (remote_id c) (type c) (status c) (local_timestamp c) (remote_timestamp c) t (timeout c) (sock c).
Definition with_timeout (t : Z) (c : Channel) :=
  mkChannel (mux c) (cbs c) (id c) (remote_id c) (type c) (status c) (local_timestamp c) (remote_timestamp c) (last_activity c) t (sock c).
Definition with_sock (s : Z) (c : Channel) :=
  mkChannel (mux c) (cbs c) (id c) (remote_id c) (type c) (status c) (local_timestamp c) (remote_timestamp c) (last_activity c) (timeout c) s.

Definition update_remote_timestamp (p : Z) w : outcome W :=
  let '(t, w) := ask gettimeofday w in
  set_chan p (fun c => with_last_activity t (with_remote_timestamp t c)) w.

(** [gettimeofday (&ch->local_timestamp); ch->last_activity = ch->local_timestamp] *)
Definition update_local_timestamp (p : Z) w : outcome W :=
  let '(t, w) := ask gettimeofday w in
  set_chan p (fun c => with_last_activity t (with_local_timestamp t c)) w.

(** ** Packets *)

Definition be16 (x : Z) : bytes := [x / 256; x mod 256].

(** The header, as it is sent. *)
Definition packet_header (ty opt local remote len : Z) : bytes :=
  [ty; opt] ++ be16 local ++ be16 remote ++ be16 len.

Definition multiplex_handler_send_packet (ty opt local_channel_id remote_channel_id : Z)
    (buf : option FlexBuffer) w : outcome (Z * W) :=
  _ ← c_assert 264 ((PacketType_ChannelOpen <=? ty) && (ty <=? PacketType_ChannelClose));
  let buf := match buf with
             | Some b => b
             | None => FlexBuffer.flex_buffer 0 FlexBuffer.FLEX_PADDING_LEN FlexBuffer.FLEX_PADDING_LEN
             end in
  let len := FlexBuffer.flex_buffer_size buf in
  buf ← FlexBuffer.flex_buffer_backward_offset buf PROTOCOL_HEAD_LEN;
  buf ← FlexBuffer.flex_buffer_mutable_ptr buf 0
          (packet_header (u8 ty) (u8 opt) (u16 remote_channel_id) (u16 local_channel_id) (u16 len));
  data ← FlexBuffer.flex_buffer_ptr buf 0 (FlexBuffer.flex_buffer_size buf);
  let '(sent, w) := ask (next_write data) w in
  if sent <? 0 then Ok (s32 sent, w) else Ok (s32 len, w).

(** The fields of a received header: type, option, the identifier of the channel
    at the receiver, the one at the sender, and the length of the payload. *)
Record ProtocolBuffer := mkPb { pb_type : Z; pb_option : Z; pb_local : Z; pb_remote : Z; pb_len : Z }.

Definition read_header (hdr : bytes) : outcome ProtocolBuffer :=
  match hdr with
  | [ty; opt; l1; l0; r1; r0; p1; p0] => Ok (mkPb ty opt (l1 * 256 + l0) (r1 * 256 + r0) (p1 * 256 + p0))
  | _ => Undef
  end.

(** The three numbers in the byte order of the host, where [ntohs] puts them. *)
Definition host_order (pb : ProtocolBuffer) : bytes :=
  [pb_local pb mod 256; pb_local pb / 256; pb_remote pb mod 256; pb_remote pb / 256; pb_len pb mod 256; pb_len pb / 256].

Definition new_channel (ty cid remote : Z) (c : Channel) : Channel :=
  mkChannel true ty (u16 cid) remote ty Opening (local_timestamp c) (remote_timestamp c) (last_activity c) (timeout c) (sock c).

(** [PacketTypeNames[pb->type]], when the trace is on. *)
Definition trace_packet (pb : ProtocolBuffer) w : outcome unit :=
  if trace (client w) && (7 <? pb_type pb) then Undef else Ok tt.

(** The first part of [multiplex_handler_notify_packet] for an open request: the
    channel, or [None] when the request ends here. *)
Definition accept_channel (pb : ProtocolBuffer) w : outcome (option Z * W) :=
  let m := client w in
  let ty := pb_option pb in
  let size :=
    if ty =? ChannelType_UDP_PortForwarding then if worker m then Some sizeof_UdpChannel else None
    else if ty =? ChannelType_TCP_PortForwarding then if worker m && reliable m then Some sizeof_TcpChannel else None
    else if ty =? ChannelType_User then Some sizeof_Channel
    else None in
  match size with
  | None => Ok (None, w)
  | Some size =>
      let '(ok, w) := ask malloc_ok w in
      let '(p, w) := rc_zalloc ok size (Some CHANNEL_DESTROY) w in
      if p =? 0 then Ok (None, w)
      else
        r ← IdsHeap.ids_heap_alloc 0 (channel_ids (client w));
        let '(cid, ids) := r in
        let w := upd_client (set_ids ids) w in
        if cid <? 0 then
          ch ← chan p w;
          r ← multiplex_handler_send_packet PacketType_ChannelOpenConfirmation 0 0 (remote_id ch) None w;
          w ← deref p (snd r);
          Ok (None, w)
        else
          w ← set_chan p (new_channel ty cid (pb_remote pb)) w;
          w ← update_remote_timestamp p w;
          w ← channels_put p w;
          Ok (Some p, w)
  end.

Definition on_open (p : Z) (pb : ProtocolBuffer) (payload : bytes) w : outcome W :=
  r ← notify_channel_open p (if nonzero (pb_len pb) then Some payload else None) w;
  let '(ok, w) := r in
  ch ← chan p w;
  let cid := if (ok : bool) then id ch else 0 in
  r ← multiplex_handler_send_packet PacketType_ChannelOpenConfirmation 0 cid (remote_id ch) None w;
  let '(rc, w) := r in
  w ← (if negb ok || (rc <? 0) then
         w ← (if ok then notify_channel_close p CloseReason_Error w else Ok w);
         ch ← chan p w;
         channels_remove (id ch) w
       else
         w ← set_chan p (with_status Open) w;
         w ← notify_channel_opened p w;
         update_remote_timestamp p w);
  deref p w.

Definition on_open_confirmation (p : Z) (pb : ProtocolBuffer) w : outcome W :=
  ch ← chan p w;
  match status ch with
  | Opening =>
      w ← (if negb (pb_remote pb =? 0) then
             w ← set_chan p (fun c => with_remote_id (pb_remote pb) (with_status Open c)) w;
             w ← notify_channel_opened p w;
             update_remote_timestamp p w
           else
             w ← notify_channel_close p CloseReason_Error w;
             channels_remove (id ch) w);
      deref p w
  | _ => deref p w
  end.

Definition on_channel_data (p : Z) (buf : FlexBuffer) w : outcome (W * FlexBuffer) :=
  ch ← chan p w;
  match status ch with
  | Pending | Open =>
      buf ← FlexBuffer.flex_buffer_forward_offset buf PROTOCOL_HEAD_LEN;
      r ← notify_channel_data p buf w;
      let '(ok, w) := r in
      w ← (if negb ok then
             w ← notify_channel_close p CloseReason_Error w;
             channels_remove (id ch) w
           else update_remote_timestamp p w);
      w ← deref p w;
      Ok (w, buf)
  | _ => w ← deref p w; Ok (w, buf)
  end.

Definition on_keep_alive (p : Z) w : outcome W :=
  let '(t, w) := ask gettimeofday w in
  w ← set_chan p (with_remote_timestamp t) w;
  deref p w.

Definition on_pending (p : Z) w : outcome W :=
  ch ← chan p w;
  match status ch with
  | Open =>
      w ← set_chan p (with_status Pending) w;
      w ← notify_channel_pending p w;
      w ← update_remote_timestamp p w;
      deref p w
  | _ => deref p w
  end.

Definition on_resume (p : Z) w : outcome W :=
  ch ← chan p w;
  match status ch with
  | Pending =>
      w ← set_chan p (with_status Open) w;
      w ← notify_channel_resume p w;
      w ← update_remote_timestamp p w;
      deref p w
  | _ => deref p w
  end.

Definition on_close (p : Z) w : outcome W :=
  ch ← chan p w;
  w ← notify_channel_close p CloseReason_Normal w;
  w ← channels_remove (id ch) w;
  deref p w.

(** The new state, and the buffer as the call leaves it. *)
Definition multiplex_handler_notify_packet (buf : FlexBuffer) w : outcome (W * FlexBuffer) :=
  _ ← c_assert 365 (PROTOCOL_HEAD_LEN <=? FlexBuffer.flex_buffer_size buf);
  hdr ← FlexBuffer.flex_buffer_ptr buf 0 PROTOCOL_HEAD_LEN;
  pb ← read_header hdr;
  buf ← FlexBuffer.flex_buffer_mutable_ptr buf 2 (host_order pb);
  if negb (FlexBuffer.flex_buffer_size buf =? pb_len pb + PROTOCOL_HEAD_LEN) then Ok (w, buf)
  else if (pb_remote pb =? 0) && (pb_local pb =? 0) && (pb_type pb =? PacketType_ChannelData) then
    buf ← FlexBuffer.flex_buffer_forward_offset buf PROTOCOL_HEAD_LEN;
    data ← FlexBuffer.flex_buffer_ptr buf 0 (FlexBuffer.flex_buffer_size buf);
    Ok (tell (prev_on_data data) w, buf)
  else
    _ ← trace_packet pb w;
    r ← (if pb_type pb =? PacketType_ChannelOpen then accept_channel pb w
         else
           r ← channels_get (pb_local pb) w;
           Ok (if fst r =? 0 then None else Some (fst r), snd r));
    match r with
    | (None, w) => Ok (w, buf)
    | (Some p, w) =>
        if pb_type pb =? PacketType_ChannelOpen then
          payload ← FlexBuffer.flex_buffer_ptr buf PROTOCOL_HEAD_LEN (pb_len pb);
          w ← on_open p pb payload w; Ok (w, buf)
        else if pb_type pb =? PacketType_ChannelOpenConfirmation then w ← on_open_confirmation p pb w; Ok (w, buf)
        else if pb_type pb =? PacketType_ChannelData then on_channel_data p buf w
        else if pb_type pb =? PacketType_ChannelKeepAlive then w ← on_keep_alive p w; Ok (w, buf)
        else if pb_type pb =? PacketType_ChannelPending then w ← on_pending p w; Ok (w, buf)
        else if pb_type pb =? PacketType_ChannelResume then w ← on_resume p w; Ok (w, buf)
        else if pb_type pb =? PacketType_ChannelClose then w ← on_close p w; Ok (w, buf)
        else w ← deref p w; Ok (w, buf)
    end.

(** The loop of [multiplex_handler_notify_data]: one turn takes at least one byte
    of [buf] or hands over a packet. *)
Fixpoint notify_data_loop (fuel : nat) (buf inc : FlexBuffer) w : outcome (W * FlexBuffer) :=
  let size := FlexBuffer.flex_buffer_size in
  if size buf =? 0 then Ok (w, inc)
  else
    match fuel with
    | O => NoFuel
    | S fuel =>
        if u64 (size inc + size buf) <? PROTOCOL_HEAD_LEN then
          inc ← FlexBuffer.flex_buffer_append inc buf;
          Ok (w, inc)
        else
          r ← (if size inc <? PROTOCOL_HEAD_LEN then
                 let append := PROTOCOL_HEAD_LEN - size inc in
                 inc ← FlexBuffer.flex_buffer_append2 inc buf append;
                 buf ← FlexBuffer.flex_buffer_forward_offset buf append;
                 Ok (inc, buf)
               else Ok (inc, buf));
          let '(inc, buf) := r in
          len ← FlexBuffer.flex_buffer_ptr inc 6 2;
          let payload_len := match len with [p1; p0] => p1 * 256 + p0 | _ => 0 end in
          if u64 (size inc + size buf) <? payload_len + PROTOCOL_HEAD_LEN then
            inc ← FlexBuffer.flex_buffer_append inc buf;
            Ok (w, inc)
          else
            r ← (if size inc <? payload_len + PROTOCOL_HEAD_LEN then
                   let append := payload_len + PROTOCOL_HEAD_LEN - size inc in
                   inc ← FlexBuffer.flex_buffer_append2 inc buf append;
                   buf ← FlexBuffer.flex_buffer_forward_offset buf append;
                   Ok (inc, buf)
                 else Ok (inc, buf));
            let '(inc, buf) := r in
            r ← multiplex_handler_notify_packet inc w;
            let '(w, inc) := r in
            notify_data_loop fuel buf (FlexBuffer.flex_buffer_reset inc FlexBuffer.FLEX_PADDING_LEN) w
    end.

Definition multiplex_handler_notify_data (buf inc : FlexBuffer) w : outcome (W * FlexBuffer) :=
  _ ← c_assert 581 (nonzero (FlexBuffer.flex_buffer_size buf));
  notify_data_loop (Z.to_nat (FlexBuffer.flex_buffer_size buf)) buf inc w.

(** ** Closing all channels *)

(** The loop of [multiplex_handler_close_channels]; [goto reclose] starts again
    with a new iterator. *)
Fixpoint close_loop (fuel : nat) (reason : Z) (it : HashtableIterator) w : outcome W :=
  more ← channels_iterator_has_next it w;
  if negb more then Ok w
  else
    match fuel with
    | O => NoFuel
    | S fuel =>
        r ← channels_iterator_next it w;
        let '(rc, p, it, w) := r in
        if rc =? 0 then Ok w
        else if rc =? -1 then it ← channels_iterate w; close_loop fuel reason it w
        else
          r ← channels_iterator_remove it w;
          let '(_, it, w) := r in
          w ← notify_channel_close p reason w;
          w ← deref p w;
          close_loop fuel reason it w
    end.

Definition multiplex_handler_close_channels (reason : Z) w : outcome W :=
  it ← channels_iterate w;
  close_loop (Z.to_nat (count (tab w))) reason it w.

(** ** The interface of the multiplexer *)

(** [cookie] is given with its terminator left out; [s] is the socket argument
    for a TCP channel. The result is the channel's identifier or an error. *)
Definition multiplex_handler_open_channel (ty : Z) (cookie : option bytes) (tmo s : Z) w : outcome (Z * W) :=
  let m := client w in
  size ← (if ty =? ChannelType_UDP_PortForwarding then
            _ ← c_assert 655 (portforwarding m); Ok sizeof_UdpChannel
          else if ty =? ChannelType_TCP_PortForwarding then
            _ ← c_assert 658 (portforwarding m);
            _ ← c_assert 659 (reliable m); Ok sizeof_TcpChannel
          else if ty =? ChannelType_User then Ok sizeof_Channel
          else AssertFail 664);
  let '(ok, w) := ask malloc_ok w in
  let '(p, w) := rc_zalloc ok size (Some CHANNEL_DESTROY) w in
  if p =? 0 then Ok (IOEX_GENERAL_ERROR IOEXERR_OUT_OF_MEMORY, w)
  else
    r ← IdsHeap.ids_heap_alloc 0 (channel_ids (client w));
    let '(cid, ids) := r in
    let w := upd_client (set_ids ids) w in
    if cid <? 0 then
      w ← deref p w;
      Ok (IOEX_GENERAL_ERROR IOEXERR_LIMIT_EXCEEDED, w)
    else
      w ← set_chan p (fun c => with_timeout tmo (new_channel ty cid 0 c)) w;
      w ← update_remote_timestamp p w;
      w ← (if ty =? ChannelType_TCP_PortForwarding then set_chan p (with_sock s) w else Ok w);
      w ← channels_put p w;
      buf ← match cookie with
            | Some c =>
                b ← FlexBuffer.flex_buffer_from 0 FlexBuffer.FLEX_PADDING_LEN (c ++ [0]) (zlen c + 1);
                Ok (Some b)
            | None => Ok None
            end;
      ch ← chan p w;
      r ← multiplex_handler_send_packet PacketType_ChannelOpen ty (id ch) (remote_id ch) buf w;
      let '(rc, w) := r in
      w ← deref p w;
      if rc <? 0 then
        w ← channels_remove cid w;
        Ok (rc, w)
      else Ok (cid, w).

Definition multiplex_handler_close_channel (cid : Z) w : outcome (Z * W) :=
  _ ← c_assert 723 (0 <? cid);
  r ← channels_get cid w;
  let '(p, w) := r in
  if p =? 0 then Ok (IOEX_GENERAL_ERROR IOEXERR_NOT_EXIST, w)
  else
    ch ← chan p w;
    w ← (if negb (remote_id ch =? 0) then
           r ← multiplex_handler_send_packet PacketType_ChannelClose 0 (id ch) (remote_id ch) None w;
           Ok (snd r)
         else Ok w);
    w ← notify_channel_close p CloseReason_Normal w;
    w ← channels_remove cid w;
    w ← deref p w;
    Ok (0, w).

(** [ch->status != ChannelStatus_Open && ch->status != ChannelStatus_Pending] *)
Definition not_open (ch : Channel) : bool :=
  match status ch with Open | Pending => false | _ => true end.

Definition multiplex_handler_write_channel (cid : Z) (buf : FlexBuffer) w : outcome (Z * W) :=
  _ ← c_assert 751 (0 <=? cid);
  if cid =? 0 then multiplex_handler_send_packet PacketType_ChannelData 0 0 0 (Some buf) w
  else
    r ← channels_get cid w;
    let '(p, w) := r in
    if p =? 0 then Ok (IOEX_GENERAL_ERROR IOEXERR_NOT_EXIST, w)
    else
      ch ← chan p w;
      if not_open ch then w ← deref p w; Ok (IOEX_GENERAL_ERROR IOEXERR_WRONG_STATE, w)
      else if remote_id ch =? 0 then w ← deref p w; Ok (IOEX_GENERAL_ERROR IOEXERR_WRONG_STATE, w)
      else
        r ← multiplex_handler_send_packet PacketType_ChannelData 0 (id ch) (remote_id ch) (Some buf) w;
        let '(rc, w) := r in
        w ← (if 0 <=? rc then update_local_timestamp p w else Ok w);
        w ← deref p w;
        Ok (rc, w).

(** The common body of [multiplex_handler_pend_channel] and
    [multiplex_handler_resume_channel]. *)
Definition flow_control (line ty cid : Z) w : outcome (Z * W) :=
  _ ← c_assert line (0 <? cid);
  r ← channels_get cid w;
  let '(p, w) := r in
  if p =? 0 then Ok (IOEX_GENERAL_ERROR IOEXERR_NOT_EXIST, w)
  else
    ch ← chan p w;
    if not_open ch then w ← deref p w; Ok (IOEX_GENERAL_ERROR IOEXERR_WRONG_STATE, w)
    else if remote_id ch =? 0 then w ← deref p w; Ok (IOEX_GENERAL_ERROR IOEXERR_WRONG_STATE, w)
    else
      r ← multiplex_handler_send_packet ty 0 (id ch) (remote_id ch) None w;
      let '(rc, w) := r in
      w ← (if rc =? 0 then update_local_timestamp p w else Ok w);
      w ← deref p w;
      Ok (rc, w).

Definition multiplex_handler_pend_channel (cid : Z) w := flow_control 791 PacketType_ChannelPending cid w.
Definition multiplex_handler_resume_channel (cid : Z) w := flow_control 827 PacketType_ChannelResume cid w.

(** ** The keep-alive check *)

(** Milliseconds from [t] to [now], in [int] arithmetic that is taken to wrap. *)
Definition interval (now t : Z * Z) : Z :=
  s32 (s32 ((fst now - fst t) * 1000) + s32 (Z.quot (snd now - snd t) 1000)).

(** The body of the loop for the channel at [p]: whether it is removed. *)
Definition check_channel (now : Z * Z) (p : Z) (it : HashtableIterator) w : outcome (HashtableIterator * W) :=
  ch ← chan p w;
  let remove it w :=
    w ← notify_channel_close p CloseReason_Timeout w;
    r ← channels_iterator_remove it w;
    let '(_, it, w) := r in
    w ← deref p w;
    Ok (it, w) in
  if nonzero (timeout ch) && (s32 (timeout ch * 1000) <=? interval now (last_activity ch)) then remove it w
  else if KEEPALIVE_TIMEOUT_INTERVAL <=? interval now (remote_timestamp ch) then remove it w
  else
    w ← (if KEEPALIVE_INTERVAL <=? interval now (local_timestamp ch) then
           r ← multiplex_handler_send_packet PacketType_ChannelKeepAlive 0 (id ch) (remote_id ch) None w;
           let '(rc, w) := r in
           if rc =? 0 then set_chan p (with_local_timestamp now) w else Ok w
         else Ok w);
    w ← deref p w;
    Ok (it, w).

Fixpoint checkpoint_loop (fuel : nat) (now : Z * Z) (it : HashtableIterator) w : outcome W :=
  more ← channels_iterator_has_next it w;
  if negb more then Ok w
  else
    match fuel with
    | O => NoFuel
    | S fuel =>
        r ← channels_iterator_next it w;
        let '(rc, p, it, w) := r in
        if rc =? 0 then Ok w
        else if rc =? -1 then
          let '(now, w) := ask gettimeofday w in
          it ← channels_iterate w;
          checkpoint_loop fuel now it w
        else
          r ← check_channel now p it w;
          let '(it, w) := r in
          checkpoint_loop fuel now it w
    end.

Definition multiplex_handler_checkpoint w : outcome (bool * W) :=
  let '(now, w) := ask gettimeofday w in
  it ← channels_iterate w;
  w ← checkpoint_loop (Z.to_nat (count (tab w))) now it w;
  Ok (true, w).

(** ** The stream handler *)

Definition multiplex_handler_create_timer (interval : Z) w : Z * W :=
  let '(rc, t, e) := create_timer interval (env (client w)) in
  (rc, upd_client (fun m => set_timer t (set_env e m)) w).

Definition multiplex_handler_destroy_timer w : W :=
  if timer (client w) =? 0 then w
  else upd_client (set_timer 0) (tell (destroy_timer (timer (client w))) w).

Definition multiplex_handler_start w : Z * W :=
  let '(rc, w) := ask next_start w in
  if negb (rc =? 0) then (rc, w)
  else
    let '(rc, w) := if negb (reliable (client w)) then multiplex_handler_create_timer KEEPALIVE_INTERVAL w else (0, w) in
    if rc <? 0 then (rc, w)
    else if worker (client w) then
      let '(rc, w) := ask worker_start w in
      if rc <? 0 then (rc, w) else (0, w)
    else (0, w).

Definition multiplex_handler_stop (error : Z) w : outcome W :=
  w ← multiplex_handler_close_channels CloseReason_Normal w;
  let w := multiplex_handler_destroy_timer w in
  let w := if worker (client w) then tell worker_stop w else w in
  Ok (tell (next_stop error) w).

Definition multiplex_handler_open_portforwarding (service host port : bytes) (protocol : Z) w : outcome (Z * W) :=
  _ ← c_assert 928 (nonzero (zlen service));
  _ ← c_assert 929 (protocol =? 1);
  _ ← c_assert 930 (nonzero (zlen host) && nonzero (zlen port));
  if negb (worker (client w)) then Ok (IOEX_GENERAL_ERROR IOEXERR_WRONG_STATE, w)
  else Ok (ask (worker_open service protocol host port) w).

Definition multiplex_handler_close_portforwarding (pf : Z) w : outcome (Z * W) :=
  _ ← c_assert 943 (0 <? pf);
  Ok (0, if worker (client w) then tell (worker_close pf) w else w).

Definition multiplex_handler_write (buf : FlexBuffer) w : outcome (Z * W) :=
  multiplex_handler_write_channel 0 buf w.

Definition multiplex_handler_on_data (buf inc : FlexBuffer) w : outcome (W * FlexBuffer) :=
  if reliable (client w) then multiplex_handler_notify_data buf inc w
  else r ← multiplex_handler_notify_packet buf w; Ok (fst r, inc).

Definition multiplex_handler_on_state_changed (state : Z) w : outcome W :=
  w ← (if IOEXStreamState_closed <=? state then
         multiplex_handler_close_channels
           (if state =? IOEXStreamState_closed then CloseReason_Normal else CloseReason_Error) w
       else Ok w);
  Ok (tell (prev_on_state_changed state) w).

(** The table is freed with its last reference, which runs [hashtable_destroy]. *)
Definition multiplex_handler_destroy (lock_rc : Z) w : outcome W :=
  let w := multiplex_handler_destroy_timer w in
  let w := if worker (client w) then tell worker_deref w else w in
  w ← hashtable_destroy lock_rc w;
  Ok (tell next_deref w).

(** The results of the calls: the allocation of the handler and of its table,
    the locks of the table and of the identifiers, and the creation of the worker,
    whose callbacks for TCP channels are [tcp]; [user] are the stream's callbacks.
    The test after the first allocation looks at the wrong variable, and the error
    paths drop a reference of the caller's variable, which is no object. *)
Record create_results := mkResults { handler_ok : bool; table_ok : bool; table_lock : Z; ids_lock : Z; worker_rc : Z }.

Definition multiplex_handler_create (r : create_results) (user tcp : ChannelCallbacks E) w : outcome (Z * W * FlexBuffer) :=
  if negb (handler_ok r) then Undef
  else
    let m := client w in
    let inc := if reliable m
               then FlexBuffer.flex_buffer_init (replicate (Z.to_nat FlexBuffer.FLEX_BUFFER_MAX_LEN) 0)
                      FlexBuffer.FLEX_BUFFER_MAX_LEN FlexBuffer.FLEX_PADDING_LEN
               else FlexBuffer.flex_buffer_init [] 0 0 in
    let w := upd_client (set_callbacks [no_callbacks; no_callbacks; no_callbacks]) w in
    t ← channels_create (table_ok r) (table_lock r) 256 w;
    let '(p, w) := t in
    if p =? 0 then Undef
    else
      let '(rc, ids) := IdsHeap.ids_heap_init (ids_lock r) (channel_ids (client w)) MAX_CHANNEL_ID in
      let w := upd_client (set_ids ids) w in
      if negb (rc =? 0) then Undef
      else
        w ← multiplex_handler_set_channel_callbacks ChannelType_User (user_channel_callbacks user) w;
        if portforwarding m then
          if worker_rc r <? 0 then Undef
          else
            w ← multiplex_handler_set_channel_callbacks ChannelType_TCP_PortForwarding tcp w;
            Ok (0, upd_client (set_worker true) w, inc)
        else Ok (0, w, inc).

End Mux.

End Mux.
