(* ===== verification/MuxRun.v ===== *)
(** * Channel multiplexing: runs

    An environment that records what the multiplexer sends and which callbacks it
    calls, for the concrete runs and the witnesses. *)

From Stdlib Require Import ZArith Lia.
From stdpp Require Import prelude gmap list.
From S2P Require Import Prelude Bitset IdsHeap FlexBuffer RcMem Rings Hashtable Mux.

Module MuxRun.
Import RcMem Hashtable Mux.

Inductive event :=
| Up (data : bytes)
| UpState (state : Z)
| CbOpen (i : Z) (cookie : option bytes)
| CbOpened (i : Z)
| CbClose (i reason : Z)
| CbData (i : Z) (data : bytes)
| CbPending (i : Z)
| CbResume (i : Z).

(** The packets sent, the calls made, and the time. *)
Record recorder := mkRec { sent : list bytes; seen : list event; now : Z * Z }.

Definition saw (x : event) (e : recorder) : recorder := mkRec (sent e) (seen e ++ [x]) (now e).

#[export] Instance recorder_env : Env recorder := {
  next_write d e := (zlen d, mkRec (sent e ++ [d]) (seen e) (now e));
  next_start e := (0, e);
  next_stop _ e := e;
  prev_on_data d e := saw (Up d) e;
  prev_on_state_changed s e := saw (UpState s) e;
  gettimeofday e := (now e, e);
  malloc_ok e := (true, e);
  create_timer _ e := (0, 1, e);
  destroy_timer _ e := e;
  worker_start e := (0, e);
  worker_stop e := e;
  worker_open _ _ _ _ e := (0, e);
  worker_close _ e := e;
  worker_deref e := e;
  next_deref e := e;
}.

(** An application that accepts every channel and all data. *)
Definition accepting : ChannelCallbacks recorder :=
  mkCallbacks (Some (fun i c e => (true, saw (CbOpen i c) e))) (Some (fun i e => saw (CbOpened i) e))
    (Some (fun i r e => saw (CbClose i r) e)) (Some (fun i d e => (true, saw (CbData i d) e)))
    (Some (fun i e => saw (CbPending i) e)) (Some (fun i e => saw (CbResume i) e)).

Notation W := (hworld Z (MultiplexHandler recorder)).

Definition blank (rel : bool) : W :=
  mkHworld (mkHeap ∅ 1000) ∅ (mkHashtable 0 0 0 0 channels_hash_code channels_key_compare 0 [])
    (mkMux ∅ (IdsHeap.mkIdsHeap 0 0 (Bitset.bitset_init 0)) [] rel false false 0 false (mkRec [] [] (0, 0))).

(** A new multiplexer. *)
Definition fresh_mux (rel : bool) : W :=
  match multiplex_handler_create (mkResults true true 0 0 0) accepting no_callbacks (blank rel) with
  | Ok (_, w, _) => w
  | _ => blank rel
  end.

(** A packet as the handler below hands it up. *)
Definition whole_packet (d : bytes) : FlexBuffer :=
  match FlexBuffer.flex_buffer_from 0 128 d (zlen d) with Ok b => b | _ => FlexBuffer.flex_buffer 0 0 0 end.

Definition receive (d : bytes) (w : W) : outcome W :=
  r ← multiplex_handler_notify_packet (whole_packet d) w; Ok (fst r).

(** The packets sent since the last time. *)
Definition take_sent (w : W) : list bytes * W :=
  let e := env (client w) in (sent e, upd_client (set_env (mkRec [] (seen e) (now e))) w).

Fixpoint receive_all (ds : list bytes) (w : W) : outcome W :=
  match ds with
  | [] => Ok w
  | d :: ds => w ← receive d w; receive_all ds w
  end.

(** One exchange: everything [a] has sent is received by [b]. *)
Definition exchange (a b : W) : outcome (W * W) :=
  let '(ds, a) := take_sent a in
  b ← receive_all ds b;
  Ok (a, b).

(** [a] opens a channel to [b] and writes on it. *)
Definition handshake : outcome (list Z * list event * list event) :=
  r ← multiplex_handler_open_channel ChannelType_User (Some [104; 105]) 0 0 (fresh_mux false);
  let '(cid, a) := r in
  p ← exchange a (fresh_mux false);
  let '(a, b) := p in
  p ← exchange b a;
  let '(b, a) := p in
  r ← multiplex_handler_write_channel cid (whole_packet [1; 2; 3]) a;
  let '(rc, a) := r in
  p ← exchange a b;
  let '(a, b) := p in
  r ← multiplex_handler_pend_channel cid a;
  p ← exchange (snd r) b;
  let '(a, b) := p in
  r ← multiplex_handler_close_channel cid a;
  p ← exchange (snd r) b;
  let '(a, b) := p in
  Ok ([cid; rc; fst r; count (tab a); count (tab b)], seen (env (client a)), seen (env (client b))).

Example handshake_run : handshake =
  Ok ([1; 3; 0; 0; 0], [CbOpened 1; CbClose 1 0],
      [CbOpen 1 (Some [104; 105; 0]); CbOpened 1; CbData 1 [1; 2; 3]; CbPending 1; CbClose 1 0]).
Proof. vm_compute. reflexivity. Qed.

End MuxRun.
