(* ===== verification/MuxFraming.v ===== *)
(** * Channel multiplexing: packets and their framing

    A packet that is sent is read back as it was; a packet's effect depends on
    its bytes only; and on a stream transport, the packets handed over are the
    frames of the byte stream, wherever the transport cuts it. *)

From Stdlib Require Import ZArith Lia.
From stdpp Require Import prelude gmap list.
From S2P Require Import Prelude Bitset IdsHeap FlexBuffer RcMem Rings Hashtable Mux MuxRun.

Module MuxFraming.
Import RcMem Hashtable Mux.

Notation payload := FlexBuffer.payload.
Notation flex_wf := FlexBuffer.flex_wf.
Notation fsize := FlexBuffer.size.
Notation fcap := FlexBuffer.capacity.
Notation foff := FlexBuffer.offset.

Section Framing.
Context {E : Type} {EV : Env E}.

Notation W := (hworld Z (MultiplexHandler E)).
Implicit Types w : W.

(** ** The effect of one packet, by its bytes *)

Definition data_effect (p : Z) (data : bytes) w : outcome W :=
  ch ← chan p w;
  match status ch with
  | Pending | Open =>
      c ← callbacks_of ch w;
      let '(ok, w) := match channel_data c with Some f => ask (f (id ch) data) w | None => (true, w) end in
      w ← (if negb ok then
             w ← notify_channel_close p CloseReason_Error w;
             channels_remove (id ch) w
           else update_remote_timestamp p w);
      deref p w
  | _ => deref p w
  end.

(** The channel a packet is for. *)
Definition target (pb : ProtocolBuffer) w : outcome (option Z * W) :=
  if pb_type pb =? PacketType_ChannelOpen then accept_channel pb w
  else
    r ← channels_get (pb_local pb) w;
    Ok (if fst r =? 0 then None else Some (fst r), snd r).

Definition dispatch (pb : ProtocolBuffer) (data : bytes) (p : Z) w : outcome W :=
  if pb_type pb =? PacketType_ChannelOpen then on_open p pb data w
  else if pb_type pb =? PacketType_ChannelOpenConfirmation then on_open_confirmation p pb w
  else if pb_type pb =? PacketType_ChannelData then data_effect p data w
  else if pb_type pb =? PacketType_ChannelKeepAlive then on_keep_alive p w
  else if pb_type pb =? PacketType_ChannelPending then on_pending p w
  else if pb_type pb =? PacketType_ChannelResume then on_resume p w
  else if pb_type pb =? PacketType_ChannelClose then on_close p w
  else deref p w.

Definition packet_effect (d : bytes) w : outcome W :=
  pb ← read_header (ztake 8 d);
  if negb (zlen d =? pb_len pb + 8) then Ok w
  else if (pb_remote pb =? 0) && (pb_local pb =? 0) && (pb_type pb =? PacketType_ChannelData) then
    Ok (tell (prev_on_data (zdrop 8 d)) w)
  else
    _ ← trace_packet pb w;
    r ← target pb w;
    match r with
    | (None, w) => Ok w
    | (Some p, w) => dispatch pb (zdrop 8 d) p w
    end.

Lemma bind_assoc_ok {A B D} (m : outcome A) (f : A -> outcome B) (g : B -> outcome D) :
  (x ← (y ← m; f y); g x) = (y ← m; x ← f y; g x).
Proof. by destruct m. Qed.

Lemma bind_cong {A B} (m : outcome A) (f g : A -> outcome B) : (forall a, f a = g a) -> (m ≫= f) = (m ≫= g).
Proof. intros H. destruct m; cbn; auto. Qed.

(** A header is eight bytes. *)
Lemma header_8 (l : bytes) : zlen l = 8 ->
  exists a b c d e f g h, l = [a; b; c; d; e; f; g; h].
Proof.
  unfold zlen. intros H. destruct l as [|a [|b [|c [|d [|e [|f [|g [|h [|]]]]]]]]]; cbn in H; try lia. eauto 10.
Qed.

Lemma on_channel_data_effect p buf w : flex_wf buf -> 8 <= fsize buf ->
  exists b', flex_wf b' /\ fcap b' = fcap buf /\
    on_channel_data p buf w = (w' ← data_effect p (zdrop 8 (payload buf)) w; Ok (w', b')).
Proof.
  intros Hw Hs. unfold on_channel_data, data_effect.
  destruct (chan p w) as [ch| | |] eqn:Ech; bind_simpl; try (by exists buf).
  assert (exists b1, FlexBuffer.flex_buffer_forward_offset buf 8 = Ok b1 /\ flex_wf b1 /\ payload b1 = zdrop 8 (payload buf) /\ fcap b1 = fcap buf)
    as (b1 & Hb1 & Hw1 & Hp1 & Hc1) by (destruct (FlexBuffer.forward_spec buf 8 Hw ltac:(lia)) as (b1 & ? & ? & ? & ? & ? & ? & ?); eauto 10).
  assert (forall f : outcome W, (w' ← f; Ok (w', buf)) = (w' ← f; Ok (w', buf))) as Hid by done.
  assert (forall ch', chan p w = Ok ch' -> exists b', flex_wf b' /\ fcap b' = fcap buf /\
    (b ← FlexBuffer.flex_buffer_forward_offset buf PROTOCOL_HEAD_LEN;
     r ← notify_channel_data p b w;
     (let '(ok, w) := r in
       w ← (if negb ok then w ← notify_channel_close p CloseReason_Error w; channels_remove (id ch') w else update_remote_timestamp p w);
       w ← deref p w; Ok (w, b))) =
    (w' ← (c ← callbacks_of ch' w;
      let '(ok, w) := match channel_data c with Some f => ask (f (id ch') (zdrop 8 (payload buf))) w | None => (true, w) end in
      w ← (if negb ok then w ← notify_channel_close p CloseReason_Error w; channels_remove (id ch') w else update_remote_timestamp p w);
      deref p w); Ok (w', b'))) as Hopen.
  { intros ch' Hch'. exists b1. split; [done|]. split; [done|]. unfold PROTOCOL_HEAD_LEN. rewrite Hb1. bind_simpl.
    unfold notify_channel_data. rewrite Hch'. bind_simpl. destruct (callbacks_of ch' w) as [c| | |]; bind_simpl; try done.
    destruct (channel_data c) as [f|].
    - rewrite (FlexBuffer.ptr_spec b1 0 (FlexBuffer.flex_buffer_size b1)); [|done|lia|apply Hw1|unfold FlexBuffer.flex_buffer_size; lia].
      bind_simpl. rewrite zdrop_0, ztake_all by (rewrite FlexBuffer.zlen_payload by done; done). rewrite Hp1.
      destruct (ask (f (id ch') (zdrop 8 (payload buf))) w) as [ok w1]. by rewrite bind_assoc_ok.
    - bind_simpl. by rewrite bind_assoc_ok. }
  destruct (status ch); try (exists buf; by rewrite ?bind_assoc_ok); by apply Hopen.
Qed.

Lemma notify_packet_effect buf w : flex_wf buf -> 8 <= fsize buf ->
  exists b', flex_wf b' /\ fcap b' = fcap buf /\
    multiplex_handler_notify_packet buf w = (w' ← packet_effect (payload buf) w; Ok (w', b')).
Proof.
  intros Hw Hs. unfold multiplex_handler_notify_packet, packet_effect, PROTOCOL_HEAD_LEN.
  unfold FlexBuffer.flex_buffer_size. rewrite (proj2 (Z.leb_le 8 (fsize buf))) by lia. cbn [c_assert]. bind_simpl.
  pose proof (FlexBuffer.zlen_payload buf Hw) as Hzp.
  rewrite (FlexBuffer.ptr_spec buf 0 8) by (done || lia). bind_simpl. rewrite zdrop_0.
  destruct (header_8 (ztake 8 (payload buf))) as (a1 & a2 & a3 & a4 & a5 & a6 & a7 & a8 & Eh);
    [apply zlen_ztake_le; lia|]. rewrite Eh. cbn [read_header]. bind_simpl.
  set (pb := mkPb a1 a2 _ _ _).
  destruct (FlexBuffer.write_at_spec buf 2 (host_order pb)) as (b1 & -> & Hw1 & Hp1 & _ & Hs1 & Hc1); [done|lia|unfold zlen; cbn; lia|].
  bind_simpl. rewrite Hs1, Hzp.
  assert (zdrop 8 (payload b1) = zdrop 8 (payload buf)) as Hd1.
  { rewrite Hp1. rewrite app_assoc. apply zdrop_app_len. rewrite zlen_app, zlen_ztake_le by lia. done. }
  destruct (negb (fsize buf =? pb_len pb + 8)) eqn:Elen; [by exists b1|].
  apply negb_false_iff, Z.eqb_eq in Elen.
  destruct ((pb_remote pb =? 0) && (pb_local pb =? 0) && (pb_type pb =? PacketType_ChannelData)).
  { destruct (FlexBuffer.forward_spec b1 8 Hw1 ltac:(lia)) as (b2 & -> & Hw2 & Hp2 & _ & Hs2 & Hc2 & _). bind_simpl.
    rewrite (FlexBuffer.ptr_spec b2 0 (fsize b2)) by (done || apply Hw2 || lia). bind_simpl.
    rewrite zdrop_0, ztake_all by (by rewrite FlexBuffer.zlen_payload). rewrite Hp2, Hd1. exists b2. split; [done|]. split; [lia|done]. }
  destruct (trace_packet pb w); bind_simpl; try (by exists b1). fold (target pb w).
  destruct (target pb w) as [[[p|] w1]| | |]; bind_simpl; try (by exists b1). unfold dispatch.
  destruct (pb_type pb =? PacketType_ChannelOpen).
  { exists b1. split; [done|]. split; [done|].
    rewrite (FlexBuffer.ptr_spec b1 8 (pb_len pb)) by (done || lia). bind_simpl.
    rewrite ztake_all by (rewrite zlen_zdrop, FlexBuffer.zlen_payload by done; lia). by rewrite Hd1. }
  destruct (pb_type pb =? PacketType_ChannelOpenConfirmation); [by exists b1|].
  destruct (pb_type pb =? PacketType_ChannelData).
  { rewrite <- Hd1. destruct (on_channel_data_effect p b1 w1 Hw1 ltac:(lia)) as (b' & H1 & H2 & H3). exists b'. split; [done|]. split; [lia|done]. }
  repeat (match goal with |- context [if ?c then _ else _] => destruct c end; [by exists b1|]). by exists b1.
Qed.

(** ** Frames of a byte stream *)

(** The length of the packet that [s] starts with, header included. *)
Definition frame_len (s : bytes) : Z :=
  match zdrop 6 s with p1 :: p0 :: _ => p1 * 256 + p0 + 8 | _ => 8 end.

(** Whether [s] starts with a whole packet. *)
Definition has_frame (s : bytes) : bool := (8 <=? zlen s) && (frame_len s <=? zlen s).

Fixpoint split_frames (fuel : nat) (s : bytes) : list bytes * bytes :=
  match fuel with
  | O => ([], s)
  | S fuel =>
      if has_frame s then
        let '(fs, r) := split_frames fuel (zdrop (frame_len s) s) in (ztake (frame_len s) s :: fs, r)
      else ([], s)
  end.

(** The whole packets in [s] and what is left. *)
Definition frames (s : bytes) : list bytes * bytes := split_frames (length s) s.

(** Every packet of [s], the last one included when its length is known, fits
    in the handler's buffer. *)
Fixpoint fits_loop (fuel : nat) (s : bytes) : bool :=
  match fuel with
  | O => true
  | S fuel =>
      if zlen s <? 8 then true
      else (frame_len s <=? FlexBuffer.FLEX_BUFFER_MAX_LEN - FlexBuffer.FLEX_PADDING_LEN) &&
           (if has_frame s then fits_loop fuel (zdrop (frame_len s) s) else true)
  end.

Definition fits (s : bytes) : bool := fits_loop (length s) s.

Definition bytes_ok (s : bytes) : Prop := Forall (fun b => 0 <= b < 256) s.

Lemma frame_len_ge s : bytes_ok s -> 8 <= frame_len s.
Proof.
  intros H. unfold frame_len. destruct (zdrop 6 s) as [|a [|b t]] eqn:Et; try lia.
  assert (bytes_ok (zdrop 6 s)) as Hs by (unfold zdrop; by apply Forall_drop). rewrite Et in Hs.
  apply Forall_cons in Hs as [Ha Hs]. apply Forall_cons in Hs as [Hb _]. lia.
Qed.

Lemma bytes_ok_zdrop n s : bytes_ok s -> bytes_ok (zdrop n s).
Proof. unfold zdrop. apply Forall_drop. Qed.

Lemma has_frame_spec s : has_frame s = true <-> 8 <= zlen s /\ frame_len s <= zlen s.
Proof. unfold has_frame. rewrite andb_true_iff, !Z.leb_le. done. Qed.

Lemma drop_frame_length s : bytes_ok s -> has_frame s = true -> (length (zdrop (frame_len s) s) < length s)%nat.
Proof.
  intros Hs [H1 H2]%has_frame_spec. pose proof (frame_len_ge s Hs). unfold zdrop. rewrite length_drop. unfold zlen in *. lia.
Qed.

(** More fuel than bytes makes no difference. *)
Lemma split_fuel n : forall s, bytes_ok s -> (length s <= n)%nat -> split_frames n s = frames s.
Proof.
  induction n as [n IH] using lt_wf_ind. intros s Hs Hn. unfold frames.
  destruct n as [|n], (length s) as [|m] eqn:El; cbn [split_frames]; try done; try lia.
  - assert (s = []) as -> by (by destruct s). done.
  - destruct (has_frame s) eqn:Ef; [|done]. pose proof (drop_frame_length s Hs Ef) as Hlt.
    pose proof (bytes_ok_zdrop (frame_len s) s Hs) as Hd.
    rewrite (IH n) by (done || lia). destruct (decide (m = S n)) as [->|Hm]; [lia|].
    rewrite (IH m) by (done || lia). done.
Qed.

Lemma frames_step s : bytes_ok s -> frames s =
  if has_frame s then
    let '(fs, r) := frames (zdrop (frame_len s) s) in (ztake (frame_len s) s :: fs, r)
  else ([], s).
Proof.
  intros Hs. unfold frames at 1. destruct (length s) as [|n] eqn:El.
  { assert (s = []) as -> by (by destruct s). done. }
  cbn [split_frames]. destruct (has_frame s) eqn:Ef; [|done]. rewrite split_fuel; [done|by apply bytes_ok_zdrop|].
  pose proof (drop_frame_length s Hs Ef). lia.
Qed.

Lemma fits_fuel n : forall s, bytes_ok s -> (length s <= n)%nat -> fits_loop n s = fits s.
Proof.
  induction n as [n IH] using lt_wf_ind. intros s Hs Hn. unfold fits.
  destruct n as [|n], (length s) as [|m] eqn:El; cbn [fits_loop]; try done; try lia.
  - assert (s = []) as -> by (by destruct s). done.
  - destruct (zlen s <? 8); [done|]. f_equal. destruct (has_frame s) eqn:Ef; [|done]. pose proof (drop_frame_length s Hs Ef) as Hlt.
    pose proof (bytes_ok_zdrop (frame_len s) s Hs) as Hd.
    rewrite (IH n) by (done || lia). destruct (decide (m = S n)) as [->|Hm]; [lia|].
    by rewrite (IH m) by (done || lia).
Qed.

Lemma fits_step s : bytes_ok s -> 8 <= zlen s -> fits s = true ->
  frame_len s <= FlexBuffer.FLEX_BUFFER_MAX_LEN - FlexBuffer.FLEX_PADDING_LEN /\
  (has_frame s = true -> fits (zdrop (frame_len s) s) = true).
Proof.
  intros Hs H8 Hf. unfold fits in Hf. destruct (length s) as [|n] eqn:El; [unfold zlen in H8; lia|].
  cbn [fits_loop] in Hf. rewrite (proj2 (Z.ltb_ge _ _)) in Hf by lia. apply andb_true_iff in Hf as [H1 H2].
  apply Z.leb_le in H1. split; [done|]. intros Ef. rewrite Ef in H2. rewrite fits_fuel in H2; [done|by apply bytes_ok_zdrop|].
  pose proof (drop_frame_length s Hs Ef). lia.
Qed.

(** The frame length is read from the first eight bytes. *)
Lemma frame_len_app s t : 8 <= zlen s -> frame_len (s ++ t) = frame_len s.
Proof.
  intros H. unfold frame_len, zdrop. rewrite drop_app_le by (unfold zlen in *; lia).
  destruct (drop (Z.to_nat 6) s) as [|a [|b u]] eqn:Eq; try done;
    apply (f_equal length) in Eq; rewrite length_drop in Eq; cbn in Eq; unfold zlen in *; lia.
Qed.

(** The frames of a stream that continues. *)
Lemma frames_app n : forall s t fs r, (length s <= n)%nat -> bytes_ok s -> bytes_ok t -> frames s = (fs, r) ->
  frames (s ++ t) = (fs ++ fst (frames (r ++ t)), snd (frames (r ++ t))).
Proof.
  induction n as [|n IH]; intros s t fs r Hn Hs Ht Eq.
  { assert (s = []) as -> by (destruct s; [done|cbn in Hn; lia]). cbn in Eq. injection Eq as <- <-. cbn.
    by rewrite <- surjective_pairing. }
  rewrite frames_step in Eq by done. destruct (has_frame s) eqn:Ef.
  - destruct (frames (zdrop (frame_len s) s)) as [fs' r'] eqn:Er. injection Eq as <- <-.
    pose proof (drop_frame_length s Hs Ef). apply has_frame_spec in Ef as [H1 H2].
    assert (bytes_ok (s ++ t)) as Hst by (by apply Forall_app). pose proof (frame_len_ge s Hs).
    rewrite (frames_step (s ++ t)), frame_len_app by done.
    assert (has_frame (s ++ t) = true) as -> by (apply has_frame_spec; rewrite frame_len_app by done; zlen_lia).
    assert (zdrop (frame_len s) (s ++ t) = zdrop (frame_len s) s ++ t) as ->
      by (unfold zdrop; rewrite drop_app_le; [done|unfold zlen in *; lia]).
    assert (ztake (frame_len s) (s ++ t) = ztake (frame_len s) s) as ->
      by (unfold ztake; rewrite take_app_le; [done|unfold zlen in *; lia]).
    rewrite (IH (zdrop (frame_len s) s) t fs' r') by (done || lia || by apply bytes_ok_zdrop). done.
  - injection Eq as <- <-. cbn. by destruct (frames (s ++ t)).
Qed.

(** Each packet in turn. *)
Fixpoint deliver (fs : list bytes) w : outcome W :=
  match fs with
  | [] => Ok w
  | f :: fs => w ← packet_effect f w; deliver fs w
  end.

Lemma deliver_app fs fs' w : deliver (fs ++ fs') w = (w' ← deliver fs w; deliver fs' w').
Proof. revert w. induction fs as [|f fs IH]; intros w; cbn; [done|]. destruct (packet_effect f w); cbn; auto. Qed.

(** ** The reassembly buffer *)

Record inc_ok (inc : FlexBuffer) (r : bytes) : Prop := {
  io_wf : flex_wf inc;
  io_off : foff inc = FlexBuffer.FLEX_PADDING_LEN;
  io_cap : fcap inc = FlexBuffer.FLEX_BUFFER_MAX_LEN;
  io_payload : payload inc = r;
}.

Lemma inc_size inc r : inc_ok inc r -> fsize inc = zlen r.
Proof. intros []. rewrite <- io_payload0. symmetry. by apply FlexBuffer.zlen_payload. Qed.

(** All of the chunk goes to the buffer. *)
Lemma inc_append inc r buf : inc_ok inc r -> flex_wf buf ->
  zlen r + fsize buf <= FlexBuffer.FLEX_BUFFER_MAX_LEN - FlexBuffer.FLEX_PADDING_LEN ->
  exists inc', FlexBuffer.flex_buffer_append inc buf = Ok inc' /\ inc_ok inc' (r ++ payload buf).
Proof.
  intros Hi Hb Hr. pose proof (inc_size inc r Hi) as Hs. pose proof Hi as [].
  destruct (FlexBuffer.append_spec inc buf io_wf0 Hb) as (d' & Ea & Hw & Hp & Ho & Hsz & Hc).
  rewrite Z.min_l in Hp by lia. rewrite ztake_all in Hp by (by rewrite FlexBuffer.zlen_payload).
  exists d'. split; [done|]. split; try done; congruence.
Qed.

(** The next [n] bytes of the chunk go to the buffer. *)
Lemma inc_take inc r buf n : inc_ok inc r -> flex_wf buf -> 0 <= n <= fsize buf ->
  zlen r + n <= FlexBuffer.FLEX_BUFFER_MAX_LEN - FlexBuffer.FLEX_PADDING_LEN ->
  exists inc' buf', FlexBuffer.flex_buffer_append2 inc buf n = Ok inc' /\ inc_ok inc' (r ++ ztake n (payload buf)) /\
    FlexBuffer.flex_buffer_forward_offset buf n = Ok buf' /\ flex_wf buf' /\ payload buf' = zdrop n (payload buf).
Proof.
  intros Hi Hb Hn Hr. pose proof (inc_size inc r Hi) as Hs. pose proof Hi as [].
  destruct (FlexBuffer.append2_spec inc buf n io_wf0 Hb Hn ltac:(lia)) as (d' & Ea & Hw & Hp & Ho & Hsz & Hc).
  destruct (FlexBuffer.forward_spec buf n Hb Hn) as (b' & Eb & Hw' & Hp' & _).
  exists d', b'. split_and!; try done. split; try done; congruence.
Qed.

Lemma inc_reset inc b : flex_wf b -> fcap b = FlexBuffer.FLEX_BUFFER_MAX_LEN -> inc = FlexBuffer.flex_buffer_reset b FlexBuffer.FLEX_PADDING_LEN ->
  inc_ok inc [].
Proof.
  intros Hw Hc ->. destruct (FlexBuffer.reset_spec b FlexBuffer.FLEX_PADDING_LEN Hw) as [Hw' Hp'].
  { rewrite Hc. vm_compute. split; discriminate. }
  split; try done.
Qed.

Lemma wf_small b : flex_wf b -> 0 <= fsize b < 2 ^ 63.
Proof. intros []. lia. Qed.

(** The length field, once the header is in the buffer. *)
Lemma inc_length inc r : inc_ok inc r -> bytes_ok r -> 8 <= zlen r -> exists p1 p0,
  FlexBuffer.flex_buffer_ptr inc 6 2 = Ok [p1; p0] /\ p1 * 256 + p0 + 8 = frame_len r /\ 0 <= p1 * 256 + p0 < 65536.
Proof.
  intros Hi Hr H8. pose proof (inc_size inc r Hi). destruct Hi. rewrite (FlexBuffer.ptr_spec inc 6 2) by (done || lia).
  rewrite io_payload0. unfold frame_len. pose proof (bytes_ok_zdrop 6 r Hr) as Hd.
  assert (zlen (zdrop 6 r) = zlen r - 6) as Hl by (apply zlen_zdrop_le; lia).
  destruct (zdrop 6 r) as [|p1 [|p0 t]] eqn:Et; try (rewrite ?zlen_cons, ?zlen_nil in Hl; lia).
  exists p1, p0. split; [done|]. split; [done|]. apply Forall_cons in Hd as [H1 Hd]. apply Forall_cons in Hd as [H0 _]. lia.
Qed.

(** Completing the buffer to [n] bytes from the chunk. *)
Lemma inc_fill inc r buf n : inc_ok inc r -> flex_wf buf -> zlen r < n -> n <= zlen r + fsize buf ->
  n <= FlexBuffer.FLEX_BUFFER_MAX_LEN - FlexBuffer.FLEX_PADDING_LEN ->
  exists inc' buf', FlexBuffer.flex_buffer_append2 inc buf (n - fsize inc) = Ok inc' /\
    FlexBuffer.flex_buffer_forward_offset buf (n - fsize inc) = Ok buf' /\
    inc_ok inc' (ztake n (r ++ payload buf)) /\ flex_wf buf' /\ payload buf' = zdrop n (r ++ payload buf) /\
    (length (payload buf') < length (payload buf))%nat.
Proof.
  intros Hi Hb Hn Hs Hm. pose proof (inc_size inc r Hi) as Hz. pose proof (zlen_nonneg r).
  destruct (inc_take inc r buf (n - fsize inc) Hi Hb ltac:(lia) ltac:(lia)) as (inc' & buf' & E1 & Hi' & E2 & Hw' & Hp').
  pose proof (FlexBuffer.zlen_payload buf Hb) as Hzb.
  exists inc', buf'. split; [done|]. split; [done|].
  assert (ztake n (r ++ payload buf) = r ++ ztake (n - fsize inc) (payload buf)) as ->.
  { unfold ztake. rewrite take_app, take_ge by (unfold zlen in *; lia). f_equal. f_equal. unfold zlen in *. lia. }
  assert (zdrop n (r ++ payload buf) = zdrop (n - fsize inc) (payload buf)) as ->.
  { unfold zdrop. rewrite drop_app, drop_ge by (unfold zlen in *; lia). cbn. f_equal. unfold zlen in *. lia. }
  split; [done|]. split; [done|]. split; [done|]. rewrite Hp'. unfold zdrop. rewrite length_drop. unfold zlen in *. lia.
Qed.

Lemma app_split n (s : bytes) : ztake n s ++ zdrop n s = s.
Proof. apply ztake_zdrop. Qed.

Lemma no_frame_frames r : bytes_ok r -> has_frame r = false -> frames r = ([], r).
Proof. intros Hr Hf. rewrite frames_step by done. by rewrite Hf. Qed.

(** The outcome [o] of the handler against the outcome [d] of the packets: the
    same state, with [rest] in the buffer, or the same failure. *)
Definition agrees (o : outcome (W * FlexBuffer)) (d : outcome W) (rest : bytes) : Prop :=
  match d with
  | Ok w => exists inc, o = Ok (w, inc) /\ inc_ok inc rest
  | AssertFail n => o = AssertFail n
  | Undef => o = Undef
  | NoFuel => o = NoFuel
  end.

Lemma agrees_bind (m : outcome W) (f : W -> outcome (W * FlexBuffer)) (g : W -> outcome W) rest :
  (forall w, agrees (f w) (g w) rest) -> agrees (m ≫= f) (m ≫= g) rest.
Proof. intros H. destruct m; cbn; auto. Qed.

(** Once the header is complete: the rest of a turn of the loop, from the buffer
    [r1] and the rest of the chunk. *)
Lemma notify_turn fuel buf1 inc1 r1 w :
  (forall buf inc w, flex_wf buf -> inc_ok inc [] -> (length (payload buf) <= fuel)%nat ->
     bytes_ok (payload buf) -> fits (payload buf) = true ->
     agrees (notify_data_loop fuel buf inc w) (deliver (fst (frames (payload buf))) w) (snd (frames (payload buf)))) ->
  let s := r1 ++ payload buf1 in
  flex_wf buf1 -> inc_ok inc1 r1 -> 8 <= zlen r1 <= frame_len r1 ->
  ((length (payload buf1) <= fuel)%nat \/ zlen r1 < frame_len r1 /\ (length (payload buf1) <= S fuel)%nat) ->
  bytes_ok s -> fits s = true ->
  agrees (len ← FlexBuffer.flex_buffer_ptr inc1 6 2;
     let payload_len := match len with [p1; p0] => p1 * 256 + p0 | _ => 0 end in
     if u64 (fsize inc1 + fsize buf1) <? payload_len + PROTOCOL_HEAD_LEN then
       inc ← FlexBuffer.flex_buffer_append inc1 buf1; Ok (w, inc)
     else
       r ← (if fsize inc1 <? payload_len + PROTOCOL_HEAD_LEN then
              let append := payload_len + PROTOCOL_HEAD_LEN - fsize inc1 in
              inc ← FlexBuffer.flex_buffer_append2 inc1 buf1 append;
              buf ← FlexBuffer.flex_buffer_forward_offset buf1 append;
              Ok (inc, buf)
            else Ok (inc1, buf1));
       let '(inc, buf) := r in
       r ← multiplex_handler_notify_packet inc w;
       let '(w, inc) := r in
       notify_data_loop fuel buf (FlexBuffer.flex_buffer_reset inc FlexBuffer.FLEX_PADDING_LEN) w)
    (deliver (fst (frames s)) w) (snd (frames s)).
Proof.
  intros IH s Hb Hi H8 Hfu Hs Hf. assert (bytes_ok r1) as Hr1 by (by apply Forall_app in Hs as [? _]).
  assert (zlen s = zlen r1 + zlen (payload buf1)) as Hzs by apply zlen_app.
  pose proof (FlexBuffer.zlen_payload buf1 Hb) as Hzb. pose proof (inc_size _ _ Hi) as Hzi. pose proof (wf_small _ Hb).
  assert (frame_len s = frame_len r1) as Hfl by (apply frame_len_app; lia).
  destruct (fits_step s Hs ltac:(lia) Hf) as [Hmax Hrest]. rewrite Hfl in Hmax.
  destruct (inc_length inc1 r1 Hi Hr1 ltac:(lia)) as (p1 & p0 & -> & Hlen & Hrange). bind_simpl.
  unfold PROTOCOL_HEAD_LEN. rewrite Hlen.
  assert (fcap inc1 = 2304) as Hcap by apply Hi. assert (FlexBuffer.FLEX_BUFFER_MAX_LEN - FlexBuffer.FLEX_PADDING_LEN = 2176) as Hm by done.
  rewrite u64_small by lia. destruct (Z.ltb_spec (fsize inc1 + fsize buf1) (frame_len r1)) as [Hlt|Hge].
  - destruct (inc_append inc1 r1 buf1 Hi Hb ltac:(lia)) as (inc' & -> & Hi'). bind_simpl.
    assert (has_frame s = false) as Hno by (destruct (has_frame s) eqn:Eq; [apply has_frame_spec in Eq; lia|done]).
    rewrite (no_frame_frames s Hs Hno). by exists inc'.
  - assert (has_frame s = true) as Hyes by (apply has_frame_spec; lia).
    assert (exists inc2 buf2, (if fsize inc1 <? frame_len r1 then
              inc ← FlexBuffer.flex_buffer_append2 inc1 buf1 (frame_len r1 - fsize inc1);
              buf ← FlexBuffer.flex_buffer_forward_offset buf1 (frame_len r1 - fsize inc1);
              Ok (inc, buf)
            else Ok (inc1, buf1)) = Ok (inc2, buf2) /\ inc_ok inc2 (ztake (frame_len s) s) /\ flex_wf buf2 /\
            payload buf2 = zdrop (frame_len s) s /\ (length (payload buf2) <= fuel)%nat)
      as (inc2 & buf2 & -> & Hi2 & Hb2 & Hp2 & Hl2).
    { rewrite Hfl. destruct (Z.ltb_spec (fsize inc1) (frame_len r1)) as [Hlt2|Hge2].
      - destruct (inc_fill inc1 r1 buf1 (frame_len r1) Hi Hb ltac:(lia) ltac:(lia) ltac:(lia)) as (inc2 & buf2 & E1 & E2 & H2 & H3 & H4 & H5).
        rewrite E1. bind_simpl. rewrite E2. bind_simpl. exists inc2, buf2. split_and!; try done. lia.
      - assert (zlen r1 = frame_len r1) as Heq by lia. exists inc1, buf1. unfold s.
        rewrite ztake_app_len, zdrop_app_len by done. split_and!; try done. lia. }
    bind_simpl. pose proof (inc_size _ _ Hi2) as Hz2. rewrite zlen_ztake_le in Hz2 by lia.
    destruct (notify_packet_effect inc2 w) as (b' & Hwb & Hcb & ->); [apply Hi2|lia|].
    rewrite bind_assoc_ok. rewrite (io_payload _ _ Hi2).
    rewrite (frames_step s Hs), Hyes.
    assert (bytes_ok (payload buf2)) as Hb2ok by (rewrite Hp2; by apply bytes_ok_zdrop).
    assert (inc_ok (FlexBuffer.flex_buffer_reset b' FlexBuffer.FLEX_PADDING_LEN) []) as Hreset
      by (eapply inc_reset; [exact Hwb|rewrite Hcb; apply Hi2|done]).
    assert (fits (payload buf2) = true) as Hf2 by (rewrite Hp2; by apply Hrest).
    rewrite <- Hp2.
    destruct (frames (payload buf2)) as [fs r'] eqn:Efr. cbn [fst snd deliver].
    apply agrees_bind. intros w1. bind_simpl.
    specialize (IH buf2 _ w1 Hb2 Hreset Hl2 Hb2ok Hf2). rewrite Efr in IH. exact IH.
Qed.

Lemma notify_loop_spec fuel : forall buf inc r w,
  flex_wf buf -> inc_ok inc r -> has_frame r = false -> (length (payload buf) <= fuel)%nat ->
  bytes_ok (r ++ payload buf) -> fits (r ++ payload buf) = true ->
  agrees (notify_data_loop fuel buf inc w) (deliver (fst (frames (r ++ payload buf))) w) (snd (frames (r ++ payload buf))).
Proof.
  induction fuel as [|fuel IH]; intros buf inc r w Hb Hi Hr Hl Hs Hf;
    pose proof (FlexBuffer.zlen_payload buf Hb) as Hzb; assert (bytes_ok r) as Hrok by (by apply Forall_app in Hs as [? _]).
  - assert (payload buf = []) as Hp by (destruct (payload buf); [done|cbn in Hl; lia]). rewrite Hp in *.
    cbn [notify_data_loop]. unfold FlexBuffer.flex_buffer_size. rewrite <- Hzb, zlen_nil. cbn [Z.eqb].
    rewrite app_nil_r, (no_frame_frames r Hrok Hr). by exists inc.
  - cbn [notify_data_loop]. unfold FlexBuffer.flex_buffer_size. destruct (Z.eqb_spec (fsize buf) 0) as [Ez|Ez].
    { assert (payload buf = []) as Hp by (rewrite Ez in Hzb; destruct (payload buf); [done|]; rewrite zlen_cons in Hzb; pose proof (zlen_nonneg l); lia).
      rewrite Hp, app_nil_r, (no_frame_frames r Hrok Hr). by exists inc. }
    pose proof (wf_small _ Hb). pose proof (inc_size _ _ Hi) as Hzi. pose proof (wf_small _ (io_wf _ _ Hi)).
    assert (zlen (r ++ payload buf) = fsize inc + fsize buf) as Hzs by (rewrite zlen_app; lia).
    rewrite u64_small by (pose proof (io_cap _ _ Hi) as Hc; pose proof (FlexBuffer.fw_room _ (io_wf _ _ Hi));
      pose proof (FlexBuffer.fw_off _ (io_wf _ _ Hi)); change FlexBuffer.FLEX_BUFFER_MAX_LEN with 2304 in Hc; lia).
    unfold PROTOCOL_HEAD_LEN. destruct (Z.ltb_spec (fsize inc + fsize buf) 8) as [Hlt|Hge].
    { destruct (inc_append inc r buf Hi Hb) as (inc' & -> & Hi'); [change (FlexBuffer.FLEX_BUFFER_MAX_LEN - FlexBuffer.FLEX_PADDING_LEN) with 2176; lia|].
      bind_simpl. rewrite no_frame_frames; [by exists inc'|done|].
      destruct (has_frame (r ++ payload buf)) eqn:Eq; [apply has_frame_spec in Eq; lia|done]. }
    assert (forall buf inc w, flex_wf buf -> inc_ok inc [] -> (length (payload buf) <= fuel)%nat ->
      bytes_ok (payload buf) -> fits (payload buf) = true ->
      agrees (notify_data_loop fuel buf inc w) (deliver (fst (frames (payload buf))) w) (snd (frames (payload buf)))) as IH'
      by (intros b i w0 H1 H2 H3 H4 H5; by apply (IH b i [])).
    destruct (Z.ltb_spec (fsize inc) 8) as [Hlt2|Hge2].
    + destruct (inc_fill inc r buf 8 Hi Hb ltac:(lia) ltac:(lia)) as (inc1 & buf1 & E1 & E2 & Hi1 & Hb1 & Hp1 & Hl1); [by vm_compute|].
      rewrite E1. bind_simpl. rewrite E2. bind_simpl.
      pose proof (notify_turn fuel buf1 inc1 (ztake 8 (r ++ payload buf)) w IH') as Ht. unfold PROTOCOL_HEAD_LEN in Ht. cbv zeta in Ht.
      rewrite Hp1, app_split in Ht. apply Ht; try done; [|left; rewrite <- Hp1; lia].
      rewrite zlen_ztake_le by lia. split; [lia|]. apply frame_len_ge. unfold bytes_ok, ztake. by apply Forall_take.
    + bind_simpl. pose proof (notify_turn fuel buf inc r w IH') as Ht. unfold PROTOCOL_HEAD_LEN in Ht. apply Ht; try done.
      * split; [lia|]. destruct (Z.le_gt_cases (zlen r) (frame_len r)) as [?|Hgt]; [done|].
        assert (has_frame r = true) as Hy by (apply has_frame_spec; lia). congruence.
      * right. split; [|done]. destruct (Z.le_gt_cases (frame_len r) (zlen r)) as [?|Hgt]; [|lia].
        assert (has_frame r = true) as Hy by (apply has_frame_spec; lia). congruence.
Qed.

(** ** Chunks *)

Lemma frames_rest n : forall s, (length s <= n)%nat -> bytes_ok s ->
  has_frame (snd (frames s)) = false /\ Forall (fun f => 8 <= zlen f) (fst (frames s)) /\
  concat (fst (frames s)) ++ snd (frames s) = s.
Proof.
  induction n as [|n IH]; intros s Hn Hs.
  { assert (s = []) as -> by (destruct s; [done|cbn in Hn; lia]). done. }
  rewrite frames_step by done. destruct (has_frame s) eqn:Ef; [|by cbn].
  pose proof (drop_frame_length s Hs Ef). destruct (IH (zdrop (frame_len s) s) ltac:(lia)) as (H1 & H2 & H3); [by apply bytes_ok_zdrop|].
  pose proof (frame_len_ge s Hs). apply has_frame_spec in Ef as [H4 H5].
  destruct (frames (zdrop (frame_len s) s)) as [fs r]. cbn in *. split; [done|]. split.
  - constructor; [|done]. rewrite zlen_ztake_le; lia.
  - rewrite <- app_assoc, H3. apply ztake_zdrop.
Qed.

Lemma bytes_ok_rest s : bytes_ok s -> bytes_ok (snd (frames s)).
Proof.
  intros Hs. destruct (frames_rest (length s) s (le_n _) Hs) as (_ & _ & H). rewrite <- H in Hs. by apply Forall_app in Hs as [_ ?].
Qed.

Lemma fits_app n : forall s t, (length s <= n)%nat -> bytes_ok s -> bytes_ok t -> fits (s ++ t) = true ->
  fits s = true /\ fits (snd (frames s) ++ t) = true.
Proof.
  induction n as [|n IH]; intros s t Hn Hs Ht Hf.
  { assert (s = []) as -> by (destruct s; [done|cbn in Hn; lia]). done. }
  assert (bytes_ok (s ++ t)) as Hst by (by apply Forall_app). rewrite (frames_step s Hs).
  destruct (Z.lt_ge_cases (zlen s) 8) as [H8|H8].
  { assert (has_frame s = false) as -> by (destruct (has_frame s) eqn:Eq; [apply has_frame_spec in Eq; lia|done]).
    cbn. split; [|done]. unfold fits. destruct (length s); cbn; [done|]. by rewrite (proj2 (Z.ltb_lt _ _)). }
  destruct (fits_step (s ++ t) Hst) as [Hmax Hrest]; [zlen_lia|done|]. rewrite frame_len_app in Hmax, Hrest by done.
  assert (fits s = (frame_len s <=? FlexBuffer.FLEX_BUFFER_MAX_LEN - FlexBuffer.FLEX_PADDING_LEN) &&
      (if has_frame s then fits (zdrop (frame_len s) s) else true)) as ->.
  { unfold fits at 1. destruct (length s) as [|m] eqn:El; [unfold zlen in H8; lia|]. cbn [fits_loop].
    rewrite (proj2 (Z.ltb_ge _ _)) by done. f_equal. destruct (has_frame s) eqn:Ef; [|done].
    pose proof (drop_frame_length s Hs Ef). apply fits_fuel; [by apply bytes_ok_zdrop|lia]. }
  rewrite (proj2 (Z.leb_le _ _)) by done. destruct (has_frame s) eqn:Ef; [|by cbn].
  pose proof (drop_frame_length s Hs Ef). apply has_frame_spec in Ef as [_ H5]. pose proof (frame_len_ge s Hs).
  assert (zdrop (frame_len s) (s ++ t) = zdrop (frame_len s) s ++ t) as Ed
    by (unfold zdrop; rewrite drop_app_le; [done|unfold zlen in *; lia]).
  rewrite Ed in Hrest. destruct (IH (zdrop (frame_len s) s) t) as [I1 I2]; [lia|by apply bytes_ok_zdrop|done| |].
  - apply Hrest, has_frame_spec. rewrite frame_len_app by done. zlen_lia.
  - rewrite I1. destruct (frames (zdrop (frame_len s) s)). done.
Qed.

(** The data of a stream transport, chunk by chunk. *)
Fixpoint feed (cs : list FlexBuffer) (inc : FlexBuffer) w : outcome (W * FlexBuffer) :=
  match cs with
  | [] => Ok (w, inc)
  | c :: cs => r ← multiplex_handler_notify_data c inc w; feed cs (snd r) (fst r)
  end.

Definition stream (cs : list FlexBuffer) : bytes := concat (payload <$> cs).

(** A buffer that holds one packet. *)
Definition packet_buf (f : bytes) : FlexBuffer :=
  FlexBuffer.mkFlex (128 + zlen f) 128 (zlen f) (replicate 128 0 ++ f).

(** The packets, one by one, as a datagram transport hands them over. *)
Fixpoint datagrams (fs : list bytes) w : outcome W :=
  match fs with
  | [] => Ok w
  | f :: fs => r ← multiplex_handler_notify_packet (packet_buf f) w; datagrams fs (fst r)
  end.

Lemma packet_buf_ok f : zlen f < 2 ^ 62 -> flex_wf (packet_buf f) /\ payload (packet_buf f) = f.
Proof.
  intros Hf. pose proof (zlen_nonneg f). split.
  - split; cbn [FlexBuffer.offset FlexBuffer.size FlexBuffer.capacity FlexBuffer.buffer packet_buf]; try lia.
    rewrite zlen_app. change (zlen (replicate 128 0)) with 128. lia.
  - unfold FlexBuffer.payload. cbn [FlexBuffer.size FlexBuffer.offset FlexBuffer.buffer packet_buf].
    rewrite zdrop_app_len by done. by apply ztake_all.
Qed.

Lemma datagrams_deliver fs : Forall (fun f => 8 <= zlen f < 2 ^ 62) fs -> forall w, datagrams fs w = deliver fs w.
Proof.
  induction fs as [|f fs IH]; intros Hf w; cbn [datagrams deliver]; [done|]. apply Forall_cons in Hf as [Hf Hfs].
  destruct (packet_buf_ok f) as [Hw Hp]; [lia|].
  destruct (notify_packet_effect (packet_buf f) w Hw) as (b' & _ & _ & ->); [cbn; lia|]. rewrite Hp, bind_assoc_ok.
  apply bind_cong. intros w'. cbn. by apply IH.
Qed.

Lemma frames_small s : bytes_ok s -> zlen s < 2 ^ 62 -> Forall (fun f => 8 <= zlen f < 2 ^ 62) (fst (frames s)).
Proof.
  intros Hs Hz. destruct (frames_rest (length s) s (le_n _) Hs) as (_ & H1 & H2).
  rewrite Forall_forall in H1 |- *. intros f Hf. split; [by apply H1|].
  apply list_elem_of_split in Hf as (l1 & l2 & E2). rewrite E2, concat_app, concat_cons in H2. rewrite <- H2 in Hz. zlen_lia.
Qed.

Lemma feed_spec cs : forall inc r w, Forall (fun c => flex_wf c /\ 0 < fsize c) cs -> inc_ok inc r -> has_frame r = false ->
  bytes_ok (r ++ stream cs) -> fits (r ++ stream cs) = true ->
  agrees (feed cs inc w) (deliver (fst (frames (r ++ stream cs))) w) (snd (frames (r ++ stream cs))).
Proof.
  induction cs as [|c cs IH]; intros inc r w Hcs Hi Hr Hs Hf; cbn [feed stream fmap list_fmap concat].
  - unfold stream in Hs. cbn in Hs. rewrite app_nil_r in *. rewrite no_frame_frames by done. by exists inc.
  - apply Forall_cons in Hcs as [[Hc Hc0] Hcs]. unfold stream in Hs, Hf |- *. cbn [fmap list_fmap concat] in Hs, Hf |- *.
    fold (stream cs) in *. change (concat (list_fmap _ _ FlexBuffer.payload cs)) with (stream cs) in *.
    rewrite app_assoc in Hs, Hf |- *. pose proof Hs as [Hs1 Hs2]%Forall_app.
    destruct (fits_app _ _ _ (le_n _) Hs1 Hs2 Hf) as [Hf1 Hf2].
    destruct (frames_rest _ _ (le_n _) Hs1) as (Hno & _ & _).
    unfold multiplex_handler_notify_data, FlexBuffer.flex_buffer_size. rewrite nonzero_true by lia. cbn [c_assert]. bind_simpl.
    pose proof (FlexBuffer.zlen_payload c Hc) as Hz.
    pose proof (notify_loop_spec (Z.to_nat (fsize c)) c inc r w Hc Hi Hr) as Hloop.
    specialize (Hloop ltac:(unfold zlen in Hz; lia) Hs1 Hf1).
    destruct (frames (r ++ payload c)) as [fs r1] eqn:Efr. cbn [fst snd] in *.
    rewrite (frames_app _ _ _ _ _ (le_n _) Hs1 Hs2 Efr). cbn [fst snd]. rewrite deliver_app.
    destruct (deliver fs w) as [w1| | |]; cbn [agrees] in Hloop; bind_simpl;
      [destruct Hloop as (inc1 & -> & Hi1); bind_simpl|by rewrite Hloop|by rewrite Hloop|by rewrite Hloop].
    cbn [fst snd]. apply (IH inc1 r1 w1); try done. apply Forall_app. split; [|done].
    pose proof (bytes_ok_rest _ Hs1) as Hb. by rewrite Efr in Hb.
Qed.

(** C11. On a stream transport the multiplexer handles exactly the packets of the
    byte stream, in order, wherever the transport cuts it: any sequence of
    non-empty chunks has the effect of handing over each whole packet of the
    stream by itself, as on a datagram transport (the same state, or the same
    failure), and leaves the bytes of the last, incomplete one in the buffer;
    provided that no packet is larger than the buffer. *)
Theorem stream_framing cs inc r w : Forall (fun c => flex_wf c /\ 0 < fsize c) cs -> inc_ok inc r -> has_frame r = false ->
  bytes_ok (r ++ stream cs) -> zlen (r ++ stream cs) < 2 ^ 62 -> fits (r ++ stream cs) = true ->
  agrees (feed cs inc w) (datagrams (fst (frames (r ++ stream cs))) w) (snd (frames (r ++ stream cs))).
Proof.
  intros Hcs Hi Hr Hs Hz Hf. rewrite datagrams_deliver by (by apply frames_small). by apply feed_spec.
Qed.

(** ** What is sent *)

Lemma be16_value x : 0 <= x < 65536 -> (x / 256) * 256 + x mod 256 = x.
Proof. intros. pose proof (Z.div_mod x 256 ltac:(lia)). lia. Qed.

Lemma send_packet_spec ty opt local remote buf w : 1 <= ty <= 7 -> 0 <= opt < 256 -> 0 <= local < 65536 -> 0 <= remote < 65536 ->
  flex_wf buf -> 8 <= foff buf -> fsize buf < 65536 ->
  exists d, multiplex_handler_send_packet ty opt local remote (Some buf) w =
      (let '(sent, w') := ask (next_write d) w in Ok (if sent <? 0 then s32 sent else s32 (fsize buf), w')) /\
    d = packet_header ty opt remote local (fsize buf) ++ payload buf.
Proof.
  intros Ht Ho Hl Hr Hb Hoff Hs. pose proof (FlexBuffer.zlen_payload buf Hb) as Hz. pose proof (wf_small _ Hb).
  unfold multiplex_handler_send_packet, PacketType_ChannelOpen, PacketType_ChannelClose.
  rewrite !(proj2 (Z.leb_le _ _)) by lia. cbn [andb c_assert]. bind_simpl. unfold FlexBuffer.flex_buffer_size.
  rewrite !u8_small, !u16_small by lia.
  destruct (FlexBuffer.backward_spec buf 8 Hb ltac:(lia)) as (b1 & E1 & Hw1 & Hp1 & _ & Hs1 & _).
  unfold PROTOCOL_HEAD_LEN. rewrite E1. bind_simpl.
  set (h := packet_header ty opt remote local (fsize buf)). assert (zlen h = 8) as Hh by done.
  destruct (FlexBuffer.write_front_spec b1 h Hw1 ltac:(lia)) as (b2 & -> & Hw2 & Hp2 & _ & Hs2 & _). bind_simpl.
  pose proof (FlexBuffer.zlen_payload b2 Hw2) as Hz2.
  rewrite (FlexBuffer.ptr_spec b2 0 (fsize b2)) by (done || lia). bind_simpl. rewrite zdrop_0, ztake_all by lia.
  rewrite Hp2, Hh, Hp1. exists (h ++ payload buf). split; [|done]. destruct (ask _ w) as [sent w']. by destruct (sent <? 0).
Qed.

(** A packet that is sent is read back by the peer as it was: the bytes given
    to the transport start with a header from which the peer's reading gives the
    packet's type and option, the peer's channel as the local one, the sender's as
    the remote one, and the length, and go on with the payload; and the length
    makes the peer take them as one packet. *)
Theorem packet_round_trip ty opt local remote buf w : 1 <= ty <= 7 -> 0 <= opt < 256 ->
  0 <= local < 65536 -> 0 <= remote < 65536 -> flex_wf buf -> 8 <= foff buf -> fsize buf < 65536 ->
  exists d, multiplex_handler_send_packet ty opt local remote (Some buf) w =
      (let '(sent, w') := ask (next_write d) w in Ok (if sent <? 0 then s32 sent else s32 (fsize buf), w')) /\
    read_header (ztake 8 d) = Ok (mkPb ty opt remote local (zlen d - 8)) /\ zdrop 8 d = payload buf /\
    frame_len d = zlen d.
Proof.
  intros Ht Ho Hl Hr Hb Hoff Hs. destruct (send_packet_spec ty opt local remote buf w Ht Ho Hl Hr Hb Hoff Hs) as (d & Hd & Ed).
  pose proof (FlexBuffer.zlen_payload buf Hb) as Hz. pose proof (wf_small _ Hb).
  exists d. split; [done|]. subst d.
  assert (zlen (packet_header ty opt remote local (fsize buf)) = 8) as Hh by done.
  assert (zlen (packet_header ty opt remote local (fsize buf) ++ payload buf) = 8 + fsize buf) as Hzd by (rewrite zlen_app; lia).
  rewrite Hzd. split_and!.
  - rewrite ztake_app_len by done. cbn [packet_header be16 app read_header]. rewrite !be16_value by lia. do 2 f_equal. lia.
  - by apply zdrop_app_len.
  - unfold frame_len. change (zdrop 6 (packet_header ty opt remote local (fsize buf) ++ payload buf))
      with (be16 (fsize buf) ++ payload buf). cbn [be16 app]. rewrite be16_value by lia. lia.
Qed.

End Framing.

(** ** Runs *)

Import MuxRun.

Definition new_inc : FlexBuffer :=
  FlexBuffer.flex_buffer_init (replicate (Z.to_nat FlexBuffer.FLEX_BUFFER_MAX_LEN) 0)
    FlexBuffer.FLEX_BUFFER_MAX_LEN FlexBuffer.FLEX_PADDING_LEN.

Lemma new_inc_ok : inc_ok new_inc [].
Proof. split; try reflexivity. split; vm_compute; congruence. Qed.

(** Two packets and the start of a third, in three chunks. *)
Definition chunks : list FlexBuffer :=
  [packet_buf [3; 0; 0; 0; 0]; packet_buf [0; 0; 2; 10; 11; 3; 0; 0; 0; 0; 0; 0; 1]; packet_buf [12; 3; 0]].

Lemma stream_framing_witness :
  agrees (feed chunks new_inc (fresh_mux true))
    (datagrams [[3; 0; 0; 0; 0; 0; 0; 2; 10; 11]; [3; 0; 0; 0; 0; 0; 0; 1; 12]] (fresh_mux true)) [3; 0].
Proof.
  apply (stream_framing chunks new_inc [] (fresh_mux true)).
  - repeat (apply Forall_cons; split; [split; [apply packet_buf_ok; by vm_compute|by vm_compute]|]). constructor.
  - apply new_inc_ok.
  - reflexivity.
  - vm_compute. repeat (apply Forall_cons; split; [split; congruence|]). constructor.
  - vm_compute. reflexivity.
  - vm_compute. reflexivity.
Defined.

Example chunks_run :
  match feed chunks new_inc (fresh_mux true) with
  | Ok (w, inc) => (seen (env (client w)), payload inc) = ([Up [10; 11]; Up [12]], [3; 0])
  | _ => False
  end.
Proof. vm_compute. reflexivity. Qed.

Lemma packet_round_trip_witness :
  exists d, multiplex_handler_send_packet 3 0 5 700 (Some (packet_buf [1; 2; 3])) (fresh_mux false) =
      (let '(sent, w') := ask (next_write d) (fresh_mux false) in Ok (if sent <? 0 then s32 sent else s32 3, w')) /\
    read_header (ztake 8 d) = Ok (mkPb 3 0 700 5 (zlen d - 8)) /\ zdrop 8 d = [1; 2; 3] /\ frame_len d = zlen d.
Proof.
  apply (packet_round_trip 3 0 5 700 (packet_buf [1; 2; 3]) (fresh_mux false)); try lia;
    [apply packet_buf_ok; by vm_compute|by vm_compute|by vm_compute].
Defined.

End MuxFraming.
