(* ===== verification/MuxInv.v ===== *)
(** * Channel multiplexing: the invariant of the channels

    The channel table, the channel objects, their reference counts and the
    identifiers agree between any two calls of the multiplexer. *)

From Stdlib Require Import ZArith Lia.
From stdpp Require Import prelude gmap sets list.
From S2P Require Import Prelude Bitset IdsHeap FlexBuffer RcMem Rings Hashtable HashtableThm HashtableApi Mux MuxFraming.

Module MuxInv.
Import RcMem Rings Hashtable HashtableThm HashtableApi Mux MuxFraming.

(** ** The keys of the channel table *)

#[export] Instance channel_spec : KeySpec Z := {
  valid _ _ := True;
  kh k _ := u32 k;
  ksame k _ k' _ := u32 k =? u32 k';
}.

#[export] Instance channel_laws : KeyLaws Z.
Proof.
  split; cbn.
  - intros. apply u32_range.
  - intros k n k' n' H. by apply Z.eqb_eq in H.
  - intros. apply Z.eqb_refl.
  - intros. apply Z.eqb_sym.
  - intros k n k' n' k'' n'' H1 H2. apply Z.eqb_eq in H1, H2. apply Z.eqb_eq. congruence.
Qed.

Lemma channel_fns_ok (t : Hashtable Z) : hash_fn t = channels_hash_code -> key_compare t = channels_key_compare -> fns_ok t.
Proof.
  intros Hh Hc. split; rewrite ?Hh, ?Hc; [done|]. intros k n k' n' _ _. unfold channels_key_compare.
  eexists. split; [reflexivity|]. cbn. by destruct (u32 k =? u32 k').
Qed.

Section Inv.
Context {E : Type} {EV : Env E}.

Notation W := (hworld Z (MultiplexHandler E)).
Implicit Types w : W.

(** The address of a channel's entry. *)
Notation maddr := (@addr Z (MultiplexHandler E) (mux_client E)).

(** ** The invariant *)

(** A channel as the table has it: identifier and address. *)
Definition item (c : Z * Z) : Z * Z * Z := (fst c, 2, snd c).

Definition chan_ok (cid : Z) (ch : Channel) : Prop := id ch = cid /\ mux ch = true /\ 0 <= cbs ch < 3.

(** The channels [m] of the table, their reference counts [cnt], and the
    identifiers [S] in use. *)
Record core w (m : list (Z * Z)) (cnt : Z -> Z) (S : gset Z) : Prop := {
  c_tab : holds w (item <$> m);
  c_chan : forall cid p, (cid, p) ∈ m -> exists ch, chans (client w) !! p = Some ch /\ chan_ok cid ch;
  c_obj : forall cid p, (cid, p) ∈ m ->
    objs (w_heap w) !! p = Some (mkRc (cnt p) (Some CHANNEL_DESTROY) mem_magic) /\ p <> 0 /\ 0 < cnt p < 2 ^ 31;
  c_ids : IdsHeap.refines (channel_ids (client w)) S;
  c_max : IdsHeap.max_index (channel_ids (client w)) = MAX_CHANNEL_ID;
  c_in : forall cid, cid ∈ m.*1 -> cid ∈ S;
  c_nodup : NoDup m.*1;
  c_nodup2 : NoDup m.*2;
  c_brk : 0 <= brk (w_heap w) /\ lst_head (tab w) < brk (w_heap w) /\
    forall cid p, (cid, p) ∈ m -> p + he_channel < brk (w_heap w);
  c_cbs : length (callbacks (client w)) = 3%nat;
}.

(** Between two calls: the table has the only reference to each channel, the
    identifiers in use are those of the table's channels, and there are no
    channel objects but these. *)
Definition inv w m : Prop :=
  core w m (fun _ => 1) (list_to_set m.*1) /\ forall p, is_Some (chans (client w) !! p) -> p ∈ m.*2.

(** During a call, with [n] references to the channel [p] of the table, one of them the
    table's; most calls have one of their own. *)
Definition refs (n : Z) w m (p : Z) : Prop :=
  core w m (fun q => if q =? p then n else 1) (list_to_set m.*1) /\ p ∈ m.*2 /\
  forall q, is_Some (chans (client w) !! q) -> q ∈ m.*2.

Definition held w m (p : Z) : Prop := refs 2 w m p.

(** During a call, with the only reference to [p], which is not in the table any
    more. *)
Definition orphan w m (p cid : Z) : Prop :=
  core w m (fun _ => 1) ({[cid]} ∪ list_to_set m.*1) /\ p ∉ m.*2 /\ cid ∉ m.*1 /\
  (exists ch, chans (client w) !! p = Some ch /\ chan_ok cid ch) /\
  objs (w_heap w) !! p = Some (mkRc 1 (Some CHANNEL_DESTROY) mem_magic) /\ p <> 0 /\
  p + he_channel <> lst_head (tab w) /\
  forall q, is_Some (chans (client w) !! q) -> q ∈ m.*2 \/ q = p.

(** ** Frames *)

(** The environment is no part of the invariant. *)
Lemma core_frame w w' m cnt S : core w m cnt S -> w_heap w' = w_heap w -> ents w' = ents w -> tab w' = tab w ->
  channel_ids (client w') = channel_ids (client w) -> length (callbacks (client w')) = length (callbacks (client w)) ->
  (forall cid p ch, (cid, p) ∈ m -> chans (client w) !! p = Some ch ->
     exists ch', chans (client w') !! p = Some ch' /\ id ch' = id ch /\ mux ch' = mux ch /\ cbs ch' = cbs ch) ->
  core w' m cnt S.
Proof.
  intros [] Hh He Ht Hi Hc Hch. split; rewrite ?Hh, ?Ht, ?Hi, ?Hc; try done.
  - destruct c_tab0 as [[Bs HR] HI]. split; [|intros k n d Hin; rewrite He; by apply HI].
    exists Bs. apply (rep_heap w); try done. intros p k dt Hl. exists k, dt. unfold live in *. cbn in *. by rewrite Hh.
  - intros cid p Hin. destruct (c_chan0 cid p Hin) as (ch & Hch0 & H1 & H2 & H3).
    destruct (Hch cid p ch Hin Hch0) as (ch' & Hch' & E1 & E2 & E3). exists ch'. split; [done|].
    unfold chan_ok. by rewrite E1, E2, E3.
Qed.

(** [w'] differs from [w] in its environment only. *)
Definition same_but_env w w' : Prop := exists e, w' = upd_client (set_env e) w.

Lemma ask_same {A} (f : E -> A * E) w : same_but_env w (snd (ask f w)).
Proof. unfold ask. destruct (f (env (client w))) as [a e]. by exists e. Qed.

Lemma tell_same f w : same_but_env w (tell f w).
Proof. by eexists. Qed.

Lemma same_trans w1 w2 w3 : same_but_env w1 w2 -> same_but_env w2 w3 -> same_but_env w1 w3.
Proof. intros [e ->] [e' ->]. by exists e'. Qed.

Lemma same_refl w : same_but_env w w.
Proof. exists (env (client w)). destruct w as [h en t c]. by destruct c. Qed.

Lemma same_core w w' m cnt S : same_but_env w w' -> core w m cnt S -> core w' m cnt S.
Proof. intros [e ->] H. apply (core_frame w); try done. eauto 10. Qed.

Lemma same_chans w w' : same_but_env w w' -> chans (client w') = chans (client w).
Proof. by intros [e ->]. Qed.

Lemma same_inv w w' m : same_but_env w w' -> inv w m -> inv w' m.
Proof. intros H [H1 H2]. split; [by apply (same_core w)|]. by rewrite (same_chans _ _ H). Qed.

Lemma same_held {n} w w' m p : same_but_env w w' -> refs n w m p -> refs n w' m p.
Proof. intros H (H1 & H2 & H3). split; [by apply (same_core w)|]. by rewrite (same_chans _ _ H). Qed.

Lemma same_orphan w w' m p cid : same_but_env w w' -> orphan w m p cid -> orphan w' m p cid.
Proof.
  intros H (H1 & H2). split; [by apply (same_core w)|]. rewrite (same_chans _ _ H). destruct H as [e ->]. exact H2.
Qed.

(** Updates of a channel's other fields. *)
Definition keeps (f : Channel -> Channel) : Prop := forall c, id (f c) = id c /\ mux (f c) = mux c /\ cbs (f c) = cbs c.

Lemma set_chan_ok w p f ch : chans (client w) !! p = Some ch ->
  set_chan p f w = Ok (upd_client (set_chans (<[p := f ch]> (chans (client w)))) w).
Proof. unfold set_chan. by intros ->. Qed.

Lemma set_core w m cnt S p f ch : keeps f -> core w m cnt S -> chans (client w) !! p = Some ch ->
  core (upd_client (set_chans (<[p := f ch]> (chans (client w)))) w) m cnt S.
Proof.
  intros Hk Hc Hp. apply (core_frame w); try done. intros cid q ch0 Hin Hq. cbn.
  destruct (decide (q = p)) as [->|Hne].
  - rewrite lookup_insert_eq. assert (ch0 = ch) as -> by congruence. destruct (Hk ch) as (? & ? & ?). eauto 10.
  - rewrite lookup_insert_ne by done. eauto 10.
Qed.

Lemma held_chan {n} w m p : refs n w m p -> exists cid ch, (cid, p) ∈ m /\ chans (client w) !! p = Some ch /\ chan_ok cid ch /\
  chan p w = Ok ch /\ is_Some (callbacks (client w) !! Z.to_nat (cbs ch)).
Proof.
  intros (Hc & Hp & _). apply list_elem_of_fmap in Hp as ([cid q] & -> & Hin).
  destruct (c_chan _ _ _ _ Hc cid q Hin) as (ch & Hch & Hok). exists cid, ch. split; [done|]. split; [done|]. split; [done|].
  split; [unfold chan; cbn [snd]; by rewrite Hch|]. apply lookup_lt_is_Some_2. rewrite (c_cbs _ _ _ _ Hc). destruct Hok as (_ & _ & ?). lia.
Qed.

Lemma set_held {n} w m p f : keeps f -> refs n w m p -> exists w' ch, set_chan p f w = Ok w' /\ refs n w' m p /\
  chans (client w) !! p = Some ch /\ chans (client w') = <[p := f ch]> (chans (client w)) /\ env (client w') = env (client w) /\ tab w' = tab w.
Proof.
  intros Hk Hh. destruct (held_chan _ _ _ Hh) as (cid & ch & Hin & Hch & _). destruct Hh as (Hc & Hp & Hd).
  eexists _, ch. split; [by apply set_chan_ok|]. split; [|done]. split; [by apply set_core|]. split; [done|].
  intros q. cbn. destruct (decide (q = p)) as [->|]; [done|]. rewrite lookup_insert_ne by done. apply Hd.
Qed.

(** Reading the clock into a channel. *)
Lemma update_remote_held w m p : held w m p -> exists w', update_remote_timestamp p w = Ok w' /\ held w' m p.
Proof.
  intros Hh. unfold update_remote_timestamp. pose proof (ask_same gettimeofday w) as Ha. destruct (ask gettimeofday w) as [t w1]. cbn [snd] in Ha.
  destruct (set_held (n:=2) w1 m p (fun c => with_last_activity t (with_remote_timestamp t c))) as (w' & ch & -> & Hh' & _);
    [done|by apply (same_held w)|eauto].
Qed.

Lemma update_local_refs n w m p : refs n w m p -> exists w', update_local_timestamp p w = Ok w' /\ refs n w' m p /\ tab w' = tab w.
Proof.
  intros Hh. unfold update_local_timestamp. pose proof (ask_same gettimeofday w) as Ha. destruct (ask gettimeofday w) as [t w1]. cbn [snd] in Ha.
  destruct (set_held (n:=n) w1 m p (fun c => with_last_activity t (with_local_timestamp t c))) as (w' & ch & -> & Hh' & _ & _ & _ & Ht);
    [done|by apply (same_held w)|]. exists w'. split; [done|]. split; [done|]. rewrite Ht. destruct Ha as [e ->]. done.
Qed.

Lemma update_local_held w m p : held w m p -> exists w', update_local_timestamp p w = Ok w' /\ held w' m p.
Proof. intros Hh. destruct (update_local_refs 2 w m p Hh) as (w' & -> & H & _). by exists w'. Qed.

(** ** Calls of the environment about a channel *)

(** [ch] can be notified about. *)
Definition notifiable w (p : Z) : Prop :=
  exists ch, chan p w = Ok ch /\ is_Some (callbacks (client w) !! Z.to_nat (cbs ch)).

Lemma held_notifiable {n} w m p : refs n w m p -> notifiable w p.
Proof. intros (cid & ch & _ & _ & _ & H1 & H2)%held_chan. by exists ch. Qed.

Lemma orphan_notifiable w m p cid : orphan w m p cid -> notifiable w p.
Proof.
  intros (Hc & _ & _ & (ch & Hch & _ & _ & Hok) & _). exists ch. split; [unfold chan; by rewrite Hch|].
  apply lookup_lt_is_Some_2. rewrite (c_cbs _ _ _ _ Hc). lia.
Qed.

Lemma notifiable_callbacks w p : notifiable w p -> exists ch c, chan p w = Ok ch /\ callbacks_of ch w = Ok c.
Proof. intros (ch & Hch & [c Hc]). exists ch, c. split; [done|]. unfold callbacks_of. by rewrite Hc. Qed.

Lemma notify_close_ok w p reason : notifiable w p -> exists w', notify_channel_close p reason w = Ok w' /\ same_but_env w w'.
Proof.
  intros (ch & c & Hch & Hc)%notifiable_callbacks. unfold notify_channel_close. rewrite Hch. bind_simpl. rewrite Hc. bind_simpl.
  eexists. split; [reflexivity|]. destruct (channel_close c); [apply tell_same|apply same_refl].
Qed.

Lemma notify_opened_ok w p : notifiable w p -> exists w', notify_channel_opened p w = Ok w' /\ same_but_env w w'.
Proof.
  intros (ch & c & Hch & Hc)%notifiable_callbacks. unfold notify_channel_opened. rewrite Hch. bind_simpl. rewrite Hc. bind_simpl.
  eexists. split; [reflexivity|]. destruct (channel_opened c); [apply tell_same|apply same_refl].
Qed.

Lemma notify_pending_ok w p : notifiable w p -> exists w', notify_channel_pending p w = Ok w' /\ same_but_env w w'.
Proof.
  intros (ch & c & Hch & Hc)%notifiable_callbacks. unfold notify_channel_pending. rewrite Hch. bind_simpl. rewrite Hc. bind_simpl.
  eexists. split; [reflexivity|]. destruct (channel_pending c); [apply tell_same|apply same_refl].
Qed.

Lemma notify_resume_ok w p : notifiable w p -> exists w', notify_channel_resume p w = Ok w' /\ same_but_env w w'.
Proof.
  intros (ch & c & Hch & Hc)%notifiable_callbacks. unfold notify_channel_resume. rewrite Hch. bind_simpl. rewrite Hc. bind_simpl.
  eexists. split; [reflexivity|]. destruct (channel_resume c); [apply tell_same|apply same_refl].
Qed.

Lemma notify_open_ok w p cookie : notifiable w p -> exists ok w', notify_channel_open p cookie w = Ok (ok, w') /\ same_but_env w w'.
Proof.
  intros (ch & c & Hch & Hc)%notifiable_callbacks. unfold notify_channel_open. rewrite Hch. bind_simpl. rewrite Hc. bind_simpl.
  destruct (channel_open c) as [f|].
  - pose proof (ask_same (f (id ch) cookie) w) as Ha. destruct (ask (f (id ch) cookie) w) as [ok w']. eauto.
  - exists true, w. split; [done|apply same_refl].
Qed.

(** A packet without a buffer, or with one that has room for the header. *)
Definition sendable (buf : option FlexBuffer) : Prop :=
  match buf with Some b => flex_wf b /\ 8 <= foff b | None => True end.

Lemma send_packet_ok ty opt local remote buf w : 1 <= ty <= 7 -> sendable buf ->
  exists rc w', multiplex_handler_send_packet ty opt local remote buf w = Ok (rc, w') /\ same_but_env w w'.
Proof.
  intros Ht Hb. unfold multiplex_handler_send_packet, PacketType_ChannelOpen, PacketType_ChannelClose.
  rewrite !(proj2 (Z.leb_le _ _)) by lia. cbn [andb c_assert]. bind_simpl.
  assert (exists b, match buf with Some b => b | None => FlexBuffer.flex_buffer 0 FlexBuffer.FLEX_PADDING_LEN FlexBuffer.FLEX_PADDING_LEN end = b /\
    flex_wf b /\ 8 <= foff b) as (b & -> & Hw & Ho).
  { destruct buf as [b|]; [by exists b|]. eexists. split; [reflexivity|].
    destruct (FlexBuffer.flex_buffer_wf 0 FlexBuffer.FLEX_PADDING_LEN FlexBuffer.FLEX_PADDING_LEN) as [Hw _]; [vm_compute; split; congruence|by vm_compute|].
    split; [done|]. vm_compute. congruence. }
  unfold PROTOCOL_HEAD_LEN, FlexBuffer.flex_buffer_size.
  destruct (FlexBuffer.backward_spec b 8 Hw ltac:(lia)) as (b1 & -> & Hw1 & _ & _ & Hs1 & _). bind_simpl.
  pose proof (wf_small _ Hw).
  destruct (FlexBuffer.write_front_spec b1 (packet_header (u8 ty) (u8 opt) (u16 remote) (u16 local) (u16 (fsize b))) Hw1) as (b2 & -> & Hw2 & _ & _ & Hs2 & _);
    [change (zlen (packet_header _ _ _ _ _)) with 8; lia|]. bind_simpl.
  rewrite (FlexBuffer.ptr_spec b2 0 (fsize b2)) by (done || lia). bind_simpl.
  set (d := ztake _ _). pose proof (ask_same (next_write d) w) as Ha. destruct (ask (next_write d) w) as [sent w1]. cbn [snd] in Ha.
  destruct (sent <? 0); eauto.
Qed.

(** ** The table *)

Lemma core_range w m cnt S cid : core w m cnt S -> cid ∈ m.*1 -> 1 <= cid <= 2048.
Proof.
  intros Hc Hin. apply (c_in _ _ _ _ Hc) in Hin. destruct (c_ids _ _ _ _ Hc) as [_ HR]. apply HR in Hin as [Hr _].
  rewrite (c_max _ _ _ _ Hc) in Hr. done.
Qed.

Lemma core_entry w m cnt S cid p : core w m cnt S -> (cid, p) ∈ m ->
  p + he_channel ∈ maddr <$> (item <$> m) /\ infos (ents w) (p + he_channel) = Some (cid, 2, p, u32 cid).
Proof.
  intros Hc Hin. split.
  - apply (list_elem_of_fmap_2 maddr _ (item (cid, p))). by apply list_elem_of_fmap_2.
  - destruct (c_tab _ _ _ _ Hc) as [_ HI]. apply (HI cid 2 p). by apply (list_elem_of_fmap_2 item _ (cid, p)).
Qed.

Lemma entry_core w m cnt S e : core w m cnt S -> e ∈ maddr <$> (item <$> m) -> exists cid p, (cid, p) ∈ m /\ e = p + he_channel.
Proof.
  intros _ He. apply list_elem_of_fmap in He as (i & -> & Hi). apply list_elem_of_fmap in Hi as ([cid p] & -> & Hin). by exists cid, p.
Qed.

(** Identifiers are small, so that the keys differ when they do. *)
Lemma lookup_in w m cnt S cid p n : core w m cnt S -> (cid, p) ∈ m ->
  lookup_key w (maddr <$> (item <$> m)) cid n = Some (p + he_channel).
Proof.
  intros Hc Hin. destruct (core_entry _ _ _ _ _ _ Hc Hin) as [He Hi]. apply lookup_key_unique; [apply Hc|done|].
  apply infos_node in Hi as (x & Ex & Hk & _). unfold has_key. rewrite Ex, Hk. apply Z.eqb_refl.
Qed.

Lemma lookup_out w m cnt S cid n : core w m cnt S -> cid ∉ m.*1 -> 0 <= cid < 2 ^ 32 ->
  lookup_key w (maddr <$> (item <$> m)) cid n = None.
Proof.
  intros Hc Hout Hr. destruct (lookup_key w (maddr <$> (item <$> m)) cid n) as [e|] eqn:El; [|done]. exfalso.
  apply lookup_key_Some in El as [He Hk]. destruct (entry_core _ _ _ _ _ Hc He) as (cid' & p & Hin & ->).
  destruct (core_entry _ _ _ _ _ _ Hc Hin) as [_ Hi]. apply infos_node in Hi as (x & Ex & Hkx & _).
  unfold has_key in Hk. rewrite Ex, Hkx in Hk. cbn in Hk. apply Z.eqb_eq in Hk.
  pose proof (core_range _ _ _ _ cid' Hc (in_fst _ _ _ Hin)). rewrite !u32_small in Hk by lia. subst cid'. apply Hout. by eapply in_fst.
Qed.

(** The counts change with the reference to one channel. *)
Lemma core_recount w w' m cnt cnt' S : core w m cnt S -> ents w' = ents w -> tab w' = tab w -> client w' = client w ->
  brk (w_heap w') = brk (w_heap w) ->
  (forall cid p, (cid, p) ∈ m -> objs (w_heap w') !! p = Some (mkRc (cnt' p) (Some CHANNEL_DESTROY) mem_magic) /\ 0 < cnt' p < 2 ^ 31) ->
  core w' m cnt' S.
Proof.
  intros [] He Ht Hcl Hb Ho. split; rewrite ?Ht, ?Hcl, ?Hb; try done.
  - destruct c_tab0 as [HR HI]. split; [|intros k n d Hin; rewrite He; by apply HI].
    destruct HR as [Bs HR]. assert (forall z, z ∈ maddr <$> (item <$> m) -> exists c dt, live w' (z - he_channel) c dt) as Hl.
    { intros z Hz. apply list_elem_of_fmap in Hz as (i & -> & Hi). apply list_elem_of_fmap in Hi as ([cid p] & -> & Hin).
      change (maddr (item (cid, p))) with (p + he_channel). replace (p + he_channel - he_channel) with p by lia. destruct (Ho cid p Hin) as [H1 H2]. destruct (c_obj0 cid p Hin) as (_ & H0 & _).
      exists (cnt' p), (Some CHANNEL_DESTROY). split; [done|]. split; [lia|done]. }
    exists Bs. destruct HR. split; rewrite ?He, ?Ht; try done.
    + intros z Hz. apply (entry_ok_frame w); [by apply rp_entry0|by rewrite He|by apply Hl].
    + destruct rp_chains0. split; by rewrite ?He, ?Ht.
  - intros cid p Hin. destruct (Ho cid p Hin) as [H1 H2]. destruct (c_obj0 cid p Hin) as (_ & H0 & _). done.
Qed.

Lemma core_live w m cnt S cid p : core w m cnt S -> (cid, p) ∈ m -> live w p (cnt p) (Some CHANNEL_DESTROY).
Proof. intros Hc Hin. destruct (c_obj _ _ _ _ Hc cid p Hin) as (H1 & H2 & H3). split; [done|]. split; [lia|done]. Qed.

(** Few references are held at a time. *)
Lemma core_few w m cnt S e c dt : core w m cnt S -> (forall q, cnt q + 1 < 2 ^ 32) -> e ∈ maddr <$> (item <$> m) ->
  live w (e - he_channel) c dt -> c + 1 < 2 ^ 32.
Proof.
  intros Hc Hn He Hl. destruct (entry_core _ _ _ _ _ Hc He) as (cid & p & Hin & ->). replace (p + he_channel - he_channel) with p in Hl by lia.
  destruct (core_live _ _ _ _ _ _ Hc Hin) as (_ & _ & H1). destruct Hl as (_ & _ & H2). cbn in H1, H2. rewrite H1 in H2. injection H2 as <- _. apply Hn.
Qed.

(** [channels_get]: one more reference. *)
Lemma get_core w m cnt S cid p : core w m cnt S -> (forall q, cnt q + 1 < 2 ^ 31) -> (cid, p) ∈ m ->
  exists w', channels_get cid w = Ok (p, w') /\ core w' m (fun q => if q =? p then cnt p + 1 else cnt q) S /\ client w' = client w /\ tab w' = tab w.
Proof.
  intros Hc Hn Hin. pose proof (core_range _ _ _ _ cid Hc (in_fst _ _ _ Hin)) as Hr.
  pose proof (hashtable_get_spec w _ cid 4 (proj1 (c_tab _ _ _ _ Hc)) I) as Hg.
  rewrite (lookup_in _ _ _ _ _ _ _ Hc Hin) in Hg.
  destruct Hg as (w' & c & dt & E1 & HR & Hl & Hw'); [cbn; apply Z.eqb_neq; lia|done| |].
  { intros e c dt. apply (core_few _ _ _ _ _ _ _ Hc). intros q. specialize (Hn q). lia. }
  cbn in E1, Hl, Hw'. replace (p + he_channel - he_channel) with p in E1, Hl, Hw' by lia.
  destruct (core_live _ _ _ _ _ _ Hc Hin) as (_ & Hp & H1).
  assert (c = cnt p /\ dt = Some CHANNEL_DESTROY) as [-> ->].
  { destruct Hl as (_ & _ & H2). cbn in H1, H2. rewrite H1 in H2. by injection H2 as <- <-. }
  exists w'. split; [done|]. split; [|by rewrite Hw'].
  apply (core_recount w _ m cnt); try (by rewrite Hw'); [done|].
  intros cid' q Hq. rewrite Hw'. cbn. destruct (c_obj _ _ _ _ Hc cid' q Hq) as (Ho & _ & Hq1). destruct (Z.eqb_spec q p) as [->|Hne].
  - rewrite lookup_insert_eq. split; [done|]. specialize (Hn p). lia.
  - rewrite lookup_insert_ne by done. by split.
Qed.

Lemma core_counts w m cnt cnt' S : (forall q, cnt q = cnt' q) -> core w m cnt S -> core w m cnt' S.
Proof.
  intros Heq Hc. apply (core_recount w w m cnt); try done. intros cid q Hin. rewrite <- !Heq. destruct (c_obj _ _ _ _ Hc cid q Hin) as (? & _ & ?). done.
Qed.

Lemma get_in w m cid p : inv w m -> (cid, p) ∈ m ->
  exists w', channels_get cid w = Ok (p, w') /\ held w' m p /\ client w' = client w.
Proof.
  intros [Hc Hd] Hin. destruct (get_core w m _ _ cid p Hc ltac:(done) Hin) as (w' & -> & Hc' & Hcl & _). exists w'. split; [done|].
  split; [|done]. split; [done|]. split; [by eapply in_snd|by rewrite Hcl].
Qed.

Lemma get_refs n w m cid p : refs n w m p -> 0 < n < 2 ^ 31 - 1 -> (cid, p) ∈ m ->
  exists w', channels_get cid w = Ok (p, w') /\ refs (n + 1) w' m p /\ client w' = client w /\ tab w' = tab w.
Proof.
  intros (Hc & Hp & Hd) Hn Hin. destruct (get_core w m _ _ cid p Hc) as (w' & -> & Hc' & Hcl & Ht); [|done|].
  { intros q. cbn. destruct (q =? p); lia. }
  exists w'. split; [done|]. split; [|done]. split; [|split; [done|by rewrite Hcl]]. eapply core_counts; [|exact Hc'].
  intros q. cbn. rewrite Z.eqb_refl. by destruct (q =? p).
Qed.

Lemma get_out w m cid : inv w m -> cid ∉ m.*1 -> 0 < cid < 2 ^ 31 -> channels_get cid w = Ok (0, w).
Proof.
  intros [Hc Hd] Hout Hr. pose proof (hashtable_get_spec w _ cid 4 (proj1 (c_tab _ _ _ _ Hc)) I) as Hg.
  rewrite (lookup_out _ _ _ _ _ _ Hc Hout) in Hg by lia. apply Hg; [cbn; apply Z.eqb_neq; lia|done|].
  intros e c dt He Hl. destruct (entry_core _ _ _ _ _ Hc He) as (cid' & p' & Hin' & ->). cbn in Hl.
  replace (p' + he_channel - he_channel) with p' in Hl by lia.
  destruct (core_live _ _ _ _ _ _ Hc Hin') as (_ & _ & H1). destruct Hl as (_ & _ & H2). cbn in H1, H2. rewrite H1 in H2. injection H2 as <- _. lia.
Qed.

(** Giving a reference back. *)
Lemma release_core w m cnt S p : core w m cnt S -> p ∈ m.*2 -> 1 < cnt p ->
  exists w', deref p w = Ok w' /\ core w' m (fun q => if q =? p then cnt p - 1 else cnt q) S /\ client w' = client w /\ tab w' = tab w.
Proof.
  intros Hc Hp Hn. apply list_elem_of_fmap in Hp as ([cid q] & -> & Hin). cbn [snd] in *.
  pose proof (core_live _ _ _ _ _ _ Hc Hin) as Hl. eexists. split; [apply (deref_keeps _ _ _ _ Hl); lia|]. split; [|done].
  apply (core_recount w _ m cnt); try done. intros cid' p' Hin'. cbn. destruct (c_obj _ _ _ _ Hc cid' p' Hin') as (H1 & _ & H2).
  destruct (Z.eqb_spec p' q) as [->|Hne].
  - rewrite lookup_insert_eq. split; [done|lia].
  - rewrite lookup_insert_ne by done. by split.
Qed.

Lemma release_held w m p : held w m p -> exists w', deref p w = Ok w' /\ inv w' m /\ client w' = client w /\ tab w' = tab w.
Proof.
  intros (Hc & Hp & Hd). destruct (release_core w m _ _ p Hc Hp) as (w' & -> & Hc' & Hcl & Ht); [rewrite Z.eqb_refl; lia|].
  exists w'. split; [done|]. split; [|done]. split; [|by rewrite Hcl]. eapply core_counts; [|exact Hc'].
  intros q. cbn. rewrite Z.eqb_refl. by destruct (q =? p).
Qed.

Lemma release_refs n w m p : refs (n + 1) w m p -> 0 < n -> exists w', deref p w = Ok w' /\ refs n w' m p /\ client w' = client w /\ tab w' = tab w.
Proof.
  intros (Hc & Hp & Hd) Hn. destruct (release_core w m _ _ p Hc Hp) as (w' & -> & Hc' & Hcl & Ht); [rewrite Z.eqb_refl; lia|].
  exists w'. split; [done|]. split; [|done]. split; [|split; [done|by rewrite Hcl]]. eapply core_counts; [|exact Hc'].
  intros q. cbn. rewrite Z.eqb_refl. destruct (q =? p); [lia|done].
Qed.

Lemma fmap_split_nodup (m1 m2 : list (Z * Z)) cid p : NoDup (m1 ++ (cid, p) :: m2).*1 -> NoDup (m1 ++ (cid, p) :: m2).*2 ->
  cid ∉ (m1 ++ m2).*1 /\ p ∉ (m1 ++ m2).*2 /\ NoDup (m1 ++ m2).*1 /\ NoDup (m1 ++ m2).*2.
Proof.
  rewrite !fmap_app, !fmap_cons. cbn [fst snd]. rewrite !NoDup_app, !NoDup_cons. set_solver.
Qed.

(** A channel leaves the table, with one reference to it left. *)
Lemma taken_orphan w w' m1 cid p m2 cnt : core w (m1 ++ (cid, p) :: m2) cnt (list_to_set (m1 ++ (cid, p) :: m2).*1) ->
  (forall q, q <> p -> cnt q = 1) -> (forall q, is_Some (chans (client w) !! q) -> q ∈ (m1 ++ (cid, p) :: m2).*2) ->
  rep w' (maddr <$> (item <$> m1 ++ m2)) -> objs (w_heap w') !! p = Some (mkRc 1 (Some CHANNEL_DESTROY) mem_magic) ->
  (forall q, q <> p -> objs (w_heap w') !! q = objs (w_heap w) !! q) ->
  brk (w_heap w') = brk (w_heap w) -> client w' = client w -> (forall z, z <> p + he_channel -> infos (ents w') z = infos (ents w) z) ->
  lst_head (tab w') = lst_head (tab w) -> orphan w' (m1 ++ m2) p cid.
Proof.
  intros Hc Hcnt Hd HR Hob Hoth Hb Hcl Hinf Hlh. assert ((cid, p) ∈ m1 ++ (cid, p) :: m2) as Hin by set_solver.
  destruct (fmap_split_nodup _ _ _ _ (c_nodup _ _ _ _ Hc) (c_nodup2 _ _ _ _ Hc)) as (Hn1 & Hn2 & Hn3 & Hn4).
  assert (forall c q, (c, q) ∈ m1 ++ m2 -> (c, q) ∈ m1 ++ (cid, p) :: m2 /\ q <> p) as Hsub.
  { intros c q Hq. split; [set_solver|]. intros ->. apply Hn2. by eapply in_snd. }
  split; [|split_and!; try done].
  - pose proof Hc as []. split; rewrite ?Hcl, ?Hb, ?Hlh; try done.
    + split; [done|]. intros k n d ([c q] & Heq & Hq)%list_elem_of_fmap. injection Heq as -> -> ->.
      destruct (Hsub c q Hq) as [Hq' Hne]. rewrite Hinf by (cbn; lia). destruct c_tab0 as [_ HI]. apply HI.
      by apply (list_elem_of_fmap_2 item _ (c, q)).
    + intros c q Hq. by apply c_chan0, Hsub.
    + intros c q Hq. destruct (Hsub c q Hq) as [Hq' Hne]. rewrite Hoth by done.
      destruct (c_obj0 c q Hq') as (H1 & H2 & _). rewrite Hcnt in H1 by done. split; [done|]. split; [done|lia].
    + replace ({[cid]} ∪ list_to_set (m1 ++ m2).*1) with (list_to_set (m1 ++ (cid, p) :: m2).*1 : gset Z); [done|].
      rewrite !fmap_app, fmap_cons, !list_to_set_app_L. cbn [fst list_to_set]. set_solver.
    + intros c Hc'. apply elem_of_union_r. by apply elem_of_list_to_set.
    + destruct c_brk0 as (? & ? & Hbm). split; [done|]. split; [done|]. intros c q Hq. by apply (Hbm c), Hsub.
  - destruct (c_chan _ _ _ _ Hc cid p Hin) as (ch & Hch & Hok). exists ch. by rewrite Hcl.
  - by apply (c_obj _ _ _ _ Hc cid).
  - rewrite Hlh. destruct (c_tab _ _ _ _ Hc) as [[Bs []] _]. pose proof (ring_nodup _ _ _ rp_ring0) as Hnd. apply NoDup_cons in Hnd as [Hnd _].
    destruct (core_entry _ _ _ _ _ _ Hc Hin) as [He _]. intros Heq. apply Hnd. by rewrite <- Heq.
  - rewrite Hcl. intros q Hq. apply Hd in Hq. rewrite fmap_app, fmap_cons in Hq. rewrite fmap_app. cbn in Hq. set_solver.
Qed.

Lemma split_addrs w m1 cid p m2 cnt S : core w (m1 ++ (cid, p) :: m2) cnt S ->
  filter (.≠ p + he_channel) (maddr <$> (item <$> m1 ++ (cid, p) :: m2)) = maddr <$> (item <$> m1 ++ m2).
Proof.
  intros Hc. rewrite !fmap_app, !fmap_cons. apply filter_split; [|done].
  destruct (c_tab _ _ _ _ Hc) as [[Bs []] _]. pose proof (ring_nodup _ _ _ rp_ring0) as Hnd. apply NoDup_cons in Hnd as [_ Hnd].
  by rewrite !fmap_app, !fmap_cons in Hnd.
Qed.

(** [hashtable_remove] of a channel of the table. *)
Lemma remove_core w m1 cid p m2 cnt S : core w (m1 ++ (cid, p) :: m2) cnt S ->
  exists w1, hashtable_remove cid 4 w = Ok (p, w1) /\ rep w1 (maddr <$> (item <$> m1 ++ m2)) /\ w_heap w1 = w_heap w /\
    client w1 = client w /\ (forall z, infos (ents w1) z = infos (ents w) z) /\ lst_head (tab w1) = lst_head (tab w) /\
    mod_count (tab w1) = s32 (mod_count (tab w) + 1).
Proof.
  intros Hc. assert ((cid, p) ∈ m1 ++ (cid, p) :: m2) as Hin by set_solver.
  pose proof (core_range _ _ _ _ cid Hc (in_fst _ _ _ Hin)) as Hr.
  pose proof (hashtable_remove_spec w _ cid 4 (proj1 (c_tab _ _ _ _ Hc)) I) as Hg.
  rewrite (lookup_in _ _ _ _ _ _ _ Hc Hin) in Hg.
  destruct Hg as (w1 & -> & HR1 & Hh1 & Hc1 & I1 & M1 & L1); [cbn; apply Z.eqb_neq; lia|done|].
  cbn [he_offset mux_client]. replace (p + he_channel - he_channel) with p by lia. exists w1. split; [done|].
  by rewrite (split_addrs _ _ _ _ _ _ _ Hc) in HR1.
Qed.

(** [channels_remove] of the channel that is held. *)
Lemma remove_held w m1 cid p m2 : held w (m1 ++ (cid, p) :: m2) p ->
  exists w', channels_remove cid w = Ok w' /\ orphan w' (m1 ++ m2) p cid /\ client w' = client w.
Proof.
  intros (Hc & Hp & Hd). unfold channels_remove. destruct (remove_core _ _ _ _ _ _ _ Hc) as (w1 & -> & HR1 & Hh1 & Hc1 & I1 & L1 & M1).
  bind_simpl. cbn [fst snd].
  assert (live w1 p 2 (Some CHANNEL_DESTROY)) as Hl1.
  { pose proof (core_live _ _ _ _ cid p Hc ltac:(set_solver)) as (? & ? & Hl). cbn beta in Hl. rewrite Z.eqb_refl in Hl.
    split; [done|]. split; [lia|]. cbn. by rewrite Hh1. }
  eexists. split; [apply (deref_keeps _ _ _ _ Hl1); lia|]. split; [|exact Hc1].
  eapply (taken_orphan w); [done|intros q Hq; cbn; by rewrite (proj2 (Z.eqb_neq _ _))|done| |
    cbn; by rewrite lookup_insert_eq|intros q Hq; cbn; by rewrite Hh1, lookup_insert_ne|cbn; by rewrite ?Hh1..].
  destruct HR1 as [Bs HR1]. exists Bs. apply (rep_heap w1); [done|done|done|]. apply (set_obj_keeps _ _ 2); [done|lia].
Qed.

(** With one more reference, which is given back after it. *)
Lemma remove_release w m1 cid p m2 : refs 3 w (m1 ++ (cid, p) :: m2) p ->
  exists w1 w2, channels_remove cid w = Ok w1 /\ deref p w1 = Ok w2 /\ orphan w2 (m1 ++ m2) p cid /\ client w2 = client w /\
    lst_head (tab w2) = lst_head (tab w) /\ mod_count (tab w2) = s32 (mod_count (tab w) + 1).
Proof.
  intros (Hc & Hp & Hd). unfold channels_remove. destruct (remove_core _ _ _ _ _ _ _ Hc) as (w1 & -> & HR1 & Hh1 & Hc1 & I1 & L1 & M1).
  bind_simpl. cbn [fst snd].
  assert (live w1 p 3 (Some CHANNEL_DESTROY)) as Hl1.
  { pose proof (core_live _ _ _ _ cid p Hc ltac:(set_solver)) as (? & ? & Hl). cbn beta in Hl. rewrite Z.eqb_refl in Hl.
    split; [done|]. split; [lia|]. cbn. by rewrite Hh1. }
  set (w2 := set_obj p (mkRc 2 (Some CHANNEL_DESTROY) mem_magic) w1).
  assert (live w2 p 2 (Some CHANNEL_DESTROY)) as Hl2 by (apply (live_set_obj _ _ 3); [done|lia]).
  exists w2, (set_obj p (mkRc 1 (Some CHANNEL_DESTROY) mem_magic) w2).
  split; [apply (deref_keeps _ _ _ _ Hl1); lia|]. split; [apply (deref_keeps _ _ _ _ Hl2); lia|]. split; [|done].
  eapply (taken_orphan w); [done|intros q Hq; cbn; by rewrite (proj2 (Z.eqb_neq _ _))|done| |
    cbn; by rewrite lookup_insert_eq|intros q Hq; cbn; by rewrite Hh1, !lookup_insert_ne|cbn; by rewrite ?Hh1..].
  destruct HR1 as [Bs HR1]. exists Bs. apply (rep_heap w2); [|done|done|apply (set_obj_keeps _ _ 2); [done|lia]].
  apply (rep_heap w1); [done|done|done|]. apply (set_obj_keeps _ _ 3); [done|lia].
Qed.

(** Dropping the last reference: the identifier is free again. *)
Definition good_id (cid : Z) : bool := (cid - 1) mod 64 <? 31.

Lemma drop_orphan w m p cid : orphan w m p cid -> good_id cid = true ->
  exists w', deref p w = Ok w' /\ inv w' m /\ env (client w') = env (client w) /\ tab w' = tab w.
Proof.
  intros (Hc & Hpm & Hcm & (ch & Hch & Hid & Hmux & Hcbs) & Ho & Hp0 & Hhd & Hd) Hgood. pose proof Hc as [].
  assert (live w p 1 (Some CHANNEL_DESTROY)) as Hl by (split; [done|]; split; [lia|done]).
  assert (cid ∈ ({[cid]} ∪ list_to_set m.*1 : gset Z)) as HcS by set_solver.
  destruct c_ids0 as [Hwf HS] eqn:Eids. pose proof (proj1 (HS cid) HcS) as [Hrange _].
  pose proof (IdsHeap.ids_heap_free_refines (channel_ids (client w)) _ cid (conj Hwf HS) Hrange Hgood) as (h' & Hfree & HR' & Hmax' & _).
  assert (destroy_ok w p (Some CHANNEL_DESTROY) (set_ids h' (client w))) as Hdes.
  { unfold destroy_ok. cbn. unfold channel_destroy. rewrite Hch, Hid, Hmux, nonzero_true by lia. cbn [andb]. rewrite Hfree. done. }
  destruct (deref_frame w p 1 (Some CHANNEL_DESTROY) _ Hl (fun _ => Hdes)) as (w' & -> & T & O & B & Cl & En).
  cbn in Cl, En. exists w'. split; [done|]. split; [|by rewrite Cl, T].
  assert (p + he_channel ∉ lst_head (tab w) :: (maddr <$> (item <$> m))) as Hnot.
  { intros [Heq|Hin]%elem_of_cons; [done|]. destruct (entry_core _ _ _ _ _ Hc Hin) as (cid' & p' & Hin' & Heq).
    assert (p' = p) as -> by lia. apply Hpm. by eapply in_snd. }
  assert (forall q, q ∈ m.*2 -> q <> p) as Hqp by (intros q Hq ->; done).
  assert (list_to_set m.*1 = ({[cid]} ∪ list_to_set m.*1) ∖ {[cid]} :> gset Z) as HSeq.
  { apply set_eq. intros c. rewrite elem_of_difference, elem_of_union, !elem_of_singleton, elem_of_list_to_set. split.
    - intros Hc'. split; [by right|]. intros ->. done.
    - intros [[->|?] ?]; done. }
  split.
  - split; rewrite ?Cl, ?T, ?B; cbn; try done.
    + destruct c_tab0 as [HR HI]. split.
      * apply (rep_agree w w' _ (p + he_channel) HR T Hnot).
        { intros a Ha. rewrite En. by rewrite lookup_delete_ne. }
        intros z Hz. destruct (entry_core _ _ _ _ _ Hc Hz) as (cid' & p' & Hin' & ->).
        destruct (core_live _ _ _ _ _ _ Hc Hin') as (H1 & H2 & H3). exists 1, (Some CHANNEL_DESTROY).
        cbn. replace (p' + he_channel - he_channel) with p' by lia. split; [done|]. split; [done|].
        cbn. rewrite O, drop_ref_ne; [exact H3|]. intros Heq. apply (Hqp p'); [by eapply in_snd|done].
      * intros k n d Hkd. rewrite <- (HI k n d Hkd). unfold infos. rewrite En, lookup_delete_ne; [done|].
        intros Heq. apply Hnot. right. rewrite Heq. by apply (list_elem_of_fmap_2 maddr _ (k, n, d)).
    + intros cid' p' Hin'. rewrite lookup_delete_ne by (intros Heq; apply (Hqp p'); [by eapply in_snd|done]). by apply c_chan0.
    + intros cid' p' Hin'. rewrite O, drop_ref_ne by (intros Heq; apply (Hqp p'); [by eapply in_snd|done]). by apply (c_obj0 cid').
    + by rewrite HSeq.
    + by rewrite Hmax'.
    + intros c Hc'. by apply elem_of_list_to_set.
  - rewrite Cl. cbn. intros q Hq. destruct (decide (q = p)) as [->|Hne]; [rewrite lookup_delete_eq in Hq; by destruct Hq|].
    rewrite lookup_delete_ne in Hq by done. by destruct (Hd q Hq).
Qed.

(** [channels_remove] of a channel that only the table refers to. *)
Lemma remove_inv w m1 cid p m2 : inv w (m1 ++ (cid, p) :: m2) -> good_id cid = true ->
  exists w', channels_remove cid w = Ok w' /\ inv w' (m1 ++ m2) /\ env (client w') = env (client w).
Proof.
  intros [Hc Hd] Hg. unfold channels_remove. destruct (remove_core _ _ _ _ _ _ _ Hc) as (w1 & -> & HR1 & Hh1 & Hc1 & I1 & L1 & M1).
  bind_simpl. cbn [fst snd]. assert (orphan w1 (m1 ++ m2) p cid) as Ho.
  { eapply (taken_orphan w); [done|done|done|done| |by rewrite ?Hh1|by rewrite ?Hh1..|done].
    rewrite Hh1. by apply (c_obj _ _ _ _ Hc cid p ltac:(set_solver)). }
  destruct (drop_orphan _ _ _ _ Ho Hg) as (w2 & -> & Hi & He & _). exists w2. split; [done|]. split; [done|]. by rewrite He, Hc1.
Qed.

(** ** New channels *)

(** The memory of a new channel's entry is there. *)
Definition has_entry w (p : Z) : Prop := is_Some (ents w !! (p + he_channel)) /\ 0 < p /\ p + he_channel < brk (w_heap w).

Lemma set_orphan w m p cid f : keeps f -> orphan w m p cid -> exists w', set_chan p f w = Ok w' /\ orphan w' m p cid /\
  (has_entry w p -> has_entry w' p).
Proof.
  intros Hk (Hc & Hpm & Hcm & (ch & Hch & Hok) & Ho & Hp0 & Hhd & Hd).
  eexists. split; [by apply set_chan_ok|]. split; [|done]. split; [by apply set_core|]. split_and!; try done; cbn.
  - exists (f ch). rewrite lookup_insert_eq. split; [done|]. destruct (Hk ch) as (E1 & E2 & E3). unfold chan_ok. by rewrite E1, E2, E3.
  - intros q. destruct (decide (q = p)) as [->|]; [by right|]. rewrite lookup_insert_ne by done. apply Hd.
Qed.

Lemma update_remote_orphan w m p cid : orphan w m p cid -> exists w', update_remote_timestamp p w = Ok w' /\ orphan w' m p cid /\
  (has_entry w p -> has_entry w' p).
Proof.
  intros Hh. unfold update_remote_timestamp. pose proof (ask_same gettimeofday w) as Ha. destruct (ask gettimeofday w) as [t w1]. cbn [snd] in Ha.
  destruct (set_orphan w1 m p cid (fun c => with_last_activity t (with_remote_timestamp t c))) as (w' & -> & Hh' & He);
    [done|by apply (same_orphan w)|]. exists w'. split; [done|]. split; [done|]. intros H. apply He. by destruct Ha as [e ->].
Qed.

(** A new object, before it has an identifier. *)
Record nascent w m (p : Z) : Prop := {
  na_core : core w m (fun _ => 1) (list_to_set m.*1);
  na_new : p ∉ m.*2;
  na_chan : chans (client w) !! p = Some zero_channel;
  na_obj : objs (w_heap w) !! p = Some (mkRc 1 (Some CHANNEL_DESTROY) mem_magic);
  na_addr : lst_head (tab w) < p;
  na_entry : has_entry w p;
  na_dom : forall q, is_Some (chans (client w) !! q) -> q ∈ m.*2 \/ q = p;
}.

Lemma zalloc_nascent w m size : inv w m -> he_channel < size -> exists p w',
  rc_zalloc true size (Some CHANNEL_DESTROY) w = (p, w') /\ nascent w' m p /\ env (client w') = env (client w).
Proof.
  intros [Hc Hd] Hs. pose proof Hc as []. destruct c_brk0 as (Hb0 & Hbh & Hbm).
  unfold rc_zalloc, rc_alloc. cbn [negb heap_of hworld_world]. set (p := brk (w_heap w) + sizeof_rc_mem).
  assert (brk (w_heap w) < p) as Hpb by (unfold p, sizeof_rc_mem; lia). rewrite (proj2 (Z.eqb_neq p 0)) by lia.
  eexists p, _. split; [reflexivity|]. split; [|done].
  assert (he_channel = 88) as Hhe by done.
  assert (forall cid q, (cid, q) ∈ m -> q <> p) as Hqp by (intros cid q Hq ->; specialize (Hbm cid p Hq); lia).
  split; cbn; try done.
  - split; cbn; try done.
    + destruct c_tab0 as [HR HI]. split.
      * apply (rep_agree w _ _ (p + he_channel) HR); [done| |intros a Ha; cbn; by rewrite lookup_insert_ne|].
        { intros [Heq|Hin]%elem_of_cons; [lia|]. destruct (entry_core _ _ _ _ _ Hc Hin) as (cid' & p' & Hin' & Heq).
          apply (Hqp cid' p' Hin'). lia. }
        intros z Hz. destruct (entry_core _ _ _ _ _ Hc Hz) as (cid' & p' & Hin' & ->).
        destruct (core_live _ _ _ _ _ _ Hc Hin') as (H1 & H2 & H3). exists 1, (Some CHANNEL_DESTROY).
        cbn. replace (p' + he_channel - he_channel) with p' by lia. split; [done|]. split; [done|].
        cbn. rewrite lookup_insert_ne by (intros Heq; by apply (Hqp cid' p')). exact H3.
      * intros k n d Hkd. rewrite <- (HI k n d Hkd). unfold infos. cbn. rewrite lookup_insert_ne; [done|].
        apply list_elem_of_fmap in Hkd as ([cid' p'] & Heq & Hin'). injection Heq as -> -> ->. cbn. intros Heq. apply (Hqp cid' p' Hin'). lia.
    + intros cid' p' Hin'. rewrite lookup_insert_ne by (intros Heq; by apply (Hqp cid' p')). by apply c_chan0.
    + intros cid' p' Hin'. rewrite lookup_insert_ne by (intros Heq; by apply (Hqp cid' p')). by apply (c_obj0 cid').
    + split; [lia|]. split; [lia|]. intros cid' p' Hin'. specialize (Hbm cid' p' Hin'). lia.
  - intros Hin. apply list_elem_of_fmap in Hin as ([cid' p'] & Heq & Hin'). cbn in Heq. subst p'. by apply (Hqp cid' p).
  - by rewrite lookup_insert_eq.
  - by rewrite lookup_insert_eq.
  - lia.
  - split; cbn; [rewrite lookup_insert_eq; eauto|]. unfold sizeof_rc_mem in *. lia.
  - intros q. destruct (decide (q = p)) as [->|Hne]; [by right|]. rewrite lookup_insert_ne by done. intros Hq. left. by apply Hd.
Qed.

Lemma nascent_same w w' m p : same_but_env w w' -> nascent w m p -> nascent w' m p.
Proof. intros H []. split; try done; try (by destruct H as [e ->]). by apply (same_core w). Qed.

(** Taking an identifier, or finding that all are in use. *)
Lemma ids_alloc_nascent w m p : nascent w m p ->
  (exists cid h, IdsHeap.ids_heap_alloc 0 (channel_ids (client w)) = Ok (cid, h) /\ 1 <= cid <= 2048 /\ cid ∉ m.*1 /\
     IdsHeap.next_free (channel_ids (client w)) (list_to_set m.*1) cid /\
     forall f ty remote, keeps f -> 0 <= ty < 3 ->
       exists w', set_chan p (fun c => f (new_channel ty cid remote c)) (upd_client (set_ids h) w) = Ok w' /\
         orphan w' m p cid /\ has_entry w' p) \/
  (IdsHeap.ids_heap_alloc 0 (channel_ids (client w)) = Ok (-1, channel_ids (client w)) /\
   forall cid, 1 <= cid <= 2048 -> cid ∈ m.*1).
Proof.
  intros Hn. pose proof Hn as []. pose proof na_core0 as [].
  destruct (IdsHeap.alloc_refines _ _ c_ids0) as [(cid & h & Ha & Hnf & HR & Hmx & _)|[Ha Hall]].
  - left. exists cid, h. assert (1 <= cid <= 2048) as Hr by (destruct Hnf as [Hr _]; rewrite c_max0 in Hr; done).
    assert (cid ∉ m.*1) as Hout by (destruct Hnf as (_ & Hout & _); by rewrite elem_of_list_to_set in Hout).
    split; [done|]. split; [done|]. split; [done|]. split; [done|]. intros f ty remote Hk Hty.
    eexists. split; [exact (set_chan_ok (upd_client (set_ids h) w) p (fun c => f (new_channel ty cid remote c)) zero_channel na_chan0)|].
    split; [|exact na_entry0]. set (ch := f (new_channel ty cid remote zero_channel)).
    assert (chan_ok cid ch) as Hok.
    { destruct (Hk (new_channel ty cid remote zero_channel)) as (E1 & E2 & E3). unfold chan_ok, ch. rewrite E1, E2, E3. cbn.
      rewrite u16_small by lia. done. }
    assert (forall cid' q, (cid', q) ∈ m -> q <> p) as Hqp by (intros cid' q Hq ->; apply na_new0; by eapply in_snd).
    split; [|split_and!; try done; cbn].
    + split; cbn; try done.
      * destruct c_tab0 as [HR' HI]. split; [|done]. destruct HR' as [Bs HR']. exists Bs. by apply (rep_heap w); [| | |eauto].
      * intros cid' p' Hin'. rewrite lookup_insert_ne by (intros Heq; by apply (Hqp cid' p')). by apply c_chan0.
      * by rewrite Hmx.
      * intros c Hc'. apply elem_of_union_r. by apply elem_of_list_to_set.
    + exists ch. by rewrite lookup_insert_eq.
    + destruct na_entry0. lia.
    + unfold he_channel. lia.
    + intros q. destruct (decide (q = p)) as [->|]; [by right|]. rewrite lookup_insert_ne by done. apply na_dom0.
  - right. split; [done|]. intros cid Hr. apply (elem_of_list_to_set (C := gset Z)). apply Hall. rewrite c_max0. done.
Qed.

(** An object that never got an identifier is freed. *)
Lemma drop_nascent w m p : nascent w m p -> exists w', deref p w = Ok w' /\ inv w' m /\ env (client w') = env (client w).
Proof.
  intros []. pose proof na_core0 as []. destruct na_entry0 as (_ & Hp0 & Hbrk).
  assert (live w p 1 (Some CHANNEL_DESTROY)) as Hl by (split; [lia|]; split; [lia|done]).
  assert (destroy_ok w p (Some CHANNEL_DESTROY) (client w)) as Hdes by (unfold destroy_ok; cbn; unfold channel_destroy; by rewrite na_chan0).
  destruct (deref_frame w p 1 (Some CHANNEL_DESTROY) _ Hl (fun _ => Hdes)) as (w' & -> & T & O & B & Cl & En).
  cbn in Cl, En. exists w'. split; [done|]. split; [|by rewrite Cl].
  assert (forall cid q, (cid, q) ∈ m -> q <> p) as Hqp by (intros cid' q Hq ->; apply na_new0; by eapply in_snd).
  assert (p + he_channel ∉ lst_head (tab w) :: (maddr <$> (item <$> m))) as Hnot.
  { intros [Heq|Hin]%elem_of_cons; [unfold he_channel in Heq; lia|]. destruct (entry_core _ _ _ _ _ na_core0 Hin) as (cid' & p' & Hin' & Heq).
    apply (Hqp cid' p' Hin'). lia. }
  split.
  - split; rewrite ?Cl, ?T, ?B; cbn; try done.
    + destruct c_tab0 as [HR HI]. split.
      * apply (rep_agree w w' _ (p + he_channel) HR T Hnot).
        { intros a Ha. rewrite En. by rewrite lookup_delete_ne. }
        intros z Hz. destruct (entry_core _ _ _ _ _ na_core0 Hz) as (cid' & p' & Hin' & ->).
        destruct (core_live _ _ _ _ _ _ na_core0 Hin') as (H1 & H2 & H3). exists 1, (Some CHANNEL_DESTROY).
        cbn. replace (p' + he_channel - he_channel) with p' by lia. split; [done|]. split; [done|].
        cbn. rewrite O, drop_ref_ne; [exact H3|]. intros Heq. by apply (Hqp cid' p').
      * intros k n d Hkd. rewrite <- (HI k n d Hkd). unfold infos. rewrite En, lookup_delete_ne; [done|].
        intros Heq. apply Hnot. right. rewrite Heq. by apply (list_elem_of_fmap_2 maddr _ (k, n, d)).
    + intros cid' p' Hin'. rewrite lookup_delete_ne by (intros Heq; by apply (Hqp cid' p')). by apply c_chan0.
    + intros cid' p' Hin'. rewrite O, drop_ref_ne by (intros Heq; by apply (Hqp cid' p')). by apply (c_obj0 cid').
  - rewrite Cl. cbn. intros q Hq. destruct (decide (q = p)) as [->|Hne]; [rewrite lookup_delete_eq in Hq; by destruct Hq|].
    rewrite lookup_delete_ne in Hq by done. by destruct (na_dom0 q Hq).
Qed.

Lemma length_channels w m cnt S : core w m cnt S -> zlen m <= 2048.
Proof.
  intros Hc. assert (zlen m = zlen m.*1) as -> by (unfold zlen; by rewrite length_fmap).
  assert (zlen m.*1 <= zlen (seqZ 1 2048)) as Hle.
  { unfold zlen. apply inj_le. apply submseteq_length, NoDup_submseteq; [apply Hc|]. intros c Hc'.
    apply elem_of_seqZ. pose proof (core_range _ _ _ _ _ Hc Hc'). lia. }
  unfold zlen in *. rewrite length_seqZ in Hle. lia.
Qed.

(** [channels_put] of a new channel. *)
Lemma put_orphan w m p cid : orphan w m p cid -> has_entry w p ->
  exists w', channels_put p w = Ok w' /\ held w' (m ++ [(cid, p)]) p /\ client w' = client w.
Proof.
  intros (Hc & Hpm & Hcm & (ch & Hch & Hok) & Ho & Hp0 & Hhd & Hd) ([x Hx] & Hpos & Hbrk). pose proof Hc as [].
  assert (1 <= cid <= 2048) as Hr.
  { destruct c_ids0 as [_ HS]. assert (cid ∈ ({[cid]} ∪ list_to_set m.*1 : gset Z)) as Hin by set_solver.
    apply HS in Hin as [Hin _]. rewrite c_max0 in Hin. done. }
  unfold channels_put. assert (chan p w = Ok ch) as -> by (unfold chan; by rewrite Hch). bind_simpl.
  rewrite (upd_ok _ _ _ _ Hx). bind_simpl. destruct Hok as (Hid & Hmux & Hcbs). rewrite Hid.
  set (x1 := mkHashEntry cid 2 p _ _ _ _). set (w1 := with_ents (<[p + he_channel := x1]> (ents w)) w).
  assert (forall c' q, (c', q) ∈ m -> q <> p) as Hqp by (intros c' q Hq ->; apply Hpm; by eapply in_snd).
  assert (p + he_channel ∉ lst_head (tab w) :: (maddr <$> (item <$> m))) as Hnot.
  { intros [Heq|Hin]%elem_of_cons; [done|]. destruct (entry_core _ _ _ _ _ Hc Hin) as (c' & p' & Hin' & Heq). apply (Hqp c' p' Hin'). lia. }
  assert (holds w1 (item <$> m)) as Hh1.
  { destruct c_tab0 as [HR HI]. split.
    - apply (rep_agree w w1 _ (p + he_channel) HR eq_refl Hnot); [intros a Ha; cbn; by rewrite lookup_insert_ne|].
      intros z Hz. destruct (entry_core _ _ _ _ _ Hc Hz) as (c' & p' & Hin' & ->). exists 1, (Some CHANNEL_DESTROY).
      cbn. replace (p' + he_channel - he_channel) with p' by lia. apply (core_live _ _ _ _ _ _ Hc Hin').
    - intros k n d Hkd. rewrite <- (HI k n d Hkd). unfold infos. cbn. rewrite lookup_insert_ne; [done|].
      intros Heq. apply Hnot. right. rewrite Heq. by apply (list_elem_of_fmap_2 maddr _ (k, n, d)). }
  assert (core w1 m (fun _ => 1) ({[cid]} ∪ list_to_set m.*1)) as Hc1 by (by split).
  assert (fresh w1 (maddr <$> (item <$> m)) (p + he_channel) cid 2) as Hf.
  { split; cbn; try done.
    - unfold he_channel. lia.
    - exists x1. rewrite lookup_insert_eq. split; [done|]. split; [done|]. split; [done|]. cbn. lia.
    - split; [done|]. split; [apply Z.eqb_neq; lia|done].
    - exists 1, (Some CHANNEL_DESTROY). split; [|lia]. replace (p + he_channel - he_channel) with p by lia. split; [done|]. split; [lia|done].
    - pose proof (length_channels _ _ _ _ Hc) as Hlen. unfold zlen in *. rewrite !length_fmap. lia. }
  destruct (hashtable_put_new w1 _ _ cid 2 (proj1 Hh1) Hf (lookup_out _ _ _ _ _ _ Hc1 Hcm ltac:(lia)))
    as (w' & c & dt & -> & HR' & Hl & Hhp & Hcl & Hi & Hie & _ & Hlh). bind_simpl.
  exists w'. split; [done|]. split; [|done].
  cbn [he_offset mux_client] in *. replace (p + he_channel - he_channel) with p in * by lia.
  assert (c = 1 /\ dt = Some CHANNEL_DESTROY) as [-> ->].
  { destruct Hl as (_ & _ & Hl). cbn in Hl. rewrite Ho in Hl. by injection Hl as <- <-. }
  assert (forall q, q ∈ m.*2 \/ q = p -> q ∈ (m ++ [(cid, p)]).*2) as Hsub by (rewrite fmap_app; set_solver).
  split; [|split; [apply Hsub; by right|rewrite Hcl; intros q Hq; apply Hsub; by apply Hd]].
  assert (forall c' q, (c', q) ∈ m ++ [(cid, p)] -> (c', q) ∈ m /\ q <> p \/ c' = cid /\ q = p) as Hcases.
  { intros c' q [Hin|Hin%list_elem_of_singleton]%elem_of_app; [left; split; [done|by eapply Hqp]|]. injection Hin as -> ->. by right. }
  assert (objs (w_heap w') = <[p := mkRc 2 (Some CHANNEL_DESTROY) mem_magic]> (objs (w_heap w)) /\ brk (w_heap w') = brk (w_heap w)) as [Hob Hbk]
    by (by rewrite Hhp).
  split; rewrite ?Hcl, ?Hbk, ?Hlh; try done.
  - split; [by rewrite !fmap_app|]. intros k n d ([c' q] & Heq & Hin)%list_elem_of_fmap. injection Heq as -> -> ->.
    destruct (Hcases _ _ Hin) as [[Hin' Hne]|[-> ->]]; [|done].
    rewrite Hi by (cbn; lia). destruct Hh1 as [_ HI]. apply HI. by apply (list_elem_of_fmap_2 item _ (c', q)).
  - intros c' q Hin. destruct (Hcases _ _ Hin) as [[Hin' _]|[-> ->]]; [by apply c_chan0|]. by exists ch.
  - intros c' q Hin. rewrite Hob. destruct (Hcases _ _ Hin) as [[Hin' Hne]|[-> ->]].
    + rewrite lookup_insert_ne, (proj2 (Z.eqb_neq _ _)) by done. by apply (c_obj0 c').
    + rewrite lookup_insert_eq, Z.eqb_refl. split; [done|]. split; [done|lia].
  - replace (list_to_set (m ++ [(cid, p)]).*1 : gset Z) with ({[cid]} ∪ list_to_set m.*1 : gset Z); [done|].
    rewrite fmap_app, list_to_set_app_L. cbn. set_solver.
  - intros c' Hc'. by apply elem_of_list_to_set.
  - rewrite fmap_app. apply NoDup_app. split; [done|]. split; [set_solver|apply NoDup_singleton].
  - rewrite fmap_app. apply NoDup_app. split; [done|]. split; [set_solver|apply NoDup_singleton].
  - destruct c_brk0 as (? & ? & Hb). split; [done|]. split; [done|]. intros c' q Hin.
    destruct (Hcases _ _ Hin) as [[Hin' _]|[-> ->]]; [by apply (Hb c')|done].
Qed.

End Inv.

End MuxInv.
