(* ===== verification/MuxSafe.v ===== *)
(** * Channel multiplexing: no call fails, nothing leaks

    Every operation of the multiplexer, run between two calls that agree on the
    channels, returns, and leaves them in agreement again. *)

From Stdlib Require Import ZArith Lia.
From stdpp Require Import prelude gmap sets list.
From S2P Require Import Prelude Bitset IdsHeap FlexBuffer RcMem Rings Hashtable HashtableThm HashtableApi Mux MuxRun MuxFraming MuxInv.

Module MuxSafe.
Import RcMem Rings Hashtable HashtableThm HashtableApi Mux MuxFraming MuxInv.

Section Safe.
Context {E : Type} {EV : Env E}.

Notation W := (hworld Z (MultiplexHandler E)).
Implicit Types w : W.

(** ** The invariant between two calls *)

(** The identifiers in use are among those whose release is defined. *)
Definition goods (m : list (Z * Z)) : Prop := forall cid, cid ∈ m.*1 -> good_id cid = true.

Definition ready w : Prop := exists m, inv w m /\ goods m.

(** The call returns, and the invariant holds again. *)
Definition safe {A} (st : A -> W) (o : outcome A) : Prop := exists a, o = Ok a /\ ready (st a).

Notation runs := (safe (fun w => w)).
Notation returns := (safe (fun r : Z * W => snd r)).

(** The channel of an object is in the table. *)
Lemma ready_channel w p ch : ready w -> chans (client w) !! p = Some ch -> exists m, inv w m /\ goods m /\ (id ch, p) ∈ m.
Proof.
  intros (m & Hi & Hg) Hch. exists m. split; [done|]. split; [done|]. destruct Hi as [Hc Hd].
  assert (p ∈ m.*2) as Hin by (apply Hd; by exists ch). apply list_elem_of_fmap in Hin as ([cid q] & -> & Hin). cbn in *.
  destruct (c_chan _ _ _ _ Hc cid q Hin) as (ch' & Hch' & Hid & _). rewrite Hch in Hch'. injection Hch' as <-. by rewrite Hid.
Qed.

Lemma settled_ok {A} (st : A -> W) a m : inv (st a) m -> goods m -> safe st (Ok a).
Proof. intros H1 H2. exists a. split; [done|]. by exists m. Qed.

Lemma safe_map {A B} (st : A -> W) (st' : B -> W) (f : A -> B) o : safe st o -> (forall a, st' (f a) = st a) ->
  safe st' (a ← o; Ok (f a)).
Proof. intros (a & -> & H) Hf. exists (f a). split; [done|]. by rewrite Hf. Qed.

(** Giving the reference back at the end of a call. *)
Lemma release_runs w m p : held w m p -> goods m -> runs (deref p w).
Proof. intros (w' & -> & Hi & _)%release_held Hg. by apply (settled_ok _ _ m). Qed.

Lemma goods_remove (m1 m2 : list (Z * Z)) c : goods (m1 ++ c :: m2) -> goods (m1 ++ m2).
Proof. intros H cid Hin. apply H. rewrite fmap_app in *. cbn. set_solver. Qed.

(** Taking the channel out of the table and giving the reference back. *)
Lemma remove_runs w m p cid : held w m p -> (cid, p) ∈ m -> goods m ->
  runs (w ← channels_remove cid w; deref p w).
Proof.
  intros Hh Hin Hg. pose proof (Hg cid (in_fst _ _ _ Hin)) as Hgood.
  apply list_elem_of_split in Hin as (m1 & m2 & ->).
  destruct (remove_held _ _ _ _ _ Hh) as (w1 & -> & Ho & _). bind_simpl.
  destruct (drop_orphan _ _ _ _ Ho Hgood) as (w2 & -> & Hi & _).
  apply (settled_ok _ _ (m1 ++ m2)); [done|by eapply goods_remove].
Qed.

(** Steps in the middle of a call that keep the reference. *)
Definition keeps_held (m : list (Z * Z)) (p : Z) (o : outcome W) : Prop := exists w', o = Ok w' /\ held w' m p.

Lemma keeps_bind m p o (f : W -> outcome W) : keeps_held m p o -> (forall w', held w' m p -> runs (f w')) -> runs (w ← o; f w).
Proof. intros (w' & -> & H) Hf. by apply Hf. Qed.

Lemma keeps_seq m p o (f : W -> outcome W) : keeps_held m p o -> (forall w', held w' m p -> keeps_held m p (f w')) -> keeps_held m p (w ← o; f w).
Proof. intros (w' & -> & H) Hf. by apply Hf. Qed.

Lemma keeps_same w m p o : held w m p -> (exists w', o = Ok w' /\ same_but_env w w') -> keeps_held m p o.
Proof. intros Hh (w' & -> & Hs). exists w'. split; [done|]. by apply (same_held w). Qed.

Lemma keeps_set w m p f : keeps f -> held w m p -> keeps_held m p (set_chan p f w).
Proof. intros Hk Hh. destruct (set_held w m p f Hk Hh) as (w' & ch & -> & H & _). by exists w'. Qed.

Lemma keeps_remote w m p : held w m p -> keeps_held m p (update_remote_timestamp p w).
Proof. apply update_remote_held. Qed.

Lemma keeps_close w m p reason : held w m p -> keeps_held m p (notify_channel_close p reason w).
Proof. intros Hh. apply (keeps_same w); [done|]. by apply notify_close_ok, (held_notifiable (n:=2) _ m). Qed.

Lemma keeps_opened w m p : held w m p -> keeps_held m p (notify_channel_opened p w).
Proof. intros Hh. apply (keeps_same w); [done|]. by apply notify_opened_ok, (held_notifiable (n:=2) _ m). Qed.

Lemma keeps_pending w m p : held w m p -> keeps_held m p (notify_channel_pending p w).
Proof. intros Hh. apply (keeps_same w); [done|]. by apply notify_pending_ok, (held_notifiable (n:=2) _ m). Qed.

Lemma keeps_resume w m p : held w m p -> keeps_held m p (notify_channel_resume p w).
Proof. intros Hh. apply (keeps_same w); [done|]. by apply notify_resume_ok, (held_notifiable (n:=2) _ m). Qed.

(** ** Packets for a channel of the table *)

Lemma held_chan_ok w m p : held w m p -> exists ch, chan p w = Ok ch /\ (id ch, p) ∈ m.
Proof. intros (cid & ch & Hin & _ & [<- _] & H & _)%held_chan. by exists ch. Qed.

(** Reporting the end of a channel and removing it. *)
Lemma close_runs w m p reason cid : held w m p -> (cid, p) ∈ m -> goods m ->
  runs (w ← (w ← notify_channel_close p reason w; channels_remove cid w); deref p w).
Proof.
  intros Hh Hin Hg. rewrite bind_assoc_ok. apply (keeps_bind m p); [by apply keeps_close|]. intros w' Hh'. by apply (remove_runs w' m).
Qed.

Lemma on_close_runs w m p : held w m p -> goods m -> runs (on_close p w).
Proof.
  intros Hh Hg. unfold on_close. destruct (held_chan_ok _ _ _ Hh) as (ch & -> & Hin). bind_simpl.
  rewrite <- bind_assoc_ok. by apply (close_runs w m).
Qed.

Lemma on_keep_alive_runs w m p : held w m p -> goods m -> runs (on_keep_alive p w).
Proof.
  intros Hh Hg. unfold on_keep_alive. pose proof (ask_same gettimeofday w) as Ha. destruct (ask gettimeofday w) as [t w1]. cbn [snd] in Ha.
  apply (keeps_bind m p); [apply keeps_set; [done|by apply (same_held w)]|]. intros w' Hh'. by apply (release_runs _ m).
Qed.

(** A change of the status, a callback and the time stamp. *)
Lemma status_runs w m p f (g : Z -> W -> outcome W) : keeps f -> (forall w', held w' m p -> keeps_held m p (g p w')) -> held w m p -> goods m ->
  runs (w ← set_chan p f w; w ← g p w; w ← update_remote_timestamp p w; deref p w).
Proof.
  intros Hk Hn Hh Hg. apply (keeps_bind m p); [by apply keeps_set|]. intros w1 H1. apply (keeps_bind m p); [by apply Hn|].
  intros w2 H2. apply (keeps_bind m p); [by apply keeps_remote|]. intros w3 H3. by apply (release_runs _ m).
Qed.

Lemma on_pending_runs w m p : held w m p -> goods m -> runs (on_pending p w).
Proof.
  intros Hh Hg. unfold on_pending. destruct (held_chan_ok _ _ _ Hh) as (ch & -> & Hin). bind_simpl.
  destruct (status ch); try by apply (release_runs _ m).
  apply (status_runs w m p _ notify_channel_pending); try done. intros w' H. by apply keeps_pending.
Qed.

Lemma on_resume_runs w m p : held w m p -> goods m -> runs (on_resume p w).
Proof.
  intros Hh Hg. unfold on_resume. destruct (held_chan_ok _ _ _ Hh) as (ch & -> & Hin). bind_simpl.
  destruct (status ch); try by apply (release_runs _ m).
  apply (status_runs w m p _ notify_channel_resume); try done. intros w' H. by apply keeps_resume.
Qed.

Lemma on_open_confirmation_runs w m p pb : held w m p -> goods m -> runs (on_open_confirmation p pb w).
Proof.
  intros Hh Hg. unfold on_open_confirmation. destruct (held_chan_ok _ _ _ Hh) as (ch & -> & Hin). bind_simpl.
  destruct (status ch); try by apply (release_runs _ m). destruct (negb (pb_remote pb =? 0)); [|by apply (close_runs w m)].
  rewrite bind_assoc_ok. eapply (keeps_bind m p); [by apply keeps_set|]. intros w1 H1. rewrite bind_assoc_ok.
  apply (keeps_bind m p); [by apply keeps_opened|]. intros w2 H2. apply (keeps_bind m p); [by apply keeps_remote|].
  intros w3 H3. by apply (release_runs _ m).
Qed.

Lemma data_effect_runs w m p data : held w m p -> goods m -> runs (data_effect p data w).
Proof.
  intros Hh Hg. unfold data_effect. destruct (held_chan_ok _ _ _ Hh) as (ch & Hch & Hin). rewrite Hch. bind_simpl.
  assert (exists c, callbacks_of ch w = Ok c) as [c Hc].
  { destruct (notifiable_callbacks w p (held_notifiable _ _ _ Hh)) as (ch' & c & E1 & E2). exists c. congruence. }
  rewrite Hc. bind_simpl.
  set (r := match channel_data c with Some f => ask (f (id ch) data) w | None => (true, w) end).
  assert (same_but_env w (snd r)) as Hs by (unfold r; destruct (channel_data c); [apply ask_same|apply same_refl]).
  destruct r as [ok w1]. cbn [snd] in Hs. assert (held w1 m p) as H1 by (by apply (same_held w)).
  assert (runs (w ← (if negb ok then w ← notify_channel_close p CloseReason_Error w1; channels_remove (id ch) w
                     else update_remote_timestamp p w1); deref p w)) as Hrun.
  { destruct ok; cbn [negb]; [|by apply (close_runs w1 m)].
    apply (keeps_bind m p); [by apply keeps_remote|]. intros w2 H2. by apply (release_runs _ m). }
  destruct (status ch); try done; by apply (release_runs _ m).
Qed.

Lemma send_refs n w m p ty opt local remote buf : 1 <= ty <= 7 -> sendable buf -> refs n w m p ->
  exists rc w', multiplex_handler_send_packet ty opt local remote buf w = Ok (rc, w') /\ refs n w' m p.
Proof.
  intros Ht Hb Hh. destruct (send_packet_ok ty opt local remote buf w Ht Hb) as (rc & w' & -> & Hs).
  exists rc, w'. split; [done|]. by apply (same_held w).
Qed.

Lemma send_held w m p ty opt local remote buf : 1 <= ty <= 7 -> sendable buf -> held w m p ->
  exists rc w', multiplex_handler_send_packet ty opt local remote buf w = Ok (rc, w') /\ held w' m p.
Proof. apply send_refs. Qed.

Lemma on_open_runs w m p pb payload : held w m p -> goods m -> runs (on_open p pb payload w).
Proof.
  intros Hh Hg. unfold on_open.
  destruct (notify_open_ok w p (if nonzero (pb_len pb) then Some payload else None) (held_notifiable _ _ _ Hh)) as (ok & w1 & -> & Hs1).
  bind_simpl. assert (held w1 m p) as H1 by (by apply (same_held w)).
  destruct (held_chan_ok _ _ _ H1) as (ch & -> & _). bind_simpl.
  destruct (send_held w1 m p PacketType_ChannelOpenConfirmation 0 (if ok then id ch else 0) (remote_id ch) None) as (rc & w2 & -> & H2);
    [unfold PacketType_ChannelOpenConfirmation; lia|done|done|]. bind_simpl.
  destruct (negb ok || (rc <? 0)).
  - rewrite bind_assoc_ok. apply (keeps_bind m p); [destruct ok; [by apply keeps_close|by exists w2]|]. intros w3 H3.
    destruct (held_chan_ok _ _ _ H3) as (ch3 & -> & Hin3). bind_simpl. by apply (remove_runs w3 m).
  - rewrite bind_assoc_ok. apply (keeps_bind m p); [by apply keeps_set|]. intros w3 H3. rewrite bind_assoc_ok.
    apply (keeps_bind m p); [by apply keeps_opened|]. intros w4 H4. apply (keeps_bind m p); [by apply keeps_remote|].
    intros w5 H5. by apply (release_runs _ m).
Qed.

Lemma dispatch_runs w m p pb data : held w m p -> goods m -> runs (dispatch pb data p w).
Proof.
  intros Hh Hg. unfold dispatch. repeat case_match; [by apply (on_open_runs _ m)|by apply (on_open_confirmation_runs _ m)|
    by apply (data_effect_runs _ m)|by apply (on_keep_alive_runs _ m)|by apply (on_pending_runs _ m)|by apply (on_resume_runs _ m)|
    by apply (on_close_runs _ m)|by apply (release_runs _ m)].
Qed.

(** ** New channels *)

(** The next identifier, when there is one, is among those whose release is
    defined. *)
Definition next_good w : bool :=
  match IdsHeap.ids_heap_alloc 0 (channel_ids (client w)) with Ok (cid, _) => (cid <? 0) || good_id cid | _ => false end.

Lemma goods_snoc m cid p : goods m -> good_id cid = true -> goods (m ++ [(cid, p)]).
Proof. intros Hm Hc c. rewrite fmap_app. cbn. intros [Hin| ->%list_elem_of_singleton]%elem_of_app; [by apply Hm|done]. Qed.

(** What becomes of the request for a new object. *)
Lemma birth w m size : inv w m -> he_channel < size -> exists ok w1 p w2,
  ask malloc_ok w = (ok, w1) /\ rc_zalloc ok size (Some CHANNEL_DESTROY) w1 = (p, w2) /\
  channel_ids (client w2) = channel_ids (client w) /\
  (p = 0 /\ inv w2 m \/ p <> 0 /\ nascent w2 m p).
Proof.
  intros Hi Hs. pose proof (ask_same malloc_ok w) as Ha. destruct (ask malloc_ok w) as [ok w1]. cbn [snd] in Ha.
  assert (inv w1 m) as H1 by (by apply (same_inv w)).
  assert (channel_ids (client w1) = channel_ids (client w)) as Hid by (by destruct Ha as [e ->]).
  destruct ok.
  - destruct (zalloc_nascent w1 m size H1 Hs) as (p & w2 & Hz & Hn & _). exists true, w1, p, w2. split; [done|]. split; [done|].
    split; [|right; split; [destruct (na_entry _ _ _ Hn); lia|done]].
    unfold rc_zalloc in Hz. destruct (rc_alloc true size (Some CHANNEL_DESTROY) w1) as [q w3] eqn:Er. unfold rc_alloc in Er. cbn in Er.
    injection Er as <- <-. destruct (_ =? 0); injection Hz as _ <-; done.
  - exists false, w1, 0, w1. split; [done|]. split; [done|]. split; [done|]. by left.
Qed.

(** From the identifier to the table. *)
Lemma enter w m p cid h (o : W -> outcome W) f ty remote : nascent w m p -> goods m -> next_good w = true ->
  IdsHeap.ids_heap_alloc 0 (channel_ids (client w)) = Ok (cid, h) -> 0 <= cid -> keeps f -> 0 <= ty < 3 ->
  (forall w', orphan w' m p cid -> has_entry w' p -> exists w'', o w' = Ok w'' /\ orphan w'' m p cid /\ has_entry w'' p) ->
  exists w', (w ← set_chan p (fun c => f (new_channel ty cid remote c)) (upd_client (set_ids h) w); w ← o w; channels_put p w) = Ok w' /\
    held w' (m ++ [(cid, p)]) p /\ goods (m ++ [(cid, p)]).
Proof.
  intros Hn Hg Hnext Ha Hc Hk Hty Ho.
  destruct (ids_alloc_nascent w m p Hn) as [(cid' & h' & Ha' & Hr & _ & _ & Hset)|[Ha' _]]; rewrite Ha in Ha'; [|injection Ha' as -> _; lia].
  injection Ha' as <- <-. destruct (Hset f ty remote Hk Hty) as (w1 & -> & Horph & He). bind_simpl.
  destruct (Ho w1 Horph He) as (w2 & -> & Horph2 & He2). bind_simpl.
  destruct (put_orphan _ _ _ _ Horph2 He2) as (w3 & -> & Hh & _). exists w3. split; [done|]. split; [done|].
  apply goods_snoc; [done|]. unfold next_good in Hnext. rewrite Ha in Hnext. destruct (Z.ltb_spec cid 0); [lia|done].
Qed.

(** An open request: refused, or a channel is in the table and held. *)
Definition settled (o : outcome (option Z * W)) : Prop :=
  (exists w' m, o = Ok (None, w') /\ inv w' m /\ goods m) \/
  (exists p w' m, o = Ok (Some p, w') /\ held w' m p /\ goods m).

Lemma accept_settled w m pb : inv w m -> goods m -> next_good w = true -> settled (accept_channel pb w).
Proof.
  intros Hi Hg Hnext. unfold accept_channel.
  assert (forall size, he_channel < size -> 0 <= pb_option pb < 3 -> settled (
    let '(ok, w) := ask malloc_ok w in
    let '(p, w) := rc_zalloc ok size (Some CHANNEL_DESTROY) w in
    if p =? 0 then Ok (None, w) else
      r ← IdsHeap.ids_heap_alloc 0 (channel_ids (client w));
      let '(cid, ids) := r in
      let w := upd_client (set_ids ids) w in
      if cid <? 0 then
        ch ← chan p w;
        r ← multiplex_handler_send_packet PacketType_ChannelOpenConfirmation 0 0 (remote_id ch) None w;
        w ← deref p (snd r);
        Ok (None, w)
      else
        w ← set_chan p (new_channel (pb_option pb) cid (pb_remote pb)) w;
        w ← update_remote_timestamp p w;
        w ← channels_put p w;
        Ok (Some p, w))) as Hmain.
  { intros size Hs Hty. destruct (birth w m size Hi Hs) as (ok & w1 & p & w2 & -> & -> & Hids & [[-> H2]|[Hp Hn]]); [left; by exists w2, m|].
    rewrite (proj2 (Z.eqb_neq _ _) Hp). assert (next_good w2 = true) as Hnext2 by (unfold next_good in *; by rewrite Hids).
    destruct (ids_alloc_nascent w2 m p Hn) as [(cid & h & Ha & Hr & _)|[Ha _]].
    - rewrite Ha. bind_simpl. destruct (Z.ltb_spec cid 0); [lia|].
      destruct (enter w2 m p cid h (update_remote_timestamp p) (fun c => c) (pb_option pb) (pb_remote pb)) as (w3 & Hw3 & Hh & Hg'); try done.
      { intros w' Ho He. destruct (update_remote_orphan w' m p cid Ho) as (w'' & -> & Ho' & He'). eauto. }
      assert (forall (F : W -> outcome (option Z * W)), (w0 ← set_chan p (new_channel (pb_option pb) cid (pb_remote pb)) (upd_client (set_ids h) w2);
        w1 ← update_remote_timestamp p w0; w4 ← channels_put p w1; F w4) = F w3) as ->.
      { intros F. change (F w3) with (Ok w3 ≫= F). rewrite <- Hw3, bind_assoc_ok. apply bind_cong. intros a. by rewrite bind_assoc_ok. }
      right. by exists p, w3, (m ++ [(cid, p)]).
    - rewrite Ha. bind_simpl. change (-1 <? 0) with true. cbn iota.
      assert (upd_client (set_ids (channel_ids (client w2))) w2 = w2) as -> by (destruct w2 as [? ? ? []]; done).
      unfold chan. rewrite (na_chan _ _ _ Hn). bind_simpl.
      destruct (send_packet_ok PacketType_ChannelOpenConfirmation 0 0 (remote_id zero_channel) None w2) as (rc & w3 & -> & Hs3);
        [unfold PacketType_ChannelOpenConfirmation; lia|done|]. bind_simpl. cbn [snd].
      destruct (drop_nascent w3 m p (nascent_same _ _ _ _ Hs3 Hn)) as (w4 & -> & Hi4 & _). left. by exists w4, m. }
  assert (settled (Ok (None, w))) as Hno by (left; by exists w, m).
  destruct (Z.eqb_spec (pb_option pb) ChannelType_UDP_PortForwarding) as [Ht|_].
  { destruct (worker (client w)); [|done]. by apply Hmain; [|rewrite Ht]. }
  destruct (Z.eqb_spec (pb_option pb) ChannelType_TCP_PortForwarding) as [Ht|_].
  { destruct (worker (client w) && reliable (client w)); [|done]. by apply Hmain; [|rewrite Ht]. }
  destruct (Z.eqb_spec (pb_option pb) ChannelType_User) as [Ht|_]; [|done].
  by apply Hmain; [|rewrite Ht].
Qed.

(** ** Received packets *)

(** A channel by its identifier. *)
Lemma get_cases w m cid : inv w m -> 0 < cid < 2 ^ 31 ->
  (exists p w', channels_get cid w = Ok (p, w') /\ p <> 0 /\ held w' m p /\ (cid, p) ∈ m) \/
  (channels_get cid w = Ok (0, w) /\ cid ∉ m.*1).
Proof.
  intros Hi Hr. destruct (decide (cid ∈ m.*1)) as [Hin|Hout]; [left|right; split; [by apply (get_out w m)|done]].
  apply list_elem_of_fmap in Hin as ([c p] & -> & Hin). cbn [fst] in *.
  destruct (get_in w m c p Hi Hin) as (w' & -> & Hh & _). exists p, w'. split; [done|]. split; [|done].
  destruct Hi as [Hc _]. by apply (c_obj _ _ _ _ Hc c p Hin).
Qed.

(** The header names a packet that the code can take: not one for channel 0, and
    with tracing on, not one of a type without a name. *)
Definition acceptable (d : bytes) w : bool :=
  match read_header (ztake 8 d) with
  | Ok pb =>
      negb (zlen d =? pb_len pb + 8) ||
      ((pb_remote pb =? 0) && (pb_local pb =? 0) && (pb_type pb =? PacketType_ChannelData)) ||
      (negb (trace (client w) && (7 <? pb_type pb)) &&
       (if pb_type pb =? PacketType_ChannelOpen then next_good w else 0 <? pb_local pb))
  | _ => false
  end.

Lemma local_range d pb : bytes_ok d -> read_header (ztake 8 d) = Ok pb -> 0 <= pb_local pb < 2 ^ 31.
Proof.
  intros Hb Hr. destruct (ztake 8 d) as [|a1 [|a2 [|a3 [|a4 [|a5 [|a6 [|a7 [|a8 [|]]]]]]]]] eqn:Ed; try done.
  injection Hr as <-. cbn. assert (bytes_ok (ztake 8 d)) as Hb' by (by apply Forall_take).
  rewrite Ed in Hb'. apply Forall_cons in Hb' as [_ Hb']. apply Forall_cons in Hb' as [_ Hb'].
  apply Forall_cons in Hb' as [H3 Hb']. apply Forall_cons in Hb' as [H4 _]. lia.
Qed.

Lemma packet_runs w m d : inv w m -> goods m -> bytes_ok d -> acceptable d w = true -> runs (packet_effect d w).
Proof.
  intros Hi Hg Hb Ha. unfold packet_effect. unfold acceptable in Ha.
  destruct (read_header (ztake 8 d)) as [pb| | |] eqn:Eh; try done. bind_simpl.
  destruct (negb (zlen d =? pb_len pb + 8)); [by apply (settled_ok _ _ m)|]. cbn [orb] in Ha.
  destruct ((pb_remote pb =? 0) && (pb_local pb =? 0) && (pb_type pb =? PacketType_ChannelData));
    [apply (settled_ok _ _ m); [apply (same_inv w); [apply tell_same|done]|done]|]. cbn [orb] in Ha.
  apply andb_true_iff in Ha as [Ht Ha]. unfold trace_packet. destruct (trace (client w) && (7 <? pb_type pb)); [done|]. bind_simpl.
  assert (settled (target pb w)) as [(w' & m' & -> & Hi' & Hg')|(p & w' & m' & -> & Hh & Hg')].
  { unfold target. destruct (pb_type pb =? PacketType_ChannelOpen); [by apply (accept_settled w m)|].
    apply Z.ltb_lt in Ha. pose proof (local_range _ _ Hb Eh).
    destruct (get_cases w m (pb_local pb) Hi ltac:(lia)) as [(p & w' & -> & Hp & Hh & _)|[-> _]]; bind_simpl; cbn [fst snd].
    - right. rewrite (proj2 (Z.eqb_neq _ _) Hp). by exists p, w', m.
    - left. by exists w, m. }
  - by apply (settled_ok _ _ m').
  - by apply (dispatch_runs w' m').
Qed.

(** ** Calls of the application *)

Lemma close_channel_returns w m cid : inv w m -> goods m -> 0 < cid < 2 ^ 31 -> returns (multiplex_handler_close_channel cid w).
Proof.
  intros Hi Hg Hr. unfold multiplex_handler_close_channel. rewrite (proj2 (Z.ltb_lt _ _)) by lia. cbn [c_assert]. bind_simpl.
  destruct (get_cases w m cid Hi Hr) as [(p & w1 & -> & Hp & Hh & Hin)|[-> _]]; bind_simpl; [|by apply (settled_ok _ _ m)].
  rewrite (proj2 (Z.eqb_neq _ _) Hp). destruct (held_chan_ok _ _ _ Hh) as (ch & -> & _). bind_simpl.
  assert (keeps_held m p (if negb (remote_id ch =? 0) then
    r ← multiplex_handler_send_packet PacketType_ChannelClose 0 (id ch) (remote_id ch) None w1; Ok (snd r) else Ok w1)) as (w2 & -> & H2).
  { destruct (negb (remote_id ch =? 0)); [|by exists w1].
    destruct (send_held w1 m p PacketType_ChannelClose 0 (id ch) (remote_id ch) None) as (rc & w2 & -> & H2);
      [unfold PacketType_ChannelClose; lia|done|done|]. by exists w2. }
  bind_simpl. destruct (close_runs w2 m p CloseReason_Normal cid H2 Hin Hg) as (w3 & H3 & Hr3). rewrite bind_assoc_ok in H3.
  apply bind_ok in H3 as (w4 & -> & H3). bind_simpl. apply bind_ok in H3 as (w5 & -> & H3). bind_simpl. rewrite H3. by exists (0, w3).
Qed.

(** Ends that only give the reference back. *)
Lemma release_returns w m p (rc : Z) : held w m p -> goods m -> returns (w ← deref p w; Ok (rc, w)).
Proof. intros Hh Hg. apply (safe_map (fun w => w)); [by apply (release_runs _ m)|done]. Qed.

Lemma flow_control_returns w m line ty cid : 1 <= ty <= 7 -> inv w m -> goods m -> 0 < cid < 2 ^ 31 -> returns (flow_control line ty cid w).
Proof.
  intros Hty Hi Hg Hr. unfold flow_control. rewrite (proj2 (Z.ltb_lt _ _)) by lia. cbn [c_assert]. bind_simpl.
  destruct (get_cases w m cid Hi Hr) as [(p & w1 & -> & Hp & Hh & Hin)|[-> _]]; bind_simpl; [|by apply (settled_ok _ _ m)].
  rewrite (proj2 (Z.eqb_neq _ _) Hp). destruct (held_chan_ok _ _ _ Hh) as (ch & -> & _). bind_simpl.
  destruct (not_open ch); [by apply (release_returns _ m)|]. destruct (remote_id ch =? 0); [by apply (release_returns _ m)|].
  destruct (send_held w1 m p ty 0 (id ch) (remote_id ch) None Hty I Hh) as (rc & w2 & -> & H2). bind_simpl.
  assert (keeps_held m p (if rc =? 0 then update_local_timestamp p w2 else Ok w2)) as (w3 & -> & H3)
    by (destruct (rc =? 0); [by apply update_local_held|by exists w2]).
  bind_simpl. by apply (release_returns _ m).
Qed.

Lemma write_channel_returns w m cid buf : inv w m -> goods m -> 0 <= cid < 2 ^ 31 -> sendable (Some buf) ->
  returns (multiplex_handler_write_channel cid buf w).
Proof.
  intros Hi Hg Hr Hb. unfold multiplex_handler_write_channel. rewrite (proj2 (Z.leb_le _ _)) by lia. cbn [c_assert]. bind_simpl.
  destruct (Z.eqb_spec cid 0) as [->|Hne].
  { destruct (send_packet_ok PacketType_ChannelData 0 0 0 (Some buf) w) as (rc & w' & -> & Hs); [unfold PacketType_ChannelData; lia|done|].
    apply (settled_ok _ _ m); [by apply (same_inv w)|done]. }
  destruct (get_cases w m cid Hi ltac:(lia)) as [(p & w1 & -> & Hp & Hh & Hin)|[-> _]]; bind_simpl; [|by apply (settled_ok _ _ m)].
  rewrite (proj2 (Z.eqb_neq _ _) Hp). destruct (held_chan_ok _ _ _ Hh) as (ch & -> & _). bind_simpl.
  destruct (not_open ch); [by apply (release_returns _ m)|]. destruct (remote_id ch =? 0); [by apply (release_returns _ m)|].
  destruct (send_held w1 m p PacketType_ChannelData 0 (id ch) (remote_id ch) (Some buf)) as (rc & w2 & -> & H2);
    [unfold PacketType_ChannelData; lia|done|done|]. bind_simpl.
  assert (keeps_held m p (if 0 <=? rc then update_local_timestamp p w2 else Ok w2)) as (w3 & -> & H3)
    by (destruct (0 <=? rc); [by apply update_local_held|by exists w2]).
  bind_simpl. by apply (release_returns _ m).
Qed.

(** The size of the object, when the type of channel is open to the caller. *)
Definition open_allowed (ty : Z) w : bool :=
  if ty =? ChannelType_UDP_PortForwarding then portforwarding (client w)
  else if ty =? ChannelType_TCP_PortForwarding then portforwarding (client w) && reliable (client w)
  else ty =? ChannelType_User.

Definition cookie_ok (cookie : option bytes) : Prop := match cookie with Some c => zlen c < 2 ^ 62 | None => True end.

(** The last part of [multiplex_handler_open_channel]. *)
Definition send_open (p cid ty : Z) (cookie : option bytes) w : outcome (Z * W) :=
  buf ← match cookie with
        | Some c =>
            b ← FlexBuffer.flex_buffer_from 0 FlexBuffer.FLEX_PADDING_LEN (c ++ [0]) (zlen c + 1);
            Ok (Some b)
        | None => Ok None
        end;
  ch ← chan p w;
  r ← multiplex_handler_send_packet PacketType_ChannelOpen ty (id ch) (remote_id ch) buf w;
  let '(rc, w) := r in
  w ← deref p w;
  if rc <? 0 then
    w ← channels_remove cid w;
    Ok (rc, w)
  else Ok (cid, w).

Lemma send_open_returns w m p cid ty cookie : held w m p -> (cid, p) ∈ m -> goods m -> cookie_ok cookie ->
  returns (send_open p cid ty cookie w).
Proof.
  intros Hh Hin Hg Hck. unfold send_open.
  assert (exists buf, match cookie with
    | Some c => b ← FlexBuffer.flex_buffer_from 0 FlexBuffer.FLEX_PADDING_LEN (c ++ [0]) (zlen c + 1); Ok (Some b)
    | None => Ok None end = Ok buf /\ sendable buf) as (buf & -> & Hb).
  { destruct cookie as [c|]; [|by exists None]. cbn in Hck. pose proof (zlen_nonneg c).
    destruct (FlexBuffer.flex_buffer_from_spec 0 FlexBuffer.FLEX_PADDING_LEN (c ++ [0])) as (b & Hb & Hw & _ & Ho & _);
      [by vm_compute|rewrite zlen_app; change (zlen [0]) with 1; unfold FlexBuffer.FLEX_PADDING_LEN; lia|].
    rewrite zlen_app in Hb. change (zlen [0]) with 1 in Hb. rewrite Hb. bind_simpl. exists (Some b). split; [done|].
    split; [done|]. rewrite Ho. unfold FlexBuffer.FLEX_PADDING_LEN. lia. }
  bind_simpl. destruct (held_chan_ok _ _ _ Hh) as (ch & -> & _). bind_simpl.
  destruct (send_held w m p PacketType_ChannelOpen ty (id ch) (remote_id ch) buf) as (rc & w1 & -> & H1);
    [unfold PacketType_ChannelOpen; lia|done|done|]. bind_simpl.
  destruct (release_held _ _ _ H1) as (w2 & -> & Hi2 & _). bind_simpl.
  destruct (rc <? 0); [|by apply (settled_ok _ _ m)].
  pose proof (Hg cid (in_fst _ _ _ Hin)) as Hgood. apply list_elem_of_split in Hin as (m1 & m2 & ->).
  destruct (remove_inv _ _ _ _ _ Hi2 Hgood) as (w3 & -> & Hi3 & _). bind_simpl.
  apply (settled_ok _ _ (m1 ++ m2)); [done|by eapply goods_remove].
Qed.

Lemma open_channel_returns w m ty cookie tmo s : inv w m -> goods m -> next_good w = true -> open_allowed ty w = true -> cookie_ok cookie ->
  returns (multiplex_handler_open_channel ty cookie tmo s w).
Proof.
  intros Hi Hg Hnext Hall Hck. unfold multiplex_handler_open_channel.
  assert (exists size, (if ty =? ChannelType_UDP_PortForwarding then _ ← c_assert 655 (portforwarding (client w)); Ok sizeof_UdpChannel
    else if ty =? ChannelType_TCP_PortForwarding then _ ← c_assert 658 (portforwarding (client w));
           _ ← c_assert 659 (reliable (client w)); Ok sizeof_TcpChannel
    else if ty =? ChannelType_User then Ok sizeof_Channel else AssertFail 664) = Ok size /\ he_channel < size /\ 0 <= ty < 3) as (size & -> & Hs & Hty).
  { unfold open_allowed in Hall. destruct (Z.eqb_spec ty ChannelType_UDP_PortForwarding) as [->|]; [rewrite Hall; by eexists|].
    destruct (Z.eqb_spec ty ChannelType_TCP_PortForwarding) as [->|]; [apply andb_true_iff in Hall as [-> ->]; by eexists|].
    rewrite Hall. apply Z.eqb_eq in Hall as ->. by eexists. }
  bind_simpl. destruct (birth w m size Hi Hs) as (ok & w1 & p & w2 & -> & -> & Hids & [[-> H2]|[Hp Hn]]); [by apply (settled_ok _ _ m)|].
  rewrite (proj2 (Z.eqb_neq _ _) Hp). assert (next_good w2 = true) as Hnext2 by (unfold next_good in *; by rewrite Hids).
  destruct (ids_alloc_nascent w2 m p Hn) as [(cid & h & Ha & Hr & _)|[Ha _]]; rewrite Ha; bind_simpl.
  - destruct (Z.ltb_spec cid 0); [lia|].
    set (o := fun w' : W => w ← update_remote_timestamp p w'; if ty =? ChannelType_TCP_PortForwarding then set_chan p (with_sock s) w else Ok w).
    destruct (enter w2 m p cid h o (with_timeout tmo) ty 0) as (w3 & Hw3 & Hh & Hg'); try done.
    { intros w' Ho He. unfold o. destruct (update_remote_orphan w' m p cid Ho) as (w'' & -> & Ho' & He'). bind_simpl.
      destruct (ty =? ChannelType_TCP_PortForwarding); [|eauto].
      destruct (set_orphan w'' m p cid (with_sock s)) as (w3 & -> & Ho3 & He3); [done|done|]. exists w3. auto. }
    assert (returns (send_open p cid ty cookie w3)) as Hlast by (apply (send_open_returns w3 (m ++ [(cid, p)])); [done|set_solver|done|done]).
    apply bind_ok in Hw3 as (w4 & -> & Hw3). bind_simpl. apply bind_ok in Hw3 as (w5 & Ho5 & Hw3). unfold o in Ho5.
    apply bind_ok in Ho5 as (w6 & -> & Ho6). bind_simpl. rewrite Ho6. bind_simpl. rewrite Hw3. bind_simpl. exact Hlast.
  - change (-1 <? 0) with true. cbn iota.
    assert (upd_client (set_ids (channel_ids (client w2))) w2 = w2) as -> by (destruct w2 as [? ? ? []]; done).
    destruct (drop_nascent w2 m p Hn) as (w4 & -> & Hi4 & _). bind_simpl. by apply (settled_ok _ _ m).
Qed.

(** ** The loops over the table *)

Notation maddr := (@addr Z (MultiplexHandler E) (mux_client E)).

(** The iterator stands before the channels [m2] of [m1 ++ m2]. *)
Definition before w (it : HashtableIterator) (m2 : list (Z * Z)) : Prop := stands w it (maddr <$> (item <$> m2)).

Lemma stands_tab w w' it l : tab w' = tab w -> stands w it l -> stands w' it l.
Proof. unfold stands. by intros ->. Qed.

Lemma iterate_ok w m : inv w m -> exists it, channels_iterate w = Ok it /\ before w it m.
Proof. intros [Hc _]. apply hashtable_iterate_spec, (c_tab _ _ _ _ Hc). Qed.

Lemma inv_rep w m1 m2 : inv w (m1 ++ m2) -> rep w ((maddr <$> (item <$> m1)) ++ (maddr <$> (item <$> m2))).
Proof. intros [Hc _]. pose proof (proj1 (c_tab _ _ _ _ Hc)) as H. by rewrite !fmap_app in H. Qed.

Lemma has_next_ok w m1 m2 it : inv w (m1 ++ m2) -> before w it m2 ->
  channels_iterator_has_next it w = Ok (match m2 with [] => false | _ => true end).
Proof. intros Hi Hb. unfold channels_iterator_has_next. rewrite (has_next_spec _ _ _ _ (inv_rep _ _ _ Hi) Hb). by destruct m2. Qed.

(** The next channel is held. *)
Lemma next_ok w m1 cid p m2 it : inv w (m1 ++ (cid, p) :: m2) -> before w it ((cid, p) :: m2) ->
  exists it' w', channels_iterator_next it w = Ok (1, p, it', w') /\ held w' (m1 ++ (cid, p) :: m2) p /\
    current it' = p + he_channel /\ before w' it' m2 /\ p <> 0.
Proof.
  intros Hi Hb. pose proof Hi as [Hc Hd]. assert ((cid, p) ∈ m1 ++ (cid, p) :: m2) as Hin by set_solver.
  assert (p + he_channel - he_channel = p) as Hpp by lia.
  pose proof (core_live _ _ _ _ cid p Hc Hin) as Hl.
  destruct (iterator_next_spec w (maddr <$> (item <$> m1)) (p + he_channel) (maddr <$> (item <$> m2)) it 1 (Some CHANNEL_DESTROY))
    as (it' & w' & Hn & Hw' & HR & Hcur & Hs); [apply (inv_rep _ _ _ Hi)|exact Hb| |lia|].
  { cbn [he_offset mux_client]. by rewrite Hpp. }
  cbn [he_offset mux_client] in Hn, Hw'. rewrite Hpp in Hn, Hw'. exists it', w'. split; [exact Hn|].
  split; [|split; [done|]; split; [done|apply Hl]].
  split; [|split; [by eapply in_snd|by rewrite Hw']].
  apply (core_recount w _ _ (fun _ => 1)); try (by rewrite Hw'); [done|].
  intros c q Hq. rewrite Hw'. cbn. destruct (Z.eqb_spec q p) as [->|Hne].
  - rewrite lookup_insert_eq. split; [done|lia].
  - rewrite lookup_insert_ne by done. split; [by apply (c_obj _ _ _ _ Hc c)|lia].
Qed.

(** Taking it out through the iterator. *)
Lemma iterator_remove_ok w m1 cid p m2 it : held w (m1 ++ (cid, p) :: m2) p -> before w it m2 -> current it = p + he_channel ->
  exists it' w', channels_iterator_remove it w = Ok (1, it', w') /\ orphan w' (m1 ++ m2) p cid /\ before w' it' m2.
Proof.
  intros (Hc & Hp & Hd) Hb Hcur. assert ((cid, p) ∈ m1 ++ (cid, p) :: m2) as Hin by set_solver.
  assert (p + he_channel - he_channel = p) as Hpp by lia.
  pose proof (core_live _ _ _ _ cid p Hc Hin) as Hl. cbn beta in Hl. rewrite Z.eqb_refl in Hl.
  pose proof (core_range _ _ _ _ cid Hc (in_fst _ _ _ Hin)) as Hr.
  pose proof (proj1 (c_tab _ _ _ _ Hc)) as HR. rewrite !fmap_app, !fmap_cons in HR.
  destruct (iterator_remove_spec w (maddr <$> (item <$> m1)) (p + he_channel) (maddr <$> (item <$> m2)) it 2 (Some CHANNEL_DESTROY) (client w))
    as (it' & w' & Hrem & HR' & Hs & Ho & Hbk & Hcl & Hinf & Hlh); [exact HR|exact Hb|exact Hcur| | |lia|].
  { cbn [he_offset mux_client]. by rewrite Hpp. }
  { intros k n h Hk. destruct (core_entry _ _ _ _ _ _ Hc Hin) as [_ Hi]. rewrite Hi in Hk. injection Hk as <- <- _ _. split; [|lia]. apply Z.eqb_neq. lia. }
  cbn [he_offset mux_client] in *. rewrite Hpp in *. exists it', w'. split; [exact Hrem|]. split; [|exact Hs].
  destruct Hl as (_ & _ & Hl).
  eapply (taken_orphan w); [done|intros q Hq; cbn; by rewrite (proj2 (Z.eqb_neq _ _))|done|by rewrite !fmap_app| | |done|done|done|done].
  - rewrite Ho. unfold drop_ref. rewrite lookup_partial_alter_eq. cbn in Hl. rewrite Hl. done.
  - intros q Hq. rewrite Ho. by rewrite drop_ref_ne.
Qed.

Lemma same_tab w w' : same_but_env w w' -> tab w' = tab w.
Proof. by intros [e ->]. Qed.

(** Dropping the last reference keeps the iterator's place. *)
Lemma drop_before w m p cid it m2 : orphan w m p cid -> good_id cid = true -> before w it m2 ->
  exists w', deref p w = Ok w' /\ inv w' m /\ before w' it m2.
Proof.
  intros Ho Hg Hb. destruct (drop_orphan _ _ _ _ Ho Hg) as (w' & -> & Hi & _ & Ht). exists w'. split; [done|]. split; [done|].
  by apply (stands_tab w).
Qed.

(** All channels are closed. *)
Lemma close_loop_spec reason m1 : forall m2 w it fuel, inv w (m1 ++ m2) -> goods (m1 ++ m2) -> before w it m2 -> (length m2 <= fuel)%nat ->
  exists w', close_loop fuel reason it w = Ok w' /\ inv w' m1.
Proof.
  intros m2. induction m2 as [|[cid p] m2 IH]; intros w it fuel Hi Hg Hb Hf.
  - exists w. rewrite app_nil_r in Hi. split; [|done]. rewrite <- (app_nil_r m1) in Hi.
    destruct fuel; cbn [close_loop]; by rewrite (has_next_ok _ _ _ _ Hi Hb).
  - cbn in Hf. destruct fuel as [|fuel]; [lia|]. cbn [close_loop]. rewrite (has_next_ok _ _ _ _ Hi Hb). bind_simpl. cbn [negb].
    destruct (next_ok _ _ _ _ _ _ Hi Hb) as (it1 & w1 & -> & Hh & Hcur & Hb1 & Hp0). bind_simpl. change (1 =? 0) with false. change (1 =? -1) with false. cbn iota.
    destruct (iterator_remove_ok _ _ _ _ _ _ Hh Hb1 Hcur) as (it2 & w2 & -> & Ho & Hb2). bind_simpl.
    destruct (notify_close_ok w2 p reason (orphan_notifiable _ _ _ _ Ho)) as (w3 & -> & Hs). bind_simpl.
    assert (good_id cid = true) as Hgood by (apply Hg; rewrite fmap_app; set_solver).
    destruct (drop_before w3 (m1 ++ m2) p cid it2 m2) as (w4 & -> & Hi4 & Hb4);
      [by apply (same_orphan w2)|done|apply (stands_tab w2); [by apply same_tab|done]|]. bind_simpl.
    apply IH; [done|by eapply goods_remove|done|lia].
Qed.

Lemma count_channels w m : inv w m -> Z.to_nat (count (tab w)) = length m.
Proof.
  intros [Hc _]. destruct (c_tab _ _ _ _ Hc) as [[Bs []] _]. rewrite rp_count0. unfold zlen. rewrite !length_fmap. lia.
Qed.

Lemma close_channels_spec w m reason : inv w m -> goods m ->
  exists w', multiplex_handler_close_channels reason w = Ok w' /\ inv w' [].
Proof.
  intros Hi Hg. unfold multiplex_handler_close_channels. destruct (iterate_ok w m Hi) as (it & -> & Hb). bind_simpl.
  rewrite (count_channels _ _ Hi). by apply (close_loop_spec reason [] m).
Qed.

(** One channel of the keep-alive check: it stays, or it is gone. *)
Lemma check_channel_spec now w m1 cid p m2 it : held w (m1 ++ (cid, p) :: m2) p -> goods (m1 ++ (cid, p) :: m2) ->
  before w it m2 -> current it = p + he_channel ->
  exists it' w' m1', check_channel now p it w = Ok (it', w') /\ inv w' (m1' ++ m2) /\ goods (m1' ++ m2) /\ before w' it' m2.
Proof.
  intros Hh Hg Hb Hcur. unfold check_channel. destruct (held_chan_ok _ _ _ Hh) as (ch & -> & _). bind_simpl.
  assert (exists it' w' m1', (w ← notify_channel_close p CloseReason_Timeout w;
    r ← channels_iterator_remove it w; let '(_, it, w) := r in w ← deref p w; Ok (it, w)) = Ok (it', w') /\
    inv w' (m1' ++ m2) /\ goods (m1' ++ m2) /\ before w' it' m2) as Hrem.
  { destruct (notify_close_ok w p CloseReason_Timeout (held_notifiable _ _ _ Hh)) as (w1 & -> & Hs). bind_simpl.
    destruct (iterator_remove_ok w1 m1 cid p m2 it) as (it2 & w2 & -> & Ho & Hb2);
      [by apply (same_held w)|apply (stands_tab w); [by apply same_tab|done]|done|]. bind_simpl.
    assert (good_id cid = true) as Hgood by (apply Hg; rewrite fmap_app; set_solver).
    destruct (drop_before w2 (m1 ++ m2) p cid it2 m2 Ho Hgood Hb2) as (w3 & -> & Hi3 & Hb3). bind_simpl.
    exists it2, w3, m1. split; [done|]. split; [done|]. split; [by eapply goods_remove|done]. }
  case_match; [exact Hrem|]. case_match; [exact Hrem|]. clear Hrem.
  assert (exists w1, (if KEEPALIVE_INTERVAL <=? interval now (local_timestamp ch) then
    r ← multiplex_handler_send_packet PacketType_ChannelKeepAlive 0 (id ch) (remote_id ch) None w;
    let '(rc, w) := r in if rc =? 0 then set_chan p (with_local_timestamp now) w else Ok w else Ok w) = Ok w1 /\
    held w1 (m1 ++ (cid, p) :: m2) p /\ tab w1 = tab w) as (w1 & -> & H1 & Ht1).
  { destruct (KEEPALIVE_INTERVAL <=? interval now (local_timestamp ch)); [|by exists w].
    destruct (send_packet_ok PacketType_ChannelKeepAlive 0 (id ch) (remote_id ch) None w) as (rc & w1 & -> & Hs);
      [unfold PacketType_ChannelKeepAlive; lia|done|]. bind_simpl. pose proof (same_held _ _ _ _ Hs Hh) as H1.
    destruct (rc =? 0); [|exists w1; split; [done|]; split; [done|by apply same_tab]].
    destruct (set_held w1 _ p (with_local_timestamp now) ltac:(done) H1) as (w2 & ch2 & -> & H2 & _ & _ & _ & Ht2).
    exists w2. split; [done|]. split; [done|]. by rewrite Ht2, (same_tab w w1). }
  bind_simpl. destruct (release_held _ _ _ H1) as (w2 & -> & Hi2 & _ & Ht2). bind_simpl.
  exists it, w2, (m1 ++ [(cid, p)]). rewrite <- app_assoc. split; [done|]. split; [done|]. split; [done|].
  apply (stands_tab w); [congruence|done].
Qed.

Lemma checkpoint_loop_spec now : forall m2 m1 w it fuel, inv w (m1 ++ m2) -> goods (m1 ++ m2) -> before w it m2 -> (length m2 <= fuel)%nat ->
  runs (checkpoint_loop fuel now it w).
Proof.
  intros m2. induction m2 as [|[cid p] m2 IH]; intros m1 w it fuel Hi Hg Hb Hf.
  - destruct fuel; cbn [checkpoint_loop]; rewrite (has_next_ok _ _ _ _ Hi Hb); by apply (settled_ok _ _ (m1 ++ [])).
  - cbn in Hf. destruct fuel as [|fuel]; [lia|]. cbn [checkpoint_loop]. rewrite (has_next_ok _ _ _ _ Hi Hb). bind_simpl. cbn [negb].
    destruct (next_ok _ _ _ _ _ _ Hi Hb) as (it1 & w1 & -> & Hh & Hcur & Hb1 & Hp0). bind_simpl. change (1 =? 0) with false. change (1 =? -1) with false. cbn iota.
    destruct (check_channel_spec now _ _ _ _ _ _ Hh Hg Hb1 Hcur) as (it2 & w2 & m1' & -> & Hi2 & Hg2 & Hb2). bind_simpl.
    apply (IH m1'); [done|done|done|lia].
Qed.

Lemma checkpoint_runs w m : inv w m -> goods m -> safe snd (multiplex_handler_checkpoint w).
Proof.
  intros Hi Hg. unfold multiplex_handler_checkpoint. pose proof (ask_same gettimeofday w) as Ha. destruct (ask gettimeofday w) as [now w1]. cbn [snd] in Ha.
  assert (inv w1 m) as H1 by (by apply (same_inv w)). destruct (iterate_ok w1 m H1) as (it & -> & Hb). bind_simpl.
  rewrite (count_channels _ _ H1). apply (safe_map (fun w => w)); [|done]. by apply (checkpoint_loop_spec now m []).
Qed.

(** ** Everything that can happen to the multiplexer *)

Inductive mop :=
| Packet (buf : FlexBuffer)                                 (* a packet from below, on a datagram transport *)
| OpenChannel (ty : Z) (cookie : option bytes) (tmo s : Z)
| CloseChannel (cid : Z)
| WriteChannel (cid : Z) (buf : FlexBuffer)
| PendChannel (cid : Z)
| ResumeChannel (cid : Z)
| Checkpoint                                                (* the keep-alive timer *)
| StateChanged (state : Z)
| Stop (error : Z).

Definition exec (o : mop) w : outcome W :=
  match o with
  | Packet buf => r ← multiplex_handler_notify_packet buf w; Ok (fst r)
  | OpenChannel ty cookie tmo s => r ← multiplex_handler_open_channel ty cookie tmo s w; Ok (snd r)
  | CloseChannel cid => r ← multiplex_handler_close_channel cid w; Ok (snd r)
  | WriteChannel cid buf => r ← multiplex_handler_write_channel cid buf w; Ok (snd r)
  | PendChannel cid => r ← multiplex_handler_pend_channel cid w; Ok (snd r)
  | ResumeChannel cid => r ← multiplex_handler_resume_channel cid w; Ok (snd r)
  | Checkpoint => r ← multiplex_handler_checkpoint w; Ok (snd r)
  | StateChanged state => multiplex_handler_on_state_changed state w
  | Stop error => multiplex_handler_stop error w
  end.

(** What callers and peers must respect. *)
Definition allowed w (o : mop) : Prop :=
  match o with
  | Packet buf => flex_wf buf /\ 8 <= fsize buf /\ bytes_ok (payload buf) /\ acceptable (payload buf) w = true
  | OpenChannel ty cookie _ _ => open_allowed ty w = true /\ cookie_ok cookie /\ next_good w = true
  | CloseChannel cid | PendChannel cid | ResumeChannel cid => 0 < cid < 2 ^ 31
  | WriteChannel cid buf => 0 <= cid < 2 ^ 31 /\ sendable (Some buf)
  | Checkpoint | StateChanged _ | Stop _ => True
  end.

Lemma timer_inv w m t : inv w m -> inv (upd_client (set_timer t) w) m.
Proof. intros [Hc Hd]. split; [apply (core_frame w); try done; eauto 10|done]. Qed.

Lemma tell_inv w m f : inv w m -> inv (tell f w) m.
Proof. apply same_inv, tell_same. Qed.

Lemma stop_runs w m error : inv w m -> goods m -> runs (multiplex_handler_stop error w).
Proof.
  intros Hi Hg. unfold multiplex_handler_stop. destruct (close_channels_spec w m CloseReason_Normal Hi Hg) as (w1 & -> & H1). bind_simpl.
  apply (settled_ok _ _ []); [|intros c Hc; set_solver]. apply tell_inv.
  assert (inv (multiplex_handler_destroy_timer w1) []) as H2
    by (unfold multiplex_handler_destroy_timer; case_match; [done|by apply timer_inv, tell_inv]).
  case_match; [by apply tell_inv|done].
Qed.

Lemma exec_runs w o : ready w -> allowed w o -> runs (exec o w).
Proof.
  intros (m & Hi & Hg) Ha. destruct o; cbn [exec allowed] in *.
  - destruct Ha as (Hw & Hs & Hb & Ha). destruct (notify_packet_effect buf w Hw Hs) as (b' & _ & _ & ->). rewrite bind_assoc_ok.
    apply (safe_map (fun w => w)); [by apply (packet_runs w m)|done].
  - destruct Ha as (H1 & H2 & H3). apply (safe_map snd); [by apply (open_channel_returns w m)|done].
  - apply (safe_map snd); [by apply (close_channel_returns w m)|done].
  - destruct Ha. apply (safe_map snd); [by apply (write_channel_returns w m)|done].
  - apply (safe_map snd); [by apply (flow_control_returns w m)|done].
  - apply (safe_map snd); [by apply (flow_control_returns w m)|done].
  - apply (safe_map snd); [by apply (checkpoint_runs w m)|done].
  - unfold multiplex_handler_on_state_changed. case_match.
    + destruct (close_channels_spec w m (if state =? IOEXStreamState_closed then CloseReason_Normal else CloseReason_Error) Hi Hg) as (w1 & -> & H1).
      bind_simpl. apply (settled_ok _ _ []); [by apply tell_inv|intros c Hc; set_solver].
    + bind_simpl. apply (settled_ok _ _ m); [by apply tell_inv|done].
  - by apply (stop_runs w m).
Qed.

(** ** A new multiplexer *)

(** The calls that [multiplex_handler_create] makes succeed. *)
Definition all_ok (r : create_results) : Prop :=
  handler_ok r = true /\ table_ok r = true /\ table_lock r = 0 /\ ids_lock r = 0 /\ 0 <= worker_rc r.

Lemma callbacks_core w m cnt S c : length c = 3%nat -> core w m cnt S -> core (upd_client (set_callbacks c) w) m cnt S.
Proof. intros Hl Hc. apply (core_frame w); try done; [cbn; by rewrite Hl, (c_cbs _ _ _ _ Hc)|eauto 10]. Qed.

Lemma set_callbacks_inv w m ty c : 0 <= ty < 3 -> inv w m ->
  exists w', multiplex_handler_set_channel_callbacks ty c w = Ok w' /\ inv w' m /\ portforwarding (client w') = portforwarding (client w).
Proof.
  intros Ht [Hc Hd]. unfold multiplex_handler_set_channel_callbacks, ChannelType_User, ChannelType_MAX.
  rewrite (proj2 (Z.leb_le _ _)), (proj2 (Z.ltb_lt _ _)) by lia. cbn [c_assert]. bind_simpl. eexists. split; [reflexivity|]. split; [|done].
  split; [|done]. apply (callbacks_core w); [|done]. by rewrite length_insert, (c_cbs _ _ _ _ Hc).
Qed.

(** The table and the identifiers, before the callbacks. *)
Lemma table_inv w : 0 <= brk (w_heap w) -> chans (client w) = ∅ -> length (callbacks (client w)) = 3%nat ->
  exists p w1, channels_create true 0 256 w = Ok (p, w1) /\ p <> 0 /\ client w1 = client w /\
    inv (upd_client (set_ids (snd (IdsHeap.ids_heap_init 0 (channel_ids (client w1)) MAX_CHANNEL_ID))) w1) [].
Proof.
  intros Hb Hch Hl. unfold channels_create.
  destruct (hashtable_create_spec w channels_hash_code channels_key_compare 256 1 (Some channels_hash_code) (Some channels_key_compare))
    as (p & w1 & -> & Hp & HR & _ & Hc1 & Hbrk & _ & Hlh & Hpb & _); [done|lia|by apply channel_fns_ok|].
  exists p, w1. split; [done|]. split; [done|]. split; [done|]. unfold sizeof_rc_mem in Hpb. cbn in Hbrk. split; [split; cbn; try done|].
  - split; [|by intros k n d Hin%elem_of_nil]. destruct HR as [Bs HR]. exists Bs. by apply (rep_heap w1); [| | |eauto].
  - by intros cid q Hin%elem_of_nil.
  - by intros cid q Hin%elem_of_nil.
  - by apply (IdsHeap.init_refines (channel_ids (client w1))).
  - by intros cid Hin%elem_of_nil.
  - apply NoDup_nil_2.
  - apply NoDup_nil_2.
  - unfold sizeof_Hashtable, lst_head_offset in *. split; [lia|]. split; [lia|]. by intros cid q Hin%elem_of_nil.
  - by rewrite Hc1.
  - cbn. rewrite Hc1, Hch. intros q [x Hx]. by rewrite lookup_empty in Hx.
Qed.

Lemma create_spec r user tcp w : all_ok r -> 0 <= brk (w_heap w) -> chans (client w) = ∅ ->
  exists w0 inc, multiplex_handler_create r user tcp w = Ok (0, w0, inc) /\ inv w0 [].
Proof.
  intros (H1 & H2 & H3 & H4 & H5) Hb Hch. unfold multiplex_handler_create. rewrite H1, H2, H3, H4. cbn [negb].
  set (wc := upd_client _ w).
  destruct (table_inv wc Hb Hch eq_refl) as (p & w1 & -> & Hp & Hc1 & Hi). bind_simpl.
  rewrite (proj2 (Z.eqb_neq _ _) Hp). cbn [IdsHeap.ids_heap_init Z.eqb negb snd] in Hi |- *.
  destruct (set_callbacks_inv _ [] ChannelType_User (user_channel_callbacks user) ltac:(unfold ChannelType_User; lia) Hi) as (w2 & -> & H2i & _). bind_simpl.
  destruct (portforwarding (client w)); [|by eexists _, _].
  rewrite (proj2 (Z.ltb_ge _ _)) by lia.
  destruct (set_callbacks_inv _ [] ChannelType_TCP_PortForwarding tcp ltac:(unfold ChannelType_TCP_PortForwarding; lia) H2i) as (w3 & -> & [Hc3 Hd3] & _). bind_simpl.
  eexists _, _. split; [reflexivity|]. split; [|done]. apply (core_frame w3); try done; eauto 10.
Qed.

Lemma create_ready r user tcp w : all_ok r -> 0 <= brk (w_heap w) -> chans (client w) = ∅ ->
  exists w0 inc, multiplex_handler_create r user tcp w = Ok (0, w0, inc) /\ ready w0.
Proof.
  intros Hr Hb Hc. destruct (create_spec r user tcp w Hr Hb Hc) as (w0 & inc & E0 & Hi). exists w0, inc. split; [done|].
  exists []. split; [done|]. by intros c Hc'%elem_of_nil.
Qed.

(** The states the multiplexer can be in. *)
Inductive reaches (w0 : W) : W -> Prop :=
| reach_here : reaches w0 w0
| reach_step w o w' : reaches w0 w -> allowed w o -> exec o w = Ok w' -> reaches w0 w'.

Lemma reaches_ready w0 w : ready w0 -> reaches w0 w -> ready w.
Proof.
  intros H0 H. induction H as [|w o w' _ IH Ha He]; [done|]. destruct (exec_runs w o IH Ha) as (w'' & He' & Hr).
  rewrite He in He'. by injection He' as ->.
Qed.

(** C10. Once the multiplexer is created, whatever packets arrive, channels are
    opened, written, paused, resumed or closed, however the keep-alive timer fires
    and the stream changes state, and whatever the application's callbacks answer
    and the transport reports: the channel table, the channel objects, their
    reference counts and the identifiers in use agree between any two calls (one
    table entry and one reference per object, no identifier and no object leaked,
    the hash table's rings and chains intact), and the next call returns, with no
    assertion failed, no undefined behaviour and no loop that does not end. It
    relies on the packets and arguments being ones the code can take ([allowed]):
    packets carry a header and are not for channel 0, and identifiers are ones whose
    release is defined. *)
Theorem mux_safe r user tcp w : all_ok r -> 0 <= brk (w_heap w) -> chans (client w) = ∅ ->
  exists w0 inc, multiplex_handler_create r user tcp w = Ok (0, w0, inc) /\
    forall w1, reaches w0 w1 -> ready w1 /\ forall o, allowed w1 o -> exists w2, exec o w1 = Ok w2 /\ ready w2.
Proof.
  intros Hr Hb Hc. destruct (create_ready r user tcp w Hr Hb Hc) as (w0 & inc & E0 & H0). exists w0, inc. split; [done|].
  intros w1 H1. pose proof (reaches_ready _ _ H0 H1) as Hw1. split; [done|]. intros o Ho.
  destruct (exec_runs w1 o Hw1 Ho) as (w2 & E2 & H2). by exists w2.
Qed.

(** Closing the channels, as a stop of the stream and its end do, leaves none:
    the table is empty, every channel object is freed and every identifier is
    available again. *)
Theorem close_channels_empties w m reason : inv w m -> goods m ->
  exists w', multiplex_handler_close_channels reason w = Ok w' /\ count (tab w') = 0 /\ chans (client w') = ∅ /\
    IdsHeap.refines (channel_ids (client w')) ∅.
Proof.
  intros Hi Hg. destruct (close_channels_spec w m reason Hi Hg) as (w' & -> & Hi' & Hd'). exists w'. split; [done|]. split_and!.
  - destruct (c_tab _ _ _ _ Hi') as [[Bs []] _]. exact rp_count0.
  - apply map_eq. intros p. rewrite lookup_empty. destruct (chans (client w') !! p) eqn:Ep; [|done].
    exfalso. assert (p ∈ ([] : list (Z * Z)).*2) as Hin by (apply Hd'; eauto). by apply elem_of_nil in Hin.
  - apply (c_ids _ _ _ _ Hi').
Qed.

End Safe.

(** ** At a new multiplexer *)

Import MuxRun.

Definition open_user : mop := OpenChannel ChannelType_User (Some [104; 105]) 0 0.

Lemma open_user_allowed : allowed (fresh_mux false) open_user.
Proof. split; [by vm_compute|]. split; [by vm_compute|by vm_compute]. Qed.

Lemma blank_ok : all_ok (mkResults true true 0 0 0) /\ 0 <= brk (w_heap (blank false)) /\ chans (client (blank false)) = ∅.
Proof. split; [by split_and!|]. split; [by vm_compute|done]. Qed.

Lemma mux_safe_witness :
  exists w0 inc w2, multiplex_handler_create (mkResults true true 0 0 0) accepting no_callbacks (blank false) = Ok (0, w0, inc) /\
    exec open_user w0 = Ok w2 /\ ready w2 /\ count (tab w2) = 1.
Proof.
  destruct blank_ok as (H1 & H2 & H3).
  destruct (mux_safe (mkResults true true 0 0 0) accepting no_callbacks (blank false) H1 H2 H3) as (w0 & inc & E0 & H).
  assert (w0 = fresh_mux false) as -> by (unfold fresh_mux; by rewrite E0).
  destruct (H _ (reach_here _)) as [_ Hnext]. destruct (Hnext open_user open_user_allowed) as (w2 & E2 & Hr).
  exists (fresh_mux false), inc, w2. split; [done|]. split; [done|]. split; [done|].
  assert ((w ← exec open_user (fresh_mux false); Ok (count (tab w))) = Ok 1) as Hc by (vm_compute; reflexivity).
  rewrite E2 in Hc. by injection Hc.
Defined.

Lemma close_channels_empties_witness :
  exists w m w', exec open_user (fresh_mux false) = Ok w /\ inv w m /\ goods m /\ count (tab w) = 1 /\
    multiplex_handler_close_channels CloseReason_Normal w = Ok w' /\ count (tab w') = 0.
Proof.
  destruct blank_ok as (H1 & H2 & H3).
  destruct (create_ready (mkResults true true 0 0 0) accepting no_callbacks (blank false) H1 H2 H3) as (w0 & inc & E0 & H0).
  assert (w0 = fresh_mux false) as -> by (unfold fresh_mux; by rewrite E0).
  destruct (exec_runs _ _ H0 open_user_allowed) as (w & E & m & Hi & Hg).
  destruct (close_channels_empties w m CloseReason_Normal Hi Hg) as (w' & Ec & Hcount & _).
  exists w, m, w'. split; [exact E|]. split; [exact Hi|]. split; [exact Hg|]. split; [|split; [exact Ec|exact Hcount]].
  assert ((w ← exec open_user (fresh_mux false); Ok (count (tab w))) = Ok 1) as Hc by (vm_compute; reflexivity).
  rewrite E in Hc. by injection Hc.
Defined.

End MuxSafe.
