(* ===== verification/MuxCases.v ===== *)
(** * Channel multiplexing: errors and packets that end the process

    What the calls report for channels that do not exist or are not open, and the
    packets, some of which the other side sends by itself, that fail an assertion. *)

From Stdlib Require Import ZArith Lia.
From stdpp Require Import prelude gmap sets list.
From S2P Require Import Prelude Bitset IdsHeap FlexBuffer RcMem Rings Hashtable HashtableThm Mux MuxRun MuxFraming MuxInv MuxSafe.

Module MuxCases.
Import RcMem Hashtable HashtableThm Mux MuxFraming MuxInv MuxSafe.

Section Cases.
Context {E : Type} {EV : Env E}.

Notation W := (hworld Z (MultiplexHandler E)).
Implicit Types w : W.

(** ** Packets for channel 0 *)

(** The packet's header is whole and names channel 0, and it is neither an open
    request nor data outside of channels. *)
Definition for_channel_zero (d : bytes) : bool :=
  match read_header (ztake 8 d) with
  | Ok pb => (zlen d =? pb_len pb + 8) && (pb_local pb =? 0) && negb (pb_type pb =? PacketType_ChannelOpen) &&
      negb ((pb_remote pb =? 0) && (pb_type pb =? PacketType_ChannelData)) && (pb_type pb <=? 7)
  | _ => false
  end.

Lemma zero_effect d w : for_channel_zero d = true -> packet_effect d w = AssertFail 329.
Proof.
  unfold for_channel_zero, packet_effect. destruct (read_header (ztake 8 d)) as [pb| | |]; try done. bind_simpl.
  intros H. repeat apply andb_true_iff in H as [H ?]. rewrite H. cbn [negb].
  assert (pb_local pb = 0) as Hl by (by apply Z.eqb_eq). rewrite Hl in *. cbn [Z.eqb].
  destruct (pb_type pb =? PacketType_ChannelOpen) eqn:Eo; [done|].
  destruct (pb_remote pb =? 0), (pb_type pb =? PacketType_ChannelData); try done; cbn [andb];
    unfold trace_packet; rewrite (proj2 (Z.ltb_ge _ _)), andb_false_r by (by apply Z.leb_le); bind_simpl;
    unfold target; rewrite Eo, Hl; reflexivity.
Qed.

(** A packet that names channel 0 and is neither an open request nor data
    outside of channels ends the receiving process: the lookup of its channel
    asserts that the identifier is not 0, whatever the state of the receiver. *)
Theorem channel_zero_aborts buf w : flex_wf buf -> for_channel_zero (payload buf) = true ->
  multiplex_handler_notify_packet buf w = AssertFail 329.
Proof.
  intros Hw Hz. assert (8 <= fsize buf) as H8.
  { unfold for_channel_zero in Hz. destruct (read_header (ztake 8 (payload buf))) as [pb| | |] eqn:Er; try done.
    rewrite <- (FlexBuffer.zlen_payload buf Hw). destruct (ztake 8 (payload buf)) as [|a1 [|a2 [|a3 [|a4 [|a5 [|a6 [|a7 [|a8 [|]]]]]]]]] eqn:Et; try done.
    assert (zlen (ztake 8 (payload buf)) = 8) as Hl by (by rewrite Et). unfold zlen, ztake in *. rewrite length_take in Hl. lia. }
  destruct (notify_packet_effect buf w Hw H8) as (b' & _ & _ & ->). by rewrite zero_effect.
Qed.

(** ** Refusals *)

Definition refusal : bytes := packet_header PacketType_ChannelOpenConfirmation 0 0 0 0.

Lemma send_refusal w : exists rc,
  multiplex_handler_send_packet PacketType_ChannelOpenConfirmation 0 0 0 None w = Ok (rc, snd (ask (next_write refusal) w)).
Proof.
  unfold multiplex_handler_send_packet.
  assert (exists b1 b2, FlexBuffer.flex_buffer_backward_offset (FlexBuffer.flex_buffer 0 FlexBuffer.FLEX_PADDING_LEN FlexBuffer.FLEX_PADDING_LEN) PROTOCOL_HEAD_LEN = Ok b1 /\
    FlexBuffer.flex_buffer_mutable_ptr b1 0 refusal = Ok b2 /\
    FlexBuffer.flex_buffer_ptr b2 0 (FlexBuffer.flex_buffer_size b2) = Ok refusal) as (b1 & b2 & E1 & E2 & E3)
    by (do 2 eexists; split_and!; vm_compute; reflexivity).
  cbn [c_assert andb Z.leb PacketType_ChannelOpen PacketType_ChannelOpenConfirmation PacketType_ChannelClose]. bind_simpl.
  rewrite E1. bind_simpl. change (packet_header _ _ _ _ _) with refusal. rewrite E2. bind_simpl. rewrite E3. bind_simpl.
  destruct (ask (next_write refusal) w) as [sent w']. destruct (sent <? 0); by eexists.
Qed.

(** A new object that is dropped before it has an identifier. *)
Lemma drop_new w size p w1 : 0 <= brk (w_heap w) -> rc_zalloc true size (Some CHANNEL_DESTROY) w = (p, w1) ->
  p <> 0 /\ chan p w1 = Ok zero_channel /\ env (client w1) = env (client w) /\ channel_ids (client w1) = channel_ids (client w) /\
  forall w2, same_but_env w1 w2 -> exists w3, deref p w2 = Ok w3 /\ env (client w3) = env (client w2).
Proof.
  intros Hb. unfold rc_zalloc, rc_alloc. cbn [negb heap_of hworld_world]. set (q := brk (w_heap w) + sizeof_rc_mem).
  assert (q <> 0) as Hq by (unfold q, sizeof_rc_mem; lia). rewrite (proj2 (Z.eqb_neq q 0)) by done. intros [= <- <-].
  split; [done|]. split; [unfold chan; cbn; by rewrite lookup_insert_eq|]. split; [done|]. split; [done|].
  intros w2 [e ->]. set (w2 := upd_client _ _).
  assert (live w2 q 1 (Some CHANNEL_DESTROY)) as Hl by (split; [done|]; split; [lia|]; cbn; by rewrite lookup_insert_eq).
  assert (destroy_ok w2 q (Some CHANNEL_DESTROY) (client w2)) as Hdes
    by (unfold destroy_ok; cbn; unfold channel_destroy; cbn; by rewrite lookup_insert_eq).
  destruct (deref_frame w2 q 1 (Some CHANNEL_DESTROY) _ Hl (fun _ => Hdes)) as (w3 & -> & _ & _ & _ & Cl & _).
  exists w3. split; [done|]. by rewrite Cl.
Qed.

(** When all identifiers are in use, an open request is answered by a refusal
    that is addressed to the new object's [remote_id], which has not been set: to
    channel 0, not to the channel of the request. The request's sender fails an
    assertion on that packet, in whatever state it is. *)
Theorem refusal_ends_the_opener w pb w' : 0 <= brk (w_heap w) ->
  IdsHeap.ids_heap_alloc 0 (channel_ids (client w)) = Ok (-1, channel_ids (client w)) ->
  fst (ask malloc_ok w) = true -> pb_option pb = ChannelType_User ->
  (exists w2, accept_channel pb w = Ok (None, w2) /\ env (client w2) = snd (next_write refusal (snd (malloc_ok (env (client w)))))) /\
  forall buf, flex_wf buf -> payload buf = refusal -> multiplex_handler_notify_packet buf w' = AssertFail 329.
Proof.
  intros Hb Hids Hok Hty. split; [|intros buf Hw Hp; destruct (notify_packet_effect buf w' Hw) as (b' & _ & _ & ->);
    [rewrite <- (FlexBuffer.zlen_payload buf Hw), Hp; by vm_compute|rewrite Hp; by rewrite zero_effect]].
  unfold accept_channel. rewrite Hty. cbn [Z.eqb ChannelType_User ChannelType_UDP_PortForwarding ChannelType_TCP_PortForwarding].
  unfold ask in *. destruct (malloc_ok (env (client w))) as [ok e] eqn:Em. cbn [fst snd] in *. subst ok. set (w1 := upd_client (set_env e) w) in *.
  destruct (rc_zalloc true sizeof_Channel (Some CHANNEL_DESTROY) w1) as [p w2] eqn:Hz.
  destruct (drop_new w1 sizeof_Channel p w2 Hb Hz) as (Hp & Hch & He & Hid & Hdrop). rewrite (proj2 (Z.eqb_neq p 0)) by done.
  change (channel_ids (client w1)) with (channel_ids (client w)) in Hid. rewrite Hid, Hids. bind_simpl. change (-1 <? 0) with true. cbn iota. rewrite <- Hid.
  assert (upd_client (set_ids (channel_ids (client w2))) w2 = w2) as -> by (destruct w2 as [? ? ? []]; done).
  rewrite Hch. bind_simpl. cbn [remote_id zero_channel]. destruct (send_refusal w2) as [rc ->]. bind_simpl. cbn [snd].
  destruct (Hdrop _ (ask_same (next_write refusal) w2)) as (w3 & -> & He3). bind_simpl. exists w3. split; [done|]. rewrite He3.
  unfold ask. change e with (env (client w1)). rewrite <- He. by destruct (next_write refusal (env (client w2))).
Qed.

(** ** Channels that do not exist, or are not open *)

(** Calls for a channel that is not in the table report that it does not
    exist, and change nothing. *)
Theorem missing_channel w m cid buf : inv w m -> 0 < cid < 2 ^ 31 -> cid ∉ m.*1 ->
  multiplex_handler_close_channel cid w = Ok (IOEX_GENERAL_ERROR IOEXERR_NOT_EXIST, w) /\
  multiplex_handler_write_channel cid buf w = Ok (IOEX_GENERAL_ERROR IOEXERR_NOT_EXIST, w) /\
  multiplex_handler_pend_channel cid w = Ok (IOEX_GENERAL_ERROR IOEXERR_NOT_EXIST, w) /\
  multiplex_handler_resume_channel cid w = Ok (IOEX_GENERAL_ERROR IOEXERR_NOT_EXIST, w).
Proof.
  intros Hi Hr Hout. pose proof (get_out w m cid Hi Hout Hr) as Hget.
  unfold multiplex_handler_close_channel, multiplex_handler_write_channel, multiplex_handler_pend_channel, multiplex_handler_resume_channel, flow_control.
  rewrite (proj2 (Z.ltb_lt 0 cid)), (proj2 (Z.leb_le 0 cid)), (proj2 (Z.eqb_neq cid 0)) by lia. cbn [c_assert]. bind_simpl. by rewrite Hget.
Qed.

(** Data and flow control for a channel that is not open yet, or whose peer
    is not known, report the wrong state: no packet is sent, no callback called,
    and the channels are as they were. *)
Theorem unopened_channel w m cid p ch buf : inv w m -> (cid, p) ∈ m -> chan p w = Ok ch -> not_open ch || (remote_id ch =? 0) = true ->
  exists w', inv w' m /\ client w' = client w /\
    multiplex_handler_write_channel cid buf w = Ok (IOEX_GENERAL_ERROR IOEXERR_WRONG_STATE, w') /\
    multiplex_handler_pend_channel cid w = Ok (IOEX_GENERAL_ERROR IOEXERR_WRONG_STATE, w') /\
    multiplex_handler_resume_channel cid w = Ok (IOEX_GENERAL_ERROR IOEXERR_WRONG_STATE, w').
Proof.
  intros Hi Hin Hch Hno. pose proof Hi as [Hc _]. pose proof (core_range _ _ _ _ cid Hc (in_fst _ _ _ Hin)) as Hr.
  destruct (get_in w m cid p Hi Hin) as (w1 & Hget & Hh & Hcl). destruct (release_held _ _ _ Hh) as (w2 & Hrel & Hi2 & Hcl2 & _).
  assert (p <> 0) as Hp by (by apply (c_obj _ _ _ _ Hc cid p Hin)).
  assert (chan p w1 = Ok ch) as Hch1 by (unfold chan in *; by rewrite Hcl).
  exists w2. split; [done|]. split; [congruence|].
  unfold multiplex_handler_write_channel, multiplex_handler_pend_channel, multiplex_handler_resume_channel, flow_control.
  rewrite (proj2 (Z.ltb_lt 0 cid)), (proj2 (Z.leb_le 0 cid)), (proj2 (Z.eqb_neq cid 0)) by lia. cbn [c_assert]. bind_simpl.
  rewrite Hget. bind_simpl. rewrite (proj2 (Z.eqb_neq p 0)) by done. rewrite Hch1. bind_simpl.
  destruct (not_open ch); [rewrite Hrel; by bind_simpl|]. cbn [orb] in Hno. rewrite Hno, Hrel. by bind_simpl.
Qed.

End Cases.

(** ** Runs *)

Import MuxRun.

Definition keep_alive_zero : bytes := packet_header PacketType_ChannelKeepAlive 0 0 1 0.

Lemma channel_zero_aborts_witness :
  multiplex_handler_notify_packet (packet_buf keep_alive_zero) (fresh_mux false) = AssertFail 329.
Proof. apply channel_zero_aborts; [apply packet_buf_ok; by vm_compute|vm_compute; reflexivity]. Defined.

(** A multiplexer with all its identifiers in use. *)
Definition full_mux : hworld Z (MultiplexHandler recorder) :=
  upd_client (set_ids (IdsHeap.mkIdsHeap 2047 2048 (Bitset.mkBitset 2048 (replicate 32 Bitset.word_mask)))) (fresh_mux false).

Lemma refusal_ends_the_opener_witness :
  (exists w2, accept_channel (mkPb 1 0 0 7 0) full_mux = Ok (None, w2) /\ sent (env (client w2)) = [refusal]) /\
  multiplex_handler_notify_packet (packet_buf refusal) (fresh_mux false) = AssertFail 329.
Proof.
  destruct (refusal_ends_the_opener full_mux (mkPb 1 0 0 7 0) (fresh_mux false)) as [(w2 & E2 & He) Habort];
    [by vm_compute|vm_compute; reflexivity|by vm_compute|done|].
  split; [exists w2; split; [exact E2|]; rewrite He; vm_compute; reflexivity|].
  apply Habort; [apply packet_buf_ok; by vm_compute|]. apply packet_buf_ok. by vm_compute.
Defined.

(** Time passes. *)
Definition at_time (t : Z * Z) (w : hworld Z (MultiplexHandler recorder)) := upd_client (set_env (mkRec (sent (env (client w))) (seen (env (client w))) t)) w.

(** The keep-alive timer of a sender whose open request has been lost sends a
    packet for channel 0, which ends the receiver. *)
Definition lost_open : outcome (list bytes * hworld Z (MultiplexHandler recorder)) :=
  r ← multiplex_handler_open_channel ChannelType_User None 0 0 (fresh_mux false);
  let a := at_time (31, 0) (snd (take_sent (snd r))) in
  r ← multiplex_handler_checkpoint a;
  let '(ds, _) := take_sent (snd r) in
  b ← receive_all ds (fresh_mux false);
  Ok (ds, b).

Example lost_open_aborts : lost_open = AssertFail 329.
Proof. vm_compute. reflexivity. Qed.

(** A frame that is larger than the buffer, in two chunks, takes the packet that
    follows it out of the stream. *)
Definition big_frame : bytes := [3; 0; 0; 0; 0; 0] ++ be16 2400 ++ replicate 2400 0.
Definition good_frame : bytes := [3; 0; 0; 0; 0; 0; 0; 1; 9].

Example big_frame_desync :
  match feed [packet_buf (ztake 2300 big_frame); packet_buf (zdrop 2300 big_frame ++ good_frame)] new_inc (fresh_mux true) with
  | Ok (w, _) => (seen (env (client w)), fst (frames (big_frame ++ good_frame))) = ([], [big_frame; good_frame])
  | _ => False
  end.
Proof. vm_compute. reflexivity. Qed.

Lemma missing_channel_witness :
  multiplex_handler_close_channel 5 (fresh_mux false) = Ok (IOEX_GENERAL_ERROR IOEXERR_NOT_EXIST, fresh_mux false).
Proof.
  destruct blank_ok as (H1 & H2 & H3).
  destruct (create_spec (mkResults true true 0 0 0) accepting no_callbacks (blank false) H1 H2 H3) as (w0 & inc & E0 & H0).
  assert (w0 = fresh_mux false) as -> by (unfold fresh_mux; by rewrite E0).
  destruct (missing_channel (fresh_mux false) [] 5 new_inc H0) as [E _]; [lia|by intros Hin%elem_of_nil|exact E].
Defined.

Lemma unopened_channel_witness :
  exists w w', exec open_user (fresh_mux false) = Ok w /\ client w' = client w /\
    multiplex_handler_write_channel 1 (packet_buf [1; 2]) w = Ok (IOEX_GENERAL_ERROR IOEXERR_WRONG_STATE, w').
Proof.
  destruct blank_ok as (H1 & H2 & H3).
  destruct (create_ready (mkResults true true 0 0 0) accepting no_callbacks (blank false) H1 H2 H3) as (w0 & inc & E0 & H0).
  assert (w0 = fresh_mux false) as -> by (unfold fresh_mux; by rewrite E0).
  destruct (exec_runs _ _ H0 open_user_allowed) as (w & E & Hr).
  set (ch := mkChannel true 0 1 0 0 Opening (0, 0) (0, 0) (0, 0) 0 0).
  assert ((w ← exec open_user (fresh_mux false); chan 3248 w) = Ok ch) as Hch by (vm_compute; reflexivity).
  rewrite E in Hch. change (chan 3248 w = Ok ch) in Hch.
  assert (chans (client w) !! 3248 = Some ch) as Hl by (unfold chan in Hch; destruct (chans (client w) !! 3248); [by injection Hch as ->|discriminate Hch]).
  destruct (ready_channel w 3248 ch Hr Hl) as (m & Hi & Hg & Hin).
  destruct (unopened_channel w m 1 3248 ch (packet_buf [1; 2]) Hi Hin Hch eq_refl) as (w' & _ & Hcl & Hw & _).
  exists w, w'. split; [exact E|]. split; [exact Hcl|exact Hw].
Defined.

End MuxCases.
