(* ===== verification/Reliable.v ===== *)
(** * The reliable handler

    src/src/session/reliable_handler.c: the layer of a stream's pipeline that puts a
    pseudo TCP socket between the layers above, which write and are given the bytes of a
    stream, and the layers below, which carry packets. With it the transport's part that
    it works with: the timers of the worker and the end of a stream
    (src/src/session/ice.c), and the stream's own end of the pipeline
    (src/src/session/session.c). *)

From Stdlib Require Import ZArith Lia.
From stdpp Require Import prelude gmap list.
From S2P Require Import Prelude Mux FlexBuffer TcpBase TcpTypes TcpOps TcpProcess TcpApi.
Import State Tcp TcpIn TcpApi.

Module Reliable.

Definition s64 (x : Z) : Z := (x + 2 ^ 63) mod 2 ^ 64 - 2 ^ 63.

Definition DEFAULT_TCP_MTU : Z := 1400.
Definition INT_MAX : Z := 2147483647.
Definition IOEXERR_BUSY : Z := 0x13.
Definition IOEX_SYS_ERROR (code : Z) : Z := Mux.IOEX_MK_ERROR 2 code.
Definition IOEXStreamState_connecting : Z := 3.
Definition IOEXStreamState_connected : Z := 4.
Definition IOEXStreamState_closed : Z := 6.
Definition IOEXStreamState_failed : Z := 7.

(** A timer of the worker: the period that it was created with, and the time in
    milliseconds at which it fires, when it is scheduled. *)
Record PjTimer := mkTimer { interval : Z; expires : option Z }.

Record ReliableHandler := mkReliable { sock : option Sock; sock_closed : bool; last_clock_timeout : Z; clock : option nat }.

(** What goes up to the application's end, and down to the transport. *)
Inductive output :=
| up_data (d : bytes)
| up_state (state : Z)
| down_packet (p : bytes)
| down_shutdown.

(** The handler, the state of its stream, whether the transport's handler has been
    stopped, the timers of the worker, the number of clock readings, and what has gone
    up and down so far. *)
Record world := mkW {
  handler : ReliableHandler; stream_state : Z; stopping : bool; timers : gmap nat PjTimer; readings : nat; out : list output }.
Implicit Types w : world.

(** The answers of the surroundings: what [write] of the layer below gives for the n-th
    packet, the n-th readings of the monotonic clock in microseconds by the socket and
    by the rest, whether the worker has memory for a timer, and what is in new memory. *)
Record answers := mkAnswers {
  next_write : nat -> bytes -> Z; socket_time : nat -> Z; get_monotonic_time : nat -> Z; timer_memory : bool; junk_ : Z }.

Definition with_handler (h : ReliableHandler) w : world := mkW h (stream_state w) (stopping w) (timers w) (readings w) (out w).
Definition with_sock (s : Sock) w : world :=
  with_handler (mkReliable (Some s) (sock_closed (handler w)) (last_clock_timeout (handler w)) (clock (handler w))) w.
Definition with_clock (c : option nat) w : world :=
  with_handler (mkReliable (sock (handler w)) (sock_closed (handler w)) (last_clock_timeout (handler w)) c) w.
Definition with_timeout (t : Z) w : world :=
  with_handler (mkReliable (sock (handler w)) (sock_closed (handler w)) t (clock (handler w))) w.
Definition with_closed w : world :=
  with_handler (mkReliable (sock (handler w)) true (last_clock_timeout (handler w)) (clock (handler w))) w.
Definition with_timers (t : gmap nat PjTimer) w : world := mkW (handler w) (stream_state w) (stopping w) t (readings w) (out w).
Definition with_state (st : Z) w : world := mkW (handler w) st (stopping w) (timers w) (readings w) (out w).
Definition with_stopping w : world := mkW (handler w) (stream_state w) true (timers w) (readings w) (out w).
Definition tell (o : output) w : world := mkW (handler w) (stream_state w) (stopping w) (timers w) (readings w) (out w ++ [o]).

Definition the_sock (line : Z) w : outcome Sock := match sock (handler w) with Some s => Ok s | None => AssertFail line end.

Section Handler.
Context (A : answers).

(** ** The layers around *)

(** The layer above is the stream itself, which has callbacks for data and for states: it
    takes on the state and tells the application. *)
Definition stream_base_on_state_chagned (st : Z) w : world := tell (up_state st) (with_state st w).
Definition stream_base_on_data (d : bytes) w : world := tell (up_data d) w.

Definition read_clock w : Z * world :=
  (get_monotonic_time A (readings w) / 1000, mkW (handler w) (stream_state w) (stopping w) (timers w) (S (readings w)) (out w)).

(** [next] in milliseconds; the time until then is unsigned. *)
Definition ice_worker_schedule_timer (id : nat) (next : Z) w : outcome world :=
  match timers w !! id with
  | None => Undef
  | Some t => let '(now, w) := read_clock w in Ok (with_timers (<[id := mkTimer (interval t) (Some (now + u64 (next - now)))]> (timers w)) w)
  end.

(** The timer that is created; [None] without memory. *)
Definition ice_worker_create_timer (period : Z) w : outcome (option nat * world) :=
  if negb (timer_memory A) then Ok (None, w)
  else
    let id := fresh (dom (timers w)) in
    let w := with_timers (<[id := mkTimer period None]> (timers w)) w in
    let '(now, w) := read_clock w in
    w ← ice_worker_schedule_timer id (now + period) w;
    Ok (Some id, w).

Definition ice_worker_destroy_timer (id : nat) w : outcome world :=
  match timers w !! id with
  | None => Undef
  | Some t => Ok (with_timers (<[id := mkTimer (interval t) None]> (timers w)) w)
  end.

(** What comes up from the transport's handler when its state changes, but for the
    state [connected]. *)
Definition pass_state_up (st : Z) w : world := stream_base_on_state_chagned st w.

Definition ice_handler_stop (error : Z) w : world :=
  if stopping w then w
  else
    let w := with_stopping w in
    if stream_state w <=? IOEXStreamState_connected then
      let w := if IOEXStreamState_connecting <=? stream_state w then tell down_shutdown w else w in
      pass_state_up (if error =? 0 then IOEXStreamState_closed else IOEXStreamState_failed) w
    else w.

(** ** The socket's callbacks *)

Definition can_write (st : Z) : bool := (st =? IOEXStreamState_connected) || (st =? IOEXStreamState_connecting).

(** The result for a packet to which the layer below answers [rc]. *)
Definition write_result (st rc : Z) : PseudoTcpWriteResult :=
  if can_write st then
    if (0 <? rc) || (rc =? Mux.IOEX_GENERAL_ERROR IOEXERR_BUSY) then WR_SUCCESS else WR_FAIL
  else WR_FAIL.

(** The surroundings of the socket while it runs one of its functions: the state of the
    stream is the one at the call. *)
Definition sock_env w : Env :=
  mkEnv (fun n p => write_result (stream_state w) (next_write A n p)) (socket_time A) (junk_ A).

Definition pseudo_tcp_socket_write_packet (p : bytes) w : world := if can_write (stream_state w) then tell (down_packet p) w else w.

Definition pseudo_tcp_socket_opened w : world := stream_base_on_state_chagned IOEXStreamState_connected w.

(** What the socket has told since it was [s], oldest first. *)
Definition told_since (s s' : Sock) : list Event := rev (take (length (events s') - length (events s)) (events s')).

(** ** The functions of the handler *)

Definition reliable_handler_destroy_timer w : outcome world :=
  match clock (handler w) with
  | None => Ok w
  | Some id => w ← ice_worker_destroy_timer id w; Ok (with_clock None w)
  end.

(** The room in the buffer for what is read from the socket. *)
Definition recv_len : Z := FlexBuffer.flex_buffer_available (FlexBuffer.flex_buffer 0 FlexBuffer.FLEX_BUFFER_MAX_LEN FlexBuffer.FLEX_PADDING_LEN).

(** The error with which the handler stops when the socket tells that it is closed. *)
Definition closed_error (err : Z) : Z :=
  let err := if err =? ECONNABORTED then 0 else err in
  if err =? ECONNRESET then 0 else err.

(** From the next time at which the socket wants its clock. *)
Definition set_clock (timeout : Z) w : outcome world :=
  if timeout =? last_clock_timeout (handler w) then Ok w
  else
    let w := with_timeout timeout w in
    match clock (handler w) with
    | Some id => ice_worker_schedule_timer id timeout w
    | None =>
        let '(now, w) := read_clock w in
        let interval := s64 (timeout - now) in
        let interval := if (interval <? 0) || (INT_MAX <? interval) then INT_MAX else interval in
        r ← ice_worker_create_timer interval w;
        Ok (match r with (Some id, w) => with_clock (Some id) w | (None, w) => w end)
    end.

(** The handler and the socket call each other. What a function of the socket tells is
    handled when it returns, in its order: the callbacks that use the socket, [readable]
    and, through the stop, [closed], are the last thing that the socket's functions do.
    [told] is what the callbacks do with what has been told. *)
Section Calls.
Context (told : list Event -> world -> outcome world).

Definition reliable_handler_stop (error : Z) w : outcome world :=
  w ← (match sock (handler w) with
       | Some s =>
           if negb (sock_closed (handler w)) && negb (pseudo_tcp_socket_is_closed s) then
             s' ← pseudo_tcp_socket_close (sock_env w) s true;
             told (told_since s s') (with_sock s' w)
           else Ok w
       | None => Ok w
       end);
  w ← reliable_handler_destroy_timer w;
  Ok (ice_handler_stop error w).

Definition reliable_handler_adjust_clock w : outcome world :=
  s ← the_sock 133 w;
  if pseudo_tcp_socket_is_closed s then Ok w
  else
    r ← pseudo_tcp_socket_get_next_clock (sock_env w) s (last_clock_timeout (handler w));
    let '(ok, timeout, s') := r in
    w ← told (told_since s s') (with_sock s' w);
    if (ok : bool) then set_clock timeout w else reliable_handler_stop (-1) w.

(** The loop reads until there is nothing more; [fuel] bounds its rounds. *)
Fixpoint pseudo_tcp_socket_readable (fuel : nat) w : outcome world :=
  match fuel with
  | O => NoFuel
  | S fuel =>
      s ← the_sock 197 w;
      r ← pseudo_tcp_socket_recv (sock_env w) s recv_len;
      let '(len, data, s') := r in
      w ← told (told_since s s') (with_sock s' w);
      if len =? 0 then
        s ← the_sock 207 w;
        s' ← pseudo_tcp_socket_close (sock_env w) s false;
        w ← told (told_since s s') (with_sock s' w);
        reliable_handler_adjust_clock w
      else if len <? 0 then
        s ← the_sock 210 w;
        let error := pseudo_tcp_socket_get_error s in
        w ← (if negb (error =? EWOULDBLOCK) then reliable_handler_stop error w else Ok w);
        reliable_handler_adjust_clock w
      else
        let w := stream_base_on_data data w in
        s ← the_sock 229 w;
        if pseudo_tcp_socket_is_closed s then Ok w else pseudo_tcp_socket_readable fuel w
  end.

End Calls.

(** [fuel] bounds the depth of the calls and the rounds of the loop. *)
Fixpoint callbacks_of (fuel : nat) (l : list Event) w : outcome world :=
  match fuel with
  | O => NoFuel
  | S fuel =>
      match l with
      | [] => Ok w
      | e :: l =>
          w ← (match e with
               | EvPacket p => Ok (pseudo_tcp_socket_write_packet p w)
               | EvOpened => Ok (pseudo_tcp_socket_opened w)
               | EvReadable => pseudo_tcp_socket_readable (callbacks_of fuel) fuel w
               | EvWritable => Ok w
               | EvClosed err => reliable_handler_stop (callbacks_of fuel) (closed_error err) (with_closed w)
               end);
          callbacks_of fuel l w
      end
  end.

(** The worker fires a timer. *)
Definition reliable_handler_timer_callback (fuel : nat) w : outcome (bool * world) :=
  s ← the_sock 110 w;
  match clock (handler w) with
  | None => Ok (false, w)
  | Some _ =>
      s' ← pseudo_tcp_socket_notify_clock (sock_env w) s;
      w ← callbacks_of fuel (told_since s s') (with_sock s' w);
      w ← reliable_handler_adjust_clock (callbacks_of fuel) w;
      Ok (true, w)
  end.

Definition ice_timer_callback (fuel id : nat) w : outcome world :=
  match timers w !! id with
  | Some (mkTimer period (Some _)) =>
      r ← reliable_handler_timer_callback fuel (with_timers (<[id := mkTimer period None]> (timers w)) w);
      match r with
      | (true, w) => let '(now, w) := read_clock w in ice_worker_schedule_timer id (now + period) w
      | (false, w) => Ok w
      end
  | _ => Undef
  end.

Definition reliable_handler_on_rx_data (fuel : nat) (p : bytes) w : outcome world :=
  s ← the_sock 430 w;
  r ← pseudo_tcp_socket_notify_packet (sock_env w) s p (zlen p);
  w ← callbacks_of fuel (told_since s (snd r)) (with_sock (snd r) w);
  s ← the_sock 432 w;
  if pseudo_tcp_socket_is_closed s then Ok w else reliable_handler_adjust_clock (callbacks_of fuel) w.

Definition reliable_handler_on_state_changed (fuel : nat) (st : Z) w : outcome world :=
  if st =? IOEXStreamState_connected then
    s ← the_sock 453 w;
    r ← pseudo_tcp_socket_connect (sock_env w) s;
    w ← callbacks_of fuel (told_since s (snd r)) (with_sock (snd r) w);
    if (fst r : bool) then reliable_handler_adjust_clock (callbacks_of fuel) w else Ok w
  else Ok (pass_state_up st w).

(** ** Writing

    What the worker does on its own thread. *)
Inductive input :=
| Packet (p : bytes)
| StateChanged (st : Z)
| TimerFires (id : nat).

Definition handle (fuel : nat) (i : input) w : outcome world :=
  match i with
  | Packet p => reliable_handler_on_rx_data fuel p w
  | StateChanged st => reliable_handler_on_state_changed fuel st w
  | TimerFires id => ice_timer_callback fuel id w
  end.

Fixpoint handle_all (fuel : nat) (l : list input) w : outcome world :=
  match l with [] => Ok w | i :: l => w ← handle fuel i w; handle_all fuel l w end.

(** One round: what the socket has taken of the bytes, or -1. *)
Definition write_round (fuel : nat) (buf : bytes) w : outcome (Z * world) :=
  s ← the_sock 386 w;
  r ← pseudo_tcp_socket_send (sock_env w) s buf (zlen buf);
  let '(sent, s') := r in
  w ← callbacks_of fuel (told_since s s') (with_sock s' w);
  w ← reliable_handler_adjust_clock (callbacks_of fuel) w;
  Ok (sent, w).

(** The rounds of the loop: for each time that the writer sleeps, [sleeps] has what the
    worker handles meanwhile. [inl rc] is an early return. *)
Fixpoint write_loop (fuel : nat) (sleeps : list (list input)) (rounds : nat) (buf : bytes) w : outcome ((Z + unit) * world) :=
  match buf with
  | [] => Ok (inr tt, w)
  | _ =>
      match rounds with
      | O => NoFuel
      | S rounds =>
          r ← write_round fuel buf w;
          let '(sent, w) := r in
          if sent <? 0 then
            s ← the_sock 394 w;
            let error := pseudo_tcp_socket_get_error s in
            if negb (error =? EWOULDBLOCK) then
              w ← reliable_handler_stop (callbacks_of fuel) error w;
              Ok (inl (IOEX_SYS_ERROR error), w)
            else
              match sleeps with
              | [] => NoFuel
              | l :: sleeps =>
                  w ← handle_all fuel l w;
                  w ← reliable_handler_adjust_clock (callbacks_of fuel) w;
                  write_loop fuel sleeps rounds buf w
              end
          else write_loop fuel sleeps rounds (zdrop sent buf) w
      end
  end.

Definition reliable_handler_write (fuel : nat) (sleeps : list (list input)) (rounds : nat) (buf : bytes) w : outcome (Z * world) :=
  _ ← the_sock 378 w;
  if negb (stream_state w =? IOEXStreamState_connected) then Ok (Mux.IOEX_GENERAL_ERROR Mux.IOEXERR_WRONG_STATE, w)
  else
    r ← write_loop fuel sleeps rounds buf w;
    match r with
    | (inl rc, w) => Ok (rc, w)
    | (inr _, w) => Ok (zlen buf, w)
    end.

(** ** Life

    [rc] is what the layer below answers, [allocated] whether there is memory for the
    socket. *)
Definition pseudo_tcp_callbacks : PseudoTcpCallbacks := mkCallbacks true true true true.

Definition reliable_handler_prepare (rc : Z) (allocated : bool) w : outcome (Z * world) :=
  if negb (rc =? 0) then Ok (rc, w)
  else
    match pseudo_tcp_socket_new (sock_env w) allocated 1 (Some pseudo_tcp_callbacks) with
    | None => Ok (Mux.IOEX_GENERAL_ERROR Mux.IOEXERR_OUT_OF_MEMORY, w)
    | Some s => Ok (0, with_sock (pseudo_tcp_socket_notify_mtu s DEFAULT_TCP_MTU) w)
    end.

Definition reliable_handler_destroy (fuel : nat) w : outcome world :=
  w ← (match sock (handler w) with
       | Some s =>
           w ← (if negb (pseudo_tcp_socket_is_closed s) then
                  s' ← pseudo_tcp_socket_close (sock_env w) s true;
                  callbacks_of fuel (told_since s s') (with_sock s' w)
                else Ok w);
           s ← the_sock 469 w;
           Ok (with_sock (pseudo_tcp_socket_finalize s) w)
       | None => Ok w
       end);
  reliable_handler_destroy_timer w.

(** The handler that is created, with the stream in the state [st]. *)
Definition reliable_handler_create (st : Z) : world := mkW (mkReliable None false 0 None) st false ∅ 0 [].

End Handler.

End Reliable.
