(* ===== verification/ReliableCalls.v ===== *)
(** * The calls of the reliable handler

    The handler and its socket call each other. Here: a property of the socket, of the
    bytes that have gone up and of the packets that have gone down is kept by all the
    handler's calls when the socket's own operations keep it ([Keeps]). *)

From Stdlib Require Import ZArith Lia.
From stdpp Require Import prelude gmap list sorting.
From S2P Require Import Prelude Mux FlexBuffer TcpFifo TcpBase TcpTypes TcpOps TcpProcess TcpApi TcpState TcpFrame TcpEvents Reliable.
Import Fifo Seq Wire State Tcp TcpIn TcpApi StateThm Frame Events Reliable.

Module ReliableCalls.

(** The bytes that have gone up, and the packets that have gone down. *)
Definition ups (l : list output) : bytes := concat (omap (fun o => match o with up_data d => Some d | _ => None end) l).
Definition downs (l : list output) : list bytes := omap (fun o => match o with down_packet p => Some p | _ => None end) l.

Arguments ups : simpl never.
Arguments downs : simpl never.

Lemma ups_app l k : ups (l ++ k) = ups l ++ ups k.
Proof. unfold ups. by rewrite omap_app, concat_app. Qed.

Lemma downs_app l k : downs (l ++ k) = downs l ++ downs k.
Proof. apply omap_app. Qed.

Lemma recv_len_value : recv_len = 2176.
Proof. reflexivity. Qed.

(** ** What is kept through a call

    [P] is a property of the socket, the bytes that have been taken from it, and the
    packets that have gone down; it is kept by the operations of the socket that the
    handler uses. *)
Definition internal (o : Op) : Prop :=
  match o with OpNotifyClock | OpGetNextClock _ | OpClose _ => True | _ => False end.

Class Keeps (P : Sock -> bytes -> list bytes -> Prop) : Prop := {
  keeps_op : forall env o s s' v d, internal o -> P s v d -> run_op env o s = Ok s' -> P s' v d;
  keeps_recv : forall env s s' v d r data, P s v d -> pseudo_tcp_socket_recv env s recv_len = Ok (r, data, s') -> P s' (v ++ data) d;
  keeps_down : forall s v d p, P s v d -> EvPacket p ∈ events s -> P s v (d ++ [p]);
}.

Lemma mem_read_length b p n r : mem_read b p n = Ok r -> 0 <= n /\ zlen r = n.
Proof.
  unfold mem_read. destruct (0 <=? p) eqn:H1, (0 <=? n) eqn:H2, (p + n <=? zlen b) eqn:H3; cbn [andb]; try discriminate.
  intros [= <-]. zify_tests. split; [done|]. rewrite zlen_ztake_le; [done|]. rewrite zlen_zdrop_le; lia.
Qed.

Lemma zlen_zero (l : bytes) : zlen l = 0 -> l = [].
Proof. destruct l; [done|]. rewrite zlen_cons. pose proof (zlen_nonneg l). lia. Qed.

(** What is read has the length that is returned. *)
Lemma recv_data env s s' r data : pseudo_tcp_socket_recv env s recv_len = Ok (r, data, s') -> r = zlen data \/ r = -1 /\ data = [].
Proof.
  unfold pseudo_tcp_socket_recv. rewrite recv_len_value. destruct (_ && _); [intros [= <- <- _]; by left|].
  destruct (_ && _); [intros [= <- <- _]; by left|]. destruct (_ && _); [intros [= <- <- _]; by right|].
  change (2176 =? 0) with false. cbn [negb].
  intros H. apply bind_ok in H as ([[n out] b] & Hr & H). cbv zeta in H.
  destruct (_ && _) in H; [injection H as <- <- _; by right|]. apply bind_ok in H as (s1 & _ & H). injection H as <- <- _. left.
  unfold pseudo_tcp_fifo_read in Hr. apply bind_ok in Hr as ([c o] & Hr & H). injection H as <- <- _.
  unfold pseudo_tcp_fifo_read_offset in Hr. destruct (_ =? 0); [discriminate|]. destruct (_ <=? 0); [by injection Hr as <- <-|].
  apply bind_ok in Hr as (o1 & H1 & Hr). apply bind_ok in Hr as (o2 & H2 & Hr). injection Hr as Hc <-.
  apply mem_read_length in H1 as [Ha L1]. apply mem_read_length in H2 as [Hb L2].
  rewrite zlen_app. set (copy := Z.min 2176 _) in *. unfold s32. rewrite Z.mod_small by lia. lia.
Qed.

Section Kept.
Context (A : answers) (P : Sock -> bytes -> list bytes -> Prop) {KP : Keeps P}.

(** The socket is still there and has told more; [v] has been taken from it. *)
Definition holds (v : bytes) (s : Sock) w : Prop := exists s', sock (handler w) = Some s' /\ calm s s' /\ P s' v (downs (out w)).

(** From [w] to [w'] nothing has gone up. *)
Definition quietly w w' : Prop := forall v s, sock (handler w) = Some s -> P s v (downs (out w)) -> holds v s w' /\ ups (out w') = ups (out w).

Lemma quietly_refl w : quietly w w.
Proof. intros v s Hs Hp. split; [|done]. exists s. split; [done|]. split; [reflexivity|done]. Qed.

Lemma quietly_trans w1 w2 w3 : quietly w1 w2 -> quietly w2 w3 -> quietly w1 w3.
Proof.
  intros H1 H2 v s Hs Hp. destruct (H1 v s Hs Hp) as [(s2 & Hs2 & C2 & P2) U2]. destruct (H2 v s2 Hs2 P2) as [(s3 & Hs3 & C3 & P3) U3].
  split; [|congruence]. exists s3. split; [done|]. split; [by etrans|done].
Qed.

(** What does not touch the socket and what has left. *)
Lemma quietly_same w w' : sock (handler w') = sock (handler w) -> downs (out w') = downs (out w) -> ups (out w') = ups (out w) -> quietly w w'.
Proof. intros H1 H2 H3 v s Hs Hp. split; [|done]. exists s. rewrite H1, H2. split; [done|]. split; [reflexivity|done]. Qed.

Lemma told_elem s s' e : calm s s' -> e ∈ told_since s s' -> e ∈ events s' /\ e <> EvReadable.
Proof.
  intros [(l & E & Hl) _] He. unfold told_since in He. rewrite E, length_app in He. apply list_elem_of_In, in_rev, list_elem_of_In in He.
  replace (length l + length (events s) - length (events s))%nat with (length l) in He by lia.
  rewrite take_app_length in He. rewrite E.
  split; [apply elem_of_app; by left|]. intros He2. rewrite He2 in He. exact (Hl He).
Qed.

Lemma schedule_quiet id next w w' : ice_worker_schedule_timer A id next w = Ok w' -> quietly w w'.
Proof. unfold ice_worker_schedule_timer. destruct (_ !! id); [|discriminate]. intros [= <-]. by apply quietly_same. Qed.

Lemma destroy_timer_quiet w w' : reliable_handler_destroy_timer w = Ok w' -> quietly w w'.
Proof.
  unfold reliable_handler_destroy_timer, ice_worker_destroy_timer. destruct (clock _) as [id|]; [|intros [= <-]; apply quietly_refl].
  destruct (_ !! id); [|discriminate]. bind_simpl. intros [= <-]. by apply quietly_same.
Qed.

Lemma set_clock_quiet t w w' : set_clock A t w = Ok w' -> quietly w w'.
Proof.
  unfold set_clock. destruct (_ =? _); [intros [= <-]; apply quietly_refl|].
  destruct (clock _) as [id|]; [intros H; eapply quietly_trans; [|by eapply schedule_quiet]; by apply quietly_same|].
  unfold read_clock, ice_worker_create_timer. cbv zeta. destruct (negb _); [bind_simpl; intros [= <-]; by apply quietly_same|].
  intros H. apply bind_ok in H as (r & Hr & H). apply bind_ok in Hr as (w1 & H1 & Hr). injection Hr as <-. injection H as <-.
  apply schedule_quiet in H1. eapply quietly_trans; [eapply quietly_trans; [|exact H1]|]; by apply quietly_same.
Qed.

Lemma stop_quiet e w : quietly w (ice_handler_stop e w).
Proof.
  unfold ice_handler_stop, pass_state_up, stream_base_on_state_chagned. destruct (stopping w); [apply quietly_refl|].
  destruct (stream_state _ <=? _); [|by apply quietly_same].
  apply quietly_same; destruct (IOEXStreamState_connecting <=? _); cbn; rewrite ?ups_app, ?downs_app, ?app_nil_r; reflexivity.
Qed.

(** An operation of the socket, then what it has told. *)
Lemma op_told env o w s s' v : internal o -> run_op env o s = Ok s' -> calm s s' -> sock (handler w) = Some s -> P s v (downs (out w)) ->
  sock (handler (with_sock s' w)) = Some s' /\ P s' v (downs (out (with_sock s' w))) /\
  forall e, e ∈ told_since s s' -> e ∈ events s' /\ e <> EvReadable.
Proof. intros Ho Hr Hc Hs Hp. split; [done|]. split; [by eapply keeps_op|]. intros e. by apply told_elem. Qed.

Lemma close_op env s f s' : pseudo_tcp_socket_close env s f = Ok s' -> run_op env (OpClose f) s = Ok s' /\ calm s s'.
Proof. intros H. split; [exact H|]. by apply (calm_close env s f). Qed.

Lemma next_clock_op env s t r : pseudo_tcp_socket_get_next_clock env s t = Ok r -> run_op env (OpGetNextClock t) s = Ok r.2 /\ calm s r.2.
Proof. intros H. split; [cbn; rewrite H; by destruct r as [[? ?] ?]|]. by apply (calm_get_next_clock env s t). Qed.

(** ** Calls in which nothing goes up *)

Definition told_in (s : Sock) (l : list Event) : Prop := Forall (fun e => e ∈ events s /\ e <> EvReadable) l.

Lemma told_since_in s s' : calm s s' -> told_in s' (told_since s s').
Proof. intros Hc. apply Forall_forall. intros e. by apply told_elem. Qed.

Lemma told_in_calm s s' l : calm s s' -> told_in s l -> told_in s' l.
Proof.
  intros [(k & E & _) _] H. eapply Forall_impl; [exact H|]. cbn. intros e [He Hn]. split; [|done]. rewrite E. apply elem_of_app. by right.
Qed.

Definition quiet_callbacks (told : list Event -> world -> outcome world) : Prop :=
  forall l w w' s v, told l w = Ok w' -> sock (handler w) = Some s -> told_in s l -> P s v (downs (out w)) ->
    holds v s w' /\ ups (out w') = ups (out w).

Section Told.
Context (told : list Event -> world -> outcome world) (Htold : quiet_callbacks told).

(** An operation whose callbacks are quiet. *)
Lemma op_then_told w w' s s' env o : internal o -> run_op env o s = Ok s' -> calm s s' ->
  sock (handler w) = Some s -> told (told_since s s') (with_sock s' w) = Ok w' -> quietly w w'.
Proof.
  intros Ho Hr Hc Hs Hcb v s0 Hs0 Hp. assert (s0 = s) as -> by congruence.
  destruct (Htold _ _ _ s' v Hcb) as [(s2 & Hs2 & C2 & P2) U2]; [done|by apply told_since_in|by eapply keeps_op|].
  split; [|exact U2]. exists s2. split; [done|]. split; [by etrans|done].
Qed.

Lemma handler_stop_quiet e w w' : reliable_handler_stop A told e w = Ok w' -> quietly w w'.
Proof.
  intros H. unfold reliable_handler_stop in H. apply bind_ok in H as (w1 & H1 & H). apply bind_ok in H as (w2 & H2%destroy_timer_quiet & H).
  injection H as <-. eapply quietly_trans; [|eapply quietly_trans; [exact H2|apply stop_quiet]].
  destruct (sock (handler w)) as [s|] eqn:Hs; [|injection H1 as <-; apply quietly_refl].
  destruct (_ && _); [|injection H1 as <-; apply quietly_refl]. apply bind_ok in H1 as (s' & Hc & H1). apply close_op in Hc as [Hr Hc].
  by eapply (op_then_told w w1 s s' _ (OpClose true)).
Qed.

Lemma adjust_quiet w w' : reliable_handler_adjust_clock A told w = Ok w' -> quietly w w'.
Proof.
  intros H. unfold reliable_handler_adjust_clock in H. apply bind_ok in H as (s & Hs & H). unfold the_sock in Hs.
  destruct (sock (handler w)) as [s0|] eqn:Hs0; [|discriminate]. injection Hs as ->. destruct (pseudo_tcp_socket_is_closed s); [injection H as <-; apply quietly_refl|].
  apply bind_ok in H as ([[ok t] s'] & Hn & H). apply next_clock_op in Hn as [Hr Hc]. apply bind_ok in H as (w1 & H1 & H).
  eapply quietly_trans; [by eapply (op_then_told w w1 s s' _ (OpGetNextClock _))|].
  destruct ok; [by eapply set_clock_quiet|by eapply handler_stop_quiet].
Qed.

End Told.

Lemma write_packet_quiet p w : (forall v s, sock (handler w) = Some s -> P s v (downs (out w)) -> EvPacket p ∈ events s) ->
  quietly w (pseudo_tcp_socket_write_packet p w).
Proof.
  intros Hp. unfold pseudo_tcp_socket_write_packet. destruct (can_write _); [|apply quietly_refl]. intros v s Hs HP.
  split; [|cbn; by rewrite ups_app, app_nil_r]. exists s. split; [done|]. split; [reflexivity|]. cbn. rewrite downs_app. cbn.
  apply keeps_down; [done|by eapply Hp].
Qed.

Lemma quiet_fuel fuel : quiet_callbacks (callbacks_of A fuel).
Proof.
  induction fuel as [|fuel IH]; intros l w w' s v H Hs Hl Hp; [done|]. cbn [callbacks_of] in H. destruct l as [|e l].
  { injection H as <-. split; [|done]. exists s. split; [done|]. split; [reflexivity|done]. }
  apply Forall_cons in Hl as [[He Hne] Hl]. apply bind_ok in H as (w1 & H1 & H).
  assert (holds v s w1 /\ ups (out w1) = ups (out w)) as [(s1 & Hs1 & C1 & P1) U1].
  { destruct e; [| |done| |].
    - injection H1 as <-. apply write_packet_quiet; [|done|done]. intros v0 s0 Hs0 _. by assert (s0 = s) as -> by congruence.
    - injection H1 as <-. split; [|cbn; by rewrite ups_app, app_nil_r]. exists s. split; [done|]. split; [reflexivity|]. cbn.
      by rewrite downs_app, app_nil_r.
    - injection H1 as <-. split; [|done]. exists s. split; [done|]. split; [reflexivity|done].
    - apply (handler_stop_quiet _ IH) in H1. apply H1; [done|]. done. }
  destruct (IH _ _ _ s1 v H Hs1) as [(s2 & Hs2 & C2 & P2) U2]; [by eapply told_in_calm|done|].
  split; [|congruence]. exists s2. split; [done|]. split; [by etrans|done].
Qed.

(** ** Calls in which what has been read goes up *)

(** The socket is still there and has told more; [P] holds of what has gone up and down. *)
Definition kept w w' : Prop := forall s, sock (handler w) = Some s -> P s (ups (out w)) (downs (out w)) ->
  exists s', sock (handler w') = Some s' /\ calm s s' /\ P s' (ups (out w')) (downs (out w')).

Lemma quietly_kept w w' : quietly w w' -> kept w w'.
Proof. intros H s Hs Hp. destruct (H _ s Hs Hp) as [(s' & Hs' & Hc & Hp') U]. exists s'. rewrite U. done. Qed.

Lemma kept_through w1 w2 w3 : kept w1 w2 -> kept w2 w3 -> kept w1 w3.
Proof.
  intros H1 H2 s Hs Hp. destruct (H1 s Hs Hp) as (s2 & Hs2 & C2 & P2). destruct (H2 s2 Hs2 P2) as (s3 & Hs3 & C3 & P3).
  exists s3. split; [done|]. split; [by etrans|done].
Qed.

Lemma stop_kept fuel e w w' : reliable_handler_stop A (callbacks_of A fuel) e w = Ok w' -> kept w w'.
Proof. intros H. by eapply quietly_kept, handler_stop_quiet, H; apply quiet_fuel. Qed.

Lemma adjust_kept fuel w w' : reliable_handler_adjust_clock A (callbacks_of A fuel) w = Ok w' -> kept w w'.
Proof. intros H. by eapply quietly_kept, adjust_quiet, H; apply quiet_fuel. Qed.

(** What an operation other than the arrival of a packet tells. *)
Lemma calm_told_kept fuel s s' v d w w' : sock (handler w) = Some s -> calm s s' -> P s' v d -> downs (out w) = d ->
  callbacks_of A fuel (told_since s s') (with_sock s' w) = Ok w' -> holds v s w' /\ ups (out w') = ups (out w).
Proof.
  intros Hs Hc Hp <- H. destruct (quiet_fuel fuel _ _ _ s' v H) as [(s2 & Hs2 & C2 & P2) U]; [done|by apply told_since_in|done|].
  split; [|exact U]. exists s2. split; [done|]. split; [by etrans|done].
Qed.

Lemma readable_kept fuel rounds w w' : pseudo_tcp_socket_readable A (callbacks_of A fuel) rounds w = Ok w' -> kept w w'.
Proof.
  revert w w'. induction rounds as [|rounds IH]; intros w w' H; [done|]. cbn [pseudo_tcp_socket_readable] in H.
  apply bind_ok in H as (s0 & Hs0 & H). unfold the_sock in Hs0. destruct (sock (handler w)) as [s1|] eqn:Hs; [|done]. injection Hs0 as <-.
  apply bind_ok in H as ([[len data] s'] & Hr & H). apply bind_ok in H as (w1 & H1 & H). intros s Hs2 Hp. rewrite Hs in Hs2. injection Hs2 as ->.
  pose proof (calm_recv _ _ _ _ Hr) as Hc. cbn in Hc.
  destruct (calm_told_kept fuel s s' (ups (out w) ++ data) _ w w1 Hs Hc (keeps_recv _ _ _ _ _ _ _ Hp Hr) eq_refl H1) as [(s3 & Hs3 & C3 & P3) U3].
  assert (data = [] -> P s3 (ups (out w1)) (downs (out w1))) as P3' by (intros ->; by rewrite U3, <- (app_nil_r (ups (out w)))).
  assert (forall w'', kept w1 w'' -> data = [] -> exists s', sock (handler w'') = Some s' /\ calm s s' /\ P s' (ups (out w'')) (downs (out w''))) as Hend.
  { intros w'' Hk Hd. destruct (Hk s3 Hs3 (P3' Hd)) as (s4 & Hs4 & C4 & P4). exists s4. split; [done|]. split; [by etrans|done]. }
  apply recv_data in Hr as Hl. pose proof (zlen_nonneg data) as Hn. destruct (len =? 0) eqn:E0; [|destruct (len <? 0) eqn:E1]; zify_tests.
  - destruct Hl as [Hl|[Hl _]]; [|lia]. apply Hend; [|apply zlen_zero; lia]. unfold the_sock in H. rewrite Hs3 in H. cbn [mbind outcome_bind] in H.
    apply bind_ok in H as (s4 & Hcl & H). apply bind_ok in H as (w2 & H2 & H%adjust_kept). eapply kept_through; [|exact H].
    apply close_op in Hcl as [Hro Hcc]. apply quietly_kept. by eapply (op_then_told _ (quiet_fuel fuel) w1 w2 s3 s4 _ (OpClose false)).
  - destruct Hl as [Hl|[_ Hl]]; [lia|]. apply Hend; [|done]. apply bind_ok in H as (s4 & _ & H). apply bind_ok in H as (w2 & H2 & H%adjust_kept).
    eapply kept_through; [|exact H]. destruct (negb _); [by eapply stop_kept|]. injection H2 as <-. by apply quietly_kept, quietly_refl.
  - assert (exists s4, sock (handler (stream_base_on_data data w1)) = Some s4 /\ calm s s4 /\
      P s4 (ups (out (stream_base_on_data data w1))) (downs (out (stream_base_on_data data w1)))) as (s4 & Hs4 & C4 & P4).
    { exists s3. split; [done|]. split; [done|]. cbn. rewrite ups_app, downs_app, U3.
      change (ups [up_data data]) with (data ++ []). change (downs [up_data data]) with (@nil bytes). by rewrite !app_nil_r. }
    apply bind_ok in H as (s5 & _ & H). destruct (pseudo_tcp_socket_is_closed s5); [injection H as <-; by exists s4|].
    destruct (IH _ _ H s4 Hs4 P4) as (s6 & Hs6 & C6 & P6). exists s6. split; [done|]. split; [by etrans|done].
Qed.

(** ** The callbacks after any operation *)

Lemma callbacks_kept fuel : forall l w w' s, callbacks_of A fuel l w = Ok w' -> sock (handler w) = Some s -> Forall (fun e => e ∈ events s) l ->
  P s (ups (out w)) (downs (out w)) -> exists s', sock (handler w') = Some s' /\ calm s s' /\ P s' (ups (out w')) (downs (out w')).
Proof.
  induction fuel as [|fuel IH]; intros l w w' s H Hs Hl Hp; [done|]. cbn [callbacks_of] in H. destruct l as [|e l].
  { injection H as <-. by exists s. }
  apply Forall_cons in Hl as [He Hl]. apply bind_ok in H as (w1 & H1 & H).
  assert (kept w w1) as Hk.
  { destruct e.
    - injection H1 as <-. apply quietly_kept, write_packet_quiet. intros v0 s0 Hs0 _. by assert (s0 = s) as -> by congruence.
    - injection H1 as <-. apply quietly_kept, quietly_same; [done|..]; cbn; rewrite ?ups_app, ?downs_app; by rewrite app_nil_r.
    - by eapply readable_kept.
    - injection H1 as <-. by apply quietly_kept, quietly_refl.
    - apply stop_kept in H1. eapply kept_through; [|exact H1]. by apply quietly_kept, quietly_same. }
  destruct (Hk s Hs Hp) as (s1 & Hs1 & C1 & P1). destruct (IH _ _ _ s1 H Hs1) as (s2 & Hs2 & C2 & P2); [|done|].
  - eapply Forall_impl; [exact Hl|]. cbn. intros e' He'. destruct C1 as [(k & -> & _) _]. apply elem_of_app. by right.
  - exists s2. split; [done|]. split; [by etrans|done].
Qed.

(** Wherever [P] holds, it holds after the callbacks of an operation from which it holds. *)
Lemma told_kept fuel s s' w w' : P s' (ups (out w)) (downs (out w)) -> callbacks_of A fuel (told_since s s') (with_sock s' w) = Ok w' ->
  exists s2, sock (handler w') = Some s2 /\ P s2 (ups (out w')) (downs (out w')).
Proof.
  intros Hp H. eapply callbacks_kept in H as (s2 & Hs2 & _ & P2); [by exists s2|done| |done].
  apply Forall_forall. intros e He. unfold told_since in He. apply list_elem_of_In, in_rev, list_elem_of_In in He.
  by apply elem_of_take in He as (i & Hi%list_elem_of_lookup_2 & _).
Qed.

(** [P] holds in the world. *)
Definition now_holds w : Prop := exists s, sock (handler w) = Some s /\ P s (ups (out w)) (downs (out w)).

Lemma kept_now w w' : kept w w' -> now_holds w -> now_holds w'.
Proof. intros Hk (s & Hs & Hp). destruct (Hk s Hs Hp) as (s' & Hs' & _ & Hp'). by exists s'. Qed.

Lemma same_now w w' : sock (handler w') = sock (handler w) -> out w' = out w -> now_holds w -> now_holds w'.
Proof. intros Hs Ho (s & Hs' & Hp). exists s. by rewrite Hs, Ho. Qed.

(** An operation of the socket from which [P] holds, with its callbacks and the clock. *)
Lemma round_now fuel s s' w w1 w' : P s' (ups (out w)) (downs (out w)) -> callbacks_of A fuel (told_since s s') (with_sock s' w) = Ok w1 ->
  reliable_handler_adjust_clock A (callbacks_of A fuel) w1 = Ok w' -> now_holds w'.
Proof. intros Hp H1 H2. apply adjust_kept in H2. eapply kept_now; [exact H2|]. by eapply told_kept. Qed.

Lemma schedule_now id t w w' : ice_worker_schedule_timer A id t w = Ok w' -> now_holds w -> now_holds w'.
Proof. intros H. by eapply kept_now, quietly_kept, schedule_quiet. Qed.

Lemma timer_now fuel id w w' : ice_timer_callback A fuel id w = Ok w' -> now_holds w -> now_holds w'.
Proof.
  unfold ice_timer_callback. destruct (timers w !! id) as [[period [e|]]|]; try done. intros H Hn. apply bind_ok in H as ([b w1] & H1 & H).
  assert (now_holds w1) as Hn1.
  { unfold reliable_handler_timer_callback in H1. apply bind_ok in H1 as (s & Hs & H1). unfold the_sock in Hs. destruct Hn as (s0 & Hs0 & Hp).
    cbn in Hs, H1. rewrite Hs0 in Hs. injection Hs as <-. destruct (clock _); [|injection H1 as _ <-; by exists s0].
    apply bind_ok in H1 as (s' & Hc & H1). apply bind_ok in H1 as (w2 & H2 & H1). apply bind_ok in H1 as (w3 & H3 & H1). injection H1 as _ <-.
    eapply round_now; [|exact H2|exact H3]. exact (keeps_op _ OpNotifyClock _ _ _ _ I Hp Hc). }
  destruct b; [|by injection H as <-]. cbn in H. apply schedule_now in H; [done|]. by eapply same_now.
Qed.

(** What comes up from the layers below is kept as far as the socket keeps it. *)
Lemma state_now fuel st w w' : reliable_handler_on_state_changed A fuel st w = Ok w' ->
  (forall s env s' b, sock (handler w) = Some s -> pseudo_tcp_socket_connect env s = Ok (b, s') -> P s (ups (out w)) (downs (out w)) -> P s' (ups (out w)) (downs (out w))) ->
  now_holds w -> now_holds w'.
Proof.
  intros H Hcon (s & Hs & Hp). unfold reliable_handler_on_state_changed in H. destruct (_ =? _).
  - apply bind_ok in H as (s0 & Hs0 & H). unfold the_sock in Hs0. rewrite Hs in Hs0. injection Hs0 as <-.
    apply bind_ok in H as ([b s'] & Hc & H). apply bind_ok in H as (w1 & H1 & H). cbn [fst snd] in *.
    destruct b; [eapply round_now; [|exact H1|exact H]; by eapply Hcon|]. injection H as <-. eapply told_kept; [|exact H1]. by eapply Hcon.
  - injection H as <-. exists s. split; [done|]. cbn. rewrite ups_app, downs_app. by rewrite !app_nil_r.
Qed.

Lemma packet_now fuel p w w' s : reliable_handler_on_rx_data A fuel p w = Ok w' -> sock (handler w) = Some s ->
  (forall env s' b, pseudo_tcp_socket_notify_packet env s p (zlen p) = Ok (b, s') -> P s' (ups (out w)) (downs (out w))) -> now_holds w'.
Proof.
  intros H Hs Hpk. unfold reliable_handler_on_rx_data in H. apply bind_ok in H as (s0 & Hs0 & H). unfold the_sock in Hs0. rewrite Hs in Hs0. injection Hs0 as <-.
  apply bind_ok in H as ([b s'] & Hc & H). apply bind_ok in H as (w1 & H1 & H). cbn [snd] in H1.
  eapply told_kept in H1 as Hn; [|by eapply Hpk]. apply bind_ok in H as (s1 & _ & H). destruct (pseudo_tcp_socket_is_closed s1); [by injection H as <-|].
  apply adjust_kept in H. by eapply kept_now.
Qed.

Lemma adjust_now fuel w w' : reliable_handler_adjust_clock A (callbacks_of A fuel) w = Ok w' -> now_holds w -> now_holds w'.
Proof. intros H. by eapply kept_now, adjust_kept. Qed.

Lemma stop_now fuel e w w' : reliable_handler_stop A (callbacks_of A fuel) e w = Ok w' -> now_holds w -> now_holds w'.
Proof. intros H. by eapply kept_now, stop_kept. Qed.

End Kept.

End ReliableCalls.
