(* ===== verification/ReliableThm.v ===== *)
(** * The reliable handler, theorems

    What the handlers at the two ends of a stream do together, what a write amounts to,
    what the application hears of an error, and when the timer fires. *)

From Stdlib Require Import ZArith Lia.
From stdpp Require Import prelude gmap list sorting.
From S2P Require Import Prelude Mux FlexBuffer TcpFifo TcpBase TcpTypes TcpOps TcpProcess TcpApi TcpDemo TcpState TcpFrame TcpReceive TcpDelivery TcpSend TcpEndToEnd TcpEvents Reliable ReliableCalls.
Import Fifo Seq Wire State Tcp TcpIn TcpApi Demo StateThm Frame Receive Delivery Send EndToEnd Events Reliable ReliableCalls.

Module ReliableThm.

(** ** Two handlers and an unreliable network *)

(** What the thread of the writer or the worker does with the handler, a round of a
    write among it, and the bytes that it takes from the application. *)
Inductive action := Round (buf : bytes) | Handled (i : input) | Adjust | Stop (error : Z).

Definition act (A : answers) (fuel : nat) (a : action) w : outcome (bytes * world) :=
  match a with
  | Round buf => r ← write_round A fuel buf w; Ok (ztake (fst r) buf, snd r)
  | Handled i => w ← handle A fuel i w; Ok ([], w)
  | Adjust => w ← reliable_handler_adjust_clock A (callbacks_of A fuel) w; Ok ([], w)
  | Stop e => w ← reliable_handler_stop A (callbacks_of A fuel) e w; Ok ([], w)
  end.

Section Ends.
Context (lo : Z).

(** Every stream that agrees with what has been written is the stream of the socket, and
    of the packets that have gone down. *)
Definition writer_ok (b : bytes) (s : Sock) (_ : bytes) (d : list bytes) : Prop :=
  forall S, agrees S lo b -> SInv S lo (lo + zlen b) s /\ Forall (pkt_ok S lo (lo + zlen b)) d.

Definition reader_ok (b : bytes) (s : Sock) (v : bytes) (_ : list bytes) : Prop :=
  rcv_fin s = 0 /\ forall S, agrees S lo b -> DeliveryInv S lo (s, v).

#[local] Instance writer_keeps b : Keeps (writer_ok b).
Proof.
  split.
  - intros env o s s' v d Ho H Hr S HS. destruct (H S HS) as [H1 H2]. split; [|done]. eapply (send_run_op S lo env _ s o); [by destruct o|done|done].
  - intros env s s' v d r data H Hr S HS. destruct (H S HS) as [H1 H2]. split; [|done]. exact (send_recv S lo env _ s _ H1 _ Hr).
  - intros s v d p H Hp S HS. destruct (H S HS) as [H1 H2]. split; [done|]. apply Forall_app. split; [done|]. apply Forall_singleton.
    exact (proj1 (Forall_forall _ _) (proj2 H1) _ Hp).
Qed.

Lemma internal_not_receiving o : internal o -> not_receiving o.
Proof. by destruct o. Qed.

Lemma reader_other b env o s s' v d : not_receiving o -> run_op env o s = Ok s' -> reader_ok b s v d -> reader_ok b s' v d.
Proof.
  intros Ho Hr [Hf H]. split.
  - by destruct (keeps_run_op env o s Ho _ Hr) as (_ & _ & _ & -> & _).
  - intros S HS. eapply step_inv; [by apply H|]. by eapply step_other.
Qed.

#[local] Instance reader_keeps b : Keeps (reader_ok b).
Proof.
  split.
  - intros env o s s' v d Ho H Hr. by eapply reader_other; [apply internal_not_receiving| |].
  - intros env s s' v d r data [Hf H] Hr. split; [pose proof (reader_keeps_fin env recv_len s _ Hr); cbn in *; congruence|].
    intros S HS. eapply step_inv; [by apply H|]. eapply step_read; [|exact Hr]. rewrite recv_len_value. lia.
  - done.
Qed.

(** The two handlers and what has been written to the first. *)
Record Duo := mkDuo { at_writer : world; written : bytes; at_reader : world }.

Definition may_act (a : action) w : Prop :=
  match a with
  | Round buf => zlen buf < 2 ^ 31
  | Handled (Packet _) => forall s, sock (handler w) = Some s -> may_process s
  | Handled (StateChanged _) => forall s, sock (handler w) = Some s -> state s <> TCP_LISTEN
  | _ => True
  end.

(** A packet that the first has handed down, neither the connect message nor a FIN. *)
Definition crossing w (p : bytes) : Prop :=
  p ∈ downs (out w) /\ exists seg, parse_header (ztake HEADER_SIZE p) (zdrop HEADER_SIZE p) = Some seg /\
    has_flag seg FLAG_CTL = false /\ has_flag seg FLAG_FIN = false.

Definition not_packet (a : action) : Prop := match a with Handled (Packet _) => False | _ => True end.

Inductive dstep (A B : answers) : Duo -> Duo -> Prop :=
| dstep_writer fuel a x b y k x' : may_act a x -> act A fuel a x = Ok (k, x') -> dstep A B (mkDuo x b y) (mkDuo x' (b ++ k) y)
| dstep_deliver fuel x b y p y' : crossing x p -> handle B fuel (Packet p) y = Ok y' -> dstep A B (mkDuo x b y) (mkDuo x b y')
| dstep_reader fuel a x b y k y' : not_packet a -> act B fuel a y = Ok (k, y') -> dstep A B (mkDuo x b y) (mkDuo x b y').

Definition DInv (c : Duo) : Prop := now_holds (writer_ok (written c)) (at_writer c) /\ now_holds (reader_ok (written c)) (at_reader c).

(** A write or its round, when nothing but the writer's data is new. *)
Lemma writer_round A fuel b buf w sent w' : zlen buf < 2 ^ 31 -> now_holds (writer_ok b) w -> write_round A fuel buf w = Ok (sent, w') ->
  now_holds (writer_ok (b ++ ztake sent buf)) w'.
Proof.
  intros Hb (s & Hs & Hp) H. unfold write_round in H. apply bind_ok in H as (s0 & Hs0 & H). unfold the_sock in Hs0. rewrite Hs in Hs0. injection Hs0 as <-.
  apply bind_ok in H as ([n s'] & Hse & H). apply bind_ok in H as (w1 & H1 & H). apply bind_ok in H as (w2 & H2 & H). injection H as -> ->.
  eapply round_now; [apply _| |exact H1|exact H2]. intros S HS.
  pose proof (wstep_send (sock_env A w) s b buf (zlen buf) sent s' ltac:(pose proof (zlen_nonneg buf); lia) Hb Hse) as Hst.
  destruct (wstep_inv _ lo S _ _ Hst HS) as [HS0 HI]. cbn [fst snd] in *. destruct (Hp S HS0) as [H3 H4]. split; [by apply HI|].
  eapply Forall_impl; [exact H4|]. intros p. apply pkt_ok_mono. rewrite zlen_app. pose proof (zlen_nonneg (ztake sent buf)). lia.
Qed.

Lemma writer_act A fuel a b w k w' : may_act a w -> now_holds (writer_ok b) w -> act A fuel a w = Ok (k, w') -> now_holds (writer_ok (b ++ k)) w'.
Proof.
  intros Ha Hn H. destruct a as [buf|i| |e]; cbn [act] in H.
  - apply bind_ok in H as ([sent w1] & H1 & H). injection H as <- <-. by eapply writer_round.
  - apply bind_ok in H as (w1 & H1 & H). injection H as <- <-. rewrite app_nil_r. destruct i as [p|st|id]; cbn [handle] in H1.
    + destruct Hn as (s & Hs & Hp). eapply packet_now; [apply _|exact H1|exact Hs|]. intros env s' r Hr S HS. destruct (Hp S HS) as [H3 H4].
      split; [|done]. exact (send_notify_packet S lo env _ s p _ H3 (Ha s Hs) _ Hr).
    + eapply state_now; [apply _|exact H1| |done]. intros s env s' r Hs Hr Hp S HS. destruct (Hp S HS) as [H3 H4]. split; [|done].
      eapply (send_run_op S lo env _ s OpConnect); [by apply Ha|done|]. cbn. by rewrite Hr.
    + eapply timer_now; [apply _|exact H1|done].
  - apply bind_ok in H as (w1 & H1 & H). injection H as <- <-. rewrite app_nil_r. eapply adjust_now; [apply _|exact H1|done].
  - apply bind_ok in H as (w1 & H1 & H). injection H as <- <-. rewrite app_nil_r. eapply stop_now; [apply _|exact H1|done].
Qed.

Lemma reader_more b k w : now_holds (reader_ok b) w -> now_holds (reader_ok (b ++ k)) w.
Proof. intros (s & Hs & Hf & H). exists s. split; [done|]. split; [done|]. intros S [HS _]%agrees_app. by apply H. Qed.

Lemma reader_act B fuel a b w k w' : not_packet a -> now_holds (reader_ok b) w -> act B fuel a w = Ok (k, w') -> now_holds (reader_ok b) w'.
Proof.
  intros Ha Hn H. destruct a as [buf|i| |e]; cbn [act] in H.
  - apply bind_ok in H as ([sent w1] & H1 & H). injection H as <- <-. destruct Hn as (s & Hs & Hp). unfold write_round in H1.
    apply bind_ok in H1 as (s0 & Hs0 & H). unfold the_sock in Hs0. rewrite Hs in Hs0. injection Hs0 as <-.
    apply bind_ok in H as ([n s'] & Hse & H). apply bind_ok in H as (w2 & H1 & H). apply bind_ok in H as (w3 & H2 & H). injection H as -> ->.
    eapply round_now; [apply _| |exact H1|exact H2]. eapply (reader_other b _ (OpSend buf (zlen buf))); [done| |exact Hp]. cbn. by rewrite Hse.
  - apply bind_ok in H as (w1 & H1 & H). injection H as _ <-. destruct i as [p|st|id]; cbn [handle] in H1; [done| |].
    + eapply state_now; [apply _|exact H1| |done]. intros s env s' r Hs Hr Hp. eapply (reader_other b _ OpConnect); [done| |exact Hp]. cbn. by rewrite Hr.
    + eapply timer_now; [apply _|exact H1|done].
  - apply bind_ok in H as (w1 & H1 & H). injection H as _ <-. eapply adjust_now; [apply _|exact H1|done].
  - apply bind_ok in H as (w1 & H1 & H). injection H as _ <-. eapply stop_now; [apply _|exact H1|done].
Qed.

End Ends.

(** ** From one application to the other *)

(** A handler whose connection is there, with nothing written yet. *)
Definition ready_writer (lo : Z) w : Prop :=
  exists s, sock (handler w) = Some s /\ idle_writer lo s /\ Forall (fun p => EvPacket p ∈ events s) (downs (out w)).

(** A handler that has received nothing since [lo]. *)
Definition ready_reader (lo : Z) w : Prop := exists s, sock (handler w) = Some s /\ idle_reader lo s /\ ups (out w) = [].

Lemma ready_writer_ok lo w : ready_writer lo w -> now_holds (writer_ok lo []) w.
Proof.
  intros (s & Hs & Hi & Hd). exists s. split; [done|]. intros S _. rewrite zlen_nil, Z.add_0_r.
  assert (SInv S lo lo s) as HI by (by apply idle_writer_SInv). split; [done|].
  eapply Forall_impl; [exact Hd|]. intros p Hp. exact (proj1 (Forall_forall _ _) (proj2 HI) _ Hp).
Qed.

Lemma ready_reader_ok lo w : ready_reader lo w -> now_holds (reader_ok lo []) w.
Proof.
  intros (s & Hs & Hi & Hu). exists s. rewrite Hu. split; [done|]. split; [apply Hi|]. intros S _.
  pose proof (idle_reader_RecvInv S lo s Hi) as HR. unfold DeliveryInv, next_pos. cbn [fst snd].
  rewrite zlen_nil, (ir_empty _ _ Hi), !Z.add_0_r. split; [done|]. split; [apply Hi|done].
Qed.

(** What the two sockets are, the invariant of the sockets' theorem holds of. *)
Lemma DInv_LInv lo x b y : DInv lo (mkDuo x b y) -> exists a s, sock (handler y) = Some s /\ LInv lo (mkLink a b s (ups (out y))) /\
  forall S, agrees S lo b -> Forall (pkt_ok S lo (lo + zlen b)) (downs (out x)).
Proof.
  intros [(a & Ha & Hw) (s & Hs & Hf & Hr)]. exists a, s. split; [done|]. split; [|intros S HS; by apply Hw].
  split; [done|]. intros S HS. split; [by apply Hw|by apply Hr].
Qed.

Lemma deliver_inv lo B fuel x b y p y' : DInv lo (mkDuo x b y) -> 0 < lo -> lo + zlen b < 2 ^ 30 -> crossing x p ->
  handle B fuel (Packet p) y = Ok y' -> DInv lo (mkDuo x b y').
Proof.
  intros HD Hlo Hsm [Hp Hseg] H. pose proof HD as [Hw _]. split; [exact Hw|]. cbn [handle written at_reader] in *.
  destruct (DInv_LInv lo x b y HD) as (a & s & Hs & HL & Hd). pose proof (LInv_bound lo _ HL) as HN. cbn in HN. destruct HL as [Hf HL]. cbn in Hf, HL.
  assert (forall S, agrees S lo b -> peer_packet S lo (s, ups (out y)) p) as Hpp.
  { intros S HS. destruct (HL S HS) as [_ HD']. eapply written_packet_peer; try done. exact (proj1 (Forall_forall _ _) (Hd S HS) _ Hp). }
  eapply packet_now; [apply reader_keeps|exact H|exact Hs|]. intros env s' r Hr. split.
  - rewrite <- Hf. pose proof (stream_of_agrees lo b 0) as HS. eapply packet_keeps_fin; [by apply HL|by apply Hpp| |exact Hr].
    intros seg Hsg. destruct Hseg as (g & Hg & _ & Hfin). rewrite Hg in Hsg. by injection Hsg as <-.
  - intros S HS. eapply step_inv; [by apply HL|]. eapply step_packet; [by apply Hpp|exact Hr].
Qed.

Lemma dstep_written A B c c' : dstep A B c c' -> exists k, written c' = written c ++ k.
Proof. intros [fuel a x b y k x' _ _| |]; [by exists k|by exists []; rewrite app_nil_r..]. Qed.

Lemma dstep_inv lo A B c c' : DInv lo c -> 0 < lo -> lo + zlen (written c') < 2 ^ 30 -> dstep A B c c' -> DInv lo c'.
Proof.
  intros HD Hlo Hsm Hst. destruct Hst as [fuel a x b y k x' Ha H|fuel x b y p y' Hp H|fuel a x b y k y' Ha H].
  - destruct HD as [Hw Hr]. split; [by eapply writer_act|by apply reader_more].
  - by eapply deliver_inv.
  - destruct HD as [Hw Hr]. split; [done|by eapply reader_act].
Qed.


(** ** A write *)

(** The actions in order, and all the bytes that they take. *)
Fixpoint acts (A : answers) (fuel : nat) (l : list action) w : outcome (bytes * world) :=
  match l with
  | [] => Ok ([], w)
  | a :: l =>
      r ← act A fuel a w;
      r' ← acts A fuel l (snd r);
      Ok (fst r ++ fst r', snd r')
  end.

(** What a write of [buf] does: rounds with what is left of it, and, while it sleeps,
    what the worker handles. *)
Definition writes (buf : bytes) (sleeps : list (list input)) (a : action) : Prop :=
  match a with
  | Round rest => exists k, k ++ rest = buf
  | Handled i => exists l, l ∈ sleeps /\ i ∈ l
  | Adjust => True
  | Stop _ => False
  end.

Lemma writes_later buf k rest l sleeps a : k ++ rest = buf -> writes rest sleeps a -> writes buf (l :: sleeps) a.
Proof.
  intros Hk. destruct a as [r|i| |e]; cbn; [|intros (l' & H1 & H2); exists l'; split; [by right|done]|done..].
  intros [j Hj]. exists (k ++ j). by rewrite <- app_assoc, Hj.
Qed.

Lemma writes_rest buf k rest sleeps a : k ++ rest = buf -> writes rest sleeps a -> writes buf sleeps a.
Proof. intros Hk. destruct a as [r|i| |e]; cbn; try done. intros [j Hj]. exists (k ++ j). by rewrite <- app_assoc, Hj. Qed.

Lemma acts_app A fuel l k w r r' : acts A fuel l w = Ok r -> acts A fuel k r.2 = Ok r' -> acts A fuel (l ++ k) w = Ok (r.1 ++ r'.1, r'.2).
Proof.
  revert w r. induction l as [|a l IH]; intros w r H H'; cbn [acts app] in *; [injection H as <-; cbn [fst snd] in *; rewrite H'; by destruct r'|].
  destruct (act A fuel a w) as [[k1 w1]| | |]; try done. cbn in *. apply bind_ok in H as (r1 & H1 & H). injection H as <-. cbn in H'.
  rewrite (IH _ _ H1 H'). cbn. by rewrite app_assoc.
Qed.

Lemma handled_acts A fuel l w w' : handle_all A fuel l w = Ok w' -> acts A fuel (Handled <$> l) w = Ok ([], w').
Proof.
  revert w. induction l as [|i l IH]; intros w H; cbn in *; [by injection H as <-|]. destruct (handle A fuel i w) as [w1| | |]; try done.
  cbn in *. by rewrite (IH _ H).
Qed.

(** What a write that ends with [r] has done: it has stopped with an error, or everything
    has been taken. *)
Definition wrote (A : answers) (fuel : nat) (buf : bytes) (sleeps : list (list input)) w (r : Z + unit) w' : Prop :=
  match r with
  | inr _ => exists l, acts A fuel l w = Ok (buf, w') /\ Forall (writes buf sleeps) l
  | inl rc => exists l e k, acts A fuel (l ++ [Stop e]) w = Ok (k, w') /\ Forall (writes buf sleeps) l /\ k `prefix_of` buf /\
      e <> EWOULDBLOCK /\ rc = IOEX_SYS_ERROR e
  end.

Lemma wrote_more A fuel buf sleeps rest sl pre k w w1 r w' : acts A fuel pre w = Ok (k, w1) -> Forall (writes buf sleeps) pre -> k ++ rest = buf ->
  (forall a, writes rest sl a -> writes buf sleeps a) -> wrote A fuel rest sl w1 r w' -> wrote A fuel buf sleeps w r w'.
Proof.
  intros Hpre Hw Hk Hmore Hr. destruct r as [rc|[]]; cbn [wrote] in *.
  - destruct Hr as (l & e & j & Hl & Hf & [i ->] & He). exists (pre ++ l), e, (k ++ j). rewrite <- app_assoc.
    rewrite (acts_app _ _ _ _ _ _ _ Hpre Hl). split; [done|]. split; [|split; [exists i; by rewrite <- app_assoc, Hk|done]].
    apply Forall_app. split; [done|]. by eapply Forall_impl.
  - destruct Hr as (l & Hl & Hf). exists (pre ++ l). rewrite (acts_app _ _ _ _ _ _ _ Hpre Hl). cbn [fst snd]. rewrite Hk. split; [done|].
    apply Forall_app. split; [done|]. by eapply Forall_impl.
Qed.

Lemma write_loop_round A fuel sleeps rounds x l w : write_loop A fuel sleeps (S rounds) (x :: l) w =
  (r ← write_round A fuel (x :: l) w;
   let '(sent, w) := r in
   if sent <? 0 then
     s ← the_sock 394 w;
     let error := pseudo_tcp_socket_get_error s in
     if negb (error =? EWOULDBLOCK) then
       w ← reliable_handler_stop A (callbacks_of A fuel) error w;
       Ok (inl (IOEX_SYS_ERROR error), w)
     else
       match sleeps with
       | [] => NoFuel
       | k :: sleeps =>
           w ← handle_all A fuel k w;
           w ← reliable_handler_adjust_clock A (callbacks_of A fuel) w;
           write_loop A fuel sleeps rounds (x :: l) w
       end
   else write_loop A fuel sleeps rounds (zdrop sent (x :: l)) w).
Proof. reflexivity. Qed.

(** The loop is rounds and what is handled between them. *)
Lemma write_loop_acts A fuel rounds : forall sleeps buf w r w', write_loop A fuel sleeps rounds buf w = Ok (r, w') -> wrote A fuel buf sleeps w r w'.
Proof.
  induction rounds as [|rounds IH]; intros sleeps buf w r w' H; (destruct buf as [|x buf0]; [injection H as <- <-; exists []; by split|]); [done|].
  rewrite write_loop_round in H. set (buf := x :: buf0) in *. apply bind_ok in H as ([sent w1] & H1 & H).
  assert (act A fuel (Round buf) w = Ok (ztake sent buf, w1)) as Ha by (cbn; by rewrite H1).
  assert (writes buf sleeps (Round buf)) as Hw by (by exists []).
  destruct (sent <? 0) eqn:Hs; zify_tests.
  - replace (ztake sent buf) with (@nil Z) in Ha by (unfold ztake; by replace (Z.to_nat sent) with 0%nat by lia).
    apply bind_ok in H as (s & _ & H). cbv zeta in H. destruct (negb _) eqn:He.
    + apply negb_true_iff, Z.eqb_neq in He. apply bind_ok in H as (w2 & H2 & H). injection H as <- <-.
      exists [Round buf], (pseudo_tcp_socket_get_error s), []. split; [cbn [app acts]; rewrite Ha; cbn; by rewrite H2|].
      split; [by apply Forall_singleton|]. split; [by exists buf|done].
    + destruct sleeps as [|l sleeps]; [done|]. apply bind_ok in H as (w2 & H2%handled_acts & H). apply bind_ok in H as (w3 & H3 & H).
      eapply (wrote_more _ _ _ _ buf sleeps (Round buf :: (Handled <$> l) ++ [Adjust]) [] w w3); [| |done| |by apply IH].
      * cbn [acts]. rewrite Ha. cbn [mbind outcome_bind snd fst].
        rewrite (acts_app _ _ _ [Adjust] w1 ([], w2) ([], w3) H2); [done|]. cbn. by rewrite H3.
      * constructor; [done|]. apply Forall_app. split; [|by apply Forall_singleton]. apply Forall_forall.
        intros a (i & -> & Hi)%list_elem_of_fmap. exists l. split; [by left|done].
      * intros a. by apply (writes_later buf []).
  - eapply (wrote_more _ _ _ _ (zdrop sent buf) sleeps [Round buf] (ztake sent buf) w w1); [|by apply Forall_singleton|apply ztake_zdrop| |by apply IH].
    + cbn [acts]. rewrite Ha. cbn. by rewrite app_nil_r.
    + intros a. by apply (writes_rest buf (ztake sent buf)), ztake_zdrop.
Qed.

(** What a write amounts to. On a connected stream a write is a sequence of rounds,
    each with what is left of the bytes, between which the worker handles packets,
    changes of state and timers and the clock is adjusted. When it returns the length,
    the rounds have taken exactly the bytes, once each and in their order. Otherwise
    they have taken a prefix of them, the handler has been stopped with the socket's
    error, and the error, negative, is what it returns. On a stream that is not connected the
    answer is that the state is wrong, and nothing happens. *)
Theorem write_takes_all (A : answers) (fuel rounds : nat) (sleeps : list (list input)) (buf : bytes) (w w' : world) (rc : Z) :
  reliable_handler_write A fuel sleeps rounds buf w = Ok (rc, w') ->
  if stream_state w =? IOEXStreamState_connected then
    (rc = zlen buf /\ exists l, acts A fuel l w = Ok (buf, w') /\ Forall (writes buf sleeps) l) \/
    (exists l e k, acts A fuel (l ++ [Stop e]) w = Ok (k, w') /\ Forall (writes buf sleeps) l /\ k `prefix_of` buf /\
       e <> EWOULDBLOCK /\ rc = IOEX_SYS_ERROR e /\ rc < 0)
  else rc = Mux.IOEX_GENERAL_ERROR Mux.IOEXERR_WRONG_STATE /\ w' = w.
Proof.
  unfold reliable_handler_write. intros H. apply bind_ok in H as (s & _ & H). destruct (_ =? _); cbn [negb] in H; [|by injection H as <- <-].
  apply bind_ok in H as ([[rc'|[]] w1] & H1%write_loop_acts & H); injection H as <- <-; [right|by left].
  destruct H1 as (l & e & k & H1 & H2 & H3 & H4 & ->). exists l, e, k. split_and!; try done. apply Mux.mk_error_negative.
Qed.

(** ** What the application hears of an error *)

Lemma stop_stops A told e w w' : reliable_handler_stop A told e w = Ok w' -> stopping w' = true.
Proof.
  unfold reliable_handler_stop. intros H. apply bind_ok in H as (w1 & _ & H). apply bind_ok in H as (w2 & _ & H).
  injection H as <-. unfold ice_handler_stop. destruct (stopping w2) eqn:E; [done|]. destruct (_ <=? _); [|done]. by destruct (_ <=? _).
Qed.

Lemma told_stops A fuel : forall l w w', callbacks_of A fuel l w = Ok w' -> EvReadable ∉ l -> (stopping w = true \/ exists err, EvClosed err ∈ l) -> stopping w' = true.
Proof.
  induction fuel as [|fuel IH]; intros l w w' H Hl Hst; [done|]. cbn [callbacks_of] in H. destruct l as [|e l].
  { injection H as <-. destruct Hst as [|[err []%not_elem_of_nil]]. done. }
  apply not_elem_of_cons in Hl as [He Hl]. apply bind_ok in H as (w1 & H1 & H).
  assert (stopping w1 = true \/ (forall err, e <> EvClosed err) /\ stopping w1 = stopping w) as [Hw|[Hne Hw]].
  { destruct e as [p| | | |err]; [right..|left; exact (stop_stops _ _ _ _ _ H1)]; (split; [done|]); try done; injection H1 as <-; try done.
    unfold pseudo_tcp_socket_write_packet. by destruct (can_write _). }
  - by eapply IH; [exact H|done|left].
  - eapply IH; [exact H|done|]. rewrite Hw. destruct Hst as [|[err [Heq|Hin]%elem_of_cons]]; [by left|by destruct (Hne err)|right; by exists err].
Qed.

(** C5. What an error is when it gets to the application. As long as the socket is open,
    the error with which the handler is stopped does not matter: closing the socket
    makes the socket tell that it is closed, its callback stops the handler again and
    with the socket's own reason, and what was to be told after it is not told any more.
    So an error of the socket or of the clock ends a stream like a close does. *)
Theorem stop_hides_error (A : answers) (fuel : nat) (w : world) (s : Sock) (e e' : Z) :
  sock (handler w) = Some s -> has_closed (callbacks s) = true -> sock_closed (handler w) = false -> pseudo_tcp_socket_is_closed s = false ->
  reliable_handler_stop A (callbacks_of A fuel) e w = reliable_handler_stop A (callbacks_of A fuel) e' w.
Proof.
  intros Hs Hc Hsc Ho. unfold reliable_handler_stop. rewrite Hs, Hsc, Ho. cbn [negb andb].
  destruct (pseudo_tcp_socket_close (sock_env A w) s true) as [s'| | |] eqn:Hcl; try done. cbn [mbind outcome_bind].
  destruct (callbacks_of A fuel (told_since s s') (with_sock s' w)) as [w1| | |] eqn:H1; try done. cbn [mbind outcome_bind].
  assert (stopping w1 = true) as Hst.
  { pose proof (calm_close _ _ _ _ Hcl) as Hcalm. pose proof (told_since_in s s' Hcalm) as Ht.
    eapply told_stops; [exact H1| |].
    - intros Hin. by destruct (proj1 (Forall_forall _ _) Ht _ Hin).
    - right. exists ECONNABORTED. unfold pseudo_tcp_socket_is_closed in Ho. unfold pseudo_tcp_socket_close in Hcl. rewrite Ho in Hcl. cbn [andb negb] in Hcl.
      destruct (closedown_told _ _ _ _ _ Hcl Hc) as [l El]; [done|]. unfold told_since. apply list_elem_of_In. rewrite <- in_rev, El.
      cbn [length]. rewrite length_app. replace (S (length l + length (events s)) - length (events s))%nat with (S (length l)) by lia. by left. }
  unfold reliable_handler_destroy_timer, ice_worker_destroy_timer. destruct (clock (handler w1)) as [id|].
  - destruct (timers w1 !! id); [|done]. cbn [mbind outcome_bind]. unfold ice_handler_stop. cbn. by rewrite Hst.
  - cbn [mbind outcome_bind]. unfold ice_handler_stop. by rewrite Hst.
Qed.

(** ** The worker's own thread *)

(** A connected socket whose send buffer has no room. *)
Definition full (s : Sock) : Prop := state s = TCP_ESTABLISHED /\ shutdown s = SD_NONE /\ pseudo_tcp_fifo_get_write_remaining (sbuf s) = 0.

Definition has_full w : Prop := exists s, sock (handler w) = Some s /\ full s.

Lemma told_nothing s s' : events s' = events s -> told_since s s' = [].
Proof. intros E. unfold told_since. rewrite E, Nat.sub_diag. done. Qed.

Lemma callbacks_nothing A fuel w w' : callbacks_of A fuel [] w = Ok w' -> w' = w.
Proof. destruct fuel; [done|]. by intros [= <-]. Qed.

Lemma full_send env s buf : full s -> exists s', pseudo_tcp_socket_send env s buf (zlen buf) = Ok (-1, s') /\ full s' /\ events s' = events s /\ error s' = EWOULDBLOCK.
Proof. intros (Hst & Hsh & Hr). unfold pseudo_tcp_socket_send. rewrite Hst, Hr. cbn. eexists. by split. Qed.

Lemma full_get_next_clock env s t : full s -> exists t' s', pseudo_tcp_socket_get_next_clock env s t = Ok (true, t', s') /\ full s' /\ events s' = events s /\ error s' = error s.
Proof.
  intros (Hst & Hsh & Hr). unfold pseudo_tcp_socket_get_next_clock, get_current_time. cbv zeta.
  destruct (nonzero (current_time s)); cbn [put_nclk shutdown state support_fin_ack]; rewrite Hst, Hsh; cbn [bool_decide decide_rel andb orb negb]; rewrite ?andb_false_r; cbn [negb andb];
    do 2 eexists; by split.
Qed.

Lemma set_clock_sock A t w w' : set_clock A t w = Ok w' -> sock (handler w') = sock (handler w).
Proof.
  unfold set_clock, ice_worker_create_timer, ice_worker_schedule_timer, read_clock. destruct (_ =? _); [by intros [= <-]|].
  destruct (clock _) as [id|]; [destruct (_ !! id); [|done]; by intros [= <-]|]. cbv zeta. destruct (negb _); [bind_simpl; by intros [= <-]|].
  intros H. apply bind_ok in H as ([o w1] & H1 & H). apply bind_ok in H1 as (w2 & H2 & H1). injection H1 as <- <-. injection H as <-.
  cbn in H2. destruct (_ !! _); [|done]. by injection H2 as <-.
Qed.

Lemma full_adjust A fuel w w' : has_full w -> reliable_handler_adjust_clock A (callbacks_of A fuel) w = Ok w' ->
  has_full w' /\ (forall s s', sock (handler w) = Some s -> sock (handler w') = Some s' -> error s' = error s).
Proof.
  intros (s & Hs & Hf) H. unfold reliable_handler_adjust_clock in H. unfold the_sock in H. rewrite Hs in H.
  cbn [mbind outcome_bind] in H. pose proof Hf as (Hst & _ & _). unfold pseudo_tcp_socket_is_closed in H. rewrite Hst in H. cbn [bool_decide decide_rel] in H.
  destruct (full_get_next_clock (sock_env A w) s (last_clock_timeout (handler w)) Hf) as (t & s1 & E & Hf1 & He1 & Hr1). rewrite E in H.
  cbn [mbind outcome_bind] in H. rewrite told_nothing in H by done. apply bind_ok in H as (w1 & H1%callbacks_nothing & H). subst w1.
  apply set_clock_sock in H as Hk. cbn in Hk. split; [by exists s1|]. intros s2 s3 H2 H3. rewrite Hk in H3. rewrite Hs in H2. congruence.
Qed.

(** C6. A write on a full stream returns only when the worker works. When the send
    buffer of a connected stream has no room and the worker handles nothing while the
    writer sleeps, the write never returns, however often it tries. The worker handles
    nothing while a callback of the application runs on its thread: a write from such a
    callback that finds the buffer full does not come back. *)
Theorem write_waits_for_worker (A : answers) (fuel rounds n : nat) (x : Z) (buf : bytes) (w : world) (r : Z * world) :
  stream_state w = IOEXStreamState_connected -> has_full w ->
  reliable_handler_write A fuel (replicate n []) rounds (x :: buf) w <> Ok r.
Proof.
  intros Hst Hf H. unfold reliable_handler_write in H. rewrite Hst in H. cbn [negb Z.eqb] in H. apply bind_ok in H as (s0 & _ & H).
  apply bind_ok in H as (r0 & H & _). clear Hst s0 r. revert n w r0 Hf H. induction rounds as [|rounds IH]; intros n w r0 Hf H; [done|].
  rewrite write_loop_round in H. apply bind_ok in H as ([sent w1] & H1 & H). destruct Hf as (s & Hs & Hf). unfold write_round, the_sock in H1. rewrite Hs in H1.
  cbn [mbind outcome_bind] in H1. destruct (full_send (sock_env A w) s (x :: buf) Hf) as (s1 & E & Hf1 & He1 & Hr1). rewrite E in H1.
  cbn [mbind outcome_bind] in H1. rewrite told_nothing in H1 by done. apply bind_ok in H1 as (w2 & H2%callbacks_nothing & H1). subst w2.
  apply bind_ok in H1 as (w3 & H3 & H1). injection H1 as <- <-.
  assert (has_full (with_sock s1 w)) as Hw by (by exists s1). destruct (full_adjust A fuel _ _ Hw H3) as [(s3 & Hs3 & Hf3) He3].
  cbn [Z.ltb Z.compare] in H. unfold the_sock in H. rewrite Hs3 in H. cbn [mbind outcome_bind] in H. cbv zeta in H.
  unfold pseudo_tcp_socket_get_error in H. rewrite (He3 s1 s3 eq_refl Hs3), Hr1 in H. cbn [Z.eqb negb] in H. rewrite Z.eqb_refl in H. cbn [negb] in H.
  destruct n as [|n]; [done|]. cbn [replicate handle_all] in H. cbn [mbind outcome_bind] in H. apply bind_ok in H as (w4 & H4 & H).
  assert (has_full w3) as Hw3 by (by exists s3). destruct (full_adjust A fuel _ _ Hw3 H4) as [Hf4 _]. exact (IH n w4 r0 Hf4 H).
Qed.

(** ** When the timer fires *)

(** The next reading of the clock, in milliseconds. *)
Definition reading (A : answers) w : Z := get_monotonic_time A (readings w) / 1000.

Lemma schedule_at A id t w w' : ice_worker_schedule_timer A id t w = Ok w' ->
  exists p, (interval <$> timers w !! id) = Some p /\ timers w' !! id = Some (mkTimer p (Some (reading A w + u64 (t - reading A w)))) /\
    handler w' = handler w /\ (forall id', id' <> id -> timers w' !! id' = timers w !! id').
Proof.
  unfold ice_worker_schedule_timer. destruct (timers w !! id) as [tm|] eqn:E; [|done]. cbn. intros [= <-]. exists (interval tm). cbn.
  rewrite lookup_insert_eq. split; [done|]. split; [done|]. split; [done|]. intros id' Hne. by rewrite lookup_insert_ne.
Qed.

Lemma u64_late t now : 0 <= t < 2 ^ 32 -> 0 <= now < 2 ^ 63 -> now + u64 (t - now) = if t <? now then t + 2 ^ 64 else t.
Proof.
  intros Ht Hn. unfold u64. destruct (t <? now) eqn:E; zify_tests.
  - replace (t - now) with (t - now + 2 ^ 64 + (-1) * 2 ^ 64) by lia. rewrite Z.mod_add, Z.mod_small by lia. lia.
  - rewrite Z.mod_small by lia. lia.
Qed.

(** When the timer fires that the socket has asked for. The socket's times have 32
    bits, the worker's clock 64. If the time that the socket asks for has not passed
    when the timer is scheduled, the timer fires at that time. If it has passed, by one
    millisecond or since the worker's clock has gone beyond 2^32 milliseconds, the time
    until then is negative, is taken as unsigned, and the timer fires 2^64 milliseconds
    late. Asking for the same time again does not schedule it again. *)
Theorem late_clock_lost (A : answers) (w w' : world) (id : nat) (t : Z) :
  clock (handler w) = Some id -> t <> last_clock_timeout (handler w) -> 0 <= t < 2 ^ 32 -> 0 <= reading A w < 2 ^ 63 ->
  set_clock A t w = Ok w' ->
  (exists tm, timers w' !! id = Some tm /\ expires tm = Some (if t <? reading A w then t + 2 ^ 64 else t)) /\ set_clock A t w' = Ok w'.
Proof.
  intros Hc Ht Hr Hn H. unfold set_clock in H. rewrite (proj2 (Z.eqb_neq _ _) Ht) in H. cbn in H. rewrite Hc in H.
  apply schedule_at in H as (p & _ & E & Hh & _). split.
  - eexists. split; [exact E|]. cbn [expires]. f_equal. by apply u64_late.
  - unfold set_clock. rewrite Hh. cbn. by rewrite Z.eqb_refl.
Qed.

(** The period wins. Whatever time the socket asks for while its timer is handled,
    the timer is then scheduled one period later, the period being the one with which
    it was created, and so even when the handler has been stopped and has let go of the
    timer while it was handled. *)
Theorem timer_period_wins (A : answers) (fuel id i : nat) (w w' : world) (period t : Z) :
  timers w !! id = Some (mkTimer period (Some t)) -> clock (handler w) = Some i -> ice_timer_callback A fuel id w = Ok w' ->
  exists n, let now := get_monotonic_time A n / 1000 in let after := get_monotonic_time A (S n) / 1000 in
    exists p, timers w' !! id = Some (mkTimer p (Some (after + u64 (now + period - after)))).
Proof.
  intros Ht Hc H. unfold ice_timer_callback in H. rewrite Ht in H. apply bind_ok in H as ([b w1] & H1 & H).
  assert (b = true) as ->.
  { unfold reliable_handler_timer_callback in H1. cbn [handler with_timers] in H1. rewrite Hc in H1. apply bind_ok in H1 as (s & _ & H1).
    apply bind_ok in H1 as (s' & _ & H1). apply bind_ok in H1 as (w2 & _ & H1). apply bind_ok in H1 as (w3 & _ & H1). by injection H1 as <- _. }
  cbn in H. apply schedule_at in H as (p & _ & E & _). exists (readings w1). cbn in E. exists p. exact E.
Qed.

(** ** Two handlers

    The clock goes on a millisecond per reading; the layers below take every packet. *)
Definition answers0 : answers :=
  mkAnswers (fun _ _ => 1) (fun n => (1000 + Z.of_nat n) * 1000) (fun n => (1000 + Z.of_nat n) * 1000) true 0.

Definition get {X} (d : X) (m : outcome X) : X := match m with Ok a => a | _ => d end.
Definition last_down w : bytes := default [] (last (downs (out w))).
Definition created : world := reliable_handler_create IOEXStreamState_connecting.

(** Prepared, with buffers of 128 bytes. *)
Definition prepared : world := with_sock (pseudo_tcp_socket_notify_mtu small_sock DEFAULT_TCP_MTU) created.
Definition a_syn : world := get prepared (handle answers0 50 (StateChanged IOEXStreamState_connected) prepared).
Definition b_syn : world := get prepared (handle answers0 50 (Packet (last_down a_syn)) prepared).
Definition a_open : world := get a_syn (handle answers0 50 (Packet (last_down b_syn)) a_syn).
Definition a_sent : world := (get ([], a_open) (act answers0 50 (Round [1; 2; 3]) a_open)).2.
Definition b_got : world := get b_syn (handle answers0 50 (Packet (last_down a_sent)) b_syn).
Definition sock_of w : Sock := default zero_sock (sock (handler w)).

Example b_opens : b_got.(stream_state) = IOEXStreamState_connected /\ ups (out b_got) = [1; 2; 3].
Proof. split; vm_compute; reflexivity. Qed.

(** An error that the clock finds is heard as a close. *)
Example error_heard : (get a_open (reliable_handler_stop answers0 (callbacks_of answers0 50) (-1) a_open)).(stream_state) = IOEXStreamState_closed.
Proof. vm_compute. reflexivity. Qed.

Lemma a_open_ready : ready_writer 7 a_open.
Proof.
  exists (sock_of a_open). split; [vm_compute; reflexivity|]. split.
  - split; [repeat split; vm_compute; congruence|vm_compute; congruence|vm_compute; reflexivity..|].
    replace (events (sock_of a_open)) with [EvOpened; EvPacket (last_down a_syn)] by (vm_compute; reflexivity).
    constructor; [done|]. constructor; [|done]. intros seg Hs Hc. exfalso. revert Hs Hc. vm_compute. intros [= <-]. done.
  - replace (downs (out a_open)) with [last_down a_syn] by (vm_compute; reflexivity). apply Forall_singleton.
    replace (events (sock_of a_open)) with [EvOpened; EvPacket (last_down a_syn)] by (vm_compute; reflexivity). by right; left.
Qed.

Lemma b_syn_ready : ready_reader 7 b_syn.
Proof.
  exists (sock_of b_syn). split; [vm_compute; reflexivity|]. split; [|vm_compute; reflexivity].
  split; [repeat split; vm_compute; congruence|vm_compute; congruence|vm_compute; reflexivity..].
Qed.


Definition written3 : Z * world := get (0, a_open) (reliable_handler_write answers0 50 [] 10 [1; 2; 3] a_open).

Lemma write_takes_all_witness : reliable_handler_write answers0 50 [] 10 [1; 2; 3] a_open = Ok written3 /\ written3.1 = 3 /\
  exists l, acts answers0 50 l a_open = Ok ([1; 2; 3], written3.2) /\ Forall (writes [1; 2; 3] []) l.
Proof.
  assert (reliable_handler_write answers0 50 [] 10 [1; 2; 3] a_open = Ok (written3.1, written3.2)) as H by (vm_compute; reflexivity).
  assert (written3.1 = 3) as H3 by (vm_compute; reflexivity). split; [rewrite H; by destruct written3|]. split; [exact H3|].
  assert (stream_state a_open =? IOEXStreamState_connected = true) as Hst by (vm_compute; reflexivity).
  pose proof (write_takes_all answers0 50 10 [] [1; 2; 3] a_open written3.2 written3.1 H) as Hw. rewrite Hst in Hw.
  destruct Hw as [[_ Hw]|(l & e & k & _ & _ & _ & _ & _ & He)]; [exact Hw|lia].
Defined.

Lemma stop_hides_error_witness : sock (handler a_open) = Some (sock_of a_open) /\
  reliable_handler_stop answers0 (callbacks_of answers0 50) (-1) a_open = reliable_handler_stop answers0 (callbacks_of answers0 50) 0 a_open.
Proof.
  assert (sock (handler a_open) = Some (sock_of a_open)) as H by (vm_compute; reflexivity). split; [exact H|].
  apply (stop_hides_error answers0 50 a_open (sock_of a_open) (-1) 0 H); vm_compute; reflexivity.
Defined.

(** A stream with a send buffer of three bytes, which are written. *)
Definition a_small : world := with_sock (get zero_sock (resize_send_buffer env0 (sock_of a_open) 3)) a_open.
Definition a_full : world := (get ([], a_small) (act answers0 50 (Round [1; 2; 3]) a_small)).2.

Lemma write_waits_for_worker_witness : has_full a_full /\ forall rounds n, reliable_handler_write answers0 50 (replicate n []) rounds [4] a_full <> Ok (1, a_full).
Proof.
  assert (stream_state a_full = IOEXStreamState_connected) as Hst by (vm_compute; reflexivity).
  assert (has_full a_full) as H by (exists (sock_of a_full); split; [|split; [|split]]; vm_compute; reflexivity).
  split; [exact H|]. intros rounds n. exact (write_waits_for_worker answers0 50 rounds n 4 [] a_full (1, a_full) Hst H).
Defined.

(** The socket asks for the time of the reading before the last one. *)
Lemma late_clock_lost_witness : reading answers0 a_open = 1004 /\ exists w', set_clock answers0 1003 a_open = Ok w' /\
  (exists tm, timers w' !! 0%nat = Some tm /\ expires tm = Some (1003 + 2 ^ 64)) /\ set_clock answers0 1003 w' = Ok w'.
Proof.
  assert (reading answers0 a_open = 1004) as Hr by (vm_compute; reflexivity). split; [exact Hr|].
  exists (get a_open (set_clock answers0 1003 a_open)).
  assert (set_clock answers0 1003 a_open = Ok (get a_open (set_clock answers0 1003 a_open))) as H by (vm_compute; reflexivity).
  split; [exact H|]. pose proof (late_clock_lost answers0 a_open _ 0 1003 ltac:(vm_compute; reflexivity) ltac:(vm_compute; congruence)
    ltac:(lia) ltac:(rewrite Hr; lia) H) as Hl. rewrite Hr in Hl. exact Hl.
Defined.

(** The retransmission timer of the packet that has been sent. *)
Lemma timer_period_wins_witness : timers a_sent !! 0%nat = Some (mkTimer 1000 (Some 1103)) /\
  exists n, let now := get_monotonic_time answers0 n / 1000 in let after := get_monotonic_time answers0 (S n) / 1000 in
    exists p, timers (get a_sent (ice_timer_callback answers0 50 0 a_sent)) !! 0%nat = Some (mkTimer p (Some (after + u64 (now + 1000 - after)))).
Proof.
  assert (timers a_sent !! 0%nat = Some (mkTimer 1000 (Some 1103))) as Ht by (vm_compute; reflexivity). split; [exact Ht|].
  assert (ice_timer_callback answers0 50 0 a_sent = Ok (get a_sent (ice_timer_callback answers0 50 0 a_sent))) as H by (vm_compute; reflexivity).
  exact (timer_period_wins answers0 50 0 0 a_sent _ 1000 1103 Ht ltac:(vm_compute; reflexivity) H).
Defined.

End ReliableThm.
