(* ===== verification/Ice.v ===== *)
(** * The ICE transport of a stream

    src/src/session/ice.c: the lowest handler of a stream's pipeline, over PJNATH. It
    frames the packets of the stream, keeps the link alive, and reports the changes of its
    state through a socket of the worker to itself, so that they happen on the worker's
    thread. PJNATH and the layers above are a type class; a worker has several streams. *)

From Stdlib Require Import ZArith Lia.
From stdpp Require Import prelude gmap list.
From S2P Require Import Prelude Mux FlexBuffer.

Module Ice.

Definition DEFAULT_KEEPALIVE_INTERVAL : Z := 30000.
Definition DEFAULT_TIMEOUT_INTERVAL : Z := 120000.
Definition PKT_SHUTDOWN : Z := 0.
Definition PKT_KEEPALIVE : Z := 1.
Definition PKT_DATA : Z := 2.
Definition sizeof_IcePacket : Z := 4.

Definition IOEXStreamState_initialized : Z := 1.
Definition IOEXStreamState_transport_ready : Z := 2.
Definition IOEXStreamState_connecting : Z := 3.
Definition IOEXStreamState_connected : Z := 4.
Definition IOEXStreamState_closed : Z := 6.
Definition IOEXStreamState_failed : Z := 7.

Definition IOEXERR_WRONG_STATE : Z := 0x12.
Definition IOEXERR_BUSY : Z := 0x13.
Definition IOEXERR_UNKNOWN : Z := 0xFF.
Definition IOEX_ICE_ERROR (code : Z) : Z := Mux.IOEX_MK_ERROR 5 code.

(** [PJ_SUCCESS] *)
Definition PJ_SUCCESS : Z := 0.

Inductive pj_ice_strans_op := PJ_ICE_STRANS_OP_INIT | PJ_ICE_STRANS_OP_NEGOTIATION | PJ_ICE_STRANS_OP_KEEP_ALIVE.

(** PJNATH, the system, and the layers above the handler, for the stream with the given
    number. [pj_ioqueue_sendto] is whether the datagram reaches the worker's own socket.
    The state of the stream is kept by the layers above, the time is in seconds and
    microseconds, and the timers are those of the worker (Reliable.v). *)
Class Pjnath (K : Type) := {
  PJ_STUN_SOCK_PKT_LEN : Z;
  PJ_EBUSY : Z;
  pj_ice_strans_create : nat -> K -> Z * K;
  pj_ice_strans_has_sess : nat -> K -> bool;
  pj_ice_strans_init_ice : nat -> K -> Z * K;
  pj_ice_strans_start_ice : nat -> K -> Z * K;
  pj_ice_strans_stop_ice : nat -> K -> K;
  pj_ice_strans_destroy : nat -> K -> K;
  pj_ice_strans_sendto : nat -> bytes -> K -> Z * K;
  pj_ioqueue_sendto : Z -> K -> bool * K;
  calloc_ok : K -> bool * K;
  gettimeofday : K -> (Z * Z) * K;
  ice_worker_create_timer : Z -> Z -> K -> Z * nat * K;
  ice_worker_destroy_timer : nat -> K -> K;
  prev_on_data : nat -> bytes -> K -> K;
  prev_on_state_changed : nat -> Z -> K -> K;
  stream_state : nat -> K -> Z;
}.

(** [IceStream] with its [IceHandler] and the references to the stream; [st] is whether
    the handler has a transport of PJNATH; of the remote description only the numbers of
    components and candidates are used here. *)
Record IceStream := mkStream {
  nrefs : Z; st : bool; stopping : bool; comp_cnt : Z; cand_cnt : Z;
  local_timestamp : Z * Z; remote_timestamp : Z * Z; keepalive_timer : option nat }.

Definition with_nrefs n s := mkStream n (st s) (stopping s) (comp_cnt s) (cand_cnt s) (local_timestamp s) (remote_timestamp s) (keepalive_timer s).
Definition with_st b s := mkStream (nrefs s) b (stopping s) (comp_cnt s) (cand_cnt s) (local_timestamp s) (remote_timestamp s) (keepalive_timer s).
Definition with_stopping s := mkStream (nrefs s) (st s) true (comp_cnt s) (cand_cnt s) (local_timestamp s) (remote_timestamp s) (keepalive_timer s).
Definition with_local t s := mkStream (nrefs s) (st s) (stopping s) (comp_cnt s) (cand_cnt s) t (remote_timestamp s) (keepalive_timer s).
Definition with_remote t s := mkStream (nrefs s) (st s) (stopping s) (comp_cnt s) (cand_cnt s) (local_timestamp s) t (keepalive_timer s).
Definition with_timer t s := mkStream (nrefs s) (st s) (stopping s) (comp_cnt s) (cand_cnt s) (local_timestamp s) (remote_timestamp s) t.

(** The worker: its streams, the datagrams in its socket, and the streams of the reads
    that wait for one, both oldest first. *)
Record world (K : Type) := mkW { streams : gmap nat IceStream; datagrams : list Z; reads : list nat; os : K }.
Arguments mkW {K} _ _ _ _.
Arguments streams {K} _.
Arguments datagrams {K} _.
Arguments reads {K} _.
Arguments os {K} _.

Section Ice.
Context {K : Type} {PJ : Pjnath K}.
Implicit Types w : world K.

Definition with_streams m w := mkW m (datagrams w) (reads w) (os w).
Definition with_datagrams l w := mkW (streams w) l (reads w) (os w).
Definition with_reads l w := mkW (streams w) (datagrams w) l (os w).
Definition with_os k w : world K := mkW (streams w) (datagrams w) (reads w) k.

Definition sys {A} (f : K -> A * K) w : A * world K := let '(a, k) := f (os w) in (a, with_os k w).
Definition sys_ (f : K -> K) w : world K := with_os (f (os w)) w.

(** A stream that is gone is not there to be used. *)
Definition stream (i : nat) w : outcome IceStream := match streams w !! i with Some s => Ok s | None => Undef end.
Definition upd (i : nat) (f : IceStream -> IceStream) w : outcome (world K) :=
  s ← stream i w; Ok (with_streams (<[i := f s]> (streams w)) w).

Definition state_of (i : nat) w : Z := stream_state i (os w).

(** ** Reporting a state *)

(** The datagram is sent before the read for it is posted. *)
Definition notify_state_changed (i : nat) (state : Z) w : world K :=
  let '(ok, w) := sys calloc_ok w in
  if negb ok then w
  else
    let '(arrives, w) := sys (pj_ioqueue_sendto state) w in
    let w := if arrives : bool then with_datagrams (datagrams w ++ [state]) w else w in
    with_reads (reads w ++ [i]) w.

Definition on_state_changed (i : nat) (state : Z) w : world K := sys_ (prev_on_state_changed i state) w.

(** The oldest read gets the oldest datagram; its handler may be gone. *)
Definition ice_on_ioqueue_read w : outcome (world K) :=
  match datagrams w, reads w with
  | state :: ds, i :: rs =>
      let w := with_reads rs (with_datagrams ds w) in
      _ ← stream i w; Ok (on_state_changed i state w)
  | _, _ => Ok w
  end.

Definition ice_stream_fire_state_changed := notify_state_changed.

Definition stream_on_ice_complete (i : nat) (op : pj_ice_strans_op) (status : Z) w : world K :=
  match streams w !! i with
  | None => w
  | Some _ =>
      let state (good : Z) := if status =? PJ_SUCCESS then good else IOEXStreamState_failed in
      match op with
      | PJ_ICE_STRANS_OP_INIT => notify_state_changed i (state IOEXStreamState_initialized) w
      | PJ_ICE_STRANS_OP_NEGOTIATION => notify_state_changed i (state IOEXStreamState_connected) w
      | _ => w
      end
  end.

(** ** Packets *)

(** A packet with its header; [len] of the bytes at [body] are sent. *)
Definition ice_handler_write_packet (i : nat) (pkttype len : Z) (body : bytes) w : outcome (Z * world K) :=
  _ ← c_assert 1072 (len + sizeof_IcePacket <=? PJ_STUN_SOCK_PKT_LEN);
  body ← mem_read body 0 len;
  let '(status, w) := sys (pj_ice_strans_sendto i ([0; pkttype] ++ Mux.be16 len ++ body)) w in
  if negb (status =? PJ_SUCCESS) then
    Ok (if status =? PJ_EBUSY then Mux.IOEX_GENERAL_ERROR IOEXERR_BUSY else IOEX_ICE_ERROR status, w)
  else
    let '(now, w) := sys gettimeofday w in
    w ← upd i (with_local now) w;
    Ok (0, w).

(** The result is a signed size. *)
Definition ice_handler_write (i : nat) (buf : FlexBuffer.FlexBuffer) w : outcome (Z * world K) :=
  let len := FlexBuffer.flex_buffer_size buf in
  _ ← c_assert 1103 (len <=? u64 (PJ_STUN_SOCK_PKT_LEN - sizeof_IcePacket));
  _ ← c_assert 1104 (sizeof_IcePacket <=? FlexBuffer.flex_buffer_offset buf);
  buf ← FlexBuffer.flex_buffer_backward_offset buf sizeof_IcePacket;
  buf ← FlexBuffer.flex_buffer_mutable_ptr buf 0 ([0; PKT_DATA] ++ Mux.be16 (u16 len));
  body ← FlexBuffer.flex_buffer_ptr buf sizeof_IcePacket (u16 len);
  r ← ice_handler_write_packet i PKT_DATA (u16 len) body w;
  let '(rc, w) := r in
  Ok (if negb (rc =? 0) then rc else len, w).

(** The length is read and put back before the size is looked at. *)
Definition stream_on_rx_data (i : nat) (data : bytes) w : outcome (world K) :=
  if negb (pj_ice_strans_has_sess i (os w)) then Ok w
  else
    match streams w !! i with
    | None => Ok w
    | Some _ =>
        let state := state_of i w in
        if negb (state =? IOEXStreamState_connecting) && negb (state =? IOEXStreamState_connected) then Ok w
        else
          match data with
          | version :: pkttype :: hi :: lo :: body =>
              let len := hi * 256 + lo in
              if negb (version =? 0) || negb (len + sizeof_IcePacket =? zlen data) || (PKT_DATA <? pkttype) then Ok w
              else if pkttype =? PKT_SHUTDOWN then Ok (notify_state_changed i IOEXStreamState_closed w)
              else
                let '(now, w) := sys gettimeofday w in
                if pkttype =? PKT_KEEPALIVE then upd i (with_remote now) w
                else
                  buf ← FlexBuffer.flex_buffer_from 0 FlexBuffer.FLEX_PADDING_LEN body len;
                  w ← upd i (with_remote now) w;
                  data ← FlexBuffer.flex_buffer_ptr buf 0 (FlexBuffer.flex_buffer_size buf);
                  Ok (sys_ (prev_on_data i data) w)
          | _ => Undef
          end
    end.

(** ** Keeping the link alive *)

(** Microseconds between two times. *)
Definition interval (now t : Z * Z) : Z := (now.1 * 1000000 + now.2) - (t.1 * 1000000 + t.2).

(** Whether the timer goes on. *)
Definition ice_stream_keepalive_callback (i : nat) w : outcome (bool * world K) :=
  let state := state_of i w in
  if state <? IOEXStreamState_connected then Ok (true, w)
  else if IOEXStreamState_connected <? state then Ok (false, w)
  else
    let '(now, w) := sys gettimeofday w in
    s ← stream i w;
    if DEFAULT_TIMEOUT_INTERVAL * 1000 <=? interval now (remote_timestamp s) then
      Ok (false, notify_state_changed i IOEXStreamState_closed w)
    else if DEFAULT_KEEPALIVE_INTERVAL * 1000 <=? interval now (local_timestamp s) then
      r ← ice_handler_write_packet i PKT_KEEPALIVE 0 [] w;
      Ok (true, snd r)
    else Ok (true, w).

(** ** The life of the handler *)

Definition stream_ref (i : nat) w : outcome (world K) := upd i (fun s => with_nrefs (nrefs s + 1) s) w.

Definition ice_handler_destroy (i : nat) w : outcome (world K) :=
  s ← stream i w;
  let w := match keepalive_timer s with Some t => sys_ (ice_worker_destroy_timer t) w | None => w end in
  Ok (if st s then
        let w := if pj_ice_strans_has_sess i (os w) then sys_ (pj_ice_strans_stop_ice i) w else w in
        sys_ (pj_ice_strans_destroy i) w
      else w).

(** The last reference ends the stream and its handler. *)
Definition stream_deref (i : nat) w : outcome (world K) :=
  s ← stream i w;
  if 1 <? nrefs s then upd i (with_nrefs (nrefs s - 1)) w
  else
    w ← ice_handler_destroy i w;
    Ok (with_streams (delete i (streams w)) w).

Definition ice_handler_init (i : nat) w : outcome (Z * world K) :=
  w ← stream_ref i w;
  let '(status, w) := sys (pj_ice_strans_create i) w in
  if negb (status =? PJ_SUCCESS) then
    w ← stream_deref i w;
    Ok (IOEX_ICE_ERROR status, w)
  else
    w ← upd i (with_st true) w;
    Ok (0, w).

Definition ice_handler_prepare (i : nat) w : outcome (Z * world K) :=
  if pj_ice_strans_has_sess i (os w) then Ok (0, w)
  else if negb (state_of i w =? IOEXStreamState_initialized) then Ok (Mux.IOEX_GENERAL_ERROR IOEXERR_WRONG_STATE, w)
  else
    let '(status, w) := sys (pj_ice_strans_init_ice i) w in
    let state := if negb (status =? PJ_SUCCESS) then IOEXStreamState_failed else IOEXStreamState_transport_ready in
    let w := notify_state_changed i state w in
    Ok (if status =? PJ_SUCCESS then 0 else IOEX_ICE_ERROR status, w).

Definition ice_handler_start (i : nat) w : outcome (Z * world K) :=
  s ← stream i w;
  _ ← c_assert 969 ((0 <? cand_cnt s) && (0 <? comp_cnt s));
  _ ← c_assert 970 (state_of i w =? IOEXStreamState_transport_ready);
  let '(rc, t, k) := ice_worker_create_timer (Z.lor (Z.of_nat i) 0x00010000) 10000 (os w) in
  let w := with_os k w in
  if negb (rc =? 0) then Ok (rc, w)
  else
    w ← upd i (with_timer (Some t)) w;
    let w := notify_state_changed i IOEXStreamState_connecting w in
    let '(now, w) := sys gettimeofday w in
    w ← upd i (with_local now) w;
    let '(now, w) := sys gettimeofday w in
    w ← upd i (with_remote now) w;
    let '(status, w) := sys (pj_ice_strans_start_ice i) w in
    if status =? PJ_SUCCESS then Ok (0, w)
    else Ok (IOEX_ICE_ERROR status, notify_state_changed i IOEXStreamState_failed w).

(** The identifier of the stream is printed at the end. *)
Definition ice_handler_stop (i : nat) (error : Z) w : outcome (world K) :=
  s ← stream i w;
  if stopping s then Ok w
  else
    w ← upd i with_stopping w;
    w ← (if state_of i w <=? IOEXStreamState_connected then
           w ← (if IOEXStreamState_connecting <=? state_of i w then
                  r ← ice_handler_write_packet i PKT_SHUTDOWN 0 [] w; Ok (snd r)
                else Ok w);
           Ok (on_state_changed i (if error =? 0 then IOEXStreamState_closed else IOEXStreamState_failed) w)
         else Ok w);
    s ← stream i w;
    w ← (match keepalive_timer s with
         | Some t => upd i (with_timer None) (sys_ (ice_worker_destroy_timer t) w)
         | None => Ok w
         end);
    w ← (if pj_ice_strans_has_sess i (os w) then stream_deref i (sys_ (pj_ice_strans_stop_ice i) w) else Ok w);
    _ ← stream i w;
    Ok w.

End Ice.

(** ** The kind of the link *)

Inductive pj_ice_cand_type := PJ_ICE_CAND_TYPE_HOST | PJ_ICE_CAND_TYPE_SRFLX | PJ_ICE_CAND_TYPE_PRFLX | PJ_ICE_CAND_TYPE_RELAYED.

#[export] Instance cand_type_eq_dec : EqDecision pj_ice_cand_type.
Proof. solve_decision. Defined.

Inductive IOEXNetworkTopology := IOEXNetworkTopology_LAN | IOEXNetworkTopology_P2P | IOEXNetworkTopology_RELAYED.

(** A candidate of PJNATH, with its addresses as they are printed, and what the
    application is told of it. *)
Record pj_ice_sess_cand := mkCand { cand_type : pj_ice_cand_type; addr : bytes; port : Z; rel_addr : bytes; rel_port : Z }.
Record IOEXAddressInfo := mkInfo { info_type : pj_ice_cand_type; info_addr : bytes; info_port : Z; related_addr : bytes; related_port : Z }.

Definition address_info (related : bool) (c : pj_ice_sess_cand) : IOEXAddressInfo :=
  mkInfo (cand_type c) (addr c) (port c) (if related then rel_addr c else []) (if related then rel_port c else 0).

(** The pair of candidates in use, if there is one; the state is the stream's. *)
Definition ice_stream_get_info (state : Z) (check : option (pj_ice_sess_cand * pj_ice_sess_cand)) :
    outcome (Z * option (IOEXAddressInfo * IOEXAddressInfo * IOEXNetworkTopology)) :=
  _ ← c_assert 1145 (state =? IOEXStreamState_connected);
  match check with
  | None => Ok (IOEX_ICE_ERROR IOEXERR_UNKNOWN, None)
  | Some (lcand, rcand) =>
      let ltype := cand_type lcand in
      let rtype := cand_type rcand in
      let is_a t c := bool_decide (c = t) in
      let topology :=
        if is_a PJ_ICE_CAND_TYPE_RELAYED ltype || is_a PJ_ICE_CAND_TYPE_RELAYED rtype then IOEXNetworkTopology_RELAYED
        else if is_a PJ_ICE_CAND_TYPE_SRFLX ltype || is_a PJ_ICE_CAND_TYPE_PRFLX ltype ||
                is_a PJ_ICE_CAND_TYPE_SRFLX rtype || is_a PJ_ICE_CAND_TYPE_PRFLX rtype then IOEXNetworkTopology_P2P
        else IOEXNetworkTopology_LAN in
      Ok (0, Some (address_info (negb (is_a PJ_ICE_CAND_TYPE_HOST ltype)) lcand,
                   address_info (negb (is_a PJ_ICE_CAND_TYPE_HOST rtype) && negb (is_a PJ_ICE_CAND_TYPE_PRFLX rtype)) rcand, topology))
  end.

(** The number of the next worker. *)
Definition INT_MAX : Z := 2147483647.
Definition transport_workerid (workerid : Z) : Z := if workerid + 1 =? INT_MAX then 1 else workerid + 1.

End Ice.
