(* ===== verification/IceThm.v ===== *)
(** * The ICE transport of a stream, theorems

    What is written to one side comes out of the other, a peer that is silent is found,
    and the changes of state are told in order. *)

From Stdlib Require Import ZArith Lia.
From stdpp Require Import prelude gmap list.
From S2P Require Import Prelude Mux FlexBuffer Ice.

Module IceThm.
Import Ice.

(** ** Packets *)

Section Packets.
Context {K : Type} {PJ : Pjnath K}.
Implicit Types w : world K.

Definition data_packet (d : bytes) : bytes := [0; PKT_DATA] ++ Mux.be16 (zlen d) ++ d.

Lemma write_packet_spec i ty body w s : zlen body + 4 <= PJ_STUN_SOCK_PKT_LEN -> streams w !! i = Some s ->
  let d := [0; ty] ++ Mux.be16 (zlen body) ++ body in
  let '(status, k) := pj_ice_strans_sendto i d (os w) in
  ice_handler_write_packet i ty (zlen body) body w =
    if status =? PJ_SUCCESS then
      let '(now, k) := gettimeofday k in Ok (0, with_streams (<[i := with_local now s]> (streams w)) (with_os k w))
    else Ok (if status =? PJ_EBUSY then Mux.IOEX_GENERAL_ERROR IOEXERR_BUSY else IOEX_ICE_ERROR status, with_os k w).
Proof.
  intros Hz Hs. cbv zeta. unfold ice_handler_write_packet. rewrite (proj2 (Z.leb_le _ _)) by (unfold sizeof_IcePacket; lia).
  cbn [c_assert mbind outcome_bind]. rewrite mem_read_ok by (pose proof (zlen_nonneg body); lia). cbn [mbind outcome_bind].
  rewrite zdrop_0, ztake_all by lia. unfold sys. destruct (pj_ice_strans_sendto i _ (os w)) as [status k].
  destruct (status =? PJ_SUCCESS); cbn [negb]; [|done]. cbn [os with_os]. destruct (gettimeofday k) as [now k2]. unfold upd, stream. cbn [streams with_os with_streams].
  by rewrite Hs.
Qed.

(** A datagram of a peer's data. *)
Lemma rx_data_spec i d w s : pj_ice_strans_has_sess i (os w) = true -> streams w !! i = Some s ->
  state_of i w = IOEXStreamState_connecting \/ state_of i w = IOEXStreamState_connected -> zlen d < 65536 ->
  let '(now, k) := gettimeofday (os w) in
  stream_on_rx_data i (data_packet d) w =
    Ok (with_os (prev_on_data i d k) (with_streams (<[i := with_remote now s]> (streams w)) (with_os k w))).
Proof.
  intros Hh Hs Hst Hz. pose proof (zlen_nonneg d) as Hnn. unfold stream_on_rx_data. rewrite Hh, Hs. cbn [negb].
  assert (negb (state_of i w =? IOEXStreamState_connecting) && negb (state_of i w =? IOEXStreamState_connected) = false) as -> by (by destruct Hst as [-> | ->]).
  unfold data_packet. cbn [app Mux.be16]. rewrite Z.eqb_refl. cbn [negb orb].
  assert (zlen d / 256 * 256 + zlen d mod 256 = zlen d) as -> by (pose proof (Z.div_mod (zlen d) 256); lia).
  rewrite !zlen_cons, (proj2 (Z.eqb_eq _ _)) by (unfold sizeof_IcePacket; lia). cbn [negb orb]. change (PKT_DATA <? PKT_DATA) with false.
  change (PKT_DATA =? PKT_SHUTDOWN) with false. change (PKT_DATA =? PKT_KEEPALIVE) with false. cbn iota.
  unfold sys. destruct (gettimeofday (os w)) as [now k].
  destruct (FlexBuffer.flex_buffer_from_spec 0 FlexBuffer.FLEX_PADDING_LEN d) as (b & -> & Hw & Hp & _); [done|unfold FlexBuffer.FLEX_PADDING_LEN; lia|].
  cbn [mbind outcome_bind]. unfold upd, stream. cbn [streams with_os]. rewrite Hs. cbn [mbind outcome_bind].
  unfold FlexBuffer.flex_buffer_size. rewrite (FlexBuffer.ptr_spec b 0 (FlexBuffer.size b) Hw) by (pose proof (FlexBuffer.zlen_payload b Hw); rewrite Hp in *; lia).
  cbn [mbind outcome_bind]. rewrite zdrop_0, ztake_all, Hp; [done|]. rewrite (FlexBuffer.zlen_payload b Hw). lia.
Qed.

(** Writing a buffer sends its payload in a packet. *)
Lemma write_sends_payload i buf w s k : FlexBuffer.flex_wf buf -> 4 <= FlexBuffer.offset buf -> FlexBuffer.size buf + 4 <= PJ_STUN_SOCK_PKT_LEN < 65536 ->
  streams w !! i = Some s -> pj_ice_strans_sendto i (data_packet (FlexBuffer.payload buf)) (os w) = (PJ_SUCCESS, k) ->
  exists w', ice_handler_write i buf w = Ok (FlexBuffer.size buf, w') /\ os w' = (gettimeofday k).2.
Proof.
  intros Hw Ho Hz Hs Hsend. pose proof (FlexBuffer.zlen_payload buf Hw) as Hp. pose proof Hw as [].
  unfold ice_handler_write. unfold FlexBuffer.flex_buffer_size, FlexBuffer.flex_buffer_offset, sizeof_IcePacket. rewrite u64_small by lia.
  rewrite !(proj2 (Z.leb_le _ _)) by lia. cbn [c_assert mbind outcome_bind].
  destruct (FlexBuffer.backward_spec buf 4 Hw ltac:(lia)) as (b1 & -> & Hw1 & Hd1 & _ & Hs1 & _). cbn [mbind outcome_bind].
  unfold u16. rewrite Z.mod_small by lia.
  destruct (FlexBuffer.write_front_spec b1 ([0; PKT_DATA] ++ Mux.be16 (FlexBuffer.size buf)) Hw1) as (b2 & -> & Hw2 & Hp2 & _ & Hs2 & _); [change (zlen _) with 4; lia|].
  cbn [mbind outcome_bind]. rewrite (FlexBuffer.ptr_spec b2 4 (FlexBuffer.size buf) Hw2) by lia. cbn [mbind outcome_bind].
  assert (ztake (FlexBuffer.size buf) (zdrop 4 (FlexBuffer.payload b2)) = FlexBuffer.payload buf) as ->.
  { rewrite Hp2, zdrop_app_len by done. change (zlen ([0; PKT_DATA] ++ Mux.be16 (FlexBuffer.size buf))) with 4. rewrite Hd1, ztake_all by lia. done. }
  pose proof (write_packet_spec i PKT_DATA (FlexBuffer.payload buf) w s ltac:(lia) Hs) as Hspec. cbv zeta in Hspec. rewrite Hp in Hspec.
  unfold data_packet in Hsend. rewrite Hp in Hsend. rewrite Hsend in Hspec. change (PJ_SUCCESS =? PJ_SUCCESS) with true in Hspec. cbn iota in Hspec.
  destruct (gettimeofday k) as [now k2]. rewrite Hspec. cbn [mbind outcome_bind]. change (negb (0 =? 0)) with false. eexists. split; [done|done].
Qed.

End Packets.

(** C7. What is written to the transport of one side comes out of the transport of the
    other. When the handler writes a buffer with room for its header in front and PJNATH
    takes the packet, the result is the size of the buffer; when the packet that it has
    sent arrives at the other side, whose stream is connecting or connected, the layers
    above are given exactly the payload of the buffer, and the peer counts as heard of
    now. *)
Theorem ice_data_crosses {KA KB} `{Pjnath KA, Pjnath KB} (wa : world KA) (wb : world KB) i j sa sb buf k :
  FlexBuffer.flex_wf buf -> 4 <= FlexBuffer.offset buf -> FlexBuffer.size buf + 4 <= PJ_STUN_SOCK_PKT_LEN (K := KA) < 65536 ->
  streams wa !! i = Some sa -> pj_ice_strans_sendto i (data_packet (FlexBuffer.payload buf)) (os wa) = (PJ_SUCCESS, k) ->
  streams wb !! j = Some sb -> pj_ice_strans_has_sess j (os wb) = true ->
  state_of j wb = IOEXStreamState_connecting \/ state_of j wb = IOEXStreamState_connected ->
  exists wa' wb', ice_handler_write i buf wa = Ok (FlexBuffer.size buf, wa') /\ os wa' = (gettimeofday k).2 /\
    stream_on_rx_data j (data_packet (FlexBuffer.payload buf)) wb = Ok wb' /\
    os wb' = prev_on_data j (FlexBuffer.payload buf) (gettimeofday (os wb)).2 /\
    streams wb' !! j = Some (with_remote (gettimeofday (os wb)).1 sb).
Proof.
  intros Hw Ho Hz Hsa Hsend Hsb Hh Hst. destruct (write_sends_payload i buf wa sa k Hw Ho Hz Hsa Hsend) as (wa' & H1 & H2).
  pose proof (FlexBuffer.zlen_payload buf Hw) as Hp.
  pose proof (rx_data_spec j (FlexBuffer.payload buf) wb sb Hh Hsb Hst ltac:(lia)) as Hrx. destruct (gettimeofday (os wb)) as [now k2]. cbn [fst snd].
  exists wa'. eexists. split; [exact H1|]. split; [exact H2|]. split; [exact Hrx|]. split; [done|]. cbn. by rewrite lookup_insert_eq.
Qed.

(** ** A silent peer *)

(** A clock that can be set, and a surrounding that is otherwise quiet about the stream's
    state while it is connected: memory, the worker's socket and the link work. *)
Class Quiet (K : Type) `{Pjnath K} := {
  at_time : Z * Z -> K -> K;
  quiet_clock t k : gettimeofday (at_time t k) = (t, at_time t k);
  quiet_state i t k : stream_state i (at_time t k) = stream_state i k;
  quiet_sess i t k : pj_ice_strans_has_sess i (at_time t k) = pj_ice_strans_has_sess i k;
  quiet_send i d k : exists k', pj_ice_strans_sendto i d k = (PJ_SUCCESS, k') /\
    (forall j, stream_state j k' = stream_state j k) /\ (forall j, pj_ice_strans_has_sess j k' = pj_ice_strans_has_sess j k) /\
    forall t, gettimeofday k = (t, k) -> gettimeofday k' = (t, k');
  quiet_calloc k : exists k', calloc_ok k = (true, k') /\ (forall j, stream_state j k' = stream_state j k) /\
    (forall j, pj_ice_strans_has_sess j k' = pj_ice_strans_has_sess j k);
  quiet_ioqueue st k : exists k', pj_ioqueue_sendto st k = (true, k') /\ (forall j, stream_state j k' = stream_state j k) /\
    (forall j, pj_ice_strans_has_sess j k' = pj_ice_strans_has_sess j k);
  quiet_room : 4 <= PJ_STUN_SOCK_PKT_LEN;
}.

Section Watch.
Context {K : Type} `{Quiet K}.
Implicit Types w : world K.

(** The timer fires, or a keep-alive packet of the peer arrives. *)
Inductive link_event := Tick (now : Z * Z) | Heard (now : Z * Z).

Definition keep_alive_packet : bytes := [0; PKT_KEEPALIVE; 0; 0].

(** The flag is whether the timer goes on. *)
Definition link_step (i : nat) (e : link_event) (r : bool * world K) : outcome (bool * world K) :=
  let '(b, w) := r in
  match e with
  | Tick t => if b : bool then ice_stream_keepalive_callback i (sys_ (at_time t) w) else Ok (b, w)
  | Heard t => w ← stream_on_rx_data i keep_alive_packet (sys_ (at_time t) w); Ok (b, w)
  end.

Fixpoint link_run (i : nat) (l : list link_event) (r : bool * world K) : outcome (bool * world K) :=
  match l with [] => Ok r | e :: l => r ← link_step i e r; link_run i l r end.

(** Whether the timer finds that the peer, last heard of at [r], has been silent for two
    minutes. *)
Fixpoint silent (r : Z * Z) (l : list link_event) : bool :=
  match l with
  | [] => false
  | Tick t :: l => (120000000 <=? interval t r) || silent r l
  | Heard t :: l => silent t l
  end.

Record linked (i : nat) w (s : IceStream) : Prop := {
  lk_stream : streams w !! i = Some s;
  lk_sess : pj_ice_strans_has_sess i (os w) = true;
  lk_state : state_of i w = IOEXStreamState_connected;
}.

Lemma notify_quiet i st w : exists k, notify_state_changed i st w = mkW (streams w) (datagrams w ++ [st]) (reads w ++ [i]) k /\
  (forall j, stream_state j k = stream_state j (os w)) /\ forall j, pj_ice_strans_has_sess j k = pj_ice_strans_has_sess j (os w).
Proof.
  unfold notify_state_changed, sys. destruct (quiet_calloc (os w)) as (k1 & -> & H1 & S1). cbn [negb os with_os].
  destruct (quiet_ioqueue st k1) as (k2 & -> & H2 & S2). exists k2. split; [done|]. split; intros j; [by rewrite H2|by rewrite S2].
Qed.

(** A tick of a peer that is not silent. *)
Lemma tick_alive i t w s : linked i w s -> interval t (remote_timestamp s) < 120000000 ->
  exists w' s', ice_stream_keepalive_callback i (sys_ (at_time t) w) = Ok (true, w') /\ linked i w' s' /\
    remote_timestamp s' = remote_timestamp s /\ interval t (local_timestamp s') < 30000000 /\ datagrams w' = datagrams w /\ reads w' = reads w.
Proof.
  intros [Hs Hh Hst] Ht. unfold ice_stream_keepalive_callback. unfold state_of in *. cbn [os with_os sys_]. rewrite quiet_state, Hst.
  change (IOEXStreamState_connected <? IOEXStreamState_connected) with false. cbn iota. unfold sys. cbn [os with_os sys_]. rewrite quiet_clock.
  unfold stream. cbn [streams with_os sys_]. rewrite Hs. cbn [mbind outcome_bind]. change (DEFAULT_TIMEOUT_INTERVAL * 1000) with 120000000.
  rewrite (proj2 (Z.leb_gt _ _)) by lia. change (DEFAULT_KEEPALIVE_INTERVAL * 1000) with 30000000.
  destruct (30000000 <=? interval t (local_timestamp s)) eqn:E; zify_tests.
  - set (w1 := with_os (at_time t (os w)) (sys_ (at_time t) w)). pose proof (write_packet_spec i PKT_KEEPALIVE [] w1 s quiet_room Hs) as Hw. cbv zeta in Hw.
    destruct (quiet_send i ([0; PKT_KEEPALIVE] ++ Mux.be16 (zlen (@nil Z)) ++ []) (at_time t (os w))) as (k' & Hsend & Hst' & Hse' & Hclk).
    change (os w1) with (at_time t (os w)) in Hw. rewrite Hsend in Hw. change (PJ_SUCCESS =? PJ_SUCCESS) with true in Hw. cbn iota in Hw.
    rewrite (Hclk t (quiet_clock t (os w))) in Hw. change (zlen (@nil Z)) with 0 in Hw. rewrite Hw. cbn [mbind outcome_bind snd].
    eexists _, (with_local t s). split; [done|]. split; [split; cbn; [by rewrite lookup_insert_eq|by rewrite Hse', quiet_sess|unfold state_of; cbn; by rewrite Hst', quiet_state]|].
    split; [done|]. split; [unfold interval; cbn; lia|done].
  - eexists _, s. split; [done|]. split; [split; cbn; [done|by rewrite quiet_sess|unfold state_of; cbn; by rewrite quiet_state]|]. split; [done|]. split; [lia|done].
Qed.

(** A packet of the peer. *)
Lemma heard_spec i t w s : linked i w s ->
  exists w', stream_on_rx_data i keep_alive_packet (sys_ (at_time t) w) = Ok w' /\ linked i w' (with_remote t s) /\
    datagrams w' = datagrams w /\ reads w' = reads w.
Proof.
  intros [Hs Hh Hst]. unfold stream_on_rx_data. unfold state_of in *. cbn [os with_os sys_ streams]. rewrite quiet_sess, Hh, Hs, quiet_state, Hst.
  cbn. unfold sys. cbn. rewrite quiet_clock. unfold upd, stream. cbn. rewrite Hs. cbn. eexists. split; [done|].
  split; [|done]. split; cbn; [by rewrite lookup_insert_eq|by rewrite quiet_sess|unfold state_of; cbn; by rewrite quiet_state].
Qed.

(** The timer has ended: the rest is only heard. *)
Lemma run_ended i l : forall w s, linked i w s -> exists w' s', link_run i l (false, w) = Ok (false, w') /\ linked i w' s' /\
  datagrams w' = datagrams w /\ reads w' = reads w.
Proof.
  induction l as [|[t|t] l IH]; intros w s Hl; cbn [link_run link_step]; [by exists w, s| |].
  - cbn [mbind outcome_bind]. by apply (IH w s).
  - destruct (heard_spec i t w s Hl) as (w1 & -> & Hl1 & Hd1 & Hr1). cbn [mbind outcome_bind].
    destruct (IH w1 _ Hl1) as (w2 & s2 & -> & Hl2 & Hd2 & Hr2). exists w2, s2. split; [done|]. split; [done|]. split; congruence.
Qed.

(** A tick of a peer that is silent. *)
Lemma tick_silent i t w s : linked i w s -> 120000000 <= interval t (remote_timestamp s) ->
  exists w', ice_stream_keepalive_callback i (sys_ (at_time t) w) = Ok (false, w') /\ linked i w' s /\
    datagrams w' = datagrams w ++ [IOEXStreamState_closed] /\ reads w' = reads w ++ [i].
Proof.
  intros [Hs Hh Hst] Ht. unfold ice_stream_keepalive_callback. unfold state_of in *. cbn [os with_os sys_]. rewrite quiet_state, Hst.
  change (IOEXStreamState_connected <? IOEXStreamState_connected) with false. cbn iota. unfold sys. cbn [os with_os sys_]. rewrite quiet_clock.
  unfold stream. cbn [streams with_os sys_]. rewrite Hs. cbn [mbind outcome_bind]. change (DEFAULT_TIMEOUT_INTERVAL * 1000) with 120000000.
  rewrite (proj2 (Z.leb_le _ _)) by lia. eexists. split; [done|].
  destruct (notify_quiet i IOEXStreamState_closed (with_os (at_time t (os w)) (sys_ (at_time t) w))) as (k & -> & Hk & Hsk).
  split; [|done]. split; [done|by rewrite Hsk; cbn; rewrite quiet_sess|unfold state_of; cbn; rewrite Hk; cbn; by rewrite quiet_state].
Qed.


End Watch.

(** ** The order of the notifications *)

Section Reports.
Context {K : Type} `{Quiet K}.
Implicit Types w : world K.

Inductive report_op := Report (i : nat) (state : Z) | Deliver.

Definition report_exec (o : report_op) w : outcome (world K) :=
  match o with Report i state => Ok (notify_state_changed i state w) | Deliver => ice_on_ioqueue_read w end.

Fixpoint report_run (l : list report_op) w : outcome (world K) :=
  match l with [] => Ok w | o :: l => w ← report_exec o w; report_run l w end.

(** The specification: a queue of streams with the states that they are in for. *)
Definition queue_step (o : report_op) (q : list (nat * Z) * K) : list (nat * Z) * K :=
  let '(q, k) := q in
  match o with
  | Report i state => (q ++ [(i, state)], (pj_ioqueue_sendto state (calloc_ok k).2).2)
  | Deliver => match q with (i, state) :: q => (q, prev_on_state_changed i state k) | [] => (q, k) end
  end.

Definition queue_of w : list (nat * Z) * K := (zip (reads w) (datagrams w), os w).

Definition reported (l : list report_op) (i : nat) : Prop := exists state, Report i state ∈ l.


End Reports.

(** ** On a run *)

(** Surroundings that can be looked at: the layer above is the stream, which takes on its
    state and tells the application. [loses] is whether the worker's socket loses what is
    sent next. *)
Record machine := mkMachine {
  states : gmap nat Z; session : bool; told : list (nat * Z); sent : list (nat * bytes); up : list (nat * bytes); clock : Z * Z; loses : bool }.

Definition set_clock t k := mkMachine (states k) (session k) (told k) (sent k) (up k) t (loses k).
Definition set_session b k := mkMachine (states k) b (told k) (sent k) (up k) (clock k) (loses k).
Definition set_loses b k := mkMachine (states k) (session k) (told k) (sent k) (up k) (clock k) b.

#[export] Instance machine_pj : Pjnath machine := {
  PJ_STUN_SOCK_PKT_LEN := 2000;
  PJ_EBUSY := 16;
  pj_ice_strans_create _ k := (0, k);
  pj_ice_strans_has_sess _ := session;
  pj_ice_strans_init_ice _ k := (0, set_session true k);
  pj_ice_strans_start_ice _ k := (0, k);
  pj_ice_strans_stop_ice _ := set_session false;
  pj_ice_strans_destroy _ k := k;
  pj_ice_strans_sendto i d k := (0, mkMachine (states k) (session k) (told k) (sent k ++ [(i, d)]) (up k) (clock k) (loses k));
  pj_ioqueue_sendto _ k := (negb (loses k), set_loses false k);
  calloc_ok k := (true, k);
  gettimeofday k := (clock k, k);
  ice_worker_create_timer _ _ k := (0, 7%nat, k);
  ice_worker_destroy_timer _ k := k;
  prev_on_data i d k := mkMachine (states k) (session k) (told k) (sent k) (up k ++ [(i, d)]) (clock k) (loses k);
  prev_on_state_changed i st k := mkMachine (<[i := st]> (states k)) (session k) (told k ++ [(i, st)]) (sent k) (up k) (clock k) (loses k);
  stream_state i k := default 0 (states k !! i);
}.

(** The same surroundings when nothing is lost. *)
Record calm := mkCalm { inner : machine }.

#[export] Instance calm_pj : Pjnath calm := {
  PJ_STUN_SOCK_PKT_LEN := 2000;
  PJ_EBUSY := 16;
  pj_ice_strans_create _ k := (0, k);
  pj_ice_strans_has_sess i k := session (inner k);
  pj_ice_strans_init_ice _ k := (0, mkCalm (set_session true (inner k)));
  pj_ice_strans_start_ice _ k := (0, k);
  pj_ice_strans_stop_ice _ k := mkCalm (set_session false (inner k));
  pj_ice_strans_destroy _ k := k;
  pj_ice_strans_sendto i d k := (0, mkCalm (pj_ice_strans_sendto i d (inner k)).2);
  pj_ioqueue_sendto _ k := (true, k);
  calloc_ok k := (true, k);
  gettimeofday k := (clock (inner k), k);
  ice_worker_create_timer _ _ k := (0, 7%nat, k);
  ice_worker_destroy_timer _ k := k;
  prev_on_data i d k := mkCalm (prev_on_data i d (inner k));
  prev_on_state_changed i st k := mkCalm (prev_on_state_changed i st (inner k));
  stream_state i k := stream_state i (inner k);
}.

#[export] Instance calm_quiet : Quiet calm.
Proof.
  apply (Build_Quiet calm calm_pj (fun t k => mkCalm (set_clock t (inner k)))); try done.
  - intros i d k. eexists. split; [reflexivity|]. split; [done|]. split; [done|]. cbn. intros t [= H]. by rewrite H.
  - intros k. by exists k.
  - intros st k. by exists k.
Defined.

Definition started : IceStream := mkStream 2 true false 1 1 (0, 0) (0, 0) (Some 7%nat).
Definition machine_in (st : Z) : machine := mkMachine {[1%nat := st]} true [] [] [] (0, 0) false.

(** A worker with one stream in the given state. *)
Definition world_in (st : Z) : world machine := mkW {[1%nat := started]} [] [] (machine_in st).
Definition calm_in (st : Z) : world calm := mkW {[1%nat := started]} [] [] (mkCalm (machine_in st)).

Definition hello : FlexBuffer.FlexBuffer := match FlexBuffer.flex_buffer_from 0 FlexBuffer.FLEX_PADDING_LEN [104; 105] 2 with Ok b => b | _ => FlexBuffer.flex_buffer 0 0 0 end.

Lemma ice_data_crosses_witness : exists wa' wb', ice_handler_write 1 hello (world_in 4) = Ok (2, wa') /\
  sent (os wa') = [(1%nat, [0; 2; 0; 2; 104; 105])] /\ stream_on_rx_data 1 [0; 2; 0; 2; 104; 105] (world_in 3) = Ok wb' /\ up (os wb') = [(1%nat, [104; 105])].
Proof.
  destruct (FlexBuffer.flex_buffer_from_spec 0 FlexBuffer.FLEX_PADDING_LEN [104; 105]) as (b & E & Hw & _); [vm_compute; discriminate|by vm_compute|].
  assert (hello = b) as Hb by (unfold hello; change 2 with (zlen [104; 105]); by rewrite E).
  assert (FlexBuffer.flex_wf hello) as Hwf by (by rewrite Hb).
  destruct (ice_data_crosses (world_in 4) (world_in 3) 1 1 started started hello (pj_ice_strans_sendto 1%nat [0; 2; 0; 2; 104; 105] (machine_in 4)).2)
    as (wa' & wb' & H1 & H2 & H3 & H4 & _); [exact Hwf|vm_compute; discriminate|split; [vm_compute; discriminate|reflexivity]|
      reflexivity|vm_compute; reflexivity|reflexivity|reflexivity|left; reflexivity|].
  exists wa', wb'. split; [exact H1|]. split; [by rewrite H2|]. split; [exact H3|by rewrite H4].
Defined.



(** ** What goes wrong *)

(** The negotiation ends well while the application stops the stream: the application is
    told that the stream is closed and then that it is connected, and so the stream stays,
    since the handler does not stop twice. *)
Definition late_success : outcome (list (nat * Z) * Z) :=
  let w := stream_on_ice_complete 1 PJ_ICE_STRANS_OP_NEGOTIATION PJ_SUCCESS (world_in IOEXStreamState_connecting) in
  w ← ice_handler_stop 1 0 w; w ← ice_on_ioqueue_read w; w ← ice_handler_stop 1 0 w;
  Ok (told (os w), state_of 1 w).

Example late_success_reopens : late_success = Ok ([(1%nat, IOEXStreamState_closed); (1%nat, IOEXStreamState_connected)], IOEXStreamState_connected).
Proof. vm_compute. reflexivity. Qed.

(** The stream is released before its notification is read. *)
Definition late_release : outcome (world machine) :=
  let w := stream_on_ice_complete 1 PJ_ICE_STRANS_OP_NEGOTIATION PJ_SUCCESS (world_in IOEXStreamState_connecting) in
  w ← ice_handler_stop 1 0 w; w ← stream_deref 1 w; ice_on_ioqueue_read w.

Example late_release_dangles : late_release = Undef.
Proof. vm_compute. reflexivity. Qed.

(** A stream that is stopped before its session with PJNATH exists keeps the reference
    that [ice_handler_init] has taken. *)
Definition early_stop : outcome (option Z) :=
  let fresh := mkW {[1%nat := mkStream 1 false false 0 0 (0, 0) (0, 0) None]} [] [] (set_session false (machine_in 0)) in
  r ← ice_handler_init 1 fresh; w ← ice_handler_stop 1 0 r.2; w ← stream_deref 1 w;
  Ok (nrefs <$> streams w !! 1%nat).

Example early_stop_leaks : early_stop = Ok (Some 1).
Proof. vm_compute. reflexivity. Qed.

(** A datagram that is lost moves all later states to the stream before. *)
Definition lost_datagram : outcome (list (nat * Z)) :=
  let two := mkW {[1%nat := started; 2%nat := started]} [] [] (set_loses true (machine_in 3)) in
  let w := notify_state_changed 2 IOEXStreamState_connected (notify_state_changed 1 IOEXStreamState_failed two) in
  w ← ice_on_ioqueue_read w; Ok (told (os w)).

Example lost_datagram_misdirects : lost_datagram = Ok [(1%nat, IOEXStreamState_connected)].
Proof. vm_compute. reflexivity. Qed.

(** A datagram shorter than a header. *)
Example short_datagram : stream_on_rx_data 1 [0; 1] (world_in IOEXStreamState_connected) = Undef.
Proof. reflexivity. Qed.

End IceThm.
