(* ===== verification/Session.v ===== *)
(** * Sessions and their streams

    src/src/session/session.c, with the creation of a stream in
    src/src/session/ice.c: a session keeps its streams, reference counted, in a
    linked list; streams have identifiers from an identifier heap and a pipeline of
    handlers. The handlers of the pipeline, the application's callbacks, the
    carrier and the transport worker are an environment with a state of its own,
    the class [Layers]; its functions see and change that state only. The transport
    reports changes of a stream's state from its worker: they are steps of their
    own. *)

From Stdlib Require Import ZArith Lia String Ascii.
From stdpp Require Import prelude gmap list.
From S2P Require Import Prelude Bitset IdsHeap FlexBuffer Pipeline RcMem Rings LinkedList Mux.

Module Session.
Import RcMem Rings LinkedList.

Notation IdsHeap := IdsHeap.IdsHeap.
Notation FlexBuffer := FlexBuffer.FlexBuffer.

(** ** Constants *)

Definition IOEXERR_INVALID_ARGS : Z := Mux.IOEXERR_INVALID_ARGS.
Definition IOEXERR_OUT_OF_MEMORY : Z := Mux.IOEXERR_OUT_OF_MEMORY.
Definition IOEXERR_NOT_EXIST : Z := Mux.IOEXERR_NOT_EXIST.
Definition IOEXERR_WRONG_STATE : Z := Mux.IOEXERR_WRONG_STATE.
Definition IOEXERR_BUFFER_TOO_SMALL : Z := 0x03.
Definition IOEXERR_NOT_IMPLEMENTED : Z := 0x18.

Definition IOEX_GENERAL_ERROR : Z -> Z := Mux.IOEX_GENERAL_ERROR.

Definition MAX_STREAM_ID : Z := 256.
Definition SDP_MAX_LEN : Z := 2048.
Definition IOEX_MAX_ID_LEN : Z := 45.
Definition IOEX_MAX_USER_DATA_LEN : Z := FlexBuffer.IOEX_MAX_USER_DATA_LEN.
Definition PortForwardingProtocol_TCP : Z := 1.

Definition IOEXStreamType_audio : Z := 0.
Definition IOEXStreamType_video : Z := 1.

Definition IOEXStreamState_transport_ready : Z := 2.
Definition IOEXStreamState_connected : Z := 4.
Definition IOEXStreamState_deactivated : Z := 5.

(** The bytes of a string literal. *)
Definition text (s : string) : bytes := (fun c => Z.of_nat (nat_of_ascii c)) <$> list_ascii_of_string s.

Definition extension_name : bytes := text "session".

(** ** Data *)

(** [IOEXStream]. The links of its pipeline's root are in the store of all handlers,
    at the stream's address; [mux] is 0 or the multiplexer; [has_data] and
    [has_state] are whether the callbacks [stream_data] and [state_changed] are set. *)
Record IOEXStream := mkStream {
  mux : Z; id : Z; type : Z; state : Z; options : Pipeline.flags; deactivate : bool;
  has_data : bool; has_state : bool }.

Definition zero_stream : IOEXStream :=
  mkStream 0 0 0 0 (Pipeline.mkFlags false false false false false) false false false.

Definition set_id i s := mkStream (mux s) i (type s) (state s) (options s) (deactivate s) (has_data s) (has_state s).
Definition set_mux m s := mkStream m (id s) (type s) (state s) (options s) (deactivate s) (has_data s) (has_state s).
Definition set_state st s := mkStream (mux s) (id s) (type s) st (options s) (deactivate s) (has_data s) (has_state s).
Definition set_deactivate d s := mkStream (mux s) (id s) (type s) (state s) (options s) d (has_data s) (has_state s).

(** The callbacks of [IOEX_session_add_stream]: whether the structure is there and
    which of the two it has. *)
Definition configure (ty : Z) (f : Pipeline.flags) (cb : option (bool * bool)) (s : IOEXStream) : IOEXStream :=
  mkStream (mux s) (id s) ty 0 f (deactivate s)
    (match cb with Some (d, _) => d | None => has_data s end)
    (match cb with Some (_, st) => st | None => has_state s end).

(** Layout of [IceStream] and [StreamHandler]. *)
Definition le_stream : Z := 96.
Definition sizeof_IceStream : Z := 320.
Definition sizeof_StreamHandler : Z := 88.

(** What a session description says: its name, the user of its origin, the nonce, and
    for each stream the number that stands for its options. The addresses of the
    streams are left to the environment. *)
Record Sdp := mkSdp { sdp_name : bytes; origin_user : bytes; attr_nonce : option bytes; media : list Z }.

(** The environment: what is called of the handlers, of the multiplexer, of the
    application, of the session's transport, of PJLIB, of libsodium and of the carrier. *)
Class Layers (E : Type) := {
  junk : Z;
  stream_alloc : E -> bool * E;
  ice_handler_create : Z -> E -> Z * E;
  multiplex_handler_create : Z -> E -> Z * E;
  reliable_handler_create : Z -> E -> Z * E;
  crypto_handler_create : Z -> E -> Z * E;
  handler_init : Z -> E -> Z * E;
  handler_prepare : Z -> E -> Z * E;
  handler_start : Z -> E -> Z * E;
  handler_stop : Z -> Z -> E -> E;
  handler_write : Z -> FlexBuffer -> E -> Z * E;
  handler_deref : Z -> E -> E;
  channel_open : Z -> Z -> option bytes -> Z -> E -> Z * E;
  channel_close : Z -> Z -> E -> Z * E;
  channel_write : Z -> Z -> FlexBuffer -> E -> Z * E;
  channel_pend : Z -> Z -> E -> Z * E;
  channel_resume : Z -> Z -> E -> Z * E;
  portforwarding_open : Z -> bytes -> Z -> bytes -> bytes -> E -> Z * E;
  portforwarding_close : Z -> Z -> E -> Z * E;
  get_info : Z -> E -> Z * E;
  fire_state_changed : Z -> Z -> E -> E;
  stream_data : Z -> bytes -> E -> E;
  state_changed : Z -> Z -> E -> E;
  pj_pool_create : E -> bool * E;
  pj_gethostip : E -> Z * E;
  pjmedia_sdp_session_add_attr : E -> Z * E;
  stream_media : Z -> E -> Z * E;                    (* the transport addresses of a stream, or an error *)
  stream_address : Z -> nat -> E -> E;               (* the credentials and the address of the peer's stream *)
  stream_remote : Z -> nat -> E -> Z * E;            (* its candidates, or an error *)
  pjmedia_sdp_validate : E -> Z * E;
  pjmedia_sdp_print : Sdp -> Z -> Z * bytes;        (* into so many bytes *)
  pjmedia_sdp_parse : bytes -> Z + Sdp;
  PJMEDIA_MAX_SDP_MEDIA : Z;
  crypto_create_keypair : E -> bytes * bytes * E;
  crypto_random_nonce : E -> bytes * E;
  crypto_box_beforenm : bytes -> bytes -> option bytes;
  IOEX_invite_friend : bytes -> bytes -> E -> Z * E;
  IOEX_reply_friend_invite : bytes -> Z -> option bytes -> option bytes -> E -> Z * E;
  complete_callback : Z -> option bytes -> option bytes -> E -> E;
  worker_stop : E -> E;
}.

(** The keys of a session. *)
Record Keys := mkKeys {
  public_key : bytes; secret_key : bytes; peer_pubkey : bytes;
  nonce : bytes; credential : bytes; enabled : bool; key : bytes }.

(** [IOEXSession] and what its functions reach of its transport's extension; the
    memory of the streams ([streams]) and the links of the handlers ([links]). The
    list of streams is in the world below. [controlling] is the role in the ICE
    negotiation. [worker] and [complete] are whether the
    fields [worker] and [complete_callback] are set, [error] is the last value of
    [IOEX_set_error]. *)
Record IOEXSession (E : Type) := mkSession {
  streams : gmap Z IOEXStream;
  links : Pipeline.store;
  stream_ids : IdsHeap;
  to : bytes;
  offerer : bool;
  controlling : bool;
  keys : Keys;
  worker : bool;
  complete : bool;
  error : Z;
  env : E }.
Arguments mkSession {E} _ _ _ _ _ _ _ _ _ _ _.
Arguments streams {E} _.
Arguments links {E} _.
Arguments stream_ids {E} _.
Arguments to {E} _.
Arguments offerer {E} _.
Arguments controlling {E} _.
Arguments keys {E} _.
Arguments worker {E} _.
Arguments complete {E} _.
Arguments error {E} _.
Arguments env {E} _.

Section Fields.
Context {E : Type}.
Implicit Types s : IOEXSession E.

Definition put_streams x s : IOEXSession E := mkSession x (links s) (stream_ids s) (to s) (offerer s) (controlling s) (keys s) (worker s) (complete s) (error s) (env s).
Definition put_links x s : IOEXSession E := mkSession (streams s) x (stream_ids s) (to s) (offerer s) (controlling s) (keys s) (worker s) (complete s) (error s) (env s).
Definition put_ids x s : IOEXSession E := mkSession (streams s) (links s) x (to s) (offerer s) (controlling s) (keys s) (worker s) (complete s) (error s) (env s).
Definition put_offerer x s : IOEXSession E := mkSession (streams s) (links s) (stream_ids s) (to s) x (controlling s) (keys s) (worker s) (complete s) (error s) (env s).
Definition put_controlling x s : IOEXSession E := mkSession (streams s) (links s) (stream_ids s) (to s) (offerer s) x (keys s) (worker s) (complete s) (error s) (env s).
Definition put_keys x s : IOEXSession E := mkSession (streams s) (links s) (stream_ids s) (to s) (offerer s) (controlling s) x (worker s) (complete s) (error s) (env s).
Definition put_complete x s : IOEXSession E := mkSession (streams s) (links s) (stream_ids s) (to s) (offerer s) (controlling s) (keys s) (worker s) x (error s) (env s).
Definition put_error x s : IOEXSession E := mkSession (streams s) (links s) (stream_ids s) (to s) (offerer s) (controlling s) (keys s) (worker s) (complete s) x (env s).
Definition put_env x s : IOEXSession E := mkSession (streams s) (links s) (stream_ids s) (to s) (offerer s) (controlling s) (keys s) (worker s) (complete s) (error s) x.

End Fields.

(** ** Stream objects *)

Definition ICE_STREAM_DESTROY : Z := 4.

Section Streams.
Context {E : Type} {L : Layers E}.

(** [ice_stream_destroy], which is [stream_base_destroy]. The result of freeing the
    identifier is not looked at. *)
Definition stream_base_destroy (p : Z) (s : IOEXSession E) : outcome (IOEXSession E) :=
  match streams s !! p with
  | None => Undef
  | Some st =>
      h ← Pipeline.handler_at p (links s);
      let s := if nonzero (Pipeline.next h) then put_env (handler_deref (Pipeline.next h) (env s)) s else s in
      if 0 <? id st then
        r ← IdsHeap.ids_heap_free 0 (stream_ids s) (id st);
        Ok (put_ids (snd r) s)
      else Ok s
  end.

#[export] Instance stream_client : Client (IOEXSession E) := {
  le_offset := le_stream;
  client_destroy d p s := if d =? ICE_STREAM_DESTROY then stream_base_destroy p s else Ok s;
  client_zero p s := put_links (<[p := Pipeline.mkHandler 0 0]> (links s)) (put_streams (<[p := zero_stream]> (streams s)) s);
  client_release p s := put_links (delete p (links s)) (put_streams (delete p (streams s)) s);
}.

Notation W := (lworld (IOEXSession E)).
Implicit Types w : W.

Definition upd_session (f : IOEXSession E -> IOEXSession E) w : W := with_client (f (client w)) w.

(** A call to the environment. *)
Definition ask {A} (f : E -> A * E) w : A * W :=
  let '(a, e) := f (env (client w)) in (a, upd_session (put_env e) w).

Definition tell (f : E -> E) w : W := upd_session (put_env (f (env (client w)))) w.

Definition stream (p : Z) w : outcome IOEXStream :=
  match streams (client w) !! p with Some s => Ok s | None => Undef end.

Definition upd_stream (p : Z) (f : IOEXStream -> IOEXStream) w : outcome W :=
  s ← stream p w; Ok (upd_session (put_streams (<[p := f s]> (streams (client w)))) w).

Definition IOEX_set_error (code : Z) w : W := upd_session (put_error code) w.

(** [IOEX_set_error (IOEX_GENERAL_ERROR (code)); return -1;] *)
Definition fail (code : Z) w : Z * W := (-1, IOEX_set_error (IOEX_GENERAL_ERROR code) w).

(** The handler below the root of stream [p]; the functions of the root call it
    without a test. *)
Definition below (p : Z) w : outcome Z :=
  h ← Pipeline.handler_at p (links (client w));
  if nonzero (Pipeline.next h) then Ok (Pipeline.next h) else Undef.

Definition default_handler_init (p : Z) w : outcome (Z * W) := h ← below p w; Ok (ask (handler_init h) w).
Definition default_handler_prepare (p : Z) w : outcome (Z * W) := h ← below p w; Ok (ask (handler_prepare h) w).
Definition default_handler_start (p : Z) w : outcome (Z * W) := h ← below p w; Ok (ask (handler_start h) w).
Definition default_handler_stop (p err : Z) w : outcome W := h ← below p w; Ok (tell (handler_stop h err) w).
Definition default_handler_write (p : Z) (buf : FlexBuffer) w : outcome (Z * W) := h ← below p w; Ok (ask (handler_write h buf) w).

(** What comes up the pipeline. *)
Definition stream_base_on_data (p : Z) (buf : FlexBuffer) w : outcome W :=
  s ← stream p w;
  if has_data s then
    d ← FlexBuffer.flex_buffer_ptr buf 0 (FlexBuffer.flex_buffer_size buf);
    Ok (tell (stream_data (id s) d) w)
  else Ok w.

Definition stream_base_on_state_changed (p st : Z) w : outcome W :=
  w ← upd_stream p (set_state st) w;
  s ← stream p w;
  Ok (if has_state s then tell (state_changed (id s) st) w else w).

(** ** Creating a stream *)

(** A handler that was created, in a block of its own and with no links. What else
    it holds, and its count of references, is the environment's. *)
Definition new_handler w : Z * W :=
  let h := brk (w_heap w) + sizeof_rc_mem in
  let w := with_heap (mkHeap (objs (w_heap w)) (h + sizeof_StreamHandler)) w in
  (h, upd_session (fun s => put_links (<[h := Pipeline.mkHandler 0 0]> (links s)) s) w).

(** [ice_session_create_stream]: the result and the stream. *)
Definition ice_session_create_stream w : outcome (Z * Z * W) :=
  let '(ok, w) := ask stream_alloc w in
  let '(p, w) := rc_zalloc ok sizeof_IceStream (Some ICE_STREAM_DESTROY) w in
  if p =? 0 then Ok (IOEX_GENERAL_ERROR IOEXERR_OUT_OF_MEMORY, 0, w)
  else
    let '(rc, w) := ask (ice_handler_create p) w in
    if negb (rc =? 0) then w ← deref p w; Ok (rc, 0, w)
    else
      let '(h, w) := new_handler w in
      l ← Pipeline.handler_connect p h (links (client w));
      Ok (0, p, upd_session (put_links l) w).

(** One layer of the pipeline: created when it is wanted, and connected below
    [above]. The result, what is now above the next layer, and the new handler. *)
Definition new_layer (wanted : bool) (create : E -> Z * E) (above : Z) w : outcome (Z * Z * Z * W) :=
  if negb wanted then Ok (0, above, 0, w)
  else
    let '(rc, w) := ask create w in
    if rc <? 0 then Ok (rc, above, 0, w)
    else
      let '(h, w) := new_handler w in
      l ← Pipeline.handler_connect above h (links (client w));
      Ok (0, h, h, upd_session (put_links l) w).

(** The layers between the root and the transport. *)
Definition add_layers (p : Z) w : outcome (Z * W) :=
  s ← stream p w;
  r ← new_layer (Pipeline.multiplexing (options s)) (multiplex_handler_create p) p w;
  let '(rc, above, m, w) := r in
  if rc <? 0 then Ok (rc, w)
  else
    w ← (if Pipeline.multiplexing (options s) then upd_stream p (set_mux m) w else Ok w);
    r ← new_layer (Pipeline.reliable (options s)) (reliable_handler_create p) above w;
    let '(rc, above, _, w) := r in
    if rc <? 0 then Ok (rc, w)
    else
      let w := if negb (Pipeline.unencrypt (options s)) then
                 upd_session (fun c => let k := keys c in
                   put_keys (mkKeys (public_key k) (secret_key k) (peer_pubkey k) (nonce k) (credential k) true (key k)) c) w
               else w in
      r ← new_layer (negb (Pipeline.unencrypt (options s))) (crypto_handler_create p) above w;
      let '(rc, _, _, w) := r in
      Ok (rc, w).

(** [s->le.data = s] *)
Definition set_le_data (p : Z) w : outcome W :=
  st ← upd (p + le_stream) (fun n => mkListEntry p (next n) (prev n)) (nodes w);
  Ok (with_nodes st w).

(** Gives the stream at [p] back and reports [rc]. *)
Definition abandon (p rc : Z) w : outcome (Z * W) :=
  w ← deref p w; Ok (-1, IOEX_set_error rc w).

(** [lock_rc] is the result of locking the identifiers. *)
Definition IOEX_session_add_stream (ws ty opts : Z) (cb : option (bool * bool)) (lock_rc : Z) w : outcome (Z * W) :=
  if ws =? 0 then Ok (fail IOEXERR_INVALID_ARGS w)
  else if (ty =? IOEXStreamType_audio) || (ty =? IOEXStreamType_video) then Ok (fail IOEXERR_NOT_IMPLEMENTED w)
  else
    r ← ice_session_create_stream w;
    let '(rc, p, w) := r in
    if negb (rc =? 0) then Ok (-1, IOEX_set_error rc w)
    else
      r ← IdsHeap.ids_heap_alloc lock_rc (stream_ids (client w));
      let w := upd_session (put_ids (snd r)) w in
      w ← upd_stream p (set_id (fst r)) w;
      if fst r <=? 0 then abandon p (IOEX_GENERAL_ERROR IOEXERR_OUT_OF_MEMORY) w
      else
        w ← upd_stream p (configure ty (Pipeline.stream_flags opts) cb) w;
        r ← add_layers p w;
        let '(rc, w) := r in
        if rc <? 0 then abandon p rc w
        else
          w ← set_le_data p w;
          r ← list_add (p + le_stream) w;
          r ← default_handler_init p (snd r);
          let '(rc, w) := r in
          if rc <? 0 then
            r ← list_remove_entry (p + le_stream) w;
            w ← deref (fst r) (snd r);
            abandon p rc w
          else
            w ← deref p w;
            s ← stream p w;
            Ok (id s, w).

(** ** Finding a stream *)

(** The loop of [get_stream], over at most [fuel] streams. *)
Fixpoint get_stream_loop (fuel : nat) (sid : Z) (it : ListIterator) w : outcome (Z * W) :=
  more ← list_iterator_has_next it w;
  if negb more then Ok (0, w)
  else match fuel with
  | O => NoFuel
  | S fuel =>
      r ← list_iterator_next it w;
      let '(rc, p, it, w) := r in
      if rc =? 0 then Ok (0, w)
      else if rc =? -1 then it ← list_iterate w; get_stream_loop fuel sid it w
      else
        s ← stream p w;
        if id s =? sid then Ok (p, w)
        else w ← deref p w; get_stream_loop fuel sid it w
  end.

Definition get_stream (ws sid : Z) w : outcome (Z * W) :=
  _ ← c_assert 826 (nonzero ws);
  _ ← c_assert 827 (0 <? sid);
  it ← list_iterate w;
  get_stream_loop (Z.to_nat (list_size w)) sid it w.

(** The beginning of every function on a stream: the test [bad] of the arguments, and
    the search; the rest of the function, [k], has a reference to the stream. *)
Definition with_stream (bad : bool) (ws sid : Z) (k : Z -> IOEXStream -> W -> outcome (Z * W)) w : outcome (Z * W) :=
  if bad then Ok (fail IOEXERR_INVALID_ARGS w)
  else
    r ← get_stream ws sid w;
    let '(p, w) := r in
    if p =? 0 then Ok (fail IOEXERR_NOT_EXIST w)
    else s ← stream p w; k p s w.

(** The end of most of them: the error is reported and the reference given back. *)
Definition finish (p rc result : Z) w : outcome (Z * W) :=
  let w := if rc <? 0 then IOEX_set_error rc w else w in
  w ← deref p w;
  Ok (if rc <? 0 then -1 else result, w).

(** [deref (s)] before a general error is reported. *)
Definition refuse (p code : Z) w : outcome (Z * W) := w ← deref p w; Ok (fail code w).

Definition bad_id (ws sid : Z) : bool := (ws =? 0) || (sid <=? 0).

(** ** Functions on a stream *)

Definition IOEX_session_remove_stream (ws sid : Z) w : outcome (Z * W) :=
  with_stream (bad_id ws sid) ws sid (fun p s w =>
    w ← default_handler_stop p 0 w;
    r ← list_remove_entry (p + le_stream) w;
    w ← deref (fst r) (snd r);
    w ← deref p w;
    Ok (0, w)) w.

(** A pointer to data that may be [NULL], and a length. *)
Definition bad_data (data : option bytes) (len : Z) : bool :=
  match data with None => true | Some _ => (len =? 0) || (IOEX_MAX_USER_DATA_LEN <? len) end.

Definition from_data (data : option bytes) (len : Z) : outcome FlexBuffer :=
  FlexBuffer.flex_buffer_from junk FlexBuffer.FLEX_PADDING_LEN (default [] data) len.

Definition IOEX_stream_write (ws sid : Z) (data : option bytes) (len : Z) w : outcome (Z * W) :=
  with_stream (bad_id ws sid || bad_data data len) ws sid (fun p s w =>
    if (type s =? IOEXStreamType_audio) || (type s =? IOEXStreamType_video) then refuse p IOEXERR_NOT_IMPLEMENTED w
    else if negb (state s =? IOEXStreamState_connected) then refuse p IOEXERR_WRONG_STATE w
    else
      buf ← from_data data len;
      r ← default_handler_write p buf w;
      let '(sent, w) := r in
      let w := if sent <? 0 then IOEX_set_error (s32 sent) w else w in
      w ← deref p w;
      Ok (if sent <? 0 then -1 else sent, w)) w.

(** The type and the state are stored through a pointer, here the second result;
    [out] is whether it is not [NULL]. *)
Definition read_field (f : IOEXStream -> Z) (ws sid : Z) (out : bool) w : outcome (Z * Z * W) :=
  if bad_id ws sid || negb out then let '(r, w) := fail IOEXERR_INVALID_ARGS w in Ok (r, 0, w)
  else
    r ← get_stream ws sid w;
    let '(p, w) := r in
    if p =? 0 then let '(r, w) := fail IOEXERR_NOT_EXIST w in Ok (r, 0, w)
    else s ← stream p w; w ← deref p w; Ok (0, f s, w).

Definition IOEX_stream_get_type := read_field type.
Definition IOEX_stream_get_state := read_field state.

Definition IOEX_stream_get_transport_info (ws sid : Z) (out : bool) w : outcome (Z * W) :=
  with_stream (bad_id ws sid || negb out) ws sid (fun p s w =>
    if negb (state s =? IOEXStreamState_connected) then refuse p IOEXERR_WRONG_STATE w
    else let '(rc, w) := ask (get_info p) w in finish p rc 0 w) w.

(** A call of the multiplexer, or [WRONG_STATE] when there is none. *)
Definition mux_call (s : IOEXStream) (f : Z -> E -> Z * E) w : Z * W :=
  if mux s =? 0 then (IOEX_GENERAL_ERROR IOEXERR_WRONG_STATE, w) else ask (f (mux s)) w.

Definition IOEX_stream_open_channel (ws sid : Z) (cookie : option bytes) w : outcome (Z * W) :=
  with_stream (bad_id ws sid) ws sid (fun p s w =>
    if negb (state s =? IOEXStreamState_connected) then refuse p IOEXERR_WRONG_STATE w
    else
      let '(rc, w) := mux_call s (fun m => channel_open m Mux.ChannelType_User cookie 0) w in
      finish p rc rc w) w.

Definition IOEX_stream_close_channel (ws sid channel : Z) w : outcome (Z * W) :=
  with_stream (bad_id ws sid) ws sid (fun p s w =>
    let '(rc, w) := mux_call s (fun m => channel_close m channel) w in finish p rc 0 w) w.

(** Without a multiplexer the code of the error, an unsigned expression, is converted
    to [ssize_t]. *)
Definition IOEX_stream_write_channel (ws sid channel : Z) (data : option bytes) (len : Z) w : outcome (Z * W) :=
  with_stream (bad_id ws sid || (channel <? 0) || bad_data data len) ws sid (fun p s w =>
    if negb (state s =? IOEXStreamState_connected) then refuse p IOEXERR_WRONG_STATE w
    else
      r ← (if mux s =? 0 then Ok (u32 (IOEX_GENERAL_ERROR IOEXERR_WRONG_STATE), w)
           else buf ← from_data data len; Ok (ask (channel_write (mux s) channel buf) w));
      let '(written, w) := r in
      let w := if written <? 0 then IOEX_set_error (s32 written) w else w in
      w ← deref p w;
      Ok (written, w)) w.

Definition IOEX_stream_pend_channel (ws sid channel : Z) w : outcome (Z * W) :=
  with_stream (bad_id ws sid || (channel <=? 0)) ws sid (fun p s w =>
    let '(rc, w) := mux_call s (fun m => channel_pend m channel) w in finish p rc 0 w) w.

Definition IOEX_stream_resume_channel (ws sid channel : Z) w : outcome (Z * W) :=
  with_stream (bad_id ws sid || (channel <=? 0)) ws sid (fun p s w =>
    let '(rc, w) := mux_call s (fun m => channel_resume m channel) w in finish p rc 0 w) w.

(** [!s || !*s] for a string. *)
Definition no_text (s : option bytes) : bool := match s with None | Some [] => true | Some _ => false end.

Definition localhost : bytes := text "127.0.0.1".

Definition IOEX_stream_open_port_forwarding (ws sid : Z) (service : option bytes) (protocol : Z)
  (host port : option bytes) w : outcome (Z * W) :=
  with_stream (bad_id ws sid || no_text service || no_text port || negb (protocol =? PortForwardingProtocol_TCP)) ws sid
    (fun p s w =>
      if (protocol =? PortForwardingProtocol_TCP) && negb (Pipeline.reliable (options s)) then refuse p IOEXERR_WRONG_STATE w
      else
        let host := if no_text host then localhost else default [] host in
        let '(rc, w) := mux_call s (fun m => portforwarding_open m (default [] service) protocol host (default [] port)) w in
        finish p rc rc w) w.

Definition IOEX_stream_close_port_forwarding (ws sid portforwarding : Z) w : outcome (Z * W) :=
  with_stream (bad_id ws sid || (portforwarding <=? 0)) ws sid (fun p s w =>
    let '(rc, w) := mux_call s (fun m => portforwarding_close m portforwarding) w in finish p rc 0 w) w.

(** ** Functions on the session *)

(** The name of the peer, [size] bytes of room: the result is the error's [NULL] or
    the string that is copied. *)
Definition IOEX_session_get_peer (ws : Z) (peer : bool) (size : Z) w : option bytes * W :=
  if (ws =? 0) || negb peer || (size =? 0) then (None, snd (fail IOEXERR_INVALID_ARGS w))
  else if size <=? zlen (to (client w)) then (None, snd (fail IOEXERR_BUFFER_TOO_SMALL w))
  else (Some (to (client w)), w).

End Streams.

End Session.
