(* ===== verification/SessionSdp.v ===== *)
(** * Sessions: descriptions, request, reply, start and close

    The part of src/src/session/session.c that negotiates a session, with the
    session descriptions of src/src/session/ice.c: what a side writes about its key,
    its nonce and the options of its streams, and what it makes of the peer's. *)

From Stdlib Require Import ZArith Lia String.
From stdpp Require Import prelude gmap list.
From S2P Require Import Prelude Bitset IdsHeap FlexBuffer Base58 Crypto Pipeline RcMem Rings LinkedList Mux Session.

Module SessionSdp.
Import RcMem Rings LinkedList Session.

Definition IOEXERR_INVALID_CREDENTIAL : Z := 0x07.
Definition IOEXERR_SDP_TOO_LONG : Z := 0x16.
Definition IOEXERR_INVALID_SDP : Z := 0x17.

Definition IOEX_SYS_ERROR (code : Z) : Z := Mux.IOEX_MK_ERROR 2 code.
Definition IOEX_ICE_ERROR (code : Z) : Z := Mux.IOEX_MK_ERROR 5 code.

Definition SDP_NAME : bytes := text "IOEX-ice-session".
Definition PUBLIC_KEY_BYTES : Z := 32.

Section Sdp.
Context {E : Type} {L : Layers E}.

Notation W := (lworld (IOEXSession E)).
Implicit Types w : W.

(** A loop over the streams that starts with [a], with a reference to each stream
    during its turn, which gives the reference back. A turn ends the loop with [inl]
    or goes on with [inr]; when the list was modified meanwhile, it starts again. *)
Fixpoint stream_loop {R A} (turn : A -> Z -> W -> outcome ((R + A) * W)) (again : A -> A) (fuel : nat) (it : ListIterator)
  (a : A) w : outcome ((R + A) * W) :=
  more ← list_iterator_has_next it w;
  if negb more then Ok (inr a, w)
  else match fuel with
  | O => NoFuel
  | S fuel =>
      r ← list_iterator_next it w;
      let '(rc, p, it, w) := r in
      if rc =? 0 then Ok (inr a, w)
      else if rc =? -1 then it ← list_iterate w; stream_loop turn again fuel it (again a) w
      else
        r ← turn a p w;
        match r with
        | (inl e, w) => Ok (inl e, w)
        | (inr a, w) => stream_loop turn again fuel it a w
        end
  end.

Definition over_streams {R A} (turn : A -> Z -> W -> outcome ((R + A) * W)) (again : A -> A) (a : A) w : outcome ((R + A) * W) :=
  it ← list_iterate w; stream_loop turn again (Z.to_nat (list_size w)) it a w.

Definition with_keys (f : Keys -> Keys) w : W := upd_session (fun s => put_keys (f (keys s)) s) w.

(** ** Session descriptions *)

(** The bytes of a C string. *)
Definition c_string (b : bytes) : bytes := match list.list_find (fun c => c = 0) b with Some (i, _) => take i b | None => b end.

(** The number for a stream's options, on top of [ops]: the loops of both sides
    keep their variable from one stream to the next. *)
Definition stream_ops (f : Pipeline.flags) (ops : Z) : Z :=
  let ops := if Pipeline.unencrypt f then Z.lor ops Pipeline.IOEX_STREAM_PLAIN else ops in
  let ops := if Pipeline.multiplexing f then Z.lor ops Pipeline.IOEX_STREAM_MULTIPLEXING else ops in
  let ops := if Pipeline.reliable f then Z.lor ops Pipeline.IOEX_STREAM_RELIABLE else ops in
  if Pipeline.portforwarding f then Z.lor ops Pipeline.IOEX_STREAM_PORT_FORWARDING else ops.

Definition encode_turn (a : Z * list Z) (p : Z) w : outcome ((Z + Z * list Z) * W) :=
  let '(ops, med) := a in
  let '(rc, w) := ask (stream_media p) w in
  if negb (rc =? 0) then w ← deref p w; Ok (inl rc, w)
  else
    s ← stream p w;
    let ops := stream_ops (options s) ops in
    if PJMEDIA_MAX_SDP_MEDIA <=? zlen med then Undef
    else w ← deref p w; Ok (inr (ops, med ++ [ops]), w).

(** An attribute of the description; a failure ends the function. *)
Definition add_attr (k : W -> outcome (Z * bytes * W)) w : outcome (Z * bytes * W) :=
  let '(status, w) := ask pjmedia_sdp_session_add_attr w in
  if negb (status =? 0) then Ok (IOEX_ICE_ERROR status, [], w) else k w.

(** The attribute of the nonce, when the session is encrypted. *)
Definition nonce_attr w : outcome (option bytes) :=
  let k := keys (client w) in
  if enabled k then
    r ← Crypto.crypto_nonce_to_str true (nonce k) (Crypto.NONCE_BYTES * 2);
    match r with Some t => Ok (Some (c_string t)) | None => Undef end
  else Ok None.

(** The media, validation, and text of the description; [len] is the room for it. *)
Definition encode_streams (user : bytes) (nonce : option bytes) (len : Z) w : outcome (Z * bytes * W) :=
  r ← over_streams encode_turn (fun a => a) (0, []) w;
  match r with
  | (inl rc, w) => Ok (rc, [], w)
  | (inr (_, med), w) =>
      let '(status, w) := ask pjmedia_sdp_validate w in
      if negb (status =? 0) then Ok (IOEX_ICE_ERROR status, [], w)
      else
        let '(rc, out) := pjmedia_sdp_print (mkSdp SDP_NAME user nonce med) len in
        if rc <? 0 then Ok (IOEX_GENERAL_ERROR IOEXERR_SDP_TOO_LONG, [], w) else Ok (rc, out, w)
  end.

Definition ice_session_encode_local_sdp (len : Z) w : outcome (Z * bytes * W) :=
  let '(ok, w) := ask pj_pool_create w in
  if negb ok then Ok (IOEX_GENERAL_ERROR IOEXERR_OUT_OF_MEMORY, [], w)
  else
    let '(status, w) := ask pj_gethostip w in
    if negb (status =? 0) then Ok (IOEX_ICE_ERROR status, [], w)
    else
      r ← Base58.base58_encode (public_key (keys (client w))) 64;
      match fst r with
      | None => Ok (IOEX_SYS_ERROR IOEXERR_INVALID_CREDENTIAL, [], w)
      | Some pk =>
          add_attr (add_attr (fun w =>
            n ← nonce_attr w;
            match n with
            | None => encode_streams (c_string pk) None len w
            | Some t => add_attr (encode_streams (c_string pk) (Some t) len) w
            end)) w
      end.

(** One stream against the description: the position in its media and the options
    so far. *)
Definition apply_turn (med : list Z) (a : nat * Z) (p : Z) w : outcome ((Z + nat * Z) * W) :=
  let '(i, ops) := a in
  match med !! i with
  | None =>
      w ← upd_stream p (set_deactivate true) w;
      w ← deref p w;
      Ok (inr (i, ops), w)
  | Some fmt =>
      let w := tell (stream_address p i) w in
      s ← stream p w;
      let ops := stream_ops (options s) ops in
      if negb (ops =? fmt) then
        w ← upd_stream p (set_deactivate true) w;
        w ← deref p w;
        Ok (inr (S i, ops), w)
      else
        let '(rc, w) := ask (stream_remote p i) w in
        w ← deref p w;
        Ok (if negb (rc =? 0) then inl rc else inr (S i, ops), w)
  end.

Definition ice_session_apply_remote_sdp (sdp : bytes) (len : Z) w : outcome (Z * W) :=
  _ ← c_assert 1249 (nonzero len);
  let '(ok, w) := ask pj_pool_create w in
  if negb ok then Ok (IOEX_GENERAL_ERROR IOEXERR_OUT_OF_MEMORY, w)
  else
    d ← mem_read sdp 0 len;
    match pjmedia_sdp_parse d with
    | inl status => Ok (IOEX_ICE_ERROR status, w)
    | inr sdp =>
        if negb (bool_decide (sdp_name sdp = SDP_NAME)) then Ok (IOEX_GENERAL_ERROR IOEXERR_INVALID_SDP, w)
        else
          r ← Base58.base58_decode (origin_user sdp) (zlen (origin_user sdp)) PUBLIC_KEY_BYTES;
          let '(rc, pk) := r in
          if rc <? 0 then Ok (IOEX_GENERAL_ERROR IOEXERR_INVALID_SDP, w)
          else
            let set_pk k := mkKeys (public_key k) (secret_key k) (default (peer_pubkey k) pk) (nonce k) (credential k) (enabled k) (key k) in
            let w := with_keys set_pk w in
            w ← match attr_nonce sdp with
                | Some t =>
                    if negb (controlling (client w)) then
                      r ← Crypto.crypto_nonce_from_str true (nonce (keys (client w))) t (zlen t);
                      let set_nonce k := mkKeys (public_key k) (secret_key k) (peer_pubkey k) (snd r) (credential k) (enabled k) (key k) in
                      Ok (with_keys set_nonce w)
                    else Ok w
                | None => Ok w
                end;
            r ← over_streams (apply_turn (media sdp)) (fun a => (0%nat, snd a)) (0%nat, 0) w;
            match r with
            | (inl rc, w) => Ok (rc, w)
            | (inr _, w) => Ok (0, w)
            end
    end.

Definition ice_session_set_offer (offer : bool) w : bool * W := (true, upd_session (put_controlling offer) w).

(** ** Request and reply *)

Definition prepare_turn (_ : unit) (p : Z) w : outcome ((Z + unit) * W) :=
  r ← default_handler_prepare p w;
  w ← deref p (snd r);
  Ok (if fst r =? 0 then inr tt else inl (fst r), w).

(** New keys and nonces. *)
Definition new_keys w : W :=
  let '(pk, sk, w) := ask crypto_create_keypair w in
  let '(n, w) := ask crypto_random_nonce w in
  let '(c, w) := ask crypto_random_nonce w in
  with_keys (fun k => mkKeys pk sk (peer_pubkey k) n c (enabled k) (key k)) w.

(** The preparation of all streams and the session's description, with the zero that
    is put at its end, or the error's code. *)
Definition prepare_sdp w : outcome ((Z + bytes) * W) :=
  r ← over_streams prepare_turn (fun a => a) tt w;
  match r with
  | (inl rc, w) => Ok (inl rc, w)
  | (inr _, w) =>
      r ← ice_session_encode_local_sdp SDP_MAX_LEN w;
      let '(rc, sdp, w) := r in
      if rc <? 0 then Ok (inl rc, w)
      else if SDP_MAX_LEN <=? rc then Undef
      else Ok (inr (sdp ++ [0]), w)
  end.

(** [ext_to], built in a block of [IOEX_MAX_ID_LEN + strlen (extension_name) + 2] bytes. *)
Definition peer_extension w : outcome bytes :=
  let s := to (client w) ++ text ":" ++ extension_name in
  if IOEX_MAX_ID_LEN + zlen extension_name + 2 <? zlen s + 1 then Undef else Ok s.

Definition IOEX_session_request (ws : Z) (callback : bool) w : outcome (Z * W) :=
  if (ws =? 0) || negb callback then Ok (fail IOEXERR_INVALID_ARGS w)
  else if list_size w =? 0 then Ok (fail IOEXERR_WRONG_STATE w)
  else
    let w := upd_session (put_offerer true) w in
    let '(ok, w) := ice_session_set_offer true w in
    if negb ok then Ok (fail IOEXERR_WRONG_STATE w)
    else
      r ← prepare_sdp (new_keys w);
      match r with
      | (inl rc, w) => Ok (-1, IOEX_set_error rc w)
      | (inr sdp, w) =>
          let w := upd_session (put_complete true) w in
          ext_to ← peer_extension w;
          Ok (ask (IOEX_invite_friend ext_to sdp) w)
      end.

(** The peer's answer to a request. *)
Definition friend_invite_response (status : Z) (reason sdp : option bytes) w : W :=
  if complete (client w) then tell (complete_callback status reason sdp) w else w.

Definition IOEX_session_reply_request (ws status : Z) (reason : option bytes) w : outcome (Z * W) :=
  if (ws =? 0) || (negb (status =? 0) && match reason with None => true | Some _ => false end)
  then Ok (fail IOEXERR_INVALID_ARGS w)
  else
    let w := upd_session (put_offerer false) w in
    let '(ok, w) := ice_session_set_offer false w in
    if negb ok then Ok (fail IOEXERR_WRONG_STATE w)
    else
      let w := new_keys w in
      if status =? 0 then
        if list_size w =? 0 then Ok (fail IOEXERR_WRONG_STATE w)
        else
          r ← prepare_sdp w;
          match r with
          | (inl rc, w) => Ok (-1, IOEX_set_error rc w)
          | (inr sdp, w) =>
              ext_to ← peer_extension w;
              Ok (ask (IOEX_reply_friend_invite ext_to status reason (Some sdp)) w)
          end
      else
        ext_to ← peer_extension w;
        Ok (ask (IOEX_reply_friend_invite ext_to status reason None) w).

(** ** Start *)

(** libsodium writes no key when it rejects the peer's. *)
Definition crypto_compute_symmetric_key (pk sk old : bytes) : bytes := default old (crypto_box_beforenm pk sk).

Definition ready_turn (_ : unit) (p : Z) w : outcome ((unit + unit) * W) :=
  s ← stream p w;
  w ← deref p w;
  Ok (if state s =? IOEXStreamState_transport_ready then inr tt else inl tt, w).

Definition start_turn (_ : unit) (p : Z) w : outcome ((Empty_set + unit) * W) :=
  s ← stream p w;
  w ← (if negb (deactivate s) then r ← default_handler_start p w; Ok (snd r)
       else Ok (tell (fire_state_changed p IOEXStreamState_deactivated) w));
  w ← deref p w;
  Ok (inr tt, w).

(** The reference to the session that the function holds is left out. *)
Definition IOEX_session_start (ws : Z) (sdp : option bytes) (len : Z) w : outcome (Z * W) :=
  match sdp with
  | None => Ok (fail IOEXERR_INVALID_ARGS w)
  | Some sdp =>
      if (ws =? 0) || (len =? 0) then Ok (fail IOEXERR_INVALID_ARGS w)
      else if list_size w =? 0 then Ok (fail IOEXERR_WRONG_STATE w)
      else
        let set_key k := mkKeys (public_key k) (secret_key k) (peer_pubkey k) (nonce k) (credential k) (enabled k)
                           (crypto_compute_symmetric_key (peer_pubkey k) (secret_key k) (key k)) in
        let w := if enabled (keys (client w)) then with_keys set_key w else w in
        r ← over_streams ready_turn (fun a => a) tt w;
        match r with
        | (inl _, w) => Ok (fail IOEXERR_WRONG_STATE w)
        | (inr _, w) =>
            r ← ice_session_apply_remote_sdp sdp (len - 1) w;
            let '(rc, w) := r in
            if rc <? 0 then Ok (-1, IOEX_set_error rc w)
            else r ← over_streams start_turn (fun a => a) tt w; Ok (0, snd r)
        end
  end.

(** ** The end of a session *)

Definition stop_turn (_ : unit) (p : Z) w : outcome ((Empty_set + unit) * W) :=
  w ← default_handler_stop p 0 w;
  w ← deref p w;
  Ok (inr tt, w).

(** [memset (b, 0, sizeof (b))] *)
Definition wipe (b : bytes) : bytes := replicate (length b) 0.

Definition session_internal_close w : outcome W :=
  r ← over_streams stop_turn (fun a => a) tt w;
  let w := snd r in
  let w := if worker (client w) then tell worker_stop w else w in
  Ok (with_keys (fun k => mkKeys (public_key k) (wipe (secret_key k)) (peer_pubkey k) (wipe (nonce k)) (wipe (credential k))
        (enabled k) (wipe (key k))) w).

(** The end of the list of streams; the services and the worker are no part of the
    session here. [lock_rc] is the result of locking the list. *)
Definition session_base_destroy (lock_rc : Z) w : outcome W := list_destroy lock_rc w.

(** The application's reference is the only one to the session. *)
Definition IOEX_session_close (ws lock_rc : Z) w : outcome W :=
  if ws =? 0 then Ok w
  else w ← session_internal_close w; session_base_destroy lock_rc w.

End Sdp.

End SessionSdp.
