(* ===== verification/SessionInv.v ===== *)
(** * Sessions: the invariant of the streams

    The list of a session's streams, the stream objects, their reference counts,
    identifiers and pipelines agree between any two calls; the calls on a stream are
    calls of its pipeline and leave everything else alone. *)

From Stdlib Require Import ZArith Lia.
From stdpp Require Import prelude gmap sets list.
From S2P Require Import Prelude Bitset IdsHeap FlexBuffer Pipeline RcMem Rings LinkedList LinkedListThm Mux Session.

Module SessionInv.
Import RcMem Rings LinkedList LinkedListThm Session.

Section Inv.
Context {E : Type} {L : Layers E}.

Notation W := (lworld (IOEXSession E)).
Implicit Types w : W.
Notation sessions_stream := (@stream_client E L).

(** ** The invariant *)

(** A stream as the list has it, identifier and address: the address of its entry. *)
Definition entry (c : Z * Z) : Z := snd c + le_stream.

(** The stream [p] has a pipeline below its root. *)
Definition piped w (p : Z) : Prop := exists hs, hs <> [] /\ Pipeline.chain (links (client w)) (p :: hs).

(** The streams [m] of the list, their reference counts [cnt], and the identifiers
    [S] in use, of which other sessions may have some. *)
Record core w (m : list (Z * Z)) (cnt : Z -> Z) (S : gset Z) : Prop := {
  c_list : rep w (entry <$> m);
  c_stream : forall i p, (i, p) ∈ m -> exists s, streams (client w) !! p = Some s /\ id s = i /\ 0 < i;
  c_obj : forall i p, (i, p) ∈ m ->
    objs (w_heap w) !! p = Some (mkRc (cnt p) (Some ICE_STREAM_DESTROY) mem_magic) /\ 0 < p /\ 0 < cnt p < 2 ^ 31;
  c_pipe : forall i p, (i, p) ∈ m -> piped w p;
  c_ids : IdsHeap.refines (stream_ids (client w)) S;
  c_max : IdsHeap.max_index (stream_ids (client w)) = MAX_STREAM_ID;
  c_in : forall i, i ∈ m.*1 -> i ∈ S;
  c_nodup : NoDup m.*1;
  c_brk : 0 <= brk (w_heap w) /\ head (lst w) < brk (w_heap w) /\
    (forall i p, (i, p) ∈ m -> p + le_stream < brk (w_heap w)) /\
    forall p, is_Some (links (client w) !! p) -> p < brk (w_heap w);
}.

(** Between two calls the list has the only reference to each stream, and there are
    no other stream objects. *)
Definition inv w m S : Prop :=
  core w m (fun _ => 1) S /\ forall p, is_Some (streams (client w) !! p) -> p ∈ m.*2.

Lemma core_nodup2 w m cnt S : core w m cnt S -> NoDup m.*2.
Proof.
  intros []. destruct c_list0 as [[Hnd _] _ _ _ _ _]. apply NoDup_cons in Hnd as [_ Hnd].
  assert (entry <$> m = (fun p => p + le_stream) <$> m.*2) as E1 by (by rewrite <- list_fmap_compose).
  rewrite E1 in Hnd. by eapply NoDup_fmap_1.
Qed.

Lemma stream_live w m cnt S i p : core w m cnt S -> (i, p) ∈ m -> live w p (cnt p) (Some ICE_STREAM_DESTROY).
Proof. intros Hc Hin. destruct (c_obj _ _ _ _ Hc i p Hin) as (Ho & Hp & Hn). split; [lia|]. split; [lia|done]. Qed.

Lemma stream_ok w p s : streams (client w) !! p = Some s -> stream p w = Ok s.
Proof. unfold stream. by intros ->. Qed.

(** ** A reference during a call

    [held w p] is [w] with one more reference to [p]; changes of the session's own
    state meanwhile do not touch it. *)

Definition held w (p : Z) : W := set_obj p (mkRc 2 (Some ICE_STREAM_DESTROY) mem_magic) w.

Lemma take_one w p : live w p 1 (Some ICE_STREAM_DESTROY) -> ref p w = Ok (p, held w p).
Proof. intros H. by rewrite (ref_ok _ _ _ _ H). Qed.

Lemma give_back w p y : live w p 1 (Some ICE_STREAM_DESTROY) -> deref p (with_client y (held w p)) = Ok (with_client y w).
Proof.
  intros Hl. pose proof Hl as (H0 & _ & Ho).
  rewrite (deref_keeps _ p 2 (Some ICE_STREAM_DESTROY)); [|split; [done|]; split; [lia|]|lia].
  - unfold set_obj, held, set_obj. destruct w as [[o b] nd ls cl]. cbn. unfold with_heap, with_client. cbn.
    rewrite insert_insert_eq, insert_id by done. done.
  - unfold held, set_obj. cbn. by rewrite lookup_insert_eq.
Qed.

Lemma with_client_id w : with_client (client w) w = w.
Proof. by destruct w. Qed.

Lemma stream_release w p : live w p 1 (Some ICE_STREAM_DESTROY) -> deref p (held w p) = Ok w.
Proof. intros Hl. pose proof (give_back w p (client w) Hl) as H. by rewrite !with_client_id in H. Qed.

(** ** Finding a stream *)

Fixpoint find_stream (m : list (Z * Z)) (sid : Z) : option Z :=
  match m with
  | [] => None
  | (i, p) :: m => if i =? sid then Some p else find_stream m sid
  end.

Lemma find_stream_in m sid p : find_stream m sid = Some p -> (sid, p) ∈ m.
Proof.
  induction m as [|[i q] m IH]; [done|]. cbn. destruct (Z.eqb_spec i sid) as [->|].
  - intros [= ->]. left.
  - intros H. right. by apply IH.
Qed.

Lemma find_stream_none m sid : find_stream m sid = None -> sid ∉ m.*1.
Proof.
  induction m as [|[i q] m IH]; [intros _ H; by apply elem_of_nil in H|]. cbn. destruct (Z.eqb_spec i sid) as [|Hne]; [done|].
  intros H [E1|Hin]%elem_of_cons; [congruence|by apply IH].
Qed.

Lemma stream_search_spec w m S sid : core w m (fun _ => 1) S -> forall m2 m1 it, m = m1 ++ m2 ->
  stands w (entry <$> m2) it ->
  get_stream_loop (length m2) sid it w =
    Ok (match find_stream m2 sid with Some p => (p, held w p) | None => (0, w) end).
Proof.
  intros Hc. induction m2 as [|[i p] m2 IH]; intros m1 it Em Hst; cbn [get_stream_loop length find_stream].
  - by rewrite (list_has_next_spec w _ (entry <$> m) [] it (c_list _ _ _ _ Hc)); [|by rewrite app_nil_r|].
  - assert ((i, p) ∈ m) as Hin by (subst m; set_solver).
    assert (entry <$> m = (entry <$> m1) ++ entry (i, p) :: (entry <$> m2)) as El by (subst m; by rewrite fmap_app).
    rewrite (list_has_next_spec w _ (entry <$> m1) _ it (c_list _ _ _ _ Hc) El Hst). cbn [fmap list_fmap]. bind_simpl. cbn [negb].
    pose proof (stream_live _ _ _ _ _ _ Hc Hin) as Hl.
    destruct (list_next_spec w _ _ (entry (i, p)) _ it 1 (Some ICE_STREAM_DESTROY) (c_list _ _ _ _ Hc) El Hst) as (it' & w1 & -> & Er & Hst');
      [unfold entry; cbn; by rewrite Z.add_simpl_r|lia|].
    assert (entry (i, p) - le_offset = p) as Ep by (unfold entry; cbn; apply Z.add_simpl_r). rewrite Ep in Er |- *.
    rewrite (take_one w p Hl) in Er. injection Er as <-. bind_simpl. cbn [Z.eqb].
    destruct (c_stream _ _ _ _ Hc i p Hin) as (s & Hs & <- & _). rewrite (stream_ok (held w p) p s Hs). bind_simpl.
    destruct (id s =? sid); [done|]. rewrite (stream_release w p Hl). bind_simpl.
    apply (IH (m1 ++ [(id s, p)])); [by rewrite <- app_assoc|done].
Qed.

Lemma get_stream_spec w m S ws sid : core w m (fun _ => 1) S -> ws <> 0 -> 0 < sid ->
  get_stream ws sid w = Ok (match find_stream m sid with Some p => (p, held w p) | None => (0, w) end).
Proof.
  intros Hc Hws Hs. unfold get_stream. rewrite (nonzero_true _ Hws), (proj2 (Z.ltb_lt _ _)) by done. cbn [c_assert]. bind_simpl.
  destruct (list_iterate_spec w _ (c_list _ _ _ _ Hc)) as (it & -> & Hst). bind_simpl.
  unfold list_size. rewrite (rp_size _ _ (c_list _ _ _ _ Hc)). unfold zlen. rewrite length_fmap, Nat2Z.id.
  by apply (stream_search_spec w m S sid Hc m []).
Qed.

End Inv.

End SessionInv.
