(* ===== verification/SessionCalls.v ===== *)
(** * Sessions: the calls on a stream

    What each function of the interface that works on one stream does, on every
    branch, against a table: the arguments it refuses, the state of the stream it
    wants, and the call of the pipeline it makes. *)

From Stdlib Require Import ZArith Lia.
From stdpp Require Import prelude gmap sets list.
From S2P Require Import Prelude Bitset IdsHeap FlexBuffer Pipeline RcMem Rings LinkedList LinkedListThm Mux Session SessionInv.

Module SessionCalls.
Import RcMem Rings LinkedList LinkedListThm Session SessionInv.

Inductive call :=
| Write (sid : Z) (data : option bytes) (len : Z)
| GetType (sid : Z) (out : bool)
| GetState (sid : Z) (out : bool)
| TransportInfo (sid : Z) (out : bool)
| OpenChannel (sid : Z) (cookie : option bytes)
| CloseChannel (sid channel : Z)
| WriteChannel (sid channel : Z) (data : option bytes) (len : Z)
| PendChannel (sid channel : Z)
| ResumeChannel (sid channel : Z)
| OpenForwarding (sid : Z) (service : option bytes) (protocol : Z) (host port : option bytes)
| CloseForwarding (sid portforwarding : Z).

Definition target (c : call) : Z :=
  match c with
  | Write s _ _ | GetType s _ | GetState s _ | TransportInfo s _ | OpenChannel s _ | CloseChannel s _
  | WriteChannel s _ _ _ | PendChannel s _ | ResumeChannel s _ | OpenForwarding s _ _ _ _ | CloseForwarding s _ => s
  end.

(** The arguments besides the session and the stream. *)
Definition args_ok (c : call) : bool :=
  let data_ok (data : option bytes) len := bool_decide (is_Some data) && negb (len =? 0) && (len <=? 2048) in
  let named (s : option bytes) := bool_decide (is_Some (s ≫= hd_error)) in
  match c with
  | Write _ data len => data_ok data len
  | GetType _ out | GetState _ out | TransportInfo _ out => out
  | OpenChannel _ _ | CloseChannel _ _ => true
  | WriteChannel _ ch data len => (0 <=? ch) && data_ok data len
  | PendChannel _ ch | ResumeChannel _ ch => 0 <? ch
  | OpenForwarding _ service protocol _ port => named service && named port && (protocol =? PortForwardingProtocol_TCP)
  | CloseForwarding _ pf => 0 <? pf
  end.

(** The error for a stream that is not in the state the call wants. *)
Definition refusal (c : call) (s : IOEXStream) : option Z :=
  let connected := state s =? IOEXStreamState_connected in
  let multiplexed := negb (mux s =? 0) in
  let wanted b := if (b : bool) then None else Some IOEXERR_WRONG_STATE in
  match c with
  | Write _ _ _ => if (type s =? 0) || (type s =? 1) then Some IOEXERR_NOT_IMPLEMENTED else wanted connected
  | GetType _ _ | GetState _ _ => None
  | TransportInfo _ _ | WriteChannel _ _ _ _ => wanted connected
  | OpenChannel _ _ => wanted (connected && multiplexed)
  | CloseChannel _ _ | PendChannel _ _ | ResumeChannel _ _ | CloseForwarding _ _ => wanted multiplexed
  | OpenForwarding _ _ _ _ _ => wanted (Pipeline.reliable (options s) && multiplexed)
  end.

Section Calls.
Context {E : Type} {L : Layers E}.

Notation W := (lworld (IOEXSession E)).
Implicit Types w : W.

(** A buffer with the first [len] bytes of the data and room for headers. *)
Definition payload_buffer (data : option bytes) (len : Z) : FlexBuffer :=
  FlexBuffer.mkFlex (128 + len) 128 len (replicate 128 junk ++ ztake len (default [] data)).

(** The call of the pipeline: [p] is the stream, [h] the first handler. *)
Definition effect (c : call) (p : Z) (s : IOEXStream) (h : Z) : E -> Z * E :=
  match c with
  | Write _ data len => handler_write h (payload_buffer data len)
  | GetType _ _ => fun e => (type s, e)
  | GetState _ _ => fun e => (state s, e)
  | TransportInfo _ _ => get_info p
  | OpenChannel _ cookie => channel_open (mux s) 0 cookie 0
  | CloseChannel _ ch => channel_close (mux s) ch
  | WriteChannel _ ch data len =>
      if mux s =? 0 then fun e => (2164260882, e) else channel_write (mux s) ch (payload_buffer data len)
  | PendChannel _ ch => channel_pend (mux s) ch
  | ResumeChannel _ ch => channel_resume (mux s) ch
  | OpenForwarding _ service protocol host port =>
      portforwarding_open (mux s) (default [] service) protocol
        (match host with Some (b :: t) => b :: t | _ => localhost end) (default [] port)
  | CloseForwarding _ pf => portforwarding_close (mux s) pf
  end.

(** What the caller gets for the result of that call. *)
Definition value (c : call) (rc : Z) : Z :=
  match c with
  | WriteChannel _ _ _ _ | GetType _ _ | GetState _ _ => rc
  | Write _ _ _ | OpenChannel _ _ | OpenForwarding _ _ _ _ _ => if rc <? 0 then -1 else rc
  | _ => if rc <? 0 then -1 else 0
  end.

(** The error that is reported. *)
Definition reported (c : call) (rc : Z) : option Z :=
  match c with
  | GetType _ _ | GetState _ _ => None
  | Write _ _ _ | WriteChannel _ _ _ _ => if rc <? 0 then Some (s32 rc) else None
  | _ => if rc <? 0 then Some rc else None
  end.

(** A call of the interface: the result, or what it stores through its pointer. *)
Definition exec (ws : Z) (c : call) w : outcome (Z * W) :=
  let stored (r : outcome (Z * Z * W)) :=
    r ← r; let '(rc, v, w) := r in Ok (if rc =? 0 then v else rc, w) in
  match c with
  | Write sid data len => IOEX_stream_write ws sid data len w
  | GetType sid out => stored (IOEX_stream_get_type ws sid out w)
  | GetState sid out => stored (IOEX_stream_get_state ws sid out w)
  | TransportInfo sid out => IOEX_stream_get_transport_info ws sid out w
  | OpenChannel sid cookie => IOEX_stream_open_channel ws sid cookie w
  | CloseChannel sid ch => IOEX_stream_close_channel ws sid ch w
  | WriteChannel sid ch data len => IOEX_stream_write_channel ws sid ch data len w
  | PendChannel sid ch => IOEX_stream_pend_channel ws sid ch w
  | ResumeChannel sid ch => IOEX_stream_resume_channel ws sid ch w
  | OpenForwarding sid service protocol host port => IOEX_stream_open_port_forwarding ws sid service protocol host port w
  | CloseForwarding sid pf => IOEX_stream_close_port_forwarding ws sid pf w
  end.

(** The call on the session's own state, with the stream that was found: its
    address, the stream, and the first handler of its pipeline. *)
Definition answer (ws : Z) (c : call) (found : option (Z * IOEXStream * Z)) (y : IOEXSession E) : Z * IOEXSession E :=
  let error code y := (-1, put_error (IOEX_GENERAL_ERROR code) y) in
  if (ws =? 0) || (target c <=? 0) || negb (args_ok c) then error IOEXERR_INVALID_ARGS y
  else
    match found with
    | None => error IOEXERR_NOT_EXIST y
    | Some (p, s, h) =>
        match refusal c s with
        | Some code => error code y
        | None =>
            let '(rc, e) := effect c p s h (env y) in
            let y := put_env e y in
            (value c rc, match reported c rc with Some code => put_error code y | None => y end)
        end
    end.

(** The stream that has an identifier. *)
Definition found w (m : list (Z * Z)) (sid : Z) : option (Z * IOEXStream * Z) :=
  match find_stream m sid with
  | None => None
  | Some p =>
      match streams (client w) !! p, links (client w) !! p with
      | Some s, Some h => Some (p, s, Pipeline.next h)
      | _, _ => None
      end
  end.

(** The data of a call are at least as long as the call says. *)
Definition data_there (c : call) : Prop :=
  match c with
  | Write _ (Some d) len | WriteChannel _ _ (Some d) len => 0 <= len <= zlen d
  | _ => True
  end.

(** ** Proofs *)

Lemma found_spec w m S sid p s h : core w m (fun _ => 1) S -> found w m sid = Some (p, s, h) ->
  live w p 1 (Some ICE_STREAM_DESTROY) /\ (sid, p) ∈ m /\ streams (client w) !! p = Some s /\ h <> 0 /\
  exists hd, links (client w) !! p = Some hd /\ Pipeline.next hd = h.
Proof.
  intros Hc. unfold found. destruct (find_stream m sid) as [q|] eqn:Ef; [|done].
  destruct (streams (client w) !! q) as [s'|] eqn:Es; [|done]. destruct (links (client w) !! q) as [hd|] eqn:Eh; [|done].
  intros [= -> -> <-]. apply find_stream_in in Ef. split; [by apply (stream_live w m (fun _ => 1) S sid)|]. split; [done|]. split; [done|].
  split; [|by eexists]. destruct (c_pipe _ _ _ _ Hc _ _ Ef) as ([|x hs] & Hne & _ & Hs); [done|].
  destruct Hs as (_ & Hp & Hx & _). assert (hd = Pipeline.mkHandler 0 x) as -> by (cbn in Hp; congruence). done.
Qed.

Lemma found_none w m S sid : core w m (fun _ => 1) S -> found w m sid = None -> find_stream m sid = None.
Proof.
  intros Hc. unfold found. destruct (find_stream m sid) as [q|] eqn:Ef; [|done]. apply find_stream_in in Ef.
  destruct (c_stream _ _ _ _ Hc _ _ Ef) as (s & -> & _). destruct (c_pipe _ _ _ _ Hc _ _ Ef) as (hs & _ & _ & Hs).
  destruct Hs as (_ & -> & _). done.
Qed.

Lemma held_stream w p q s : streams (client w) !! q = Some s -> stream q (held w p) = Ok s.
Proof. apply (stream_ok (held w p)). Qed.

Lemma with_stream_spec w m S bad ws sid k : core w m (fun _ => 1) S -> (bad = false -> ws <> 0 /\ 0 < sid) ->
  with_stream bad ws sid k w =
    if bad then Ok (fail IOEXERR_INVALID_ARGS w)
    else match found w m sid with
         | None => Ok (fail IOEXERR_NOT_EXIST w)
         | Some (p, s, _) => k p s (held w p)
         end.
Proof.
  intros Hc Hb. unfold with_stream. destruct bad; [done|]. destruct (Hb eq_refl) as [Hw Hs].
  rewrite (get_stream_spec w m S ws sid Hc Hw Hs). bind_simpl.
  destruct (found w m sid) as [[[p s] h]|] eqn:Ef.
  - pose proof (found_spec w m S sid p s h Hc Ef) as ((Hp & _) & _ & Hst & _).
    unfold found in Ef. destruct (find_stream m sid) as [q|]; [|done].
    assert (q = p) as -> by (destruct (streams (client w) !! q), (links (client w) !! q); congruence).
    rewrite (proj2 (Z.eqb_neq _ _)) by done. rewrite (held_stream w p p s Hst). done.
  - by rewrite (found_none w m S sid Hc Ef).
Qed.

Lemma refuse_spec w p code : live w p 1 (Some ICE_STREAM_DESTROY) ->
  refuse p code (held w p) = Ok (-1, with_client (put_error (IOEX_GENERAL_ERROR code) (client w)) w).
Proof. intros Hl. unfold refuse. by rewrite (stream_release w p Hl). Qed.

Lemma finish_spec w p rc res y : live w p 1 (Some ICE_STREAM_DESTROY) ->
  finish p rc res (with_client y (held w p)) =
    Ok (if rc <? 0 then -1 else res, with_client (if rc <? 0 then put_error rc y else y) w).
Proof.
  intros Hl. unfold finish. destruct (rc <? 0).
  - change (IOEX_set_error rc (with_client y (held w p))) with (with_client (put_error rc y) (held w p)).
    by rewrite (give_back w p _ Hl).
  - by rewrite (give_back w p _ Hl).
Qed.

Lemma ask_held {A} (f : E -> A * E) w p : ask f (held w p) =
  let '(a, e) := f (env (client w)) in (a, with_client (put_env e (client w)) (held w p)).
Proof. unfold ask. change (client (held w p)) with (client w). by destruct (f (env (client w))). Qed.

Lemma from_data_spec d len : 0 < len <= 2048 -> len <= zlen d -> from_data (Some d) len = Ok (payload_buffer (Some d) len).
Proof.
  intros Hl Hd. unfold from_data, FlexBuffer.flex_buffer_from, FlexBuffer.FLEX_PADDING_LEN, payload_buffer.
  change (default [] (Some d)) with d.
  rewrite u64_small, mem_read_ok by lia. bind_simpl. rewrite zdrop_0.
  assert (zlen (ztake len d) = len) as Hz by (apply zlen_ztake_le; lia).
  assert (zlen (malloc junk (len + 128)) = len + 128) as Hm by (rewrite zlen_malloc; lia).
  rewrite mem_write_ok by lia. bind_simpl.
  rewrite (Z.add_comm len 128). do 2 f_equal. f_equal.
  - unfold ztake, malloc. rewrite take_replicate. f_equal; lia.
  - rewrite Hz. unfold zdrop. rewrite drop_ge; [apply app_nil_r|]. unfold malloc. rewrite length_replicate. lia.
Qed.

Lemma write_below w p h buf hd : links (client w) !! p = Some hd -> Pipeline.next hd = h -> h <> 0 ->
  default_handler_write p buf (held w p) = Ok (ask (handler_write h buf) (held w p)).
Proof.
  intros Hl <- Hn. unfold default_handler_write, below. change (client (held w p)) with (client w). rewrite (Pipeline.handler_at_ok _ _ _ Hl).
  bind_simpl. by rewrite (nonzero_true _ Hn).
Qed.


(** The test of the arguments, as the functions write it. *)
Lemma bad_args (a b c : bool) : (a || b || negb c) = false -> a = false /\ b = false /\ c = true.
Proof. by destruct a, b, c. Qed.

Lemma bad_data_spec data len : bad_data data len = negb (bool_decide (is_Some data) && (negb (len =? 0)) && (len <=? 2048)).
Proof.
  destruct data as [d|]; [|done]. cbn. unfold IOEX_MAX_USER_DATA_LEN, FlexBuffer.IOEX_MAX_USER_DATA_LEN.
  rewrite Z.ltb_antisym. by destruct (len =? 0), (len <=? 2048).
Qed.

(** What the rest of the function is to do with the stream. *)
Definition outcome_of (c : call) w (p : Z) (s : IOEXStream) (h : Z) : outcome (Z * W) :=
  match refusal c s with
  | Some code => Ok (-1, with_client (put_error (IOEX_GENERAL_ERROR code) (client w)) w)
  | None =>
      let '(rc, e) := effect c p s h (env (client w)) in
      let y := put_env e (client w) in
      Ok (value c rc, with_client (match reported c rc with Some code => put_error code y | None => y end) w)
  end.

Lemma call_spec w m S ws c bad k : core w m (fun _ => 1) S ->
  bad = (ws =? 0) || (target c <=? 0) || negb (args_ok c) ->
  (forall p s h, found w m (target c) = Some (p, s, h) -> args_ok c = true -> k p s (held w p) = outcome_of c w p s h) ->
  with_stream bad ws (target c) k w =
    Ok (fst (answer ws c (found w m (target c)) (client w)), with_client (snd (answer ws c (found w m (target c)) (client w))) w).
Proof.
  intros Hc Hb Hk. rewrite (with_stream_spec w m S _ _ _ _ Hc).
  2:{ intros ->. symmetry in Hb. apply bad_args in Hb as (H1 & H2 & _). apply Z.eqb_neq in H1. apply Z.leb_gt in H2. done. }
  unfold answer. rewrite <- Hb. destruct bad; [done|]. symmetry in Hb. apply bad_args in Hb as (_ & _ & Ha).
  destruct (found w m (target c)) as [[[p s] h]|] eqn:Ef; [|done]. rewrite (Hk p s h eq_refl Ha). unfold outcome_of.
  destruct (refusal c s); [done|]. by destruct (effect c p s h (env (client w))) as [rc e].
Qed.

(** A stream that is not connected. *)
Lemma refuse_wanted w p (b : bool) (k : outcome (Z * W)) c s h : live w p 1 (Some ICE_STREAM_DESTROY) ->
  refusal c s = (if b then None else Some IOEXERR_WRONG_STATE) -> (b = true -> k = outcome_of c w p s h) ->
  (if negb b then refuse p IOEXERR_WRONG_STATE (held w p) else k) = outcome_of c w p s h.
Proof.
  intros Hl Hr Hk. destruct b; cbn [negb]; [by apply Hk|]. rewrite refuse_spec by done. unfold outcome_of. by rewrite Hr.
Qed.

(** A stream that is to be connected and multiplexed. *)
Lemma connected_spec w p (k : outcome (Z * W)) c s h : live w p 1 (Some ICE_STREAM_DESTROY) ->
  refusal c s = (if (state s =? IOEXStreamState_connected) && negb (mux s =? 0) then None else Some IOEXERR_WRONG_STATE) ->
  (state s =? IOEXStreamState_connected = true -> k = outcome_of c w p s h) ->
  (if negb (state s =? IOEXStreamState_connected) then refuse p IOEXERR_WRONG_STATE (held w p) else k) = outcome_of c w p s h.
Proof.
  intros Hl Hr Hk. destruct (state s =? _); cbn [negb]; [by apply Hk|]. rewrite refuse_spec by done. unfold outcome_of. by rewrite Hr.
Qed.

(** A call of the multiplexer and the end of the function. *)
Lemma mux_call_spec w p s f res c h : live w p 1 (Some ICE_STREAM_DESTROY) ->
  refusal c s = (if negb (mux s =? 0) then None else Some IOEXERR_WRONG_STATE) ->
  effect c p s h = f (mux s) ->
  (forall rc, value c rc = if rc <? 0 then -1 else res rc) -> (forall rc, reported c rc = if rc <? 0 then Some rc else None) ->
  (let '(rc, w) := mux_call s f (held w p) in finish p rc (res rc) w) = outcome_of c w p s h.
Proof.
  intros Hl Hr He Hv Hrep. unfold mux_call, outcome_of. rewrite Hr, He. destruct (mux s =? 0); cbn [negb].
  - change (held w p) with (with_client (client w) (held w p)). rewrite finish_spec by done. done.
  - rewrite ask_held. destruct (f (mux s) (env (client w))) as [rc e]. rewrite finish_spec by done. rewrite Hv, Hrep.
    by destruct (rc <? 0).
Qed.

(** The end of a function that hands on the result of a write. *)
Lemma write_end_spec w p c rc y (out : Z) : live w p 1 (Some ICE_STREAM_DESTROY) ->
  reported c rc = (if rc <? 0 then Some (s32 rc) else None) ->
  (let w := if rc <? 0 then IOEX_set_error (s32 rc) (with_client y (held w p)) else with_client y (held w p) in
   w ← deref p w; Ok (out, w)) =
  Ok (out, with_client (match reported c rc with Some code => put_error code y | None => y end) w).
Proof.
  intros Hl ->. destruct (rc <? 0).
  - change (IOEX_set_error (s32 rc) (with_client y (held w p))) with (with_client (put_error (s32 rc) y) (held w p)).
    cbv zeta. by rewrite (give_back w p _ Hl).
  - cbv zeta. by rewrite (give_back w p _ Hl).
Qed.

Lemma read_field_spec w m S ws c f out : core w m (fun _ => 1) S -> args_ok c = out ->
  (forall s, refusal c s = None) -> (forall p s h e, effect c p s h e = (f s, e)) ->
  (forall rc, value c rc = rc) -> (forall rc, reported c rc = None) ->
  (r ← read_field f ws (target c) out w; let '(rc, v, w) := r in Ok (if rc =? 0 then v else rc, w)) =
    Ok (fst (answer ws c (found w m (target c)) (client w)), with_client (snd (answer ws c (found w m (target c)) (client w))) w).
Proof.
  intros Hc Ha Hr He Hv Hrep. unfold read_field, answer, bad_id. rewrite Ha.
  destruct ((ws =? 0) || (target c <=? 0) || negb out) eqn:Eb; [done|]. apply bad_args in Eb as (H1 & H2 & _).
  apply Z.eqb_neq in H1. apply Z.leb_gt in H2. rewrite (get_stream_spec w m S ws _ Hc H1 H2). bind_simpl.
  destruct (found w m (target c)) as [[[p s] h]|] eqn:Ef.
  - pose proof (found_spec w m S _ p s h Hc Ef) as (Hl & _ & Hst & _). unfold found in Ef.
    destruct (find_stream m (target c)) as [q|]; [|done].
    assert (q = p) as -> by (destruct (streams (client w) !! q), (links (client w) !! q); congruence).
    rewrite (proj2 (Z.eqb_neq _ _)) by apply Hl. rewrite (held_stream w p p s Hst). bind_simpl.
    rewrite (stream_release w p Hl). bind_simpl. rewrite Hr, He. cbn [Z.eqb]. rewrite Hv, Hrep. cbn [fst snd].
    do 2 f_equal. destruct w as [hp nd l y]. by destruct y.
  - by rewrite (found_none w m S _ Hc Ef).
Qed.

Lemma bad_simple ws sid : bad_id ws sid = (ws =? 0) || (sid <=? 0) || negb true.
Proof. unfold bad_id. by rewrite orb_false_r. Qed.

Lemma bad_positive ws sid n : bad_id ws sid || (n <=? 0) = (ws =? 0) || (sid <=? 0) || negb (0 <? n).
Proof. unfold bad_id. by rewrite (Z.leb_antisym 0 n). Qed.

(** The data of a call that passes its tests. *)
Lemma good_data (d : option bytes) len : bool_decide (is_Some d) && negb (len =? 0) && (len <=? 2048) = true ->
  (forall b, d = Some b -> 0 <= len <= zlen b) -> from_data d len = Ok (payload_buffer d len).
Proof.
  intros [[Hs H0]%andb_true_iff Hl]%andb_true_iff Hd. apply bool_decide_eq_true in Hs as [b ->].
  apply negb_true_iff, Z.eqb_neq in H0. apply Z.leb_le in Hl. specialize (Hd b eq_refl). apply from_data_spec; lia.
Qed.

Lemma write_call_spec w p s h hd sid d len : live w p 1 (Some ICE_STREAM_DESTROY) -> links (client w) !! p = Some hd ->
  Pipeline.next hd = h -> h <> 0 -> args_ok (Write sid d len) = true -> data_there (Write sid d len) ->
  refusal (Write sid d len) s = None ->
  (buf ← from_data d len; r ← default_handler_write p buf (held w p); let '(sent, w) := r in
   let w := if sent <? 0 then IOEX_set_error (s32 sent) w else w in
   w ← deref p w; Ok (if sent <? 0 then -1 else sent, w)) = outcome_of (Write sid d len) w p s h.
Proof.
  intros Hl Hk Hh H0 Ha Hd Hr. unfold outcome_of. rewrite Hr. cbn [effect].
  rewrite (good_data d len Ha) by (intros b ->; exact Hd). bind_simpl. rewrite (write_below w p h _ hd Hk Hh H0). bind_simpl.
  rewrite ask_held. destruct (handler_write h (payload_buffer d len) (env (client w))) as [rc e].
  by apply (write_end_spec w p (Write sid d len)).
Qed.

Lemma write_channel_spec w p s h sid ch d len : live w p 1 (Some ICE_STREAM_DESTROY) ->
  args_ok (WriteChannel sid ch d len) = true -> data_there (WriteChannel sid ch d len) ->
  refusal (WriteChannel sid ch d len) s = None ->
  (r ← (if mux s =? 0 then Ok (u32 (IOEX_GENERAL_ERROR IOEXERR_WRONG_STATE), held w p)
        else buf ← from_data d len; Ok (ask (channel_write (mux s) ch buf) (held w p)));
   let '(written, w) := r in
   let w := if written <? 0 then IOEX_set_error (s32 written) w else w in
   w ← deref p w; Ok (written, w)) = outcome_of (WriteChannel sid ch d len) w p s h.
Proof.
  intros Hl [_ Ha]%andb_true_iff Hd Hr. unfold outcome_of. rewrite Hr. cbn [effect]. destruct (mux s =? 0).
  - bind_simpl. change (u32 (IOEX_GENERAL_ERROR IOEXERR_WRONG_STATE)) with 2164260882.
    assert (put_env (env (client w)) (client w) = client w) as -> by (by destruct (client w)).
    by apply (write_end_spec w p (WriteChannel sid ch d len) 2164260882 (client w)).
  - rewrite (good_data d len Ha) by (intros b ->; exact Hd). bind_simpl.
    rewrite ask_held. destruct (channel_write (mux s) ch (payload_buffer d len) (env (client w))) as [rc e].
    by apply (write_end_spec w p (WriteChannel sid ch d len)).
Qed.

Ltac found_stream Hc :=
  let Hf := fresh "Hf" in let Ha := fresh "Ha" in
  intros p s h Hf Ha; pose proof (found_spec _ _ _ _ _ _ _ Hc Hf) as (Hl & ? & ? & ? & hd & ? & ?).

Lemma exec_spec w m S ws c : core w m (fun _ => 1) S -> data_there c ->
  exec ws c w = Ok (fst (answer ws c (found w m (target c)) (client w)), with_client (snd (answer ws c (found w m (target c)) (client w))) w).
Proof.
  intros Hc Hd. destruct c as [sid d len|sid out|sid out|sid out|sid cookie|sid ch|sid ch d len|sid ch|sid ch|sid sv pr ho po|sid pf]; cbn [exec].
  - apply (call_spec w m S ws (Write sid d len) _ _ Hc); [by rewrite bad_data_spec|]. found_stream Hc.
    destruct ((type s =? 0) || (type s =? 1)) eqn:Et.
    { unfold IOEXStreamType_audio, IOEXStreamType_video. rewrite Et, refuse_spec by done. unfold outcome_of. cbn [refusal]. by rewrite Et. }
    unfold IOEXStreamType_audio, IOEXStreamType_video. rewrite Et.
    apply refuse_wanted; [done|cbn [refusal]; by rewrite Et|]. intros Hs. apply (write_call_spec w p s h hd); try done.
    cbn [refusal]. by rewrite Et, Hs.
  - by apply (read_field_spec w m S ws (GetType sid out) type out).
  - by apply (read_field_spec w m S ws (GetState sid out) state out).
  - apply (call_spec w m S ws (TransportInfo sid out) _ _ Hc); [done|]. found_stream Hc.
    apply refuse_wanted; [done|done|]. intros Hs. unfold outcome_of. cbn [refusal effect]. rewrite Hs, ask_held.
    destruct (get_info p (env (client w))) as [rc e]. rewrite finish_spec by done. cbn [value reported]. by destruct (rc <? 0).
  - apply (call_spec w m S ws (OpenChannel sid cookie) _ _ Hc); [apply bad_simple|]. found_stream Hc.
    apply connected_spec; [done|done|]. intros Hs.
    apply (mux_call_spec w p s (fun m => channel_open m 0 cookie 0) (fun rc => rc) (OpenChannel sid cookie)); try done.
    cbn [refusal]. by rewrite Hs.
  - apply (call_spec w m S ws (CloseChannel sid ch) _ _ Hc); [apply bad_simple|]. found_stream Hc.
    by apply (mux_call_spec w p s (fun m => channel_close m ch) (fun _ => 0) (CloseChannel sid ch)).
  - apply (call_spec w m S ws (WriteChannel sid ch d len) _ _ Hc).
    { rewrite bad_data_spec, (Z.ltb_antisym 0 ch). unfold bad_id. cbn [args_ok target]. by destruct (ws =? 0), (sid <=? 0), (0 <=? ch). }
    found_stream Hc. apply refuse_wanted; [done|done|]. intros Hs. apply write_channel_spec; try done. cbn [refusal]. by rewrite Hs.
  - apply (call_spec w m S ws (PendChannel sid ch) _ _ Hc); [apply bad_positive|]. found_stream Hc.
    by apply (mux_call_spec w p s (fun m => channel_pend m ch) (fun _ => 0) (PendChannel sid ch)).
  - apply (call_spec w m S ws (ResumeChannel sid ch) _ _ Hc); [apply bad_positive|]. found_stream Hc.
    by apply (mux_call_spec w p s (fun m => channel_resume m ch) (fun _ => 0) (ResumeChannel sid ch)).
  - apply (call_spec w m S ws (OpenForwarding sid sv pr ho po) _ _ Hc).
    { cbn [args_ok target]. unfold bad_id. destruct sv as [[]|], po as [[]|]; cbn; rewrite ?orb_true_r, ?orb_false_r; done. }
    found_stream Hc. cbn [args_ok] in Ha. apply andb_true_iff in Ha as [Ha Hp]. rewrite Hp. cbn [andb].
    destruct (Pipeline.reliable (options s)) eqn:Er; cbn [negb];
      [|rewrite refuse_spec by done; unfold outcome_of; cbn [refusal]; by rewrite Er].
    assert ((if no_text ho then localhost else default [] ho) = match ho with Some (b :: t) => b :: t | _ => localhost end) as ->
      by (by destruct ho as [[]|]).
    apply (mux_call_spec w p s (fun m => portforwarding_open m (default [] sv) pr _ (default [] po)) (fun rc => rc) (OpenForwarding sid sv pr ho po));
      try done. cbn [refusal]. by rewrite Er.
  - apply (call_spec w m S ws (CloseForwarding sid pf) _ _ Hc); [apply bad_positive|]. found_stream Hc.
    by apply (mux_call_spec w p s (fun m => portforwarding_close m pf) (fun _ => 0) (CloseForwarding sid pf)).
Qed.

End Calls.

End SessionCalls.
