(* ===== verification/SessionThm.v ===== *)
(** * Sessions: adding, removing and closing

    Streams are added and removed without leaving anything behind, whatever the
    layers below report, and a session that is closed has none. *)

From Stdlib Require Import ZArith Lia.
From stdpp Require Import prelude gmap sets list.
From S2P Require Import Prelude Bitset IdsHeap FlexBuffer Pipeline RcMem Rings LinkedList LinkedListThm Mux Session SessionInv.

Module SessionThm.
Import RcMem Rings LinkedList LinkedListThm Session SessionInv.

Section Thm.
Context {E : Type} {L : Layers E}.

Notation W := (lworld (IOEXSession E)).
Implicit Types w : W.

(** ** Frames *)

Lemma session_frame w w' m cnt cnt' S S' : core w m cnt S ->
  rep w' (entry <$> m) ->
  (forall i p s, (i, p) ∈ m -> streams (client w) !! p = Some s -> exists s', streams (client w') !! p = Some s' /\ id s' = id s) ->
  (forall i p, (i, p) ∈ m -> objs (w_heap w') !! p = Some (mkRc (cnt' p) (Some ICE_STREAM_DESTROY) mem_magic) /\ 0 < cnt' p < 2 ^ 31) ->
  (forall i p, (i, p) ∈ m -> piped w p -> piped w' p) ->
  IdsHeap.refines (stream_ids (client w')) S' -> IdsHeap.max_index (stream_ids (client w')) = IdsHeap.max_index (stream_ids (client w)) ->
  (forall i, i ∈ m.*1 -> i ∈ S') -> brk (w_heap w) <= brk (w_heap w') -> head (lst w') = head (lst w) ->
  (forall p, is_Some (links (client w') !! p) -> p < brk (w_heap w')) ->
  core w' m cnt' S'.
Proof.
  intros [] HR Hs Ho Hp Hi Hm Hin Hb Hh Hl. split; try done; try congruence.
  - intros i p Hip. destruct (c_stream0 i p Hip) as (s & Es & <- & Hi0). destruct (Hs _ p s Hip Es) as (s' & Es' & E1). exists s'. by rewrite E1.
  - intros i p Hip. destruct (c_obj0 i p Hip) as (_ & H0 & _). by destruct (Ho i p Hip).
  - intros i p Hip. apply (Hp i p Hip). by eapply c_pipe0.
  - destruct c_brk0 as (H0 & H1 & H2 & _). rewrite Hh. split; [lia|]. split; [lia|]. split; [|done]. intros i p Hip. specialize (H2 i p Hip). lia.
Qed.

(** A change of the session's own state that keeps the streams it reads. *)
Definition quiet (y y' : IOEXSession E) : Prop :=
  streams y' = streams y /\ links y' = links y /\ stream_ids y' = stream_ids y.

Lemma piped_links w w' p : links (client w') = links (client w) -> piped w p -> piped w' p.
Proof. unfold piped. by intros ->. Qed.

Lemma rep_client w l y : rep w l -> rep (with_client y w) l.
Proof. intros [Hring]. split; try done. Qed.

Lemma core_quiet w m cnt S y : quiet (client w) y -> core w m cnt S -> core (with_client y w) m cnt S.
Proof.
  intros (Hs & Hl & Hi) Hc. pose proof Hc as []. apply (session_frame w _ m cnt cnt S S Hc); cbn; rewrite ?Hs, ?Hl, ?Hi; try done.
  - by apply rep_client.
  - eauto.
  - intros i p Hip. destruct (c_obj0 i p Hip) as (? & ? & ?). done.
  - intros i p _. by apply piped_links.
  - by destruct c_brk0 as (_ & _ & _ & ?).
Qed.

Lemma inv_quiet w m S y : quiet (client w) y -> inv w m S -> inv (with_client y w) m S.
Proof. intros Hq [Hc Hd]. split; [by apply core_quiet|]. destruct Hq as (Hs & _). cbn. by rewrite Hs. Qed.

(** A change of one stream that keeps its identifier. *)
Lemma stream_change w m cnt S p s s' : core w m cnt S -> streams (client w) !! p = Some s -> (p ∈ m.*2 -> id s' = id s) ->
  core (upd_session (put_streams (<[p := s']> (streams (client w)))) w) m cnt S.
Proof.
  intros Hc Hp Hid. pose proof Hc as []. apply (session_frame w _ m cnt cnt S S Hc); cbn; try done.
  - by apply rep_client.
  - intros i q x Hin Hq. destruct (decide (p = q)) as [<-|Hne].
    + exists s'. rewrite lookup_insert_eq. split; [done|]. rewrite Hid by (by eapply in_snd). congruence.
    + exists x. by rewrite lookup_insert_ne.
  - intros i q Hip. destruct (c_obj0 i q Hip) as (? & ? & ?). done.
  - by destruct c_brk0 as (_ & _ & _ & ?).
Qed.

(** A change of one count. *)
Lemma core_count w m cnt cnt' S p k : core w m cnt S -> 0 < k < 2 ^ 31 -> (forall q, q <> p -> cnt' q = cnt q) -> cnt' p = k ->
  core (set_obj p (mkRc k (Some ICE_STREAM_DESTROY) mem_magic) w) m cnt' S.
Proof.
  intros Hc Hk Hne Hp. pose proof Hc as [].
  assert (forall i q, (i, q) ∈ m -> (<[p := mkRc k (Some ICE_STREAM_DESTROY) mem_magic]> (objs (w_heap w))) !! q =
    Some (mkRc (cnt' q) (Some ICE_STREAM_DESTROY) mem_magic) /\ 0 < cnt' q < 2 ^ 31) as Ho.
  { intros i q Hin. destruct (c_obj0 i q Hin) as (Ho & _ & Hb). destruct (decide (p = q)) as [<-|Hpq].
    - rewrite lookup_insert_eq. by rewrite Hp.
    - rewrite lookup_insert_ne by done. by rewrite Hne. }
  apply (session_frame w _ m cnt cnt' S S Hc); cbn; try done.
  - apply (list_rep_frame w); [done|done|done|]. intros e (c & -> & Hin)%list_elem_of_fmap. destruct c as [i q].
    unfold entry. cbn. rewrite Z.add_simpl_r. destruct (Ho i q Hin) as [Hoq Hb]. destruct (c_obj0 i q Hin) as (_ & Hq0 & _).
    exists (cnt' q), (Some ICE_STREAM_DESTROY). split; [lia|]. split; [lia|done].
  - eauto.
  - by destruct c_brk0 as (_ & _ & _ & ?).
Qed.

(** ** A stream that is being created

    It has one reference and is not in the list; its handlers are [hs]. *)

Record nascent w m S (p : Z) (hs : list Z) : Prop := {
  n_core : core w m (fun _ => 1) S;
  n_only : forall q, is_Some (streams (client w) !! q) -> q ∈ m.*2 \/ q = p;
  n_new : p ∉ m.*2;
  n_obj : objs (w_heap w) !! p = Some (mkRc 1 (Some ICE_STREAM_DESTROY) mem_magic);
  n_pos : 0 < p;
  n_brk : p + le_stream < brk (w_heap w);
  n_head : p + le_stream <> head (lst w);
  n_chain : Pipeline.chain (links (client w)) (p :: hs);
}.

Lemma nascent_live w m S p hs : nascent w m S p hs -> live w p 1 (Some ICE_STREAM_DESTROY).
Proof. intros []. split; [lia|]. split; [lia|done]. Qed.

Lemma nascent_quiet w m S p hs y : quiet (client w) y -> nascent w m S p hs -> nascent (with_client y w) m S p hs.
Proof.
  intros Hq []. pose proof Hq as (Hs & Hl & Hi). split; cbn; rewrite ?Hs, ?Hl; try done. by apply core_quiet.
Qed.

Lemma nascent_stream w m S p hs s s' : nascent w m S p hs -> streams (client w) !! p = Some s ->
  nascent (upd_session (put_streams (<[p := s']> (streams (client w)))) w) m S p hs.
Proof.
  intros [] Hp. split; cbn; try done.
  - by apply (stream_change _ _ _ _ _ s).
  - intros q Hq. destruct (decide (q = p)) as [->|Hne]; [by right|]. rewrite lookup_insert_ne in Hq by done. by apply n_only0.
Qed.

Lemma zalloc_stream w m S : inv w m S ->
  exists p w', rc_zalloc true sizeof_IceStream (Some ICE_STREAM_DESTROY) w = (p, w') /\ p <> 0 /\ nascent w' m S p [] /\ streams (client w') !! p = Some zero_stream /\ is_Some (nodes w' !! (p + le_stream)) /\
    env (client w') = env (client w) /\ error (client w') = error (client w).
Proof.
  intros [Hc Hd]. pose proof Hc as []. destruct c_brk0 as (H0 & H1 & H2 & H3).
  unfold rc_zalloc, rc_alloc. cbn [negb heap_of lworld_world]. set (p := brk (w_heap w) + sizeof_rc_mem).
  assert (p = brk (w_heap w) + 24) as Ep by done. rewrite (proj2 (Z.eqb_neq _ _)) by lia.
  do 2 eexists. split; [reflexivity|]. split; [lia|].
  assert (p ∉ m.*2) as Hnew.
  { intros ([i q] & E1 & Hin)%list_elem_of_fmap. cbn in E1. specialize (H2 i q Hin). unfold le_stream in H2. lia. }
  split; [split; cbn; try done|].
  - apply (session_frame w _ m (fun _ => 1) (fun _ => 1) S S Hc); cbn; try done.
    + apply (list_rep_frame w); [done|done| |].
      * intros a Ha. cbn. rewrite lookup_insert_ne; [done|]. intros <-. apply elem_of_cons in Ha as [Ha|Ha].
        -- unfold le_stream in Ha. lia.
        -- apply list_elem_of_fmap in Ha as ([i q] & E1 & Hin). unfold entry in E1. cbn in E1. specialize (H2 i q Hin). unfold le_stream in *. lia.
      * intros e ([i q] & -> & Hin)%list_elem_of_fmap. unfold entry. cbn. rewrite Z.add_simpl_r. destruct (c_obj0 i q Hin) as (Ho & Hq & Hb).
        exists 1, (Some ICE_STREAM_DESTROY). split; [lia|]. split; [lia|]. cbn. rewrite lookup_insert_ne; [done|].
        intros ->. apply Hnew. by eapply in_snd.
    + intros i q s Hin Hq. exists s. rewrite lookup_insert_ne; [done|]. intros ->. apply Hnew. by eapply in_snd.
    + intros i q Hin. destruct (c_obj0 i q Hin) as (Ho & _ & Hb). rewrite lookup_insert_ne; [done|]. intros ->. apply Hnew. by eapply in_snd.
    + intros i q Hin (hs & Hne & Hch). exists hs. split; [done|]. apply (Pipeline.chain_ext (links (client w))); [done|]. intros x Hx. cbn.
      rewrite lookup_insert_ne; [done|]. intros <-. destruct (Pipeline.chain_some _ _ _ Hch Hx) as [_ Hs]. specialize (H3 _ Hs). lia.
    + unfold sizeof_IceStream. lia.
    + intros q Hq. unfold sizeof_IceStream. destruct (decide (q = p)) as [->|Hne]; [lia|]. rewrite lookup_insert_ne in Hq by done.
      specialize (H3 _ Hq). lia.
  - intros q Hq. destruct (decide (q = p)) as [->|Hne]; [by right|]. rewrite lookup_insert_ne in Hq by done. left. by apply Hd.
  - by rewrite lookup_insert_eq.
  - lia.
  - unfold sizeof_IceStream, le_stream. lia.
  - unfold le_stream. lia.
  - split; [apply NoDup_singleton|]. split; [lia|]. by rewrite lookup_insert_eq.
  - split_and!; cbn; try done; [by rewrite lookup_insert_eq|]. rewrite lookup_insert_eq. by eexists.
Qed.

Lemma in_chain_brk w m cnt S l x : core w m cnt S -> Pipeline.chain (links (client w)) l -> x ∈ l -> x < brk (w_heap w).
Proof.
  intros Hc Hch Hx. destruct (Pipeline.chain_some _ _ _ Hch Hx) as [_ Hs].
  destruct (c_brk _ _ _ _ Hc) as (_ & _ & _ & H). by apply H.
Qed.

(** A new handler below the handler [x] of the new stream's pipeline. *)
Lemma connect_nascent w m S p hs l1 x l2 : nascent w m S p hs -> p :: hs = l1 ++ x :: l2 ->
  exists h w1 l w' hs', new_handler w = (h, w1) /\ Pipeline.handler_connect x h (links (client w1)) = Ok l /\
    w' = upd_session (put_links l) w1 /\ nascent w' m S p hs' /\ p :: hs' = l1 ++ x :: h :: l2 /\ h <> 0 /\
    streams (client w') = streams (client w) /\ stream_ids (client w') = stream_ids (client w) /\ nodes w' = nodes w.
Proof.
  intros Hn E1. pose proof Hn as []. destruct (c_brk _ _ _ _ n_core0) as (H0 & H1 & H2 & H3).
  unfold new_handler. set (h := brk (w_heap w) + sizeof_rc_mem). assert (h = brk (w_heap w) + 24) as Eh by done.
  assert (forall l y, Pipeline.chain (links (client w)) l -> y ∈ l -> y <> h) as Hh.
  { intros l y Hch Hy ->. pose proof (in_chain_brk _ _ _ _ _ _ n_core0 Hch Hy). lia. }
  set (k1 := <[h := Pipeline.mkHandler 0 0]> (links (client w))).
  assert (forall l, Pipeline.chain (links (client w)) l -> Pipeline.chain k1 l) as Hk1.
  { intros l Hch. apply (Pipeline.chain_ext (links (client w))); [done|]. intros y Hy. unfold k1. rewrite lookup_insert_ne; [done|].
    apply not_eq_sym. by apply (Hh l). }
  rewrite E1 in n_chain0. destruct (Pipeline.connect_spec k1 l1 x l2 h) as (l & El & Hl & Hfr);
    [by apply Hk1|intros Hin; by apply (Hh _ h n_chain0)|lia|unfold k1; rewrite lookup_insert_eq; by eexists|].
  exists h. eexists _, l, _, (tl (l1 ++ x :: h :: l2)). split; [reflexivity|]. split; [exact El|]. split; [reflexivity|].
  assert (p :: tl (l1 ++ x :: h :: l2) = l1 ++ x :: h :: l2) as Et by (destruct l1; cbn in *; by injection E1 as -> ->).
  split; [|split; [done|]; split; [lia|done]].
  split; cbn; try done.
  - apply (session_frame w _ m (fun _ => 1) (fun _ => 1) S S n_core0); cbn; try apply n_core0; try done.
    + apply (list_rep_frame w); [apply n_core0|done|done|]. intros e ([i q] & -> & Hin)%list_elem_of_fmap. unfold entry. cbn.
      rewrite Z.add_simpl_r. exists 1, (Some ICE_STREAM_DESTROY). exact (stream_live w m (fun _ => 1) S i q n_core0 Hin).
    + eauto.
    + intros i q Hin. destruct (c_obj _ _ _ _ n_core0 i q Hin) as (? & ? & ?). done.
    + intros i q Hin (hq & Hne & Hq). exists hq. split; [done|]. apply (Pipeline.chain_ext k1); [by apply Hk1|]. cbn. intros y Hy. apply Hfr.
      rewrite <- Et. intros Hy'. rewrite Et in Hy'. assert (y ∈ l1 ++ x :: l2) as Hy2.
      { assert (y <> h) by by apply (Hh _ y Hq). set_solver. }
      rewrite <- E1 in Hy2, n_chain0. apply (Pipeline.chain_disjoint _ _ _ _ _ Hq n_chain0) with (x := y); [|done|done].
      intros ->. apply n_new0. by eapply in_snd.
    + unfold sizeof_StreamHandler. lia.
    + intros q Hq. unfold sizeof_StreamHandler. destruct (decide (q ∈ l1 ++ x :: h :: l2)) as [Hin|Hout].
      * assert (q = h \/ q ∈ l1 ++ x :: l2) as [->|Hq2] by set_solver; [lia|].
        pose proof (in_chain_brk _ _ _ _ _ _ n_core0 n_chain0 Hq2). lia.
      * rewrite Hfr in Hq by done. unfold k1 in Hq. rewrite lookup_insert_ne in Hq by set_solver. specialize (H3 q Hq). lia.
  - unfold sizeof_StreamHandler. lia.
  - by rewrite Et.
Qed.

(** The identifiers [ids_heap_free] can test. *)
Definition freeable (i : Z) : bool := (i - 1) mod 64 <? 31.

(** Dropping the new stream: it is gone, with its identifier. *)
Lemma drop_stream w m S p hs s : nascent w m S p hs -> streams (client w) !! p = Some s ->
  (0 < id s -> id s ∈ S /\ id s ∉ m.*1 /\ freeable (id s) = true) ->
  exists w', deref p w = Ok w' /\ inv w' m (if 0 <? id s then S ∖ {[id s]} else S) /\
    streams (client w') !! p = None /\ error (client w') = error (client w) /\ keys (client w') = keys (client w) /\
    env (client w') = match hs with [] => env (client w) | h :: _ => handler_deref h (env (client w)) end.
Proof.
  intros Hn Hp Hid. pose proof Hn as []. destruct (c_brk _ _ _ _ n_core0) as (H0 & H1 & H2 & H3).
  destruct (Pipeline.chain_handler _ [] p hs n_chain0) as [_ Hhd].
  set (hd := Pipeline.mkHandler (default 0 (last [])) (default 0 (hd_error hs))) in Hhd.
  assert (Pipeline.next hd = default 0 (hd_error hs)) as Hnext by done.
  set (S' := if 0 <? id s then S ∖ {[id s]} else S).
  set (y0 := if nonzero (Pipeline.next hd) then put_env (handler_deref (Pipeline.next hd) (env (client w))) (client w) else client w).
  assert (quiet (client w) y0 /\ error y0 = error (client w) /\ keys y0 = keys (client w)) as (Hq0 & He0 & Hk0)
    by (unfold y0; by destruct (nonzero _)).
  assert (env y0 = match hs with [] => env (client w) | h :: _ => handler_deref h (env (client w)) end) as Henv.
  { unfold y0. rewrite Hnext. destruct hs as [|h hs]; [done|]. destruct (Pipeline.chain_handler _ [p] h hs n_chain0) as [Hh _].
    cbn. by rewrite (nonzero_true _ Hh). }
  assert (exists y1, stream_base_destroy p (client w) = Ok y1 /\ streams y1 = streams (client w) /\ links y1 = links (client w) /\
    IdsHeap.refines (stream_ids y1) S' /\ IdsHeap.max_index (stream_ids y1) = MAX_STREAM_ID /\ error y1 = error (client w) /\
    keys y1 = keys (client w) /\ env y1 = env y0) as (y1 & Ed & Hs1 & Hl1 & Hi1 & Hm1 & He1 & Hk1 & Hv1).
  { unfold stream_base_destroy. rewrite Hp, (Pipeline.handler_at_ok _ _ _ Hhd). bind_simpl. fold y0.
    destruct Hq0 as (Hs0 & Hl0 & Hi0). unfold S'. destruct (Z.ltb_spec 0 (id s)) as [Hpos|Hpos].
    - destruct (Hid Hpos) as (HinS & _ & Hg). rewrite Hi0.
      assert (1 <= id s <= MAX_STREAM_ID) as Hrange.
      { destruct (c_ids _ _ _ _ n_core0) as [_ HS]. rewrite (c_max _ _ _ _ n_core0) in HS. by apply HS in HinS as [? _]. }
      destruct (IdsHeap.ids_heap_free_refines (stream_ids (client w)) S (id s)) as (h' & -> & HR & Hmx & _);
        [apply n_core0|by rewrite (c_max _ _ _ _ n_core0)|done|]. bind_simpl. eexists. split; [reflexivity|]. cbn.
      split_and!; try done; try congruence. rewrite Hmx. apply n_core0.
    - eexists. split; [reflexivity|]. rewrite Hi0. split_and!; try done; apply n_core0. }
  rewrite (deref_last w p (Some ICE_STREAM_DESTROY) (nascent_live _ _ _ _ _ Hn)).
  cbn [call_destructor lworld_world client set_obj set_heap with_heap client_destroy stream_client]. rewrite Z.eqb_refl, Ed. bind_simpl.
  eexists. split; [reflexivity|]. split; [|cbn; rewrite Hs1, Hv1; by rewrite lookup_delete_eq].
  assert (forall i q, (i, q) ∈ m -> q <> p) as Hne by (intros i q Hin ->; apply n_new0; by eapply in_snd).
  split.
  - apply (session_frame w _ m (fun _ => 1) (fun _ => 1) S S' n_core0); cbn; rewrite ?Hs1, ?Hl1.
    + apply (list_rep_frame w); [apply n_core0|done| |].
      * intros a Ha. cbn. rewrite lookup_delete_ne; [done|]. intros <-. apply elem_of_cons in Ha as [Ha|Ha]; [done|].
        apply list_elem_of_fmap in Ha as ([i q] & E1 & Hin). unfold entry in E1. cbn in E1. apply (Hne i q Hin). lia.
      * intros e ([i q] & -> & Hin)%list_elem_of_fmap. unfold entry. cbn. rewrite Z.add_simpl_r.
        destruct (stream_live w m (fun _ => 1) S i q n_core0 Hin) as (Hq0' & Hb & Ho). exists 1, (Some ICE_STREAM_DESTROY).
        split; [done|]. split; [done|]. cbn. rewrite lookup_delete_ne, lookup_insert_ne by (apply not_eq_sym; by eapply Hne). exact Ho.
    + intros i q s0 Hin Hq. exists s0. rewrite lookup_delete_ne by (apply not_eq_sym; by eapply Hne). done.
    + intros i q Hin. destruct (c_obj _ _ _ _ n_core0 i q Hin) as (Ho & _ & Hb).
      rewrite lookup_delete_ne, lookup_insert_ne by (apply not_eq_sym; by eapply Hne). done.
    + intros i q Hin (hq & Hnq & Hq). exists hq. split; [done|]. apply (Pipeline.chain_ext (links (client w))); [done|]. intros x Hx. cbn.
      rewrite ?Hl1, lookup_delete_ne; [done|]. intros <-.
      apply (Pipeline.chain_disjoint _ _ _ _ _ n_chain0 Hq) with (x := p); [apply not_eq_sym; by eapply Hne|left|done].
    + done.
    + rewrite Hm1. symmetry. apply n_core0.
    + intros i Hi. unfold S'. pose proof (c_in _ _ _ _ n_core0 i Hi). destruct (Z.ltb_spec 0 (id s)) as [Hpos|]; [|done].
      destruct (Hid Hpos) as (_ & Hnot & _). set_solver.
    + lia.
    + done.
    + intros q Hq. destruct (decide (q = p)) as [->|Hqp]; [by rewrite lookup_delete_eq in Hq; destruct Hq|].
      rewrite lookup_delete_ne in Hq by done. by apply H3.
  - cbn. rewrite Hs1. intros q Hq. destruct (decide (q = p)) as [->|Hqp]; [by rewrite lookup_delete_eq in Hq; destruct Hq|].
    rewrite lookup_delete_ne in Hq by done. by destruct (n_only0 q Hq).
Qed.

Lemma length_streams w m cnt S : core w m cnt S -> zlen m <= 256.
Proof.
  intros Hc. assert (zlen m = zlen m.*1) as -> by (unfold zlen; by rewrite length_fmap).
  assert (m.*1 ⊆+ seqZ 1 256) as Hsub.
  { apply NoDup_submseteq; [apply Hc|]. intros i Hi. apply (c_in _ _ _ _ Hc) in Hi.
    destruct (c_ids _ _ _ _ Hc) as [_ HS]. rewrite (c_max _ _ _ _ Hc) in HS. apply HS in Hi as [Hi _]. apply elem_of_seqZ. unfold MAX_STREAM_ID in Hi. lia. }
  apply submseteq_length in Hsub. rewrite length_seqZ in Hsub. unfold zlen. lia.
Qed.

(** [s->le.data = s] *)
Lemma data_nascent w m S p hs : nascent w m S p hs -> is_Some (nodes w !! (p + le_stream)) ->
  exists w', set_le_data p w = Ok w' /\ nascent w' m S p hs /\ entry_of w' (p + le_stream) p /\ client w' = client w.
Proof.
  intros Hn [n En]. pose proof Hn as []. unfold set_le_data. rewrite (upd_ok _ _ _ _ En). bind_simpl.
  eexists. split; [reflexivity|]. split; [|split; [|done]].
  - split; cbn; try done. apply (session_frame w _ m (fun _ => 1) (fun _ => 1) S S n_core0); cbn; try apply n_core0; try done.
    + apply (list_rep_frame w); [apply n_core0|done| |].
      * intros a Ha. cbn. rewrite lookup_insert_ne; [done|]. intros <-. apply elem_of_cons in Ha as [Ha|Ha]; [done|].
        apply list_elem_of_fmap in Ha as ([i q] & E1 & Hin). unfold entry in E1. cbn in E1. apply n_new0. assert (p = q) as -> by lia.
        by eapply in_snd.
      * intros e ([i q] & -> & Hin)%list_elem_of_fmap. unfold entry. cbn. rewrite Z.add_simpl_r.
        exists 1, (Some ICE_STREAM_DESTROY). exact (stream_live w m (fun _ => 1) S i q n_core0 Hin).
    + eauto.
    + intros i q Hin. destruct (c_obj _ _ _ _ n_core0 i q Hin) as (? & ? & ?). done.
  - split; [done|]. split.
    + eexists. split; [cbn; by rewrite lookup_insert_eq|done].
    + exists 1, (Some ICE_STREAM_DESTROY). exact (nascent_live _ _ _ _ _ Hn).
Qed.

(** Putting the new stream into the list. *)
Lemma enter_list w m S p hs s : nascent w m S p hs -> hs <> [] -> streams (client w) !! p = Some s -> entry_of w (p + le_stream) p ->
  0 < id s -> id s ∈ S -> id s ∉ m.*1 ->
  exists w', list_add (p + le_stream) w = Ok (1, w') /\ client w' = client w /\
    core w' (m ++ [(id s, p)]) (fun q => if q =? p then 2 else 1) S /\
    forall q, is_Some (streams (client w') !! q) -> q ∈ (m ++ [(id s, p)]).*2.
Proof.
  intros Hn Hne Hp He Hi0 HiS Him. pose proof Hn as []. pose proof n_core0 as [].
  pose proof (length_streams _ _ _ _ n_core0) as Hlen. pose proof (zlen_nonneg m).
  assert (zlen (entry <$> m) = zlen m) as Hz by (unfold zlen; by rewrite length_fmap).
  assert (p + le_stream ∉ entry <$> m) as Hnew.
  { intros ([i q] & E1 & Hin)%list_elem_of_fmap. unfold entry in E1. cbn in E1. apply n_new0. assert (p = q) as -> by lia. by eapply in_snd. }
  assert (le_stream = 96) as Hle by done.
  destruct (list_insert_spec w (entry <$> m) (-1) (p + le_stream) p 1 (Some ICE_STREAM_DESTROY)) as (w' & El & HR & Hl & Hcl & _ & Hh & Hhp);
    [done|lia|lia|lia|rewrite not_elem_of_cons; done|done|by apply (nascent_live _ _ _ _ _ Hn)|lia|].
  exists w'. split; [exact El|]. split; [done|].
  assert (Z.to_nat (insert_pos (zlen (entry <$> m)) (-1)) = length (entry <$> m)) as Hpos.
  { unfold insert_pos, zlen. cbn [Z.leb Z.compare]. rewrite length_fmap. lia. }
  cbv zeta in HR. rewrite Hpos, take_ge, drop_ge in HR by lia.
  split.
  - assert (forall i q, (i, q) ∈ m -> q <> p) as Hqp by (intros i q Hin ->; apply n_new0; by eapply in_snd).
    split; rewrite ?Hcl, ?Hhp; try done.
    + by rewrite fmap_app.
    + intros i q [Hin|[= -> ->]%list_elem_of_singleton]%elem_of_app; [by apply c_stream0|]. by exists s.
    + intros i q [Hin|[= -> ->]%list_elem_of_singleton]%elem_of_app; cbn [objs brk].
      * destruct (c_obj0 i q Hin) as (Ho & Hq & Hb). rewrite lookup_insert_ne by (apply not_eq_sym; by eapply Hqp).
        rewrite (proj2 (Z.eqb_neq _ _)) by (by eapply Hqp). done.
      * rewrite lookup_insert_eq, Z.eqb_refl. done.
    + intros i q [Hin|[= -> ->]%list_elem_of_singleton]%elem_of_app.
      * apply (piped_links w); [by rewrite Hcl|by eapply c_pipe0].
      * exists hs. split; [done|]. by rewrite Hcl.
    + intros i. rewrite fmap_app. intros [Hin|Hin]%elem_of_app; [by apply c_in0|]. apply list_elem_of_singleton in Hin as ->. done.
    + rewrite fmap_app. apply NoDup_app. split; [done|]. split; [|apply NoDup_singleton].
      intros i Hin Hin'. apply list_elem_of_singleton in Hin'. cbn in Hin'. congruence.
    + destruct c_brk0 as (H0 & H1 & H2 & H3). cbn. rewrite Hh. split; [done|]. split; [done|]. split; [|done].
      intros i q [Hin|[= -> ->]%list_elem_of_singleton]%elem_of_app; [by eapply H2|done].
  - rewrite Hcl, fmap_app. intros q Hq. apply elem_of_app. destruct (n_only0 q Hq) as [?| ->]; [by left|]. right. by apply list_elem_of_singleton.
Qed.

(** Taking a stream out of the list. *)
Lemma leave w m1 i p m2 cnt S : core w (m1 ++ (i, p) :: m2) cnt S ->
  exists w', list_remove_entry (p + le_stream) w = Ok (p, w') /\ core w' (m1 ++ m2) cnt S /\ client w' = client w /\ w_heap w' = w_heap w /\
    head (lst w') = head (lst w).
Proof.
  intros Hc. pose proof Hc as []. assert (forall c, c ∈ m1 ++ m2 -> c ∈ m1 ++ (i, p) :: m2) as Hsub by set_solver.
  pose proof c_list0 as HR. rewrite fmap_app, fmap_cons in HR.
  destruct (list_remove_entry_spec w _ _ _ HR) as (w' & Er & HR' & Hh & Hcl & _ & Hhd).
  unfold entry in Er at 1 2. cbn [snd] in Er. rewrite Z.add_simpl_r in Er.
  exists w'. split; [exact Er|]. split; [|done].
  split; rewrite ?Hcl, ?Hh, ?Hhd; try done.
  - by rewrite fmap_app.
  - intros j q Hin. by apply c_stream0, Hsub.
  - intros j q Hin. by apply (c_obj0 j), Hsub.
  - intros j q Hin. apply (piped_links w); [by rewrite Hcl|]. by apply (c_pipe0 j), Hsub.
  - intros j ([j' q] & -> & Hin)%list_elem_of_fmap. apply c_in0. by eapply in_fst, Hsub.
  - rewrite fmap_app in c_nodup0 |- *. cbn in c_nodup0. apply NoDup_app in c_nodup0 as (Ha & Hb & Hd).
    apply NoDup_cons in Hd as [_ Hd]. apply NoDup_app. split; [done|]. split; [|done]. intros x Hx. specialize (Hb x Hx). set_solver.
  - destruct c_brk0 as (H0 & H1 & H2 & H3). split; [done|]. split; [done|]. split; [|done]. intros j q Hin. by apply (H2 j), Hsub.
Qed.

Lemma split_nodup (m1 : list (Z * Z)) i p m2 : NoDup (m1 ++ (i, p) :: m2).*1 -> NoDup (m1 ++ (i, p) :: m2).*2 ->
  i ∉ (m1 ++ m2).*1 /\ p ∉ (m1 ++ m2).*2.
Proof.
  rewrite !fmap_app, !fmap_cons. cbn. rewrite !NoDup_app, !NoDup_cons, !not_elem_of_app. intros (_ & H1 & H2 & _) (_ & H3 & H4 & _).
  split; (split; [|done]); [intros Hin; specialize (H1 i Hin)|intros Hin; specialize (H3 p Hin)]; set_solver.
Qed.

(** Out of the list with one reference left, which is the caller's. *)
Lemma left_nascent w w' m1 i p m2 S : core w (m1 ++ (i, p) :: m2) (fun q => if q =? p then 2 else 1) S ->
  (forall q, is_Some (streams (client w) !! q) -> q ∈ (m1 ++ (i, p) :: m2).*2) ->
  core w' (m1 ++ m2) (fun q => if q =? p then 2 else 1) S -> client w' = client w -> w_heap w' = w_heap w -> head (lst w') = head (lst w) ->
  exists w2 hs, deref p w' = Ok w2 /\ nascent w2 (m1 ++ m2) S p hs /\ client w2 = client w /\ i ∉ (m1 ++ m2).*1.
Proof.
  intros Hc Hd Hc' Hcl Hh Hhd. assert ((i, p) ∈ m1 ++ (i, p) :: m2) as Hin by set_solver.
  destruct (split_nodup _ _ _ _ (c_nodup _ _ _ _ Hc) (core_nodup2 _ _ _ _ Hc)) as [Hi Hp].
  pose proof (stream_live _ _ _ _ _ _ Hc Hin) as Hl. cbn beta in Hl. rewrite Z.eqb_refl in Hl.
  assert (live w' p 2 (Some ICE_STREAM_DESTROY)) as Hl' by (destruct Hl as (? & ? & Ho); split; [done|]; split; [done|]; cbn; rewrite Hh; exact Ho).
  destruct (c_pipe _ _ _ _ Hc _ _ Hin) as (hs & Hne & Hch).
  eexists _, hs. split; [by apply (deref_keeps w' p 2); [|lia]|]. split; [|split; [done|exact Hi]].
  destruct (c_brk _ _ _ _ Hc) as (H0 & H1 & H2 & H3).
  assert (core (set_obj p (mkRc 1 (Some ICE_STREAM_DESTROY) mem_magic) w') (m1 ++ m2) (fun _ => 1) S) as Hcore.
  { apply (core_count w' _ (fun q => if q =? p then 2 else 1)); [done|lia| |done]. intros q Hq. by rewrite (proj2 (Z.eqb_neq _ _)). }
  split; [exact Hcore| | | | | | |]; cbn; rewrite ?Hcl, ?Hh, ?Hhd; try done.
  - intros q Hq. specialize (Hd q Hq). rewrite !fmap_app, fmap_cons in Hd. rewrite fmap_app. set_solver.
  - by rewrite lookup_insert_eq.
  - by destruct (c_obj _ _ _ _ Hc _ _ Hin) as (_ & ? & _).
  - by eapply H2.
  - destruct (c_list _ _ _ _ Hc) as [[Hnd _] _ _ _ _ _]. apply NoDup_cons in Hnd as [Hnd _]. intros E1. apply Hnd. rewrite <- E1.
    apply list_elem_of_fmap. by exists (i, p).
Qed.

(** ** Creating a stream *)

(** A call of the environment. *)
Lemma ask_eq {A} (f : E -> A * E) w : exists a y, ask f w = (a, with_client y w) /\ quiet (client w) y /\ keys y = keys (client w).
Proof. unfold ask. destruct (f (env (client w))) as [a e]. by exists a, (put_env e (client w)). Qed.

Lemma create_stream_spec w m S : inv w m S ->
  exists rc p w', ice_session_create_stream w = Ok (rc, p, w') /\
    ((rc <> 0 /\ inv w' m S) \/
     (rc = 0 /\ (exists h, nascent w' m S p [h]) /\ streams (client w') !! p = Some zero_stream /\
      is_Some (nodes w' !! (p + le_stream)) /\ stream_ids (client w') = stream_ids (client w))).
Proof.
  intros Hi. unfold ice_session_create_stream. destruct (ask_eq stream_alloc w) as (ok & y & -> & Hq & _).
  pose proof (inv_quiet _ _ _ _ Hq Hi) as Hi1. destruct ok.
  2:{ exists (IOEX_GENERAL_ERROR IOEXERR_OUT_OF_MEMORY), 0. eexists. split; [reflexivity|]. by left. }
  destruct (zalloc_stream _ _ _ Hi1) as (p & w1 & E1 & Hp0 & Hn & Hs & Hnd & _). rewrite E1. rewrite (proj2 (Z.eqb_neq _ _)) by done.
  assert (stream_ids (client w1) = stream_ids (client w)) as Hid1.
  { unfold rc_zalloc, rc_alloc in E1. cbn in E1. destruct (_ =? 0) in E1; injection E1 as <- <-; cbn; apply Hq. }
  destruct (ask_eq (ice_handler_create p) w1) as (rc & y2 & -> & Hq2 & _). pose proof (nascent_quiet _ _ _ _ _ _ Hq2 Hn) as Hn2.
  assert (streams (client (with_client y2 w1)) !! p = Some zero_stream) as Hs2 by (cbn; destruct Hq2 as (-> & _); done).
  destruct (Z.eqb_spec rc 0) as [->|Hrc]; cbn [negb].
  - destruct (connect_nascent _ _ _ _ _ [] p [] Hn2 eq_refl) as (h & w3 & l & w' & hs & -> & -> & Hw & Hn3 & E3 & _ & Hs3 & Hi3 & Hnd3).
    bind_simpl. rewrite <- Hw. do 3 eexists. split; [reflexivity|]. right. injection E3 as ->.
    split; [done|]. split; [by exists h|]. rewrite Hs3, Hnd3, Hi3. cbn. split; [by rewrite (proj1 Hq2)|]. split; [done|].
    destruct Hq2 as (_ & _ & ->). done.
  - destruct (drop_stream _ _ _ _ _ _ Hn2 Hs2) as (w' & -> & Hi' & _); [cbn; lia|]. bind_simpl.
    do 3 eexists. split; [reflexivity|]. left. by split.
Qed.

(** One layer below [above]. *)
Lemma new_layer_spec w m S p hs l1 above l2 wanted create : nascent w m S p hs -> p :: hs = l1 ++ above :: l2 ->
  exists rc above' h w', new_layer wanted create above w = Ok (rc, above', h, w') /\
    streams (client w') = streams (client w) /\ stream_ids (client w') = stream_ids (client w) /\ nodes w' = nodes w /\
    ((rc < 0 /\ nascent w' m S p hs) \/
     (rc = 0 /\ exists l1' hs', nascent w' m S p hs' /\ p :: hs' = l1' ++ above' :: l2 /\
        l1' ++ [above'] = l1 ++ [above] ++ (if wanted then [h] else []) /\ (wanted = true -> h <> 0))).
Proof.
  intros Hn E1. unfold new_layer. destruct wanted; cbn [negb].
  - destruct (ask_eq create w) as (rc & y & -> & Hq & _). pose proof (nascent_quiet _ _ _ _ _ _ Hq Hn) as Hn1.
    pose proof Hq as (Hs & _ & Hi). destruct (Z.ltb_spec rc 0) as [Hneg|_].
    + do 4 eexists. split; [reflexivity|]. cbn. split; [done|]. split; [done|]. split; [done|]. by left.
    + destruct (connect_nascent _ _ _ _ _ l1 above l2 Hn1 E1) as (h & w1 & l & w' & hs' & -> & -> & Hw & Hn' & E2 & Hh & Hs' & Hi' & Hnd).
      bind_simpl. rewrite <- Hw. do 4 eexists. split; [reflexivity|]. rewrite Hs', Hi', Hnd. cbn. split; [done|]. split; [done|]. split; [done|].
      right. split; [done|]. exists (l1 ++ [above]), hs'. rewrite <- !app_assoc. done.
  - do 4 eexists. split; [reflexivity|]. split; [done|]. split; [done|]. split; [done|]. right. split; [done|]. exists l1, hs.
    by rewrite app_nil_r.
Qed.

Lemma upd_stream_ok w p s f : streams (client w) !! p = Some s ->
  upd_stream p f w = Ok (upd_session (put_streams (<[p := f s]> (streams (client w)))) w).
Proof. intros H. unfold upd_stream. by rewrite (stream_ok _ _ _ H). Qed.

(** How many handlers are between the root and the transport. *)
Definition layer_count (f : Pipeline.flags) : nat :=
  ((if Pipeline.multiplexing f then 1 else 0) + (if Pipeline.reliable f then 1 else 0) + (if Pipeline.unencrypt f then 0 else 1))%nat.

(** The stream's [mux] is the first of its handlers when it is multiplexed. *)
Definition mux_ok (s : IOEXStream) (hs : list Z) : Prop :=
  if Pipeline.multiplexing (options s) then hd_error hs = Some (mux s) /\ mux s <> 0 else mux s = 0.

Lemma add_layers_spec w m S p h s : nascent w m S p [h] -> streams (client w) !! p = Some s -> mux s = 0 ->
  exists rc w', add_layers p w = Ok (rc, w') /\ stream_ids (client w') = stream_ids (client w) /\ nodes w' = nodes w /\
    exists hs s', nascent w' m S p hs /\ hs <> [] /\ streams (client w') !! p = Some s' /\ id s' = id s /\
      (0 <= rc -> type s' = type s /\ state s' = state s /\ options s' = options s /\ length hs = (1 + layer_count (options s))%nat /\ mux_ok s' hs).
Proof.
  intros Hn Hp Hm0. unfold add_layers. rewrite (stream_ok _ _ _ Hp). bind_simpl.
  destruct (new_layer_spec w m S p [h] [] p [h] (Pipeline.multiplexing (options s)) (multiplex_handler_create p) Hn eq_refl)
    as (rc1 & a1 & h1 & w1 & -> & Hs1 & Hi1 & Hnd1 & [[Hr1 Hn1]|(-> & l1 & hs1 & Hn1 & E1 & F1 & Z1)]); bind_simpl.
  { rewrite (proj2 (Z.ltb_lt _ _)) by done. do 2 eexists. split; [reflexivity|]. split; [done|]. split; [done|].
    exists [h], s. rewrite Hs1. split_and!; try done. lia. }
  cbn [Z.ltb Z.compare]. set (s1 := if Pipeline.multiplexing (options s) then set_mux h1 s else s).
  assert (exists w2, (if Pipeline.multiplexing (options s) then upd_stream p (set_mux h1) w1 else Ok w1) = Ok w2 /\ nascent w2 m S p hs1 /\
    streams (client w2) !! p = Some s1 /\ stream_ids (client w2) = stream_ids (client w) /\ nodes w2 = nodes w) as (w2 & -> & Hn2 & Hp2 & Hi2 & Hnd2).
  { unfold s1. rewrite <- Hs1 in Hp. destruct (Pipeline.multiplexing (options s)); [|by exists w1].
    rewrite (upd_stream_ok _ _ _ _ Hp). eexists. split; [reflexivity|]. split; [by eapply nascent_stream|]. split; [|done].
    cbn. by rewrite lookup_insert_eq. }
  bind_simpl. assert (id s1 = id s /\ type s1 = type s /\ state s1 = state s /\ options s1 = options s) as (Hid & Hty & Hst & Hop)
    by (unfold s1; by destruct (Pipeline.multiplexing (options s))).
  destruct (new_layer_spec w2 m S p hs1 l1 a1 [h] (Pipeline.reliable (options s)) (reliable_handler_create p) Hn2 E1)
    as (rc2 & a2 & h2 & w3 & -> & Hs3 & Hi3 & Hnd3 & [[Hr2 Hn3]|(-> & l2 & hs2 & Hn3 & E2 & F2 & _)]); bind_simpl.
  { rewrite (proj2 (Z.ltb_lt _ _)) by done. do 2 eexists. split; [reflexivity|]. split; [congruence|]. split; [congruence|].
    exists hs1, s1. rewrite Hs3. split_and!; try done; [|lia]. intros ->. by destruct l1 as [|? []]. }
  cbn [Z.ltb Z.compare].
  set (w4 := if negb (Pipeline.unencrypt (options s)) then _ else w3).
  assert (nascent w4 m S p hs2 /\ streams (client w4) = streams (client w3) /\ stream_ids (client w4) = stream_ids (client w3) /\ nodes w4 = nodes w3)
    as (Hn4 & Hs4 & Hi4 & Hnd4) by (unfold w4; destruct (negb _); [|done]; split; [by apply nascent_quiet|done]).
  destruct (new_layer_spec w4 m S p hs2 l2 a2 [h] (negb (Pipeline.unencrypt (options s))) (crypto_handler_create p) Hn4 E2)
    as (rc3 & a3 & h3 & w5 & -> & Hs5 & Hi5 & Hnd5 & [[Hr3 Hn5]|(-> & l3 & hs3 & Hn5 & E3 & F3 & _)]); bind_simpl.
  { do 2 eexists. split; [reflexivity|]. split; [congruence|]. split; [congruence|].
    exists hs2, s1. rewrite Hs5, Hs4, Hs3. split_and!; try done; [|lia]. intros ->. by destruct l2 as [|? []]. }
  do 2 eexists. split; [reflexivity|]. split; [congruence|]. split; [congruence|].
  assert (p :: hs3 = p :: (if Pipeline.multiplexing (options s) then [h1] else []) ++ (if Pipeline.reliable (options s) then [h2] else []) ++
    (if negb (Pipeline.unencrypt (options s)) then [h3] else []) ++ [h]) as Hall.
  { rewrite E3. change (a3 :: [h]) with ([a3] ++ [h]). rewrite app_assoc, F3, (app_assoc l2), F2, (app_assoc l1), F1.
    by rewrite <- !app_assoc. }
  injection Hall as ->. eexists _, s1. split; [exact Hn5|]. rewrite Hs5, Hs4, Hs3.
  split; [by destruct (Pipeline.multiplexing (options s)), (Pipeline.reliable (options s)), (negb (Pipeline.unencrypt (options s)))|].
  split; [done|]. split; [done|]. intros _. split; [done|]. split; [done|]. split; [done|]. split.
  - unfold layer_count. by destruct (Pipeline.multiplexing (options s)), (Pipeline.reliable (options s)), (Pipeline.unencrypt (options s)).
  - unfold mux_ok. rewrite Hop. unfold s1. destruct (Pipeline.multiplexing (options s)); [|done]. split; [done|]. by apply Z1.
Qed.

(** The identifier that is handed out next can be freed again. *)
Definition next_good (lock_rc : Z) w : Prop :=
  forall i h, IdsHeap.ids_heap_alloc lock_rc (stream_ids (client w)) = Ok (i, h) -> 0 < i -> freeable i = true.

(** Allocating the identifier of the new stream. *)
Lemma new_id w m S p hs s lock_rc : nascent w m S p hs -> streams (client w) !! p = Some s ->
  exists i h w', IdsHeap.ids_heap_alloc lock_rc (stream_ids (client w)) = Ok (i, h) /\
    upd_stream p (set_id i) (upd_session (put_ids h) w) = Ok w' /\ streams (client w') !! p = Some (set_id i s) /\ nodes w' = nodes w /\
    ((i <= 0 /\ nascent w' m S p hs) \/ (0 < i /\ i ∉ S /\ nascent w' m ({[i]} ∪ S) p hs)).
Proof.
  intros Hn Hp. pose proof (c_ids _ _ _ _ (n_core _ _ _ _ _ Hn)) as HR.
  assert (exists i h, IdsHeap.ids_heap_alloc lock_rc (stream_ids (client w)) = Ok (i, h) /\
    ((i <= 0 /\ h = stream_ids (client w)) \/ (0 < i /\ i ∉ S /\ IdsHeap.refines h ({[i]} ∪ S) /\
      IdsHeap.max_index h = IdsHeap.max_index (stream_ids (client w))))) as (i & h & Ea & Hcase).
  { destruct (Z.eqb_spec lock_rc 0) as [->|Hl].
    - destruct (IdsHeap.alloc_refines _ _ HR) as [(i & h & Ea & (Hi & Hnot & _) & HR' & Hm & _)|[Ea _]].
      + exists i, h. split; [done|]. right. split; [lia|done].
      + exists (-1), (stream_ids (client w)). split; [done|]. by left.
    - exists (- IdsHeap.EDEADLK), (stream_ids (client w)). unfold IdsHeap.ids_heap_alloc. rewrite (proj2 (Z.eqb_neq _ _)) by done.
      split; [done|]. by left. }
  exists i, h. eexists. split; [done|]. split; [apply (upd_stream_ok (upd_session (put_ids h) w) _ s); done|].
  split; [cbn; by rewrite lookup_insert_eq|]. split; [done|].
  assert (forall S', core (upd_session (put_ids h) w) m (fun _ => 1) S' ->
    nascent (upd_session (put_streams (<[p:=set_id i s]> (streams (client (upd_session (put_ids h) w))))) (upd_session (put_ids h) w)) m S' p hs) as Hgo.
  { intros S' Hc. apply (nascent_stream _ _ _ _ _ s); [|done]. by destruct Hn. }
  destruct Hcase as [[Hi ->]|(Hi & Hnot & HR' & Hm)]; [left|right]; (split; [done|]).
  - apply Hgo. apply core_quiet; [done|]. apply Hn.
  - split; [done|]. apply Hgo. pose proof (n_core _ _ _ _ _ Hn) as Hc. pose proof Hc as [].
    apply (session_frame w _ m (fun _ => 1) (fun _ => 1) S _ Hc); cbn; try done.
    + by apply rep_client.
    + eauto.
    + intros j q Hin. destruct (c_obj0 j q Hin) as (? & ? & ?). done.
    + intros j Hj. apply c_in0 in Hj. set_solver.
    + by destruct c_brk0 as (_ & _ & _ & ?).
Qed.

(** A stream that was added: its fields and its pipeline. *)
Definition added w (m : list (Z * Z)) (S : gset Z) (i ty opts : Z) : Prop :=
  exists p hs s, inv w (m ++ [(i, p)]) ({[i]} ∪ S) /\ streams (client w) !! p = Some s /\ type s = ty /\ state s = 0 /\
    options s = Pipeline.stream_flags opts /\ Pipeline.chain (links (client w)) (p :: hs) /\
    length hs = (1 + layer_count (options s))%nat /\ mux_ok s hs.

(** The end of a stream that was not to be: nothing is left of it. *)
Lemma abandon_spec w m S S0 p hs s rc : nascent w m S p hs -> streams (client w) !! p = Some s ->
  (0 < id s -> id s ∈ S /\ id s ∉ m.*1 /\ freeable (id s) = true) -> (if 0 <? id s then S ∖ {[id s]} else S) = S0 ->
  exists w', abandon p rc w = Ok (-1, w') /\ inv w' m S0.
Proof.
  intros Hn Hp Hid <-. unfold abandon. destruct (drop_stream _ _ _ _ _ _ Hn Hp Hid) as (w' & -> & Hi & _). bind_simpl.
  eexists. split; [reflexivity|]. by apply inv_quiet.
Qed.

(** The new stream, with its identifier and its pipeline, goes into the list; when
    its pipeline cannot be set up, it comes out again. *)
Lemma enter_spec w m S p hs s ty opts : nascent w m ({[id s]} ∪ S) p hs -> streams (client w) !! p = Some s -> is_Some (nodes w !! (p + le_stream)) ->
  hs <> [] -> 0 < id s -> id s ∉ S -> id s ∉ m.*1 -> freeable (id s) = true -> type s = ty -> state s = 0 ->
  options s = Pipeline.stream_flags opts -> length hs = (1 + layer_count (options s))%nat -> mux_ok s hs ->
  exists r w', (w ← set_le_data p w; r ← list_add (p + le_stream) w; r ← default_handler_init p (snd r);
    let '(rc, w) := r in
    if rc <? 0 then r ← list_remove_entry (p + le_stream) w; w ← deref (fst r) (snd r); abandon p rc w
    else w ← deref p w; s ← stream p w; Ok (id s, w)) = Ok (r, w') /\
  ((r = -1 /\ inv w' m S) \/ (r = id s /\ added w' m S r ty opts)).
Proof.
  intros Hn Hp Hnd Hne Hi0 HiS Him Hg Hty Hst Hop Hlen Hmux.
  destruct (data_nascent _ _ _ _ _ Hn Hnd) as (w1 & -> & Hn1 & He1 & Hc1). bind_simpl. rewrite <- Hc1 in Hp.
  destruct (enter_list _ _ _ _ _ _ Hn1 Hne Hp He1 Hi0 ltac:(set_solver) Him) as (w2 & -> & Hc2 & Hcore & Honly). bind_simpl. cbn [snd].
  unfold default_handler_init, below. assert (links (client w2) = links (client w)) as Hk by congruence. rewrite Hk.
  pose proof (n_chain _ _ _ _ _ Hn) as Hch. destruct hs as [|x hs]; [done|].
  destruct (Pipeline.chain_handler _ [] p (x :: hs) Hch) as [_ Hroot]. destruct (Pipeline.chain_handler _ [p] x hs Hch) as [Hx _].
  rewrite (Pipeline.handler_at_ok _ _ _ Hroot). bind_simpl. cbn. rewrite (nonzero_true _ Hx). bind_simpl.
  destruct (ask_eq (handler_init x) w2) as (rc & y & -> & Hq & _). pose proof (core_quiet _ _ _ _ _ Hq Hcore) as Hcore3.
  set (w3 := with_client y w2) in *. assert (streams (client w3) !! p = Some s) as Hp3 by (cbn; rewrite (proj1 Hq), Hc2; done).
  assert (forall q, is_Some (streams (client w3) !! q) -> q ∈ (m ++ [(id s, p)]).*2) as Honly3 by (cbn; rewrite (proj1 Hq); done).
  destruct (rc <? 0).
  - destruct (leave _ _ _ _ _ _ _ Hcore3) as (w4 & -> & Hc4 & Hcl4 & Hh4 & Hd4). bind_simpl. cbn [fst snd].
    destruct (left_nascent _ _ _ _ _ _ _ Hcore3 Honly3 Hc4 Hcl4 Hh4 Hd4) as (w5 & hs5 & -> & Hn5 & Hcl5 & Hi5). bind_simpl.
    rewrite app_nil_r in Hn5, Hi5. destruct (abandon_spec w5 m _ S p hs5 s rc Hn5) as (w6 & -> & Hi6).
    + congruence.
    + intros _. split; [set_solver|done].
    + rewrite (proj2 (Z.ltb_lt _ _)) by done. apply set_eq. set_solver.
    + do 2 eexists. split; [reflexivity|]. by left.
  - assert ((id s, p) ∈ m ++ [(id s, p)]) as Hin by set_solver. pose proof (stream_live _ _ _ _ _ _ Hcore3 Hin) as Hl.
    cbn beta in Hl. rewrite Z.eqb_refl in Hl. rewrite (deref_keeps _ _ _ _ Hl) by lia. bind_simpl.
    change (stream p (set_obj p _ w3)) with (stream p w3). rewrite (stream_ok w3 _ _ Hp3). bind_simpl.
    do 2 eexists. split; [reflexivity|]. right. split; [done|]. exists p, (x :: hs), s.
    split; [split; [|exact Honly3]|].
    + apply (core_count w3 _ (fun q => if q =? p then 2 else 1)); [done|lia| |done]. intros q Hqp. by rewrite (proj2 (Z.eqb_neq _ _)).
    + split; [exact Hp3|]. split; [done|]. split; [done|]. split; [done|]. split; [|done].
      change (links (client (set_obj p _ w3))) with (links y). destruct Hq as (_ & -> & _). by rewrite Hk.
Qed.

Lemma add_stream_spec w m S ws ty opts cb lock_rc : inv w m S -> next_good lock_rc w ->
  exists r w', IOEX_session_add_stream ws ty opts cb lock_rc w = Ok (r, w') /\
    ((r = -1 /\ inv w' m S) \/ (0 < r /\ r ∉ S /\ freeable r = true /\ added w' m S r ty opts)).
Proof.
  intros Hi Hgood. unfold IOEX_session_add_stream. destruct (ws =? 0).
  { do 2 eexists. split; [reflexivity|]. left. split; [done|]. by apply inv_quiet. }
  destruct (_ || _). { do 2 eexists. split; [reflexivity|]. left. split; [done|]. by apply inv_quiet. }
  destruct (create_stream_spec w m S Hi) as (rc & p & w1 & -> & [[Hrc Hi1]|(-> & [h Hn1] & Hp1 & Hnd1 & Hid1)]); bind_simpl.
  { rewrite (proj2 (Z.eqb_neq _ _)) by done. do 2 eexists. split; [reflexivity|]. left. split; [done|]. by apply inv_quiet. }
  cbn [Z.eqb negb]. destruct (new_id w1 m S p [h] zero_stream lock_rc Hn1 Hp1) as (i & hp & w2 & Ea & Eu & Hp2 & Hnd2 & Hcase).
  rewrite Ea. bind_simpl. cbn [fst snd]. rewrite Eu. bind_simpl.
  destruct Hcase as [[Hi0 Hn2]|(Hi0 & HiS & Hn2)].
  { rewrite (proj2 (Z.leb_le _ _)) by lia.
    destruct (abandon_spec w2 m S S p [h] _ (IOEX_GENERAL_ERROR IOEXERR_OUT_OF_MEMORY) Hn2 Hp2) as (w3 & -> & Hi3); cbn [id set_id];
      [lia|by rewrite (proj2 (Z.ltb_ge _ _)) by lia|]. do 2 eexists. split; [reflexivity|]. by left. }
  rewrite (proj2 (Z.leb_gt _ _)) by lia.
  assert (freeable i = true) as Hg by (by apply (Hgood i hp); [rewrite <- Hid1|]).
  assert (i ∉ m.*1) as Him by (intros Hin; apply HiS; by apply (c_in _ _ _ _ (proj1 Hi))).
  rewrite (upd_stream_ok _ _ _ _ Hp2). bind_simpl. set (s3 := configure ty (Pipeline.stream_flags opts) cb (set_id i zero_stream)).
  pose proof (nascent_stream _ _ _ _ _ _ s3 Hn2 Hp2) as Hn3. set (w3 := upd_session _ w2) in *.
  assert (streams (client w3) !! p = Some s3) as Hp3 by (cbn; by rewrite lookup_insert_eq).
  destruct (add_layers_spec w3 m _ p h s3 Hn3 Hp3 eq_refl) as (rc & w4 & -> & _ & Hnd4 & hs & s4 & Hn4 & Hne & Hp4 & Hid4 & Hok). bind_simpl.
  assert (id s4 = i) as Hi4 by (by rewrite Hid4). rewrite <- Hi4 in *.
  destruct (Z.ltb_spec rc 0) as [_|Hrc].
  - destruct (abandon_spec w4 m _ S p hs s4 rc Hn4 Hp4) as (w5 & -> & Hi5).
    + intros _. split; [set_solver|done].
    + rewrite (proj2 (Z.ltb_lt _ _)) by done. apply set_eq. set_solver.
    + do 2 eexists. split; [reflexivity|]. by left.
  - destruct (Hok Hrc) as (Hty & Hst & Hop & Hlen & Hmux).
    destruct (enter_spec w4 m S p hs s4 ty opts) as (r & w' & -> & Hres); try done.
    + rewrite Hnd4. change (nodes w3) with (nodes w2). by rewrite Hnd2.
    + by rewrite Hop.
    + do 2 eexists. split; [reflexivity|]. destruct Hres as [?|[-> ?]]; [by left|right; done].
Qed.

(** ** Removing a stream *)

Lemma find_stream_split (m : list (Z * Z)) sid p : find_stream m sid = Some p -> exists m1 m2, m = m1 ++ (sid, p) :: m2.
Proof. intros H%find_stream_in. by apply list_elem_of_split. Qed.

(** The caller's reference counted in. *)
Lemma held_core w m S i p : core w m (fun _ => 1) S -> (i, p) ∈ m -> core (held w p) m (fun q => if q =? p then 2 else 1) S.
Proof.
  intros Hc Hin. apply (core_count w m (fun _ => 1)); [done|lia| |by rewrite Z.eqb_refl]. intros q Hq. by rewrite (proj2 (Z.eqb_neq _ _)).
Qed.

Lemma below_held w m S i p y : core w m (fun _ => 1) S -> (i, p) ∈ m -> links y = links (client w) ->
  exists h hs, below p (with_client y (held w p)) = Ok h /\ h <> 0 /\ Pipeline.chain (links (client w)) (p :: h :: hs).
Proof.
  intros Hc Hin Hy. destruct (c_pipe _ _ _ _ Hc i p Hin) as ([|h hs] & Hne & Hch); [done|]. exists h, hs.
  destruct (Pipeline.chain_handler _ [] p (h :: hs) Hch) as [_ Hp]. destruct (Pipeline.chain_handler _ [p] h hs Hch) as [Hh _].
  unfold below. change (links (client (with_client y (held w p)))) with (links y). rewrite Hy, (Pipeline.handler_at_ok _ _ _ Hp).
  bind_simpl. cbn. by rewrite (nonzero_true _ Hh).
Qed.

Lemma remove_stream_spec w m S ws sid : inv w m S -> (sid ∈ m.*1 -> freeable sid = true) ->
  exists r w', IOEX_session_remove_stream ws sid w = Ok (r, w') /\
    ((r = -1 /\ exists code, w' = IOEX_set_error (IOEX_GENERAL_ERROR code) w) \/
     (r = 0 /\ exists m1 p m2 h hs, m = m1 ++ (sid, p) :: m2 /\ Pipeline.chain (links (client w)) (p :: h :: hs) /\
        inv w' (m1 ++ m2) (S ∖ {[sid]}) /\ streams (client w') !! p = None /\
        env (client w') = handler_deref h (handler_stop h 0 (env (client w))))).
Proof.
  intros [Hc Hd] Hg. unfold IOEX_session_remove_stream, with_stream, bad_id. destruct ((ws =? 0) || (sid <=? 0)) eqn:Eb.
  { do 2 eexists. split; [reflexivity|]. left. split; [done|]. by eexists. }
  apply orb_false_iff in Eb as [Hws%Z.eqb_neq Hsid%Z.leb_gt]. rewrite (get_stream_spec w m S ws sid Hc Hws Hsid). bind_simpl.
  destruct (find_stream m sid) as [p|] eqn:Ef.
  2:{ do 2 eexists. split; [reflexivity|]. left. split; [done|]. by eexists. }
  pose proof (find_stream_in _ _ _ Ef) as Hin. destruct (find_stream_split _ _ _ Ef) as (m1 & m2 & Em).
  destruct (stream_live _ _ _ _ _ _ Hc Hin) as (Hp0 & _). rewrite (proj2 (Z.eqb_neq _ _)) by done.
  destruct (c_stream _ _ _ _ Hc _ _ Hin) as (s & Hs & Hids & _). rewrite (stream_ok (held w p) p s Hs). bind_simpl.
  destruct (below_held w m S sid p (client w) Hc Hin eq_refl) as (h & hs & Eh & Hh & Hch). change (with_client (client w) (held w p)) with (held w p) in Eh.
  unfold default_handler_stop. rewrite Eh. bind_simpl.
  assert (tell (handler_stop h 0) (held w p) = with_client (put_env (handler_stop h 0 (env (client w))) (client w)) (held w p)) as -> by done.
  set (y := put_env _ (client w)). pose proof (core_quiet (held w p) m _ S y ltac:(done) (held_core _ _ _ _ _ Hc Hin)) as Hc1.
  assert (forall q, is_Some (streams (client (with_client y (held w p))) !! q) -> q ∈ m.*2) as Hd1 by exact Hd.
  subst m. destruct (leave _ _ _ _ _ _ _ Hc1) as (w2 & -> & Hc2 & Hcl2 & Hh2 & Hhd2). bind_simpl. cbn [fst snd].
  destruct (left_nascent _ _ _ _ _ _ _ Hc1 Hd1 Hc2 Hcl2 Hh2 Hhd2) as (w3 & hs3 & -> & Hn3 & Hcl3 & Hi3). bind_simpl.
  assert (client w3 = y) as Hy by (rewrite Hcl3, ?Hcl2; done).
  assert (hs3 = h :: hs) as ->.
  { pose proof (n_chain _ _ _ _ _ Hn3) as Hch3. rewrite Hy in Hch3.
    destruct (Pipeline.chain_handler _ [] p hs3 Hch3) as [_ H3]. cbn in H3. by apply (Pipeline.chain_tail (links (client w)) p). }
  assert (streams (client w3) !! p = Some s) as Hs3 by (by rewrite Hy).
  destruct (drop_stream _ _ _ _ _ _ Hn3 Hs3) as (w4 & -> & Hi4 & Hs4 & _ & _ & He4).
  { intros _. rewrite Hids. split; [apply (c_in _ _ _ _ Hc); by eapply in_fst|]. split; [done|]. apply Hg. by eapply in_fst. }
  bind_simpl. do 2 eexists. split; [reflexivity|]. right. split; [done|]. rewrite Hids, (proj2 (Z.ltb_lt _ _)) in Hi4 by done.
  exists m1, p, m2, h, hs. split; [done|]. split; [done|]. split; [done|]. split; [done|]. by rewrite He4, Hy.
Qed.

End Thm.

End SessionThm.
