(* ===== verification/SessionSdpThm.v ===== *)
(** * Sessions: descriptions, start and close, theorems

    The loops over the streams are folds on the session's own state. What a session
    writes about its streams, its peer reads back; the streams start when all are
    ready; and a session that is closed leaves no stream. *)

From Stdlib Require Import ZArith Lia.
From stdpp Require Import prelude gmap sets list.
From S2P Require Import Prelude Bitset IdsHeap FlexBuffer Base58 Crypto CryptoThm Pipeline RcMem Rings LinkedList LinkedListThm Mux Session SessionSdp SessionInv SessionCalls SessionThm.

Module SessionSdpThm.
Import RcMem Rings LinkedList LinkedListThm Session SessionSdp SessionInv SessionCalls SessionThm.

Section Thm.
Context {E : Type} {L : Layers E}.

Notation W := (lworld (IOEXSession E)).
Implicit Types w : W.

(** ** Loops over the streams *)

Section Loop.
Context {R A : Type}.
Variable (turn : A -> Z -> W -> outcome ((R + A) * W)) (again : A -> A).
Variable (step : A -> Z -> IOEXSession E -> (R + A) * IOEXSession E).
Variable (I : nat -> A -> Prop).

(** The streams [m], one after the other. *)
Fixpoint each (m : list (Z * Z)) (a : A) (y : IOEXSession E) : (R + A) * IOEXSession E :=
  match m with
  | [] => (inr a, y)
  | (_, p) :: m =>
      match step a p y with
      | (inl e, y) => (inl e, y)
      | (inr a, y) => each m a y
      end
  end.

(** [step] is what a turn does, on a stream of the list; [I] holds of the loop's
    value and the number of streams that are left. *)
Definition turns w m S : Prop := forall n a i p y, (i, p) ∈ m -> core (with_client y w) m (fun _ => 1) S -> I (1 + n) a ->
  turn a p (held (with_client y w) p) = Ok (fst (step a p y), with_client (snd (step a p y)) w) /\
  core (with_client (snd (step a p y)) w) m (fun _ => 1) S /\
  match fst (step a p y) with inr a' => I n a' | inl _ => True end.

Lemma loop_spec w m S : turns w m S -> forall m2 m1 it a y, m = m1 ++ m2 -> core (with_client y w) m (fun _ => 1) S -> I (length m2) a ->
  stands (with_client y w) (entry <$> m2) it ->
  stream_loop turn again (length m2) it a (with_client y w) = Ok (fst (each m2 a y), with_client (snd (each m2 a y)) w) /\
  core (with_client (snd (each m2 a y)) w) m (fun _ => 1) S.
Proof.
  intros Ht. induction m2 as [|[i p] m2 IH]; intros m1 it a y Em Hc HI Hst; cbn [stream_loop length each].
  - rewrite (list_has_next_spec _ _ (entry <$> m) [] it (c_list _ _ _ _ Hc)); [|by rewrite app_nil_r|done]. done.
  - assert ((i, p) ∈ m) as Hin by (subst m; set_solver).
    assert (entry <$> m = (entry <$> m1) ++ entry (i, p) :: (entry <$> m2)) as El by (subst m; by rewrite fmap_app).
    rewrite (list_has_next_spec _ _ (entry <$> m1) _ it (c_list _ _ _ _ Hc) El Hst). cbn [fmap list_fmap]. bind_simpl. cbn [negb].
    pose proof (stream_live _ _ _ _ _ _ Hc Hin) as Hl.
    assert (entry (i, p) - le_offset = p) as Ep by (unfold entry; cbn; apply Z.add_simpl_r).
    destruct (list_next_spec _ _ _ (entry (i, p)) _ it 1 (Some ICE_STREAM_DESTROY) (c_list _ _ _ _ Hc) El Hst) as (it' & w1 & -> & Er & Hst');
      [by rewrite Ep|lia|]. rewrite Ep in Er |- *.
    rewrite (take_one _ p Hl) in Er. injection Er as <-. bind_simpl. cbn [Z.eqb].
    destruct (Ht (length m2) a i p y Hin Hc HI) as (-> & Hc' & HI'). bind_simpl.
    destruct (step a p y) as [[e|a'] y'] eqn:Es; cbn [fst snd] in *; [done|].
    apply (IH (m1 ++ [(i, p)])); [by rewrite <- app_assoc|done|done|exact Hst'].
Qed.

Lemma over_streams_spec w m S a : turns w m S -> core w m (fun _ => 1) S -> I (length m) a ->
  over_streams turn again a w = Ok (fst (each m a (client w)), with_client (snd (each m a (client w))) w) /\
  core (with_client (snd (each m a (client w))) w) m (fun _ => 1) S.
Proof.
  intros Ht Hc HI. unfold over_streams. destruct (list_iterate_spec w _ (c_list _ _ _ _ Hc)) as (it & -> & Hst). bind_simpl.
  unfold list_size. rewrite (rp_size _ _ (c_list _ _ _ _ Hc)). unfold zlen. rewrite length_fmap, Nat2Z.id.
  pose proof (loop_spec w m S Ht m [] it a (client w) eq_refl) as H. rewrite with_client_id in H. by apply H.
Qed.

End Loop.

(** A turn on a stream of the list: the stream, and the first of its handlers. *)
Lemma turn_stream w m S i p y : core (with_client y w) m (fun _ => 1) S -> (i, p) ∈ m ->
  live w p 1 (Some ICE_STREAM_DESTROY) /\
  (exists s, streams y !! p = Some s /\ id s = i /\ stream p (held (with_client y w) p) = Ok s) /\
  (exists h hd, links y !! p = Some hd /\ Pipeline.next hd = h /\ h <> 0 /\ below p (held (with_client y w) p) = Ok h).
Proof.
  intros Hc Hin. split; [exact (stream_live _ _ _ _ _ _ Hc Hin)|]. split.
  - destruct (c_stream _ _ _ _ Hc i p Hin) as (s & Hs & Hi & _). exists s. split; [done|]. split; [done|]. by apply (stream_ok (held (with_client y w) p)).
  - destruct (c_pipe _ _ _ _ Hc i p Hin) as ([|h hs] & Hne & Hch); [done|].
    destruct (Pipeline.chain_handler _ [] p (h :: hs) Hch) as [_ Hp]. destruct (Pipeline.chain_handler _ [p] h hs Hch) as [Hh _].
    exists h. eexists. split; [exact Hp|]. split; [done|]. split; [done|]. unfold below.
    change (links (client (held (with_client y w) p))) with (links y). cbn in Hp. rewrite (Pipeline.handler_at_ok _ _ _ Hp).
    bind_simpl. cbn. by rewrite (nonzero_true _ Hh).
Qed.

(** The first handler of a stream. *)
Definition first_handler (p : Z) (y : IOEXSession E) : Z := match links y !! p with Some h => Pipeline.next h | None => 0 end.

(** ** The turns *)

Lemma ask_turn {A} (f : E -> A * E) w p y : ask f (held (with_client y w) p) =
  let '(a, e) := f (env y) in (a, with_client (put_env e y) (held w p)).
Proof. unfold ask. change (client (held (with_client y w) p)) with y. by destruct (f (env y)). Qed.

Definition no_invariant {A} (n : nat) (a : A) : Prop := True.

Definition step_ready (_ : unit) (p : Z) (y : IOEXSession E) : (unit + unit) * IOEXSession E :=
  (match streams y !! p with Some s => if state s =? IOEXStreamState_transport_ready then inr tt else inl tt | None => inl tt end, y).

Lemma ready_turns w m S : turns ready_turn step_ready no_invariant w m S.
Proof.
  intros n a i p y Hin Hc _. destruct (turn_stream w m S i p y Hc Hin) as (Hl & (s & Hs & _ & Es) & _).
  unfold ready_turn, step_ready. rewrite Es. bind_simpl. rewrite (stream_release (with_client y w) p Hl). bind_simpl. rewrite Hs.
  split; [done|]. split; [done|]. by destruct (state s =? _).
Qed.

Definition step_start (_ : unit) (p : Z) (y : IOEXSession E) : (Empty_set + unit) * IOEXSession E :=
  (inr tt, put_env (match streams y !! p with
                    | Some s => if deactivate s then fire_state_changed p IOEXStreamState_deactivated (env y)
                                else snd (handler_start (first_handler p y) (env y))
                    | None => env y end) y).

Lemma start_turns w m S : turns start_turn step_start no_invariant w m S.
Proof.
  intros n a i p y Hin Hc _. destruct (turn_stream w m S i p y Hc Hin) as (Hl & (s & Hs & _ & Es) & (h & hd & Hhd & Hh & H0 & Eh)).
  unfold start_turn, step_start, default_handler_start, first_handler. rewrite Es, Hs, Hhd, Hh. bind_simpl.
  destruct (deactivate s); cbn [negb].
  - bind_simpl. change (tell (fire_state_changed p IOEXStreamState_deactivated) (held (with_client y w) p))
      with (with_client (put_env (fire_state_changed p IOEXStreamState_deactivated (env y)) y) (held w p)).
    rewrite (give_back w p _ Hl). split; [done|]. split; [|done]. by apply (core_quiet (with_client y w)).
  - rewrite Eh. bind_simpl. rewrite ask_turn.
    destruct (handler_start h (env y)) as [rc e]. bind_simpl. cbn [snd].
    rewrite (give_back w p (put_env e y) Hl). split; [done|]. split; [|done]. by apply (core_quiet (with_client y w)).
Qed.

Definition step_stop (_ : unit) (p : Z) (y : IOEXSession E) : (Empty_set + unit) * IOEXSession E :=
  (inr tt, put_env (handler_stop (first_handler p y) 0 (env y)) y).

Lemma stop_turns w m S : turns stop_turn step_stop no_invariant w m S.
Proof.
  intros n a i p y Hin Hc _. destruct (turn_stream w m S i p y Hc Hin) as (Hl & _ & (h & hd & Hhd & Hh & H0 & Eh)).
  unfold stop_turn, step_stop, default_handler_stop, first_handler. rewrite Eh, Hhd, Hh. bind_simpl.
  change (tell (handler_stop h 0) (held (with_client y w) p)) with (with_client (put_env (handler_stop h 0 (env y)) y) (held w p)).
  rewrite (give_back w p _ Hl). split; [done|]. split; [|done]. by apply (core_quiet (with_client y w)).
Qed.

Definition step_prepare (_ : unit) (p : Z) (y : IOEXSession E) : (Z + unit) * IOEXSession E :=
  let '(rc, e) := handler_prepare (first_handler p y) (env y) in
  (if rc =? 0 then inr tt else inl rc, put_env e y).

Lemma prepare_turns w m S : turns prepare_turn step_prepare no_invariant w m S.
Proof.
  intros n a i p y Hin Hc _. destruct (turn_stream w m S i p y Hc Hin) as (Hl & _ & (h & hd & Hhd & Hh & H0 & Eh)).
  unfold prepare_turn, step_prepare, default_handler_prepare, first_handler. rewrite Eh, Hhd, Hh. bind_simpl.
  rewrite ask_turn. destruct (handler_prepare h (env y)) as [rc e]. cbn [fst snd].
  rewrite (give_back w p (put_env e y) Hl). bind_simpl. split; [done|]. split; [by apply (core_quiet (with_client y w))|]. by destruct (rc =? 0).
Qed.

Definition step_encode (a : Z * list Z) (p : Z) (y : IOEXSession E) : (Z + Z * list Z) * IOEXSession E :=
  let '(rc, e) := stream_media p (env y) in
  let y := put_env e y in
  if negb (rc =? 0) then (inl rc, y)
  else
    let ops := match streams y !! p with Some s => stream_ops (options s) (fst a) | None => fst a end in
    (inr (ops, snd a ++ [ops]), y).

(** The media that are there and those to come have room. *)
Definition media_fit (n : nat) (a : Z * list Z) : Prop := zlen (snd a) + Z.of_nat n <= PJMEDIA_MAX_SDP_MEDIA.

Lemma encode_turns w m S : turns encode_turn step_encode media_fit w m S.
Proof.
  intros n [ops med] i p y Hin Hc Hfit. destruct (turn_stream w m S i p y Hc Hin) as (Hl & (s & Hs & _ & Es) & _).
  unfold encode_turn, step_encode. rewrite ask_turn.
  destruct (stream_media p (env y)) as [rc e]. assert (core (with_client (put_env e y) w) m (fun _ => 1) S) as Hc'
    by (by apply (core_quiet (with_client y w))).
  destruct (rc =? 0); cbn [negb fst snd].
  - change (stream p (with_client (put_env e y) (held w p))) with (stream p (held (with_client y w) p)). rewrite Es. bind_simpl.
    change (streams (put_env e y)) with (streams y). rewrite Hs. unfold media_fit in Hfit. cbn [snd] in Hfit.
    rewrite (proj2 (Z.leb_gt _ _)) by lia. rewrite (give_back w p _ Hl). bind_simpl. split; [done|]. split; [done|].
    unfold media_fit. cbn [fst snd]. rewrite zlen_app. change (zlen [_]) with 1. lia.
  - rewrite (give_back w p _ Hl). done.
Qed.

Definition deactivated (p : Z) (y : IOEXSession E) : IOEXSession E :=
  match streams y !! p with Some s => put_streams (<[p := set_deactivate true s]> (streams y)) y | None => y end.

Definition step_apply (med : list Z) (a : nat * Z) (p : Z) (y : IOEXSession E) : (Z + nat * Z) * IOEXSession E :=
  let '(i, ops) := a in
  match med !! i, streams y !! p with
  | None, _ => (inr (i, ops), deactivated p y)
  | _, None => (inr a, y)
  | Some fmt, Some s =>
      let y := put_env (stream_address p i (env y)) y in
      let ops := stream_ops (options s) ops in
      if negb (ops =? fmt) then (inr (Datatypes.S i, ops), deactivated p y)
      else
        let '(rc, e) := stream_remote p i (env y) in
        (if negb (rc =? 0) then inl rc else inr (Datatypes.S i, ops), put_env e y)
  end.

Lemma apply_turns w m S med : turns (apply_turn med) (step_apply med) no_invariant w m S.
Proof.
  intros n [i0 ops] i p y Hin Hc _. destruct (turn_stream w m S i p y Hc Hin) as (Hl & (s & Hs & _ & Es) & _).
  assert (forall z, quiet y z -> upd_stream p (set_deactivate true) (held (with_client z w) p) = Ok (with_client (deactivated p z) (held w p)) /\
    core (with_client (deactivated p z) w) m (fun _ => 1) S) as Hu.
  { intros z Hq. assert (streams z !! p = Some s) as Hz by (by destruct Hq as [-> _]).
    unfold upd_stream. rewrite (stream_ok (held (with_client z w) p) p s Hz). bind_simpl. unfold deactivated. rewrite Hz. split; [done|].
    apply (stream_change (with_client z w) _ _ _ _ s); [|done|done]. by apply (core_quiet (with_client y w)). }
  unfold apply_turn, step_apply. destruct (med !! i0) as [fmt|].
  - rewrite Hs. set (z := put_env (stream_address p i0 (env y)) y).
    change (tell (stream_address p i0) (held (with_client y w) p)) with (held (with_client z w) p).
    rewrite (stream_ok (held (with_client z w) p) p s Hs). bind_simpl. destruct (stream_ops (options s) ops =? fmt); cbn [negb].
    + rewrite ask_turn.
      destruct (stream_remote p i0 (env z)) as [rc e].
      rewrite (give_back w p _ Hl). bind_simpl. split; [done|]. split; [by apply (core_quiet (with_client y w))|]. by destruct (rc =? 0).
    + destruct (Hu z) as [-> Hz]; [done|]. bind_simpl. rewrite (give_back w p _ Hl). done.
  - destruct (Hu y) as [-> Hz]; [done|]. bind_simpl. rewrite (give_back w p _ Hl). done.
Qed.

(** What every turn keeps, the loop keeps. *)
Lemma each_keeps {R A} (step : A -> Z -> IOEXSession E -> (R + A) * IOEXSession E) (P : IOEXSession E -> IOEXSession E -> Prop) :
  PreOrder P -> (forall a p y, P y (snd (step a p y))) -> forall m a y, P y (snd (each step m a y)).
Proof.
  intros HP Hs m. induction m as [|[i p] m IH]; intros a y; cbn [each]; [done|]. specialize (Hs a p y).
  destruct (step a p y) as [[e|a'] y']; cbn in Hs; [done|]. by transitivity y'.
Qed.

(** ** Reading a description *)

(** Bytes without the end of a string. *)
Lemma c_string_text t rest : Forall (fun c => 0 < c < 256) t -> c_string (t ++ 0 :: rest) = t.
Proof.
  intros Ht. unfold c_string. assert (list.list_find (fun c => c = 0) (t ++ 0 :: rest) = Some (length t, 0)) as ->.
  { rewrite list_find_app_r; [cbn; do 2 f_equal; apply Nat.add_0_r|]. apply list_find_None. eapply Forall_impl; [exact Ht|]. cbn. lia. }
  by apply take_app_length.
Qed.

Definition is_bytes (t : bytes) : Prop := Forall (fun c => 0 <= c < 256) t.

(** What the parser gives for the user of the origin and for the nonce. *)
Definition readable (d : Sdp) : Prop :=
  origin_user d <> [] /\ is_bytes (origin_user d) /\ forall t, attr_nonce d = Some t -> is_bytes t.

Lemma decode_total text n : 0 < n -> text <> [] -> is_bytes text ->
  exists rc pk, Base58.base58_decode text (zlen text) n = Ok (rc, pk).
Proof.
  intros Hn Hne Hb. pose proof (Base58.decode_ok text n Hn Hne Hb) as H. cbv zeta in H.
  destruct (mapM _ _); [destruct (_ <? _); [destruct H as (data & _ & _ & _ & H)|]|];
    specialize (H []); rewrite app_nil_r in H; rewrite H; by do 2 eexists.
Qed.

Lemma nonce_from_str_total old t : is_bytes t -> exists r, Crypto.crypto_nonce_from_str true old t (zlen t) = Ok r.
Proof.
  intros Hb. unfold Crypto.crypto_nonce_from_str. cbn [negb orb]. destruct (Z.eqb_spec (zlen t) 0) as [|Hz]; [by eexists|].
  destruct (decode_total t Crypto.NONCE_BYTES) as (rc & pk & ->); [done|by intros ->|done|]. bind_simpl. by eexists.
Qed.

(** The peer's key [pk] and nonce [n]. *)
Definition learn (pk n : bytes) (y : IOEXSession E) : IOEXSession E :=
  let k := keys y in put_keys (mkKeys (public_key k) (secret_key k) pk n (credential k) (enabled k) (key k)) y.

(** The streams against the media of a description. *)
Definition match_media (med : list Z) (m : list (Z * Z)) (y : IOEXSession E) : Z * IOEXSession E :=
  match each (step_apply med) m (0%nat, 0) y with
  | (inl rc, y) => (rc, y)
  | (inr _, y) => (0, y)
  end.

Lemma match_media_spec w m S med : core w m (fun _ => 1) S ->
  (r ← over_streams (apply_turn med) (fun a => (0%nat, snd a)) (0%nat, 0) w;
   match r with (inl rc, w) => Ok (rc, w) | (inr _, w) => Ok (0, w) end) =
    Ok (fst (match_media med m (client w)), with_client (snd (match_media med m (client w))) w) /\
  core (with_client (snd (match_media med m (client w))) w) m (fun _ => 1) S.
Proof.
  intros Hc. unfold match_media.
  destruct (over_streams_spec _ (fun a => (0%nat, snd a)) _ no_invariant w m S (0%nat, 0) (apply_turns w m S med) Hc) as [-> Hc']; [done|]. bind_simpl.
  by destruct (each _ m _ _) as [[rc|a] y].
Qed.

(** A description of the right name with a key and, for the side that takes it, a nonce. *)
Lemma apply_parsed w m S sdp len d rc pk n : core w m (fun _ => 1) S -> 0 < len <= zlen sdp -> fst (pj_pool_create (env (client w))) = true ->
  pjmedia_sdp_parse (ztake len sdp) = inr d -> sdp_name d = SDP_NAME ->
  Base58.base58_decode (origin_user d) (zlen (origin_user d)) PUBLIC_KEY_BYTES = Ok (rc, pk) -> 0 <= rc ->
  match attr_nonce d with
  | Some t => if controlling (client w) then n = nonce (keys (client w))
              else exists r, Crypto.crypto_nonce_from_str true (nonce (keys (client w))) t (zlen t) = Ok (r, n)
  | None => n = nonce (keys (client w))
  end ->
  let y := learn (default (peer_pubkey (keys (client w))) pk) n (put_env (snd (pj_pool_create (env (client w)))) (client w)) in
  ice_session_apply_remote_sdp sdp len w = Ok (fst (match_media (media d) m y), with_client (snd (match_media (media d) m y)) w) /\
  core (with_client (snd (match_media (media d) m y)) w) m (fun _ => 1) S.
Proof.
  intros Hc Hl Hp Hd Hname Hpk Hrc Hn y. unfold ice_session_apply_remote_sdp. rewrite (nonzero_true len) by lia. cbn [c_assert]. bind_simpl.
  unfold ask. destruct (pj_pool_create (env (client w))) as [ok e]. cbn in Hp. subst ok. cbn [negb].
  rewrite mem_read_ok by lia. bind_simpl. rewrite zdrop_0, Hd, bool_decide_true by done. cbn [negb]. rewrite Hpk. bind_simpl.
  rewrite (proj2 (Z.ltb_ge _ _)) by done. set (w1 := with_keys _ _).
  assert (client w1 = learn (default (peer_pubkey (keys (client w))) pk) (nonce (keys (client w))) (put_env e (client w))) as Hw1 by done.
  assert (exists w2, match attr_nonce d with
      | Some t => if negb (controlling (client w1)) then
          r ← Crypto.crypto_nonce_from_str true (nonce (keys (client w1))) t (zlen t);
          Ok (with_keys (fun k => mkKeys (public_key k) (secret_key k) (peer_pubkey k) (snd r) (credential k) (enabled k) (key k)) w1)
          else Ok w1
      | None => Ok w1 end = Ok w2 /\ w2 = with_client y w) as (w2 & -> & ->).
  { change (controlling (client w1)) with (controlling (client w)). change (nonce (keys (client w1))) with (nonce (keys (client w))).
    destruct (attr_nonce d) as [t|]; [destruct (controlling (client w)); cbn [negb]|].
    - subst n. eexists. done.
    - destruct Hn as [r ->]. bind_simpl. eexists. done.
    - subst n. eexists. done. }
  bind_simpl. pose proof (match_media_spec (with_client y w) m S (media d)) as Hm. apply Hm. by apply (core_quiet w).
Qed.

(** What reading a description leaves as it was. *)
Record unread (y y' : IOEXSession E) : Prop := {
  un_key : key (keys y') = key (keys y);
  un_secret : secret_key (keys y') = secret_key (keys y);
  un_public : public_key (keys y') = public_key (keys y);
  un_enabled : enabled (keys y') = enabled (keys y);
  un_only : forall p, is_Some (streams y' !! p) -> is_Some (streams y !! p);
}.

#[export] Instance unread_preorder : PreOrder unread.
Proof. split; [by split|]. intros x y z [] []. split; try congruence. auto. Qed.

Lemma unread_env y e : unread y (put_env e y).
Proof. by split. Qed.

Lemma unread_apply med a p y : unread y (snd (step_apply med a p y)).
Proof.
  unfold step_apply. destruct a as [i ops].
  assert (forall z, unread z (deactivated p z)) as Hd.
  { intros z. unfold deactivated. destruct (streams z !! p) as [s|] eqn:Es; [|by split]. split; try done. cbn. intros q.
    destruct (decide (p = q)) as [<-|Hne]; [by rewrite Es|by rewrite lookup_insert_ne]. }
  destruct (med !! i); [|apply Hd]. destruct (streams y !! p); [|by split].
  destruct (negb _); [cbn; etrans; [apply unread_env|apply Hd]|]. destruct (stream_remote _ _ _). apply (unread_env y).
Qed.

Lemma unread_match med m y : unread y (snd (match_media med m y)).
Proof.
  unfold match_media. pose proof (each_keeps (step_apply med) unread _ (unread_apply med) m (0%nat, 0) y) as H.
  by destruct (each _ m _ _) as [[rc|a] z].
Qed.

Lemma apply_total w m S sdp len : core w m (fun _ => 1) S -> 0 < len <= zlen sdp ->
  (forall d, pjmedia_sdp_parse (ztake len sdp) = inr d -> readable d) ->
  exists rc y, ice_session_apply_remote_sdp sdp len w = Ok (rc, with_client y w) /\ core (with_client y w) m (fun _ => 1) S /\ unread (client w) y.
Proof.
  intros Hc Hl Hread.
  destruct (pj_pool_create (env (client w))) as [ok e] eqn:Epool. set (y0 := put_env e (client w)).
  assert (forall rc : Z, exists (rc' : Z) y', Ok (rc, with_client y0 w) = Ok (rc', with_client y' w) /\ core (with_client y' w) m (fun _ => 1) S /\ unread (client w) y') as Hfail.
  { intros rc. exists rc, y0. split; [done|]. split; [by apply (core_quiet w)|apply unread_env]. }
  destruct ok; [destruct (pjmedia_sdp_parse (ztake len sdp)) as [status|d] eqn:Ed; [|destruct (decide (sdp_name d = SDP_NAME)) as [Hn|Hn]]|].
  - unfold ice_session_apply_remote_sdp, ask. rewrite (nonzero_true len), mem_read_ok, Epool by lia. cbn [c_assert]. bind_simpl. cbn [negb].
    rewrite zdrop_0, Ed. apply Hfail.
  - destruct (Hread d eq_refl) as (Hu & Hub & Hnb). destruct (decode_total (origin_user d) PUBLIC_KEY_BYTES ltac:(done) Hu Hub) as (rc & pk & Epk).
    destruct (Z.ltb_spec rc 0) as [Hrc|Hrc].
    + unfold ice_session_apply_remote_sdp, ask. rewrite (nonzero_true len), mem_read_ok, Epool by lia. cbn [c_assert]. bind_simpl. cbn [negb].
      rewrite zdrop_0, Ed, bool_decide_true by done. cbn [negb]. rewrite Epk. bind_simpl. rewrite (proj2 (Z.ltb_lt _ _)) by done. apply Hfail.
    + assert (exists n, match attr_nonce d with
        | Some t => if controlling (client w) then n = nonce (keys (client w))
                    else exists r, Crypto.crypto_nonce_from_str true (nonce (keys (client w))) t (zlen t) = Ok (r, n)
        | None => n = nonce (keys (client w)) end) as [n En].
      { destruct (attr_nonce d) as [t|]; [|by eexists]. destruct (controlling (client w)); [by eexists|].
        destruct (nonce_from_str_total (nonce (keys (client w))) t (Hnb t eq_refl)) as [[r n] ->]. by exists n, r. }
      destruct (apply_parsed w m S sdp len d rc pk n Hc Hl ltac:(by rewrite Epool) Ed Hn Epk Hrc En) as [-> Hc'].
      do 2 eexists. split; [reflexivity|]. split; [exact Hc'|]. etrans; [|apply unread_match]. by split.
  - unfold ice_session_apply_remote_sdp, ask. rewrite (nonzero_true len), mem_read_ok, Epool by lia. cbn [c_assert]. bind_simpl. cbn [negb].
    rewrite zdrop_0, Ed, bool_decide_false by done. apply Hfail.
  - unfold ice_session_apply_remote_sdp, ask. rewrite (nonzero_true len), Epool by lia. cbn [c_assert]. bind_simpl. apply Hfail.
Qed.

(** ** Start *)

Definition is_ready (y : IOEXSession E) (p : Z) : bool :=
  match streams y !! p with Some s => state s =? IOEXStreamState_transport_ready | None => false end.

Lemma each_ready m y : each step_ready m tt y = (if forallb (is_ready y) m.*2 then inr tt else inl tt, y).
Proof.
  induction m as [|[i p] m IH]; [done|]. cbn. unfold is_ready at 1, step_ready at 1. destruct (streams y !! p); [|done].
  by destruct (state _ =? _).
Qed.

(** What is done to the stream [p] when a session starts. *)
Definition start_one (y : IOEXSession E) (p : Z) (e : E) : E :=
  match streams y !! p with
  | Some s => if deactivate s then fire_state_changed p IOEXStreamState_deactivated e else snd (handler_start (first_handler p y) e)
  | None => e
  end.

Lemma each_start m : forall y, each step_start m tt y = (inr tt, put_env (foldl (fun e p => start_one y p e) (env y) m.*2) y).
Proof.
  induction m as [|[i p] m IH]; intros y; cbn; [by destruct y|]. rewrite IH. cbn. do 2 f_equal.
Qed.

(** The key of a session when it starts. *)
Definition start_key (k : Keys) : bytes :=
  if enabled k then crypto_compute_symmetric_key (peer_pubkey k) (secret_key k) (key k) else key k.

(** The session with that key. *)
Definition keyed (y : IOEXSession E) : IOEXSession E :=
  let k := keys y in
  put_keys (mkKeys (public_key k) (secret_key k) (peer_pubkey k) (nonce k) (credential k) (enabled k) (start_key k)) y.

Lemma start_spec w m S ws sdp len : inv w m S -> ws <> 0 -> 1 < len <= zlen sdp + 1 -> m <> [] ->
  (forall d, pjmedia_sdp_parse (ztake (len - 1) sdp) = inr d -> readable d) ->
  exists r y', IOEX_session_start ws (Some sdp) len w = Ok (r, with_client y' w) /\ inv (with_client y' w) m S /\
    if forallb (is_ready (client w)) m.*2 then
      exists rc y, ice_session_apply_remote_sdp sdp (len - 1) (with_client (keyed (client w)) w) = Ok (rc, with_client y w) /\ unread (keyed (client w)) y /\
        if rc <? 0 then r = -1 /\ y' = put_error rc y
        else r = 0 /\ y' = put_env (foldl (fun e p => start_one y p e) (env y) m.*2) y
    else r = -1 /\ y' = put_error (IOEX_GENERAL_ERROR IOEXERR_WRONG_STATE) (keyed (client w)).
Proof.
  intros [Hc Hd] Hws Hlen Hm Hread. unfold IOEX_session_start. rewrite (proj2 (Z.eqb_neq ws 0)), (proj2 (Z.eqb_neq len 0)) by lia. cbn [orb].
  assert (list_size w =? 0 = false) as ->.
  { apply Z.eqb_neq. unfold list_size. rewrite (rp_size _ _ (c_list _ _ _ _ Hc)). unfold zlen. rewrite length_fmap. destruct m; [done|cbn; lia]. }
  set (w1 := if enabled (keys (client w)) then _ else w).
  assert (w1 = with_client (keyed (client w)) w) as ->.
  { unfold w1, keyed, start_key. destruct (enabled (keys (client w))) eqn:Ee; [unfold with_keys, upd_session; do 3 f_equal; by rewrite Ee|].
    destruct w as [hp nd l [? ? ? ? ? ? [] ? ? ? ?]]. cbn in *. by subst. }
  set (w1' := with_client (keyed (client w)) w). assert (core w1' m (fun _ => 1) S) as Hc1 by (by apply (core_quiet w)).
  destruct (over_streams_spec _ (fun a => a) _ no_invariant w1' m S tt (ready_turns w1' m S) Hc1) as [-> _]; [done|]. bind_simpl.
  rewrite each_ready. change (client w1') with (keyed (client w)). change (is_ready (keyed (client w))) with (is_ready (client w)). cbn [fst snd].
  change (with_client (keyed (client w)) w1') with w1'.
  destruct (forallb (is_ready (client w)) m.*2).
  2:{ do 2 eexists. split; [reflexivity|]. split; [|done]. by apply inv_quiet. }
  destruct (apply_total w1' m S sdp (len - 1) Hc1 ltac:(lia) Hread) as (rc & y & Ea & Hc2 & Hu). rewrite Ea. bind_simpl.
  change (with_client y w1') with (with_client y w) in *.
  assert (inv (with_client y w) m S) as Hi2 by (split; [done|]; intros p Hp; apply Hd; by apply (un_only _ _ Hu)).
  destruct (rc <? 0) eqn:Erc.
  - do 2 eexists. split; [reflexivity|]. split; [by apply (inv_quiet (with_client y w))|]. exists rc, y. rewrite Erc. done.
  - destruct (over_streams_spec _ (fun a => a) _ no_invariant (with_client y w) m S tt (start_turns _ m S) Hc2) as [-> _]; [done|]. bind_simpl.
    rewrite each_start. cbn [fst snd]. change (client (with_client y w)) with y.
    do 2 eexists. split; [reflexivity|]. split; [by apply (inv_quiet (with_client y w))|]. exists rc, y. rewrite Erc. done.
Qed.

(** ** Writing a description *)

(** The options of the streams, and the numbers a description has for them. *)
Definition opts_of (y : IOEXSession E) (m : list (Z * Z)) : list Pipeline.flags :=
  (fun p => options (default zero_stream (streams y !! p))) <$> m.*2.

Fixpoint offers (fs : list Pipeline.flags) (ops : Z) : list Z :=
  match fs with
  | [] => []
  | f :: fs => let ops := stream_ops f ops in ops :: offers fs ops
  end.

Definition all_there (y : IOEXSession E) (m : list (Z * Z)) : Prop := forall i p, (i, p) ∈ m -> is_Some (streams y !! p).

Lemma core_there w m cnt S : core w m cnt S -> all_there (client w) m.
Proof. intros Hc i p Hin. destruct (c_stream _ _ _ _ Hc i p Hin) as (s & -> & _). by eexists. Qed.

(** The transport reports errors as negative numbers. *)
Definition media_errors : Prop := forall p e, fst (stream_media p e) <= 0.

Lemma each_encode m : media_errors -> forall y ops med, all_there y m -> exists e,
  (exists rc, rc < 0 /\ each step_encode m (ops, med) y = (inl rc, put_env e y)) \/
  (exists ops', each step_encode m (ops, med) y = (inr (ops', med ++ offers (opts_of y m) ops), put_env e y)).
Proof.
  intros Hneg. induction m as [|[i p] m IH]; intros y ops med Ha; cbn [each].
  { exists (env y). right. exists ops. rewrite app_nil_r. by destruct y. }
  destruct (Ha i p) as [s Hs]; [set_solver|]. unfold step_encode at 1 3. specialize (Hneg p (env y)).
  destruct (stream_media p (env y)) as [rc e]. cbn in Hneg. destruct (Z.eqb_spec rc 0) as [->|Hrc]; cbn [negb].
  - change (streams (put_env e y)) with (streams y). rewrite Hs. cbn [fst snd].
    destruct (IH (put_env e y) (stream_ops (options s) ops) (med ++ [stream_ops (options s) ops])) as (e' & [(rc & Hrc & ->)|(ops' & ->)]).
    + intros j q Hin. apply (Ha j q). set_solver.
    + exists e'. left. by exists rc.
    + exists e'. right. exists ops'. unfold opts_of at 2. cbn. rewrite Hs. cbn. by rewrite <- app_assoc.
  - exists e. left. exists rc. split; [lia|done].
Qed.

(** What the description of a session says. *)
Record described (y : IOEXSession E) (m : list (Z * Z)) (d : Sdp) : Prop := {
  de_name : sdp_name d = SDP_NAME;
  de_media : media d = offers (opts_of y m) 0;
  de_user : Base58.base58_decode (origin_user d) (zlen (origin_user d)) PUBLIC_KEY_BYTES = Ok (PUBLIC_KEY_BYTES, Some (public_key (keys y)));
  de_nonce : match attr_nonce d with
             | Some t => enabled (keys y) = true /\ forall old, Crypto.crypto_nonce_from_str true old t (zlen t) = Ok (Some (nonce (keys y)), nonce (keys y))
             | None => enabled (keys y) = false
             end;
}.

(** The keys and nonces are of their sizes. *)
Definition keys_sized (k : Keys) : Prop :=
  zlen (public_key k) = PUBLIC_KEY_BYTES /\ is_bytes (public_key k) /\ zlen (nonce k) = Crypto.NONCE_BYTES /\ is_bytes (nonce k).

Lemma encode_streams_spec w m S user nonce_text len : media_errors -> core w m (fun _ => 1) S -> zlen m <= PJMEDIA_MAX_SDP_MEDIA ->
  exists rc out e, encode_streams user nonce_text len w = Ok (rc, out, with_client (put_env e (client w)) w) /\
    (0 <= rc -> (rc, out) = pjmedia_sdp_print (mkSdp SDP_NAME user nonce_text (offers (opts_of (client w) m) 0)) len).
Proof.
  intros Hneg Hc Hm. unfold encode_streams.
  destruct (over_streams_spec _ (fun a => a) _ media_fit w m S (0, []) (encode_turns w m S) Hc) as [-> _];
    [unfold media_fit; cbn; unfold zlen in *; cbn; lia|]. bind_simpl.
  destruct (each_encode m Hneg (client w) 0 [] (core_there _ _ _ _ Hc)) as (e & [(rc & Hrc & ->)|(ops & ->)]); cbn [fst snd].
  { do 3 eexists. split; [reflexivity|]. lia. }
  unfold ask. cbn. destruct (pjmedia_sdp_validate e) as [status e2]. destruct (Z.eqb_spec status 0) as [->|Hst]; cbn [negb].
  - destruct (pjmedia_sdp_print _ len) as [rc out]. destruct (rc <? 0).
    + do 3 eexists. split; [reflexivity|]. pose proof (Mux.mk_error_negative 1 IOEXERR_SDP_TOO_LONG) as Hn. unfold IOEX_GENERAL_ERROR, Mux.IOEX_GENERAL_ERROR. lia.
    + do 3 eexists. split; [reflexivity|]. done.
  - do 3 eexists. split; [reflexivity|]. pose proof (Mux.mk_error_negative 5 status). unfold IOEX_ICE_ERROR. lia.
Qed.

(** An attribute, and the rest of the function. *)
Lemma add_attr_spec w m S k (P : Z -> bytes -> Prop) : core w m (fun _ => 1) S -> (forall rc, rc < 0 -> P rc []) ->
  (forall e, exists rc out e', k (with_client (put_env e (client w)) w) = Ok (rc, out, with_client (put_env e' (client w)) w) /\ P rc out) ->
  forall e, exists rc out e', add_attr k (with_client (put_env e (client w)) w) = Ok (rc, out, with_client (put_env e' (client w)) w) /\ P rc out.
Proof.
  intros Hc Hneg Hk e. unfold add_attr, ask. cbn. destruct (pjmedia_sdp_session_add_attr e) as [status e2].
  destruct (Z.eqb_spec status 0) as [->|Hst]; cbn [negb]; [apply (Hk e2)|].
  do 3 eexists. split; [reflexivity|]. apply Hneg. apply Mux.mk_error_negative.
Qed.

Lemma base58_text data len text n : is_bytes data -> data <> [] -> Base58.base58_encode data len = Ok (Some text, n) ->
  exists T, c_string text = T /\ zlen T <> 0 /\ Base58.base58_decode T (zlen T) (zlen data) = Ok (zlen data, Some data).
Proof.
  intros Hb Hne He. destruct (Base58.encoded_string data len text n Hb Hne He) as (T & -> & _ & HT & HTb & Hrun). exists T.
  split; [by apply c_string_text|]. split; [unfold zlen; destruct T; [done|cbn; lia]|]. specialize (Hrun []). by rewrite app_nil_r in Hrun.
Qed.

Lemma nonce_attr_spec w : keys_sized (keys (client w)) -> exists n, nonce_attr w = Ok n /\
  match n with
  | Some t => enabled (keys (client w)) = true /\
      forall old, Crypto.crypto_nonce_from_str true old t (zlen t) = Ok (Some (nonce (keys (client w))), nonce (keys (client w)))
  | None => enabled (keys (client w)) = false
  end.
Proof.
  intros (_ & _ & Hz & Hb). unfold nonce_attr. destruct (enabled (keys (client w))); [|by exists None].
  unfold Crypto.crypto_nonce_to_str, Crypto.NONCE_BYTES in *. change (24 * 2 =? 0) with false. cbn [negb orb]. rewrite ztake_all by lia.
  destruct (Base58.encode_fits (nonce (keys (client w))) (24 * 2) Hb) as (text & n & He); [rewrite Hz; done|]. rewrite He. bind_simpl. cbn [fst].
  assert (nonce (keys (client w)) <> []) as Hne by (intros H0; rewrite H0 in Hz; done).
  destruct (base58_text _ _ _ _ Hb Hne He) as (T & -> & HT0 & Hrun). exists (Some T). split; [done|]. split; [done|]. intros old.
  unfold Crypto.crypto_nonce_from_str, Crypto.NONCE_BYTES. cbn [negb orb]. rewrite (proj2 (Z.eqb_neq _ _)) by done.
  rewrite Hz in Hrun. rewrite Hrun. done.
Qed.

Lemma encode_spec w m S len : media_errors -> core w m (fun _ => 1) S -> zlen m <= PJMEDIA_MAX_SDP_MEDIA -> keys_sized (keys (client w)) ->
  exists d rc out e, ice_session_encode_local_sdp len w = Ok (rc, out, with_client (put_env e (client w)) w) /\ described (client w) m d /\
    (0 <= rc -> (rc, out) = pjmedia_sdp_print d len).
Proof.
  intros Hneg Hc Hm Hk. pose proof Hk as (Hz & Hb & _).
  destruct (Base58.encode_fits (public_key (keys (client w))) 64 Hb) as (text & n & He); [rewrite Hz; done|].
  assert (public_key (keys (client w)) <> []) as Hne by (intros H0; rewrite H0 in Hz; done).
  destruct (base58_text _ _ _ _ Hb Hne He) as (T & HT & _ & Hrun). rewrite Hz in Hrun.
  destruct (nonce_attr_spec w Hk) as (a & Ea & Ha).
  set (d := mkSdp SDP_NAME T a (offers (opts_of (client w) m) 0)). assert (described (client w) m d) as Hd by (by split).
  exists d. set (P rc out := 0 <= rc -> (rc, out) = pjmedia_sdp_print d len).
  assert (forall rc, rc < 0 -> P rc []) as Hfail by (unfold P; intros; lia).
  cut (exists rc out e, ice_session_encode_local_sdp len w = Ok (rc, out, with_client (put_env e (client w)) w) /\ P rc out).
  { intros (rc & out & e & H1 & H2). by exists rc, out, e. }
  unfold ice_session_encode_local_sdp, ask. destruct (pj_pool_create (env (client w))) as [ok e1]. destruct ok; cbn [negb].
  2:{ do 3 eexists. split; [reflexivity|]. apply Hfail, Mux.mk_error_negative. }
  cbn [client upd_session with_client env put_env]. destruct (pj_gethostip e1) as [status e2].
  destruct (Z.eqb_spec status 0) as [->|Hst]; cbn [negb].
  2:{ do 3 eexists. split; [reflexivity|]. apply Hfail, Mux.mk_error_negative. }
  match goal with |- context [public_key ?k] => change k with (keys (client w)) end. rewrite He. bind_simpl. cbn [fst].
  apply (add_attr_spec w m S); [done|done|]. apply (add_attr_spec w m S); [done|done|]. intros e3.
  change (nonce_attr (with_client (put_env e3 (client w)) w)) with (nonce_attr w). rewrite Ea. bind_simpl. rewrite HT.
  assert (forall e, exists rc out e', encode_streams T a len (with_client (put_env e (client w)) w) =
    Ok (rc, out, with_client (put_env e' (client w)) w) /\ P rc out) as Hstreams.
  { intros e. apply (encode_streams_spec (with_client (put_env e (client w)) w) m S); [done|by apply core_quiet|done]. }
  destruct a as [t|]; [|apply Hstreams]. apply (add_attr_spec w m S); [done|done|exact Hstreams].
Qed.

(** ** The other side *)

(** The streams whose options give the numbers of the description are left as they are. *)
Lemma each_apply med : forall m i ops y, all_there y m -> offers (opts_of y m) ops = drop i med ->
  exists e, each (step_apply med) m (i, ops) y = (fst (each (step_apply med) m (i, ops) y), put_env e y).
Proof.
  induction m as [|[j p] m IH]; intros i ops y Ha Ho; cbn [each fst].
  { exists (env y). by destruct y. }
  destruct (Ha j p) as [s Hs]; [set_solver|]. unfold opts_of in Ho. cbn in Ho. rewrite Hs in Ho. cbn in Ho.
  assert (med !! i = Some (stream_ops (options s) ops)) as Hi.
  { rewrite <- (Nat.add_0_r i), <- lookup_drop, <- Ho. done. }
  unfold step_apply at 1 3. rewrite Hi, Hs. change (streams (put_env _ y)) with (streams y). rewrite Z.eqb_refl. cbn [negb].
  destruct (stream_remote p i _) as [rc e]. destruct (Z.eqb_spec rc 0) as [->|Hrc]; cbn [negb]; [|by exists e].
  apply (IH (Datatypes.S i) _ (put_env e y)).
  - intros j' q Hin. apply (Ha j' q). set_solver.
  - change (opts_of (put_env e y) m) with (opts_of y m). rewrite <- Nat.add_1_r, <- drop_drop, <- Ho. done.
Qed.

End Thm.

End SessionSdpThm.
