(* ===== verification/SessionClose.v ===== *)
(** * Sessions: the end of a session

    Closing stops every stream in the order of the list, wipes the secrets, and
    frees the streams with their identifiers and their pipelines. *)

From Stdlib Require Import ZArith Lia.
From stdpp Require Import prelude gmap sets list.
From S2P Require Import Prelude Bitset IdsHeap FlexBuffer Pipeline RcMem Rings LinkedList LinkedListThm Mux Session SessionSdp SessionInv SessionCalls SessionThm SessionSdpThm.

Module SessionClose.
Import RcMem Rings LinkedList LinkedListThm Session SessionSdp SessionInv SessionCalls SessionThm SessionSdpThm.

Section Close.
Context {E : Type} {L : Layers E}.

Notation W := (lworld (IOEXSession E)).
Implicit Types w : W.

(** ** Freeing the streams

    In the middle of [list_clear], the streams [m] are left; the list itself is no
    longer a ring. [f] are the first handlers of the streams. *)
Record closing w (m : list (Z * Z)) (S : gset Z) (f : Z -> Z) : Prop := {
  cl_stream : forall i p, (i, p) ∈ m -> exists s hd, streams (client w) !! p = Some s /\ id s = i /\ 0 < i /\
    links (client w) !! p = Some hd /\ Pipeline.next hd = f p /\ f p <> 0;
  cl_live : forall i p, (i, p) ∈ m -> live w p 1 (Some ICE_STREAM_DESTROY);
  cl_ids : IdsHeap.refines (stream_ids (client w)) S;
  cl_max : IdsHeap.max_index (stream_ids (client w)) = MAX_STREAM_ID;
  cl_in : forall i, i ∈ m.*1 -> i ∈ S /\ freeable i = true;
  cl_nodup1 : NoDup m.*1;
  cl_nodup2 : NoDup m.*2;
  cl_head : forall p, p ∈ m.*2 -> p + le_stream <> head (lst w);
  cl_next : Forall (fun ab => nx (nodes w) ab.1 = Some ab.2) (pairs ((entry <$> m) ++ [head (lst w)]));
  cl_data : forall i p, (i, p) ∈ m -> exists n, nodes w !! (p + le_stream) = Some n /\ data n = p;
  cl_only : forall p, is_Some (streams (client w) !! p) -> p ∈ m.*2;
}.

(** The first stream goes. *)
Lemma free_first w i p m S f : closing w ((i, p) :: m) S f ->
  exists w', deref p w = Ok w' /\ closing w' m (S ∖ {[i]}) f /\ lst w' = lst w /\
    (forall a, a <> p + le_stream -> nodes w' !! a = nodes w !! a) /\
    client w' = put_env (handler_deref (f p) (env (client w))) (put_ids (stream_ids (client w'))
      (put_links (delete p (links (client w))) (put_streams (delete p (streams (client w))) (client w)))).
Proof.
  intros []. destruct (cl_stream0 i p) as (s & hd & Hs & Hid & Hi & Hl & Hn & H0); [left|].
  destruct (cl_in0 i) as [HiS Hg]; [left|]. cbn in cl_nodup3, cl_nodup4. apply NoDup_cons in cl_nodup3 as [Hni Hnd1]. apply NoDup_cons in cl_nodup4 as [Hnp Hnd2].
  assert (1 <= i <= MAX_STREAM_ID) as Hr by (destruct cl_ids0 as [_ HS]; rewrite cl_max0 in HS; by apply HS in HiS as [? _]).
  destruct (IdsHeap.ids_heap_free_refines (stream_ids (client w)) S i) as (h' & Ef & HR & Hmx & _); [done|by rewrite cl_max0|done|].
  rewrite (deref_last w p (Some ICE_STREAM_DESTROY) (cl_live0 i p ltac:(left))).
  cbn [call_destructor lworld_world client set_obj set_heap with_heap client_destroy stream_client].
  rewrite Z.eqb_refl. unfold stream_base_destroy. rewrite Hs, (Pipeline.handler_at_ok _ _ _ Hl). bind_simpl.
  rewrite Hn, (nonzero_true _ H0), Hid, (proj2 (Z.ltb_lt _ _)) by done. cbn [stream_ids put_env]. rewrite Ef. bind_simpl.
  eexists. split; [reflexivity|]. cbn.
  assert (forall j q, (j, q) ∈ m -> q <> p) as Hne by (intros j q Hin ->; apply Hnp; by eapply in_snd).
  split; [|split; [done|]; split; [|done]; intros a Ha; by rewrite lookup_delete_ne].
  split; cbn; try done.
  - intros j q Hin. destruct (cl_stream0 j q) as (s' & hd' & ? & ? & ? & ? & ? & ?); [by right|]. exists s', hd'.
    rewrite !lookup_delete_ne by (apply not_eq_sym; by eapply Hne). done.
  - intros j q Hin. destruct (cl_live0 j q) as (? & ? & Ho); [by right|]. split; [done|]. split; [done|]. cbn.
    rewrite lookup_delete_ne, lookup_insert_ne by (apply not_eq_sym; by eapply Hne). exact Ho.
  - congruence.
  - intros j Hj. destruct (cl_in0 j) as [? ?]; [by right|]. split; [|done]. set_solver.
  - intros q Hq. apply cl_head0. by right.
  - apply Forall_forall. intros [a b] Hab. cbn.
    assert (nx (nodes w) a = Some b) as Hx.
    { rewrite Forall_forall in cl_next0. apply (cl_next0 (a, b)). cbn. destruct m as [|x m]; [by apply elem_of_nil in Hab|].
      cbn in Hab |- *. rewrite pairs_cons. by right. }
    unfold nx. rewrite lookup_delete_ne; [exact Hx|]. intros <-. apply (list_elem_of_fmap_2 fst) in Hab. rewrite pairs_fst in Hab.
    apply list_elem_of_fmap in Hab as ([j q] & E1 & Hin). unfold entry in E1. cbn in E1. apply (Hne j q Hin). unfold le_stream in *. lia.
  - intros j q Hin. destruct (cl_data0 j q) as (n & En & ?); [by right|]. exists n. split; [|done]. rewrite lookup_delete_ne; [done|].
    intros E1. apply (Hne j q Hin). unfold le_stream in *. lia.
  - intros q Hq. destruct (decide (q = p)) as [->|Hqp]; [by rewrite lookup_delete_eq in Hq; destruct Hq|].
    rewrite lookup_delete_ne in Hq by done. apply cl_only0 in Hq. by apply elem_of_cons in Hq as [?|?].
Qed.

(** The session without its streams. *)
Definition emptied (ids : IdsHeap) (links' : Pipeline.store) (e : E) (y : IOEXSession E) : IOEXSession E :=
  put_env e (put_ids ids (put_links links' (put_streams ∅ y))).

Lemma free_all m : forall w S f ent, closing w m S f -> hd_error ((entry <$> m) ++ [head (lst w)]) = Some ent ->
  exists w' ids lk, clear_loop (length m) ent w = Ok w' /\ lst w' = lst w /\ nodes w' !! head (lst w) = nodes w !! head (lst w) /\
    client w' = emptied ids lk (foldl (fun e p => handler_deref (f p) e) (env (client w)) m.*2) (client w) /\
    IdsHeap.refines ids (S ∖ list_to_set m.*1) /\ IdsHeap.max_index ids = MAX_STREAM_ID.
Proof.
  induction m as [|[i p] m IH]; intros w S f ent Hc He; cbn in He; injection He as <-; cbn [clear_loop length].
  { rewrite Z.eqb_refl. exists w, (stream_ids (client w)), (links (client w)). split; [done|]. split; [done|]. split; [done|]. destruct Hc.
    cbn. split; [|split; [|done]].
    - assert (streams (client w) = ∅) as Hs.
      { apply map_eq. intros q. rewrite lookup_empty. destruct (streams (client w) !! q) eqn:Eq; [|done].
        exfalso. assert (q ∈ ([] : list (Z * Z)).*2) as Hin by (apply cl_only0; eauto). by apply elem_of_nil in Hin. }
      unfold emptied. rewrite <- Hs. by destruct (client w).
    - replace (S ∖ ∅) with S by set_solver. done. }
  pose proof Hc as [_ _ _ _ _ _ _ Hhead Hnext Hdata _]. rewrite (proj2 (Z.eqb_neq _ _)) by (apply Hhead; left).
  destruct (Hdata i p) as (n & En & Hdn); [left|]. unfold entry at 1. cbn [snd]. rewrite (node_ok _ _ _ En). bind_simpl. rewrite Hdn.
  destruct (free_first _ _ _ _ _ _ Hc) as (w1 & -> & Hc1 & Hl1 & Hn1 & Hcl1). bind_simpl.
  destruct (IH w1 (S ∖ {[i]}) f (next n) Hc1) as (w' & ids & lk & -> & Hl & Hnd & Hcl & HR & Hm).
  - rewrite Hl1. destruct m as [|c m]; cbn in Hnext |- *; rewrite pairs_cons in Hnext; apply Forall_cons in Hnext as [Hx _];
      cbn in Hx; unfold nx, entry in Hx; cbn [snd] in Hx; rewrite En in Hx; symmetry; exact Hx.
  - exists w', ids, lk. split; [done|]. split; [congruence|]. split.
    + rewrite Hl1 in Hnd. rewrite Hnd. apply Hn1. apply not_eq_sym, Hhead. left.
    + split; [|split; [|done]].
      * rewrite Hcl, Hcl1. done.
      * cbn. replace (S ∖ ({[i]} ∪ list_to_set m.*1)) with (S ∖ {[i]} ∖ list_to_set m.*1) by set_solver. done.
Qed.

(** The list between two calls, before it is cleared. *)
Lemma inv_closing w m S : inv w m S -> (forall i, i ∈ m.*1 -> freeable i = true) ->
  closing w m S (fun p => first_handler p (client w)).
Proof.
  intros [Hc Hd] Hg. pose proof Hc as []. pose proof c_list0 as [[Hnd Hlk] _ _ _ _ Hent]. apply NoDup_cons in Hnd as [Hh Hnd].
  split; try done.
  - intros i p Hin. destruct (c_stream0 i p Hin) as (s & Hs & Hi & H0). destruct (c_pipe0 i p Hin) as ([|h hs] & Hne & Hch); [done|].
    destruct (Pipeline.chain_handler _ [] p (h :: hs) Hch) as [_ Hp]. destruct (Pipeline.chain_handler _ [p] h hs Hch) as [Hh0 _].
    exists s. eexists. do 3 (split; [done|]). unfold first_handler. rewrite Hp. split; [done|]. done.
  - intros i p Hin. exact (stream_live _ _ _ _ _ _ Hc Hin).
  - intros i Hi. split; [by apply c_in0|by apply Hg].
  - by apply (core_nodup2 _ _ _ _ Hc).
  - intros p ([i q] & -> & Hin)%list_elem_of_fmap E1. apply Hh. rewrite <- E1. apply list_elem_of_fmap. by exists (i, q).
  - assert (Forall (fun ab => nx (nodes w) ab.1 = Some ab.2) (pairs (head (lst w) :: (entry <$> m) ++ [head (lst w)]))) as HA
      by (eapply Forall_impl; [exact Hlk|]; by intros ? [? _]).
    destruct (entry <$> m) as [|x l]; [by constructor|]. cbn in HA |- *. rewrite pairs_cons in HA. by apply Forall_cons in HA as [_ HA].
  - intros i p Hin. destruct (Hent (entry (i, p))) as (_ & (n & En & Hdn) & _); [by apply list_elem_of_fmap; exists (i, p)|].
    exists n. split; [exact En|]. unfold entry in Hdn. cbn [snd] in Hdn. rewrite Z.add_simpl_r in Hdn. done.
Qed.

(** [list_destroy]: with the lock, no stream is left. *)
Lemma list_destroy_spec w m S lock_rc : inv w m S -> (forall i, i ∈ m.*1 -> freeable i = true) -> lock_rc = 0 ->
  exists w' ids lk, list_destroy lock_rc w = Ok w' /\
    client w' = emptied ids lk (foldl (fun e p => handler_deref (first_handler p (client w)) e) (env (client w)) m.*2) (client w) /\
    IdsHeap.refines ids (S ∖ list_to_set m.*1).
Proof.
  intros Hi Hg ->. pose proof (inv_closing w m S Hi Hg) as Hcl. destruct Hi as [Hc _]. pose proof (c_list _ _ _ _ Hc) as HR.
  unfold list_destroy. change (nonzero 0) with false. rewrite andb_false_r. unfold list_clear_i.
  destruct (ring_head_next w _ HR) as (nh & b & En & Hb & Hl1). rewrite En. bind_simpl.
  rewrite (rp_size _ _ HR). unfold zlen. rewrite length_fmap, Nat2Z.id.
  destruct (free_all m w S _ (next nh) Hcl) as (w1 & ids & lk & -> & Hl & Hnd & Hclient & HR1 & _).
  { change (((entry <$> m) ++ [head (lst w)]) !! 0%nat = Some b) in Hl1. rewrite Hb. by destruct (entry <$> m). }
  bind_simpl. rewrite Hl. destruct (ring_node _ _ _ (head (lst w)) (rp_ring _ _ HR)) as [n1 Hn1]; [left|]. rewrite <- Hnd in Hn1.
  rewrite (upd_ok _ _ _ _ Hn1). bind_simpl. rewrite (upd_ok _ _ _ _ (lookup_insert_eq (nodes w1) _ _)). bind_simpl.
  eexists _, ids, lk. split; [reflexivity|]. split; [exact Hclient|done].
Qed.

(** ** Closing *)

Lemma each_stop m : forall y, each step_stop m tt y =
  (inr tt, put_env (foldl (fun e p => handler_stop (first_handler p y) 0 e) (env y) m.*2) y).
Proof. induction m as [|[i p] m IH]; intros y; cbn; [by destruct y|]. rewrite IH. done. Qed.

(** The keys of a session that was closed. *)
Definition wiped (k : Keys) : Keys :=
  mkKeys (public_key k) (wipe (secret_key k)) (peer_pubkey k) (wipe (nonce k)) (wipe (credential k)) (enabled k) (wipe (key k)).

(** The transport after all streams, in the order of the list, were stopped, the worker ended
    and the pipelines were given back. *)
Definition closed_env (y : IOEXSession E) (ps : list Z) : E :=
  let e := foldl (fun e p => handler_stop (first_handler p y) 0 e) (env y) ps in
  let e := if worker y then worker_stop e else e in
  foldl (fun e p => handler_deref (first_handler p y) e) e ps.

Lemma close_spec w m S ws lock_rc : inv w m S -> (forall i, i ∈ m.*1 -> freeable i = true) -> ws <> 0 -> lock_rc = 0 ->
  exists w', IOEX_session_close ws lock_rc w = Ok w' /\ streams (client w') = ∅ /\ keys (client w') = wiped (keys (client w)) /\
    env (client w') = closed_env (client w) m.*2 /\ IdsHeap.refines (stream_ids (client w')) (S ∖ list_to_set m.*1).
Proof.
  intros Hi Hg Hws Hlock. unfold IOEX_session_close. rewrite (proj2 (Z.eqb_neq _ _)) by done. unfold session_internal_close.
  destruct (over_streams_spec _ (fun a => a) _ no_invariant w m S tt (stop_turns w m S) (proj1 Hi)) as [-> _]; [done|]. bind_simpl.
  rewrite each_stop. cbn [fst snd]. set (e1 := foldl _ _ _).
  set (w2 := if worker _ then _ else _). set (w3 := with_keys _ w2).
  assert (exists y3, w3 = with_client y3 w /\ quiet (client w) y3 /\ keys y3 = wiped (keys (client w)) /\
    env y3 = if worker (client w) then worker_stop e1 else e1) as (y3 & E3 & Hq & Hk & He).
  { unfold w3, w2. cbn [client with_client worker put_env]. destruct (worker (client w)); eexists; (split; [reflexivity|]); done. }
  unfold session_base_destroy. rewrite E3. pose proof (inv_quiet w m S y3 Hq Hi) as Hi3.
  destruct (list_destroy_spec _ _ _ lock_rc Hi3 Hg Hlock) as (w' & ids & lk & -> & Hcl & HR).
  exists w'. split; [done|]. rewrite Hcl. cbn. split; [done|]. split; [done|]. split; [|done].
  unfold closed_env. fold e1. rewrite He. unfold first_handler. by destruct Hq as (_ & -> & _).
Qed.

End Close.

End SessionClose.
