(* ===== verification/SessionApi.v ===== *)
(** * Sessions: what their interface promises

    Sequences of calls on the streams of a session, the exchange of descriptions
    between two sessions, and the start and the end of a session; with a small
    environment in which they run. *)

From Stdlib Require Import ZArith Lia String.
From stdpp Require Import prelude gmap sets list.
From S2P Require Import Prelude Bitset IdsHeap FlexBuffer Base58 Crypto Pipeline RcMem Rings LinkedList LinkedListThm Mux Session SessionSdp SessionInv SessionCalls SessionThm SessionSdpThm SessionClose.

Module SessionApi.
Import RcMem Rings LinkedList LinkedListThm Session SessionSdp SessionInv SessionCalls SessionThm SessionSdpThm SessionClose.

(** The calls that change the streams of a session, the calls on a stream, and what
    the transport reports of a stream. *)
Inductive sop :=
| AddStream (ty opts : Z) (cb : option (bool * bool)) (lock_rc : Z)
| RemoveStream (sid : Z)
| OnStream (c : call)
| StateChanged (p st : Z)
| Data (p : Z) (buf : FlexBuffer).

Section Api.
Context {E : Type} {L : Layers E}.

Notation W := (lworld (IOEXSession E)).
Implicit Types w : W.

Definition exec_op (ws : Z) (o : sop) w : outcome (Z * W) :=
  match o with
  | AddStream ty opts cb lock_rc => IOEX_session_add_stream ws ty opts cb lock_rc w
  | RemoveStream sid => IOEX_session_remove_stream ws sid w
  | OnStream c => exec ws c w
  | StateChanged p st => w ← stream_base_on_state_changed p st w; Ok (0, w)
  | Data p buf => w ← stream_base_on_data p buf w; Ok (0, w)
  end.

(** Identifiers that are handed out are among those whose release is defined, data
    are as long as the call says, and the transport reports streams that exist. *)
Definition allowed w (o : sop) : Prop :=
  match o with
  | AddStream _ _ _ lock_rc => next_good lock_rc w
  | RemoveStream _ => True
  | OnStream c => data_there c
  | StateChanged p _ => is_Some (streams (client w) !! p)
  | Data p buf => is_Some (streams (client w) !! p) /\ FlexBuffer.flex_wf buf /\ FlexBuffer.size buf < 2 ^ 62
  end.

(** The streams of the list, their objects, reference counts, identifiers and
    pipelines agree. *)
Definition ready w : Prop := exists m S, inv w m S /\ forall i, i ∈ m.*1 -> freeable i = true.

Inductive reaches (ws : Z) : W -> W -> Prop :=
| reaches_refl w : reaches ws w w
| reaches_step w w1 o r w2 : reaches ws w w1 -> allowed w1 o -> exec_op ws o w1 = Ok (r, w2) -> reaches ws w w2.

Lemma ready_quiet w y : quiet (client w) y -> ready w -> ready (with_client y w).
Proof. intros Hq (m & S & Hi & Hg). exists m, S. split; [by apply inv_quiet|done]. Qed.

Lemma ready_stream w p s s' : ready w -> streams (client w) !! p = Some s -> id s' = id s ->
  ready (upd_session (put_streams (<[p := s']> (streams (client w)))) w).
Proof.
  intros (m & S & [Hc Hd] & Hg) Hp Hid. exists m, S. split; [|done]. split; [by apply (stream_change _ _ _ _ _ s)|].
  cbn. intros q Hq. apply Hd. destruct (decide (p = q)) as [<-|Hne]; [by rewrite Hp|by rewrite lookup_insert_ne in Hq].
Qed.

Lemma answer_quiet ws c f y : quiet y (snd (answer ws c f y)).
Proof.
  unfold answer. destruct (_ || _); [done|]. destruct f as [[[p s] h]|]; [|done]. destruct (refusal c s); [done|].
  destruct (effect c p s h (env y)) as [rc e]. by destruct (reported c rc).
Qed.

Lemma ready_snoc (m : list (Z * Z)) i p : (forall j, j ∈ m.*1 -> freeable j = true) -> freeable i = true ->
  forall j, j ∈ (m ++ [(i, p)]).*1 -> freeable j = true.
Proof. intros Hm Hi j. rewrite fmap_app. cbn. intros [Hin| ->%list_elem_of_singleton]%elem_of_app; [by apply Hm|done]. Qed.

Lemma ready_removed (m1 m2 : list (Z * Z)) c : (forall j, j ∈ (m1 ++ c :: m2).*1 -> freeable j = true) ->
  forall j, j ∈ (m1 ++ m2).*1 -> freeable j = true.
Proof. intros H j Hin. apply H. rewrite fmap_app in *. cbn. set_solver. Qed.

Lemma op_runs ws w o : ready w -> allowed w o -> exists r w', exec_op ws o w = Ok (r, w') /\ ready w'.
Proof.
  intros (m & S & Hi & Hg) Ho. destruct o as [ty opts cb lock_rc|sid|c|p st|p buf]; cbn [exec_op allowed] in *.
  - destruct (add_stream_spec w m S ws ty opts cb lock_rc Hi Ho) as (r & w' & -> & Hcase). do 2 eexists. split; [reflexivity|].
    destruct Hcase as [[_ Hi']|(_ & _ & Hr & p & hs & s & Hi' & _)]; [by exists m, S|].
    exists (m ++ [(r, p)]), ({[r]} ∪ S). split; [done|]. by apply ready_snoc.
  - destruct (remove_stream_spec w m S ws sid Hi (Hg sid)) as (r & w' & -> & Hcase). do 2 eexists. split; [reflexivity|].
    destruct Hcase as [[_ [code ->]]|(_ & m1 & p & m2 & h & hs & -> & _ & Hi' & _)].
    + apply ready_quiet; [done|]. by exists m, S.
    + exists (m1 ++ m2), (S ∖ {[sid]}). split; [done|]. by apply (ready_removed m1 m2 (sid, p)).
  - rewrite (exec_spec w m S ws c (proj1 Hi) Ho). do 2 eexists. split; [reflexivity|].
    apply ready_quiet; [apply answer_quiet|]. by exists m, S.
  - destruct Ho as [s Hs]. unfold stream_base_on_state_changed. rewrite (upd_stream_ok _ _ _ _ Hs). bind_simpl.
    pose proof (ready_stream w p s (set_state st s) ltac:(by exists m, S) Hs eq_refl) as Hr. set (w1 := upd_session _ w) in *.
    rewrite (stream_ok w1 p (set_state st s)) by (cbn; by rewrite lookup_insert_eq). bind_simpl. do 2 eexists. split; [reflexivity|].
    destruct (has_state _); [|done]. by apply (ready_quiet w1).
  - destruct Ho as ([s Hs] & Hwf & Hsz). unfold stream_base_on_data. rewrite (stream_ok _ _ _ Hs). bind_simpl. destruct (has_data s).
    + rewrite FlexBuffer.ptr_spec; [|done|lia|by apply FlexBuffer.fw_size|unfold FlexBuffer.flex_buffer_size; lia]. bind_simpl. do 2 eexists. split; [reflexivity|].
      apply (ready_quiet w); [done|]. by exists m, S.
    + do 2 eexists. split; [reflexivity|]. by exists m, S.
Qed.

Lemma session_reaches ws w w' : ready w -> reaches ws w w' -> ready w'.
Proof.
  intros Hr H. induction H as [|w w1 o r w2 H1 IH Ho He]; [done|]. destruct (op_runs ws w1 o (IH Hr) Ho) as (r' & w' & E' & H').
  rewrite He in E'. by injection E' as -> ->.
Qed.


(** [IOEX_session_add_stream] either returns -1 and the streams are the ones of
    before, whichever step failed; or it returns a new positive identifier, and the
    session has one more stream, at the end of its list, with the type and options
    asked for, in state 0, and a pipeline of one handler for each of its options'
    layers over the transport, whose first is the multiplexer if there is one. *)
Theorem session_add_stream w m S ws ty opts cb lock_rc : inv w m S -> next_good lock_rc w ->
  exists r w', IOEX_session_add_stream ws ty opts cb lock_rc w = Ok (r, w') /\
    ((r = -1 /\ inv w' m S) \/ (0 < r /\ r ∉ S /\ freeable r = true /\ added w' m S r ty opts)).
Proof. apply add_stream_spec. Qed.

(** The calls on a stream (write, type, state, transport information, channels,
    flow control, port forwarding) do what the table [answer] says on every branch:
    they refuse bad arguments, unknown streams and streams in the wrong state with
    the table's error, and otherwise make the one call of the pipeline, with the
    data behind 128 bytes of room, and report its result; they change nothing else,
    and give their reference to the stream back. *)
Theorem stream_calls w m S ws c : inv w m S -> data_there c ->
  let '(r, y) := answer ws c (found w m (target c)) (client w) in
  exec ws c w = Ok (r, with_client y w) /\ inv (with_client y w) m S.
Proof.
  intros Hi Hd. rewrite (exec_spec w m S ws c (proj1 Hi) Hd).
  pose proof (answer_quiet ws c (found w m (target c)) (client w)) as Hq. destruct (answer ws c _ _) as [r y]. split; [done|].
  by apply inv_quiet.
Qed.


(** The key of the encryption is made of the peer's public key that the session
    had before [IOEX_session_start] read the description, which is where the peer's
    public key comes from: on a session that starts for the first time the key does
    not depend on the peer, and is not the one the two sides would agree on. *)
Theorem session_key_ignores_description w m S ws sdp len : inv w m S -> ws <> 0 -> 1 < len <= zlen sdp + 1 -> m <> [] ->
  (forall d, pjmedia_sdp_parse (ztake (len - 1) sdp) = inr d -> readable d) ->
  exists r y', IOEX_session_start ws (Some sdp) len w = Ok (r, with_client y' w) /\
    key (keys y') = (if enabled (keys (client w))
                     then crypto_compute_symmetric_key (peer_pubkey (keys (client w))) (secret_key (keys (client w))) (key (keys (client w)))
                     else key (keys (client w))).
Proof.
  intros Hi Hws Hl Hm Hr. destruct (start_spec w m S ws sdp len Hi Hws Hl Hm Hr) as (r & y' & Es & _ & H).
  exists r, y'. split; [done|]. destruct (forallb _ _).
  - destruct H as (rc & y & _ & Hu & H). pose proof (un_key _ _ Hu) as Hk. change (key (keys y) = start_key (keys (client w))) in Hk.
    destruct (rc <? 0); destruct H as [_ ->]; exact Hk.
  - by destruct H as [_ ->].
Qed.


(** ** Two sessions *)

(** What PJMEDIA documents of printing and parsing. *)
Definition print_parse : Prop := forall d len rc out, pjmedia_sdp_print d len = (rc, out) -> 0 <= rc ->
  0 < rc /\ zlen out = rc /\ pjmedia_sdp_parse out = inr d.


End Api.

(** ** A run

    An environment that answers every call, keeps a log of the stops and starts, and
    writes a description as the list of its fields. *)

Definition field (t : bytes) : bytes := zlen t :: t.

Definition unfield (b : bytes) : bytes * bytes := match b with n :: r => (ztake n r, zdrop n r) | [] => ([], []) end.

Lemma unfield_field t r : unfield (field t ++ r) = (t, r).
Proof. cbn. by rewrite ztake_app_len, zdrop_app_len. Qed.

Definition print (d : Sdp) : bytes :=
  field (sdp_name d) ++ field (origin_user d) ++ field (match attr_nonce d with Some t => 1 :: t | None => [] end) ++ field (media d).

Definition parse (b : bytes) : Sdp :=
  let '(name, b) := unfield b in
  let '(user, b) := unfield b in
  let '(nonce, b) := unfield b in
  mkSdp name user (match nonce with _ :: t => Some t | [] => None end) (fst (unfield b)).

Lemma parse_print d : parse (print d) = d.
Proof.
  unfold parse, print. rewrite !unfield_field. rewrite <- (app_nil_r (field (media d))), unfield_field.
  by destruct d as [? ? [t|] ?].
Qed.

(** The cipher's key is the peer's public key and the own secret key, side by side. *)
#[export] Instance demo_layers : Layers (list (Z * Z)) := {|
  junk := 0;
  stream_alloc e := (true, e);
  ice_handler_create _ e := (0, e);
  multiplex_handler_create _ e := (0, e);
  reliable_handler_create _ e := (0, e);
  crypto_handler_create _ e := (0, e);
  handler_init _ e := (0, e);
  handler_prepare _ e := (0, e);
  handler_start h e := (0, e ++ [(1, h)]);
  handler_stop h _ e := e ++ [(2, h)];
  handler_write h b e := (FlexBuffer.size b, e ++ [(3, h)]);
  handler_deref h e := e ++ [(4, h)];
  channel_open _ _ _ _ e := (1, e);
  channel_close _ _ e := (0, e);
  channel_write _ _ b e := (FlexBuffer.size b, e);
  channel_pend _ _ e := (0, e);
  channel_resume _ _ e := (0, e);
  portforwarding_open _ _ _ _ _ e := (1, e);
  portforwarding_close _ _ e := (0, e);
  get_info _ e := (0, e);
  fire_state_changed p st e := e ++ [(5, p)];
  stream_data _ _ e := e;
  state_changed _ _ e := e;
  pj_pool_create e := (true, e);
  pj_gethostip e := (0, e);
  pjmedia_sdp_session_add_attr e := (0, e);
  stream_media _ e := (0, e);
  stream_address _ _ e := e;
  stream_remote _ _ e := (0, e);
  pjmedia_sdp_validate e := (0, e);
  pjmedia_sdp_print d _ := (zlen (print d), print d);
  pjmedia_sdp_parse b := inr (parse b);
  PJMEDIA_MAX_SDP_MEDIA := 16;
  crypto_create_keypair e := (replicate 32 7, replicate 32 9, e);
  crypto_random_nonce e := (replicate 24 5, e);
  crypto_box_beforenm pk sk := Some (take 16 pk ++ take 16 sk);
  IOEX_invite_friend _ _ e := (0, e);
  IOEX_reply_friend_invite _ _ _ _ e := (0, e);
  complete_callback _ _ _ e := e;
  worker_stop e := e ++ [(6, 0)];
|}.

Lemma demo_print_parse : print_parse.
Proof.
  intros d len rc out H _. change (pjmedia_sdp_print d len) with (zlen (print d), print d) in H. injection H as <- <-.
  change (pjmedia_sdp_parse (print d)) with (@inr Z Sdp (parse (print d))). rewrite parse_print. split; [|done].
  unfold print, field. rewrite zlen_app, zlen_cons. pose proof (zlen_nonneg (sdp_name d)).
  match goal with |- context [zlen ?l] => lazymatch l with _ :: _ => pose proof (zlen_nonneg l) | _ ++ _ => pose proof (zlen_nonneg l) end end. lia.
Qed.

Notation demo_world := (lworld (IOEXSession (list (Z * Z)))).

(** A session without streams, whose peer's key is not known. *)
Definition fresh (ctl : bool) : demo_world :=
  snd (list_create true 1 None
    (mkLworld (mkHeap ∅ 1000) ∅ (mkList 0 0 0 None 0)
       (mkSession ∅ ∅ (snd (IdsHeap.ids_heap_init 0 (IdsHeap.mkIdsHeap 0 0 (Bitset.bitset_init 0)) MAX_STREAM_ID)) [97] true ctl
          (mkKeys (replicate 32 7) (replicate 32 9) (replicate 32 0) (replicate 24 5) (replicate 24 6) false (replicate 32 0))
          true false 0 []))).

Lemma fresh_inv ctl : inv (fresh ctl) [] ∅.
Proof.
  split.
  - split; cbn; try by intros ? ? ?%elem_of_nil.
    + apply list_create_spec. cbn. lia.
    + apply IdsHeap.init_refines. done.
    + done.
    + by intros ? ?%elem_of_nil.
    + apply NoDup_nil_2.
    + split; [apply Z.leb_le; vm_compute; reflexivity|]. split; [apply Z.ltb_lt; vm_compute; reflexivity|]. split; [by intros ? ? ?%elem_of_nil|]. intros p [h Hh]. exfalso. exact (lookup_empty_Some p h Hh).
  - cbn. intros p [s Hs]. exfalso. exact (lookup_empty_Some p s Hs).
Qed.

(** The session after a stream was added. *)
Definition added_to (w : demo_world) (opts : Z) : demo_world :=
  match IOEX_session_add_stream 1 5 opts None 0 w with Ok (_, w) => w | _ => w end.

(** Two streams, the first encrypted and reliable, the second with the options [opts]. *)
Definition two (ctl : bool) (opts : Z) : demo_world := added_to (added_to (fresh ctl) Pipeline.IOEX_STREAM_RELIABLE) opts.

Lemma added_inv (w : demo_world) m S opts r : inv w m S -> next_good 0 w -> 0 < r ->
  match IOEX_session_add_stream 1 5 opts None 0 w with Ok (r', _) => r' =? r | _ => false end = true ->
  exists p, inv (added_to w opts) (m ++ [(r, p)]) ({[r]} ∪ S).
Proof.
  intros Hi Hn Hr. unfold added_to. destruct (add_stream_spec w m S 1 5 opts None 0 Hi Hn) as (r' & w' & -> & Hcase).
  intros ->%Z.eqb_eq. destruct Hcase as [[-> _]|(_ & _ & _ & p & hs & s & Hi' & _)]; [lia|]. by exists p.
Qed.

Lemma fresh_next ctl : next_good 0 (fresh ctl).
Proof. intros i h Hn _. vm_compute in Hn. injection Hn as <- _. reflexivity. Qed.

(** Where the two streams are. *)
Lemma known (w : demo_world) S p1 p2 q1 q2 : inv w [(1, p1); (2, p2)] S ->
  id <$> streams (client w) !! q1 = Some 1 -> id <$> streams (client w) !! q2 = Some 2 -> inv w [(1, q1); (2, q2)] S.
Proof.
  intros [Hc Hd] H1 H2.
  destruct (c_stream _ _ _ _ Hc 1 p1) as (s1 & Hs1 & Hi1 & _); [set_solver|]. destruct (c_stream _ _ _ _ Hc 2 p2) as (s2 & Hs2 & Hi2 & _); [set_solver|].
  assert (forall q i, id <$> streams (client w) !! q = Some i -> q = p1 /\ i = 1 \/ q = p2 /\ i = 2) as Hq.
  { intros q i H. destruct (streams (client w) !! q) as [s|] eqn:Es; [|done]. injection H as <-.
    assert (q ∈ [p1; p2]) as [->| ->%list_elem_of_singleton]%elem_of_cons by (apply (Hd q); by eexists); [left|right]; split; congruence. }
  destruct (Hq _ _ H1) as [[-> _]|[_ [=]]]. destruct (Hq _ _ H2) as [[_ [=]]|[-> _]]. done.
Qed.

Ltac two_streams ctl opts :=
  let p1 := fresh "p" in let p2 := fresh "p" in let H1 := fresh "H" in let H2 := fresh "H" in let Hn := fresh "Hn" in
  destruct (added_inv (fresh ctl) [] ∅ Pipeline.IOEX_STREAM_RELIABLE 1) as [p1 H1];
    [apply fresh_inv|apply fresh_next|done|vm_compute; reflexivity|];
  destruct (added_inv _ _ _ opts 2 H1) as [p2 H2];
    [intros i h Hn _; vm_compute in Hn; injection Hn as <- _; reflexivity|done|vm_compute; reflexivity|];
  apply (known _ _ p1 p2); [exact H2|vm_compute; reflexivity|vm_compute; reflexivity].

Lemma plain_inv : inv (two true 2) [(1, 1152); (2, 1832)] ({[2]} ∪ ({[1]} ∪ ∅)).
Proof. two_streams true 2. Qed.

(** The second stream has the options of the first as well. *)
Lemma mixed_inv : inv (two false 6) [(1, 1152); (2, 1832)] ({[2]} ∪ ({[1]} ∪ ∅)).
Proof. two_streams false 6. Qed.

(** The transport reports that the stream [p] is ready. *)
Definition readied (p : Z) (w : demo_world) : demo_world :=
  match stream_base_on_state_changed p IOEXStreamState_transport_ready w with Ok w => w | _ => w end.

Lemma readied_inv p (w : demo_world) m S : inv w m S -> is_Some (streams (client w) !! p) -> inv (readied p w) m S.
Proof.
  intros [Hc Hd] [s Hs]. unfold readied, stream_base_on_state_changed. rewrite (upd_stream_ok _ _ _ _ Hs). bind_simpl.
  set (w1 := upd_session _ w). rewrite (stream_ok w1 p (set_state IOEXStreamState_transport_ready s)) by (cbn; by rewrite lookup_insert_eq). bind_simpl.
  assert (inv w1 m S) as H1.
  { split; [by apply (stream_change _ _ _ _ _ s)|]. cbn. intros q Hq. apply Hd.
    destruct (decide (p = q)) as [<-|Hne]; [by rewrite Hs|by rewrite lookup_insert_ne in Hq]. }
  destruct (has_state _); [|done]. by apply (inv_quiet w1).
Qed.

(** Both streams ready, and the description of a peer whose key is all 3. *)
Definition two_ready : demo_world := readied 1152 (readied 1832 (two true 2)).

Definition peer_text : bytes :=
  match Base58.base58_encode (replicate 32 3) 64 with
  | Ok (Some t, _) => print (mkSdp SDP_NAME (c_string t) None (offers [Pipeline.stream_flags 4; Pipeline.stream_flags 2] 0))
  | _ => []
  end.
Lemma ready_inv : inv two_ready [(1, 1152); (2, 1832)] ({[2]} ∪ ({[1]} ∪ ∅)).
Proof.
  apply readied_inv; [apply readied_inv; [exact plain_inv|]|]; vm_compute; by eexists.
Qed.

Lemma peer_readable d : pjmedia_sdp_parse (ztake (66 - 1) peer_text) = inr d -> readable d.
Proof.
  intros Hd. vm_compute in Hd. injection Hd as <-. split; [done|]. split; [|done]. unfold is_bytes. cbn [origin_user].
  refine (bool_decide_eq_true_1 _ _). vm_compute. reflexivity.
Qed.

(** The two streams start, the peer's key becomes known, and the key of the
    encryption is that of the all zero key. *)
Lemma start_run : exists w, IOEX_session_start 1 (Some peer_text) 66 two_ready = Ok (0, w) /\
  peer_pubkey (keys (client w)) = replicate 32 3 /\ key (keys (client w)) = replicate 16 0 ++ replicate 16 9 /\
  env (client w) = [(1, 1608); (1, 2176)].
Proof. eexists. split; [vm_compute; reflexivity|]. split_and!; vm_compute; reflexivity. Qed.

(** Different options that the descriptions do not tell apart. *)
Lemma options_masked : offers [Pipeline.stream_flags 4; Pipeline.stream_flags 2] 0 = offers [Pipeline.stream_flags 4; Pipeline.stream_flags 6] 0.
Proof. reflexivity. Qed.


Lemma session_add_stream_witness : exists r w', IOEX_session_add_stream 1 5 4 None 0 (fresh true) = Ok (r, w') /\
  ((r = -1 /\ inv w' [] ∅) \/ (0 < r /\ r ∉ (∅ : gset Z) /\ freeable r = true /\ added w' [] ∅ r 5 4)).
Proof. exact (session_add_stream (fresh true) [] ∅ 1 5 4 None 0 (fresh_inv true) (fresh_next true)). Defined.

Lemma stream_calls_witness : exists y, exec 1 (GetType 1 true) (two true 2) = Ok (5, with_client y (two true 2)).
Proof.
  pose proof (stream_calls (two true 2) _ _ 1 (GetType 1 true) plain_inv I) as H.
  set (a := answer _ _ _ _) in H. vm_compute in a. eexists. exact (proj1 H).
Defined.


Lemma session_key_ignores_description_witness : exists r y', IOEX_session_start 1 (Some peer_text) 66 two_ready = Ok (r, with_client y' two_ready) /\
  key (keys y') = replicate 16 0 ++ replicate 16 9.
Proof.
  destruct (session_key_ignores_description two_ready _ _ 1 peer_text 66 ready_inv) as (r & y' & H & Hk);
    [discriminate|split; [reflexivity|vm_compute; discriminate]|discriminate|exact peer_readable|].
  exists r, y'. split; [exact H|]. rewrite Hk. vm_compute. reflexivity.
Defined.


Lemma two_sized : keys_sized (keys (client (two true 2))).
Proof.
  assert (keys (client (two true 2)) = mkKeys (replicate 32 7) (replicate 32 9) (replicate 32 0) (replicate 24 5) (replicate 24 6) true (replicate 32 0)) as ->
    by (vm_compute; reflexivity).
  split; [reflexivity|]. split; [by apply Forall_replicate|]. split; [reflexivity|by apply Forall_replicate].
Qed.


End SessionApi.
