(* ===== verification/CStr.v ===== *)
(** * C strings

    The functions of string.h on memory blocks, as the carrier node uses them. A
    string is the bytes before its terminator. *)

From Stdlib Require Import ZArith Lia.
From stdpp Require Import prelude list.
From S2P Require Import Prelude.

Module CStr.

(** The length of the string at the start of a block that holds its terminator. *)
Fixpoint strlen (b : bytes) : outcome Z :=
  match b with
  | [] => Undef
  | c :: b => if c =? 0 then Ok 0 else n ← strlen b; Ok (1 + n)
  end.

(** The sign of the comparison of two blocks up to the first difference or
    terminator; without either, the blocks are read past their end. *)
Fixpoint strcmp (a b : bytes) : outcome Z :=
  match a, b with
  | x :: a, y :: b =>
      if x =? y then if x =? 0 then Ok 0 else strcmp a b
      else Ok (if x <? y then -1 else 1)
  | _, _ => Undef
  end.

(** A string that [strcpy] writes into an array of [size] bytes. *)
Definition strcpy (size : Z) (s : bytes) : outcome bytes := if zlen s <? size then Ok s else Undef.

(** The first position of [c] in a string. *)
Fixpoint strchr (c : Z) (s : bytes) : option nat :=
  match s with
  | [] => None
  | x :: s => if x =? c then Some O else S <$> strchr c s
  end.

(** The last position of [c] in a string. *)
Fixpoint strrchr (c : Z) (s : bytes) : option nat :=
  match s with
  | [] => None
  | x :: s => match strrchr c s with Some i => Some (S i) | None => if x =? c then Some O else None end
  end.

(** [strncpy] of a string to the start of an array: [n] bytes are written, zeros after
    the end of the string, and no terminator when it is longer. *)
Definition strncpy (dst : bytes) (n : Z) (s : bytes) : outcome bytes :=
  if n <=? zlen dst then Ok (ztake n (s ++ replicate (Z.to_nat n) 0) ++ zdrop n dst) else Undef.

(** [snprintf (_, n, "%s...")] of a text that is [s] in full. *)
Definition snprintf (n : Z) (s : bytes) : bytes := ztake (n - 1) s.

(** [strtoul] and [strtoull] to base 10, both of 64 bits: white space, a sign, digits. *)
Definition isspace (c : Z) : bool := (c =? 32) || ((9 <=? c) && (c <=? 13)).
Fixpoint digits (acc : Z) (s : bytes) : Z :=
  match s with
  | c :: s => if (48 <=? c) && (c <=? 57) then digits (acc * 10 + (c - 48)) s else acc
  | [] => acc
  end.
Definition ULONG_MAX : Z := 2 ^ 64 - 1.
Fixpoint strtoul (s : bytes) : Z :=
  let value s := if ULONG_MAX <? digits 0 s then ULONG_MAX else digits 0 s in
  match s with
  | c :: s' =>
      if isspace c then strtoul s'
      else if c =? 45 then (if ULONG_MAX <? digits 0 s' then ULONG_MAX else u64 (- digits 0 s'))
      else if c =? 43 then value s' else value s
  | [] => 0
  end.

(** [strtol] to base 10: the value, of 64 bits, and the rest of the string. *)
Fixpoint digits_rest (s : bytes) : bytes :=
  match s with c :: s' => if (48 <=? c) && (c <=? 57) then digits_rest s' else s | [] => [] end.
Definition clamp64 (x : Z) : Z := Z.max (- 2 ^ 63) (Z.min (2 ^ 63 - 1) x).
Definition has_digit (s : bytes) : bool := match s with c :: _ => (48 <=? c) && (c <=? 57) | [] => false end.
Fixpoint strtol_at (s whole : bytes) : Z * bytes :=
  let value sign s := if has_digit s then (clamp64 (sign * digits 0 s), digits_rest s) else (0, whole) in
  match s with
  | c :: s' =>
      if isspace c then strtol_at s' whole
      else if c =? 45 then value (-1) s' else if c =? 43 then value 1 s' else value 1 s
  | [] => (0, whole)
  end.
Definition strtol (s : bytes) : Z * bytes := strtol_at s s.

Definition nul_free (s : bytes) : Prop := Forall (fun c => 0 < c < 256) s.

#[export] Instance nul_free_dec s : Decision (nul_free s).
Proof. apply Forall_dec. intros c. apply _. Defined.

Lemma strlen_string s r : nul_free s -> strlen (s ++ 0 :: r) = Ok (zlen s).
Proof.
  induction 1 as [|c s Hc Hs IH]; cbn [strlen app]; [done|].
  rewrite (proj2 (Z.eqb_neq _ _)), IH by lia. bind_simpl. by rewrite zlen_cons.
Qed.

Lemma strcmp_string s t r r' : nul_free s -> nul_free t ->
  exists c, strcmp (s ++ 0 :: r) (t ++ 0 :: r') = Ok c /\ (c =? 0) = bool_decide (s = t).
Proof.
  intros Hs. revert t. induction Hs as [|x s Hx Hs IH]; intros [|y t] Ht; cbn [strcmp app].
  - by exists 0.
  - apply Forall_cons in Ht as [Hy _]. rewrite (proj2 (Z.eqb_neq 0 y)) by lia.
    eexists. split; [reflexivity|]. by destruct (0 <? y).
  - rewrite (proj2 (Z.eqb_neq x 0)) by lia. eexists. split; [reflexivity|]. by destruct (x <? 0).
  - apply Forall_cons in Ht as [Hy Ht]. destruct (Z.eqb_spec x y) as [->|Hn].
    + rewrite (proj2 (Z.eqb_neq y 0)) by lia. destruct (IH t Ht) as (c & -> & E). exists c. split; [done|].
      rewrite E. apply bool_decide_ext. split; congruence.
    + eexists. split; [reflexivity|]. rewrite bool_decide_eq_false_2 by congruence. by destruct (x <? y).
Qed.

Lemma nul_free_app s t : nul_free (s ++ t) <-> nul_free s /\ nul_free t.
Proof. apply Forall_app. Qed.

(** A string ends where its terminator is. *)
Lemma string_inj s t r r' : nul_free s -> nul_free t -> s ++ 0 :: r = t ++ 0 :: r' -> s = t /\ r = r'.
Proof.
  intros Hs. revert t. induction Hs as [|x s Hx Hs IH]; intros [|y t] Ht; cbn; intros H; injection H; try done.
  - apply Forall_cons in Ht as [Hy _]. lia.
  - lia.
  - apply Forall_cons in Ht as [_ Ht]. intros E ->. destruct (IH t Ht E) as [-> ->]. done.
Qed.

Lemma strchr_none c s : strchr c s = None <-> c ∉ s.
Proof.
  induction s as [|x s IH]; cbn [strchr]; [set_solver|]. destruct (Z.eqb_spec x c) as [->|Hn]; [set_solver|].
  destruct (strchr c s); cbn; set_solver.
Qed.

Lemma strchr_split c s t : c ∉ s -> strchr c (s ++ c :: t) = Some (length s).
Proof.
  induction s as [|x s IH]; cbn [strchr app length]; [by rewrite Z.eqb_refl|]. intros Hn.
  rewrite (proj2 (Z.eqb_neq x c)) by set_solver. by rewrite IH by set_solver.
Qed.

End CStr.
