(* ===== verification/Candidate.v ===== *)
(** * The candidates of a session description

    src/src/session/ice.c, the parts of [ice_session_encode_local_sdp] and
    [ice_session_apply_remote_sdp] that SessionSdp.v leaves to its environment: each
    candidate of a stream is printed as an attribute of the stream's media, and read back
    from it with [sscanf]. The addresses are PJLIB's, a type class. *)

From Stdlib Require Import ZArith Lia String.
From stdpp Require Import prelude list.
From S2P Require Import Prelude Mux CStr Session SessionSdp Ice.

Module Candidate.
Import CStr Ice.

Definition text : string -> bytes := Session.text.

(** The sizes of the arrays on the stack. *)
Definition sizeof_buf : Z := 128.
Definition sizeof_foundation : Z := 32.
Definition sizeof_transport : Z := 12.
Definition sizeof_ipaddr : Z := 80.

(** ** Printing and scanning *)

(** [%u] *)
Fixpoint decimal_loop (fuel : nat) (x : Z) (acc : bytes) : bytes :=
  match fuel with
  | O => acc
  | S fuel => if x <? 10 then (48 + x) :: acc else decimal_loop fuel (x / 10) ((48 + x mod 10) :: acc)
  end.
Definition decimal (x : Z) : bytes := decimal_loop 20 x [].

(** The directives of a format: a word of at most so many bytes into an array of a size,
    a number of the type [int], a character, and white space. *)
Inductive directive := Str (width size : Z) | Int | Lit (c : Z) | White.

Inductive field := FStr (s : bytes) | FInt (n : Z).

Fixpoint skip_white (s : bytes) : bytes := match s with c :: s' => if isspace c then skip_white s' else s | [] => [] end.

Fixpoint word (width : nat) (s : bytes) : bytes :=
  match width, s with S width, c :: s => if isspace c then [] else c :: word width s | _, _ => [] end.

(** The fields that have been stored, with what would be written past an array undefined;
    a number beyond [int] is cut as the C library does. *)
Fixpoint sscanf (format : list directive) (s : bytes) : outcome (list field) :=
  match format with
  | [] => Ok []
  | White :: format => sscanf format (skip_white s)
  | Lit c :: format => match s with x :: s => if x =? c then sscanf format s else Ok [] | [] => Ok [] end
  | Int :: format =>
      let '(n, rest) := strtol s in
      if bool_decide (rest = s) then Ok [] else fs ← sscanf format rest; Ok (FInt (s32 n) :: fs)
  | Str width size :: format =>
      let s := skip_white s in
      let t := word (Z.to_nat width) s in
      if bool_decide (t = []) then Ok []
      else if size <=? zlen t then Undef
      else fs ← sscanf format (zdrop (zlen t) s); Ok (FStr t :: fs)
  end.

Definition literal (s : string) : list directive := Lit <$> text s.

(** ["%32s %d %12s %d %80s %d typ %32s raddr %80s rport %d"] *)
Definition candidate_format : list directive :=
  [Str 32 sizeof_foundation; White; Int; White; Str 12 sizeof_transport; White; Int; White; Str 80 sizeof_ipaddr; White; Int; White] ++
  literal "typ" ++ [White; Str 32 32; White] ++ literal "raddr" ++ [White; Str 80 80; White] ++ literal "rport" ++ [White; Int].

(** ** Candidates *)

(** Addresses with their ports: how they print, and how they are made from a text, of the
    sixth version of the protocol or not. *)
Class Sockaddr (A : Type) := {
  pj_sockaddr_print : A -> bytes;
  pj_sockaddr_get_port : A -> Z;
  pj_sockaddr_init : bool -> bytes -> Z -> A;
  pj_ice_get_cand_type_name : pj_ice_cand_type -> bytes;
  PJ_ICE_ST_MAX_CAND : Z;
}.

Section Candidates.
Context {A : Type} {SA : Sockaddr A}.

(** [pj_ice_sess_cand], as far as it is described. *)
Record candidate := mkCandidate { type : pj_ice_cand_type; comp_id : Z; prio : Z; addr : A; rel_addr : option A }.

(** A candidate of this side, with its foundation. *)
Definition printed_address (a : A) : bytes := pj_sockaddr_print a ++ text " " ++ decimal (pj_sockaddr_get_port a).

Definition host_text (foundation : bytes) (c : candidate) : bytes :=
  foundation ++ text " " ++ decimal (comp_id c) ++ text " UDP " ++ decimal (prio c) ++ text " " ++
  pj_sockaddr_print (addr c) ++ text " " ++ decimal (pj_sockaddr_get_port (addr c)) ++ text " typ " ++ pj_ice_get_cand_type_name (type c).

(** The value of the attribute; the buffer is not written for a candidate that the peer
    has found. *)
Definition candidate_text (foundation : bytes) (c : candidate) : outcome bytes :=
  match type c with
  | PJ_ICE_CAND_TYPE_HOST => Ok (snprintf sizeof_buf (host_text foundation c))
  | PJ_ICE_CAND_TYPE_SRFLX | PJ_ICE_CAND_TYPE_RELAYED =>
      match rel_addr c with
      | Some r => Ok (snprintf sizeof_buf (host_text foundation c ++ text " raddr " ++ pj_sockaddr_print r ++ text " rport " ++ decimal (pj_sockaddr_get_port r)))
      | None => Undef
      end
  | PJ_ICE_CAND_TYPE_PRFLX => Undef
  end.

(** The loop over the candidates of a component: the values of the attributes, or the
    error when one cannot be added. *)
Fixpoint encode_candidates (add_attr : bytes -> Z) (l : list (bytes * candidate)) : outcome (Z + list bytes) :=
  match l with
  | [] => Ok (inr [])
  | (f, c) :: l =>
      t ← candidate_text f c;
      let status := add_attr t in
      if negb (status =? PJ_SUCCESS) then Ok (inl (IOEX_ICE_ERROR status))
      else
        r ← encode_candidates add_attr l;
        Ok (match r with inr ts => inr (t :: ts) | inl rc => inl rc end)
  end.

Definition type_of_name (name : bytes) : option pj_ice_cand_type :=
  if bool_decide (name = text "host") then Some PJ_ICE_CAND_TYPE_HOST
  else if bool_decide (name = text "srflx") then Some PJ_ICE_CAND_TYPE_SRFLX
  else if bool_decide (name = text "relay") then Some PJ_ICE_CAND_TYPE_RELAYED
  else if bool_decide (name = text "prflx") then Some PJ_ICE_CAND_TYPE_PRFLX
  else None.

(** The fields of a candidate. The foundation is not kept: the code stores the address of
    an array that ends with the turn of the loop. The number of the component is given as
    it was read, too. *)
Definition candidate_of (comp prio_ : Z) (ip : bytes) (port : Z) (ty : bytes) (related : option (bytes * Z)) : option (Z * candidate) :=
  match type_of_name ty with
  | None => None
  | Some t =>
      let af := bool_decide (is_Some (strchr 58 ip)) in
      Some (comp, mkCandidate t (u8 comp) (u32 prio_) (pj_sockaddr_init af ip (u16 port))
                    (match related with Some (r, rport) => Some (pj_sockaddr_init af r (u16 rport)) | None => None end))
  end.

Definition parse_candidate (value : bytes) : outcome (option (Z * candidate)) :=
  fs ← sscanf candidate_format value;
  Ok (match fs with
      | [FStr _; FInt comp; FStr _; FInt prio; FStr ip; FInt port; FStr ty] => candidate_of comp prio ip port ty None
      | [FStr _; FInt comp; FStr _; FInt prio; FStr ip; FInt port; FStr ty; FStr r; FInt rport] => candidate_of comp prio ip port ty (Some (r, rport))
      | _ => None
      end).

(** The remote description of a handler: its candidates and the number of components. *)
Record remote := mkRemote { cands : list candidate; comp_cnt : Z }.

(** The loop over the attributes of a media. A value has no terminator of its own: the
    text is what the description has from the value on. The loop starts without candidates,
    and with the number of components that the handler has. The result is the error. *)
Fixpoint apply_candidates (attrs : list (bytes * bytes)) (r : remote) : outcome (Z * remote) :=
  match attrs with
  | [] => Ok (0, r)
  | (name, value) :: attrs =>
      if negb (bool_decide (name = text "candidate")) then apply_candidates attrs r
      else
        p ← parse_candidate value;
        match p with
        | None => Ok (Mux.IOEX_GENERAL_ERROR SessionSdp.IOEXERR_INVALID_SDP, mkRemote [] 0)
        | Some (comp, c) =>
            if PJ_ICE_ST_MAX_CAND <=? zlen (cands r) then Undef
            else apply_candidates attrs (mkRemote (cands r ++ [c]) (if comp_cnt r <? u32 comp then u32 comp else comp_cnt r))
        end
  end.

End Candidates.

Arguments candidate A : clear implicits.
Arguments remote A : clear implicits.

End Candidate.
