(* ===== verification/CandidateThm.v ===== *)
(** * The candidates of a session description, theorems

    The peer reads the candidates that a side has printed, and what a description may not
    hold. *)

From Stdlib Require Import ZArith Lia String.
From stdpp Require Import prelude list.
From S2P Require Import Prelude Mux CStr Session Ice Candidate.

Module CandidateThm.
Import CStr Ice Candidate.

(** ** Numbers *)

Definition digit (c : Z) : bool := (48 <=? c) && (c <=? 57).
Definition no_digit (r : bytes) : Prop := has_digit r = false.

Lemma digit_of x : 0 <= x < 10 -> digit (48 + x) = true.
Proof. intros H. unfold digit. rewrite !(proj2 (Z.leb_le _ _)) by lia. done. Qed.

Lemma digits_stop acc r : no_digit r -> digits acc r = acc.
Proof. destruct r as [|c r]; [done|]. unfold no_digit. cbn. by intros ->. Qed.

Lemma decimal_loop_spec fuel : forall x acc r, 0 <= x < 10 ^ Z.of_nat fuel -> (0 < fuel)%nat ->
  digits 0 (decimal_loop fuel x acc ++ r) = digits x (acc ++ r) /\ digits_rest (decimal_loop fuel x acc ++ r) = digits_rest (acc ++ r) /\
  exists c l, decimal_loop fuel x acc = c :: l /\ digit c = true.
Proof.
  induction fuel as [|fuel IH]; intros x acc r Hx Hf; [lia|]. cbn [decimal_loop]. destruct (x <? 10) eqn:E; zify_tests.
  - pose proof (digit_of x ltac:(lia)) as Hd. unfold digit in Hd. cbn [app digits digits_rest]. rewrite Hd.
    split; [f_equal; lia|]. split; [done|]. by exists (48 + x), acc.
  - rewrite Nat2Z.inj_succ, Z.pow_succ_r in Hx by lia.
    assert (0 < fuel)%nat as Hf2. { destruct fuel; [change (10 ^ Z.of_nat 0) with 1 in Hx; lia|lia]. }
    destruct (IH (x / 10) ((48 + x mod 10) :: acc) r) as (H1 & H2 & H3); [split; [apply Z.div_pos; lia|apply Z.div_lt_upper_bound; lia]|done|].
    pose proof (digit_of (x mod 10) ltac:(apply Z.mod_pos_bound; lia)) as Hd. unfold digit in Hd.
    rewrite H1, H2. cbn [app digits digits_rest]. rewrite Hd. split; [|split; [done|done]]. f_equal. pose proof (Z.div_mod x 10). lia.
Qed.

Lemma strtol_decimal x r : 0 <= x < 2 ^ 63 -> no_digit r -> strtol (decimal x ++ r) = (x, r) /\ decimal x ++ r <> r.
Proof.
  intros Hx Hr. destruct (decimal_loop_spec 20 x [] r) as (H1 & H2 & c & l & Hc & Hd);
    [change (10 ^ Z.of_nat 20) with 100000000000000000000; change (2 ^ 63) with 9223372036854775808 in Hx; lia|lia|]. fold (decimal x) in *. cbn [app] in H1, H2. rewrite (digits_stop x r Hr) in H1.
  assert (digits_rest r = r) as Hrr. { destruct r as [|y r]; [done|]. unfold no_digit in Hr. cbn in Hr |- *. by rewrite Hr. }
  split.
  - unfold strtol. rewrite Hc in *. cbn [app] in *. cbn [strtol_at].
    assert (isspace c = false) as ->. { unfold isspace. unfold digit in Hd. apply andb_prop in Hd as [D1 D2]. zify_tests. rewrite (proj2 (Z.eqb_neq c 32)), (proj2 (Z.leb_gt c 13)) by lia. by rewrite andb_false_r. }
    unfold digit in Hd. assert (c =? 45 = false) as -> by (apply andb_prop in Hd as [D1 D2]; zify_tests; apply Z.eqb_neq; lia).
    assert (c =? 43 = false) as -> by (apply andb_prop in Hd as [D1 D2]; zify_tests; apply Z.eqb_neq; lia).
    cbn [has_digit]. rewrite Hd, H1, H2, Hrr. unfold clamp64. f_equal. lia.
  - intros E. apply (f_equal length) in E. rewrite length_app, Hc in E. cbn in E. lia.
Qed.

(** ** Directives *)

(** A word, and what may follow one. *)
Definition plain (t : bytes) : Prop := t <> [] /\ Forall (fun c => isspace c = false) t.
Definition ends (r : bytes) : Prop := match r with [] => True | c :: _ => isspace c = true end.

Lemma word_spec t r : forall w, Forall (fun c => isspace c = false) t -> ends r -> (length t <= w)%nat -> word w (t ++ r) = t.
Proof.
  induction t as [|c t IH]; intros w Ht Hr Hw.
  - destruct w; [done|]. destruct r as [|c r]; [done|]. cbn in *. by rewrite Hr.
  - apply Forall_cons in Ht as [Hc Ht]. destruct w as [|w]; [cbn in Hw; lia|]. cbn. rewrite Hc. f_equal. apply IH; [done|done|cbn in Hw; lia].
Qed.

Lemma skip_plain t r : plain t -> skip_white (t ++ r) = t ++ r.
Proof. intros [Hne Ht]. destruct t as [|c t]; [done|]. apply Forall_cons in Ht as [Hc _]. cbn. by rewrite Hc. Qed.

Lemma scan_str width size f t r : plain t -> ends r -> zlen t <= width -> zlen t < size ->
  sscanf (Str width size :: f) (t ++ r) = (fs ← sscanf f r; Ok (FStr t :: fs)).
Proof.
  intros Ht Hr Hw Hs. pose proof Ht as [Hne Hsp]. cbn [sscanf]. rewrite skip_plain by done. rewrite word_spec by (try done; unfold zlen in Hw; lia).
  rewrite bool_decide_eq_false_2 by done. rewrite (proj2 (Z.leb_gt _ _)) by lia. by rewrite zdrop_app_len.
Qed.

Lemma scan_long width size f t r : plain t -> ends r -> zlen t <= width -> size <= zlen t -> sscanf (Str width size :: f) (t ++ r) = Undef.
Proof.
  intros Ht Hr Hw Hs. pose proof Ht as [Hne Hsp]. cbn [sscanf]. rewrite skip_plain by done. rewrite word_spec by (try done; unfold zlen in Hw; lia).
  rewrite bool_decide_eq_false_2 by done. by rewrite (proj2 (Z.leb_le _ _)) by lia.
Qed.

Lemma scan_int f x r : 0 <= x < 2 ^ 63 -> no_digit r -> sscanf (Int :: f) (decimal x ++ r) = (fs ← sscanf f r; Ok (FInt (s32 x) :: fs)).
Proof. intros Hx Hr. destruct (strtol_decimal x r Hx Hr) as [E Hne]. cbn [sscanf]. rewrite E. by rewrite bool_decide_eq_false_2 by congruence. Qed.

Lemma scan_white f t r : plain t -> sscanf (White :: f) (32 :: t ++ r) = sscanf f (t ++ r).
Proof. intros Ht. cbn [sscanf]. change (skip_white (32 :: t ++ r)) with (skip_white (t ++ r)). by rewrite skip_plain. Qed.

Lemma scan_literal l f r : sscanf ((Lit <$> l) ++ f) (l ++ r) = sscanf f r.
Proof. induction l as [|c l IH]; [done|]. cbn. by rewrite Z.eqb_refl. Qed.

Lemma ends_no_digit r : ends r -> no_digit r.
Proof.
  destruct r as [|c r]; [done|]. unfold ends, no_digit, isspace. cbn. intros H. apply orb_prop in H as [H|H].
  - apply Z.eqb_eq in H as ->. done.
  - apply andb_prop in H as [H1 H2]. zify_tests. rewrite (proj2 (Z.leb_gt 48 c)) by lia. done.
Qed.

Lemma digit_no_space c : digit c = true -> isspace c = false.
Proof.
  unfold digit, isspace. intros H. apply andb_prop in H as [H1 H2]. zify_tests.
  rewrite (proj2 (Z.eqb_neq c 32)), (proj2 (Z.leb_gt c 13)) by lia. by rewrite andb_false_r.
Qed.

Lemma decimal_loop_digits fuel : forall x acc, 0 <= x -> Forall (fun c => digit c = true) acc ->
  Forall (fun c => digit c = true) (decimal_loop fuel x acc).
Proof.
  induction fuel as [|fuel IH]; intros x acc Hx Ha; [done|]. cbn [decimal_loop]. destruct (x <? 10) eqn:E; zify_tests.
  - constructor; [apply digit_of; lia|done].
  - apply IH; [apply Z.div_pos; lia|]. constructor; [apply digit_of, Z.mod_pos_bound; lia|done].
Qed.

Lemma decimal_plain x : 0 <= x < 2 ^ 63 -> plain (decimal x).
Proof.
  intros Hx. split.
  - destruct (strtol_decimal x [] Hx eq_refl) as [_ H]. rewrite app_nil_r in H. done.
  - eapply Forall_impl; [apply decimal_loop_digits; [lia|constructor]|]. intros c. apply digit_no_space.
Qed.

(** ** The text of a candidate *)

Class SockaddrLaws {A : Type} (SA : Sockaddr A) := {
  valid : A -> Prop;
  print_plain a : valid a -> plain (pj_sockaddr_print a);
  print_short a : valid a -> zlen (pj_sockaddr_print a) < 46;
  port_range a : valid a -> 0 <= pj_sockaddr_get_port a < 65536;
  init_print a : valid a ->
    pj_sockaddr_init (bool_decide (is_Some (strchr 58 (pj_sockaddr_print a)))) (pj_sockaddr_print a) (pj_sockaddr_get_port a) = a;
  type_names : pj_ice_get_cand_type_name PJ_ICE_CAND_TYPE_HOST = text "host" /\
    pj_ice_get_cand_type_name PJ_ICE_CAND_TYPE_SRFLX = text "srflx" /\ pj_ice_get_cand_type_name PJ_ICE_CAND_TYPE_RELAYED = text "relay";
}.

Section Texts.
Context {A : Type} {SA : Sockaddr A} {SL : SockaddrLaws SA}.

(** What may follow the value of an attribute: the word ends, and the text does not go
    on as a related address does. *)
Definition follows (r : bytes) : Prop := ends r /\ head (skip_white r) <> Some 114.

Definition related_format : list directive := [White] ++ literal "raddr" ++ [White; Str 80 80; White] ++ literal "rport" ++ [White; Int].

Definition sixth (a : A) : bool := bool_decide (is_Some (strchr 58 (pj_sockaddr_print a))).

(** A candidate that can be described: of a kind that is printed, with the related address
    that its kind has and in the same version of the protocol, and short enough. *)
Definition related_in_order (c : candidate A) : Prop :=
  match type c, rel_addr c with
  | PJ_ICE_CAND_TYPE_HOST, None => True
  | PJ_ICE_CAND_TYPE_SRFLX, Some r | PJ_ICE_CAND_TYPE_RELAYED, Some r => valid r /\ sixth r = sixth (addr c)
  | _, _ => False
  end.

Definition related_text (c : candidate A) : bytes :=
  match rel_addr c with
  | Some r => text " raddr " ++ pj_sockaddr_print r ++ text " rport " ++ decimal (pj_sockaddr_get_port r)
  | None => []
  end.

Definition describable (fc : bytes * candidate A) : Prop :=
  let '(f, c) := fc in
  plain f /\ zlen f < sizeof_foundation /\ 0 <= comp_id c < 256 /\ 0 <= prio c < 2 ^ 32 /\ valid (addr c) /\ related_in_order c /\
  zlen (host_text f c ++ related_text c) < sizeof_buf.

Lemma scan_word width size f t r : plain t -> ends r -> zlen t <= width -> zlen t < size ->
  sscanf (White :: Str width size :: f) (32 :: t ++ r) = (fs ← sscanf f r; Ok (FStr t :: fs)).
Proof. intros Ht Hr Hw Hs. rewrite scan_white by done. by apply scan_str. Qed.

Lemma scan_number f x r : 0 <= x < 2 ^ 63 -> ends r -> sscanf (White :: Int :: f) (32 :: decimal x ++ r) = (fs ← sscanf f r; Ok (FInt (s32 x) :: fs)).
Proof. intros Hx Hr. rewrite scan_white by by apply decimal_plain. apply scan_int; [done|by apply ends_no_digit]. Qed.

Lemma scan_keyword (s : string) f r : plain (text s) -> sscanf (White :: literal s ++ f) (32 :: text s ++ r) = sscanf f r.
Proof. intros H. rewrite scan_white by done. apply scan_literal. Qed.

Lemma head_text f c r :
  host_text f c ++ r =
  f ++ 32 :: decimal (comp_id c) ++ 32 :: text "UDP" ++ 32 :: decimal (prio c) ++ 32 :: pj_sockaddr_print (addr c) ++
  32 :: decimal (pj_sockaddr_get_port (addr c)) ++ 32 :: text "typ" ++ 32 :: pj_ice_get_cand_type_name (type c) ++ r.
Proof. unfold host_text. rewrite <- !app_assoc. reflexivity. Qed.

Lemma bind_bind {X Y Z} (m : outcome X) (f : X -> outcome Y) (g : Y -> outcome Z) : (y ← (x ← m; f x); g y) = (x ← m; y ← f x; g y).
Proof. by destruct m. Qed.

(** The seven fields that every candidate has. *)
Lemma scan_head f c r : describable (f, c) -> type c <> PJ_ICE_CAND_TYPE_PRFLX -> ends r ->
  sscanf candidate_format (host_text f c ++ r) =
  (fs ← sscanf related_format r;
   Ok ([FStr f; FInt (s32 (comp_id c)); FStr (text "UDP"); FInt (s32 (prio c)); FStr (pj_sockaddr_print (addr c));
        FInt (s32 (pj_sockaddr_get_port (addr c))); FStr (pj_ice_get_cand_type_name (type c))] ++ fs)).
Proof.
  intros (Hf & Hlen & Hcomp & Hprio & Ha & _ & _) Ht Hr. pose proof (print_plain _ Ha) as Hp. pose proof (print_short _ Ha) as Hs.
  pose proof (port_range _ Ha) as Hport. rewrite head_text. unfold candidate_format. cbn [app].
  assert (exists s, pj_ice_get_cand_type_name (type c) = text s /\ plain (text s) /\ zlen (text s) < 32) as (s & -> & Hn & Hnl).
  { destruct type_names as (E1 & E2 & E3). destruct (type c); [exists "host"%string|exists "srflx"%string|done|exists "relay"%string];
      (split; [done|split; [by apply (bool_decide_unpack _); vm_compute|by vm_compute]]). }
  rewrite scan_str by (try done; unfold sizeof_foundation in Hlen; lia).
  rewrite scan_number by (try done; lia). rewrite scan_word by (try (by vm_compute); try done; apply (bool_decide_unpack _); by vm_compute).
  rewrite scan_number by (try done; lia). rewrite scan_word by (try done; unfold sizeof_ipaddr; lia).
  rewrite scan_number by (try done; lia). rewrite scan_keyword by (apply (bool_decide_unpack _); by vm_compute).
  rewrite scan_word by (try done; lia). change (White :: literal "raddr" ++ _) with related_format.
  by destruct (sscanf related_format r).
Qed.

Lemma scan_nothing r : follows r -> sscanf related_format r = Ok [].
Proof.
  intros [_ H]. unfold related_format. cbn [app sscanf]. change (literal "raddr") with (Lit 114 :: literal "addr"). cbn [app sscanf].
  destruct (skip_white r) as [|c s]; [done|]. cbn in H. destruct (Z.eqb_spec c 114); [congruence|done].
Qed.

Lemma scan_related a r : valid a -> follows r ->
  sscanf related_format (text " raddr " ++ pj_sockaddr_print a ++ text " rport " ++ decimal (pj_sockaddr_get_port a) ++ r) =
  Ok [FStr (pj_sockaddr_print a); FInt (s32 (pj_sockaddr_get_port a))].
Proof.
  intros Ha [Hr _]. pose proof (print_plain _ Ha) as Hp. pose proof (print_short _ Ha) as Hs. pose proof (port_range _ Ha) as Hport.
  change (sscanf related_format (32 :: text "raddr" ++ 32 :: pj_sockaddr_print a ++ 32 :: text "rport" ++ 32 :: decimal (pj_sockaddr_get_port a) ++ r) = Ok [FStr (pj_sockaddr_print a); FInt (s32 (pj_sockaddr_get_port a))]).
  unfold related_format. cbn [app]. rewrite scan_keyword by (apply (bool_decide_unpack _); by vm_compute).
  rewrite scan_word by (try done; lia). rewrite scan_keyword by (apply (bool_decide_unpack _); by vm_compute).
  by rewrite scan_number by (try done; lia).
Qed.

(** The value that is printed. *)
Lemma text_of f c : describable (f, c) -> candidate_text f c = Ok (host_text f c ++ related_text c).
Proof.
  intros (_ & _ & _ & _ & _ & Hrel & Hlen). unfold candidate_text, related_in_order, related_text in *. unfold snprintf.
  destruct (type c), (rel_addr c); try done; rewrite ?app_nil_r in *; by rewrite ztake_all by (unfold sizeof_buf in *; lia).
Qed.

(** It is read back. *)
Lemma u_s_32 x : 0 <= x < 2 ^ 32 -> u32 (s32 x) = x.
Proof. intros H. unfold u32, s32. rewrite Zminus_mod_idemp_l, Z.add_simpl_r. by apply Z.mod_small. Qed.

Lemma parse_text f c r : describable (f, c) -> follows r ->
  parse_candidate ((host_text f c ++ related_text c) ++ r) = Ok (Some (comp_id c, c)).
Proof.
  intros Hd Hr. pose proof Hd as (_ & _ & Hcomp & Hprio & Ha & Hrel & _). pose proof (port_range _ Ha) as Hport.
  assert (type c <> PJ_ICE_CAND_TYPE_PRFLX) as Ht. { unfold related_in_order in Hrel. destruct (type c); done. }
  unfold parse_candidate. rewrite <- app_assoc. rewrite scan_head; [|done|done|].
  2:{ unfold related_text. destruct (rel_addr c); [done|apply Hr]. }
  assert (forall related, candidate_of (s32 (comp_id c)) (s32 (prio c)) (pj_sockaddr_print (addr c)) (s32 (pj_sockaddr_get_port (addr c)))
    (pj_ice_get_cand_type_name (type c)) related =
    Some (comp_id c, mkCandidate (type c) (comp_id c) (prio c) (addr c)
      match related with Some (t, p) => Some (pj_sockaddr_init (sixth (addr c)) t (u16 p)) | None => None end)) as Hof.
  { intros related. unfold candidate_of. rewrite (s32_small (comp_id c)), (s32_small (pj_sockaddr_get_port _)), u_s_32 by lia. rewrite u8_small, u16_small by lia.
    fold (sixth (addr c)). unfold sixth at 1. rewrite init_print by done.
    destruct type_names as (E1 & E2 & E3). destruct (type c) eqn:Et; [rewrite E1|rewrite E2|done|rewrite E3]; reflexivity. }
  unfold related_in_order, related_text in *. destruct (rel_addr c) as [a|] eqn:Er.
  - assert (valid a /\ sixth a = sixth (addr c)) as [Hv Hs] by (destruct (type c); done).
    rewrite <- !app_assoc. rewrite scan_related by done. bind_simpl. cbn [app]. rewrite Hof. rewrite s32_small, u16_small by (pose proof (port_range _ Hv); lia).
    rewrite <- Hs. unfold sixth. rewrite init_print by done. destruct c; cbn in *; by subst.
  - cbn [app]. rewrite scan_nothing by done. bind_simpl. cbn [app]. rewrite Hof. destruct c; cbn in *; by subst.
Qed.

(** ** The candidates of a stream *)

Lemma encode_texts add l : (forall t, add t = PJ_SUCCESS) -> Forall describable l ->
  encode_candidates add l = Ok (inr ((fun fc => host_text (fst fc) (snd fc) ++ related_text (snd fc)) <$> l)).
Proof.
  intros Hadd. induction 1 as [|[f c] l Hd Hl IH]; [done|]. cbn [encode_candidates]. rewrite (text_of _ _ Hd). bind_simpl.
  rewrite Hadd. cbn [negb Z.eqb]. change (negb (PJ_SUCCESS =? PJ_SUCCESS)) with false. cbn iota. by rewrite IH.
Qed.

Lemma apply_others attrs : forall r, apply_candidates attrs r = apply_candidates (filter (fun a => a.1 = text "candidate") attrs) r.
Proof.
  induction attrs as [|[name value] attrs IH]; intros r; [done|]. cbn [apply_candidates].
  destruct (decide (name = text "candidate")) as [->|Hn].
  - rewrite filter_cons_True by done. cbn [apply_candidates]. destruct (parse_candidate value) as [[[comp c]|]| | |]; try done. bind_simpl.
    destruct (_ <=? _); [done|]. destruct (negb _); [done|]. apply IH.
  - rewrite filter_cons_False by done. rewrite bool_decide_eq_false_2 by done. apply IH.
Qed.

Definition attribute (fc : bytes * candidate A) (rest : bytes) : bytes * bytes :=
  (text "candidate", (host_text (fst fc) (snd fc) ++ related_text (snd fc)) ++ rest).

Definition components (n : Z) (l : list (candidate A)) : Z := foldl (fun n c => Z.max n (comp_id c)) n l.

Lemma apply_texts l : forall rests r, Forall describable l -> Forall follows rests -> length rests = length l ->
  zlen (cands r) + zlen l <= PJ_ICE_ST_MAX_CAND ->
  apply_candidates (zip_with attribute l rests) r = Ok (0, mkRemote (cands r ++ (snd <$> l)) (components (comp_cnt r) (snd <$> l))).
Proof.
  induction l as [|[f c] l IH]; intros [|rest rests] r Hl Hr Hlen Hm; try done.
  - cbn. rewrite app_nil_r. by destruct r.
  - apply Forall_cons in Hl as [Hd Hl]. apply Forall_cons in Hr as [Hrest Hr]. injection Hlen as Hlen. rewrite zlen_cons in Hm.
    cbn [zip_with attribute fst snd apply_candidates]. rewrite bool_decide_eq_true_2 by done. cbn [negb].
    rewrite (parse_text _ _ _ Hd Hrest). bind_simpl. rewrite (proj2 (Z.leb_gt _ _)) by (pose proof (zlen_nonneg l); lia).
    rewrite IH; [|done|done|done|cbn [cands]; rewrite zlen_app; change (zlen [c]) with 1; lia].
    cbn [cands comp_cnt fmap list_fmap snd components foldl]. rewrite <- app_assoc. cbn [app]. do 3 f_equal.
    destruct Hd as (_ & _ & Hcomp & _). rewrite u32_small by lia. unfold components. f_equal.
    destruct (comp_cnt r <? comp_id c) eqn:E; zify_tests; lia.
Qed.


(** ** What a description may not hold *)

Lemma word_long t r w : Forall (fun c => isspace c = false) t -> length t = w -> word w (t ++ r) = t.
Proof.
  intros Ht <-. induction Ht as [|c t Hc Ht IH]; [by destruct r|]. cbn. by rewrite Hc, IH.
Qed.

(** A foundation of 32 characters or more is stored past the end of its array. *)
Lemma long_foundation_overruns t r : Forall (fun c => isspace c = false) t -> length t = 32%nat -> parse_candidate (t ++ r) = Undef.
Proof.
  intros Ht Hlen. unfold parse_candidate, candidate_format. cbn [app sscanf].
  assert (plain t) as Hp by (split; [by destruct t|done]). rewrite (skip_plain t r Hp), (word_long t r _ Ht) by done.
  rewrite bool_decide_eq_false_2 by apply Hp. by rewrite (proj2 (Z.leb_le _ _)) by (unfold zlen; rewrite Hlen; by vm_compute).
Qed.

(** One candidate more than there is room for is stored past the end of the array. *)
Lemma candidates_overrun value attrs r p : parse_candidate value = Ok (Some p) -> PJ_ICE_ST_MAX_CAND <= zlen (cands r) ->
  apply_candidates ((text "candidate", value) :: attrs) r = Undef.
Proof.
  intros Hp Hm. cbn [apply_candidates]. rewrite bool_decide_eq_true_2 by done. cbn [negb]. rewrite Hp. bind_simpl.
  destruct p as [comp c]. by rewrite (proj2 (Z.leb_le _ _)).
Qed.

End Texts.

(** ** A run *)


#[local] Instance toy_sockaddr : Sockaddr (bytes * Z) := {
  pj_sockaddr_print := fst;
  pj_sockaddr_get_port := snd;
  pj_sockaddr_init _ s p := (s, p);
  pj_ice_get_cand_type_name t :=
    text match t with PJ_ICE_CAND_TYPE_HOST => "host" | PJ_ICE_CAND_TYPE_SRFLX => "srflx" | PJ_ICE_CAND_TYPE_RELAYED => "relay" | PJ_ICE_CAND_TYPE_PRFLX => "prflx" end;
  PJ_ICE_ST_MAX_CAND := 8;
}.

#[local] Instance toy_laws : SockaddrLaws toy_sockaddr.
Proof.
  exists (fun a => plain (fst a) /\ zlen (fst a) < 46 /\ 0 <= snd a < 65536); try (intros [s p]; cbn; tauto). done.
Defined.

Definition host : candidate (bytes * Z) := mkCandidate PJ_ICE_CAND_TYPE_HOST 1 2130706431 (text "192.168.1.7", 54321) None.
Definition reflexive : candidate (bytes * Z) := mkCandidate PJ_ICE_CAND_TYPE_SRFLX 2 4000000000 (text "203.0.113.9", 1024) (Some (text "192.168.1.7", 54321)).
Definition both : list (bytes * candidate (bytes * Z)) := [(text "Hc0a80107", host); (text "Scb007109", reflexive)].
Definition line_end : bytes := [13; 10; 97; 61].


(** With two addresses of the sixth version the text is longer than the buffer; what is
    left of it cannot be read, and the description is refused. *)
Definition long_address (c : Z) : bytes := concat (replicate 7 [50; 48; 48; c; 58]) ++ [50; 48; 48; c].
Definition long_candidate : candidate (bytes * Z) :=
  mkCandidate PJ_ICE_CAND_TYPE_SRFLX 1 1694498815 (long_address 48, 54321) (Some (long_address 49, 12345)).
Example long_text_truncated :
  exists t, candidate_text (text "Sc0a8") long_candidate = Ok t /\ zlen t = 127 /\ parse_candidate (t ++ line_end) = Ok None.
Proof. eexists. repeat split; by vm_compute. Qed.


End CandidateThm.
