(* ===== verification/Tables.v ===== *)
(** * The tables of the carrier node

    src/src/carrier/friends.h, tcallbacks.h and thistory.h: the functions that hash
    and compare the keys of the three tables of a node, and the tables as maps with
    their keys in insertion order. *)

From Stdlib Require Import ZArith Lia.
From stdpp Require Import prelude list.
From S2P Require Import Prelude RcMem Rings Hashtable HashtableThm HashtableApi CStr.

Module Tables.
Import RcMem Rings Hashtable HashtableThm HashtableApi CStr.

(** ** Little-endian integers in memory *)

Fixpoint le (n : nat) (x : Z) : bytes := match n with O => [] | S n => x mod 256 :: le n (x / 256) end.
Fixpoint unle (b : bytes) : Z := match b with [] => 0 | c :: b => c + 256 * unle b end.

Lemma unle_le n x : unle (le n x) = x mod 256 ^ Z.of_nat n.
Proof.
  revert x. induction n as [|n IH]; intros x; cbn [le unle].
  - by rewrite Z.mod_1_r.
  - rewrite IH, Nat2Z.inj_succ, Z.pow_succ_r, Z.rem_mul_r by lia. lia.
Qed.

Lemma le_length n x : length (le n x) = n.
Proof. revert x. induction n as [|n IH]; intros x; cbn; [done|by rewrite IH]. Qed.

Lemma le_zlen n x : zlen (le n x) = Z.of_nat n.
Proof. unfold zlen. by rewrite le_length. Qed.

(** ** Key functions *)

Definition UINT32_MAX : Z := 0xffffffff.
Definition IOEX_MAX_EXTENSION_NAME_LEN : Z := 31.
Definition IOEX_MAX_ID_LEN : Z := 45.

Definition friendid_compare (k1 : option bytes) (len1 : Z) (k2 : option bytes) (len2 : Z) : outcome Z :=
  _ ← c_assert 42 (bool_decide (is_Some k1) && (len1 =? 4));
  _ ← c_assert 43 (bool_decide (is_Some k2) && (len2 =? 4));
  match k1, k2 with Some b1, Some b2 => strcmp b1 b2 | _, _ => Undef end.

Definition int64_of (u : Z) : Z := if u <? 2 ^ 63 then u else u - 2 ^ 64.

(** The identifier of a transaction in the memory of a key. *)
Definition key_tid (k : option bytes) : outcome Z := b ← key_bytes k 8; Ok (int64_of (unle b)).

Definition tid_hash (tid : Z) : Z :=
  u32 (u32 (Z.land tid 0xffffffff) + u32 (Z.shiftr (Z.land (u64 tid) 0xffffffff00000000) 32)).

Definition cid_hash_code (k : option bytes) (keylen : Z) : outcome Z :=
  _ ← c_assert 38 (bool_decide (is_Some k) && (keylen =? 8));
  tid ← key_tid k; Ok (tid_hash tid).

Definition cid_compare (k1 : option bytes) (len1 : Z) (k2 : option bytes) (len2 : Z) : outcome Z :=
  _ ← c_assert 51 (bool_decide (is_Some k1) && (len1 =? 8));
  _ ← c_assert 52 (bool_decide (is_Some k2) && (len2 =? 8));
  tid1 ← key_tid k1;
  tid2 ← key_tid k2;
  Ok (if tid2 <? tid1 then 1 else if tid1 <? tid2 then -1 else 0).

Definition key_string_length (k : option bytes) : outcome Z := match k with Some b => strlen b | None => Ok (-1) end.

Definition hid_compare (k1 : option bytes) (len1 : Z) (k2 : option bytes) (len2 : Z) : outcome Z :=
  n1 ← key_string_length k1; _ ← c_assert 45 (bool_decide (is_Some k1) && (n1 =? len1));
  n2 ← key_string_length k2; _ ← c_assert 46 (bool_decide (is_Some k2) && (n2 =? len2));
  if len2 <? len1 then Ok 1
  else if len1 <? len2 then Ok (-1)
  else match k1, k2 with Some b1, Some b2 => strcmp b1 b2 | _, _ => Undef end.

(** ** Maps with their keys in insertion order *)

Section Table.
Context {K V : Type} `{EqDecision K}.
Implicit Types m : list (K * V).

Fixpoint table_get (k : K) m : option V :=
  match m with [] => None | (k', v) :: m => if decide (k' = k) then Some v else table_get k m end.

Fixpoint table_put (k : K) (v : V) m : list (K * V) :=
  match m with [] => [(k, v)] | (k', v') :: m => if decide (k' = k) then (k, v) :: m else (k', v') :: table_put k v m end.

Fixpoint table_remove (k : K) m : list (K * V) :=
  match m with [] => [] | (k', v') :: m => if decide (k' = k) then m else (k', v') :: table_remove k m end.

Definition table_exist (k : K) m : bool := bool_decide (is_Some (table_get k m)).

Lemma table_get_put k k' v m : table_get k' (table_put k v m) = if decide (k = k') then Some v else table_get k' m.
Proof.
  induction m as [|[x y] m IH]; cbn; [done|]. destruct (decide (x = k)) as [->|Hx]; cbn.
  - by destruct (decide (k = k')).
  - rewrite IH. destruct (decide (x = k')) as [->|], (decide (k = k')); congruence.
Qed.

Lemma table_get_remove_ne k k' m : k <> k' -> table_get k' (table_remove k m) = table_get k' m.
Proof.
  intros Hn. induction m as [|[x y] m IH]; cbn; [done|]. destruct (decide (x = k)) as [->|Hx]; cbn.
  - by rewrite decide_False.
  - by rewrite IH.
Qed.

Lemma table_get_notin k m : k ∉ m.*1 -> table_get k m = None.
Proof.
  induction m as [|[x y] m IH]; cbn; [done|]. intros [Hx Hm]%not_elem_of_cons. rewrite decide_False by congruence. by apply IH.
Qed.

Lemma table_get_remove k m : NoDup m.*1 -> table_get k (table_remove k m) = None.
Proof.
  induction m as [|[x y] m IH]; cbn; [done|]. intros [Hx Hm]%NoDup_cons. destruct (decide (x = k)) as [->|Hn]; cbn.
  - by apply table_get_notin.
  - rewrite decide_False by done. by apply IH.
Qed.

Lemma table_get_in k v m : table_get k m = Some v -> (k, v) ∈ m.
Proof.
  induction m as [|[x y] m IH]; cbn; [done|]. destruct (decide (x = k)) as [->|]; [intros [= ->]; left|].
  intros H%IH. by right.
Qed.

Lemma table_in_get k v m : NoDup m.*1 -> (k, v) ∈ m -> table_get k m = Some v.
Proof.
  induction m as [|[x y] m IH]; cbn; intros Hnd; [by intros ?%elem_of_nil|].
  apply NoDup_cons in Hnd as [Hx Hm]. intros [[= -> ->]|Hin]%elem_of_cons; [by rewrite decide_True|].
  rewrite decide_False; [by apply IH|]. intros ->. apply Hx. by eapply in_fst.
Qed.

Lemma table_put_keys k v m : (table_put k v m).*1 = if decide (k ∈ m.*1) then m.*1 else m.*1 ++ [k].
Proof.
  induction m as [|[x y] m IH]; cbn; [done|]. destruct (decide (x = k)) as [->|Hx]; cbn.
  - rewrite decide_True; [done|left].
  - rewrite IH. destruct (decide (k ∈ m.*1)).
    + rewrite decide_True; [done|by right].
    + rewrite decide_False; [done|]. by intros [?|?]%elem_of_cons.
Qed.

Lemma table_remove_sub k m x : x ∈ table_remove k m -> x ∈ m.
Proof.
  induction m as [|[y z] m IH]; cbn; [done|]. destruct (decide (y = k)); [by right|].
  intros [->|H]%elem_of_cons; [left|right; by apply IH].
Qed.

Lemma table_put_nodup k v m : NoDup m.*1 -> NoDup (table_put k v m).*1.
Proof.
  intros H. rewrite table_put_keys. destruct (decide (k ∈ m.*1)); [done|]. apply NoDup_app. split; [done|].
  split; [|apply NoDup_singleton]. intros x Hx ->%list_elem_of_singleton. done.
Qed.

Lemma table_remove_nodup k m : NoDup m.*1 -> NoDup (table_remove k m).*1.
Proof.
  induction m as [|[x y] m IH]; cbn; [done|]. intros [Hx Hm]%NoDup_cons. destruct (decide (x = k)); cbn; [done|].
  apply NoDup_cons. split; [|by apply IH]. intros ([? ?] & -> & Hin%table_remove_sub)%list_elem_of_fmap.
  apply Hx. by eapply in_fst.
Qed.

(** *** The linked hash table implements such a map

    [enc] writes a key to memory; [at_] is the address of an object. *)

Context {KS : KeySpec (option bytes)} (P : K -> Prop) (enc : K -> option bytes * Z) (at_ : V -> Z).
Context (enc_same : forall k k', P k -> P k' ->
  ksame (fst (enc k)) (snd (enc k)) (fst (enc k')) (snd (enc k')) = bool_decide (k = k')).

Definition entry (p : K * V) : option bytes * Z * Z := (enc (fst p), at_ (snd p)).

Lemma entry_matches k p : P k -> P (fst p) -> matches (fst (enc k)) (snd (enc k)) (entry p) = bool_decide (fst p = k).
Proof. intros Hk Hp. unfold matches, entry. cbn. rewrite enc_same by done. done. Qed.

Lemma entries_refine k v m : P k -> Forall P m.*1 ->
  snd <$> alookup (fst (enc k)) (snd (enc k)) (entry <$> m) = at_ <$> table_get k m /\
  aput (fst (enc k)) (snd (enc k)) (at_ v) (entry <$> m) = entry <$> table_put k v m /\
  aremove (fst (enc k)) (snd (enc k)) (entry <$> m) = entry <$> table_remove k m.
Proof.
  intros Hk. induction m as [|[x y] m IH]; cbn [fmap list_fmap alookup aput aremove table_get table_put table_remove];
    intros Hm; [by destruct (enc k) eqn:E; unfold entry; cbn; rewrite E|].
  apply Forall_cons in Hm as [Hx Hm]. destruct (IH Hm) as (H1 & H2 & H3).
  rewrite entry_matches by done. cbn [fst]. destruct (decide (x = k)) as [->|Hn].
  - rewrite bool_decide_eq_true_2 by done. split_and!; try done. cbn [fmap list_fmap]. unfold entry at 2. cbn [fst snd].
    by destruct (enc k).
  - rewrite bool_decide_eq_false_2 by done. cbn [fmap list_fmap]. by rewrite H1, H2, H3.
Qed.

End Table.


(** ** The keys of the three tables

    What the linked hash table asks of the functions of a table, with the map that
    results: a key in [nt_dom] is written to memory by [nt_key], and two keys are the
    same to the table only when they are equal. *)

Record NodeTable (K : Type) := {
  nt_hash : option bytes -> Z -> outcome Z;
  nt_compare : option bytes -> Z -> option bytes -> Z -> outcome Z;
  nt_dom : K -> Prop;
  nt_key : K -> option bytes * Z;
  nt_spec : KeySpec (option bytes);
  nt_laws : @KeyLaws (option bytes) nt_spec;
  nt_fns : forall t, hash_fn t = nt_hash -> key_compare t = nt_compare -> @fns_ok _ nt_spec t;
  nt_valid : forall k, nt_dom k -> @valid _ nt_spec (fst (nt_key k)) (snd (nt_key k)) /\
    is_null (fst (nt_key k)) = false /\ snd (nt_key k) <> 0;
  nt_same : forall k k', nt_dom k -> nt_dom k' ->
    @ksame _ nt_spec (fst (nt_key k)) (snd (nt_key k)) (fst (nt_key k')) (snd (nt_key k')) = true <-> k = k';
}.
Arguments nt_hash {K} _.
Arguments nt_compare {K} _.
Arguments nt_dom {K} _ _.
Arguments nt_key {K} _ _.
Arguments nt_spec {K} _.

(** Keys compared by content, with a hash of the content. *)
Definition content_spec (ok : option bytes -> Z -> Prop) (hash : bytes -> Z) : KeySpec (option bytes) :=
  {| valid := ok; kh := fun k n => hash (key_content k n);
     ksame := fun k n k' n' => bool_decide (n = n' /\ key_content k n = key_content k' n') |}.

Lemma content_laws ok hash : (forall b, 0 <= hash b < 2 ^ 32) -> @KeyLaws _ (content_spec ok hash).
Proof.
  intros Hr. split; cbn.
  - intros k n. apply Hr.
  - intros k n k' n' [-> ->]%bool_decide_eq_true. done.
  - intros k n. by apply bool_decide_eq_true.
  - intros k n k' n'. apply bool_decide_ext. naive_solver.
  - intros k n k' n' k'' n'' [-> E]%bool_decide_eq_true [-> E']%bool_decide_eq_true. apply bool_decide_eq_true. by rewrite E.
Qed.

Definition string_hash (b : bytes) : Z := foldl (fun h c => u32 (31 * h + c_char c)) 0 b.

Lemma string_hash_range b : 0 <= string_hash b < 2 ^ 32.
Proof. apply hash_range. lia. Qed.

Lemma default_hash_string b n : 0 <= n <= zlen b -> default_hash_code (Some b) n = Ok (string_hash (key_content (Some b) n)).
Proof. intros Hn. unfold default_hash_code, key_bytes. by rewrite mem_read_ok by lia. Qed.

(** Friend numbers. *)

Definition friend_key (n : Z) : option bytes * Z := (Some (le 4 n), 4).
Definition friend_dom (n : Z) : Prop := 0 <= n < 2 ^ 16.
Definition friend_spec := content_spec (fun k l => exists n, friend_dom n /\ k = Some (le 4 n) /\ l = 4) string_hash.

Lemma friend_bytes n : friend_dom n -> le 4 n = [n mod 256; n / 256; 0; 0].
Proof.
  unfold friend_dom. intros Hn. cbn [le].
  assert (0 <= n / 256 < 256) by (split; [apply Z.div_pos|apply Z.div_lt_upper_bound]; lia).
  by rewrite (Z.div_small (n / 256)), (Z.mod_small (n / 256)) by lia.
Qed.

Lemma friend_bytes_inj n n' : friend_dom n -> friend_dom n' -> le 4 n = le 4 n' -> n = n'.
Proof.
  intros Hn Hn' E. rewrite !friend_bytes in E by done. injection E as E1 E2.
  rewrite (Z_div_mod_eq_full n 256), (Z_div_mod_eq_full n' 256). congruence.
Qed.

Lemma c_char_inj a b : 0 <= a < 256 -> 0 <= b < 256 -> u32 (961 * c_char a) = u32 (961 * c_char b) -> a = b.
Proof.
  intros Ha Hb. unfold u32, c_char. intros E.
  pose proof (Z_div_mod_eq_full (961 * (if a <? 128 then a else a - 256)) (2 ^ 32)) as Ea.
  pose proof (Z_div_mod_eq_full (961 * (if b <? 128 then b else b - 256)) (2 ^ 32)) as Eb.
  rewrite E in Ea. destruct (a <? 128) eqn:E1, (b <? 128) eqn:E2; zify_tests; lia.
Qed.

Lemma friend_hash b : string_hash [0; b; 0; 0] = u32 (961 * c_char b).
Proof.
  unfold string_hash. cbn [foldl]. change (u32 (31 * 0 + c_char 0)) with 0.
  unfold u32. change (c_char 0) with 0. rewrite !Z.add_0_r, !Z.mul_mod_idemp_r by lia. rewrite !Z.mul_assoc, !Z.mul_mod_idemp_r by lia.
  f_equal; lia.
Qed.

Lemma friendid_compare_spec n n' : friend_dom n -> friend_dom n' -> string_hash (le 4 n) = string_hash (le 4 n') ->
  exists c, strcmp (le 4 n) (le 4 n') = Ok c /\ (c =? 0) = bool_decide (n = n').
Proof.
  intros Hn Hn' Hh. assert (0 <= n mod 256 < 256) as Hm by (apply Z.mod_pos_bound; lia).
  assert (0 <= n / 256 < 256) as Hd by (split; [apply Z.div_pos|apply Z.div_lt_upper_bound]; unfold friend_dom in Hn; lia).
  assert (0 <= n' / 256 < 256) as Hd' by (split; [apply Z.div_pos|apply Z.div_lt_upper_bound]; unfold friend_dom in Hn'; lia).
  assert (forall c, (c =? 0) = bool_decide (le 4 n = le 4 n') -> (c =? 0) = bool_decide (n = n')) as Hs.
  { intros c ->. apply bool_decide_ext. split; [by apply friend_bytes_inj|congruence]. }
  rewrite !friend_bytes in * by done. cbn [strcmp].
  destruct (Z.eqb_spec (n mod 256) (n' mod 256)) as [E|E].
  2: { eexists. split; [done|]. apply Hs. rewrite bool_decide_eq_false_2 by congruence. by destruct (_ <? _). }
  destruct (Z.eqb_spec (n mod 256) 0) as [E0|E0].
  { rewrite <- E, E0, !friend_hash in Hh. apply c_char_inj in Hh; [|done..]. eexists. split; [done|].
    apply Hs. rewrite bool_decide_eq_true_2; [done|]. congruence. }
  destruct (Z.eqb_spec (n / 256) (n' / 256)) as [E2|E2].
  2: { eexists. split; [done|]. apply Hs. rewrite bool_decide_eq_false_2 by congruence. by destruct (_ <? _). }
  exists 0. split; [by destruct (n / 256 =? 0)|]. apply Hs. rewrite bool_decide_eq_true_2; [done|]. congruence.
Qed.

Lemma friend_content n : key_content (Some (le 4 n)) 4 = le 4 n.
Proof. apply ztake_all. by rewrite le_zlen. Qed.

Definition friends_table : NodeTable Z.
Proof.
  refine {| nt_hash := default_hash_code; nt_compare := friendid_compare; nt_dom := friend_dom; nt_key := friend_key;
            nt_spec := friend_spec |}.
  - apply content_laws, string_hash_range.
  - intros t Hh Hc. split; rewrite ?Hh, ?Hc.
    + intros k l (n & Hn & -> & ->). by apply default_hash_string.
    + intros k l k' l' (n & Hn & -> & ->) (n' & Hn' & -> & ->). cbn [kh ksame friend_spec content_spec].
      rewrite !friend_content. intros E. destruct (friendid_compare_spec n n' Hn Hn' E) as (c & Hs & Ec).
      exists c. split; [exact Hs|]. rewrite Ec. apply bool_decide_ext. split; [intros ->; done|].
      intros [_ H]. by apply friend_bytes_inj.
  - intros n Hn. split_and!; [by exists n|done|done].
  - intros n n' Hn Hn'. cbn [ksame friend_spec content_spec friend_key fst snd]. rewrite !(friend_content n), !(friend_content n'), bool_decide_eq_true.
    split; [intros [_ H]; by apply friend_bytes_inj|by intros ->].
Defined.


(** Transactions. *)

Definition tid_dom (t : Z) : Prop := - 2 ^ 63 <= t < 2 ^ 63.
Definition tid_key (t : Z) : option bytes * Z := (Some (le 8 (u64 t)), 8).
Definition tid_spec := content_spec (fun k l => exists t, tid_dom t /\ k = Some (le 8 (u64 t)) /\ l = 8) (fun b => tid_hash (int64_of (unle b))).

Lemma tid_read t : tid_dom t -> int64_of (unle (le 8 (u64 t))) = t.
Proof.
  unfold tid_dom, int64_of, u64. intros Ht. rewrite unle_le. change (256 ^ Z.of_nat 8) with (2 ^ 64).
  rewrite Z.mod_mod by lia. destruct (decide (0 <= t)).
  - rewrite Z.mod_small by lia. by rewrite (proj2 (Z.ltb_lt _ _)) by lia.
  - replace (t mod 2 ^ 64) with (t + 2 ^ 64); [by rewrite (proj2 (Z.ltb_ge _ _)) by lia; lia|].
    rewrite <- (Z.mod_add t 1), Z.mod_small by lia. lia.
Qed.

Lemma tid_content t : key_content (Some (le 8 (u64 t))) 8 = le 8 (u64 t).
Proof. apply ztake_all. by rewrite le_zlen. Qed.

Lemma key_tid_spec t : tid_dom t -> key_tid (Some (le 8 (u64 t))) = Ok t.
Proof.
  intros Ht. unfold key_tid, key_bytes. rewrite mem_read_ok by (rewrite ?le_zlen; lia). bind_simpl.
  rewrite zdrop_0, ztake_all by (by rewrite le_zlen). by rewrite tid_read.
Qed.

Lemma tid_bytes_inj t t' : tid_dom t -> tid_dom t' -> le 8 (u64 t) = le 8 (u64 t') -> t = t'.
Proof. intros Ht Ht' E. by rewrite <- (tid_read t), <- (tid_read t'), E. Qed.

Definition callbacks_table : NodeTable Z.
Proof.
  refine {| nt_hash := cid_hash_code; nt_compare := cid_compare; nt_dom := tid_dom; nt_key := tid_key; nt_spec := tid_spec |}.
  - apply content_laws. intros b. apply u32_range.
  - intros t Hh Hc. split; rewrite ?Hh, ?Hc.
    + intros k l (n & Hn & -> & ->). cbn [kh tid_spec content_spec]. rewrite tid_content, tid_read by done.
      unfold cid_hash_code. rewrite key_tid_spec by done. done.
    + intros k l k' l' (n & Hn & -> & ->) (n' & Hn' & -> & ->) _. unfold cid_compare.
      rewrite !key_tid_spec by done. cbn [ksame tid_spec content_spec]. rewrite !tid_content. eexists. split; [reflexivity|].
      case_cmp; symmetry; [apply bool_decide_eq_false_2..|apply bool_decide_eq_true_2].
      1, 2: intros [_ E%tid_bytes_inj]; [lia|done..]. split; [done|]. by replace n with n' by lia.
  - intros t Ht. split_and!; [by exists t|done|done].
  - intros t t' Ht Ht'. cbn [ksame tid_spec content_spec tid_key fst snd]. rewrite !(tid_content t), !(tid_content t'), bool_decide_eq_true.
    split; [intros [_ H]; by apply tid_bytes_inj|by intros ->].
Defined.

(** The history of invitations: a C string in an array. *)

Definition string_dom (s : bytes) : Prop := nul_free s /\ s <> [].
Definition string_key (s : bytes) : option bytes * Z := (Some (s ++ [0]), zlen s).
Definition history_spec :=
  content_spec (fun k l => exists s r, nul_free s /\ k = Some (s ++ 0 :: r) /\ l = zlen s) string_hash.

Lemma string_content s r : key_content (Some (s ++ r)) (zlen s) = s.
Proof. by apply ztake_app_len. Qed.

Definition history_table : NodeTable bytes.
Proof.
  refine {| nt_hash := default_hash_code; nt_compare := hid_compare; nt_dom := string_dom; nt_key := string_key;
            nt_spec := history_spec |}.
  - apply content_laws, string_hash_range.
  - intros t Hh Hc. split; rewrite ?Hh, ?Hc.
    + intros k l (s & r & Hs & -> & ->). apply default_hash_string. zlen_lia.
    + intros k l k' l' (s & r & Hs & -> & ->) (s' & r' & Hs' & -> & ->) _. unfold hid_compare, key_string_length.
      rewrite !strlen_string by done. bind_simpl. rewrite !Z.eqb_refl. cbn [c_assert andb bool_decide]. bind_simpl.
      cbn [ksame history_spec content_spec]. rewrite !string_content.
      destruct (strcmp_string s s' r r' Hs Hs') as (c & -> & Ec).
      case_cmp; eexists; (split; [reflexivity|]); rewrite ?Ec; apply bool_decide_ext || (symmetry; apply bool_decide_eq_false_2);
        try lia. split; [intros ->|]; tauto.
  - intros s [Hs Hn]. split_and!; [by exists s, []|done|]. cbn. unfold zlen. destruct s; [done|cbn; lia].
  - intros s s' [Hs _] [Hs' _]. cbn [ksame history_spec content_spec string_key fst snd]. rewrite !(string_content s), !(string_content s'), bool_decide_eq_true.
    split; [tauto|by intros ->].
Defined.


(** ** The linked hash table as a table of the node *)

Section NodeTables.
Context {K V Y : Type} `{EqDecision K} {C : Client Y} (T : NodeTable K) (at_ : V -> Z).
#[local] Existing Instance nt_laws.
#[local] Instance table_spec : KeySpec (option bytes) := nt_spec T.
#[local] Instance table_laws : KeyLaws (option bytes) := nt_laws K T.
Implicit Types (m : list (K * V)) (w : hworld (option bytes) Y).

Inductive table_op := TablePut (k : K) (v : V) | TableGet (k : K) | TableExist (k : K) | TableRemove (k : K) | TableClear.

(** The call that is made. *)
Definition table_call (o : table_op) : op :=
  match o with
  | TablePut k v => Put (fst (nt_key T k)) (snd (nt_key T k)) (at_ v)
  | TableGet k => Get (fst (nt_key T k)) (snd (nt_key T k))
  | TableExist k => Exist (fst (nt_key T k)) (snd (nt_key T k))
  | TableRemove k => Remove (fst (nt_key T k)) (snd (nt_key T k))
  | TableClear => Clear
  end.

(** The result and the map that are meant. *)
Definition table_next (o : table_op) m : Z * list (K * V) :=
  match o with
  | TablePut k v => (at_ v, table_put k v m)
  | TableGet k => (default 0 (at_ <$> table_get k m), m)
  | TableExist k => (Z.b2z (table_exist k m), m)
  | TableRemove k => (default 0 (at_ <$> table_get k m), table_remove k m)
  | TableClear => (0, [])
  end.

Definition op_dom (o : table_op) : Prop :=
  match o with TablePut k _ | TableGet k | TableExist k | TableRemove k => nt_dom T k | TableClear => True end.

Notation entries := (fmap (entry (nt_key T) at_)).

Lemma nt_enc_same k k' : nt_dom T k -> nt_dom T k' ->
  ksame (fst (nt_key T k)) (snd (nt_key T k)) (fst (nt_key T k')) (snd (nt_key T k')) = bool_decide (k = k').
Proof.
  intros Hk Hk'. pose proof (nt_same _ T k k' Hk Hk') as H.
  destruct (ksame _ _ _ _) eqn:E; symmetry; [by apply bool_decide_eq_true_2, H|].
  apply bool_decide_eq_false_2. intros Ek. apply H in Ek. unfold table_spec in E. congruence.
Qed.

Lemma table_call_spec o m : op_dom o -> Forall (nt_dom T) m.*1 ->
  fst (spec (table_call o) (entries m)) = fst (table_next o m) /\
  snd (spec (table_call o) (entries m)) = entries (snd (table_next o m)).
Proof.
  intros Ho Hm. destruct o as [k v|k|k|k|]; cbn [table_call spec table_next op_dom fst snd] in *; [| | | |done].
  - destruct (entries_refine (nt_dom T) (nt_key T) at_ nt_enc_same k v m Ho Hm) as (H1 & H2 & H3).
    split; [done|exact H2].
  - destruct m as [|p m0]; [done|].
    destruct (entries_refine (nt_dom T) (nt_key T) at_ nt_enc_same k (snd p) (p :: m0) Ho Hm) as (H1 & _). by rewrite H1.
  - destruct m as [|p m0]; [done|].
    destruct (entries_refine (nt_dom T) (nt_key T) at_ nt_enc_same k (snd p) (p :: m0) Ho Hm) as (H1 & _).
    split; [|done]. unfold table_exist. destruct (alookup _ _ _), (table_get k _); cbn in H1; try discriminate H1; done.
  - destruct m as [|p m0]; [done|].
    destruct (entries_refine (nt_dom T) (nt_key T) at_ nt_enc_same k (snd p) (p :: m0) Ho Hm) as (H1 & _ & H3).
    split; [by rewrite H1|exact H3].
Qed.

(** The table that friends_create, transacted_callbacks_create and
    transaction_history_create make. *)
Lemma node_table_create w dh dc : 0 <= brk (w_heap w) ->
  exists p w', hashtable_create dh dc true 0 32 1 (Some (nt_hash T)) (Some (nt_compare T)) w = Ok (p, w') /\ p <> 0 /\
    rep w' [].
Proof.
  intros Hb.
  destruct (hashtable_create_spec w dh dc 32 1 (Some (nt_hash T)) (Some (nt_compare T))) as (p & w' & E & Hp & HR & _);
    [done|lia|by apply (nt_fns _ T)|]. by exists p, w'.
Qed.

Lemma holds_empty w : rep w [] -> holds w (entries []).
Proof. intros HR. split; [done|]. intros k n d H. by apply elem_of_nil in H. Qed.

(** C22. Each of the three tables of a node (friends by their number, callbacks by
    transaction, the history of invitations by name) is a map with its keys in
    insertion order: from a linked hash table that holds the map [m], made with the
    hash and comparison functions of the table, every operation returns, gives the
    result of the operation on [m] and leaves a table that holds the map that is
    meant. The keys are those of [nt_dom]: friend numbers below 2^16, all
    transaction identifiers, all non-empty strings. *)
Theorem node_table_refines o w m : holds w (entries m) -> Forall (nt_dom T) m.*1 -> op_dom o ->
  pre w (table_call o) (entries m) ->
  exists w', exec (table_call o) w = Ok (fst (table_next o m), w') /\ holds w' (entries (snd (table_next o m))).
Proof.
  intros Hh Hm Ho Hp. destruct (exec_refines (table_call o) w (entries m) Hh Hp) as (w' & E & Hh').
  destruct (table_call_spec o m Ho Hm) as [E1 E2]. rewrite E1 in E. rewrite E2 in Hh'. by exists w'.
Qed.

End NodeTables.

(** ** A run: one friend in a new table *)

#[local] Existing Instance unit_client.
#[local] Instance demo_spec : KeySpec (option bytes) := friend_spec.
#[local] Instance demo_laws : KeyLaws (option bytes) := nt_laws Z friends_table.

Definition demo_table : hworld (option bytes) unit :=
  match hashtable_create default_hash_code default_key_compare true 0 32 1
    (Some default_hash_code) (Some friendid_compare) no_table with
  | Ok r => snd r
  | _ => no_table
  end.

(** A friend's object, with its number as the key. *)
Definition demo_friend (n : Z) (w : hworld (option bytes) unit) : Z * hworld (option bytes) unit :=
  let '(p, w) := rc_zalloc true 64 None w in
  (p, with_ents (<[p + 8 := mkHashEntry (Some (le 4 n)) 4 p 0 0 0 0]> (ents w)) w).

Lemma demo_holds : holds (snd (demo_friend 7 demo_table)) [].
Proof.
  destruct (node_table_create (C := unit_client) friends_table no_table default_hash_code default_key_compare)
    as (p & w' & E & _ & HR); [by vm_compute|].
  assert (demo_table = w') as <- by (unfold demo_table; cbn [nt_hash nt_compare friends_table] in E; by rewrite E).
  split; [|intros k n d H%elem_of_nil; done].
  apply (rep_empty demo_table _ 0); [by exists []|reflexivity|].
  eapply ring_empty; [vm_compute; reflexivity|done|done].
Qed.

Lemma node_table_refines_witness :
  let p := fst (demo_friend 7 demo_table) in
  exists w, exec (Put (Some (le 4 7)) 4 p) (snd (demo_friend 7 demo_table)) = Ok (p, w) /\ holds w [(Some (le 4 7), 4, p)].
Proof.
  intros p. apply (node_table_refines friends_table (fun a : Z => a) (TablePut 7 p) (snd (demo_friend 7 demo_table)) []);
    [apply demo_holds|constructor|cbn; unfold friend_dom; lia|].
  split; [|intros f q y; by exists y]. split.
  - vm_compute. intros H. apply list_elem_of_singleton in H. discriminate H.
  - vm_compute. discriminate.
  - eexists. split; [vm_compute; reflexivity|]. split_and!; vm_compute; reflexivity.
  - split; [exists 7; unfold friend_dom; split; [lia|done]|done].
  - exists 1, None. split; [|lia]. split; [vm_compute; discriminate|]. split; [lia|]. vm_compute. reflexivity.
  - vm_compute. reflexivity.
Defined.

(** Friend numbers 256 and 2031616 have the same hash value, and the bytes of both
    start with a zero, at which the comparison stops: a table takes them for one. *)
Example friend_numbers_collide :
  (default_hash_code (Some (le 4 256)) 4, friendid_compare (Some (le 4 256)) 4 (Some (le 4 2031616)) 4) =
  (default_hash_code (Some (le 4 2031616)) 4, Ok 0).
Proof. vm_compute. reflexivity. Qed.

(** The comparison of two equal friend numbers none of whose bytes is zero goes
    beyond their memory. *)
Example friend_number_overrun : friendid_compare (Some (le 4 0x01010101)) 4 (Some (le 4 0x01010101)) 4 = Undef.
Proof. vm_compute. reflexivity. Qed.

End Tables.
