(* ===== verification/Forwarding.v ===== *)
(** * Port forwarding

    src/src/session/portforwarding.c with portforwardings.h, services.h, fdset.c and the
    sockets of src/src/common/socket.c: TCP connections that are carried over the
    channels of a multiplexer. The service of one side is a host and a port to connect
    to when the peer opens a channel, a forwarding a listening socket of the other side
    that opens a channel for each connection. The worker is a client of the multiplexer
    (Mux.v) and its environment: the instance [forwarder_env]. The calls of the system
    are a type class; locks are taken to succeed. *)

From Stdlib Require Import ZArith Lia.
From stdpp Require Import prelude gmap sets list.
From S2P Require Import Prelude Bitset IdsHeap FlexBuffer RcMem Rings Hashtable Mux CStr Tables.

(** ** src/src/common/socket.c *)

Module Socket.

Definition INVALID_SOCKET : Z := -1.
Definition SOCK_STREAM : Z := 1.
Definition SOCK_DGRAM : Z := 2.

(** The calls of the system. An address of [getaddrinfo] is kept as the system has it;
    the arguments of [getaddrinfo] are the host, the port, the type and whether the
    address is to be bound, its results the code and the list. [send] and [recv] return
    what they do on a socket, -1 for an error. *)
Class Posix (K : Type) := {
  addrinfo : Type;
  getaddrinfo : bytes -> bytes -> Z -> bool -> K -> Z * list addrinfo * K;
  socket : addrinfo -> K -> Z * K;
  bind : Z -> addrinfo -> K -> Z * K;
  connect : Z -> addrinfo -> K -> Z * K;
  listen : Z -> Z -> K -> Z * K;
  accept : Z -> K -> Z * K;
  send : Z -> bytes -> K -> Z * K;
  recv : Z -> Z -> K -> Z * bytes * K;
  close : Z -> K -> K;
  eventfd : K -> Z * K;
  socket_errno : K -> Z;
}.

Section Socket.
Context {K : Type} {PX : Posix K}.

Definition socket_close (s : Z) (k : K) : K := close s k.

(** The loop over the addresses, with the call that has to succeed. *)
Fixpoint first_address (use : Z -> addrinfo -> K -> Z * K) (l : list addrinfo) (sock : Z) (k : K) : Z * K :=
  match l with
  | [] => (sock, k)
  | a :: l =>
      let '(sock, k) := socket a k in
      if sock =? INVALID_SOCKET then first_address use l sock k
      else
        let '(rc, k) := use sock a k in
        if negb (rc =? 0) then first_address use l INVALID_SOCKET (socket_close sock k) else (sock, k)
  end.

(** With a host and a port. *)
Definition socket_create (type : Z) (host port : bytes) (k : K) : Z * K :=
  let '(rc, ai, k) := getaddrinfo host port type true k in
  if negb (rc =? 0) then (INVALID_SOCKET, k) else first_address bind ai INVALID_SOCKET k.

Definition socket_connect (host port : bytes) (k : K) : Z * K :=
  let '(rc, ai, k) := getaddrinfo host port SOCK_STREAM false k in
  if negb (rc =? 0) then (INVALID_SOCKET, k) else first_address connect ai INVALID_SOCKET k.

End Socket.

End Socket.

Module Forwarding.
Import RcMem Hashtable Mux CStr Tables Socket.

Definition MAX_PORTFORWARDING_ID : Z := 64.
Definition PortForwardingProtocol_TCP : Z := 1.
Definition IOEXERR_ALREADY_EXIST : Z := 0x0C.
Definition IOEX_SYS_ERROR (code : Z) : Z := IOEX_MK_ERROR 2 code.
Definition FD_SETSIZE : Z := 1024.
Definition EINVAL : Z := 22.

(** ** Data

    [event] wakes the thread that waits; [wakeups] is the number in it. *)
Record FdSet := mkFdSet { rfds : gset Z; event : Z; wakeups : Z }.

Record Service := mkService { svc_protocol : Z; svc_host : bytes; svc_port : bytes }.

Record PortForwarding := mkForwarding { pf_protocol : Z; pf_sock : Z; pf_service : bytes }.

(** The worker, with the system and the surroundings of the multiplexer [os], the
    services of the session, and the field [sock] of the channels of TCP connections, by
    the channel's identifier: the callbacks are given the identifier, and the
    multiplexer's own copy of the field is only written. The tables are maps in insertion
    order, which their keys and the theorem on hash tables justify. [aborted] is set when
    an assertion fails, a descriptor is beyond a set of descriptors or a payload is read
    past its end: nothing after that is what the program does. *)
Record forwarder (K : Type) := mkForwarder {
  os : K; fdset : FdSet; running : bool; portforwardings : list (Z * PortForwarding); pf_ids : IdsHeap.IdsHeap;
  services : option (list (bytes * Service)); channel_sock : gmap Z Z; aborted : bool }.
Arguments mkForwarder {K} _ _ _ _ _ _ _ _.
Arguments os {K} _.
Arguments fdset {K} _.
Arguments running {K} _.
Arguments portforwardings {K} _.
Arguments pf_ids {K} _.
Arguments services {K} _.
Arguments channel_sock {K} _.
Arguments aborted {K} _.

Section Forwarding.
Context {K : Type} {KE : Env K} {PX : Posix K}.
Implicit Types e : forwarder K.

Definition with_os (k : K) e := mkForwarder k (fdset e) (running e) (portforwardings e) (pf_ids e) (services e) (channel_sock e) (aborted e).
Definition with_fdset f e := mkForwarder (os e) f (running e) (portforwardings e) (pf_ids e) (services e) (channel_sock e) (aborted e).
Definition with_running b e := mkForwarder (os e) (fdset e) b (portforwardings e) (pf_ids e) (services e) (channel_sock e) (aborted e).
Definition with_forwardings l e := mkForwarder (os e) (fdset e) (running e) l (pf_ids e) (services e) (channel_sock e) (aborted e).
Definition with_pf_ids i e := mkForwarder (os e) (fdset e) (running e) (portforwardings e) i (services e) (channel_sock e) (aborted e).
Definition with_services s e := mkForwarder (os e) (fdset e) (running e) (portforwardings e) (pf_ids e) s (channel_sock e) (aborted e).
Definition with_channel_sock c e := mkForwarder (os e) (fdset e) (running e) (portforwardings e) (pf_ids e) (services e) c (aborted e).
Definition abort e := mkForwarder (os e) (fdset e) (running e) (portforwardings e) (pf_ids e) (services e) (channel_sock e) true.

(** A call to the system. *)
Definition sys {A} (f : K -> A * K) e : A * forwarder K := let '(a, k) := f (os e) in (a, with_os k e).
Definition sys_ (f : K -> K) e : forwarder K := with_os (f (os e)) e.

(** ** fdset.c *)

Definition fdset_wakeup (f : FdSet) : FdSet := mkFdSet (rfds f) (event f) (wakeups f + 1).
Definition fdset_drop_wakeup (f : FdSet) : FdSet := mkFdSet (rfds f) (event f) 0.

(** [FD_SET], [FD_CLR] and [FD_ISSET] read and write the bit of the descriptor. *)
Definition fd_in_range (s : Z) : bool := (0 <=? s) && (s <? FD_SETSIZE).

Definition fdset_init e : outcome (Z * forwarder K) :=
  let '(ev, e) := sys eventfd e in
  let f := mkFdSet ∅ ev 0 in
  if ev <? 0 then Ok (socket_errno (os e), with_fdset f e)
  else if negb (fd_in_range ev) then Undef
  else Ok (0, with_fdset (mkFdSet {[ev]} ev 0) e).

Definition fdset_add_socket (s : Z) e : outcome (Z * forwarder K) :=
  if s =? INVALID_SOCKET then Ok (EINVAL, e)
  else if negb (fd_in_range s) then Undef
  else
    let f := fdset e in
    Ok (0, if negb (bool_decide (s ∈ rfds f)) then with_fdset (fdset_wakeup (mkFdSet ({[s]} ∪ rfds f) (event f) (wakeups f))) e else e).

Definition fdset_remove_socket (s : Z) e : outcome (Z * forwarder K) :=
  if s =? INVALID_SOCKET then Ok (EINVAL, e)
  else if negb (fd_in_range s) then Undef
  else
    let f := fdset e in
    Ok (0, if bool_decide (s ∈ rfds f) then with_fdset (fdset_wakeup (mkFdSet (rfds f ∖ {[s]}) (event f) (wakeups f))) e else e).

Definition fdset_copy e : gset Z := rfds (fdset e).

Definition fdset_destroy e : forwarder K :=
  let f := fdset e in
  let e := with_fdset (mkFdSet (rfds f) INVALID_SOCKET (wakeups f)) e in
  if event f =? INVALID_SOCKET then e else sys_ (close (event f)) e.

(** ** Services *)

(** Names are compared up to their terminators. *)
Definition services_key_compare (key1 : bytes) (len1 : Z) (key2 : bytes) (len2 : Z) : outcome Z := strcmp key1 key2.

(** [Some] of the memory of [services_create], when there is memory. *)
Definition services_create (ok : bool) : option (list (bytes * Service)) := if ok then Some [] else None.
Definition services_put (name : bytes) (s : Service) (m : list (bytes * Service)) := table_put name s m.
Definition services_get (name : bytes) (m : list (bytes * Service)) : option Service := table_get name m.
Definition services_exist (name : bytes) (m : list (bytes * Service)) : bool := table_exist name m.
Definition services_remove (name : bytes) (m : list (bytes * Service)) := table_remove name m.
Definition services_is_empty (m : list (bytes * Service)) : bool := match m with [] => true | _ => false end.
Definition services_clear (m : list (bytes * Service)) : list (bytes * Service) := [].

Definition is_empty (s : option bytes) : bool := match s with Some (_ :: _) => false | _ => true end.

(** The error that is set, 0 for none. The strings are without their terminators. *)
Definition IOEX_session_add_service (ws : Z) (service : option bytes) (protocol : Z) (host port : option bytes) e : Z * Z * forwarder K :=
  if (ws =? 0) || is_empty service || is_empty host || is_empty port || negb (protocol =? PortForwardingProtocol_TCP) then
    (-1, IOEX_GENERAL_ERROR IOEXERR_INVALID_ARGS, e)
  else
    let name := default [] service in
    let '(created, e) :=
      match services e with
      | Some m => (true, e)
      | None => let '(ok, e) := sys malloc_ok e in (ok, with_services (services_create ok) e)
      end in
    match services e with
    | None => (-1, IOEX_GENERAL_ERROR IOEXERR_OUT_OF_MEMORY, e)
    | Some m =>
        if services_exist name m then (-1, IOEX_GENERAL_ERROR IOEXERR_ALREADY_EXIST, e)
        else
          let '(ok, e) := sys malloc_ok e in
          if negb ok then (-1, IOEX_GENERAL_ERROR IOEXERR_OUT_OF_MEMORY, e)
          else (0, 0, with_services (Some (services_put name (mkService protocol (default [] host) (default [] port)) m)) e)
    end.

(** The error that is set. Dropping the reference of a service that is not there does
    nothing. *)
Definition IOEX_session_remove_service (ws : Z) (service : option bytes) e : Z * forwarder K :=
  if (ws =? 0) || is_empty service then (IOEX_GENERAL_ERROR IOEXERR_INVALID_ARGS, e)
  else
    match services e with
    | Some m => (0, with_services (Some (services_remove (default [] service) m)) e)
    | None => (0, e)
    end.

(** ** The callbacks of a channel

    A channel is given by its identifier; the cookie is the payload of the open request,
    which is read up to a terminator. *)

Definition sock_of_channel (cid : Z) e : Z := default 0 (channel_sock e !! cid).

Definition tcp_portforwarding_channel_open (cid : Z) (cookie : option bytes) e : outcome (bool * forwarder K) :=
  _ ← c_assert 60 (match cookie with Some c => negb (bool_decide (znth c 0 = Some 0)) | None => false end);
  match cookie with
  | None => Ok (false, e)
  | Some c =>
      match services e with
      | None => Ok (false, e)
      | Some m =>
          n ← strlen c;
          match services_get (ztake n c) m with
          | None => Ok (false, e)
          | Some svc =>
              if negb (svc_protocol svc =? PortForwardingProtocol_TCP) then Ok (false, e)
              else
                let '(sock, e) := sys (socket_connect (svc_host svc) (svc_port svc)) e in
                if sock =? INVALID_SOCKET then Ok (false, e)
                else Ok (true, with_channel_sock (<[cid := sock]> (channel_sock e)) e)
          end
      end
  end.

Definition tcp_portforwarding_channel_opened (cid : Z) e : outcome (forwarder K) :=
  r ← fdset_add_socket (sock_of_channel cid e) e; Ok (snd r).

(** The reason is one of three names. *)
Definition tcp_portforwarding_channel_close (cid reason : Z) e : outcome (forwarder K) :=
  if negb ((0 <=? reason) && (reason <? 3)) then Undef
  else
    let sock := sock_of_channel cid e in
    r ← fdset_remove_socket sock e;
    Ok (sys_ (socket_close sock) (snd r)).

(** The loop; a socket takes at most the bytes that it is given, and at least one. *)
Fixpoint send_all (fuel : nat) (sock : Z) (buf : bytes) e : outcome (bool * forwarder K) :=
  match buf with
  | [] => Ok (true, e)
  | _ =>
      match fuel with
      | O => NoFuel
      | S fuel =>
          let '(rc, e) := sys (send sock buf) e in
          if rc <=? 0 then Ok (false, e) else send_all fuel sock (zdrop rc buf) e
      end
  end.

Definition tcp_portforwarding_channel_data (cid : Z) (buf : bytes) e : outcome (bool * forwarder K) :=
  _ ← c_assert 157 (nonzero (zlen buf));
  send_all (length buf) (sock_of_channel cid e) buf e.

Definition tcp_portforwarding_channel_pending (cid : Z) e : outcome (forwarder K) :=
  r ← fdset_remove_socket (sock_of_channel cid e) e; Ok (snd r).

Definition tcp_portforwarding_channel_resume (cid : Z) e : outcome (forwarder K) :=
  r ← fdset_add_socket (sock_of_channel cid e) e; Ok (snd r).

(** What the multiplexer's environment sees of a call that may abort the process. *)
Definition or_abort {A} (d : A) (f : forwarder K -> outcome (A * forwarder K)) e : A * forwarder K :=
  if aborted e then (d, e) else match f e with Ok r => r | _ => (d, abort e) end.

Definition or_abort_ (f : forwarder K -> outcome (forwarder K)) e : forwarder K :=
  if aborted e then e else match f e with Ok r => r | _ => abort e end.

Definition tcp_portforwarding_callbacks : ChannelCallbacks (forwarder K) :=
  mkCallbacks (Some (fun cid cookie => or_abort false (tcp_portforwarding_channel_open cid cookie)))
    (Some (fun cid => or_abort_ (tcp_portforwarding_channel_opened cid)))
    (Some (fun cid reason => or_abort_ (tcp_portforwarding_channel_close cid reason)))
    (Some (fun cid buf => or_abort false (tcp_portforwarding_channel_data cid buf)))
    (Some (fun cid => or_abort_ (tcp_portforwarding_channel_pending cid)))
    (Some (fun cid => or_abort_ (tcp_portforwarding_channel_resume cid))).

(** ** The forwardings *)

Definition portforwardings_hash_code (key len : Z) : outcome Z := Ok (u32 key).
Definition portforwardings_key_compare (key1 len1 key2 len2 : Z) : outcome Z := Ok (if u32 key1 =? u32 key2 then 0 else 1).

Definition portforwardings_get (pfid : Z) (m : list (Z * PortForwarding)) : option PortForwarding := table_get pfid m.
Definition portforwardings_exist (pfid : Z) (m : list (Z * PortForwarding)) : bool := table_exist pfid m.
Definition portforwardings_is_empty (m : list (Z * PortForwarding)) : bool := match m with [] => true | _ => false end.
Definition portforwardings_clear (m : list (Z * PortForwarding)) : list (Z * PortForwarding) := [].
Definition portforwardings_put (pfid : Z) (pf : PortForwarding) (m : list (Z * PortForwarding)) := table_put pfid pf m.
Definition portforwardings_remove (pfid : Z) (m : list (Z * PortForwarding)) := table_remove pfid m.

(** The last reference of a forwarding. *)
Definition portforwarding_destroy (sock : Z) e : forwarder K := if sock =? INVALID_SOCKET then e else sys_ (socket_close sock) e.

Definition portforwarding_open (service : bytes) (protocol : Z) (host port : bytes) e : outcome (Z * forwarder K) :=
  _ ← c_assert 423 (protocol =? PortForwardingProtocol_TCP);
  let '(ok, e) := sys malloc_ok e in
  if negb ok then Ok (IOEX_GENERAL_ERROR IOEXERR_OUT_OF_MEMORY, e)
  else
    let type := if protocol =? PortForwardingProtocol_TCP then SOCK_STREAM else SOCK_DGRAM in
    let '(sock, e) := sys (socket_create type host port) e in
    if sock =? INVALID_SOCKET then Ok (IOEX_SYS_ERROR (socket_errno (os e)), e)
    else
      let '(rc, e) := if protocol =? PortForwardingProtocol_TCP then sys (listen sock 16) e else (0, e) in
      if rc <? 0 then
        let e := portforwarding_destroy sock e in
        Ok (IOEX_SYS_ERROR (socket_errno (os e)), e)
      else
        r ← IdsHeap.ids_heap_alloc 0 (pf_ids e);
        let '(id, ids) := r in
        let e := with_pf_ids ids e in
        if id <? 0 then Ok (IOEX_GENERAL_ERROR IOEXERR_LIMIT_EXCEEDED, portforwarding_destroy sock e)
        else
          let e := with_forwardings (portforwardings_put id (mkForwarding protocol sock service) (portforwardings e)) e in
          r ← fdset_add_socket sock e;
          Ok (id, snd r).

Definition portforwarding_close (pfid : Z) e : outcome (forwarder K) :=
  _ ← c_assert 472 (0 <? pfid);
  match table_get pfid (portforwardings e) with
  | None => Ok e
  | Some pf =>
      let e := with_forwardings (portforwardings_remove pfid (portforwardings e)) e in
      _ ← c_assert 476 (negb (pf_sock pf =? INVALID_SOCKET));
      r ← fdset_remove_socket (pf_sock pf) e;
      let e := sys_ (socket_close (pf_sock pf)) (snd r) in
      r ← IdsHeap.ids_heap_free 0 (pf_ids e) pfid;
      Ok (with_pf_ids (snd r) e)
  end.

(** ** The worker *)

(** Whether the thread could be created. *)
Definition portforwarding_worker_start (rc : Z) e : Z * forwarder K := (if negb (rc =? 0) then IOEX_SYS_ERROR rc else 0, e).

Definition portforwarding_worker_stop e : forwarder K := with_fdset (fdset_wakeup (fdset e)) (with_running false e).

Definition close_forwardings e : forwarder K :=
  with_forwardings [] (foldl (fun e p => portforwarding_destroy (pf_sock p.2) e) e (portforwardings e)).

Definition portforwarding_worker_destroy e : forwarder K := fdset_destroy (close_forwardings e).

(** The results of the allocations, of the lock of the identifiers and of the table. *)
Record worker_results := mkWorkerResults { worker_ok : bool; forwardings_ok : bool; pf_ids_lock : Z }.

Definition portforwarding_worker_create (r : worker_results) e : outcome (Z * forwarder K) :=
  if negb (worker_ok r) then Ok (IOEX_GENERAL_ERROR IOEXERR_OUT_OF_MEMORY, e)
  else
    t ← fdset_init e;
    let '(rc, e) := t in
    if negb (rc =? 0) then Ok (IOEX_SYS_ERROR rc, fdset_destroy e)
    else if negb (forwardings_ok r) then Ok (IOEX_GENERAL_ERROR IOEXERR_OUT_OF_MEMORY, fdset_destroy e)
    else
      let e := with_forwardings [] e in
      let '(rc, ids) := IdsHeap.ids_heap_init (pf_ids_lock r) (pf_ids e) MAX_PORTFORWARDING_ID in
      if rc <? 0 then Ok (IOEX_GENERAL_ERROR IOEXERR_OUT_OF_MEMORY, portforwarding_worker_destroy e)
      else Ok (0, with_pf_ids ids e).

(** ** The worker as a part of the multiplexer *)

#[export] Instance forwarder_env : Env (forwarder K) := {
  next_write d := sys (next_write d);
  next_start := sys next_start;
  next_stop error := sys_ (next_stop error);
  prev_on_data d := sys_ (prev_on_data d);
  prev_on_state_changed state := sys_ (prev_on_state_changed state);
  gettimeofday := sys gettimeofday;
  malloc_ok := sys malloc_ok;
  create_timer interval e := let '(rc, t, k) := create_timer interval (os e) in (rc, t, with_os k e);
  destroy_timer t := sys_ (destroy_timer t);
  worker_start e := let '(rc, e) := sys worker_start e in portforwarding_worker_start rc e;
  worker_stop e := sys_ worker_stop (portforwarding_worker_stop e);
  worker_open service protocol host port := or_abort 0 (portforwarding_open service protocol host port);
  worker_close pfid := or_abort_ (portforwarding_close pfid);
  worker_deref := portforwarding_worker_destroy;
  next_deref := sys_ next_deref;
}.

Notation W := (hworld Z (MultiplexHandler (forwarder K))).
Implicit Types w : W.

Definition worker_of w : forwarder K := Mux.env (client w).

(** The channel's socket is ready. *)
Definition handle_tcp_portforwarding_channel (cid sock : Z) w : outcome W :=
  let buf := FlexBuffer.flex_buffer 0 FlexBuffer.FLEX_BUFFER_MAX_LEN FlexBuffer.FLEX_PADDING_LEN in
  let '((n, data), w) := ask (fun e => let '(n, d, k) := recv sock FlexBuffer.IOEX_MAX_USER_DATA_LEN (os e) in (n, d, with_os k e)) w in
  if n <=? 0 then r ← multiplex_handler_close_channel cid w; Ok (snd r)
  else
    buf ← FlexBuffer.flex_buffer_mutable_ptr buf 0 data;
    r ← multiplex_handler_write_channel cid (FlexBuffer.flex_buffer_set_size buf n) w;
    Ok (snd r).

(** A forwarding's socket is ready: the connection gets a channel of its own. *)
Definition handle_tcp_portofrwarding (pf : PortForwarding) w : outcome W :=
  let '(sock, w) := ask (sys (accept (pf_sock pf))) w in
  if sock <? 0 then Ok w
  else
    r ← multiplex_handler_open_channel ChannelType_TCP_PortForwarding (Some (pf_service pf)) 0 sock w;
    let '(cid, w) := r in
    Ok (tell (if cid <=? 0 then sys_ (socket_close sock) else fun e => with_channel_sock (<[cid := sock]> (channel_sock e)) e) w).

(** The loop over the channels, [nfds] descriptors of [ready] being left; a change of the
    table starts it again. *)
Fixpoint scan_channels (fuel : nat) (it : HashtableIterator) (nfds : Z) (ready : gset Z) w : outcome (Z * gset Z * W) :=
  if nfds <=? 0 then Ok (nfds, ready, w)
  else
    more ← channels_iterator_has_next it w;
    if negb more then Ok (nfds, ready, w)
    else
      match fuel with
      | O => NoFuel
      | S fuel =>
          r ← channels_iterator_next it w;
          let '(rc, p, it, w) := r in
          if rc =? 0 then Ok (nfds, ready, w)
          else if rc <? 0 then it ← channels_iterate w; scan_channels fuel it nfds ready w
          else
            ch ← chan p w;
            let sock := sock_of_channel (id ch) (worker_of w) in
            let tcp := type ch =? ChannelType_TCP_PortForwarding in
            let w := if tcp && negb (fd_in_range sock) then tell abort w else w in
            if tcp && bool_decide (sock ∈ ready) then
              w ← handle_tcp_portforwarding_channel (id ch) sock w;
              w ← deref p w;
              scan_channels fuel it (nfds - 1) (ready ∖ {[sock]}) w
            else
              w ← deref p w;
              scan_channels fuel it nfds ready w
      end.

(** The loop over the forwardings, whose table does not change in it. *)
Fixpoint scan_forwardings (l : list (Z * PortForwarding)) (nfds : Z) (ready : gset Z) w : outcome W :=
  match l with
  | [] => Ok w
  | (_, pf) :: l =>
      if nfds <=? 0 then Ok w
      else if negb (bool_decide (pf_sock pf ∈ ready)) then scan_forwardings l nfds ready w
      else
        w ← (if pf_protocol pf =? PortForwardingProtocol_TCP then handle_tcp_portofrwarding pf w else Ok w);
        scan_forwardings l (nfds - 1) (ready ∖ {[pf_sock pf]}) w
  end.

(** The answer of [select]. *)
Inductive selected := Ready (fds : gset Z) | Timeout | Interrupted (error : Z).

Definition EBADF : Z := 9.

(** One turn of the worker: whether it goes on. Of the descriptors that are ready only
    those that it waits for are told. *)
Definition worker_round (fuel : nat) (s : selected) w : outcome (bool * W) :=
  let rfds := fdset_copy (worker_of w) in
  match s with
  | Interrupted error => Ok (error =? EBADF, w)
  | Timeout => Ok (true, w)
  | Ready fds =>
      let ready := fds ∩ rfds in
      let nfds := Z.of_nat (size ready) in
      if nfds =? 0 then Ok (true, w)
      else
        let ev := event (fdset (worker_of w)) in
        let '(nfds, ready, w) :=
          if bool_decide (ev ∈ ready) then (nfds - 1, ready ∖ {[ev]}, tell (fun e => with_fdset (fdset_drop_wakeup (fdset e)) e) w)
          else (nfds, ready, w) in
        it ← channels_iterate w;
        r ← scan_channels fuel it nfds ready w;
        let '(nfds, ready, w) := r in
        w ← scan_forwardings (portforwardings (worker_of w)) nfds ready w;
        Ok (true, w)
  end.

(** The worker for the answers of [select]; another thread may have stopped it. *)
Fixpoint worker_loop (fuel : nat) (l : list selected) w : outcome W :=
  if negb (running (worker_of w)) then Ok w
  else
    match l with
    | [] => NoFuel
    | s :: l =>
        r ← worker_round fuel s w;
        if (fst r : bool) then worker_loop fuel l (snd r) else Ok (snd r)
    end.

Definition worker_routine (fuel : nat) (l : list selected) w : outcome W :=
  w ← worker_loop fuel l (tell (with_running true) w);
  Ok (tell (with_running false) w).

End Forwarding.

End Forwarding.
