(* ===== verification/ForwardingRun.v ===== *)
(** * Port forwarding, a run

    A system with sockets that can be looked at, two workers on it, and a connection that
    is carried from one to the other: used by the witnesses of ForwardingThm.v. *)

From Stdlib Require Import ZArith Lia.
From stdpp Require Import prelude gmap sets list.
From S2P Require Import Prelude Bitset IdsHeap FlexBuffer RcMem Rings Hashtable Mux MuxRun MuxFraming CStr Tables Forwarding.

Module ForwardingRun.
Import RcMem Hashtable Mux MuxRun MuxFraming CStr Tables Socket Forwarding.

(** ** The system *)

(** Packets are kept by the recorder of MuxRun.v; [waiting] is what sockets have to be
    read, [taken_] what has been sent on them, three bytes at a time; [next_fd] is the
    next descriptor. *)
Record machine := mkMachine { rec : recorder; waiting : list (Z * bytes); taken_ : list (Z * bytes); closed : list Z; next_fd : Z }.

Definition with_rec (r : recorder) (k : machine) : machine := mkMachine r (waiting k) (taken_ k) (closed k) (next_fd k).

Definition on_rec {A} (f : recorder -> A * recorder) (k : machine) : A * machine := let '(a, r) := f (rec k) in (a, with_rec r k).
Definition on_rec_ (f : recorder -> recorder) (k : machine) : machine := with_rec (f (rec k)) k.

#[export] Instance machine_env : Env machine := {
  next_write d := on_rec (next_write d);
  next_start := on_rec next_start;
  next_stop error := on_rec_ (next_stop error);
  prev_on_data d := on_rec_ (prev_on_data d);
  prev_on_state_changed state := on_rec_ (prev_on_state_changed state);
  gettimeofday := on_rec gettimeofday;
  malloc_ok := on_rec malloc_ok;
  create_timer interval k := let '(rc, t, r) := create_timer interval (rec k) in (rc, t, with_rec r k);
  destroy_timer t := on_rec_ (destroy_timer t);
  worker_start := on_rec worker_start;
  worker_stop := on_rec_ worker_stop;
  worker_open s p h q := on_rec (worker_open s p h q);
  worker_close i := on_rec_ (worker_close i);
  worker_deref := on_rec_ worker_deref;
  next_deref := on_rec_ next_deref;
}.

Definition new_fd (k : machine) : Z * machine := (next_fd k, mkMachine (rec k) (waiting k) (taken_ k) (closed k) (next_fd k + 1)).

#[export] Instance machine_posix : Posix machine := {
  addrinfo := unit;
  getaddrinfo _ _ _ _ k := (0, [tt], k);
  socket _ := new_fd;
  bind _ _ k := (0, k);
  connect _ _ k := (0, k);
  listen _ _ k := (0, k);
  accept _ := new_fd;
  send s buf k := (Z.min 3 (zlen buf), mkMachine (rec k) (waiting k) (taken_ k ++ [(s, ztake (Z.min 3 (zlen buf)) buf)]) (closed k) (next_fd k));
  recv s len k :=
    match waiting k with
    | (s', d) :: rest => if s' =? s then (zlen (ztake len d), ztake len d, mkMachine (rec k) rest (taken_ k) (closed k) (next_fd k)) else (0, [], k)
    | [] => (0, [], k)
    end;
  close s k := mkMachine (rec k) (waiting k) (taken_ k) (closed k ++ [s]) (next_fd k);
  eventfd := new_fd;
  socket_errno _ := 0;
}.

(** ** Two workers *)

Notation W := (hworld Z (MultiplexHandler (forwarder machine))).

Definition web : bytes := [119; 101; 98].
Definition host : bytes := [49; 46; 50].
Definition port : bytes := [56; 48].

(** Nothing is set up. *)
Definition raw : forwarder machine :=
  mkForwarder (mkMachine (mkRec [] [] (0, 0)) [] [] [] 3) (mkFdSet ∅ 0 0) false [] (IdsHeap.mkIdsHeap 0 0 (Bitset.bitset_init 0)) None ∅ false.

(** A worker that has been created. *)
Definition worker0 : forwarder machine :=
  match portforwarding_worker_create (mkWorkerResults true true 0) raw with Ok (_, e) => e | _ => raw end.

(** The one side has a forwarding, the other the service. *)
Definition forwarding_side : forwarder machine :=
  match portforwarding_open web PortForwardingProtocol_TCP host port worker0 with Ok (_, e) => e | _ => raw end.

Definition service_side : forwarder machine :=
  (IOEX_session_add_service 1 (Some web) PortForwardingProtocol_TCP (Some host) (Some port) worker0).2.

Definition blank_with (e : forwarder machine) : W :=
  mkHworld (mkHeap ∅ 1000) ∅ (mkHashtable 0 0 0 0 channels_hash_code channels_key_compare 0 [])
    (mkMux ∅ (IdsHeap.mkIdsHeap 0 0 (Bitset.bitset_init 0)) [] true true false 0 false e).

(** A multiplexer with the worker. *)
Definition mux_with (e : forwarder machine) : W :=
  match multiplex_handler_create (mkResults true true 0 0 0) no_callbacks tcp_portforwarding_callbacks (blank_with e) with
  | Ok (_, w, _) => w
  | _ => blank_with e
  end.

(** The last packet that has been sent. *)
Definition last_sent (w : W) : bytes := List.last (sent (rec (os (worker_of w)))) [].

Definition the_forwarding : PortForwarding := mkForwarding PortForwardingProtocol_TCP 4 web.

(** A connection comes in on the forwarding's socket, the other side connects to the
    service, and its answer comes back. *)
Definition requested : outcome W := handle_tcp_portofrwarding the_forwarding (mux_with forwarding_side).

Definition served : outcome W :=
  a ← requested; r ← multiplex_handler_notify_packet (packet_buf (last_sent a)) (mux_with service_side); Ok (fst r).

Definition connected : outcome W :=
  a ← requested; b ← served; r ← multiplex_handler_notify_packet (packet_buf (last_sent b)) a; Ok (fst r).

(** Bytes arrive on a socket. *)
Definition arrive (s : Z) (d : bytes) (w : W) : W :=
  tell (fun e : forwarder machine => with_os (mkMachine (rec (os e)) (waiting (os e) ++ [(s, d)]) (taken_ (os e)) (closed (os e)) (next_fd (os e))) e) w.

(** The connection's socket has bytes; what the service's socket is sent. *)
Definition carried (d : bytes) : outcome (list (Z * bytes)) :=
  a ← connected; b ← served;
  a ← handle_tcp_portforwarding_channel 1 5 (arrive 5 d a);
  r ← multiplex_handler_notify_packet (packet_buf (last_sent a)) b;
  Ok (taken_ (os (worker_of (fst r)))).

Example carried_hello : carried [104; 101; 108; 108; 111] = Ok [(4, [104; 101; 108]); (4, [108; 111])].
Proof. vm_compute. reflexivity. Qed.

End ForwardingRun.
