(* ===== verification/ForwardingThm.v ===== *)
(** * Port forwarding, theorems

    What a channel's data is on the socket behind it, what a forwarding adds and takes
    away, and that the worker's turn over the channels ends and keeps the multiplexer in
    order. *)

From Stdlib Require Import ZArith Lia.
From stdpp Require Import prelude gmap sets list.
From S2P Require Import Prelude Bitset IdsHeap FlexBuffer RcMem Rings Hashtable HashtableThm HashtableApi Mux MuxRun MuxFraming MuxInv MuxSafe CStr Tables Forwarding ForwardingRun.

Module ForwardingThm.
Import RcMem Hashtable HashtableThm HashtableApi Mux MuxFraming MuxInv MuxSafe CStr Tables Socket Forwarding.

Section Posix.
Context {K : Type} {KE : Env K} {PX : Posix K}.
Implicit Types e : forwarder K.

(** ** Data of a channel *)

(** From [k] to [k'] the system has taken [d] on the socket, in one or more calls. *)
Inductive taken (sock : Z) : K -> bytes -> K -> Prop :=
| taken_nothing k : taken sock k [] k
| taken_some k buf rc k1 d k' : send sock buf k = (rc, k1) -> 0 < rc <= zlen buf -> taken sock k1 d k' ->
    taken sock k (ztake rc buf ++ d) k'.

(** [send] takes no more than it is given. *)
Definition send_bounded : Prop := forall sock buf k, buf <> [] -> (send sock buf k).1 <= zlen buf.

Lemma zlen_nonzero {A} (l : list A) : l <> [] -> nonzero (zlen l) = true.
Proof. destruct l; [done|]. intros _. unfold nonzero. rewrite zlen_cons. pose proof (zlen_nonneg l). by rewrite (proj2 (Z.eqb_neq _ _)) by lia. Qed.

Lemma send_all_spec (HS : send_bounded) sock fuel : forall buf e, (length buf <= fuel)%nat ->
  exists ok d e', send_all fuel sock buf e = Ok (ok, e') /\ e' = with_os (os e') e /\
    if ok : bool then d = buf /\ taken sock (os e) d (os e')
    else (exists rest, d ++ rest = buf /\ rest <> [] /\
      exists k rc, taken sock (os e) d k /\ send sock rest k = (rc, os e') /\ rc <= 0).
Proof.
  induction fuel as [|fuel IH]; intros buf e Hl; (destruct buf as [|c buf0]; [exists true, [], e; split; [done|]; split; [by destruct e|by split; [|constructor]]|]).
  { cbn in Hl. lia. }
  set (buf := c :: buf0) in *. cbn [send_all]. fold buf. unfold sys. pose proof (HS sock buf (os e) ltac:(done)) as Hb.
  destruct (send sock buf (os e)) as [rc k1] eqn:Hs. cbn [fst] in Hb. destruct (rc <=? 0) eqn:E; zify_tests.
  - exists false, [], (with_os k1 e). split; [done|]. split; [done|]. exists buf. split; [done|]. split; [done|].
    exists (os e), rc. split; [constructor|]. split; [exact Hs|done].
  - assert (length (zdrop rc buf) <= fuel)%nat as Hl2.
    { unfold zdrop. rewrite length_drop. unfold zlen in Hb. lia. }
    destruct (IH (zdrop rc buf) (with_os k1 e) Hl2) as (ok & d & e' & H & He & Hok). rewrite H.
    exists ok, (ztake rc buf ++ d), e'. split; [done|]. split; [rewrite He; done|]. destruct ok.
    + destruct Hok as [-> Ht]. rewrite ztake_zdrop. split; [done|]. rewrite <- (ztake_zdrop rc buf) at 1. by eapply taken_some.
    + destruct Hok as (rest & Hd & Hne & k & rc2 & Ht & Hsend). exists rest. rewrite <- app_assoc, Hd, ztake_zdrop. split; [done|]. split; [done|].
      exists k, rc2. split; [by eapply taken_some|done].
Qed.

(** The data of a channel goes to its socket. The callback for data always returns:
    either it says that all is well, and the system has taken exactly the bytes of the
    packet on the channel's socket, in their order, in as many calls as it took; or it
    says that it is not, the system has taken a part of them from the front, and the
    last call took nothing. Nothing else of the worker changes. *)
Theorem data_reaches_socket (cid : Z) (buf : bytes) e : send_bounded -> buf <> [] ->
  exists ok d e', tcp_portforwarding_channel_data cid buf e = Ok (ok, e') /\ e' = with_os (os e') e /\
    if ok : bool then d = buf /\ taken (sock_of_channel cid e) (os e) d (os e')
    else (exists rest, d ++ rest = buf /\ rest <> [] /\
      exists k rc, taken (sock_of_channel cid e) (os e) d k /\ send (sock_of_channel cid e) rest k = (rc, os e') /\ rc <= 0).
Proof.
  intros HS Hne. unfold tcp_portforwarding_channel_data. rewrite zlen_nonzero by done.
  cbn [c_assert mbind outcome_bind]. by apply send_all_spec.
Qed.

(** ** A forwarding is opened and closed *)

Definition forwarding_sock (p : Z * PortForwarding) : Z := pf_sock p.2.

(** The identifiers in use are the ones in the table; the sockets of the table are
    watched. *)
Record forwardings_ok e : Prop := {
  fo_ids : IdsHeap.refines (pf_ids e) (list_to_set (portforwardings e).*1);
  fo_max : IdsHeap.max_index (pf_ids e) = MAX_PORTFORWARDING_ID;
  fo_keys : NoDup (portforwardings e).*1;
  fo_socks : Forall (fun p => fd_in_range (pf_sock p.2) = true /\ pf_sock p.2 ∈ rfds (fdset e)) (portforwardings e);
}.

(** The descriptor of a new listening socket is in the range of a set of descriptors and
    not in use. *)
Definition fresh_descriptor host port e : Prop :=
  let s := (socket_create SOCK_STREAM host port (malloc_ok (os e)).2).1 in
  s = INVALID_SOCKET \/ fd_in_range s = true /\ s ∉ rfds (fdset e).

Lemma in_range_valid s : fd_in_range s = true -> (s =? INVALID_SOCKET) = false.
Proof. unfold fd_in_range, INVALID_SOCKET. intros H. destruct (0 <=? s) eqn:E; [|done]. zify_tests. apply Z.eqb_neq. lia. Qed.

Lemma add_socket_new s e : fd_in_range s = true -> s ∉ rfds (fdset e) ->
  fdset_add_socket s e = Ok (0, with_fdset (fdset_wakeup (mkFdSet ({[s]} ∪ rfds (fdset e)) (event (fdset e)) (wakeups (fdset e)))) e).
Proof. intros Hr Hn. unfold fdset_add_socket. rewrite in_range_valid by done. rewrite Hr. cbn [negb]. by rewrite bool_decide_eq_false_2. Qed.

Lemma remove_socket_in s e : fd_in_range s = true -> s ∈ rfds (fdset e) ->
  fdset_remove_socket s e = Ok (0, with_fdset (fdset_wakeup (mkFdSet (rfds (fdset e) ∖ {[s]}) (event (fdset e)) (wakeups (fdset e)))) e).
Proof. intros Hr Hn. unfold fdset_remove_socket. rewrite in_range_valid by done. rewrite Hr. cbn [negb]. by rewrite bool_decide_eq_true_2. Qed.

Lemma table_put_new {A B} `{EqDecision A} (k : A) (v : B) m : k ∉ m.*1 -> table_put k v m = m ++ [(k, v)].
Proof. induction m as [|[x y] m IH]; cbn; [done|]. intros [Hx Hm]%not_elem_of_cons. rewrite decide_False by congruence. by rewrite IH. Qed.

Lemma table_remove_last {A B} `{EqDecision A} (k : A) (v : B) m : k ∉ m.*1 -> table_remove k (m ++ [(k, v)]) = m.
Proof.
  induction m as [|[x y] m IH]; cbn; [by rewrite decide_True|]. intros [Hx Hm]%not_elem_of_cons. rewrite decide_False by congruence. by rewrite IH.
Qed.

(** Opening takes the first free identifier, watches a new socket and keeps the rest, or
    changes nothing of the worker. *)
Lemma open_cases service host port e : forwardings_ok e -> fresh_descriptor host port e ->
  exists id e1, portforwarding_open service PortForwardingProtocol_TCP host port e = Ok (id, e1) /\
    ((id < 0 /\ e1 = with_os (os e1) e) \/
     (1 <= id <= MAX_PORTFORWARDING_ID /\ id ∉ (portforwardings e).*1 /\ exists sock ids,
        fd_in_range sock = true /\ sock ∉ rfds (fdset e) /\ IdsHeap.refines ids ({[id]} ∪ list_to_set (portforwardings e).*1) /\
        IdsHeap.max_index ids = MAX_PORTFORWARDING_ID /\
        e1 = with_fdset (fdset_wakeup (mkFdSet ({[sock]} ∪ rfds (fdset e)) (event (fdset e)) (wakeups (fdset e))))
               (with_forwardings (portforwardings e ++ [(id, mkForwarding PortForwardingProtocol_TCP sock service)])
                 (with_pf_ids ids (with_os (os e1) e))))).
Proof.
  intros [Hids Hmax Hnd Hs] Hf. unfold portforwarding_open. cbn [c_assert Z.eqb PortForwardingProtocol_TCP Pos.eqb mbind outcome_bind]. unfold sys.
  unfold fresh_descriptor in Hf. destruct (malloc_ok (os e)) as [ok k1]. destruct (negb ok).
  { eexists _, _. split; [done|]. left. split; [apply mk_error_negative|done]. }
  rename Hf into Hc. cbv zeta in Hc. cbn [snd] in Hc. change k1 with (os (with_os k1 e)) in Hc.
  destruct (socket_create SOCK_STREAM host port (os (with_os k1 e))) as [sock k2]. cbn [fst] in Hc.
  destruct Hc as [->|[Hr Hn]].
  { cbn [Z.eqb INVALID_SOCKET Pos.eqb]. eexists _, _. split; [done|]. left. split; [apply mk_error_negative|done]. }
  rewrite in_range_valid by done. cbn [os with_os]. destruct (listen sock 16 k2) as [rc k3].
  assert (forall x, portforwarding_destroy sock x = with_os (socket_close sock (os x)) x) as Hd
    by (intros x; unfold portforwarding_destroy; by rewrite in_range_valid).
  destruct (rc <? 0); [eexists _, _; split; [done|]; left; split; [apply mk_error_negative|by rewrite Hd]|].
  cbn [pf_ids with_os]. destruct (IdsHeap.alloc_refines (pf_ids e) _ Hids) as [(id & h & E & (Hid & Hni & _) & Hr' & Hm & _)|[E _]]; rewrite E; cbn [mbind outcome_bind].
  - rewrite (proj2 (Z.ltb_ge _ _)) by lia. rewrite add_socket_new by done. cbn [mbind outcome_bind]. eexists _, _. split; [done|]. right.
    assert (id ∉ (portforwardings e).*1) as Hni' by (intros Hin; apply Hni; by apply elem_of_list_to_set).
    split; [lia|]. split; [done|]. exists sock, h. do 4 (split; [first [done|congruence]|]). unfold portforwardings_put. cbn.
    by rewrite table_put_new.
  - cbn [Z.ltb Z.compare]. eexists _, _. split; [done|]. left. split; [apply mk_error_negative|]. rewrite Hd. cbn. by destruct e.
Qed.

Lemma table_get_split {A B} `{EqDecision A} (k : A) (v : B) m : NoDup m.*1 -> table_get k m = Some v ->
  exists l1 l2, m = l1 ++ (k, v) :: l2 /\ table_remove k m = l1 ++ l2 /\ k ∉ (l1 ++ l2).*1.
Proof.
  induction m as [|[x y] m IH]; cbn; [done|]. intros [Hx Hm]%NoDup_cons. destruct (decide (x = k)) as [->|Hn].
  - intros [= ->]. by exists [], m.
  - intros H. destruct (IH Hm H) as (l1 & l2 & -> & E & Hk). exists ((x, y) :: l1), l2. rewrite E. split; [done|]. split; [done|].
    cbn. apply not_elem_of_cons. split; [congruence|done].
Qed.

(** Closing takes a forwarding out, with its identifier and its socket, unless the
    identifier is one whose bit [ids_heap_free] cannot test. *)
Lemma close_cases id pf e : forwardings_ok e -> NoDup (forwarding_sock <$> portforwardings e) ->
  table_get id (portforwardings e) = Some pf ->
  if (id - 1) mod 64 <? 31 then exists e', portforwarding_close id e = Ok e' /\ forwardings_ok e' /\
    portforwardings e' = table_remove id (portforwardings e) /\ rfds (fdset e') = rfds (fdset e) ∖ {[pf_sock pf]} /\
    os e' = close (pf_sock pf) (os e)
  else portforwarding_close id e = Undef.
Proof.
  intros [Hids Hmax Hnd Hs] Hns Hg. unfold portforwarding_close. destruct (table_get_split id pf _ Hnd Hg) as (l1 & l2 & El & Er & Hni).
  assert (id ∈ (list_to_set (portforwardings e).*1 : gset Z)) as Hin by (rewrite El, fmap_app; set_solver).
  pose proof Hids as [_ Hiff]. pose proof (proj1 (proj1 (Hiff id) Hin)) as Hid. rewrite (proj2 (Z.ltb_lt 0 id)) by lia. cbn [c_assert mbind outcome_bind].
  rewrite Hg. assert (fd_in_range (pf_sock pf) = true /\ pf_sock pf ∈ rfds (fdset e)) as [Hr Hw].
  { apply (proj1 (Forall_forall _ _) Hs (id, pf)). rewrite El. apply elem_of_app. right. left. }
  rewrite in_range_valid by done. cbn [negb c_assert mbind outcome_bind]. rewrite remove_socket_in by done. cbn [mbind outcome_bind snd].
  pose proof (IdsHeap.free_cases (pf_ids e) _ id Hids ltac:(lia)) as Hfree. unfold sys_. cbn [pf_ids with_os with_fdset with_forwardings].
  destruct ((id - 1) mod 64 <? 31) eqn:Hb; [|by rewrite Hfree]. destruct Hfree as (h & -> & Hr' & Hm & _). cbn [mbind outcome_bind snd].
  eexists. split; [done|]. split; [|done]. unfold portforwardings_remove. rewrite Er.
  assert ((list_to_set (portforwardings e).*1 ∖ {[id]} : gset Z) = list_to_set (l1 ++ l2).*1) as Eset.
  { rewrite El, !fmap_app in *. cbn in *. set_solver. }
  split; cbn [pf_ids portforwardings with_pf_ids with_os with_fdset with_forwardings fdset rfds fdset_wakeup].
  - by rewrite <- Eset.
  - congruence.
  - rewrite El, fmap_app in Hnd. cbn in Hnd. rewrite fmap_app. apply NoDup_app in Hnd as (H1 & H2 & H3). apply NoDup_cons in H3 as [H3 H4].
    apply NoDup_app. split; [done|]. split; [|done]. intros x Hx Hx2. apply (H2 x Hx). by right.
  - rewrite El, fmap_app in Hns. cbn in Hns. apply NoDup_app in Hns as (H1 & H2 & H3). apply NoDup_cons in H3 as [H3 H4].
    apply Forall_forall. intros p Hp. assert (p ∈ portforwardings e) as Hpe by (rewrite El; set_solver).
    pose proof (proj1 (Forall_forall _ _) Hs p Hpe) as [Hp1 Hp2]. split; [done|]. apply elem_of_difference. split; [done|].
    intros Heq%elem_of_singleton. apply elem_of_app in Hp as [Hp|Hp].
    + apply (H2 (forwarding_sock p)); [by apply list_elem_of_fmap_2|]. change (forwarding_sock p = forwarding_sock (id, pf)) in Heq. rewrite Heq. by left.
    + apply H3. change (forwarding_sock p = forwarding_sock (id, pf)) in Heq. rewrite <- Heq. by apply list_elem_of_fmap_2.
Qed.


End Posix.

(** ** From one connection to the other *)

(** The buffer with what has been received. *)
Lemma received_buffer (data : bytes) : 0 < zlen data <= 2048 -> exists buf,
  FlexBuffer.flex_buffer_mutable_ptr (FlexBuffer.flex_buffer 0 FlexBuffer.FLEX_BUFFER_MAX_LEN FlexBuffer.FLEX_PADDING_LEN) 0 data = Ok buf /\
  FlexBuffer.flex_wf (FlexBuffer.flex_buffer_set_size buf (zlen data)) /\ 8 <= FlexBuffer.offset (FlexBuffer.flex_buffer_set_size buf (zlen data)) /\
  FlexBuffer.payload (FlexBuffer.flex_buffer_set_size buf (zlen data)) = data /\ FlexBuffer.size (FlexBuffer.flex_buffer_set_size buf (zlen data)) = zlen data.
Proof.
  intros Hz. unfold FlexBuffer.flex_buffer_mutable_ptr, FlexBuffer.flex_buffer. cbn [FlexBuffer.buffer FlexBuffer.offset FlexBuffer.capacity FlexBuffer.size].
  assert (zlen (malloc 0 FlexBuffer.FLEX_BUFFER_MAX_LEN) = 2304) as Hm by (by rewrite zlen_malloc).
  destruct (FlexBuffer.write_payload (malloc 0 FlexBuffer.FLEX_BUFFER_MAX_LEN) (FlexBuffer.FLEX_PADDING_LEN + 0) data) as (b & -> & Hl & _ & Hp & _);
    [done|rewrite Hm; change (FlexBuffer.FLEX_PADDING_LEN + 0) with 128; lia|]. cbn [mbind outcome_bind]. eexists. split; [done|].
  unfold FlexBuffer.flex_buffer_set_size. cbn. split; [|split; [done|split; [|done]]].
  - change FlexBuffer.FLEX_PADDING_LEN with 128. change FlexBuffer.FLEX_BUFFER_MAX_LEN with 2304 in *. split; cbn; lia.
  - unfold FlexBuffer.payload. cbn. exact Hp.
Qed.

(** The callback for data when the socket takes data. *)
Lemma tcp_data_ok {K} `{Env K, Posix K} (e : forwarder K) cid d : (forall s buf (k : K), buf <> [] -> 0 < (send s buf k).1 <= zlen buf) -> d <> [] ->
  aborted e = false -> exists k, or_abort false (tcp_portforwarding_channel_data cid d) e = (true, with_os k e) /\
    taken (sock_of_channel cid e) (os e) d k.
Proof.
  intros Hs Hd Ha. unfold or_abort, tcp_portforwarding_channel_data. rewrite Ha, zlen_nonzero by done. cbn [c_assert mbind outcome_bind].
  destruct (send_all_spec (fun s b k Hb => proj2 (Hs s b k Hb)) (sock_of_channel cid e) (length d) d e ltac:(done)) as (ok & d1 & e' & -> & He & Hok).
  destruct ok.
  - destruct Hok as [-> Ht]. exists (os e'). by rewrite He at 1.
  - destruct Hok as (rest & _ & Hne & k & rc & _ & Hse & Hrc). pose proof (Hs (sock_of_channel cid e) rest k Hne) as Hb. rewrite Hse in Hb. cbn in Hb. lia.
Qed.

Section Crossing.
Context {E : Type} {EV : Env E}.
Notation W := (hworld Z (MultiplexHandler E)).
Implicit Types w : W.

Lemma stamp_held (now : Z * Z -> Channel -> Channel) w m p : (forall t, keeps (now t)) -> held w m p -> exists w',
  (let '(t, w) := ask gettimeofday w in set_chan p (now t) w) = Ok w' /\ held w' m p /\ env (client w') = (gettimeofday (env (client w))).2.
Proof.
  intros Hk Hh. pose proof (ask_same gettimeofday w) as Ha. unfold ask in *. destruct (gettimeofday (env (client w))) as [t e] eqn:Ht. cbn [snd] in *.
  destruct (set_held (n:=2) (upd_client (set_env e) w) m p (now t) (Hk t)) as (w' & ch & -> & Hh' & _ & _ & He & _); [by apply (same_held w)|].
  exists w'. split; [done|]. split; [done|]. by rewrite He.
Qed.

(** Data that is written to an open channel goes down as one packet for the peer's
    channel. *)
Lemma write_open_channel w m cid p ch buf : inv w m -> (cid, p) ∈ m -> chans (client w) !! p = Some ch -> not_open ch = false ->
  0 < remote_id ch < 65536 -> FlexBuffer.flex_wf buf -> 8 <= FlexBuffer.offset buf -> 0 < FlexBuffer.size buf < 65536 ->
  let d := packet_header PacketType_ChannelData 0 (remote_id ch) cid (FlexBuffer.size buf) ++ FlexBuffer.payload buf in
  let '(sent, e) := next_write d (env (client w)) in
  let rc := if sent <? 0 then s32 sent else s32 (FlexBuffer.size buf) in
  exists w', multiplex_handler_write_channel cid buf w = Ok (rc, w') /\ inv w' m /\
    env (client w') = if 0 <=? rc then (gettimeofday e).2 else e.
Proof.
  intros Hi Hin Hch Hop Hr Hb Hoff Hsz. destruct (get_in w m cid p Hi Hin) as (w1 & Hget & Hh & Hcl).
  pose proof Hi as [Hc _]. pose proof (core_range _ _ _ _ cid Hc (in_fst _ _ _ Hin)) as Hcid.
  destruct (c_chan _ _ _ _ Hc cid p Hin) as (ch' & Hch' & Hid & _). assert (ch' = ch) as -> by congruence.
  destruct (c_obj _ _ _ _ Hc cid p Hin) as (_ & Hp0 & _).
  destruct (send_packet_spec PacketType_ChannelData 0 cid (remote_id ch) buf w1) as (d & Hsend & ->);
    [unfold PacketType_ChannelData; lia|lia|lia|lia|done|done|lia|]. cbv zeta. rewrite <- Hcl.
  pose proof (ask_same (next_write (packet_header PacketType_ChannelData 0 (remote_id ch) cid (FlexBuffer.size buf) ++ FlexBuffer.payload buf)) w1) as Ha.
  unfold ask in Hsend, Ha. destruct (next_write _ (env (client w1))) as [sent e] eqn:Hnw. cbn [snd] in Ha.
  set (w2 := upd_client (set_env e) w1) in *. assert (held w2 m p) as Hh2 by (by apply (same_held w1)).
  unfold multiplex_handler_write_channel. rewrite (proj2 (Z.leb_le 0 cid)) by lia. cbn [c_assert mbind outcome_bind].
  rewrite (proj2 (Z.eqb_neq cid 0)) by lia. rewrite Hget. cbn [mbind outcome_bind]. rewrite (proj2 (Z.eqb_neq p 0)) by done.
  assert (chan p w1 = Ok ch) as -> by (unfold chan; by rewrite Hcl, Hch). cbn [mbind outcome_bind]. rewrite Hop, (proj2 (Z.eqb_neq _ _)) by lia.
  rewrite Hid, Hsend. cbn [mbind outcome_bind].
  assert (exists rc, (if sent <? 0 then s32 sent else s32 (FlexBuffer.size buf)) = rc) as [rc Hrc] by eauto.
  replace (if sent <? 0 then Ok (s32 sent, w2) else Ok (s32 (FlexBuffer.size buf), w2)) with (Ok (rc, w2) : outcome (Z * W)) by (destruct (sent <? 0); congruence).
  cbn [mbind outcome_bind]. rewrite Hrc.
  assert (exists w3, (if 0 <=? rc then update_local_timestamp p w2 else Ok w2) = Ok w3 /\ held w3 m p /\
    env (client w3) = if 0 <=? rc then (gettimeofday e).2 else e) as (w3 & -> & Hh3 & He3).
  { destruct (0 <=? rc); [|by exists w2]. by destruct (stamp_held (fun t c => with_last_activity t (with_local_timestamp t c)) w2 m p) as (w3 & H1 & H2 & H3); [done|done|exists w3]. }
  cbn [mbind outcome_bind]. destruct (release_held _ _ _ Hh3) as (w4 & -> & Hi4 & Hcl4 & _). cbn [mbind outcome_bind]. exists w4.
  split; [done|]. split; [done|]. by rewrite Hcl4.
Qed.

(** A data packet for an open channel is handed to the channel's callback. *)
Lemma packet_for_channel w m cid p ch c f remote data e : inv w m -> (cid, p) ∈ m -> chans (client w) !! p = Some ch -> not_open ch = false ->
  callbacks (client w) !! Z.to_nat (cbs ch) = Some c -> channel_data c = Some f -> 0 < remote < 65536 -> zlen data < 65536 ->
  f cid data (env (client w)) = (true, e) ->
  let d := packet_header PacketType_ChannelData 0 cid remote (zlen data) ++ data in
  exists w' b, multiplex_handler_notify_packet (packet_buf d) w = Ok (w', b) /\ inv w' m /\ env (client w') = (gettimeofday e).2.
Proof.
  intros Hi Hin Hch Hop Hcb Hf Hrem Hz He d. destruct (get_in w m cid p Hi Hin) as (w1 & Hget & Hh & Hcl). pose proof (zlen_nonneg data).
  pose proof Hi as [Hc _]. pose proof (core_range _ _ _ _ cid Hc (in_fst _ _ _ Hin)) as Hcid.
  destruct (c_chan _ _ _ _ Hc cid p Hin) as (ch' & Hch' & Hid & _). assert (ch' = ch) as -> by congruence.
  destruct (c_obj _ _ _ _ Hc cid p Hin) as (_ & Hp0 & _).
  assert (zlen (packet_header PacketType_ChannelData 0 cid remote (zlen data)) = 8) as H8 by done.
  assert (zlen d = 8 + zlen data) as Hd by (unfold d; rewrite zlen_app; lia).
  destruct (packet_buf_ok d) as [Hw Hp]; [lia|]. destruct (notify_packet_effect (packet_buf d) w Hw) as (b & _ & _ & ->); [change (8 <= zlen d); lia|]. rewrite Hp.
  cut (exists w', packet_effect d w = Ok w' /\ inv w' m /\ env (client w') = (gettimeofday e).2).
  { intros (w' & -> & H1 & H2). by exists w', b. }
  unfold packet_effect. assert (read_header (ztake 8 d) = Ok (mkPb PacketType_ChannelData 0 cid remote (zlen data))) as ->.
  { unfold d. rewrite ztake_app_len by done. cbn [packet_header be16 app read_header]. by rewrite !be16_value by lia. }
  cbn [mbind outcome_bind pb_len pb_remote pb_local pb_type]. rewrite Hd, (proj2 (Z.eqb_eq _ _)) by lia. cbn [negb].
  rewrite (proj2 (Z.eqb_neq remote 0)) by lia. cbn [andb]. unfold trace_packet. cbn [pb_type]. change (7 <? PacketType_ChannelData) with false. rewrite andb_false_r.
  cbn [mbind outcome_bind]. unfold target, dispatch. cbn [pb_type pb_local]. change (PacketType_ChannelData =? PacketType_ChannelOpen) with false.
  change (PacketType_ChannelData =? PacketType_ChannelOpenConfirmation) with false. change (PacketType_ChannelData =? PacketType_ChannelData) with true.
  rewrite Hget. cbn [mbind outcome_bind fst snd]. rewrite (proj2 (Z.eqb_neq p 0)) by done. cbn [mbind outcome_bind].
  assert (zdrop 8 d = data) as -> by (by apply zdrop_app_len).
  unfold data_effect. assert (chan p w1 = Ok ch) as -> by (unfold chan; by rewrite Hcl, Hch). cbn [mbind outcome_bind].
  assert (callbacks_of ch w1 = Ok c) as -> by (unfold callbacks_of; by rewrite Hcl, Hcb). cbn [mbind outcome_bind]. rewrite Hf.
  unfold ask. rewrite Hcl, Hid, He. cbn [negb]. set (w2 := upd_client (set_env e) w1).
  assert (held w2 m p) as Hh2 by (apply (same_held w1); [by exists e|done]).
  destruct (stamp_held (fun t c => with_last_activity t (with_remote_timestamp t c)) w2 m p) as (w3 & H1 & Hh3 & He3); [done|done|].
  destruct (release_held _ _ _ Hh3) as (w4 & H4 & Hi4 & Hcl4 & _). unfold not_open in Hop.
  destruct (status ch); try done; (change (update_remote_timestamp p w2 = Ok w3) in H1; rewrite H1; cbn [mbind outcome_bind]; rewrite H4; exists w4; split; [done|]; split; [done|by rewrite Hcl4]).
Qed.

End Crossing.

(** C15. What one connection sends, the other connection is sent. Take two multiplexers in
    order, with an open channel of each that is the other's. When the connection behind
    the first has bytes, the worker's call reads them and hands one packet down; when
    the second is given that packet, its system takes exactly these bytes, in their
    order, on the socket behind its channel, as long as the socket takes data. Both
    multiplexers are in order afterwards. *)
Theorem connection_data_crosses {KA KB} `{Env KA, Posix KA, Env KB, Posix KB} (wa : hworld Z (MultiplexHandler (forwarder KA)))
    (wb : hworld Z (MultiplexHandler (forwarder KB))) ma mb cid r p q cha chb sock data k1 :
  inv wa ma -> (cid, p) ∈ ma -> chans (client wa) !! p = Some cha -> not_open cha = false -> remote_id cha = r ->
  inv wb mb -> (r, q) ∈ mb -> chans (client wb) !! q = Some chb -> not_open chb = false ->
  callbacks (client wb) !! Z.to_nat (cbs chb) = Some tcp_portforwarding_callbacks -> aborted (worker_of wb) = false ->
  recv sock FlexBuffer.IOEX_MAX_USER_DATA_LEN (os (worker_of wa)) = (zlen data, data, k1) -> 0 < zlen data <= FlexBuffer.IOEX_MAX_USER_DATA_LEN ->
  (forall s buf (k : KB), buf <> [] -> 0 < (send s buf k).1 <= zlen buf) ->
  exists d wa' wb' b k, handle_tcp_portforwarding_channel cid sock wa = Ok wa' /\ inv wa' ma /\
    (let '(sent, k2) := next_write d k1 in
     os (worker_of wa') = if 0 <=? s32 (if sent <? 0 then sent else zlen data) then (gettimeofday k2).2 else k2) /\
    multiplex_handler_notify_packet (packet_buf d) wb = Ok (wb', b) /\ inv wb' mb /\
    taken (sock_of_channel r (worker_of wb)) (os (worker_of wb)) data k /\ os (worker_of wb') = (gettimeofday k).2.
Proof.
  intros Hia Hina Hcha Hopa Hr Hib Hinb Hchb Hopb Hcb Hab Hrecv Hz Hsend. unfold FlexBuffer.IOEX_MAX_USER_DATA_LEN in Hz.
  pose proof (core_range _ _ _ _ cid (proj1 Hia) (in_fst _ _ _ Hina)) as Hcid. pose proof (core_range _ _ _ _ r (proj1 Hib) (in_fst _ _ _ Hinb)) as Hrr.
  assert (data <> []) as Hne by (intros E; rewrite E in Hz; unfold zlen in Hz; cbn in Hz; lia).
  destruct (tcp_data_ok (worker_of wb) r data Hsend Hne Hab) as (k & Hf & Ht).
  destruct (packet_for_channel wb mb r q chb tcp_portforwarding_callbacks _ cid data _ Hib Hinb Hchb Hopb Hcb eq_refl ltac:(lia) ltac:(lia) Hf)
    as (wb' & b & Hn & Hib' & He).
  exists (packet_header PacketType_ChannelData 0 r cid (zlen data) ++ data).
  unfold handle_tcp_portforwarding_channel, ask. change (Mux.env (client wa)) with (worker_of wa). rewrite Hrecv. cbn [fst snd].
  rewrite (proj2 (Z.leb_gt _ _)) by lia. set (w1 := upd_client (set_env (with_os k1 (worker_of wa))) wa).
  destruct (received_buffer data Hz) as (buf & -> & Hb & Hoff & Hp & Hs). cbn [mbind outcome_bind].
  assert (inv w1 ma) as Hi1 by (apply (same_inv wa); [by eexists|done]).
  pose proof (write_open_channel w1 ma cid p cha (FlexBuffer.flex_buffer_set_size buf (zlen data)) Hi1 Hina Hcha Hopa ltac:(lia) Hb Hoff ltac:(lia)) as Hw.
  cbv zeta in Hw. rewrite Hs, Hp, Hr in Hw. change (Mux.env (client w1)) with (with_os k1 (worker_of wa)) in Hw. cbn [next_write forwarder_env] in Hw.
  unfold sys in Hw. cbn [os with_os] in Hw. destruct (next_write _ k1) as [sent k2] eqn:Hnw. destruct Hw as (wa' & -> & Hia' & Hea). cbn [mbind outcome_bind snd].
  exists wa', wb', b, k. split; [done|]. split; [done|]. split.
  - unfold worker_of. rewrite Hea. replace (s32 (if sent <? 0 then sent else zlen data)) with (if sent <? 0 then s32 sent else s32 (zlen data)) by (by destruct (sent <? 0)).
    destruct (0 <=? _); [|done]. cbn. unfold sys. cbn [os with_os]. by destruct (gettimeofday k2).
  - split; [done|]. split; [done|]. split; [done|]. unfold worker_of. rewrite He. cbn. unfold sys. cbn. by destruct (gettimeofday k).
Qed.

(** ** A turn over the channels *)

Section Turn.
Context {K : Type} {KE : Env K} {PX : Posix K}.
Notation W := (hworld Z (MultiplexHandler (forwarder K))).
Implicit Types w : W.

(** [recv] gives no more than it is asked for. *)
Definition recv_bounded : Prop := forall s len k, let '(n, d, _) := recv s len k in n <= 0 \/ zlen d = n /\ n <= len.

(** Closing a channel that the caller holds: the caller has the last reference then, and
    the table has changed. *)
Lemma close_held w m1 cid p m2 : held w (m1 ++ (cid, p) :: m2) p -> exists w', multiplex_handler_close_channel cid w = Ok (0, w') /\
  orphan w' (m1 ++ m2) p cid /\ lst_head (tab w') = lst_head (tab w) /\ mod_count (tab w') = s32 (mod_count (tab w) + 1).
Proof.
  intros Hh. assert ((cid, p) ∈ m1 ++ (cid, p) :: m2) as Hin by set_solver. pose proof (core_range _ _ _ _ cid (proj1 Hh) (in_fst _ _ _ Hin)) as Hr.
  destruct (c_obj _ _ _ _ (proj1 Hh) cid p Hin) as (_ & Hp0 & _).
  destruct (get_refs 2 w _ cid p Hh ltac:(lia) Hin) as (w1 & Hget & H1 & _ & T1).
  unfold multiplex_handler_close_channel. rewrite (proj2 (Z.ltb_lt _ _)) by lia. cbn [c_assert mbind outcome_bind]. rewrite Hget. cbn [mbind outcome_bind].
  rewrite (proj2 (Z.eqb_neq _ _) Hp0). destruct (held_chan _ _ _ H1) as (c & ch & _ & _ & _ & Hch & _). rewrite Hch. cbn [mbind outcome_bind].
  assert (exists w2, (if negb (remote_id ch =? 0) then
    r ← multiplex_handler_send_packet PacketType_ChannelClose 0 (id ch) (remote_id ch) None w1; Ok (snd r) else Ok w1) = Ok w2 /\ same_but_env w1 w2) as (w2 & -> & S2).
  { destruct (negb _); [|exists w1; split; [done|apply same_refl]].
    destruct (send_packet_ok PacketType_ChannelClose 0 (id ch) (remote_id ch) None w1) as (rc & w2 & -> & S2); [unfold PacketType_ChannelClose; lia|done|]. by exists w2. }
  cbn [mbind outcome_bind]. pose proof (same_held _ _ _ _ S2 H1) as H2.
  destruct (notify_close_ok w2 p CloseReason_Normal (held_notifiable _ _ _ H2)) as (w3 & -> & S3). cbn [mbind outcome_bind].
  destruct (remove_release w3 m1 cid p m2 (same_held _ _ _ _ S3 H2)) as (w4 & w5 & -> & H4 & Ho & _ & Hl & Hm). cbn [mbind outcome_bind]. rewrite H4. cbn [mbind outcome_bind].
  exists w5. split; [done|]. split; [done|]. by rewrite Hl, Hm, (same_tab _ _ S3), (same_tab _ _ S2), T1.
Qed.

Lemma write_held w m cid p buf : held w m p -> (cid, p) ∈ m -> sendable (Some buf) ->
  exists rc w', multiplex_handler_write_channel cid buf w = Ok (rc, w') /\ held w' m p /\ tab w' = tab w.
Proof.
  intros Hh Hin Hb. pose proof (core_range _ _ _ _ cid (proj1 Hh) (in_fst _ _ _ Hin)) as Hr. destruct (c_obj _ _ _ _ (proj1 Hh) cid p Hin) as (_ & Hp0 & _).
  destruct (get_refs 2 w _ cid p Hh ltac:(lia) Hin) as (w1 & Hget & H1 & _ & T1).
  unfold multiplex_handler_write_channel. rewrite (proj2 (Z.leb_le _ _)) by lia. cbn [c_assert mbind outcome_bind]. rewrite (proj2 (Z.eqb_neq cid 0)) by lia.
  rewrite Hget. cbn [mbind outcome_bind]. rewrite (proj2 (Z.eqb_neq _ _) Hp0).
  destruct (held_chan _ _ _ H1) as (c & ch & _ & _ & _ & Hch & _). rewrite Hch. cbn [mbind outcome_bind].
  assert (forall (rc : Z) w2, refs 3 w2 m p -> tab w2 = tab w -> exists rc' w', (w ← deref p w2; Ok (rc, w)) = Ok (rc', w') /\ held w' m p /\ tab w' = tab w) as Hend.
  { intros rc w2 H2 T2. destruct (release_refs 2 w2 m p H2 ltac:(lia)) as (w3 & -> & H3 & _ & T3). exists rc, w3. split; [done|]. split; [done|congruence]. }
  destruct (not_open ch); [by apply Hend|]. destruct (remote_id ch =? 0); [by apply Hend|].
  destruct (send_packet_ok PacketType_ChannelData 0 (id ch) (remote_id ch) (Some buf) w1) as (rc & w2 & -> & S2); [unfold PacketType_ChannelData; lia|done|].
  cbn [mbind outcome_bind]. pose proof (same_held _ _ _ _ S2 H1) as H2. pose proof (same_tab _ _ S2) as T2.
  destruct (0 <=? rc); [|by apply Hend; [|congruence]].
  destruct (update_local_refs 3 w2 m p H2) as (w3 & -> & H3 & T3). cbn [mbind outcome_bind]. apply Hend; [done|congruence].
Qed.

(** One socket is served: its channel stays, or it is gone and the caller has the last
    reference. *)
Lemma serve_cases (HR : recv_bounded) w m1 cid p m2 sock : held w (m1 ++ (cid, p) :: m2) p ->
  exists w', handle_tcp_portforwarding_channel cid sock w = Ok w' /\
    (held w' (m1 ++ (cid, p) :: m2) p /\ tab w' = tab w \/
     orphan w' (m1 ++ m2) p cid /\ lst_head (tab w') = lst_head (tab w) /\ mod_count (tab w') = s32 (mod_count (tab w) + 1)).
Proof.
  intros Hh. unfold handle_tcp_portforwarding_channel.
  pose proof (ask_same (fun e : forwarder K => let '(n, d, k) := recv sock FlexBuffer.IOEX_MAX_USER_DATA_LEN (os e) in (n, d, with_os k e)) w) as Hs.
  unfold ask in *. pose proof (HR sock FlexBuffer.IOEX_MAX_USER_DATA_LEN (os (env (client w)))) as Hb.
  destruct (recv sock _ _) as [[n data] k]. cbn [snd] in Hs. set (w1 := upd_client _ w) in *. pose proof (same_held _ _ _ _ Hs Hh) as H1. pose proof (same_tab _ _ Hs) as T1.
  destruct (n <=? 0) eqn:E; zify_tests.
  - destruct (close_held w1 m1 cid p m2 H1) as (w2 & -> & Ho & Hl & Hm). exists w2. split; [done|]. right. by rewrite Hl, Hm, T1.
  - destruct Hb as [Hb|[Hz Hle]]; [lia|]. destruct (received_buffer data) as (buf & -> & Hw & Hoff & _); [unfold FlexBuffer.IOEX_MAX_USER_DATA_LEN in Hle; lia|].
    cbn [mbind outcome_bind]. rewrite Hz in Hw, Hoff.
    destruct (write_held w1 (m1 ++ (cid, p) :: m2) cid p (FlexBuffer.flex_buffer_set_size buf n) H1 ltac:(set_solver)) as (rc & w2 & -> & H2 & T2); [by split|].
    exists w2. split; [done|]. left. split; [done|congruence].
Qed.

(** Where a scan ends. *)
Definition scanned (nfds : Z) (fds : gset Z) (o : outcome (Z * gset Z * W)) : Prop :=
  exists nfds' fds' w', o = Ok (nfds', fds', w') /\ MuxSafe.ready w' /\ fds' ⊆ fds /\ nfds - nfds' = Z.of_nat (size (fds ∖ fds')).

Lemma scanned_here nfds fds w m : inv w m -> goods m -> scanned nfds fds (Ok (nfds, fds, w)).
Proof.
  intros Hi Hg. exists nfds, fds, w. split; [done|]. split; [by exists m|]. split; [done|]. rewrite difference_diag_L, size_empty. lia.
Qed.

Lemma scanned_more nfds fds s o : s ∈ fds -> scanned (nfds - 1) (fds ∖ {[s]}) o -> scanned nfds fds o.
Proof.
  intros Hs (n' & fds' & w' & -> & Hr & Hsub & Hn). exists n', fds', w'. split; [done|]. split; [done|]. split; [set_solver|].
  assert (fds ∖ fds' = {[s]} ∪ (fds ∖ {[s]}) ∖ fds') as ->.
  { apply set_eq. intros x. destruct (decide (x = s)); set_solver. }
  rewrite size_union, size_singleton by set_solver. lia.
Qed.

(** With the table changed since, the iterator starts again or ends. *)
Lemma stale_scan w it m2 w0 m1 fuel nfds fds m : inv w m -> goods m -> inv w0 (m1 ++ m2) -> before w0 it m2 ->
  mod_count (tab w) = s32 (mod_count (tab w0) + 1) ->
  (forall it', before w it' m -> scanned nfds fds (scan_channels fuel it' nfds fds w)) -> scanned nfds fds (scan_channels (S fuel) it nfds fds w).
Proof.
  intros Hi Hg H0 Hb Hm Hgo. assert (it_next it <> 0) as Hnz by (eapply stands_nonzero; [apply (inv_rep _ _ _ H0)|exact Hb]).
  cbn [scan_channels]. destruct (nfds <=? 0); [by apply (scanned_here _ _ _ m)|].
  unfold channels_iterator_has_next, hashtable_iterator_has_next. rewrite (nonzero_true _ Hnz). cbn [c_assert mbind outcome_bind].
  destruct (it_next it =? lst_head (tab w)); cbn [negb]; [by apply (scanned_here _ _ _ m)|].
  unfold channels_iterator_next, hashtable_iterator_next. rewrite (nonzero_true _ Hnz). cbn [c_assert mbind outcome_bind].
  assert (expected_mod_count it =? mod_count (tab w) = false) as ->.
  { destruct Hb as [_ ->]. rewrite Hm. apply Z.eqb_neq. intros E. revert E. unfold s32. generalize (mod_count (tab w0)). intros x E. change (2 ^ 31) with 2147483648 in E. change (2 ^ 32) with 4294967296 in E. Z.to_euclidean_division_equations. lia. }
  cbn [negb mbind outcome_bind]. change (-1 =? 0) with false. change (-1 <? 0) with true. cbn iota.
  destruct (iterate_ok w m Hi) as (it' & -> & Hb'). cbn [mbind outcome_bind]. by apply Hgo.
Qed.

Lemma fst_of_snd {A B} (l : list (A * B)) a b y : NoDup l.*2 -> (a, y) ∈ l -> (b, y) ∈ l -> a = b.
Proof.
  induction l as [|[x z] l IH]; cbn; [intros _ H; by apply elem_of_nil in H|]. intros [Hz Hnd]%NoDup_cons Ha%elem_of_cons Hb%elem_of_cons.
  destruct Ha as [[= -> ->]|Ha], Hb as [[= ->]|Hb]; [done| | |by apply IH].
  - destruct Hz. by apply (list_elem_of_fmap_2 snd _ (b, z)).
  - subst. destruct Hz. by apply (list_elem_of_fmap_2 snd _ (a, z)).
Qed.

Lemma scan_spec (HR : recv_bounded) L : forall N m2 m1 w it fuel nfds fds, (Z.to_nat nfds <= N)%nat -> (length (m1 ++ m2) <= L)%nat ->
  (N * (L + 2) + length m2 <= fuel)%nat -> inv w (m1 ++ m2) -> goods (m1 ++ m2) -> before w it m2 ->
  scanned nfds fds (scan_channels fuel it nfds fds w).
Proof.
  induction N as [|N IHN].
  { intros m2 m1 w it fuel nfds fds Hn _ _ Hi Hg _. destruct fuel; cbn [scan_channels]; (rewrite (proj2 (Z.leb_le nfds 0)) by lia); by apply (scanned_here _ _ _ (m1 ++ m2)). }
  intros m2. induction m2 as [|[cid p] m2 IH]; intros m1 w it fuel nfds fds Hn HL Hf Hi Hg Hb.
  { destruct fuel; cbn [scan_channels]; (destruct (nfds <=? 0); [by apply (scanned_here _ _ _ (m1 ++ []))|]); rewrite (has_next_ok _ _ _ _ Hi Hb); by apply (scanned_here _ _ _ (m1 ++ [])). }
  cbn [length] in Hf. destruct fuel as [|fuel]; [lia|]. cbn [scan_channels]. destruct (nfds <=? 0) eqn:En; [by apply (scanned_here _ _ _ (m1 ++ (cid, p) :: m2))|].
  zify_tests. rewrite (has_next_ok _ _ _ _ Hi Hb). cbn [mbind outcome_bind negb].
  destruct (next_ok _ _ _ _ _ _ Hi Hb) as (it1 & w1 & -> & Hh & _ & Hb1 & _). cbn [mbind outcome_bind]. change (1 =? 0) with false. change (1 <? 0) with false. cbn iota.
  destruct (held_chan_ok _ _ _ Hh) as (ch & -> & Hid). cbn [mbind outcome_bind].
  assert (id ch = cid) as ->.
  { pose proof (c_nodup2 _ _ _ _ (proj1 Hh)) as Hnd. apply (fst_of_snd (m1 ++ (cid, p) :: m2) _ _ p); [exact Hnd|exact Hid|set_solver]. }
  set (sock := sock_of_channel cid (worker_of w1)). set (tcp := type ch =? ChannelType_TCP_PortForwarding).
  set (w2 := if tcp && negb (fd_in_range sock) then tell abort w1 else w1).
  assert (same_but_env w1 w2) as Hs2 by (unfold w2; destruct (tcp && _); [apply tell_same|apply same_refl]).
  pose proof (same_held _ _ _ _ Hs2 Hh) as H2. pose proof (stands_tab _ _ _ _ (same_tab _ _ Hs2) Hb1) as Hb2.
  assert (length (m1 ++ m2) <= L)%nat as HL' by (rewrite length_app in *; cbn in HL; lia).
  destruct (tcp && bool_decide (sock ∈ fds)) eqn:Eready.
  - apply andb_prop in Eready as [_ Hsock]. apply bool_decide_eq_true in Hsock. apply (scanned_more _ _ sock); [done|].
    destruct (serve_cases HR w2 m1 cid p m2 sock H2) as (w3 & -> & [[H3 T3]|(Ho & Hl & Hm)]); cbn [mbind outcome_bind].
    + destruct (release_held _ _ _ H3) as (w4 & -> & Hi4 & _ & T4). cbn [mbind outcome_bind].
      apply (IHN m2 (m1 ++ [(cid, p)])); rewrite <- ?app_assoc; try done; [lia|lia|]. apply (stands_tab w2); [congruence|done].
    + assert (good_id cid = true) as Hgood by (apply Hg; rewrite fmap_app; set_solver).
      destruct (drop_orphan _ _ _ _ Ho Hgood) as (w4 & -> & Hi4 & _ & T4). cbn [mbind outcome_bind].
      destruct fuel as [|fuel]; [lia|].
      destruct (release_held _ _ _ H2) as (w2' & _ & Hi2 & _ & T2).
      apply (stale_scan w4 it1 m2 w2' (m1 ++ [(cid, p)]) fuel _ _ (m1 ++ m2)); rewrite <- ?app_assoc; [done|by eapply goods_remove|done|apply (stands_tab w2); [congruence|done]|congruence|].
      intros it' Hb'. apply (IHN (m1 ++ m2) []); [lia|done|lia|done|exact (goods_remove _ _ _ Hg)|done].
  - destruct (release_held _ _ _ H2) as (w3 & -> & Hi3 & _ & T3). cbn [mbind outcome_bind].
    apply (IH (m1 ++ [(cid, p)])); rewrite <- ?app_assoc; try done; [lia|]. apply (stands_tab w2); [congruence|done].
Qed.


End Turn.

(** ** On a run *)

Import MuxRun ForwardingRun.

Definition hello : bytes := [104; 101; 108; 108; 111].

Lemma machine_sends s buf (k : machine) : buf <> [] -> 0 < (send s buf k).1 <= zlen buf.
Proof. intros Hne. change (0 < Z.min 3 (zlen buf) <= zlen buf). destruct buf; [done|]. rewrite zlen_cons. pose proof (zlen_nonneg buf). lia. Qed.

Lemma machine_receives : recv_bounded (K := machine).
Proof.
  intros s len k. cbn. destruct (waiting k) as [|[s' d] l]; [left; lia|]. destruct (s' =? s); [|left; lia]. 
  unfold ztake, zlen. rewrite length_take. destruct (Z.leb_spec len 0); [left|right]; lia.
Qed.

Lemma data_reaches_socket_witness : exists ok d e', tcp_portforwarding_channel_data 1 hello service_side = Ok (ok, e') /\
  taken_ (os e') = [(0, [104; 101; 108]); (0, [108; 111])] /\ (ok = true -> d = hello).
Proof.
  destruct (data_reaches_socket 1 hello service_side) as (ok & d & e' & E & _ & H); [intros s buf k Hne; by apply machine_sends|done|].
  exists ok, d, e'. split; [exact E|]. split; [|intros ->; apply H].
  assert (match tcp_portforwarding_channel_data 1 hello service_side with Ok (_, e) => taken_ (os e) | _ => [] end = [(0, [104; 101; 108]); (0, [108; 111])]) as Ht by (vm_compute; reflexivity).
  rewrite E in Ht. exact Ht.
Defined.

Lemma worker0_ok : forwardings_ok worker0.
Proof.
  split; [|by vm_compute|apply NoDup_nil_2|apply Forall_nil_2].
  change (pf_ids worker0) with (snd (IdsHeap.ids_heap_init 0 (pf_ids raw) MAX_PORTFORWARDING_ID)).
  by apply (IdsHeap.init_refines (pf_ids raw)).
Qed.



(** A connection that comes in keeps the multiplexer in order. *)
Lemma accept_runs {K} `{Env K, Posix K} pf (w : hworld Z (MultiplexHandler (forwarder K))) : MuxSafe.ready w ->
  open_allowed ChannelType_TCP_PortForwarding w = true -> next_good w = true -> zlen (pf_service pf) < 2 ^ 62 ->
  exists w', handle_tcp_portofrwarding pf w = Ok w' /\ MuxSafe.ready w'.
Proof.
  intros (m & Hi & Hg) Hall Hnext Hz. unfold handle_tcp_portofrwarding. pose proof (ask_same (sys (accept (pf_sock pf))) w) as Hs.
  destruct (ask _ w) as [sock w1]. cbn [snd] in Hs. pose proof (same_inv _ _ _ Hs Hi) as H1.
  destruct (sock <? 0); [exists w1; split; [done|by exists m]|].
  destruct (open_channel_returns w1 m ChannelType_TCP_PortForwarding (Some (pf_service pf)) 0 sock H1 Hg) as ([cid w2] & -> & m2 & H2 & Hg2);
    [by destruct Hs as [e ->]|by destruct Hs as [e ->]|done|].
  cbn [mbind outcome_bind]. eexists. split; [done|]. exists m2. split; [by apply tell_inv|done].
Qed.

Lemma mux_ready e : MuxSafe.ready (mux_with e).
Proof.
  destruct (create_ready (mkResults true true 0 0 0) no_callbacks tcp_portforwarding_callbacks (blank_with e)) as (w0 & inc & E & H); [done|done|done|].
  unfold mux_with. by rewrite E.
Qed.

Lemma packet_ready (w : hworld Z (MultiplexHandler (forwarder machine))) d : MuxSafe.ready w -> 8 <= zlen d < 2 ^ 62 -> bytes_ok d -> acceptable d w = true ->
  exists w' b, multiplex_handler_notify_packet (packet_buf d) w = Ok (w', b) /\ MuxSafe.ready w'.
Proof.
  intros Hr Hz Hb Ha. destruct (packet_buf_ok d) as [Hw Hp]; [lia|].
  destruct (exec_runs w (Packet (packet_buf d)) Hr) as (w' & E & Hr'); [split; [done|]; rewrite Hp; split; [change (8 <= zlen d); lia|done]|].
  cbn [exec] in E. apply bind_ok in E as ([w2 b] & E & H2). injection H2 as <-. by exists w2, b.
Qed.

Lemma requested_ready : exists a, requested = Ok a /\ MuxSafe.ready a.
Proof. apply accept_runs; [apply mux_ready|by vm_compute|by vm_compute|by vm_compute]. Qed.


Definition sent_by (o : outcome (hworld Z (MultiplexHandler (forwarder machine)))) : bytes := match o with Ok w => last_sent w | _ => [] end.

Definition request : bytes := [1; 2; 0; 0; 0; 1; 0; 4] ++ web ++ [0].
Definition confirmation : bytes := [2; 0; 0; 1; 0; 1; 0; 0].

Ltac octets := repeat (apply Forall_cons; split; [lia|]); apply Forall_nil_2.

Lemma served_ready : exists b, served = Ok b /\ MuxSafe.ready b.
Proof.
  unfold served. destruct requested_ready as (a & E & _). assert (sent_by requested = request) as Hl by (vm_compute; reflexivity).
  rewrite E in Hl. cbn [sent_by] in Hl. rewrite E. cbn [mbind outcome_bind]. rewrite Hl.
  destruct (packet_ready (mux_with service_side) request (mux_ready _)) as (w & b & -> & Hr);
    [change (zlen request) with 12; lia|octets|vm_compute; reflexivity|]. exists w. split; [reflexivity|exact Hr].
Qed.

Lemma connected_ready : exists a, connected = Ok a /\ MuxSafe.ready a.
Proof.
  unfold connected. destruct requested_ready as (a & E & Hr). destruct served_ready as (b & E2 & _).
  assert (sent_by served = confirmation) as Hl by (vm_compute; reflexivity). rewrite E2 in Hl. cbn [sent_by] in Hl.
  assert (match requested with Ok a => acceptable confirmation a | _ => false end = true) as Ha by (vm_compute; reflexivity).
  rewrite E in Ha |- *. rewrite E2. cbn [mbind outcome_bind]. rewrite Hl.
  destruct (packet_ready a confirmation Hr) as (w & c & -> & Hr2); [change (zlen confirmation) with 8; lia|octets|exact Ha|]. exists w. split; [reflexivity|exact Hr2].
Qed.

(** The channel of the run, on either side. *)
Definition forwarding_channel : Channel := mkChannel true 2 1 1 2 Open (0, 0) (0, 0) (0, 0) 0 5.
Definition service_channel : Channel := mkChannel true 2 1 1 2 Open (0, 0) (0, 0) (0, 0) 0 0.


Lemma connection_data_crosses_witness : exists a b d a' b' buf k, connected = Ok a /\ served = Ok b /\
  handle_tcp_portforwarding_channel 1 5 (arrive 5 hello a) = Ok a' /\ multiplex_handler_notify_packet (packet_buf d) b = Ok (b', buf) /\
  taken 4 (os (worker_of b)) hello k.
Proof.
  destruct connected_ready as (a & Ea & Ha). destruct served_ready as (b & Eb & Hb).
  assert (match connected with Ok a => (chans (client a) !! 3248, waiting (os (worker_of a))) | _ => (None, []) end = (Some forwarding_channel, [])) as Hca by (vm_compute; reflexivity).
  assert (match served with Ok b => (chans (client b) !! 3248, aborted (worker_of b), sock_of_channel 1 (worker_of b)) | _ => (None, true, 0) end = (Some service_channel, false, 4)) as Hcb by (vm_compute; reflexivity).
  assert (match served with Ok b => callbacks (client b) !! 2%nat | _ => None end = Some tcp_portforwarding_callbacks) as Hcbs by (vm_compute; reflexivity).
  rewrite Ea in Hca. rewrite Eb in Hcb, Hcbs. injection Hca as Hca Hw. injection Hcb as Hcb Hab Hs.
  destruct (ready_channel a 3248 forwarding_channel Ha Hca) as (ma & Hia & _ & Hina). destruct (ready_channel b 3248 service_channel Hb Hcb) as (mb & Hib & _ & Hinb).
  destruct (connection_data_crosses (arrive 5 hello a) b ma mb 1 1 3248 3248 forwarding_channel service_channel 5 hello (os (worker_of a)))
    as (d & a' & b' & buf & k & H1 & _ & _ & H2 & _ & H3 & _); [apply tell_inv; exact Hia|exact Hina|exact Hca|reflexivity|reflexivity|exact Hib|exact Hinb|exact Hcb|
      reflexivity|exact Hcbs|exact Hab| |split; [reflexivity|vm_compute; intros H; discriminate H]|intros s buf k; apply machine_sends|].
  { unfold arrive, worker_of. cbn. unfold worker_of in Hw. rewrite Hw. cbn. rewrite <- Hw. by destruct (os (env (client a))). }
  rewrite Hs in H3. exists a, b, d, a', b', buf, k. split; [exact Ea|]. split; [exact Eb|]. split; [exact H1|]. split; [exact H2|exact H3].
Defined.

End ForwardingThm.
