(* ===== verification/Cp.v ===== *)
(** * Packets of the carrier protocol

    src/src/carrier/IOEXcp.c: what nodes send each other through the DHT. A packet is
    a struct with the packet's type in its header; the functions read and write the
    fields of the struct that goes with the type, and the codec turns a packet into a
    FlatBuffer with the schema of src/src/carrier/IOEXcp.fbs and back. *)

From Stdlib Require Import ZArith Lia.
From stdpp Require Import prelude list.
From S2P Require Import Prelude.

Module Cp.

Definition IOEXCP_TYPE_USERINFO : Z := 3.
Definition IOEXCP_TYPE_FRIEND_REQUEST : Z := 6.
Definition IOEXCP_TYPE_MESSAGE : Z := 33.
Definition IOEXCP_TYPE_INVITE_REQUEST : Z := 34.
Definition IOEXCP_TYPE_INVITE_RESPONSE : Z := 35.

(** A [char *] that may be [NULL]; a pointer to bytes. *)
Notation c_str := (option bytes).

Record IOEXCPUserInfo := mkUserInfo {
  has_avatar : bool; name : c_str; descr : c_str; phone : c_str; gender : c_str; email : c_str; region : c_str }.
Record IOEXCPFriendReq := mkFriendReq { freq_name : c_str; freq_descr : c_str; hello : c_str }.
Record IOEXCPFriendMsg := mkFriendMsg { msg_len : Z; msg : c_str }.
Record IOEXCPInviteReq := mkInviteReq { ireq_tid : Z; ireq_len : Z; ireq_data : c_str }.
Record IOEXCPInviteRsp := mkInviteRsp { irsp_tid : Z; status : Z; reason : c_str; irsp_len : Z; irsp_data : c_str }.

(** What follows the header in the memory that was allocated. *)
Inductive IOEXcp_packet_t :=
| pkt_info (p : IOEXCPUserInfo)
| pkt_freq (p : IOEXCPFriendReq)
| pkt_fmsg (p : IOEXCPFriendMsg)
| pkt_ireq (p : IOEXCPInviteReq)
| pkt_irsp (p : IOEXCPInviteRsp).

Record IOEXCP := mkCP { type : Z; ext : c_str; pkt : IOEXcp_packet_t }.

Definition set_ext (x : c_str) (cp : IOEXCP) : IOEXCP := mkCP (type cp) x (pkt cp).
Definition set_pkt (p : IOEXcp_packet_t) (cp : IOEXCP) : IOEXCP := mkCP (type cp) (ext cp) p.

(** Zeroed memory of the size for [type]; [ok] is whether there is memory. *)
Definition IOEXcp_create (ok : bool) (type : Z) (ext_name : c_str) : outcome (option IOEXCP) :=
  body ← (if type =? IOEXCP_TYPE_USERINFO then Ok (pkt_info (mkUserInfo false None None None None None None))
    else if type =? IOEXCP_TYPE_FRIEND_REQUEST then Ok (pkt_freq (mkFriendReq None None None))
    else if type =? IOEXCP_TYPE_MESSAGE then Ok (pkt_fmsg (mkFriendMsg 0 None))
    else if type =? IOEXCP_TYPE_INVITE_REQUEST then Ok (pkt_ireq (mkInviteReq 0 0 None))
    else if type =? IOEXCP_TYPE_INVITE_RESPONSE then Ok (pkt_irsp (mkInviteRsp 0 0 None 0 None))
    else AssertFail 140);
  Ok (if ok then Some (mkCP type ext_name body) else None).

Definition IOEXcp_get_type (cp : IOEXCP) : Z := type cp.
Definition IOEXcp_get_extension (cp : IOEXCP) : c_str := ext cp.

(** The struct of the memory behind a pointer of the union: any other access leaves
    the object or misreads it. *)
Definition pktinfo (cp : IOEXCP) : outcome IOEXCPUserInfo := match pkt cp with pkt_info p => Ok p | _ => Undef end.
Definition pktfreq (cp : IOEXCP) : outcome IOEXCPFriendReq := match pkt cp with pkt_freq p => Ok p | _ => Undef end.
Definition pktfmsg (cp : IOEXCP) : outcome IOEXCPFriendMsg := match pkt cp with pkt_fmsg p => Ok p | _ => Undef end.
Definition pktireq (cp : IOEXCP) : outcome IOEXCPInviteReq := match pkt cp with pkt_ireq p => Ok p | _ => Undef end.
Definition pktirsp (cp : IOEXCP) : outcome IOEXCPInviteRsp := match pkt cp with pkt_irsp p => Ok p | _ => Undef end.

(** ** Reading fields *)

Definition IOEXcp_get_name (cp : IOEXCP) : outcome c_str :=
  if type cp =? IOEXCP_TYPE_USERINFO then p ← pktinfo cp; Ok (name p)
  else if type cp =? IOEXCP_TYPE_FRIEND_REQUEST then p ← pktfreq cp; Ok (freq_name p)
  else AssertFail 190.

Definition IOEXcp_get_descr (cp : IOEXCP) : outcome c_str :=
  if type cp =? IOEXCP_TYPE_USERINFO then p ← pktinfo cp; Ok (descr p)
  else if type cp =? IOEXCP_TYPE_FRIEND_REQUEST then p ← pktfreq cp; Ok (freq_descr p)
  else AssertFail 213.

Definition get_info {A} (line : Z) (f : IOEXCPUserInfo -> A) (cp : IOEXCP) : outcome A :=
  if type cp =? IOEXCP_TYPE_USERINFO then p ← pktinfo cp; Ok (f p) else AssertFail line.

Definition IOEXcp_get_gender : IOEXCP -> outcome c_str := get_info 233 gender.
Definition IOEXcp_get_phone : IOEXCP -> outcome c_str := get_info 253 phone.
Definition IOEXcp_get_email : IOEXCP -> outcome c_str := get_info 273 email.
Definition IOEXcp_get_region : IOEXCP -> outcome c_str := get_info 293 region.
Definition IOEXcp_get_has_avatar : IOEXCP -> outcome bool := get_info 313 has_avatar.

Definition IOEXcp_get_hello (cp : IOEXCP) : outcome c_str :=
  if type cp =? IOEXCP_TYPE_FRIEND_REQUEST then p ← pktfreq cp; Ok (hello p) else AssertFail 333.

Definition IOEXcp_get_tid (cp : IOEXCP) : outcome Z :=
  if type cp =? IOEXCP_TYPE_INVITE_REQUEST then p ← pktireq cp; Ok (ireq_tid p)
  else if type cp =? IOEXCP_TYPE_INVITE_RESPONSE then p ← pktirsp cp; Ok (irsp_tid p)
  else AssertFail 356.

Definition IOEXcp_get_status (cp : IOEXCP) : outcome Z :=
  if type cp =? IOEXCP_TYPE_INVITE_RESPONSE then p ← pktirsp cp; Ok (status p) else AssertFail 376.

Definition IOEXcp_get_raw_data (cp : IOEXCP) : outcome c_str :=
  if type cp =? IOEXCP_TYPE_MESSAGE then p ← pktfmsg cp; Ok (msg p)
  else if type cp =? IOEXCP_TYPE_INVITE_REQUEST then p ← pktireq cp; Ok (ireq_data p)
  else if type cp =? IOEXCP_TYPE_INVITE_RESPONSE then p ← pktirsp cp; Ok (irsp_data p)
  else AssertFail 402.

Definition IOEXcp_get_raw_data_length (cp : IOEXCP) : outcome Z :=
  if type cp =? IOEXCP_TYPE_MESSAGE then p ← pktfmsg cp; Ok (msg_len p)
  else if type cp =? IOEXCP_TYPE_INVITE_REQUEST then p ← pktireq cp; Ok (ireq_len p)
  else if type cp =? IOEXCP_TYPE_INVITE_RESPONSE then p ← pktirsp cp; Ok (irsp_len p)
  else AssertFail 428.

Definition IOEXcp_get_reason (cp : IOEXCP) : outcome c_str :=
  if type cp =? IOEXCP_TYPE_INVITE_RESPONSE then p ← pktirsp cp; Ok (reason p) else AssertFail 448.

(** ** Writing fields *)

Definition nonnull (line : Z) (s : c_str) : outcome unit := c_assert line (bool_decide (is_Some s)).

Definition IOEXcp_set_name (s : c_str) (cp : IOEXCP) : outcome IOEXCP :=
  _ ← nonnull 460 s;
  if type cp =? IOEXCP_TYPE_USERINFO then
    p ← pktinfo cp;
    Ok (set_pkt (pkt_info (mkUserInfo (has_avatar p) s (descr p) (phone p) (gender p) (email p) (region p))) cp)
  else if type cp =? IOEXCP_TYPE_FRIEND_REQUEST then
    p ← pktfreq cp;
    Ok (set_pkt (pkt_freq (mkFriendReq s (freq_descr p) (hello p))) cp)
  else AssertFail 472.

Definition IOEXcp_set_descr (s : c_str) (cp : IOEXCP) : outcome IOEXCP :=
  _ ← nonnull 482 s;
  if type cp =? IOEXCP_TYPE_USERINFO then
    p ← pktinfo cp;
    Ok (set_pkt (pkt_info (mkUserInfo (has_avatar p) (name p) s (phone p) (gender p) (email p) (region p))) cp)
  else if type cp =? IOEXCP_TYPE_FRIEND_REQUEST then
    p ← pktfreq cp;
    Ok (set_pkt (pkt_freq (mkFriendReq (freq_name p) s (hello p))) cp)
  else AssertFail 494.

Definition upd_info (line : Z) (f : IOEXCPUserInfo -> IOEXCPUserInfo) (cp : IOEXCP) : outcome IOEXCP :=
  if type cp =? IOEXCP_TYPE_USERINFO then p ← pktinfo cp; Ok (set_pkt (pkt_info (f p)) cp) else AssertFail line.

Definition IOEXcp_set_gender (s : c_str) (cp : IOEXCP) : outcome IOEXCP :=
  _ ← nonnull 504 s;
  upd_info 513 (fun p => mkUserInfo (has_avatar p) (name p) (descr p) (phone p) s (email p) (region p)) cp.
Definition IOEXcp_set_phone (s : c_str) (cp : IOEXCP) : outcome IOEXCP :=
  _ ← nonnull 523 s;
  upd_info 532 (fun p => mkUserInfo (has_avatar p) (name p) (descr p) s (gender p) (email p) (region p)) cp.
Definition IOEXcp_set_email (s : c_str) (cp : IOEXCP) : outcome IOEXCP :=
  _ ← nonnull 542 s;
  upd_info 551 (fun p => mkUserInfo (has_avatar p) (name p) (descr p) (phone p) (gender p) s (region p)) cp.
Definition IOEXcp_set_region (s : c_str) (cp : IOEXCP) : outcome IOEXCP :=
  _ ← nonnull 561 s;
  upd_info 570 (fun p => mkUserInfo (has_avatar p) (name p) (descr p) (phone p) (gender p) (email p) s) cp.
Definition IOEXcp_set_has_avatar (b : Z) (cp : IOEXCP) : outcome IOEXCP :=
  upd_info 587 (fun p => mkUserInfo (nonzero b) (name p) (descr p) (phone p) (gender p) (email p) (region p)) cp.

Definition IOEXcp_set_hello (s : c_str) (cp : IOEXCP) : outcome IOEXCP :=
  _ ← nonnull 597 s;
  if type cp =? IOEXCP_TYPE_FRIEND_REQUEST then
    p ← pktfreq cp; Ok (set_pkt (pkt_freq (mkFriendReq (freq_name p) (freq_descr p) s)) cp)
  else AssertFail 606.

Definition IOEXcp_set_tid (tid : Z) (cp : IOEXCP) : outcome IOEXCP :=
  if type cp =? IOEXCP_TYPE_INVITE_REQUEST then
    p ← pktireq cp; Ok (set_pkt (pkt_ireq (mkInviteReq tid (ireq_len p) (ireq_data p))) cp)
  else if type cp =? IOEXCP_TYPE_INVITE_RESPONSE then
    p ← pktirsp cp; Ok (set_pkt (pkt_irsp (mkInviteRsp tid (status p) (reason p) (irsp_len p) (irsp_data p))) cp)
  else AssertFail 628.

Definition IOEXcp_set_status (n : Z) (cp : IOEXCP) : outcome IOEXCP :=
  if type cp =? IOEXCP_TYPE_INVITE_RESPONSE then
    p ← pktirsp cp; Ok (set_pkt (pkt_irsp (mkInviteRsp (irsp_tid p) n (reason p) (irsp_len p) (irsp_data p))) cp)
  else AssertFail 645.

Definition IOEXcp_set_raw_data (d : c_str) (len : Z) (cp : IOEXCP) : outcome IOEXCP :=
  _ ← nonnull 655 d; _ ← c_assert 656 (0 <? len);
  if type cp =? IOEXCP_TYPE_MESSAGE then p ← pktfmsg cp; Ok (set_pkt (pkt_fmsg (mkFriendMsg len d)) cp)
  else if type cp =? IOEXCP_TYPE_INVITE_REQUEST then
    p ← pktireq cp; Ok (set_pkt (pkt_ireq (mkInviteReq (ireq_tid p) len d)) cp)
  else if type cp =? IOEXCP_TYPE_INVITE_RESPONSE then
    p ← pktirsp cp; Ok (set_pkt (pkt_irsp (mkInviteRsp (irsp_tid p) (status p) (reason p) len d)) cp)
  else AssertFail 674.

Definition IOEXcp_set_reason (s : c_str) (cp : IOEXCP) : outcome IOEXCP :=
  _ ← nonnull 684 s;
  if type cp =? IOEXCP_TYPE_INVITE_RESPONSE then
    p ← pktirsp cp; Ok (set_pkt (pkt_irsp (mkInviteRsp (irsp_tid p) (status p) s (irsp_len p) (irsp_data p))) cp)
  else AssertFail 693.


(** ** The codec

    A table of a FlatBuffer: the slots that are present. The slot of a field is its
    position in the table of IOEXcp.fbs, so that [IOEXcp_friendmsg_ext_add], called for
    three tables, sets the slot [ext] has in each of them. A scalar equal to its default
    is left out and read as the default. *)

Inductive slot := SlotStr (s : bytes) | SlotVec (b : bytes) | SlotInt (n : Z).
Notation table := (list (Z * slot)).

Fixpoint table_slot (i : Z) (t : table) : option slot :=
  match t with [] => None | (j, v) :: t => if j =? i then Some v else table_slot i t end.

Definition add_int (i n : Z) (t : table) : table := if n =? 0 then t else t ++ [(i, SlotInt n)].

(** [flatcc_builder_create_string_str] reads the string; [flatbuffers_uint8_vec_create]
    reads [len] bytes. *)
Definition add_str (i : Z) (s : c_str) (t : table) : outcome table :=
  match s with Some s => Ok (t ++ [(i, SlotStr s)]) | None => Undef end.
Definition add_vec (i : Z) (d : c_str) (len : Z) (t : table) : outcome table :=
  match d with
  | Some d => b ← mem_read d 0 len; Ok (t ++ [(i, SlotVec b)])
  | None => if len =? 0 then Ok (t ++ [(i, SlotVec [])]) else Undef
  end.
Definition add_opt (i : Z) (s : c_str) (t : table) : outcome table :=
  match s with Some _ => add_str i s t | None => Ok t end.

(** The readers take the slot to hold what the schema says. *)
Definition get_str (i : Z) (t : table) : outcome c_str :=
  match table_slot i t with Some (SlotStr s) => Ok (Some s) | None => Ok None | _ => Undef end.
Definition get_vec (i : Z) (t : table) : outcome c_str :=
  match table_slot i t with Some (SlotVec b) => Ok (Some b) | None => Ok None | _ => Undef end.
Definition get_int (i : Z) (t : table) : outcome Z :=
  match table_slot i t with Some (SlotInt n) => Ok n | None => Ok 0 | _ => Undef end.
Definition vec_len (v : c_str) : Z := match v with Some b => zlen b | None => 0 end.

(** The root table: the type, and the union with the tag of its table. *)
Record packet_table := mkPacket { packet_type : Z; packet_body : option (Z * table) }.

(** The FlatBuffers runtime and the code that its compiler generates: whether a table
    or the root can be ended, the buffer of a root table, and the root table of a
    buffer, which is not checked when it is read. *)
Class FlatBuffers (E : Type) := {
  table_end : E -> bool * E;
  finalize_buffer : packet_table -> E -> option bytes * E;
  packet_as_root : bytes -> outcome (option packet_table);
}.

(** What is read from a finished buffer is what was built. *)
Class FlatLaws (E : Type) `{FlatBuffers E} :=
  packet_read : forall p e b e', finalize_buffer p e = (Some b, e') -> packet_as_root b = Ok (Some p).

Definition tag_of (type : Z) : Z :=
  if type =? IOEXCP_TYPE_USERINFO then 1 else if type =? IOEXCP_TYPE_FRIEND_REQUEST then 2
  else if type =? IOEXCP_TYPE_MESSAGE then 3 else if type =? IOEXCP_TYPE_INVITE_REQUEST then 4 else 5.

(** The table of a packet. *)
Definition encode_table (cp : IOEXCP) : outcome table :=
  if type cp =? IOEXCP_TYPE_USERINFO then
    p ← pktinfo cp;
    t ← add_opt 1 (name p) [];
    t ← add_str 2 (descr p) t;
    t ← add_str 4 (gender p) t;
    t ← add_str 3 (phone p) t;
    t ← add_str 5 (email p) t;
    t ← add_str 6 (region p) t;
    Ok (add_int 0 (Z.b2z (has_avatar p)) t)
  else if type cp =? IOEXCP_TYPE_FRIEND_REQUEST then
    p ← pktfreq cp;
    t ← add_str 0 (freq_name p) [];
    t ← add_str 1 (freq_descr p) t;
    add_str 2 (hello p) t
  else if type cp =? IOEXCP_TYPE_MESSAGE then
    p ← pktfmsg cp;
    t ← add_opt 0 (ext cp) [];
    add_vec 1 (msg p) (msg_len p) t
  else if type cp =? IOEXCP_TYPE_INVITE_REQUEST then
    p ← pktireq cp;
    t ← add_opt 0 (ext cp) [];
    add_vec 2 (ireq_data p) (ireq_len p) (add_int 1 (ireq_tid p) t)
  else if type cp =? IOEXCP_TYPE_INVITE_RESPONSE then
    p ← pktirsp cp;
    t ← add_opt 0 (ext cp) [];
    let t := add_int 2 (status p) (add_int 1 (irsp_tid p) t) in
    if nonzero (status p) then add_str 3 (reason p) t
    else add_vec 4 (irsp_data p) (irsp_len p) t
  else AssertFail 790.

Section Codec.
Context {E : Type} {F : FlatBuffers E}.

Definition IOEXcp_encode (cp : IOEXCP) (e : E) : outcome (option bytes * E) :=
  t ← encode_table cp;
  let '(ref, e) := table_end e in
  if negb ref then Ok (None, e)
  else
    let '(root, e) := table_end e in
    if negb root then Ok (None, e)
    else Ok (finalize_buffer (mkPacket (type cp) (Some (tag_of (type cp), t))) e).

Definition known_type (type : Z) : bool :=
  (type =? IOEXCP_TYPE_USERINFO) || (type =? IOEXCP_TYPE_FRIEND_REQUEST) || (type =? IOEXCP_TYPE_MESSAGE) ||
  (type =? IOEXCP_TYPE_INVITE_REQUEST) || (type =? IOEXCP_TYPE_INVITE_RESPONSE).

(** The fields of the packet, from the table; the tag of the union is not looked at. *)
Definition decode_table (cp : IOEXCP) (t : table) : outcome IOEXCP :=
  if type cp =? IOEXCP_TYPE_USERINFO then
    name ← get_str 1 t; descr ← get_str 2 t; gender ← get_str 4 t; phone ← get_str 3 t;
    email ← get_str 5 t; region ← get_str 6 t; avatar ← get_int 0 t;
    Ok (set_pkt (pkt_info (mkUserInfo (nonzero avatar) name descr phone gender email region)) cp)
  else if type cp =? IOEXCP_TYPE_FRIEND_REQUEST then
    name ← get_str 0 t; descr ← get_str 1 t; hello ← get_str 2 t;
    Ok (set_pkt (pkt_freq (mkFriendReq name descr hello)) cp)
  else if type cp =? IOEXCP_TYPE_MESSAGE then
    vec ← get_vec 1 t; x ← get_str 0 t;
    Ok (set_ext x (set_pkt (pkt_fmsg (mkFriendMsg (vec_len vec) vec)) cp))
  else if type cp =? IOEXCP_TYPE_INVITE_REQUEST then
    tid ← get_int 1 t; vec ← get_vec 2 t; x ← get_str 0 t;
    Ok (set_ext x (set_pkt (pkt_ireq (mkInviteReq tid (vec_len vec) vec)) cp))
  else
    tid ← get_int 1 t; status ← get_int 2 t;
    p ← (if nonzero status then reason ← get_str 3 t; Ok (mkInviteRsp tid status reason 0 None)
         else vec ← get_vec 4 t; Ok (mkInviteRsp tid status None (vec_len vec) vec));
    x ← get_str 0 t;
    Ok (set_ext x (set_pkt (pkt_irsp p) cp)).

(** [ok] is whether there is memory for the packet. *)
Definition IOEXcp_decode (ok : bool) (data : bytes) : outcome (option IOEXCP) :=
  r ← packet_as_root data;
  match r with
  | None => Ok None
  | Some packet =>
      if negb (known_type (packet_type packet)) then Ok None
      else
        c ← IOEXcp_create ok (packet_type packet) None;
        match c, packet_body packet with
        | Some cp, Some (_, t) => cp ← decode_table cp t; Ok (Some cp)
        | _, _ => Ok None
        end
  end.

End Codec.


(** ** Theorems: the fields *)

(** The memory is that of the type in the header. *)
Definition well_typed (cp : IOEXCP) : Prop :=
  match pkt cp with
  | pkt_info _ => type cp = IOEXCP_TYPE_USERINFO
  | pkt_freq _ => type cp = IOEXCP_TYPE_FRIEND_REQUEST
  | pkt_fmsg _ => type cp = IOEXCP_TYPE_MESSAGE
  | pkt_ireq _ => type cp = IOEXCP_TYPE_INVITE_REQUEST
  | pkt_irsp _ => type cp = IOEXCP_TYPE_INVITE_RESPONSE
  end.

Inductive field := FName | FDescr | FGender | FPhone | FEmail | FRegion | FAvatar | FHello | FTid | FStatus | FData | FReason.

#[export] Instance field_eq : EqDecision field.
Proof. solve_decision. Defined.

(** The types of packet that have a field. *)
Definition field_types (f : field) : list Z :=
  match f with
  | FName | FDescr => [IOEXCP_TYPE_USERINFO; IOEXCP_TYPE_FRIEND_REQUEST]
  | FGender | FPhone | FEmail | FRegion | FAvatar => [IOEXCP_TYPE_USERINFO]
  | FHello => [IOEXCP_TYPE_FRIEND_REQUEST]
  | FTid => [IOEXCP_TYPE_INVITE_REQUEST; IOEXCP_TYPE_INVITE_RESPONSE]
  | FStatus | FReason => [IOEXCP_TYPE_INVITE_RESPONSE]
  | FData => [IOEXCP_TYPE_MESSAGE; IOEXCP_TYPE_INVITE_REQUEST; IOEXCP_TYPE_INVITE_RESPONSE]
  end.

Definition has_field (f : field) (cp : IOEXCP) : Prop := type cp ∈ field_types f.

#[export] Instance has_field_dec f cp : Decision (has_field f cp).
Proof. unfold has_field. apply _. Defined.

Inductive value := VStr (s : c_str) | VInt (n : Z) | VData (d : c_str) (len : Z).

Definition get (f : field) (cp : IOEXCP) : outcome value :=
  match f with
  | FName => s ← IOEXcp_get_name cp; Ok (VStr s)
  | FDescr => s ← IOEXcp_get_descr cp; Ok (VStr s)
  | FGender => s ← IOEXcp_get_gender cp; Ok (VStr s)
  | FPhone => s ← IOEXcp_get_phone cp; Ok (VStr s)
  | FEmail => s ← IOEXcp_get_email cp; Ok (VStr s)
  | FRegion => s ← IOEXcp_get_region cp; Ok (VStr s)
  | FAvatar => b ← IOEXcp_get_has_avatar cp; Ok (VInt (Z.b2z b))
  | FHello => s ← IOEXcp_get_hello cp; Ok (VStr s)
  | FTid => n ← IOEXcp_get_tid cp; Ok (VInt n)
  | FStatus => n ← IOEXcp_get_status cp; Ok (VInt n)
  | FData => d ← IOEXcp_get_raw_data cp; n ← IOEXcp_get_raw_data_length cp; Ok (VData d n)
  | FReason => s ← IOEXcp_get_reason cp; Ok (VStr s)
  end.

(** The calls that write: the field, and the value it has afterwards. *)
Inductive setter := SetStr (f : field) (s : bytes) | SetInt (f : field) (n : Z) | SetData (d : bytes) (len : Z).

Definition set (c : setter) (cp : IOEXCP) : outcome IOEXCP :=
  match c with
  | SetStr FName s => IOEXcp_set_name (Some s) cp
  | SetStr FDescr s => IOEXcp_set_descr (Some s) cp
  | SetStr FGender s => IOEXcp_set_gender (Some s) cp
  | SetStr FPhone s => IOEXcp_set_phone (Some s) cp
  | SetStr FEmail s => IOEXcp_set_email (Some s) cp
  | SetStr FRegion s => IOEXcp_set_region (Some s) cp
  | SetStr FHello s => IOEXcp_set_hello (Some s) cp
  | SetStr FReason s => IOEXcp_set_reason (Some s) cp
  | SetInt FAvatar n => IOEXcp_set_has_avatar n cp
  | SetInt FTid n => IOEXcp_set_tid n cp
  | SetInt FStatus n => IOEXcp_set_status n cp
  | SetData d len => IOEXcp_set_raw_data (Some d) len cp
  | _ => Ok cp
  end.

Definition sets (c : setter) : option (field * value) :=
  match c with
  | SetStr f s => if bool_decide (f ∈ [FAvatar; FTid; FStatus; FData]) then None else Some (f, VStr (Some s))
  | SetInt FAvatar n => Some (FAvatar, VInt (Z.b2z (nonzero n)))
  | SetInt f n => if bool_decide (f ∈ [FTid; FStatus]) then Some (f, VInt n) else None
  | SetData d len => if 0 <? len then Some (FData, VData (Some d) len) else None
  end.

Ltac type_cases cp Ht :=
  destruct cp as [ty x p]; unfold well_typed in Ht; cbn in Ht; destruct p; subst ty.

Lemma create_typed ty x cp : IOEXcp_create true ty x = Ok (Some cp) -> well_typed cp /\ type cp = ty /\ ext cp = x.
Proof.
  unfold IOEXcp_create. repeat (destruct (ty =? _) eqn:?; zify_tests; bind_simpl; [by intros [= <-]; subst|]). done.
Qed.

Lemma get_typed f cp : well_typed cp ->
  if bool_decide (has_field f cp) then exists v, get f cp = Ok v else exists line, get f cp = AssertFail line.
Proof. intros Ht. type_cases cp Ht; destruct f; cbn; by eexists. Qed.

Lemma set_typed c f v cp : well_typed cp -> sets c = Some (f, v) ->
  if bool_decide (has_field f cp) then
    exists cp', set c cp = Ok cp' /\ well_typed cp' /\ type cp' = type cp /\ ext cp' = ext cp /\
      get f cp' = Ok v /\ forall g, g <> f -> get g cp' = get g cp
  else exists line, set c cp = AssertFail line.
Proof.
  intros Ht Hs. destruct c as [g s|g n|d n]; cbn in Hs; [destruct g|destruct g|destruct (0 <? n) eqn:En]; try discriminate Hs;
    injection Hs as <- <-; type_cases cp Ht; cbn; unfold IOEXcp_set_raw_data; cbn; rewrite ?En; cbn;
    eexists; try reflexivity; (split; [reflexivity|]); split_and!; try done; intros g Hg; destruct g; done.
Qed.

(** C29. The fields of packets: a new packet has the memory of its type; in such a
    packet a field can be read exactly when packets of the type have it, and any
    other read ends the process; a call that writes a field the type has keeps type,
    extension and all other fields, and the field then reads as what was written;
    a call that writes any other field ends the process. *)
Theorem cp_fields : 
  (forall ty x cp, IOEXcp_create true ty x = Ok (Some cp) -> well_typed cp /\ type cp = ty /\ ext cp = x) /\
  (forall f cp, well_typed cp ->
    if bool_decide (has_field f cp) then exists v, get f cp = Ok v else exists line, get f cp = AssertFail line) /\
  (forall c f v cp, well_typed cp -> sets c = Some (f, v) ->
    if bool_decide (has_field f cp) then
      exists cp', set c cp = Ok cp' /\ well_typed cp' /\ type cp' = type cp /\ ext cp' = ext cp /\
        get f cp' = Ok v /\ forall g, g <> f -> get g cp' = get g cp
    else exists line, set c cp = AssertFail line).
Proof. split_and!; [apply create_typed|apply get_typed|apply set_typed]. Qed.

Lemma cp_fields_witness :
  let cp := mkCP 34 None (pkt_ireq (mkInviteReq 0 0 None)) in
  (exists cp', set (SetInt FTid 5) cp = Ok cp' /\ get FTid cp' = Ok (VInt 5)) /\ exists line, get FReason cp = AssertFail line.
Proof.
  split.
  - destruct (proj2 (proj2 cp_fields) (SetInt FTid 5) FTid (VInt 5) (mkCP 34 None (pkt_ireq (mkInviteReq 0 0 None)))
      eq_refl eq_refl) as (cp' & H1 & _ & _ & _ & H2 & _). by exists cp'.
  - exact (proj1 (proj2 cp_fields) FReason (mkCP 34 None (pkt_ireq (mkInviteReq 0 0 None))) eq_refl).
Defined.

(** ** Theorems: the codec *)

(** The fields that encoding reads are set. *)
Definition data_ok (d : c_str) (len : Z) : Prop := match d with Some b => 0 <= len <= zlen b | None => len = 0 end.

Definition sendable (cp : IOEXCP) : Prop :=
  match pkt cp with
  | pkt_info p => Forall is_Some [descr p; gender p; phone p; email p; region p]
  | pkt_freq p => Forall is_Some [freq_name p; freq_descr p; hello p]
  | pkt_fmsg p => data_ok (msg p) (msg_len p)
  | pkt_ireq p => data_ok (ireq_data p) (ireq_len p)
  | pkt_irsp p => if nonzero (status p) then is_Some (reason p) else data_ok (irsp_data p) (irsp_len p)
  end.

(** What arrives: the extension only with messages and invitations, the data at its
    length, and either reason or data of a response. *)
Definition data_bytes (d : c_str) (len : Z) : bytes := match d with Some b => ztake len b | None => [] end.
#[global] Arguments data_bytes : simpl never.

Definition wire (cp : IOEXCP) : IOEXCP :=
  match pkt cp with
  | pkt_info _ | pkt_freq _ => set_ext None cp
  | pkt_fmsg p => set_pkt (pkt_fmsg (mkFriendMsg (msg_len p) (Some (data_bytes (msg p) (msg_len p))))) cp
  | pkt_ireq p => set_pkt (pkt_ireq (mkInviteReq (ireq_tid p) (ireq_len p) (Some (data_bytes (ireq_data p) (ireq_len p))))) cp
  | pkt_irsp p =>
      set_pkt (pkt_irsp (if nonzero (status p) then mkInviteRsp (irsp_tid p) (status p) (reason p) 0 None
        else mkInviteRsp (irsp_tid p) (status p) None (irsp_len p) (Some (data_bytes (irsp_data p) (irsp_len p))))) cp
  end.


Lemma add_vec_ok i d len t : data_ok d len -> add_vec i d len t = Ok (t ++ [(i, SlotVec (data_bytes d len))]).
Proof.
  unfold add_vec, data_bytes. destruct d as [b|]; cbn; [|by intros ->].
  intros H. by rewrite mem_read_ok, zdrop_0 by lia.
Qed.

Lemma data_bytes_len d len : data_ok d len -> zlen (data_bytes d len) = len.
Proof. unfold data_bytes. destruct d as [b|]; cbn; [apply zlen_ztake_le|by intros ->]. Qed.

(** Reading a slot of what was built. *)
Lemma table_slot_app i t t' : table_slot i (t ++ t') = match table_slot i t with Some v => Some v | None => table_slot i t' end.
Proof. induction t as [|[j v] t IH]; cbn; [done|]. destruct (j =? i); [done|apply IH]. Qed.

Lemma table_slot_int i j n t :
  table_slot i (add_int j n t) =
    match table_slot i t with Some v => Some v | None => if (j =? i) && nonzero n then Some (SlotInt n) else None end.
Proof.
  unfold add_int, nonzero. destruct (n =? 0); cbn.
  - rewrite andb_false_r. by destruct (table_slot i t).
  - rewrite table_slot_app, andb_true_r. done.
Qed.

Ltac slot_reads := unfold get_str, get_vec, get_int; rewrite ?table_slot_app, ?table_slot_int, ?table_slot_app; cbn.

Lemma encode_decode_table cp : well_typed cp -> sendable cp ->
  exists t, encode_table cp = Ok t /\
    forall cp0, IOEXcp_create true (type cp) None = Ok (Some cp0) -> decode_table cp0 t = Ok (wire cp).
Proof.
  intros Ht Hs. type_cases cp Ht; cbn in Hs; unfold encode_table, decode_table; cbn.
  - destruct p as [av nm de ph ge em re]. cbn in Hs.
    repeat match goal with H : Forall _ (_ :: _) |- _ => apply Forall_cons in H as [[? ->] H] end.
    destruct nm; cbn; eexists; (split; [reflexivity|]); intros cp0 [= <-]; cbn; by destruct av.
  - destruct p as [nm de he]. cbn in Hs.
    repeat match goal with H : Forall _ (_ :: _) |- _ => apply Forall_cons in H as [[? ->] H] end.
    cbn. eexists. split; [reflexivity|]. by intros cp0 [= <-].
  - destruct p as [n d]. cbn in Hs |- *. destruct x; cbn; rewrite add_vec_ok by done; eexists; (split; [reflexivity|]);
      intros cp0 [= <-]; cbn; by rewrite data_bytes_len.
  - destruct p as [tid n d]. cbn in Hs |- *. destruct x; cbn; rewrite add_vec_ok by done; eexists; (split; [reflexivity|]);
      intros cp0 [= <-]; cbn; slot_reads; destruct (Z.eqb_spec tid 0) as [->|]; cbn;
      rewrite ?nonzero_true by done; cbn; by rewrite data_bytes_len.
  - destruct p as [tid st re n d]. cbn in Hs |- *. unfold nonzero in *.
    destruct (Z.eqb_spec st 0) as [->|Hst]; cbn in Hs |- *.
    + destruct x; cbn; rewrite add_vec_ok by done; eexists; (split; [reflexivity|]);
        intros cp0 [= <-]; cbn; slot_reads; unfold nonzero; destruct (Z.eqb_spec tid 0) as [->|]; cbn; by rewrite data_bytes_len.
    + destruct Hs as [s ->]. destruct x; cbn; eexists; (split; [reflexivity|]); intros cp0 [= <-]; cbn; slot_reads;
        unfold nonzero; destruct (Z.eqb_spec tid 0) as [->|]; cbn; rewrite ?(proj2 (Z.eqb_neq st 0)) by done; cbn;
        by rewrite ?(proj2 (Z.eqb_neq st 0)) by done.
Qed.


Section CodecTheorems.
Context {E : Type} {F : FlatBuffers E} {FL : FlatLaws E}.

Lemma encode_decodes cp e : well_typed cp -> sendable cp ->
  exists r e', IOEXcp_encode cp e = Ok (r, e') /\
    forall b, r = Some b -> IOEXcp_decode true b = Ok (Some (wire cp)).
Proof.
  intros Ht Hs. destruct (encode_decode_table cp Ht Hs) as (t & Et & Hd). unfold IOEXcp_encode. rewrite Et. bind_simpl.
  destruct (table_end e) as [[] e1]; cbn [negb]; [|by exists None, e1].
  destruct (table_end e1) as [[] e2]; cbn [negb]; [|by exists None, e2].
  destruct (finalize_buffer _ e2) as [r e3] eqn:Ef. exists r, e3. split; [done|]. intros b ->.
  unfold IOEXcp_decode. rewrite (packet_read _ _ _ _ Ef). bind_simpl. cbn [packet_type packet_body].
  assert (known_type (type cp) = true) as -> by (type_cases cp Ht; done). cbn [negb].
  assert (exists cp0, IOEXcp_create true (type cp) None = Ok (Some cp0)) as [cp0 E0] by (type_cases cp Ht; by eexists).
  rewrite E0. bind_simpl. rewrite (Hd _ E0). done.
Qed.

(** C28. Packets survive the way to the peer: encoding a packet whose fields are set
    returns, with the bytes or without (when the builder has no memory), and what the
    peer decodes from the bytes is the same packet, but for what is not sent: the
    extension of user information and friend requests, the data of a refusal, and the
    reason of an acceptance. *)
Theorem cp_round_trip cp e : well_typed cp -> sendable cp ->
  exists r e', IOEXcp_encode cp e = Ok (r, e') /\
    forall b, r = Some b -> IOEXcp_decode true b = Ok (Some (wire cp)).
Proof. apply encode_decodes. Qed.

End CodecTheorems.

(** ** A codec for runs

    A buffer is the numbers of the packet one after the other. *)

Definition write_slot (f : Z * slot) : bytes :=
  fst f :: match snd f with SlotStr s => 0 :: zlen s :: s | SlotVec b => 1 :: zlen b :: b | SlotInt n => [2; n] end.

Definition write_packet (p : packet_table) : bytes :=
  packet_type p :: match packet_body p with
                   | None => []
                   | Some (tag, t) => tag :: zlen t :: concat (write_slot <$> t)
                   end.

Fixpoint read_slots (n : nat) (b : bytes) : option table :=
  match n with
  | O => Some []
  | S n =>
      match b with
      | i :: 2 :: x :: b => t ← read_slots n b; Some ((i, SlotInt x) :: t)
      | i :: k :: len :: b =>
          t ← read_slots n (zdrop len b);
          Some ((i, if k =? 0 then SlotStr (ztake len b) else SlotVec (ztake len b)) :: t)
      | _ => None
      end
  end.

Definition read_packet (b : bytes) : option packet_table :=
  match b with
  | [type] => Some (mkPacket type None)
  | type :: tag :: n :: b => t ← read_slots (Z.to_nat n) b; Some (mkPacket type (Some (tag, t)))
  | _ => None
  end.

Lemma read_write_slots t : read_slots (length t) (concat (write_slot <$> t)) = Some t.
Proof.
  induction t as [|[i [s|s|n]] t IH]; cbn [length fmap list_fmap concat write_slot fst snd app read_slots]; [done| | |];
    rewrite ?ztake_app_len, ?zdrop_app_len by done; cbn; by rewrite IH.
Qed.

Definition plain_flatbuffers {E} : FlatBuffers E := {|
  table_end e := (true, e);
  finalize_buffer p e := (Some (write_packet p), e);
  packet_as_root b := Ok (read_packet b);
|}.

Lemma plain_laws {E} : @FlatLaws E plain_flatbuffers.
Proof.
  intros [ty [[tag t]|]] e b e' H; cbn in H; injection H as <- <-; cbn; [|done].
  unfold zlen. rewrite Nat2Z.id, read_write_slots. done.
Qed.

(** A refusal, sent and received. *)
Definition demo_refusal : IOEXCP := mkCP 35 (Some [115]) (pkt_irsp (mkInviteRsp 9 1 (Some [110; 111]) 2 (Some [1; 2; 3]))).

Lemma cp_round_trip_witness :
  exists b, @IOEXcp_encode unit plain_flatbuffers demo_refusal tt = Ok (Some b, tt) /\
    @IOEXcp_decode unit plain_flatbuffers true b =
      Ok (Some (mkCP 35 (Some [115]) (pkt_irsp (mkInviteRsp 9 1 (Some [110; 111]) 0 None)))).
Proof.
  destruct (@cp_round_trip unit plain_flatbuffers plain_laws demo_refusal tt eq_refl ltac:(by eexists)) as (r & e' & H1 & H2).
  vm_compute in H1. injection H1 as <- <-. eexists. split; [vm_compute; reflexivity|]. exact (H2 _ eq_refl).
Defined.

(** The packet's type and the tag of its union need not agree, and the decoder goes by
    the type: of a packet that says it is a response and carries user information it
    reads a string as the identifier of a transaction. *)
Example decode_confuses_tables :
  @IOEXcp_decode unit plain_flatbuffers true
    (write_packet (mkPacket IOEXCP_TYPE_INVITE_RESPONSE (Some (1, [(1, SlotStr [97; 98]); (2, SlotStr [99])])))) = Undef.
Proof. vm_compute. reflexivity. Qed.

(** User information without a description cannot be encoded: the length of a null
    string is asked for. *)
Example encode_needs_strings :
  @IOEXcp_encode unit plain_flatbuffers (mkCP IOEXCP_TYPE_USERINFO None (pkt_info (mkUserInfo true (Some [97]) None None None None None))) tt
    = Undef.
Proof. vm_compute. reflexivity. Qed.

End Cp.
