(* ===== verification/Node.v ===== *)
(** * What a carrier node keeps about users

    The structs of src/src/carrier/IOEX_carrier.h that describe users, and the table of
    friends of src/src/carrier/friends.h, as the map that [Tables.node_table_refines]
    shows the linked hash table to be. *)

From Stdlib Require Import ZArith Lia.
From stdpp Require Import prelude list.
From S2P Require Import Prelude CStr Tables.

Module Node.
Import CStr Tables.

Definition IOEX_MAX_USER_NAME_LEN : Z := 63.
Definition IOEX_MAX_USER_DESCRIPTION_LEN : Z := 127.
Definition IOEX_MAX_PHONE_LEN : Z := 31.
Definition IOEX_MAX_EMAIL_LEN : Z := 127.
Definition IOEX_MAX_REGION_LEN : Z := 127.
Definition IOEX_MAX_GENDER_LEN : Z := 31.

Definition IOEXConnectionStatus_Connected : Z := 0.
Definition IOEXConnectionStatus_Disconnected : Z := 1.
Definition IOEXPresenceStatus_None : Z := 0.
Definition IOEXPresenceStatus_Busy : Z := 2.

(** The arrays of the structs are the strings in them. *)
Record IOEXUserInfo := mkUser {
  userid : bytes; name : bytes; description : bytes; has_avatar : Z;
  gender : bytes; phone : bytes; email : bytes; region : bytes }.

Record IOEXFriendInfo := mkFriend { user_info : IOEXUserInfo; label : bytes; status : Z; presence : Z }.

Record FriendInfo := mkFI { friend_number : Z; info : IOEXFriendInfo }.

#[export] Instance user_eq : EqDecision IOEXUserInfo.
Proof. solve_decision. Defined.
#[export] Instance friend_eq : EqDecision IOEXFriendInfo.
Proof. solve_decision. Defined.
#[export] Instance friend_info_eq : EqDecision FriendInfo.
Proof. solve_decision. Defined.

Definition zero_user : IOEXUserInfo := mkUser [] [] [] 0 [] [] [] [].
Definition zero_friend : IOEXFriendInfo := mkFriend zero_user [] 0 0.

Definition with_userid (s : bytes) (u : IOEXUserInfo) : IOEXUserInfo :=
  mkUser s (name u) (description u) (has_avatar u) (gender u) (phone u) (email u) (region u).
Definition with_user (u : IOEXUserInfo) (i : IOEXFriendInfo) : IOEXFriendInfo := mkFriend u (label i) (status i) (presence i).
Definition with_label (s : bytes) (i : IOEXFriendInfo) : IOEXFriendInfo := mkFriend (user_info i) s (status i) (presence i).
Definition with_status (s : Z) (i : IOEXFriendInfo) : IOEXFriendInfo := mkFriend (user_info i) (label i) s (presence i).
Definition with_presence (s : Z) (i : IOEXFriendInfo) : IOEXFriendInfo := mkFriend (user_info i) (label i) (status i) s.
Definition on_info (f : IOEXFriendInfo -> IOEXFriendInfo) (fi : FriendInfo) : FriendInfo := mkFI (friend_number fi) (f (info fi)).

(** ** The table of friends *)

Notation friends_t := (list (Z * FriendInfo)).

Definition friends_exist (n : Z) (t : friends_t) : outcome bool :=
  _ ← c_assert 58 (negb (n =? UINT32_MAX)); Ok (table_exist n t).
Definition friends_put (fi : FriendInfo) (t : friends_t) : friends_t := table_put (friend_number fi) fi t.
Definition friends_get (n : Z) (t : friends_t) : outcome (option FriendInfo) :=
  _ ← c_assert 80 (negb (n =? UINT32_MAX)); Ok (table_get n t).
Definition friends_remove (n : Z) (t : friends_t) : outcome (option FriendInfo * friends_t) :=
  _ ← c_assert 89 (negb (n =? UINT32_MAX)); Ok (table_get n t, table_remove n t).

(** The objects in the order of an iteration. *)
Definition friends_iterate (t : friends_t) : list FriendInfo := snd <$> t.

(** Every object is under its own number, and no two have the same. *)
Definition friends_wf (t : friends_t) : Prop :=
  NoDup t.*1 /\ Forall (fun p => friend_number (snd p) = fst p /\ 0 <= fst p < UINT32_MAX) t.

#[export] Instance friends_wf_dec t : Decision (friends_wf t).
Proof. apply _. Defined.

Lemma friends_get_wf n t fi : friends_wf t -> table_get n t = Some fi -> friend_number fi = n /\ 0 <= n < UINT32_MAX.
Proof. intros [_ H] Hg%table_get_in. rewrite Forall_forall in H. by apply H in Hg. Qed.

Lemma table_put_in {K V} `{EqDecision K} (k : K) (v : V) m x : x ∈ table_put k v m -> x = (k, v) \/ x ∈ m.
Proof.
  induction m as [|[k' v'] m IH]; cbn; [intros ->%list_elem_of_singleton; by left|]. destruct (decide (k' = k)).
  - intros [->|H]%elem_of_cons; [by left|right; by right].
  - intros [->|H]%elem_of_cons; [right; left|]. destruct (IH H) as [->|Hm]; [by left|right; by right].
Qed.

Lemma friends_put_wf fi t : friends_wf t -> 0 <= friend_number fi < UINT32_MAX -> friends_wf (friends_put fi t).
Proof.
  intros [Hn Hf] Hr. split; [by apply table_put_nodup|]. apply Forall_forall. intros x [->|Hx]%table_put_in; [done|].
  rewrite Forall_forall in Hf. by apply Hf.
Qed.

Lemma friends_remove_wf n t : friends_wf t -> friends_wf (table_remove n t).
Proof.
  intros [Hn Hf]. split; [by apply table_remove_nodup|]. apply Forall_forall. intros x Hx%table_remove_sub.
  rewrite Forall_forall in Hf. by apply Hf.
Qed.

End Node.
