(* ===== verification/Persist.v ===== *)
(** * Persistent data of a carrier node

    The part of src/src/carrier/IOEX_carrier.c that saves the state of a node to its
    data file, through a journal file, and finds it again when a node starts: the
    format of the file, the order of the calls to the operating system, and the
    conversion of the files of old versions. *)

From Stdlib Require Import ZArith Lia.
From stdpp Require Import prelude gmap list.
From S2P Require Import Prelude Base58 Crypto Mux CStr Tables Node.

Module Persist.
Import CStr Tables Node.

Definition PERSISTENCE_MAGIC : Z := 0x0E0C0D0A.
Definition PERSISTENCE_REVISION : Z := 2.
Definition MAX_PERSISTENCE_SECTION_SIZE : Z := 16 * 1024 * 1024.
Definition PUBLIC_KEY_BYTES : Z := 32.
Definition PATH_MAX : Z := 4096.
Definition IOEXERR_OUT_OF_MEMORY : Z := 0x02.
Definition IOEX_SYS_ERROR (code : Z) : Z := Mux.IOEX_MK_ERROR 2 code.
Definition IOEX_GENERAL_ERROR (code : Z) : Z := Mux.IOEX_MK_ERROR 1 code.

Definition ROUND256 (s : Z) : Z := Z.shiftl (Z.shiftr (s + 64) 8 + 1) 8.

(** [htonl] and [ntohl] on a little-endian machine: big-endian integers in memory. *)
Definition be32 (x : Z) : bytes := rev (le 4 x).
Definition unbe32 (b : bytes) : Z := unle (rev b).

(** ** The file system

    The files of the node's directory, and the disks that a crash may have left: every
    change of the disk adds one, a write one for each part of its data. *)

Inductive file := Data | Journal | OldDht | OldIOEX.

#[export] Instance file_eq : EqDecision file.
Proof. solve_decision. Defined.
#[export] Instance file_countable : Countable file.
Proof.
  refine (inj_countable' (fun f => match f with Data => 0%nat | Journal => 1%nat | OldDht => 2%nat | OldIOEX => 3%nat end)
    (fun n => match n with 0%nat => Data | 1%nat => Journal | 2%nat => OldDht | _ => OldIOEX end) _).
  by intros [].
Defined.

Notation disk_t := (gmap file bytes).

Inductive syscall :=
  Malloc (n : Z) | Stat (f : file) | Access (f : file) | Open (f : file) | Creat (f : file) | Read (n : Z)
| Fsync | Remove (f : file) | Rename.
Inductive path_kind := NoPath | IsDir | NotDir.

(** The operating system: whether a call succeeds, how much a write writes, [errno],
    what is at a path, and the result of [mkdir] (with its [errno] when it fails). *)
Class System (E : Type) := {
  sys_ok : syscall -> E -> bool * E;
  sys_written : Z -> E -> Z * E;
  sys_errno : E -> Z;
  sys_path : bytes -> E -> path_kind * E;
  sys_mkdir : bytes -> E -> option Z * E;
}.

Definition EEXIST : Z := 17.

Section Persistence.
Context {E : Type} {SY : System E} {NC : Crypto.Nacl}.

Record world := mkW { os : E; disk : disk_t; past : list disk_t }.
Implicit Types w : world.

Definition ask {A} (f : E -> A * E) w : A * world := let '(a, e) := f (os w) in (a, mkW e (disk w) (past w)).
Definition call (c : syscall) w : bool * world := ask (sys_ok c) w.
Definition set_disk (d : disk_t) w : world := mkW (os w) d (disk w :: past w).
Definition errno w : Z := sys_errno (os w).

(** A file can be reached when the call succeeds and there is one. *)
Definition reach (c : syscall) (f : file) w : bool * world :=
  let '(ok, w) := call c w in (ok && bool_decide (is_Some (disk w !! f)), w).

Definition remove (f : file) w : world :=
  let '(ok, w) := call (Remove f) w in if ok then set_disk (delete f (disk w)) w else w.

(** [rename] of the journal to the data file. *)
Definition rename w : world :=
  let '(ok, w) := call Rename w in
  match disk w !! Journal with
  | Some b => if ok then set_disk (<[Data := b]> (delete Journal (disk w))) w else w
  | None => w
  end.

(** [open] with [O_CREAT | O_TRUNC]. *)
Definition creat (f : file) w : bool * world :=
  let '(ok, w) := call (Creat f) w in (ok, if ok then set_disk (<[f := []]> (disk w)) w else w).

(** [write] to the start of an empty file; the last part of [parts] is written. *)
Definition write (f : file) (buf : bytes) w : Z * world :=
  let '(n, w) := ask (sys_written (zlen buf)) w in
  let k := Z.to_nat (Z.min n (zlen buf)) in
  (n, foldl (fun w i => set_disk (<[f := take i buf]> (disk w)) w) w (seq 1 k)).

(** ** Making the image of a file *)

Definition zeros (n : Z) : bytes := replicate (Z.to_nat n) 0.

Fixpoint get_extra_savedata_size (l : list FriendInfo) : Z :=
  match l with
  | [] => 0
  | fi :: l =>
      let label_len := zlen (label (info fi)) in
      (if label_len =? 0 then 0 else 4 + label_len + 1) + get_extra_savedata_size l
  end.

(** The labels, at [pos] of the buffer, in at most [len] bytes. *)
Fixpoint get_extra_savedata (l : list FriendInfo) (buf : bytes) (pos len : Z) : outcome bytes :=
  match l with
  | [] => Ok buf
  | fi :: l =>
      if len <=? 0 then Ok buf
      else
        let s := label (info fi) in
        if zlen s =? 0 then get_extra_savedata l buf pos len
        else if len <? 4 + zlen s + 1 then Ok buf
        else
          buf ← mem_write buf pos (be32 (friend_number fi));
          buf ← mem_write buf (pos + 4) (s ++ [0]);
          get_extra_savedata l buf (pos + 4 + zlen s + 1) (len - (4 + zlen s + 1))
  end.

Definition write_header (dht_len extra_len : Z) (buf : bytes) : outcome bytes :=
  buf ← mem_write buf 0 (be32 PERSISTENCE_MAGIC);
  buf ← mem_write buf 4 (be32 PERSISTENCE_REVISION);
  buf ← mem_write buf 8 (be32 (u32 dht_len));
  mem_write buf 12 (be32 (u32 extra_len)).

(** The checksum of [total_len] bytes but the first 256. *)
Definition seal (total_len : Z) (buf : bytes) : outcome bytes :=
  data ← mem_read buf 256 (total_len - 256);
  match snd (Crypto.sha256 true data Crypto.SHA256_BYTES) with
  | Some digest => mem_write buf 16 digest
  | None => Ok buf
  end.

(** The journal is written and forced to the disk; then it takes the place of the data
    file. [olds] are the files that go before. *)
Definition write_journal (buf : bytes) (olds : list file) w : Z * world :=
  let '(ok, w) := creat Journal w in
  if negb ok then (IOEX_SYS_ERROR (errno w), w)
  else
    let '(n, w) := write Journal buf w in
    if negb (n =? zlen buf) then let w := remove Journal w in (IOEX_SYS_ERROR (errno w), w)
    else
      let '(ok, w) := call Fsync w in
      if negb ok then let w := remove Journal w in (IOEX_SYS_ERROR (errno w), w)
      else (0, rename (foldl (fun w f => remove f w) w olds)).

(** ** Directories *)

Definition _mkdir (path : bytes) w : Z * world :=
  let '(k, w) := ask (sys_path path) w in
  match k with
  | NoPath =>
      let '(r, w) := ask (sys_mkdir path) w in
      (match r with Some e => if e =? EEXIST then 0 else -1 | None => 0 end, w)
  | IsDir => (0, w)
  | NotDir => (-1, w)
  end.

(** The loop over the slashes: [before] is the path up to here, [at_pp] whether nothing
    is between here and the last slash. *)
Fixpoint mkdir_parents (before rest : bytes) (at_pp : bool) w : Z * world :=
  match rest with
  | [] => (0, w)
  | c :: rest =>
      if c =? 47 then
        if at_pp then mkdir_parents (before ++ [c]) rest true w
        else
          let '(rc, w) := _mkdir before w in
          if rc =? 0 then mkdir_parents (before ++ [c]) rest true w else (rc, w)
      else mkdir_parents (before ++ [c]) rest false w
  end.

Definition mkdirs (path : bytes) w : Z * world :=
  let '(rc, w) := mkdir_parents [] (ztake (PATH_MAX - 1) path) true w in
  if rc =? 0 then _mkdir path w else (rc, w).

(** ** Saving

    [dht] is what the DHT wants saved. *)

Definition image (dht : bytes) (friends : friends_t) : outcome bytes :=
  let extra_data_len := get_extra_savedata_size (friends_iterate friends) in
  let total_len := 256 + ROUND256 (zlen dht) + ROUND256 extra_data_len in
  buf ← write_header (zlen dht) extra_data_len (zeros total_len);
  buf ← mem_write buf 256 dht;
  buf ← get_extra_savedata (friends_iterate friends) buf (256 + ROUND256 (zlen dht)) (ROUND256 extra_data_len);
  seal total_len buf.

Definition store_persistence_data (data_location dht : bytes) (friends : friends_t) w : outcome (Z * world) :=
  let total_len := 256 + ROUND256 (zlen dht) + ROUND256 (get_extra_savedata_size (friends_iterate friends)) in
  let '(ok, w) := call (Malloc total_len) w in
  if negb ok then Ok (IOEX_GENERAL_ERROR IOEXERR_OUT_OF_MEMORY, w)
  else
    buf ← image dht friends;
    let '(rc, w) := mkdirs data_location w in
    if rc <? 0 then Ok (IOEX_SYS_ERROR (errno w), w)
    else Ok (write_journal buf [Data] w).


(** ** Loading *)

Record persistence_data := mkData {
  dht_savedata_len : Z; dht_savedata : bytes; extra_savedata_len : Z; extra_savedata : bytes }.

(** [read] of [n] bytes of what is left of a file; [None] when there are fewer or the
    call fails. *)
Definition read (n : Z) (b : bytes) w : option (bytes * bytes) * world :=
  let '(ok, w) := call (Read n) w in
  (if ok && (n <=? zlen b) then Some (ztake n b, zdrop n b) else None, w).

Definition read_u32 (b : bytes) (k : Z -> bytes -> world -> option persistence_data * world) w : option persistence_data * world :=
  let '(r, w) := read 4 b w in
  match r with Some (v, b) => k (unbe32 v) b w | None => (None, w) end.

(** [file] is the content of the file that is open. *)
Definition _load_persistence_data_i (file_ : file) (content : bytes) w : option persistence_data * world :=
  let st_size := zlen content in
  let '(ok, w) := call (Stat file_) w in
  if negb ok then (None, w)
  else if st_size <? 256 then (None, w)
  else read_u32 content (fun magic b =>
    if negb (magic =? PERSISTENCE_MAGIC) then pair None
    else read_u32 b (fun revision b =>
      if negb (revision =? PERSISTENCE_REVISION) then pair None
      else read_u32 b (fun dht_data_len b =>
        if MAX_PERSISTENCE_SECTION_SIZE <? dht_data_len then pair None
        else read_u32 b (fun extra_data_len b =>
          if MAX_PERSISTENCE_SECTION_SIZE <? extra_data_len then pair None
          else if negb (st_size =? 256 + ROUND256 dht_data_len + ROUND256 extra_data_len) then pair None
          else fun w =>
            let '(r, w) := read Crypto.SHA256_BYTES b w in
            match r with
            | None => (None, w)
            | Some (p_sum, _) =>
                let '(ok, w) := call (Malloc (st_size - 256)) w in
                if negb ok then (None, w)
                else
                  let '(r, w) := read (st_size - 256) (zdrop 256 content) w in
                  match r with
                  | None => (None, w)
                  | Some (buf, _) =>
                      let c_sum := default [] (snd (Crypto.sha256 true buf Crypto.SHA256_BYTES)) in
                      if negb (bool_decide (p_sum = c_sum)) then (None, w)
                      else (Some (mkData dht_data_len buf extra_data_len (zdrop (ROUND256 dht_data_len) buf)), w)
                  end
            end)))) w.

(** ** The files of old versions

    The loop over the labels of the old file, which are in the buffer from [pos]: a
    label is rewritten with its number in network order, at [wptr], in place. *)
Fixpoint convert_labels (n : nat) (buf : bytes) (rptr wptr : Z) : outcome (bytes * Z * Z) :=
  match n with
  | O => Ok (buf, rptr, wptr)
  | S n =>
      id ← mem_read buf rptr 4;
      let rptr := rptr + 4 in
      label_len ← strlen (zdrop rptr buf);
      if label_len =? 0 then convert_labels n buf (rptr + 1) wptr
      else
        buf ← mem_write buf wptr (be32 (unle id));
        s ← mem_read buf rptr (label_len + 1);
        buf ← mem_write buf (wptr + 4) s;
        convert_labels n buf (rptr + label_len + 1) (wptr + 4 + label_len + 1)
  end.

(** The part of the old labels: the buffer and the size of what is in it. *)
Definition convert_extra (buf : bytes) (pos extra_len : Z) w : outcome (bytes * Z * world) :=
  let '(ok, w) := reach (Open OldIOEX) OldIOEX w in
  if negb ok then Ok (buf, 0, w)
  else
    let content := default [] (disk w !! OldIOEX) in
    let '(r, w) := read 4 (zdrop PUBLIC_KEY_BYTES content) w in
    match r with
    | None => Ok (buf, 0, w)
    | Some (v, b) =>
        let val := unle v in
        if 0 <? val then
          let '(r, w) := read extra_len b w in
          match r with
          | None =>
              buf ← mem_write buf pos (zeros extra_len);
              Ok (buf, 0, w)
          | Some (d, _) =>
              buf ← mem_write buf pos d;
              r ← convert_labels (Z.to_nat val) buf pos pos;
              let '(buf, rptr, wptr) := r in
              buf ← mem_write buf wptr (zeros (rptr - wptr));
              Ok (buf, wptr - pos, w)
          end
        else Ok (buf, extra_len, w)
    end.

Definition convert_old_dhtdata w : outcome (Z * world) :=
  let '(ok, w) := reach (Stat OldDht) OldDht w in
  if negb ok then Ok (IOEX_SYS_ERROR (errno w), w)
  else
    let dht := default [] (disk w !! OldDht) in
    let dht_data_len := zlen dht in
    let '(ok, w) := reach (Stat OldIOEX) OldIOEX w in
    let size := zlen (default [] (disk w !! OldIOEX)) in
    let extra_data_len := if negb ok || (size <? PUBLIC_KEY_BYTES + 4) then 0 else size - PUBLIC_KEY_BYTES - 4 in
    let room := 256 + ROUND256 dht_data_len + ROUND256 extra_data_len in
    let '(ok, w) := call (Malloc room) w in
    if negb ok then Ok (IOEX_GENERAL_ERROR IOEXERR_OUT_OF_MEMORY, w)
    else
      let '(ok, w) := reach (Open OldDht) OldDht w in
      if negb ok then Ok (IOEX_SYS_ERROR (errno w), w)
      else
        let '(r, w) := read dht_data_len dht w in
        match r with
        | None => Ok (IOEX_SYS_ERROR (errno w), w)
        | Some (d, _) =>
            buf ← mem_write (zeros room) 256 d;
            r ← (if extra_data_len =? 0 then Ok (buf, 0, w)
                 else convert_extra buf (256 + ROUND256 dht_data_len) extra_data_len w);
            let '(buf, extra_data_len, w) := r in
            let total_len := 256 + ROUND256 dht_data_len + ROUND256 extra_data_len in
            buf ← write_header dht_data_len extra_data_len buf;
            buf ← seal total_len buf;
            buf ← mem_read buf 0 total_len;
            Ok (write_journal buf [OldDht; OldIOEX; Data] w)
        end.

(** The journal first, then the data file, then the old files. A round of the fuel is a
    conversion. *)
Fixpoint load_data (fuel : nat) w : outcome (option persistence_data * world) :=
  let '(ok, w) := reach (Access Data) Data w in
  if negb ok then
    let '(ok, w) := reach (Access OldDht) OldDht w in
    if negb ok then Ok (None, w)
    else
      r ← convert_old_dhtdata w;
      let '(rc, w) := r in
      if rc <? 0 then Ok (None, w)
      else match fuel with O => NoFuel | S fuel => load_data fuel w end
  else
    let '(ok, w) := reach (Open Data) Data w in
    if negb ok then Ok (None, w)
    else Ok (_load_persistence_data_i Data (default [] (disk w !! Data)) w).

Definition load_persistence_data w : outcome (option persistence_data * world) :=
  let '(ok, w) := reach (Access Journal) Journal w in
  if negb ok then load_data 1 w
  else
    let '(ok, w) := reach (Open Journal) Journal w in
    if negb ok then load_data 1 w
    else
      let '(r, w) := _load_persistence_data_i Journal (default [] (disk w !! Journal)) w in
      match r with
      | None => load_data 1 w
      | Some data => Ok (Some data, rename (remove Data w))
      end.

(** ** The labels

    [strcpy] of a label into the object of its friend. *)
Definition set_label (n : Z) (s : bytes) (friends : friends_t) : outcome friends_t :=
  fi ← friends_get n friends;
  match fi with
  | Some fi => s ← strcpy (IOEX_MAX_USER_NAME_LEN + 1) s; Ok (table_put n (on_info (with_label s) fi) friends)
  | None => Ok friends
  end.

(** The string at the start of a block. *)
Definition string_at (b : bytes) : outcome bytes := n ← strlen b; Ok (ztake n b).

(** Every round moves on by six bytes or more, or ends. *)
Fixpoint apply_loop (fuel : nat) (extra : bytes) (len : Z) (friends : friends_t) : outcome friends_t :=
  if len =? 0 then Ok friends
  else
    v ← mem_read extra 0 4;
    s ← string_at (zdrop 4 extra);
    if zlen s =? 0 then Ok friends
    else
      friends ← set_label (unbe32 v) s friends;
      match fuel with
      | O => NoFuel
      | S fuel => apply_loop fuel (zdrop (4 + zlen s + 1) extra) (u64 (len - (4 + zlen s + 1))) friends
      end.

Definition apply_extra_data (extra : bytes) (len : Z) (friends : friends_t) : outcome friends_t :=
  apply_loop (length extra) extra len friends.

End Persistence.

End Persist.
