(* ===== verification/PersistThm.v ===== *)
(** * Persistent data: what survives a crash

    A node finds either the data it had saved before or the data it was saving, at
    whatever moment it is stopped, and reads back what it saved. *)

From Stdlib Require Import ZArith Lia.
From stdpp Require Import prelude gmap list.
From S2P Require Import Prelude Base58 Crypto CryptoThm Mux CStr Tables Node Persist.

Module PersistThm.
Import CStr Tables Node Persist.

(** ** Buffers *)

Lemma mem_write_at a m c s p : zlen a = p -> zlen m = zlen s -> mem_write (a ++ m ++ c) p s = Ok (a ++ s ++ c).
Proof.
  intros <- Hm. rewrite mem_write_ok by zlen_lia. rewrite ztake_app_len by done. do 3 f_equal.
  rewrite <- Hm, app_assoc, zdrop_app_len by (rewrite zlen_app; lia). done.
Qed.

Lemma zeros_zlen n : 0 <= n -> zlen (zeros n) = n.
Proof. intros. unfold zeros. rewrite zlen_replicate. lia. Qed.

Lemma zeros_split n k : 0 <= k <= n -> zeros n = zeros k ++ zeros (n - k).
Proof. intros. unfold zeros. rewrite <- replicate_add. f_equal. lia. Qed.

Lemma be32_zlen x : zlen (be32 x) = 4.
Proof. unfold be32, zlen. rewrite length_rev, le_length. done. Qed.

Lemma unbe32_be32 x : 0 <= x < 2 ^ 32 -> unbe32 (be32 x) = x.
Proof. intros. unfold unbe32, be32. rewrite rev_involutive, unle_le. by rewrite Z.mod_small. Qed.

#[export] Hint Rewrite be32_zlen : zlen.

Lemma round_spec s : 0 <= s -> s + 64 < ROUND256 s <= s + 320.
Proof.
  intros. unfold ROUND256. rewrite Z.shiftl_mul_pow2, Z.shiftr_div_pow2 by lia. change (2 ^ 8) with 256.
  pose proof (Z_div_mod_eq_full (s + 64) 256). pose proof (Z.mod_pos_bound (s + 64) 256). lia.
Qed.

(** ** The image *)

Definition label_bytes (fi : FriendInfo) : bytes :=
  if zlen (label (info fi)) =? 0 then [] else be32 (friend_number fi) ++ label (info fi) ++ [0].
Definition extra_bytes (l : list FriendInfo) : bytes := concat (label_bytes <$> l).

Lemma label_bytes_zlen fi :
  zlen (label_bytes fi) = if zlen (label (info fi)) =? 0 then 0 else 4 + zlen (label (info fi)) + 1.
Proof. unfold label_bytes. destruct (_ =? 0); [done|]. zlen_lia. Qed.

Lemma extra_bytes_zlen l : zlen (extra_bytes l) = get_extra_savedata_size l.
Proof.
  induction l as [|fi l IH]; cbn; [done|]. unfold extra_bytes in *. cbn [fmap list_fmap concat].
  rewrite zlen_app, label_bytes_zlen, IH. done.
Qed.

Lemma extra_size_nonneg l : 0 <= get_extra_savedata_size l.
Proof. rewrite <- extra_bytes_zlen. apply zlen_nonneg. Qed.

Lemma get_extra_spec l a n len : get_extra_savedata_size l < len <= n ->
  get_extra_savedata l (a ++ zeros n) (zlen a) len = Ok (a ++ extra_bytes l ++ zeros (n - get_extra_savedata_size l)).
Proof.
  revert a n len. induction l as [|fi l IH]; intros a n len Hl; cbn [get_extra_savedata get_extra_savedata_size] in *.
  - cbn. by rewrite Z.sub_0_r.
  - pose proof (extra_size_nonneg l). set (s := label (info fi)) in *. pose proof (zlen_nonneg s).
    rewrite (proj2 (Z.leb_gt _ _)) by (destruct (_ =? 0); lia).
    unfold extra_bytes. cbn [fmap list_fmap concat]. unfold label_bytes. fold s. destruct (zlen s =? 0) eqn:Es; zify_tests.
    + rewrite IH by lia. done.
    + rewrite (proj2 (Z.ltb_ge _ _)) by lia. rewrite (zeros_split n 4) by lia.
      rewrite mem_write_at by (rewrite ?be32_zlen, ?zeros_zlen; lia). bind_simpl.
      rewrite (zeros_split (n - 4) (zlen s + 1)), app_assoc by lia.
      rewrite mem_write_at by (rewrite ?zlen_app, ?be32_zlen, ?zeros_zlen; zlen_lia). bind_simpl.
      rewrite app_assoc. replace (zlen a + 4 + zlen s + 1) with (zlen ((a ++ be32 (friend_number fi)) ++ s ++ [0])) by zlen_lia.
      rewrite IH by lia. rewrite <- !app_assoc. unfold extra_bytes. do 7 f_equal. lia.
Qed.

Section Images.
Context {NC : Crypto.Nacl} {NL : Crypto.NaclLaws}.

(** The header of a file with sections of the given sizes. *)
Definition header (dht_len extra_len : Z) : bytes :=
  be32 PERSISTENCE_MAGIC ++ be32 PERSISTENCE_REVISION ++ be32 (u32 dht_len) ++ be32 (u32 extra_len).

(** The two sections, each filled up to its rounded size. *)
Definition section (b : bytes) : bytes := b ++ zeros (ROUND256 (zlen b) - zlen b).
Definition sections (dht extra : bytes) : bytes := section dht ++ section extra.

Definition file_of (dht extra : bytes) : bytes :=
  header (zlen dht) (zlen extra) ++ Crypto.crypto_hash_sha256 (sections dht extra) ++ zeros 208 ++ sections dht extra.

Lemma section_zlen b : zlen (section b) = ROUND256 (zlen b).
Proof. unfold section. pose proof (round_spec (zlen b) (zlen_nonneg b)). rewrite zlen_app, zeros_zlen by lia. lia. Qed.

Lemma sections_zlen d x : zlen (sections d x) = ROUND256 (zlen d) + ROUND256 (zlen x).
Proof. unfold sections. by rewrite zlen_app, !section_zlen. Qed.

Lemma header_zlen a b : zlen (header a b) = 16.
Proof. unfold header. zlen_lia. Qed.

Lemma file_zlen d x : zlen (file_of d x) = 256 + ROUND256 (zlen d) + ROUND256 (zlen x).
Proof.
  unfold file_of. rewrite !zlen_app, header_zlen, sections_zlen, zeros_zlen by lia.
  rewrite (proj1 (Crypto.hash_shape _)). lia.
Qed.

Lemma write_header_spec a b n r : 16 <= n -> write_header a b (zeros n ++ r) = Ok (header a b ++ zeros (n - 16) ++ r).
Proof.
  intros Hn. unfold write_header. rewrite (zeros_split n 4), <- app_assoc by lia.
  change (zeros 4 ++ zeros (n - 4) ++ r) with ([] ++ zeros 4 ++ zeros (n - 4) ++ r). rewrite mem_write_at by done. bind_simpl.
  rewrite (zeros_split (n - 4) 4), <- !app_assoc by lia. cbn [app]. rewrite mem_write_at by done. bind_simpl.
  rewrite (zeros_split (n - 4 - 4) 4), <- !app_assoc, (app_assoc (be32 _)) by lia. rewrite mem_write_at by done. bind_simpl.
  rewrite (zeros_split (n - 4 - 4 - 4) 4), <- !app_assoc, (app_assoc (be32 _)), (app_assoc (_ ++ _)) by lia.
  rewrite mem_write_at by done. unfold header. rewrite <- !app_assoc. do 6 f_equal. f_equal. lia.
Qed.

Lemma seal_spec h s n : zlen h = 16 -> 0 < zlen s -> n = 256 + zlen s ->
  seal n (h ++ zeros 240 ++ s) = Ok (h ++ Crypto.crypto_hash_sha256 s ++ zeros 208 ++ s).
Proof.
  intros Hh Hs ->. unfold seal. replace (256 + zlen s - 256) with (zlen s) by lia.
  rewrite mem_read_ok by (rewrite ?zlen_app, ?zeros_zlen; lia). bind_simpl.
  rewrite app_assoc, zdrop_app_len, ztake_all by (rewrite ?zlen_app, ?zeros_zlen; lia). rewrite <- app_assoc.
  unfold Crypto.sha256. cbn [negb orb]. rewrite (proj2 (Z.leb_gt _ _)) by lia. cbn [orb Z.eqb Z.ltb snd].
  rewrite (zeros_split 240 32), <- app_assoc by lia. apply mem_write_at; [done|].
  rewrite (proj1 (Crypto.hash_shape _)). done.
Qed.

Lemma image_spec dht friends : image dht friends = Ok (file_of dht (extra_bytes (friends_iterate friends))).
Proof.
  unfold image. set (l := friends_iterate friends). pose proof (extra_size_nonneg l).
  pose proof (round_spec _ (zlen_nonneg dht)). pose proof (round_spec _ (extra_size_nonneg l)).
  set (rd := ROUND256 (zlen dht)) in *. set (rx := ROUND256 (get_extra_savedata_size l)) in *. pose proof (zlen_nonneg dht).
  rewrite <- (app_nil_r (zeros _)), write_header_spec, app_nil_r by lia. bind_simpl.
  rewrite (zeros_split _ 240) by lia. replace (256 + rd + rx - 16 - 240) with (rd + rx) by lia.
  rewrite (zeros_split (rd + rx) (zlen dht)), (app_assoc (header _ _)) by lia.
  rewrite mem_write_at by (rewrite ?zlen_app, ?header_zlen, ?zeros_zlen; lia). bind_simpl.
  rewrite (zeros_split (rd + rx - zlen dht) (rd - zlen dht)) by lia. replace (rd + rx - zlen dht - (rd - zlen dht)) with rx by lia.
  rewrite (app_assoc dht), (app_assoc (_ ++ _)).
  assert (zlen ((header (zlen dht) (get_extra_savedata_size l) ++ zeros 240) ++ dht ++ zeros (rd - zlen dht)) = 256 + rd) as Ez
    by (rewrite !zlen_app, header_zlen, !zeros_zlen by lia; lia).
  rewrite <- Ez at 1. rewrite get_extra_spec by lia. bind_simpl.
  assert (ROUND256 (zlen (extra_bytes l)) = rx) as Ex by (unfold rx; by rewrite extra_bytes_zlen).
  unfold file_of, sections, section. rewrite Ex. fold rd. rewrite <- extra_bytes_zlen in *.
  rewrite <- !app_assoc, (app_assoc dht).
  apply seal_spec; [apply header_zlen| |]; rewrite !zlen_app, !zeros_zlen by lia; lia.
Qed.

End Images.

(** ** Reading a file *)

Section Loading.
Context {E : Type} {SY : System E} {NC : Crypto.Nacl}.
Notation world := (@world E).
Implicit Types w : world.

(** Every call that can succeed does. *)
Definition reliable : Prop := (forall c e, fst (sys_ok c e) = true) /\ (forall n e, fst (sys_written n e) = n).

(** The disk is as it was. *)
Definition same w w' : Prop := disk w' = disk w /\ past w' = past w.

Lemma same_world_refl w : same w w.
Proof. done. Qed.

Lemma same_world_trans w1 w2 w3 : same w1 w2 -> same w2 w3 -> same w1 w3.
Proof. intros [H1 H2] [H3 H4]. split; congruence. Qed.

Lemma call_cases c w : exists ok w', call c w = (ok, w') /\ same w w' /\ (reliable -> ok = true).
Proof.
  unfold call, ask. destruct (sys_ok c (os w)) as [ok e] eqn:Eo. eexists ok, _. split_and!; [done|done|].
  intros [H _]. specialize (H c (os w)). by rewrite Eo in H.
Qed.

Lemma reach_cases c f w : exists ok w', reach c f w = (ok, w') /\ same w w' /\
  (ok = true -> is_Some (disk w !! f)) /\ (reliable -> is_Some (disk w !! f) -> ok = true).
Proof.
  unfold reach. destruct (call_cases c w) as (ok & w' & -> & Hs & Hr). eexists _, w'. split; [done|]. split; [done|].
  rewrite (proj1 Hs). split; [by intros [_ ?%bool_decide_eq_true]%andb_true_iff|].
  intros R H. rewrite (Hr R). by apply bool_decide_eq_true.
Qed.

(** What the content of a file gives when nothing fails. *)
Definition parse (b : bytes) : option persistence_data :=
  let field i := unbe32 (ztake 4 (zdrop i b)) in
  if (zlen b <? 256) || negb (field 0 =? PERSISTENCE_MAGIC) || negb (field 4 =? PERSISTENCE_REVISION) ||
     (MAX_PERSISTENCE_SECTION_SIZE <? field 8) || (MAX_PERSISTENCE_SECTION_SIZE <? field 12) ||
     negb (zlen b =? 256 + ROUND256 (field 8) + ROUND256 (field 12)) ||
     negb (bool_decide (ztake 32 (zdrop 16 b) = default [] (snd (Crypto.sha256 true (zdrop 256 b) Crypto.SHA256_BYTES))))
  then None
  else Some (mkData (field 8) (zdrop 256 b) (field 12) (zdrop (ROUND256 (field 8)) (zdrop 256 b))).

(** A reading of files that ends with [p], or with nothing when a call fails. *)
Definition gives (p : option persistence_data) w (m : option persistence_data * world) : Prop :=
  same w (snd m) /\ (fst m = p \/ (fst m = None /\ ~ reliable)).

Lemma gives_trans p w w' m : same w w' -> gives p w' m -> gives p w m.
Proof. intros H [H1 H2]. split; [by eapply same_world_trans|done]. Qed.

Lemma gives_ret p w : gives p w (p, w).
Proof. split; [done|by left]. Qed.

Lemma read_cases n b w : n <= zlen b -> exists r w', read n b w = (r, w') /\ same w w' /\
  (r = Some (ztake n b, zdrop n b) \/ r = None /\ ~ reliable).
Proof.
  intros Hn. unfold read. destruct (call_cases (Read n) w) as (ok & w' & -> & Hs & Hr). eexists _, w'. split; [done|].
  split; [done|]. rewrite (proj2 (Z.leb_le _ _)) by done. destruct ok; cbn; [by left|right].
  split; [done|]. intros R. by specialize (Hr R).
Qed.

Lemma gives_u32 p b k w : 4 <= zlen b -> (forall w', gives p w' (k (unbe32 (ztake 4 b)) (zdrop 4 b) w')) ->
  gives p w (read_u32 b k w).
Proof.
  intros Hb Hk. unfold read_u32. destruct (read_cases 4 b w Hb) as (r & w' & -> & Hs & [->|[-> Hr]]).
  - by eapply gives_trans.
  - split; [done|by right].
Qed.

Lemma load_i_spec f b w : gives (parse b) w (_load_persistence_data_i f b w).
Proof.
  unfold _load_persistence_data_i, parse.
  destruct (call_cases (Stat f) w) as (ok & w1 & -> & Hs & Hr).
  destruct ok; cbn [negb]; [|split; [done|right; split; [done|]; intros R; by specialize (Hr R)]].
  apply (gives_trans _ _ _ _ Hs). clear Hs Hr w.
  destruct (zlen b <? 256) eqn:E0; zify_tests; [apply gives_ret|]. cbn [orb].
  apply gives_u32; [lia|intros w2]. rewrite zdrop_0.
  destruct (unbe32 (ztake 4 b) =? PERSISTENCE_MAGIC); cbn [negb orb]; [|apply gives_ret].
  apply gives_u32; [rewrite zlen_zdrop; lia|intros w3].
  destruct (unbe32 (ztake 4 (zdrop 4 b)) =? PERSISTENCE_REVISION); cbn [negb orb]; [|apply gives_ret].
  rewrite (zdrop_zdrop 4 4) by lia. change (4 + 4) with 8.
  apply gives_u32; [rewrite zlen_zdrop; lia|intros w4].
  destruct (MAX_PERSISTENCE_SECTION_SIZE <? unbe32 (ztake 4 (zdrop 8 b))); cbn [orb]; [apply gives_ret|].
  rewrite (zdrop_zdrop 4 8) by lia. change (8 + 4) with 12.
  apply gives_u32; [rewrite zlen_zdrop; lia|intros w5].
  destruct (MAX_PERSISTENCE_SECTION_SIZE <? unbe32 (ztake 4 (zdrop 12 b))); cbn [orb]; [apply gives_ret|].
  destruct (zlen b =? _); cbn [negb orb]; [|apply gives_ret].
  rewrite (zdrop_zdrop 4 12) by lia. change (12 + 4) with 16.
  destruct (read_cases 32 (zdrop 16 b) w5) as (r & w6 & E6 & Hs & Hr); [rewrite zlen_zdrop; lia|].
  change Crypto.SHA256_BYTES with 32. rewrite E6. apply (gives_trans _ _ _ _ Hs).
  destruct Hr as [->|[-> Hr]]; [|split; [done|by right]].
  destruct (call_cases (Malloc (zlen b - 256)) w6) as (ok & w7 & -> & Hs7 & Hr7).
  destruct ok; cbn [negb]; [|split; [done|right; split; [done|]; intros R; by specialize (Hr7 R)]].
  apply (gives_trans _ _ _ _ Hs7).
  destruct (read_cases (zlen b - 256) (zdrop 256 b) w7) as (r & w8 & E8 & Hs8 & Hr8); [rewrite zlen_zdrop; lia|].
  rewrite E8. apply (gives_trans _ _ _ _ Hs8). destruct Hr8 as [->|[-> Hr8]]; [|split; [done|by right]].
  rewrite (ztake_all _ (zdrop 256 b)) by (rewrite zlen_zdrop; lia).
  destruct (bool_decide _); cbn [negb]; apply gives_ret.
Qed.

End Loading.

(** ** Whole files and parts of files *)

Section Files.
Context {NC : Crypto.Nacl} {NL : Crypto.NaclLaws}.

Definition loaded (dht extra : bytes) : persistence_data :=
  mkData (zlen dht) (sections dht extra) (zlen extra) (section extra).

Lemma header_fields a b r : 0 <= a < 2 ^ 32 -> 0 <= b < 2 ^ 32 ->
  let field i := unbe32 (ztake 4 (zdrop i (header a b ++ r))) in
  field 0 = PERSISTENCE_MAGIC /\ field 4 = PERSISTENCE_REVISION /\ field 8 = a /\ field 12 = b.
Proof.
  intros Ha Hb. unfold header. rewrite <- !app_assoc, !u32_small by done. split_and!; cbn; try reflexivity; by apply unbe32_be32.
Qed.

(** The decision on a file with a proper header. *)
Lemma parse_header a b r : 0 <= a < 2 ^ 32 -> 0 <= b < 2 ^ 32 ->
  parse (header a b ++ r) =
    if (16 + zlen r <? 256) || (MAX_PERSISTENCE_SECTION_SIZE <? a) || (MAX_PERSISTENCE_SECTION_SIZE <? b) ||
       negb (16 + zlen r =? 256 + ROUND256 a + ROUND256 b) ||
       negb (bool_decide (ztake 32 r = default [] (snd (Crypto.sha256 true (zdrop 240 r) Crypto.SHA256_BYTES))))
    then None
    else Some (mkData a (zdrop 240 r) b (zdrop (ROUND256 a) (zdrop 240 r))).
Proof.
  intros Ha Hb. destruct (header_fields a b r Ha Hb) as (H0 & H4 & H8 & H12). unfold parse.
  rewrite H0, H4, H8, H12, !Z.eqb_refl. cbn [negb]. rewrite !orb_false_r.
  rewrite zlen_app, header_zlen. rewrite (zdrop_app_len 16) by apply header_zlen.
  replace (zdrop 256 (header a b ++ r)) with (zdrop 240 r); [done|].
  change 256 with (16 + 240). rewrite <- (zdrop_zdrop 240 16) by lia. by rewrite (zdrop_app_len 16) by apply header_zlen.
Qed.

Definition small (b : bytes) : Prop := zlen b <= MAX_PERSISTENCE_SECTION_SIZE.

Lemma small_range b : small b -> 0 <= zlen b < 2 ^ 32.
Proof. unfold small, MAX_PERSISTENCE_SECTION_SIZE. pose proof (zlen_nonneg b). lia. Qed.

Definition body_of (d x : bytes) : bytes := Crypto.crypto_hash_sha256 (sections d x) ++ zeros 208 ++ sections d x.

Lemma body_zlen d x : 16 + zlen (body_of d x) = 256 + ROUND256 (zlen d) + ROUND256 (zlen x).
Proof. rewrite <- file_zlen. unfold file_of. rewrite zlen_app, header_zlen. done. Qed.

Lemma parse_file d x : small d -> small x -> parse (file_of d x) = Some (loaded d x).
Proof.
  intros Hd Hx. pose proof (small_range _ Hd). pose proof (small_range _ Hx). unfold small in *.
  pose proof (round_spec _ (zlen_nonneg d)). pose proof (round_spec _ (zlen_nonneg x)).
  pose proof (proj1 (Crypto.hash_shape (sections d x))) as Hh.
  change (file_of d x) with (header (zlen d) (zlen x) ++ body_of d x). rewrite parse_header by done.
  rewrite body_zlen, Z.eqb_refl, !(proj2 (Z.ltb_ge _ _)) by lia. cbn [negb orb].
  assert (zdrop 240 (body_of d x) = sections d x) as ->.
  { unfold body_of. rewrite app_assoc. apply zdrop_app_len. rewrite zlen_app, zeros_zlen by lia. lia. }
  unfold body_of. rewrite ztake_app_len by done. unfold Crypto.sha256.
  rewrite (proj2 (Z.leb_gt _ _)) by (rewrite sections_zlen; lia). cbn [negb orb Z.eqb Z.ltb snd default].
  rewrite bool_decide_eq_true_2 by done. cbn [negb]. unfold loaded. do 2 f_equal.
  unfold sections. apply zdrop_app_len, section_zlen.
Qed.

Lemma parse_short b : zlen b < 256 -> parse b = None.
Proof. intros H. unfold parse. by rewrite (proj2 (Z.ltb_lt _ _)). Qed.

(** A file that was not written to its end is refused. *)
Lemma parse_prefix d x n : small d -> small x -> Z.of_nat n < zlen (file_of d x) -> parse (take n (file_of d x)) = None.
Proof.
  intros Hd%small_range Hx%small_range Hn.
  change (file_of d x) with (header (zlen d) (zlen x) ++ body_of d x) in *. rewrite zlen_app, header_zlen in Hn.
  assert (length (header (zlen d) (zlen x)) = 16%nat) as Hl by (pose proof (header_zlen (zlen d) (zlen x)); unfold zlen in *; lia).
  destruct (decide (n < 256)%nat) as [Hs|Hs].
  { apply parse_short. unfold zlen. rewrite length_take. lia. }
  rewrite take_app_ge, Hl by lia. rewrite parse_header by done.
  assert (16 + zlen (take (n - 16) (body_of d x)) = Z.of_nat n) as -> by (unfold zlen in *; rewrite length_take; lia).
  pose proof (body_zlen d x). rewrite (proj2 (Z.eqb_neq (Z.of_nat n) _)) by lia. cbn [negb]. by rewrite !orb_true_r.
Qed.

(** Sections above the limit are written, but not read. *)
Lemma parse_oversized d x : zlen d < 2 ^ 32 -> zlen x < 2 ^ 32 -> ~ small d \/ ~ small x -> parse (file_of d x) = None.
Proof.
  intros Hd Hx H. pose proof (zlen_nonneg d). pose proof (zlen_nonneg x). unfold small in H.
  change (file_of d x) with (header (zlen d) (zlen x) ++ body_of d x). rewrite parse_header by lia.
  destruct H.
  - rewrite (proj2 (Z.ltb_lt MAX_PERSISTENCE_SECTION_SIZE (zlen d))) by lia. by rewrite ?orb_true_r.
  - rewrite (proj2 (Z.ltb_lt MAX_PERSISTENCE_SECTION_SIZE (zlen x))) by lia. by rewrite ?orb_true_r.
Qed.

End Files.

(** ** Crashes *)

Section Crash.
Context {E : Type} {SY : System E} {NC : Crypto.Nacl} {NL : Crypto.NaclLaws}.
Notation world := (@world E).
Implicit Types (w : world) (d : disk_t).

(** The data that a node finds on a disk without files of old versions. *)
Definition stored d : option persistence_data :=
  match d !! Journal ≫= parse with Some p => Some p | None => d !! Data ≫= parse end.

(** The journal, if there is one, is not of a complete save. *)
Definition settled d : Prop := d !! Journal ≫= parse = None.

(** The disks that a stop of the node may leave, up to now. *)
Definition all_disks w : list disk_t := disk w :: past w.

(** Every disk between [w] and [w'] has the property [P]. *)
Definition steps (P : disk_t -> Prop) w w' : Prop := forall d, d ∈ all_disks w' -> d ∈ all_disks w \/ P d.

Lemma steps_same P w w' : same w w' -> steps P w w'.
Proof. intros [H1 H2] d Hd. unfold all_disks in *. rewrite H1, H2 in Hd. by left. Qed.

Lemma steps_trans P w1 w2 w3 : steps P w1 w2 -> steps P w2 w3 -> steps P w1 w3.
Proof. intros H1 H2 d Hd. destruct (H2 d Hd) as [Hd2|Hd2]; [by apply H1|by right]. Qed.

Lemma steps_set (P : disk_t -> Prop) d w : P d -> steps P w (set_disk d w).
Proof. intros HP d' [->|Hd]%elem_of_cons; [by right|by left]. Qed.

Lemma remove_cases f w : exists w', remove f w = w' /\ (forall P : disk_t -> Prop, P (delete f (disk w)) -> steps P w w') /\
  (disk w' = disk w \/ disk w' = delete f (disk w)) /\ (reliable -> disk w' = delete f (disk w)).
Proof.
  unfold remove. destruct (call_cases (Remove f) w) as (ok & w1 & -> & [H1 H2] & Hr). eexists. split; [reflexivity|].
  destruct ok.
  - rewrite H1. cbn. split_and!; [|by right|done]. intros P HP.
    eapply steps_trans; [by eapply steps_same|by apply steps_set].
  - split_and!; [intros P HP; by eapply steps_same|by left|intros R; by specialize (Hr R)].
Qed.

Lemma rename_cases w b : disk w !! Journal = Some b ->
  let d1 := <[Data := b]> (delete Journal (disk w)) in
  exists w', rename w = w' /\ (forall P : disk_t -> Prop, P d1 -> steps P w w') /\
    (disk w' = disk w \/ disk w' = d1) /\ (reliable -> disk w' = d1).
Proof.
  intros Hj d1. unfold rename. destruct (call_cases Rename w) as (ok & w1 & -> & [H1 H2] & Hr). rewrite H1, Hj.
  eexists. split; [reflexivity|]. destruct ok.
  - split_and!; [|by right|done]. intros P HP. eapply steps_trans; [by eapply steps_same|by apply steps_set].
  - split_and!; [intros P HP; by eapply steps_same|by left|intros R; by specialize (Hr R)].
Qed.

Lemma rename_none w : disk w !! Journal = None -> same w (rename w).
Proof.
  intros Hj. unfold rename. destruct (call_cases Rename w) as (ok & w1 & -> & [H1 H2] & _). rewrite H1, Hj. done.
Qed.

Lemma write_cases f buf w : disk w !! f = Some [] ->
  exists n w' k, write f buf w = (n, w') /\ (k <= length buf)%nat /\ (n = zlen buf -> k = length buf) /\
    disk w' = <[f := take k buf]> (disk w) /\
    (forall P : disk_t -> Prop, (forall i, (i <= k)%nat -> P (<[f := take i buf]> (disk w))) -> steps P w w') /\
    (reliable -> n = zlen buf).
Proof.
  intros Hf. unfold write. unfold ask at 1. destruct (sys_written (zlen buf) (os w)) as [n e] eqn:En.
  set (w1 := mkW e (disk w) (past w)). set (k := Z.to_nat (Z.min n (zlen buf))).
  assert (forall m, (m <= k)%nat ->
    let w' := foldl (fun w i => set_disk (<[f := take i buf]> (disk w)) w) w1 (seq 1 m) in
    disk w' = <[f := take m buf]> (disk w) /\
    forall P : disk_t -> Prop, (forall i, (i <= k)%nat -> P (<[f := take i buf]> (disk w))) -> steps P w w') as H.
  { induction m as [|m IH]; intros Hm; cbn zeta.
    - cbn. split; [by rewrite insert_id|]. intros P HP. by apply steps_same.
    - destruct IH as [IH1 IH2]; [lia|]. rewrite seq_S, foldl_app. cbn [foldl Nat.add].
      set (w2 := foldl _ w1 (seq 1 m)) in *. cbn [disk set_disk]. rewrite IH1, insert_insert_eq. split; [done|].
      intros P HP. eapply steps_trans; [by apply IH2|]. apply steps_set, HP. lia. }
  destruct (H k (Nat.le_refl _)) as [H1 H2]. eexists n, _, k. split; [reflexivity|]. split_and!; try done.
  - unfold k, zlen. lia.
  - intros ->. unfold k, zlen. lia.
  - intros [_ Hr]. specialize (Hr (zlen buf) (os w)). by rewrite En in Hr.
Qed.


(** *** What the disks hold *)

Lemma stored_settled d : settled d -> stored d = d !! Data ≫= parse.
Proof. unfold settled, stored. by intros ->. Qed.

Lemma stored_partial d b : parse b = None -> stored (<[Journal := b]> d) = d !! Data ≫= parse.
Proof. intros Hb. unfold stored. rewrite lookup_insert_eq. cbn. by rewrite Hb, lookup_insert_ne. Qed.

Lemma stored_full d b p : parse b = Some p -> d !! Journal = Some b -> stored d = Some p.
Proof. intros Hb Hd. unfold stored. rewrite Hd. cbn. by rewrite Hb. Qed.

Lemma stored_no_journal d : stored (delete Journal d) = d !! Data ≫= parse.
Proof. unfold stored. by rewrite lookup_delete_eq, lookup_delete_ne. Qed.

(** The data on a disk during a save. *)
Definition safe (old new : option persistence_data) (olddht : option bytes) d : Prop :=
  (stored d = old \/ stored d = new) /\ d !! OldDht = olddht.

Lemma abandon_journal P w : P (delete Journal (disk w)) -> steps P w (remove Journal w).
Proof. intros HP. destruct (remove_cases Journal w) as (w' & -> & H & _). by apply H. Qed.

Lemma write_journal_spec w dht x : settled (disk w) -> small dht -> small x ->
  let new := Some (loaded dht x) in
  exists rc w', write_journal (file_of dht x) [Data] w = (rc, w') /\
    steps (safe (stored (disk w)) new (disk w !! OldDht)) w w' /\
    (rc = 0 -> stored (disk w') = new) /\ (reliable -> rc = 0 /\ settled (disk w')).
Proof.
  intros Hset Hd Hx new. assert (forall c, IOEX_SYS_ERROR c = 0 -> False) as Hneg
    by (intros c H; pose proof (Mux.mk_error_negative 2 c); unfold IOEX_SYS_ERROR in H; lia). pose proof (parse_file _ _ Hd Hx) as Hp. set (buf := file_of dht x) in *.
  set (P := safe (stored (disk w)) new (disk w !! OldDht)).
  assert (forall i, (i <= length buf)%nat -> P (<[Journal := take i buf]> (disk w))) as HA.
  { intros i Hi. split; [|by rewrite lookup_insert_ne]. destruct (decide (i = length buf)) as [->|Hn].
    - right. eapply stored_full; [exact Hp|]. by rewrite lookup_insert_eq, take_ge.
    - left. rewrite stored_partial by (apply parse_prefix; [done|done|change (Z.of_nat i < zlen buf); unfold zlen; lia]). by rewrite stored_settled. }
  assert (forall b, P (delete Journal (<[Journal := b]> (disk w)))) as HR.
  { intros b. split; [left|by rewrite lookup_delete_ne, lookup_insert_ne].
    rewrite stored_no_journal, lookup_insert_ne by done. by rewrite stored_settled. }
  unfold write_journal, creat. destruct (call_cases (Creat Journal) w) as (ok & w1 & -> & [H1 H2] & Hr1).
  destruct ok; cbn [negb]; [|eexists _, _; split; [reflexivity|]; split_and!; [by apply steps_same|by intros ?%Hneg|intros R; by specialize (Hr1 R)]].
  rewrite H1. set (w2 := set_disk _ w1).
  assert (steps P w w2) as S2.
  { eapply steps_trans; [by apply steps_same|]. apply steps_set. apply (HA 0%nat). lia. }
  assert (disk w2 = <[Journal := []]> (disk w)) as E2 by done.
  destruct (write_cases Journal buf w2) as (n & w3 & k & -> & Hk & Hkn & E3 & S3 & Hr3); [rewrite E2; apply lookup_insert_eq|].
  rewrite E2, insert_insert_eq in E3.
  assert (steps P w w3) as S3'.
  { eapply steps_trans; [exact S2|]. apply S3. intros i Hi. rewrite E2, insert_insert_eq. apply HA. lia. }
  destruct (Z.eqb_spec n (zlen buf)) as [En|En]; cbn [negb].
  2: { eexists _, _. split; [reflexivity|]. split_and!; [|by intros ?%Hneg|intros R; by specialize (Hr3 R)].
       eapply steps_trans; [exact S3'|]. apply abandon_journal. rewrite E3. apply HR. }
  rewrite (Hkn En), take_ge in E3 by done. clear Hkn S3 Hk.
  destruct (call_cases Fsync w3) as (ok & w4 & -> & [H41 H42] & Hr4).
  assert (steps P w w4) as S4 by (eapply steps_trans; [exact S3'|by apply steps_same]).
  destruct ok; cbn [negb].
  2: { eexists _, _. split; [reflexivity|]. split_and!; [|by intros ?%Hneg|intros R; by specialize (Hr4 R)].
       eapply steps_trans; [exact S4|]. apply abandon_journal. rewrite H41, E3. apply HR. }
  cbn [foldl]. destruct (remove_cases Data w4) as (w5 & -> & S5 & E5 & Hr5). rewrite H41, E3 in S5, E5, Hr5.
  assert (disk w5 !! Journal = Some buf) as Hj
    by (destruct E5 as [->| ->]; [apply lookup_insert_eq|rewrite lookup_delete_ne by done; apply lookup_insert_eq]).
  destruct (rename_cases w5 buf Hj) as (w6 & -> & S6 & E6 & Hr6). set (d1 := <[Data := buf]> (delete Journal (disk w5))) in *.
  assert (stored d1 = new /\ settled d1) as [Hn1 Hs1].
  { unfold stored, settled, d1. rewrite lookup_insert_ne, lookup_delete_eq, lookup_insert_eq by done. done. }
  exists 0, w6. split; [done|].
  split_and!; [|intros _; destruct E6 as [->| ->]; [by eapply stored_full|done]|intros R; by rewrite (Hr6 R)].
  eapply steps_trans; [exact S4|]. eapply steps_trans; [apply S5|apply S6].
  - split; [right|by rewrite lookup_delete_ne, lookup_insert_ne].
    eapply stored_full; [exact Hp|]. rewrite lookup_delete_ne by done. apply lookup_insert_eq.
  - split; [by right|]. unfold d1. rewrite lookup_insert_ne, lookup_delete_ne by done.
    destruct E5 as [->| ->]; rewrite ?lookup_delete_ne, lookup_insert_ne by done; done.
Qed.

(** *** Making the directory does not touch the files *)

Lemma mkdir_same p w : same w (snd (_mkdir p w)).
Proof.
  unfold _mkdir, ask. destruct (sys_path p (os w)) as [[] e]; [|done..]. cbn [os].
  by destruct (sys_mkdir p e) as [r e'].
Qed.

Lemma mkdir_parents_same before rest at_pp w : same w (snd (mkdir_parents before rest at_pp w)).
Proof.
  revert before at_pp w. induction rest as [|c rest IH]; intros before at_pp w; cbn [mkdir_parents]; [done|].
  destruct (c =? 47); [|apply IH]. destruct at_pp; [apply IH|].
  pose proof (mkdir_same before w) as H. destruct (_mkdir before w) as [rc w1]. cbn in H.
  destruct (rc =? 0); [|done]. eapply same_world_trans; [exact H|apply IH].
Qed.

Lemma mkdirs_same p w : same w (snd (mkdirs p w)).
Proof.
  unfold mkdirs. pose proof (mkdir_parents_same [] (ztake (PATH_MAX - 1) p) true w) as H.
  destruct (mkdir_parents _ _ _ w) as [rc w1]. cbn in H. destruct (rc =? 0); [|done].
  eapply same_world_trans; [exact H|apply mkdir_same].
Qed.

(** *** Starting *)

Lemma load_data_spec fuel w : disk w !! OldDht = None ->
  exists r w', load_data fuel w = Ok (r, w') /\ same w w' /\ (reliable -> r = disk w !! Data ≫= parse).
Proof.
  intros Ho. destruct fuel; cbn [load_data].
  all: destruct (reach_cases (Access Data) Data w) as (ok & w1 & -> & Hs1 & Hok & Hr1); destruct ok; cbn [negb].
  1, 3: destruct (reach_cases (Open Data) Data w1) as (ok & w2 & -> & Hs2 & _ & Hr2); destruct ok; cbn [negb];
    [pose proof (load_i_spec Data (default [] (disk w2 !! Data)) w2) as [Hs3 Hr3];
     destruct (_load_persistence_data_i _ _ w2) as [r w3]; cbn in Hs3, Hr3; exists r, w3; split; [done|];
     split; [by repeat (eapply same_world_trans; [eassumption|])|];
     intros R; destruct Hr3 as [->|[_ Hn]]; [|by destruct Hn]; rewrite (proj1 Hs2), (proj1 Hs1);
     destruct (Hok eq_refl) as [b ->]; done
    |exists None, w2; split; [done|]; split; [by eapply same_world_trans|];
     intros R; rewrite (proj1 Hs1) in Hr2; specialize (Hr2 R (Hok eq_refl)); done].
  all: destruct (reach_cases (Access OldDht) OldDht w1) as (ok & w2 & -> & Hs2 & Hok2 & _); destruct ok; cbn [negb];
    [destruct (Hok2 eq_refl) as [b Hb]; rewrite (proj1 Hs1) in Hb; congruence|];
    exists None, w2; (split; [done|]); (split; [by eapply same_world_trans|]);
    intros R; destruct (disk w !! Data) as [b|] eqn:Eb; [|done]; specialize (Hr1 R ltac:(by eexists)); done.
Qed.

(** What a start may leave is what was there. *)
Definition kept (p : option persistence_data) d : Prop := stored d = p /\ d !! OldDht = None.

Lemma load_spec w : disk w !! OldDht = None ->
  exists r w', load_persistence_data w = Ok (r, w') /\ steps (kept (stored (disk w))) w w' /\
    (reliable -> r = stored (disk w) /\ stored (disk w') = r /\ settled (disk w')).
Proof.
  intros Ho. assert (forall w1, same w w1 ->
    exists r w', load_data 1 w1 = Ok (r, w') /\ steps (kept (stored (disk w))) w w' /\
      (reliable -> settled (disk w) -> r = stored (disk w) /\ stored (disk w') = r /\ settled (disk w'))) as Hdata.
  { intros w1 Hs. destruct (load_data_spec 1 w1) as (r & w' & -> & Hs' & Hr); [by rewrite (proj1 Hs)|].
    exists r, w'. split; [done|]. pose proof (same_world_trans _ _ _ Hs Hs') as [Hd _].
    split; [apply steps_same; by eapply same_world_trans|]. intros R Hset. rewrite (Hr R), Hd, (proj1 Hs), (stored_settled _ Hset). done. }
  unfold load_persistence_data.
  destruct (reach_cases (Access Journal) Journal w) as (ok & w1 & -> & Hs1 & Hok & Hr1).
  assert (disk w !! Journal = None -> settled (disk w)) as Hns by (intros H; unfold settled; by rewrite H).
  destruct ok; cbn [negb].
  2: { destruct (Hdata w1 Hs1) as (r & w' & -> & Hst & Hr). exists r, w'. split_and!; try done.
       intros R. apply Hr; [done|]. apply Hns. destruct (disk w !! Journal) eqn:Ej; [|done]. by specialize (Hr1 R ltac:(by eexists)). }
  destruct (Hok eq_refl) as [b Hb].
  destruct (reach_cases (Open Journal) Journal w1) as (ok & w2 & -> & Hs2 & _ & Hr2). pose proof (same_world_trans _ _ _ Hs1 Hs2) as Hs12.
  destruct ok; cbn [negb].
  2: { destruct (Hdata w2 Hs12) as (r & w' & -> & Hst & Hr). exists r, w'. split_and!; try done.
       intros R. specialize (Hr2 R). rewrite (proj1 Hs1), Hb in Hr2. by specialize (Hr2 ltac:(by eexists)). }
  rewrite (proj1 Hs12), Hb. cbn [default id]. pose proof (load_i_spec Journal b w2) as [Hs3 Hr3].
  destruct (_load_persistence_data_i Journal b w2) as [r w3]. cbn [fst snd] in Hs3, Hr3. pose proof (same_world_trans _ _ _ Hs12 Hs3) as Hs.
  destruct r as [p|]; cbn [negb].
  2: { destruct (Hdata w3 Hs) as (r & w' & -> & Hst & Hr). exists r, w'. split_and!; try done. intros R. apply Hr; [done|].
       unfold settled. rewrite Hb. cbn. destruct Hr3 as [<-|[_ Hn]]; [done|by destruct Hn]. }
  destruct Hr3 as [Hp|[? _]]; [|done]. assert (stored (disk w) = Some p) as Est by (by eapply stored_full).
  destruct (remove_cases Data w3) as (w4 & -> & S4 & E4 & Hr4). rewrite (proj1 Hs) in S4, E4, Hr4.
  assert (disk w4 !! Journal = Some b) as Hj by (destruct E4 as [->| ->]; [done|by rewrite lookup_delete_ne]).
  destruct (rename_cases w4 b Hj) as (w5 & -> & S5 & E5 & Hr5). exists (Some p), w5. split; [done|]. rewrite Est.
  assert (stored (<[Data := b]> (delete Journal (disk w4))) = Some p /\ settled (<[Data := b]> (delete Journal (disk w4)))) as [Hn5 Hset5].
  { unfold stored, settled. rewrite lookup_insert_ne, lookup_delete_eq, lookup_insert_eq by done. done. }
  assert (disk w4 !! OldDht = None) as Ho4 by (destruct E4 as [->| ->]; [done|by rewrite lookup_delete_ne]).
  split; [|intros R; by rewrite (Hr5 R)].
  eapply steps_trans; [by apply steps_same|]. eapply steps_trans; [apply S4|apply S5]; split.
  - eapply stored_full; [by symmetry|]. by rewrite lookup_delete_ne.
  - by rewrite lookup_delete_ne.
  - done.
  - by rewrite lookup_insert_ne, lookup_delete_ne.
Qed.

Lemma store_spec w loc dht friends : settled (disk w) -> small dht -> small (extra_bytes (friends_iterate friends)) ->
  let new := Some (loaded dht (extra_bytes (friends_iterate friends))) in
  exists rc w', store_persistence_data loc dht friends w = Ok (rc, w') /\
    steps (safe (stored (disk w)) new (disk w !! OldDht)) w w' /\ (rc = 0 -> stored (disk w') = new).
Proof.
  intros Hset Hd Hx new. unfold store_persistence_data.
  destruct (call_cases (Malloc (256 + ROUND256 (zlen dht) + ROUND256 (get_extra_savedata_size (friends_iterate friends)))) w)
    as (ok & w1 & -> & Hs1 & _).
  destruct ok; cbn [negb].
  2: { do 2 eexists. split; [reflexivity|]. split; [by apply steps_same|]. intros H.
       pose proof (Mux.mk_error_negative 1 IOEXERR_OUT_OF_MEMORY). unfold IOEX_GENERAL_ERROR in H. lia. }
  rewrite image_spec. bind_simpl. pose proof (mkdirs_same loc w1) as Hs2. destruct (mkdirs loc w1) as [rc w2]. cbn [snd] in Hs2.
  pose proof (same_world_trans _ _ _ Hs1 Hs2) as Hs. destruct (rc <? 0).
  { do 2 eexists. split; [reflexivity|]. split; [by apply steps_same|]. intros H.
    pose proof (Mux.mk_error_negative 2 (errno w2)). unfold IOEX_SYS_ERROR in H. lia. }
  destruct (write_journal_spec w2 dht (extra_bytes (friends_iterate friends))) as (rc' & w3 & E3 & S3 & H3 & _);
    [by rewrite (proj1 Hs)|done|done|]. rewrite E3, (proj1 Hs) in *. exists rc', w3. split; [done|]. split; [|exact H3].
  eapply steps_trans; [by apply steps_same|exact S3].
Qed.

End Crash.

(** ** Labels *)

Definition labelled (fi : FriendInfo) : Prop :=
  nul_free (label (info fi)) /\ zlen (label (info fi)) <= IOEX_MAX_USER_NAME_LEN /\ 0 <= friend_number fi < UINT32_MAX.

Definition relabel (m : friends_t) (fi : FriendInfo) : friends_t :=
  if zlen (label (info fi)) =? 0 then m
  else match table_get (friend_number fi) m with
       | Some fi' => table_put (friend_number fi) (on_info (with_label (label (info fi))) fi') m
       | None => m
       end.

Lemma string_at_spec s r : nul_free s -> string_at (s ++ 0 :: r) = Ok s.
Proof. intros Hs. unfold string_at. rewrite strlen_string by done. bind_simpl. by rewrite ztake_app_len. Qed.

Lemma set_label_spec fi m : labelled fi -> zlen (label (info fi)) <> 0 ->
  set_label (friend_number fi) (label (info fi)) m = Ok (relabel m fi).
Proof.
  intros (Hs & Hl & Hn) Hz. unfold set_label, friends_get, relabel, strcpy.
  rewrite (proj2 (Z.eqb_neq _ UINT32_MAX)), (proj2 (Z.eqb_neq _ 0)), (proj2 (Z.ltb_lt _ _)) by lia.
  cbn [negb c_assert]. bind_simpl. by destruct (table_get _ m).
Qed.

Lemma apply_loop_spec l r m fuel : Forall labelled l -> zlen (extra_bytes l) < 2 ^ 64 -> zlen (extra_bytes l) <= Z.of_nat fuel ->
  apply_loop fuel (extra_bytes l ++ r) (zlen (extra_bytes l)) m = Ok (foldl relabel m l).
Proof.
  intros Hl. revert m fuel. induction Hl as [|fi l Hfi Hl IH]; intros m fuel Hz Hf; [by destruct fuel|].
  assert (extra_bytes (fi :: l) = label_bytes fi ++ extra_bytes l) as Ee by done. rewrite Ee in *. clear Ee.
  pose proof (zlen_nonneg (extra_bytes l)) as Hx. cbn [foldl].
  destruct (zlen (label (info fi)) =? 0) eqn:E0.
  { unfold label_bytes in *. rewrite E0 in *. cbn [app] in *. unfold relabel at 2. rewrite E0. by apply IH. }
  set (s := label (info fi)) in *. assert (label_bytes fi = be32 (friend_number fi) ++ s ++ [0]) as Elb
    by (unfold label_bytes; fold s; by rewrite E0).
  zify_tests. pose proof (zlen_nonneg s).
  assert (zlen (label_bytes fi) = 4 + zlen s + 1) as Ez by (rewrite Elb; zlen_lia).
  rewrite zlen_app, Ez in *. destruct fuel as [|fuel]; [lia|]. cbn [apply_loop]. rewrite (proj2 (Z.eqb_neq _ 0)) by lia.
  rewrite mem_read_ok by (rewrite ?zlen_app, ?Ez; pose proof (zlen_nonneg r); lia). bind_simpl.
  rewrite zdrop_0. assert (zdrop (4 + zlen s + 1) (be32 (friend_number fi) ++ s ++ 0 :: extra_bytes l ++ r) = extra_bytes l ++ r) as Ed.
  { change (0 :: extra_bytes l ++ r) with ([0] ++ extra_bytes l ++ r). rewrite (app_assoc s), (app_assoc (be32 _)), <- Elb.
    by apply zdrop_app_len. }
  rewrite Elb, <- !app_assoc, ztake_app_len, zdrop_app_len by apply be32_zlen. cbn [app].
  pose proof Hfi as (Hs & Hfl). rewrite string_at_spec by done. bind_simpl. rewrite (proj2 (Z.eqb_neq _ 0)) by done.
  rewrite unbe32_be32 by (unfold UINT32_MAX in Hfl; lia). unfold s at 1. rewrite set_label_spec by done. bind_simpl.
  fold s. rewrite Ed, u64_small by lia. replace (4 + zlen s + 1 + zlen (extra_bytes l) - (4 + zlen s + 1)) with (zlen (extra_bytes l)) by lia.
  apply IH; lia.
Qed.

(** The table as the DHT's list of friends makes it, without labels. *)
Definition unlabel (m : friends_t) : friends_t := prod_map id (on_info (with_label [])) <$> m.

Lemma table_get_app {K V} `{EqDecision K} (k : K) (m1 m2 : list (K * V)) : k ∉ m1.*1 -> table_get k (m1 ++ m2) = table_get k m2.
Proof.
  induction m1 as [|[x y] m1 IH]; cbn; [done|]. intros [Hx Hm]%not_elem_of_cons. rewrite decide_False by congruence. by apply IH.
Qed.

Lemma table_put_app {K V} `{EqDecision K} (k : K) (v : V) (m1 m2 : list (K * V)) :
  k ∉ m1.*1 -> table_put k v (m1 ++ m2) = m1 ++ table_put k v m2.
Proof.
  induction m1 as [|[x y] m1 IH]; cbn; [done|]. intros [Hx Hm]%not_elem_of_cons. rewrite decide_False by congruence. by rewrite IH.
Qed.

Lemma relabel_all m1 m2 : friends_wf (m1 ++ m2) -> foldl relabel (m1 ++ unlabel m2) (snd <$> m2) = m1 ++ m2.
Proof.
  revert m1. induction m2 as [|[n fi] m2 IH]; intros m1 Hwf; [done|].
  change (unlabel ((n, fi) :: m2)) with ((n, on_info (with_label []) fi) :: unlabel m2).
  change (snd <$> (n, fi) :: m2) with (fi :: (snd <$> m2)). cbn [foldl].
  assert (friend_number fi = n) as Hn.
  { destruct Hwf as [_ Hf]. apply Forall_app in Hf as [_ Hf]. apply Forall_cons in Hf as [[E _] _]. done. }
  assert (n ∉ m1.*1) as Hni.
  { destruct Hwf as [Hnd _]. rewrite fmap_app in Hnd. apply NoDup_app in Hnd as (_ & Hd & _). intros Hin. apply (Hd n Hin). left. }
  assert (relabel (m1 ++ (n, on_info (with_label []) fi) :: unlabel m2) fi = (m1 ++ [(n, fi)]) ++ unlabel m2) as ->.
  { unfold relabel. rewrite Hn, table_get_app by done. cbn [table_get].
    rewrite decide_True, table_put_app by done. cbn [table_put]. rewrite decide_True by done.
    rewrite <- app_assoc. destruct fi as [k [u s st pr]]. cbn. destruct (zlen s =? 0) eqn:E; zify_tests; [|done].
    destruct s; [done|zlen_lia]. }
  rewrite IH; [by rewrite <- app_assoc|]. by rewrite <- app_assoc.
Qed.

Lemma apply_extra_spec m r : friends_wf m -> Forall labelled (friends_iterate m) -> small (extra_bytes (friends_iterate m)) ->
  apply_extra_data (extra_bytes (friends_iterate m) ++ r) (zlen (extra_bytes (friends_iterate m))) (unlabel m) = Ok m.
Proof.
  intros Hwf Hl Hs%small_range. unfold apply_extra_data.
  rewrite apply_loop_spec; [|done|lia|rewrite length_app; unfold zlen; lia].
  f_equal. apply (relabel_all [] m Hwf).
Qed.


(** ** The properties *)

Section Properties.
Context {E : Type} {SY : System E} {NC : Crypto.Nacl} {NL : Crypto.NaclLaws}.
Notation world := (@world E).

(** A start of the node, after a crash, on a machine of its own. *)
Definition start {E2} {SY2 : System E2} (e : E2) (d : disk_t) := load_persistence_data (mkW e d []).

(** C23. A save survives a crash: whatever the operating system answers to a save, and
    at whatever moment the node stops (between two calls, or with a part of the data
    written), the next start finds exactly what was stored before or exactly what was
    being saved, and what it finds stays if that start is stopped in turn; a save that
    returns 0 has stored its data. The sections are within the size that is read back,
    and the directory starts without a complete journal and without files of old
    versions, as a start leaves it. *)
Theorem save_survives_crash (w : world) loc dht friends :
  let new := Some (loaded dht (extra_bytes (friends_iterate friends))) in
  past w = [] -> settled (disk w) -> disk w !! OldDht = None ->
  small dht -> small (extra_bytes (friends_iterate friends)) ->
  exists rc w', store_persistence_data loc dht friends w = Ok (rc, w') /\
    (rc = 0 -> stored (disk w') = new) /\
    forall d, d ∈ all_disks w' ->
      (stored d = stored (disk w) \/ stored d = new) /\
      forall E2 (SY2 : System E2) e, @reliable E2 SY2 ->
        exists w2, start e d = Ok (stored d, w2) /\ stored (disk w2) = stored d /\ settled (disk w2) /\
          forall d2, d2 ∈ all_disks w2 -> stored d2 = stored d.
Proof.
  intros new Hp Hset Ho Hd Hx. destruct (store_spec w loc dht friends Hset Hd Hx) as (rc & w' & -> & Hst & Hrc).
  exists rc, w'. split; [done|]. split; [exact Hrc|]. intros d Hin.
  assert (safe (stored (disk w)) new (disk w !! OldDht) d) as [Hs Hod].
  { destruct (Hst d Hin) as [Hw|]; [|done]. unfold all_disks in Hw. rewrite Hp in Hw. apply list_elem_of_singleton in Hw as ->.
    split; [by left|done]. }
  split; [done|]. intros E2 SY2 e R. rewrite Ho in Hod.
  destruct (@load_spec E2 SY2 NC (mkW e d []) Hod) as (r & w2 & Hl & Hk & Hr). cbn [disk] in *.
  destruct (Hr R) as (-> & Hw2 & Hset2). exists w2. split; [exact Hl|]. split_and!; [done|done|].
  intros d2 Hd2. destruct (Hk d2 Hd2) as [Hin2|[Hk2 _]]; [|done]. apply list_elem_of_singleton in Hin2. by subst d2.
Qed.


(** The image with a section above the limit is made without complaint, and no start
    reads it. *)
Lemma oversized_image_unreadable dht friends :
  zlen dht < 2 ^ 32 -> zlen (extra_bytes (friends_iterate friends)) < 2 ^ 32 -> ~ small dht ->
  exists b, image dht friends = Ok b /\ parse b = None.
Proof. intros. eexists. split; [apply image_spec|]. apply parse_oversized; [done|done|by left]. Qed.

End Properties.

(** ** A run *)

Section Demo.

(** An operating system that does what it is asked, but for a power cut: the calls
    after the first [n] fail. *)
#[local] Existing Instances CryptoThm.toy CryptoThm.toy_laws.
#[local] Instance demo_system : System nat := {
  sys_ok _ n := (negb (Nat.eqb n 0), pred n);
  sys_written k n := (if Nat.eqb n 0 then -1 else k, pred n);
  sys_errno _ := 5;
  sys_path _ n := (IsDir, n);
  sys_mkdir _ n := (None, n);
}.

Definition demo_friends : friends_t :=
  [(3, mkFI 3 (mkFriend zero_user [98; 111; 98] 1 0)); (1, mkFI 1 (mkFriend zero_user [] 1 0));
   (300, mkFI 300 (mkFriend zero_user [97] 1 0))].

Definition demo_dht : bytes := [1; 2; 3; 4; 5].

(** A first save, and a second one that is cut after [n] calls. *)
Definition first_save : outcome (Z * world) := store_persistence_data [47; 100] demo_dht demo_friends (mkW 100%nat ∅ []).

Definition second_save (n : nat) : outcome (Z * world) :=
  r ← first_save;
  store_persistence_data [47; 100] [9; 9] [] (mkW n (disk (snd r)) []).

(** The size of the DHT's data that each disk of the second save gives. *)
Definition found (n : nat) : outcome (list Z) :=
  r ← second_save n;
  Ok (remove_dups ((fun d => match stored d with Some p => dht_savedata_len p | None => -1 end) <$> all_disks (snd r))).

Example found_run : (found 2, found 100) = (Ok [5], Ok [2; 5]).
Proof. vm_compute. reflexivity. Qed.

Lemma demo_empty : settled ∅.
Proof. vm_compute. reflexivity. Qed.

(** A small file is read back. *)
Lemma demo_small : small demo_dht /\ small (extra_bytes (friends_iterate demo_friends)).
Proof. split; vm_compute; discriminate. Qed.

Lemma demo_wf : friends_wf demo_friends.
Proof. exact (bool_decide_unpack (friends_wf demo_friends) I). Qed.

Lemma save_survives_crash_witness :
  exists rc w', store_persistence_data [47; 100] demo_dht demo_friends (mkW 3%nat ∅ []) = Ok (rc, w') /\
    forall d, d ∈ all_disks w' -> stored d = None \/ stored d = Some (loaded demo_dht (extra_bytes (friends_iterate demo_friends))).
Proof.
  destruct (save_survives_crash (mkW 3%nat ∅ []) [47; 100] demo_dht demo_friends eq_refl demo_empty eq_refl
    (proj1 demo_small) (proj2 demo_small)) as (rc & w' & H & _ & Hd).
  exists rc, w'. split; [exact H|]. intros d Hin. exact (proj1 (Hd d Hin)).
Defined.


(** The first save of the run returns 0. *)
Example first_save_ok : (r ← first_save; Ok (fst r)) = Ok 0.
Proof. vm_compute. reflexivity. Qed.

(** Files of an old version: two friends, the second without a label. *)
Definition old_files : disk_t :=
  <[OldDht := [1; 2; 3]]> (<[OldIOEX := zeros 32 ++ le 4 2 ++ le 4 7 ++ [98; 111; 98; 0] ++ le 4 8 ++ [0]]> ∅).

(** They are converted at the start: the label comes with its number in network order,
    and the old files are gone. *)
Example old_files_run :
  match load_persistence_data (mkW 100%nat old_files []) with
  | Ok (Some d, w) => Some (ztake 3 (dht_savedata d), ztake (extra_savedata_len d) (extra_savedata d), (map_to_list (disk w)).*1)
  | _ => None
  end = Some ([1; 2; 3], [0; 0; 0; 7; 98; 111; 98; 0], [Data]).
Proof. vm_compute. reflexivity. Qed.

End Demo.

End PersistThm.
