(* ===== verification/Carrier.v ===== *)
(** * The carrier node: what the DHT reports

    The part of src/src/carrier/IOEX_carrier.c that keeps the state of a node and turns
    what its DHT reports into changes of that state and callbacks of the application:
    friends and their information, messages, and invitations with their responses. *)

From Stdlib Require Import ZArith Lia.
From stdpp Require Import prelude list.
From S2P Require Import Prelude Base58 Crypto Mux CStr Tables Node Persist Cp.

Module Carrier.
Import CStr Tables Node.

Definition DHT_PUBLIC_KEY_SIZE : Z := 32.
Definition DHT_ADDRESS_SIZE : Z := 38.
Definition IOEX_MAX_ADDRESS_LEN : Z := 52.
Definition IOEX_GENERAL_ERROR (code : Z) : Z := Mux.IOEX_GENERAL_ERROR code.
Definition IOEXERR_INVALID_ARGS : Z := 0x01.
Definition IOEXERR_OUT_OF_MEMORY : Z := 0x02.
Definition IOEXERR_NOT_EXIST : Z := 0x0B.

Notation c_str := (option bytes).
Notation persistence := Persist.world.

Inductive FriendEventType := FriendEventType_Added | FriendEventType_Removed.
Record FriendEvent := mkEvent { event_type : FriendEventType; event_fi : IOEXFriendInfo }.

(** A function pointer and its context; the function is not null. *)
Record TransactedCallback := mkTcb { tid : Z; callback_func : Z; callback_context : Z }.

(** The functions of [IOEXCallbacks], each of which may be left out. *)
Inductive callback :=
  CbIdle | CbConnectionStatus | CbReady | CbFriendList | CbFriendConnection | CbFriendInfo | CbFriendPresence
| CbFriendRequest | CbFriendAdded | CbFriendRemoved | CbFriendMessage | CbFriendInvite.

(** The node. [session] is whether sessions have been initialised with their callback
    for invitations; the tables are the maps of [Tables.node_table_refines]. *)
Record IOEXCarrier := mkCarrier {
  session : bool;
  data_location : bytes;
  public_key : bytes;
  address : bytes;
  base58_addr : bytes;
  me : IOEXUserInfo;
  presence_status : Z;
  connection_status : Z;
  is_ready : bool;
  callbacks : callback -> bool;
  friend_events : list FriendEvent;
  friends : friends_t;
  tcallbacks : list (Z * TransactedCallback);
  thistory : list (bytes * Z) }.

(** What leaves the node: calls of the application's functions, and the messages that
    the DHT has taken for a friend. *)
Inductive app_call :=
| dht_message (n : Z) (data : bytes)
| app_idle
| app_ready
| app_connection_status (status : Z)
| app_friend_list (fi : option IOEXFriendInfo)
| app_friend_info (id : bytes) (fi : IOEXFriendInfo)
| app_friend_connection (id : bytes) (status : Z)
| app_friend_presence (id : bytes) (presence : Z)
| app_friend_request (id : bytes) (ui : IOEXUserInfo) (hello : bytes)
| app_friend_added (fi : IOEXFriendInfo)
| app_friend_removed (id : bytes)
| app_friend_message (id : bytes) (msg : c_str) (len : Z)
| app_friend_invite (id : bytes) (data : c_str) (len : Z)
| session_friend_invite (id : bytes) (data : c_str) (len : Z)
| app_invite_response (func context : Z) (id : bytes) (status : Z) (reason data : c_str) (len : Z).

(** The DHT, the allocator, the clock and the random numbers. The calls that check
    their arguments may abort. *)
Class Dht (E : Type) := {
  carrier_alloc : E -> bool * E;
  dht_get_friend_number : bytes -> E -> Z * Z;
  dht_friend_add : bytes -> bytes -> E -> outcome (Z * Z * E);
  dht_friend_add_norequest : bytes -> E -> Z * Z * E;
  dht_friend_message : Z -> bytes -> E -> outcome (Z * E);
  dht_friend_delete : Z -> E -> outcome E;
  dht_self_set_desc : bytes -> E -> E;
  dht_self_set_status : Z -> E -> E;
  dht_self_get_status : E -> Z;
  dht_get_savedata : E -> bytes;
  time : E -> Z * E;
  rand : E -> Z * E;
}.

Section Node.
Context {E : Type} {DH : Dht E} {SY : Persist.System E} {NC : Crypto.Nacl} {FB : Cp.FlatBuffers E}.

(** The node, the file system with the environment, what has left the node so far, the references that have been taken and not given back, and the last error. *)
Record world := mkW {
  node : IOEXCarrier; fs : @Persist.world E; calls : list app_call; owed : Z; error : Z }.
Implicit Types w : world.

Definition with_node (f : IOEXCarrier -> IOEXCarrier) w : world := mkW (f (node w)) (fs w) (calls w) (owed w) (error w).
Definition with_fs (s : @Persist.world E) w : world := mkW (node w) s (calls w) (owed w) (error w).
Definition env w : E := Persist.os (fs w).
Definition with_env (e : E) w : world := with_fs (Persist.mkW e (Persist.disk (fs w)) (Persist.past (fs w))) w.
Definition with_owed (n : Z) w : world := mkW (node w) (fs w) (calls w) (owed w + n) (error w).
Definition IOEX_set_error (err : Z) w : world := mkW (node w) (fs w) (calls w) (owed w) err.
Definition tell (c : app_call) w : world := mkW (node w) (fs w) (calls w ++ [c]) (owed w) (error w).

Definition ask {A} (f : E -> A * E) w : A * world := let '(a, e) := f (env w) in (a, with_env e w).

(** [if (w->callbacks.x) w->callbacks.x (...)] *)
Definition notify (cb : callback) (c : app_call) w : world := if callbacks (node w) cb then tell c w else w.

Definition set_me (u : IOEXUserInfo) (n : IOEXCarrier) : IOEXCarrier :=
  mkCarrier (session n) (data_location n) (public_key n) (address n) (base58_addr n) u (presence_status n) (connection_status n)
    (is_ready n) (callbacks n) (friend_events n) (friends n) (tcallbacks n) (thistory n).
Definition set_ready (n : IOEXCarrier) : IOEXCarrier :=
  mkCarrier (session n) (data_location n) (public_key n) (address n) (base58_addr n) (me n) (presence_status n) (connection_status n)
    true (callbacks n) (friend_events n) (friends n) (tcallbacks n) (thistory n).
Definition set_connection (s : Z) (n : IOEXCarrier) : IOEXCarrier :=
  mkCarrier (session n) (data_location n) (public_key n) (address n) (base58_addr n) (me n) (presence_status n) s
    (is_ready n) (callbacks n) (friend_events n) (friends n) (tcallbacks n) (thistory n).
Definition set_events (l : list FriendEvent) (n : IOEXCarrier) : IOEXCarrier :=
  mkCarrier (session n) (data_location n) (public_key n) (address n) (base58_addr n) (me n) (presence_status n) (connection_status n)
    (is_ready n) (callbacks n) l (friends n) (tcallbacks n) (thistory n).
Definition set_friends (t : friends_t) (n : IOEXCarrier) : IOEXCarrier :=
  mkCarrier (session n) (data_location n) (public_key n) (address n) (base58_addr n) (me n) (presence_status n) (connection_status n)
    (is_ready n) (callbacks n) (friend_events n) t (tcallbacks n) (thistory n).
Definition set_tcallbacks (t : list (Z * TransactedCallback)) (n : IOEXCarrier) : IOEXCarrier :=
  mkCarrier (session n) (data_location n) (public_key n) (address n) (base58_addr n) (me n) (presence_status n) (connection_status n)
    (is_ready n) (callbacks n) (friend_events n) (friends n) t (thistory n).
Definition set_thistory (t : list (bytes * Z)) (n : IOEXCarrier) : IOEXCarrier :=
  mkCarrier (session n) (data_location n) (public_key n) (address n) (base58_addr n) (me n) (presence_status n) (connection_status n)
    (is_ready n) (callbacks n) (friend_events n) (friends n) (tcallbacks n) t.

(** ** Friends

    The table's object with a reference to it, which [deref] gives back; a write through
    the pointer changes the object in the table. *)
Definition get_friend (n : Z) w : outcome (option FriendInfo * world) :=
  r ← friends_get n (friends (node w));
  match r with Some fi => Ok (Some fi, with_owed 1 w) | None => Ok (None, w) end.
Definition deref w : world := with_owed (-1) w.
Definition put_info (n : Z) (fi : FriendInfo) (i : IOEXFriendInfo) w : world :=
  with_node (set_friends (table_put n (mkFI (friend_number fi) i) (friends (node w)))) w.

(** [base58_encode] of a key or address into an array of [size] bytes. *)
Definition encode_text (b : bytes) (size : Z) : outcome bytes :=
  r ← Base58.base58_encode b size;
  match fst r with Some t => Persist.string_at t | None => Ok [] end.

(** ** User information *)

(** A field that is replaced when it differs: the field, and whether it did. *)
Definition change (size : Z) (old new : bytes) : outcome (bytes * bool) :=
  if bool_decide (old = new) then Ok (old, false) else s ← strcpy size new; Ok (s, true).

Definition or_empty (s : c_str) : bytes := default [] s.

(** The new information and whether it changed; [None] is the result -1, at which
    nothing is written. *)
Definition unpack_user_desc (desc : bytes) (info : IOEXUserInfo) w : outcome (option (IOEXUserInfo * bool) * world) :=
  _ ← c_assert 230 (0 <? zlen desc);
  let '(ok, w) := ask carrier_alloc w in
  c ← Cp.IOEXcp_decode ok desc;
  match c with
  | None => Ok (None, w)
  | Some cp =>
      if negb (Cp.IOEXcp_get_type cp =? Cp.IOEXCP_TYPE_USERINFO) then Ok (None, w)
      else
        avatar ← Cp.IOEXcp_get_has_avatar cp;
        nm ← Cp.IOEXcp_get_name cp; de ← Cp.IOEXcp_get_descr cp; ge ← Cp.IOEXcp_get_gender cp;
        ph ← Cp.IOEXcp_get_phone cp; em ← Cp.IOEXcp_get_email cp; re ← Cp.IOEXcp_get_region cp;
        nm ← change (IOEX_MAX_USER_NAME_LEN + 1) (name info) (or_empty nm);
        de ← change (IOEX_MAX_USER_DESCRIPTION_LEN + 1) (description info) (or_empty de);
        ge ← change (IOEX_MAX_GENDER_LEN + 1) (gender info) (or_empty ge);
        ph ← change (IOEX_MAX_PHONE_LEN + 1) (phone info) (or_empty ph);
        em ← change (IOEX_MAX_EMAIL_LEN + 1) (email info) (or_empty em);
        re ← change (IOEX_MAX_REGION_LEN + 1) (region info) (or_empty re);
        let av := Z.b2z avatar in
        let did := snd nm || snd de || snd ge || snd ph || snd em || snd re || negb (has_avatar info =? av) in
        Ok (Some (mkUser (userid info) (fst nm) (fst de) av (fst ge) (fst ph) (fst em) (fst re), did), w)
  end.

Definition get_presence_status (user_status : Z) : Z :=
  if user_status <? IOEXPresenceStatus_None then IOEXPresenceStatus_None
  else if IOEXPresenceStatus_Busy <? user_status then IOEXPresenceStatus_Busy
  else user_status.

(** ** Saving

    The result is not looked at by any caller. *)
Definition store_persistence_data w : outcome world :=
  r ← Persist.store_persistence_data (data_location (node w)) (dht_get_savedata (env w)) (friends (node w)) (fs w);
  Ok (with_fs (snd r) w).

(** ** Reports about friends and the connection *)

Definition notify_idle w : world := notify CbIdle app_idle w.

Definition notify_friends w : world :=
  let w := foldl (fun w fi => notify CbFriendList (app_friend_list (Some (info fi))) w) w (friends_iterate (friends (node w))) in
  notify CbFriendList (app_friend_list None) w.

Definition notify_connection_cb (connected : bool) w : world :=
  let w := if negb (is_ready (node w)) && connected then notify CbReady app_ready (with_node set_ready w) else w in
  let status := if connected then IOEXConnectionStatus_Connected else IOEXConnectionStatus_Disconnected in
  notify CbConnectionStatus (app_connection_status status) (with_node (set_connection status) w).

Definition notify_friend_info (n : Z) (i : IOEXFriendInfo) w : outcome world :=
  _ ← c_assert 1240 (negb (n =? UINT32_MAX));
  ex ← friends_exist n (friends (node w));
  if (ex : bool) then Ok (notify CbFriendInfo (app_friend_info (userid (user_info i)) i) w) else Ok w.

(** [changed] is not set when the description cannot be unpacked. *)
Definition notify_friend_description_cb (n : Z) (desc : bytes) w : outcome world :=
  _ ← c_assert 1260 (negb (n =? UINT32_MAX));
  r ← get_friend n w;
  match r with
  | (None, w) => Ok w
  | (Some fi, w) =>
      if zlen desc =? 0 then Ok (deref w)
      else
        r ← unpack_user_desc desc (user_info (info fi)) w;
        match r with
        | (None, _) => Undef
        | (Some (ui, changed), w) =>
            let i := with_user ui (info fi) in
            let w := put_info n fi i w in
            w ← (if (changed : bool) then notify_friend_info n i w else Ok w);
            Ok (deref w)
        end
  end.

Definition notify_friend_connection_cb (n : Z) (connected : bool) w : outcome world :=
  _ ← c_assert 1309 (negb (n =? UINT32_MAX));
  r ← get_friend n w;
  match r with
  | (None, w) => Ok w
  | (Some fi, w) =>
      let s := if connected then IOEXConnectionStatus_Connected else IOEXConnectionStatus_Disconnected in
      if s =? status (info fi) then Ok (deref w)
      else
        let w := put_info n fi (with_status s (info fi)) w in
        tmpid ← strcpy (IOEX_MAX_ID_LEN + 1) (userid (user_info (info fi)));
        Ok (deref (notify CbFriendConnection (app_friend_connection tmpid s) w))
  end.

Definition notify_friend_status_cb (n s : Z) w : outcome world :=
  _ ← c_assert 1349 (negb (n =? UINT32_MAX));
  r ← get_friend n w;
  match r with
  | (None, w) => Ok w
  | (Some fi, w) =>
      if (s <? IOEXPresenceStatus_None) || (IOEXPresenceStatus_Busy <? s) then Ok w
      else if s =? presence (info fi) then Ok (deref w)
      else
        let w := put_info n fi (with_presence s (info fi)) w in
        tmpid ← strcpy (IOEX_MAX_ID_LEN + 1) (userid (user_info (info fi)));
        Ok (deref (notify CbFriendPresence (app_friend_presence tmpid s) w))
  end.

Definition notify_friend_request_cb (public_key gretting : bytes) w : outcome world :=
  _ ← c_assert 1389 (0 <? zlen gretting);
  let '(rc, n) := dht_get_friend_number public_key (env w) in
  if (rc =? 0) && negb (n =? UINT32_MAX) then Ok w
  else
    let '(ok, w) := ask carrier_alloc w in
    c ← Cp.IOEXcp_decode ok gretting;
    match c with
    | None => Ok w
    | Some cp =>
        if negb (Cp.IOEXcp_get_type cp =? Cp.IOEXCP_TYPE_FRIEND_REQUEST) then Ok w
        else
          id ← encode_text public_key (IOEX_MAX_ID_LEN + 1);
          nm ← Cp.IOEXcp_get_name cp; de ← Cp.IOEXcp_get_descr cp; he ← Cp.IOEXcp_get_hello cp;
          nm ← strcpy (IOEX_MAX_USER_NAME_LEN + 1) (or_empty nm);
          de ← strcpy (IOEX_MAX_USER_DESCRIPTION_LEN + 1) (or_empty de);
          let ui := mkUser id nm de 0 [] [] [] [] in
          Ok (notify CbFriendRequest (app_friend_request id ui (or_empty he)) w)
    end.

(** ** Events of the table of friends *)

Definition push_event (t : FriendEventType) (fi : IOEXFriendInfo) w : outcome world :=
  w ← store_persistence_data w;
  let '(ok, w) := ask carrier_alloc w in
  Ok (if ok then with_node (set_events (friend_events (node w) ++ [mkEvent t fi])) w else w).
Definition notify_friend_added : IOEXFriendInfo -> world -> outcome world := push_event FriendEventType_Added.
Definition notify_friend_removed : IOEXFriendInfo -> world -> outcome world := push_event FriendEventType_Removed.

Definition do_friend_event (ev : FriendEvent) w : world :=
  let id := userid (user_info (event_fi ev)) in
  match event_type ev with
  | FriendEventType_Added => notify CbFriendAdded (app_friend_added (event_fi ev)) w
  | FriendEventType_Removed =>
      let w := if status (event_fi ev) =? IOEXConnectionStatus_Connected
        then notify CbFriendConnection (app_friend_connection id IOEXConnectionStatus_Disconnected) w else w in
      notify CbFriendRemoved (app_friend_removed id) w
  end.

(** The loop over the list: an event is removed after it has been dealt with. *)
Fixpoint events_loop (l : list FriendEvent) w : world :=
  match l with [] => w | ev :: l => events_loop l (with_node (set_events l) (do_friend_event ev w)) end.

Definition do_friend_events w : world := events_loop (friend_events (node w)) w.

(** ** Transactions

    The history of invitations received, by "ir_" and the name of the sender, and the
    callbacks for the invitations sent. *)

Definition sizeof_key : Z := IOEX_MAX_ID_LEN + IOEX_MAX_EXTENSION_NAME_LEN + 4.
Definition history_key (userid : bytes) : outcome bytes := strcpy sizeof_key ([105; 114; 95] ++ userid).

Definition tansaction_history_put_invite (userid : bytes) (t : Z) w : outcome world :=
  _ ← c_assert 70 (nonzero t);
  let '(ok, w) := ask carrier_alloc w in
  if negb ok then Undef
  else
    key ← history_key userid;
    Ok (with_node (set_thistory (table_put key t (thistory (node w)))) w).

Definition transaction_history_get_invite (userid : bytes) w : outcome Z :=
  key ← history_key userid; Ok (default 0 (table_get key (thistory (node w)))).

Definition transaction_history_remove_invite (userid : bytes) w : outcome world :=
  key ← history_key userid; Ok (with_node (set_thistory (table_remove key (thistory (node w)))) w).

Definition transacted_callbacks_put (tcb : TransactedCallback) w : world :=
  with_node (set_tcallbacks (table_put (tid tcb) tcb (tcallbacks (node w)))) w.
Definition transacted_callbacks_get (t : Z) w : option TransactedCallback := table_get t (tcallbacks (node w)).
Definition transacted_callbacks_remove (t : Z) w : world :=
  with_node (set_tcallbacks (table_remove t (tcallbacks (node w)))) w.

(** ** Messages

    The name of the friend with the number [n]; a message of nobody is dropped. *)
Definition sender (line n : Z) w : outcome (option bytes) :=
  _ ← c_assert line (negb (n =? UINT32_MAX));
  r ← get_friend n w;
  match r with
  | (None, _) => Ok None
  | (Some fi, _) => id ← strcpy (IOEX_MAX_ID_LEN + 1) (userid (user_info (info fi))); Ok (Some id)
  end.

Definition handle_friend_message (n : Z) (cp : Cp.IOEXCP) w : outcome world :=
  r ← sender 1529 n w;
  match r with
  | None => Ok w
  | Some friendid =>
      let name := Cp.IOEXcp_get_extension cp in
      msg ← Cp.IOEXcp_get_raw_data cp;
      len ← Cp.IOEXcp_get_raw_data_length cp;
      match name with
      | None => Ok (notify CbFriendMessage (app_friend_message friendid msg len) w)
      | Some _ => Ok w
      end
  end.

Definition session_name : bytes := [115; 101; 115; 115; 105; 111; 110].

Definition handle_invite_request (n : Z) (cp : Cp.IOEXCP) w : outcome world :=
  r ← sender 1565 n w;
  match r with
  | None => Ok w
  | Some friendid =>
      let name := Cp.IOEXcp_get_extension cp in
      data ← Cp.IOEXcp_get_raw_data cp;
      len ← Cp.IOEXcp_get_raw_data_length cp;
      t ← Cp.IOEXcp_get_tid cp;
      from ← strcpy sizeof_key (match name with Some x => friendid ++ [58] ++ x | None => friendid end);
      w ← tansaction_history_put_invite from t w;
      match name with
      | Some x =>
          Ok (if bool_decide (x = session_name) && session (node w) then tell (session_friend_invite friendid data len) w else w)
      | None => Ok (notify CbFriendInvite (app_friend_invite friendid data len) w)
      end
  end.

Definition handle_invite_response (n : Z) (cp : Cp.IOEXCP) w : outcome world :=
  r ← sender 1618 n w;
  match r with
  | None => Ok w
  | Some friendid =>
      t ← Cp.IOEXcp_get_tid cp;
      match transacted_callbacks_get t w with
      | None => Ok w
      | Some tcb =>
          _ ← c_assert 1641 (nonzero (callback_func tcb));
          let w := transacted_callbacks_remove t w in
          status ← Cp.IOEXcp_get_status cp;
          r ← (if nonzero status then reason ← Cp.IOEXcp_get_reason cp; Ok (reason, None, 0)
               else data ← Cp.IOEXcp_get_raw_data cp; len ← Cp.IOEXcp_get_raw_data_length cp; Ok (None, data, len));
          let '(reason, data, len) := r in
          Ok (tell (app_invite_response (callback_func tcb) (callback_context tcb) friendid status reason data len) w)
      end
  end.

Definition notify_friend_message_cb (n : Z) (message : bytes) w : outcome world :=
  let '(ok, w) := ask carrier_alloc w in
  c ← Cp.IOEXcp_decode ok message;
  match c with
  | None => Ok w
  | Some cp =>
      let type := Cp.IOEXcp_get_type cp in
      if type =? Cp.IOEXCP_TYPE_MESSAGE then handle_friend_message n cp w
      else if type =? Cp.IOEXCP_TYPE_INVITE_REQUEST then handle_invite_request n cp w
      else if type =? Cp.IOEXCP_TYPE_INVITE_RESPONSE then handle_invite_response n cp w
      else Ok w
  end.

End Node.

End Carrier.
