(* ===== verification/CarrierCalls.v ===== *)
(** * The carrier node: the calls of the application

    The functions of the interface of src/src/carrier/IOEX_carrier.c on addresses,
    friends, messages and invitations. A call that fails returns -1 and sets the error. *)

From Stdlib Require Import ZArith Lia.
From stdpp Require Import prelude list.
From S2P Require Import Prelude Base58 Crypto Mux CStr Tables Node Persist Cp Carrier.

Module CarrierCalls.
Import CStr Tables Node Carrier.

Definition IOEXERR_BUFFER_TOO_SMALL : Z := 0x03.
Definition IOEXERR_NOT_READY : Z := 0x0A.
Definition IOEXERR_ALREADY_EXIST : Z := 0x0C.
Definition IOEXERR_NO_MATCHED_REQUEST : Z := 0x0D.
Definition IOEX_MAX_APP_MESSAGE_LEN : Z := 1024.

(** ** Keys and addresses *)

Definition is_valid_key (key : bytes) : outcome bool :=
  r ← Base58.base58_decode key (zlen key) (DHT_PUBLIC_KEY_SIZE * 2); Ok (fst r =? DHT_PUBLIC_KEY_SIZE).

(** The bytes at even and at odd positions, each combined by exclusive or; [check] is
    the two results in memory. *)
Fixpoint checksum_loop (i : nat) (c0 c1 : Z) (a : bytes) : Z * Z :=
  match a with
  | [] => (c0, c1)
  | x :: a => if Nat.even i then checksum_loop (S i) (Z.lxor c0 x) c1 a else checksum_loop (S i) c0 (Z.lxor c1 x) a
  end.
Definition address_checksum (a : bytes) (len : Z) : Z :=
  let '(c0, c1) := checksum_loop 0 0 0 (ztake len a) in unle [c0; c1].

Definition is_valid_address (a : bytes) : outcome bool :=
  r ← Base58.base58_decode a (zlen a) DHT_ADDRESS_SIZE;
  let '(len, addr) := r in
  if negb (len =? DHT_ADDRESS_SIZE) then Ok false
  else
    match addr with
    | Some addr => Ok (address_checksum addr (DHT_ADDRESS_SIZE - 2) =? unle (ztake 2 (zdrop (DHT_PUBLIC_KEY_SIZE + 4) addr)))
    | None => Undef
    end.

Section Calls.
Context {E : Type} {DH : Dht E} {SY : Persist.System E} {NC : Crypto.Nacl} {FB : Cp.FlatBuffers E}.
Notation world := (@world E).
Implicit Types w : world.

Definition refuse (code : Z) w : outcome (Z * world) := Ok (-1, IOEX_set_error code w).
Definition general (code : Z) w : outcome (Z * world) := refuse (IOEX_GENERAL_ERROR code) w.

Definition IOEX_id_is_valid (id : c_str) w : outcome (bool * world) :=
  if bool_decide (or_empty id = []) then Ok (false, IOEX_set_error (IOEX_GENERAL_ERROR IOEXERR_INVALID_ARGS) w)
  else b ← is_valid_key (or_empty id); Ok (b, w).

Definition IOEX_address_is_valid (a : c_str) w : outcome (bool * world) :=
  if bool_decide (or_empty a = []) then Ok (false, IOEX_set_error (IOEX_GENERAL_ERROR IOEXERR_INVALID_ARGS) w)
  else b ← is_valid_address (or_empty a); Ok (b, w).

Definition IOEX_get_id_by_address (a : bytes) (len : Z) w : outcome (c_str * world) :=
  let bad w := Ok (None, IOEX_set_error (IOEX_GENERAL_ERROR IOEXERR_INVALID_ARGS) w) in
  if len <=? IOEX_MAX_ID_LEN then bad w
  else
    r ← Base58.base58_decode a (zlen a) DHT_ADDRESS_SIZE;
    match r with
    | (n, Some addr) =>
        if negb (n =? DHT_ADDRESS_SIZE) then bad w
        else
          r ← Base58.base58_encode (ztake DHT_PUBLIC_KEY_SIZE addr) (IOEX_MAX_ID_LEN + 1);
          match fst r with
          | Some t => s ← Persist.string_at t; Ok (Some s, w)
          | None => bad w
          end
    | (n, None) => if n =? DHT_ADDRESS_SIZE then Undef else bad w
    end.

(** The result, and the number of the friend. *)
Definition get_friend_number (friendid : bytes) w : outcome (Z * Z) :=
  r ← Base58.base58_decode friendid (zlen friendid) DHT_PUBLIC_KEY_SIZE;
  match r with
  | (len, key) =>
      if negb (len =? DHT_PUBLIC_KEY_SIZE) then Ok (IOEX_GENERAL_ERROR IOEXERR_INVALID_ARGS, 0)
      else
        match key with
        | None => Undef
        | Some key =>
            let '(rc, n) := dht_get_friend_number key (env w) in
            Ok (if rc <? 0 then (IOEX_GENERAL_ERROR IOEXERR_NOT_EXIST, n) else (rc, n))
        end
  end.

(** ** The node itself *)

Definition get_text (s : bytes) (buf : bool) (len : Z) w : c_str * world :=
  if negb buf || (len =? 0) then (None, IOEX_set_error (IOEX_GENERAL_ERROR IOEXERR_INVALID_ARGS) w)
  else if len <=? zlen s then (None, IOEX_set_error (IOEX_GENERAL_ERROR IOEXERR_BUFFER_TOO_SMALL) w)
  else (Some s, w).
Definition IOEX_get_address (buf : bool) (len : Z) w : c_str * world := get_text (base58_addr (node w)) buf len w.
Definition IOEX_get_nodeid (buf : bool) (len : Z) w : c_str * world := get_text (userid (me (node w))) buf len w.
Definition IOEX_get_userid (buf : bool) (len : Z) w : c_str * world := IOEX_get_nodeid buf len w.

(** The fields of a packet of user information. *)
Definition fill_desc (u : IOEXUserInfo) (cp : Cp.IOEXCP) : outcome Cp.IOEXCP :=
  cp ← Cp.IOEXcp_set_has_avatar (Z.b2z (nonzero (has_avatar u))) cp;
  cp ← Cp.IOEXcp_set_name (Some (name u)) cp;
  cp ← Cp.IOEXcp_set_descr (Some (description u)) cp;
  cp ← Cp.IOEXcp_set_gender (Some (gender u)) cp;
  cp ← Cp.IOEXcp_set_phone (Some (phone u)) cp;
  cp ← Cp.IOEXcp_set_email (Some (email u)) cp;
  Cp.IOEXcp_set_region (Some (region u)) cp.

(** [IOEXcp_encode], with the environment of the node. *)
Definition encode (cp : Cp.IOEXCP) w : outcome (option bytes * world) :=
  r ← Cp.IOEXcp_encode cp (env w); Ok (fst r, with_env (snd r) w).

Definition set_env (f : E -> E) w : world := with_env (f (env w)) w.

Definition same_info (a b : IOEXUserInfo) : bool :=
  (has_avatar a =? has_avatar b) &&
  bool_decide (name a = name b /\ description a = description b /\ gender a = gender b /\ phone a = phone b /\
    email a = email b /\ region a = region b).

Definition IOEX_set_self_info (info : option IOEXUserInfo) w : outcome (Z * world) :=
  match info with
  | None => general IOEXERR_INVALID_ARGS w
  | Some info =>
      if negb (bool_decide (userid info = userid (me (node w)))) then general IOEXERR_INVALID_ARGS w
      else
        let '(ok, w) := ask carrier_alloc w in
        c ← Cp.IOEXcp_create ok Cp.IOEXCP_TYPE_USERINFO None;
        match c with
        | None => general IOEXERR_OUT_OF_MEMORY w
        | Some cp =>
            if same_info info (me (node w)) then Ok (0, w)
            else
              cp ← fill_desc info cp;
              r ← encode cp w;
              match r with
              | (None, w) => general IOEXERR_OUT_OF_MEMORY w
              | (Some data, w) =>
                  let w := with_node (set_me (with_userid (userid (me (node w))) info)) w in
                  w ← store_persistence_data (set_env (dht_self_set_desc data) w);
                  Ok (0, w)
              end
        end
  end.

Definition IOEX_get_self_info w : Z * IOEXUserInfo := (0, me (node w)).

Definition IOEX_set_self_presence (s : Z) w : outcome (Z * world) :=
  if (s <? IOEXPresenceStatus_None) || (IOEXPresenceStatus_Busy <? s) then general IOEXERR_INVALID_ARGS w
  else Ok (0, set_env (dht_self_set_status s) w).

Definition IOEX_get_self_presence w : Z :=
  let s := dht_self_get_status (env w) in
  if s <? IOEXPresenceStatus_None then IOEXPresenceStatus_None
  else if IOEXPresenceStatus_Busy <? s then IOEXPresenceStatus_None
  else s.

Definition IOEX_is_ready w : bool := is_ready (node w).

(** ** Friends

    [more] is whether the callback asks for more; the calls that are made. *)
Fixpoint friends_loop (more : option IOEXFriendInfo -> bool) (l : list FriendInfo) : list (option IOEXFriendInfo) :=
  match l with
  | [] => [None]
  | fi :: l => Some (info fi) :: (if more (Some (info fi)) then friends_loop more l else [])
  end.
Definition IOEX_get_friends (more : option IOEXFriendInfo -> bool) w : Z * list (option IOEXFriendInfo) :=
  (0, friends_loop more (friends_iterate (friends (node w)))).

(** The friend that a call names, with its number and a reference to it, or an error. *)
Definition find_friend (line : Z) (friendid : bytes) w : outcome ((Z * FriendInfo + Z) * world) :=
  r ← get_friend_number friendid w;
  let '(rc, n) := r in
  if rc <? 0 then Ok (inr rc, w)
  else
    r ← get_friend n w;
    match r with
    | (None, w) => Ok (inr (IOEX_GENERAL_ERROR IOEXERR_NOT_EXIST), w)
    | (Some fi, w) =>
        _ ← c_assert line (bool_decide (friendid = userid (user_info (info fi))));
        Ok (inl (n, fi), w)
    end.

(** [out] is whether there is memory for the information. *)
Definition IOEX_get_friend_info (friendid : c_str) (out : bool) w : outcome (Z * option IOEXFriendInfo * world) :=
  let bad err w := Ok (-1, None, IOEX_set_error err w) in
  match friendid with
  | Some id =>
      if negb out then bad (IOEX_GENERAL_ERROR IOEXERR_INVALID_ARGS) w
      else
        r ← find_friend 2485 id w;
        match r with
        | (inr err, w) => bad err w
        | (inl (n, fi), w) => Ok (0, Some (info fi), deref w)
        end
  | None => bad (IOEX_GENERAL_ERROR IOEXERR_INVALID_ARGS) w
  end.

Definition IOEX_set_friend_label (friendid label : c_str) w : outcome (Z * world) :=
  match friendid with
  | None => general IOEXERR_INVALID_ARGS w
  | Some id =>
      if IOEX_MAX_USER_NAME_LEN <? zlen (or_empty label) then general IOEXERR_INVALID_ARGS w
      else
        r ← find_friend 2522 id w;
        match r with
        | (inr err, w) => refuse err w
        | (inl (n, fi), w) =>
            s ← strcpy (IOEX_MAX_USER_NAME_LEN + 1) (or_empty label);
            w ← store_persistence_data (deref (put_info n fi (with_label s (info fi)) w));
            Ok (0, w)
        end
  end.

Definition IOEX_is_friend (id : c_str) w : outcome (bool * world) :=
  match id with
  | None => Ok (false, IOEX_set_error (IOEX_GENERAL_ERROR IOEXERR_INVALID_ARGS) w)
  | Some id =>
      r ← get_friend_number id w;
      let '(rc, n) := r in
      if (rc <? 0) || (n =? UINT32_MAX) then Ok (false, IOEX_set_error rc w)
      else b ← friends_exist n (friends (node w)); Ok (b, w)
  end.

(** The object of a new friend goes to the table; the event follows. *)
Definition enter_friend (n : Z) (id : bytes) w : outcome (Z * world) :=
  let i := mkFriend (with_userid id zero_user) [] IOEXConnectionStatus_Disconnected IOEXPresenceStatus_None in
  w ← notify_friend_added i (with_node (fun c => set_friends (friends_put (mkFI n i) (friends c)) c) w);
  Ok (0, w).

Definition IOEX_add_friend (address hello : c_str) w : outcome (Z * world) :=
  match hello, address with
  | Some hello, Some address =>
      ok ← is_valid_address address;
      if negb ok then general IOEXERR_INVALID_ARGS w
      else if bool_decide (address = base58_addr (node w)) then general IOEXERR_INVALID_ARGS w
      else if negb (is_ready (node w)) then general IOEXERR_NOT_READY w
      else
        a ← Base58.base58_decode address (zlen address) DHT_ADDRESS_SIZE;
        let addr := default [] (snd a) in
        let '(rc, n) := dht_get_friend_number (ztake DHT_PUBLIC_KEY_SIZE addr) (env w) in
        if (rc =? 0) && negb (n =? UINT32_MAX) then general IOEXERR_ALREADY_EXIST w
        else
          let '(ok, w) := ask carrier_alloc w in
          if negb ok then general IOEXERR_OUT_OF_MEMORY w
          else
            let '(ok, w) := ask carrier_alloc w in
            c ← Cp.IOEXcp_create ok Cp.IOEXCP_TYPE_FRIEND_REQUEST None;
            match c with
            | None => general IOEXERR_OUT_OF_MEMORY w
            | Some cp =>
                cp ← Cp.IOEXcp_set_name (Some (name (me (node w)))) cp;
                cp ← Cp.IOEXcp_set_descr (Some (description (me (node w)))) cp;
                cp ← Cp.IOEXcp_set_hello (Some hello) cp;
                r ← encode cp w;
                match r with
                | (None, w) => general IOEXERR_OUT_OF_MEMORY w
                | (Some data, w) =>
                    r ← dht_friend_add addr data (env w);
                    let '(rc, n, e) := r in
                    let w := with_env e w in
                    if rc <? 0 then refuse rc w
                    else id ← encode_text (ztake DHT_PUBLIC_KEY_SIZE addr) (IOEX_MAX_ID_LEN + 1); enter_friend n id w
                end
            end
  | _, _ => general IOEXERR_INVALID_ARGS w
  end.

Definition IOEX_accept_friend (userid_ : c_str) w : outcome (Z * world) :=
  match userid_ with
  | None => general IOEXERR_INVALID_ARGS w
  | Some id =>
      ok ← is_valid_key id;
      if negb ok then general IOEXERR_INVALID_ARGS w
      else if bool_decide (id = userid (me (node w))) then general IOEXERR_INVALID_ARGS w
      else if negb (is_ready (node w)) then general IOEXERR_NOT_READY w
      else
        r ← get_friend_number id w;
        let '(rc, n) := r in
        if (rc =? 0) && negb (n =? UINT32_MAX) then general IOEXERR_ALREADY_EXIST w
        else
          let '(ok, w) := ask carrier_alloc w in
          if negb ok then general IOEXERR_OUT_OF_MEMORY w
          else
            a ← Base58.base58_decode id (zlen id) DHT_PUBLIC_KEY_SIZE;
            let '(rc, n, e) := dht_friend_add_norequest (default [] (snd a)) (env w) in
            let w := with_env e w in
            if rc <? 0 then refuse rc w
            else s ← strcpy (IOEX_MAX_ID_LEN + 1) id; enter_friend n s w
  end.

Definition IOEX_remove_friend (friendid : c_str) w : outcome (Z * world) :=
  match friendid with
  | None => general IOEXERR_INVALID_ARGS w
  | Some id =>
      ok ← is_valid_key id;
      if negb ok then general IOEXERR_INVALID_ARGS w
      else if negb (is_ready (node w)) then general IOEXERR_NOT_READY w
      else
        r ← get_friend_number id w;
        let '(rc, n) := r in
        if rc <? 0 then refuse rc w
        else
          ex ← friends_exist n (friends (node w));
          if negb ex then general IOEXERR_NOT_EXIST w
          else
            e ← dht_friend_delete n (env w);
            let w := with_env e w in
            r ← friends_remove n (friends (node w));
            match r with
            | (None, _) => AssertFail 2738
            | (Some fi, t) =>
                w ← notify_friend_removed (info fi) (with_owed 1 (with_node (set_friends t) w));
                Ok (0, deref w)
            end
  end.

(** ** Messages and invitations *)

(** [userid:extension] *)
Definition parse_address (addr : bytes) : bytes * c_str :=
  match strchr 58 addr with
  | Some i => (take i addr, Some (drop (S i) addr))
  | None => (addr, None)
  end.

(** The checks that the three calls with an address [to] make before they do anything:
    [self] is whether the node itself is refused, [unknown] the error for a user that
    is not a friend. *)
Definition to_friend (to : bytes) (self : bool) (unknown : Z) w (k : c_str -> Z -> outcome (Z * world)) : outcome (Z * world) :=
  let '(uid, ext_name) := parse_address to in
  ok ← is_valid_key uid;
  if negb ok then general IOEXERR_INVALID_ARGS w
  else if IOEX_MAX_USER_NAME_LEN <? zlen (or_empty ext_name) then general IOEXERR_INVALID_ARGS w
  else if self && bool_decide (uid = userid (me (node w))) then general IOEXERR_INVALID_ARGS w
  else if negb (is_ready (node w)) then general IOEXERR_NOT_READY w
  else
    r ← get_friend_number uid w;
    let '(rc, n) := r in
    if rc <? 0 then general unknown w
    else
      ex ← friends_exist n (friends (node w));
      if negb ex then general IOEXERR_NOT_EXIST w else k ext_name n.

(** The encoded packet goes to the friend. *)
Definition send_packet (n : Z) (data : bytes) w : outcome (Z * world) :=
  r ← dht_friend_message n data (env w);
  let '(rc, e) := r in
  let w := with_env e w in
  if rc <? 0 then refuse rc w else Ok (0, tell (dht_message n data) w).

Definition IOEX_send_friend_message (to msg : c_str) (len : Z) w : outcome (Z * world) :=
  match to, msg with
  | Some to, Some msg =>
      if (len =? 0) || (IOEX_MAX_APP_MESSAGE_LEN <? len) then general IOEXERR_INVALID_ARGS w
      else
        to_friend to true IOEXERR_NOT_EXIST w (fun ext_name n =>
          let '(ok, w) := ask carrier_alloc w in
          c ← Cp.IOEXcp_create ok Cp.IOEXCP_TYPE_MESSAGE ext_name;
          match c with
          | None => general IOEXERR_OUT_OF_MEMORY w
          | Some cp =>
              cp ← Cp.IOEXcp_set_raw_data (Some msg) len cp;
              r ← encode cp w;
              match r with
              | (None, w) => general IOEXERR_OUT_OF_MEMORY w
              | (Some data, w) => send_packet n data w
              end
          end)
  | _, _ => general IOEXERR_INVALID_ARGS w
  end.

(** The loop until the sum is not 0. *)
Fixpoint generate_tid (fuel : nat) w : outcome (Z * world) :=
  let '(now, w) := ask time w in
  let '(r, w) := ask rand w in
  if now + r =? 0 then match fuel with O => NoFuel | S fuel => generate_tid fuel w end else Ok (now + r, w).

Definition IOEX_invite_friend (to data : c_str) (len : Z) (callback context : Z) w : outcome (Z * world) :=
  match to, data with
  | Some to, Some data =>
      if (len =? 0) || (callback =? 0) then general IOEXERR_INVALID_ARGS w
      else
        to_friend to false IOEXERR_NOT_EXIST w (fun ext_name n =>
          let '(ok, w) := ask carrier_alloc w in
          c ← Cp.IOEXcp_create ok Cp.IOEXCP_TYPE_INVITE_REQUEST ext_name;
          match c with
          | None => general IOEXERR_OUT_OF_MEMORY w
          | Some cp =>
              r ← generate_tid 0 w;
              let '(t, w) := r in
              cp ← Cp.IOEXcp_set_tid t cp;
              cp ← Cp.IOEXcp_set_raw_data (Some data) len cp;
              r ← encode cp w;
              match r with
              | (None, w) => general IOEXERR_OUT_OF_MEMORY w
              | (Some bytes, w) =>
                  let '(ok, w) := ask carrier_alloc w in
                  if negb ok then general IOEXERR_OUT_OF_MEMORY w
                  else send_packet n bytes (transacted_callbacks_put (mkTcb t callback context) w)
              end
          end)
  | _, _ => general IOEXERR_INVALID_ARGS w
  end.

Definition IOEX_reply_friend_invite (to : c_str) (status : Z) (reason data : c_str) (len : Z) w : outcome (Z * world) :=
  if bool_decide (or_empty to = []) || (nonzero status && bool_decide (reason = None)) ||
     ((status =? 0) && (bool_decide (data = None) || (len =? 0)))
  then general IOEXERR_INVALID_ARGS w
  else
    let to := or_empty to in
    to_friend to false IOEXERR_INVALID_ARGS w (fun ext_name n =>
      t ← transaction_history_get_invite to w;
      if t =? 0 then general IOEXERR_NO_MATCHED_REQUEST w
      else
        let '(ok, w) := ask carrier_alloc w in
        c ← Cp.IOEXcp_create ok Cp.IOEXCP_TYPE_INVITE_RESPONSE ext_name;
        match c with
        | None => general IOEXERR_OUT_OF_MEMORY w
        | Some cp =>
            cp ← Cp.IOEXcp_set_tid t cp;
            cp ← Cp.IOEXcp_set_status status cp;
            cp ← (if nonzero status then Cp.IOEXcp_set_reason reason cp else Cp.IOEXcp_set_raw_data data len cp);
            r ← encode cp w;
            match r with
            | (None, w) => general IOEXERR_OUT_OF_MEMORY w
            | (Some bytes, w) =>
                r ← send_packet n bytes w;
                let '(rc, w) := r in
                if rc <? 0 then Ok (rc, w)
                else w ← transaction_history_remove_invite to w; Ok (0, w)
            end
        end).

End Calls.

End CarrierCalls.
