(* ===== verification/CarrierStart.v ===== *)
(** * The carrier node: start

    [IOEX_new] of src/src/carrier/IOEX_carrier.c: the options are copied, the node's data
    are loaded, its DHT tells who it is and who its friends are, the
    labels are put back, and the data are saved again. *)

From Stdlib Require Import ZArith Lia.
From stdpp Require Import prelude list.
From S2P Require Import Prelude Base58 Crypto Mux CStr Tables Node Persist Cp Carrier CarrierCalls.

Module CarrierStart.
Import CStr Tables Node Carrier CarrierCalls.

Definition MAX_IPV4_ADDRESS_LEN : Z := 15.
Definition MAX_IPV6_ADDRESS_LEN : Z := 47.

(** The strings [port] and [public_key] must not be null. *)
Record BootstrapNode := mkBootstrap { ipv4 : c_str; ipv6 : c_str; port : bytes; bootstrap_key : bytes }.
Record IOEXOptions := mkOptions { persistent_location : c_str; udp_enabled : bool; bootstraps : list BootstrapNode }.
Record BootstrapNodeBuf := mkBuf { buf_ipv4 : bytes; buf_ipv6 : bytes; buf_port : Z; buf_key : bytes }.

(** What the DHT says of its own node, and of a friend. *)
Record self_info := mkSelf { self_address : bytes; self_key : bytes; self_status : Z; self_desc : bytes }.
Record dht_friend := mkDhtFriend { df_number : Z; df_key : bytes; df_status : Z; df_desc : bytes }.

(** The calls of the DHT at the start. The last two report the node itself and its
    friends to a callback. *)
Class DhtStart (E : Type) := {
  dht_new : bytes -> bool -> E -> Z * E;
  dht_get_self_info : E -> Z * self_info;
  dht_get_friends : E -> outcome (Z * list dht_friend);
}.

Section Start.
Context {E : Type} {DH : Dht E} {DS : DhtStart E} {SY : Persist.System E} {NC : Crypto.Nacl} {FB : Cp.FlatBuffers E}.
Notation world := (@world E).
Implicit Types w : world.

Definition fill_empty_user_desc w : outcome world :=
  let '(ok, w) := ask carrier_alloc w in
  c ← Cp.IOEXcp_create ok Cp.IOEXCP_TYPE_USERINFO None;
  match c with
  | None => Ok w
  | Some cp =>
      cp ← fill_desc zero_user cp;
      r ← encode cp w;
      match r with
      | (None, w) => Ok w
      | (Some data, w) => Ok (set_env (dht_self_set_desc data) w)
      end
  end.

(** [base58_encode] into an array of the struct, which keeps its content when it fails. *)
Definition encode_into (old b : bytes) (size : Z) : outcome bytes :=
  r ← Base58.base58_encode b size;
  match fst r with Some t => Persist.string_at t | None => Ok old end.

Definition set_self (s : self_info) (addr id : bytes) (n : IOEXCarrier) : IOEXCarrier :=
  mkCarrier (session n) (data_location n) (self_key s) (self_address s) addr (with_userid id (me n))
    (get_presence_status (self_status s)) (connection_status n) (is_ready n) (callbacks n) (friend_events n) (friends n)
    (tcallbacks n) (thistory n).

Definition get_self_info_cb (s : self_info) w : outcome world :=
  addr ← encode_into (base58_addr (node w)) (self_address s) (IOEX_MAX_ADDRESS_LEN + 1);
  id ← encode_into (userid (me (node w))) (self_key s) (IOEX_MAX_ID_LEN + 1);
  let w := with_node (set_self s addr id) w in
  if 0 <? zlen (self_desc s) then
    r ← unpack_user_desc (self_desc s) (me (node w)) w;
    match r with
    | (Some (u, _), w) => Ok (with_node (set_me u) w)
    | (None, w) => Ok w
    end
  else fill_empty_user_desc w.

(** Whether the next friend is wanted. *)
Definition friends_iterate_cb (f : dht_friend) w : outcome (bool * world) :=
  _ ← c_assert 346 (negb (df_number f =? UINT32_MAX));
  let '(ok, w) := ask carrier_alloc w in
  if negb ok then Ok (false, w)
  else
    id ← encode_into [] (df_key f) (IOEX_MAX_ID_LEN + 1);
    let u := with_userid id zero_user in
    r ← (if 0 <? zlen (df_desc f) then unpack_user_desc (df_desc f) u w else Ok (Some (u, false), w));
    match r with
    | (None, w) => Ok (false, w)
    | (Some (u, _), w) =>
        let i := mkFriend u [] IOEXConnectionStatus_Disconnected (get_presence_status (df_status f)) in
        Ok (true, with_node (fun c => set_friends (friends_put (mkFI (df_number f) i) (friends c)) c) w)
    end.

Fixpoint enter_friends (l : list dht_friend) w : outcome world :=
  match l with
  | [] => Ok w
  | f :: l => r ← friends_iterate_cb f w; if (fst r : bool) then enter_friends l (snd r) else Ok (snd r)
  end.

Definition new_carrier (location : bytes) : IOEXCarrier :=
  mkCarrier false location (Persist.zeros DHT_PUBLIC_KEY_SIZE) (Persist.zeros DHT_ADDRESS_SIZE) [] zero_user 0 0 false
    (fun _ => false) [] [] [] [].

Definition set_callbacks (f : callback -> bool) (n : IOEXCarrier) : IOEXCarrier :=
  mkCarrier (session n) (data_location n) (public_key n) (address n) (base58_addr n) (me n) (presence_status n) (connection_status n)
    (is_ready n) f (friend_events n) (friends n) (tcallbacks n) (thistory n).

(** The tables and lists of a node, which are created empty: whether there is memory. *)
Fixpoint create_tables (k : nat) w : bool * world :=
  match k with O => (true, w) | S k => let '(ok, w) := ask carrier_alloc w in if ok then create_tables k w else (false, w) end.

(** From the loading of the data on; [cbs] are the application's callbacks. The result
    is whether there is a node. *)
Definition new_node (location : bytes) (udp_enabled : bool) (cbs : option (callback -> bool)) (s : @Persist.world E) :
    outcome (bool * world) :=
  r ← Persist.load_persistence_data s;
  let data := default (Persist.mkData 0 [] 0 []) (fst r) in
  let w := mkW (new_carrier location) (snd r) [] 0 0 in
  let '(rc, w) := ask (dht_new (ztake (Persist.dht_savedata_len data) (Persist.dht_savedata data)) udp_enabled) w in
  if rc <? 0 then Ok (false, IOEX_set_error rc w)
  else
    let '(ok, w) := create_tables 6 w in
    if negb ok then Ok (false, IOEX_set_error (IOEX_GENERAL_ERROR IOEXERR_OUT_OF_MEMORY) w)
    else
      let '(rc, self) := dht_get_self_info (env w) in
      if rc <? 0 then Ok (false, IOEX_set_error rc w)
      else
        w ← get_self_info_cb self w;
        r ← dht_get_friends (env w);
        let '(rc, l) := r in
        if rc <? 0 then Ok (false, IOEX_set_error rc w)
        else
          w ← enter_friends l w;
          t ← Persist.apply_extra_data (Persist.extra_savedata data) (Persist.extra_savedata_len data) (friends (node w));
          w ← store_persistence_data (with_node (set_friends t) w);
          Ok (true, match cbs with Some f => with_node (set_callbacks f) w | None => w end).

(** The copy of a bootstrap node; [None] when it is refused. *)
Definition copy_bootstrap (b : BootstrapNode) : outcome (option BootstrapNodeBuf) :=
  if (MAX_IPV4_ADDRESS_LEN <? zlen (or_empty (ipv4 b))) || (MAX_IPV6_ADDRESS_LEN <? zlen (or_empty (ipv6 b))) then Ok None
  else if bool_decide (ipv4 b = None) && bool_decide (ipv6 b = None) then Ok None
  else
    let '(v, rest) := strtol (port b) in
    if negb (bool_decide (rest = [])) then Ok None
    else
      r ← Base58.base58_decode (bootstrap_key b) (zlen (bootstrap_key b)) DHT_PUBLIC_KEY_SIZE;
      match r with
      | (len, Some key) => Ok (if len =? DHT_PUBLIC_KEY_SIZE then Some (mkBuf (or_empty (ipv4 b)) (or_empty (ipv6 b)) (u16 v) key) else None)
      | (len, None) => if len =? DHT_PUBLIC_KEY_SIZE then Undef else Ok None
      end.

Fixpoint copy_bootstraps (l : list BootstrapNode) : outcome (option (list BootstrapNodeBuf)) :=
  match l with
  | [] => Ok (Some [])
  | b :: l =>
      r ← copy_bootstrap b;
      match r with None => Ok None | Some x => r ← copy_bootstraps l; Ok (match r with Some l => Some (x :: l) | None => None end) end
  end.

(** The node and its preferences. *)
Definition IOEX_new (opts : option IOEXOptions) (cbs : option (callback -> bool)) (s : @Persist.world E) :
    outcome (option (list BootstrapNodeBuf) * world) :=
  let bad code w := Ok (None, IOEX_set_error (IOEX_GENERAL_ERROR code) w) in
  let w := mkW (new_carrier []) s [] 0 0 in
  match opts with
  | None => bad IOEXERR_INVALID_ARGS w
  | Some opts =>
      if bool_decide (or_empty (persistent_location opts) = []) then bad IOEXERR_INVALID_ARGS w
      else
        let '(ok, w) := ask carrier_alloc w in
        if negb ok then bad IOEXERR_OUT_OF_MEMORY w
        else
          let '(ok, w) := ask carrier_alloc w in
          if negb ok then bad IOEXERR_OUT_OF_MEMORY w
          else
            r ← copy_bootstraps (bootstraps opts);
            match r with
            | None => bad IOEXERR_INVALID_ARGS w
            | Some l =>
                r ← new_node (or_empty (persistent_location opts)) (udp_enabled opts) cbs (fs w);
                Ok (if (fst r : bool) then Some l else None, snd r)
            end
  end.

End Start.

End CarrierStart.
