(* ===== verification/CarrierDemo.v ===== *)
(** * An environment for runs of carrier nodes

    A DHT that knows one friend at most, an operating system that does what it is
    asked, and a codec; witnesses and examples are evaluated with it. *)

From Stdlib Require Import ZArith Lia.
From stdpp Require Import prelude gmap list.
From S2P Require Import Prelude Base58 Crypto CryptoThm Mux CStr Tables Node Persist Cp Carrier CarrierCalls CarrierStart.

Module CarrierDemo.
Import CStr Tables Node Carrier CarrierCalls CarrierStart.

(** Whether the DHT has the friend, whose number is 7, and whether it takes messages. *)
Record env := mkEnv { has_friend : bool; takes : bool }.

#[export] Instance demo_dht : Dht env := {
  carrier_alloc e := (true, e);
  dht_get_friend_number _ e := if has_friend e then (0, 7) else (-1, UINT32_MAX);
  dht_friend_add _ _ e := Ok (0, 7, mkEnv true (takes e));
  dht_friend_add_norequest _ e := (0, 7, mkEnv true (takes e));
  dht_friend_message _ _ e := Ok (if takes e then 0 else -1, e);
  dht_friend_delete _ e := Ok (mkEnv false (takes e));
  dht_self_set_desc _ e := e;
  dht_self_set_status _ e := e;
  dht_self_get_status _ := 0;
  dht_get_savedata _ := [1; 2; 3];
  time e := (1000, e);
  rand e := (42, e);
}.

#[export] Instance demo_system : Persist.System env := {
  sys_ok _ e := (true, e);
  sys_written k e := (k, e);
  sys_errno _ := 5;
  sys_path _ e := (Persist.IsDir, e);
  sys_mkdir _ e := (None, e);
}.

#[export] Existing Instances CryptoThm.toy Cp.plain_flatbuffers.

Lemma demo_laws : @Cp.FlatLaws env Cp.plain_flatbuffers.
Proof. apply Cp.plain_laws. Qed.

(** The name of a user with the key [k, k, ...]. *)
Definition demo_name (k : Z) : bytes :=
  match encode_text (replicate 32 k) (IOEX_MAX_ID_LEN + 1) with Ok s => s | _ => [] end.

(** The DHT is the node 5, and its friend the node 3. *)
#[export] Instance demo_start : DhtStart env := {
  dht_new _ _ e := (0, e);
  dht_get_self_info _ := (0, mkSelf (Persist.zeros 38) (replicate 32 5) 0 []);
  dht_get_friends e := Ok (0, if has_friend e then [mkDhtFriend 7 (replicate 32 3) 0 []] else []);
}.

(** A node that is ready, with all callbacks; its friend has the key [k]. *)
Definition demo_node (self : Z) (k : option Z) : IOEXCarrier :=
  mkCarrier true [47; 100] (replicate 32 self) (Persist.zeros 38) [] (with_userid (demo_name self) zero_user) 0 0 true
    (fun _ => true) []
    (match k with Some k => [(7, mkFI 7 (mkFriend (with_userid (demo_name k) zero_user) [] 1 0))] | None => [] end) [] [].

Definition demo (self : Z) (k : option Z) : @world env :=
  mkW (demo_node self k) (Persist.mkW (mkEnv (bool_decide (is_Some k)) true) ∅ []) [] 0 0.

(** What one looks at of the result of a run; the disks of a run are large. *)
Definition result {A B} (m : outcome A) (f : A -> B) : option B := match m with Ok a => Some (f a) | _ => None end.

Lemma run_returns {A B} (m : outcome A) (f : A -> B) b : result m f = Some b -> exists a, m = Ok a /\ f a = b.
Proof. unfold result. destruct m as [a| | |]; try discriminate. intros [= <-]. by exists a. Qed.

End CarrierDemo.
