(* ===== verification/CarrierThm.v ===== *)
(** * The carrier node: the state

    Whatever the DHT reports and the application calls, the tables of a node stay in
    order, references are given back, and a call that fails changes nothing. *)

From Stdlib Require Import ZArith Lia.
From stdpp Require Import prelude list.
From S2P Require Import Prelude Base58 Crypto Mux CStr Tables Node Persist Cp Carrier CarrierCalls CarrierStart CarrierDemo.

Module CarrierThm.
Import CStr Tables Node Carrier CarrierCalls.

(** Callbacks are under their transaction and can be called. *)
Definition callbacks_wf (t : list (Z * TransactedCallback)) : Prop :=
  NoDup t.*1 /\ Forall (fun p => tid (snd p) = fst p /\ callback_func (snd p) <> 0) t.

(** Invitations that can be answered have a transaction. *)
Definition history_wf (t : list (bytes * Z)) : Prop := NoDup t.*1 /\ Forall (fun p => snd p <> 0) t.

Record node_wf (n : IOEXCarrier) : Prop := {
  wf_friends : friends_wf (friends n);
  wf_callbacks : callbacks_wf (tcallbacks n);
  wf_history : history_wf (thistory n);
}.

Lemma callbacks_put_wf tcb t : callbacks_wf t -> callback_func tcb <> 0 -> callbacks_wf (table_put (tid tcb) tcb t).
Proof.
  intros [Hn Hf] Hc. split; [by apply table_put_nodup|]. apply Forall_forall. intros x [->|Hx]%table_put_in; [done|].
  rewrite Forall_forall in Hf. by apply Hf.
Qed.

Lemma callbacks_remove_wf k t : callbacks_wf t -> callbacks_wf (table_remove k t).
Proof.
  intros [Hn Hf]. split; [by apply table_remove_nodup|]. apply Forall_forall. intros x Hx%table_remove_sub.
  rewrite Forall_forall in Hf. by apply Hf.
Qed.

Lemma history_put_wf k v t : history_wf t -> v <> 0 -> history_wf (table_put k v t).
Proof.
  intros [Hn Hf] Hv. split; [by apply table_put_nodup|]. apply Forall_forall. intros x [->|Hx]%table_put_in; [done|].
  rewrite Forall_forall in Hf. by apply Hf.
Qed.

Lemma history_remove_wf k t : history_wf t -> history_wf (table_remove k t).
Proof.
  intros [Hn Hf]. split; [by apply table_remove_nodup|]. apply Forall_forall. intros x Hx%table_remove_sub.
  rewrite Forall_forall in Hf. by apply Hf.
Qed.

Section Node.
Context {E : Type} {DH : Dht E} {SY : Persist.System E} {NC : Crypto.Nacl} {FB : Cp.FlatBuffers E}.
Notation world := (@world E).
Implicit Types w : world.

(** The step from [w] to [w'] keeps the tables in order and takes [k] references. *)
Definition moves (k : Z) w w' : Prop := (node_wf (node w) -> node_wf (node w')) /\ owed w' = owed w + k.

(** The node is as it was. *)
Definition quiet w w' : Prop := node w' = node w /\ owed w' = owed w.

Lemma quiet_refl w : quiet w w.
Proof. done. Qed.

Lemma quiet_trans w1 w2 w3 : quiet w1 w2 -> quiet w2 w3 -> quiet w1 w3.
Proof. intros [H1 H2] [H3 H4]. split; congruence. Qed.

Lemma quiet_moves w w' : quiet w w' -> moves 0 w w'.
Proof. intros [H1 H2]. split; [by rewrite H1|lia]. Qed.

Lemma moves_trans a c w1 w2 w3 : moves a w1 w2 -> moves (c - a) w2 w3 -> moves c w1 w3.
Proof. intros [H1 H2] [H3 H4]. split; [auto|lia]. Qed.

Lemma moves_quiet k w1 w2 w3 : moves k w1 w2 -> quiet w2 w3 -> moves k w1 w3.
Proof. intros [H1 H2] [H3 H4]. split; [rewrite H3; auto|lia]. Qed.

Lemma quiet_tell c w : quiet w (tell c w).
Proof. done. Qed.

Lemma quiet_error e w : quiet w (IOEX_set_error e w).
Proof. done. Qed.

Lemma quiet_env e w : quiet w (with_env e w).
Proof. done. Qed.

Lemma quiet_notify cb c w : quiet w (notify cb c w).
Proof. unfold notify. by destruct (callbacks _ _). Qed.

Lemma quiet_ask {A} (f : E -> A * E) w : quiet w (snd (ask f w)).
Proof. unfold ask. by destruct (f (env w)). Qed.

Lemma ask_cases {A} (f : E -> A * E) w : exists a w', ask f w = (a, w') /\ quiet w w' /\ calls w' = calls w.
Proof. unfold ask. destruct (f (env w)) as [a e]. by exists a, (with_env e w). Qed.

Lemma store_quiet w w' : store_persistence_data w = Ok w' -> quiet w w' /\ calls w' = calls w.
Proof. unfold store_persistence_data. intros H. inv_bind. by subst. Qed.

Lemma encode_quiet cp w r w' : encode cp w = Ok (r, w') -> quiet w w' /\ calls w' = calls w.
Proof. unfold encode. intros H. inv_bind. by subst. Qed.

Lemma unpack_quiet d i w r w' : unpack_user_desc d i w = Ok (r, w') -> quiet w w' /\ calls w' = calls w.
Proof.
  unfold unpack_user_desc. destruct (ask_cases carrier_alloc w) as (ok & w1 & -> & Hq & Hc). intros H. inv_bind.
  destruct r1 as [cp|]; [|by injection H as <- <-]. destruct (negb _); [by injection H as <- <-|]. inv_bind. by subst.
Qed.

(** A reference to a friend. *)
Lemma get_friend_cases n w r : get_friend n w = Ok r ->
  match r with
  | (Some fi, w') => table_get n (friends (node w)) = Some fi /\ w' = with_owed 1 w
  | (None, w') => table_get n (friends (node w)) = None /\ w' = w
  end.
Proof.
  unfold get_friend, friends_get. intros H. inv_bind. subst. destruct (table_get n _); by injection H as <-.
Qed.

Lemma moves_get w : moves 1 w (with_owed 1 w).
Proof. done. Qed.

Lemma moves_deref w : moves (-1) w (deref w).
Proof. done. Qed.

Lemma moves_put_info n fi i w : table_get n (friends (node w)) = Some fi -> moves 0 w (put_info n fi i w).
Proof.
  intros Hg. split; [|cbn; lia]. intros []. split; [|done|done]. cbn.
  destruct (friends_get_wf _ _ _ wf_friends0 Hg) as [<- Hr]. by apply (friends_put_wf (mkFI (friend_number fi) i)).
Qed.

(** Names the result of a call, and its equation. *)
Tactic Notation "got" open_constr(p) "as" ident(r) ident(H) :=
  match goal with Hx : ?q = Ok ?x |- _ => unify q p; rename x into r; rename Hx into H end.

(** Opens an operation that starts with a reference to the friend [n]. *)
Ltac open_friend H n fi Hg :=
  inv_bind;
  match goal with
  | Hf : get_friend n ?w = Ok ?r |- _ =>
      apply get_friend_cases in Hf as Hg; clear Hf;
      destruct r as [[fi|] ?]; destruct Hg as [Hg ->]; [|injection H as <-; by apply quiet_moves]
  end.

(** ** Reports *)

Lemma connection_moves b w : moves 0 w (notify_connection_cb b w).
Proof.
  unfold notify_connection_cb. eapply moves_quiet; [|apply quiet_notify].
  destruct (negb _ && _); (split; [|unfold notify; repeat destruct (callbacks _ _); cbn; lia]);
    unfold notify; repeat destruct (callbacks _ _); by intros [].
Qed.

Lemma notify_info_quiet n i w w' : notify_friend_info n i w = Ok w' -> quiet w w'.
Proof. unfold notify_friend_info. intros H. inv_bind. destruct r0; injection H as <-; [apply quiet_notify|done]. Qed.

Lemma description_moves n d w w' : notify_friend_description_cb n d w = Ok w' -> moves 0 w w'.
Proof.
  unfold notify_friend_description_cb. intros H. open_friend H n fi Hg.
  destruct (zlen d =? 0). { injection H as <-. split; [done|cbn; lia]. }
  inv_bind. got (unpack_user_desc _ _ _) as u Hu. destruct u as [[[ui ch]|] w2]; [|discriminate H]. inv_bind. subst w'.
  got (if ch then _ else _) as w3 H3. apply unpack_quiet in Hu as [Hq _].
  eapply moves_trans; [apply moves_get|]. eapply moves_trans; [by apply quiet_moves|].
  eapply moves_trans; [apply (moves_put_info n fi (with_user ui (info fi)))|]; [by rewrite (proj1 Hq)|].
  destruct ch.
  - apply notify_info_quiet in H3. eapply moves_trans; [by apply quiet_moves|apply moves_deref].
  - injection H3 as <-. apply moves_deref.
Qed.

Lemma friend_connection_moves n b w w' : notify_friend_connection_cb n b w = Ok w' -> moves 0 w w'.
Proof.
  unfold notify_friend_connection_cb. intros H. open_friend H n fi Hg.
  destruct (_ =? status _). { injection H as <-. split; [done|cbn; lia]. }
  inv_bind. subst w'. eapply moves_trans; [apply moves_get|].
  eapply moves_trans; [by apply moves_put_info|]. eapply moves_trans; [apply quiet_moves, quiet_notify|apply moves_deref].
Qed.

(** A status out of range costs a reference to the friend. *)
Lemma friend_status_moves n s w w' : notify_friend_status_cb n s w = Ok w' ->
  exists k, moves k w w' /\ (IOEXPresenceStatus_None <= s <= IOEXPresenceStatus_Busy -> k = 0).
Proof.
  unfold notify_friend_status_cb. intros H. inv_bind. got (get_friend _ _) as r Hg.
  apply get_friend_cases in Hg. destruct r as [[fi|] w1]; destruct Hg as [Hg ->]; [|injection H as <-; exists 0; split; [by apply quiet_moves|done]].
  destruct ((s <? _) || _) eqn:Es.
  { injection H as <-. exists 1. split; [done|]. intros Hs. apply orb_true_iff in Es. destruct Es; zify_tests; lia. }
  exists 0. split; [|done]. destruct (_ =? presence _). { injection H as <-. split; [done|cbn; lia]. }
  inv_bind. subst w'. eapply moves_trans; [apply moves_get|].
  eapply moves_trans; [by apply moves_put_info|]. eapply moves_trans; [apply quiet_moves, quiet_notify|apply moves_deref].
Qed.

Lemma request_quiet key g w w' : notify_friend_request_cb key g w = Ok w' -> quiet w w'.
Proof.
  unfold notify_friend_request_cb. intros H. inv_bind. destruct (dht_get_friend_number key (env w)) as [rc n].
  destruct (_ && _); [by injection H as <-|]. destruct (ask_cases carrier_alloc w) as (ok & w1 & E1 & Hq & _). rewrite E1 in H.
  inv_bind. got (Cp.IOEXcp_decode _ _) as c Hc. destruct c as [cp|]; [|by injection H as <-].
  destruct (negb _); [by injection H as <-|]. inv_bind. subst w'. eapply quiet_trans; [done|apply quiet_notify].
Qed.

Lemma sender_known line n w id : sender line n w = Ok (Some id) ->
  exists fi, table_get n (friends (node w)) = Some fi /\ id = userid (user_info (info fi)).
Proof.
  unfold sender. intros H. inv_bind. got (get_friend _ _) as r Hg.
  apply get_friend_cases in Hg. destruct r as [[fi|] w1]; destruct Hg as [Hg ->]; [|discriminate H]. inv_bind. exists fi. split; [done|].
  got (strcpy _ _) as s Hs. subst id. unfold strcpy in Hs. destruct (_ <? _); [by injection Hs|discriminate].
Qed.

Lemma history_put_moves from t w w' : tansaction_history_put_invite from t w = Ok w' -> moves 0 w w' /\ calls w' = calls w.
Proof.
  unfold tansaction_history_put_invite. intros H. inv_bind. destruct (ask_cases carrier_alloc w) as (ok & w1 & E1 & Hq & Hc).
  rewrite E1 in H. destruct (negb ok); [discriminate|]. inv_bind. subst w'. destruct Hq as [Hn Ho].
  assert (t <> 0) as Ht by (match goal with Hz : nonzero t = true |- _ => unfold nonzero in Hz; zify_tests; done end).
  split; [|done]. split; [|cbn; lia]. rewrite <- Hn. intros []. split; [done..|]. by apply history_put_wf.
Qed.

Lemma friend_message_quiet n cp w w' : handle_friend_message n cp w = Ok w' -> quiet w w'.
Proof.
  unfold handle_friend_message. intros H. inv_bind. got (sender _ _ _) as r Hs. destruct r as [id|]; [|by injection H as <-].
  inv_bind. destruct (Cp.IOEXcp_get_extension cp); injection H as <-; [done|apply quiet_notify].
Qed.

Lemma invite_request_moves n cp w w' : handle_invite_request n cp w = Ok w' -> moves 0 w w'.
Proof.
  unfold handle_invite_request. intros H. inv_bind. got (sender _ _ _) as r Hs.
  destruct r as [id|]; [|injection H as <-; by apply quiet_moves]. inv_bind.
  got (tansaction_history_put_invite _ _ _) as w2 Hp. apply history_put_moves in Hp as [Hp _].
  eapply moves_quiet; [exact Hp|].
  destruct (Cp.IOEXcp_get_extension cp); injection H as <-; [destruct (_ && _); done|apply quiet_notify].
Qed.

Lemma invite_response_moves n cp w w' : handle_invite_response n cp w = Ok w' -> moves 0 w w'.
Proof.
  unfold handle_invite_response. intros H. inv_bind. got (sender _ _ _) as r Hs.
  destruct r as [id|]; [|injection H as <-; by apply quiet_moves]. inv_bind.
  destruct (transacted_callbacks_get _ w) as [tcb|]; [|injection H as <-; by apply quiet_moves]. inv_bind.
  match goal with Hx : (if nonzero _ then _ else _) = Ok ?x |- _ => destruct x as [[re da] le] end. injection H as <-.
  split; [|cbn; lia]. intros []. split; [done| |done]. by apply callbacks_remove_wf.
Qed.

Lemma message_moves n m w w' : notify_friend_message_cb n m w = Ok w' -> moves 0 w w'.
Proof.
  unfold notify_friend_message_cb. destruct (ask_cases carrier_alloc w) as (ok & w1 & -> & Hq & _). intros H. inv_bind.
  apply quiet_moves in Hq. got (Cp.IOEXcp_decode _ _) as c Hc. destruct c as [cp|]; [|by injection H as <-].
  eapply moves_trans; [exact Hq|]. change (0 - 0) with 0.
  destruct (_ =? Cp.IOEXCP_TYPE_MESSAGE); [by eapply quiet_moves, friend_message_quiet|].
  destruct (_ =? Cp.IOEXCP_TYPE_INVITE_REQUEST); [by eapply invite_request_moves|].
  destruct (_ =? Cp.IOEXCP_TYPE_INVITE_RESPONSE); [by eapply invite_response_moves|]. injection H as <-. by apply quiet_moves.
Qed.

Lemma events_moves w : moves 0 w (do_friend_events w) /\ friend_events (node (do_friend_events w)) = [].
Proof.
  unfold do_friend_events. assert (forall l w1, friend_events (node w1) = l -> moves 0 w1 (events_loop l w1) /\ friend_events (node (events_loop l w1)) = []) as H.
  { induction l as [|ev l IH]; intros w1 Hl; cbn [events_loop]; [split; [by apply quiet_moves|done]|].
    destruct (IH (with_node (set_events l) (do_friend_event ev w1)) eq_refl) as [H1 H2]. split; [|exact H2].
    apply (moves_trans 0 0 _ (with_node (set_events l) (do_friend_event ev w1))); [|exact H1].
    assert (quiet w1 (do_friend_event ev w1)) as [Hn Ho].
    { unfold do_friend_event. destruct (event_type ev); [apply quiet_notify|].
      eapply quiet_trans; [|apply quiet_notify]. destruct (_ =? _); [apply quiet_notify|done]. }
    split; [|cbn; lia]. cbn. rewrite Hn. by intros []. }
  by apply H.
Qed.

(** ** Calls *)

(** What a call that fails leaves: only the environment and the error may differ. *)
Record unchanged w w' : Prop := {
  un_node : node w' = node w;
  un_owed : owed w' = owed w;
  un_calls : calls w' = calls w;
  un_disk : Persist.disk (fs w') = Persist.disk (fs w);
}.

Lemma unchanged_refl w : unchanged w w.
Proof. done. Qed.

Lemma unchanged_trans w1 w2 w3 : unchanged w1 w2 -> unchanged w2 w3 -> unchanged w1 w3.
Proof. intros [] []. split; congruence. Qed.

Lemma unchanged_error e w : unchanged w (IOEX_set_error e w).
Proof. done. Qed.

Lemma unchanged_ask {A} (f : E -> A * E) w : exists a w', ask f w = (a, w') /\ unchanged w w' /\ (a, env w') = f (env w).
Proof. unfold ask. destruct (f (env w)) as [a e]. by exists a, (with_env e w). Qed.

Lemma unchanged_encode cp w r w' : encode cp w = Ok (r, w') -> unchanged w w'.
Proof. unfold encode. intros H. inv_bind. by subst. Qed.

Lemma unchanged_moves w w' : unchanged w w' -> moves 0 w w'.
Proof. intros []. by apply quiet_moves. Qed.

(** Numbers of new friends. *)
Class DhtNumbers : Prop := {
  friend_add_number a d e rc n e' : dht_friend_add a d e = Ok (rc, n, e') -> 0 <= rc -> 0 <= n < UINT32_MAX;
  friend_accept_number k e rc n e' : dht_friend_add_norequest k e = (rc, n, e') -> 0 <= rc -> 0 <= n < UINT32_MAX;
}.

(** A call: [-1] and nothing has changed, or [0] and the tables are in order. *)
Definition call_ok w (rc : Z) w' : Prop := moves 0 w w' /\ (rc = -1 /\ unchanged w w' \/ rc = 0).

Lemma call_refuse e w rc w' : refuse e w = Ok (rc, w') -> call_ok w rc w'.
Proof. intros [= <- <-]. split; [by apply quiet_moves|by left]. Qed.

Lemma call_after w w1 rc w' : unchanged w w1 -> call_ok w1 rc w' -> call_ok w rc w'.
Proof.
  intros Hu [Hm Hc]. split; [eapply moves_trans; [by apply unchanged_moves|done]|].
  destruct Hc as [[-> Hc]| ->]; [left|by right]. split; [done|]. by eapply unchanged_trans.
Qed.

Lemma call_done w w' : moves 0 w w' -> call_ok w 0 w'.
Proof. intros. split; [done|by right]. Qed.

(** A step of a call: an answer of the environment, or a refusal. *)
Ltac asked H f w ok w1 Hu := destruct (unchanged_ask f w) as (ok & w1 & Hu & ? & ?); rewrite Hu in H; clear Hu; rename w1 into w1.

Lemma store_moves w w' : store_persistence_data w = Ok w' -> moves 0 w w'.
Proof. intros [H _]%store_quiet. by apply quiet_moves. Qed.

Lemma push_event_moves t i w w' : push_event t i w = Ok w' -> moves 0 w w'.
Proof.
  unfold push_event. intros H. apply bind_ok in H as (w1 & H1%store_moves & H).
  destruct (ask_cases carrier_alloc w1) as (ok & w2 & E2 & Hq & _). rewrite E2 in H. injection H as <-.
  eapply moves_trans; [exact H1|]. eapply moves_trans; [by apply quiet_moves|]. destruct ok; (split; [|cbn; lia]); [|done].
  cbn. by intros [].
Qed.

Lemma enter_friend_moves n id w rc w' : 0 <= n < UINT32_MAX -> enter_friend n id w = Ok (rc, w') -> call_ok w rc w'.
Proof.
  intros Hn. unfold enter_friend. intros H. apply bind_ok in H as (w1 & H1 & H). injection H as <- <-. apply call_done.
  apply push_event_moves in H1. refine (moves_trans 0 0 _ _ _ _ H1). split; [|cbn; lia]. intros []. split; [|done|done].
  by apply friends_put_wf.
Qed.


Lemma to_friend_ok (Q : Z -> world -> Prop) to self unknown w k rc w' :
  to_friend to self unknown w k = Ok (rc, w') ->
  (forall e, Q (-1) (IOEX_set_error e w)) -> (forall x n, k x n = Ok (rc, w') -> Q rc w') -> Q rc w'.
Proof.
  unfold to_friend. intros H Hr Hk. assert (forall e, refuse e w = Ok (rc, w') -> Q rc w') as Hf by (by intros e [= <- <-]).
  unfold general in H. destruct (parse_address to) as [uid x]. apply bind_ok in H as (b & _ & H).
  destruct (negb b); [by eapply Hf|]. destruct (_ <? _); [by eapply Hf|]. destruct (self && _); [by eapply Hf|].
  destruct (negb _); [by eapply Hf|]. apply bind_ok in H as ([rc0 n] & _ & H). destruct (rc0 <? 0); [by eapply Hf|].
  apply bind_ok in H as (ex & _ & H). destruct (negb ex); [by eapply Hf|by eapply Hk].
Qed.

Lemma call_error w e : call_ok w (-1) (IOEX_set_error e w).
Proof. split; [by apply quiet_moves|by left]. Qed.

Lemma packet_call_ok n d w rc w' : send_packet n d w = Ok (rc, w') -> call_ok w rc w'.
Proof.
  unfold send_packet. intros H. apply bind_ok in H as ([r e] & _ & H). cbv zeta in H. apply (call_after _ (with_env e w)); [done|].
  destruct (r <? 0); [by eapply call_refuse|].
  injection H as <- <-. apply call_done. by apply quiet_moves.
Qed.

Lemma send_message_ok to msg len w rc w' : IOEX_send_friend_message to msg len w = Ok (rc, w') -> call_ok w rc w'.
Proof.
  unfold IOEX_send_friend_message. intros H. destruct to as [to|]; [|by apply call_refuse in H].
  destruct msg as [msg|]; [|by apply call_refuse in H]. destruct (_ || _); [by apply call_refuse in H|].
  eapply to_friend_ok; [exact H|apply call_error|]. clear H. intros x n H.
  destruct (unchanged_ask carrier_alloc w) as (ok & w1 & E1 & Hu & _). rewrite E1 in H.
  apply (call_after _ w1); [done|]. apply bind_ok in H as (c & _ & H).
  destruct c as [cp|]; [|by apply call_refuse in H]. apply bind_ok in H as (cp' & _ & H).
  apply bind_ok in H as ([d w2] & He & H). apply (call_after _ w2); [by eapply unchanged_encode|].
  destruct d as [d|]; [by apply packet_call_ok in H|by apply call_refuse in H].
Qed.

Lemma history_remove_moves to w w' : transaction_history_remove_invite to w = Ok w' -> moves 0 w w'.
Proof.
  unfold transaction_history_remove_invite. intros H. inv_bind. subst w'. split; [|cbn; lia]. intros []. split; [done|done|].
  by apply history_remove_wf.
Qed.

Lemma reply_ok to st re da len w rc w' : IOEX_reply_friend_invite to st re da len w = Ok (rc, w') -> call_ok w rc w'.
Proof.
  unfold IOEX_reply_friend_invite. intros H. destruct (_ || _); [by apply call_refuse in H|].
  eapply to_friend_ok; [exact H|apply call_error|]. clear H. intros x n H.
  apply bind_ok in H as (t & _ & H). destruct (t =? 0); [by apply call_refuse in H|].
  destruct (unchanged_ask carrier_alloc w) as (ok & w1 & E1 & Hu & _). rewrite E1 in H.
  apply (call_after _ w1); [done|]. apply bind_ok in H as (c & _ & H). destruct c as [cp|]; [|by apply call_refuse in H].
  do 3 apply bind_ok in H as (? & _ & H). apply bind_ok in H as ([d w2] & He & H).
  apply (call_after _ w2); [by eapply unchanged_encode|]. destruct d as [d|]; [|by apply call_refuse in H].
  apply bind_ok in H as ([rc1 w3] & Hs & H). apply packet_call_ok in Hs. destruct (rc1 <? 0).
  - injection H as <- <-. done.
  - apply bind_ok in H as (w4 & Hh%history_remove_moves & H). injection H as <- <-. apply call_done.
    eapply moves_trans; [apply Hs|exact Hh].
Qed.

(** An invitation that the DHT does not take keeps its callback registered. *)
Lemma invite_ok to data len cb ctx w rc w' : IOEX_invite_friend to data len cb ctx w = Ok (rc, w') ->
  moves 0 w w' /\ (rc = -1 \/ rc = 0) /\
  (rc = -1 -> unchanged w w' \/
    exists t, tcallbacks (node w') = table_put t (mkTcb t cb ctx) (tcallbacks (node w)) /\ friends (node w') = friends (node w) /\
      thistory (node w') = thistory (node w) /\ calls w' = calls w).
Proof.
  set (Q := fun rc w' => moves 0 w w' /\ (rc = -1 \/ rc = 0) /\ (rc = -1 -> unchanged w w' \/
    exists t, tcallbacks (node w') = table_put t (mkTcb t cb ctx) (tcallbacks (node w)) /\ friends (node w') = friends (node w) /\
      thistory (node w') = thistory (node w) /\ calls w' = calls w)).
  intros H. change (Q rc w'). assert (forall rc w', call_ok w rc w' -> Q rc w') as HQ.
  { intros rc0 w0 [Hm Hc]. split; [done|]. destruct Hc as [[-> Hu]| ->]; split; [by left|by left|by right|done]. }
  assert (forall w1 e, unchanged w w1 -> refuse e w1 = Ok (rc, w') -> Q rc w') as HR.
  { intros w1 e Hu Hr. apply HQ. eapply call_after; [exact Hu|by eapply call_refuse]. }
  unfold IOEX_invite_friend in H. destruct to as [to|]; [|by eapply HR in H]. destruct data as [data|]; [|by eapply HR in H].
  destruct ((len =? 0) || _) eqn:Ea; [by eapply HR in H|]. apply orb_false_iff in Ea as [_ Ecb]. zify_tests.
  eapply to_friend_ok; [exact H|intros e; apply HQ, call_error|]. clear H. intros x n H.
  destruct (unchanged_ask carrier_alloc w) as (ok & w1 & E1 & Hu & _). rewrite E1 in H.
  apply bind_ok in H as (c & _ & H). destruct c as [cp|]; [|by eapply HR in H].
  apply bind_ok in H as ([t w2] & Ht & H).
  assert (unchanged w w2) as Hu2.
  { eapply unchanged_trans; [exact Hu|]. unfold generate_tid in Ht. destruct (unchanged_ask time w1) as (a & w3 & E3 & Hu3 & _).
    rewrite E3 in Ht. destruct (unchanged_ask rand w3) as (b & w4 & E4 & Hu4 & _). rewrite E4 in Ht.
    destruct (_ =? 0); [discriminate|]. injection Ht as _ <-. by eapply unchanged_trans. }
  do 2 apply bind_ok in H as (? & _ & H). apply bind_ok in H as ([d w3] & He & H).
  pose proof (unchanged_trans _ _ _ Hu2 (unchanged_encode _ _ _ _ He)) as Hu3.
  destruct d as [d|]; [|by eapply HR in H]. destruct (unchanged_ask carrier_alloc w3) as (ok4 & w4 & E4 & Hu4 & _). rewrite E4 in H.
  pose proof (unchanged_trans _ _ _ Hu3 Hu4) as Hw4. destruct (negb ok4); [by eapply HR in H|].
  assert (moves 0 w (transacted_callbacks_put (mkTcb t cb ctx) w4)) as Hm.
  { eapply moves_trans; [apply unchanged_moves, Hw4|]. split; [|cbn; lia]. intros []. split; [done| |done]. by apply callbacks_put_wf. }
  apply packet_call_ok in H as [Hs Hc]. split; [eapply moves_trans; [exact Hm|exact Hs]|].
  destruct Hw4. destruct Hc as [[-> []]| ->]; split; [by left| |by right|done]. intros _. right. exists t.
  rewrite un_node1, un_calls1. cbn. rewrite un_node0, un_calls0. done.
Qed.


Lemma store_done w w1 w' rc : moves 0 w w1 -> (w2 ← store_persistence_data w1; Ok (0, w2)) = Ok (rc, w') -> call_ok w rc w'.
Proof.
  intros Hm H. apply bind_ok in H as (w2 & Hs%store_moves & H). injection H as <- <-. apply call_done.
  eapply moves_trans; [exact Hm|exact Hs].
Qed.

Lemma set_self_info_ok info w rc w' : IOEX_set_self_info info w = Ok (rc, w') -> call_ok w rc w'.
Proof.
  unfold IOEX_set_self_info. intros H. destruct info as [info|]; [|by apply call_refuse in H].
  destruct (negb _); [by apply call_refuse in H|].
  destruct (unchanged_ask carrier_alloc w) as (ok & w1 & E1 & Hu & _). rewrite E1 in H. apply (call_after _ w1); [done|].
  apply bind_ok in H as (c & _ & H). destruct c as [cp|]; [|by apply call_refuse in H].
  destruct (same_info _ _). { injection H as <- <-. apply call_done. by apply quiet_moves. }
  apply bind_ok in H as (cp' & _ & H). apply bind_ok in H as ([d w2] & He & H).
  apply (call_after _ w2); [by eapply unchanged_encode|]. destruct d as [d|]; [|by apply call_refuse in H].
  eapply store_done; [|exact H]. split; [|cbn; lia]. by intros [].
Qed.

Lemma find_friend_cases line id w r w' : find_friend line id w = Ok (r, w') ->
  match r with
  | inl (n, fi) => table_get n (friends (node w)) = Some fi /\ w' = with_owed 1 w
  | inr e => w' = w
  end.
Proof.
  unfold find_friend. intros H. apply bind_ok in H as ([rc n] & _ & H). destruct (rc <? 0); [by injection H as <- <-|].
  apply bind_ok in H as (r' & Hg%get_friend_cases & H). destruct r' as [[fi|] w1]; destruct Hg as [Hg ->].
  - inv_bind. by subst.
  - by injection H as <- <-.
Qed.

Lemma set_label_ok id label w rc w' : IOEX_set_friend_label id label w = Ok (rc, w') -> call_ok w rc w'.
Proof.
  unfold IOEX_set_friend_label. intros H. destruct id as [id|]; [|by apply call_refuse in H].
  destruct (_ <? _); [by apply call_refuse in H|]. apply bind_ok in H as ([[[n fi]|e] w1] & Hf%find_friend_cases & H).
  - destruct Hf as [Hg ->]. apply bind_ok in H as (s & _ & H). eapply store_done; [|exact H].
    eapply moves_trans; [apply moves_get|]. eapply moves_trans; [by apply moves_put_info|apply moves_deref].
  - subst w1. by apply call_refuse in H.
Qed.

Section Friends.
Context {DN : DhtNumbers}.

Lemma add_friend_ok a hello w rc w' : IOEX_add_friend a hello w = Ok (rc, w') -> call_ok w rc w'.
Proof.
  unfold IOEX_add_friend. intros H. destruct hello as [hello|]; [|by apply call_refuse in H].
  destruct a as [a|]; [|by apply call_refuse in H]. apply bind_ok in H as (b & _ & H).
  destruct (negb b); [by apply call_refuse in H|]. destruct (bool_decide _); [by apply call_refuse in H|].
  destruct (negb _); [by apply call_refuse in H|]. apply bind_ok in H as (r & _ & H).
  destruct (dht_get_friend_number _ _) as [rc0 n0]. destruct (_ && _); [by apply call_refuse in H|].
  destruct (unchanged_ask carrier_alloc w) as (ok & w1 & E1 & Hu & _). rewrite E1 in H. apply (call_after _ w1); [done|].
  destruct (negb ok); [by apply call_refuse in H|].
  destruct (unchanged_ask carrier_alloc w1) as (ok2 & w2 & E2 & Hu2 & _). rewrite E2 in H. apply (call_after _ w2); [done|].
  apply bind_ok in H as (c & _ & H). destruct c as [cp|]; [|by apply call_refuse in H].
  do 3 apply bind_ok in H as (? & _ & H). apply bind_ok in H as ([d w3] & He & H).
  apply (call_after _ w3); [by eapply unchanged_encode|]. destruct d as [d|]; [|by apply call_refuse in H].
  apply bind_ok in H as ([[rc1 n] e] & Ea & H). cbv zeta in H. apply (call_after _ (with_env e w3)); [done|].
  destruct (Z.ltb_spec rc1 0); [by apply call_refuse in H|]. apply bind_ok in H as (id & _ & H).
  eapply enter_friend_moves; [by eapply friend_add_number|exact H].
Qed.

Lemma accept_friend_ok id w rc w' : IOEX_accept_friend id w = Ok (rc, w') -> call_ok w rc w'.
Proof.
  unfold IOEX_accept_friend. intros H. destruct id as [id|]; [|by apply call_refuse in H].
  apply bind_ok in H as (b & _ & H). destruct (negb b); [by apply call_refuse in H|].
  destruct (bool_decide _); [by apply call_refuse in H|]. destruct (negb _); [by apply call_refuse in H|].
  apply bind_ok in H as ([rc0 n0] & _ & H). destruct (_ && _); [by apply call_refuse in H|].
  destruct (unchanged_ask carrier_alloc w) as (ok & w1 & E1 & Hu & _). rewrite E1 in H. apply (call_after _ w1); [done|].
  destruct (negb ok); [by apply call_refuse in H|]. apply bind_ok in H as (a & _ & H).
  destruct (dht_friend_add_norequest _ (env w1)) as [[rc1 n] e] eqn:Ea. apply (call_after _ (with_env e w1)); [done|].
  destruct (Z.ltb_spec rc1 0); [by apply call_refuse in H|]. apply bind_ok in H as (s & _ & H).
  eapply enter_friend_moves; [by eapply friend_accept_number|exact H].
Qed.

Lemma remove_friend_ok id w rc w' : IOEX_remove_friend id w = Ok (rc, w') -> call_ok w rc w'.
Proof.
  unfold IOEX_remove_friend. intros H. destruct id as [id|]; [|by apply call_refuse in H].
  apply bind_ok in H as (b & _ & H). destruct (negb b); [by apply call_refuse in H|].
  destruct (negb _); [by apply call_refuse in H|]. apply bind_ok in H as ([rc0 n] & _ & H).
  destruct (rc0 <? 0); [by apply call_refuse in H|]. apply bind_ok in H as (ex & _ & H).
  destruct (negb ex); [by apply call_refuse in H|]. apply bind_ok in H as (e & _ & H). set (w1 := with_env e w) in *. apply (call_after _ w1); [done|].
  apply bind_ok in H as ([[fi|] t] & Hr & H); [|discriminate]. unfold friends_remove in Hr. inv_bind. subst.
  got (notify_friend_removed _ _) as w2 H2. apply push_event_moves in H2. apply call_done.
  refine (moves_trans 1 0 _ (with_owed 1 (with_node (set_friends (table_remove n (friends (node w)))) w1)) _ _ _).
  - split; [|cbn; lia]. intros []. split; [by apply friends_remove_wf|done|done].
  - refine (moves_trans 0 _ _ w2 _ H2 _). apply moves_deref.
Qed.

(** ** The properties *)

(** What can happen to a node: a report of the DHT, the delivery of events, a call. *)
Inductive input :=
| DhtConnection (connected : bool)
| DhtDescription (n : Z) (desc : bytes)
| DhtFriendConnection (n : Z) (connected : bool)
| DhtStatus (n s : Z)
| DhtRequest (key gretting : bytes)
| DhtMessage (n : Z) (m : bytes)
| Events
| SetInfo (info : option IOEXUserInfo)
| SetLabel (id label : c_str)
| AddFriend (address hello : c_str)
| AcceptFriend (id : c_str)
| RemoveFriend (id : c_str)
| SendMessage (to msg : c_str) (len : Z)
| Invite (to data : c_str) (len callback context : Z)
| Reply (to : c_str) (status : Z) (reason data : c_str) (len : Z).

Definition report (m : outcome world) : outcome (Z * world) := w ← m; Ok (0, w).

Definition happens (i : input) w : outcome (Z * world) :=
  match i with
  | DhtConnection b => Ok (0, notify_connection_cb b w)
  | DhtDescription n d => report (notify_friend_description_cb n d w)
  | DhtFriendConnection n b => report (notify_friend_connection_cb n b w)
  | DhtStatus n s => report (notify_friend_status_cb n s w)
  | DhtRequest k g => report (notify_friend_request_cb k g w)
  | DhtMessage n m => report (notify_friend_message_cb n m w)
  | Events => Ok (0, do_friend_events w)
  | SetInfo info => IOEX_set_self_info info w
  | SetLabel id label => IOEX_set_friend_label id label w
  | AddFriend a h => IOEX_add_friend a h w
  | AcceptFriend id => IOEX_accept_friend id w
  | RemoveFriend id => IOEX_remove_friend id w
  | SendMessage to msg len => IOEX_send_friend_message to msg len w
  | Invite to data len cb ctx => IOEX_invite_friend to data len cb ctx w
  | Reply to st re da len => IOEX_reply_friend_invite to st re da len w
  end.

(** A status that a friend can have. *)
Definition fair (i : input) : Prop :=
  match i with DhtStatus _ s => IOEXPresenceStatus_None <= s <= IOEXPresenceStatus_Busy | _ => True end.

Lemma report_ok m rc w' : report m = Ok (rc, w') -> m = Ok w' /\ rc = 0.
Proof. unfold report. intros H. apply bind_ok in H as (w & Hm & H). by injection H as <- <-. Qed.

Lemma happens_moves i w rc w' : happens i w = Ok (rc, w') -> exists k, moves k w w' /\ (fair i -> k = 0).
Proof.
  destruct i; cbn [happens]; intros H; try (apply report_ok in H as [H _]).
  4: { by apply friend_status_moves in H. }
  all: exists 0; split; [|done].
  - injection H as <- <-. apply connection_moves.
  - by eapply description_moves.
  - by eapply friend_connection_moves.
  - by eapply quiet_moves, request_quiet.
  - by eapply message_moves.
  - injection H as <- <-. apply events_moves.
  - by eapply set_self_info_ok.
  - by eapply set_label_ok.
  - by eapply add_friend_ok.
  - by eapply accept_friend_ok.
  - by eapply remove_friend_ok.
  - by eapply send_message_ok.
  - by eapply invite_ok.
  - by eapply reply_ok.
Qed.

(** What happens one after the other. *)
Inductive history : world -> list input -> world -> Prop :=
| history_nil w : history w [] w
| history_cons w i rc w1 l w2 : happens i w = Ok (rc, w1) -> history w1 l w2 -> history w (i :: l) w2.

(** ** The start *)

Section Start.
Context {DS : CarrierStart.DhtStart E}.
Import CarrierStart.

(** The numbers of the friends that the DHT reports. *)
Definition reported (l : list dht_friend) : Prop := Forall (fun f => 0 <= df_number f <= UINT32_MAX) l.

Definition friends_reported : Prop := forall (e : E) rc l, dht_get_friends e = Ok (rc, l) -> reported l.

Lemma set_label_wf n s m m' : Persist.set_label n s m = Ok m' -> friends_wf m -> friends_wf m'.
Proof.
  unfold Persist.set_label, friends_get. intros H Hwf. inv_bind. subst. destruct (table_get n m) as [fi|] eqn:Hg; [|by injection H as <-].
  inv_bind. subst. destruct (friends_get_wf _ _ _ Hwf Hg) as [Hn Hk]. rewrite <- Hn.
  apply (friends_put_wf (on_info (with_label r) fi)); [done|]. cbn. lia.
Qed.

Lemma apply_loop_wf fuel x len m m' : Persist.apply_loop fuel x len m = Ok m' -> friends_wf m -> friends_wf m'.
Proof.
  revert x len m. induction fuel as [|fuel IH]; intros x len m; cbn [Persist.apply_loop];
    (destruct (len =? 0); [by intros [= ->]|]); intros H Hwf; do 2 apply bind_ok in H as (? & _ & H);
    (destruct (_ =? 0); [by injection H as <-|]); apply bind_ok in H as (m1 & H1%set_label_wf & H); [discriminate H|done|by eapply IH|done].
Qed.

Lemma unpack_node d i w r w' : unpack_user_desc d i w = Ok (r, w') -> node_wf (node w) -> node_wf (node w').
Proof. intros [[-> _] _]%unpack_quiet. done. Qed.

Lemma self_info_wf s w w' : get_self_info_cb s w = Ok w' -> node_wf (node w) -> node_wf (node w').
Proof.
  unfold get_self_info_cb. intros H []. do 2 apply bind_ok in H as (? & _ & H). destruct (0 <? _).
  - apply bind_ok in H as ([r w1] & [[Hn _] _]%unpack_quiet & H). destruct r as [[u ch]|]; injection H as <-; cbn; rewrite Hn; by split.
  - unfold fill_empty_user_desc in H. match type of H with context [with_node ?f w] => set (w1 := with_node f w) in * end.
    destruct (ask_cases carrier_alloc w1) as (ok & w2 & E2 & [Hn _] & _). rewrite E2 in H.
    assert (node_wf (node w1)) as Hw by (unfold w1; cbn; by split). rewrite <- Hn in Hw.
    apply bind_ok in H as (c & _ & H). destruct c as [cp|]; [|by injection H as <-].
    apply bind_ok in H as (cp' & _ & H). apply bind_ok in H as ([d w3] & [[Hn3 _] _]%encode_quiet & H). rewrite <- Hn3 in Hw.
    destruct d; by injection H as <-.
Qed.

Lemma iterate_cb_wf f w r : friends_iterate_cb f w = Ok r -> 0 <= df_number f <= UINT32_MAX -> node_wf (node w) -> node_wf (node (snd r)).
Proof.
  unfold friends_iterate_cb. intros H Hf Hw. apply bind_ok in H as ([] & Ha & H).
  assert (df_number f <> UINT32_MAX) as Hne. { intros He. rewrite He in Ha. vm_compute in Ha. discriminate. }
  destruct (ask_cases carrier_alloc w) as (ok & w2 & E2 & [Hn _] & _). rewrite E2 in H. rewrite <- Hn in Hw.
  destruct (negb ok); [by injection H as <-|]. apply bind_ok in H as (id & _ & H).
  apply bind_ok in H as ([u w3] & Hu & H). assert (node_wf (node w3)) as Hw3.
  { destruct (0 <? _); [by eapply unpack_node|]. by injection Hu as _ <-. }
  destruct u as [[u ch]|]; injection H as <-; [|done]. destruct Hw3. split; [|done|done]. cbn [snd node with_node set_friends friends].
  apply friends_put_wf; [done|]. cbn. lia.
Qed.

Lemma enter_friends_wf l w w' : enter_friends l w = Ok w' -> reported l -> node_wf (node w) -> node_wf (node w').
Proof.
  revert w. induction l as [|f l IH]; intros w H Hr Hw; [by injection H as <-|]. apply Forall_cons in Hr as [Hf Hr].
  cbn [enter_friends] in H. apply bind_ok in H as (r & Hi & H). pose proof (iterate_cb_wf _ _ _ Hi Hf Hw).
  destruct (fst r); [by eapply IH|]. by injection H as <-.
Qed.

Lemma create_tables_quiet k w ok w' : create_tables k w = (ok, w') -> quiet w w'.
Proof.
  revert w. induction k as [|k IH]; intros w; cbn [create_tables]; [by intros [= _ <-]|].
  destruct (ask_cases carrier_alloc w) as (b & w1 & -> & Hq & _). destruct b; [|by intros [= _ <-]].
  intros H%IH. by eapply quiet_trans.
Qed.

Lemma new_node_wf loc udp cbs s w : friends_reported ->
  new_node loc udp cbs s = Ok (true, w) -> node_wf (node w).
Proof.
  intros Hr. unfold new_node. intros H. apply bind_ok in H as (r & _ & H).
  match type of H with context [ask (dht_new ?a ?b) ?w0] => set (w1 := w0) in *; destruct (ask_cases (dht_new a b) w1) as (rc & w2 & E2 & [Hn _] & _); rewrite E2 in H end.
  assert (node_wf (node w2)) as Hw. { rewrite Hn. unfold w1. cbn. split; (split; [apply NoDup_nil_2|constructor]). }
  destruct (rc <? 0); [discriminate|]. destruct (create_tables 6 w2) as [ok w2'] eqn:Et. apply create_tables_quiet in Et as [Hn2 _].
  rewrite <- Hn2 in Hw. destruct (negb ok); [discriminate|].
  destruct (dht_get_self_info (env w2')) as [rc1 self]. destruct (rc1 <? 0); [discriminate|].
  apply bind_ok in H as (w3 & H3%self_info_wf & H); [|done]. apply bind_ok in H as ([rc2 l] & Hl%Hr & H). destruct (rc2 <? 0); [discriminate|].
  apply bind_ok in H as (w4 & H4%enter_friends_wf & H); [|done..]. apply bind_ok in H as (t & Ht%apply_loop_wf & H); [|apply H4].
  apply bind_ok in H as (w5 & [[Hn5 _] _]%store_quiet & H). injection H as <-.
  assert (node_wf (node w5)) as [] by (rewrite Hn5; by split; [|apply H4..]). destruct cbs; by split.
Qed.

(** A new node is in order, whatever is on the disk. *)
Lemma new_wf opts cbs s p w : friends_reported ->
  IOEX_new opts cbs s = Ok (Some p, w) -> node_wf (node w).
Proof.
  intros Hr. unfold IOEX_new. destruct opts as [o|]; [|discriminate]. destruct (bool_decide _); [discriminate|].
  match goal with |- context [ask carrier_alloc ?w] => destruct (ask_cases carrier_alloc w) as (ok & w1 & -> & _) end.
  destruct (negb ok); [discriminate|]. destruct (ask_cases carrier_alloc w1) as (ok2 & w2 & -> & _).
  destruct (negb ok2); [discriminate|]. intros H. apply bind_ok in H as ([l|] & _ & H); [|discriminate].
  apply bind_ok in H as ([b w3] & Hn & H). cbn in H. destruct b; [|discriminate]. injection H as _ <-. by eapply new_node_wf.
Qed.

End Start.

Lemma history_moves w l w' : history w l w' -> node_wf (node w) ->
  node_wf (node w') /\ (Forall fair l -> owed w' = owed w).
Proof.
  induction 1 as [w|w i rc w1 l w2 Hi Hl IH]; intros Hwf; [done|].
  apply happens_moves in Hi as (k & [Hm Ho] & Hk). destruct (IH (Hm Hwf)) as [H1 H2]. split; [done|].
  intros [Hf Hfl]%Forall_cons. rewrite (H2 Hfl), Ho, (Hk Hf). lia.
Qed.



End Friends.

(** Runs a sequence of inputs. *)
Fixpoint runs (l : list input) w : outcome world :=
  match l with [] => Ok w | i :: l => r ← happens i w; runs l (snd r) end.

Lemma runs_history l w w' : runs l w = Ok w' -> history w l w'.
Proof.
  revert w. induction l as [|i l IH]; intros w; cbn [runs]; [intros [= ->]; constructor|].
  intros H. apply bind_ok in H as ([rc w1] & Hi & H). econstructor; [exact Hi|by apply IH].
Qed.

End Node.

(** ** A run *)

Section Demo.
Import CarrierDemo.

Instance demo_numbers : @DhtNumbers env demo_dht.
Proof. by split; intros ? * H _; cbn in H; injection H as <- <- <-. Qed.

(** The node 5 becomes ready and accepts 3, who comes, is busy, and sends an invitation,
    which is answered; it sends an invitation itself and removes the friend. *)
Definition demo_invitation : bytes :=
  match Cp.IOEXcp_encode (Cp.mkCP Cp.IOEXCP_TYPE_INVITE_REQUEST None (Cp.pkt_ireq (Cp.mkInviteReq 9 2 (Some [1; 2])))) (mkEnv true true) with
  | Ok (Some b, _) => b
  | _ => []
  end.

Definition demo_inputs : list input :=
  [DhtConnection true; AcceptFriend (Some (demo_name 3)); Events; DhtFriendConnection 7 true; DhtStatus 7 2;
   DhtMessage 7 demo_invitation; Reply (Some (demo_name 3)) 0 None (Some [8]) 1;
   Invite (Some (demo_name 3)) (Some [4]) 1 77 78; SetLabel (Some (demo_name 3)) (Some [98; 111; 98]);
   RemoveFriend (Some (demo_name 3)); Events].

(** The node starts on an empty disk; what the application and the friend see of the run. *)
Definition demo_options : CarrierStart.IOEXOptions :=
  CarrierStart.mkOptions (Some [47; 100]) true [CarrierStart.mkBootstrap (Some [49; 46; 50]) None [51; 51] (demo_name 9)].

Definition demo_begin : outcome (option (list CarrierStart.BootstrapNodeBuf) * world) :=
  CarrierStart.IOEX_new (Some demo_options) (Some (fun _ => true)) (Persist.mkW (mkEnv false true) ∅ []).

Example demo_begin_run : result demo_begin fst = Some (Some [CarrierStart.mkBuf [49; 46; 50] [] 33 (replicate 32 9)]).
Proof. vm_compute. reflexivity. Qed.

Example demo_run :
  result (r ← demo_begin; runs demo_inputs (snd r))
    (fun w => (length (calls w), tcallbacks (node w), thistory (node w), friends (node w)))
  = Some (10%nat, [(1042, mkTcb 1042 77 78)], [], []).
Proof. vm_compute. reflexivity. Qed.

Lemma demo_fair : Forall fair demo_inputs.
Proof. unfold demo_inputs. repeat apply Forall_cons_2; try exact I; [|apply Forall_nil_2]. split; vm_compute; discriminate. Qed.

Lemma demo_reported : @friends_reported env demo_start.
Proof. intros e rc l [= <- <-]. destruct (has_friend e); [apply Forall_singleton; by vm_compute|apply Forall_nil_2]. Qed.


(** The DHT does not take the invitation; the callback stays. *)
Definition refusing : @world env := with_env (mkEnv true false) (demo 5 (Some 3)).

Example callback_stays :
  result (happens (Invite (Some (demo_name 3)) (Some [4]) 1 77 78) refusing) (fun r => (fst r, tcallbacks (node (snd r)), calls (snd r)))
  = Some (-1, [(1042, mkTcb 1042 77 78)], []).
Proof. vm_compute. reflexivity. Qed.


End Demo.

End CarrierThm.
