(* ===== verification/CarrierInvite.v ===== *)
(** * The carrier node: messages and invitations between two nodes

    What one node sends, the other receives; the response to an invitation reaches the
    callback of the node that invited, once. *)

From Stdlib Require Import ZArith Lia.
From stdpp Require Import prelude list.
From S2P Require Import Prelude Base58 Crypto Mux CStr Tables Node Persist Cp Carrier CarrierCalls CarrierDemo CarrierThm.

Module CarrierInvite.
Import CStr Tables Node Carrier CarrierCalls CarrierThm.

#[local] Arguments encode : simpl never.
#[local] Arguments send_packet : simpl never.
#[local] Arguments generate_tid : simpl never.

Section Invite.
Context {E : Type} {DH : Dht E} {SY : Persist.System E} {NC : Crypto.Nacl} {FB : Cp.FlatBuffers E} {FL : Cp.FlatLaws E}.
Notation world := (@world E).
Implicit Types w : world.

(** There is memory. *)
Definition memory : Prop := forall e : E, fst (carrier_alloc e) = true.

(** The friend with the number [n] has the name [id]. *)
Definition friend_of w (n : Z) (id : bytes) : Prop :=
  n <> UINT32_MAX /\ zlen id <= IOEX_MAX_ID_LEN /\
  exists fi, table_get n (friends (node w)) = Some fi /\ userid (user_info (info fi)) = id.

(** The message [b] is the packet [cp] on its way. *)
Definition carries (b : bytes) (cp : Cp.IOEXCP) : Prop := Cp.IOEXcp_decode true b = Ok (Some cp).

Lemma strcpy_ok n s : zlen s < n -> strcpy n s = Ok s.
Proof. intros H. unfold strcpy. by rewrite (proj2 (Z.ltb_lt _ _)). Qed.

Lemma mem_read_inv b n r : mem_read b 0 n = Ok r -> 0 <= n <= zlen b.
Proof. unfold mem_read. destruct (_ && _) eqn:H; [|discriminate]. intros _. zify_tests. lia. Qed.

Lemma vec_data_ok i d len t t' : Cp.add_vec i d len t = Ok t' -> Cp.data_ok d len.
Proof.
  unfold Cp.add_vec. destruct d as [d|]; cbn.
  - intros H. apply bind_ok in H as (r & H%mem_read_inv & _). lia.
  - destruct (Z.eqb_spec len 0); [done|discriminate].
Qed.

(** A message or invitation that could be encoded had its data. *)
Definition is_message (cp : Cp.IOEXCP) : Prop :=
  match Cp.pkt cp with Cp.pkt_info _ | Cp.pkt_freq _ => False | _ => True end.

Lemma encoded_sendable cp t : Cp.well_typed cp -> is_message cp -> Cp.encode_table cp = Ok t -> Cp.sendable cp.
Proof.
  intros Ht Hm. destruct cp as [ty x p]. unfold Cp.well_typed, is_message, Cp.sendable in *. cbn in *.
  destruct p as [p|p|p|p|p]; try done; subst ty; unfold Cp.encode_table; cbn; intros H; apply bind_ok in H as (t0 & _ & H).
  - by apply vec_data_ok in H.
  - by apply vec_data_ok in H.
  - destruct (nonzero (Cp.status p)); [|by apply vec_data_ok in H].
    unfold Cp.add_str in H. destruct (Cp.reason p); [by eexists|discriminate].
Qed.

(** What is encoded can be decoded by the peer. *)
Lemma encode_carries cp w b w' : Cp.well_typed cp -> is_message cp -> encode cp w = Ok (Some b, w') -> carries b (Cp.wire cp).
Proof.
  intros Ht Hm He. unfold encode in He. apply bind_ok in He as ([r e] & He & H). cbn [fst snd] in H. injection H as -> <-.
  assert (Cp.sendable cp) as Hs.
  { unfold Cp.IOEXcp_encode in He. apply bind_ok in He as (t & Et & _). by eapply encoded_sendable. }
  destruct (Cp.encode_decodes cp (env w) Ht Hs) as (r' & e' & E1 & H). rewrite E1 in He. injection He as -> _. by apply H.
Qed.

Lemma memory_ask w : memory -> exists w', ask carrier_alloc w = (true, w') /\ unchanged w w'.
Proof.
  intros Hm. unfold ask. specialize (Hm (env w)). destruct (carrier_alloc (env w)) as [a e]. cbn in Hm. subst a.
  by exists (with_env e w).
Qed.

Lemma sender_ok line n w id : friend_of w n id -> sender line n w = Ok (Some id).
Proof.
  intros (Hn & Hl & fi & Hg & Hid). unfold sender, get_friend, friends_get. rewrite (proj2 (Z.eqb_neq n UINT32_MAX)) by done.
  cbn [negb c_assert]. bind_simpl. rewrite Hg. bind_simpl. rewrite Hid, strcpy_ok by lia. done.
Qed.

Lemma friend_unchanged w w' n id : unchanged w w' -> friend_of w n id -> friend_of w' n id.
Proof. intros [Hn _ _ _] (H1 & H2 & fi & Hg & Hid). split; [done|]. split; [done|]. exists fi. by rewrite Hn. Qed.

(** A message is handled by its type. *)
Lemma message_cases n b cp w : memory -> carries b cp -> exists w1, unchanged w w1 /\
  notify_friend_message_cb n b w =
    (if Cp.type cp =? Cp.IOEXCP_TYPE_MESSAGE then handle_friend_message n cp w1
     else if Cp.type cp =? Cp.IOEXCP_TYPE_INVITE_REQUEST then handle_invite_request n cp w1
     else if Cp.type cp =? Cp.IOEXCP_TYPE_INVITE_RESPONSE then handle_invite_response n cp w1
     else Ok w1).
Proof.
  intros Hm Hc. destruct (memory_ask w Hm) as (w1 & E1 & Hu). exists w1. split; [done|].
  unfold notify_friend_message_cb. rewrite E1, Hc. done.
Qed.

(** ** Messages *)

Lemma to_friend_inv to self unknown w k w' : to_friend to self unknown w k = Ok (0, w') ->
  exists uid x rc n, parse_address to = (uid, x) /\ get_friend_number uid w = Ok (rc, n) /\ 0 <= rc /\
    is_Some (table_get n (friends (node w))) /\ k x n = Ok (0, w').
Proof.
  unfold to_friend, general, refuse. intros H. destruct (parse_address to) as [uid x]. apply bind_ok in H as (b & _ & H).
  destruct (negb b); [discriminate|]. destruct (_ <? _); [discriminate|]. destruct (self && _); [discriminate|].
  destruct (negb _); [discriminate|]. apply bind_ok in H as ([rc n] & Hn & H). destruct (Z.ltb_spec rc 0); [discriminate|].
  apply bind_ok in H as (ex & He & H). destruct ex; [|discriminate]. exists uid, x, rc, n. split_and!; try done.
  unfold friends_exist in He. inv_bind. by apply bool_decide_eq_true in He.
Qed.

Lemma send_packet_inv n d w w' : send_packet n d w = Ok (0, w') ->
  node w' = node w /\ calls w' = calls w ++ [dht_message n d].
Proof.
  unfold send_packet. intros H. apply bind_ok in H as ([r e] & _ & H). destruct (r <? 0); [discriminate|]. by injection H as <-.
Qed.

Lemma message_sent to msg len w w' : IOEX_send_friend_message (Some to) (Some msg) len w = Ok (0, w') ->
  exists uid x n b, parse_address to = (uid, x) /\ node w' = node w /\ calls w' = calls w ++ [dht_message n b] /\
    carries b (Cp.mkCP Cp.IOEXCP_TYPE_MESSAGE x (Cp.pkt_fmsg (Cp.mkFriendMsg len (Some (ztake len msg))))).
Proof.
  unfold IOEX_send_friend_message. intros H. destruct (_ || _); [discriminate|].
  apply to_friend_inv in H as (uid & x & rc & n & Hp & _ & _ & _ & H).
  destruct (unchanged_ask carrier_alloc w) as (ok & w1 & E1 & [] & _). rewrite E1 in H.
  destruct ok; [|discriminate]. cbn in H. unfold Cp.IOEXcp_set_raw_data in H. cbn in H.
  destruct (0 <? len) eqn:El; [|discriminate]. cbn in H. zify_tests.
  apply bind_ok in H as ([d w2] & He & H). destruct d as [d|]; [|discriminate]. pose proof (unchanged_encode _ _ _ _ He) as [].
  apply send_packet_inv in H as [H1 H2]. exists uid, x, n, d. split_and!; try done; [congruence|congruence|].
  by eapply encode_carries in He.
Qed.

(** What the application gets to see of a message. *)
Definition if_set (cb : callback) (c : app_call) w : list app_call := if callbacks (node w) cb then [c] else [].

Lemma notify_calls cb c w : calls (notify cb c w) = calls w ++ if_set cb c w /\ node (notify cb c w) = node w.
Proof. unfold notify, if_set. destruct (callbacks _ _); cbn; [done|]. by rewrite app_nil_r. Qed.

Lemma message_received n b id x len d w : memory -> friend_of w n id ->
  carries b (Cp.mkCP Cp.IOEXCP_TYPE_MESSAGE x (Cp.pkt_fmsg (Cp.mkFriendMsg len d))) ->
  exists w', notify_friend_message_cb n b w = Ok w' /\ node w' = node w /\
    calls w' = calls w ++ match x with None => if_set CbFriendMessage (app_friend_message id d len) w | Some _ => [] end.
Proof.
  intros Hm Hf Hc. destruct (message_cases n b _ w Hm Hc) as (w1 & Hu & ->). cbn [Cp.type]. rewrite Z.eqb_refl.
  unfold handle_friend_message. rewrite (sender_ok _ n w1 id) by (by eapply friend_unchanged). cbn. destruct Hu.
  destruct x as [x|]; eexists; (split; [reflexivity|]).
  - by rewrite un_node0, un_calls0, app_nil_r.
  - destruct (notify_calls CbFriendMessage (app_friend_message id d len) w1) as [-> ->].
    unfold if_set. by rewrite un_node0, un_calls0.
Qed.

(** ** Invitations *)

Lemma generate_tid_spec w t w' : generate_tid 0 w = Ok (t, w') -> t <> 0 /\ unchanged w w'.
Proof.
  unfold generate_tid. destruct (unchanged_ask time w) as (a & w1 & -> & Hu1 & _).
  destruct (unchanged_ask rand w1) as (b & w2 & -> & Hu2 & _). destruct (Z.eqb_spec (a + b) 0); [discriminate|].
  intros [= <- <-]. split; [done|]. by eapply unchanged_trans.
Qed.

Lemma invite_sent to data len cb ctx w w' : IOEX_invite_friend (Some to) (Some data) len cb ctx w = Ok (0, w') ->
  exists uid x n t b, parse_address to = (uid, x) /\ cb <> 0 /\ t <> 0 /\ calls w' = calls w ++ [dht_message n b] /\
    node w' = set_tcallbacks (table_put t (mkTcb t cb ctx) (tcallbacks (node w))) (node w) /\
    carries b (Cp.mkCP Cp.IOEXCP_TYPE_INVITE_REQUEST x (Cp.pkt_ireq (Cp.mkInviteReq t len (Some (ztake len data))))).
Proof.
  unfold IOEX_invite_friend. destruct ((len =? 0) || _) eqn:Ea; [discriminate|]. apply orb_false_iff in Ea as [_ Ecb]. zify_tests. intros H.
  apply to_friend_inv in H as (uid & x & rc & n & Hp & _ & _ & _ & H).
  destruct (unchanged_ask carrier_alloc w) as (ok & w1 & E1 & Hu1 & _). rewrite E1 in H.
  destruct ok; [|discriminate]. cbn in H. apply bind_ok in H as ([t w2] & Ht & H). apply generate_tid_spec in Ht as [Ht Hu2].
  cbn in H. unfold Cp.IOEXcp_set_raw_data in H. cbn in H. destruct (0 <? len) eqn:El; [|discriminate]. cbn in H. zify_tests.
  apply bind_ok in H as ([d w3] & He & H). destruct d as [d|]; [|discriminate]. pose proof (unchanged_encode _ _ _ _ He) as Hu3.
  destruct (unchanged_ask carrier_alloc w3) as (ok & w4 & E4 & Hu4 & _). rewrite E4 in H. destruct ok; [|discriminate]. cbn [negb] in H.
  pose proof (unchanged_trans _ _ _ (unchanged_trans _ _ _ Hu1 Hu2) (unchanged_trans _ _ _ Hu3 Hu4)) as [].
  apply send_packet_inv in H as [H1 H2]. exists uid, x, n, t, d. split_and!; try done.
  - rewrite H2. cbn. by rewrite un_calls0.
  - rewrite H1. cbn. by rewrite un_node0.
  - by eapply encode_carries in He.
Qed.

(** The name under which an invitation is remembered. *)
Definition from_name (id : bytes) (x : c_str) : bytes := match x with Some x => id ++ [58] ++ x | None => id end.

(** What the application, or the sessions, get to see of an invitation. *)
Definition shown (x : c_str) (id : bytes) (d : c_str) (len : Z) w : list app_call :=
  match x with
  | Some x => if bool_decide (x = session_name) && session (node w) then [session_friend_invite id d len] else []
  | None => if_set CbFriendInvite (app_friend_invite id d len) w
  end.

Lemma invite_received n b id x t len d w : memory -> friend_of w n id -> t <> 0 -> zlen (from_name id x) + 3 < sizeof_key ->
  carries b (Cp.mkCP Cp.IOEXCP_TYPE_INVITE_REQUEST x (Cp.pkt_ireq (Cp.mkInviteReq t len d))) ->
  exists w', notify_friend_message_cb n b w = Ok w' /\ calls w' = calls w ++ shown x id d len w /\
    node w' = set_thistory (table_put ([105; 114; 95] ++ from_name id x) t (thistory (node w))) (node w).
Proof.
  intros Hm Hf Ht Hl Hc. destruct (message_cases n b _ w Hm Hc) as (w1 & Hu & ->). cbn [Cp.type].
  change (Cp.IOEXCP_TYPE_INVITE_REQUEST =? Cp.IOEXCP_TYPE_MESSAGE) with false. rewrite Z.eqb_refl.
  unfold handle_invite_request. rewrite (sender_ok _ n w1 id) by (by eapply friend_unchanged). cbn.
  change (match x with Some x0 => id ++ 58 :: x0 | None => id end) with (from_name id x).
  rewrite (strcpy_ok sizeof_key (from_name id x)) by lia. cbn. unfold tansaction_history_put_invite.
  rewrite nonzero_true by done. cbn [c_assert]. bind_simpl. destruct (memory_ask w1 Hm) as (w2 & -> & Hu2). cbn [negb].
  unfold history_key. rewrite strcpy_ok by (rewrite zlen_app; change (zlen [105; 114; 95]) with 3; lia). bind_simpl.
  destruct (unchanged_trans _ _ _ Hu Hu2). set (w3 := with_node _ w2).
  assert (node w3 = set_thistory (table_put ([105; 114; 95] ++ from_name id x) t (thistory (node w))) (node w)) as Hn
    by (unfold w3; cbn; by rewrite un_node0).
  assert (calls w3 = calls w) as Hc3 by (unfold w3; cbn; by rewrite un_calls0).
  clearbody w3.
  destruct x as [x|]; eexists; (split; [reflexivity|]); cbn [shown].
  - rewrite Hn. cbn [session set_thistory]. destruct (bool_decide _ && _); cbn; rewrite ?Hn, Hc3, ?app_nil_r; done.
  - rewrite (proj1 (notify_calls _ _ _)), (proj2 (notify_calls _ _ _)). rewrite Hc3.
    unfold if_set. by rewrite Hn.
Qed.

(** ** Responses

    A callback that waits for the response of a transaction; an invitation that can
    be answered. *)
Definition waits w (t cb ctx : Z) : Prop := transacted_callbacks_get t w = Some (mkTcb t cb ctx).
Definition waits_not w (t : Z) : Prop := transacted_callbacks_get t w = None.
Definition answerable w (from : bytes) (t : Z) : Prop := table_get ([105; 114; 95] ++ from) (thistory (node w)) = Some t.

Lemma history_key_inv from key : history_key from = Ok key -> key = [105; 114; 95] ++ from.
Proof. unfold history_key, strcpy. destruct (_ <? _); [congruence|discriminate]. Qed.

(** What a response carries: the reason of a refusal, or the data of an acceptance. *)
Definition response (t st : Z) (re da : c_str) (len : Z) : Cp.IOEXcp_packet_t :=
  Cp.pkt_irsp (if nonzero st then Cp.mkInviteRsp t st re 0 None else Cp.mkInviteRsp t st None len (ztake len <$> da)).

Lemma reply_packet t st re da len x cp : nonzero st || bool_decide (is_Some da) = true ->
  (if nonzero st then Cp.IOEXcp_set_reason re (Cp.mkCP Cp.IOEXCP_TYPE_INVITE_RESPONSE x (Cp.pkt_irsp (Cp.mkInviteRsp t st None 0 None)))
   else Cp.IOEXcp_set_raw_data da len (Cp.mkCP Cp.IOEXCP_TYPE_INVITE_RESPONSE x (Cp.pkt_irsp (Cp.mkInviteRsp t st None 0 None)))) = Ok cp ->
  Cp.well_typed cp /\ is_message cp /\ Cp.wire cp = Cp.mkCP Cp.IOEXCP_TYPE_INVITE_RESPONSE x (response t st re da len).
Proof.
  intros Hd H. unfold response, Cp.IOEXcp_set_reason, Cp.IOEXcp_set_raw_data in *. destruct (nonzero st) eqn:Es; cbn in H.
  - destruct re as [re|]; [|discriminate]. injection H as <-. unfold Cp.wire. cbn. by rewrite Es.
  - cbn in Hd. destruct da as [da|]; [|discriminate Hd]. cbn in H. destruct (0 <? len); [|discriminate]. injection H as <-.
    unfold Cp.wire. cbn. by rewrite Es.
Qed.

Lemma reply_sent to st re da len w w' : NoDup (thistory (node w)).*1 ->
  IOEX_reply_friend_invite (Some to) st re da len w = Ok (0, w') ->
  exists n t x b, answerable w to t /\ t <> 0 /\ calls w' = calls w ++ [dht_message n b] /\
    carries b (Cp.mkCP Cp.IOEXCP_TYPE_INVITE_RESPONSE x (response t st re da len)) /\
    (forall t', ~ answerable w' to t').
Proof.
  intros Hnd. unfold IOEX_reply_friend_invite. destruct (_ || _) eqn:Ea; [discriminate|].
  apply orb_false_iff in Ea as [_ Ed]. cbn [or_empty default]. intros H.
  apply to_friend_inv in H as (uid & x & rc & n & _ & _ & _ & _ & H).
  apply bind_ok in H as (t & Ht & H). unfold transaction_history_get_invite in Ht. apply bind_ok in Ht as (key & ->%history_key_inv & Ht).
  injection Ht as Ht. destruct (Z.eqb_spec t 0) as [|Hz]; [discriminate|].
  destruct (unchanged_ask carrier_alloc w) as (ok & w1 & E1 & Hu1 & _). rewrite E1 in H.
  destruct ok; [|discriminate]. cbn [Cp.IOEXcp_create] in H. cbn in H.
  apply bind_ok in H as (cp & Hcp & H). apply reply_packet in Hcp as (Hc1 & Hc2 & Hc3).
  2: { unfold nonzero. destruct (st =? 0); [|done]. destruct da; [done|discriminate Ed]. }
  apply bind_ok in H as ([d w2] & He & H). destruct d as [d|]; [|discriminate]. pose proof (unchanged_encode _ _ _ _ He) as Hu2.
  apply encode_carries in He; [|done..]. rewrite Hc3 in He.
  apply bind_ok in H as ([rc1 w3] & Hs & H). destruct (Z.ltb_spec rc1 0) as [|Hrc]; [injection H as -> ->; lia|].
  assert (rc1 = 0) as ->. { pose proof (packet_call_ok _ _ _ _ _ Hs) as [_ [[-> _]| ->]]; [lia|done]. }
  apply send_packet_inv in Hs as [Hn3 Hc4]. apply bind_ok in H as (w4 & Hr & H). injection H as <-.
  unfold transaction_history_remove_invite in Hr. apply bind_ok in Hr as (key & ->%history_key_inv & Hr). injection Hr as <-.
  destruct (unchanged_trans _ _ _ Hu1 Hu2) as [Hn2 _ Hc2' _]. exists n, t, x, d. split_and!; try done.
  - unfold answerable. destruct (table_get _ _) eqn:Eg in Ht; cbn in Ht; [by subst|congruence].
  - cbn. by rewrite Hc4, Hc2'.
  - intros t'. unfold answerable. cbn. rewrite Hn3, Hn2. by rewrite (table_get_remove ([105; 114; 95] ++ to)).
Qed.

Lemma response_received n b id t st re da len x cb ctx w : memory -> friend_of w n id ->
  waits w t cb ctx -> cb <> 0 -> NoDup (tcallbacks (node w)).*1 ->
  carries b (Cp.mkCP Cp.IOEXCP_TYPE_INVITE_RESPONSE x (response t st re da len)) ->
  exists w', notify_friend_message_cb n b w = Ok w' /\ waits_not w' t /\
    calls w' = calls w ++ [if nonzero st then app_invite_response cb ctx id st re None 0
                           else app_invite_response cb ctx id st None (ztake len <$> da) len].
Proof.
  intros Hm Hf Hw Hcb Hnd Hc. destruct (message_cases n b _ w Hm Hc) as (w1 & Hu & ->).
  cbn [Cp.type]. change (Cp.IOEXCP_TYPE_INVITE_RESPONSE =? Cp.IOEXCP_TYPE_MESSAGE) with false.
  change (Cp.IOEXCP_TYPE_INVITE_RESPONSE =? Cp.IOEXCP_TYPE_INVITE_REQUEST) with false. rewrite Z.eqb_refl.
  unfold handle_invite_response. rewrite (sender_ok _ n w1 id) by (by eapply friend_unchanged). bind_simpl.
  unfold Cp.IOEXcp_get_tid, response. cbn. destruct Hu.
  unfold waits, waits_not, transacted_callbacks_get in *. rewrite un_node0.
  destruct (nonzero st) eqn:Es; cbn; rewrite Hw; cbn; rewrite (nonzero_true cb), Es by done; cbn;
    (eexists; split; [reflexivity|]); cbn; rewrite un_node0, un_calls0; (split; [by apply table_get_remove|done]).
Qed.

(** A response nobody waits for is dropped. *)
Lemma response_dropped n b id t st re da len x w : memory -> friend_of w n id -> waits_not w t ->
  carries b (Cp.mkCP Cp.IOEXCP_TYPE_INVITE_RESPONSE x (response t st re da len)) ->
  exists w', notify_friend_message_cb n b w = Ok w' /\ node w' = node w /\ calls w' = calls w.
Proof.
  intros Hm Hf Hw Hc. destruct (message_cases n b _ w Hm Hc) as (w1 & Hu & ->).
  cbn [Cp.type]. change (Cp.IOEXCP_TYPE_INVITE_RESPONSE =? Cp.IOEXCP_TYPE_MESSAGE) with false.
  change (Cp.IOEXCP_TYPE_INVITE_RESPONSE =? Cp.IOEXCP_TYPE_INVITE_REQUEST) with false. rewrite Z.eqb_refl.
  unfold handle_invite_response. rewrite (sender_ok _ n w1 id) by (by eapply friend_unchanged). bind_simpl.
  unfold Cp.IOEXcp_get_tid, response. cbn. destruct Hu. unfold waits_not, transacted_callbacks_get in *. rewrite un_node0.
  destruct (nonzero st); cbn; rewrite Hw; by exists w1.
Qed.


(** A message reaches the friend: after a message has been sent one packet has left
    the node, and the friend that receives it has its callback called once, with the
    name it has for the sender and the bytes as they were sent; a message to an
    extension goes to no callback. *)
Theorem message_delivered to msg len a a1 : memory ->
  IOEX_send_friend_message (Some to) (Some msg) len a = Ok (0, a1) ->
  node a1 = node a /\ exists n m, calls a1 = calls a ++ [dht_message n m] /\
    forall b nA idA, friend_of b nA idA ->
      exists b1, notify_friend_message_cb nA m b = Ok b1 /\ node b1 = node b /\
        calls b1 = calls b ++ match snd (parse_address to) with
                              | None => if_set CbFriendMessage (app_friend_message idA (Some (ztake len msg)) len) b
                              | Some _ => []
                              end.
Proof.
  intros Hm (uid & x & n & m & Hp & Hn & Hc & Hb)%message_sent. split; [done|]. exists n, m. split; [done|].
  intros b nA idA Hf. rewrite Hp. by apply message_received.
Qed.

End Invite.

(** ** Runs *)

Section Demo.
Import CarrierDemo.
#[local] Existing Instance demo_laws.

Lemma demo_memory : @memory env demo_dht.
Proof. intros e. reflexivity. Qed.

Lemma demo_friend self k : k ∈ [3; 5] -> friend_of (demo self (Some k)) 7 (demo_name k).
Proof.
  intros Hk. split; [discriminate|]. split; [|by eexists].
  apply elem_of_cons in Hk as [ -> | ->%list_elem_of_singleton ]; vm_compute; discriminate.
Qed.

Lemma five_friend : friend_of (demo 3 (Some 5)) 7 (demo_name 5).
Proof. apply demo_friend. right. left. Qed.

(** The messages to friends among what has left a node. *)
Definition sent (l : list app_call) : list bytes := omap (fun c => match c with dht_message _ b => Some b | _ => None end) l.

(** 5 invites 3, 3 answers, and the answer arrives twice. *)
Definition invitation_run : outcome (@world env * @world env) :=
  r ← IOEX_invite_friend (Some (demo_name 3)) (Some [4; 6]) 2 77 78 (demo 5 (Some 3));
  let a := snd r in
  b ← foldl (fun m p => b ← m; notify_friend_message_cb 7 p b) (Ok (demo 3 (Some 5))) (sent (calls a));
  r ← IOEX_reply_friend_invite (Some (demo_name 5)) 0 None (Some [8; 9]) 2 b;
  let b := snd r in
  a ← foldl (fun m p => a ← m; notify_friend_message_cb 7 p a) (Ok a) (sent (calls b) ++ sent (calls b));
  Ok (a, b).

Example invitation_run_calls :
  result invitation_run (fun r => (drop 1 (calls (fst r)), take 1 (calls (snd r)))) =
  Some ([app_invite_response 77 78 (demo_name 3) 0 None (Some [8; 9]) 2], [app_friend_invite (demo_name 5) (Some [4; 6]) 2]).
Proof. vm_compute. reflexivity. Qed.

Example invite_run :
  result (IOEX_invite_friend (Some (demo_name 3)) (Some [4; 6]) 2 77 78 (demo 5 (Some 3))) fst = Some 0.
Proof. vm_compute. reflexivity. Qed.


Example message_run :
  result (IOEX_send_friend_message (Some (demo_name 3)) (Some [4; 6; 8]) 2 (demo 5 (Some 3))) fst = Some 0.
Proof. vm_compute. reflexivity. Qed.

Lemma message_delivered_witness :
  exists a1 n m, IOEX_send_friend_message (Some (demo_name 3)) (Some [4; 6; 8]) 2 (demo 5 (Some 3)) = Ok (0, a1) /\
    calls a1 = [dht_message n m] /\
    exists b1, notify_friend_message_cb 7 m (demo 3 (Some 5)) = Ok b1 /\
      calls b1 = [app_friend_message (demo_name 5) (Some [4; 6]) 2].
Proof.
  destruct (run_returns _ _ _ message_run) as ([rc a1] & Hr & Hrc). cbn in Hrc. subst rc.
  destruct (message_delivered _ _ _ _ a1 demo_memory Hr) as (_ & n & m & H1 & H2).
  exists a1, n, m. split; [exact Hr|]. split; [exact H1|].
  destruct (H2 (demo 3 (Some 5)) 7 (demo_name 5)) as (b1 & H3 & _ & H4); [exact five_friend|].
  exists b1. split; [exact H3|]. assert (snd (parse_address (demo_name 3)) = None) as Hx by (vm_compute; reflexivity).
  rewrite Hx in H4. exact H4.
Defined.

(** A friend whose description is not a packet: whether it changed is not known. *)
Example garbled_description : notify_friend_description_cb 7 [200] (demo 5 (Some 3)) = Undef.
Proof. vm_compute. reflexivity. Qed.

(** An invitation with the transaction 0 ends the process that receives it; one with
    a long extension leaves the array for the sender's name. *)
Definition invitation (t : Z) (x : option bytes) : bytes :=
  match Cp.IOEXcp_encode (Cp.mkCP Cp.IOEXCP_TYPE_INVITE_REQUEST x (Cp.pkt_ireq (Cp.mkInviteReq t 1 (Some [1])))) (mkEnv true true) with
  | Ok (Some b, _) => b
  | _ => []
  end.

Example invitation_zero : notify_friend_message_cb 7 (invitation 0 None) (demo 5 (Some 3)) = AssertFail 70.
Proof. vm_compute. reflexivity. Qed.

Example invitation_long : notify_friend_message_cb 7 (invitation 9 (Some (replicate 40 97))) (demo 5 (Some 3)) = Undef.
Proof. vm_compute. reflexivity. Qed.

(** A status that does not exist costs a reference. *)
Example status_leaks : result (notify_friend_status_cb 7 3 (demo 5 (Some 3))) owed = Some 1.
Proof. vm_compute. reflexivity. Qed.

End Demo.

End CarrierInvite.
