(* ===== verification/CarrierFiles.v ===== *)
(** * The carrier node: files

    The part of src/src/carrier/IOEX_carrier.c that sends files to friends and receives
    them: the files under way, what the DHT reports of them, and the calls of the
    application. *)

From Stdlib Require Import ZArith Lia.
From stdpp Require Import prelude gmap list.
From S2P Require Import Prelude Base58 Crypto Mux CStr Tables Node Persist Cp Carrier CarrierCalls.

Module CarrierFiles.
Import CStr Tables Node Carrier CarrierCalls.

Definition IOEX_MAX_FILE_NAME_LEN : Z := 511.
Definition IOEX_MAX_FILE_PATH_LEN : Z := 511.
Definition IOEX_MAX_FULL_PATH_LEN : Z := IOEX_MAX_FILE_NAME_LEN + IOEX_MAX_FILE_PATH_LEN + 1.
Definition IOEXERR_FILE_DENY : Z := 0x26.
Definition IOEXERR_FILE_INVALID : Z := 0x27.
Definition IOEXERR_FILE_TRACKER_INVALID : Z := 0x29.
Definition IOEXSUCCESS : Z := 0.

(** The arrays of the struct, with what is in them. *)
Record IOEXFileInfo := mkFile { file_name : bytes; file_path : bytes; friend_number_ : Z; file_index : Z }.

#[export] Instance file_info_eq : EqDecision IOEXFileInfo.
Proof. solve_decision. Defined.

(** The functions of [IOEXCallbacks] for files. *)
Inductive file_callback :=
  CbFileRequest | CbFileAccepted | CbFileRejected | CbFilePaused | CbFileResumed | CbFileCanceled
| CbFileChunkSend | CbFileChunkSendError | CbFileChunkReceive.

(** What leaves the node: chunks that the DHT has taken, and calls of the application's
    functions. A path is missing where the array for it has not been written. *)
Inductive file_call :=
| dht_chunk (n i position : Z) (data : bytes)
| app_file_request (id : bytes) (i : Z) (filename : bytes) (size : Z)
| app_file_event (cb : file_callback) (id : bytes) (i : Z)
| app_chunk_send (id : bytes) (i : Z) (path : c_str) (position length : Z)
| app_chunk_send_error (err : Z) (id : bytes) (i : Z) (path : c_str) (position length : Z)
| app_chunk_receive (id : bytes) (i : Z) (path : c_str) (position length : Z).

Inductive file_op := OpenRead | OpenAppend | Unlink.
Inductive file_control := Seek (position : Z) | Accept | Reject | Pause | Resume | Cancel.

(** The files of the system, which a process may be refused, and the DHT, which asks
    for the size of a file that it can open. *)
Class FileSystem (E : Type) := {
  file_allowed : file_op -> bytes -> E -> bool * E;
  dht_file_send_request : Z -> bytes -> option Z -> E -> outcome (Z * Z * E);
  dht_file_control : file_control -> Z -> Z -> E -> Z * E;
  dht_file_send_chunk : Z -> Z -> Z -> bytes -> E -> Z * E;
}.

Section Files.
Context {E : Type} {DH : Dht E} {SY : Persist.System E} {NC : Crypto.Nacl} {FB : Cp.FlatBuffers E} {FS : FileSystem E}.

(** The node with its lists of files under way; what the files of the system hold. *)
Record fworld := mkFW {
  base : @Carrier.world E;
  file_callbacks : file_callback -> bool;
  file_senders : list IOEXFileInfo;
  file_receivers : list IOEXFileInfo;
  user_files : gmap bytes bytes;
  file_calls : list file_call }.
Implicit Types w : fworld.

Definition on_base (f : @Carrier.world E -> @Carrier.world E) w : fworld :=
  mkFW (f (base w)) (file_callbacks w) (file_senders w) (file_receivers w) (user_files w) (file_calls w).
Definition with_senders (l : list IOEXFileInfo) w : fworld :=
  mkFW (base w) (file_callbacks w) l (file_receivers w) (user_files w) (file_calls w).
Definition with_receivers (l : list IOEXFileInfo) w : fworld :=
  mkFW (base w) (file_callbacks w) (file_senders w) l (user_files w) (file_calls w).
Definition with_files (f : gmap bytes bytes) w : fworld :=
  mkFW (base w) (file_callbacks w) (file_senders w) (file_receivers w) f (file_calls w).
Definition tell_file (c : file_call) w : fworld :=
  mkFW (base w) (file_callbacks w) (file_senders w) (file_receivers w) (user_files w) (file_calls w ++ [c]).

Definition fask {A} (f : E -> A * E) w : A * fworld :=
  let '(a, b) := ask f (base w) in (a, on_base (fun _ => b) w).
Definition ferror (err : Z) w : fworld := on_base (IOEX_set_error err) w.
Definition notify_file (cb : file_callback) (c : file_call) w : fworld :=
  if file_callbacks w cb then tell_file c w else w.

(** References that are taken and not given back are counted with the others. *)
Definition keep (n : Z) w : fworld := on_base (with_owed n) w.

(** A reference to a friend; no report about files gives it back. *)
Definition fget_friend (n : Z) w : outcome (option FriendInfo * fworld) :=
  r ← get_friend n (base w); Ok (fst r, on_base (fun _ => snd r) w).

(** ** The files under way *)

(** [None] when a pointer is null. *)
Definition get_fullpath (ft : option IOEXFileInfo) : outcome c_str :=
  match ft with
  | None => Ok None
  | Some info =>
      name ← Persist.string_at (file_name info);
      path ← Persist.string_at (file_path info);
      Ok (Some (snprintf IOEX_MAX_FULL_PATH_LEN
        (if zlen path =? 0 then name
         else if bool_decide (last path = Some 47) then path ++ name
         else path ++ 47 :: name)))
  end.

Definition is_sender (i : Z) : bool := i <? 65536.

Definition is_tracker (n i : Z) (ft : IOEXFileInfo) : bool := (friend_number_ ft =? n) && (file_index ft =? i).

(** The loop over the list: the file, and the references that the iterator has taken. *)
Fixpoint find_loop (l : list IOEXFileInfo) (n i : Z) (refs : Z) : option IOEXFileInfo * Z :=
  match l with
  | [] => (None, refs)
  | ft :: l => if is_tracker n i ft then (Some ft, refs + 1) else find_loop l n i (refs + 1)
  end.

Definition _find_file_tracker (l : list IOEXFileInfo) (n i : Z) w : option IOEXFileInfo * fworld :=
  let '(ft, refs) := find_loop l n i 0 in (ft, keep refs w).
Definition find_file_sender (n i : Z) w : option IOEXFileInfo * fworld := _find_file_tracker (file_senders w) n i w.
Definition find_file_receiver (n i : Z) w : option IOEXFileInfo * fworld := _find_file_tracker (file_receivers w) n i w.

(** Fresh arrays; what is not written is not read. *)
Definition fresh : bytes := replicate 512 0.

(** The name and the directory of a path, in the arrays. *)
Definition split_path (fullpath : bytes) : outcome (bytes * bytes) :=
  match strrchr 47 fullpath with
  | None =>
      name ← strncpy fresh (zlen fresh) fullpath;
      path ← strncpy fresh (zlen fresh) [];
      Ok (name, path)
  | Some k =>
      name ← strncpy fresh (zlen fresh) (drop (S k) fullpath);
      path ← strncpy fresh (Z.of_nat k + 1) fullpath;
      path ← mem_write path (Z.of_nat k) [0];
      Ok (name, path)
  end.

Definition add_new_file_sender (n i : Z) (fullpath : c_str) w : outcome (Z * fworld) :=
  let '(ok, w) := fask carrier_alloc w in
  if negb ok then Ok (IOEX_GENERAL_ERROR IOEXERR_OUT_OF_MEMORY, w)
  else
    match fullpath with
    | None => Ok (IOEX_GENERAL_ERROR IOEXERR_INVALID_ARGS, w)
    | Some fullpath =>
        r ← split_path fullpath;
        Ok (IOEXSUCCESS, with_senders (file_senders w ++ [mkFile (fst r) (snd r) n i]) w)
    end.

Definition tmp_path : bytes := [47; 116; 109; 112; 47].

Definition add_new_file_receiver (n i : Z) (filename : c_str) w : outcome (Z * fworld) :=
  let '(ok, w) := fask carrier_alloc w in
  if negb ok then Ok (IOEX_GENERAL_ERROR IOEXERR_OUT_OF_MEMORY, w)
  else
    match filename with
    | None => Ok (IOEX_GENERAL_ERROR IOEXERR_INVALID_ARGS, w)
    | Some filename =>
        name ← strncpy fresh (zlen fresh) filename;
        path ← strncpy fresh (zlen fresh) tmp_path;
        Ok (IOEXSUCCESS, with_receivers (file_receivers w ++ [mkFile name path n i]) w)
    end.

(** The entry of the tracker that a search has found leaves the list. *)
Fixpoint remove_tracker (l : list IOEXFileInfo) (n i : Z) : list IOEXFileInfo :=
  match l with [] => [] | ft :: l => if is_tracker n i ft then l else ft :: remove_tracker l n i end.

(** The list is asked to remove the entry of the tracker, which may be null; the
    reference of the list is given back. *)
Definition remove_file_sender (ft : option IOEXFileInfo) w : outcome fworld :=
  match ft with
  | None => AssertFail 171
  | Some ft => Ok (with_senders (remove_tracker (file_senders w) (friend_number_ ft) (file_index ft)) w)
  end.
Definition remove_file_receiver (ft : option IOEXFileInfo) w : outcome fworld :=
  match ft with
  | None => AssertFail 171
  | Some ft => Ok (with_receivers (remove_tracker (file_receivers w) (friend_number_ ft) (file_index ft)) w)
  end.

(** The name and the path of the first tracker change in place. *)
Fixpoint update_tracker (l : list IOEXFileInfo) (n i : Z) (name path : bytes) : list IOEXFileInfo :=
  match l with
  | [] => []
  | ft :: l =>
      if is_tracker n i ft then mkFile name path (friend_number_ ft) (file_index ft) :: l
      else ft :: update_tracker l n i name path
  end.

Definition update_file_receiver_path (ft : option IOEXFileInfo) (filename filepath : bytes) w : outcome (Z * fworld) :=
  match ft with
  | None => Ok (IOEX_GENERAL_ERROR IOEXERR_FILE_TRACKER_INVALID, w)
  | Some info =>
      name ← strncpy (file_name info) IOEX_MAX_FILE_NAME_LEN filename;
      path ← strncpy (file_path info) IOEX_MAX_FILE_PATH_LEN filepath;
      Ok (IOEXSUCCESS, with_receivers (update_tracker (file_receivers w) (friend_number_ info) (file_index info) name path) w)
  end.

(** ** Files of the system *)

(** [fopen] to read gives the content, to append a file. *)
Definition fopen_read (path : bytes) w : c_str * fworld :=
  let '(ok, w) := fask (file_allowed OpenRead path) w in
  (if ok then user_files w !! path else None, w).
Definition fopen_append (path : bytes) w : bool * fworld :=
  let '(ok, w) := fask (file_allowed OpenAppend path) w in
  (ok, if ok then with_files (<[path := default [] (user_files w !! path)]> (user_files w)) w else w).

(** Whatever the position, a write to a file opened to append goes to its end. *)
Definition fwrite_append (path data : bytes) w : fworld :=
  with_files (<[path := default [] (user_files w !! path) ++ data]> (user_files w)) w.

Definition unlink (path : bytes) w : fworld :=
  let '(ok, w) := fask (file_allowed Unlink path) w in
  if ok then with_files (delete path (user_files w)) w else w.

(** [fread] of [length] bytes at [position] into the array of 4096; a position that is
    negative as an offset leaves the file at its start. *)
Definition read_chunk (content : bytes) (position length : Z) : outcome bytes :=
  let data := ztake length (zdrop (if position <? 2 ^ 63 then position else 0) content) in
  if zlen data <=? 4096 then Ok data else Undef.

Definition is_file_exist (path : bytes) w : bool * fworld := let '(c, w) := fopen_read path w in (bool_decide (is_Some c), w).
Definition is_file_writable (path : bytes) w : bool * fworld := fopen_append path w.

(** ** Reports *)

Definition file_report_unknown w : outcome fworld := Ok (ferror (IOEX_GENERAL_ERROR IOEXERR_NOT_EXIST) w).
Definition file_tracker_invalid w : outcome fworld := Ok (ferror (IOEX_GENERAL_ERROR IOEXERR_FILE_TRACKER_INVALID) w).

(** A report about a file: the friend must be known. *)
Definition file_report (line n : Z) (unknown : fworld -> outcome fworld) (k : bytes -> fworld -> outcome fworld) w : outcome fworld :=
  _ ← c_assert line (negb (n =? UINT32_MAX));
  r ← fget_friend n w;
  match r with
  | (None, w) => unknown w
  | (Some fi, w) => k (userid (user_info (info fi))) w
  end.

Definition notify_file_request_cb (n i : Z) (filename : bytes) (filesize : Z) w : outcome fworld :=
  file_report 1831 n file_report_unknown (fun id w =>
    r ← add_new_file_receiver n i (Some filename) w;
    let '(rc, w) := r in
    if rc <? 0 then Ok (ferror rc w)
    else Ok (notify_file CbFileRequest (app_file_request id i filename filesize) w)) w.

Definition notify_file_accepted_cb (n i : Z) w : outcome fworld :=
  file_report 1860 n file_report_unknown (fun id w =>
    match find_file_sender n i w with
    | (None, w) => file_tracker_invalid w
    | (Some _, w) => Ok (notify_file CbFileAccepted (app_file_event CbFileAccepted id i) w)
    end) w.

Definition notify_file_rejected_cb (n i : Z) w : outcome fworld :=
  file_report 1887 n file_report_unknown (fun id w =>
    match find_file_sender n i w with
    | (None, w) => file_tracker_invalid w
    | (Some ft, w) =>
        w ← remove_file_sender (Some ft) w;
        Ok (notify_file CbFileRejected (app_file_event CbFileRejected id i) w)
    end) w.

Definition find_tracker (n i : Z) w : option IOEXFileInfo * fworld :=
  if is_sender i then find_file_sender n i w else find_file_receiver n i w.

Definition paused_or_resumed (line : Z) (cb : file_callback) (n i : Z) w : outcome fworld :=
  file_report line n file_report_unknown (fun id w =>
    match find_tracker n i w with
    | (None, w) => file_tracker_invalid w
    | (Some _, w) => Ok (notify_file cb (app_file_event cb id i) w)
    end) w.
Definition notify_file_paused_cb : Z -> Z -> fworld -> outcome fworld := paused_or_resumed 1916 CbFilePaused.
Definition notify_file_resumed_cb : Z -> Z -> fworld -> outcome fworld := paused_or_resumed 1950 CbFileResumed.

(** The file leaves its list, and what has been received of it the system. *)
Definition cancel_tracker (n i : Z) w : outcome fworld :=
  if is_sender i then
    let '(ft, w) := find_file_sender n i w in remove_file_sender ft w
  else
    let '(ft, w) := find_file_receiver n i w in
    path ← get_fullpath ft;
    remove_file_receiver ft (match path with Some p => unlink p w | None => w end).

Definition notify_file_canceled_cb (n i : Z) w : outcome fworld :=
  file_report 1985 n file_report_unknown (fun id w =>
    w ← cancel_tracker n i w;
    Ok (notify_file CbFileCanceled (app_file_event CbFileCanceled id i) w)) w.

(** A friend asks for the bytes at [position]; with the length 0 it has all. *)
Definition notify_file_chunk_request_cb (n i position length : Z) w : outcome fworld :=
  file_report 2022 n Ok (fun id w =>
    tmpid ← strcpy (IOEX_MAX_ID_LEN + 1) id;
    let '(sender, w) := find_file_sender n i w in
    r ← (match sender with
         | None => Ok (None, None, w)
         | Some ft =>
             if length =? 0 then w ← remove_file_sender sender w; Ok (None, None, w)
             else
               path ← get_fullpath sender;
               match path with
               | Some p => let '(fp, w) := fopen_read p w in Ok (Some p, fp, w)
               | None => Ok (None, None, w)
               end
         end);
    let '(fullpath, fp, w) := r in
    if 0 <? length then
      match fp with
      | Some content =>
          data ← read_chunk content position length;
          let '(rc, w) := fask (dht_file_send_chunk n i position data) w in
          let w := if rc <? 0 then w else tell_file (dht_chunk n i position data) w in
          Ok (if (rc <? 0) && file_callbacks w CbFileChunkSendError
              then tell_file (app_chunk_send_error rc tmpid i fullpath position length) w
              else notify_file CbFileChunkSend (app_chunk_send tmpid i fullpath position length) w)
      | None =>
          Ok (notify_file CbFileChunkSendError
            (app_chunk_send_error (IOEX_GENERAL_ERROR IOEXERR_FILE_INVALID) tmpid i fullpath position length) w)
      end
    else Ok w) w.

(** The bytes at [position] have come; no bytes say that these were all. *)
Definition notify_file_chunk_receive_cb (n i position : Z) (data : bytes) w : outcome fworld :=
  file_report 2078 n Ok (fun id w =>
    tmpid ← strcpy (IOEX_MAX_ID_LEN + 1) id;
    let '(receiver, w) := find_file_receiver n i w in
    r ← (match receiver with
         | None => Ok (None, w)
         | Some ft =>
             if zlen data =? 0 then w ← remove_file_receiver receiver w; Ok (None, w)
             else
               path ← get_fullpath receiver;
               match path with
               | Some p => let '(ok, w) := fopen_append p w in Ok (Some p, if (ok : bool) then fwrite_append p data w else w)
               | None => Ok (None, w)
               end
         end);
    let '(fullpath, w) := r in
    Ok (notify_file CbFileChunkReceive (app_chunk_receive tmpid i fullpath position (zlen data)) w)) w.

(** ** Calls *)

Definition frefuse (code : Z) w : outcome (Z * fworld) := Ok (-1, ferror code w).
Definition fgeneral (code : Z) w : outcome (Z * fworld) := frefuse (IOEX_GENERAL_ERROR code) w.

(** The checks of the calls about a file of a friend. *)
Definition file_call_to (friendid : c_str) w (k : Z -> fworld -> outcome (Z * fworld)) : outcome (Z * fworld) :=
  match friendid with
  | None => fgeneral IOEXERR_INVALID_ARGS w
  | Some id =>
      ok ← is_valid_key id;
      if negb ok then fgeneral IOEXERR_INVALID_ARGS w
      else if negb (is_ready (node (base w))) then fgeneral IOEXERR_NOT_READY w
      else
        r ← get_friend_number id (base w);
        let '(rc, n) := r in
        if rc <? 0 then frefuse rc w else k n w
  end.

(** The DHT tells the friend. *)
Definition send_control (c : file_control) (n i : Z) w : outcome (Z * fworld) :=
  let '(rc, w) := fask (dht_file_control c n i) w in
  if rc <? 0 then frefuse rc w else Ok (0, w).

(** The calls of the iteration; [more] is whether the callback asks for more. The last
    call has no file. *)
Fixpoint files_loop (more : Z -> option IOEXFileInfo -> bool) (dir : Z) (l : list IOEXFileInfo) : list (Z * option IOEXFileInfo) * bool :=
  match l with
  | [] => ([], true)
  | ft :: l =>
      if more dir (Some ft) then let '(c, b) := files_loop more dir l in ((dir, Some ft) :: c, b)
      else ([(dir, Some ft)], false)
  end.
Definition IOEX_get_files (more : Z -> option IOEXFileInfo -> bool) w : Z * list (Z * option IOEXFileInfo) :=
  let '(c1, b1) := files_loop more 0 (file_senders w) in
  if negb b1 then (0, c1)
  else
    let '(c2, b2) := files_loop more 1 (file_receivers w) in
    if negb b2 then (0, c1 ++ c2) else (0, c1 ++ c2 ++ [(0, None)]).

Definition IOEX_send_file_request (friendid fullpath : c_str) w : outcome (Z * fworld) :=
  match fullpath with
  | None => fgeneral IOEXERR_INVALID_ARGS w
  | Some path =>
      file_call_to friendid w (fun n w =>
        let '(file, w) := fopen_read path w in
        r ← dht_file_send_request n path (zlen <$> file) (env (base w));
        let '(rc, i, e) := r in
        let w := on_base (with_env e) w in
        if (rc <? 0) || (i =? UINT32_MAX) then frefuse rc w
        else
          r ← add_new_file_sender n i fullpath w;
          let '(rc, w) := r in
          if rc <? 0 then frefuse rc w else Ok (0, w))
  end.

Definition file_number_of (fileindex : bytes) : Z := u32 (strtoul fileindex).

Definition IOEX_send_file_seek (friendid fileindex position : c_str) w : outcome (Z * fworld) :=
  match fileindex, position with
  | Some fileindex, Some position =>
      file_call_to friendid w (fun n w =>
        let i := file_number_of fileindex in
        match find_file_receiver n i w with
        | (None, w) => fgeneral IOEXERR_FILE_INVALID w
        | (Some _, w) => send_control (Seek (strtoul position)) n i w
        end)
  | _, _ => fgeneral IOEXERR_INVALID_ARGS w
  end.

Definition IOEX_send_file_accept (friendid fileindex filename filepath : c_str) w : outcome (Z * fworld) :=
  match fileindex, filename, filepath with
  | Some fileindex, Some filename, Some filepath =>
      file_call_to friendid w (fun n w =>
        fullpath ← (match last filepath with
                    | None => Undef
                    | Some c => Ok (snprintf (IOEX_MAX_FULL_PATH_LEN + 1)
                        (if c =? 47 then filepath ++ filename else filepath ++ 47 :: filename))
                    end);
        let '(ok, w) := is_file_writable fullpath w in
        if negb ok then fgeneral IOEXERR_FILE_DENY w
        else
          let i := file_number_of fileindex in
          match find_file_receiver n i w with
          | (None, w) => fgeneral IOEXERR_FILE_TRACKER_INVALID w
          | (receiver, w) =>
              r ← update_file_receiver_path receiver filename filepath w;
              let '(rc, w) := r in
              if rc <? 0 then frefuse rc w else send_control Accept n i w
          end)
  | _, _, _ => fgeneral IOEXERR_INVALID_ARGS w
  end.

Definition IOEX_send_file_reject (friendid fileindex : c_str) w : outcome (Z * fworld) :=
  match fileindex with
  | None => fgeneral IOEXERR_INVALID_ARGS w
  | Some fileindex =>
      file_call_to friendid w (fun n w =>
        let i := file_number_of fileindex in
        match find_file_receiver n i w with
        | (None, w) => fgeneral IOEXERR_FILE_TRACKER_INVALID w
        | (receiver, w) => w ← remove_file_receiver receiver w; send_control Reject n i w
        end)
  end.

Definition pause_or_resume (c : file_control) (friendid fileindex : c_str) w : outcome (Z * fworld) :=
  match fileindex with
  | None => fgeneral IOEXERR_INVALID_ARGS w
  | Some fileindex =>
      file_call_to friendid w (fun n w =>
        let i := file_number_of fileindex in
        match find_tracker n i w with
        | (None, w) => fgeneral IOEXERR_FILE_TRACKER_INVALID w
        | (Some _, w) => send_control c n i w
        end)
  end.
Definition IOEX_send_file_pause : c_str -> c_str -> fworld -> outcome (Z * fworld) := pause_or_resume Pause.
Definition IOEX_send_file_resume : c_str -> c_str -> fworld -> outcome (Z * fworld) := pause_or_resume Resume.

Definition IOEX_send_file_cancel (friendid fileindex : c_str) w : outcome (Z * fworld) :=
  match fileindex with
  | None => fgeneral IOEXERR_INVALID_ARGS w
  | Some fileindex =>
      file_call_to friendid w (fun n w =>
        let i := file_number_of fileindex in
        w ← cancel_tracker n i w;
        send_control Cancel n i w)
  end.

End Files.

End CarrierFiles.
