(* ===== verification/CarrierFilesThm.v ===== *)
(** * The carrier node: files, theorems

    A file that is sent arrives, chunk by chunk; and what a friend can make a node do
    with the reports about files. *)

From Stdlib Require Import ZArith Lia.
From stdpp Require Import prelude gmap list.
From S2P Require Import Prelude Base58 Crypto Mux CStr Tables Node Persist PersistThm Cp Carrier CarrierCalls CarrierDemo CarrierThm CarrierInvite CarrierFiles.

Module CarrierFilesThm.
Import CStr Tables Node Carrier CarrierCalls CarrierFiles.

Section Files.
Context {E : Type} {DH : Dht E} {SY : Persist.System E} {NC : Crypto.Nacl} {FB : Cp.FlatBuffers E} {FS : FileSystem E}.
Notation fworld := (@fworld E).
Implicit Types w a b : fworld.

(** What most steps leave as it is: all but the environment and the references. *)
Record same_files w w' : Prop := {
  sf_node : node (base w') = node (base w);
  sf_callbacks : file_callbacks w' = file_callbacks w;
  sf_senders : file_senders w' = file_senders w;
  sf_receivers : file_receivers w' = file_receivers w;
  sf_files : user_files w' = user_files w;
  sf_calls : file_calls w' = file_calls w;
}.

Lemma fask_cases {A} (f : E -> A * E) w : exists x w', fask f w = (x, w') /\ same_files w w' /\ exists e, x = fst (f e).
Proof.
  unfold fask, ask. destruct (f (env (base w))) as [x e] eqn:Ef. eexists x, _. split; [reflexivity|]. split; [done|].
  exists (env (base w)). by rewrite Ef.
Qed.

Lemma get_known n w id : CarrierInvite.friend_of (base w) n id ->
  exists fi w', fget_friend n w = Ok (Some fi, w') /\ userid (user_info (info fi)) = id /\ same_files w w'.
Proof.
  intros (Hn & _ & fi & Hg & Hid). unfold fget_friend, get_friend, friends_get. rewrite (proj2 (Z.eqb_neq n UINT32_MAX)) by done.
  cbn [negb c_assert]. bind_simpl. rewrite Hg. bind_simpl. eexists fi, _. by split_and!.
Qed.

(** A report about a friend that is known does what it is for. *)
Lemma report_known line n id w unknown k : CarrierInvite.friend_of (base w) n id ->
  exists w', same_files w w' /\ file_report line n unknown k w = k id w'.
Proof.
  intros Hf. destruct (get_known n w id Hf) as (fi & w' & Hg & <- & Hs). exists w'. split; [done|].
  unfold file_report. rewrite (proj2 (Z.eqb_neq n UINT32_MAX)) by apply Hf. cbn [negb c_assert]. bind_simpl. rewrite Hg. done.
Qed.

Lemma same_known n id w w' : same_files w w' -> CarrierInvite.friend_of (base w) n id -> CarrierInvite.friend_of (base w') n id.
Proof. intros [Hn _ _ _ _ _] (H1 & H2 & fi & H3 & H4). split_and!; [done|done|]. exists fi. by rewrite Hn. Qed.

Lemma same_files_trans w1 w2 w3 : same_files w1 w2 -> same_files w2 w3 -> same_files w1 w3.
Proof. intros [] []. split; congruence. Qed.

(** ** The lists *)

Definition found (l : list IOEXFileInfo) (n i : Z) : option IOEXFileInfo := fst (find_loop l n i 0).

Lemma find_loop_refs l n i r r' : fst (find_loop l n i r) = fst (find_loop l n i r').
Proof. revert r r'. induction l as [|ft l IH]; intros r r'; cbn; [done|]. destruct (is_tracker n i ft); [done|apply IH]. Qed.

Lemma find_cases l n i w : exists w', _find_file_tracker l n i w = (found l n i, w') /\ same_files w w'.
Proof. unfold _find_file_tracker, found. destruct (find_loop l n i 0) as [ft r]. by exists (keep r w). Qed.

Lemma found_app l n i ft : found l n i = None -> is_tracker n i ft = true -> found (l ++ [ft]) n i = Some ft.
Proof.
  unfold found. generalize 0. induction l as [|x l IH]; intros r; cbn; [by intros _ ->|].
  destruct (is_tracker n i x); [done|apply IH].
Qed.

Lemma found_is l n i ft : found l n i = Some ft -> friend_number_ ft = n /\ file_index ft = i.
Proof.
  unfold found. generalize 0. induction l as [|x l IH]; intros r; cbn; [done|].
  destruct (is_tracker n i x) eqn:Hx; [|apply IH]. intros [= ->]. unfold is_tracker in Hx. zify_tests. done.
Qed.

(** ** Strings in arrays *)

Lemma array_string n s : nul_free s -> zlen s < n -> exists r, strncpy (replicate (Z.to_nat n) 0) n s = Ok (s ++ 0 :: r).
Proof.
  intros Hs Hl. unfold strncpy. assert (0 <= zlen s) by apply zlen_nonneg.
  assert (zlen (replicate (Z.to_nat n) 0) = n) as En by (unfold zlen; rewrite length_replicate; lia).
  rewrite En, Z.leb_refl. destruct (Z.to_nat n) as [|k] eqn:Ek; [lia|]. cbn [replicate].
  unfold ztake, zlen in *. rewrite take_app_ge by lia.
  destruct (Z.to_nat n - length s)%nat as [|j] eqn:Ej; [lia|]. cbn [take].
  eexists. rewrite <- app_assoc. reflexivity.
Qed.

Lemma string_at_array s r : nul_free s -> Persist.string_at (s ++ 0 :: r) = Ok s.
Proof. apply PersistThm.string_at_spec. Qed.

Lemma fresh_string s : nul_free s -> zlen s < 512 -> exists r, strncpy fresh (zlen fresh) s = Ok (s ++ 0 :: r).
Proof. intros Hs Hl. exact (array_string 512 s Hs Hl). Qed.

(** The path of a file that a friend offers. *)
Lemma offered_path s n i r r' : nul_free s -> zlen s < 512 ->
  get_fullpath (Some (mkFile (s ++ 0 :: r) (tmp_path ++ 0 :: r') n i)) = Ok (Some (tmp_path ++ s)).
Proof.
  intros Hs Hl. unfold get_fullpath. cbn [file_name file_path]. rewrite !string_at_array by (done || by repeat constructor).
  bind_simpl. change (zlen tmp_path =? 0) with false. change (bool_decide (last tmp_path = Some 47)) with true. cbn iota.
  unfold snprintf. rewrite ztake_all; [done|]. rewrite zlen_app. change (zlen tmp_path) with 5.
  unfold IOEX_MAX_FULL_PATH_LEN, IOEX_MAX_FILE_NAME_LEN, IOEX_MAX_FILE_PATH_LEN. lia.
Qed.

(** ** What a friend can do *)

(** The process may do with files what it wants. *)
Definition allowed (op : file_op) : Prop := forall p e, fst (file_allowed op p e) = true.

Lemma unlink_cases p w : allowed Unlink -> exists w', unlink p w = w' /\ node (base w') = node (base w) /\
  file_receivers w' = file_receivers w /\ user_files w' = delete p (user_files w).
Proof.
  intros Ha. unfold unlink. destruct (fask_cases (file_allowed Unlink p) w) as (ok & w1 & -> & [] & e & ->). rewrite Ha.
  eexists. split; [reflexivity|]. cbn. by rewrite sf_node0, sf_receivers0, sf_files0.
Qed.

Lemma notify_file_same cb c w : same_files w (notify_file cb c w) \/ notify_file cb c w = tell_file c w.
Proof. unfold notify_file. destruct (file_callbacks w cb); [by right|by left]. Qed.

Lemma notify_file_files cb c w : node (base (notify_file cb c w)) = node (base w) /\ file_senders (notify_file cb c w) = file_senders w /\
  file_receivers (notify_file cb c w) = file_receivers w /\ user_files (notify_file cb c w) = user_files w.
Proof. unfold notify_file. by destruct (file_callbacks w cb). Qed.

Lemma request_offered n id i s size w : CarrierInvite.memory (E:=E) -> CarrierInvite.friend_of (base w) n id -> nul_free s -> zlen s < 512 ->
  exists w' ft, notify_file_request_cb n i s size w = Ok w' /\ node (base w') = node (base w) /\ user_files w' = user_files w /\
    file_receivers w' = file_receivers w ++ [ft] /\ is_tracker n i ft = true /\ get_fullpath (Some ft) = Ok (Some (tmp_path ++ s)).
Proof.
  intros Hm Hf Hs Hl. unfold notify_file_request_cb.
  match goal with |- context [file_report ?l n ?u ?k w] => destruct (report_known l n id w u k Hf) as (w1 & [] & ->) end.
  unfold add_new_file_receiver. destruct (fask_cases carrier_alloc w1) as (ok & w2 & -> & [] & e & ->). rewrite Hm. cbn [negb].
  destruct (fresh_string s Hs Hl) as (r & ->). destruct (fresh_string tmp_path) as (r' & ->); [by repeat constructor|done|]. bind_simpl.
  change (IOEXSUCCESS <? 0) with false. cbn iota. eexists _, (mkFile (s ++ 0 :: r) (tmp_path ++ 0 :: r') n i). split; [reflexivity|].
  match goal with |- context [notify_file ?cb ?c ?w] => destruct (notify_file_files cb c w) as (-> & _ & -> & ->) end.
  cbn. rewrite sf_node1, sf_node0, sf_files1, sf_files0, sf_receivers1, sf_receivers0. split_and!; try done.
  - unfold is_tracker. cbn. by rewrite !Z.eqb_refl.
  - apply (offered_path s n i r r' Hs Hl).
Qed.

Lemma canceled_found n id i w ft p : CarrierInvite.friend_of (base w) n id -> is_sender i = false -> allowed Unlink ->
  found (file_receivers w) n i = Some ft -> get_fullpath (Some ft) = Ok (Some p) ->
  exists w', notify_file_canceled_cb n i w = Ok w' /\ user_files w' = delete p (user_files w) /\
    file_receivers w' = remove_tracker (file_receivers w) n i.
Proof.
  intros Hf Hi Ha Hft Hp. unfold notify_file_canceled_cb.
  match goal with |- context [file_report ?l n ?u ?k w] => destruct (report_known l n id w u k Hf) as (w1 & [] & ->) end.
  unfold cancel_tracker. rewrite Hi. unfold find_file_receiver. destruct (find_cases (file_receivers w1) n i w1) as (w2 & -> & []).
  rewrite sf_receivers0, Hft, Hp. bind_simpl. destruct (unlink_cases p w2 Ha) as (w3 & -> & _ & Hr & Hu). cbn [remove_file_receiver]. bind_simpl.
  eexists. split; [reflexivity|]. match goal with |- context [notify_file ?cb ?c ?w] => destruct (notify_file_files cb c w) as (_ & _ & -> & ->) end.
  cbn. destruct (found_is _ _ _ _ Hft) as [-> ->]. by rewrite Hr, Hu, sf_receivers1, sf_receivers0, sf_files1, sf_files0.
Qed.

Lemma canceled_unknown n id i w : CarrierInvite.friend_of (base w) n id ->
  found (if is_sender i then file_senders w else file_receivers w) n i = None -> notify_file_canceled_cb n i w = AssertFail 171.
Proof.
  intros Hf Hn. unfold notify_file_canceled_cb.
  match goal with |- context [file_report ?l n ?u ?k w] => destruct (report_known l n id w u k Hf) as (w1 & [] & ->) end.
  unfold cancel_tracker, find_file_sender, find_file_receiver. destruct (is_sender i).
  - destruct (find_cases (file_senders w1) n i w1) as (w2 & -> & _). by rewrite sf_senders0, Hn.
  - destruct (find_cases (file_receivers w1) n i w1) as (w2 & -> & _). by rewrite sf_receivers0, Hn.
Qed.

(** What a friend can do without being asked: by offering a file with a name of its
    choice and cancelling the offer it removes the file of that name relative to /tmp,
    be the name one that leads out of /tmp, and nothing is left of the offer; and by
    cancelling a file that is not under way it ends the process. *)
Theorem friend_removes_files n id i w : CarrierInvite.memory (E:=E) -> CarrierInvite.friend_of (base w) n id ->
  (forall s size, allowed Unlink -> is_sender i = false -> found (file_receivers w) n i = None -> nul_free s -> zlen s < 512 ->
    exists w1 w2, notify_file_request_cb n i s size w = Ok w1 /\ notify_file_canceled_cb n i w1 = Ok w2 /\
      user_files w2 = delete (tmp_path ++ s) (user_files w) /\ file_receivers w2 = file_receivers w) /\
  (found (if is_sender i then file_senders w else file_receivers w) n i = None -> notify_file_canceled_cb n i w = AssertFail 171).
Proof.
  intros Hm Hf. split; [|by apply canceled_unknown with id]. intros s size Ha Hi Hn Hs Hl.
  destruct (request_offered n id i s size w Hm Hf Hs Hl) as (w1 & ft & H1 & Hb & Hu & Hr & Ht & Hp).
  assert (CarrierInvite.friend_of (base w1) n id) as Hf1 by (unfold CarrierInvite.friend_of in *; by rewrite Hb).
  assert (found (file_receivers w1) n i = Some ft) as Hft by (rewrite Hr; by apply found_app).
  destruct (canceled_found n id i w1 ft _ Hf1 Hi Ha Hft Hp) as (w2 & H2 & Hu2 & Hr2).
  exists w1, w2. split_and!; [done|done|by rewrite Hu2, Hu|]. rewrite Hr2, Hr. clear - Hn Ht. unfold found in Hn. revert Hn. generalize 0.
  induction (file_receivers w) as [|x l IH]; intros r; cbn; [by rewrite Ht|]. destruct (is_tracker n i x) eqn:Hx; [done|].
  intros H. by rewrite (IH _ H).
Qed.

(** ** A file on its way

    The chunks that the DHT has taken, as they arrive at the friend. *)
Definition chunks (l : list file_call) : list (Z * bytes) :=
  omap (fun c => match c with dht_chunk _ _ p d => Some (p, d) | _ => None end) l.

Fixpoint deliver (n i : Z) (l : list (Z * bytes)) b : outcome fworld :=
  match l with [] => Ok b | (p, d) :: l => b ← notify_file_chunk_receive_cb n i p d b; deliver n i l b end.

(** A chunk of [len] bytes at [pos] is asked for and delivered: [n] and [i] are the
    friend and the file at the node [a] that sends, [n'] and [i'] at the node [b]. *)
Definition one_chunk (n i n' i' pos len : Z) a b : outcome (fworld * fworld) :=
  a' ← notify_file_chunk_request_cb n i pos len a;
  b' ← deliver n' i' (chunks (drop (length (file_calls a)) (file_calls a'))) b;
  Ok (a', b').

Fixpoint transfer (n i n' i' pos : Z) (ls : list Z) a b : outcome (fworld * fworld) :=
  match ls with
  | [] => Ok (a, b)
  | len :: ls => r ← one_chunk n i n' i' pos len a b; transfer n i n' i' (pos + len) ls (fst r) (snd r)
  end.

Definition total (ls : list Z) : Z := foldr Z.add 0 ls.

Lemma total_sizes_cons len ls : total (len :: ls) = len + total ls.
Proof. done. Qed.

Lemma total_nonneg ls : Forall (fun len => 0 < len <= 4096) ls -> 0 <= total ls.
Proof. induction 1 as [|len ls Hl _ IH]; [done|]. rewrite total_sizes_cons. lia. Qed.

(** The node sends, or receives, the file [i] of the friend [n], whose path is [p]. *)
Definition sends w (n i : Z) (p : bytes) : Prop := exists ft, found (file_senders w) n i = Some ft /\ get_fullpath (Some ft) = Ok (Some p).
Definition receives w (n i : Z) (p : bytes) : Prop := exists ft, found (file_receivers w) n i = Some ft /\ get_fullpath (Some ft) = Ok (Some p).

(** The DHT takes every chunk. *)
Definition takes_chunks : Prop := forall n i p d (e : E), 0 <= fst (dht_file_send_chunk n i p d e).

Lemma chunk_sent n id i p c pos len w : CarrierInvite.friend_of (base w) n id -> sends w n i p -> user_files w !! p = Some c ->
  allowed OpenRead -> takes_chunks -> 0 < len <= 4096 -> 0 <= pos < 2 ^ 63 ->
  exists w', notify_file_chunk_request_cb n i pos len w = Ok w' /\ node (base w') = node (base w) /\ file_senders w' = file_senders w /\
    user_files w' = user_files w /\ chunks (drop (length (file_calls w)) (file_calls w')) = [(pos, ztake len (zdrop pos c))].
Proof.
  intros Hf (ft & Hft & Hp) Hc Ha Ht Hl Hpos. unfold notify_file_chunk_request_cb.
  match goal with |- context [file_report ?l n ?u ?k w] => destruct (report_known l n id w u k Hf) as (w1 & [] & ->) end.
  rewrite CarrierInvite.strcpy_ok by (pose proof (proj1 (proj2 Hf)); lia). bind_simpl.
  unfold find_file_sender. destruct (find_cases (file_senders w1) n i w1) as (w2 & -> & []). rewrite sf_senders0, Hft.
  rewrite (proj2 (Z.eqb_neq len 0)) by lia. rewrite Hp. bind_simpl. unfold fopen_read.
  destruct (fask_cases (file_allowed OpenRead p) w2) as (ok & w3 & -> & [] & e & ->). rewrite Ha, sf_files2, sf_files1, sf_files0, Hc. bind_simpl.
  rewrite (proj2 (Z.ltb_lt 0 len)) by lia. unfold read_chunk. rewrite (proj2 (Z.ltb_lt pos _)) by lia.
  rewrite (proj2 (Z.leb_le _ 4096)) by (rewrite zlen_ztake; lia). bind_simpl.
  destruct (fask_cases (dht_file_send_chunk n i pos (ztake len (zdrop pos c))) w3) as (rc & w4 & -> & [] & e' & ->).
  rewrite (proj2 (Z.ltb_ge _ 0)) by apply Ht. cbn [andb]. eexists. split; [reflexivity|].
  match goal with |- context [notify_file ?cb ?c ?w] => destruct (notify_file_files cb c w) as (-> & -> & _ & ->) end.
  cbn. split_and!; [congruence..|]. unfold notify_file. destruct (file_callbacks _ _); cbn;
    rewrite sf_calls3, sf_calls2, sf_calls1, sf_calls0, <- ?app_assoc, drop_app_length; done.
Qed.

Lemma chunk_received n id i p pos d w : CarrierInvite.friend_of (base w) n id -> receives w n i p -> allowed OpenAppend -> 0 < zlen d ->
  exists w', notify_file_chunk_receive_cb n i pos d w = Ok w' /\ node (base w') = node (base w) /\ file_receivers w' = file_receivers w /\
    user_files w' = <[p := default [] (user_files w !! p) ++ d]> (user_files w).
Proof.
  intros Hf (ft & Hft & Hp) Ha Hd. unfold notify_file_chunk_receive_cb.
  match goal with |- context [file_report ?l n ?u ?k w] => destruct (report_known l n id w u k Hf) as (w1 & [] & ->) end.
  rewrite CarrierInvite.strcpy_ok by (pose proof (proj1 (proj2 Hf)); lia). bind_simpl.
  unfold find_file_receiver. destruct (find_cases (file_receivers w1) n i w1) as (w2 & -> & []). rewrite sf_receivers0, Hft.
  rewrite (proj2 (Z.eqb_neq (zlen d) 0)) by lia. rewrite Hp. bind_simpl. unfold fopen_append.
  destruct (fask_cases (file_allowed OpenAppend p) w2) as (ok & w3 & -> & [] & e & ->). rewrite Ha. bind_simpl.
  eexists. split; [reflexivity|]. match goal with |- context [notify_file ?cb ?c ?w] => destruct (notify_file_files cb c w) as (-> & _ & -> & ->) end.
  cbn. split_and!; [congruence|congruence|]. by rewrite sf_files2, sf_files1, sf_files0, lookup_insert_eq, insert_insert_eq.
Qed.

Lemma transfer_copies n id i n' id' i' p q c ls pos a b :
  CarrierInvite.friend_of (base a) n id -> CarrierInvite.friend_of (base b) n' id' -> sends a n i p -> receives b n' i' q ->
  user_files a !! p = Some c -> allowed OpenRead -> allowed OpenAppend -> takes_chunks ->
  Forall (fun len => 0 < len <= 4096) ls -> 0 <= pos -> pos + total ls <= zlen c < 2 ^ 63 ->
  exists a' b', transfer n i n' i' pos ls a b = Ok (a', b') /\
    node (base a') = node (base a) /\ file_senders a' = file_senders a /\ user_files a' = user_files a /\
    node (base b') = node (base b) /\ file_receivers b' = file_receivers b /\
    user_files b' = (if decide (ls = []) then user_files b
      else <[q := default [] (user_files b !! q) ++ ztake (total ls) (zdrop pos c)]> (user_files b)).
Proof.
  intros Hfa Hfb Hsa Hrb Hc Har Haa Ht Hls. revert pos a b Hfa Hfb Hsa Hrb Hc. induction Hls as [|len ls Hlen Hls IH]; intros pos a b Hfa Hfb Hsa Hrb Hc Hpos Htot.
  { by exists a, b. }
  pose proof (total_nonneg ls Hls). rewrite total_sizes_cons in Htot.
  destruct (chunk_sent n id i p c pos len a) as (a1 & Ha1 & Hna & Hsa1 & Hua & Hch); [done..|lia|].
  set (d := ztake len (zdrop pos c)) in *. assert (zlen d = len) as Hd by (unfold d; rewrite zlen_ztake, zlen_zdrop; lia).
  destruct (chunk_received n' id' i' q pos d b) as (b1 & Hb1 & Hnb & Hrb1 & Hub); [done..|lia|].
  destruct (IH (pos + len) a1 b1) as (a2 & b2 & H2 & H3 & H4 & H5 & H6 & H7 & H8).
  - unfold CarrierInvite.friend_of in *. by rewrite Hna.
  - unfold CarrierInvite.friend_of in *. by rewrite Hnb.
  - unfold sends. by rewrite Hsa1.
  - unfold receives. by rewrite Hrb1.
  - by rewrite Hua.
  - lia.
  - lia.
  - exists a2, b2. cbn [transfer]. unfold one_chunk. rewrite Ha1. bind_simpl. rewrite Hch. cbn [deliver]. rewrite Hb1. bind_simpl.
    split_and!; [done|congruence..|]. rewrite H8, Hub. destruct (decide (len :: ls = [])) as [[=]|_]. destruct (decide (ls = [])) as [->|Hne].
    + rewrite total_sizes_cons. cbn. by rewrite Z.add_0_r.
    + rewrite lookup_insert_eq, insert_insert_eq. cbn [from_option]. unfold Datatypes.id. rewrite <- app_assoc. do 2 f_equal.
      unfold d. rewrite total_sizes_cons.
      unfold ztake, zdrop. rewrite !Z2Nat.inj_add by lia. rewrite <- drop_drop. apply take_take_drop.
Qed.

Lemma end_sent n id i p pos w : CarrierInvite.friend_of (base w) n id -> sends w n i p ->
  exists w', notify_file_chunk_request_cb n i pos 0 w = Ok w' /\ file_senders w' = remove_tracker (file_senders w) n i /\ user_files w' = user_files w.
Proof.
  intros Hf (ft & Hft & _). unfold notify_file_chunk_request_cb.
  match goal with |- context [file_report ?l n ?u ?k w] => destruct (report_known l n id w u k Hf) as (w1 & [] & ->) end.
  rewrite CarrierInvite.strcpy_ok by (pose proof (proj1 (proj2 Hf)); lia). bind_simpl.
  unfold find_file_sender. destruct (find_cases (file_senders w1) n i w1) as (w2 & -> & []). rewrite sf_senders0, Hft. cbn.
  eexists. split; [reflexivity|]. cbn. destruct (found_is _ _ _ _ Hft) as [-> ->]. split; congruence.
Qed.

Lemma end_received n id i p pos w : CarrierInvite.friend_of (base w) n id -> receives w n i p ->
  exists w', notify_file_chunk_receive_cb n i pos [] w = Ok w' /\ file_receivers w' = remove_tracker (file_receivers w) n i /\ user_files w' = user_files w.
Proof.
  intros Hf (ft & Hft & _). unfold notify_file_chunk_receive_cb.
  match goal with |- context [file_report ?l n ?u ?k w] => destruct (report_known l n id w u k Hf) as (w1 & [] & ->) end.
  rewrite CarrierInvite.strcpy_ok by (pose proof (proj1 (proj2 Hf)); lia). bind_simpl.
  unfold find_file_receiver. destruct (find_cases (file_receivers w1) n i w1) as (w2 & -> & []). rewrite sf_receivers0, Hft. cbn.
  eexists. split; [reflexivity|]. match goal with |- context [notify_file ?cb ?c ?w] => destruct (notify_file_files cb c w) as (_ & _ & -> & ->) end.
  cbn. destruct (found_is _ _ _ _ Hft) as [-> ->]. split; congruence.
Qed.

(** C30. A file that is sent is copied: when the friend asks for the chunks of a file one
    after the other, each of at most 4096 bytes, to the end of the file, and files can
    be read and written, then the file of the friend is what it was with the content of
    the file after it, and no other file of either has changed; and when the chunk of
    no bytes follows, which says that this was all, the file leaves the lists of both. *)
Theorem file_copied n id i n' id' i' p q c ls a b :
  CarrierInvite.friend_of (base a) n id -> CarrierInvite.friend_of (base b) n' id' -> sends a n i p -> receives b n' i' q ->
  user_files a !! p = Some c -> allowed OpenRead -> allowed OpenAppend -> takes_chunks ->
  Forall (fun len => 0 < len <= 4096) ls -> ls <> [] -> total ls = zlen c -> zlen c < 2 ^ 63 ->
  exists a1 b1 a2 b2, transfer n i n' i' 0 ls a b = Ok (a1, b1) /\
    notify_file_chunk_request_cb n i (zlen c) 0 a1 = Ok a2 /\ notify_file_chunk_receive_cb n' i' (zlen c) [] b1 = Ok b2 /\
    user_files b2 = <[q := default [] (user_files b !! q) ++ c]> (user_files b) /\ user_files a2 = user_files a /\
    file_senders a2 = remove_tracker (file_senders a) n i /\ file_receivers b2 = remove_tracker (file_receivers b) n' i'.
Proof.
  intros Hfa Hfb Hsa Hrb Hc Har Haa Ht Hls Hne Htot Hmax.
  destruct (transfer_copies n id i n' id' i' p q c ls 0 a b) as (a1 & b1 & H1 & Hna & Hs & Hua & Hnb & Hr & Hub); [done..|lia|lia|].
  destruct (end_sent n id i p (zlen c) a1) as (a2 & Ha2 & Hs2 & Hu2); [unfold CarrierInvite.friend_of in *; by rewrite Hna|unfold sends; by rewrite Hs|].
  destruct (end_received n' id' i' q (zlen c) b1) as (b2 & Hb2 & Hr2 & Hv2); [unfold CarrierInvite.friend_of in *; by rewrite Hnb|unfold receives; by rewrite Hr|].
  exists a1, b1, a2, b2. split_and!; try done; [|congruence..].
  rewrite Hv2, Hub, decide_False by done. by rewrite zdrop_0, ztake_all by lia.
Qed.

End Files.

(** ** Runs *)

Section Demo.
Import CarrierDemo.

#[local] Instance demo_filesystem : FileSystem env := {
  file_allowed _ _ e := (true, e);
  dht_file_send_request _ _ _ e := Ok (0, 0, e);
  dht_file_control _ _ _ e := (0, e);
  dht_file_send_chunk _ _ _ _ e := (0, e);
}.

(** The nodes 5 and 3, each the other's friend 7, with files of the system. *)
Definition files_demo (self k : Z) (files : gmap bytes bytes) : @fworld env :=
  mkFW (demo self (Some k)) (fun _ => true) [] [] files [].

Definition file_a : bytes := [47; 100; 47; 97].
Definition content : bytes := [1; 2; 3; 4; 5].

(** 5 offers the file /d/a, which the DHT gives the number 0; 3 gets the offer under the
    number 65536 and accepts it as /b/a. *)
Definition sender : outcome (@fworld env) :=
  r ← IOEX_send_file_request (Some (demo_name 3)) (Some file_a) (files_demo 5 3 {[file_a := content]}); Ok (snd r).
Definition receiver : outcome (@fworld env) :=
  w ← notify_file_request_cb 7 65536 [97] 5 (files_demo 3 5 ∅);
  r ← IOEX_send_file_accept (Some (demo_name 5)) (Some [54; 53; 53; 51; 54]) (Some [97]) (Some [47; 98]) w; Ok (snd r).

Definition get_world (m : outcome (@fworld env)) : @fworld env := match m with Ok w => w | _ => files_demo 0 0 ∅ end.

Lemma sender_ready : CarrierInvite.friend_of (base (get_world sender)) 7 (demo_name 3) /\ sends (get_world sender) 7 0 file_a.
Proof.
  split.
  - split; [discriminate|]. split; [vm_compute; discriminate|]. eexists. split; vm_compute; reflexivity.
  - eexists. split; vm_compute; reflexivity.
Qed.

Lemma receiver_ready : CarrierInvite.friend_of (base (get_world receiver)) 7 (demo_name 5) /\ receives (get_world receiver) 7 65536 [47; 98; 47; 97].
Proof.
  split.
  - split; [discriminate|]. split; [vm_compute; discriminate|]. eexists. split; vm_compute; reflexivity.
  - eexists. split; vm_compute; reflexivity.
Qed.

Lemma demo_allowed op : @allowed env demo_filesystem op.
Proof. done. Qed.

Lemma demo_takes : @takes_chunks env demo_filesystem.
Proof. done. Qed.

Lemma file_copied_witness :
  exists a1 b1 b2, transfer 7 0 7 65536 0 [2; 3] (get_world sender) (get_world receiver) = Ok (a1, b1) /\
    notify_file_chunk_receive_cb 7 65536 5 [] b1 = Ok b2 /\
    user_files b2 !! [47; 98; 47; 97] = Some content.
Proof.
  destruct (file_copied 7 (demo_name 3) 0 7 (demo_name 5) 65536 file_a [47; 98; 47; 97] content [2; 3] (get_world sender) (get_world receiver)
    (proj1 sender_ready) (proj1 receiver_ready) (proj2 sender_ready) (proj2 receiver_ready)) as (a1 & b1 & a2 & b2 & H1 & _ & H3 & H4 & _).
  - vm_compute. reflexivity.
  - apply demo_allowed.
  - apply demo_allowed.
  - apply demo_takes.
  - repeat constructor; vm_compute; congruence.
  - discriminate.
  - reflexivity.
  - vm_compute. reflexivity.
  - exists a1, b1, b2. split; [exact H1|]. split; [exact H3|]. rewrite H4, lookup_insert_eq. vm_compute. reflexivity.
Defined.

(** A friend removes /tmp/../x. *)
Definition outside : bytes := [46; 46; 47; 120].

Lemma friend_removes_files_witness :
  exists w1 w2, notify_file_request_cb 7 65536 outside 1 (files_demo 3 5 {[tmp_path ++ outside := content]}) = Ok w1 /\
    notify_file_canceled_cb 7 65536 w1 = Ok w2 /\ user_files w2 !! (tmp_path ++ outside) = None /\
    notify_file_canceled_cb 7 65536 (files_demo 3 5 ∅) = AssertFail 171.
Proof.
  destruct (proj1 (friend_removes_files 7 (demo_name 5) 65536 (files_demo 3 5 {[tmp_path ++ outside := content]})
    CarrierInvite.demo_memory CarrierInvite.five_friend) outside 1) as (w1 & w2 & H1 & H2 & H3 & _).
  - apply demo_allowed.
  - reflexivity.
  - reflexivity.
  - repeat constructor.
  - reflexivity.
  - exists w1, w2. split; [exact H1|]. split; [exact H2|]. split; [rewrite H3; apply lookup_delete_eq|].
    exact (proj2 (friend_removes_files 7 (demo_name 5) 65536 (files_demo 3 5 ∅) CarrierInvite.demo_memory CarrierInvite.five_friend) eq_refl).
Defined.

(** A chunk that comes again, or at another position, goes to the end of the file. *)
Example position_ignored :
  result (w ← receiver; w ← notify_file_chunk_receive_cb 7 65536 100 [8; 9] w; notify_file_chunk_receive_cb 7 65536 0 [8; 9] w)
    (fun w => user_files w !! [47; 98; 47; 97]) = Some (Some [8; 9; 8; 9]).
Proof. vm_compute. reflexivity. Qed.

(** No report about a file gives the reference to the friend back, and none the
    references to the files that have been looked at. *)
Example reports_leak :
  result (w ← sender; notify_file_accepted_cb 7 0 w) (fun w => owed (base w)) = Some 2.
Proof. vm_compute. reflexivity. Qed.

(** A friend that asks for more than 4096 bytes at once gets them into an array of 4096. *)
Example chunk_overflows :
  (w ← sender; notify_file_chunk_request_cb 7 0 0 5000 (with_files {[file_a := replicate 5000 1]} w)) = Undef.
Proof. vm_compute. reflexivity. Qed.

(** The path of a file in the root directory loses its slash. *)
Example root_lost : (r ← split_path [47; 97]; get_fullpath (Some (mkFile (fst r) (snd r) 7 0))) = Ok (Some [97]).
Proof. vm_compute. reflexivity. Qed.

(** A path of the full length and a name of the full length lose the last character. *)
Example full_path_truncated :
  result (get_fullpath (Some (mkFile (replicate 511 97 ++ [0]) (replicate 511 98 ++ [0]) 7 65536)))
    (fun p => (match p with Some p => zlen p | None => 0 end)) = Some 1022.
Proof. vm_compute. reflexivity. Qed.

End Demo.

End CarrierFilesThm.
