(* ===== verification/CarrierRun.v ===== *)
(** * The carrier node: running

    The rest of src/src/carrier/IOEX_carrier.c: the loop that lets the DHT work and
    hands its reports to the node, the nospam value, and the account on a relay server
    that the node makes for itself. *)

From Stdlib Require Import ZArith Lia.
From stdpp Require Import prelude gmap list.
From S2P Require Import Prelude Base58 Crypto Mux CStr Tables Node Persist Cp Carrier CarrierCalls CarrierStart CarrierFiles.

Module CarrierRun.
Import CStr Tables Node Carrier CarrierCalls CarrierStart CarrierFiles.

Definition TURN_SERVER_PORT : Z := 3478.
Definition TURN_SERVER_USER_SUFFIX : bytes := [97; 117; 116; 104; 46; 116; 111; 120].
Definition TURN_REALM : bytes := [73; 79; 69; 88; 46; 111; 114; 103].
Definition IOEX_MAX_TURN_SERVER_LEN : Z := 63.
Definition IOEX_MAX_TURN_USERNAME_LEN : Z := 127.
Definition IOEX_MAX_TURN_PASSWORD_LEN : Z := 63.
Definition IOEX_MAX_TURN_REALM_LEN : Z := 127.

Record IOEXTurnServer := mkTurn { server : bytes; turn_port : Z; username : bytes; password : bytes; realm : bytes }.

(** What the DHT reports to a node while it works. *)
Inductive dht_report :=
| ReportConnection (connected : bool)
| ReportDescription (n : Z) (desc : bytes)
| ReportFriendConnection (n : Z) (connected : bool)
| ReportStatus (n s : Z)
| ReportRequest (key gretting : bytes)
| ReportMessage (n : Z) (m : bytes)
| ReportFileRequest (n i : Z) (filename : bytes) (size : Z)
| ReportFileAccepted (n i : Z)
| ReportFileRejected (n i : Z)
| ReportFilePaused (n i : Z)
| ReportFileResumed (n i : Z)
| ReportFileCanceled (n i : Z)
| ReportChunkRequest (n i position length : Z)
| ReportChunk (n i position : Z) (data : bytes).

(** The DHT at work: what it reports in one iteration, the milliseconds until it wants
    the next, and whether the node has been told to stop; its secrets, and libsodium's
    shared key, which is none when the key of the peer is rejected. *)
Class DhtRun (E : Type) := {
  dht_bootstrap : bytes -> bytes -> Z -> bytes -> E -> outcome (Z * E);
  dht_iteration_idle : E -> Z * E;
  dht_iterate : E -> outcome (list dht_report * E);
  quit : E -> bool * E;
  dht_self_set_nospam : Z -> E -> E;
  dht_self_get_nospam : E -> Z;
  dht_get_random_tcp_relay : Z -> E -> Z * bytes * bytes * E;
  dht_self_get_secret_key : E -> bytes;
  crypto_random_nonce : E -> bytes * E;
  crypto_box_beforenm : bytes -> bytes -> option bytes;
}.

Section Run.
Context {E : Type} {DH : Dht E} {DS : DhtStart E} {DR : DhtRun E} {SY : Persist.System E} {NC : Crypto.Nacl} {FB : Cp.FlatBuffers E} {FS : FileSystem E}.
Notation fworld := (@fworld E).
Implicit Types w : fworld.

(** ** The loop *)

Definition lift (f : @Carrier.world E -> outcome (@Carrier.world E)) w : outcome fworld :=
  b ← f (base w); Ok (on_base (fun _ => b) w).

(** The functions that [IOEX_run] gives the DHT. *)
Definition dht_callbacks (r : dht_report) : fworld -> outcome fworld :=
  match r with
  | ReportConnection b => lift (fun v => Ok (notify_connection_cb b v))
  | ReportDescription n d => lift (notify_friend_description_cb n d)
  | ReportFriendConnection n b => lift (notify_friend_connection_cb n b)
  | ReportStatus n s => lift (notify_friend_status_cb n s)
  | ReportRequest k g => lift (notify_friend_request_cb k g)
  | ReportMessage n m => lift (notify_friend_message_cb n m)
  | ReportFileRequest n i s size => notify_file_request_cb n i s size
  | ReportFileAccepted n i => notify_file_accepted_cb n i
  | ReportFileRejected n i => notify_file_rejected_cb n i
  | ReportFilePaused n i => notify_file_paused_cb n i
  | ReportFileResumed n i => notify_file_resumed_cb n i
  | ReportFileCanceled n i => notify_file_canceled_cb n i
  | ReportChunkRequest n i pos len => notify_file_chunk_request_cb n i pos len
  | ReportChunk n i pos d => notify_file_chunk_receive_cb n i pos d
  end.

Fixpoint reports (l : list dht_report) w : outcome fworld :=
  match l with [] => Ok w | r :: l => w ← dht_callbacks r w; reports l w end.

(** The results are only logged. *)
Fixpoint connect_to_bootstraps (l : list BootstrapNodeBuf) w : outcome fworld :=
  match l with
  | [] => Ok w
  | b :: l =>
      r ← dht_bootstrap (buf_ipv4 b) (buf_ipv6 b) (buf_port b) (buf_key b) (env (base w));
      connect_to_bootstraps l (on_base (with_env (snd r)) w)
  end.

(** A round of the loop. *)
Definition run_once (interval : Z) w : outcome fworld :=
  let '(idle, w) := fask dht_iteration_idle w in
  let idle_interval := if interval <? idle then interval else idle in
  let w := on_base do_friend_events w in
  let w := if 0 <? idle_interval then on_base notify_idle w else w in
  r ← dht_iterate (env (base w));
  reports (fst r) (on_base (with_env (snd r)) w).

Fixpoint run_loop (fuel : nat) (interval : Z) w : outcome fworld :=
  let '(q, w) := fask quit w in
  if q then Ok w
  else
    match fuel with
    | O => NoFuel
    | S fuel => w ← run_once interval w; run_loop fuel interval w
    end.

Definition IOEX_run (fuel : nat) (l : list BootstrapNodeBuf) (interval : Z) w : outcome (Z * fworld) :=
  if interval <? 0 then fgeneral IOEXERR_INVALID_ARGS w
  else
    let interval := if interval =? 0 then 1000 else interval in
    w ← connect_to_bootstraps l (on_base notify_friends w);
    w ← run_loop fuel interval w;
    w ← lift store_persistence_data w;
    Ok (0, w).

(** ** The nospam value *)

Definition IOEX_set_self_nospam (nospam : Z) (w : @Carrier.world E) : outcome (Z * @Carrier.world E) :=
  let w := set_env (dht_self_set_nospam nospam) w in
  let '(rc, self) := dht_get_self_info (env w) in
  if rc <? 0 then refuse rc w
  else
    w ← get_self_info_cb self w;
    w ← store_persistence_data w;
    Ok (0, w).

Definition IOEX_get_self_nospam (w : @Carrier.world E) : Z := dht_self_get_nospam (env w).

(** ** The relay server

    The DHT is asked for a relay five times; [old] is what is in memory before, [stack]
    in the array of the shared key, which is not written when the relay's key is
    rejected. *)
Fixpoint get_tcp_relay (times : nat) (w : @Carrier.world E) : option (bytes * bytes) * @Carrier.world E :=
  let '(r, w) := ask (fun e => let '(rc, s, k, e) := dht_get_random_tcp_relay (IOEX_MAX_TURN_SERVER_LEN + 1) e in ((rc, s, k), e)) w in
  let '(rc, s, k) := r in
  if rc <? 0 then match times with O => (None, w) | S times => get_tcp_relay times w end else (Some (s, k), w).

Definition compute_symmetric_key (pk sk old : bytes) : bytes := default old (crypto_box_beforenm pk sk).

Definition IOEX_get_turn_server (old : IOEXTurnServer) (stack : bytes) (w : @Carrier.world E) : outcome (Z * IOEXTurnServer * @Carrier.world E) :=
  let '(r, w) := get_tcp_relay 4 w in
  match r with
  | None => Ok (-1, old, IOEX_set_error (IOEX_GENERAL_ERROR IOEXERR_NOT_EXIST) w)
  | Some (host, public_key) =>
      let shared_key := compute_symmetric_key public_key (dht_self_get_secret_key (env w)) stack in
      let '(nonce, w) := ask crypto_random_nonce w in
      match Crypto.hmac_sha256 true shared_key nonce Crypto.SHA256_BYTES with
      | (rc, Some digest) =>
          password ← encode_text digest (IOEX_MAX_TURN_PASSWORD_LEN + 1);
          nonce_str ← encode_text nonce 64;
          username ← strcpy (IOEX_MAX_TURN_USERNAME_LEN + 1)
            (userid (me (node w)) ++ 64 :: nonce_str ++ 46 :: TURN_SERVER_USER_SUFFIX);
          realm ← strcpy (IOEX_MAX_TURN_REALM_LEN + 1) TURN_REALM;
          Ok (0, mkTurn host TURN_SERVER_PORT username password realm, w)
      | (rc, None) => Ok (-1, mkTurn host TURN_SERVER_PORT (username old) (password old) (realm old), w)
      end
  end.

End Run.

End CarrierRun.
