(* ===== verification/CarrierRunThm.v ===== *)
(** * The carrier node: running, theorems *)

From Stdlib Require Import ZArith Lia.
From stdpp Require Import prelude gmap list.
From S2P Require Import Prelude Base58 Crypto CryptoThm Mux CStr Tables Node Persist PersistThm Cp Carrier CarrierCalls CarrierStart CarrierDemo CarrierThm CarrierInvite CarrierFiles CarrierFilesThm CarrierRun.

Module CarrierRunThm.
Import CStr Tables Node Carrier CarrierCalls CarrierStart CarrierThm CarrierFiles CarrierRun.

Section Run.
Context {E : Type} {DH : Dht E} {DS : DhtStart E} {DR : DhtRun E} {SY : Persist.System E} {NC : Crypto.Nacl} {FB : Cp.FlatBuffers E} {FS : FileSystem E} {DN : @DhtNumbers E DH}.
Notation fworld := (@fworld E).
Implicit Types w : fworld.

(** ** The loop *)

(** The node is as it was; the files under way and the references may differ. *)
Definition node_kept w w' : Prop := node (base w') = node (base w).

Lemma fask_node {A} (f : E -> A * E) w x w' : fask f w = (x, w') -> node_kept w w'.
Proof. intros H. destruct (CarrierFilesThm.fask_cases f w) as (y & w1 & Hf & [] & _). rewrite Hf in H. by injection H as _ <-. Qed.

Lemma notify_file_node cb c w : node_kept w (notify_file cb c w).
Proof. apply CarrierFilesThm.notify_file_files. Qed.

Lemma kept_trans w1 w2 w3 : node_kept w1 w2 -> node_kept w2 w3 -> node_kept w1 w3.
Proof. unfold node_kept. congruence. Qed.

Lemma find_node l n i w ft w' : _find_file_tracker l n i w = (ft, w') -> node_kept w w'.
Proof. intros H. destruct (CarrierFilesThm.find_cases l n i w) as (w1 & Hf & []). rewrite Hf in H. by injection H as _ <-. Qed.

(** A report about a file keeps the node when what it does for a known friend does. *)
Lemma file_report_node line n unknown k w w' :
  (forall w w', unknown w = Ok w' -> node_kept w w') -> (forall id w w', k id w = Ok w' -> node_kept w w') ->
  file_report line n unknown k w = Ok w' -> node_kept w w'.
Proof.
  intros Hu Hk. unfold file_report, fget_friend. intros H. inv_bind. subst.
  match goal with Hg : get_friend n _ = Ok _ |- _ => apply get_friend_cases in Hg; rename Hg into Hg0 end.
  destruct r1 as [[fi|] w1]; destruct Hg0 as [_ ->]; [apply Hk in H|apply Hu in H]; exact H.
Qed.

Lemma kept_error w : forall w', file_report_unknown w = Ok w' -> node_kept w w'.
Proof. by intros w' [= <-]. Qed.

Lemma kept_invalid w w' : file_tracker_invalid w = Ok w' -> node_kept w w'.
Proof. by intros [= <-]. Qed.

Lemma kept_drop w w' : Ok w = Ok w' -> node_kept w w'.
Proof. by intros [= ->]. Qed.

Lemma remove_sender_node ft w w' : remove_file_sender ft w = Ok w' -> node_kept w w'.
Proof. destruct ft; [|discriminate]. by intros [= <-]. Qed.

Lemma remove_receiver_node ft w w' : remove_file_receiver ft w = Ok w' -> node_kept w w'.
Proof. destruct ft; [|discriminate]. by intros [= <-]. Qed.

Lemma add_receiver_node n i s w r w' : add_new_file_receiver n i s w = Ok (r, w') -> node_kept w w'.
Proof.
  unfold add_new_file_receiver. destruct (fask carrier_alloc w) as [ok w1] eqn:H1. apply fask_node in H1.
  destruct (negb ok); [by intros [= _ <-]|]. destruct s as [s|]; [|by intros [= _ <-]].
  intros H. inv_bind. by subst.
Qed.

Lemma unlink_node p w : node_kept w (unlink p w).
Proof.
  unfold unlink. destruct (fask (file_allowed Unlink p) w) as [ok w1] eqn:H1. apply fask_node in H1. by destruct ok.
Qed.

Lemma cancel_node n i w w' : cancel_tracker n i w = Ok w' -> node_kept w w'.
Proof.
  unfold cancel_tracker. destruct (is_sender i).
  - destruct (find_file_sender n i w) as [ft w1] eqn:Hf. intros H%remove_sender_node. eapply kept_trans; [by eapply find_node|exact H].
  - destruct (find_file_receiver n i w) as [ft w1] eqn:Hf. apply find_node in Hf. intros H. apply bind_ok in H as (path & _ & H%remove_receiver_node).
    eapply kept_trans; [exact Hf|]. eapply kept_trans; [|exact H]. destruct path; [apply unlink_node|done].
Qed.

Lemma find_tracker_node n i w ft w' : find_tracker n i w = (ft, w') -> node_kept w w'.
Proof. unfold find_tracker. by destruct (is_sender i); apply find_node. Qed.

Lemma chunk_request_node n i pos len w w' : notify_file_chunk_request_cb n i pos len w = Ok w' -> node_kept w w'.
Proof.
  apply file_report_node; [apply kept_drop|]. clear w w'. intros id w w' H. apply bind_ok in H as (tmp & _ & H).
  destruct (find_file_sender n i w) as [ft w1] eqn:Hf. apply find_node in Hf. eapply kept_trans; [exact Hf|].
  apply bind_ok in H as ([[full fp] w2] & Hr & H).
  assert (node_kept w1 w2) as Hk.
  { destruct ft as [ft|]; [|by injection Hr as _ _ <-]. destruct (len =? 0).
    - apply bind_ok in Hr as (w3 & Hr%remove_sender_node & Hx). by injection Hx as _ _ <-.
    - apply bind_ok in Hr as (path & _ & Hr). destruct path as [p|]; [|by injection Hr as _ _ <-]. unfold fopen_read in Hr.
      destruct (fask (file_allowed OpenRead p) w1) as [ok w3] eqn:H3. apply fask_node in H3. by injection Hr as _ _ <-. }
  eapply kept_trans; [exact Hk|]. destruct (0 <? len); [|by injection H as <-]. destruct fp as [content|].
  - apply bind_ok in H as (data & _ & H). destruct (fask _ w2) as [rc w3] eqn:H3. apply fask_node in H3. injection H as <-.
    eapply kept_trans; [exact H3|]. destruct (rc <? 0), (file_callbacks _ CbFileChunkSendError); cbn [andb]; [done|apply notify_file_node|..];
    (eapply kept_trans; [|apply notify_file_node]; done).
  - injection H as <-. apply notify_file_node.
Qed.

Lemma chunk_receive_node n i pos d w w' : notify_file_chunk_receive_cb n i pos d w = Ok w' -> node_kept w w'.
Proof.
  apply file_report_node; [apply kept_drop|]. clear w w'. intros id w w' H. apply bind_ok in H as (tmp & _ & H).
  destruct (find_file_receiver n i w) as [ft w1] eqn:Hf. apply find_node in Hf. eapply kept_trans; [exact Hf|].
  apply bind_ok in H as ([full w2] & Hr & H). injection H as <-. eapply kept_trans; [|apply notify_file_node].
  destruct ft as [ft|]; [|by injection Hr as _ <-]. destruct (zlen d =? 0).
  - apply bind_ok in Hr as (w3 & Hr%remove_receiver_node & Hx). by injection Hx as _ <-.
  - apply bind_ok in Hr as (path & _ & Hr). destruct path as [p|]; [|by injection Hr as _ <-]. unfold fopen_append in Hr.
    destruct (fask (file_allowed OpenAppend p) w1) as [ok w3] eqn:H3. apply fask_node in H3. destruct ok; by injection Hr as _ <-.
Qed.

(** Reports about files leave the rest of the node alone; the others keep it in order. *)
Lemma dht_callbacks_wf r w w' : dht_callbacks r w = Ok w' -> node_wf (node (base w)) -> node_wf (node (base w')).
Proof.
  assert (forall i, (exists rc b, happens i (base w) = Ok (rc, b) /\ w' = on_base (fun _ => b) w) -> node_wf (node (base w)) -> node_wf (node (base w'))) as Hb.
  { intros i (rc & b & Hi & ->) Hw. apply happens_moves in Hi as (k & [Hm _] & _). cbn. by apply Hm. }
  assert (forall i f, lift f w = Ok w' -> (forall v, happens i v = report (f v)) -> node_wf (node (base w)) -> node_wf (node (base w'))) as Hl.
  { intros i f H Hf. apply (Hb i). unfold lift in H. apply bind_ok in H as (b & Hx & H). injection H as <-.
    exists 0, b. rewrite Hf. unfold report. by rewrite Hx. }
  assert (node_kept w w' -> node_wf (node (base w)) -> node_wf (node (base w'))) as Hk by (unfold node_kept; by intros ->).
  destruct r; cbn [dht_callbacks]; intros H.
  - eapply (Hl (DhtConnection connected)); [exact H|done].
  - eapply (Hl (DhtDescription n desc)); [exact H|done].
  - eapply (Hl (DhtFriendConnection n connected)); [exact H|done].
  - eapply (Hl (DhtStatus n s)); [exact H|done].
  - eapply (Hl (DhtRequest key gretting)); [exact H|done].
  - eapply (Hl (DhtMessage n m)); [exact H|done].
  - apply Hk. revert H. apply file_report_node; [apply kept_error|]. intros id v v' H. apply bind_ok in H as ([rc v1] & Ha%add_receiver_node & H).
    destruct (rc <? 0); injection H as <-; [exact Ha|]. eapply kept_trans; [exact Ha|apply notify_file_node].
  - apply Hk. revert H. apply file_report_node; [apply kept_error|]. intros id v v'. destruct (find_file_sender n i v) as [[ft|] v1] eqn:Hf; apply find_node in Hf.
    + intros [= <-]. eapply kept_trans; [exact Hf|apply notify_file_node].
    + intros H%kept_invalid. by eapply kept_trans.
  - apply Hk. revert H. apply file_report_node; [apply kept_error|]. intros id v v'. destruct (find_file_sender n i v) as [[ft|] v1] eqn:Hf; apply find_node in Hf.
    + intros H. apply bind_ok in H as (v2 & H2%remove_sender_node & H). injection H as <-. eapply kept_trans; [exact Hf|]. eapply kept_trans; [exact H2|apply notify_file_node].
    + intros H%kept_invalid. by eapply kept_trans.
  - apply Hk. revert H. apply file_report_node; [apply kept_error|]. intros id v v'. destruct (find_tracker n i v) as [[ft|] v1] eqn:Hf; apply find_tracker_node in Hf.
    + intros [= <-]. eapply kept_trans; [exact Hf|apply notify_file_node].
    + intros H%kept_invalid. by eapply kept_trans.
  - apply Hk. revert H. apply file_report_node; [apply kept_error|]. intros id v v'. destruct (find_tracker n i v) as [[ft|] v1] eqn:Hf; apply find_tracker_node in Hf.
    + intros [= <-]. eapply kept_trans; [exact Hf|apply notify_file_node].
    + intros H%kept_invalid. by eapply kept_trans.
  - apply Hk. revert H. apply file_report_node; [apply kept_error|]. intros id v v' H. apply bind_ok in H as (v1 & H1%cancel_node & H).
    injection H as <-. eapply kept_trans; [exact H1|apply notify_file_node].
  - apply Hk. by eapply chunk_request_node.
  - apply Hk. by eapply chunk_receive_node.
Qed.

Lemma reports_wf l w w' : reports l w = Ok w' -> node_wf (node (base w)) -> node_wf (node (base w')).
Proof.
  revert w. induction l as [|r l IH]; intros w; cbn [reports]; [by intros [= ->]|].
  intros H Hw. apply bind_ok in H as (w1 & H1 & H). eapply IH; [exact H|]. by eapply dht_callbacks_wf.
Qed.

Lemma run_once_wf interval w w' : run_once interval w = Ok w' -> node_wf (node (base w)) -> node_wf (node (base w')).
Proof.
  unfold run_once. destruct (fask dht_iteration_idle w) as [idle w1] eqn:H1. apply fask_node in H1. intros H Hw.
  set (w2 := on_base do_friend_events w1) in *. assert (node_wf (node (base w2))) as Hw2.
  { unfold w2. cbn. destruct (events_moves (base w1)) as [[Hm _] _]. apply Hm. by rewrite H1. }
  apply bind_ok in H as ([l e] & _ & H). eapply reports_wf; [exact H|]. cbn [snd base on_base with_env with_fs node].
  destruct (0 <? _); [|done].
  cbn [base on_base]. unfold notify_idle. by rewrite (proj1 (quiet_notify CbIdle app_idle (base w2))).
Qed.

Lemma run_loop_wf fuel interval w w' : run_loop fuel interval w = Ok w' -> node_wf (node (base w)) -> node_wf (node (base w')).
Proof.
  revert w. induction fuel as [|fuel IH]; intros w; cbn [run_loop]; destruct (fask quit w) as [q w1] eqn:H1; apply fask_node in H1;
    (destruct q; [intros [= <-]; by rewrite H1|]); [done|]. intros H Hw. apply bind_ok in H as (w2 & H2%run_once_wf & H); [|by rewrite H1].
  by eapply IH.
Qed.

(** More fuel does not change what a loop returns. *)
Lemma run_loop_more fuel interval w w' : run_loop fuel interval w = Ok w' -> forall k, run_loop (fuel + k) interval w = Ok w'.
Proof.
  revert w. induction fuel as [|fuel IH]; intros w H k.
  - cbn [run_loop] in H. destruct k; cbn [Nat.add run_loop]; destruct (fask quit w) as [q w1]; by destruct q.
  - cbn [Nat.add run_loop] in *. destruct (fask quit w) as [q w1]; destruct q; [done|].
    apply bind_ok in H as (w2 & H2 & H). rewrite H2. bind_simpl. by apply IH.
Qed.

Lemma notify_friends_quiet (v : @Carrier.world E) : quiet v (notify_friends v).
Proof.
  unfold notify_friends. eapply quiet_trans; [|apply quiet_notify]. generalize (friends_iterate (friends (node v))). intros l.
  revert v. induction l as [|fi l IH]; intros v; cbn [foldl]; [done|]. eapply quiet_trans; [apply quiet_notify|apply IH].
Qed.

Lemma bootstraps_node l w w' : connect_to_bootstraps l w = Ok w' -> node_kept w w'.
Proof.
  revert w. induction l as [|b l IH]; intros w; cbn [connect_to_bootstraps]; [by intros [= <-]|].
  intros H. apply bind_ok in H as ([rc e] & _ & H). eapply kept_trans; [|by apply IH]. done.
Qed.

(** A run from a node in order ends in order. *)
Lemma run_wf fuel p interval w rc w' : IOEX_run fuel p interval w = Ok (rc, w') -> node_wf (node (base w)) -> node_wf (node (base w')).
Proof.
  unfold IOEX_run. intros H Hw. destruct (interval <? 0); [by injection H as _ <-|].
  apply bind_ok in H as (w0 & H0 & H). apply bind_ok in H as (w1 & H1 & H). apply bind_ok in H as (w2 & H2 & H). injection H as <- <-.
  unfold lift in H2. apply bind_ok in H2 as (v & [[Hv _] _]%store_quiet & H2). injection H2 as <-. cbn. rewrite Hv.
  eapply run_loop_wf; [exact H1|]. rewrite (bootstraps_node _ _ _ H0). cbn. destruct (notify_friends_quiet (base w)) as [-> _]. exact Hw.
Qed.

(** More rounds allowed for do not change what a run returns. *)
Lemma run_more fuel p interval w rc w' k : IOEX_run fuel p interval w = Ok (rc, w') -> IOEX_run (fuel + k) p interval w = Ok (rc, w').
Proof.
  unfold IOEX_run. destruct (interval <? 0); [done|]. intros H. apply bind_ok in H as (w0 & H0 & H). apply bind_ok in H as (w1 & H1 & H).
  rewrite H0. bind_simpl. by rewrite (run_loop_more _ _ _ _ H1 k).
Qed.


(** ** The relay server *)

(** A text in base 58: it fits, and reads as what was written. *)
Definition reads_as (text data : bytes) : Prop := Base58.base58_decode text (zlen text) (zlen data) = Ok (zlen data, Some data).

Lemma encode_text_ok data size : Base58.digits_ok 256 data -> data <> [] -> zlen data * 138 / 100 + 1 < size ->
  exists text, encode_text data size = Ok text /\ zlen text < size /\ reads_as text data.
Proof.
  intros Hd Hne Hs. destruct (Base58.encode_fits data size Hd Hs) as (t & n & He).
  destruct (Base58.encoded_string data size t n Hd Hne He) as (T & -> & Hl & _ & Hc & Hr). exists T. split_and!.
  - unfold encode_text. rewrite He. bind_simpl. cbn [fst]. by apply PersistThm.string_at_spec.
  - destruct (Base58.encode_ok data size Hd) as (D & _ & _ & _ & He'). cbv zeta in He'. rewrite He in He'.
    destruct (Z.leb_spec size (Z.of_nat (Base58.leading 0 data) + zlen D)); [discriminate|]. injection He' as _ ->. lia.
  - unfold reads_as. rewrite <- (app_nil_r T) at 1. apply Hr.
Qed.

(** libsodium's random numbers. *)
Definition good_nonces : Prop := forall e : E, zlen (fst (crypto_random_nonce e)) = Crypto.NONCE_BYTES /\
  Base58.digits_ok 256 (fst (crypto_random_nonce e)).

Lemma relay_node k v r v' : get_tcp_relay k v = (r, v') -> node v' = node v.
Proof.
  revert v. induction k as [|k IH]; intros v; cbn [get_tcp_relay];
    match goal with |- context [ask ?f v] => destruct (ask_cases f v) as ([[rc s] pk] & v1 & -> & [Hn _] & _) end;
    destruct (rc <? 0); try (by intros [= _ <-]); intros H%IH; congruence.
Qed.

(** The account on a relay server: when the DHT gives a relay at one of five
    attempts, the call returns 0 with the relay's address, the fixed port and realm, a
    user name made of the node's name and a nonce, and a password that stands for the
    code of that nonce under the key that the node and the relay share, so that the
    relay, which knows the key, can tell from the name what the password must be; when
    it gives none, the call returns -1 and nothing is written. *)
Theorem turn_server_account `{NL : !Crypto.NaclLaws} old stack (v : @Carrier.world E) : good_nonces -> zlen (userid (me (node v))) <= IOEX_MAX_ID_LEN ->
  match get_tcp_relay 4 v with
  | (Some (host, pk), v1) =>
      let key := compute_symmetric_key pk (dht_self_get_secret_key (env v1)) stack in
      0 < zlen key ->
      exists turn v2 nonce text, IOEX_get_turn_server old stack v = Ok (0, turn, v2) /\ node v2 = node v /\
        server turn = host /\ turn_port turn = TURN_SERVER_PORT /\ realm turn = TURN_REALM /\
        username turn = userid (me (node v)) ++ 64 :: text ++ 46 :: TURN_SERVER_USER_SUFFIX /\ reads_as text nonce /\
        zlen nonce = Crypto.NONCE_BYTES /\ reads_as (password turn) (Crypto.crypto_auth_hmacsha256 key nonce)
  | (None, v1) => exists v2, IOEX_get_turn_server old stack v = Ok (-1, old, v2) /\ node v2 = node v
  end.
Proof.
  intros Hg Hid. destruct (get_tcp_relay 4 v) as [[[host pk]|] v1] eqn:Hr; pose proof (relay_node _ _ _ _ Hr) as Hn1.
  2: { unfold IOEX_get_turn_server. rewrite Hr. eexists. split; [reflexivity|exact Hn1]. }
  intros key Hk. unfold IOEX_get_turn_server. rewrite Hr. fold key. unfold ask. specialize (Hg (env v1)).
  destruct (crypto_random_nonce (env v1)) as [nonce e]. cbn in Hg. destruct Hg as [Hl Hd].
  unfold Crypto.hmac_sha256. rewrite (proj2 (Z.leb_gt (zlen key) 0)), Hl by lia. cbn [negb orb].
  change (Crypto.NONCE_BYTES <=? 0) with false. change (Crypto.SHA256_BYTES =? 0) with false.
  change (Crypto.SHA256_BYTES <? Crypto.SHA256_BYTES) with false. cbn [orb].
  destruct (Crypto.hmac_shape key nonce) as [Hh Hb].
  destruct (encode_text_ok (Crypto.crypto_auth_hmacsha256 key nonce) (IOEX_MAX_TURN_PASSWORD_LEN + 1)) as (pw & -> & _ & Hpw);
    [exact Hb|by intros Hx; rewrite Hx in Hh|by rewrite Hh|]. bind_simpl.
  destruct (encode_text_ok nonce 64) as (text & -> & Hlt & Ht); [exact Hd|by intros Hx; rewrite Hx in Hl|by rewrite Hl|]. bind_simpl.
  rewrite (CarrierInvite.strcpy_ok _ (userid _ ++ _)).
  2: { cbn [node with_env with_fs]. rewrite Hn1, !zlen_app, zlen_cons, zlen_app, zlen_cons. change (zlen TURN_SERVER_USER_SUFFIX) with 8.
       unfold IOEX_MAX_ID_LEN, IOEX_MAX_TURN_USERNAME_LEN in *. lia. }
  bind_simpl. eexists _, _, nonce, text. split; [reflexivity|]. cbn. by rewrite Hn1.
Qed.

End Run.

(** ** A run *)

Section Demo.
Import CarrierDemo.
#[local] Existing Instance demo_numbers.

(** The DHT reports the connection, a friend's file and its end, and the node is told
    to stop. *)
#[local] Instance demo_run : DhtRun env := {
  dht_bootstrap _ _ _ _ e := Ok (0, e);
  dht_iteration_idle e := (50, e);
  dht_iterate e := Ok ([ReportConnection true; ReportFileRequest 7 65536 [97] 5; ReportChunk 7 65536 0 [1; 2]; ReportFilePaused 7 65536;
    ReportChunk 7 65536 2 []; ReportStatus 7 1], mkEnv (has_friend e) false);
  quit e := (negb (takes e), e);
  dht_self_set_nospam _ e := e;
  dht_self_get_nospam _ := 0;
  dht_get_random_tcp_relay _ e := (0, [49; 46; 50], replicate 32 6, e);
  dht_self_get_secret_key _ := replicate 32 4;
  crypto_random_nonce e := (replicate 24 200, e);
  crypto_box_beforenm pk sk := Some (take 16 pk ++ take 16 sk);
}.

#[local] Existing Instance CarrierFilesThm.demo_filesystem.

Definition start : outcome (option (list BootstrapNodeBuf) * @Carrier.world env) :=
  IOEX_new (Some demo_options) (Some (fun _ => true)) (Persist.mkW (mkEnv true true) ∅ []).

Definition on_files (v : @Carrier.world env) : @fworld env := mkFW v (fun _ => true) [] [] ∅ [].

Example node_start_run : result start fst = Some (Some [mkBuf [49; 46; 50] [] 33 (replicate 32 9)]).
Proof. vm_compute. reflexivity. Qed.

Definition run : outcome (Z * @fworld env) := r ← start; IOEX_run 1 (default [] (fst r)) 0 (on_files (snd r)).

Example loop_run :
  result run (fun r => (length (calls (base (snd r))), user_files (snd r) !! [47; 116; 109; 112; 47; 97], file_receivers (snd r)))
  = Some (6%nat, Some [1; 2], []).
Proof. vm_compute. reflexivity. Qed.

Lemma start_then p (b : @Carrier.world env) r : start = Ok (p, b) -> run = Ok r -> IOEX_run 1 (default [] p) 0 (on_files b) = Ok r.
Proof. unfold run. intros ->. exact (fun H => H). Qed.


Definition no_turn : IOEXTurnServer := mkTurn [] 0 [] [] [].

Lemma turn_server_account_witness :
  exists turn v2 nonce, IOEX_get_turn_server no_turn [] (demo 5 None) = Ok (0, turn, v2) /\ server turn = [49; 46; 50] /\
    zlen nonce = 24 /\ reads_as (password turn) (Crypto.crypto_auth_hmacsha256 (replicate 16 6 ++ replicate 16 4) nonce).
Proof.
  pose proof (turn_server_account (NL := CryptoThm.toy_laws) no_turn [] (demo 5 None)) as H.
  assert (@good_nonces env demo_run) as Hg by (intros e; split; [reflexivity|repeat constructor; discriminate]).
  specialize (H Hg ltac:(vm_compute; discriminate)). cbv zeta in H.
  destruct (H eq_refl) as (turn & v2 & nonce & text & H1 & _ & H2 & _ & _ & _ & _ & H4 & H3).
  exists turn, v2, nonce. split; [exact H1|]. split; [exact H2|]. split; [exact H4|exact H3].
Defined.

End Demo.

End CarrierRunThm.
