(* ===== verification/DhtAdaptor.v ===== *)
(** * The DHT adaptor

    src/src/carrier/dht/dht.c and dht_callbacks.h, between the node and toxcore: what
    toxcore answers becomes the node's error codes, what it reports becomes calls of the
    node's functions, and each call of the node's interface to its DHT becomes calls of
    toxcore. The instances at the end are that interface, so that everything that
    Carrier*.v says of a node holds of one that runs on toxcore. *)

From Stdlib Require Import ZArith Lia.
From stdpp Require Import prelude list.
From S2P Require Import Prelude Mux CStr Tables Node Persist Carrier CarrierStart CarrierFiles CarrierRun.

Module DhtAdaptor.
Import CStr Tables Node CarrierStart CarrierFiles CarrierRun.

(** ** Error codes *)

Definition IOEX_DHT_ERROR (code : Z) : Z := Mux.IOEX_MK_ERROR 6 code.
Definition IOEXERR_INVALID_ARGS : Z := 0x01.
Definition IOEXERR_OUT_OF_MEMORY : Z := 0x02.
Definition IOEXERR_BAD_PERSISTENT_DATA : Z := 0x04.
Definition IOEXERR_NOT_EXIST : Z := 0x0B.
Definition IOEXERR_ALREADY_EXIST : Z := 0x0C.
Definition IOEXERR_WRONG_STATE : Z := 0x12.
Definition IOEXERR_LIMIT_EXCEEDED : Z := 0x19.
Definition IOEXERR_PORT_ALLOC : Z := 0x1A.
Definition IOEXERR_BAD_PROXY_TYPE : Z := 0x1B.
Definition IOEXERR_BAD_PROXY_HOST : Z := 0x1C.
Definition IOEXERR_BAD_PROXY_PORT : Z := 0x1D.
Definition IOEXERR_PROXY_NOT_AVAILABLE : Z := 0x1E.
Definition IOEXERR_ENCRYPTED_PERSISTENT_DATA : Z := 0x1F.
Definition IOEXERR_BAD_BOOTSTRAP_HOST : Z := 0x20.
Definition IOEXERR_BAD_BOOTSTRAP_PORT : Z := 0x21.
Definition IOEXERR_TOO_LONG : Z := 0x22.
Definition IOEXERR_ADD_SELF : Z := 0x23.
Definition IOEXERR_BAD_ADDRESS : Z := 0x24.
Definition IOEXERR_FRIEND_OFFLINE : Z := 0x25.
Definition IOEXERR_FILE_INVALID : Z := 0x27.
Definition IOEXERR_UNKNOWN : Z := 0xFF.

(** toxcore's enumerations, with the members that the code names; any other value goes
    where the code sends it with [default]. *)
Inductive TOX_ERR_NEW :=
  TOX_ERR_NEW_OK | TOX_ERR_NEW_NULL | TOX_ERR_NEW_MALLOC | TOX_ERR_NEW_PORT_ALLOC
  | TOX_ERR_NEW_PROXY_BAD_TYPE | TOX_ERR_NEW_PROXY_BAD_HOST | TOX_ERR_NEW_PROXY_BAD_PORT
  | TOX_ERR_NEW_PROXY_NOT_FOUND | TOX_ERR_NEW_LOAD_ENCRYPTED | TOX_ERR_NEW_LOAD_BAD_FORMAT
  | TOX_ERR_NEW_other (code : Z).
Inductive TOX_ERR_BOOTSTRAP :=
  TOX_ERR_BOOTSTRAP_OK | TOX_ERR_BOOTSTRAP_NULL | TOX_ERR_BOOTSTRAP_BAD_HOST | TOX_ERR_BOOTSTRAP_BAD_PORT
  | TOX_ERR_BOOTSTRAP_other (code : Z).
Inductive TOX_ERR_FRIEND_QUERY :=
  TOX_ERR_FRIEND_QUERY_OK | TOX_ERR_FRIEND_QUERY_NULL | TOX_ERR_FRIEND_QUERY_FRIEND_NOT_FOUND
  | TOX_ERR_FRIEND_QUERY_other (code : Z).
Inductive TOX_ERR_FRIEND_GET_PUBLIC_KEY :=
  TOX_ERR_FRIEND_GET_PUBLIC_KEY_OK | TOX_ERR_FRIEND_GET_PUBLIC_KEY_FRIEND_NOT_FOUND
  | TOX_ERR_FRIEND_GET_PUBLIC_KEY_other (code : Z).
Inductive TOX_ERR_SET_INFO :=
  TOX_ERR_SET_INFO_OK | TOX_ERR_SET_INFO_NULL | TOX_ERR_SET_INFO_TOO_LONG
  | TOX_ERR_SET_INFO_other (code : Z).
Inductive TOX_ERR_FRIEND_BY_PUBLIC_KEY :=
  TOX_ERR_FRIEND_BY_PUBLIC_KEY_OK | TOX_ERR_FRIEND_BY_PUBLIC_KEY_NULL
  | TOX_ERR_FRIEND_BY_PUBLIC_KEY_NOT_FOUND | TOX_ERR_FRIEND_BY_PUBLIC_KEY_other (code : Z).
Inductive TOX_ERR_FRIEND_ADD :=
  TOX_ERR_FRIEND_ADD_OK | TOX_ERR_FRIEND_ADD_NULL | TOX_ERR_FRIEND_ADD_TOO_LONG
  | TOX_ERR_FRIEND_ADD_NO_MESSAGE | TOX_ERR_FRIEND_ADD_OWN_KEY | TOX_ERR_FRIEND_ADD_ALREADY_SENT
  | TOX_ERR_FRIEND_ADD_BAD_CHECKSUM | TOX_ERR_FRIEND_ADD_SET_NEW_NOSPAM | TOX_ERR_FRIEND_ADD_MALLOC
  | TOX_ERR_FRIEND_ADD_other (code : Z).
Inductive TOX_ERR_FRIEND_SEND_MESSAGE :=
  TOX_ERR_FRIEND_SEND_MESSAGE_OK | TOX_ERR_FRIEND_SEND_MESSAGE_NULL
  | TOX_ERR_FRIEND_SEND_MESSAGE_FRIEND_NOT_FOUND | TOX_ERR_FRIEND_SEND_MESSAGE_FRIEND_NOT_CONNECTED
  | TOX_ERR_FRIEND_SEND_MESSAGE_SENDQ | TOX_ERR_FRIEND_SEND_MESSAGE_TOO_LONG
  | TOX_ERR_FRIEND_SEND_MESSAGE_EMPTY | TOX_ERR_FRIEND_SEND_MESSAGE_other (code : Z).
Inductive TOX_ERR_FRIEND_DELETE :=
  TOX_ERR_FRIEND_DELETE_OK | TOX_ERR_FRIEND_DELETE_FRIEND_NOT_FOUND | TOX_ERR_FRIEND_DELETE_other (code : Z).
Inductive TOX_ERR_FILE_SEND :=
  TOX_ERR_FILE_SEND_OK | TOX_ERR_FILE_SEND_FRIEND_NOT_FOUND | TOX_ERR_FILE_SEND_FRIEND_NOT_CONNECTED
  | TOX_ERR_FILE_SEND_NULL | TOX_ERR_FILE_SEND_NAME_TOO_LONG | TOX_ERR_FILE_SEND_TOO_MANY
  | TOX_ERR_FILE_SEND_other (code : Z).
Inductive TOX_ERR_FILE_SEEK :=
  TOX_ERR_FILE_SEEK_OK | TOX_ERR_FILE_SEEK_FRIEND_NOT_FOUND | TOX_ERR_FILE_SEEK_FRIEND_NOT_CONNECTED
  | TOX_ERR_FILE_SEEK_NOT_FOUND | TOX_ERR_FILE_SEEK_INVALID_POSITION | TOX_ERR_FILE_SEEK_DENIED
  | TOX_ERR_FILE_SEEK_SENDQ | TOX_ERR_FILE_SEEK_other (code : Z).
Inductive TOX_ERR_FILE_CONTROL :=
  TOX_ERR_FILE_CONTROL_OK | TOX_ERR_FILE_CONTROL_FRIEND_NOT_FOUND
  | TOX_ERR_FILE_CONTROL_FRIEND_NOT_CONNECTED | TOX_ERR_FILE_CONTROL_NOT_FOUND
  | TOX_ERR_FILE_CONTROL_NOT_PAUSED | TOX_ERR_FILE_CONTROL_DENIED | TOX_ERR_FILE_CONTROL_ALREADY_PAUSED
  | TOX_ERR_FILE_CONTROL_SENDQ | TOX_ERR_FILE_CONTROL_other (code : Z).
Inductive TOX_ERR_FILE_SEND_CHUNK :=
  TOX_ERR_FILE_SEND_CHUNK_OK | TOX_ERR_FILE_SEND_CHUNK_NULL | TOX_ERR_FILE_SEND_CHUNK_FRIEND_NOT_FOUND
  | TOX_ERR_FILE_SEND_CHUNK_FRIEND_NOT_CONNECTED | TOX_ERR_FILE_SEND_CHUNK_NOT_FOUND
  | TOX_ERR_FILE_SEND_CHUNK_INVALID_LENGTH | TOX_ERR_FILE_SEND_CHUNK_WRONG_POSITION
  | TOX_ERR_FILE_SEND_CHUNK_NOT_TRANSFERRING | TOX_ERR_FILE_SEND_CHUNK_SENDQ
  | TOX_ERR_FILE_SEND_CHUNK_other (code : Z).

Inductive TOX_CONNECTION := TOX_CONNECTION_NONE | TOX_CONNECTION_TCP | TOX_CONNECTION_UDP | TOX_CONNECTION_other (code : Z).
Inductive TOX_MESSAGE_TYPE := TOX_MESSAGE_TYPE_NORMAL | TOX_MESSAGE_TYPE_other (code : Z).
Inductive TOX_FILE_CONTROL :=
  TOX_FILE_CONTROL_RESUME | TOX_FILE_CONTROL_PAUSE | TOX_FILE_CONTROL_CANCEL | TOX_FILE_CONTROL_other (code : Z).

Definition __dht_new_error (code : TOX_ERR_NEW) : Z :=
  match code with
  | TOX_ERR_NEW_OK => IOEXSUCCESS
  | TOX_ERR_NEW_NULL => IOEX_DHT_ERROR IOEXERR_INVALID_ARGS
  | TOX_ERR_NEW_MALLOC => IOEX_DHT_ERROR IOEXERR_OUT_OF_MEMORY
  | TOX_ERR_NEW_PORT_ALLOC => IOEX_DHT_ERROR IOEXERR_PORT_ALLOC
  | TOX_ERR_NEW_PROXY_BAD_TYPE => IOEX_DHT_ERROR IOEXERR_BAD_PROXY_TYPE
  | TOX_ERR_NEW_PROXY_BAD_HOST => IOEX_DHT_ERROR IOEXERR_BAD_PROXY_HOST
  | TOX_ERR_NEW_PROXY_BAD_PORT => IOEX_DHT_ERROR IOEXERR_BAD_PROXY_PORT
  | TOX_ERR_NEW_PROXY_NOT_FOUND => IOEX_DHT_ERROR IOEXERR_PROXY_NOT_AVAILABLE
  | TOX_ERR_NEW_LOAD_ENCRYPTED => IOEX_DHT_ERROR IOEXERR_ENCRYPTED_PERSISTENT_DATA
  | TOX_ERR_NEW_LOAD_BAD_FORMAT => IOEX_DHT_ERROR IOEXERR_BAD_PERSISTENT_DATA
  | _ => IOEX_DHT_ERROR IOEXERR_UNKNOWN
  end.

Definition __dht_bootstrap_error (code : TOX_ERR_BOOTSTRAP) : Z :=
  match code with
  | TOX_ERR_BOOTSTRAP_OK => IOEXSUCCESS
  | TOX_ERR_BOOTSTRAP_NULL => IOEX_DHT_ERROR IOEXERR_INVALID_ARGS
  | TOX_ERR_BOOTSTRAP_BAD_HOST => IOEX_DHT_ERROR IOEXERR_BAD_BOOTSTRAP_HOST
  | TOX_ERR_BOOTSTRAP_BAD_PORT => IOEX_DHT_ERROR IOEXERR_BAD_BOOTSTRAP_PORT
  | _ => IOEX_DHT_ERROR IOEXERR_UNKNOWN
  end.

Definition __dht_friend_query_error (code : TOX_ERR_FRIEND_QUERY) : Z :=
  match code with
  | TOX_ERR_FRIEND_QUERY_OK => IOEXSUCCESS
  | TOX_ERR_FRIEND_QUERY_NULL => IOEX_DHT_ERROR IOEXERR_INVALID_ARGS
  | TOX_ERR_FRIEND_QUERY_FRIEND_NOT_FOUND => IOEX_DHT_ERROR IOEXERR_NOT_EXIST
  | _ => IOEX_DHT_ERROR IOEXERR_UNKNOWN
  end.

Definition __dht_friend_get_pk_error (code : TOX_ERR_FRIEND_GET_PUBLIC_KEY) : Z :=
  match code with
  | TOX_ERR_FRIEND_GET_PUBLIC_KEY_OK => IOEXSUCCESS
  | TOX_ERR_FRIEND_GET_PUBLIC_KEY_FRIEND_NOT_FOUND => IOEX_DHT_ERROR IOEXERR_NOT_EXIST
  | _ => IOEX_DHT_ERROR IOEXERR_UNKNOWN
  end.

Definition __dht_set_info_error (code : TOX_ERR_SET_INFO) : Z :=
  match code with
  | TOX_ERR_SET_INFO_OK => IOEXSUCCESS
  | TOX_ERR_SET_INFO_NULL => IOEX_DHT_ERROR IOEXERR_INVALID_ARGS
  | TOX_ERR_SET_INFO_TOO_LONG => IOEX_DHT_ERROR IOEXERR_TOO_LONG
  | _ => IOEX_DHT_ERROR IOEXERR_UNKNOWN
  end.

Definition __dht_friend_by_pk_error (code : TOX_ERR_FRIEND_BY_PUBLIC_KEY) : Z :=
  match code with
  | TOX_ERR_FRIEND_BY_PUBLIC_KEY_OK => IOEXSUCCESS
  | TOX_ERR_FRIEND_BY_PUBLIC_KEY_NULL => IOEX_DHT_ERROR IOEXERR_INVALID_ARGS
  | TOX_ERR_FRIEND_BY_PUBLIC_KEY_NOT_FOUND => IOEX_DHT_ERROR IOEXERR_NOT_EXIST
  | _ => IOEX_DHT_ERROR IOEXERR_UNKNOWN
  end.

Definition __dht_friend_add_error (code : TOX_ERR_FRIEND_ADD) : Z :=
  match code with
  | TOX_ERR_FRIEND_ADD_OK => IOEXSUCCESS
  | TOX_ERR_FRIEND_ADD_NULL => IOEX_DHT_ERROR IOEXERR_INVALID_ARGS
  | TOX_ERR_FRIEND_ADD_TOO_LONG => IOEX_DHT_ERROR IOEXERR_TOO_LONG
  | TOX_ERR_FRIEND_ADD_NO_MESSAGE => IOEX_DHT_ERROR IOEXERR_INVALID_ARGS
  | TOX_ERR_FRIEND_ADD_OWN_KEY => IOEX_DHT_ERROR IOEXERR_ADD_SELF
  | TOX_ERR_FRIEND_ADD_ALREADY_SENT => IOEX_DHT_ERROR IOEXERR_ALREADY_EXIST
  | TOX_ERR_FRIEND_ADD_BAD_CHECKSUM | TOX_ERR_FRIEND_ADD_SET_NEW_NOSPAM => IOEX_DHT_ERROR IOEXERR_BAD_ADDRESS
  | TOX_ERR_FRIEND_ADD_MALLOC => IOEX_DHT_ERROR IOEXERR_OUT_OF_MEMORY
  | _ => IOEX_DHT_ERROR IOEXERR_UNKNOWN
  end.

Definition __dht_friend_send_msg_error (code : TOX_ERR_FRIEND_SEND_MESSAGE) : Z :=
  match code with
  | TOX_ERR_FRIEND_SEND_MESSAGE_OK => IOEXSUCCESS
  | TOX_ERR_FRIEND_SEND_MESSAGE_NULL => IOEX_DHT_ERROR IOEXERR_INVALID_ARGS
  | TOX_ERR_FRIEND_SEND_MESSAGE_FRIEND_NOT_FOUND => IOEX_DHT_ERROR IOEXERR_NOT_EXIST
  | TOX_ERR_FRIEND_SEND_MESSAGE_FRIEND_NOT_CONNECTED => IOEX_DHT_ERROR IOEXERR_FRIEND_OFFLINE
  | TOX_ERR_FRIEND_SEND_MESSAGE_SENDQ => IOEX_DHT_ERROR IOEXERR_OUT_OF_MEMORY
  | TOX_ERR_FRIEND_SEND_MESSAGE_TOO_LONG => IOEX_DHT_ERROR IOEXERR_TOO_LONG
  | TOX_ERR_FRIEND_SEND_MESSAGE_EMPTY => IOEX_DHT_ERROR IOEXERR_INVALID_ARGS
  | _ => IOEX_DHT_ERROR IOEXERR_UNKNOWN
  end.

Definition __dht_friend_delete_error (code : TOX_ERR_FRIEND_DELETE) : Z :=
  match code with
  | TOX_ERR_FRIEND_DELETE_OK => IOEXSUCCESS
  | TOX_ERR_FRIEND_DELETE_FRIEND_NOT_FOUND => IOEX_DHT_ERROR IOEXERR_NOT_EXIST
  | _ => IOEX_DHT_ERROR IOEXERR_UNKNOWN
  end.

Definition __dht_file_send_error (code : TOX_ERR_FILE_SEND) : Z :=
  match code with
  | TOX_ERR_FILE_SEND_OK => IOEXSUCCESS
  | TOX_ERR_FILE_SEND_FRIEND_NOT_FOUND => IOEX_DHT_ERROR IOEXERR_NOT_EXIST
  | TOX_ERR_FILE_SEND_FRIEND_NOT_CONNECTED => IOEX_DHT_ERROR IOEXERR_FRIEND_OFFLINE
  | TOX_ERR_FILE_SEND_NULL | TOX_ERR_FILE_SEND_NAME_TOO_LONG => IOEX_DHT_ERROR IOEXERR_FILE_INVALID
  | TOX_ERR_FILE_SEND_TOO_MANY => IOEX_DHT_ERROR IOEXERR_LIMIT_EXCEEDED
  | _ => IOEX_DHT_ERROR IOEXERR_UNKNOWN
  end.

Definition __dht_file_seek_error (code : TOX_ERR_FILE_SEEK) : Z :=
  match code with
  | TOX_ERR_FILE_SEEK_OK => IOEXSUCCESS
  | TOX_ERR_FILE_SEEK_FRIEND_NOT_FOUND => IOEX_DHT_ERROR IOEXERR_NOT_EXIST
  | TOX_ERR_FILE_SEEK_FRIEND_NOT_CONNECTED => IOEX_DHT_ERROR IOEXERR_FRIEND_OFFLINE
  | TOX_ERR_FILE_SEEK_NOT_FOUND | TOX_ERR_FILE_SEEK_INVALID_POSITION => IOEX_DHT_ERROR IOEXERR_FILE_INVALID
  | TOX_ERR_FILE_SEEK_DENIED => IOEX_DHT_ERROR IOEXERR_WRONG_STATE
  | TOX_ERR_FILE_SEEK_SENDQ => IOEX_DHT_ERROR IOEXERR_LIMIT_EXCEEDED
  | _ => IOEX_DHT_ERROR IOEXERR_UNKNOWN
  end.

Definition __dht_file_control_error (code : TOX_ERR_FILE_CONTROL) : Z :=
  match code with
  | TOX_ERR_FILE_CONTROL_OK => IOEXSUCCESS
  | TOX_ERR_FILE_CONTROL_FRIEND_NOT_FOUND => IOEX_DHT_ERROR IOEXERR_NOT_EXIST
  | TOX_ERR_FILE_CONTROL_FRIEND_NOT_CONNECTED => IOEX_DHT_ERROR IOEXERR_FRIEND_OFFLINE
  | TOX_ERR_FILE_CONTROL_NOT_FOUND => IOEX_DHT_ERROR IOEXERR_FILE_INVALID
  | TOX_ERR_FILE_CONTROL_NOT_PAUSED | TOX_ERR_FILE_CONTROL_DENIED | TOX_ERR_FILE_CONTROL_ALREADY_PAUSED => IOEX_DHT_ERROR IOEXERR_WRONG_STATE
  | TOX_ERR_FILE_CONTROL_SENDQ => IOEX_DHT_ERROR IOEXERR_LIMIT_EXCEEDED
  | _ => IOEX_DHT_ERROR IOEXERR_UNKNOWN
  end.

Definition __dht_file_send_chunk_error (code : TOX_ERR_FILE_SEND_CHUNK) : Z :=
  match code with
  | TOX_ERR_FILE_SEND_CHUNK_OK => IOEXSUCCESS
  | TOX_ERR_FILE_SEND_CHUNK_NULL => IOEX_DHT_ERROR IOEXERR_FILE_INVALID
  | TOX_ERR_FILE_SEND_CHUNK_FRIEND_NOT_FOUND => IOEX_DHT_ERROR IOEXERR_NOT_EXIST
  | TOX_ERR_FILE_SEND_CHUNK_FRIEND_NOT_CONNECTED => IOEX_DHT_ERROR IOEXERR_FRIEND_OFFLINE
  | TOX_ERR_FILE_SEND_CHUNK_NOT_FOUND | TOX_ERR_FILE_SEND_CHUNK_INVALID_LENGTH | TOX_ERR_FILE_SEND_CHUNK_WRONG_POSITION => IOEX_DHT_ERROR IOEXERR_FILE_INVALID
  | TOX_ERR_FILE_SEND_CHUNK_NOT_TRANSFERRING => IOEX_DHT_ERROR IOEXERR_WRONG_STATE
  | TOX_ERR_FILE_SEND_CHUNK_SENDQ => IOEX_DHT_ERROR IOEXERR_LIMIT_EXCEEDED
  | _ => IOEX_DHT_ERROR IOEXERR_UNKNOWN
  end.

Definition is_connected (connection : TOX_CONNECTION) : bool :=
  match connection with
  | TOX_CONNECTION_TCP | TOX_CONNECTION_UDP => true
  | TOX_CONNECTION_NONE | TOX_CONNECTION_other _ => false
  end.

(** ** toxcore *)

(** What toxcore reports while it iterates. A name of a file is the memory from the
    pointer on, with its length beside it. *)
Inductive tox_report :=
| self_connection_status (connection : TOX_CONNECTION)
| friend_status_message (n : Z) (message : bytes)
| friend_connection_status (n : Z) (connection : TOX_CONNECTION)
| friend_status (n status : Z)
| friend_request (key hello : bytes)
| friend_message (n : Z) (type : TOX_MESSAGE_TYPE) (message : bytes)
| file_recv (n i kind size : Z) (filename : bytes) (filename_length : Z)
| file_recv_control (n i : Z) (control : TOX_FILE_CONTROL)
| file_chunk_request (n i position length : Z)
| file_recv_chunk (n i position : Z) (data : bytes).

(** The options that [dht_new] sets; the others have toxcore's defaults. *)
Record Tox_Options := mkToxOptions {
  local_discovery_enabled : bool; ipv6_enabled : bool; tox_udp_enabled : bool; savedata : option bytes }.

(** toxcore, with state [T]. A query leaves the state alone. A result that says whether
    the call succeeded stands before its error code. *)
Class Tox (T : Type) := {
  tox_new : Tox_Options -> T -> bool * TOX_ERR_NEW * T;
  tox_bootstrap : bytes -> Z -> bytes -> T -> bool * TOX_ERR_BOOTSTRAP * T;
  tox_add_tcp_relay : bytes -> Z -> bytes -> T -> bool * TOX_ERR_BOOTSTRAP * T;
  tox_self_set_nospam : Z -> T -> T;
  tox_self_get_nospam : T -> Z;
  tox_self_get_secret_key : T -> bytes;
  tox_self_set_status : Z -> T -> T;
  tox_self_get_status : T -> Z;
  tox_self_get_address : T -> bytes;
  tox_self_get_public_key : T -> bytes;
  tox_self_get_status_message : T -> bytes;
  tox_self_get_friend_list : T -> list Z;
  TOX_MAX_STATUS_MESSAGE_LENGTH : Z;
  tox_friend_get_status_message_size : Z -> T -> Z * TOX_ERR_FRIEND_QUERY;
  tox_friend_get_status_message : Z -> T -> bool * bytes * TOX_ERR_FRIEND_QUERY;
  tox_friend_get_status : Z -> T -> Z * TOX_ERR_FRIEND_QUERY;
  tox_friend_get_public_key : Z -> T -> bool * bytes * TOX_ERR_FRIEND_GET_PUBLIC_KEY;
  tox_get_savedata : T -> bytes;
  tox_iteration_interval : T -> Z;
  tox_iterate : T -> list tox_report * T;
  tox_self_set_name : bytes -> T -> bool * TOX_ERR_SET_INFO * T;
  tox_self_set_status_message : bytes -> T -> bool * TOX_ERR_SET_INFO * T;
  tox_friend_by_public_key : bytes -> T -> Z * TOX_ERR_FRIEND_BY_PUBLIC_KEY;
  tox_friend_add : bytes -> bytes -> T -> Z * TOX_ERR_FRIEND_ADD * T;
  tox_friend_add_norequest : bytes -> T -> Z * TOX_ERR_FRIEND_ADD * T;
  tox_friend_send_message : Z -> bytes -> T -> TOX_ERR_FRIEND_SEND_MESSAGE * T;
  tox_friend_delete : Z -> T -> TOX_ERR_FRIEND_DELETE * T;
  tox_self_get_random_tcp_relay : T -> Z * bytes * bytes * T;
  tox_file_send : Z -> Z -> bytes -> T -> Z * TOX_ERR_FILE_SEND * T;
  tox_file_control : Z -> Z -> TOX_FILE_CONTROL -> T -> bool * TOX_ERR_FILE_CONTROL * T;
  tox_file_seek : Z -> Z -> Z -> T -> bool * TOX_ERR_FILE_SEEK * T;
  tox_file_send_chunk : Z -> Z -> Z -> bytes -> T -> bool * TOX_ERR_FILE_SEND_CHUNK * T;
}.

(** ** Reports *)

Definition notify_connection_cb (c : TOX_CONNECTION) : list dht_report := [ReportConnection (is_connected c)].
Definition notify_friend_status_message_cb (n : Z) (m : bytes) : list dht_report := [ReportDescription n m].
Definition notify_friend_connection_cb (n : Z) (c : TOX_CONNECTION) : list dht_report :=
  [ReportFriendConnection n (is_connected c)].
Definition notify_friend_status_cb (n status : Z) : list dht_report := [ReportStatus n status].
Definition notify_friend_request_cb (key hello : bytes) : list dht_report := [ReportRequest key hello].
Definition notify_friend_message_cb (n : Z) (type : TOX_MESSAGE_TYPE) (m : bytes) : list dht_report :=
  match type with TOX_MESSAGE_TYPE_NORMAL => [ReportMessage n m] | _ => [] end.

(** The length stays behind: the node reads the name up to its terminator. *)
Definition notify_file_request_cb (n i kind size : Z) (filename : bytes) (filename_length : Z) : outcome (list dht_report) :=
  s ← Persist.string_at filename; Ok [ReportFileRequest n i s size].

Definition notify_file_control_cb (n i : Z) (control : TOX_FILE_CONTROL) : list dht_report :=
  match control with
  | TOX_FILE_CONTROL_PAUSE => [ReportFilePaused n i]
  | TOX_FILE_CONTROL_RESUME => [ReportFileResumed n i; ReportFileAccepted n i]
  | TOX_FILE_CONTROL_CANCEL => [ReportFileCanceled n i; ReportFileRejected n i]
  | TOX_FILE_CONTROL_other _ => []
  end.
Definition notify_file_chunk_request_cb (n i position length : Z) : list dht_report := [ReportChunkRequest n i position length].
Definition notify_file_chunk_receive_cb (n i position : Z) (data : bytes) : list dht_report := [ReportChunk n i position data].

(** The functions that [dht_new] gives toxcore. *)
Definition tox_callbacks (r : tox_report) : outcome (list dht_report) :=
  match r with
  | self_connection_status c => Ok (notify_connection_cb c)
  | friend_status_message n m => Ok (notify_friend_status_message_cb n m)
  | friend_connection_status n c => Ok (notify_friend_connection_cb n c)
  | friend_status n s => Ok (notify_friend_status_cb n s)
  | friend_request k h => Ok (notify_friend_request_cb k h)
  | friend_message n t m => Ok (notify_friend_message_cb n t m)
  | file_recv n i k size s len => notify_file_request_cb n i k size s len
  | file_recv_control n i c => Ok (notify_file_control_cb n i c)
  | file_chunk_request n i pos len => Ok (notify_file_chunk_request_cb n i pos len)
  | file_recv_chunk n i pos d => Ok (notify_file_chunk_receive_cb n i pos d)
  end.

Fixpoint translate (l : list tox_report) : outcome (list dht_report) :=
  match l with [] => Ok [] | r :: l => a ← tox_callbacks r; b ← translate l; Ok (a ++ b) end.

(** ** Calls *)

Section Calls.
Context {T : Type} {TX : Tox T}.
Implicit Types t : T.

Definition dht_new (data : bytes) (udp : bool) t : Z * T :=
  let options := mkToxOptions true false udp (if 0 <? zlen data then Some data else None) in
  let '(tox, error, t) := tox_new options t in
  if negb tox then (__dht_new_error error, t) else (0, t).

(** The two calls for a host; [None] when both succeed. *)
Definition bootstrap_host (host : bytes) (port : Z) (key : bytes) t : option Z * T :=
  let '(ok, error, t) := tox_bootstrap host (u16 port) key t in
  if negb ok then (Some (__dht_bootstrap_error error), t)
  else
    let '(ok, error, t) := tox_add_tcp_relay host (u16 port) key t in
    if negb ok then (Some (__dht_bootstrap_error error), t) else (None, t).

Definition not_empty (s : bytes) : bool := match s with [] => false | _ => true end.

Definition dht_bootstrap (ipv4 ipv6 : bytes) (port : Z) (key : bytes) t : outcome (Z * T) :=
  _ ← c_assert 681 (not_empty ipv4 || not_empty ipv6);
  _ ← c_assert 682 (0 <? port);
  let '(r, t) := if not_empty ipv4 then bootstrap_host ipv4 port key t else (None, t) in
  match r with
  | Some rc => Ok (rc, t)
  | None =>
      let '(r, t) := if not_empty ipv6 then bootstrap_host ipv6 port key t else (None, t) in
      Ok (default 0 r, t)
  end.

Definition dht_self_set_nospam (nospam : Z) t : T := tox_self_set_nospam nospam t.
Definition dht_self_get_nospam t : Z := tox_self_get_nospam t.
Definition dht_self_get_secret_key t : bytes := tox_self_get_secret_key t.
Definition dht_self_set_status (status : Z) t : T := tox_self_set_status status t.
Definition dht_self_get_status t : Z := tox_self_get_status t.

(** The result, and what the callback is given. *)
Definition dht_get_self_info t : Z * self_info :=
  (0, mkSelf (tox_self_get_address t) (tox_self_get_public_key t) (tox_self_get_status t) (tox_self_get_status_message t)).

(** The loop over the friends, which calls [cb] for each until it returns false; [desc]
    is the array that the descriptions are written to. [W] is the state that the
    callback changes, in which toxcore has the state that [tox_of] tells. *)
Section Friends.
Context {W : Type} (tox_of : W -> T) (cb : dht_friend -> W -> outcome (bool * W)).

Fixpoint friends_loop (l : list Z) (desc : bytes) (w : W) : outcome (Z * W) :=
  match l with
  | [] => Ok (0, w)
  | n :: l =>
      let '(desc_len, error) := tox_friend_get_status_message_size n (tox_of w) in
      match error with
      | TOX_ERR_FRIEND_QUERY_OK =>
          let '(success, message, error) := tox_friend_get_status_message n (tox_of w) in
          if negb success then Ok (__dht_friend_query_error error, w)
          else
            desc ← mem_write desc 0 message;
            let '(user_status, error) := tox_friend_get_status n (tox_of w) in
            match error with
            | TOX_ERR_FRIEND_QUERY_OK =>
                let '(success, key, error) := tox_friend_get_public_key n (tox_of w) in
                if negb success then Ok (__dht_friend_get_pk_error error, w)
                else
                  d ← mem_read desc 0 desc_len;
                  r ← cb (mkDhtFriend n key user_status d) w;
                  if (fst r : bool) then friends_loop l desc (snd r) else Ok (0, snd r)
            | _ => Ok (__dht_friend_query_error error, w)
            end
      | _ => Ok (__dht_friend_query_error error, w)
      end
  end.

Definition dht_get_friends (w : W) : outcome (Z * W) :=
  friends_loop (tox_self_get_friend_list (tox_of w)) (Persist.zeros TOX_MAX_STATUS_MESSAGE_LENGTH) w.

End Friends.

Definition dht_get_savedata_size t : Z := zlen (tox_get_savedata t).
Definition dht_get_savedata t : bytes := tox_get_savedata t.
Definition dht_iteration_idle t : Z := s32 (tox_iteration_interval t).

Definition dht_iterate t : outcome (list dht_report * T) :=
  let '(l, t) := tox_iterate t in l ← translate l; Ok (l, t).

Definition dht_self_set_name (name : bytes) t : Z * T :=
  let '(success, error, t) := tox_self_set_name name t in ((if success then 0 else __dht_set_info_error error), t).
Definition dht_self_set_desc (desc : bytes) t : Z * T :=
  let '(success, error, t) := tox_self_set_status_message desc t in ((if success then 0 else __dht_set_info_error error), t).

(** The result and the number of the friend. *)
Definition dht_get_friend_number (key : bytes) t : Z * Z :=
  let '(n, error) := tox_friend_by_public_key key t in ((if n =? UINT32_MAX then __dht_friend_by_pk_error error else 0), n).

(** [friend_number] is what the variable for the number holds before. *)
Definition dht_friend_add (friend_number : Z) (address msg : bytes) t : outcome (Z * Z * T) :=
  _ ← c_assert 950 (0 <? zlen msg);
  let '(fid, error, t) := tox_friend_add address msg t in
  Ok (if fid =? UINT32_MAX then (__dht_friend_add_error error, friend_number, t) else (0, fid, t)).
Definition dht_friend_add_norequest (friend_number : Z) (key : bytes) t : Z * Z * T :=
  let '(fid, error, t) := tox_friend_add_norequest key t in
  if fid =? UINT32_MAX then (__dht_friend_add_error error, friend_number, t) else (0, fid, t).

Definition dht_friend_message (n : Z) (data : bytes) t : outcome (Z * T) :=
  _ ← c_assert 993 (negb (n =? UINT32_MAX));
  _ ← c_assert 994 (0 <? zlen data);
  let '(error, t) := tox_friend_send_message n data t in
  match error with TOX_ERR_FRIEND_SEND_MESSAGE_OK => Ok (0, t) | _ => Ok (__dht_friend_send_msg_error error, t) end.

Definition dht_friend_delete (n : Z) t : outcome (Z * T) :=
  _ ← c_assert 1013 (negb (n =? UINT32_MAX));
  let '(error, t) := tox_friend_delete n t in
  match error with TOX_ERR_FRIEND_DELETE_OK => Ok (0, t) | _ => Ok (__dht_friend_delete_error error, t) end.

(** The digits of a number below 1000, and [inet_ntoa] of the four bytes of an address. *)
Definition decimal (x : Z) : bytes :=
  (if 100 <=? x then [48 + x / 100] else []) ++ (if 10 <=? x then [48 + x / 10 mod 10] else []) ++ [48 + x mod 10].
Definition inet_ntoa (ip : bytes) : bytes :=
  match ip with
  | [] => []
  | x :: ip => decimal x ++ concat (map (fun y => 46 :: decimal y) ip)
  end.

(** [buflen] is the size of the array for the address of the relay; the result, what is
    written there, and the key. *)
Definition dht_get_random_tcp_relay (buflen : Z) t : Z * bytes * bytes * T :=
  let '(rc, ip, key, t) := tox_self_get_random_tcp_relay t in
  if rc <? 0 then (rc, [], key, t)
  else
    let addr := inet_ntoa ip in
    if buflen <=? zlen addr then (-1, [], key, t) else (0, addr, key, t).

(** The last part of a path, in an array of the size of a name and its terminator. *)
Definition base_name (fullpath : bytes) : outcome bytes :=
  b ← strncpy fresh (IOEX_MAX_FILE_NAME_LEN + 1)
        (match strrchr 47 fullpath with None => fullpath | Some k => drop (S k) fullpath end);
  Persist.string_at b.

(** [filesize] is the size of the file when it can be opened, [filenum] what the variable
    for the number of the file holds before. *)
Definition dht_file_send_request (n : Z) (fullpath : bytes) (filesize : option Z) (filenum : Z) t : outcome (Z * Z * T) :=
  match filesize with
  | None => Ok (Mux.IOEX_GENERAL_ERROR IOEXERR_FILE_INVALID, filenum, t)
  | Some filesize =>
      filename ← base_name fullpath;
      let '(i, error, t) := tox_file_send n filesize filename t in
      Ok (__dht_file_send_error error, i, t)
  end.

Definition control_file (control : TOX_FILE_CONTROL) (n i : Z) t : Z * T :=
  let '(_, error, t) := tox_file_control n i control t in (__dht_file_control_error error, t).
Definition dht_file_send_accept (n i : Z) t : Z * T := control_file TOX_FILE_CONTROL_RESUME n i t.
Definition dht_file_send_seek (n i position : Z) t : Z * T :=
  let '(_, error, t) := tox_file_seek n i position t in (__dht_file_seek_error error, t).
Definition dht_file_send_reject (n i : Z) t : Z * T := control_file TOX_FILE_CONTROL_CANCEL n i t.
Definition dht_file_send_pause (n i : Z) t : Z * T := control_file TOX_FILE_CONTROL_PAUSE n i t.
Definition dht_file_send_resume (n i : Z) t : Z * T := control_file TOX_FILE_CONTROL_RESUME n i t.
Definition dht_file_send_cancel (n i : Z) t : Z * T := control_file TOX_FILE_CONTROL_CANCEL n i t.
Definition dht_file_send_chunk (n i position : Z) (data : bytes) t : Z * T :=
  let '(_, error, t) := tox_file_send_chunk n i position data t in (__dht_file_send_chunk_error error, t).

End Calls.

(** ** The interface of the node

    The environment of a node is toxcore, with state [T], and the rest of the host, with
    state [H]. *)

Class Host (H : Type) := {
  host_alloc : H -> bool * H;
  host_time : H -> Z * H;
  host_rand : H -> Z * H;
  host_quit : H -> bool * H;
  host_file : file_op -> bytes -> H -> bool * H;
  host_nonce : H -> bytes * H;
  host_beforenm : bytes -> bytes -> option bytes;
}.

Section Instances.
Context {T H : Type} {TX : Tox T} {HO : Host H}.
Notation env := (T * H)%type.

Definition on_host {A} (f : H -> A * H) (e : env) : A * env := let '(a, h) := f (snd e) in (a, (fst e, h)).
Definition on_tox {A} (f : T -> A * T) (e : env) : A * env := let '(a, t) := f (fst e) in (a, (t, snd e)).
Definition on_tox_ok {A} (f : T -> outcome (A * T)) (e : env) : outcome (A * env) := r ← f (fst e); Ok (fst r, (snd r, snd e)).
Definition set_tox (f : T -> T) (e : env) : env := (f (fst e), snd e).

(** Before a friend is added, the variable for the number has the result of a search
    that has found none. *)
#[export] Instance tox_dht : Carrier.Dht env := {
  Carrier.carrier_alloc := on_host host_alloc;
  Carrier.dht_get_friend_number k e := dht_get_friend_number k (fst e);
  Carrier.dht_friend_add a m := on_tox_ok (dht_friend_add UINT32_MAX a m);
  Carrier.dht_friend_add_norequest k := on_tox (dht_friend_add_norequest UINT32_MAX k);
  Carrier.dht_friend_message n d := on_tox_ok (dht_friend_message n d);
  Carrier.dht_friend_delete n e := r ← on_tox_ok (dht_friend_delete n) e; Ok (snd r);
  Carrier.dht_self_set_desc d e := snd (on_tox (dht_self_set_desc d) e);
  Carrier.dht_self_set_status s := set_tox (dht_self_set_status s);
  Carrier.dht_self_get_status e := dht_self_get_status (fst e);
  Carrier.dht_get_savedata e := dht_get_savedata (fst e);
  Carrier.time := on_host host_time;
  Carrier.rand := on_host host_rand;
}.

(** The friends, in a list. *)
Definition collect (f : dht_friend) (w : T * list dht_friend) : outcome (bool * (T * list dht_friend)) := Ok (true, (fst w, snd w ++ [f])).

#[export] Instance tox_start : DhtStart env := {
  CarrierStart.dht_new d u := on_tox (dht_new d u);
  CarrierStart.dht_get_self_info e := dht_get_self_info (fst e);
  CarrierStart.dht_get_friends e := r ← dht_get_friends fst collect (fst e, []); Ok (fst r, snd (snd r));
}.

#[export] Instance tox_run : DhtRun env := {
  CarrierRun.dht_bootstrap i4 i6 p k := on_tox_ok (dht_bootstrap i4 i6 p k);
  CarrierRun.dht_iteration_idle e := (dht_iteration_idle (fst e), e);
  CarrierRun.dht_iterate := on_tox_ok dht_iterate;
  CarrierRun.quit := on_host host_quit;
  CarrierRun.dht_self_set_nospam n := set_tox (dht_self_set_nospam n);
  CarrierRun.dht_self_get_nospam e := dht_self_get_nospam (fst e);
  CarrierRun.dht_get_random_tcp_relay n e :=
    let '(rc, s, k, t) := dht_get_random_tcp_relay n (fst e) in (rc, s, k, (t, snd e));
  CarrierRun.dht_self_get_secret_key e := dht_self_get_secret_key (fst e);
  CarrierRun.crypto_random_nonce := on_host host_nonce;
  CarrierRun.crypto_box_beforenm := host_beforenm;
}.

Definition dht_control (c : file_control) (n i : Z) (t : T) : Z * T :=
  match c with
  | Seek position => dht_file_send_seek n i position t
  | Accept => dht_file_send_accept n i t
  | Reject => dht_file_send_reject n i t
  | Pause => dht_file_send_pause n i t
  | Resume => dht_file_send_resume n i t
  | Cancel => dht_file_send_cancel n i t
  end.

#[export] Instance tox_files : FileSystem env := {
  CarrierFiles.file_allowed o p := on_host (host_file o p);
  CarrierFiles.dht_file_send_request n p size := on_tox_ok (dht_file_send_request n p size UINT32_MAX);
  CarrierFiles.dht_file_control c n i := on_tox (dht_control c n i);
  CarrierFiles.dht_file_send_chunk n i pos d := on_tox (dht_file_send_chunk n i pos d);
}.

End Instances.

End DhtAdaptor.
