(* ===== verification/DhtThm.v ===== *)
(** * The DHT adaptor, theorems

    What the node hears of toxcore, and that toxcore under the adaptor is a DHT as the
    files of the node expect it. *)

From Stdlib Require Import ZArith Lia.
From stdpp Require Import prelude gmap list.
From S2P Require Import Prelude Base58 Crypto CryptoThm Mux CStr Tables Node Persist PersistThm Cp Carrier CarrierCalls CarrierStart CarrierDemo CarrierThm CarrierInvite CarrierFiles CarrierFilesThm CarrierRun CarrierRunThm DhtAdaptor.

Module DhtThm.
Import CStr Tables Node CarrierStart CarrierThm CarrierFiles CarrierRun CarrierRunThm DhtAdaptor.

(** ** Error codes *)

(** A translation of error codes: 0 for the one that says that all is well, and a
    negative number for any other. *)
Class ErrorMap {C : Type} (f : C -> Z) (fine : C) : Prop :=
  error_map c : c = fine /\ f c = 0 \/ c <> fine /\ f c < 0.

Lemma dht_error_negative code : IOEX_DHT_ERROR code < 0.
Proof. apply Mux.mk_error_negative. Qed.

Ltac error_map := intros []; ((by left) || (right; split; [done|apply dht_error_negative])).

#[export] Instance new_errors : ErrorMap __dht_new_error TOX_ERR_NEW_OK. Proof. error_map. Qed.
#[export] Instance bootstrap_errors : ErrorMap __dht_bootstrap_error TOX_ERR_BOOTSTRAP_OK. Proof. error_map. Qed.
#[export] Instance query_errors : ErrorMap __dht_friend_query_error TOX_ERR_FRIEND_QUERY_OK. Proof. error_map. Qed.
#[export] Instance get_pk_errors : ErrorMap __dht_friend_get_pk_error TOX_ERR_FRIEND_GET_PUBLIC_KEY_OK. Proof. error_map. Qed.
#[export] Instance set_info_errors : ErrorMap __dht_set_info_error TOX_ERR_SET_INFO_OK. Proof. error_map. Qed.
#[export] Instance by_pk_errors : ErrorMap __dht_friend_by_pk_error TOX_ERR_FRIEND_BY_PUBLIC_KEY_OK. Proof. error_map. Qed.
#[export] Instance add_errors : ErrorMap __dht_friend_add_error TOX_ERR_FRIEND_ADD_OK. Proof. error_map. Qed.
#[export] Instance send_msg_errors : ErrorMap __dht_friend_send_msg_error TOX_ERR_FRIEND_SEND_MESSAGE_OK. Proof. error_map. Qed.
#[export] Instance delete_errors : ErrorMap __dht_friend_delete_error TOX_ERR_FRIEND_DELETE_OK. Proof. error_map. Qed.
#[export] Instance file_send_errors : ErrorMap __dht_file_send_error TOX_ERR_FILE_SEND_OK. Proof. error_map. Qed.
#[export] Instance file_seek_errors : ErrorMap __dht_file_seek_error TOX_ERR_FILE_SEEK_OK. Proof. error_map. Qed.
#[export] Instance file_control_errors : ErrorMap __dht_file_control_error TOX_ERR_FILE_CONTROL_OK. Proof. error_map. Qed.
#[export] Instance send_chunk_errors : ErrorMap __dht_file_send_chunk_error TOX_ERR_FILE_SEND_CHUNK_OK. Proof. error_map. Qed.

Lemma error_map_zero {C} (f : C -> Z) fine c : ErrorMap f fine -> f c = 0 <-> c = fine.
Proof. intros Hf. destruct (Hf c) as [[-> H]|[Hn H]]; split; intros; [done|done|lia|done]. Qed.

Lemma error_map_le {C} (f : C -> Z) fine c : ErrorMap f fine -> f c <= 0.
Proof. intros Hf. destruct (Hf c) as [[_ H]|[_ H]]; lia. Qed.

Lemma error_map_fails {C} (f : C -> Z) fine c : ErrorMap f fine -> c <> fine -> f c < 0.
Proof. intros Hf Hc. by destruct (Hf c) as [[]|[_ H]]. Qed.

(** ** What toxcore promises *)

(** What toxcore's documentation says: the number of a friend has 32 bits, the greatest
    of them says that there is none, and then the code tells why; the code is not the
    one of success when a call fails, and is when it succeeds; friends that are listed
    can be asked for, their message has the size that is told and no more than the
    greatest, and a public key has 32 bytes. *)
Class ToxLaws (T : Type) {TX : Tox T} : Prop := {
  number_bits : forall a m t, 0 <= (tox_friend_add a m t).1.1 <= UINT32_MAX;
  number_norequest : forall k t, 0 <= (tox_friend_add_norequest k t).1.1 <= UINT32_MAX;
  number_listed : forall t, Forall (fun n => 0 <= n < UINT32_MAX) (tox_self_get_friend_list t);
  add_fails : forall a m t, (tox_friend_add a m t).1.1 = UINT32_MAX <-> (tox_friend_add a m t).1.2 <> TOX_ERR_FRIEND_ADD_OK;
  norequest_fails : forall k t,
    (tox_friend_add_norequest k t).1.1 = UINT32_MAX <-> (tox_friend_add_norequest k t).1.2 <> TOX_ERR_FRIEND_ADD_OK;
  bootstrap_fails : forall h p k t, (tox_bootstrap h p k t).1.1 = true <-> (tox_bootstrap h p k t).1.2 = TOX_ERR_BOOTSTRAP_OK;
  relay_fails : forall h p k t, (tox_add_tcp_relay h p k t).1.1 = true <-> (tox_add_tcp_relay h p k t).1.2 = TOX_ERR_BOOTSTRAP_OK;
  listed_size : forall t n, n ∈ tox_self_get_friend_list t ->
    (tox_friend_get_status_message_size n t).2 = TOX_ERR_FRIEND_QUERY_OK /\ (tox_friend_get_status_message n t).1.1 = true /\
    (tox_friend_get_status_message_size n t).1 = zlen (tox_friend_get_status_message n t).1.2 /\
    zlen (tox_friend_get_status_message n t).1.2 <= TOX_MAX_STATUS_MESSAGE_LENGTH;
  listed_status : forall t n, n ∈ tox_self_get_friend_list t -> (tox_friend_get_status n t).2 = TOX_ERR_FRIEND_QUERY_OK;
  listed_key : forall t n, n ∈ tox_self_get_friend_list t -> (tox_friend_get_public_key n t).1.1 = true;
}.

Section Node.
Context {T H : Type} {TX : Tox T} {HO : Host H} {TL : ToxLaws T}.
Notation env := (T * H)%type.

(** ** New friends *)

(** The number that [tox_friend_add] gives is taken when it is one, and is an error
    otherwise. *)
#[export] Instance tox_numbers : @DhtNumbers env tox_dht.
Proof.
  split; cbn [Carrier.dht_friend_add Carrier.dht_friend_add_norequest tox_dht].
  - intros a d e rc n e' Hr Hrc. unfold on_tox_ok, dht_friend_add in Hr. inv_bind. subst.
    pose proof (number_bits a d e.1) as Hb. pose proof (proj1 (add_fails a d e.1)) as Hf.
    destruct (tox_friend_add a d e.1) as [[fid err] t]. cbn [fst snd] in *.
    injection Hr0 as <-. destruct (Z.eqb_spec fid UINT32_MAX) as [Heq|Hne]; cbn in Hr; injection Hr as Hrc' Hn'.
    + pose proof (error_map_fails _ _ err add_errors (Hf Heq)). lia.
    + lia.
  - intros k e rc n e' Hr Hrc. unfold on_tox, dht_friend_add_norequest in Hr.
    pose proof (number_norequest k e.1) as Hb. pose proof (proj1 (norequest_fails k e.1)) as Hf.
    destruct (tox_friend_add_norequest k e.1) as [[fid err] t]. cbn [fst snd] in *.
    destruct (Z.eqb_spec fid UINT32_MAX) as [Heq|Hne]; injection Hr as Hrc' Hn' _; [|lia].
    pose proof (error_map_fails _ _ err add_errors (Hf Heq)). lia.
Qed.

(** ** The list of friends *)

(** Calls of [cb] for the friends of a list until it returns false; [rc] is the result
    at the end of the list. *)
Fixpoint walk {W} (cb : dht_friend -> W -> outcome (bool * W)) (rc : Z) (l : list dht_friend) (w : W) : outcome (Z * W) :=
  match l with
  | [] => Ok (rc, w)
  | f :: l => r ← cb f w; if (fst r : bool) then walk cb rc l (snd r) else Ok (0, snd r)
  end.

(** What toxcore says of a friend. *)
Definition told (t : T) (n : Z) : dht_friend :=
  mkDhtFriend n (tox_friend_get_public_key n t).1.2 (tox_friend_get_status n t).1 (tox_friend_get_status_message n t).1.2.

(** The loop over friends that can be asked for: each is told to the callback, with its
    own description whatever the array held before. *)
Lemma friends_loop_walks {W} (tox_of : W -> T) cb t : (forall f w r, cb f w = Ok r -> tox_of (snd r) = tox_of w) ->
  forall l desc w, tox_of w = t -> (forall n, n ∈ l -> n ∈ tox_self_get_friend_list t) ->
  zlen desc = TOX_MAX_STATUS_MESSAGE_LENGTH -> friends_loop tox_of cb l desc w = walk cb 0 (map (told t) l) w.
Proof.
  intros Hcb l. induction l as [|n l IH]; intros desc w Hw Hl Hd; cbn [friends_loop map walk]; [done|].
  pose proof (Hl n (list_elem_of_here _ _)) as Hn. rewrite Hw.
  destruct (listed_size t n Hn) as (H1 & H2 & H3 & H4). pose proof (listed_status t n Hn) as H5. pose proof (listed_key t n Hn) as H6.
  assert (told t n = mkDhtFriend n (tox_friend_get_public_key n t).1.2 (tox_friend_get_status n t).1
    (tox_friend_get_status_message n t).1.2) as Ht by done.
  destruct (tox_friend_get_status_message_size n t) as [len err]. cbn [fst snd] in *. subst err.
  destruct (tox_friend_get_status_message n t) as [[ok message] err]. cbn [fst snd] in *. subst ok len.
  destruct (tox_friend_get_status n t) as [status err2]. destruct (tox_friend_get_public_key n t) as [[ok key] err3].
  cbn [fst snd negb] in *. subst ok err2. unfold mem_write. rewrite Hd, (proj2 (Z.leb_le (0 + zlen message) _)) by lia.
  change (0 <=? 0) with true. cbn [andb]. bind_simpl. cbn [negb]. unfold mem_read.
  assert (ztake 0 desc ++ message ++ zdrop (0 + zlen message) desc = message ++ zdrop (zlen message) desc) as -> by done.
  assert (zlen (message ++ zdrop (zlen message) desc) = TOX_MAX_STATUS_MESSAGE_LENGTH) as Hd'.
  { pose proof (zlen_nonneg message). rewrite zlen_app, zlen_zdrop_le; lia. }
  rewrite Hd', (proj2 (Z.leb_le (0 + zlen message) _)) by lia. rewrite (proj2 (Z.leb_le 0 (zlen message))) by apply zlen_nonneg.
  change (0 <=? 0) with true. cbn [andb]. bind_simpl. change (zdrop 0 ?x) with x. rewrite (ztake_app_len (zlen message)) by done.
  rewrite Ht. destruct (cb _ w) as [r| | |] eqn:Hc; try done. bind_simpl. destruct (fst r); [|done].
  apply IH; [by rewrite (Hcb _ _ _ Hc)|by intros m Hm; apply Hl; right|done].
Qed.

Lemma collect_walk rc l t (acc : list dht_friend) : walk (@collect T) rc l (t, acc) = Ok (rc, (t, acc ++ l)).
Proof.
  revert acc. induction l as [|f l IH]; intros acc; cbn [walk]; [by rewrite app_nil_r|]. change (collect f (t, acc)) with (Ok (true, (t, acc ++ [f]))). bind_simpl. cbn [fst snd].
  by rewrite IH, <- app_assoc.
Qed.

Lemma desc_array : zlen (Persist.zeros TOX_MAX_STATUS_MESSAGE_LENGTH) = Z.max 0 TOX_MAX_STATUS_MESSAGE_LENGTH.
Proof. unfold Persist.zeros, zlen. rewrite length_replicate. lia. Qed.

(** When the array for descriptions has a size below 0 there are no friends: there would
    be no room for a description. *)
Lemma get_friends_walks {W} (tox_of : W -> T) cb w : (forall f w r, cb f w = Ok r -> tox_of (snd r) = tox_of w) ->
  dht_get_friends tox_of cb w = walk cb 0 (map (told (tox_of w)) (tox_self_get_friend_list (tox_of w))) w.
Proof.
  intros Hcb. unfold dht_get_friends. destruct (tox_self_get_friend_list (tox_of w)) as [|n l] eqn:Hl; [done|]. rewrite <- Hl.
  apply friends_loop_walks; [done|done|done|]. rewrite desc_array.
  assert (n ∈ tox_self_get_friend_list (tox_of w)) as Hn by (rewrite Hl; by left).
  destruct (listed_size _ n Hn) as (_ & _ & _ & Hs). pose proof (zlen_nonneg (tox_friend_get_status_message n (tox_of w)).1.2). lia.
Qed.

Lemma start_friends (e : env) :
  CarrierStart.dht_get_friends e = Ok (0, map (told e.1) (tox_self_get_friend_list e.1)).
Proof.
  cbn [CarrierStart.dht_get_friends tox_start]. rewrite get_friends_walks by (by intros f v r [= <-]). cbn [fst].
  by rewrite collect_walk.
Qed.

Lemma tox_reported : @friends_reported env tox_start.
Proof.
  intros e rc l. rewrite start_friends. intros [= _ <-]. unfold reported. rewrite Forall_map.
  eapply Forall_impl; [apply number_listed|]. intros n Hn. cbn in *. lia.
Qed.

End Node.

Section OnToxcore.
Context {T H : Type} {TX : Tox T} {HO : Host H} {TL : ToxLaws T}.
Notation env := (T * H)%type.
Context {SY : Persist.System env} {NC : Crypto.Nacl} {FB : Cp.FlatBuffers env}.
Notation world := (@Carrier.world env).
Implicit Types w : world.

Definition tox_state w : T := fst (Carrier.env w).

Lemma alloc_tox w : tox_state (snd (Carrier.ask Carrier.carrier_alloc w)) = tox_state w.
Proof. unfold Carrier.ask, tox_state. cbn [Carrier.carrier_alloc tox_dht]. unfold on_host. by destruct (host_alloc _). Qed.

Lemma unpack_tox d i w r : Carrier.unpack_user_desc d i w = Ok r -> tox_state (snd r) = tox_state w.
Proof.
  unfold Carrier.unpack_user_desc. intros Hu. apply bind_ok in Hu as ([] & _ & Hu). pose proof (alloc_tox w) as Ha.
  destruct (Carrier.ask Carrier.carrier_alloc w) as [ok w1]. cbn [snd] in Ha. apply bind_ok in Hu as (c & _ & Hu).
  destruct c as [cp|]; [|by injection Hu as <-]. destruct (negb _); [by injection Hu as <-|]. inv_bind. by subst r.
Qed.

Lemma iterate_cb_tox f w r : friends_iterate_cb f w = Ok r -> tox_state (snd r) = tox_state w.
Proof.
  unfold friends_iterate_cb. intros Hu. apply bind_ok in Hu as ([] & _ & Hu). pose proof (alloc_tox w) as Ha.
  destruct (Carrier.ask Carrier.carrier_alloc w) as [ok w1]. cbn [snd] in Ha. destruct (negb ok); [by injection Hu as <-|].
  apply bind_ok in Hu as (id & _ & Hu). apply bind_ok in Hu as (u & Hd & Hu). assert (tox_state (snd u) = tox_state w) as H2.
  { destruct (0 <? _); [|by injection Hd as <-]. apply unpack_tox in Hd. by rewrite Hd. }
  destruct u as [[[u c]|] w2]; injection Hu as <-; exact H2.
Qed.

Lemma enter_walk l w : walk friends_iterate_cb 0 l w = (w' ← enter_friends l w; Ok (0, w')).
Proof.
  revert w. induction l as [|f l IH]; intros w; cbn [walk enter_friends]; [done|].
  destruct (friends_iterate_cb f w) as [[b w1]| | |]; try done. bind_simpl. cbn [fst snd]. destruct b; [apply IH|done].
Qed.

(** What the code does at a start is what the node's interface to its DHT says: the
    loop of dht_get_friends over toxcore's friends, with the callback that enters each
    of them into the node, does the same as entering the list of them, which has every
    friend of toxcore once, in its order, with the key, the status and the description
    that toxcore tells, whatever was written over the array of descriptions before. *)
Theorem friends_entered_as_listed w :
  exists l, CarrierStart.dht_get_friends (Carrier.env w) = Ok (0, l) /\
    l = map (told (tox_state w)) (tox_self_get_friend_list (tox_state w)) /\
    dht_get_friends tox_state friends_iterate_cb w = (w' ← enter_friends l w; Ok (0, w')).
Proof.
  eexists. split; [apply start_friends|]. split; [done|]. rewrite get_friends_walks by apply iterate_cb_tox. apply enter_walk.
Qed.


(** ** Bootstraps *)

(** toxcore takes a host as a node and as a relay. *)
Definition takes_host (host : bytes) (port : Z) (key : bytes) (t t' : T) : Prop :=
  exists t1, tox_bootstrap host (u16 port) key t = (true, TOX_ERR_BOOTSTRAP_OK, t1) /\
    tox_add_tcp_relay host (u16 port) key t1 = (true, TOX_ERR_BOOTSTRAP_OK, t').
Definition takes_if_given (host : bytes) (port : Z) (key : bytes) (t t' : T) : Prop :=
  if not_empty host then takes_host host port key t t' else t' = t.

Lemma host_spec host port key t r t' : bootstrap_host host port key t = (r, t') ->
  match r with None => takes_host host port key t t' | Some rc => rc < 0 /\ forall t2, ~ takes_host host port key t t2 end.
Proof.
  unfold bootstrap_host. pose proof (bootstrap_fails host (u16 port) key t) as Hb.
  unfold takes_host. destruct (tox_bootstrap host (u16 port) key t) as [[ok err] t1]. cbn [fst snd] in Hb. destruct ok; cbn [negb].
  - rewrite (proj1 Hb eq_refl). pose proof (relay_fails host (u16 port) key t1) as Hr. destruct (tox_add_tcp_relay host (u16 port) key t1) as [[ok err2] t2] eqn:E2.
    cbn [fst snd] in Hr. destruct ok; cbn [negb]; intros [= <- <-].
    + rewrite <- (proj1 Hr eq_refl). by exists t1.
    + split; [|intros t3 (t4 & [= <-] & H4); congruence].
      apply (error_map_fails _ TOX_ERR_BOOTSTRAP_OK); [apply bootstrap_errors|]. intros ->. by specialize (proj2 Hr eq_refl).
  - intros [= <- <-]. split; [|by intros t3 (t4 & [= ? ?] & _)].
    apply (error_map_fails _ TOX_ERR_BOOTSTRAP_OK); [apply bootstrap_errors|]. intros ->. by specialize (proj2 Hb eq_refl).
Qed.

Lemma given_spec host port key t r t' :
  (if not_empty host then bootstrap_host host port key t else (None, t)) = (r, t') ->
  match r with None => takes_if_given host port key t t' | Some rc => rc < 0 /\ forall t2, ~ takes_if_given host port key t t2 end.
Proof. unfold takes_if_given. destruct (not_empty host); [apply host_spec|by intros [= <- <-]]. Qed.

Lemma takes_functional host port key t t1 t2 : takes_if_given host port key t t1 -> takes_if_given host port key t t2 -> t1 = t2.
Proof.
  unfold takes_if_given, takes_host. destruct (not_empty host); [|congruence]. intros (a & H1 & H2) (b & H3 & H4).
  rewrite H1 in H3. injection H3 as ->. congruence.
Qed.

Definition has_address (b : BootstrapNodeBuf) : Prop := not_empty (buf_ipv4 b) || not_empty (buf_ipv6 b) = true /\ 0 < buf_port b.

(** The call aborts, or returns 0 exactly when toxcore has taken every address. *)
Lemma bootstrap_spec ipv4 ipv6 port key t : not_empty ipv4 || not_empty ipv6 = true -> 0 < port ->
  exists rc t', dht_bootstrap ipv4 ipv6 port key t = Ok (rc, t') /\ rc <= 0 /\
    (rc = 0 <-> exists t1, takes_if_given ipv4 port key t t1 /\ exists t2, takes_if_given ipv6 port key t1 t2).
Proof.
  intros Ha Hp. unfold dht_bootstrap. rewrite Ha, (proj2 (Z.ltb_lt 0 port) Hp). cbn [c_assert]. bind_simpl.
  destruct (if not_empty ipv4 then _ else _) as [r t1] eqn:H1. apply given_spec in H1. destruct r as [rc|].
  - exists rc, t1. destruct H1 as [Hn Hno]. split; [done|]. split; [lia|]. split; [lia|]. intros (t2 & H2 & _). by destruct (Hno t2).
  - destruct (if not_empty ipv6 then _ else _) as [r t2] eqn:H2. apply given_spec in H2. exists (default 0 r), t2. split; [done|].
    destruct r as [rc|]; cbn.
    + destruct H2 as [Hn Hno]. split; [lia|]. split; [lia|]. intros (t3 & H3 & t4 & H4).
      rewrite (takes_functional _ _ _ _ _ _ H3 H1) in H4. by destruct (Hno t4).
    + split; [lia|]. split; [|done]. intros _. by exists t1; split; [|exists t2].
Qed.

Lemma bootstraps_spec l (v : @CarrierFiles.fworld env) :
  (Forall has_address l -> is_ok (connect_to_bootstraps l v)) /\
  (~ Forall has_address l -> connect_to_bootstraps l v = AssertFail 681 \/ connect_to_bootstraps l v = AssertFail 682).
Proof.
  revert v. induction l as [|b l IH]; intros v; cbn [connect_to_bootstraps].
  { split; [by intros _; eexists|intros Hn; by destruct Hn]. }
  cbn [CarrierRun.dht_bootstrap tox_run]. unfold on_tox_ok. set (t := (Carrier.env (base v)).1).
  destruct (not_empty (buf_ipv4 b) || not_empty (buf_ipv6 b)) eqn:Ha; [destruct (Z.ltb_spec 0 (buf_port b)) as [Hp|Hp]|].
  - destruct (bootstrap_spec _ _ _ (buf_key b) t Ha Hp) as (rc & t' & -> & _). bind_simpl.
    destruct (IH (on_base (Carrier.with_env (t', (Carrier.env (base v)).2)) v)) as [H1 H2]. split.
    + intros [_ Hl]%Forall_cons. by apply H1.
    + intros Hn. apply H2. intros Hl. apply Hn. by constructor.
  - unfold dht_bootstrap. rewrite Ha, (proj2 (Z.ltb_ge _ _) Hp). split; [intros [[_ Hx] _]%Forall_cons; lia|by right].
  - unfold dht_bootstrap. rewrite Ha. split; [|by left]. intros [[Hx _] _]%Forall_cons. by rewrite Ha in Hx.
Qed.

(** The bootstrap nodes of the options: a run tells toxcore each of them, and
    toxcore's refusals are no obstacle; but when one of them has no address or the port
    0 the process is aborted by an assertion as soon as it runs, although the check of
    the options lets such nodes pass: with any text that reads as a number for a port,
    also one whose low 16 bits are zero, and with an address that is an empty text. *)
Theorem bad_bootstrap_aborts l fuel interval (v : @CarrierFiles.fworld env) : 0 <= interval ->
  (Forall has_address l -> is_ok (connect_to_bootstraps l (on_base Carrier.notify_friends v))) /\
  (~ Forall has_address l -> IOEX_run fuel l interval v = AssertFail 681 \/ IOEX_run fuel l interval v = AssertFail 682) /\
  (forall b x text n, copy_bootstrap b = Ok (Some x) -> strtol text = (n, []) ->
     copy_bootstrap (mkBootstrap (ipv4 b) (ipv6 b) text (bootstrap_key b)) = Ok (Some (mkBuf (buf_ipv4 x) (buf_ipv6 x) (u16 n) (buf_key x))) /\
     copy_bootstrap (mkBootstrap (Some []) None text (bootstrap_key b)) = Ok (Some (mkBuf [] [] (u16 n) (buf_key x)))).
Proof.
  intros Hi. split; [apply bootstraps_spec|]. split.
  - intros Hn. unfold IOEX_run. rewrite (proj2 (Z.ltb_ge interval 0) Hi). cbv zeta.
    destruct (proj2 (bootstraps_spec l (on_base Carrier.notify_friends v)) Hn) as [->| ->]; [by left|by right].
  - intros b x text n. unfold copy_bootstrap. cbn [ipv4 ipv6 port bootstrap_key]. destruct (_ || _); [discriminate|].
    destruct (_ && _) eqn:He; [discriminate|]. destruct (strtol (port b)) as [v0 rest]. destruct (negb (bool_decide (rest = []))); [discriminate|].
    intros H0 ->. rewrite (bool_decide_eq_true_2 ([] = [])) by done. cbn [negb]. change (zlen (Carrier.or_empty (Some []))) with 0.
    change (zlen (Carrier.or_empty None)) with 0. cbn [Z.ltb Z.compare MAX_IPV4_ADDRESS_LEN MAX_IPV6_ADDRESS_LEN orb].
    rewrite (bool_decide_eq_false_2 (Some [] = None)) by done. cbn [andb].
    apply bind_ok in H0 as ([len key] & Hk & H0). rewrite Hk. bind_simpl. destruct key as [key|]; [|by destruct (len =? _)].
    destruct (len =? Carrier.DHT_PUBLIC_KEY_SIZE); [|discriminate]. by injection H0 as <-.
Qed.

End OnToxcore.

(** ** Controls of files *)

Section Controls.
Context {E : Type} {DH : Carrier.Dht E} {DS : DhtStart E} {DR : DhtRun E} {SY : Persist.System E} {NC : Crypto.Nacl} {FB : Cp.FlatBuffers E} {FS : FileSystem E}.
Implicit Types v : @CarrierFiles.fworld E.

(** What the application hears when it wants to. *)
Definition heard (cb : file_callback) (c : file_call) v : list file_call := if file_callbacks v cb then [c] else [].

Lemma notify_file_heard cb c v : file_calls (notify_file cb c v) = file_calls v ++ heard cb c v.
Proof. unfold notify_file, heard. destruct (file_callbacks v cb); [done|by rewrite app_nil_r]. Qed.

Lemma notify_file_kept cb c v : base (notify_file cb c v) = base v /\ file_callbacks (notify_file cb c v) = file_callbacks v.
Proof. unfold notify_file. by destruct (file_callbacks v cb). Qed.

Lemma resumed_sender n id i ft v : CarrierInvite.friend_of (base v) n id -> is_sender i = true -> CarrierFilesThm.found (file_senders v) n i = Some ft ->
  exists v', CarrierFiles.notify_file_resumed_cb n i v = Ok v' /\ CarrierFilesThm.same_files (notify_file CbFileResumed (app_file_event CbFileResumed id i) v) v'.
Proof.
  intros Hf Hi Hft. unfold CarrierFiles.notify_file_resumed_cb, paused_or_resumed.
  match goal with |- context [file_report ?l n ?u ?k v] => destruct (CarrierFilesThm.report_known l n id v u k Hf) as (v1 & [] & ->) end.
  unfold find_tracker. rewrite Hi. unfold find_file_sender. destruct (CarrierFilesThm.find_cases (file_senders v1) n i v1) as (v2 & -> & []).
  rewrite sf_senders, Hft. eexists. split; [reflexivity|]. unfold notify_file. rewrite sf_callbacks0, sf_callbacks.
  destruct (file_callbacks v CbFileResumed); split; cbn; congruence.
Qed.

Lemma accepted_sender n id i ft v : CarrierInvite.friend_of (base v) n id -> CarrierFilesThm.found (file_senders v) n i = Some ft ->
  exists v', CarrierFiles.notify_file_accepted_cb n i v = Ok v' /\ CarrierFilesThm.same_files (notify_file CbFileAccepted (app_file_event CbFileAccepted id i) v) v'.
Proof.
  intros Hf Hft. unfold CarrierFiles.notify_file_accepted_cb.
  match goal with |- context [file_report ?l n ?u ?k v] => destruct (CarrierFilesThm.report_known l n id v u k Hf) as (v1 & [] & ->) end.
  unfold find_file_sender. destruct (CarrierFilesThm.find_cases (file_senders v1) n i v1) as (v2 & -> & []).
  rewrite sf_senders, Hft. eexists. split; [reflexivity|]. unfold notify_file. rewrite sf_callbacks0, sf_callbacks.
  destruct (file_callbacks v CbFileAccepted); split; cbn; congruence.
Qed.

Lemma canceled_sender n id i ft v : CarrierInvite.friend_of (base v) n id -> is_sender i = true -> CarrierFilesThm.found (file_senders v) n i = Some ft ->
  exists v', CarrierFiles.notify_file_canceled_cb n i v = Ok v' /\
    CarrierFilesThm.same_files (with_senders (remove_tracker (file_senders v) n i) (notify_file CbFileCanceled (app_file_event CbFileCanceled id i) v)) v'.
Proof.
  intros Hf Hi Hft. unfold CarrierFiles.notify_file_canceled_cb.
  match goal with |- context [file_report ?l n ?u ?k v] => destruct (CarrierFilesThm.report_known l n id v u k Hf) as (v1 & [] & ->) end.
  unfold cancel_tracker. rewrite Hi. unfold find_file_sender. destruct (CarrierFilesThm.find_cases (file_senders v1) n i v1) as (v2 & -> & []).
  rewrite sf_senders, Hft. cbn [remove_file_sender]. bind_simpl. destruct (CarrierFilesThm.found_is _ _ _ _ Hft) as [-> ->].
  eexists. split; [reflexivity|]. unfold notify_file. cbn [file_callbacks with_senders]. rewrite sf_callbacks0, sf_callbacks.
  destruct (file_callbacks v CbFileCanceled); split; cbn; congruence.
Qed.

Lemma rejected_unknown n id i v : CarrierInvite.friend_of (base v) n id -> CarrierFilesThm.found (file_senders v) n i = None ->
  exists v', CarrierFiles.notify_file_rejected_cb n i v = Ok v' /\ CarrierFilesThm.same_files v v' /\
    Carrier.error (base v') = Carrier.IOEX_GENERAL_ERROR IOEXERR_FILE_TRACKER_INVALID.
Proof.
  intros Hf Hft. unfold CarrierFiles.notify_file_rejected_cb.
  match goal with |- context [file_report ?l n ?u ?k v] => destruct (CarrierFilesThm.report_known l n id v u k Hf) as (v1 & [] & ->) end.
  unfold find_file_sender. destruct (CarrierFilesThm.find_cases (file_senders v1) n i v1) as (v2 & -> & []).
  rewrite sf_senders, Hft. eexists. split; [reflexivity|]. split; [|done]. split; cbn; congruence.
Qed.

(** The controls of a file that the node sends, as its application hears of them:
    when the friend resumes the file, the application is told first that it has been
    resumed and then that it has been accepted, be it the first time or not; when the
    friend rejects the offer or cancels the transfer, which toxcore does not tell apart,
    the file leaves the list and the application is told that it has been cancelled;
    the report of the rejection that follows no longer finds it, so that the application
    is never told of a rejection, and the last error says that the file is unknown. *)
Theorem controls_heard n id i ft v : CarrierInvite.friend_of (base v) n id -> is_sender i = true ->
  CarrierFilesThm.found (file_senders v) n i = Some ft ->
  (exists v', reports (notify_file_control_cb n i TOX_FILE_CONTROL_RESUME) v = Ok v' /\ file_senders v' = file_senders v /\
     file_calls v' = file_calls v ++ heard CbFileResumed (app_file_event CbFileResumed id i) v
                                  ++ heard CbFileAccepted (app_file_event CbFileAccepted id i) v) /\
  (CarrierFilesThm.found (remove_tracker (file_senders v) n i) n i = None ->
   exists v', reports (notify_file_control_cb n i TOX_FILE_CONTROL_CANCEL) v = Ok v' /\
     file_senders v' = remove_tracker (file_senders v) n i /\
     file_calls v' = file_calls v ++ heard CbFileCanceled (app_file_event CbFileCanceled id i) v /\
     Carrier.error (base v') = Carrier.IOEX_GENERAL_ERROR IOEXERR_FILE_TRACKER_INVALID).
Proof.
  intros Hf Hi Hft. split.
  - destruct (resumed_sender n id i ft v Hf Hi Hft) as (v1 & H1 & S1). set (v0 := notify_file _ _ v) in *.
    assert (base v0 = base v /\ file_callbacks v0 = file_callbacks v) as [Hb Hc] by apply notify_file_kept.
    assert (file_senders v0 = file_senders v) as Hs by apply CarrierFilesThm.notify_file_files.
    assert (CarrierInvite.friend_of (base v1) n id) as Hf1 by (eapply CarrierFilesThm.same_known; [exact S1|by rewrite Hb]).
    destruct (accepted_sender n id i ft v1 Hf1) as (v2 & H2 & S2); [by rewrite (CarrierFilesThm.sf_senders _ _ S1), Hs|].
    exists v2. cbn [notify_file_control_cb reports dht_callbacks]. rewrite H1. bind_simpl. rewrite H2. bind_simpl. split; [done|]. split.
    + rewrite (CarrierFilesThm.sf_senders _ _ S2), (proj1 (proj2 (CarrierFilesThm.notify_file_files _ _ _))).
      by rewrite (CarrierFilesThm.sf_senders _ _ S1).
    + rewrite (CarrierFilesThm.sf_calls _ _ S2), notify_file_heard, (CarrierFilesThm.sf_calls _ _ S1). unfold v0 at 1.
      rewrite notify_file_heard, <- app_assoc. unfold heard. by rewrite (CarrierFilesThm.sf_callbacks _ _ S1), Hc.
  - intros Hno. destruct (canceled_sender n id i ft v Hf Hi Hft) as (v1 & H1 & S1). set (v0 := notify_file _ _ v) in *.
    assert (base v0 = base v) as Hb by apply notify_file_kept.
    assert (CarrierInvite.friend_of (base v1) n id) as Hf1 by (eapply CarrierFilesThm.same_known; [exact S1|cbn [base with_senders]; by rewrite Hb]).
    destruct (rejected_unknown n id i v1 Hf1) as (v2 & H2 & S2 & He); [by rewrite (CarrierFilesThm.sf_senders _ _ S1)|].
    exists v2. cbn [notify_file_control_cb reports dht_callbacks]. rewrite H1. bind_simpl. rewrite H2. bind_simpl. split; [done|]. split_and!; [|..|done].
    + by rewrite (CarrierFilesThm.sf_senders _ _ S2), (CarrierFilesThm.sf_senders _ _ S1).
    + rewrite (CarrierFilesThm.sf_calls _ _ S2), (CarrierFilesThm.sf_calls _ _ S1). cbn [file_calls with_senders]. unfold v0. apply notify_file_heard.
Qed.

End Controls.

(** ** A run

    A toxcore that knows the friend 7 or not, which tells that it is connected and that
    a friend wants a file to be resumed and then cancelled; a host that wants the node to
    stop after one round. *)
Section Demo.
Import CarrierDemo.

Definition demo_known (n : Z) (has : bool) : bool := has && (n =? 7).

#[local] Instance demo_tox : Tox bool := {
  tox_new _ t := (true, TOX_ERR_NEW_OK, t);
  tox_bootstrap _ _ _ t := (true, TOX_ERR_BOOTSTRAP_OK, t);
  tox_add_tcp_relay _ _ _ t := (true, TOX_ERR_BOOTSTRAP_OK, t);
  tox_self_set_nospam _ t := t;
  tox_self_get_nospam _ := 0;
  tox_self_get_secret_key _ := replicate 32 4;
  tox_self_set_status _ t := t;
  tox_self_get_status _ := 0;
  tox_self_get_address _ := Persist.zeros 38;
  tox_self_get_public_key _ := replicate 32 5;
  tox_self_get_status_message _ := [];
  tox_self_get_friend_list t := if t then [7] else [];
  TOX_MAX_STATUS_MESSAGE_LENGTH := 1007;
  tox_friend_get_status_message_size n t := (0, if demo_known n t then TOX_ERR_FRIEND_QUERY_OK else TOX_ERR_FRIEND_QUERY_FRIEND_NOT_FOUND);
  tox_friend_get_status_message n t := (demo_known n t, [], TOX_ERR_FRIEND_QUERY_OK);
  tox_friend_get_status n t := (0, if demo_known n t then TOX_ERR_FRIEND_QUERY_OK else TOX_ERR_FRIEND_QUERY_FRIEND_NOT_FOUND);
  tox_friend_get_public_key n t := (demo_known n t, replicate 32 3, TOX_ERR_FRIEND_GET_PUBLIC_KEY_OK);
  tox_get_savedata _ := [1; 2; 3];
  tox_iteration_interval _ := 50;
  tox_iterate t := ([self_connection_status TOX_CONNECTION_UDP; friend_connection_status 7 TOX_CONNECTION_TCP;
    friend_message 7 (TOX_MESSAGE_TYPE_other 1) [1]; file_recv 7 65536 0 5 [97; 0] 1; file_recv_control 7 65536 TOX_FILE_CONTROL_PAUSE], t);
  tox_self_set_name _ t := (true, TOX_ERR_SET_INFO_OK, t);
  tox_self_set_status_message _ t := (true, TOX_ERR_SET_INFO_OK, t);
  tox_friend_by_public_key _ t := if t then (7, TOX_ERR_FRIEND_BY_PUBLIC_KEY_OK) else (UINT32_MAX, TOX_ERR_FRIEND_BY_PUBLIC_KEY_NOT_FOUND);
  tox_friend_add _ _ t := if t then (UINT32_MAX, TOX_ERR_FRIEND_ADD_ALREADY_SENT, t) else (7, TOX_ERR_FRIEND_ADD_OK, true);
  tox_friend_add_norequest _ t := if t then (UINT32_MAX, TOX_ERR_FRIEND_ADD_ALREADY_SENT, t) else (7, TOX_ERR_FRIEND_ADD_OK, true);
  tox_friend_send_message n _ t :=
    ((if demo_known n t then TOX_ERR_FRIEND_SEND_MESSAGE_OK else TOX_ERR_FRIEND_SEND_MESSAGE_FRIEND_NOT_FOUND), t);
  tox_friend_delete n t := ((if demo_known n t then TOX_ERR_FRIEND_DELETE_OK else TOX_ERR_FRIEND_DELETE_FRIEND_NOT_FOUND), false);
  tox_self_get_random_tcp_relay t := (0, [192; 168; 1; 20], replicate 32 6, t);
  tox_file_send _ _ _ t := (0, TOX_ERR_FILE_SEND_OK, t);
  tox_file_control _ _ _ t := (true, TOX_ERR_FILE_CONTROL_OK, t);
  tox_file_seek _ _ _ t := (true, TOX_ERR_FILE_SEEK_OK, t);
  tox_file_send_chunk _ _ _ _ t := (true, TOX_ERR_FILE_SEND_CHUNK_OK, t);
}.

#[local] Instance demo_tox_laws : ToxLaws bool.
Proof.
  assert (forall (t : bool) n, n ∈ tox_self_get_friend_list t -> demo_known n t = true) as Hk.
  { intros [] n; cbn; [|set_solver]. by intros ->%list_elem_of_singleton. }
  split; cbn; try done.
  - intros _ _ []; cbn; unfold UINT32_MAX; lia.
  - intros _ []; cbn; unfold UINT32_MAX; lia.
  - intros []; repeat constructor; unfold UINT32_MAX; lia.
  - by intros _ _ [].
  - by intros _ [].
  - intros t n Hn. by rewrite (Hk t n Hn).
  - intros t n Hn. by rewrite (Hk t n Hn).
Qed.

#[local] Instance demo_host : Host bool := {
  host_alloc h := (true, h);
  host_time h := (1000, h);
  host_rand h := (42, h);
  host_quit h := (h, true);
  host_file _ _ h := (true, h);
  host_nonce h := (replicate 24 200, h);
  host_beforenm pk sk := Some (take 16 pk ++ take 16 sk);
}.

#[local] Instance demo_tox_system : Persist.System (bool * bool) := {
  Persist.sys_ok _ e := (true, e);
  Persist.sys_written k e := (k, e);
  Persist.sys_errno _ := 5;
  Persist.sys_path _ e := (Persist.IsDir, e);
  Persist.sys_mkdir _ e := (None, e);
}.

(** The address of the relay is a text. *)
Example relay_address : dht_get_random_tcp_relay 64 true = (0, [49; 57; 50; 46; 49; 54; 56; 46; 49; 46; 50; 48], replicate 32 6, true).
Proof. reflexivity. Qed.

Definition tox_node (port : bytes) : outcome (option (list BootstrapNodeBuf) * @Carrier.world (bool * bool)) :=
  IOEX_new (Some (mkOptions (Some [47; 100]) true [mkBootstrap (Some [49; 46; 50]) None port (demo_name 9)])) (Some (fun _ => true))
    (Persist.mkW (true, false) ∅ []).

Definition with_files (w : @Carrier.world (bool * bool)) : @CarrierFiles.fworld (bool * bool) := mkFW w (fun _ => true) [] [] ∅ [].

Example tox_node_run : result (tox_node [51; 51]) fst = Some (Some [mkBuf [49; 46; 50] [] 33 (replicate 32 9)]).
Proof. vm_compute. reflexivity. Qed.

Example tox_loop_run :
  result (r ← tox_node [51; 51]; IOEX_run 2 (default [] (fst r)) 0 (with_files (snd r)))
    (fun r => (length (Carrier.calls (base (snd r))), length (file_receivers (snd r)), length (file_calls (snd r)))) = Some (6%nat, 1%nat, 2%nat).
Proof. vm_compute. reflexivity. Qed.

Definition tox_demo : @Carrier.world (bool * bool) := Carrier.mkW (demo_node 5 (Some 3)) (Persist.mkW (true, false) ∅ []) [] 0 0.

Lemma friends_entered_as_listed_witness :
  dht_get_friends tox_state friends_iterate_cb tox_demo = (w' ← enter_friends [mkDhtFriend 7 (replicate 32 3) 0 []] tox_demo; Ok (0, w')).
Proof.
  destruct (friends_entered_as_listed tox_demo) as (l & _ & Hl & Hd). rewrite Hl in Hd. exact Hd.
Defined.


(** The port is 65536. *)
Example bad_port_accepted : result (tox_node [54; 53; 53; 51; 54]) fst = Some (Some [mkBuf [49; 46; 50] [] 0 (replicate 32 9)]).
Proof. vm_compute. reflexivity. Qed.

Lemma bad_bootstrap_aborts_witness :
  exists p b, tox_node [54; 53; 53; 51; 54] = Ok (Some p, b) /\
    (IOEX_run 1 p 0 (with_files b) = AssertFail 681 \/ IOEX_run 1 p 0 (with_files b) = AssertFail 682).
Proof.
  destruct (run_returns _ _ _ bad_port_accepted) as ([p b] & Hb & Hv). cbn [fst] in Hv. rewrite Hv in Hb.
  eexists _, b. split; [exact Hb|]. apply (bad_bootstrap_aborts _ 1 0 (with_files b)); [lia|].
  intros [[_ Hp] _]%Forall_cons. cbn in Hp. lia.
Defined.

(** The node sends the file 0 to its friend. *)
Definition sending : @CarrierFiles.fworld (bool * bool) := with_senders [mkFile [97; 0] [47; 0] 7 0] (with_files tox_demo).

Lemma controls_heard_witness :
  exists v', reports (notify_file_control_cb 7 0 TOX_FILE_CONTROL_CANCEL) sending = Ok v' /\ file_senders v' = [] /\
    file_calls v' = [app_file_event CbFileCanceled (demo_name 3) 0].
Proof.
  assert (CarrierInvite.friend_of (base sending) 7 (demo_name 3)) as Hf.
  { split; [by vm_compute|]. split; [vm_compute; discriminate|]. eexists. split; [reflexivity|done]. }
  destruct (proj2 (controls_heard 7 (demo_name 3) 0 (mkFile [97; 0] [47; 0] 7 0) sending Hf eq_refl eq_refl) eq_refl) as (v' & H1 & H2 & H3 & _).
  exists v'. split; [exact H1|]. split; [exact H2|exact H3].
Defined.

End Demo.

End DhtThm.
